(* ===== verification/_CoqProject ===== *)
-Q . S2P
Prelude.v
Store.v
Float64.v
Dlist.v
MpRtable.v
MpRtableSpec.v
MpRtableProps.v
MpRtableTheorems.v
Packet.v
PacketQueue.v
Queue.v
DropTail.v
Ring.v
Sfq.v
Drr.v
QueueTheorems.v
Text.v
Array.v
Address.v
AddressTheorems.v
MpSelect.v
MpSelectProps.v
MpSelectTheorems.v
EventQueue.v
ListScheduler.v
Heap.v
HeapProps.v
HeapScheduler.v
Splay.v
SplayProps.v
Scheduler.v
Timer.v
SchedulerTheorems.v
Link.v
LinkProps.v
LinkTheorems.v
Acker.v
AckerProps.v
SackProps.v
TcpSink.v
TcpSinkProps.v
DelAckProps.v
DelAckRun.v
TcpSinkTheorems.v
Deque.v
Rq.v
RqProps.v
RqAdd.v
RqTheorems.v
FloatInt.v
Route.v
RouteProps.v
RouteTheorems.v
HierRoute.v
HierProps.v
HierEdits.v
HierCompute.v
HierTheorems.v
Classifier.v
ClassifierTheorems.v
Simulator.v
SimulatorTheorems.v
Rng.v
RngProps.v
RngJump.v
RngTheorems.v
FloatBounds.v
Calendar.v
CalTime.v
CalProps.v
CalInsert.v
CalResize.v
CalHead.v
CalRemove.v
CalTheorems.v
SackBoard.v
ScoreBoard.v
ScoreBoardProps.v
ScoreBoardRq.v
SackBoardTheorems.v
