(* ===== verification/Prelude.v ===== *)
(** * The ns-2 / mpSelect verification library

    ns-2 is a discrete-event network simulator; this repository extends it
    with mpSelect, an agent that sends the traffic of a site over several
    paths and measures them with pings.  The library models the part of the
    C++ code a simulation of mpSelect runs through: the scheduler that drives
    the events, packets and their queues, the computation of routes and the
    tables of the nodes, links, and the mpSelect agent with its routing table;
    the receiving side of TCP and the scoreboards of its senders; and the
    random number generator.

    ** How the parts interact

    The scheduler takes the next event from an event queue and calls the
    event's handler, which schedules further events.  Timers are handlers
    that own one event; the agent's ping timer is one.  Packets are events:
    an agent hands a packet to its node, whose classifiers pass it on by
    destination to the queue of a link; the queue holds it until the link is
    free.  Before a simulation starts, the route computation fills the tables
    of the classifiers through each node's routing modules.  An mpSelect core
    agent looks the destination up in its own table, encapsulates the packet
    for the remote core agent and sends it through one of its interface
    agents; the remote side restores it.

    ** Files and the code they model

    Foundations:
    - this file: outcomes ([result]: a value, a fault, or not enough fuel),
      machine integers, tactics, and lemmas on lists and options;
    - [Store]: a region of the free store for each C++ type, so that null,
      dangling and uninitialised accesses are faults; theory of linked lists;
    - [Float64]: [double] as IEEE 754 data with the standard's rounding;
      [FloatInt]: integers below 2^53 are exact in it, so are their sums,
      differences and products below 2^53, and the error of a quotient
      is bounded; [FloatBounds]: the relative error of each operation, and
      that the quotient grows with the dividend;
    - [Array]: C arrays and counted loops; [Text]: [atoi], [atof], [sprintf]
      and the splitting of dotted strings;
    - [Dlist], [Deque], [Ring]: the doubly linked lists of the routing table,
      of the reassembly queue and of the fair queues, each written once over
      a type class of the records it links.

    mpSelect:
    - [MpRtable], [MpRtableSpec], [MpRtableProps], [MpRtableTheorems]:
      mpSelect/mpSelect_rtable.{h,cc}.  A table is three regions of heap
      objects (route items, selectors, paths) and the statics of
      [get_path_item]; [spec] is what it means, lists of routes and selectors
      with their paths, and [rep] relates the two;
    - [MpSelect], [MpSelectProps], [MpSelectTheorems]:
      mpSelect/mpSelect.{h,cc} and mpSelect_pkt.h: the handlers of received
      packets, the ping timer's handler and the Tcl commands.  A handler
      returns the new agent and the list of its effects in order.

    Scheduling:
    - [EventQueue]: events and the contract of an event queue, the class
      [EventQueueLaws] (common/scheduler.h);
    - [ListScheduler], [Heap], [HeapProps], [HeapScheduler], [Splay],
      [SplayProps]: the list, heap and splay queues (common/scheduler.cc,
      common/heap.h, common/splay-scheduler.cc), each an instance of the
      contract;
    - [Calendar], [CalTime], [CalProps], [CalInsert], [CalResize], [CalHead],
      [CalRemove], [CalTheorems]: the calendar queue (common/scheduler.cc),
      the default scheduler.  [day] is the day of a time as the code computes
      it; [cal_core] and [cal_rep] say what buckets, counts and clock stand
      for; one file for each operation, and the scripts of operations;
    - [Scheduler], [SchedulerTheorems]: the base class and its commands, over
      any event queue; handlers are a parameter that returns the calls they
      make on the scheduler;
    - [Timer]: common/timer-handler.{h,cc}.

    Packets and queues:
    - [Packet]: headers, the packet pool and the reference count
      (common/packet.h, common/ip.h, the packet part of common/agent.cc);
    - [PacketQueue], [Queue]: queue/queue.{h,cc}, the list of packets and the
      connector, the latter over the interface [Discipline] of [enque] and
      [deque] with the laws [DisciplineLaws];
    - [DropTail], [Sfq], [Drr]: queue/drop-tail.{h,cc}, queue/sfq.cc,
      queue/drr.cc, instances of that interface; [QueueTheorems];
    - [Link], [LinkProps], [LinkTheorems]: link/delay.{h,cc}, alone and
      composed with a queue of any discipline and a scheduler over any event
      queue ([link_sys]): arrivals, dispatched events, events other objects
      schedule and cancel, and new settings of the bandwidth and the delay
      ([retune]) interleave freely.

    Routes and nodes:
    - [Route], [RouteProps], [RouteTheorems]: routing/route.{h,cc} on flat
      addresses;
    - [HierRoute], [HierProps], [HierEdits], [HierCompute], [HierTheorems]:
      the hierarchical half of the same class, and its Tcl commands; the
      search it repeats is shown to be the flat one;
    - [Address], [AddressTheorems]: routing/address.{h,cc};
    - [Classifier], [ClassifierTheorems]: classifier/classifier.{h,cc},
      classifier-hash.{h,cc}, classifier-port.cc, classifier-addr.cc; the
      hash table of Tcl is the interface [TclHash];
    - [Simulator], [SimulatorTheorems]: common/simulator.{h,cc},
      common/node.{h,cc}, routing/rtmodule.{h,cc}.

    TCP:
    - [Deque], [Rq], [RqProps], [RqAdd], [RqTheorems]: tcp/rq.{h,cc};
    - [Acker], [AckerProps], [SackProps]: what a sink records of the segments
      that have come, and the blocks it reports (tcp/tcp-sink.{h,cc}); the
      invariant says which cells of the circular buffer stand for which
      segments;
    - [TcpSink], [TcpSinkProps], [DelAckProps], [DelAckRun],
      [TcpSinkTheorems]: the sinks themselves, the delayed one with its timer
      and the scheduler;
    - [SackBoard]: what a sender relies on in the scoreboard of a SACK
      sender, the interface [SackBoard] with the laws [SackBoardLaws], over
      three sets of numbers ([board]);
    - [ScoreBoard], [ScoreBoardProps]: tcp/scoreboard.{h,cc}, a circular array
      that grows; [ScoreBoardRq]: tcp/scoreboard-rq.{h,cc}, over the queue of
      [Rq]; each an instance of the interface; [SackBoardTheorems].

    Random numbers:
    - [Rng], [RngProps], [RngJump], [RngTheorems]:
      tools/rng.{h,cc}, the generator MRG32k3a, its streams, its seeds and the
      uniform draws.  [step] is one step of its two recurrences in integers,
      and [steps n] is [n] of them.

    ** What the theorems show

    - Memory safety and refinement.  The routing table, the packet queue, the
      reassembly queue, the cost matrix and the destination classifier each
      implement the mathematical object a user thinks of (lists, a list, a
      set of numbers, a function, a map) over every sequence of calls, with
      no fault on the way.  Where the code does run into undefined behaviour
      ([delete_select] of a present selector) the theorem says so.
    - The agent.  Every packet is disposed of exactly once, the invariant of
      the agent is kept, each path is pinged once per period, the answer is
      credited to the path pinged, and a packet sent through the tunnel is
      restored at its other end, from where it is forwarded.  It cannot be
      handed to the node itself: the pointer [dmux_] this goes through is set
      nowhere in the program ([dmux_is_never_set]), and reading it is a fault
      of the model too ([Uninit]).
    - The scheduler.  Time never goes backwards, with handlers that schedule,
      cancel and free events; the list, heap and splay
      queues give out the events in the same order, the heap on scripts of
      fewer than 2^31 operations, and where it stops doing so (its 32-bit
      size and tie key: [heap_grow_wraps], [heap_tie_order_breaks_at_wrap]) is
      shown.  The calendar queue gives them
      out in that order too, in spite of its rounding, as long as the length
      it chooses for its days lies between 2^-900 and 2^800 and no pending
      time is 2^49 days from 0 ([script_sane]): the code itself sets no such
      bounds.
    - The queues.  No packet is lost or duplicated by any discipline, a link
      never idles while packets wait, and each discipline keeps its order,
      bound and fairness promises.
    - Links.  Every packet accepted is delivered once, exactly its
      transmission time plus the delay after its transmission began (or later,
      by one transmission time after the arrival before, where
      [avoidReordering_] asks for it), however arrivals, the events of other
      objects and changes of the bandwidth and the delay interleave;
      transmissions do not overlap; and the system drains.  A dynamic link
      whose delay is lowered may abort, at the one point that is shown; the
      [reset] of a dynamic link is not among the steps of these runs but has a
      theorem of its own ([link_reset_kills]).
    - TCP sinks.  Acknowledgments are cumulative and their blocks true
      whatever comes in whatever order, but for blocks from before a reset:
      [Acker::reset] is not virtual, so a reset keeps the SACK stack
      ([reset_keeps_blocks]); the application gets each segment
      once; a delayed acknowledgment is sent the interval after the segment
      came, at the latest.
    - SACK scoreboards.  The array and the queue ask for the same segments,
      each time the lowest lost one not sent again yet, and none twice.  They
      agree on sessions whose acknowledgments ([receiver_ack]) do not go back,
      carry blocks above the number acknowledged and no duplicate reports, as
      long as the answer is never segment 0, which the queue does not give out;
      where one of these is not met the difference is shown.
    - Routing.  The computed next hops are first hops of least-cost walks,
      and a network whose tables were filled from them delivers packets to
      their destination, hop by hop, along such a walk; with hierarchical
      addresses each look-up answers the first hop in the cluster's graph.
    - Random numbers.  The generator's doubles carry out the integer
      recurrences exactly, for any number of draws; streams and substreams
      are spaced as designed, jumps are that many steps or overflow, and draws stay in
      range.
    - Termination and divergence.  Loops that end are shown to end by a total
      result; those that do not ([is_alive] with several interfaces,
      [SFQ::clear]) are shown to end in [NoFuel] for every bound.

    ** Bounds and fuel

    Loops that are not structural take a [fuel : nat] and answer [NoFuel]
    when it runs out.  The theorems that claim an answer bound it from the
    state: the length of a list plus one for a walk, the number of events for
    a splay, the turns the flows need before one of them may send for deficit
    round robin ([Drr.needs]), the logarithm of the wanted size for the
    growth of the cost matrix by doubling; the search for routes uses counted
    loops only, which are structural ([Array.for_loop]).  Machine integers are wrapped where the source can
    overflow them ([wrap_i32], [wrap_u32]); where a theorem assumes that a
    counter stays in range it is a hypothesis of that theorem; sequence
    numbers on the scoreboards stay below 2^28, for the array doubles its
    size beyond what it holds.  A [long] has
    64 bits, so the powers of [advance_state] take 64 rounds at most; its
    exponents from 2^31 on, which the [int] counter of the squarings cannot
    reach, and the negation of -2^63 are overflows ([Overflow]).  A
    [double] that is converted to an integer type it does not fit is a fault.
    The size, the capacity and the indices of [Heap] are unsigned numbers of 32
    bits ([u32]).

    ** Parameters

    Code that is not in the repository is a parameter with laws: the hash
    table of the Tcl library ([TclHash]), and the procedures of a script that
    the C++ code calls back (the head of the link to a neighbour, the size of
    the next table).  The times [gettimeofday] tells are a list.  Arithmetic on
    [double] is IEEE 754 arithmetic rounded to nearest after each operation,
    as on a machine without extended registers.  What a handler or a script does is the environment of
    the theorems: any sequence of calls.

    ** Not modelled

    Registration of classes with Tcl, variable binding and terminal or trace
    output carry no state of the model.  Of the modelled parts: the
    population of hierarchical classifiers, the real-time
    scheduler, the distributions of random numbers that call libm, the headers of other protocols, the broadcast classifier.
    Generated code (gen/), the Tcl library and the Linux TCP modules are not
    C++ sources of this program's logic.  The other simulator models (TCP
    senders and the two other scoreboards, MACs, ad-hoc routing protocols, diffusion, SCTP, DCCP, satellite,
    web caches and the other queue disciplines) are not reached by mpSelect.

    ** Plan

    Next: the population of hierarchical classifiers; the remaining queue disciplines (RED, priority,
    fair queueing) over [Discipline]; then the TCP senders over [SackBoard]. *)

From stdpp Require Import base numbers list gmap.
From Stdlib Require Import ZArith Lia Bool.

#[global] Set Default Goal Selector "!".

Declare Scope cpp_scope.
Delimit Scope cpp_scope with cpp.
#[global] Open Scope cpp_scope.

(** ** Pointers and outcomes *)

(** An address of the free store.  [None] is the null pointer. *)
Abbreviation loc := positive (only parsing).
Abbreviation ptr := (option positive) (only parsing).
Abbreviation NULL := (@None positive) (only parsing).

(** What can stop the program: undefined behaviour the memory model detects
    (the first four), and the ways the source itself stops. *)
Variant fault :=
  | NullDeref       (** a null pointer is dereferenced *)
  | Dangling        (** a freed object is accessed *)
  | Uninit          (** a field is read before any write to it *)
  | OutOfBounds     (** an array is accessed outside its bounds *)
  | Assertion       (** an [assert] fails *)
  | Aborted         (** [abort ()] *)
  | Exited          (** [exit (1)] *)
  | Overflow.       (** a signed integer overflows, or a floating-point number does not
                        fit an integer type *)

#[export] Instance fault_eq_dec : EqDecision fault.
Proof. solve_decision. Defined.

(** The outcome of running a piece of code.  [NoFuel] only says that the
    bound given to the loops was too small: a run that ends in [NoFuel] for
    every bound does not terminate. *)
Variant result (A : Type) :=
  | Ok (a : A)
  | Fault (f : fault)
  | NoFuel.
Arguments Ok {A} a.
Arguments Fault {A} f.
Arguments NoFuel {A}.

Definition rbind {A B} (m : result A) (k : A -> result B) : result B :=
  match m with
  | Ok a => k a
  | Fault f => Fault f
  | NoFuel => NoFuel
  end.

Notation "'let!' x := m 'in' k" := (rbind m (fun x => k))
  (at level 10, x name, m at level 100, k at level 200,
   format "'[v' 'let!'  x  :=  m  'in' '/' k ']'") : cpp_scope.
Notation "'let!' ' x := m 'in' k" := (rbind m (fun x => k))
  (at level 10, x strict pattern, m at level 100, k at level 200, only parsing) : cpp_scope.

(** [assert (b)] *)
Definition assert_that (b : bool) : result unit :=
  if b then Ok tt else Fault Assertion.

Lemma rbind_assoc {A B C} (m : result A) (f : A -> result B) (g : B -> result C) :
  rbind (rbind m f) g = rbind m (fun x => rbind (f x) g).
Proof. by destruct m. Qed.

Lemma rbind_Ok_inv {A B} (m : result A) (k : A -> result B) b :
  rbind m k = Ok b -> exists a, m = Ok a /\ k a = Ok b.
Proof. destruct m; simpl; naive_solver. Qed.

Lemma rbind_ret {A} (m : result A) : rbind m Ok = m.
Proof. by destruct m. Qed.

(** A run is decided when more fuel cannot change it. *)
Definition decided {A} (m : result A) : Prop := m <> NoFuel.

(** ** Tactics of the development *)

(** Split on the scrutinee of an [if] or a [match] of the goal, keeping the
    equation, and dispose of the impossible cases. *)
Ltac split_match :=
  match goal with
  | |- context [ match ?e with _ => _ end ] => destruct e eqn:?
  end; try discriminate; simplify_eq/=.

(** Turn boolean tests of the context into propositions. *)
Ltac breflect :=
  repeat match goal with
  | H : _ && _ = true |- _ => apply andb_true_iff in H; destruct H
  | H : _ || _ = false |- _ => apply orb_false_iff in H; destruct H
  | H : negb _ = true |- _ => apply negb_true_iff in H
  | H : negb _ = false |- _ => apply negb_false_iff in H
  | H : (_ =? _)%Z = true |- _ => apply Z.eqb_eq in H
  | H : (_ =? _)%Z = false |- _ => apply Z.eqb_neq in H
  | H : (_ <? _)%Z = true |- _ => apply Z.ltb_lt in H
  | H : (_ <? _)%Z = false |- _ => apply Z.ltb_ge in H
  | H : (_ <=? _)%Z = true |- _ => apply Z.leb_le in H
  | H : (_ <=? _)%Z = false |- _ => apply Z.leb_gt in H
  | H : bool_decide _ = true |- _ => apply bool_decide_eq_true in H
  | H : bool_decide _ = false |- _ => apply bool_decide_eq_false in H
  end.

(** Invert the binds of a run that ended well. *)
Ltac inv_ok :=
  repeat match goal with
  | H : rbind _ _ = Ok _ |- _ =>
      apply rbind_Ok_inv in H; destruct H as (? & ? & H)
  | H : Ok _ = Ok _ |- _ => injection H; clear H; intros
  | H : Fault _ = Ok _ |- _ => discriminate H
  | H : NoFuel = Ok _ |- _ => discriminate H
  end.

(** ** Machine integers

    An [int] is a [Z] kept in its 32-bit two's complement range by
    [wrap_i32] after each arithmetic operation; an [unsigned int] is a [Z]
    modulo 2^32.  Signed overflow, undefined in the language, is given the
    wrap-around of the compiled program. *)

Definition wrap_u32 (z : Z) : Z := (z mod 2 ^ 32)%Z.
Definition wrap_u64 (z : Z) : Z := (z mod 2 ^ 64)%Z.
Definition wrap_i32 (z : Z) : Z := ((z + 2 ^ 31) mod 2 ^ 32 - 2 ^ 31)%Z.
Definition wrap_i64 (z : Z) : Z := ((z + 2 ^ 63) mod 2 ^ 64 - 2 ^ 63)%Z.

Definition in_i32 (z : Z) : Prop := (- 2 ^ 31 <= z < 2 ^ 31)%Z.
Definition in_u32 (z : Z) : Prop := (0 <= z < 2 ^ 32)%Z.
Definition in_i64 (z : Z) : Prop := (- 2 ^ 63 <= z < 2 ^ 63)%Z.

Lemma wrap_u32_in z : in_u32 (wrap_u32 z).
Proof. unfold in_u32, wrap_u32. apply Z.mod_pos_bound. lia. Qed.

Lemma wrap_i32_in z : in_i32 (wrap_i32 z).
Proof.
  unfold in_i32, wrap_i32. pose proof (Z.mod_pos_bound (z + 2 ^ 31) (2 ^ 32)). lia.
Qed.

Lemma wrap_u32_id z : in_u32 z -> wrap_u32 z = z.
Proof. apply Z.mod_small. Qed.

Lemma wrap_i32_id z : in_i32 z -> wrap_i32 z = z.
Proof. unfold in_i32, wrap_i32. intros. rewrite Z.mod_small; lia. Qed.

(** The same, without [in_i32]. *)
Lemma wrap_small n : (0 <= n < 2 ^ 31)%Z -> wrap_i32 n = n.
Proof. intros. apply wrap_i32_id. unfold in_i32. lia. Qed.

Lemma wrap_i64_id z : in_i64 z -> wrap_i64 z = z.
Proof. unfold in_i64, wrap_i64. intros. rewrite Z.mod_small; lia. Qed.

(** Wrapping an operand early does not change a wrapped result. *)
Lemma wrap_i32_eqm a b : (exists k, b = a + k * 2 ^ 32)%Z -> wrap_i32 b = wrap_i32 a.
Proof.
  unfold wrap_i32. intros (k & ->).
  replace (a + k * 2 ^ 32 + 2 ^ 31)%Z with (a + 2 ^ 31 + k * 2 ^ 32)%Z by lia.
  by rewrite Z_mod_plus_full.
Qed.

Lemma wrap_i32_shift a : (exists k, wrap_i32 a = a + k * 2 ^ 32)%Z.
Proof.
  unfold wrap_i32. exists (- ((a + 2 ^ 31) / 2 ^ 32))%Z.
  pose proof (Z.div_mod (a + 2 ^ 31) (2 ^ 32) ltac:(lia)). lia.
Qed.

Lemma wrap_i32_add a b : wrap_i32 (wrap_i32 a + b) = wrap_i32 (a + b).
Proof.
  apply wrap_i32_eqm. destruct (wrap_i32_shift a) as (k & ->). exists k. lia.
Qed.

Lemma wrap_i32_sub a b : wrap_i32 (wrap_i32 a - b) = wrap_i32 (a - b).
Proof. apply (wrap_i32_add a (- b)). Qed.

Create HintDb ints discriminated.
#[export] Hint Resolve wrap_u32_in wrap_i32_in wrap_u32_id wrap_i32_id wrap_i64_id : ints.
