(* ===== verification/Store.v ===== *)
(** * The free store and its linked lists

    A region of the free store is a finite map from addresses to objects of
    one C++ type.  Reading or writing through a pointer goes through [load]
    and [store], which report null and dangling pointers as faults, so that
    the absence of undefined behaviour is a statement about outcomes.

    The second half is the theory of the intrusive lists the program is
    built from: [seg] says that the objects from one pointer to another are
    linked in a given order by a [next] field, [dseg] adds the [prev] field,
    and [walk] is the traversal [for (p = head; p; p = p->next)]. *)

From stdpp Require Import base numbers list gmap.
From Stdlib Require Import ZArith Lia.
From S2P Require Import Prelude.

Section store.
Context {T : Type}.
Implicit Types (h : gmap positive T) (p q : option positive) (l : positive).

(** [*p] as a value *)
Definition load h p : result T :=
  match p with
  | None => Fault NullDeref
  | Some l => match h !! l with Some v => Ok v | None => Fault Dangling end
  end.

(** An update of fields of [*p] *)
Definition store h p (f : T -> T) : result (gmap positive T) :=
  match p with
  | None => Fault NullDeref
  | Some l =>
      match h !! l with
      | Some v => Ok (<[l := f v]> h)
      | None => Fault Dangling
      end
  end.

(** [free (p)]: freeing null does nothing, freeing twice is a fault. *)
Definition release h p : result (gmap positive T) :=
  match p with
  | None => Ok h
  | Some l => match h !! l with Some _ => Ok (delete l h) | None => Fault Dangling end
  end.

(** An address outside the store, for [new]. *)
Definition fresh_loc h : positive :=
  Pos.succ (map_fold (fun l _ acc => Pos.max l acc) xH h).

Definition alloc h (v : T) : positive * gmap positive T :=
  (fresh_loc h, <[fresh_loc h := v]> h).

Lemma fresh_loc_above h l :
  is_Some (h !! l) -> (l < fresh_loc h)%positive.
Proof.
  intros Hl. unfold fresh_loc.
  enough (is_Some (h !! l) ->
          (l <= map_fold (fun k (_ : T) acc => Pos.max k acc) xH h)%positive)
    as Hle by (specialize (Hle Hl); lia).
  clear Hl.
  apply (map_fold_weak_ind
    (fun r m => is_Some (m !! l) -> (l <= r)%positive)).
  - rewrite lookup_empty. by intros [? ?].
  - intros k x m r Hk IH Hl.
    destruct (decide (k = l)) as [->|Hne]; [lia|].
    rewrite lookup_insert_ne in Hl by done. specialize (IH Hl). lia.
Qed.

Lemma fresh_loc_None h : h !! fresh_loc h = None.
Proof.
  destruct (h !! fresh_loc h) eqn:E; [|done].
  assert (fresh_loc h < fresh_loc h)%positive by (apply fresh_loc_above; eauto).
  lia.
Qed.

Lemma fresh_loc_ne h l v : h !! l = Some v -> l <> fresh_loc h.
Proof. intros H ->. by rewrite fresh_loc_None in H. Qed.

Lemma load_Some h l v : h !! l = Some v -> load h (Some l) = Ok v.
Proof. by intros H; simpl; rewrite H. Qed.

Lemma load_None h : load h None = Fault NullDeref.
Proof. done. Qed.

Lemma load_dangling h l : h !! l = None -> load h (Some l) = Fault Dangling.
Proof. by intros H; simpl; rewrite H. Qed.

Lemma store_Some h l v f :
  h !! l = Some v -> store h (Some l) f = Ok (<[l := f v]> h).
Proof. by intros H; simpl; rewrite H. Qed.

Lemma release_Some h l v :
  h !! l = Some v -> release h (Some l) = Ok (delete l h).
Proof. by intros H; simpl; rewrite H. Qed.

Lemma load_Ok_inv h p v :
  load h p = Ok v -> exists l, p = Some l /\ h !! l = Some v.
Proof. destruct p as [l|]; simpl; [|done]. destruct (h !! l) eqn:?; naive_solver. Qed.
End store.

Create HintDb store discriminated.
#[export] Hint Rewrite @lookup_insert_eq @lookup_delete_eq @load_None : store.
#[export] Hint Resolve fresh_loc_None fresh_loc_ne : store.

(** Step through the memory accesses whose cell is known. *)
Ltac mem_step :=
  repeat (progress cbn [rbind] || match goal with
  | H : ?h !! ?l = Some ?v |- context [ load ?h (Some ?l) ] =>
      rewrite (load_Some h l v H)
  | H : ?h !! ?l = None |- context [ load ?h (Some ?l) ] =>
      rewrite (load_dangling h l H)
  | H : ?h !! ?l = Some ?v |- context [ store ?h (Some ?l) ?f ] =>
      rewrite (store_Some h l v f H)
  | H : ?h !! ?l = Some ?v |- context [ release ?h (Some ?l) ] =>
      rewrite (release_Some h l v H)
  end).

(** ** Singly linked segments *)

Section seg.
Context {T : Type} (nxt : T -> option positive).
Implicit Types (h : gmap positive T) (p q r : option positive) (ls : list positive).

(** The objects [ls], linked by [nxt], lead from [p] to [q]. *)
Fixpoint seg h p ls q : Prop :=
  match ls with
  | [] => p = q
  | l :: ls' => p = Some l /\ exists v, h !! l = Some v /\ seg h (nxt v) ls' q
  end.

Lemma seg_app h p ls1 ls2 q :
  seg h p (ls1 ++ ls2) q <-> exists r, seg h p ls1 r /\ seg h r ls2 q.
Proof.
  revert p. induction ls1 as [|l ls1 IH]; intros p; simpl.
  - naive_solver.
  - setoid_rewrite IH. naive_solver.
Qed.

Lemma seg_snoc h p ls l q :
  seg h p (ls ++ [l]) q <->
  exists v, seg h p ls (Some l) /\ h !! l = Some v /\ nxt v = q.
Proof. rewrite seg_app. simpl. naive_solver. Qed.

(** A segment only depends on the [nxt] fields of its own objects. *)
Lemma seg_agree h h' p ls q :
  (forall l, l ∈ ls -> nxt <$> h !! l = nxt <$> h' !! l) ->
  seg h p ls q -> seg h' p ls q.
Proof.
  revert p. induction ls as [|l ls IH]; intros p Hag; simpl; [done|].
  intros [-> (v & Hv & Hseg)]. split; [done|].
  assert (Hl := Hag l ltac:(set_solver)). rewrite Hv in Hl.
  destruct (h' !! l) as [v'|] eqn:Hv'; simpl in Hl; [|done].
  exists v'. split; [done|]. injection Hl as <-.
  apply IH; [set_solver|done].
Qed.

Lemma seg_insert_notin h p ls q l v :
  l ∉ ls -> seg h p ls q -> seg (<[l := v]> h) p ls q.
Proof.
  intros Hl. apply seg_agree. intros k Hk.
  rewrite lookup_insert_ne by (by intros <-). done.
Qed.

Lemma seg_delete_notin h p ls q l :
  l ∉ ls -> seg h p ls q -> seg (delete l h) p ls q.
Proof.
  intros Hl. apply seg_agree. intros k Hk.
  rewrite lookup_delete_ne by (by intros <-). done.
Qed.

(** Overwriting an object without touching its [nxt] field. *)
Lemma seg_insert_same h p ls q l v v' :
  h !! l = Some v -> nxt v' = nxt v -> seg h p ls q ->
  seg (<[l := v']> h) p ls q.
Proof.
  intros Hv Hn. apply seg_agree. intros k _.
  destruct (decide (l = k)) as [<-|Hne].
  - rewrite lookup_insert_eq, Hv. simpl. by rewrite Hn.
  - by rewrite lookup_insert_ne.
Qed.

Lemma seg_lookup h p ls q l :
  seg h p ls q -> l ∈ ls -> exists v, h !! l = Some v.
Proof.
  revert p. induction ls as [|k ls IH]; intros p; simpl; [set_solver|].
  intros [_ (v & Hv & Hs)] [->|Hin]%elem_of_cons; eauto.
Qed.

Lemma seg_det h p ls1 ls2 : seg h p ls1 None -> seg h p ls2 None -> ls1 = ls2.
Proof.
  revert p ls2. induction ls1 as [|l ls1 IH]; intros p [|k ls2]; simpl.
  1-3: naive_solver.
  intros [-> (v & Hv & H1)] [Hk (v' & Hv' & H2)]. simplify_eq. f_equal. eauto.
Qed.

(** A null-terminated segment visits no object twice. *)
Lemma seg_NoDup h p ls : seg h p ls None -> NoDup ls.
Proof.
  revert p. induction ls as [|l ls IH]; intros p; [constructor|].
  intros Hs. pose proof Hs as [-> (v & Hv & Hs')].
  constructor; [|by eapply IH].
  intros (a & b & ->)%list_elem_of_split.
  apply seg_app in Hs' as (r & _ & Hr).
  pose proof Hr as [-> _].
  pose proof (seg_det _ _ _ _ Hs Hr) as Heq.
  apply (f_equal length) in Heq. simpl in Heq.
  rewrite length_app in Heq. simpl in Heq. lia.
Qed.

Lemma seg_nil_inv h ls : seg h None ls None -> ls = [].
Proof. destruct ls; simpl; naive_solver. Qed.

Lemma seg_null_iff h p ls : seg h p ls None -> p = None <-> ls = [].
Proof. destruct ls; simpl; naive_solver. Qed.

Lemma seg_head h p ls : seg h p ls None -> p = head ls.
Proof. destruct ls; simpl; naive_solver. Qed.

(** [for (p = ...; p != 0; p = p->next) if (test p) break;]: the
    pointer the loop stops at, null when it runs off the list. *)
Fixpoint walk (fuel : nat) h (test : positive -> T -> bool) p : result (option positive) :=
  match fuel with
  | O => NoFuel
  | S fuel' =>
      match p with
      | None => Ok None
      | Some l =>
          let! v := load h (Some l) in
          if test l v then Ok (Some l) else walk fuel' h test (nxt v)
      end
  end.

(** The first address of [ls] whose object satisfies [test]. *)
Fixpoint first_match h (test : positive -> T -> bool) ls : option positive :=
  match ls with
  | [] => None
  | l :: ls' =>
      match h !! l with
      | Some v => if test l v then Some l else first_match h test ls'
      | None => None
      end
  end.

Lemma walk_spec fuel h test p ls :
  seg h p ls None -> length ls < fuel ->
  walk fuel h test p = Ok (first_match h test ls).
Proof.
  revert fuel p. induction ls as [|l ls IH]; intros [|fuel] p Hs Hf; simpl in *;
    try lia.
  - by rewrite Hs.
  - destruct Hs as [-> (v & Hv & Hs)]. simpl. rewrite Hv. simpl.
    destruct (test l v); [done|]. apply IH; [done|lia].
Qed.

Lemma first_match_Some h test ls l :
  first_match h test ls = Some l ->
  exists pre post v, ls = pre ++ l :: post /\ h !! l = Some v /\ test l v = true /\
    forall k w, k ∈ pre -> h !! k = Some w -> test k w = false.
Proof.
  induction ls as [|k ls IH]; simpl; [done|].
  destruct (h !! k) as [w|] eqn:Hk; [|done].
  destruct (test k w) eqn:Ht; intros H.
  - injection H as <-. exists [], ls, w. set_solver.
  - destruct (IH H) as (pre & post & v & -> & Hv & Htv & Hpre).
    exists (k :: pre), post, v. repeat split; try done.
    intros k' w' [->|Hin]%elem_of_cons Hw'; [congruence|eauto].
Qed.

Lemma first_match_None h test ls p :
  seg h p ls None -> first_match h test ls = None ->
  forall l v, l ∈ ls -> h !! l = Some v -> test l v = false.
Proof.
  revert p. induction ls as [|k ls IH]; simpl; [set_solver|].
  intros p [-> (w & Hw & Hs)]. rewrite Hw. destruct (test k w) eqn:Ht; [done|].
  intros Hn l v [->|Hin]%elem_of_cons Hv; [congruence|eauto].
Qed.
End seg.

(** ** Doubly linked segments *)

Section dseg.
Context {T : Type} (nxt prv : T -> option positive).
Implicit Types (h : gmap positive T) (p q pv lst : option positive) (ls : list positive).

(** The objects [ls] lead from [p] to [q] by [nxt]; each one's [prv] field
    is the object before it, [pv] for the first one; [lst] is the last
    object, [pv] when there is none. *)
Fixpoint dseg h pv p ls lst q : Prop :=
  match ls with
  | [] => p = q /\ pv = lst
  | l :: ls' =>
      p = Some l /\
      exists v, h !! l = Some v /\ prv v = pv /\ dseg h (Some l) (nxt v) ls' lst q
  end.

Lemma dseg_app h pv p ls1 ls2 lst q :
  dseg h pv p (ls1 ++ ls2) lst q <->
  exists m r, dseg h pv p ls1 m r /\ dseg h m r ls2 lst q.
Proof.
  revert pv p. induction ls1 as [|l ls1 IH]; intros pv p; simpl.
  - naive_solver.
  - setoid_rewrite IH. naive_solver.
Qed.

Lemma dseg_seg h pv p ls lst q : dseg h pv p ls lst q -> seg nxt h p ls q.
Proof.
  revert pv p. induction ls as [|l ls IH]; intros pv p; simpl; [naive_solver|].
  intros [-> (v & Hv & _ & Hs)]. eauto.
Qed.

Lemma dseg_NoDup h pv p ls lst : dseg h pv p ls lst None -> NoDup ls.
Proof. intros. eapply seg_NoDup, dseg_seg. done. Qed.

Lemma dseg_last h pv p ls lst q :
  dseg h pv p ls lst q -> lst = match last ls with Some l => Some l | None => pv end.
Proof.
  revert pv p. induction ls as [|l ls IH]; intros pv p; [simpl; naive_solver|].
  intros [-> (v & Hv & Hp & Hs)]. rewrite (IH _ _ Hs), last_cons.
  by destruct (last ls).
Qed.

(** A segment only depends on the link fields of its own objects. *)
Lemma dseg_agree h h' pv p ls lst q :
  (forall l, l ∈ ls -> (nxt <$> h !! l) = (nxt <$> h' !! l)) ->
  (forall l, l ∈ ls -> (prv <$> h !! l) = (prv <$> h' !! l)) ->
  dseg h pv p ls lst q -> dseg h' pv p ls lst q.
Proof.
  revert pv p. induction ls as [|l ls IH]; intros pv p Hn Hp; simpl; [done|].
  intros [-> (v & Hv & Hpv & Hs)]. split; [done|].
  assert (H1 := Hn l ltac:(set_solver)). assert (H2 := Hp l ltac:(set_solver)).
  rewrite Hv in H1, H2. destruct (h' !! l) as [v'|] eqn:Hv'; [|done].
  simpl in *. injection H1 as H1. injection H2 as H2.
  exists v'. rewrite <- H1, <- H2. split_and!; [done|done|].
  apply IH; [set_solver|set_solver|done].
Qed.

Lemma dseg_insert_notin h pv p ls lst q l v :
  l ∉ ls -> dseg h pv p ls lst q -> dseg (<[l := v]> h) pv p ls lst q.
Proof.
  intros Hl. apply dseg_agree; intros k Hk;
    (rewrite lookup_insert_ne by (by intros <-)); done.
Qed.

Lemma dseg_delete_notin h pv p ls lst q l :
  l ∉ ls -> dseg h pv p ls lst q -> dseg (delete l h) pv p ls lst q.
Proof.
  intros Hl. apply dseg_agree; intros k Hk;
    (rewrite lookup_delete_ne by (by intros <-)); done.
Qed.

Lemma dseg_insert_same h pv p ls lst q l v v' :
  h !! l = Some v -> nxt v' = nxt v -> prv v' = prv v ->
  dseg h pv p ls lst q -> dseg (<[l := v']> h) pv p ls lst q.
Proof.
  intros Hv Hn Hp. apply dseg_agree; intros k _;
    (destruct (decide (l = k)) as [<-|Hne];
     [rewrite lookup_insert_eq, Hv; simpl; congruence
     |by rewrite lookup_insert_ne]).
Qed.
End dseg.

(** An element of a duplicate-free list occurs on neither side of itself. *)
Lemma elem_of_split_NoDup {A} (l : A) (ls pre post : list A) :
  NoDup ls -> ls = pre ++ l :: post -> l ∉ pre /\ l ∉ post.
Proof.
  intros Hnd ->. apply NoDup_app in Hnd as (_ & Hd & Hnd).
  apply NoDup_cons in Hnd as [Hl _]. split; [|done].
  intros Hin. apply (Hd l Hin). set_solver.
Qed.
