(* ===== verification/Float64.v ===== *)
(** * The [double] type

    Simulation time and every delay of the program is a [double].  A double
    is modelled by the IEEE 754 datum of the standard library's
    specification of floating point ([spec_float] with 53 bits of precision
    and maximal exponent 1024), and the operators by the operations of that
    specification, rounding to nearest even; nothing is idealised to the
    reals.  The theory below is what the clients need: on data that are not
    NaN the comparisons are a total preorder, and adding a non-negative
    double never goes below the other operand. *)

From stdpp Require Import base numbers list.
From Stdlib Require Import ZArith Lia ZifyBool SpecFloat.
From S2P Require Import Prelude.

Local Open Scope Z_scope.

Definition f64 : Type := spec_float.

Definition prec64 : Z := 53.
Definition emax64 : Z := 1024.

Definition fadd : f64 -> f64 -> f64 := SFadd prec64 emax64.
Definition fsub : f64 -> f64 -> f64 := SFsub prec64 emax64.
Definition fmul : f64 -> f64 -> f64 := SFmul prec64 emax64.
Definition fdiv : f64 -> f64 -> f64 := SFdiv prec64 emax64.
Definition flt : f64 -> f64 -> bool := SFltb.
Definition fle : f64 -> f64 -> bool := SFleb.
Definition feq : f64 -> f64 -> bool := SFeqb.

(** The conversion from an integer, [(double) z]. *)
Definition f64_of_Z (z : Z) : f64 := binary_normalize prec64 emax64 z 0 false.

Definition f0 : f64 := S754_zero false.
Definition f1 : f64 := f64_of_Z 1.

(** A decimal literal [m * 10^-k] that is an integer over a power of two. *)
Definition f64_ratio (num den : Z) : f64 := fdiv (f64_of_Z num) (f64_of_Z den).

Definition is_nan (x : f64) : bool := match x with S754_nan => true | _ => false end.

(** A double the machine can hold (the bits of mantissa and exponent fit). *)
Definition valid (x : f64) : bool := valid_binary prec64 emax64 x.

#[export] Instance f64_eq_dec : EqDecision f64.
Proof. solve_decision. Defined.

(** ** Order *)

(** The position of a number on the line, compared lexicographically: class
    and sign, then exponent, then mantissa. *)
Definition rank (x : f64) : Z * Z * Z :=
  match x with
  | S754_zero _ | S754_nan => (0, 0, 0)
  | S754_infinity s => (if s then -2 else 2, 0, 0)
  | S754_finite false m e => (1, e, Zpos m)
  | S754_finite true m e => (-1, - e, - Zpos m)
  end.

Definition lt3 (a b : Z * Z * Z) : Prop :=
  let '(a1, a2, a3) := a in
  let '(b1, b2, b3) := b in
  a1 < b1 \/ a1 = b1 /\ (a2 < b2 \/ a2 = b2 /\ a3 < b3).

Definition cmp3 (a b : Z * Z * Z) : comparison :=
  let '(a1, a2, a3) := a in
  let '(b1, b2, b3) := b in
  match a1 ?= b1 with
  | Eq => match a2 ?= b2 with Eq => a3 ?= b3 | c => c end
  | c => c
  end.

Lemma cmp3_spec a b :
  match cmp3 a b with Eq => a = b | Lt => lt3 a b | Gt => lt3 b a end.
Proof.
  destruct a as [[a1 a2] a3], b as [[b1 b2] b3]. unfold cmp3, lt3.
  destruct (Z.compare_spec a1 b1); [|lia|lia].
  destruct (Z.compare_spec a2 b2); [|lia|lia].
  destruct (Z.compare_spec a3 b3); [|lia|lia]. congruence.
Qed.

Lemma compare_rank x y :
  is_nan x = false -> is_nan y = false ->
  SFcompare x y = Some (cmp3 (rank x) (rank y)).
Proof.
  destruct x as [sx|sx| |sx mx ex], y as [sy|sy| |sy my ey]; simpl; try done;
    intros _ _; destruct sx; try destruct sy; try done; simpl; f_equal.
  - rewrite Z.compare_opp, (Z.compare_antisym ex ey).
    destruct (ex ?= ey); simpl; [|done..].
    reflexivity.
Qed.

Lemma flt_rank x y :
  flt x y = true <-> is_nan x = false /\ is_nan y = false /\ lt3 (rank x) (rank y).
Proof.
  unfold flt, SFltb. destruct (is_nan x) eqn:Nx.
  { destruct x; try done. simpl. naive_solver. }
  destruct (is_nan y) eqn:Ny.
  { destruct y; try done. destruct x; simpl; naive_solver. }
  rewrite compare_rank by done. pose proof (cmp3_spec (rank x) (rank y)) as Hc.
  destruct (cmp3 _ _); destruct (rank x) as [[? ?] ?], (rank y) as [[? ?] ?];
    rewrite ?pair_equal_spec in *; cbn [lt3] in *; lia.
Qed.

Lemma fle_rank x y :
  fle x y = true <-> is_nan x = false /\ is_nan y = false /\ ~ lt3 (rank y) (rank x).
Proof.
  unfold fle, SFleb. destruct (is_nan x) eqn:Nx.
  { destruct x; try done. simpl. naive_solver. }
  destruct (is_nan y) eqn:Ny.
  { destruct y; try done. destruct x; simpl; naive_solver. }
  rewrite compare_rank by done. pose proof (cmp3_spec (rank x) (rank y)) as Hc.
  destruct (cmp3 _ _); destruct (rank x) as [[? ?] ?], (rank y) as [[? ?] ?];
    rewrite ?pair_equal_spec in *; cbn [lt3] in *; lia.
Qed.

Lemma feq_rank x y :
  feq x y = true <-> is_nan x = false /\ is_nan y = false /\ rank x = rank y.
Proof.
  unfold feq, SFeqb. destruct (is_nan x) eqn:Nx.
  { destruct x; try done. simpl. naive_solver. }
  destruct (is_nan y) eqn:Ny.
  { destruct y; try done. destruct x; simpl; naive_solver. }
  rewrite compare_rank by done. pose proof (cmp3_spec (rank x) (rank y)) as Hc.
  destruct (cmp3 _ _); destruct (rank x) as [[? ?] ?], (rank y) as [[? ?] ?];
    rewrite ?pair_equal_spec in *; cbn [lt3] in *; lia.
Qed.

(** Reduce a goal about comparisons to integer arithmetic on ranks. *)
Ltac forder :=
  repeat match goal with
  | H : flt _ _ = true |- _ => apply flt_rank in H
  | H : fle _ _ = true |- _ => apply fle_rank in H
  | H : feq _ _ = true |- _ => apply feq_rank in H
  | H : flt _ _ = false |- _ => apply not_true_iff_false in H; rewrite flt_rank in H
  | H : fle _ _ = false |- _ => apply not_true_iff_false in H; rewrite fle_rank in H
  | H : feq _ _ = false |- _ => apply not_true_iff_false in H; rewrite feq_rank in H
  end;
  try match goal with
  | |- flt _ _ = true => apply flt_rank
  | |- fle _ _ = true => apply fle_rank
  | |- feq _ _ = true => apply feq_rank
  | |- flt _ _ = false => apply not_true_iff_false; rewrite flt_rank
  | |- fle _ _ = false => apply not_true_iff_false; rewrite fle_rank
  | |- feq _ _ = false => apply not_true_iff_false; rewrite feq_rank
  end;
  repeat match goal with
  | |- context [ rank ?x ] => destruct (rank x) as [[? ?] ?]
  | H : context [ rank ?x ] |- _ => destruct (rank x) as [[? ?] ?]
  end; rewrite ?pair_equal_spec in *; cbn [lt3] in *; lia.

Lemma flt_irrefl x : flt x x = false.
Proof. forder. Qed.

Lemma fle_refl x : is_nan x = false -> fle x x = true.
Proof. intros. forder. Qed.

Lemma flt_trans x y z : flt x y = true -> flt y z = true -> flt x z = true.
Proof. intros. forder. Qed.

Lemma fle_trans x y z : fle x y = true -> fle y z = true -> fle x z = true.
Proof. intros. forder. Qed.

Lemma flt_le_trans x y z : flt x y = true -> fle y z = true -> flt x z = true.
Proof. intros. forder. Qed.

Lemma fle_lt_trans x y z : fle x y = true -> flt y z = true -> flt x z = true.
Proof. intros. forder. Qed.

Lemma flt_le x y : flt x y = true -> fle x y = true.
Proof. intros. forder. Qed.

Lemma fle_not_lt x y : fle x y = true -> flt y x = false.
Proof. intros. forder. Qed.

Lemma flt_not_eq x y : flt x y = true -> feq x y = false.
Proof. intros. forder. Qed.

(** Totality: numbers that are not strictly below are at or above. *)
Lemma flt_false_le x y :
  is_nan x = false -> is_nan y = false -> flt x y = false -> fle y x = true.
Proof. intros. forder. Qed.

Lemma fle_antisym x y : fle x y = true -> fle y x = true -> feq x y = true.
Proof. intros. forder. Qed.

Lemma feq_sym x y : feq x y = true -> feq y x = true.
Proof. intros. forder. Qed.

Lemma feq_le x y : feq x y = true -> fle x y = true.
Proof. intros. forder. Qed.

(** ** Addition *)

(** The number of binary digits of a positive integer. *)
Lemma digits_log2 (m : positive) : Zpos (digits2_pos m) = Z.log2 (Zpos m) + 1.
Proof.
  induction m as [m IH|m IH|]; [| |done]; cbn [digits2_pos];
    rewrite Pos2Z.inj_succ, IH.
  - rewrite (Pos2Z.inj_xI m), Z.log2_succ_double; lia.
  - rewrite (Pos2Z.inj_xO m), Z.log2_double; lia.
Qed.

(** The exponent a value with [D] digits above the binary point is held at. *)
Definition fx (D : Z) : Z := fexp prec64 emax64 D.

Lemma fx_max D : fx D = Z.max (D - 53) (-1074).
Proof. reflexivity. Qed.

Lemma fx_mono D D' : D <= D' -> fx D <= fx D'.
Proof. rewrite !fx_max. lia. Qed.

(** Position of the leading digit of [m * 2^e]. *)
Definition lead (m e : Z) : Z := Z.log2 m + 1 + e.

Lemma shr_1_m mrs : 0 <= shr_m mrs -> shr_m (shr_1 mrs) = shr_m mrs / 2.
Proof.
  destruct mrs as [m r s]; simpl. destruct m as [|[p|p|]|p]; intros; try done.
  - change (Zpos p = Zpos (xI p) / 2). rewrite Pos2Z.inj_xI.
    apply Z.div_unique with 1; lia.
  - change (Zpos p = Zpos (xO p) / 2). rewrite Pos2Z.inj_xO.
    apply Z.div_unique with 0; lia.
Qed.

Lemma iter_shr_m n mrs :
  0 <= shr_m mrs -> shr_m (iter_pos shr_1 n mrs) = shr_m mrs / 2 ^ Zpos n.
Proof.
  revert mrs. induction n as [n IH|n IH|]; intros mrs Hm; cbn [iter_pos].
  - assert (0 <= shr_m (shr_1 mrs)) by (rewrite shr_1_m by done; apply Z.div_pos; lia).
    rewrite !IH; [|done|rewrite IH by done; apply Z.div_pos; lia].
    rewrite shr_1_m, !Z.div_div by lia. f_equal.
    rewrite (Pos2Z.inj_xI n), Z.pow_add_r, Z.pow_twice_r, Z.pow_1_r by lia. lia.
  - rewrite !IH; [|done|rewrite IH by done; apply Z.div_pos; lia].
    rewrite Z.div_div by lia. f_equal.
    rewrite (Pos2Z.inj_xO n), Z.pow_twice_r. lia.
  - rewrite shr_1_m by done. done.
Qed.

(** What the two shifts and the rounding of [binary_round_aux] do to the
    magnitude of a positive mantissa. *)
Lemma shr_fexp_spec m e l mrs e' :
  0 <= m -> shr_fexp prec64 emax64 m e l = (mrs, e') ->
  e' = Z.max e (fx (Zdigits2 m + e)) /\ shr_m mrs = m / 2 ^ (e' - e).
Proof.
  intros Hm. unfold shr_fexp, shr. fold (fx (Zdigits2 m + e)).
  assert (Hl : shr_m (shr_record_of_loc m l) = m) by (by destruct l as [|[]]).
  destruct (fx (Zdigits2 m + e) - e) as [|n|n] eqn:En; intros [= <- <-].
  - split; [lia|]. rewrite Hl, Z.sub_diag, Z.pow_0_r, Z.div_1_r. done.
  - split; [lia|]. rewrite iter_shr_m, Hl by lia. f_equal. f_equal. lia.
  - split; [lia|]. rewrite Hl, Z.sub_diag, Z.pow_0_r, Z.div_1_r. done.
Qed.

Lemma Zdigits2_lead m e : 1 <= m -> Zdigits2 m + e = lead m e.
Proof. intros. destruct m; try lia. unfold Zdigits2, lead. rewrite digits_log2. done. Qed.

Lemma lead_shift m e n :
  0 <= n <= Z.log2 m -> 1 <= m -> 1 <= m / 2 ^ n /\ lead (m / 2 ^ n) (e + n) = lead m e.
Proof.
  intros Hn Hm. unfold lead.
  assert (Hp : 2 ^ n <= m).
  { transitivity (2 ^ Z.log2 m); [apply Z.pow_le_mono_r; lia|].
    apply Z.log2_spec. lia. }
  split; [apply Z.div_le_lower_bound; lia|].
  rewrite <- Z.shiftr_div_pow2, Z.log2_shiftr by lia. lia.
Qed.

Lemma lead_mono m m' e : 1 <= m -> m <= m' -> lead m e <= lead m' e.
Proof. intros. unfold lead. pose proof (Z.log2_le_mono m m'). lia. Qed.

(** A positive finite result is canonical and sits at or above the truncation
    of the exact value. *)
Lemma round_aux_spec m e :
  1 <= m -> e <= fx (lead m e) -> -1074 < lead m e ->
  binary_round_aux prec64 emax64 false m e loc_Exact = S754_infinity false \/
  exists m2 e2,
    binary_round_aux prec64 emax64 false m e loc_Exact = S754_finite false m2 e2 /\
    fx (lead (Zpos m2) e2) = e2 /\ e2 <= emax64 - prec64 /\ fx (lead m e) <= e2 /\
    (e2 = fx (lead m e) -> m / 2 ^ (e2 - e) <= Zpos m2).
Proof.
  intros Hm He Hlead. unfold binary_round_aux.
  destruct (shr_fexp _ _ m e loc_Exact) as [mrs e'] eqn:E1.
  apply shr_fexp_spec in E1 as [-> Hq]; [|lia].
  rewrite Zdigits2_lead in * by done.
  rewrite Z.max_r in * by done.
  set (D := lead m e) in *.
  assert (HD : 0 <= fx D - e <= Z.log2 m).
  { unfold lead in D. rewrite fx_max in *. lia. }
  destruct (lead_shift m e (fx D - e) HD Hm) as [Hq1 HqD].
  replace (e + (fx D - e)) with (fx D) in HqD by lia. fold D in HqD.
  rewrite <- Hq in Hq1, HqD.
  set (m' := round_nearest_even _ _).
  assert (Hm' : shr_m mrs <= m').
  { unfold m', round_nearest_even.
    destruct (loc_of_shr_record mrs) as [|[]]; try lia. destruct (Z.even _); lia. }
  destruct (shr_fexp _ _ m' _ loc_Exact) as [mrs2 e2] eqn:E2.
  apply shr_fexp_spec in E2 as [He2 Hq2]; [|lia].
  rewrite Zdigits2_lead in He2 by lia.
  assert (HDm : D <= lead m' (fx D)) by (rewrite <- HqD at 1; apply lead_mono; lia).
  pose proof (fx_mono _ _ HDm) as Hfx. rewrite Z.max_r in He2 by lia.
  assert (Hn : 0 <= e2 - fx D <= Z.log2 m').
  { pose proof (Z.log2_nonneg m'). unfold lead in He2, HDm. rewrite !fx_max in *. lia. }
  destruct (lead_shift m' (fx D) (e2 - fx D) Hn ltac:(lia)) as [Hm2 HDm2].
  replace (fx D + (e2 - fx D)) with e2 in HDm2 by lia.
  rewrite <- Hq2 in Hm2, HDm2.
  destruct (shr_m mrs2) as [|m2|m2] eqn:Em2; [lia| |lia].
  destruct (Z.leb_spec e2 (emax64 - prec64)); [right|by left].
  exists m2, e2. split_and!; [done|by rewrite HDm2, <- He2|done|lia|].
  intros Heq. rewrite Heq, Z.sub_diag, Z.pow_0_r, Z.div_1_r in Hq2.
  rewrite Heq, <- Hq. lia.
Qed.

(** The numbers at or above zero. *)
Definition nonneg (x : f64) : bool :=
  match x with
  | S754_zero _ | S754_infinity false | S754_finite false _ _ => true
  | _ => false
  end.

Lemma nonneg_not_nan x : nonneg x = true -> is_nan x = false.
Proof. by destruct x. Qed.

Lemma nonneg_fle x : nonneg x = true <-> fle f0 x = true.
Proof. by destruct x as [[]|[]| |[]]. Qed.

Lemma valid_finite s m e :
  valid (S754_finite s m e) = true <-> fx (lead (Zpos m) e) = e /\ e <= emax64 - prec64.
Proof.
  unfold valid, valid_binary, bounded, canonical_mantissa.
  rewrite andb_true_iff, Z.eqb_eq, Z.leb_le, digits_log2. done.
Qed.

Lemma lead_scale m e k : 1 <= m -> 0 <= k -> lead (m * 2 ^ k) (e - k) = lead m e.
Proof. intros. unfold lead. rewrite Z.log2_mul_pow2 by lia. lia. Qed.

Lemma shl_align_spec (m : positive) e e' m1 e1 :
  shl_align m e e' = (m1, e1) ->
  e1 = Z.min e e' \/ e <= e' /\ e1 = e ->
  e1 = Z.min e e' /\ Zpos m1 = Zpos m * 2 ^ (e - e1).
Proof.
  unfold shl_align. destruct (e' - e) as [|n|n] eqn:En; intros [= <- <-] _.
  - split; [lia|]. rewrite Z.sub_diag. lia.
  - split; [lia|]. rewrite Z.sub_diag. lia.
  - split; [lia|]. replace (e - e') with (Zpos n) by lia.
    clear. induction n as [|n IH] using Pos.peano_ind; [simpl; lia|].
    rewrite Pos.iter_succ, Pos2Z.inj_xO, IH, Pos2Z.inj_succ, Z.pow_succ_r by lia. lia.
Qed.

Lemma align_Z m e ez : ez <= e -> Zpos (fst (shl_align m e ez)) = Zpos m * 2 ^ (e - ez).
Proof.
  intros Hle. destruct (shl_align m e ez) as [m1 e1] eqn:Ea. simpl.
  apply shl_align_spec in Ea as [-> ->];
    [|unfold shl_align in Ea; destruct (ez - e) eqn:?; simplify_eq; lia].
  f_equal. f_equal. lia.
Qed.

(** Rounding [S * 2^ez] gives a valid non-negative number at or above every
    valid number that the exact value is at or above. *)
Lemma binary_round_ge (S : positive) ez :
  -1074 < lead (Zpos S) ez ->
  let r := binary_round prec64 emax64 false S ez in
  nonneg r = true /\ valid r = true /\
  forall m e, valid (S754_finite false m e) = true -> ez <= e ->
    Zpos m * 2 ^ (e - ez) <= Zpos S -> fle (S754_finite false m e) r = true.
Proof.
  intros HD r. set (D := lead (Zpos S) ez) in *.
  unfold r, binary_round. rewrite digits_log2.
  change (fexp prec64 emax64 (Z.log2 (Zpos S) + 1 + ez)) with (fx D).
  destruct (shl_align S ez (fx D)) as [m1 e1] eqn:Ea.
  apply shl_align_spec in Ea as [He1 Hm1];
    [|unfold shl_align in Ea; destruct (fx D - ez) eqn:?; simplify_eq; lia].
  assert (HD1 : lead (Zpos m1) e1 = D).
  { rewrite Hm1. replace e1 with (ez - (ez - e1)) at 2 by lia.
    apply lead_scale; lia. }
  destruct (round_aux_spec (Zpos m1) e1) as [-> | (m2 & e2 & -> & Hc & Hb & HeD & Hq)];
    [lia|rewrite HD1; lia|lia| |].
  { split_and!; [done..|]. intros m e _ _ _. done. }
  split_and!; [done|by apply valid_finite|].
  intros m e [Hce _]%valid_finite Hez Hle. rewrite HD1 in *.
  assert (HDm : lead (Zpos m) e <= D).
  { rewrite <- (lead_scale (Zpos m) e (e - ez)) by lia.
    replace (e - (e - ez)) with ez by lia. apply lead_mono; lia. }
  apply fx_mono in HDm. rewrite Hce in HDm.
  apply fle_rank. split_and!; [done..|]. cbn [rank lt3].
  destruct (decide (e2 = e)) as [->|]; [|lia].
  specialize (Hq ltac:(lia)).
  assert (Zpos m <= Zpos m1 / 2 ^ (e - e1)); [|lia].
  apply Z.div_le_lower_bound; [apply Z.pow_pos_nonneg; lia|].
  replace (e - e1) with ((e - ez) + (ez - e1)) by lia.
  rewrite Z.pow_add_r, Hm1 by lia.
  pose proof (Z.pow_pos_nonneg 2 (ez - e1)). nia.
Qed.

Lemma fle_zero_nonneg s y : nonneg y = true -> fle (S754_zero s) y = true.
Proof. by destruct y as [[]|[]| |[]]. Qed.

(** Adding two non-negative numbers: the sum is a valid non-negative number
    at or above both, rounding and overflow included. *)
Lemma fadd_nonneg x y :
  valid x = true -> valid y = true -> nonneg x = true -> nonneg y = true ->
  nonneg (fadd x y) = true /\ valid (fadd x y) = true /\
  fle x (fadd x y) = true /\ fle y (fadd x y) = true.
Proof.
  intros Vx Vy Nx Ny.
  assert (Rx : fle x x = true) by (apply fle_refl, nonneg_not_nan; done).
  assert (Ry : fle y y = true) by (apply fle_refl, nonneg_not_nan; done).
  destruct x as [sx|[]| |[] mx ex], y as [sy|[]| |[] my ey]; try discriminate;
    try (unfold fadd; simpl; split_and!; (done || by apply fle_zero_nonneg)).
  { by destruct sx, sy. }
  pose proof Vx as Vx'. pose proof Vy as Vy'.
  apply valid_finite in Vx' as [Cx Bx]. apply valid_finite in Vy' as [Cy By].
  unfold fadd, SFadd. set (ez := Z.min ex ey).
  pose proof (align_Z mx ex ez ltac:(lia)) as Ax. pose proof (align_Z my ey ez ltac:(lia)) as Ay.
  cbn [cond_Zopp].
  set (S := (fst (shl_align mx ex ez) + fst (shl_align my ey ez))%positive).
  change (Zpos (fst (shl_align mx ex ez)) + Zpos (fst (shl_align my ey ez)))
    with (Zpos S).
  cbn [binary_normalize].
  assert (HS : Zpos S = Zpos mx * 2 ^ (ex - ez) + Zpos my * 2 ^ (ey - ez)) by lia.
  assert (Px : 0 < 2 ^ (ex - ez)) by (apply Z.pow_pos_nonneg; lia).
  assert (Py : 0 < 2 ^ (ey - ez)) by (apply Z.pow_pos_nonneg; lia).
  assert (HD : -1074 < lead (Zpos S) ez).
  { unfold lead. pose proof (Z.log2_nonneg (Zpos S)). rewrite fx_max in *. lia. }
  destruct (binary_round_ge S ez HD) as (H1 & H2 & H3).
  split_and!; [done|done| |]; apply H3; (done || lia || nia).
Qed.

Lemma f0_valid : valid f0 = true. Proof. done. Qed.
Lemma f0_nonneg : nonneg f0 = true. Proof. done. Qed.

(** ** Subtraction and negation *)

Definition fneg : f64 -> f64 := SFopp.

Lemma fneg_nonneg x :
  valid x = true -> flt x f0 = true -> nonneg (fneg x) = true /\ valid (fneg x) = true.
Proof. by destruct x as [[]|[]| |[] m e]. Qed.

(** A result of the sign [true] that is not below zero is a zero. *)
Lemma round_neg_zero (S : positive) e :
  let r := binary_round prec64 emax64 true S e in
  is_nan r = false -> flt r f0 = false -> nonneg r = true /\ valid r = true.
Proof.
  unfold binary_round, binary_round_aux. cbv zeta.
  repeat match goal with
  | |- context [ let '(_, _) := ?x in _ ] => destruct x
  | |- context [ match ?x with _ => _ end ] =>
      match x with shr_m _ => destruct x | Z.leb _ _ => destruct x | _ => fail end
  | |- context [ if ?b then _ else _ ] => destruct b
  end; try done.
Qed.

Lemma fsub_nonneg x y :
  valid x = true -> valid y = true -> nonneg x = true -> nonneg y = true ->
  is_nan (fsub x y) = false -> flt (fsub x y) f0 = false ->
  nonneg (fsub x y) = true /\ valid (fsub x y) = true.
Proof.
  intros Vx Vy Nx Ny.
  destruct x as [sx|[]| |[] mx ex], y as [sy|[]| |[] my ey]; try discriminate;
    try (by destruct sx, sy); try (unfold fsub; simpl; try done).
  apply valid_finite in Vx as [Cx Bx]. apply valid_finite in Vy as [Cy By].
  set (ez := Z.min ex ey).
  set (d := cond_Zopp false (Zpos (fst (shl_align mx ex ez)))
            - cond_Zopp false (Zpos (fst (shl_align my ey ez)))).
  change (Zpos (fst (shl_align mx ex ez)) - Zpos (fst (shl_align my ey ez))) with d.
  destruct d as [|p|p]; cbn [binary_normalize]; [done| |apply round_neg_zero].
  intros _ _. destruct (binary_round_ge p ez) as (H1 & H2 & _); [|done].
  unfold lead. pose proof (Z.log2_nonneg (Zpos p)). rewrite fx_max in *. lia.
Qed.

(** Canonical numbers are ordered as their exact values are. *)
Lemma valid_lead m e :
  valid (S754_finite false m e) = true -> -1074 <= e /\ lead (Zpos m) e <= e + 53 /\
    (-1074 < e -> lead (Zpos m) e = e + 53).
Proof. intros [C B]%valid_finite. rewrite fx_max in C. lia. Qed.

Lemma mag_bounds m e k :
  k <= e -> 2 ^ (lead (Zpos m) e - 1 - k) <= Zpos m * 2 ^ (e - k) < 2 ^ (lead (Zpos m) e - k).
Proof.
  intros Hk. unfold lead. pose proof (Z.log2_spec (Zpos m) ltac:(lia)). pose proof (Z.log2_nonneg (Zpos m)).
  replace (Z.log2 (Zpos m) + 1 + e - 1 - k) with (Z.log2 (Zpos m) + (e - k)) by lia.
  replace (Z.log2 (Zpos m) + 1 + e - k) with (Z.succ (Z.log2 (Zpos m)) + (e - k)) by lia.
  rewrite !Z.pow_add_r by lia. pose proof (Z.pow_pos_nonneg 2 (e - k)). nia.
Qed.

Lemma flt_mag mx ex my ey k :
  valid (S754_finite false mx ex) = true -> valid (S754_finite false my ey) = true ->
  k <= ex -> k <= ey ->
  flt (S754_finite false mx ex) (S754_finite false my ey) = true ->
  Zpos mx * 2 ^ (ex - k) < Zpos my * 2 ^ (ey - k).
Proof.
  intros Vx Vy Hx Hy (_ & _ & Hlt)%flt_rank. cbn [rank lt3] in Hlt.
  destruct Hlt as [|[_ [Hlt|[-> Hlt]]]]; [lia| |].
  - apply valid_lead in Vx as (? & ? & _), Vy as (? & ? & Hl). specialize (Hl ltac:(lia)).
    pose proof (mag_bounds mx ex k Hx). pose proof (mag_bounds my ey k Hy).
    assert (2 ^ (lead (Zpos mx) ex - k) <= 2 ^ (lead (Zpos my) ey - 1 - k)); [|lia].
    apply Z.pow_le_mono_r; lia.
  - pose proof (Z.pow_pos_nonneg 2 (ey - k)). nia.
Qed.

Lemma fle_mag mx ex my ey k :
  valid (S754_finite false mx ex) = true -> valid (S754_finite false my ey) = true ->
  k <= ex -> k <= ey ->
  fle (S754_finite false mx ex) (S754_finite false my ey) = true ->
  Zpos mx * 2 ^ (ex - k) <= Zpos my * 2 ^ (ey - k).
Proof.
  intros Vx Vy Hx Hy Hle. destruct (flt (S754_finite false mx ex) (S754_finite false my ey)) eqn:Hlt.
  - apply Z.lt_le_incl. by apply flt_mag.
  - apply flt_false_le in Hlt; [|done..].
    pose proof (proj1 (feq_rank _ _) (fle_antisym _ _ Hle Hlt)) as (_ & _ & [= -> ->]). lia.
Qed.

Definition is_inf (x : f64) : bool := match x with S754_infinity _ => true | _ => false end.

(** The exact difference of two mantissas is held at the lower exponent. *)
Lemma fsub_finite mx ex my ey :
  fsub (S754_finite false mx ex) (S754_finite false my ey) =
  binary_normalize prec64 emax64
    (Zpos mx * 2 ^ (ex - Z.min ex ey) - Zpos my * 2 ^ (ey - Z.min ex ey)) (Z.min ex ey) false.
Proof.
  unfold fsub, SFsub. cbn [cond_Zopp]. by rewrite !align_Z by lia.
Qed.

(** The difference of a number and a finite one that is not above it. *)
Lemma fsub_ge x y :
  valid x = true -> valid y = true -> nonneg x = true -> nonneg y = true -> is_inf y = false ->
  fle y x = true -> nonneg (fsub x y) = true /\ valid (fsub x y) = true.
Proof.
  intros Vx Vy Nx Ny Fy Hle.
  destruct x as [sx|[]| |[] mx ex], y as [sy|[]| |[] my ey]; try discriminate;
    try (by destruct sx, sy); try (unfold fsub; simpl; done).
  apply (fle_mag _ _ _ _ (Z.min ex ey)) in Hle; [|done|done|lia|lia]. rewrite fsub_finite.
  destruct (Z.pos _ * _ - _) as [|p|p] eqn:E; cbn [binary_normalize]; [done| |lia].
  apply valid_finite in Vx as [Cx Bx]. apply valid_finite in Vy as [Cy By].
  destruct (binary_round_ge p (Z.min ex ey)) as (H1 & H2 & _); [|done].
  unfold lead. pose proof (Z.log2_nonneg (Zpos p)). rewrite fx_max in *. lia.
Qed.

Lemma round_neg_not_pos (S : positive) e : flt f0 (binary_round prec64 emax64 true S e) = false.
Proof.
  unfold binary_round, binary_round_aux. cbv zeta.
  repeat match goal with
  | |- context [ let '(_, _) := ?x in _ ] => destruct x
  | |- context [ match ?x with _ => _ end ] =>
      match x with shr_m _ => destruct x | Z.leb _ _ => destruct x | _ => fail end
  | |- context [ if ?b then _ else _ ] => destruct b
  end; done.
Qed.

(** A difference above zero is one of a number and a finite one below it. *)
Lemma fsub_pos x y :
  valid x = true -> valid y = true -> nonneg x = true -> nonneg y = true ->
  flt f0 (fsub x y) = true -> is_inf y = false /\ fle y x = true.
Proof.
  intros Vx Vy Nx Ny Hp. assert (is_inf y = false) as Hf.
  { destruct y as [|[]| |]; try done. by destruct x as [|[]| |[]]. }
  split; [done|]. destruct (flt x y) eqn:Hlt; [|by apply flt_false_le; [apply nonneg_not_nan..|]].
  exfalso. destruct x as [sx|[]| |[] mx ex], y as [sy|[]| |[] my ey]; try discriminate; try done.
  apply (flt_mag _ _ _ _ (Z.min ex ey)) in Hlt; [|done|done|lia|lia]. rewrite fsub_finite in Hp.
  destruct (Z.pos _ * _ - _) as [|p|p] eqn:E; [lia|lia|]. cbn [binary_normalize] in Hp.
  by rewrite round_neg_not_pos in Hp.
Qed.
