(* ===== verification/Dlist.v ===== *)
(** * Doubly linked lists of records

    Two classes of the routing table ([mpath_item] and [route_item] of
    mpSelect_rtable.h) are kept on null-terminated doubly linked lists, and
    the code that pushes a record in front of such a list and that unlinks
    one is written out in both.  [Linked] states what that code relies on in
    a record type; [push_front] and [unlink] are the code, and the theorems
    say that they act on the list of payloads as [cons] and as the removal of
    one position, leaving every object outside the list alone. *)

From stdpp Require Import base numbers list gmap.
From Stdlib Require Import ZArith Lia.
From S2P Require Import Prelude Store.

(** A record with two link fields and a payload. *)
Class Linked (T D : Type) := {
  next_of : T -> option positive;
  prev_of : T -> option positive;
  data_of : T -> D;
  with_next : option positive -> T -> T;
  with_prev : option positive -> T -> T;
}.
#[global] Hint Mode Linked ! - : typeclass_instances.

(** The link fields and the payload are separate fields. *)
Class LinkedLaws (T D : Type) `{Linked T D} : Prop := {
  next_with_next p (v : T) : next_of (with_next p v) = p;
  next_with_prev p (v : T) : next_of (with_prev p v) = next_of v;
  prev_with_next p (v : T) : prev_of (with_next p v) = prev_of v;
  prev_with_prev p (v : T) : prev_of (with_prev p v) = p;
  data_with_next p (v : T) : data_of (with_next p v) = data_of v;
  data_with_prev p (v : T) : data_of (with_prev p v) = data_of v;
  with_prev_next p q (v : T) : with_prev p (with_next q v) = with_next q (with_prev p v);
}.

Section ops.
Context {T D : Type} `{Linked T D}.
Implicit Types (h : gmap positive T) (head p : option positive).

(** [p = new ...; p->next = head; p->prev = NULL;
     if (head != NULL) head->prev = p; head = p;] *)
Definition push_front h head (v : T) : result (positive * gmap positive T) :=
  let '(p, h1) := alloc h (with_prev None (with_next head v)) in
  let! h2 := match head with
             | None => Ok h1
             | Some _ => store h1 head (with_prev (Some p))
             end in
  Ok (p, h2).

(** The removal of [p], found on the list that starts at [head]. *)
Definition unlink h head (l : positive) : result (option positive * gmap positive T) :=
  let! v := load h (Some l) in
  let! '(head', h1) :=
    if decide (head = Some l) then
      let! h1 := match next_of v with
                 | None => Ok h
                 | Some _ => store h (next_of v) (with_prev None)
                 end in
      Ok (next_of v, h1)
    else
      let! h1 := store h (prev_of v) (with_next (next_of v)) in
      let! h2 := match next_of v with
                 | None => Ok h1
                 | Some _ => store h1 (next_of v) (with_prev (prev_of v))
                 end in
      Ok (head, h2) in
  let! h2 := release h1 (Some l) in
  Ok (head', h2).
End ops.

Section theory.
Context {T D : Type} `{LT : Linked T D} {LL : LinkedLaws T D}.
Implicit Types (h : gmap positive T) (head p q pv : option positive)
  (ls : list positive) (ds : list D).

(** The objects [ls], carrying the payloads [ds], linked both ways from
    [p] (whose predecessor is [pv]) to null. *)
Fixpoint dl h pv p ls ds q : Prop :=
  match ls, ds with
  | [], [] => p = q
  | l :: ls', d :: ds' =>
      p = Some l /\
      exists v, h !! l = Some v /\ prev_of v = pv /\ data_of v = d /\
                dl h (Some l) (next_of v) ls' ds' q
  | _, _ => False
  end.

Definition dlist h head ls ds : Prop := dl h None head ls ds None.

Lemma dl_length h pv p ls ds q : dl h pv p ls ds q -> length ls = length ds.
Proof.
  revert pv p ds. induction ls as [|l ls IH]; intros pv p [|d ds]; simpl; try done.
  intros (_ & v & _ & _ & _ & Hs). by rewrite (IH _ _ _ Hs).
Qed.

Lemma dl_seg h pv p ls ds q : dl h pv p ls ds q -> seg next_of h p ls q.
Proof.
  revert pv p ds. induction ls as [|l ls IH]; intros pv p [|d ds]; simpl; try done.
  intros (-> & v & Hv & _ & _ & Hs). eauto.
Qed.

Lemma dlist_NoDup h head ls ds : dlist h head ls ds -> NoDup ls.
Proof. intros Hd. eapply seg_NoDup, dl_seg, Hd. Qed.

Lemma dl_app h pv p ls1 ls2 ds1 ds2 q :
  length ls1 = length ds1 ->
  dl h pv p (ls1 ++ ls2) (ds1 ++ ds2) q <->
  exists r, dl h pv p ls1 ds1 r /\
            dl h (match last ls1 with Some l => Some l | None => pv end) r ls2 ds2 q.
Proof.
  revert pv p ds1. induction ls1 as [|l ls1 IH]; intros pv p [|d ds1] Hlen;
    simpl in Hlen; try lia.
  - simpl. naive_solver.
  - rewrite last_cons. cbn [app dl]. split.
    + intros (-> & v & Hv & Hp & Hd & Hs). apply IH in Hs as (r & H1 & H2); [|lia].
      exists r. split; [eauto 10|]. by destruct (last ls1).
    + intros (r & (-> & v & Hv & Hp & Hd & H1) & H2). split; [done|].
      exists v. split_and!; try done. apply IH; [lia|]. exists r.
      split; [done|]. by destruct (last ls1).
Qed.

Lemma dl_agree h h' pv p ls ds q :
  (forall l, l ∈ ls -> h' !! l = h !! l) -> dl h pv p ls ds q -> dl h' pv p ls ds q.
Proof.
  revert pv p ds. induction ls as [|l ls IH]; intros pv p [|d ds] Hag; simpl; try done.
  intros (-> & v & Hv & Hp & Hd & Hs). split; [done|]. exists v.
  rewrite Hag by set_solver. split_and!; try done. apply IH; [set_solver|done].
Qed.

Lemma dl_lookup h pv p ls ds q i l :
  dl h pv p ls ds q -> ls !! i = Some l ->
  exists v, h !! l = Some v /\ ds !! i = Some (data_of v).
Proof.
  revert pv p ds i. induction ls as [|k ls IH]; intros pv p [|d ds] [|i]; simpl; try done.
  - intros (-> & v & Hv & _ & <- & _) [= <-]. eauto.
  - intros (-> & v & Hv & _ & _ & Hs) Hi. eauto.
Qed.

(** Overwriting the first object's [prev] field. *)
Lemma dl_set_prev h pv pv' p l ls d ds q v :
  l ∉ ls -> dl h pv p (l :: ls) (d :: ds) q -> h !! l = Some v ->
  dl (<[l := with_prev pv' v]> h) pv' p (l :: ls) (d :: ds) q.
Proof.
  intros Hl (-> & v' & Hv & Hp & Hd & Hs) Hv2.
  assert (v' = v) as -> by congruence. split; [done|].
  exists (with_prev pv' v). rewrite lookup_insert_eq, prev_with_prev, data_with_prev,
    next_with_prev. split_and!; try done.
  eapply dl_agree; [|done]. intros k Hk. apply lookup_insert_ne. by intros <-.
Qed.

(** Redirecting the last object's [next] field. *)
Lemma dl_set_next h pv p ls l ds d q q' v :
  l ∉ ls -> length ls = length ds ->
  dl h pv p (ls ++ [l]) (ds ++ [d]) q -> h !! l = Some v ->
  dl (<[l := with_next q' v]> h) pv p (ls ++ [l]) (ds ++ [d]) q'.
Proof.
  intros Hl Hlen Hd Hv. apply dl_app in Hd as (r & H1 & H2); [|done].
  destruct H2 as (-> & v' & Hv' & Hp & Hdd & Hq).
  assert (v' = v) as -> by congruence.
  apply dl_app; [done|]. exists (Some l). split.
  - eapply dl_agree; [|done]. intros k Hk. apply lookup_insert_ne. by intros <-.
  - split; [done|]. exists (with_next q' v).
    rewrite lookup_insert_eq, prev_with_next, data_with_next, next_with_next. done.
Qed.

(** Overwriting the payload of one object. *)
Lemma dl_set_data h pv p ls ds q i l v v' :
  dl h pv p ls ds q -> NoDup ls -> ls !! i = Some l -> h !! l = Some v ->
  next_of v' = next_of v -> prev_of v' = prev_of v ->
  dl (<[l := v']> h) pv p ls (<[i := data_of v']> ds) q.
Proof.
  revert pv p ds i. induction ls as [|k ls IH]; intros pv p [|d ds] [|i];
    cbn [dl lookup list_lookup insert list_insert]; try done.
  - intros (-> & w & Hw & Hp & Hd & Hs) Hnd [= ->] Hv Hn Hpv. simplify_eq.
    apply NoDup_cons in Hnd as [Hk _]. split; [done|]. exists v'.
    rewrite lookup_insert_eq, Hn. split_and!; try done.
    eapply dl_agree; [|done]. intros x Hx. apply lookup_insert_ne. by intros <-.
  - intros (-> & w & Hw & Hp & Hd & Hs) Hnd Hi Hv Hn Hpv.
    apply NoDup_cons in Hnd as [Hk Hnd]. split; [done|]. exists w.
    rewrite lookup_insert_ne.
    + split_and!; try done. by eapply IH.
    + intros <-. apply Hk, list_elem_of_lookup. eauto.
Qed.

(** ** Pushing *)

Lemma push_front_spec h head ls ds v :
  dlist h head ls ds ->
  exists h',
    push_front h head v = Ok (fresh_loc h, h') /\
    fresh_loc h ∉ ls /\
    dlist h' (Some (fresh_loc h)) (fresh_loc h :: ls) (data_of v :: ds) /\
    forall k, k <> fresh_loc h -> k ∉ ls -> h' !! k = h !! k.
Proof.
  intros Hd. set (p := fresh_loc h).
  pose proof (dlist_NoDup _ _ _ _ Hd) as Hnd.
  assert (Hp : p ∉ ls).
  { intros [i Hi]%list_elem_of_lookup.
    destruct (dl_lookup _ _ _ _ _ _ _ _ Hd Hi) as (w & Hw & _).
    eapply fresh_loc_ne; done. }
  unfold push_front, alloc. fold p.
  set (v1 := with_prev None (with_next head v)).
  assert (Hd1 : dlist (<[p := v1]> h) head ls ds).
  { eapply dl_agree; [|done]. intros k Hk. apply lookup_insert_ne. by intros <-. }
  destruct ls as [|l ls], ds as [|d ds]; try done.
  - simpl in Hd. unfold dlist in Hd. simpl in Hd. subst head. simpl.
    eexists. split_and!; [done|done| |].
    + split; [done|]. exists v1. rewrite lookup_insert_eq. unfold v1.
      rewrite prev_with_prev, data_with_prev, data_with_next, next_with_prev,
        next_with_next. done.
    + intros k Hk _. by apply lookup_insert_ne.
  - pose proof Hd1 as (-> & w & Hw & _). cbn [store]. rewrite Hw. cbn [rbind].
    apply NoDup_cons in Hnd as [Hl Hnd].
    eexists. split_and!; [done|done| |].
    + split; [done|]. exists v1.
      rewrite lookup_insert_ne, lookup_insert_eq by set_solver. unfold v1.
      rewrite prev_with_prev, data_with_prev, data_with_next, next_with_prev,
        next_with_next. split_and!; try done.
      by eapply dl_set_prev.
    + intros k Hk Hkl. rewrite !lookup_insert_ne by set_solver. done.
Qed.

(** ** Unlinking *)

(** Redirecting the [prev] field of the object after the removed one. *)
Definition relink (h : gmap positive T) (p pv : option positive) : result (gmap positive T) :=
  match p with None => Ok h | Some _ => store h p (with_prev pv) end.

Lemma relink_spec h pv p pv' post ds :
  NoDup post -> dl h pv p post ds None ->
  exists h1, relink h p pv' = Ok h1 /\ dl h1 pv' p post ds None /\
    forall k, k ∉ post -> h1 !! k = h !! k.
Proof.
  intros Hnd Hs. destruct post as [|x post], ds as [|d ds]; try done.
  - simpl in Hs. rewrite Hs. by eexists.
  - pose proof Hs as (-> & w & Hw & _). cbn [relink store]. rewrite Hw.
    eexists. split_and!; [done| |].
    + eapply dl_set_prev; [|done|done]. by apply NoDup_cons in Hnd as [? _].
    + intros k Hk. apply lookup_insert_ne. set_solver.
Qed.

(** Unlinking the first object. *)
Lemma unlink_head h l post d ds :
  dlist h (Some l) (l :: post) (d :: ds) ->
  exists head' h',
    unlink h (Some l) l = Ok (head', h') /\ dlist h' head' post ds /\
    h' !! l = None /\ forall k, k ∉ l :: post -> h' !! k = h !! k.
Proof.
  intros Hdl. pose proof (dlist_NoDup _ _ _ _ Hdl) as [Hl Hnd]%NoDup_cons.
  destruct Hdl as (_ & v & Hv & Hp & Hd & Hs).
  destruct (relink_spec _ _ _ None _ _ Hnd Hs) as (h2 & E2 & Hd2 & Hfr).
  assert (Hv2 : h2 !! l = Some v) by (by rewrite Hfr).
  unfold unlink. cbn [load]. rewrite Hv. cbn [rbind].
  rewrite decide_True by done. fold (relink h (next_of v) None).
  rewrite E2. cbn [rbind release]. rewrite Hv2. cbn [rbind].
  do 2 eexists. split_and!; [done| | |].
  - eapply dl_agree; [|done]. intros x Hx. apply lookup_delete_ne. by intros <-.
  - apply lookup_delete_eq.
  - intros x Hx. rewrite lookup_delete_ne by set_solver. apply Hfr. set_solver.
Qed.

(** Unlinking the object [l] that follows [k]. *)
Lemma unlink_middle h head pre k l post ds1 dk d ds2 :
  length pre = length ds1 ->
  dlist h head (pre ++ [k] ++ l :: post) (ds1 ++ [dk] ++ d :: ds2) ->
  exists h',
    unlink h head l = Ok (head, h') /\
    dlist h' head (pre ++ [k] ++ post) (ds1 ++ [dk] ++ ds2) /\
    h' !! l = None /\ forall x, x ∉ pre ++ [k] ++ l :: post -> h' !! x = h !! x.
Proof.
  intros Hlen Hdl. pose proof (dlist_NoDup _ _ _ _ Hdl) as Hnd.
  assert (Hne : head <> Some l).
  { intros ->. destruct pre, ds1; try done;
      destruct Hdl as ([= ->] & _); apply NoDup_cons in Hnd as [Hn _]; set_solver. }
  assert (Hk : k ∉ pre /\ k <> l /\ k ∉ post /\ l ∉ pre /\ l ∉ post /\ NoDup post /\
               forall x, x ∈ pre -> x ∉ post).
  { revert Hnd. rewrite NoDup_app. cbn [app]. rewrite !NoDup_cons. set_solver. }
  destruct Hk as (Hk1 & Hk2 & Hk3 & Hl1 & Hl2 & Hnp & Hdis).
  rewrite !(assoc_L (++)) in Hdl.
  apply dl_app in Hdl as (r & H1 & H2); [|rewrite !length_app; simpl; lia].
  rewrite last_snoc in H2. destruct H2 as (-> & v & Hv & Hp & Hd & Hs).
  destruct (seg_lookup next_of h head (pre ++ [k]) (Some l) k) as [w Hw];
    [by eapply dl_seg|set_solver|].
  set (h1 := <[k := with_next (next_of v) w]> h).
  destruct (relink_spec h1 (Some l) (next_of v) (Some k) post ds2) as (h2 & E2 & Hd2 & Hfr);
    [done| |].
  { eapply dl_agree; [|done]. intros x Hx. apply lookup_insert_ne. by intros <-. }
  assert (Hv2 : h2 !! l = Some v).
  { rewrite Hfr by done. unfold h1. by rewrite lookup_insert_ne. }
  unfold unlink. cbn [load]. rewrite Hv. cbn [rbind]. rewrite decide_False by done.
  rewrite Hp. cbn [store]. rewrite Hw. cbn [rbind]. fold h1.
  fold (relink h1 (next_of v) (Some k)). rewrite E2. cbn [rbind release].
  rewrite Hv2. cbn [rbind]. eexists. split_and!; [done| | |].
  - rewrite !(assoc_L (++)). apply dl_app; [rewrite !length_app; simpl; lia|].
    exists (next_of v). rewrite last_snoc. split.
    + eapply dl_agree; [|eapply dl_set_next; [exact Hk1|lia|exact H1|exact Hw]].
      intros x Hx. rewrite lookup_delete_ne by set_solver. apply Hfr. set_solver.
    + eapply dl_agree; [|done]. intros x Hx. apply lookup_delete_ne. by intros <-.
  - apply lookup_delete_eq.
  - intros x Hx. rewrite lookup_delete_ne by set_solver.
    rewrite Hfr by set_solver. unfold h1. apply lookup_insert_ne. set_solver.
Qed.

(** Unlinking any object of the list takes out its position. *)
Lemma unlink_spec h head pre l post ds1 d ds2 :
  length pre = length ds1 ->
  dlist h head (pre ++ l :: post) (ds1 ++ d :: ds2) ->
  exists head' h',
    unlink h head l = Ok (head', h') /\
    dlist h' head' (pre ++ post) (ds1 ++ ds2) /\
    h' !! l = None /\
    forall k, k ∉ pre ++ l :: post -> h' !! k = h !! k.
Proof.
  intros Hlen Hdl.
  destruct (decide (pre = [])) as [->|Hpre].
  - destruct ds1; [|done]. pose proof Hdl as (-> & _). by eapply unlink_head.
  - destruct (exists_last Hpre) as (pre' & k & ->).
    destruct (exists_last (l := ds1)) as (ds1' & dk & ->).
    { intros ->. rewrite length_app in Hlen. simpl in Hlen. lia. }
    rewrite !length_app in Hlen. simpl in Hlen.
    rewrite <- !(assoc_L (++)) in *.
    destruct (unlink_middle h head pre' k l post ds1' dk d ds2) as (h' & ?);
      [lia|done|]. eauto.
Qed.
End theory.
