(* ===== verification/MpRtable.v ===== *)
(** * The multipath routing table (mpSelect/mpSelect_rtable.{h,cc})

    The table owns two intrusive lists: the routes ([route_item], doubly
    linked) and the selectors ([mpath], one per remote mpSelect agent), each
    selector owning a doubly linked list of paths ([mpath_item]).  The three
    kinds of objects live in three regions of the free store; every method is
    a function from the state of the table to an outcome.  [CURRENT_TIME] is
    the argument [now]; loops take a bound [fuel]. *)

From stdpp Require Import base numbers list gmap.
From Stdlib Require Import ZArith Lia.
From S2P Require Import Prelude Store Float64 Dlist.

Local Open Scope Z_scope.

(** [(u_int32_t) a == IP_BROADCAST] and the value an [nsaddr_t] holds after
    [return IP_BROADCAST]. *)
Definition IP_BROADCAST : Z := 0xffffffff.
Definition is_broadcast (a : Z) : bool := wrap_u32 a =? IP_BROADCAST.
Definition broadcast_addr : Z := wrap_i32 IP_BROADCAST.

Definition SEND_PING_INTERVAL : f64 := f64_of_Z 1.
Definition ALIVE_INTERVAL : f64 := f64_of_Z 2.

(** ** Data *)

(** The data members of [mpath_item]. *)
Record path_info := PathInfo {
  s_intf : Z;
  d_intf : Z;
  recv_delay : f64;
  send_delay : f64;
  ping_send_time : f64;
  last_recv_time : f64;
  ping_seq : Z;       (** unsigned int *)
  cnt : Z;            (** int *)
}.

Record mpath_item := MpathItem {
  path : path_info;
  next_path : option positive;
  prev_path : option positive;
}.

Record mpath := Mpath {
  pathHead : option positive;
  select_addr : Z;
  next_select : option positive;
  prev_select : option positive;
}.

(** The data members of [route_item]; [mptable] is [None] while the field
    has not been written since the object was allocated. *)
Record route_info := RouteInfo {
  daddr_seg : Z;
  mask : Z;
  next_hop : Z;
  mp_flag : bool;
  mptable : option (option positive);
}.

Record route_item := RouteItem {
  route : route_info;
  next : option positive;
  prev : option positive;
}.

#[export] Instance mpath_item_linked : Linked mpath_item path_info := {
  next_of := next_path;
  prev_of := prev_path;
  data_of := path;
  with_next p v := MpathItem (path v) p (prev_path v);
  with_prev p v := MpathItem (path v) (next_path v) p;
}.

#[export] Instance mpath_item_laws : LinkedLaws mpath_item path_info.
Proof. by constructor. Qed.

#[export] Instance route_item_linked : Linked route_item route_info := {
  next_of := next;
  prev_of := prev;
  data_of := route;
  with_next p v := RouteItem (route v) p (prev v);
  with_prev p v := RouteItem (route v) (next v) p;
}.

#[export] Instance route_item_laws : LinkedLaws route_item route_info.
Proof. by constructor. Qed.

(** The table, the three regions of the store, and the two function-level
    statics of [get_path_item].  In the code these two are shared by all the
    tables of the program; here each table has its own, so a run that changes
    to another table while an enumeration is under way is not covered. *)
Record mpRtable := MpRtable {
  rtable_head : option positive;
  mptable_head : option positive;
  routes : gmap positive route_item;
  selects : gmap positive mpath;
  items : gmap positive mpath_item;
  static_s : option positive;
  static_p : option positive;
}.

Definition empty_mpRtable : mpRtable := MpRtable None None ∅ ∅ ∅ None None.

(** Field updates. *)
Definition set_rtable_head p t :=
  MpRtable p (mptable_head t) (routes t) (selects t) (items t) (static_s t) (static_p t).
Definition set_mptable_head p t :=
  MpRtable (rtable_head t) p (routes t) (selects t) (items t) (static_s t) (static_p t).
Definition set_routes h t :=
  MpRtable (rtable_head t) (mptable_head t) h (selects t) (items t) (static_s t) (static_p t).
Definition set_selects h t :=
  MpRtable (rtable_head t) (mptable_head t) (routes t) h (items t) (static_s t) (static_p t).
Definition set_items h t :=
  MpRtable (rtable_head t) (mptable_head t) (routes t) (selects t) h (static_s t) (static_p t).
Definition set_statics s p t :=
  MpRtable (rtable_head t) (mptable_head t) (routes t) (selects t) (items t) s p.

Definition set_path (f : path_info -> path_info) (v : mpath_item) : mpath_item :=
  MpathItem (f (path v)) (next_path v) (prev_path v).
Definition set_route (f : route_info -> route_info) (v : route_item) : route_item :=
  RouteItem (f (route v)) (next v) (prev v).
Definition set_pathHead p (m : mpath) : mpath :=
  Mpath p (select_addr m) (next_select m) (prev_select m).
Definition set_next_select p (m : mpath) : mpath :=
  Mpath (pathHead m) (select_addr m) p (prev_select m).
Definition set_prev_select p (m : mpath) : mpath :=
  Mpath (pathHead m) (select_addr m) (next_select m) p.
Definition with_binding (flag : bool) (b : option (option positive)) (r : route_info) :=
  RouteInfo (daddr_seg r) (mask r) (next_hop r) flag b.

Definition with_send_delay d (i : path_info) :=
  PathInfo (s_intf i) (d_intf i) (recv_delay i) d (ping_send_time i) (last_recv_time i)
    (ping_seq i) (cnt i).
Definition with_recv_delay d (i : path_info) :=
  PathInfo (s_intf i) (d_intf i) d (send_delay i) (ping_send_time i) (last_recv_time i)
    (ping_seq i) (cnt i).
Definition with_recv_time t (i : path_info) :=
  PathInfo (s_intf i) (d_intf i) (recv_delay i) (send_delay i) (ping_send_time i) t
    (ping_seq i) (cnt i).
Definition with_ping t seq (i : path_info) :=
  PathInfo (s_intf i) (d_intf i) (recv_delay i) (send_delay i) t (last_recv_time i)
    seq (cnt i).
Definition with_cnt c (i : path_info) :=
  PathInfo (s_intf i) (d_intf i) (recv_delay i) (send_delay i) (ping_send_time i)
    (last_recv_time i) (ping_seq i) c.

(** ** Methods of [mpath] *)

(** [p->s_intf()==s_intf && p->d_intf()==d_intf] *)
Definition same_path (s d : Z) (i : path_info) : bool := (s_intf i =? s) && (d_intf i =? d).

(** The payload [add_mpath_item] gives a new path. *)
Definition new_path (now : f64) (s d : Z) : path_info := PathInfo s d f0 f0 now now 0 0.

Definition add_mpath_item (now : f64) (this : positive) (s d : Z) (t : mpRtable)
    : result mpRtable :=
  let! m := load (selects t) (Some this) in
  let! '(p, h) := push_front (items t) (pathHead m) (MpathItem (new_path now s d) None None) in
  let! sel := store (selects t) (Some this) (set_pathHead (Some p)) in
  Ok (set_items h (set_selects sel t)).

(** The pointer the loop of [delete_mpath_item] and of the [update_*]
    methods stops at. *)
Definition find_path (fuel : nat) (s d : Z) (head : option positive) (t : mpRtable)
    : result (option positive) :=
  walk next_path fuel (items t) (fun _ v => same_path s d (path v)) head.

Definition delete_mpath_item (fuel : nat) (this : positive) (s d : Z) (t : mpRtable)
    : result mpRtable :=
  let! m := load (selects t) (Some this) in
  let! p := find_path fuel s d (pathHead m) t in
  match p with
  | None => Ok t
  | Some l =>
      let! '(head', h) := unlink (items t) (pathHead m) l in
      let! sel := store (selects t) (Some this) (set_pathHead head') in
      Ok (set_items h (set_selects sel t))
  end.

(** The loop shared by the [update_*] methods: find the path, change it, stop. *)
Definition update_path (fuel : nat) (f : path_info -> path_info) (this : positive) (s d : Z)
    (t : mpRtable) : result mpRtable :=
  let! m := load (selects t) (Some this) in
  let! p := find_path fuel s d (pathHead m) t in
  match p with
  | None => Ok t
  | Some _ => let! h := store (items t) p (set_path f) in Ok (set_items h t)
  end.

(** [t + (p->ping_seq()-seq-1)*SEND_PING_INTERVAL - p->ping_send_time()], the
    difference of sequence numbers being unsigned. *)
Definition send_delay_of (time : f64) (seq : Z) (i : path_info) : f64 :=
  fsub (fadd time (fmul (f64_of_Z (wrap_u32 (ping_seq i - seq - 1))) SEND_PING_INTERVAL))
    (ping_send_time i).

Definition update_send_delay fuel this s d (time : f64) (seq : Z) : mpRtable -> result mpRtable :=
  update_path fuel
    (fun i => if seq <? ping_seq i then with_send_delay (send_delay_of time seq i) i else i)
    this s d.

Definition update_recv_delay fuel (now : f64) this s d (time : f64) :=
  update_path fuel (with_recv_delay (fsub now time)) this s d.

Definition update_recv_time fuel this s d (time : f64) :=
  update_path fuel (with_recv_time time) this s d.

Definition update_ping fuel (now : f64) this s d :=
  update_path fuel (fun i => with_ping now (wrap_u32 (ping_seq i + 1)) i) this s d.

(** [is_alive]: the loop looks at the head path only; [p] is not advanced
    when it does not match. *)
Fixpoint is_alive_loop (fuel : nat) (now : f64) (s d : Z) (p : option positive)
    (h : gmap positive mpath_item) : result bool :=
  match fuel with
  | O => NoFuel
  | S fuel' =>
      match p with
      | None => Ok false
      | Some l =>
          let! v := load h (Some l) in
          if same_path s d (path v)
          then Ok (flt ALIVE_INTERVAL (fsub now (last_recv_time (path v))))
          else is_alive_loop fuel' now s d p h
      end
  end.

Definition is_alive (fuel : nat) (now : f64) (this : positive) (s d : Z) (t : mpRtable)
    : result bool :=
  let! m := load (selects t) (Some this) in
  is_alive_loop fuel now s d (pathHead m) (items t).

(** The [for] loop of [select_path]: [ans] and [tag] are its locals; [next]
    is never assigned after its initialisation. *)
Fixpoint select_loop (fuel : nat) (now : f64) (this : positive) (t : mpRtable)
    (tmp ans : option positive) (tag : bool) (next_ : Z) : result (option positive) :=
  match fuel with
  | O => NoFuel
  | S fuel' =>
      match tmp with
      | None => Ok ans
      | Some l =>
          let! v := load (items t) (Some l) in
          let! alive := is_alive fuel now this (s_intf (path v)) (d_intf (path v)) t in
          if negb alive then select_loop fuel' now this t (next_path v) ans tag next_
          else if negb tag || (cnt (path v) <? next_)
          then select_loop fuel' now this t (next_path v) tmp true next_
          else select_loop fuel' now this t (next_path v) ans tag next_
      end
  end.

(** [select_path]: the returned address, the two reference parameters when
    they are written, and the state. *)
Definition select_path (fuel : nat) (now : f64) (this : positive) (t : mpRtable)
    : result (Z * option (Z * Z) * mpRtable) :=
  let! m := load (selects t) (Some this) in
  match pathHead m with
  | None => Ok (broadcast_addr, None, t)
  | Some _ =>
      let! ans := select_loop fuel now this t (pathHead m) None false 0 in
      match ans with
      | None => Ok (broadcast_addr, None, t)
      | Some _ =>
          let! v := load (items t) ans in
          let! h := store (items t) ans
            (set_path (fun i => with_cnt (wrap_i32 (cnt i + 1)) i)) in
          Ok (select_addr m, Some (s_intf (path v), d_intf (path v)), set_items h t)
      end
  end.

(** [mpath::clear] *)
Fixpoint clear_paths (fuel : nat) (head : option positive) (h : gmap positive mpath_item)
    : result (gmap positive mpath_item) :=
  match fuel with
  | O => NoFuel
  | S fuel' =>
      match head with
      | None => Ok h
      | Some _ =>
          let! v := load h head in
          let! h' := release h head in
          clear_paths fuel' (next_path v) h'
      end
  end.

Definition mpath_clear (fuel : nat) (this : positive) (t : mpRtable) : result mpRtable :=
  let! m := load (selects t) (Some this) in
  let! h := clear_paths fuel (pathHead m) (items t) in
  let! sel := store (selects t) (Some this) (set_pathHead None) in
  Ok (set_items h (set_selects sel t)).

(** ** Methods of [mpRtable] *)

(** [for (; p!=NULL; p=p->next_select()) if (p->select_addr()==select) break;] *)
Definition find_select (fuel : nat) (select : Z) (t : mpRtable) : result (option positive) :=
  walk next_select fuel (selects t) (fun _ m => select_addr m =? select) (mptable_head t).

(** [for (; r!=NULL; r=r->next()) if (daddr_seg and mask match) break;] *)
Definition find_route (fuel : nat) (seg msk : Z) (t : mpRtable) : result (option positive) :=
  walk next fuel (routes t)
    (fun _ r => (daddr_seg (route r) =? seg) && (mask (route r) =? msk)) (rtable_head t).

(** The loop, without a [break], of the methods that act on every selector
    of a given address; [f] is the method called on it. *)
Fixpoint for_selects (fuel : nat) (select : Z) (f : positive -> mpRtable -> result mpRtable)
    (p : option positive) (t : mpRtable) : result mpRtable :=
  match fuel with
  | O => NoFuel
  | S fuel' =>
      match p with
      | None => Ok t
      | Some l =>
          let! m := load (selects t) p in
          let! t' := if select_addr m =? select then f l t else Ok t in
          let! m' := load (selects t') p in
          for_selects fuel' select f (next_select m') t'
      end
  end.

Definition add_item (seg msk hop : Z) (t : mpRtable) : result mpRtable :=
  let! '(p, h) := push_front (routes t) (rtable_head t)
    (RouteItem (RouteInfo seg msk hop false None) None None) in
  Ok (set_rtable_head (Some p) (set_routes h t)).

Definition add_mpath (fuel : nat) (now : f64) (select s d : Z) (t : mpRtable)
    : result mpRtable :=
  let! ptr := find_select fuel select t in
  match ptr with
  | None =>
      let '(p, sel) := alloc (selects t) (Mpath None select None None) in
      let! t1 := add_mpath_item now p s d (set_selects sel t) in
      let! sel1 := store (selects t1) (Some p) (set_next_select (mptable_head t1)) in
      let! sel2 := store sel1 (Some p) (set_prev_select None) in
      Ok (set_mptable_head (Some p) (set_selects sel2 t1))
  | Some l => add_mpath_item now l s d t
  end.

Definition delete_item (fuel : nat) (seg msk : Z) (t : mpRtable) : result mpRtable :=
  let! r := find_route fuel seg msk t in
  match r with
  | None => Ok t
  | Some l =>
      let! '(head', h) := unlink (routes t) (rtable_head t) l in
      Ok (set_rtable_head head' (set_routes h t))
  end.

Definition delete_mpath (fuel : nat) (select s d : Z) (t : mpRtable) : result mpRtable :=
  for_selects fuel select (fun l => delete_mpath_item fuel l s d) (mptable_head t) t.

(** The first loop of [delete_select]: routes bound to the selector lose
    their flag. *)
Fixpoint unflag_routes (fuel : nat) (select : Z) (r : option positive) (t : mpRtable)
    : result mpRtable :=
  match fuel with
  | O => NoFuel
  | S fuel' =>
      match r with
      | None => Ok t
      | Some _ =>
          let! v := load (routes t) r in
          let! hit :=
            if mp_flag (route v) then
              match mptable (route v) with
              | None => Fault Uninit
              | Some q => let! m := load (selects t) q in Ok (select_addr m =? select)
              end
            else Ok false in
          let! h := if (hit : bool)
                    then store (routes t) r
                           (set_route (fun i => with_binding false (mptable i) i))
                    else Ok (routes t) in
          unflag_routes fuel' select (next v) (set_routes h t)
      end
  end.

(** Unlinking a selector in the second loop of [delete_select]. *)
Definition unlink_select (l : positive) (t : mpRtable) : result mpRtable :=
  let! p := load (selects t) (Some l) in
  if decide (mptable_head t = Some l) then
    let! h := match next_select p with
              | None => Ok (selects t)
              | Some _ => store (selects t) (next_select p) (set_prev_select None)
              end in
    Ok (set_mptable_head (next_select p) (set_selects h t))
  else
    let! h := store (selects t) (prev_select p) (set_next_select (next_select p)) in
    let! p' := load h (Some l) in
    let! h' := match next_select p' with
               | None => Ok h
               | Some _ => store h (Some l) (set_next_select (prev_select p'))
               end in
    Ok (set_selects h' t).

Fixpoint delete_selects (fuel : nat) (select : Z) (p : option positive) (t : mpRtable)
    : result mpRtable :=
  match fuel with
  | O => NoFuel
  | S fuel' =>
      match p with
      | None => Ok t
      | Some l =>
          let! m := load (selects t) p in
          let! t' :=
            if select_addr m =? select then
              let! t1 := unlink_select l t in
              let! t2 := mpath_clear fuel l t1 in
              let! h := release (selects t2) p in
              Ok (set_selects h t2)
            else Ok t in
          let! m' := load (selects t') p in      (* p=p->next_select() *)
          delete_selects fuel' select (next_select m') t'
      end
  end.

Definition delete_select (fuel : nat) (select : Z) (t : mpRtable) : result mpRtable :=
  let! t1 := unflag_routes fuel select (rtable_head t) t in
  delete_selects fuel select (mptable_head t1) t1.

(** [attach_select] and [detach_select] differ in what they store in the
    route found. *)
Definition bind_select (fuel : nat) (seg msk select : Z)
    (b : option positive -> route_info -> route_info) (t : mpRtable) : result mpRtable :=
  let! r := find_route fuel seg msk t in
  let! p := find_select fuel select t in
  match r, p with
  | Some _, Some _ =>
      let! h := store (routes t) r (set_route (b p)) in Ok (set_routes h t)
  | _, _ => Ok t
  end.

Definition attach_select fuel seg msk select :=
  bind_select fuel seg msk select (fun p => with_binding true (Some p)).

Definition detach_select fuel seg msk select :=
  bind_select fuel seg msk select (fun _ => with_binding false (Some None)).

(** [(daddr & r->mask()) == r->daddr_seg()] *)
Definition covers (daddr : Z) (r : route_info) : bool :=
  Z.land daddr (mask r) =? daddr_seg r.

Definition find_MP (fuel : nat) (daddr : Z) (t : mpRtable) : result bool :=
  let! r := walk next fuel (routes t) (fun _ v => covers daddr (route v)) (rtable_head t) in
  match r with
  | None => Ok false
  | Some _ => let! v := load (routes t) r in Ok (mp_flag (route v))
  end.

(** [lookup (daddr)] *)
Definition lookup (fuel : nat) (daddr : Z) (t : mpRtable) : result Z :=
  let! r := walk next fuel (routes t) (fun _ v => covers daddr (route v)) (rtable_head t) in
  match r with
  | None => Ok broadcast_addr
  | Some _ => let! v := load (routes t) r in Ok (next_hop (route v))
  end.

(** [lookup (daddr, s_intf, d_intf)]: a covering route without a selector is
    passed over. *)
Fixpoint lookup_mp_loop (n fuel : nat) (now : f64) (daddr : Z) (r : option positive)
    (t : mpRtable) : result (Z * option (Z * Z) * mpRtable) :=
  match n with
  | O => NoFuel
  | S n' =>
      match r with
      | None => Ok (broadcast_addr, None, t)
      | Some _ =>
          let! v := load (routes t) r in
          if covers daddr (route v) && mp_flag (route v) then
            match mptable (route v) with
            | None => Fault Uninit
            | Some None => lookup_mp_loop n' fuel now daddr (next v) t
            | Some (Some q) => select_path fuel now q t
            end
          else lookup_mp_loop n' fuel now daddr (next v) t
      end
  end.

Definition lookup_mp (fuel : nat) (now : f64) (daddr : Z) (t : mpRtable) :=
  lookup_mp_loop fuel fuel now daddr (rtable_head t) t.

Definition update_sdelay fuel select s d (time : f64) (seq : Z) (t : mpRtable) :=
  for_selects fuel select (fun l => update_send_delay fuel l s d time seq) (mptable_head t) t.

Definition update_rdelay fuel (now : f64) select s d (time : f64) (t : mpRtable) :=
  for_selects fuel select (fun l => update_recv_delay fuel now l s d time) (mptable_head t) t.

Definition update_rtime fuel select s d (time : f64) (t : mpRtable) :=
  for_selects fuel select (fun l => update_recv_time fuel l s d time) (mptable_head t) t.

Definition update_ping_info fuel (now : f64) select s d (t : mpRtable) :=
  for_selects fuel select (fun l => update_ping fuel now l s d) (mptable_head t) t.

(** The [for] loop of [get_path_item] over the two statics. *)
Fixpoint get_path_loop (fuel : nat) (t : mpRtable) : result (option (Z * path_info) * mpRtable) :=
  match fuel with
  | O => NoFuel
  | S fuel' =>
      match static_s t with
      | None => Ok (None, t)
      | Some _ =>
          let! m := load (selects t) (static_s t) in
          let! p := match static_p t with
                    | None => Ok (pathHead m)
                    | Some _ => let! v := load (items t) (static_p t) in Ok (next_path v)
                    end in
          match p with
          | Some _ =>
              let! v := load (items t) p in
              Ok (Some (select_addr m, path v), set_statics (static_s t) p t)
          | None => get_path_loop fuel' (set_statics (next_select m) None t)
          end
      end
  end.

(** [get_path_item]: [None] for [FALSE], else the selector's address and the
    copy of the path that the reference parameters receive. *)
Definition get_path_item (fuel : nat) (t : mpRtable)
    : result (option (Z * path_info) * mpRtable) :=
  match mptable_head t with
  | None => Ok (None, t)
  | Some _ =>
      let t1 := match static_p t, static_s t with
                | None, None => set_statics (mptable_head t) None t
                | _, _ => t
                end in
      get_path_loop fuel t1
  end.

(** [mpRtable::clear] *)
Fixpoint clear_routes (fuel : nat) (t : mpRtable) : result mpRtable :=
  match fuel with
  | O => NoFuel
  | S fuel' =>
      match rtable_head t with
      | None => Ok t
      | Some _ =>
          let! v := load (routes t) (rtable_head t) in
          let! h := release (routes t) (rtable_head t) in
          clear_routes fuel' (set_rtable_head (next v) (set_routes h t))
      end
  end.

Fixpoint clear_selects (fuel : nat) (t : mpRtable) : result mpRtable :=
  match fuel with
  | O => NoFuel
  | S fuel' =>
      match mptable_head t with
      | None => Ok t
      | Some l =>
          let! m := load (selects t) (Some l) in
          let! t1 := mpath_clear fuel l (set_mptable_head (next_select m) t) in
          let! h := release (selects t1) (Some l) in
          clear_selects fuel' (set_selects h t1)
      end
  end.

Definition clear (fuel : nat) (t : mpRtable) : result mpRtable :=
  let! t1 := clear_routes fuel t in
  clear_selects fuel t1.
