(* ===== verification/MpRtableSpec.v ===== *)
(** * Specification of the routing table and its refinement

    [spec] is what the table means: an ordered list of routes, each bound to
    at most one selector, and an ordered list of selectors with their paths.
    [rep t A] relates a table in memory to its meaning; each method of
    MpRtable that does not run into undefined behaviour is shown to preserve
    [rep] while acting on the meaning by a function on lists. *)

From stdpp Require Import base numbers list gmap.
From Stdlib Require Import ZArith Lia.
From S2P Require Import Prelude Store Float64 Dlist MpRtable.

Local Open Scope Z_scope.

(** ** Meaning *)

Record aroute := ARoute { ar_seg : Z; ar_mask : Z; ar_hop : Z; ar_sel : option Z }.

Record spec := Spec {
  a_routes : list aroute;
  a_sels : list (Z * list path_info);
}.

Definition empty_spec : spec := Spec [] [].

(** List operations the methods amount to. *)
Fixpoint remove_first {A} (test : A -> bool) (l : list A) : list A :=
  match l with
  | [] => []
  | x :: l' => if test x then l' else x :: remove_first test l'
  end.

Fixpoint alter_first {A} (test : A -> bool) (f : A -> A) (l : list A) : list A :=
  match l with
  | [] => []
  | x :: l' => if test x then f x :: l' else x :: alter_first test f l'
  end.

Definition has_sel (a : Z) (S : list (Z * list path_info)) : bool :=
  existsb (fun x => x.1 =? a) S.

(** Act on the paths of the selector of address [a]. *)
Definition on_sel (a : Z) (g : list path_info -> list path_info)
    (S : list (Z * list path_info)) : list (Z * list path_info) :=
  map (fun x => if x.1 =? a then (x.1, g x.2) else x) S.

Definition a_on_sel (a : Z) g (A : spec) : spec := Spec (a_routes A) (on_sel a g (a_sels A)).

Definition a_add_item seg msk hop (A : spec) : spec :=
  Spec (ARoute seg msk hop None :: a_routes A) (a_sels A).

Definition same_route (seg msk : Z) (r : aroute) : bool :=
  (ar_seg r =? seg) && (ar_mask r =? msk).

Definition a_delete_item seg msk (A : spec) : spec :=
  Spec (remove_first (same_route seg msk) (a_routes A)) (a_sels A).

Definition a_add_mpath now select s d (A : spec) : spec :=
  if has_sel select (a_sels A)
  then a_on_sel select (cons (new_path now s d)) A
  else Spec (a_routes A) ((select, [new_path now s d]) :: a_sels A).

Definition with_sel (b : option Z) (r : aroute) : aroute :=
  ARoute (ar_seg r) (ar_mask r) (ar_hop r) b.

Definition a_bind seg msk select (b : option Z) (A : spec) : spec :=
  if has_sel select (a_sels A)
  then Spec (alter_first (same_route seg msk) (with_sel b) (a_routes A)) (a_sels A)
  else A.

Definition a_covers (daddr : Z) (r : aroute) : bool := Z.land daddr (ar_mask r) =? ar_seg r.

(** The first element satisfying a test. *)
Fixpoint first {A} (test : A -> bool) (l : list A) : option A :=
  match l with [] => None | x :: l' => if test x then Some x else first test l' end.

(** ** Representation *)

(** The selectors [L], their path cells [P] and their meaning [S]; every
    selector's [prev_select] is null. *)
Fixpoint sels (sel : gmap positive mpath) (it : gmap positive mpath_item)
    (p : option positive) (L : list positive) (P : list (list positive))
    (S : list (Z * list path_info)) : Prop :=
  match L, P, S with
  | [], [], [] => p = None
  | l :: L', ps :: P', (a, ds) :: S' =>
      p = Some l /\
      exists m, sel !! l = Some m /\ select_addr m = a /\ prev_select m = None /\
        dlist it (pathHead m) ps ds /\ sels sel it (next_select m) L' P' S'
  | _, _, _ => False
  end.

(** The address of the selector at location [l]. *)
Definition sel_addr (sel : gmap positive mpath) (L : list positive) (l : positive) (a : Z) :=
  l ∈ L /\ exists m, sel !! l = Some m /\ select_addr m = a.

(** A route and its meaning: the flag is set exactly when the route is bound,
    and then the binding points at a selector of the table. *)
Definition route_rel (sel : gmap positive mpath) (L : list positive) (r : route_info)
    (a : aroute) : Prop :=
  daddr_seg r = ar_seg a /\ mask r = ar_mask a /\ next_hop r = ar_hop a /\
  match ar_sel a with
  | None => mp_flag r = false
  | Some b => mp_flag r = true /\ exists l, mptable r = Some (Some l) /\ sel_addr sel L l b
  end.

Record rep_at (t : mpRtable) (A : spec) (R : list positive) (RD : list route_info)
    (L : list positive) (P : list (list positive)) : Prop := {
  rep_routes : dlist (routes t) (rtable_head t) R RD;
  rep_sels : sels (selects t) (items t) (mptable_head t) L P (a_sels A);
  rep_cells : NoDup (concat P);
  rep_addrs : NoDup (map fst (a_sels A));
  rep_binds : Forall2 (route_rel (selects t) L) RD (a_routes A);
}.

Definition rep (t : mpRtable) (A : spec) : Prop := exists R RD L P, rep_at t A R RD L P.

(** The loop bound covers every list of the table. *)
Definition fits (fuel : nat) (A : spec) : Prop :=
  (length (a_routes A) < fuel)%nat /\ (length (a_sels A) < fuel)%nat /\
  Forall (fun x => length x.2 < fuel)%nat (a_sels A).

Lemma rep_empty : rep empty_mpRtable empty_spec.
Proof. exists [], [], [], []. constructor; simpl; try done; constructor. Qed.

(** ** Lists *)

Lemma on_sel_fst a g S : map fst (on_sel a g S) = map fst S.
Proof.
  unfold on_sel. rewrite map_map. apply map_ext. intros [b ds]. simpl. by destruct (b =? a).
Qed.

Lemma on_sel_notin a g S : a ∉ map fst S -> on_sel a g S = S.
Proof.
  induction S as [|[b ds] S IH]; simpl; [done|]. intros Hn.
  rewrite IH by set_solver. destruct (Z.eqb_spec b a); [set_solver|done].
Qed.

Lemma has_sel_In a S : has_sel a S = true <-> a ∈ map fst S.
Proof.
  unfold has_sel. rewrite existsb_exists, list_elem_of_In, in_map_iff.
  split; intros ([b ds] & H); exists (b, ds); rewrite Z.eqb_eq in *; naive_solver.
Qed.

Lemma has_sel_notin a S : has_sel a S = false <-> a ∉ map fst S.
Proof. rewrite <- has_sel_In. by destruct (has_sel a S). Qed.

(** A selector of the table, split out of the three parallel lists. *)
Lemma sels_split a sel it p L P S :
  sels sel it p L P S -> a ∈ map fst S ->
  exists L1 l L2 P1 ps P2 S1 ds S2,
    L = L1 ++ l :: L2 /\ P = P1 ++ ps :: P2 /\ S = S1 ++ (a, ds) :: S2 /\
    length L1 = length P1 /\ length L1 = length S1 /\ a ∉ map fst S1.
Proof.
  revert p P S. induction L as [|l L IH]; intros p [|ps P] [|[b ds] S] Hs; try done.
  { simpl. set_solver. }
  simpl. intros Hin. destruct (decide (a = b)) as [<-|Hne].
  - exists [], l, L, [], ps, P, [], ds, S. split_and!; (done || set_solver).
  - destruct Hs as (_ & m & _ & _ & _ & _ & Hs).
    destruct (IH _ _ _ Hs) as (L1 & k & L2 & P1 & ps' & P2 & S1 & ds' & S2 &
      -> & -> & -> & H1 & H2 & H3); [set_solver|].
    exists (l :: L1), k, L2, (ps :: P1), ps', P2, ((b, ds) :: S1), ds', S2.
    simpl. split_and!; try done; (lia || set_solver).
Qed.

Lemma sels_seg sel it p L P S : sels sel it p L P S -> seg next_select sel p L None.
Proof.
  revert p P S. induction L as [|l L IH]; intros p [|ps P] [|[b ds] S]; simpl; try done.
  intros (-> & m & Hm & _ & _ & _ & Hs). eauto.
Qed.

Lemma sels_length sel it p L P S :
  sels sel it p L P S -> length L = length S /\ length P = length S.
Proof.
  revert p P S. induction L as [|l L IH]; intros p [|ps P] [|[b ds] S]; simpl; try done.
  intros (-> & m & Hm & _ & _ & _ & Hs). apply IH in Hs. lia.
Qed.

(** Selectors and cells outside the changed ones keep the predicate. *)
Lemma sels_agree sel sel' it it' p L P S :
  (forall l, l ∈ L -> sel' !! l = sel !! l) ->
  (forall k, k ∈ concat P -> it' !! k = it !! k) ->
  sels sel it p L P S -> sels sel' it' p L P S.
Proof.
  revert p P S. induction L as [|l L IH]; intros p [|ps P] [|[b ds] S] H1 H2; simpl; try done.
  intros (-> & m & Hm & Ha & Hp & Hd & Hs). split; [done|]. exists m.
  rewrite H1 by set_solver. split_and!; try done.
  - eapply dl_agree; [|done]. intros k Hk. apply H2. simpl. set_solver.
  - apply IH; [set_solver|intros k Hk; apply H2; simpl; set_solver|done].
Qed.

Lemma sels_app sel it p L1 L2 P1 P2 S1 S2 :
  length L1 = length P1 -> length L1 = length S1 ->
  sels sel it p (L1 ++ L2) (P1 ++ P2) (S1 ++ S2) <->
  exists r, (forall sel' it' Lx Px Sx,
      (forall l, l ∈ L1 -> sel' !! l = sel !! l) ->
      (forall k, k ∈ concat P1 -> it' !! k = it !! k) ->
      sels sel' it' r Lx Px Sx -> sels sel' it' p (L1 ++ Lx) (P1 ++ Px) (S1 ++ Sx)) /\
    sels sel it r L2 P2 S2.
Proof.
  revert p P1 S1. induction L1 as [|l L1 IH]; intros p [|ps P1] [|[a ds] S1] H1 H2;
    simpl in H1, H2; try lia.
  - simpl. split; [intros; exists p; naive_solver|].
    intros (r & Hr & Hs). eapply (Hr sel it); [set_solver|set_solver|done].
  - simpl. split.
    + intros (-> & m & Hm & Ha & Hp & Hd & Hs).
      apply IH in Hs as (r & Hr & Hs); [|lia..]. exists r. split; [|done].
      intros sel' it' Lx Px Sx Hl Hk Hx. split; [done|]. exists m.
      rewrite Hl by set_solver. split_and!; try done.
      * eapply dl_agree; [|done]. intros k Hin. apply Hk. set_solver.
      * apply Hr; [set_solver|set_solver|done].
    + intros (r & Hr & Hs). eapply (Hr sel it); [set_solver|set_solver|done].
Qed.

(** ** Finding *)

Lemma find_select_none fuel a t L P S :
  sels (selects t) (items t) (mptable_head t) L P S -> (length S < fuel)%nat ->
  a ∉ map fst S -> find_select fuel a t = Ok None.
Proof.
  intros Hs Hf Ha. unfold find_select.
  rewrite (walk_spec _ _ _ _ _ L); [|by eapply sels_seg|by apply sels_length in Hs as [-> _]].
  f_equal. clear Hf. revert Hs Ha. generalize (mptable_head t) as p.
  revert P S. induction L as [|l L IH]; intros [|ps P] [|[b ds] S] p; simpl; try done.
  intros (-> & m & Hm & <- & _ & _ & Hs) Ha. rewrite Hm.
  destruct (Z.eqb_spec (select_addr m) a); [set_solver|]. eapply IH; [done|set_solver].
Qed.

Lemma find_select_some fuel a t L1 l L2 P1 ps P2 S1 ds S2 :
  length L1 = length P1 -> length L1 = length S1 ->
  sels (selects t) (items t) (mptable_head t) (L1 ++ l :: L2) (P1 ++ ps :: P2)
    (S1 ++ (a, ds) :: S2) ->
  (length (S1 ++ (a, ds) :: S2) < fuel)%nat -> a ∉ map fst S1 ->
  find_select fuel a t = Ok (Some l).
Proof.
  intros H1 H2 Hs Hf Ha. unfold find_select.
  rewrite (walk_spec _ _ _ _ _ (L1 ++ l :: L2));
    [|by eapply sels_seg|by apply sels_length in Hs as [-> _]].
  f_equal. clear Hf. revert Hs Ha H1 H2. generalize (mptable_head t) as p.
  revert P1 S1. induction L1 as [|k L1 IH]; intros [|ps' P1] [|[b ds'] S1] p Hs Ha H1 H2;
    simpl in H1, H2; try lia; simpl in *.
  - destruct Hs as (-> & m & -> & -> & _). by rewrite Z.eqb_refl.
  - destruct Hs as (-> & m & Hm & <- & _ & _ & Hs). rewrite Hm.
    destruct (Z.eqb_spec (select_addr m) a); [set_solver|].
    eapply IH; [done|set_solver|lia|lia].
Qed.

Lemma dlist_find {T D} `{LinkedLaws T D} (test : D -> bool) (h : gmap positive T) head ls ds
    fuel :
  dlist h head ls ds -> (length ds < fuel)%nat ->
  walk next_of fuel h (fun _ v => test (data_of v)) head
    = Ok (match list_find (fun d => test d = true) ds with
          | Some (i, _) => ls !! i
          | None => None
          end).
Proof.
  intros Hd Hf. rewrite (walk_spec _ _ _ _ _ ls); [|by eapply dl_seg|by rewrite (dl_length _ _ _ _ _ _ Hd)].
  f_equal. clear Hf. revert Hd. unfold dlist. generalize (@None positive) at 1 as pv.
  generalize head as p. revert ds.
  induction ls as [|l ls IH]; intros [|d ds] p pv; simpl; try done.
  intros (-> & v & Hv & _ & <- & Hs). rewrite Hv.
  case_decide as Ht; [by rewrite Ht|].
  destruct (test (data_of v)); [done|]. rewrite (IH _ _ _ Hs).
  by destruct (list_find _ ds) as [[i ?]|].
Qed.

(** ** Operations on the paths of one selector *)

(** [op l] acts on the paths of the selector at [l] as [g], leaves the other
    cells alone, and allocates only fresh ones; with [same] it keeps the very
    cells of the list. *)
Definition sel_op (fuel : nat) (same : bool) (op : positive -> mpRtable -> result mpRtable)
    (g : list path_info -> list path_info) : Prop :=
  forall t l m ps ds,
    selects t !! l = Some m -> dlist (items t) (pathHead m) ps ds ->
    (length ds < fuel)%nat ->
    exists hd h ps',
      op l t = Ok (set_items h (set_selects (<[l := set_pathHead hd m]> (selects t)) t)) /\
      dlist h hd ps' (g ds) /\
      (forall k v, k ∉ ps -> items t !! k = Some v -> h !! k = Some v) /\
      (forall k, k ∈ ps' -> k ∈ ps \/ items t !! k = None) /\
      (same = true -> ps' = ps).

Lemma add_mpath_item_op fuel now s d :
  sel_op fuel false (fun l => add_mpath_item now l s d) (cons (new_path now s d)).
Proof.
  intros t l m ps ds Hm Hd _.
  destruct (push_front_spec _ _ _ _ (MpathItem (new_path now s d) None None) Hd)
    as (h & E & Hnew & Hd' & Hfr).
  exists (Some (fresh_loc (items t))), h, (fresh_loc (items t) :: ps).
  unfold add_mpath_item. cbn [load]. rewrite Hm. cbn [rbind]. rewrite E. cbn [rbind store].
  rewrite Hm. cbn [rbind]. split_and!; [done|exact Hd'| | |done].
  - intros k v Hk Hv. rewrite Hfr; [done| |done]. by eapply fresh_loc_ne.
  - intros k [->|Hk]%elem_of_cons; [right; apply fresh_loc_None|by left].
Qed.

Lemma same_head_selects (t : mpRtable) l m :
  selects t !! l = Some m -> <[l := set_pathHead (pathHead m) m]> (selects t) = selects t.
Proof. intros Hm. apply insert_id. rewrite Hm. by destruct m. Qed.

Lemma remove_first_find {A} (test : A -> bool) (l : list A) :
  match list_find (fun x => test x = true) l with
  | None => remove_first test l = l
  | Some (i, x) => exists l1 l2, l = l1 ++ x :: l2 /\ length l1 = i /\
                     remove_first test l = l1 ++ l2
  end.
Proof.
  induction l as [|y l IH]; simpl; [done|]. case_decide as Ht; simpl.
  - rewrite Ht. by exists [], l.
  - destruct (test y); [done|]. destruct (list_find _ l) as [[i x]|]; simpl.
    + destruct IH as (l1 & l2 & -> & <- & ->). by exists (y :: l1), l2.
    + by rewrite IH.
Qed.

Lemma alter_first_find {A} (test : A -> bool) (f : A -> A) (l : list A) :
  alter_first test f l =
  match list_find (fun x => test x = true) l with
  | None => l
  | Some (i, x) => <[i := f x]> l
  end.
Proof.
  induction l as [|y l IH]; simpl; [done|]. case_decide as Ht; simpl.
  - by rewrite Ht.
  - destruct (test y); [done|]. rewrite IH. by destruct (list_find _ l) as [[i x]|].
Qed.

Lemma find_path_spec fuel s d head t ls ds :
  dlist (items t) head ls ds -> (length ds < fuel)%nat ->
  find_path fuel s d head t
    = Ok (match list_find (fun i => same_path s d i = true) ds with
          | Some (i, _) => ls !! i
          | None => None
          end).
Proof. exact (dlist_find (same_path s d) (items t) head ls ds fuel). Qed.

Lemma delete_mpath_item_op fuel s d :
  sel_op fuel false (fun l => delete_mpath_item fuel l s d) (remove_first (same_path s d)).
Proof.
  intros t l m ps ds Hm Hd Hf. unfold delete_mpath_item. cbn [load].
  rewrite Hm. cbn [rbind].
  rewrite (find_path_spec _ _ _ _ _ ps ds) by done. cbn [rbind].
  pose proof (remove_first_find (same_path s d) ds) as Hrf.
  destruct (list_find _ ds) as [[i x]|].
  - destruct Hrf as (d1 & d2 & -> & <- & ->).
    pose proof (dl_length _ _ _ _ _ _ Hd) as Hlen. rewrite length_app in Hlen.
    destruct (lookup_lt_is_Some_2 ps (length d1)) as [k Hk]; [simpl in Hlen; lia|].
    rewrite Hk. destruct (list_elem_of_split_length _ _ _ Hk) as (p1 & p2 & -> & Hp1).
    destruct (unlink_spec _ _ p1 k p2 d1 x d2 ltac:(lia) Hd) as (hd & h & E & Hd' & _ & Hfr).
    exists hd, h, (p1 ++ p2). rewrite E. cbn [rbind store]. rewrite Hm. cbn [rbind].
    split_and!; [done|done| | |done].
    + intros k' v Hk' Hv. by rewrite Hfr.
    + set_solver.
  - exists (pathHead m), (items t), ps. rewrite same_head_selects by done.
    rewrite Hrf. split_and!; [by destruct t|done|done|set_solver|done].
Qed.

Lemma update_path_op fuel f s d :
  sel_op fuel true (fun l => update_path fuel f l s d) (alter_first (same_path s d) f).
Proof.
  intros t l m ps ds Hm Hd Hf. unfold update_path. cbn [load].
  rewrite Hm. cbn [rbind].
  rewrite (find_path_spec _ _ _ _ _ ps ds) by done. cbn [rbind].
  rewrite alter_first_find.
  destruct (list_find _ ds) as [[i x]|] eqn:Ef.
  - apply list_find_Some in Ef as (Hi & _ & _).
    pose proof (dl_length _ _ _ _ _ _ Hd) as Hlen.
    destruct (lookup_lt_is_Some_2 ps i) as [k Hk].
    { rewrite Hlen. by eapply lookup_lt_Some. }
    rewrite Hk. destruct (dl_lookup _ _ _ _ _ _ _ _ Hd Hk) as (v & Hv & Hx).
    simplify_eq. cbn [store]. rewrite Hv. cbn [rbind].
    exists (pathHead m), (<[k := set_path f v]> (items t)), ps.
    rewrite same_head_selects by done. split_and!; [by destruct t| | |set_solver|done].
    + change (f (data_of v)) with (data_of (set_path f v)).
      eapply dl_set_data; try done. by eapply dlist_NoDup.
    + intros k' v' Hk' Hv'. rewrite lookup_insert_ne; [done|].
      intros <-. apply Hk', list_elem_of_lookup. eauto.
  - exists (pathHead m), (items t), ps. rewrite same_head_selects by done.
    split_and!; [by destruct t|done|done|set_solver|done].
Qed.

(** ** Lifting to the table *)

Lemma sels_cells sel it p L P S k :
  sels sel it p L P S -> k ∈ concat P -> exists v, it !! k = Some v.
Proof.
  revert p P S. induction L as [|l L IH]; intros p [|ps P] [|[b ds] S]; simpl; try set_solver.
  intros (-> & m & _ & _ & _ & Hd & Hs) [Hk|Hk]%elem_of_app; [|by eapply IH].
  apply list_elem_of_lookup in Hk as [i Hi].
  destruct (dl_lookup _ _ _ _ _ _ _ _ Hd Hi) as (v & Hv & _). eauto.
Qed.

Lemma sel_addr_insert sel L l m hd k a :
  sel !! l = Some m -> sel_addr sel L k a -> sel_addr (<[l := set_pathHead hd m]> sel) L k a.
Proof.
  intros Hm [Hk (m' & Hm' & Ha)]. split; [done|].
  destruct (decide (l = k)) as [->|].
  - rewrite lookup_insert_eq. eexists. split; [done|]. simpl. congruence.
  - rewrite lookup_insert_ne by done. eauto.
Qed.

Lemma route_rel_mono sel sel' L L' RD AR :
  (forall l a, sel_addr sel L l a -> sel_addr sel' L' l a) ->
  Forall2 (route_rel sel L) RD AR -> Forall2 (route_rel sel' L') RD AR.
Proof.
  intros Hmono HF. eapply Forall2_impl; [exact HF|]. intros r a (H1 & H2 & H3 & H4).
  split_and!; try done. destruct (ar_sel a); [|done]. naive_solver.
Qed.

Lemma NoDup_concat_replace (P1 P2 : list (list positive)) ps ps' :
  NoDup (concat (P1 ++ ps :: P2)) -> NoDup ps' ->
  (forall k, k ∈ ps' -> k ∈ ps \/ (k ∉ concat P1 /\ k ∉ concat P2)) ->
  NoDup (concat (P1 ++ ps' :: P2)).
Proof.
  rewrite !concat_app. cbn [concat]. rewrite !NoDup_app.
  intros (H1 & H2 & H3 & H4 & H5) Hps Hin. split_and!; try done; set_solver.
Qed.

(** The change [sel_op] makes at one selector, seen from the table. *)
Lemma rep_at_change t A R RD L1 l L2 P1 ps P2 S1 a ds S2 g m hd h ps' :
  rep_at t A R RD (L1 ++ l :: L2) (P1 ++ ps :: P2) ->
  a_sels A = S1 ++ (a, ds) :: S2 ->
  length L1 = length P1 -> length L1 = length S1 -> a ∉ map fst S1 ->
  selects t !! l = Some m ->
  dlist h hd ps' (g ds) ->
  (forall k v, k ∉ ps -> items t !! k = Some v -> h !! k = Some v) ->
  (forall k, k ∈ ps' -> k ∈ ps \/ items t !! k = None) ->
  rep_at (set_items h (set_selects (<[l := set_pathHead hd m]> (selects t)) t))
    (a_on_sel a g A) R RD (L1 ++ l :: L2) (P1 ++ ps' :: P2).
Proof.
  intros [Hr Hs Hc Ha Hb] HS H1 H2 Hna Hm Hd Hkeep Hnew. rewrite HS in *.
  pose proof (seg_NoDup _ _ _ _ (sels_seg _ _ _ _ _ _ Hs)) as HndL.
  destruct (elem_of_split_NoDup l _ L1 L2 HndL eq_refl) as [Hl1 Hl2].
  assert (Hout : forall k, k ∈ concat P1 \/ k ∈ concat P2 ->
                   k ∉ ps /\ h !! k = items t !! k).
  { intros k Hk. assert (k ∉ ps).
    { revert Hc. rewrite concat_app. cbn [concat]. rewrite !NoDup_app. set_solver. }
    split; [done|]. destruct (sels_cells _ _ _ _ _ _ k Hs) as [v Hv].
    - rewrite concat_app. cbn [concat]. set_solver.
    - rewrite Hv. eauto. }
  assert (HSa : on_sel a g (S1 ++ (a, ds) :: S2) = S1 ++ (a, g ds) :: S2).
  { unfold on_sel. rewrite map_app. simpl. rewrite Z.eqb_refl.
    fold (on_sel a g S1). fold (on_sel a g S2). rewrite !on_sel_notin; [done| |done].
    rewrite map_app in Ha. simpl in Ha. apply NoDup_app in Ha as (_ & _ & Ha).
    by apply NoDup_cons in Ha as [? _]. }
  constructor; cbn [rtable_head mptable_head routes selects items set_items set_selects a_on_sel
    a_routes a_sels].
  - done.
  - rewrite HS, HSa. apply sels_app in Hs as (r & Hpre & Hs); [|done..].
    apply Hpre.
    + intros k Hk. apply lookup_insert_ne. by intros <-.
    + intros k Hk. apply Hout. by left.
    + destruct Hs as (-> & m' & Hm' & Hma & Hmp & _ & Hs).
      assert (m' = m) as -> by congruence.
      split; [done|]. exists (set_pathHead hd m). rewrite lookup_insert_eq.
      split_and!; try done. eapply sels_agree; [| |exact Hs].
      * intros k Hk. apply lookup_insert_ne. by intros <-.
      * intros k Hk. apply Hout. by right.
  - eapply NoDup_concat_replace; [done|by eapply dlist_NoDup|].
    intros k [Hk|Hk]%Hnew; [by left|]. right.
    split; intros Hin; destruct (sels_cells _ _ _ _ _ _ k Hs) as [v Hv]; try congruence;
      rewrite concat_app; cbn [concat]; set_solver.
  - by rewrite HS, on_sel_fst.
  - eapply route_rel_mono; [|done]. intros k b. by apply sel_addr_insert.
Qed.

(** The loop without a [break] when no selector of the rest matches. *)
Lemma for_selects_skip fuel a f p t L :
  seg next_select (selects t) p L None -> (length L < fuel)%nat ->
  (forall l m, l ∈ L -> selects t !! l = Some m -> select_addr m <> a) ->
  for_selects fuel a f p t = Ok t.
Proof.
  revert fuel p. induction L as [|l L IH]; intros [|fuel] p Hs Hf Hna; simpl in *; try lia.
  - by rewrite Hs.
  - destruct Hs as (-> & m & Hm & Hs). cbn [load]. rewrite Hm. cbn [rbind].
    destruct (Z.eqb_spec (select_addr m) a) as [Heq|_].
    { exfalso. by eapply Hna; [apply list_elem_of_here|done|]. }
    cbn [rbind load]. rewrite Hm. cbn [rbind]. apply IH; [done|lia|].
    intros k m' Hk. apply Hna. by right.
Qed.

Lemma for_selects_hit fuel a f p t t' L1 l L2 m hd :
  seg next_select (selects t) p (L1 ++ l :: L2) None ->
  (length (L1 ++ l :: L2) < fuel)%nat ->
  (forall k m', k ∈ L1 ++ L2 -> selects t !! k = Some m' -> select_addr m' <> a) ->
  selects t !! l = Some m -> select_addr m = a -> l ∉ L2 ->
  f l t = Ok t' -> selects t' = <[l := set_pathHead hd m]> (selects t) ->
  for_selects fuel a f p t = Ok t'.
Proof.
  revert fuel p. induction L1 as [|k L1 IH]; intros [|fuel] p Hs Hf Hna Hm Ha Hl E Hsel;
    simpl in *; try lia; destruct Hs as (-> & m' & Hm' & Hs); cbn [load]; rewrite Hm'; cbn [rbind].
  - assert (m' = m) as -> by congruence. rewrite Ha, Z.eqb_refl, E. cbn [rbind load].
    rewrite Hsel, lookup_insert_eq. cbn [rbind next_select set_pathHead].
    apply (for_selects_skip _ _ _ _ _ L2); [|lia|].
    + rewrite Hsel. by apply seg_insert_notin.
    + intros k m2 Hk. rewrite Hsel, lookup_insert_ne by (by intros <-). eauto.
  - destruct (Z.eqb_spec (select_addr m') a) as [Heq|_].
    { exfalso. by eapply Hna; [apply list_elem_of_here|done|]. }
    cbn [rbind load]. rewrite Hm'. cbn [rbind]. eapply IH; try done; [lia|].
    intros k' m2 Hk. apply Hna. by right.
Qed.

(** The addresses of the selectors, position by position. *)
Lemma sels_addrs sel it p L P S :
  sels sel it p L P S -> Forall2 (fun l x => select_addr <$> sel !! l = Some x.1) L S.
Proof.
  revert p P S. induction L as [|k L IH]; intros p [|ps P] [|[b ds] S]; simpl; try done.
  intros (-> & m & Hm & <- & _ & _ & Hs). constructor; [by rewrite Hm|]. by eapply IH.
Qed.

Lemma addrs_In (sel : gmap positive mpath) L (S : list (Z * list path_info)) l m :
  Forall2 (fun l x => select_addr <$> sel !! l = Some x.1) L S ->
  l ∈ L -> sel !! l = Some m -> select_addr m ∈ map fst S.
Proof.
  intros HF [i Hi]%list_elem_of_lookup Hm.
  destruct (Forall2_lookup_l _ _ _ _ _ HF Hi) as (x & Hx & E). rewrite Hm in E.
  injection E as ->. apply list_elem_of_In, in_map, list_elem_of_In, list_elem_of_lookup.
  eauto.
Qed.

Lemma addrs_other sel it p L1 l L2 P S1 a ds S2 :
  sels sel it p (L1 ++ l :: L2) P (S1 ++ (a, ds) :: S2) -> length L1 = length S1 ->
  NoDup (map fst (S1 ++ (a, ds) :: S2)) ->
  forall k m, k ∈ L1 ++ L2 -> sel !! k = Some m -> select_addr m <> a.
Proof.
  intros Hs%sels_addrs Hlen Hnd k m Hk Hm <-.
  apply Forall2_app_inv in Hs as [HF1 HF2]; [|done].
  apply Forall2_cons in HF2 as [_ HF2].
  rewrite map_app in Hnd. cbn [map fst] in Hnd.
  destruct (elem_of_split_NoDup (A:=Z) _ _ _ _ Hnd eq_refl) as [Hn1 Hn2].
  apply elem_of_app in Hk as [Hk|Hk]; [apply Hn1|apply Hn2]; by eapply addrs_In.
Qed.

(** Acting on the selectors of address [a]. *)
Lemma for_selects_rep_at fuel same a op g t A R RD L P :
  rep_at t A R RD L P -> fits fuel A -> sel_op fuel same op g ->
  exists t' P', for_selects fuel a op (mptable_head t) t = Ok t' /\
    rep_at t' (a_on_sel a g A) R RD L P' /\ (same = true -> P' = P) /\
    mptable_head t' = mptable_head t /\ static_s t' = static_s t /\ static_p t' = static_p t.
Proof.
  intros Hrep (_ & Hf & Hfp) Hop.
  pose proof (rep_sels _ _ _ _ _ _ Hrep) as Hs.
  pose proof (sels_length _ _ _ _ _ _ Hs) as [HlL _].
  destruct (decide (a ∈ map fst (a_sels A))) as [Hin|Hnin].
  - destruct (sels_split _ _ _ _ _ _ _ Hs Hin) as
      (L1 & l & L2 & P1 & ps & P2 & S1 & ds & S2 & -> & -> & HS & H1 & H2 & Hna).
    rewrite HS in Hs, Hfp, HlL. pose proof Hs as Hs0.
    apply sels_app in Hs as (r & _ & (_ & m & Hm & Hma & _ & Hd & _)); [|done..].
    assert (Hlen : (length ds < fuel)%nat).
    { rewrite Forall_forall in Hfp. apply (Hfp (a, ds)). set_solver. }
    destruct (Hop _ _ _ _ _ Hm Hd Hlen) as (hd & h & ps' & E & Hd' & Hkeep & Hnew & Hsame).
    pose proof (seg_NoDup _ _ _ _ (sels_seg _ _ _ _ _ _ Hs0)) as HndL.
    destruct (elem_of_split_NoDup l _ L1 L2 HndL eq_refl) as [Hl1 Hl2].
    exists (set_items h (set_selects (<[l := set_pathHead hd m]> (selects t)) t)),
      (P1 ++ ps' :: P2). split_and!; [| | |done..].
    + eapply for_selects_hit; try done.
      * by eapply sels_seg.
      * rewrite HlL, <- HS. done.
      * eapply addrs_other; [done|done|]. rewrite <- HS. apply (rep_addrs _ _ _ _ _ _ Hrep).
    + eapply rep_at_change; try done.
    + intros ->. by rewrite Hsame.
  - exists t, P. split_and!; [|unfold a_on_sel; rewrite on_sel_notin by done|done..].
    + eapply for_selects_skip; [by eapply sels_seg|by rewrite HlL|].
      intros l m Hl Hm <-. apply Hnin. eapply addrs_In; [by eapply sels_addrs|done|done].
    + by destruct A.
Qed.

Lemma for_selects_refines fuel same a op g t A :
  rep t A -> fits fuel A -> sel_op fuel same op g ->
  exists t', for_selects fuel a op (mptable_head t) t = Ok t' /\ rep t' (a_on_sel a g A).
Proof.
  intros (R & RD & L & P & Hrep) Hfits Hop.
  destruct (for_selects_rep_at fuel same a op g t A R RD L P Hrep Hfits Hop)
    as (t' & P' & E & Hrep' & _). exists t'. split; [done|]. by exists R, RD, L, P'.
Qed.

(** ** Routes *)

Lemma list_find_Forall2 {A B} (Rel : A -> B -> Prop) (t1 : A -> bool) (t2 : B -> bool) la lb :
  Forall2 Rel la lb -> (forall x y, Rel x y -> t1 x = t2 y) ->
  match list_find (fun x => t1 x = true) la, list_find (fun y => t2 y = true) lb with
  | Some (i, x), Some (j, y) => i = j /\ Rel x y
  | None, None => True
  | _, _ => False
  end.
Proof.
  intros HF Ht. induction HF as [|x y la lb Hxy HF IH]; simpl; [done|].
  rewrite (Ht _ _ Hxy). case_decide; simpl; [done|].
  destruct (list_find _ la) as [[i x']|], (list_find _ lb) as [[j y']|]; simpl in *;
    naive_solver.
Qed.

Lemma route_rel_same sel L r a seg msk :
  route_rel sel L r a -> (daddr_seg r =? seg) && (mask r =? msk) = same_route seg msk a.
Proof. intros (-> & -> & _). done. Qed.

Lemma route_rel_covers sel L r a daddr :
  route_rel sel L r a -> covers daddr r = a_covers daddr a.
Proof. intros (Hs & Hm & _). unfold covers, a_covers. by rewrite Hs, Hm. Qed.

(** A walk over the routes stops where the meaning says. *)
Lemma walk_routes fuel t A R RD L P (t1 : route_info -> bool) (t2 : aroute -> bool) :
  rep_at t A R RD L P -> (length (a_routes A) < fuel)%nat ->
  (forall r a, route_rel (selects t) L r a -> t1 r = t2 a) ->
  match list_find (fun a => t2 a = true) (a_routes A) with
  | None =>
      walk next fuel (routes t) (fun _ v => t1 (route v)) (rtable_head t) = Ok None
  | Some (i, a) => exists l v,
      walk next fuel (routes t) (fun _ v => t1 (route v)) (rtable_head t) = Ok (Some l) /\
      R !! i = Some l /\ RD !! i = Some (route v) /\ routes t !! l = Some v /\
      route_rel (selects t) L (route v) a
  end.
Proof.
  intros Hrep Hf Ht. pose proof (rep_binds _ _ _ _ _ _ Hrep) as HF.
  pose proof (list_find_Forall2 _ t1 t2 _ _ HF Ht) as Hfind.
  pose proof (dlist_find t1 _ _ _ _ fuel (rep_routes _ _ _ _ _ _ Hrep)) as Hw.
  cbn in Hw. rewrite Hw by (by rewrite (Forall2_length _ _ _ HF)). clear Hw.
  destruct (list_find _ (a_routes A)) as [[i a]|];
    destruct (list_find _ RD) as [[j r]|] eqn:E; try done.
  destruct Hfind as [<- Hr]. apply list_find_Some in E as (Hj & _ & _).
  pose proof (dl_length _ _ _ _ _ _ (rep_routes _ _ _ _ _ _ Hrep)) as Hlen.
  destruct (lookup_lt_is_Some_2 R j) as [l Hl]; [rewrite Hlen; by eapply lookup_lt_Some|].
  destruct (dl_lookup _ _ _ _ _ _ _ _ (rep_routes _ _ _ _ _ _ Hrep) Hl) as (v & Hv & Hd).
  simpl in Hd. assert (r = route v) as -> by congruence.
  exists l, v. rewrite Hl. done.
Qed.

Lemma add_item_refines seg msk hop t A :
  rep t A ->
  exists t', add_item seg msk hop t = Ok t' /\ rep t' (a_add_item seg msk hop A).
Proof.
  intros (R & RD & L & P & [Hr Hs Hc Ha Hb]). unfold add_item.
  destruct (push_front_spec _ _ _ _
    (RouteItem (RouteInfo seg msk hop false None) None None) Hr) as (h & -> & _ & Hd & _).
  cbn [rbind]. eexists. split; [done|].
  exists (fresh_loc (routes t) :: R), (RouteInfo seg msk hop false None :: RD), L, P.
  constructor; try done. cbn. constructor; [|done]. done.
Qed.

Lemma delete_item_refines fuel seg msk t A :
  rep t A -> fits fuel A ->
  exists t', delete_item fuel seg msk t = Ok t' /\ rep t' (a_delete_item seg msk A).
Proof.
  intros (R & RD & L & P & Hrep) (Hf & _ & _). unfold delete_item, find_route.
  pose proof (walk_routes fuel t A R RD L P
    (fun r => (daddr_seg r =? seg) && (mask r =? msk)) (same_route seg msk) Hrep Hf
    (fun r a => route_rel_same _ _ r a seg msk)) as Hw.
  pose proof (remove_first_find (same_route seg msk) (a_routes A)) as Hrf.
  destruct (list_find _ (a_routes A)) as [[i a]|].
  - destruct Hw as (l & v & -> & Hl & Hi & Hv & Hrel). cbn [rbind].
    destruct Hrf as (A1 & A2 & HA & <- & Hrm). destruct Hrep as [Hr Hs Hc Ha Hb].
    destruct (list_elem_of_split_length _ _ _ Hl) as (R1 & R2 & -> & HR1).
    destruct (list_elem_of_split_length _ _ _ Hi) as (D1 & D2 & -> & HD1).
    destruct (unlink_spec _ _ R1 l R2 D1 (route v) D2 ltac:(lia) Hr)
      as (hd & h & -> & Hd & _ & _).
    cbn [rbind]. eexists. split; [done|]. exists (R1 ++ R2), (D1 ++ D2), L, P.
    constructor; try done. unfold a_delete_item. cbn [a_routes]. rewrite Hrm.
    rewrite HA in Hb. apply Forall2_app_inv in Hb as [Hb1 Hb2]; [|lia].
    apply Forall2_cons in Hb2 as [_ Hb2]. by apply Forall2_app.
  - rewrite Hw. cbn [rbind]. eexists. split; [done|]. unfold a_delete_item. rewrite Hrf.
    destruct A. do 4 eexists. done.
Qed.

Lemma first_find {A} (test : A -> bool) (l : list A) :
  first test l = snd <$> list_find (fun x => test x = true) l.
Proof.
  induction l as [|x l IH]; simpl; [done|]. case_decide as Ht; simpl; [by rewrite Ht|].
  destruct (test x); [done|]. rewrite IH. by destruct (list_find _ l) as [[i y]|].
Qed.

(** [find_MP] and the single-path [lookup] read the first covering route. *)
Lemma find_MP_refines fuel daddr t A :
  rep t A -> fits fuel A ->
  find_MP fuel daddr t =
    Ok (match first (a_covers daddr) (a_routes A) with
        | Some r => bool_decide (is_Some (ar_sel r))
        | None => false
        end).
Proof.
  intros (R & RD & L & P & Hrep) (Hf & _ & _). unfold find_MP. rewrite first_find.
  pose proof (walk_routes fuel t A R RD L P (covers daddr) (a_covers daddr) Hrep Hf
    (fun r a => route_rel_covers _ _ r a daddr)) as Hw.
  destruct (list_find _ (a_routes A)) as [[i a]|]; simpl.
  - destruct Hw as (l & v & -> & _ & _ & Hv & (_ & _ & _ & Hsel)). mem_step.
    f_equal. destruct (ar_sel a).
    + destruct Hsel as [-> _]. symmetry. apply bool_decide_eq_true_2. done.
    + rewrite Hsel. symmetry. apply bool_decide_eq_false_2. by intros [? ?].
  - by rewrite Hw.
Qed.

Lemma lookup_refines fuel daddr t A :
  rep t A -> fits fuel A ->
  lookup fuel daddr t =
    Ok (match first (a_covers daddr) (a_routes A) with
        | Some r => ar_hop r
        | None => broadcast_addr
        end).
Proof.
  intros (R & RD & L & P & Hrep) (Hf & _ & _). unfold lookup. rewrite first_find.
  pose proof (walk_routes fuel t A R RD L P (covers daddr) (a_covers daddr) Hrep Hf
    (fun r a => route_rel_covers _ _ r a daddr)) as Hw.
  destruct (list_find _ (a_routes A)) as [[i a]|]; simpl.
  - destruct Hw as (l & v & -> & _ & _ & Hv & (_ & _ & Hh & _)). mem_step. by rewrite Hh.
  - by rewrite Hw.
Qed.

(** The selector search in terms of the meaning. *)
Lemma find_select_refines fuel a t A R RD L P :
  rep_at t A R RD L P -> fits fuel A ->
  if has_sel a (a_sels A)
  then exists l, find_select fuel a t = Ok (Some l) /\ sel_addr (selects t) L l a
  else find_select fuel a t = Ok None.
Proof.
  intros Hrep (_ & Hf & _). pose proof (rep_sels _ _ _ _ _ _ Hrep) as Hs.
  destruct (has_sel a (a_sels A)) eqn:E.
  - apply has_sel_In in E. destruct (sels_split _ _ _ _ _ _ _ Hs E) as
      (L1 & l & L2 & P1 & ps & P2 & S1 & ds & S2 & -> & -> & HS & H1 & H2 & Hna).
    rewrite HS in *. exists l. split; [by eapply find_select_some|].
    apply sels_app in Hs as (r & _ & (_ & m & Hm & Hma & _)); [|done..].
    split; [set_solver|eauto].
  - apply has_sel_notin in E. by eapply find_select_none.
Qed.

(** [attach_select] and [detach_select]: [b] is the new binding. *)
Lemma bind_select_refines fuel seg msk select upd b t A :
  rep t A -> fits fuel A ->
  (forall sel L r a l, route_rel sel L r a -> sel_addr sel L l select ->
     route_rel sel L (upd (Some l) r) (with_sel b a)) ->
  exists t', bind_select fuel seg msk select upd t = Ok t' /\ rep t' (a_bind seg msk select b A).
Proof.
  intros (R & RD & L & P & Hrep) Hfits Hupd. unfold bind_select, find_route, a_bind.
  pose proof (walk_routes fuel t A R RD L P
    (fun r => (daddr_seg r =? seg) && (mask r =? msk)) (same_route seg msk) Hrep (proj1 Hfits)
    (fun r a => route_rel_same _ _ r a seg msk)) as Hw.
  pose proof (find_select_refines fuel select t A R RD L P Hrep Hfits) as Hsel.
  rewrite alter_first_find.
  assert (Hid : exists t', Ok t = Ok t' /\ rep t' A) by (eexists; split; [done|do 4 eexists; done]).
  destruct (list_find _ (a_routes A)) as [[i a]|].
  - destruct Hw as (l & v & -> & Hl & Hi & Hv & Hrel). cbn [rbind].
    destruct (has_sel select (a_sels A)); [|by rewrite Hsel].
    destruct Hsel as (ls & -> & Hls). cbn [rbind store]. rewrite Hv. cbn [rbind].
    eexists. split; [done|]. destruct Hrep as [Hr Hs Hc Ha Hb].
    exists R, (<[i := upd (Some ls) (route v)]> RD), L, P. constructor; try done.
    + change (upd (Some ls) (route v)) with (data_of (set_route (upd (Some ls)) v)).
      eapply dl_set_data; try done. by eapply dlist_NoDup.
    + cbn. apply Forall2_insert; [done|]. by apply Hupd.
  - rewrite Hw. cbn [rbind]. destruct (has_sel select (a_sels A)).
    + destruct Hsel as (ls & -> & _). cbn [rbind]. by destruct A.
    + by rewrite Hsel.
Qed.

Lemma attach_select_refines fuel seg msk select t A :
  rep t A -> fits fuel A ->
  exists t', attach_select fuel seg msk select t = Ok t' /\
    rep t' (a_bind seg msk select (Some select) A).
Proof.
  intros Hrep Hfits. apply bind_select_refines; [done..|].
  intros sel L r a l (H1 & H2 & H3 & _) Hl. split_and!; try done. cbn. eauto.
Qed.

Lemma detach_select_refines fuel seg msk select t A :
  rep t A -> fits fuel A ->
  exists t', detach_select fuel seg msk select t = Ok t' /\
    rep t' (a_bind seg msk select None A).
Proof.
  intros Hrep Hfits. apply bind_select_refines; [done..|].
  intros sel L r a l (H1 & H2 & H3 & _) Hl. by split_and!.
Qed.

(** ** Adding a path *)

Lemma sel_addr_cons sel L l k a m :
  l ∉ L -> sel_addr sel L k a -> sel_addr (<[l := m]> sel) (l :: L) k a.
Proof.
  intros Hl [Hk (m' & Hm' & Ha)]. split; [set_solver|].
  rewrite lookup_insert_ne by (by intros <-). eauto.
Qed.

(** An operation on the one selector of address [a]. *)
Lemma sel_op_refines fuel same op g a t A :
  rep t A -> fits fuel A -> sel_op fuel same op g -> has_sel a (a_sels A) = true ->
  exists l t', find_select fuel a t = Ok (Some l) /\ op l t = Ok t' /\ rep t' (a_on_sel a g A).
Proof.
  intros (R & RD & L & P & Hrep) (_ & Hf & Hfp) Hop Hin%has_sel_In.
  pose proof (rep_sels _ _ _ _ _ _ Hrep) as Hs.
  destruct (sels_split _ _ _ _ _ _ _ Hs Hin) as
    (L1 & l & L2 & P1 & ps & P2 & S1 & ds & S2 & -> & -> & HS & H1 & H2 & Hna).
  rewrite HS in Hs, Hfp, Hf. exists l.
  assert (Hlen : (length ds < fuel)%nat).
  { rewrite Forall_forall in Hfp. apply (Hfp (a, ds)). set_solver. }
  pose proof Hs as Hs0.
  apply sels_app in Hs as (r & _ & (_ & m & Hm & Hma & _ & Hd & _)); [|done..].
  destruct (Hop _ _ _ _ _ Hm Hd Hlen) as (hd & h & ps' & E & Hd' & Hkeep & Hnew & Hsame).
  eexists. split_and!; [by eapply find_select_some|done|].
  do 4 eexists. by eapply rep_at_change.
Qed.

(** A selector allocated in front of the list. *)
Lemma rep_at_new_sel t A R RD L P select l h hd ps ds :
  rep_at t A R RD L P -> l = fresh_loc (selects t) ->
  select ∉ map fst (a_sels A) ->
  dlist h hd ps ds ->
  (forall k v, items t !! k = Some v -> h !! k = Some v) ->
  (forall k, k ∈ ps -> items t !! k = None) ->
  rep_at (set_mptable_head (Some l) (set_items h (set_selects
            (<[l := Mpath hd select (mptable_head t) None]> (selects t)) t)))
    (Spec (a_routes A) ((select, ds) :: a_sels A)) R RD (l :: L) (ps :: P).
Proof.
  intros [Hr Hs Hc Ha Hb] -> Hna Hd Hkeep Hnew.
  assert (Hl : fresh_loc (selects t) ∉ L).
  { intros Hin. destruct (seg_lookup _ _ _ _ _ _ (sels_seg _ _ _ _ _ _ Hs) Hin) as [v Hv].
    by eapply fresh_loc_ne. }
  constructor; cbn [rtable_head mptable_head routes selects items set_items set_selects
    set_mptable_head a_routes a_sels]; try done.
  - split; [done|]. eexists. rewrite lookup_insert_eq. split_and!; try done.
    eapply sels_agree; [| |exact Hs].
    + intros k Hk. apply lookup_insert_ne. by intros <-.
    + intros k Hk. destruct (sels_cells _ _ _ _ _ _ k Hs Hk) as [v Hv]. rewrite Hv. eauto.
  - cbn [concat]. apply NoDup_app. split_and!; [by eapply dlist_NoDup| |done].
    intros k Hk Hin. destruct (sels_cells _ _ _ _ _ _ k Hs Hin) as [v Hv].
    rewrite Hnew in Hv; done.
  - by constructor.
  - eapply route_rel_mono; [|done]. intros k a. by apply sel_addr_cons.
Qed.

Lemma add_mpath_refines fuel now select s d t A :
  rep t A -> fits fuel A ->
  exists t', add_mpath fuel now select s d t = Ok t' /\
    rep t' (a_add_mpath now select s d A).
Proof.
  intros Hrep Hfits. unfold add_mpath, a_add_mpath.
  destruct (has_sel select (a_sels A)) eqn:Ehas.
  - destruct (sel_op_refines fuel _ _ _ select t A Hrep Hfits
      (add_mpath_item_op fuel now s d) Ehas) as (l & t' & -> & E & Hrep').
    cbn [rbind]. eauto.
  - destruct Hrep as (R & RD & L & P & Hrep).
    pose proof (find_select_refines fuel select t A R RD L P Hrep Hfits) as Hsel.
    rewrite Ehas in Hsel. rewrite Hsel. cbn [rbind alloc]. cbv zeta.
    set (l := fresh_loc (selects t)). set (t0 := set_selects _ t).
    assert (Hl : selects t0 !! l = Some (Mpath None select None None)) by apply lookup_insert_eq.
    destruct (add_mpath_item_op fuel now s d t0 l _ [] [] Hl) as (hd & h & ps & E & Hd & Hk & Hn & _);
      [done|destruct Hfits; simpl; lia|].
    rewrite E. cbn [rbind store selects set_items set_selects t0]. rewrite lookup_insert_eq.
    cbn [rbind]. rewrite lookup_insert_eq. cbn [rbind]. rewrite !insert_insert_eq.
    eexists. split; [done|]. exists R, RD, (l :: L), (ps :: P).
    apply (rep_at_new_sel t A R RD L P select l h hd ps [new_path now s d] Hrep); try done.
    + by apply has_sel_notin.
    + intros k v. apply Hk. set_solver.
    + intros k [?|?]%Hn; [set_solver|done].
Qed.

Lemma delete_mpath_refines fuel select s d t A :
  rep t A -> fits fuel A ->
  exists t', delete_mpath fuel select s d t = Ok t' /\
    rep t' (a_on_sel select (remove_first (same_path s d)) A).
Proof.
  intros Hrep Hfits. destruct (for_selects_refines fuel _ select _ _ t A Hrep Hfits
    (delete_mpath_item_op fuel s d)) as (t' & E & Hrep'). eauto.
Qed.
