(* ===== verification/MpRtableProps.v ===== *)
(** * What the routing table guarantees, and where it fails

    The refinement of every sequence of commands (but [delete-select]), the
    exact outcome of [delete_select], and the behaviour of path selection. *)

From stdpp Require Import base numbers list gmap.
From Stdlib Require Import ZArith Lia.
From S2P Require Import Prelude Store Float64 Dlist MpRtable MpRtableSpec.

Local Open Scope Z_scope.

(** ** Sequences of operations *)

Inductive table_op :=
  | AddItem (seg msk hop : Z)
  | DeleteItem (seg msk : Z)
  | AddMpath (now : f64) (select s d : Z)
  | DeleteMpath (select s d : Z)
  | Attach (seg msk select : Z)
  | Detach (seg msk select : Z)
  | UpdateSdelay (select s d : Z) (time : f64) (seq : Z)
  | UpdateRdelay (now : f64) (select s d : Z) (time : f64)
  | UpdateRtime (select s d : Z) (time : f64)
  | UpdatePing (now : f64) (select s d : Z).

Definition run_op (fuel : nat) (o : table_op) (t : mpRtable) : result mpRtable :=
  match o with
  | AddItem seg msk hop => add_item seg msk hop t
  | DeleteItem seg msk => delete_item fuel seg msk t
  | AddMpath now a s d => add_mpath fuel now a s d t
  | DeleteMpath a s d => delete_mpath fuel a s d t
  | Attach seg msk a => attach_select fuel seg msk a t
  | Detach seg msk a => detach_select fuel seg msk a t
  | UpdateSdelay a s d time seq => update_sdelay fuel a s d time seq t
  | UpdateRdelay now a s d time => update_rdelay fuel now a s d time t
  | UpdateRtime a s d time => update_rtime fuel a s d time t
  | UpdatePing now a s d => update_ping_info fuel now a s d t
  end.

Fixpoint run_ops (fuel : nat) (os : list table_op) (t : mpRtable) : result mpRtable :=
  match os with
  | [] => Ok t
  | o :: os' => let! t' := run_op fuel o t in run_ops fuel os' t'
  end.

Definition a_op (o : table_op) (A : spec) : spec :=
  match o with
  | AddItem seg msk hop => a_add_item seg msk hop A
  | DeleteItem seg msk => a_delete_item seg msk A
  | AddMpath now a s d => a_add_mpath now a s d A
  | DeleteMpath a s d => a_on_sel a (remove_first (same_path s d)) A
  | Attach seg msk a => a_bind seg msk a (Some a) A
  | Detach seg msk a => a_bind seg msk a None A
  | UpdateSdelay a s d time seq =>
      a_on_sel a (alter_first (same_path s d)
        (fun i => if seq <? ping_seq i then with_send_delay (send_delay_of time seq i) i else i)) A
  | UpdateRdelay now a s d time =>
      a_on_sel a (alter_first (same_path s d) (with_recv_delay (fsub now time))) A
  | UpdateRtime a s d time => a_on_sel a (alter_first (same_path s d) (with_recv_time time)) A
  | UpdatePing now a s d =>
      a_on_sel a (alter_first (same_path s d)
        (fun i => with_ping now (wrap_u32 (ping_seq i + 1)) i)) A
  end.

Lemma run_op_refines fuel o t A :
  rep t A -> fits fuel A -> exists t', run_op fuel o t = Ok t' /\ rep t' (a_op o A).
Proof.
  intros Hrep Hfits.
  destruct o; cbn [run_op a_op];
    eauto using add_item_refines, delete_item_refines, add_mpath_refines,
      delete_mpath_refines, attach_select_refines, detach_select_refines;
    eapply (for_selects_refines fuel true); eauto; apply update_path_op.
Qed.

(** Every list of the table is no longer than [n]. *)
Definition bounded (n : nat) (A : spec) : Prop :=
  (length (a_routes A) <= n)%nat /\ (length (a_sels A) <= n)%nat /\
  Forall (fun x => length x.2 <= n)%nat (a_sels A).

Lemma length_remove_first {A} (test : A -> bool) l :
  (length (remove_first test l) <= length l)%nat.
Proof. induction l as [|x l IH]; simpl; [done|]. destruct (test x); simpl; lia. Qed.

Lemma length_alter_first {A} (test : A -> bool) f l :
  length (alter_first test f l) = length l.
Proof. induction l as [|x l IH]; simpl; [done|]. destruct (test x); simpl; lia. Qed.

Lemma bounded_on_sel n a g A :
  (forall l, length (g l) <= S (length l))%nat -> bounded n A -> bounded (S n) (a_on_sel a g A).
Proof.
  intros Hg (H1 & H2 & H3). unfold bounded, a_on_sel, on_sel. cbn [a_routes a_sels].
  rewrite length_map. split_and!; [lia|lia|]. apply Forall_map.
  eapply Forall_impl; [exact H3|]. intros [b ds] Hb. simpl in *.
  destruct (b =? a); simpl; [specialize (Hg ds)|]; lia.
Qed.

Lemma bounded_weaken n A : bounded n A -> bounded (S n) A.
Proof.
  intros (H1 & H2 & H3). split_and!; [lia|lia|].
  eapply Forall_impl; [exact H3|]. simpl. lia.
Qed.

Lemma bounded_op n o A : bounded n A -> bounded (S n) (a_op o A).
Proof.
  intros Hb. destruct o; cbn [a_op];
    try (apply bounded_on_sel; [|done]; intros l;
         pose proof (length_remove_first (same_path s d) l);
         rewrite ?length_alter_first; lia).
  - destruct Hb as (H1 & H2 & H3). split_and!; simpl; [lia|lia|].
    eapply Forall_impl; [exact H3|]. simpl. lia.
  - apply bounded_weaken. destruct Hb as (H1 & H2 & H3). split_and!; try done.
    simpl. etrans; [apply length_remove_first|lia].
  - unfold a_add_mpath. destruct (has_sel select (a_sels A)).
    + apply bounded_on_sel; [simpl; lia|done].
    + destruct Hb as (H1 & H2 & H3). split_and!; simpl; [lia|lia|].
      constructor; [simpl; lia|]. eapply Forall_impl; [exact H3|]. simpl. lia.
  - unfold a_bind. destruct (has_sel select (a_sels A)); apply bounded_weaken; [|done].
    destruct Hb as (H1 & H2 & H3). split_and!; try done. simpl. by rewrite length_alter_first.
  - unfold a_bind. destruct (has_sel select (a_sels A)); apply bounded_weaken; [|done].
    destruct Hb as (H1 & H2 & H3). split_and!; try done. simpl. by rewrite length_alter_first.
Qed.

Lemma bounded_fits n fuel A : bounded n A -> (n < fuel)%nat -> fits fuel A.
Proof.
  intros (H1 & H2 & H3) Hf. split_and!; [lia|lia|].
  eapply Forall_impl; [exact H3|]. simpl. lia.
Qed.

Lemma run_ops_refines fuel os n t A :
  rep t A -> bounded n A -> (n + length os < fuel)%nat ->
  exists t', run_ops fuel os t = Ok t' /\ rep t' (fold_left (fun A o => a_op o A) os A).
Proof.
  revert n t A. induction os as [|o os IH]; intros n t A Hrep Hb Hf; simpl in *.
  - eauto.
  - destruct (run_op_refines fuel o t A Hrep) as (t1 & -> & Hrep1).
    { eapply bounded_fits; [done|lia]. }
    cbn [rbind]. apply (IH (S n)); [done|by apply bounded_op|lia].
Qed.

(** ** [delete_select] *)

(** What the first loop does to a route. *)
Definition unbind (a : Z) (r : aroute) : aroute :=
  if bool_decide (ar_sel r = Some a) then with_sel None r else r.

Lemma unflag_step t A1 a A2 S R1 l R2 D1 r D2 L P v :
  rep_at t (Spec (A1 ++ a :: A2) S) (R1 ++ l :: R2) (D1 ++ r :: D2) L P ->
  length R1 = length D1 -> length R1 = length A1 ->
  routes t !! l = Some v -> mp_flag (route v) = true ->
  rep_at (set_routes (<[l := set_route (fun i => with_binding false (mptable i) i) v]> (routes t)) t)
    (Spec (A1 ++ with_sel None a :: A2) S) (R1 ++ l :: R2)
    (D1 ++ with_binding false (mptable (route v)) (route v) :: D2) L P.
Proof.
  intros [Hr Hs Hc Ha Hb] H1 H2 Hv Hflag.
  assert (Hl : (R1 ++ l :: R2) !! length R1 = Some l) by apply list_lookup_middle, eq_refl.
  destruct (dl_lookup _ _ _ _ _ _ _ _ Hr Hl) as (v' & Hv' & Hd).
  assert (v' = v) as -> by congruence.
  rewrite H1, list_lookup_middle in Hd by done. injection Hd as Hd. simpl in Hd.
  constructor; cbn [rtable_head mptable_head routes selects items set_routes a_routes a_sels];
    try done.
  - pose proof (dl_set_data _ _ _ _ _ _ _ _ v
      (set_route (fun i => with_binding false (mptable i) i) v) Hr (dlist_NoDup _ _ _ _ Hr) Hl Hv
      eq_refl eq_refl) as Hr'.
    rewrite H1, insert_app_r_alt, Nat.sub_diag in Hr' by lia. exact Hr'.
  - apply Forall2_app_inv in Hb as [Hb1 Hb2]; [|lia].
    apply Forall2_cons in Hb2 as [(E1 & E2 & E3 & _) Hb2].
    apply Forall2_app; [done|]. constructor; [|done]. rewrite <- Hd. rewrite Hd in E1, E2, E3.
    rewrite <- Hd in E1, E2, E3. split_and!; done.
Qed.

Lemma unflag_spec fuel a A2 : forall t A1 S R1 R2 D1 D2 L P p,
  rep_at t (Spec (A1 ++ A2) S) (R1 ++ R2) (D1 ++ D2) L P ->
  length R1 = length D1 -> length R1 = length A1 ->
  dl (routes t) (match last R1 with Some l => Some l | None => None end) p R2 D2 None ->
  (length A2 < fuel)%nat ->
  exists t' D2', unflag_routes fuel a p t = Ok t' /\
    rep_at t' (Spec (A1 ++ map (unbind a) A2) S) (R1 ++ R2) (D1 ++ D2') L P /\
    mptable_head t' = mptable_head t /\ selects t' = selects t /\ items t' = items t /\
    static_s t' = static_s t /\ static_p t' = static_p t.
Proof.
  revert fuel. induction A2 as [|x A2 IH]; intros [|fuel] t A1 S R1 R2 D1 D2 L P p Hrep H1 H2 Hdl Hf;
    simpl in Hf; try lia.
  - pose proof (rep_binds _ _ _ _ _ _ Hrep) as Hb. cbn [a_routes] in Hb.
    apply Forall2_length in Hb. rewrite !length_app in Hb. simpl in Hb.
    destruct D2; [|simpl in Hb; lia]. destruct R2; [|done].
    simpl in Hdl. subst p. exists t, []. by split_and!.
  - pose proof (rep_binds _ _ _ _ _ _ Hrep) as Hb. cbn [a_routes] in Hb.
    apply Forall2_app_inv in Hb as [_ Hb]; [|lia].
    destruct D2 as [|r D2]; [by inversion Hb|]. apply Forall2_cons in Hb as [Hrel _].
    destruct R2 as [|l R2]; [done|]. destruct Hdl as (-> & v & Hv & Hp & Hd & Hdl).
    simpl in Hd. subst r. cbn [unflag_routes load]. rewrite Hv. cbn [rbind].
    (* the rest of the walk, from a table whose [l] has payload [r'] *)
    assert (Hrest : forall t1 r' y,
      rep_at t1 (Spec (A1 ++ y :: A2) S) (R1 ++ l :: R2) (D1 ++ r' :: D2) L P ->
      y = unbind a x -> routes t1 = routes t \/ (exists w, routes t1 = <[l := w]> (routes t)) ->
      exists t' D2', unflag_routes fuel a (next v) t1 = Ok t' /\
        rep_at t' (Spec (A1 ++ map (unbind a) (x :: A2)) S) (R1 ++ l :: R2) (D1 ++ D2') L P /\
        mptable_head t' = mptable_head t1 /\ selects t' = selects t1 /\ items t' = items t1 /\
        static_s t' = static_s t1 /\ static_p t' = static_p t1).
    { intros t1 r' y Hrep1 -> Hrt.
      destruct (IH fuel t1 (A1 ++ [unbind a x]) S (R1 ++ [l]) R2 (D1 ++ [r']) D2 L P (next v))
        as (t' & D2' & E & Hrep' & Hrest); [| | | |lia|].
      - by rewrite <- !(assoc_L (++)).
      - rewrite !length_app. simpl. lia.
      - rewrite !length_app. simpl. lia.
      - rewrite last_snoc. destruct Hrt as [-> | [w ->]]; [exact Hdl|].
        eapply dl_agree; [|exact Hdl]. intros k Hk. apply lookup_insert_ne. intros <-.
        pose proof (dlist_NoDup _ _ _ _ (rep_routes _ _ _ _ _ _ Hrep)) as Hnd.
        by destruct (elem_of_split_NoDup _ _ _ _ Hnd eq_refl).
      - rewrite <- !(assoc_L (++)) in Hrep'. exists t', (r' :: D2'). by split. }
    destruct Hrel as (E1 & E2 & E3 & E4). unfold unbind in Hrest.
    destruct (ar_sel x) as [b|] eqn:Eb.
    + destruct E4 as (Hflag & q & Hq & _ & m & Hm & Hma).
      rewrite Hflag, Hq. cbn [load]. rewrite Hm. cbn [rbind]. rewrite Hma.
      destruct (Z.eqb_spec b a) as [->|Hne].
      * cbn [store]. rewrite Hv. cbn [rbind].
        destruct (Hrest _ _ _ (unflag_step t A1 x A2 S R1 l R2 D1 _ D2 L P v Hrep H1 H2 Hv Hflag))
          as (t' & D2' & E & Hrep' & Hk); [by rewrite bool_decide_eq_true_2|right; by eexists|].
        exists t', D2'. by rewrite E.
      * cbn [rbind]. destruct (Hrest (set_routes (routes t) t) (route v) x) as (t' & D2' & ?);
          [by destruct t|rewrite bool_decide_eq_false_2; congruence|by left|]. eauto.
    + rewrite E4. cbn [rbind].
      destruct (Hrest (set_routes (routes t) t) (route v) x) as (t' & D2' & ?);
        [by destruct t|by rewrite bool_decide_eq_false_2|by left|]. eauto.
Qed.

Lemma unflag_refines fuel a t A R RD L P :
  rep_at t A R RD L P -> fits fuel A ->
  exists t' RD', unflag_routes fuel a (rtable_head t) t = Ok t' /\
    rep_at t' (Spec (map (unbind a) (a_routes A)) (a_sels A)) R RD' L P /\
    mptable_head t' = mptable_head t /\ selects t' = selects t /\ items t' = items t.
Proof.
  intros Hrep (Hf & _). destruct A as [AR S].
  destruct (unflag_spec fuel a AR t [] S [] R [] RD L P (rtable_head t))
    as (t' & D2' & E & Hrep' & ? & ? & ? & _); try done.
  - apply (rep_routes _ _ _ _ _ _ Hrep).
  - eauto 10.
Qed.

(** No route is bound to an address without a selector. *)
Lemma unbind_absent a t A R RD L P :
  rep_at t A R RD L P -> a ∉ map fst (a_sels A) -> map (unbind a) (a_routes A) = a_routes A.
Proof.
  intros [Hr Hs Hc Ha Hb] Hna. rewrite <- (map_id (a_routes A)) at 2.
  apply map_ext_in. intros x Hx%list_elem_of_In.
  unfold unbind. destruct (decide (ar_sel x = Some a)) as [E|E].
  - exfalso. apply list_elem_of_lookup in Hx as [i Hi].
    destruct (Forall2_lookup_r _ _ _ _ _ Hb Hi) as (r & _ & _ & _ & _ & Hsel).
    rewrite E in Hsel. destruct Hsel as (_ & l & _ & Hl & m & Hm & <-).
    apply Hna. eapply addrs_In; [by eapply sels_addrs|done|done].
  - by rewrite bool_decide_eq_false_2.
Qed.

Lemma delete_selects_skip fuel a p t L :
  seg next_select (selects t) p L None -> (length L < fuel)%nat ->
  (forall l m, l ∈ L -> selects t !! l = Some m -> select_addr m <> a) ->
  delete_selects fuel a p t = Ok t.
Proof.
  revert fuel p. induction L as [|l L IH]; intros [|fuel] p Hs Hf Hna; simpl in *; try lia.
  - by rewrite Hs.
  - destruct Hs as (-> & m & Hm & Hs). mem_step.
    destruct (Z.eqb_spec (select_addr m) a) as [Heq|_].
    { exfalso. by eapply Hna; [apply list_elem_of_here|done|]. }
    mem_step. apply IH; [done|lia|]. intros k m' Hk. apply Hna. by right.
Qed.

(** The loop reaches the first selector of address [a] without a change. *)
Lemma delete_selects_reach fuel a p t L1 l L2 :
  seg next_select (selects t) p (L1 ++ l :: L2) None -> (length L1 < fuel)%nat ->
  (forall k m, k ∈ L1 -> selects t !! k = Some m -> select_addr m <> a) ->
  delete_selects fuel a p t = delete_selects (fuel - length L1) a (Some l) t.
Proof.
  revert fuel p. induction L1 as [|k L1 IH]; intros [|fuel] p Hs Hf Hna; simpl in Hf; try lia.
  - destruct Hs as [-> _]. by rewrite Nat.sub_0_r.
  - destruct Hs as (-> & m & Hm & Hs). cbn [delete_selects]. mem_step.
    destruct (Z.eqb_spec (select_addr m) a) as [Heq|_].
    { exfalso. by eapply Hna; [apply list_elem_of_here|done|]. }
    mem_step. cbn [length]. rewrite Nat.sub_succ. apply IH; [done|lia|]. intros k' m' Hk. apply Hna. by right.
Qed.

Lemma clear_paths_spec fuel h p ls :
  seg next_path h p ls None -> (length ls < fuel)%nat ->
  exists h', clear_paths fuel p h = Ok h' /\
    forall k, h' !! k = if decide (k ∈ ls) then None else h !! k.
Proof.
  revert fuel h p. induction ls as [|l ls IH]; intros [|fuel] h p Hs Hf; simpl in Hf; try lia.
  - simpl in Hs. rewrite Hs. exists h. split; [done|]. intros k. by rewrite decide_False by set_solver.
  - pose proof (seg_NoDup _ _ _ _ Hs) as [Hl _]%NoDup_cons.
    destruct Hs as (-> & v & Hv & Hs). cbn [clear_paths]. mem_step.
    destruct (IH fuel (delete l h) (next_path v)) as (h' & -> & Hh');
      [by apply seg_delete_notin|lia|].
    exists h'. split; [done|]. intros k. rewrite Hh'.
    destruct (decide (k ∈ ls)); [by rewrite decide_True by set_solver|].
    destruct (decide (k = l)) as [->|].
    + rewrite lookup_delete_eq, decide_True by set_solver. done.
    + rewrite lookup_delete_ne, decide_False by set_solver. done.
Qed.

(** At a matching selector the loop does not survive. *)
Lemma delete_selects_at fuel a t l m ps ds L2 P2 S2 :
  (0 < fuel)%nat -> (mptable_head t = Some l -> length ds < fuel)%nat -> l ∉ L2 ->
  selects t !! l = Some m -> select_addr m = a -> prev_select m = None ->
  dlist (items t) (pathHead m) ps ds ->
  sels (selects t) (items t) (next_select m) L2 P2 S2 ->
  delete_selects fuel a (Some l) t
    = Fault (if decide (mptable_head t = Some l) then Dangling else NullDeref).
Proof.
  intros Hf0 Hf Hl Hm Ha Hp Hd Hs. destruct fuel as [|fuel]; [lia|].
  cbn [delete_selects]. mem_step. rewrite Ha, Z.eqb_refl. unfold unlink_select. mem_step.
  destruct (decide (mptable_head t = Some l)) as [Hhead|Hhead]; [|by rewrite Hp].
  assert (Hnext : exists h, match next_select m with
      | None => Ok (selects t)
      | Some _ => store (selects t) (next_select m) (set_prev_select None)
      end = Ok h /\ h !! l = Some m).
  { destruct (next_select m) as [x|] eqn:Ex; [|by eexists].
    destruct L2 as [|y L2], P2, S2 as [|[b es] S2]; try done.
    destruct Hs as ([= <-] & my & Hmy & _). cbn [store]. rewrite Hmy. eexists.
    split; [done|]. rewrite lookup_insert_ne; [done|]. set_solver. }
  destruct Hnext as (h & -> & Hh). cbn [rbind]. unfold mpath_clear.
  cbn [selects set_mptable_head set_selects items]. mem_step.
  destruct (clear_paths_spec (S fuel) (items t) (pathHead m) ps) as (h' & -> & _).
  { exact (dl_seg _ _ _ _ _ _ Hd). }
  { rewrite (dl_length _ _ _ _ _ _ Hd). by apply Hf. }
  mem_step. cbn [selects set_items set_selects release]. rewrite lookup_insert_eq.
  cbn [rbind selects set_selects load]. by rewrite lookup_delete_eq.
Qed.

Lemma delete_select_outcome fuel a t A :
  rep t A -> fits fuel A ->
  if has_sel a (a_sels A)
  then delete_select fuel a t =
         Fault (if decide (fst <$> head (a_sels A) = Some a) then Dangling else NullDeref)
  else exists t', delete_select fuel a t = Ok t' /\ rep t' A.
Proof.
  intros (R & RD & L & P & Hrep) Hfits. unfold delete_select.
  destruct (unflag_refines fuel a t A R RD L P Hrep Hfits)
    as (t1 & RD' & -> & Hrep1 & _). cbn [rbind].
  pose proof (rep_sels _ _ _ _ _ _ Hrep1) as Hs. cbn [a_sels] in Hs.
  destruct Hfits as (_ & Hf & Hfp).
  pose proof (sels_length _ _ _ _ _ _ Hs) as [HlL _].
  destruct (has_sel a (a_sels A)) eqn:E.
  - apply has_sel_In in E. destruct (sels_split _ _ _ _ _ _ _ Hs E) as
      (L1 & l & L2 & P1 & ps & P2 & S1 & ds & S2 & -> & -> & HS & H1 & H2 & Hna).
    pose proof (rep_addrs _ _ _ _ _ _ Hrep1) as Hnd. cbn [a_sels] in Hnd.
    rewrite HS in *. pose proof (sels_seg _ _ _ _ _ _ Hs) as Hseg.
    pose proof (seg_NoDup _ _ _ _ Hseg) as HndL.
    destruct (elem_of_split_NoDup l _ L1 L2 HndL eq_refl) as [Hl1 Hl2].
    rewrite !length_app in *. simpl in *.
    rewrite (delete_selects_reach _ _ _ _ L1 l L2 Hseg); [|lia|].
    2: { intros k m Hk. eapply addrs_other; [exact Hs|done|done|set_solver]. }
    pose proof Hs as Hs0. apply sels_app in Hs as (r & _ & (_ & m & Hm & Hma & Hp & Hd & Hs)); [|done..].
    destruct L1 as [|l1 L1], S1 as [|[b es] S1], P1 as [|ps1 P1]; try (simpl in *; lia).
    + rewrite (delete_selects_at _ _ _ l m ps ds L2 P2 S2); try done; simpl; [|lia|].
      * destruct Hs0 as [Hh _]. rewrite !decide_True by done. done.
      * intros _. rewrite Nat.sub_0_r. rewrite Forall_forall in Hfp. apply (Hfp (a, ds)). set_solver.
    + rewrite (delete_selects_at _ _ _ l m ps ds L2 P2 S2); try done; [|simpl in *; lia|].
      * destruct Hs0 as [Hh _]. rewrite !decide_False; [done| |]; simpl in *; set_solver.
      * destruct Hs0 as [Hh _]. rewrite Hh. intros [= ->]. set_solver.
  - apply has_sel_notin in E. exists t1. split.
    + eapply delete_selects_skip; [by eapply sels_seg|lia|].
      intros l m Hl Hm <-. apply E. eapply addrs_In; [by eapply sels_addrs|done|done].
    + erewrite unbind_absent in Hrep1 by done. destruct A. by exists R, RD', L, P.
Qed.

(** ** Path selection *)

(** [is_alive] on a path of the selector: only the head path is ever looked
    at; any other argument keeps the loop on the head forever. *)
Lemma is_alive_head fuel now s d t l m ps ds :
  selects t !! l = Some m -> dlist (items t) (pathHead m) ps ds ->
  is_alive (S fuel) now l s d t =
    match ds with
    | [] => Ok false
    | d0 :: _ =>
        if same_path s d d0 then Ok (flt ALIVE_INTERVAL (fsub now (last_recv_time d0)))
        else NoFuel
    end.
Proof.
  intros Hm Hd. unfold is_alive. mem_step.
  destruct ps as [|p ps], ds as [|d0 ds]; try done.
  - unfold dlist in Hd. simpl in Hd. by rewrite Hd.
  - destruct Hd as (-> & v & Hv & _ & Hpv & _). simpl in Hpv. subst d0.
    destruct (same_path s d (path v)) eqn:E.
    + cbn [is_alive_loop]. mem_step. by rewrite E.
    + generalize (S fuel) as n. induction n as [|n IH]; [done|].
      cbn [is_alive_loop]. mem_step. by rewrite E.
Qed.

(** Whether path [d] has the interfaces of path [d0]. *)
Definition same_as (d0 d : path_info) : bool := same_path (s_intf d) (d_intf d) d0.

Lemma select_loop_diverges now l t m ps d0 ds : forall fuel qs es pv p ans tag,
  selects t !! l = Some m -> dlist (items t) (pathHead m) ps (d0 :: ds) ->
  dl (items t) pv p qs es None -> existsb (fun d => negb (same_as d0 d)) es = true ->
  select_loop fuel now l t p ans tag 0 = NoFuel.
Proof.
  intros fuel qs es pv p ans tag Hm Hd. revert fuel es pv p ans tag.
  induction qs as [|q qs IH]; intros [|fuel] [|e es] pv p ans tag Hq Hex; try done.
  destruct Hq as (-> & v & Hv & _ & Hpv & Hq). simpl in Hpv. subst e.
  cbn [select_loop]. mem_step. rewrite (is_alive_head _ _ _ _ _ _ _ _ _ Hm Hd).
  cbn [existsb] in Hex. unfold same_as at 1 in Hex.
  destruct (same_path _ _ d0); [|done]. simpl in Hex. mem_step.
  destruct (negb _); [by eapply IH|]. destruct (_ || _); by eapply IH.
Qed.

Lemma select_path_diverges fuel now l t m ps d0 ds :
  selects t !! l = Some m -> dlist (items t) (pathHead m) ps (d0 :: ds) ->
  existsb (fun d => negb (same_as d0 d)) ds = true ->
  select_path fuel now l t = NoFuel.
Proof.
  intros Hm Hd Hex. unfold select_path. mem_step.
  destruct ps as [|p ps]; [done|]. pose proof Hd as (Hp & _). rewrite Hp.
  rewrite (select_loop_diverges now l t m (p :: ps) d0 ds fuel (p :: ps) (d0 :: ds) None);
    try done.
  - by rewrite <- Hp.
  - cbn [existsb]. by rewrite Hex, orb_true_r.
Qed.

(** With one pair of interfaces per selector, selection keeps the head path
    when it has been silent for longer than the interval. *)
Lemma select_loop_same now l t m ps d0 ds : forall fuel qs es pv p ans tag,
  selects t !! l = Some m -> dlist (items t) (pathHead m) ps (d0 :: ds) ->
  dl (items t) pv p qs es None -> (length es < fuel)%nat ->
  Forall (fun d => same_as d0 d = true /\ 0 <= cnt d) es ->
  select_loop fuel now l t p ans tag 0 =
    Ok (if flt ALIVE_INTERVAL (fsub now (last_recv_time d0)) && negb tag
        then match p with Some _ => p | None => ans end else ans).
Proof.
  intros fuel qs es pv p ans tag Hm Hd. revert fuel es pv p ans tag.
  induction qs as [|q qs IH]; intros [|fuel] [|e es] pv p ans tag Hq Hf HF; simpl in Hf;
    try (lia || done).
  - simpl in Hq. subst p. simpl. by destruct (_ && _).
  - destruct Hq as (-> & v & Hv & _ & Hpv & Hq). simpl in Hpv. subst e.
    apply Forall_cons in HF as [[Hsame Hc] HF].
    cbn [select_loop]. mem_step. rewrite (is_alive_head _ _ _ _ _ _ _ _ _ Hm Hd).
    unfold same_as in Hsame. rewrite Hsame. mem_step.
    rewrite (proj2 (Z.ltb_ge _ _) Hc), orb_false_r.
    destruct (flt _ _) eqn:Ealive; cbn [negb]; [destruct tag; cbn [negb]|];
      rewrite (IH fuel es _ _ _ _ Hq) by (done || lia); cbn [andb negb]; done.
Qed.

(** The paths of selector [a] in the meaning. *)
Definition paths_of (a : Z) (A : spec) : list path_info :=
  match first (fun x => x.1 =? a) (a_sels A) with Some x => x.2 | None => [] end.

Lemma sel_addr_paths t A R RD L P l a :
  rep_at t A R RD L P -> sel_addr (selects t) L l a ->
  exists m ps, selects t !! l = Some m /\ select_addr m = a /\
    dlist (items t) (pathHead m) ps (paths_of a A) /\ a ∈ map fst (a_sels A).
Proof.
  intros Hrep (Hl & m & Hm & Ha). pose proof (rep_sels _ _ _ _ _ _ Hrep) as Hs.
  pose proof (rep_addrs _ _ _ _ _ _ Hrep) as Hnd.
  unfold paths_of. clear Hrep. revert Hs Hnd Hl. generalize (mptable_head t) as p.
  generalize (a_sels A) as S. revert P.
  induction L as [|k L IH]; intros [|ps P] [|[b ds] S] p; simpl; try (done || set_solver).
  intros (-> & m' & Hm' & <- & _ & Hd & Hs) [Hnb Hnd]%NoDup_cons [->|Hin]%elem_of_cons.
  - assert (m' = m) as -> by congruence. rewrite Ha, Z.eqb_refl. exists m, ps.
    split_and!; try done. set_solver.
  - destruct (IH _ _ _ Hs Hnd Hin) as (m2 & ps2 & Hm2 & Ha2 & Hd2 & Hin2).
    exists m2, ps2. destruct (Z.eqb_spec (select_addr m') a) as [E|].
    + exfalso. apply Hnb. by rewrite E.
    + split_and!; try done. set_solver.
Qed.

(** A lookup that reaches a route bound to a selector whose paths use more
    than one pair of interfaces never returns. *)
Lemma lookup_mp_diverges n fuel now daddr t A r a d0 ds :
  rep t A ->
  first (fun r => a_covers daddr r && bool_decide (is_Some (ar_sel r))) (a_routes A) = Some r ->
  ar_sel r = Some a -> paths_of a A = d0 :: ds ->
  existsb (fun d => negb (same_as d0 d)) ds = true ->
  lookup_mp_loop n fuel now daddr (rtable_head t) t = NoFuel.
Proof.
  intros (R & RD & L & P & Hrep) Hfirst Ha Hpaths Hex.
  pose proof (rep_routes _ _ _ _ _ _ Hrep) as Hr. unfold dlist in Hr.
  pose proof (rep_binds _ _ _ _ _ _ Hrep) as Hb. revert Hr Hb Hfirst.
  generalize (@None positive) at 1 as pv. generalize (rtable_head t) as p.
  generalize (a_routes A) as AR. generalize RD as RD'. revert n. generalize R as R'.
  induction R' as [|l R' IH]; intros [|n] [|d RD'] AR p pv Hr Hb Hfirst; try done.
  { apply Forall2_nil_inv_l in Hb. by subst. }
  apply Forall2_cons_inv_l in Hb as (y & AR' & Hrel & Hb & ->).
  destruct Hr as (-> & v & Hv & _ & Hd & Hr). simpl in Hd. subst d.
  cbn [lookup_mp_loop]. mem_step. rewrite (route_rel_covers _ _ _ _ _ Hrel).
  destruct Hrel as (_ & _ & _ & Hsel). cbn [first] in Hfirst.
  destruct (ar_sel y) as [b|] eqn:Ey.
  - destruct Hsel as (-> & q & -> & Hq). rewrite andb_true_r.
    rewrite bool_decide_eq_true_2, andb_true_r in Hfirst by done.
    destruct (a_covers daddr y); [|by eapply IH]. injection Hfirst as ->.
    rewrite Ha in Ey. injection Ey as <-.
    destruct (sel_addr_paths _ _ _ _ _ _ _ _ Hrep Hq) as (m & ps & Hm & _ & Hdl & _).
    rewrite Hpaths in Hdl. by eapply select_path_diverges.
  - rewrite Hsel, andb_false_r. rewrite bool_decide_eq_false_2, andb_false_r in Hfirst
      by (by intros [? ?]). by eapply IH.
Qed.

(** ** Selection that returns *)

(** An operation on the selector at a known location. *)
Lemma sel_op_at fuel same op g a l t A R RD L P :
  rep_at t A R RD L P -> fits fuel A -> sel_op fuel same op g -> sel_addr (selects t) L l a ->
  exists t' P', op l t = Ok t' /\ rep_at t' (a_on_sel a g A) R RD L P' /\
    static_s t' = static_s t /\ static_p t' = static_p t.
Proof.
  intros Hrep (_ & Hf & Hfp) Hop (Hl & ml & Hml & Hmla).
  pose proof (rep_sels _ _ _ _ _ _ Hrep) as Hs.
  assert (Hin : a ∈ map fst (a_sels A)).
  { rewrite <- Hmla. eapply addrs_In; [by eapply sels_addrs|done|done]. }
  destruct (sels_split _ _ _ _ _ _ _ Hs Hin) as
    (L1 & k & L2 & P1 & ps & P2 & S1 & ds & S2 & -> & -> & HS & H1 & H2 & Hna).
  rewrite HS in Hs, Hfp. pose proof (rep_addrs _ _ _ _ _ _ Hrep) as Hnd. rewrite HS in Hnd.
  assert (k = l) as ->.
  { apply elem_of_app in Hl as [Hl|[->|Hl]%elem_of_cons]; [|done|];
      exfalso; eapply (addrs_other _ _ _ L1 k L2); try done; set_solver. }
  assert (Hlen : (length ds < fuel)%nat).
  { rewrite Forall_forall in Hfp. apply (Hfp (a, ds)). set_solver. }
  apply sels_app in Hs as (r & _ & (_ & m & Hm & Hma & _ & Hd & _)); [|done..].
  destruct (Hop _ _ _ _ _ Hm Hd Hlen) as (hd & h & ps' & E & Hd' & Hkeep & Hnew & Hsame).
  eexists _, _. split_and!; [done|by eapply rep_at_change|done..].
Qed.

(** The head path counts one more selection. *)
Definition count_selected (i : path_info) : path_info := with_cnt (wrap_i32 (cnt i + 1)) i.

(** Silent for longer than the interval: what [is_alive] tests. *)
Definition silent (now : f64) (d : path_info) : bool :=
  flt ALIVE_INTERVAL (fsub now (last_recv_time d)).

Lemma select_path_update fuel now l t m p ps d0 ds :
  selects t !! l = Some m -> dlist (items t) (pathHead m) (p :: ps) (d0 :: ds) ->
  (length (d0 :: ds) < fuel)%nat ->
  Forall (fun d => same_as d0 d = true /\ 0 <= cnt d) (d0 :: ds) ->
  select_path fuel now l t =
    if silent now d0
    then let! t' := update_path fuel count_selected l (s_intf d0) (d_intf d0) t in
         Ok (select_addr m, Some (s_intf d0, d_intf d0), t')
    else Ok (broadcast_addr, None, t).
Proof.
  intros Hm Hd Hf HF. unfold select_path. mem_step. pose proof Hd as (Hp & v & Hv & _ & Hdv & _).
  simpl in Hdv. rewrite Hp.
  rewrite (select_loop_same now l t m (p :: ps) d0 ds fuel (p :: ps) (d0 :: ds) None);
    [|done|done|by rewrite <- Hp|done|done].
  cbn [negb]. rewrite andb_true_r. unfold silent. destruct (flt _ _); [|done].
  unfold update_path. mem_step. rewrite (find_path_spec _ _ _ _ _ _ _ Hd) by done.
  cbn [list_find]. rewrite decide_True by (unfold same_path; by rewrite !Z.eqb_refl).
  mem_step. rewrite Hdv. change ((p :: ps) !! 0%nat) with (Some p). by mem_step.
Qed.

(** Where the lookup for a selector goes. *)
Definition bound_route (daddr : Z) (A : spec) : option aroute :=
  first (fun r => a_covers daddr r && bool_decide (is_Some (ar_sel r))) (a_routes A).

Lemma lookup_mp_reach n fuel now daddr t A R RD L P :
  rep_at t A R RD L P -> (length (a_routes A) < n)%nat ->
  match bound_route daddr A with
  | None => lookup_mp_loop n fuel now daddr (rtable_head t) t = Ok (broadcast_addr, None, t)
  | Some r => exists a l, ar_sel r = Some a /\ sel_addr (selects t) L l a /\
      lookup_mp_loop n fuel now daddr (rtable_head t) t = select_path fuel now l t
  end.
Proof.
  intros Hrep. unfold bound_route.
  pose proof (rep_routes _ _ _ _ _ _ Hrep) as Hr. unfold dlist in Hr.
  pose proof (rep_binds _ _ _ _ _ _ Hrep) as Hb. revert Hr Hb.
  generalize (@None positive) at 1 as pv. generalize (rtable_head t) as p.
  generalize (a_routes A) as AR. generalize RD as RD'. revert n. generalize R as R'.
  induction R' as [|l R' IH]; intros [|n] [|d RD'] AR p pv Hr Hb Hn; try (done || lia).
  { apply Forall2_nil_inv_l in Hb. subst. by rewrite Hr. }
  apply Forall2_cons_inv_l in Hb as (y & AR' & Hrel & Hb & ->).
  destruct Hr as (-> & v & Hv & _ & Hd & Hr). simpl in Hd, Hn. subst d.
  cbn [lookup_mp_loop]. mem_step. rewrite (route_rel_covers _ _ _ _ _ Hrel).
  destruct Hrel as (_ & _ & _ & Hsel). cbn [first].
  destruct (ar_sel y) as [b|] eqn:Ey.
  - destruct Hsel as (-> & q & -> & Hq). rewrite !andb_true_r.
    destruct (a_covers daddr y); [eauto|]. eapply IH; [done|done|lia].
  - rewrite Hsel, !andb_false_r. eapply IH; [done|done|lia].
Qed.

(** ** Clearing the table *)

Lemma clear_routes_spec fuel t ls :
  seg next (routes t) (rtable_head t) ls None -> (length ls < fuel)%nat ->
  exists h, clear_routes fuel t = Ok (set_rtable_head None (set_routes h t)) /\
    forall k, h !! k = if decide (k ∈ ls) then None else routes t !! k.
Proof.
  revert fuel t. induction ls as [|l ls IH]; intros [|fuel] t Hs Hf; simpl in Hf; try lia;
    cbn [clear_routes].
  - simpl in Hs. rewrite Hs. exists (routes t). split; [by destruct t; simpl in *; subst|].
    intros k. by rewrite decide_False by set_solver.
  - pose proof (seg_NoDup _ _ _ _ Hs) as [Hl _]%NoDup_cons.
    destruct Hs as (-> & v & Hv & Hs). mem_step.
    destruct (IH fuel (set_rtable_head (next v) (set_routes (delete l (routes t)) t)))
      as (h & -> & Hh); [by apply seg_delete_notin|lia|].
    exists h. split; [done|]. intros k. rewrite Hh. cbn [routes set_rtable_head set_routes].
    destruct (decide (k ∈ ls)); [by rewrite decide_True by set_solver|].
    destruct (decide (k = l)) as [->|].
    + rewrite lookup_delete_eq, decide_True by set_solver. done.
    + rewrite lookup_delete_ne, decide_False by set_solver. done.
Qed.

Lemma clear_selects_spec fuel t L P S :
  sels (selects t) (items t) (mptable_head t) L P S -> NoDup (concat P) ->
  (length S < fuel)%nat -> (forall ps, ps ∈ P -> length ps + length S <= fuel)%nat ->
  exists hs hi, clear_selects fuel t
      = Ok (set_mptable_head None (set_items hi (set_selects hs t))) /\
    (forall k, hs !! k = if decide (k ∈ L) then None else selects t !! k) /\
    (forall k, hi !! k = if decide (k ∈ concat P) then None else items t !! k).
Proof.
  revert fuel t P S. induction L as [|l L IH]; intros [|fuel] t [|ps P] [|[a ds] S] Hs Hnd Hf HfP;
    simpl in Hf; try (done || lia); cbn [clear_selects].
  - simpl in Hs. rewrite Hs. exists (selects t), (items t).
    split_and!; [by destruct t; simpl in *; subst|..];
      intros k; by rewrite decide_False by set_solver.
  - pose proof (seg_NoDup _ _ _ _ (sels_seg _ _ _ _ _ _ Hs)) as [Hl _]%NoDup_cons.
    cbn [concat] in Hnd. apply NoDup_app in Hnd as (_ & Hdis & Hnd).
    destruct Hs as (-> & m & Hm & _ & _ & Hd & Hs). mem_step.
    unfold mpath_clear. cbn [selects items set_mptable_head]. mem_step.
    pose proof (HfP ps ltac:(set_solver)) as Hps. simpl in Hps.
    destruct (clear_paths_spec (Datatypes.S fuel) (items t) (pathHead m) ps) as (h & -> & Hh);
      [exact (dl_seg _ _ _ _ _ _ Hd)|lia|]. mem_step.
    cbn [selects items set_mptable_head set_selects set_items release].
    rewrite lookup_insert_eq. cbn [rbind selects set_selects set_items set_mptable_head].
    rewrite delete_insert_eq.
    destruct (IH fuel (set_selects (delete l (selects t))
        (set_items h (set_selects (<[l:=set_pathHead None m]> (selects t))
           (set_mptable_head (next_select m) t)))) P S) as (hs & hi & -> & Hhs & Hhi).
    + cbn [selects items mptable_head set_selects set_items set_mptable_head].
      eapply sels_agree; [| |exact Hs].
      * intros k Hk. apply lookup_delete_ne. by intros <-.
      * intros k Hk. rewrite Hh, decide_False; [done|]. intros Hk'. by apply (Hdis k).
    + done.
    + lia.
    + intros ps' Hps'. specialize (HfP ps' ltac:(set_solver)). simpl in HfP. lia.
    + exists hs, hi. split_and!; [done| |].
      * intros k. rewrite Hhs. cbn [selects set_selects].
        destruct (decide (k ∈ L)); [by rewrite decide_True by set_solver|].
        destruct (decide (k = l)) as [->|].
        -- rewrite lookup_delete_eq, decide_True by set_solver. done.
        -- rewrite lookup_delete_ne, decide_False by set_solver. done.
      * intros k. rewrite Hhi. cbn [items set_selects set_items]. rewrite Hh. cbn [concat].
        destruct (decide (k ∈ concat P)); [by rewrite decide_True by set_solver|].
        destruct (decide (k ∈ ps)); [by rewrite decide_True by set_solver|].
        by rewrite decide_False by set_solver.
Qed.
