(* ===== verification/MpRtableTheorems.v ===== *)
(** * The properties of the routing table

    The statements a user of the table relies on, each over the refinement
    lemmas of MpRtableSpec and MpRtableProps, with a concrete run of the
    table that meets its hypotheses. *)

From stdpp Require Import base numbers list gmap.
From Stdlib Require Import ZArith Lia.
From S2P Require Import Prelude Store Float64 Dlist MpRtable MpRtableSpec MpRtableProps.

Local Open Scope Z_scope.

(** The scenario of the witnesses: two routes, two selectors with paths, the
    second route bound to selector 7. *)
Definition sample_ops : list table_op :=
  [AddItem 0x10 0xf0 5; AddMpath f0 7 1 2; AddMpath f0 9 3 4; AddItem 0x20 0xf0 6;
   Attach 0x20 0xf0 7].

Definition sample_spec : spec := fold_left (fun A o => a_op o A) sample_ops empty_spec.

Lemma sample_table_run : exists t, run_ops 20 sample_ops empty_mpRtable = Ok t /\ rep t sample_spec.
Proof.
  apply (run_ops_refines 20 sample_ops 0); [apply rep_empty| |simpl; lia].
  split_and!; simpl; (lia || constructor).
Qed.

Lemma sample_fits : fits 20 sample_spec.
Proof. split_and!; simpl; [lia|lia|]. repeat constructor; simpl; lia. Qed.

(** C1: any sequence of the table's operations other than [delete_select],
    run from an empty table, returns without a memory error, and the table it
    leaves represents the lists the sequence means: no dangling or null
    pointer is followed and every loop ends. *)
Theorem table_ops_implement_spec (fuel : nat) (os : list table_op)
    (Hfuel : (length os < fuel)%nat) :
  exists t, run_ops fuel os empty_mpRtable = Ok t /\
    rep t (fold_left (fun A o => a_op o A) os empty_spec).
Proof.
  apply (run_ops_refines fuel os 0); [apply rep_empty| |simpl; lia].
  split_and!; simpl; (lia || constructor).
Qed.

Lemma table_ops_implement_spec_witness :
  exists t, run_ops 20 sample_ops empty_mpRtable = Ok t /\
    rep t (fold_left (fun A o => a_op o A) sample_ops empty_spec).
Proof. apply table_ops_implement_spec. simpl. lia. Defined.

(** C35: [delete_select] of a selector that is in the table never returns:
    when it is the first of the list the loop reads the object it has just
    freed, otherwise it writes through a null [prev_select].  Deleting an
    absent selector leaves what the table represents unchanged. *)
Theorem delete_select_of_present_faults (fuel : nat) (a : Z) (t : mpRtable) (A : spec)
    (Hrep : rep t A) (Hfits : fits fuel A) :
  if has_sel a (a_sels A)
  then delete_select fuel a t =
         Fault (if decide (fst <$> head (a_sels A) = Some a) then Dangling else NullDeref)
  else exists t', delete_select fuel a t = Ok t' /\ rep t' A.
Proof. by apply delete_select_outcome. Qed.

Lemma delete_select_of_present_faults_witness :
  exists t, run_ops 20 sample_ops empty_mpRtable = Ok t /\
    delete_select 20 9 t = Fault Dangling /\ delete_select 20 7 t = Fault NullDeref /\
    exists t', delete_select 20 8 t = Ok t' /\ rep t' sample_spec.
Proof.
  destruct sample_table_run as (t & E & Hrep). exists t. split; [exact E|].
  split; [exact (delete_select_of_present_faults 20 9 t _ Hrep sample_fits)|].
  split; [exact (delete_select_of_present_faults 20 7 t _ Hrep sample_fits)|].
  exact (delete_select_of_present_faults 20 8 t _ Hrep sample_fits).
Defined.

(** [find_MP] and [lookup (daddr)] answer from the first route of the
    list whose segment is [daddr] under its mask, the most recently added
    one, whatever the masks: [find_MP] says whether it is bound, [lookup]
    gives its next hop, and without such a route the answers are false and
    the broadcast address. *)
Theorem lookup_is_first_covering (fuel : nat) (daddr : Z) (t : mpRtable) (A : spec)
    (Hrep : rep t A) (Hfits : fits fuel A) :
  find_MP fuel daddr t =
    Ok (match first (a_covers daddr) (a_routes A) with
        | Some r => bool_decide (is_Some (ar_sel r))
        | None => false
        end) /\
  lookup fuel daddr t =
    Ok (match first (a_covers daddr) (a_routes A) with
        | Some r => ar_hop r
        | None => broadcast_addr
        end).
Proof. split; [by apply find_MP_refines|by apply lookup_refines]. Qed.

Lemma lookup_is_first_covering_witness :
  exists t, run_ops 20 sample_ops empty_mpRtable = Ok t /\
    find_MP 20 0x25 t = Ok true /\ lookup 20 0x13 t = Ok 5 /\ lookup 20 0x35 t = Ok (-1).
Proof.
  destruct sample_table_run as (t & E & Hrep). exists t. split; [exact E|].
  split; [exact (proj1 (lookup_is_first_covering 20 0x25 t _ Hrep sample_fits))|].
  split; [exact (proj2 (lookup_is_first_covering 20 0x13 t _ Hrep sample_fits))|].
  exact (proj2 (lookup_is_first_covering 20 0x35 t _ Hrep sample_fits)).
Defined.

(** C36: a selector whose paths do not all have the interfaces of its first
    path makes the multipath lookup of every destination bound to it run
    forever: no bound on the loops is enough, because [is_alive] never moves
    past the first path. *)
Theorem multi_interface_lookup_diverges (fuel n : nat) (now : f64) (daddr : Z) (t : mpRtable)
    (A : spec) (r : aroute) (a : Z) (d0 : path_info) (ds : list path_info)
    (Hrep : rep t A) (Hroute : bound_route daddr A = Some r) (Hsel : ar_sel r = Some a)
    (Hpaths : paths_of a A = d0 :: ds)
    (Hdiff : existsb (fun d => negb (same_as d0 d)) ds = true) :
  lookup_mp_loop n fuel now daddr (rtable_head t) t = NoFuel.
Proof. by eapply lookup_mp_diverges. Qed.

Definition two_path_ops : list table_op := sample_ops ++ [AddMpath f0 7 5 6].

Lemma multi_interface_lookup_diverges_witness :
  exists t, run_ops 20 two_path_ops empty_mpRtable = Ok t /\
    lookup_mp_loop 1000 1000 f0 0x25 (rtable_head t) t = NoFuel.
Proof.
  destruct (run_ops_refines 20 two_path_ops 0 empty_mpRtable empty_spec rep_empty)
    as (t & E & Hrep).
  { split_and!; simpl; (lia || constructor). }
  { simpl. lia. }
  exists t. split; [exact E|].
  exact (multi_interface_lookup_diverges 1000 1000 f0 0x25 t _ (ARoute 0x20 0xf0 6 (Some 7)) 7
    (new_path f0 5 6) [new_path f0 1 2] Hrep eq_refl eq_refl eq_refl eq_refl).
Defined.

(** When all the paths of the selector have one pair of interfaces, the
    multipath lookup returns: the selector's address, the interfaces of its
    first path and one more selection counted on it if that path has been
    silent for longer than [ALIVE_INTERVAL], and the broadcast address
    otherwise; a path heard from recently is the one refused. *)
Theorem single_interface_lookup (fuel : nat) (now : f64) (t : mpRtable)
    (l : positive) (m : mpath) (p : positive) (ps : list positive) (d0 : path_info)
    (ds : list path_info)
    (Hm : selects t !! l = Some m) (Hd : dlist (items t) (pathHead m) (p :: ps) (d0 :: ds))
    (Hfuel : (length (d0 :: ds) < fuel)%nat)
    (Hsame : Forall (fun d => same_as d0 d = true /\ 0 <= cnt d) (d0 :: ds)) :
  exists h, select_path fuel now l t =
    Ok (if silent now d0
        then (select_addr m, Some (s_intf d0, d_intf d0), set_items h t)
        else (broadcast_addr, None, t)) /\
    dlist h (pathHead m) (p :: ps) (count_selected d0 :: ds).
Proof.
  rewrite (select_path_update _ _ _ _ _ _ _ _ _ Hm Hd Hfuel Hsame).
  destruct (update_path_op fuel count_selected (s_intf d0) (d_intf d0) t l m (p :: ps) (d0 :: ds)
    Hm Hd Hfuel) as (hd & h & ps' & E & Hd' & _ & _ & Hps).
  exists h. rewrite (Hps eq_refl) in Hd'. cbn [alter_first] in Hd'.
  assert (Hsp : same_path (s_intf d0) (d_intf d0) d0 = true)
    by (unfold same_path; by rewrite !Z.eqb_refl).
  rewrite Hsp in Hd'. pose proof Hd as [Hp _]. pose proof Hd' as [Hp' _].
  rewrite Hp. rewrite Hp' in Hd', E. split; [|done].
  destruct (silent now d0); [|done]. rewrite E. cbn [rbind]. do 3 f_equal.
  rewrite <- Hp, same_head_selects by done. by destruct t.
Qed.

(** One selector with two paths over the same interfaces, silent at time 5. *)
Definition twin_table : mpRtable :=
  match run_ops 20 [AddMpath f0 7 1 2; AddMpath f0 7 1 2] empty_mpRtable with
  | Ok t => t
  | _ => empty_mpRtable
  end.

Lemma single_interface_lookup_witness :
  exists h, select_path 20 (f64_of_Z 5) 2 twin_table
    = Ok (7, Some (1, 2), set_items h twin_table) /\
    dlist h (Some 3%positive) [3; 2]%positive [count_selected (new_path f0 1 2); new_path f0 1 2].
Proof.
  apply (single_interface_lookup 20 (f64_of_Z 5) twin_table 2
    (Mpath (Some 3%positive) 7 None None) 3 [2%positive] (new_path f0 1 2) [new_path f0 1 2]).
  - vm_compute. reflexivity.
  - cbn [dlist dl pathHead]. split; [done|]. eexists. split; [vm_compute; reflexivity|].
    split; [done|]. split; [done|]. split; [done|]. eexists.
    split; [vm_compute; reflexivity|]. split; [done|]. split; done.
  - simpl. lia.
  - repeat constructor; simpl; lia.
Defined.

(** [clear] returns and frees every route, selector and path of the
    table exactly once, touching no other object, and leaves an empty table. *)
Theorem clear_frees_everything (fuel : nat) (t : mpRtable) (A : spec) (R : list positive)
    (RD : list route_info) (L : list positive) (P : list (list positive))
    (Hrep : rep_at t A R RD L P) (Hroutes : (length (a_routes A) < fuel)%nat)
    (Hsels : (length (a_sels A) < fuel)%nat)
    (Hpaths : Forall (fun x => length x.2 + length (a_sels A) <= fuel)%nat (a_sels A)) :
  exists t', clear fuel t = Ok t' /\ rtable_head t' = None /\ mptable_head t' = None /\
    (forall k, routes t' !! k = if decide (k ∈ R) then None else routes t !! k) /\
    (forall k, selects t' !! k = if decide (k ∈ L) then None else selects t !! k) /\
    (forall k, items t' !! k = if decide (k ∈ concat P) then None else items t !! k).
Proof.
  destruct Hrep as [Hr Hs Hc Ha Hb]. unfold clear.
  destruct (clear_routes_spec fuel t R) as (h & -> & Hh).
  { exact (dl_seg _ _ _ _ _ _ Hr). }
  { by rewrite (dl_length _ _ _ _ _ _ Hr), (Forall2_length _ _ _ Hb). }
  cbn [rbind].
  destruct (clear_selects_spec fuel (set_rtable_head None (set_routes h t)) L P (a_sels A))
    as (hs & hi & -> & Hhs & Hhi); [done|done|done| |by eexists].
  intros ps Hps. apply list_elem_of_lookup in Hps as [i Hi].
  destruct (lookup_lt_is_Some_2 (a_sels A) i) as [[a ds] HSi].
  { rewrite <- (proj2 (sels_length _ _ _ _ _ _ Hs)). by eapply lookup_lt_Some. }
  rewrite Forall_forall in Hpaths. specialize (Hpaths (a, ds)).
  assert (Hlen : length ps = length ds).
  { clear - Hs Hi HSi. revert Hs Hi HSi. generalize (mptable_head t) as q.
    generalize (a_sels A) as S. revert P i.
    induction L as [|l L IH]; intros [|ps' P] i [|[b es] S] q; simpl; try done.
    intros (_ & m & _ & _ & _ & Hd & Hs). destruct i; simpl; [|by eapply IH].
    intros [= ->] [= <- <-]. exact (dl_length _ _ _ _ _ _ Hd). }
  rewrite Hlen. apply Hpaths, list_elem_of_lookup. eauto.
Qed.

Lemma clear_frees_everything_witness :
  exists t R RD L P, run_ops 20 sample_ops empty_mpRtable = Ok t /\
    rep_at t sample_spec R RD L P /\
    exists t', clear 20 t = Ok t' /\ rtable_head t' = None /\ mptable_head t' = None /\
    (forall k, routes t' !! k = if decide (k ∈ R) then None else routes t !! k) /\
    (forall k, selects t' !! k = if decide (k ∈ L) then None else selects t !! k) /\
    (forall k, items t' !! k = if decide (k ∈ concat P) then None else items t !! k).
Proof.
  destruct sample_table_run as (t & E & R & RD & L & P & Hrep). exists t, R, RD, L, P.
  split; [exact E|]. split; [exact Hrep|].
  apply (clear_frees_everything 20 t sample_spec R RD L P Hrep); simpl; [lia|lia|].
  repeat constructor; simpl; lia.
Defined.
