(* ===== verification/Packet.v ===== *)
(** * Packets (common/packet.h, common/ip.h, mpSelect/mpSelect_pkt.h)

    A packet is a block of header bits, accessed through typed views, and a
    few fields of the C++ object.  The views the modelled components use are
    records: the common header, the IP header and the mpSelect header.  The
    second half is the packet pool: [Packet::alloc], [Packet::free] and
    [refcopy] over the intrusive free list. *)

From stdpp Require Import base numbers list gmap.
From Stdlib Require Import ZArith Lia.
From S2P Require Import Prelude Store Float64.

Local Open Scope Z_scope.

(** ** Packet types *)

Definition PT_MESSAGE : Z := 13.
Definition PT_TORA : Z := 36.
Definition PT_DSR : Z := 37.
Definition PT_AODV : Z := 38.
Definition PT_AOMDV : Z := 61.
Definition PT_MDART : Z := 72.
Definition PT_MPSELECT : Z := 74.

(** [hdr_cmn::dir_t] *)
Definition DOWN : Z := -1.
Definition NONE : Z := 0.
Definition UP : Z := 1.

(** [ns_af_enum] *)
Definition NS_AF_NONE : Z := 0.
Definition NS_AF_INET : Z := 2.

Definition IP_HDR_LEN : Z := 20.
Definition IP_DEF_TTL : Z := 32.
Definition UNKN_IFACE : Z := -1.

(** ** Headers *)

(** The fields of [struct hdr_cmn] that the modelled code reads or writes. *)
Record hdr_cmn := HdrCmn {
  ptype_ : Z;
  size_ : Z;
  uid_ : Z;
  error_ : Z;
  ts_ : f64;
  iface_ : Z;
  direction_ : Z;
  next_hop_ : Z;
  last_hop_ : Z;
  addr_type_ : Z;
  num_forwards_ : Z;
}.

(** [struct hdr_ip], with the two [ns_addr_t] as their two fields each. *)
Record hdr_ip := HdrIp {
  saddr : Z;
  sport : Z;
  daddr : Z;
  dport : Z;
  ttl_ : Z;
  fid_ : Z;
  prio_ : Z;
}.

(** [struct hdr_mpSelect_pkt] *)
Record hdr_mpSelect := HdrMpSelect {
  mps_type : Z;
  former_addr : Z;
  former_port : Z;
  former_ptype : Z;
  send_time : f64;
  mps_s_intf : Z;
  mps_d_intf : Z;
  s_select : Z;
  d_select : Z;
  mps_ping_seq : Z;
}.

(** The header bits of a packet. *)
Record headers := Headers { cmn : hdr_cmn; ip : hdr_ip; mps : hdr_mpSelect }.

(** [bzero (p->bits_, hdrlen_)] *)
Definition zero_headers : headers :=
  Headers (HdrCmn 0 0 0 0 f0 0 0 0 0 0 0) (HdrIp 0 0 0 0 0 0 0)
    (HdrMpSelect 0 0 0 0 f0 0 0 0 0 0).

Definition set_ptype x h := HdrCmn x (size_ h) (uid_ h) (error_ h) (ts_ h) (iface_ h)
  (direction_ h) (next_hop_ h) (last_hop_ h) (addr_type_ h) (num_forwards_ h).
Definition set_size x h := HdrCmn (ptype_ h) x (uid_ h) (error_ h) (ts_ h) (iface_ h)
  (direction_ h) (next_hop_ h) (last_hop_ h) (addr_type_ h) (num_forwards_ h).
Definition set_ts x h := HdrCmn (ptype_ h) (size_ h) (uid_ h) (error_ h) x (iface_ h)
  (direction_ h) (next_hop_ h) (last_hop_ h) (addr_type_ h) (num_forwards_ h).
Definition set_direction x h := HdrCmn (ptype_ h) (size_ h) (uid_ h) (error_ h) (ts_ h)
  (iface_ h) x (next_hop_ h) (last_hop_ h) (addr_type_ h) (num_forwards_ h).
Definition set_next_hop x h := HdrCmn (ptype_ h) (size_ h) (uid_ h) (error_ h) (ts_ h)
  (iface_ h) (direction_ h) x (last_hop_ h) (addr_type_ h) (num_forwards_ h).
Definition set_addr_type x h := HdrCmn (ptype_ h) (size_ h) (uid_ h) (error_ h) (ts_ h)
  (iface_ h) (direction_ h) (next_hop_ h) (last_hop_ h) x (num_forwards_ h).
Definition set_error x h := HdrCmn (ptype_ h) (size_ h) (uid_ h) x (ts_ h) (iface_ h)
  (direction_ h) (next_hop_ h) (last_hop_ h) (addr_type_ h) (num_forwards_ h).

Definition set_saddr x h := HdrIp x (sport h) (daddr h) (dport h) (ttl_ h) (fid_ h) (prio_ h).
Definition set_sport x h := HdrIp (saddr h) x (daddr h) (dport h) (ttl_ h) (fid_ h) (prio_ h).
Definition set_daddr x h := HdrIp (saddr h) (sport h) x (dport h) (ttl_ h) (fid_ h) (prio_ h).
Definition set_dport x h := HdrIp (saddr h) (sport h) (daddr h) x (ttl_ h) (fid_ h) (prio_ h).
Definition set_ttl x h := HdrIp (saddr h) (sport h) (daddr h) (dport h) x (fid_ h) (prio_ h).

Definition on_cmn f h := Headers (f (cmn h)) (ip h) (mps h).
Definition on_ip f h := Headers (cmn h) (f (ip h)) (mps h).
Definition on_mps f h := Headers (cmn h) (ip h) (f (mps h)).

(** ** The packet pool *)

(** The members of [Packet] (and of its base [Event]) that the pool uses.
    [data_] is the user data, [None] for the null pointer; the data object
    itself is opaque. *)
Record packet := Packet {
  bits_ : headers;
  data_ : option Z;
  fflag_ : bool;
  ref_count_ : Z;
  pnext_ : option positive;
  ev_uid_ : Z;
  ev_time_ : f64;
}.

Record pool := Pool { free_ : option positive; pkts : gmap positive packet }.

(** [init (p)] and the header fields [alloc] sets. *)
Definition fresh_headers : headers :=
  Headers (HdrCmn 0 0 0 0 f0 0 DOWN (-2) (-2) 0 0) (ip zero_headers) (mps zero_headers).

Definition packet_alloc (s : pool) : result (positive * pool) :=
  match free_ s with
  | Some p =>
      let! v := load (pkts s) (Some p) in
      let! _ := assert_that (negb (fflag_ v)) in
      let! _ := assert_that (bool_decide (data_ v = None)) in
      let v' := Packet fresh_headers (data_ v) true (ref_count_ v) None 0 f0 in
      Ok (p, Pool (pnext_ v) (<[p := v']> (pkts s)))
  | None =>
      let '(p, h) := alloc (pkts s) (Packet fresh_headers None true 0 None 0 f0) in
      Ok (p, Pool None h)
  end.

Definition packet_refcopy (p : positive) (s : pool) : result pool :=
  let! h := store (pkts s) (Some p)
    (fun v => Packet (bits_ v) (data_ v) (fflag_ v) (wrap_i32 (ref_count_ v + 1)) (pnext_ v)
                (ev_uid_ v) (ev_time_ v)) in
  Ok (Pool (free_ s) h).

(** [Packet::free]; deleting the options of a DCCP header touches no other
    packet, and the header bits are cleared in any case. *)
Definition packet_free (p : positive) (s : pool) : result pool :=
  let! v := load (pkts s) (Some p) in
  if fflag_ v then
    if ref_count_ v =? 0 then
      let! _ := assert_that (ev_uid_ v <=? 0) in
      let v' := Packet zero_headers None false (ref_count_ v) (free_ s) (ev_uid_ v) (ev_time_ v) in
      Ok (Pool (Some p) (<[p := v']> (pkts s)))
    else
      let v' := Packet (bits_ v) (data_ v) (fflag_ v) (wrap_i32 (ref_count_ v - 1)) (pnext_ v)
                  (ev_uid_ v) (ev_time_ v) in
      Ok (Pool (free_ s) (<[p := v']> (pkts s)))
  else Ok s.

(** The packets on the free list are exactly the ones not in use, and they
    hold neither data nor references. *)
Definition pool_ok (s : pool) : Prop :=
  exists F, seg pnext_ (pkts s) (free_ s) F None /\
    forall p v, pkts s !! p = Some v ->
      (p ∈ F <-> fflag_ v = false) /\
      (fflag_ v = false -> data_ v = None /\ ref_count_ v = 0) /\
      0 <= ref_count_ v < 2 ^ 31.

Definition in_use (s : pool) (p : positive) : Prop :=
  exists v, pkts s !! p = Some v /\ fflag_ v = true.

Definition empty_pool : pool := Pool None ∅.

Lemma empty_pool_ok : pool_ok empty_pool.
Proof. exists []. split; [done|]. intros p v. cbn. by rewrite lookup_empty. Qed.

(** Updating a packet that stays off the free list. *)
Lemma pool_ok_update_used s p v v' :
  pool_ok s -> pkts s !! p = Some v -> fflag_ v = true -> fflag_ v' = true ->
  0 <= ref_count_ v' < 2 ^ 31 -> pool_ok (Pool (free_ s) (<[p := v']> (pkts s))).
Proof.
  intros (F & Hseg & HF) Hv Hu Hu' Hc. exists F. cbn [free_ pkts].
  assert (Hp : p ∉ F) by (rewrite (proj1 (HF p v Hv)); congruence).
  split; [by apply seg_insert_notin|]. intros q w Hw.
  destruct (decide (p = q)) as [<-|Hne].
  - rewrite lookup_insert_eq in Hw. injection Hw as <-.
    split_and!; [split; [done|congruence]|congruence|lia|lia].
  - rewrite lookup_insert_ne in Hw by done. by apply HF.
Qed.

Lemma packet_alloc_spec s :
  pool_ok s ->
  exists p s', packet_alloc s = Ok (p, s') /\ ~ in_use s p /\ pool_ok s' /\
    (exists v, pkts s' !! p = Some v /\ fflag_ v = true /\ bits_ v = fresh_headers /\
       data_ v = None /\ ref_count_ v = 0 /\ ev_uid_ v = 0) /\
    forall q, q <> p -> pkts s' !! q = pkts s !! q.
Proof.
  intros (F & Hseg & HF). unfold packet_alloc.
  destruct (free_ s) as [p|] eqn:Efree.
  - destruct F as [|k F]; [by simpl in Hseg|]. pose proof (seg_NoDup _ _ _ _ Hseg) as Hnd.
    apply NoDup_cons in Hnd as [HpF Hnd].
    destruct Hseg as ([= <-] & v & Hv & Hseg). destruct (HF _ _ Hv) as (Hin & Hz & Hc).
    assert (Hff : fflag_ v = false) by (apply Hin; set_solver).
    destruct (Hz Hff) as [Hd Hr]. cbn [load]. rewrite Hv. cbn [rbind].
    rewrite Hff, Hd. cbn [negb assert_that rbind]. rewrite bool_decide_eq_true_2 by done.
    cbn [assert_that rbind]. do 2 eexists. split; [done|]. split_and!.
    + intros (w & Hw & Hfw). congruence.
    + exists F. cbn [free_ pkts]. split; [by apply seg_insert_notin|].
      intros q w Hw. destruct (decide (p = q)) as [<-|Hne].
      * rewrite lookup_insert_eq in Hw. injection Hw as <-. cbn. rewrite Hr.
        split_and!; [split; [done|done]|done|lia|lia].
      * rewrite lookup_insert_ne in Hw by done. destruct (HF _ _ Hw) as (Hq & ? & ?).
        split_and!; try tauto. rewrite <- Hq. set_solver.
    + eexists. cbn [pkts]. rewrite lookup_insert_eq. split_and!; done.
    + intros q Hq. cbn [pkts]. by apply lookup_insert_ne.
  - assert (F = []) as -> by (destruct F; [done|by destruct Hseg]).
    cbn [alloc]. do 2 eexists. split; [done|]. split_and!.
    + intros (w & Hw & _). by rewrite fresh_loc_None in Hw.
    + exists []. split; [done|]. cbn [pkts]. intros q w Hw.
      destruct (decide (fresh_loc (pkts s) = q)) as [<-|Hne].
      * rewrite lookup_insert_eq in Hw. injection Hw as <-. cbn.
        split_and!; [split; [set_solver|done]|done|lia|lia].
      * rewrite lookup_insert_ne in Hw by done. by apply HF.
    + eexists. cbn [pkts]. rewrite lookup_insert_eq. split_and!; done.
    + intros q Hq. cbn [pkts]. by apply lookup_insert_ne.
Qed.

Lemma packet_free_used s p v :
  pool_ok s -> pkts s !! p = Some v -> fflag_ v = true -> ref_count_ v = 0 -> ev_uid_ v <= 0 ->
  exists s', packet_free p s = Ok s' /\ pool_ok s' /\ ~ in_use s' p /\ free_ s' = Some p /\
    forall q, q <> p -> pkts s' !! q = pkts s !! q.
Proof.
  intros (F & Hseg & HF) Hv Hu Hr Hev. unfold packet_free. mem_step.
  rewrite Hu, Hr, Z.eqb_refl. cbn [assert_that]. rewrite (proj2 (Z.leb_le _ _) Hev).
  cbn [assert_that rbind]. eexists. split; [done|].
  assert (Hp : p ∉ F) by (rewrite (proj1 (HF p v Hv)); congruence).
  split_and!; [|unfold in_use; cbn [pkts]; rewrite lookup_insert_eq; naive_solver|done|].
  - exists (p :: F). cbn [free_ pkts]. split.
    + split; [done|]. eexists. rewrite lookup_insert_eq. split; [done|].
      by apply seg_insert_notin.
    + intros q w Hw. destruct (decide (p = q)) as [<-|Hne].
      * rewrite lookup_insert_eq in Hw. injection Hw as <-. cbn.
        split_and!; [split; [done|set_solver]|done|lia|lia].
      * rewrite lookup_insert_ne in Hw by done. destruct (HF _ _ Hw) as (Hq & ? & ?).
        split_and!; try tauto. rewrite <- Hq. set_solver.
  - intros q Hq. cbn [pkts]. by apply lookup_insert_ne.
Qed.

(** ** Lifetimes *)

(** [n] runs of an operation on one packet. *)
Fixpoint repeat_op (n : nat) (op : pool -> result pool) (s : pool) : result pool :=
  match n with
  | O => Ok s
  | S n' => let! s' := op s in repeat_op n' op s'
  end.

Definition with_ref (c : Z) (v : packet) : packet :=
  Packet (bits_ v) (data_ v) (fflag_ v) c (pnext_ v) (ev_uid_ v) (ev_time_ v).

Lemma with_ref_id v : with_ref (ref_count_ v) v = v.
Proof. by destruct v. Qed.

Lemma repeat_refcopy n s p v :
  pkts s !! p = Some v -> 0 <= ref_count_ v -> ref_count_ v + Z.of_nat n < 2 ^ 31 ->
  repeat_op n (packet_refcopy p) s
    = Ok (Pool (free_ s) (<[p := with_ref (ref_count_ v + Z.of_nat n) v]> (pkts s))).
Proof.
  revert s v. induction n as [|n IH]; intros s v Hv H0 Hn; cbn [repeat_op].
  - rewrite Z.add_0_r, with_ref_id, insert_id by done. by destruct s.
  - unfold packet_refcopy at 1. mem_step. rewrite wrap_i32_id by (unfold in_i32; lia).
    erewrite IH; cbn [pkts free_ ref_count_]; [|apply lookup_insert_eq|cbn; lia|cbn; lia].
    rewrite insert_insert_eq. unfold with_ref. cbn. do 4 f_equal. lia.
Qed.

Lemma repeat_free n s p v :
  pkts s !! p = Some v -> fflag_ v = true -> Z.of_nat n <= ref_count_ v < 2 ^ 31 ->
  repeat_op n (packet_free p) s
    = Ok (Pool (free_ s) (<[p := with_ref (ref_count_ v - Z.of_nat n) v]> (pkts s))).
Proof.
  revert s v. induction n as [|n IH]; intros s v Hv Hu Hn; cbn [repeat_op].
  - rewrite Z.sub_0_r, with_ref_id, insert_id by done. by destruct s.
  - unfold packet_free at 1. mem_step. rewrite Hu, (proj2 (Z.eqb_neq (ref_count_ v) 0)) by lia.
    cbn [rbind]. rewrite wrap_i32_id by (unfold in_i32; lia).
    erewrite IH; cbn [pkts free_ ref_count_ fflag_]; [|apply lookup_insert_eq|done|cbn; lia].
    rewrite insert_insert_eq. unfold with_ref. cbn. rewrite Hu. do 4 f_equal. lia.
Qed.

(** [Packet::alloc] returns a packet that nobody is using, with cleared
    headers, no data and no extra reference, changes no other packet, never
    fails its assertions, and keeps the free list equal to the set of packets
    not in use. *)
Theorem packet_alloc_is_fresh (s : pool) (Hok : pool_ok s) :
  exists p s', packet_alloc s = Ok (p, s') /\ ~ in_use s p /\ in_use s' p /\ pool_ok s' /\
    (exists v, pkts s' !! p = Some v /\ bits_ v = fresh_headers /\ data_ v = None /\
       ref_count_ v = 0) /\
    forall q, q <> p -> pkts s' !! q = pkts s !! q.
Proof.
  destruct (packet_alloc_spec s Hok) as (p & s' & E & H1 & H2 & (v & Hv & H3 & H4 & H5 & H6 & _) & H7).
  exists p, s'. split_and!; try done; by exists v.
Qed.

Lemma packet_alloc_is_fresh_witness :
  exists p s', packet_alloc empty_pool = Ok (p, s') /\ in_use s' p /\ pool_ok s'.
Proof.
  destruct (packet_alloc_is_fresh empty_pool empty_pool_ok) as (p & s' & E & _ & H1 & H2 & _).
  exists p, s'. split; [exact E|]. split; [exact H1|exact H2].
Defined.

(** A packet with [n] extra references survives exactly [n] calls of
    [Packet::free] with its contents, and the next call puts it on the free
    list; a further call does nothing, so a double free is harmless. *)
Theorem packet_outlives_references (n : nat) (s : pool) (p : positive) (v : packet)
    (Hok : pool_ok s) (Hv : pkts s !! p = Some v) (Hused : fflag_ v = true)
    (Href : ref_count_ v = 0) (Hn : Z.of_nat n < 2 ^ 31) (Hev : ev_uid_ v <= 0) :
  exists s1 s2 s3, repeat_op n (packet_refcopy p) s = Ok s1 /\
    repeat_op n (packet_free p) s1 = Ok s2 /\ pkts s2 !! p = Some v /\ pool_ok s2 /\
    packet_free p s2 = Ok s3 /\ ~ in_use s3 p /\ pool_ok s3 /\ packet_free p s3 = Ok s3.
Proof.
  assert (Hv0 : with_ref 0 v = v) by (destruct v; cbn in *; by subst).
  pose proof (repeat_refcopy n s p v Hv ltac:(lia) ltac:(lia)) as E1.
  set (v1 := with_ref (ref_count_ v + Z.of_nat n) v) in *.
  assert (E2 := repeat_free n (Pool (free_ s) (<[p := v1]> (pkts s))) p v1
    (lookup_insert_eq _ _ _) Hused ltac:(cbn; lia)).
  cbn [free_ pkts] in E2. rewrite insert_insert_eq in E2.
  replace (with_ref (ref_count_ v1 - Z.of_nat n) v1) with v in E2
    by (rewrite <- Hv0 at 1; unfold v1, with_ref; cbn; f_equal; lia).
  rewrite (insert_id (pkts s) p v) in E2 by done. destruct s as [f m]. cbn [free_ pkts] in *.
  destruct (packet_free_used _ p v Hok Hv Hused Href Hev) as (s3 & E3 & Hok3 & Hnu & _).
  eexists _, _, s3. split_and!; [exact E1|exact E2|done|done|done|done|done|].
  unfold packet_free in E3 |- *. cbn [pkts] in E3. revert E3. mem_step.
  rewrite Hused, Href, Z.eqb_refl, (proj2 (Z.leb_le _ _) Hev). cbn [assert_that rbind].
  intros [= <-]. cbn [pkts load]. by rewrite lookup_insert_eq.
Qed.

Lemma packet_outlives_references_witness :
  exists p s, packet_alloc empty_pool = Ok (p, s) /\
    exists s1 s2 s3, repeat_op 2 (packet_refcopy p) s = Ok s1 /\
      repeat_op 2 (packet_free p) s1 = Ok s2 /\ packet_free p s2 = Ok s3 /\ ~ in_use s3 p /\
      packet_free p s3 = Ok s3.
Proof.
  destruct (packet_alloc_spec empty_pool empty_pool_ok)
    as (p & s & E & _ & Hok & (v & Hv & Hu & _ & _ & Hr & He) & _).
  exists p, s. split; [exact E|].
  destruct (packet_outlives_references 2 s p v Hok Hv Hu Hr ltac:(lia) ltac:(lia))
    as (s1 & s2 & s3 & H1 & H2 & _ & _ & H3 & H4 & _ & H5).
  exists s1, s2, s3. split; [exact H1|]. split; [exact H2|]. split; [exact H3|].
  split; [exact H4|exact H5].
Defined.
