(* ===== verification/PacketQueue.v ===== *)
(** * FIFO packet queues (queue/queue.h, queue/queue.cc)

    [PacketQueue] links packets through their own [next_] member, the one
    the free list of the packet pool uses too.  The queue keeps a head and a
    tail pointer and two counters.  [pq_rep] relates it to the list of the
    packets it holds, in order; every operation is shown to implement the
    list operation it stands for, to keep both counters, and to write to no
    packet outside the queue but the one it is given. *)

From stdpp Require Import base numbers list gmap.
From Stdlib Require Import ZArith Lia Bool.
From S2P Require Import Prelude.
From S2P Require Import Store.
From S2P Require Import Float64.
From S2P Require Import Packet.
Open Scope Z_scope.

Abbreviation heap := (gmap positive packet) (only parsing).

Record PacketQueue := mkPacketQueue {
  head_ : option positive;
  tail_ : option positive;
  len_ : Z;
  bytes_ : Z;
  iter_ : option positive;   (** [iter], not set by the constructor *)
}.

Definition set_pnext (x : option positive) (v : packet) : packet :=
  Packet (bits_ v) (data_ v) (fflag_ v) (ref_count_ v) x (ev_uid_ v) (ev_time_ v).

(** [hdr_cmn::access (p)->size ()] *)
Definition pk_size (v : packet) : Z := size_ (cmn (bits_ v)).

Definition pq_new : PacketQueue := mkPacketQueue None None 0 0 None.

Definition pq_length (q : PacketQueue) : Z := len_ q.
Definition pq_byteLength (q : PacketQueue) : Z := bytes_ q.

(** [enque]: returns the previous tail. *)
Definition pq_enque (p : positive) (q : PacketQueue) (h : heap)
  : result (option positive * PacketQueue * heap) :=
  let pt := tail_ q in
  let! '(hd, tl, h) :=
    match tail_ q with
    | None => Ok (Some p, Some p, h)
    | Some t => let! h := store h (Some t) (set_pnext (Some p)) in Ok (head_ q, Some p, h)
    end in
  let! h := store h tl (set_pnext None) in
  let len := wrap_i32 (len_ q + 1) in
  let! v := load h (Some p) in
  Ok (pt, mkPacketQueue hd tl len (wrap_i32 (bytes_ q + pk_size v)) (iter_ q), h).

Definition pq_deque (q : PacketQueue) (h : heap) : result (option positive * PacketQueue) :=
  match head_ q with
  | None => Ok (None, q)
  | Some p =>
      let! v := load h (Some p) in
      let '(hd, tl) :=
        if bool_decide (Some p = tail_ q) then (None, None) else (pnext_ v, tail_ q) in
      Ok (Some p, mkPacketQueue hd tl (wrap_i32 (len_ q - 1)) (wrap_i32 (bytes_ q - pk_size v))
                    (iter_ q))
  end.

(** The loop of [lookup]: [if (--n < 0) return p]. *)
Fixpoint lookup_loop (fuel : nat) (n : Z) (p : option positive) (h : heap)
  : result (option positive) :=
  match fuel with
  | O => NoFuel
  | S fuel =>
      match p with
      | None => Ok None
      | Some l =>
          let n := wrap_i32 (n - 1) in
          if n <? 0 then Ok (Some l)
          else let! v := load h (Some l) in lookup_loop fuel n (pnext_ v) h
      end
  end.

Definition pq_lookup (fuel : nat) (n : Z) (q : PacketQueue) (h : heap)
  : result (option positive) :=
  lookup_loop fuel n (head_ q) h.

(** The loop of [remove (target)], with the trailing pointer [pp]. *)
Fixpoint remove_loop (fuel : nat) (target : positive) (pp p : option positive)
    (q : PacketQueue) (h : heap) : result (PacketQueue * heap) :=
  match fuel with
  | O => NoFuel
  | S fuel =>
      match p with
      | None => Fault Aborted
      | Some l =>
          let! v := load h (Some l) in
          if bool_decide (l = target) then
            match pp with
            | None => let! '(_, q) := pq_deque q h in Ok (q, h)
            | Some _ =>
                let tl := if bool_decide (Some l = tail_ q) then pp else tail_ q in
                let! h := store h pp (set_pnext (pnext_ v)) in
                Ok (mkPacketQueue (head_ q) tl (wrap_i32 (len_ q - 1))
                      (wrap_i32 (bytes_ q - pk_size v)) (iter_ q), h)
            end
          else remove_loop fuel target (Some l) (pnext_ v) q h
      end
  end.

Definition pq_remove (fuel : nat) (target : positive) (q : PacketQueue) (h : heap)
  : result (PacketQueue * heap) :=
  remove_loop fuel target None (head_ q) q h.

(** [remove (pkt, prev)] *)
Definition pq_remove_after (pkt prev : option positive) (q : PacketQueue) (h : heap)
  : result (PacketQueue * heap) :=
  match pkt with
  | None => Ok (q, h)
  | Some l =>
      if bool_decide (head_ q = Some l) then
        let! '(_, q) := pq_deque q h in Ok (q, h)
      else
        let! v := load h (Some l) in
        let! h := store h prev (set_pnext (pnext_ v)) in
        let tl := if bool_decide (tail_ q = Some l) then prev else tail_ q in
        let! v := load h (Some l) in
        Ok (mkPacketQueue (head_ q) tl (wrap_i32 (len_ q - 1))
              (wrap_i32 (bytes_ q - pk_size v)) (iter_ q), h)
  end.

Definition pq_enqueHead (p : positive) (q : PacketQueue) (h : heap)
  : result (PacketQueue * heap) :=
  let tl := match head_ q with None => Some p | Some _ => tail_ q end in
  let! h := store h (Some p) (set_pnext (head_ q)) in
  let! v := load h (Some p) in
  Ok (mkPacketQueue (Some p) tl (wrap_i32 (len_ q + 1)) (wrap_i32 (bytes_ q + pk_size v))
        (iter_ q), h).

Definition pq_resetIterator (q : PacketQueue) : PacketQueue :=
  mkPacketQueue (head_ q) (tail_ q) (len_ q) (bytes_ q) (head_ q).

Definition pq_getNext (q : PacketQueue) (h : heap) : result (option positive * PacketQueue) :=
  match iter_ q with
  | None => Ok (None, q)
  | Some p =>
      let! v := load h (Some p) in
      Ok (Some p, mkPacketQueue (head_ q) (tail_ q) (len_ q) (bytes_ q) (pnext_ v))
  end.

(** ** Representation *)

(** The size of a packet of the store, 0 for an address that holds none. *)
Definition size_at (h : heap) (l : positive) : Z :=
  match h !! l with Some v => pk_size v | None => 0 end.

Definition total_size (h : heap) (ls : list positive) : Z :=
  foldr (fun l n => size_at h l + n) 0 ls.

(** [q] holds the packets [ls], in that order.  The counters are the C++
    ones: they agree with the list modulo 2^32, and exactly as long as the
    list fits in an [int]. *)
Record pq_rep (h : heap) (q : PacketQueue) (ls : list positive) : Prop := {
  rep_links : seg pnext_ h (head_ q) ls None;
  rep_tail : tail_ q = last ls;
  rep_len : len_ q = wrap_i32 (Z.of_nat (length ls));
  rep_bytes : bytes_ q = wrap_i32 (total_size h ls);
}.

(** Two stores that give the packets of [ls] the same link and size. *)
Definition agree_on (ls : list positive) (h h' : heap) : Prop :=
  forall l, l ∈ ls -> h' !! l = h !! l.

(** [h'] differs from [h] by the link fields of packets of [ls] only. *)
Definition relinked (ls : list positive) (h h' : heap) : Prop :=
  (forall l, l ∉ ls -> h' !! l = h !! l) /\
  (forall l, set_pnext None <$> h' !! l = set_pnext None <$> h !! l).

Lemma relinked_refl ls h : relinked ls h h.
Proof. done. Qed.

Lemma relinked_trans ls ls' h1 h2 h3 :
  relinked ls h1 h2 -> relinked ls' h2 h3 -> relinked (ls ++ ls') h1 h3.
Proof.
  intros [A B] [C D]. split.
  - intros l Hl. rewrite C, A; set_solver.
  - intros l. by rewrite D.
Qed.

Lemma relinked_mono ls ls' h h' :
  (forall l, l ∈ ls -> l ∈ ls') -> relinked ls h h' -> relinked ls' h h'.
Proof. intros Hs [A B]. split; [|done]. intros l Hl. apply A. auto. Qed.

Lemma relinked_set ls h l v x :
  l ∈ ls -> h !! l = Some v -> relinked ls h (<[l := set_pnext x v]> h).
Proof.
  intros Hin Hv. split; intros k.
  - intros Hk. rewrite lookup_insert_ne; [done|]. by intros <-.
  - destruct (decide (l = k)) as [<-|]; [|by rewrite lookup_insert_ne].
    by rewrite lookup_insert_eq, Hv.
Qed.

(** Relinking keeps every member of a packet but its link. *)
Lemma relinked_bits ls h h' l v :
  relinked ls h h' -> h !! l = Some v -> exists x, h' !! l = Some (set_pnext x v).
Proof.
  intros [_ B] Hv. specialize (B l). rewrite Hv in B.
  destruct (h' !! l) as [w|]; simpl in B; [|done]. injection B as ????? ?.
  exists (pnext_ w). by destruct w, v; simplify_eq/=.
Qed.

Lemma relinked_size ls h h' l : relinked ls h h' -> size_at h' l = size_at h l.
Proof.
  intros R. unfold size_at. destruct (h !! l) as [v|] eqn:Hv.
  - by destruct (relinked_bits _ _ _ _ _ R Hv) as (x & ->).
  - destruct R as [_ B]. specialize (B l). rewrite Hv in B. by destruct (h' !! l).
Qed.

Lemma relinked_total ls h h' ks : relinked ls h h' -> total_size h' ks = total_size h ks.
Proof.
  intros R. induction ks as [|k ks IH]; simpl; [done|]. by rewrite IH, (relinked_size _ _ _ _ R).
Qed.

Lemma agree_total ls h h' : agree_on ls h h' -> total_size h' ls = total_size h ls.
Proof.
  induction ls as [|l ls IH]; simpl; intros A; [done|]. rewrite IH.
  - unfold size_at. rewrite A by set_solver. done.
  - intros k Hk. apply A. set_solver.
Qed.

Lemma total_size_app h xs ys : total_size h (xs ++ ys) = total_size h xs + total_size h ys.
Proof. induction xs; simpl; lia. Qed.

Lemma total_size_perm h xs ys : xs ≡ₚ ys -> total_size h xs = total_size h ys.
Proof. induction 1; simpl; lia. Qed.

(** A queue whose packets are left alone is left alone. *)
Lemma pq_rep_agree h h' q ls : agree_on ls h h' -> pq_rep h q ls -> pq_rep h' q ls.
Proof.
  intros A []. split; [|done|done|by rewrite (agree_total _ _ _ A)].
  eapply seg_agree; [|done]. intros l Hl. by rewrite A.
Qed.

Lemma relinked_agree ls ks h h' :
  relinked ls h h' -> (forall l, l ∈ ks -> l ∉ ls) -> agree_on ks h h'.
Proof. intros [A _] Hd l Hl. auto. Qed.

Lemma pq_rep_new h : pq_rep h pq_new [].
Proof. done. Qed.

Lemma pq_rep_NoDup h q ls : pq_rep h q ls -> NoDup ls.
Proof. intros []. by eapply seg_NoDup. Qed.

Lemma pq_rep_lookup h q ls l : pq_rep h q ls -> l ∈ ls -> is_Some (h !! l).
Proof. intros [] Hl. edestruct (@seg_lookup packet); eauto. Qed.

Lemma pq_rep_head h q ls : pq_rep h q ls -> head_ q = head ls.
Proof. intros []. by eapply seg_head. Qed.

Lemma size_at_Some h l v : h !! l = Some v -> size_at h l = pk_size v.
Proof. unfold size_at. by intros ->. Qed.

(** ** The operations *)

Lemma pq_enque_spec p v q h ls :
  pq_rep h q ls -> p ∉ ls -> h !! p = Some v ->
  exists q' h', pq_enque p q h = Ok (last ls, q', h') /\
    pq_rep h' q' (ls ++ [p]) /\ relinked (ls ++ [p]) h h' /\ iter_ q' = iter_ q.
Proof.
  intros Hr Hp Hv. pose proof Hr as [Hs Ht Hl Hb]. unfold pq_enque. rewrite Ht.
  destruct (last ls) as [t|] eqn:El.
  - apply last_Some in El as (ks & ->).
    assert (Hnd := pq_rep_NoDup _ _ _ Hr). apply seg_snoc in Hs as (w & Hs & Hw & Hn).
    assert (Hne : t <> p) by set_solver.
    assert (Htk : t ∉ ks) by (apply NoDup_app in Hnd; set_solver).
    cbn [rbind]. rewrite (store_Some _ _ _ _ Hw). cbn [rbind].
    rewrite (store_Some _ _ v) by (by rewrite lookup_insert_ne). cbn [rbind].
    set (h' := <[p := _]> _).
    assert (R : relinked ((ks ++ [t]) ++ [p]) h h').
    { eapply (relinked_mono ([t] ++ [p])); [set_solver|]. eapply relinked_trans.
      - by apply relinked_set; [left|].
      - apply relinked_set; [left|]. by rewrite lookup_insert_ne. }
    unfold load. unfold h' at 1. rewrite lookup_insert_eq. cbn [rbind].
    eexists _, h'. split; [done|]. split_and!; [split; cbn| |done].
    + apply seg_snoc. exists (set_pnext None v). unfold h'.
      rewrite lookup_insert_eq. split_and!; [|done|done].
      apply seg_insert_notin; [set_solver|]. apply seg_snoc.
      exists (set_pnext (Some p) w). rewrite lookup_insert_eq. split_and!; [|done|done].
      by apply seg_insert_notin.
    + by rewrite last_snoc.
    + rewrite Hl, wrap_i32_add. f_equal. rewrite (length_app _ [p]). simpl. lia.
    + rewrite Hb, wrap_i32_add, (relinked_total _ _ _ _ R), (total_size_app _ _ [p]). simpl.
      rewrite (size_at_Some _ _ _ Hv). f_equal. unfold pk_size. simpl. lia.
    + done.
  - apply last_None in El as ->. cbn [rbind]. rewrite (store_Some _ _ _ _ Hv). cbn [rbind].
    unfold load. rewrite lookup_insert_eq. cbn [rbind]. eexists _, _. split; [done|].
    assert (R : relinked [p] h (<[p := set_pnext None v]> h))
      by (by apply relinked_set; [left|]).
    split_and!; [split; cbn|done|done].
    + split; [done|]. eexists. by rewrite lookup_insert_eq.
    + done.
    + by rewrite Hl, wrap_i32_add.
    + rewrite Hb, wrap_i32_add, (relinked_size _ _ _ _ R), (size_at_Some _ _ _ Hv). f_equal.
      unfold pk_size. simpl. lia.
Qed.

Lemma pq_deque_nil q h : pq_rep h q [] -> pq_deque q h = Ok (None, q).
Proof. intros [Hs _ _ _]. simpl in Hs. unfold pq_deque. by rewrite Hs. Qed.

Lemma pq_deque_cons q h l ls :
  pq_rep h q (l :: ls) ->
  exists q', pq_deque q h = Ok (Some l, q') /\ pq_rep h q' ls /\ iter_ q' = iter_ q.
Proof.
  intros Hr. pose proof (pq_rep_NoDup _ _ _ Hr) as Hnd. destruct Hr as [Hs Ht Hl Hb].
  destruct Hs as [Hh (v & Hv & Hs)]. unfold pq_deque. rewrite Hh, (load_Some _ _ _ Hv).
  cbn [rbind]. rewrite Ht.
  assert (Hlen : wrap_i32 (len_ q - 1) = wrap_i32 (Z.of_nat (length ls))).
  { rewrite Hl, wrap_i32_sub. f_equal. simpl. lia. }
  assert (Hby : wrap_i32 (bytes_ q - pk_size v) = wrap_i32 (total_size h ls)).
  { rewrite Hb, wrap_i32_sub. f_equal. simpl. rewrite (size_at_Some _ _ _ Hv). lia. }
  destruct ls as [|k ls].
  - rewrite bool_decide_eq_true_2 by done. eexists. split; [done|]. done.
  - rewrite bool_decide_eq_false_2.
    + eexists. split; [done|]. split; [|done]. by split; cbn.
    + rewrite last_cons_cons. intros Hl'. symmetry in Hl'. apply last_Some_elem_of in Hl'.
      by apply NoDup_cons in Hnd as [? _].
Qed.

(** Cutting the packet after [pp] out of the chain. *)
Lemma pq_cut q h pre pp l post w v :
  pq_rep h q (pre ++ pp :: l :: post) -> h !! pp = Some w -> h !! l = Some v ->
  pq_rep (<[pp := set_pnext (pnext_ v) w]> h)
    (mkPacketQueue (head_ q) (if bool_decide (Some l = tail_ q) then Some pp else tail_ q)
       (wrap_i32 (len_ q - 1)) (wrap_i32 (bytes_ q - pk_size v)) (iter_ q))
    (pre ++ pp :: post) /\
  relinked (pre ++ pp :: post) h (<[pp := set_pnext (pnext_ v) w]> h).
Proof.
  intros Hr Hw Hv. pose proof (pq_rep_NoDup _ _ _ Hr) as Hnd. destruct Hr as [Hs Ht Hl Hb].
  apply seg_app in Hs as (r & Hs1 & -> & w' & Hw' & [Hn (v' & Hv' & Hs2)]).
  assert (w' = w) as -> by congruence. assert (v' = v) as -> by congruence.
  assert (R : relinked (pre ++ pp :: post) h (<[pp := set_pnext (pnext_ v) w]> h)).
  { apply relinked_set; [|done]. set_solver. }
  split; [|done]. apply NoDup_app in Hnd as (_ & Hd & (Hpp & Hnd)%NoDup_cons).
  apply NoDup_cons in Hnd as [Hl' Hnd]. split; cbn.
  - apply seg_app. exists (Some pp). split.
    + apply seg_insert_notin; [|done]. intros ?. apply (Hd pp); set_solver.
    + split; [done|]. eexists. rewrite lookup_insert_eq. split; [done|].
      apply seg_insert_notin; [set_solver|done].
  - rewrite Ht. rewrite !last_app, !last_cons.
    destruct (last post) as [t|] eqn:El; simpl.
    + rewrite bool_decide_eq_false_2; [done|]. intros [= ->].
      by apply last_Some_elem_of in El.
    + by rewrite bool_decide_eq_true_2.
  - rewrite Hl, wrap_i32_sub. f_equal. rewrite !length_app. simpl. lia.
  - rewrite Hb, wrap_i32_sub, (relinked_total _ _ _ _ R). f_equal.
    rewrite !total_size_app. simpl. rewrite (size_at_Some _ _ _ Hv). lia.
Qed.

Lemma remove_loop_spec fuel target q h pre pp post p :
  pq_rep h q (pre ++ pp :: post) -> seg pnext_ h p post None ->
  (length post < fuel)%nat ->
  match list_find (fun l => l = target) post with
  | None => remove_loop fuel target (Some pp) p q h = Fault Aborted
  | Some (i, _) =>
      exists q' h', remove_loop fuel target (Some pp) p q h = Ok (q', h') /\
        pq_rep h' q' (pre ++ pp :: delete i post) /\
        relinked (pre ++ pp :: post) h h' /\ iter_ q' = iter_ q
  end.
Proof.
  revert pre pp p post. induction fuel as [|fuel IH]; intros pre pp p post Hr Hs Hf; [lia|].
  destruct post as [|l post]; simpl in Hs, Hf; cbn [list_find remove_loop].
  - by rewrite Hs.
  - destruct Hs as [-> (v & Hv & Hs)]. rewrite (load_Some _ _ _ Hv).
    cbn [rbind]. destruct (decide (l = target)) as [->|Hne].
    + rewrite bool_decide_eq_true_2 by done.
      destruct (pq_rep_lookup _ _ _ pp Hr ltac:(set_solver)) as [w Hw].
      rewrite (store_Some _ _ _ _ Hw). cbn [rbind].
      destruct (pq_cut _ _ _ _ _ _ _ _ Hr Hw Hv) as [Hr' R].
      eexists _, _. split; [done|]. split; [exact Hr'|]. split; [|done].
      eapply relinked_mono; [|done]. set_solver.
    + rewrite bool_decide_eq_false_2 by done.
      specialize (IH (pre ++ [pp]) l (pnext_ v) post). rewrite <- (assoc_L _ pre) in IH.
      simpl in IH. specialize (IH Hr Hs ltac:(lia)).
      destruct (list_find _ post) as [[i x]|]; simpl; [|done].
      destruct IH as (q' & h' & -> & Hr' & R & Hi). exists q', h'. split_and!; try done.
      by rewrite <- (assoc_L _ pre) in Hr'.
Qed.

Lemma pq_remove_spec fuel target q h ls :
  pq_rep h q ls -> (length ls < fuel)%nat ->
  match list_find (fun l => l = target) ls with
  | None => pq_remove fuel target q h = Fault Aborted
  | Some (i, _) =>
      exists q' h', pq_remove fuel target q h = Ok (q', h') /\
        pq_rep h' q' (delete i ls) /\ relinked ls h h' /\ iter_ q' = iter_ q
  end.
Proof.
  intros Hr Hf. unfold pq_remove. destruct fuel as [|fuel]; [lia|].
  destruct ls as [|l ls]; [by cbn [remove_loop]; rewrite (pq_rep_head _ _ _ Hr)|].
  pose proof Hr as [[Hh (v & Hv & Hs)] _ _ _]. rewrite Hh. cbn [remove_loop list_find].
  rewrite (load_Some _ _ _ Hv). cbn [rbind]. destruct (decide (l = target)) as [->|Hne].
  - rewrite bool_decide_eq_true_2 by done.
    destruct (pq_deque_cons _ _ _ _ Hr) as (q' & -> & Hr' & Hi). cbn [rbind].
    exists q', h. done.
  - rewrite bool_decide_eq_false_2 by done. simpl in Hf.
    pose proof (remove_loop_spec fuel target q h [] l ls (pnext_ v) Hr Hs ltac:(lia)) as IH.
    destruct (list_find _ ls) as [[i x]|]; simpl; done.
Qed.

Lemma pq_remove_head_spec q h l ls prev :
  pq_rep h q (l :: ls) ->
  exists q', pq_remove_after (Some l) prev q h = Ok (q', h) /\ pq_rep h q' ls.
Proof.
  intros Hr. unfold pq_remove_after. rewrite (pq_rep_head _ _ _ Hr).
  rewrite bool_decide_eq_true_2 by done.
  destruct (pq_deque_cons _ _ _ _ Hr) as (q' & -> & Hr' & _). by exists q'.
Qed.

Lemma pq_remove_after_spec q h pre prev l post :
  pq_rep h q (pre ++ prev :: l :: post) ->
  exists q' h', pq_remove_after (Some l) (Some prev) q h = Ok (q', h') /\
    pq_rep h' q' (pre ++ prev :: post) /\ relinked (pre ++ prev :: post) h h'.
Proof.
  intros Hr. pose proof (pq_rep_NoDup _ _ _ Hr) as Hnd.
  destruct (pq_rep_lookup _ _ _ prev Hr ltac:(set_solver)) as [w Hw].
  destruct (pq_rep_lookup _ _ _ l Hr ltac:(set_solver)) as [v Hv].
  assert (Hne : prev <> l).
  { intros ->. apply NoDup_app in Hnd as (_ & _ & [? _]%NoDup_cons). set_solver. }
  unfold pq_remove_after. rewrite bool_decide_eq_false_2.
  - rewrite (load_Some _ _ _ Hv). cbn [rbind]. rewrite (store_Some _ _ _ _ Hw). cbn [rbind].
    rewrite (load_Some _ l v) by (by rewrite lookup_insert_ne). cbn [rbind].
    destruct (pq_cut _ _ _ _ _ _ _ _ Hr Hw Hv) as [Hr' R].
    eexists _, _. split; [done|]. split; [|done].
    by rewrite (bool_decide_ext (tail_ q = Some l) (Some l = tail_ q)) by (split; congruence).
  - rewrite (pq_rep_head _ _ _ Hr). intros Hh. apply NoDup_app in Hnd as (_ & Hd & _).
    destruct pre as [|k pre]; simpl in Hh; [congruence|]. injection Hh as ->.
    apply (Hd l); set_solver.
Qed.

Lemma pq_enqueHead_spec p v q h ls :
  pq_rep h q ls -> p ∉ ls -> h !! p = Some v ->
  exists q' h', pq_enqueHead p q h = Ok (q', h') /\
    pq_rep h' q' (p :: ls) /\ relinked [p] h h' /\ iter_ q' = iter_ q.
Proof.
  intros Hr Hp Hv. pose proof Hr as [Hs Ht Hl Hb]. unfold pq_enqueHead.
  rewrite (store_Some _ _ _ _ Hv). cbn [rbind]. unfold load. rewrite lookup_insert_eq.
  cbn [rbind]. eexists _, _. split; [done|].
  assert (R : relinked [p] h (<[p := set_pnext (head_ q) v]> h)).
  { by apply relinked_set; [left|]. }
  split_and!; [split; cbn [head_ tail_ len_ bytes_]|done|done].
  - split; [done|]. eexists. rewrite lookup_insert_eq. split; [done|]. cbn.
    by apply seg_insert_notin.
  - rewrite (pq_rep_head _ _ _ Hr), Ht, last_cons. destruct ls as [|k ls]; [done|]. simpl head.
    destruct (last (k :: ls)) eqn:El; [done|]. by apply last_None in El.
  - rewrite Hl, wrap_i32_add. f_equal. cbn [length]. lia.
  - rewrite Hb, wrap_i32_add, (relinked_total _ _ _ _ R). cbn [total_size foldr].
    fold (total_size h ls). rewrite (size_at_Some _ _ _ Hv). f_equal.
    unfold pk_size. simpl. lia.
Qed.

(** [lookup (n)] is the [n]-th packet; a negative [n] gives the first. *)
Lemma lookup_loop_spec fuel n p h ls :
  seg pnext_ h p ls None -> (length ls < fuel)%nat -> - 2 ^ 31 < n < 2 ^ 31 ->
  lookup_loop fuel n p h = Ok (ls !! Z.to_nat n).
Proof.
  revert n p ls. induction fuel as [|fuel IH]; intros n p ls Hs Hf Hn; [lia|].
  destruct ls as [|l ls]; simpl in Hs, Hf.
  - rewrite Hs. simpl. done.
  - destruct Hs as [-> (v & Hv & Hs)]. cbn [lookup_loop].
    rewrite wrap_i32_id by (unfold in_i32; lia). destruct (n - 1 <? 0) eqn:E; breflect.
    + by replace (Z.to_nat n) with O by lia.
    + rewrite (load_Some _ _ _ Hv). cbn [rbind]. rewrite (IH _ _ ls) by (done || lia).
      by replace (Z.to_nat n) with (S (Z.to_nat (n - 1))) by lia.
Qed.

Lemma pq_lookup_spec fuel n q h ls :
  pq_rep h q ls -> (length ls < fuel)%nat -> - 2 ^ 31 < n < 2 ^ 31 ->
  pq_lookup fuel n q h = Ok (ls !! Z.to_nat n).
Proof. intros [] ??. by apply lookup_loop_spec. Qed.

(** Repeated [getNext] calls. *)
Fixpoint pq_iterate (n : nat) (q : PacketQueue) (h : heap) : result (list positive * PacketQueue) :=
  match n with
  | O => Ok ([], q)
  | S n =>
      let! '(p, q) := pq_getNext q h in
      match p with
      | None => Ok ([], q)
      | Some l => let! '(ls, q) := pq_iterate n q h in Ok (l :: ls, q)
      end
  end.

Lemma pq_iterate_spec n q h ls :
  seg pnext_ h (iter_ q) ls None -> (length ls < n)%nat ->
  pq_iterate n q h =
    Ok (ls, mkPacketQueue (head_ q) (tail_ q) (len_ q) (bytes_ q) None).
Proof.
  revert q ls. induction n as [|n IH]; intros q ls Hs Hn; [lia|].
  destruct ls as [|l ls]; simpl in Hs, Hn.
  - simpl. unfold pq_getNext. rewrite Hs. simpl. by destruct q; simplify_eq/=.
  - destruct Hs as [Hi (v & Hv & Hs)]. cbn [pq_iterate]. unfold pq_getNext.
    rewrite Hi, (load_Some _ _ _ Hv). cbn [rbind].
    rewrite (IH _ ls) by (done || lia). done.
Qed.
