(* ===== verification/Queue.v ===== *)
(** * The queue connector (queue/queue.h, queue/queue.cc)

    A [Queue] sits between a node and a link.  Its discipline (DropTail,
    DRR, ...) supplies the two virtual methods [enque] and [deque]; the base
    class decides when a packet leaves: at once when the link is free, and
    when the link calls [resume] otherwise.  [Discipline] is the interface of
    the virtual methods, [DisciplineLaws] what a discipline promises, and the
    behaviour of the base class is proved against it.

    What leaves the object is recorded as [action]s: [Sent p] is
    [target_->recv (p, &qh_)], [Dropped p] is [drop (p)].  The calls are the
    last thing their caller does with the packet. *)

From stdpp Require Import base numbers list gmap.
From Stdlib Require Import ZArith Lia Bool.
From S2P Require Import Prelude.
From S2P Require Import Store.
From S2P Require Import Float64.
From S2P Require Import Packet.
From S2P Require Import PacketQueue.
Open Scope Z_scope.

(** The members of [Queue] that the disciplines read and write. *)
Record qbase := mkBase {
  qlim_ : Z;
  true_ave_ : f64;
  total_time_ : f64;
}.

(** The members of [Queue] that measure the utilization of the link. *)
Record utils := mkUtils {
  last_change_ : f64;
  old_util_ : f64;
  util_weight_ : f64;
  util_check_intv_ : f64;
  period_begin_ : f64;
  cur_util_ : f64;
  buf_slot_ : Z;
  util_buf_ : list f64;
  util_records_ : Z;
}.

(** A discipline, the part of the base class it uses, and the packets. *)
Record qst (S : Type) := mkQst { disc : S; base : qbase; mem : heap }.
Arguments mkQst {S}.
Arguments disc {S}.
Arguments base {S}.
Arguments mem {S}.

(** [enque] returns the packets it passed to [drop], in order. *)
Class Discipline (S : Type) := {
  enque : f64 -> positive -> qst S -> result (qst S * list positive);
  deque : f64 -> qst S -> result (option positive * qst S);
}.

Record Queue (S : Type) := mkQueue {
  st : qst S;
  blocked_ : Z;
  unblock_on_resume_ : Z;
  util : utils;
}.
Arguments mkQueue {S}.
Arguments st {S}.
Arguments blocked_ {S}.
Arguments unblock_on_resume_ {S}.
Arguments util {S}.

Variant action :=
  | Sent (p : positive)
  | Dropped (p : positive).

#[export] Instance action_eq_dec : EqDecision action.
Proof. solve_decision. Defined.

(** A C++ [double] or [int] as a condition. *)
Definition ftrue (x : f64) : bool := negb (feq x f0).
Definition itrue (n : Z) : bool := negb (n =? 0).

(** ** Measurements *)

Definition updateStats (now : f64) (queuesize : Z) (b : qbase) : qbase :=
  let newtime := fsub now (total_time_ b) in
  if flt f0 newtime then
    let oldave := true_ave_ b in
    let oldtime := total_time_ b in
    let newtime := fsub now (total_time_ b) in
    mkBase (qlim_ b)
      (fdiv (fadd (fmul oldtime oldave) (fmul newtime (f64_of_Z queuesize))) now) now
  else b.

Section utilization.
(** The C library's [exp]; nothing is assumed of it. *)
Context (exp : f64 -> f64).

(** The loop of [utilUpdate]; [guard] is what is left of
    [guard++ < util_records_]. *)
Fixpoint util_loop (guard : nat) (int_end link_state tot_intv intv : f64) (u : utils)
  : result utils :=
  if flt (util_check_intv_ u) (fadd tot_intv intv) then
    match guard with
    | O => Ok u
    | S guard =>
        match util_buf_ u !! Z.to_nat (buf_slot_ u) with
        | None => Fault OutOfBounds
        | Some _ =>
            let! _ := if buf_slot_ u <? 0 then Fault OutOfBounds else Ok tt in
            util_loop guard int_end link_state tot_intv (fsub intv (util_check_intv_ u))
              (mkUtils (last_change_ u) (old_util_ u) (util_weight_ u) (util_check_intv_ u)
                 int_end link_state (Z.rem (buf_slot_ u + 1) (util_records_ u))
                 (<[Z.to_nat (buf_slot_ u) := cur_util_ u]> (util_buf_ u)) (util_records_ u))
        end
    end
  else Ok u.

Definition utilUpdate (int_begin int_end : f64) (link_state : Z) (u : utils) : result utils :=
  let ls := f64_of_Z link_state in
  let decay := exp (fmul (fneg (util_weight_ u)) (fsub int_end int_begin)) in
  let u := mkUtils (last_change_ u) (fadd ls (fmul (fsub (old_util_ u) ls) decay))
             (util_weight_ u) (util_check_intv_ u) (period_begin_ u) (cur_util_ u)
             (buf_slot_ u) (util_buf_ u) (util_records_ u) in
  if util_records_ u =? 0 then Ok u
  else
    let intv := fsub int_end int_begin in
    let tot_intv := fsub int_begin (period_begin_ u) in
    if ftrue intv || ftrue tot_intv then
      let cur := fdiv (fadd (fmul ls intv) (fmul (cur_util_ u) tot_intv)) (fadd intv tot_intv) in
      util_loop (Z.to_nat (util_records_ u)) int_end ls tot_intv intv
        (mkUtils (last_change_ u) (old_util_ u) (util_weight_ u) (util_check_intv_ u)
           (period_begin_ u) cur (buf_slot_ u) (util_buf_ u) (util_records_ u))
    else Ok u.

(** [utilUpdate (last_change_, now, blocked_); last_change_ = now;] *)
Definition util_touch (now : f64) (link_state : Z) (u : utils) : result utils :=
  let! u := utilUpdate (last_change_ u) now link_state u in
  Ok (mkUtils now (old_util_ u) (util_weight_ u) (util_check_intv_ u) (period_begin_ u)
        (cur_util_ u) (buf_slot_ u) (util_buf_ u) (util_records_ u)).

Definition utilization (now : f64) (link_state : Z) (u : utils) : result (f64 * utils) :=
  let! u := util_touch now link_state u in
  Ok (old_util_ u, u).

(** The maximum of the first [n] slots. *)
Fixpoint peak_loop (n : nat) (i : nat) (peak : f64) (buf : list f64) : result f64 :=
  match n with
  | O => Ok peak
  | S n =>
      match buf !! i with
      | None => Fault OutOfBounds
      | Some x => peak_loop n (S i) (if flt peak x then x else peak) buf
      end
  end.

Definition peak_utilization (now : f64) (link_state : Z) (u : utils) : result (f64 * utils) :=
  if util_records_ u =? 0 then utilization now link_state u
  else
    let! u := util_touch now link_state u in
    let! peak := peak_loop (Z.to_nat (util_records_ u)) 0 f0 (util_buf_ u) in
    Ok (peak, u).

(** ** The connector *)

Section connector.
Context {S : Type} `{Discipline S}.
Implicit Types q : Queue S.

Definition Queue_recv (now : f64) (p : positive) q : result (Queue S * list action) :=
  let! '(s, drops) := enque now p (st q) in
  if blocked_ q =? 0 then
    let! '(o, s) := deque now s in
    match o with
    | Some p =>
        let! u := util_touch now (blocked_ q) (util q) in
        Ok (mkQueue s 1 (unblock_on_resume_ q) u, map Dropped drops ++ [Sent p])
    | None => Ok (mkQueue s (blocked_ q) (unblock_on_resume_ q) (util q), map Dropped drops)
    end
  else Ok (mkQueue s (blocked_ q) (unblock_on_resume_ q) (util q), map Dropped drops).

Definition Queue_resume (now : f64) q : result (Queue S * list action) :=
  let! '(o, s) := deque now (st q) in
  match o with
  | Some p => Ok (mkQueue s (blocked_ q) (unblock_on_resume_ q) (util q), [Sent p])
  | None =>
      let! u := util_touch now (blocked_ q) (util q) in
      if itrue (unblock_on_resume_ q)
      then Ok (mkQueue s 0 (unblock_on_resume_ q) u, [])
      else Ok (mkQueue s 1 (unblock_on_resume_ q) u, [])
  end.

(** [while ((p = deque ()) != 0) drop (p);] *)
Fixpoint reset_loop (fuel : nat) (now : f64) (s : qst S) : result (qst S * list positive) :=
  match fuel with
  | O => NoFuel
  | Datatypes.S fuel =>
      let! '(o, s) := deque now s in
      match o with
      | None => Ok (s, [])
      | Some p => let! '(s, ps) := reset_loop fuel now s in Ok (s, p :: ps)
      end
  end.

Definition Queue_reset (fuel : nat) (now : f64) q : result (Queue S * list action) :=
  let b := mkBase (qlim_ (base (st q))) f0 f0 in
  let! '(s, ps) := reset_loop fuel now (mkQst (disc (st q)) b (mem (st q))) in
  Ok (mkQueue s (blocked_ q) (unblock_on_resume_ q) (util q), map Dropped ps).
End connector.
End utilization.

(** ** What a discipline promises *)

(** [holds s c]: the discipline is in a sound state and has the packets [c].
    Packets outside the discipline may change at any time ([holds_env]).
    Neither method ever fails, [enque] keeps or drops each packet, and
    [deque] gives up a packet whenever there is one. *)
Class DisciplineLaws (S : Type) `{Discipline S} := {
  holds : qst S -> list positive -> Prop;
  accepts : qst S -> packet -> Prop;
  holds_NoDup s c : holds s c -> NoDup c;
  holds_mem s c l : holds s c -> l ∈ c -> is_Some (mem s !! l);
  holds_env s c h : holds s c -> agree_on c (mem s) h -> holds (mkQst (disc s) (base s) h) c;
  holds_stats s c a t :
    holds s c -> holds (mkQst (disc s) (mkBase (qlim_ (base s)) a t) (mem s)) c;
  enque_law now p v s c :
    holds s c -> p ∉ c -> mem s !! p = Some v -> accepts s v ->
    exists s' c' ds, enque now p s = Ok (s', ds) /\ holds s' c' /\ c' ++ ds ≡ₚ p :: c /\
      relinked (p :: c) (mem s) (mem s');
  deque_nil_law now s :
    holds s [] -> exists s', deque now s = Ok (None, s') /\ holds s' [] /\ mem s' = mem s;
  deque_cons_law now s c :
    holds s c -> c <> [] ->
    exists p c' s', deque now s = Ok (Some p, s') /\ holds s' c' /\ c ≡ₚ p :: c' /\
      relinked c (mem s) (mem s');
}.

(** The utilization buffer has the announced size, and the slot is in it. *)
Definition util_ok (u : utils) : Prop :=
  util_records_ u = 0 \/
  (0 < util_records_ u < 2 ^ 31 /\ length (util_buf_ u) = Z.to_nat (util_records_ u) /\
   0 <= buf_slot_ u < util_records_ u).

Lemma util_loop_ok guard e ls t i u :
  util_ok u -> util_records_ u <> 0 ->
  exists u', util_loop guard e ls t i u = Ok u' /\ util_ok u' /\
    util_records_ u' = util_records_ u /\ last_change_ u' = last_change_ u.
Proof.
  revert i u. induction guard as [|guard IH]; intros i u Hu Hr; cbn [util_loop].
  - destruct (flt _ _); by exists u.
  - destruct (flt _ _); [|by exists u]. destruct Hu as [?|(Hn & Hl & Hs)]; [done|].
    destruct (lookup_lt_is_Some_2 (util_buf_ u) (Z.to_nat (buf_slot_ u))) as [x ->]; [lia|].
    rewrite (proj2 (Z.ltb_ge _ _)) by lia. cbn [rbind]. set (u1 := mkUtils _ _ _ _ _ _ _ _ _).
    destruct (IH (fsub i (util_check_intv_ u)) u1) as (u' & -> & Hok & Hrec & Hlast).
    + right. subst u1. cbn. rewrite length_insert.
      pose proof (Z.rem_bound_pos (buf_slot_ u + 1) (util_records_ u) ltac:(lia) ltac:(lia)).
      split_and!; try (done || lia).
    + done.
    + exists u'. by split_and!.
Qed.

Section measured.
Context (exp : f64 -> f64).

Lemma util_touch_ok now k u :
  util_ok u -> exists u', util_touch exp now k u = Ok u' /\ util_ok u' /\
    last_change_ u' = now /\ util_records_ u' = util_records_ u.
Proof.
  intros Hu. unfold util_touch, utilUpdate. cbn [util_records_].
  destruct (Z.eqb_spec (util_records_ u) 0) as [E|E].
  { cbn [rbind]. eexists. split; [done|]. split_and!; [by left|done|done]. }
  destruct (ftrue _ || ftrue _).
  - match goal with
    | |- context [ util_loop ?g ?e ?l ?t ?i ?v ] =>
        destruct (util_loop_ok g e l t i v) as (u' & -> & Hok & Hrec & _); [done|done|]
    end.
    cbn [rbind]. eexists. split; [done|]. by split_and!.
  - cbn [rbind]. eexists. split; [done|]. by split_and!.
Qed.

Lemma peak_loop_ok n i peak buf :
  (i + n <= length buf)%nat -> exists x, peak_loop n i peak buf = Ok x.
Proof.
  revert i peak. induction n as [|n IH]; intros i peak Hl; cbn [peak_loop]; [by eexists|].
  destruct (lookup_lt_is_Some_2 buf i) as [x ->]; [lia|]. apply IH. lia.
Qed.

Lemma peak_utilization_ok now k u :
  util_ok u -> exists x u', peak_utilization exp now k u = Ok (x, u') /\ util_ok u'.
Proof.
  intros Hu. unfold peak_utilization, utilization.
  destruct (util_touch_ok now k u Hu) as (u' & -> & Hok & _ & Hr). cbn [rbind].
  destruct (Z.eqb_spec (util_records_ u) 0) as [E|E].
  { exists (old_util_ u'), u'. by split. }
  destruct Hok as [?|(Hn & Hl & Hs)]; [congruence|].
  destruct (peak_loop_ok (Z.to_nat (util_records_ u')) 0 f0 (util_buf_ u')) as [x ->]; [lia|].
  cbn [rbind]. exists x, u'. split; [done|]. right. auto.
Qed.

(** ** The queue and its link as a state machine *)

Section machine.
Context {S : Type} `{DisciplineLaws S}.

(** The queue, with the packets the link has been given and has not
    finished sending. *)
Record net := mkNet { nq : Queue S; flying : list positive }.

(** What an observer of the queue sees. *)
Variant obs := Arrived (p : positive) | Did (a : action).

Definition sent_of (a : action) : option positive :=
  match a with Sent p => Some p | Dropped _ => None end.
Definition dropped_of (a : action) : option positive :=
  match a with Sent _ => None | Dropped p => Some p end.

Definition arrivals (t : list obs) : list positive :=
  omap (fun o => match o with Arrived p => Some p | Did _ => None end) t.
Definition sents (t : list obs) : list positive :=
  omap (fun o => match o with Arrived _ => None | Did a => sent_of a end) t.
Definition drops (t : list obs) : list positive :=
  omap (fun o => match o with Arrived _ => None | Did a => dropped_of a end) t.

(** A packet that may arrive: one the queue does not hold already, and that
    its discipline is made for. *)
Definition may_arrive (p : positive) (s : qst S) : Prop :=
  exists v, mem s !! p = Some v /\ accepts s v /\ forall c, holds s c -> p ∉ c.

(** A packet arrives, the link finishes a transmission and calls the
    queue's handler, or something else changes packets the queue does not
    hold. *)
Inductive net_step : net -> list obs -> net -> Prop :=
  | step_recv now p q q' fl acts :
      may_arrive p (st q) ->
      Queue_recv exp now p q = Ok (q', acts) ->
      net_step (mkNet q fl) (Arrived p :: map Did acts) (mkNet q' (fl ++ omap sent_of acts))
  | step_resume now p q q' fl acts :
      Queue_resume exp now q = Ok (q', acts) ->
      net_step (mkNet q (p :: fl)) (map Did acts) (mkNet q' (fl ++ omap sent_of acts))
  | step_env q fl h :
      (forall c, holds (st q) c -> agree_on c (mem (st q)) h) ->
      net_step (mkNet q fl) []
        (mkNet (mkQueue (mkQst (disc (st q)) (base (st q)) h) (blocked_ q)
                  (unblock_on_resume_ q) (util q)) fl).

Inductive net_run : net -> list obs -> net -> Prop :=
  | run_nil n : net_run n [] n
  | run_snoc n t n' o n'' : net_run n t n' -> net_step n' o n'' -> net_run n (t ++ o) n''.

(** An idle queue: nothing held, nothing in flight, not blocked. *)
Definition net_idle (n : net) : Prop :=
  holds (st (nq n)) [] /\ flying n = [] /\ blocked_ (nq n) = 0 /\
  unblock_on_resume_ (nq n) = 1 /\ util_ok (util (nq n)).

(** The invariant: after the trace [t] the queue holds [c]. *)
Record net_inv (n : net) (t : list obs) (c : list positive) : Prop := {
  inv_holds : holds (st (nq n)) c;
  inv_flow : arrivals t ≡ₚ c ++ sents t ++ drops t;
  inv_link : (blocked_ (nq n) = 0 /\ flying n = [] /\ c = []) \/
             (blocked_ (nq n) = 1 /\ exists p, flying n = [p]);
  inv_unblock : unblock_on_resume_ (nq n) = 1;
  inv_util : util_ok (util (nq n));
}.

Lemma arrivals_acts acts : arrivals (map Did acts) = [].
Proof. induction acts as [|a acts IH]; [done|]. done. Qed.

Lemma sents_acts acts : sents (map Did acts) = omap sent_of acts.
Proof. induction acts as [|a acts IH]; [done|]. cbn. by rewrite <- IH. Qed.

Lemma drops_acts acts : drops (map Did acts) = omap dropped_of acts.
Proof. induction acts as [|a acts IH]; [done|]. cbn. by rewrite <- IH. Qed.

Lemma omap_sent_dropped ds : omap sent_of (map Dropped ds) = [].
Proof. by induction ds. Qed.

Lemma omap_dropped_dropped ds : omap dropped_of (map Dropped ds) = ds.
Proof. induction ds as [|d ds IH]; [done|]. cbn. by rewrite IH. Qed.

(** The books stay balanced when the trace grows by [o]. *)
Lemma flow_step t o c c' :
  arrivals t ≡ₚ c ++ sents t ++ drops t ->
  c ++ arrivals o ≡ₚ c' ++ sents o ++ drops o ->
  arrivals (t ++ o) ≡ₚ c' ++ sents (t ++ o) ++ drops (t ++ o).
Proof.
  unfold arrivals, sents, drops. intros H1 H2. rewrite !omap_app, H1.
  transitivity ((c ++ omap (fun o => match o with Arrived p => Some p | Did _ => None end) o) ++
    omap (fun o => match o with Arrived _ => None | Did a => sent_of a end) t ++
    omap (fun o => match o with Arrived _ => None | Did a => dropped_of a end) t);
    [solve_Permutation|]. rewrite H2. solve_Permutation.
Qed.

(** The trace of a packet's arrival and of what the queue did then. *)
Lemma obs_recv p acts c c' :
  p :: c ≡ₚ c' ++ omap sent_of acts ++ omap dropped_of acts ->
  c ++ arrivals (Arrived p :: map Did acts) ≡ₚ
  c' ++ sents (Arrived p :: map Did acts) ++ drops (Arrived p :: map Did acts).
Proof.
  intros Hp. change (arrivals _) with (p :: arrivals (map Did acts)).
  change (sents _) with (sents (map Did acts)). change (drops _) with (drops (map Did acts)).
  rewrite arrivals_acts, sents_acts, drops_acts, <- Hp. solve_Permutation.
Qed.

(** What the two entry points do to the discipline and to the link. *)
Lemma Queue_recv_spec now p v q c :
  holds (st q) c -> mem (st q) !! p = Some v -> accepts (st q) v -> p ∉ c ->
  (blocked_ q = 0 -> c = []) -> util_ok (util q) ->
  exists q' c' o ds,
    Queue_recv exp now p q = Ok (q', map Dropped ds ++ map Sent (option_list o)) /\
    holds (st q') c' /\ p :: c ≡ₚ c' ++ option_list o ++ ds /\
    relinked (p :: c) (mem (st q)) (mem (st q')) /\
    unblock_on_resume_ q' = unblock_on_resume_ q /\ util_ok (util q') /\
    match o with
    | Some _ => blocked_ q = 0 /\ blocked_ q' = 1
    | None => blocked_ q' = blocked_ q /\ (blocked_ q = 0 -> c' = [])
    end.
Proof.
  intros Hh Hv Hacc Hfresh Hfree Hu.
  destruct (enque_law now p v _ _ Hh Hfresh Hv Hacc) as (s' & c' & ds & He & Hh' & Hp & Hr).
  unfold Queue_recv. rewrite He. cbn [rbind]. destruct (Z.eqb_spec (blocked_ q) 0) as [Hb|Hb].
  - destruct c' as [|k c'].
    + destruct (deque_nil_law now s' Hh') as (s'' & -> & Hh'' & Hm). cbn [rbind].
      eexists _, [], None, ds. split; [by rewrite app_nil_r|]. cbn. rewrite Hm. by split_and!.
    + destruct (deque_cons_law now s' (k :: c') Hh' ltac:(done))
        as (x & c'' & s'' & -> & Hh'' & Hp' & Hr').
      cbn [rbind]. destruct (util_touch_ok now (blocked_ q) (util q) Hu) as (u & -> & Hu' & _).
      cbn [rbind]. eexists _, c'', (Some x), ds. split; [done|]. cbn. split_and!; try done.
      * rewrite <- Hp, Hp'. cbn. solve_Permutation.
      * eapply relinked_mono; [|by eapply relinked_trans]. intros l [Hl|Hl]%elem_of_app; [done|].
        rewrite <- Hp. apply elem_of_app. by left.
  - eexists _, c', None, ds. split; [by rewrite app_nil_r|]. cbn. by split_and!.
Qed.

Lemma Queue_resume_spec now q c :
  holds (st q) c -> blocked_ q = 1 -> unblock_on_resume_ q = 1 -> util_ok (util q) ->
  exists q' c' o, Queue_resume exp now q = Ok (q', map Sent (option_list o)) /\
    holds (st q') c' /\ c ≡ₚ c' ++ option_list o /\
    relinked c (mem (st q)) (mem (st q')) /\
    unblock_on_resume_ q' = 1 /\ util_ok (util q') /\
    match o with Some _ => blocked_ q' = 1 | None => blocked_ q' = 0 /\ c' = [] end.
Proof.
  intros Hh Hb Hub Hu. unfold Queue_resume. destruct c as [|k c].
  - destruct (deque_nil_law now _ Hh) as (s' & -> & Hh' & Hm). cbn [rbind].
    destruct (util_touch_ok now (blocked_ q) (util q) Hu) as (u & -> & Hu' & _).
    cbn [rbind]. rewrite Hub. eexists _, [], None. split; [done|]. cbn. rewrite Hm. by split_and!.
  - destruct (deque_cons_law now _ _ Hh ltac:(done)) as (y & c' & s' & -> & Hh' & Hp & Hr).
    cbn [rbind]. eexists _, c', (Some y). split; [done|]. cbn. split_and!; try done.
    rewrite Hp. solve_Permutation.
Qed.

Lemma omap_sent_sent o : omap sent_of (map Sent (option_list o)) = option_list o.
Proof. by destruct o. Qed.

Lemma omap_dropped_sent o : omap dropped_of (map Sent (option_list o)) = [].
Proof. by destruct o. Qed.

Lemma recv_ok now p q fl t c :
  net_inv (mkNet q fl) t c -> may_arrive p (st q) ->
  exists q' acts c', Queue_recv exp now p q = Ok (q', acts) /\
    net_inv (mkNet q' (fl ++ omap sent_of acts)) (t ++ Arrived p :: map Did acts) c'.
Proof.
  intros [Hh Hf Hl Hub Hu] (v & Hv & Hacc & Hfresh). cbn [nq flying] in *.
  destruct (Queue_recv_spec now p v q c Hh Hv Hacc (Hfresh _ Hh)) as
    (q' & c' & o & ds & -> & Hh' & Hp & _ & Hub' & Hu' & Ho); [|done|].
  { intros Hb. destruct Hl as [(_ & _ & ->)|[Hb1 _]]; [done|congruence]. }
  eexists _, _, c'. split; [done|].
  rewrite !omap_app, omap_sent_dropped, omap_sent_sent. cbn [app].
  split; cbn [nq flying]; [done| | |congruence|done].
  - eapply flow_step; [done|]. apply obs_recv.
    by rewrite !omap_app, omap_sent_dropped, omap_dropped_dropped, omap_sent_sent,
      omap_dropped_sent, app_nil_r.
  - destruct o as [x|]; simpl.
    + destruct Ho as [Hb0 Hb1]. right. split; [done|]. exists x.
      destruct Hl as [(_ & -> & _)|[Hb _]]; [done|congruence].
    + destruct Ho as [Hb Hc]. rewrite Hb, app_nil_r.
      destruct Hl as [(Hb0 & -> & _)|Hl]; [left|by right]. split_and!; auto.
Qed.

Lemma resume_ok now p q fl t c :
  net_inv (mkNet q (p :: fl)) t c ->
  exists q' acts c', Queue_resume exp now q = Ok (q', acts) /\
    net_inv (mkNet q' (fl ++ omap sent_of acts)) (t ++ map Did acts) c'.
Proof.
  intros [Hh Hf Hl Hub Hu]. cbn [nq flying] in *.
  destruct Hl as [(_ & ? & _)|[Hb1 [x [= -> ->]]]]; [done|].
  destruct (Queue_resume_spec now q c Hh Hb1 Hub Hu) as
    (q' & c' & o & -> & Hh' & Hp & _ & Hub' & Hu' & Ho).
  eexists _, _, c'. split; [done|]. rewrite omap_sent_sent. cbn [app].
  split; cbn [nq flying]; [done| | |done|done].
  - eapply flow_step; [done|]. rewrite arrivals_acts, sents_acts, drops_acts, omap_sent_sent,
      omap_dropped_sent, !app_nil_r. done.
  - destruct o as [y|]; simpl; [right; eauto|left]. destruct Ho as [Hb ->]. by split_and!.
Qed.

Lemma net_run_inv n0 t n : net_run n0 t n -> net_idle n0 -> exists c, net_inv n t c.
Proof.
  induction 1 as [n|n t n' o n'' _ IH Hstep]; intros Hi.
  - destruct Hi as (Hh & Hfl & Hb & Hu & Hok). exists []. split; try done. by left.
  - destruct (IH Hi) as (c & Hinv).
    destruct Hstep as [now p q q' fl acts Hm Hr|now p q q' fl acts Hr|q fl h Hag].
    + destruct (recv_ok now p q fl t c Hinv Hm) as (? & ? & c' & Hr' & Hi').
      rewrite Hr in Hr'. simplify_eq. by exists c'.
    + destruct (resume_ok now p q fl t c Hinv) as (? & ? & c' & Hr' & Hi').
      rewrite Hr in Hr'. simplify_eq. by exists c'.
    + exists c. rewrite app_nil_r. destruct Hinv as [Hh Hf Hl Hub Hu].
      split; cbn [nq st blocked_ unblock_on_resume_ util]; try done.
      apply holds_env; [done|]. by apply Hag.
Qed.

Lemma reset_loop_ok fuel now s c :
  holds s c -> (length c < fuel)%nat ->
  exists s' ds, reset_loop fuel now s = Ok (s', ds) /\ holds s' [] /\ ds ≡ₚ c.
Proof.
  revert s c. induction fuel as [|fuel IH]; intros s c Hh Hf; [lia|]. cbn [reset_loop].
  destruct c as [|k c].
  - destruct (deque_nil_law now s Hh) as (s' & -> & Hh' & _). cbn [rbind].
    by exists s', [].
  - destruct (deque_cons_law now s _ Hh ltac:(done)) as (p & c' & s' & -> & Hh' & Hp & _).
    cbn [rbind]. pose proof (Permutation_length Hp) as Hlen. simpl in Hlen, Hf.
    destruct (IH s' c' Hh' ltac:(lia)) as (s'' & ds & -> & Hh'' & Hp').
    cbn [rbind]. exists s'', (p :: ds). split_and!; [done|done|]. by rewrite Hp', Hp.
Qed.
End machine.
End measured.
