(* ===== verification/DropTail.v ===== *)
(** * The DropTail discipline (queue/drop-tail.h, queue/drop-tail.cc)

    A FIFO of bounded length, counted in packets or in bytes, that drops the
    arriving packet or, with [drop_front_], the oldest one.  The instance of
    [DisciplineLaws] makes the theorems on the connector apply to it; the
    FIFO order and the bound are proved here. *)

From stdpp Require Import base numbers list gmap.
From Stdlib Require Import ZArith Lia Bool.
From S2P Require Import Prelude.
From S2P Require Import Store.
From S2P Require Import Float64.
From S2P Require Import Packet.
From S2P Require Import PacketQueue.
From S2P Require Import Queue.
Open Scope Z_scope.

Record DropTail := mkDropTail {
  q_ : PacketQueue;
  drop_front_ : Z;
  summarystats : Z;
  qib_ : Z;
  mean_pktsize_ : Z;
}.

Definition with_q (q : PacketQueue) (d : DropTail) : DropTail :=
  mkDropTail q (drop_front_ d) (summarystats d) (qib_ d) (mean_pktsize_ d).

(** The statistics update both methods start with. *)
Definition dt_stats (now : f64) (s : qst DropTail) : qbase :=
  let d := disc s in
  if itrue (summarystats d) then
    updateStats now (if itrue (qib_ d) then pq_byteLength (q_ d) else pq_length (q_ d)) (base s)
  else base s.

Definition qlimBytes (s : qst DropTail) : Z :=
  wrap_i32 (qlim_ (base s) * mean_pktsize_ (disc s)).

(** [if the queue would overflow if we added this packet...] *)
Definition dt_full (s : qst DropTail) (size : Z) : bool :=
  let d := disc s in
  (negb (itrue (qib_ d)) && (qlim_ (base s) <=? wrap_i32 (pq_length (q_ d) + 1))) ||
  (itrue (qib_ d) && (qlimBytes s <=? wrap_i32 (pq_byteLength (q_ d) + size))).

Definition DropTail_enque (now : f64) (p : positive) (s : qst DropTail)
  : result (qst DropTail * list positive) :=
  let b := dt_stats now s in
  let d := disc s in
  let! v := load (mem s) (Some p) in
  if dt_full (mkQst d b (mem s)) (pk_size v) then
    if itrue (drop_front_ d) then
      let! '(_, q, h) := pq_enque p (q_ d) (mem s) in
      let! '(pp, q) := pq_deque q h in
      match pp with
      | Some pp => Ok (mkQst (with_q q d) b h, [pp])
      | None => Fault NullDeref
      end
    else Ok (mkQst d b (mem s), [p])
  else
    let! '(_, q, h) := pq_enque p (q_ d) (mem s) in
    Ok (mkQst (with_q q d) b h, []).

Definition DropTail_deque (now : f64) (s : qst DropTail)
  : result (option positive * qst DropTail) :=
  let b := dt_stats now s in
  let! '(p, q) := pq_deque (q_ (disc s)) (mem s) in
  Ok (p, mkQst (with_q q (disc s)) b (mem s)).

(** The guard of [shrink_queue]. *)
Definition dt_over (s : qst DropTail) : bool :=
  let d := disc s in
  (negb (itrue (qib_ d)) && (qlim_ (base s) <? pq_length (q_ d))) ||
  (itrue (qib_ d) && (qlimBytes s <? pq_byteLength (q_ d))).

Fixpoint shrink_queue (fuel : nat) (s : qst DropTail) : result (qst DropTail * list positive) :=
  match fuel with
  | O => NoFuel
  | S fuel' =>
      let d := disc s in
      if dt_over s then
        if itrue (drop_front_ d) then
          let! '(pp, q) := pq_deque (q_ d) (mem s) in
          match pp with
          | None => Fault NullDeref
          | Some pp =>
              let! '(s, ds) := shrink_queue fuel' (mkQst (with_q q d) (base s) (mem s)) in
              Ok (s, pp :: ds)
          end
        else
          match tail_ (q_ d) with
          | None => Fault Aborted
          | Some pp =>
              let! '(q, h) := pq_remove fuel pp (q_ d) (mem s) in
              let! '(s, ds) := shrink_queue fuel' (mkQst (with_q q d) (base s) h) in
              Ok (s, pp :: ds)
          end
      else Ok (s, [])
  end.

#[export] Instance droptail : Discipline DropTail := {|
  enque := DropTail_enque;
  deque := DropTail_deque;
|}.

(** ** The laws *)

Definition dt_holds (s : qst DropTail) (c : list positive) : Prop :=
  pq_rep (mem s) (q_ (disc s)) c.

(** [enque], as a function on the list of held packets. *)
Definition fifo_enque (full front : bool) (p : positive) (c : list positive)
  : list positive * list positive :=
  if full then
    if front then (tail (c ++ [p]), option_list (head (c ++ [p]))) else (c, [p])
  else (c ++ [p], []).

Lemma DropTail_enque_spec now p v s c :
  dt_holds s c -> p ∉ c -> mem s !! p = Some v ->
  exists s', DropTail_enque now p s =
      Ok (s', snd (fifo_enque (dt_full s (pk_size v)) (itrue (drop_front_ (disc s))) p c)) /\
    dt_holds s' (fst (fifo_enque (dt_full s (pk_size v)) (itrue (drop_front_ (disc s))) p c)) /\
    relinked (c ++ [p]) (mem s) (mem s') /\ disc s' = with_q (q_ (disc s')) (disc s) /\
    qlim_ (base s') = qlim_ (base s).
Proof.
  intros Hh Hp Hv. unfold DropTail_enque. rewrite (load_Some _ _ _ Hv). cbn [rbind].
  assert (Hlim : qlim_ (dt_stats now s) = qlim_ (base s)).
  { unfold dt_stats, updateStats. destruct (itrue _); [|done]. by destruct (flt _ _). }
  assert (Hfull : dt_full (mkQst (disc s) (dt_stats now s) (mem s)) (pk_size v) =
                  dt_full s (pk_size v)).
  { unfold dt_full, qlimBytes. cbn [disc base]. by rewrite Hlim. }
  rewrite Hfull. unfold fifo_enque.
  destruct (pq_enque_spec p v _ _ _ Hh Hp Hv) as (q' & h' & He & Hr & R & _).
  destruct (dt_full s _); [destruct (itrue _)|].
  - rewrite He. cbn [rbind]. destruct (c ++ [p]) as [|k c'] eqn:E; [by destruct c|].
    destruct (pq_deque_cons _ _ _ _ Hr) as (q2 & -> & Hr2 & _). cbn [rbind fst snd].
    eexists. split; [done|]. by split_and!.
  - eexists. split; [done|]. split_and!; [done|apply relinked_refl|by destruct (disc s)|done].
  - rewrite He. cbn [rbind fst snd]. eexists. split; [done|]. by split_and!.
Qed.

Lemma DropTail_deque_spec now s c :
  dt_holds s c ->
  exists s', DropTail_deque now s = Ok (head c, s') /\ dt_holds s' (tail c) /\ mem s' = mem s.
Proof.
  intros Hh. unfold DropTail_deque, dt_holds in *. destruct c as [|p c].
  - rewrite (pq_deque_nil _ _ Hh). cbn [rbind]. eexists. split; [done|]. done.
  - destruct (pq_deque_cons _ _ _ _ Hh) as (q' & -> & Hr & _). cbn [rbind].
    eexists. split; [done|]. done.
Qed.

Lemma fifo_enque_perm full front p c :
  let r := fifo_enque full front p c in fst r ++ snd r ≡ₚ p :: c.
Proof.
  unfold fifo_enque. destruct full; [destruct front|]; cbn.
  - destruct (c ++ [p]) as [|k c'] eqn:E; [by destruct c|]. cbn.
    rewrite (Permutation_app_comm c' [k]). cbn. rewrite <- E. solve_Permutation.
  - solve_Permutation.
  - rewrite app_nil_r. solve_Permutation.
Qed.

#[export] Instance droptail_laws : DisciplineLaws DropTail.
Proof.
  refine {| holds := dt_holds; accepts := fun _ _ => True |}.
  - intros s c. apply pq_rep_NoDup.
  - intros s c l. apply pq_rep_lookup.
  - intros s c h Hh A. by eapply pq_rep_agree.
  - intros s c a t. done.
  - intros now p v s c Hh Hp Hv _.
    destruct (DropTail_enque_spec now p v s c Hh Hp Hv) as (s' & He & Hh' & R & _).
    exists s', (fst (fifo_enque (dt_full s (pk_size v)) (itrue (drop_front_ (disc s))) p c)).
    eexists. split; [exact He|]. split_and!; [done|apply fifo_enque_perm|].
    eapply relinked_mono; [|done]. set_solver.
  - intros now s Hh. exact (DropTail_deque_spec now s [] Hh).
  - intros now s [|p c] Hh Hc; [done|].
    destruct (DropTail_deque_spec now s _ Hh) as (s' & Hd & Hh' & Hm).
    exists p, c, s'. split_and!; try done. by rewrite Hm.
Defined.

(** ** Order, bound and shrinking *)

Lemma fifo_enque_sublist full front p c :
  fst (fifo_enque full front p c) `sublist_of` c ++ [p].
Proof.
  unfold fifo_enque. destruct full; [destruct front|]; cbn.
  - destruct (c ++ [p]) as [|k c']; [done|]. by apply sublist_cons.
  - by apply sublist_inserts_r.
  - done.
Qed.

Lemma fifo_enque_bound n front p c :
  (1 <= n)%Z -> (Z.of_nat (length c) < n)%Z ->
  (Z.of_nat (length (fst (fifo_enque (n <=? Z.of_nat (length c) + 1)%Z front p c))) < n)%Z.
Proof.
  intros Hn Hc. unfold fifo_enque. destruct (Z.leb_spec n (Z.of_nat (length c) + 1)).
  - destruct front; cbn; [|done]. rewrite length_tl, length_app. simpl. lia.
  - cbn. rewrite length_app. simpl. lia.
Qed.

(** Counting packets, the queue is full from [qlim_ - 1] packets on. *)
Lemma dt_full_packets s c n :
  dt_holds s c -> itrue (qib_ (disc s)) = false -> (Z.of_nat (length c) + 1 < 2 ^ 31) ->
  dt_full s n = (qlim_ (base s) <=? Z.of_nat (length c) + 1).
Proof.
  intros [_ _ Hl _] Hq Hc. unfold dt_full. rewrite Hq. cbn [negb andb orb].
  unfold pq_length. rewrite Hl, orb_false_r, wrap_i32_add.
  by rewrite wrap_i32_id by (unfold in_i32; lia).
Qed.

(** One round of [shrink_queue] removes one packet from one end. *)
Definition shrunk (front : bool) (n : nat) (c : list positive) : list positive :=
  if front then drop (length c - n) c else take n c.

Lemma list_find_last (c : list positive) l :
  NoDup (c ++ [l]) -> list_find (fun k => k = l) (c ++ [l]) = Some (length c, l).
Proof.
  intros Hnd. apply list_find_Some. split_and!.
  - by rewrite lookup_app_r, Nat.sub_diag by lia.
  - done.
  - intros j y Hy Hj ->. apply NoDup_app in Hnd as (_ & Hd & _). apply (Hd l); [|set_solver].
    rewrite lookup_app_l in Hy by done. by eapply list_elem_of_lookup_2.
Qed.

Lemma shrink_queue_spec fuel s c :
  dt_holds s c -> itrue (qib_ (disc s)) = false -> 0 <= qlim_ (base s) ->
  (Z.of_nat (length c) < 2 ^ 31) -> (length c < fuel)%nat ->
  exists s' ds, shrink_queue fuel s = Ok (s', ds) /\
    dt_holds s' (shrunk (itrue (drop_front_ (disc s))) (Z.to_nat (qlim_ (base s))) c) /\
    shrunk (itrue (drop_front_ (disc s))) (Z.to_nat (qlim_ (base s))) c ++ ds ≡ₚ c.
Proof.
  intros Hh Hq Hlim. revert s c Hh Hq Hlim.
  induction fuel as [|fuel IH]; intros s c Hh Hq Hlim Hc Hf; [lia|]. cbn [shrink_queue].
  assert (Hov : dt_over s = (qlim_ (base s) <? Z.of_nat (length c))).
  { unfold dt_over, pq_length. rewrite Hq, (rep_len _ _ _ Hh), orb_false_r.
    by rewrite wrap_i32_id by (unfold in_i32; lia). }
  rewrite Hov. destruct (Z.ltb_spec (qlim_ (base s)) (Z.of_nat (length c))) as [Hlt|Hge].
  - destruct (itrue (drop_front_ (disc s))) eqn:Hfr.
    + destruct c as [|k c]; [simpl in Hlt; lia|].
      destruct (pq_deque_cons _ _ _ _ Hh) as (q' & -> & Hr & _). cbn [rbind].
      simpl in Hc, Hf, Hlt.
      destruct (IH (mkQst (with_q q' (disc s)) (base s) (mem s)) c Hr Hq Hlim
                  ltac:(lia) ltac:(lia)) as (s' & ds & -> & Hs' & Hp).
      cbn [rbind base disc with_q drop_front_] in *. rewrite Hfr in Hs', Hp.
      eexists _, _. split; [done|]. unfold shrunk in *. simpl length.
      rewrite (Nat.sub_succ_l (Z.to_nat (qlim_ (base s)))) by lia. cbn [drop].
      split; [done|]. etransitivity; [|apply perm_skip; exact Hp]. solve_Permutation.
    + destruct c as [|l c _] using rev_ind; [simpl in Hlt; lia|].
      rewrite (rep_tail _ _ _ Hh), last_snoc. rewrite !length_app in Hc, Hf, Hlt.
      simpl in Hc, Hf, Hlt.
      pose proof (pq_remove_spec (S fuel) l _ _ _ Hh ltac:(rewrite length_app; simpl; lia)) as Hrm.
      rewrite list_find_last in Hrm by (by eapply pq_rep_NoDup).
      destruct Hrm as (q' & h' & -> & Hr & R & _). cbn [rbind].
      rewrite delete_middle, app_nil_r in Hr.
      destruct (IH (mkQst (with_q q' (disc s)) (base s) h') c Hr Hq Hlim
                  ltac:(lia) ltac:(lia)) as (s' & ds & -> & Hs' & Hp).
      cbn [rbind base disc with_q drop_front_] in *. rewrite Hfr in Hs', Hp.
      eexists _, _. split; [done|]. unfold shrunk in *.
      rewrite take_app_le by lia. split; [done|].
      etransitivity; [|apply Permutation_app_tail; exact Hp]. solve_Permutation.
  - eexists _, []. split; [done|]. rewrite app_nil_r. unfold shrunk.
    destruct (itrue (drop_front_ (disc s))).
    + replace (length c - Z.to_nat (qlim_ (base s)))%nat with O by lia. done.
    + rewrite take_ge by lia. done.
Qed.

(** ** Runs of a DropTail queue *)

Section runs.
Context (exp : f64 -> f64).

(** Nothing a run does changes the configuration. *)
Definition same_config (s s' : qst DropTail) : Prop :=
  qlim_ (base s') = qlim_ (base s) /\ qib_ (disc s') = qib_ (disc s) /\
  drop_front_ (disc s') = drop_front_ (disc s).

Lemma DropTail_deque_config now s o s' :
  DropTail_deque now s = Ok (o, s') -> same_config s s'.
Proof.
  unfold DropTail_deque. intros Hd. apply rbind_Ok_inv in Hd as ([x q] & _ & [= _ <-]).
  unfold same_config, dt_stats. cbn. split_and!; [|done|done].
  destruct (itrue _); [|done]. unfold updateStats. by destruct (flt _ _).
Qed.

(** What a run preserves, with [c] the packets held after the trace [t]. *)
Record dt_inv (s0 : qst DropTail) (s : qst DropTail) (t : list obs) (c : list positive)
  : Prop := {
  di_holds : dt_holds s c;
  di_order : sents t ++ c `sublist_of` arrivals t;
  di_config : same_config s0 s;
  di_bound : itrue (qib_ (disc s)) = false -> 1 <= qlim_ (base s) < 2 ^ 31 ->
             Z.of_nat (length c) < qlim_ (base s);
}.

(** The arrival of a packet, up to the choice of the one to send. *)
Lemma dt_inv_enque now s0 s t c p v :
  dt_inv s0 s t c -> p ∉ c -> mem s !! p = Some v ->
  exists s' c' ds, DropTail_enque now p s = Ok (s', ds) /\
    dt_inv s0 s' (t ++ Arrived p :: map Did (map Dropped ds)) c'.
Proof.
  intros [Hh Ho Hc Hb] Hp Hv.
  destruct (DropTail_enque_spec now p v s c Hh Hp Hv) as (s' & He & Hh' & _ & Hd & Hq).
  eexists s', _, _. split; [exact He|]. split; [exact Hh'| | |].
  - unfold sents, arrivals in *. rewrite !omap_app. cbn.
    fold (sents (map Did (map Dropped (fifo_enque (dt_full s (pk_size v))
            (itrue (drop_front_ (disc s))) p c).2))).
    fold (arrivals (map Did (map Dropped (fifo_enque (dt_full s (pk_size v))
            (itrue (drop_front_ (disc s))) p c).2))).
    rewrite sents_acts, arrivals_acts, omap_sent_dropped, app_nil_r.
    etransitivity; [apply sublist_app; [done|apply fifo_enque_sublist]|].
    rewrite (assoc_L (++)). by apply sublist_app.
  - unfold same_config in *. rewrite Hd, Hq. cbn. done.
  - rewrite Hd, Hq. cbn. intros Hqib Hlim. specialize (Hb Hqib Hlim).
    rewrite (dt_full_packets s c) by (done || lia). apply fifo_enque_bound; lia.
Qed.

(** Sending the oldest packet. *)
Lemma dt_inv_deque now s0 s t c o s' :
  dt_inv s0 s t c -> DropTail_deque now s = Ok (o, s') ->
  dt_inv s0 s' (t ++ map Did (map Sent (option_list o))) (tail c) /\ o = head c.
Proof.
  intros [Hh Ho Hc Hb] Hd. pose proof (DropTail_deque_config _ _ _ _ Hd) as (C1 & C2 & C3).
  destruct (DropTail_deque_spec now s c Hh) as (s'' & Hd' & Hh' & _).
  rewrite Hd in Hd'. injection Hd' as -> ->. split; [|done]. split; [done| | |].
  - unfold sents, arrivals in *. rewrite !omap_app. destruct c as [|k c]; cbn.
    + by rewrite !app_nil_r in *.
    + by rewrite app_nil_r, <- (assoc_L (++)).
  - unfold same_config in *. by rewrite C1, C2, C3.
  - rewrite C1, C2. intros Hq Hlim. specialize (Hb Hq Hlim). rewrite length_tl. lia.
Qed.

Lemma droptail_run_inv (n0 : net) t (n : net) :
  net_run exp n0 t n -> net_idle n0 ->
  exists c, dt_inv (st (nq n0)) (st (nq n)) t c.
Proof.
  intros Hrun Hi. induction Hrun as [n|n t n' o n'' Hrun IH Hstep].
  { destruct Hi as (Hh & _). exists []. split; try done. simpl. lia. }
  destruct (IH Hi) as (c & Hinv).
  destruct Hstep as [now p q q' fl acts (v & Hv & _ & Hfr) Hr|now p q q' fl acts Hr|q fl h Hag];
    cbn [nq] in *.
  - unfold Queue_recv in Hr.
    destruct (dt_inv_enque now _ _ _ _ p v Hinv (Hfr _ (di_holds _ _ _ _ Hinv)) Hv)
      as (s' & c' & ds & He & Hinv').
    change (enque now p (st q)) with (DropTail_enque now p (st q)) in Hr. rewrite He in Hr.
    cbn [rbind] in Hr. destruct (blocked_ q =? 0).
    + apply rbind_Ok_inv in Hr as ([x s''] & Hd & Hr).
      destruct (dt_inv_deque now _ _ _ _ _ _ Hinv' Hd) as [Hinv'' ->].
      rewrite <- (assoc_L (++)) in Hinv''. cbn [app] in Hinv''. rewrite <- map_app in Hinv''.
      destruct (head c') as [y|].
      * apply rbind_Ok_inv in Hr as (u & _ & [= <- <-]). by eexists.
      * injection Hr as <- <-. cbn [option_list map] in Hinv''. rewrite app_nil_r in Hinv''. by eexists.
    + injection Hr as <- <-. by eexists.
  - unfold Queue_resume in Hr. apply rbind_Ok_inv in Hr as ([x s''] & Hd & Hr).
    destruct (dt_inv_deque now _ _ _ _ _ _ Hinv Hd) as [Hinv'' ->].
    destruct (head c) as [y|].
    + injection Hr as <- <-. by eexists.
    + apply rbind_Ok_inv in Hr as (u & _ & Hr).
      destruct (itrue _); injection Hr as <- <-; by eexists.
  - rewrite app_nil_r. exists c. destruct Hinv as [Hh Ho Hc Hb].
    split; [|done|done|done]. by eapply pq_rep_agree; [apply (Hag c Hh)|].
Qed.
End runs.
