(* ===== verification/Ring.v ===== *)
(** * Rings of active flows (queue/drr.cc, queue/sfq.cc)

    The fair queueing disciplines keep their non-empty buckets on a circular
    doubly linked list; [activate] and [idle], written out in both classes,
    put a bucket at the end of the round and take it off.  [ring] relates the
    links to the list of buckets in the order of service, and [flows] adds
    what the buckets hold: the non-empty buckets are exactly the ones on the
    ring, and no packet is in two of them. *)

From stdpp Require Import base numbers list gmap.
From Stdlib Require Import ZArith Lia Bool.
From S2P Require Import Prelude.
From S2P Require Import Store.
From S2P Require Import Dlist.
From S2P Require Import Packet.
From S2P Require Import PacketQueue.

Section ops.
Context {T D : Type} `{Linked T D}.
Implicit Types (B : gmap positive T) (hd : option positive).

(** [activate (head)] of the bucket [this] *)
Definition activate (this : positive) hd B : result (option positive * gmap positive T) :=
  match hd with
  | Some k =>
      let! hv := load B (Some k) in
      let! B := store B (Some this) (with_prev (prev_of hv)) in
      let! B := store B (Some this) (with_next (Some k)) in
      let! hv := load B (Some k) in
      let! B := store B (prev_of hv) (with_next (Some this)) in
      let! B := store B (Some k) (with_prev (Some this)) in
      Ok (Some k, B)
  | None =>
      let! B := store B (Some this) (with_prev (Some this)) in
      let! B := store B (Some this) (with_next (Some this)) in
      Ok (Some this, B)
  end.

(** [this->next->prev = this->prev; this->prev->next = this->next;] *)
Definition detach (this : positive) B : result (gmap positive T) :=
  let! v := load B (Some this) in
  let! B := store B (next_of v) (with_prev (prev_of v)) in
  let! v := load B (Some this) in
  store B (prev_of v) (with_next (next_of v)).

(** [idle (head)] of the bucket [this], as [PacketDRR] has it. *)
Definition idle (this : positive) hd B : result (option positive * gmap positive T) :=
  if bool_decide (hd = Some this) then
    let! v := load B (Some this) in
    if bool_decide (next_of v = Some this) then Ok (None, B)
    else
      let! B := detach this B in
      let! v := load B (Some this) in
      Ok (next_of v, B)
  else
    let! B := detach this B in
    Ok (hd, B).
End ops.

(** ** Arrays of buckets

    [new T[n]] is a map from the addresses 1 to [n]; the element of index
    [i] is at address [i + 1]. *)

Definition slot (i : nat) : positive := Pos.of_succ_nat i.

Definition new_array {T} (n : nat) (v : T) : gmap positive T :=
  list_to_map ((fun i => (slot i, v)) <$> seq 0 n).

(** [&a[i]] *)
Definition elem_ptr {T} (a : gmap positive T) (i : Z) : result positive :=
  if (0 <=? i)%Z then
    match a !! slot (Z.to_nat i) with
    | Some _ => Ok (slot (Z.to_nat i))
    | None => Fault OutOfBounds
    end
  else Fault OutOfBounds.

Lemma new_array_lookup {T} n (v : T) i :
  new_array n v !! slot i = if decide (i < n)%nat then Some v else None.
Proof.
  unfold new_array. destruct (decide (i < n)%nat) as [Hi|Hi].
  - apply elem_of_list_to_map.
    + rewrite <- list_fmap_compose. apply (NoDup_fmap_2 _), NoDup_seq.
    + apply list_elem_of_fmap. exists i. split; [done|]. apply elem_of_seq. lia.
  - apply not_elem_of_list_to_map. rewrite <- list_fmap_compose.
    intros (j & Hj & Hin)%list_elem_of_fmap. apply elem_of_seq in Hin.
    simpl in Hj. unfold slot in Hj. lia.
Qed.

Lemma new_array_inv {T} n (v : T) l b : new_array n v !! l = Some b -> b = v.
Proof.
  intros Hl. apply elem_of_list_to_map_2, list_elem_of_fmap in Hl as (i & [= _ ->] & _).
  done.
Qed.

(** ** Rings *)

Section ring.
Context {T D : Type} `{LinkedLaws T D}.
Implicit Types (B : gmap positive T) (hd pv p q : option positive) (ks : list positive).

Abbreviation links := (dseg next_of prev_of).

Definition ring B ks : Prop :=
  NoDup ks /\ (ks <> [] -> links B (last ks) (head ks) ks (last ks) (head ks)).

Lemma links_ends B pv p ks lst q :
  links B pv p ks lst q -> ks <> [] -> p = head ks /\ lst = last ks.
Proof.
  intros Hl Hne. split.
  - destruct ks; [done|]. by destruct Hl.
  - rewrite (dseg_last _ _ _ _ _ _ _ _ Hl). destruct (last ks) eqn:E; [done|].
    by apply last_None in E.
Qed.

Lemma ring_rotate B k ks : ring B (k :: ks) -> ring B (ks ++ [k]).
Proof.
  intros [Hnd Hl]. split.
  { apply NoDup_cons in Hnd as [Hk Hnd]. apply NoDup_app. split_and!; [done| |apply NoDup_singleton].
    intros x Hx ->%list_elem_of_singleton. done. }
  intros _. specialize (Hl ltac:(done)). cbn [head] in Hl.
  destruct ks as [|k' ks]; [done|]. rewrite last_cons_cons in Hl.
  destruct Hl as [_ (v & Hv & Hp & Hl)].
  destruct (links_ends _ _ _ _ _ _ Hl ltac:(done)) as [Hn _]. rewrite Hn in Hl.
  rewrite last_snoc. cbn [app head] in *. rewrite app_comm_cons. apply dseg_app.
  exists (last (k' :: ks)), (Some k). split; [done|]. split; [done|]. exists v.
  by split_and!.
Qed.

Lemma ring_rotate_app B xs ys : ring B (xs ++ ys) -> ring B (ys ++ xs).
Proof.
  revert ys. induction xs as [|x xs IH]; intros ys Hr; [by rewrite app_nil_r|].
  apply ring_rotate in Hr. rewrite <- app_assoc in Hr. apply IH in Hr.
  by rewrite <- app_assoc in Hr.
Qed.

(** Two bucket arrays that differ in links of the buckets [ks] only. *)
Definition rehung ks B B' : Prop :=
  (forall l, l ∉ ks -> B' !! l = B !! l) /\
  (forall l, data_of <$> B' !! l = data_of <$> B !! l).

Lemma rehung_set ks B l v v' :
  l ∈ ks -> B !! l = Some v -> data_of v' = data_of v -> rehung ks B (<[l := v']> B).
Proof.
  intros Hin Hv Hd. split; intros k.
  - intros Hk. rewrite lookup_insert_ne; [done|]. by intros <-.
  - destruct (decide (l = k)) as [<-|]; [|by rewrite lookup_insert_ne].
    by rewrite lookup_insert_eq, Hv; simpl; rewrite Hd.
Qed.

Lemma rehung_refl ks B : rehung ks B B.
Proof. by split. Qed.

Lemma rehung_trans ks B1 B2 B3 : rehung ks B1 B2 -> rehung ks B2 B3 -> rehung ks B1 B3.
Proof.
  intros [A C] [A' C']. split; intros l; [intros Hl; by rewrite A', A|by rewrite C', C].
Qed.

Lemma rehung_mono ks ks' B B' :
  (forall l, l ∈ ks -> l ∈ ks') -> rehung ks B B' -> rehung ks' B B'.
Proof. intros Hs [A C]. split; [|done]. intros l Hl. apply A. auto. Qed.

Lemma rehung_data ks B B' l v :
  rehung ks B B' -> B !! l = Some v -> exists v', B' !! l = Some v' /\ data_of v' = data_of v.
Proof.
  intros [_ C] Hv. specialize (C l). rewrite Hv in C.
  destruct (B' !! l) as [v'|]; [|done]. exists v'. split; [done|]. by injection C.
Qed.

(** Hanging the first bucket of a chain on [pv]. *)
Lemma links_set_first B pv pv' p k ks lst q v v' :
  NoDup (k :: ks) -> links B pv p (k :: ks) lst q -> B !! k = Some v ->
  next_of v' = next_of v -> prev_of v' = pv' ->
  links (<[k := v']> B) pv' p (k :: ks) lst q.
Proof.
  intros [Hk _]%NoDup_cons [-> (w & Hw & _ & Hl)] Hv Hn Hp. simplify_eq.
  split; [done|]. exists v'. rewrite lookup_insert_eq. split_and!; [done|done|].
  rewrite Hn. by apply dseg_insert_notin.
Qed.

(** Hanging [q'] on the last bucket of a chain. *)
Lemma links_set_last B pv p ks t lst q q' v v' :
  NoDup (ks ++ [t]) -> links B pv p (ks ++ [t]) lst q -> B !! t = Some v ->
  prev_of v' = prev_of v -> next_of v' = q' ->
  links (<[t := v']> B) pv p (ks ++ [t]) (Some t) q'.
Proof.
  intros Hnd Hl Hv Hp Hn. apply dseg_app in Hl as (m & r & H1 & [-> (w & Hw & Hpw & _)]).
  assert (w = v) as -> by congruence. apply dseg_app. exists m, (Some t). split.
  - apply dseg_insert_notin; [|done]. apply NoDup_app in Hnd as (_ & Hd & _).
    intros Ht. apply (Hd t Ht). by left.
  - split; [done|]. exists v'. rewrite lookup_insert_eq. split_and!; [done|congruence|done].
Qed.

(** A chain from [k] to [t] with new ends. *)
Lemma links_rehang B pv p k ks t lst q pv' q' :
  NoDup (k :: ks) -> links B pv p (k :: ks) lst q -> last (k :: ks) = Some t ->
  exists B', (let! B := store B (Some k) (with_prev pv') in store B (Some t) (with_next q')) = Ok B' /\
    (let! B := store B (Some t) (with_next q') in store B (Some k) (with_prev pv')) = Ok B' /\
    links B' pv' p (k :: ks) (Some t) q' /\ rehung (k :: ks) B B'.
Proof.
  intros Hnd Hl Ht. pose proof Hl as [_ (v & Hv & _)].
  assert (Htin : t ∈ k :: ks) by (by apply last_Some_elem_of).
  assert (Hl1 : links (<[k := with_prev pv' v]> B) pv' p (k :: ks) lst q).
  { eapply links_set_first; [done..| |]; [by rewrite next_with_prev|by rewrite prev_with_prev]. }
  assert (R1 : rehung (k :: ks) B (<[k := with_prev pv' v]> B)).
  { eapply rehung_set; [by left|done|by rewrite data_with_prev]. }
  destruct (seg_lookup next_of _ _ _ _ t (dseg_seg _ _ _ _ _ _ _ _ Hl1) Htin) as [w Hw].
  exists (<[t := with_next q' w]> (<[k := with_prev pv' v]> B)).
  rewrite (store_Some _ _ _ _ Hv). cbn [rbind]. rewrite (store_Some _ _ _ _ Hw).
  split; [done|]. split; [|split].
  - destruct (decide (t = k)) as [->|Hne].
    + rewrite (store_Some _ _ _ _ Hv). cbn [rbind]. unfold store.
      rewrite lookup_insert_eq in Hw |- *. injection Hw as <-. rewrite !insert_insert_eq.
      by rewrite with_prev_next.
    + rewrite lookup_insert_ne in Hw by done. rewrite (store_Some _ _ _ _ Hw). cbn [rbind].
      rewrite (store_Some _ _ v) by (by rewrite lookup_insert_ne). f_equal.
      by apply insert_insert_ne.
  - apply last_Some in Ht as (ks' & Heq). rewrite Heq in *.
    eapply links_set_last; [done..| |]; [by rewrite prev_with_next|by rewrite next_with_next].
  - eapply rehung_trans; [done|]. eapply rehung_set; [done..|by rewrite data_with_next].
Qed.

Lemma activate_nil l v B :
  B !! l = Some v ->
  exists B', activate l None B = Ok (Some l, B') /\ ring B' [l] /\ rehung [l] B B'.
Proof.
  intros Hv. cbn [activate]. rewrite (store_Some _ _ _ _ Hv). cbn [rbind].
  rewrite (store_Some _ _ (with_prev (Some l) v)) by (by rewrite lookup_insert_eq).
  cbn [rbind]. rewrite insert_insert_eq. eexists. split; [done|]. split.
  - split; [apply NoDup_singleton|]. intros _. split; [done|]. eexists.
    rewrite lookup_insert_eq. split; [done|].
    rewrite prev_with_next, prev_with_prev, next_with_next. done.
  - eapply rehung_set; [by left|done|]. by rewrite data_with_next, data_with_prev.
Qed.

Lemma activate_cons l v B k ks :
  B !! l = Some v -> ring B (k :: ks) -> l ∉ k :: ks ->
  exists B', activate l (Some k) B = Ok (Some k, B') /\ ring B' (k :: ks ++ [l]) /\
    rehung (k :: ks ++ [l]) B B'.
Proof.
  intros Hv [Hnd Hl] Hnin. specialize (Hl ltac:(done)). cbn [head] in Hl.
  destruct (last (k :: ks)) as [t|] eqn:Ht; [|by apply last_None in Ht].
  pose proof Hl as [_ (hv & Hhv & Hp & _)].
  assert (Hkl : k <> l) by set_solver.
  cbn [activate]. rewrite (load_Some _ _ _ Hhv). cbn [rbind].
  rewrite (store_Some _ _ _ _ Hv). cbn [rbind].
  rewrite (store_Some _ _ (with_prev (prev_of hv) v)) by (by rewrite lookup_insert_eq).
  cbn [rbind]. rewrite insert_insert_eq. set (v' := with_next _ _).
  rewrite (load_Some _ k hv) by (by rewrite lookup_insert_ne). cbn [rbind]. rewrite Hp.
  assert (Hl1 : links (<[l := v']> B) (Some t) (Some k) (k :: ks) (Some t) (Some k)).
  { by apply dseg_insert_notin. }
  destruct (links_rehang _ _ _ _ _ _ _ _ (Some l) (Some l) Hnd Hl1 Ht)
    as (B' & _ & Hst & Hl' & R).
  assert (Hst' : forall (f : gmap positive T -> result (option positive * gmap positive T)),
    (let! x := store (<[l := v']> B) (Some t) (with_next (Some l)) in
     let! y := store x (Some k) (with_prev (Some l)) in f y) = f B').
  { intros f. apply rbind_Ok_inv in Hst as (x & -> & Hx). cbn [rbind]. by rewrite Hx. }
  rewrite Hst'. exists B'. split; [done|].
  assert (Hlv : B' !! l = Some v').
  { destruct R as [A _]. rewrite A by done. apply lookup_insert_eq. }
  split.
  - rewrite app_comm_cons. split.
    + apply NoDup_app. split_and!; [done| |apply NoDup_singleton]. set_solver.
    + intros _. rewrite last_snoc. cbn [app head]. rewrite app_comm_cons. apply dseg_app.
      exists (Some t), (Some l). split; [done|]. split; [done|]. exists v'. subst v'.
      rewrite next_with_next, prev_with_next, prev_with_prev. by split_and!.
  - eapply rehung_trans.
    + eapply (rehung_set _ _ l v v'); [set_solver|done|].
      subst v'. by rewrite data_with_next, data_with_prev.
    + eapply rehung_mono; [|done]. set_solver.
Qed.

Lemma activate_spec l v B ks :
  B !! l = Some v -> ring B ks -> l ∉ ks ->
  exists B', activate l (head ks) B = Ok (head (ks ++ [l]), B') /\ ring B' (ks ++ [l]) /\
    rehung (ks ++ [l]) B B'.
Proof.
  intros Hv Hr Hl. destruct ks as [|k ks]; [by eapply activate_nil|].
  by eapply activate_cons.
Qed.

Lemma detach_spec B l ks :
  ring B (l :: ks) -> ks <> [] ->
  exists B', detach l B = Ok B' /\ ring B' ks /\ rehung ks B B'.
Proof.
  intros [Hnd Hl] Hne. specialize (Hl ltac:(done)). cbn [head] in Hl.
  destruct ks as [|k ks]; [done|]. rewrite last_cons_cons in Hl.
  destruct (last (k :: ks)) as [t|] eqn:Ht; [|by apply last_None in Ht].
  destruct Hl as [_ (v & Hv & Hp & Hl)]. apply NoDup_cons in Hnd as [Hlk Hnd].
  destruct (links_ends _ _ _ _ _ _ Hl ltac:(done)) as [Hn _]. rewrite Hn in Hl. cbn [head] in Hn.
  destruct (links_rehang _ _ _ _ _ _ _ _ (Some t) (Some k) Hnd Hl Ht)
    as (B' & Hst & _ & Hl' & R).
  unfold detach. rewrite (load_Some _ _ _ Hv). cbn [rbind]. rewrite Hn, Hp.
  apply rbind_Ok_inv in Hst as (x & Hx & Hst). rewrite Hx. cbn [rbind].
  assert (Hxl : x !! l = Some v).
  { destruct Hl as [_ (kv & Hkv & _)]. rewrite (store_Some _ _ _ _ Hkv) in Hx.
    injection Hx as <-. rewrite lookup_insert_ne; [done|set_solver]. }
  rewrite (load_Some _ _ _ Hxl). cbn [rbind]. rewrite Hp, Hn. exists B'.
  split; [done|]. split; [|done]. split; [done|]. intros _. by rewrite Ht.
Qed.

Lemma idle_head B l ks :
  ring B (l :: ks) ->
  exists B', idle l (Some l) B = Ok (head ks, B') /\ ring B' ks /\ rehung ks B B'.
Proof.
  intros Hr. unfold idle. rewrite bool_decide_eq_true_2 by done.
  pose proof Hr as [Hnd Hl]. specialize (Hl ltac:(done)). cbn [head] in Hl.
  destruct Hl as [_ (v & Hv & Hp & Hl)]. rewrite (load_Some _ _ _ Hv). cbn [rbind].
  destruct ks as [|k ks].
  - destruct Hl as [-> _]. rewrite bool_decide_eq_true_2 by done. exists B.
    split; [done|]. split; [|done]. split; [apply NoDup_nil_2|done].
  - destruct (links_ends _ _ _ _ _ _ Hl ltac:(done)) as [Hn _]. cbn [head] in Hn.
    rewrite Hn. apply NoDup_cons in Hnd as [Hlk _].
    rewrite bool_decide_eq_false_2 by set_solver.
    destruct (detach_spec B l (k :: ks) Hr ltac:(done)) as (B' & -> & Hr' & R).
    cbn [rbind]. exists B'. assert (B' !! l = Some v) as Hlv by (by rewrite (proj1 R)).
    rewrite (load_Some _ _ _ Hlv). cbn [rbind]. by rewrite Hn.
Qed.

Lemma idle_spec B l pre post :
  ring B (pre ++ l :: post) ->
  exists B', idle l (head (pre ++ l :: post)) B = Ok (head (pre ++ post), B') /\
    ring B' (pre ++ post) /\ rehung (pre ++ post) B B'.
Proof.
  intros Hr. destruct pre as [|k pre]; [by apply idle_head|].
  unfold idle. cbn [app head]. rewrite bool_decide_eq_false_2.
  - apply ring_rotate_app in Hr. cbn [app] in Hr.
    destruct (detach_spec B l (post ++ k :: pre) Hr) as (B' & -> & Hr' & R).
    { by destruct post. }
    cbn [rbind]. exists B'. split; [done|]. apply ring_rotate_app in Hr'. split; [done|].
    eapply rehung_mono; [|done]. set_solver.
  - destruct Hr as [Hnd _]. cbn [app] in Hnd. apply NoDup_cons in Hnd. set_solver.
Qed.
End ring.

(** ** Buckets and what they hold *)

Section flows.
Context {T D : Type} `{LinkedLaws T D}.
(** [ok d h c]: a bucket with the data [d] holds the packets [c]. *)
Context (ok : D -> gmap positive packet -> list positive -> Prop).
Context (ok_agree : forall d h h' c, agree_on c h h' -> ok d h c -> ok d h' c).
Implicit Types (B : gmap positive T) (curr : option positive) (h : gmap positive packet).
Implicit Types fs : list (positive * list positive).

(** The packets of all the flows. *)
Definition held fs : list positive := concat fs.*2.

(** [fs] are the active buckets in the order of the ring, each with the
    packets it holds. *)
Record flows h B curr fs : Prop := {
  fl_ring : ring B fs.*1;
  fl_curr : curr = head fs.*1;
  fl_full : forall l c, (l, c) ∈ fs -> c <> [] /\ exists b, B !! l = Some b /\ ok (data_of b) h c;
  fl_empty : forall l b, B !! l = Some b -> l ∉ fs.*1 -> ok (data_of b) h [];
  fl_NoDup : NoDup (held fs);
}.

Lemma held_app fs fs' : held (fs ++ fs') = held fs ++ held fs'.
Proof. unfold held. by rewrite fmap_app, concat_app. Qed.

Lemma held_mid pre l c post : held (pre ++ (l, c) :: post) ≡ₚ c ++ held (pre ++ post).
Proof. rewrite !held_app. unfold held. cbn. solve_Permutation. Qed.

Lemma in_held l c fs p : (l, c) ∈ fs -> p ∈ c -> p ∈ held fs.
Proof.
  intros Hin Hp. unfold held. apply list_elem_of_In, in_concat. exists c.
  rewrite <- !list_elem_of_In. split; [|done]. apply list_elem_of_fmap. by exists (l, c).
Qed.

Lemma held_in fs p : p ∈ held fs -> exists l c, (l, c) ∈ fs /\ p ∈ c.
Proof.
  intros Hp. unfold held in Hp. apply list_elem_of_In, in_concat in Hp as (c & Hc & Hp).
  apply list_elem_of_In in Hc, Hp. apply list_elem_of_fmap in Hc as ([l c'] & -> & Hin).
  by exists l, c'.
Qed.

Lemma flows_nodup_mid h B curr pre l c post :
  flows h B curr (pre ++ (l, c) :: post) -> l ∉ (pre ++ post).*1.
Proof.
  intros [[Hnd _] _ _ _ _]. rewrite fmap_app, fmap_cons in Hnd. cbn [fst] in Hnd.
  apply NoDup_app in Hnd as (_ & Hd & (Hl & _)%NoDup_cons). rewrite fmap_app.
  intros [Hin|Hin]%elem_of_app; [|done]. apply (Hd l Hin). by left.
Qed.

Lemma flows_env h h' B curr fs :
  agree_on (held fs) h h' -> flows h B curr fs -> flows h' B curr fs.
Proof.
  intros A []. split; try done.
  - intros l c Hin. destruct (fl_full0 l c Hin) as (Hc & b & Hb & Hok).
    split; [done|]. exists b. split; [done|]. eapply ok_agree; [|done].
    intros p Hp. apply A. by eapply in_held.
  - intros l b Hb Hl. eapply ok_agree; [|by eapply fl_empty0].
    intros p Hp. by apply not_elem_of_nil in Hp.
Qed.

Lemma flows_empty h B curr : flows h B curr [] -> curr = None.
Proof. by intros []. Qed.

Lemma flows_lookup h B curr fs l c :
  flows h B curr fs -> (l, c) ∈ fs -> exists b, B !! l = Some b /\ ok (data_of b) h c.
Proof. intros [] Hin. by destruct (fl_full0 l c Hin). Qed.

(** Overwriting the data of a bucket leaves the ring alone. *)
Lemma ring_set_data B ks l b b' :
  B !! l = Some b -> next_of b' = next_of b -> prev_of b' = prev_of b ->
  ring B ks -> ring (<[l := b']> B) ks.
Proof.
  intros Hb Hn Hp [Hnd Hl]. split; [done|]. intros Hne.
  eapply dseg_insert_same; eauto.
Qed.

(** An active bucket changes, and stays active. *)
Lemma flows_set h h' B curr pre l c c' post b b' :
  flows h B curr (pre ++ (l, c) :: post) -> B !! l = Some b ->
  next_of b' = next_of b -> prev_of b' = prev_of b ->
  ok (data_of b') h' c' -> c' <> [] -> agree_on (held (pre ++ post)) h h' ->
  NoDup (c' ++ held (pre ++ post)) ->
  flows h' (<[l := b']> B) curr (pre ++ (l, c') :: post).
Proof.
  intros Hf Hb Hn Hp Hok Hc' A Hnd. pose proof (flows_nodup_mid _ _ _ _ _ _ _ Hf) as Hl.
  destruct Hf as [Hr Hcu Hfull Hem _].
  assert (Hfst : (pre ++ (l, c') :: post).*1 = (pre ++ (l, c) :: post).*1).
  { by rewrite !fmap_app. }
  split; rewrite ?Hfst.
  - by eapply ring_set_data.
  - done.
  - intros k ck Hin. destruct (decide (k = l)) as [->|Hne].
    + assert (ck = c') as ->.
      { apply elem_of_app in Hin as [Hin|[Heq|Hin]%elem_of_cons]; [|by injection Heq|].
        - destruct Hl. apply list_elem_of_fmap. exists (l, ck). set_solver.
        - destruct Hl. apply list_elem_of_fmap. exists (l, ck). set_solver. }
      split; [done|]. exists b'. by rewrite lookup_insert_eq.
    + assert (Hin' : (k, ck) ∈ pre ++ post) by set_solver.
      destruct (Hfull k ck) as (Hc & bk & Hbk & Hok'); [set_solver|].
      split; [done|]. exists bk. rewrite lookup_insert_ne by done. split; [done|].
      eapply ok_agree; [|done]. intros p Hpk. apply A. by eapply in_held.
  - intros k bk Hk Hkn. rewrite lookup_insert_ne in Hk.
    + eapply ok_agree; [|by eapply Hem]. intros p Hpk. by apply not_elem_of_nil in Hpk.
    + intros <-. apply Hkn. rewrite fmap_app. set_solver.
  - by rewrite held_mid.
Qed.

(** A bucket that was empty receives packets and joins the ring. *)
Lemma flows_enter h h' B curr fs l b b' c' :
  flows h B curr fs -> B !! l = Some b -> l ∉ fs.*1 ->
  next_of b' = next_of b -> prev_of b' = prev_of b ->
  ok (data_of b') h' c' -> c' <> [] -> agree_on (held fs) h h' ->
  NoDup (held fs ++ c') ->
  exists B', activate l curr (<[l := b']> B) = Ok (head (fs.*1 ++ [l]), B') /\
    flows h' B' (head (fs.*1 ++ [l])) (fs ++ [(l, c')]) /\
    (exists b2, B' !! l = Some b2 /\ data_of b2 = data_of b') /\
    (forall k, is_Some (B !! k) -> is_Some (B' !! k)).
Proof.
  intros Hf Hb Hl Hn Hp Hok Hc' A Hnd. pose proof Hf as [Hr -> Hfull Hem _].
  destruct (activate_spec l b' (<[l := b']> B) fs.*1) as (B' & Ha & Hr' & R).
  - by rewrite lookup_insert_eq.
  - by eapply ring_set_data.
  - done.
  - assert (Hdat : forall k v, <[l := b']> B !! k = Some v ->
              exists v', B' !! k = Some v' /\ data_of v' = data_of v).
    { intros k v. by apply rehung_data with (ks := fs.*1 ++ [l]). }
    exists B'. split; [done|].
    split; [|split; [apply (Hdat l b'); by rewrite lookup_insert_eq|]].
    2: { intros k [v Hk]. destruct (decide (l = k)) as [<-|Hne].
         - destruct (Hdat l b') as (v' & -> & _); [by rewrite lookup_insert_eq|done].
         - destruct (Hdat k v) as (v' & -> & _); [by rewrite lookup_insert_ne|done]. }
    split; rewrite ?fmap_app; cbn [fst list_fmap fmap].
    + done.
    + done.
    + intros k ck [Hin|Heq%list_elem_of_singleton]%elem_of_app.
      * destruct (Hfull k ck Hin) as (Hc & bk & Hbk & Hok').
        assert (k <> l) by (intros ->; destruct Hl; apply list_elem_of_fmap; by exists (l, ck)).
        destruct (Hdat k bk) as (v' & Hv' & Hd'); [by rewrite lookup_insert_ne|].
        split; [done|]. exists v'. split; [done|]. rewrite Hd'.
        eapply ok_agree; [|done]. intros p Hpk. apply A. by eapply in_held.
      * injection Heq as -> ->. split; [done|].
        destruct (Hdat l b') as (v' & Hv' & Hd'); [by rewrite lookup_insert_eq|].
        exists v'. by rewrite Hd'.
    + intros k bk Hk Hkn. destruct R as [R1 R2]. rewrite R1 in Hk by done.
      rewrite lookup_insert_ne in Hk by set_solver.
      eapply ok_agree; [|eapply Hem; [done|set_solver]].
      intros p Hpk. by apply not_elem_of_nil in Hpk.
    + rewrite held_app. unfold held at 2. cbn. by rewrite app_nil_r.
Qed.

(** An active bucket is emptied and leaves the ring. *)
Lemma flows_leave h h' B curr pre l c post b b' :
  flows h B curr (pre ++ (l, c) :: post) -> B !! l = Some b ->
  next_of b' = next_of b -> prev_of b' = prev_of b ->
  ok (data_of b') h' [] -> agree_on (held (pre ++ post)) h h' ->
  exists B', idle l curr (<[l := b']> B) = Ok (head (pre ++ post).*1, B') /\
    flows h' B' (head (pre ++ post).*1) (pre ++ post) /\
    (forall k, is_Some (B !! k) -> is_Some (B' !! k)).
Proof.
  intros Hf Hb Hn Hp Hok A. pose proof (flows_nodup_mid _ _ _ _ _ _ _ Hf) as Hl.
  destruct Hf as [Hr -> Hfull Hem Hnd]. rewrite !fmap_app, fmap_cons in *. cbn [fst] in *.
  destruct (idle_spec (<[l := b']> B) l pre.*1 post.*1) as (B' & Hi & Hr' & R).
  { by eapply ring_set_data. }
  exists B'. split; [done|]. split.
  2: { intros k [v Hk].
       assert (is_Some (<[l := b']> B !! k)) as [w Hw] by (apply lookup_insert_is_Some'; eauto).
       by destruct (rehung_data _ _ _ k w R Hw) as (v' & -> & _). }
  split; rewrite ?fmap_app.
  - done.
  - done.
  - intros k ck Hin.
    assert (k <> l).
    { intros ->. destruct Hl. rewrite <- fmap_app. apply list_elem_of_fmap. by exists (l, ck). }
    destruct (Hfull k ck) as (Hc & bk & Hbk & Hok'); [set_solver|].
    destruct (rehung_data _ _ _ k bk R) as (v' & Hv' & Hd'); [by rewrite lookup_insert_ne|].
    split; [done|]. exists v'. split; [done|]. rewrite Hd'.
    eapply ok_agree; [|done]. intros p Hpk. apply A. by eapply in_held.
  - intros k bk Hk Hkn. destruct R as [R1 _]. rewrite R1 in Hk by done.
    destruct (decide (k = l)) as [->|Hne].
    + rewrite lookup_insert_eq in Hk. by injection Hk as <-.
    + rewrite lookup_insert_ne in Hk by done. eapply ok_agree; [|eapply Hem; [done|set_solver]].
      intros p Hpk. by apply not_elem_of_nil in Hpk.
  - rewrite held_mid in Hnd. by apply NoDup_app in Hnd as (_ & _ & ?).
Qed.

(** The next flow's turn. *)
Lemma flows_rotate h B curr l c fs b :
  flows h B curr ((l, c) :: fs) -> B !! l = Some b ->
  flows h B (next_of b) (fs ++ [(l, c)]).
Proof.
  intros [Hr -> Hfull Hem Hnd] Hb. rewrite fmap_cons in *. cbn [fst] in *.
  split; rewrite ?fmap_app; cbn [fst list_fmap fmap].
  - by apply ring_rotate.
  - destruct Hr as [_ Hl]. specialize (Hl ltac:(done)). destruct Hl as [_ (v & Hv & _ & Hl)].
    assert (v = b) as -> by congruence. destruct (fs.*1) as [|k ks] eqn:E; cbn [app head].
    + by destruct Hl.
    + by apply (links_ends _ _ _ _ _ _ Hl).
  - intros k ck Hin. apply Hfull. set_solver.
  - intros k bk Hk Hkn. apply (Hem k bk); [done|]. set_solver.
  - change (fs ++ [(l, c)]) with (fs ++ (l, c) :: []). rewrite held_mid, app_nil_r.
    done.
Qed.
End flows.
