(* ===== verification/Sfq.v ===== *)
(** * Stochastic fair queueing (queue/sfq.cc)

    Packets are hashed on their addresses into buckets; the non-empty
    buckets are served round robin, one packet each.  A packet is dropped on
    arrival when its bucket holds more than its share of the free space. *)

From stdpp Require Import base numbers list gmap.
From Stdlib Require Import ZArith Lia Bool.
From S2P Require Import Prelude.
From S2P Require Import Store.
From S2P Require Import Float64.
From S2P Require Import Dlist.
From S2P Require Import Packet.
From S2P Require Import PacketQueue.
From S2P Require Import Queue.
From S2P Require Import Ring.
Open Scope Z_scope.

(** [PacketSFQ]: its queue and counter, and the links of the ring. *)
Record sfq_flow := SfqFlow { s_queue : PacketQueue; s_pkts : Z }.
Record PacketSFQ := mkPacketSFQ {
  s_flow : sfq_flow;
  s_prev : option positive;
  s_next : option positive;
}.

#[export] Instance sfq_linked : Linked PacketSFQ sfq_flow := {
  next_of := s_next;
  prev_of := s_prev;
  data_of := s_flow;
  with_next p v := mkPacketSFQ (s_flow v) (s_prev v) p;
  with_prev p v := mkPacketSFQ (s_flow v) p (s_next v);
}.

#[export] Instance sfq_linked_laws : LinkedLaws PacketSFQ sfq_flow.
Proof. by constructor. Qed.

(** The members of [SFQ]; [bucket] is the array, [None] for the null
    pointer.  [occupied] and [fairshare] have no value before [initsfq], and
    are not read before it. *)
Record SFQ := mkSFQ {
  maxqueue_ : Z;
  buckets_ : Z;
  bucket : option (gmap positive PacketSFQ);
  active : option positive;
  occupied : Z;
  fairshare : Z;
}.

Definition new_flow : PacketSFQ := mkPacketSFQ (SfqFlow pq_new 0) None None.

Definition SFQ_hash (v : packet) : Z :=
  let i := saddr (ip (bits_ v)) in
  let j := daddr (ip (bits_ v)) in
  let k := wrap_i32 (i + j) in
  Z.rem (wrap_i32 (wrap_i32 (k + Z.shiftr k 8) + Z.lnot (Z.shiftr k 4))) (Z.shiftl 2 19 - 1).

Definition initsfq (s : SFQ) : result SFQ :=
  if buckets_ s =? 0 then Fault Aborted
  else
    Ok (mkSFQ (maxqueue_ s) (buckets_ s) (Some (new_array (Z.to_nat (buckets_ s)) new_flow))
          None 0 (Z.quot (maxqueue_ s) (buckets_ s))).

(** The bucket array of [s], and [s] after [if (!bucket) initsfq ();] *)
Definition ready (s : SFQ) : result (gmap positive PacketSFQ * SFQ) :=
  match bucket s with
  | Some B => Ok (B, s)
  | None =>
      let! s := initsfq s in
      match bucket s with Some B => Ok (B, s) | None => Fault NullDeref end
  end.

(** [PacketSFQ::idle], which the code only calls on the head. *)
Definition SFQ_idle (this : positive) (hd : option positive) (B : gmap positive PacketSFQ)
  : result (option positive * gmap positive PacketSFQ) :=
  if bool_decide (hd = Some this) then
    let! v := load B (Some this) in
    if bool_decide (s_next v = Some this) then Ok (None, B)
    else
      let! B := detach this B in
      let! v := load B (Some this) in
      Ok (s_next v, B)
  else Ok (hd, B).

Definition SFQ_deque (now : f64) (s : qst SFQ) : result (option positive * qst SFQ) :=
  let! '(B, d) := ready (disc s) in
  match active d with
  | None => Ok (None, mkQst d (base s) (mem s))
  | Some a =>
      let! B := store B (Some a)
        (fun v => mkPacketSFQ (SfqFlow (s_queue (s_flow v)) (wrap_i32 (s_pkts (s_flow v) - 1)))
                    (s_prev v) (s_next v)) in
      let occ := wrap_i32 (occupied d - 1) in
      let! v := load B (Some a) in
      let! '(pkt, q) := pq_deque (s_queue (s_flow v)) (mem s) in
      let! B := store B (Some a)
        (fun v => mkPacketSFQ (SfqFlow q (s_pkts (s_flow v))) (s_prev v) (s_next v)) in
      let! v := load B (Some a) in
      let! '(act, B) :=
        if s_pkts (s_flow v) =? 0 then SFQ_idle a (active d) B else Ok (s_next v, B) in
      Ok (pkt, mkQst (mkSFQ (maxqueue_ d) (buckets_ d) (Some B) act occ (fairshare d))
                 (base s) (mem s))
  end.

Definition SFQ_refuses (used left : Z) (d : SFQ) : bool :=
  (Z.shiftr left 1 <=? used) || ((left <? buckets_ d) && (fairshare d <? used)) || (left <=? 0).

Definition SFQ_enque (now : f64) (pkt : positive) (s : qst SFQ)
  : result (qst SFQ * list positive) :=
  let! '(B, d) := ready (disc s) in
  let! pv := load (mem s) (Some pkt) in
  let which := Z.rem (SFQ_hash pv) (buckets_ d) in
  let! q := elem_ptr B which in
  let! v := load B (Some q) in
  let used := s_pkts (s_flow v) in
  let left := wrap_i32 (maxqueue_ d - occupied d) in
  if SFQ_refuses used left d then Ok (mkQst d (base s) (mem s), [pkt])
  else
    let! '(_, pq, h) := pq_enque pkt (s_queue (s_flow v)) (mem s) in
    let occ := wrap_i32 (occupied d + 1) in
    let! B := store B (Some q)
      (fun v => mkPacketSFQ (SfqFlow pq (wrap_i32 (s_pkts (s_flow v) + 1))) (s_prev v) (s_next v)) in
    let! v := load B (Some q) in
    let! '(act, B) :=
      if s_pkts (s_flow v) =? 1 then activate q (active d) B else Ok (active d, B) in
    Ok (mkQst (mkSFQ (maxqueue_ d) (buckets_ d) (Some B) act occ (fairshare d)) (base s) h, []).

(** The loop of [clear]: [i] is not changed by the body. *)
Fixpoint SFQ_clear_loop (fuel : nat) (i : Z) (q : nat) (B : gmap positive PacketSFQ)
  : result unit :=
  match fuel with
  | O => NoFuel
  | S fuel =>
      if itrue i then
        match B !! slot q with
        | None => Fault OutOfBounds
        | Some v =>
            if itrue (s_pkts (s_flow v)) then Fault Exited
            else SFQ_clear_loop fuel i (S q) B
        end
      else Ok tt
  end.

Definition SFQ_clear (fuel : nat) (d : SFQ) : result SFQ :=
  match bucket d with
  | None => Ok d
  | Some B =>
      let! _ := SFQ_clear_loop fuel (buckets_ d) 0 B in
      Ok (mkSFQ (maxqueue_ d) (buckets_ d) None (active d) (occupied d) (fairshare d))
  end.

(** [command "limit" n] and [command "buckets" n] *)
Definition SFQ_limit (n : Z) (d : SFQ) : result SFQ :=
  if buckets_ d =? 0 then Fault Aborted
  else Ok (mkSFQ n (buckets_ d) (bucket d) (active d) (occupied d) (Z.quot n (buckets_ d))).

Definition SFQ_buckets (fuel : nat) (n : Z) (d : SFQ) : result SFQ :=
  let! d := SFQ_clear fuel d in
  Ok (mkSFQ (maxqueue_ d) n (bucket d) (active d) (occupied d) (fairshare d)).

#[export] Instance sfq : Discipline SFQ := {|
  enque := SFQ_enque;
  deque := SFQ_deque;
|}.

(** ** The laws *)

Definition sfq_ok (d : sfq_flow) (h : gmap positive packet) (c : list positive) : Prop :=
  pq_rep h (s_queue d) c /\ s_pkts d = Z.of_nat (length c).

Lemma sfq_ok_agree d h h' c : agree_on c h h' -> sfq_ok d h c -> sfq_ok d h' c.
Proof. intros A [Hr Hp]. split; [by eapply pq_rep_agree|done]. Qed.

(** The bucket array [B] of [d] holds the packets [c]. *)
Definition sfq_buckets_ok (d : SFQ) (B : gmap positive PacketSFQ) (h : gmap positive packet)
    (c : list positive) : Prop :=
  exists fs, flows sfq_ok h B (active d) fs /\ c ≡ₚ held fs /\
    occupied d = Z.of_nat (length c) /\ Z.of_nat (length c) < 2 ^ 31 /\
    forall i, 0 <= i < buckets_ d -> is_Some (B !! slot (Z.to_nat i)).

Definition sfq_holds (s : qst SFQ) (c : list positive) : Prop :=
  0 <= maxqueue_ (disc s) < 2 ^ 31 /\ 0 < buckets_ (disc s) /\
  match bucket (disc s) with
  | None => c = []
  | Some B => sfq_buckets_ok (disc s) B (mem s) c
  end.

(** The packets whose hash is the index of a bucket. *)
Definition sfq_accepts (s : qst SFQ) (v : packet) : Prop := 0 <= SFQ_hash v.

Lemma new_array_flows n h : flows sfq_ok h (new_array n new_flow) None [].
Proof.
  split; cbn; try done.
  - split; [apply NoDup_nil_2|done].
  - intros l c Hin. by apply not_elem_of_nil in Hin.
  - intros l b Hb _. apply new_array_inv in Hb as ->. split; [apply pq_rep_new|done].
  - apply NoDup_nil_2.
Qed.

Lemma ready_spec s c :
  sfq_holds s c ->
  exists B d, ready (disc s) = Ok (B, d) /\ sfq_buckets_ok d B (mem s) c /\
    0 <= maxqueue_ d < 2 ^ 31 /\ 0 < buckets_ d /\ bucket d = Some B.
Proof.
  intros (Hm & Hb & Hc). unfold ready. destruct (bucket (disc s)) as [B|] eqn:E.
  { by exists B, (disc s). }
  subst c. unfold initsfq. rewrite (proj2 (Z.eqb_neq _ _)) by lia. cbn [rbind bucket].
  eexists _, _. split; [done|]. split_and!; try done; cbn; try lia.
  exists []. split_and!; try done; [apply new_array_flows|].
  intros i Hi. cbn in Hi. rewrite new_array_lookup. rewrite decide_True by lia. done.
Qed.

Lemma sfq_holds_Some d b h B c :
  bucket d = Some B -> 0 <= maxqueue_ d < 2 ^ 31 -> 0 < buckets_ d ->
  sfq_buckets_ok d B h c -> sfq_holds (mkQst d b h) c.
Proof. intros Hb Hm Hn Hc. unfold sfq_holds. cbn [disc mem]. by rewrite Hb. Qed.

(** The bucket [b] at [q] takes one more packet; [1 + s_pkts] tells whether
    it was on the ring. *)
Definition sfq_add (pq : PacketQueue) (b : PacketSFQ) : PacketSFQ :=
  mkPacketSFQ (SfqFlow pq (wrap_i32 (s_pkts (s_flow b) + 1))) (s_prev b) (s_next b).

Lemma sfq_add_active h B curr pre q c0 post b p v :
  flows sfq_ok h B curr (pre ++ (q, c0) :: post) -> B !! q = Some b ->
  p ∉ held (pre ++ (q, c0) :: post) -> h !! p = Some v ->
  Z.of_nat (length c0) + 1 < 2 ^ 31 ->
  exists t pq h', pq_enque p (s_queue (s_flow b)) h = Ok (t, pq, h') /\
    s_pkts (s_flow (sfq_add pq b)) <> 1 /\ relinked (c0 ++ [p]) h h' /\
    flows sfq_ok h' (<[q := sfq_add pq b]> B) curr (pre ++ (q, c0 ++ [p]) :: post).
Proof.
  intros Hf Hb Hp Hv Hlen.
  destruct (fl_full _ _ _ _ _ Hf q c0 ltac:(set_solver)) as (Hne & b' & Hb' & [Hr Hk]).
  assert (b' = b) as -> by congruence. cbn [data_of sfq_linked] in Hr, Hk.
  pose proof (fl_NoDup _ _ _ _ _ Hf) as Hnd. rewrite held_mid in Hp, Hnd.
  assert (Hp0 : p ∉ c0) by set_solver.
  destruct (pq_enque_spec p v _ _ _ Hr Hp0 Hv) as (pq & h' & He & Hr' & R & _).
  eexists _, pq, h'. split; [exact He|]. unfold sfq_add. cbn [s_flow s_pkts].
  rewrite Hk, wrap_small by lia. split_and!; [destruct c0; cbn; lia || done|done|].
  eapply flows_set with (h := h) (c := c0); try done.
  - apply sfq_ok_agree.
  - split; [done|]. cbn. rewrite length_app. cbn. lia.
  - by destruct c0.
  - eapply relinked_agree; [done|]. intros k Hk1 Hk2.
    apply elem_of_app in Hk2 as [Hk2|Hk2%list_elem_of_singleton].
    + apply NoDup_app in Hnd as (_ & Hd & _). by apply (Hd k).
    + set_solver.
  - rewrite <- app_assoc. cbn. rewrite <- Permutation_middle. by apply NoDup_cons.
Qed.

Lemma sfq_add_idle h B curr fs q b p v :
  flows sfq_ok h B curr fs -> B !! q = Some b -> q ∉ fs.*1 ->
  p ∉ held fs -> h !! p = Some v ->
  exists t pq h' act B', pq_enque p (s_queue (s_flow b)) h = Ok (t, pq, h') /\
    s_pkts (s_flow (sfq_add pq b)) = 1 /\ relinked [p] h h' /\
    activate q curr (<[q := sfq_add pq b]> B) = Ok (act, B') /\
    flows sfq_ok h' B' act (fs ++ [(q, [p])]) /\
    (forall k, is_Some (B !! k) -> is_Some (B' !! k)).
Proof.
  intros Hf Hb Hq Hp Hv. destruct (fl_empty _ _ _ _ _ Hf q b Hb Hq) as [Hr Hk].
  cbn [data_of sfq_linked] in Hr, Hk.
  destruct (pq_enque_spec p v _ _ _ Hr ltac:(set_solver) Hv) as (pq & h' & He & Hr' & R & _).
  cbn [app] in Hr', R.
  edestruct (flows_enter sfq_ok sfq_ok_agree h h' B curr fs q b (sfq_add pq b) [p])
    as (B' & Ha & Hf' & _ & Hdom); try done.
  - split; [done|]. cbn. by rewrite Hk.
  - eapply relinked_agree; [done|]. intros k Hk1 Hk2%list_elem_of_singleton. by subst.
  - apply NoDup_app. split_and!; [by eapply fl_NoDup| |apply NoDup_singleton].
    intros k Hk1 Hk2%list_elem_of_singleton. by subst.
  - eexists _, pq, h', _, B'. split; [exact He|]. split; [cbn; by rewrite Hk|].
    by split_and!.
Qed.

Lemma SFQ_enque_law now p v s c :
  sfq_holds s c -> p ∉ c -> mem s !! p = Some v -> sfq_accepts s v ->
  exists s' c' ds, SFQ_enque now p s = Ok (s', ds) /\ sfq_holds s' c' /\ c' ++ ds ≡ₚ p :: c /\
    relinked (p :: c) (mem s) (mem s').
Proof.
  intros Hh Hp Hv Hacc. unfold SFQ_enque.
  destruct (ready_spec s c Hh) as (B & d & -> & Hok & Hm & Hb & Hbk).
  pose proof Hok as (fs & Hf & Hc & Ho & Hlen & Hidx).
  cbn [rbind]. rewrite (load_Some _ _ _ Hv). cbn [rbind].
  pose proof (Z.rem_bound_pos (SFQ_hash v) (buckets_ d) Hacc ltac:(lia)) as Hw.
  set (w := Z.rem _ _) in *. destruct (Hidx w Hw) as [b Hq].
  unfold elem_ptr. rewrite (proj2 (Z.leb_le _ _)) by lia. rewrite Hq. cbn [rbind].
  set (q := slot (Z.to_nat w)) in *. rewrite (load_Some _ _ _ Hq). cbn [rbind].
  rewrite Ho, (wrap_i32_id (maxqueue_ d - _)) by (unfold in_i32; lia).
  destruct (SFQ_refuses _ _ _) eqn:Href.
  { eexists _, c, [p]. split; [done|]. split; [|split; [solve_Permutation|apply relinked_refl]].
    by apply (sfq_holds_Some d _ _ B). }
  unfold SFQ_refuses in Href. breflect.
  assert (Hph : p ∉ held fs) by (by rewrite <- Hc).
  pose proof (Permutation_length Hc) as Hl.
  assert (Hwr : wrap_i32 (Z.of_nat (length c) + 1) = Z.of_nat (length (p :: c))).
  { rewrite wrap_small by lia. cbn [length]. lia. }
  rewrite Hwr.
  destruct (decide (q ∈ fs.*1)) as [Hin|Hnin].
  - apply list_elem_of_fmap in Hin as ([q' c0] & Heq & (pre & post & ->)%list_elem_of_split).
    cbn [fst] in Heq. subst q'. rewrite held_mid, length_app in Hl.
    destruct (sfq_add_active _ _ _ _ _ _ _ _ _ _ Hf Hq Hph Hv ltac:(lia))
      as (t & pq & h' & -> & Hk & R & Hf').
    cbn [rbind]. rewrite (store_Some _ _ _ _ Hq). cbn [rbind]. fold (sfq_add pq b).
    unfold load. rewrite lookup_insert_eq. cbn [rbind]. rewrite (proj2 (Z.eqb_neq _ _) Hk).
    cbn [rbind]. eexists _, (p :: c), []. split; [done|]. split; [|split].
    + eapply sfq_holds_Some; [reflexivity|exact Hm|exact Hb|]. eexists. split; [exact Hf'|].
      split_and!.
      * rewrite Hc, !held_mid. solve_Permutation.
      * reflexivity.
      * cbn [length]. lia.
      * intros i Hi. apply lookup_insert_is_Some'. right. by apply Hidx.
    + by rewrite app_nil_r.
    + eapply relinked_mono; [|done]. intros k Hk'. rewrite Hc, held_mid.
      clear - Hk'. set_solver.
  - destruct (sfq_add_idle _ _ _ _ _ _ _ _ Hf Hq Hnin Hph Hv)
      as (t & pq & h' & act & B' & -> & Hk & R & Ha & Hf' & Hdom).
    cbn [rbind]. rewrite (store_Some _ _ _ _ Hq). cbn [rbind]. fold (sfq_add pq b).
    unfold load. rewrite lookup_insert_eq. cbn [rbind]. rewrite (proj2 (Z.eqb_eq _ _) Hk), Ha.
    cbn [rbind]. eexists _, (p :: c), []. split; [done|]. split; [|split].
    + eapply sfq_holds_Some; [reflexivity|exact Hm|exact Hb|]. eexists. split; [exact Hf'|].
      split_and!.
      * rewrite held_app, Hc. unfold held at 3. cbn. solve_Permutation.
      * reflexivity.
      * cbn [length]. lia.
      * intros i Hi. by apply Hdom, Hidx.
    + by rewrite app_nil_r.
    + eapply relinked_mono; [|done]. clear. set_solver.
Qed.

Lemma SFQ_idle_head a B : SFQ_idle a (Some a) B = idle a (Some a) B.
Proof. unfold SFQ_idle, idle. by rewrite bool_decide_eq_true_2. Qed.

(** The bucket at the head of the ring gives up its oldest packet. *)
Definition sfq_take (pq : PacketQueue) (b : PacketSFQ) : PacketSFQ :=
  mkPacketSFQ (SfqFlow pq (wrap_i32 (s_pkts (s_flow b) - 1))) (s_prev b) (s_next b).

(** The order of service: the flow served goes to the end of the round, or
    leaves it when it has no packet left. *)
Definition after_turn (a : positive) (c : list positive) (fs : list (positive * list positive))
  : list (positive * list positive) :=
  match c with [] => fs | _ => fs ++ [(a, c)] end.

Lemma sfq_take_head h B a p c0 fs b :
  flows sfq_ok h B (Some a) ((a, p :: c0) :: fs) -> B !! a = Some b ->
  Z.of_nat (length (p :: c0)) < 2 ^ 31 ->
  exists pq act B', pq_deque (s_queue (s_flow b)) h = Ok (Some p, pq) /\
    (if s_pkts (s_flow (sfq_take pq b)) =? 0 then idle a (Some a) (<[a := sfq_take pq b]> B)
     else Ok (s_next b, <[a := sfq_take pq b]> B)) = Ok (act, B') /\
    flows sfq_ok h B' act (after_turn a c0 fs) /\
    (forall k, is_Some (B !! k) -> is_Some (B' !! k)).
Proof.
  intros Hf Hb Hlen. pose proof Hf as [_ _ Hfull _ Hnd].
  destruct (Hfull a (p :: c0) ltac:(left)) as (_ & b' & Hb' & [Hr Hk]).
  assert (b' = b) as -> by congruence. cbn [data_of sfq_linked] in Hr, Hk.
  destruct (pq_deque_cons _ _ _ _ Hr) as (pq & Hd & Hr' & _).
  assert (Hpk : wrap_i32 (s_pkts (s_flow b) - 1) = Z.of_nat (length c0)).
  { cbn [length] in Hlen, Hk. rewrite wrap_small; lia. }
  assert (Hok : sfq_ok (s_flow (sfq_take pq b)) h c0) by (by split).
  exists pq. unfold sfq_take at 1. cbn [s_flow s_pkts]. rewrite Hpk. destruct c0 as [|k c0].
  - edestruct (flows_leave sfq_ok sfq_ok_agree h h B (Some a) [] a [p] fs b (sfq_take pq b))
      as (B' & Hi & Hf' & Hdom); [done..|].
    exists (head ([] ++ fs).*1), B'. split_and!; [done|exact Hi|exact Hf'|exact Hdom].
  - rewrite (proj2 (Z.eqb_neq _ _)) by (cbn [length]; lia).
    exists (s_next b), (<[a := sfq_take pq b]> B). split; [done|]. split; [done|]. split.
    + change (s_next b) with (next_of (sfq_take pq b)).
      change (after_turn a (k :: c0) fs) with (fs ++ [(a, k :: c0)]).
      apply (flows_rotate sfq_ok sfq_ok_agree h _ (Some a) a (k :: c0) fs (sfq_take pq b));
        [|by rewrite lookup_insert_eq].
      apply (flows_set sfq_ok sfq_ok_agree h h _ _ [] a (p :: k :: c0) (k :: c0) fs b); try done.
      change ((a, p :: k :: c0) :: fs) with ([] ++ (a, p :: k :: c0) :: fs) in Hnd.
      rewrite held_mid in Hnd. cbn [app] in *. by apply NoDup_cons in Hnd as [_ ?].
    + intros i Hi. apply lookup_insert_is_Some'. by right.
Qed.

(** One [deque] with at least one active flow. *)
Lemma SFQ_deque_head now s B a p c0 fs :
  bucket (disc s) = Some B ->
  flows sfq_ok (mem s) B (active (disc s)) ((a, p :: c0) :: fs) ->
  Z.of_nat (length (p :: c0)) < 2 ^ 31 ->
  exists s' B', SFQ_deque now s = Ok (Some p, s') /\ bucket (disc s') = Some B' /\
    flows sfq_ok (mem s) B' (active (disc s')) (after_turn a c0 fs) /\ mem s' = mem s /\
    (forall k, is_Some (B !! k) -> is_Some (B' !! k)) /\
    occupied (disc s') = wrap_i32 (occupied (disc s) - 1) /\
    maxqueue_ (disc s') = maxqueue_ (disc s) /\ buckets_ (disc s') = buckets_ (disc s).
Proof.
  intros HB Hf Hlen. unfold SFQ_deque, ready. rewrite HB. cbn [rbind].
  pose proof (fl_curr _ _ _ _ _ Hf) as Hact. cbn [fmap list_fmap fst head] in Hact.
  rewrite Hact in Hf |- *.
  destruct (flows_lookup _ _ _ _ _ a _ Hf ltac:(left)) as (b & Hba & _).
  rewrite (store_Some _ _ _ _ Hba). cbn [rbind]. unfold load at 1. rewrite lookup_insert_eq.
  cbn [rbind s_flow s_queue].
  destruct (sfq_take_head _ _ _ _ _ _ _ Hf Hba Hlen) as (pq & act & B' & -> & Hst & Hf' & Hdom).
  cbn [rbind]. unfold store. rewrite lookup_insert_eq. cbn [rbind]. rewrite insert_insert_eq.
  unfold load at 1. rewrite lookup_insert_eq. cbn [rbind s_flow s_pkts s_next s_prev].
  fold (sfq_take pq b). rewrite SFQ_idle_head.
  change (wrap_i32 (s_pkts (s_flow b) - 1)) with (s_pkts (s_flow (sfq_take pq b))).
  rewrite Hst. cbn [rbind]. eexists _, B'. split; [done|]. by split_and!.
Qed.

Lemma SFQ_deque_nil_law now s :
  sfq_holds s [] -> exists s', SFQ_deque now s = Ok (None, s') /\ sfq_holds s' [] /\ mem s' = mem s.
Proof.
  intros Hh. unfold SFQ_deque.
  destruct (ready_spec s [] Hh) as (B & d & -> & Hok & Hm & Hb & Hbk).
  pose proof Hok as (fs & Hf & Hc & _). cbn [rbind].
  assert (fs = []) as ->.
  { destruct fs as [|[l c] fs]; [done|]. apply Permutation_nil_l in Hc.
    destruct (fl_full _ _ _ _ _ Hf l c ltac:(left)) as [Hne _]. unfold held in Hc. cbn in Hc.
    by destruct c. }
  rewrite (flows_empty _ _ _ _ Hf). eexists. split; [done|]. split; [|done].
  by apply (sfq_holds_Some d _ _ B).
Qed.

(** [deque] only depends on [s] through the array it makes ready. *)
Lemma SFQ_deque_ready now s B d :
  ready (disc s) = Ok (B, d) -> bucket d = Some B ->
  SFQ_deque now s = SFQ_deque now (mkQst d (base s) (mem s)).
Proof. intros Hr Hb. unfold SFQ_deque. rewrite Hr. unfold ready. cbn [disc]. by rewrite Hb. Qed.

Lemma SFQ_deque_cons_law now s c :
  sfq_holds s c -> c <> [] ->
  exists p c' s', SFQ_deque now s = Ok (Some p, s') /\ sfq_holds s' c' /\ c ≡ₚ p :: c' /\
    relinked c (mem s) (mem s').
Proof.
  intros Hh Hne.
  destruct (ready_spec s c Hh) as (B & d & Hrd & Hok & Hm & Hb & Hbk).
  pose proof Hok as (fs & Hf & Hc & Ho & Hlen & Hidx). rewrite (SFQ_deque_ready _ _ _ _ Hrd Hbk).
  destruct fs as [|[a [|p c0]] fs].
  { by apply Permutation_nil_r in Hc. }
  { by destruct (fl_full _ _ _ _ _ Hf a [] ltac:(left)). }
  pose proof (Permutation_length Hc) as Hl. unfold held in Hl. cbn in Hl. rewrite length_app in Hl.
  destruct (SFQ_deque_head now (mkQst d (base s) (mem s)) B a p c0 fs Hbk Hf)
    as (s' & B' & Hd & HB' & Hf' & Hms & Hdom & Hocc & Hmq & Hbu).
  { cbn [length]. lia. }
  assert (Hpm : p :: held (after_turn a c0 fs) ≡ₚ c).
  { rewrite Hc. destruct c0 as [|k c0]; cbn [after_turn]; [done|].
    rewrite held_app. unfold held. cbn. solve_Permutation. }
  pose proof (Permutation_length Hpm) as Hl'. cbn [length] in Hl'.
  exists p, (held (after_turn a c0 fs)), s'. split; [exact Hd|].
  cbn [disc mem] in *. split; [|split; [by rewrite Hpm|rewrite Hms; apply relinked_refl]].
  unfold sfq_holds. rewrite HB', Hmq, Hbu, Hms. split; [exact Hm|]. split; [exact Hb|].
  exists (after_turn a c0 fs). split; [exact Hf'|]. split; [done|].
  rewrite Hocc, Ho, wrap_small by lia. split; [lia|]. split; [lia|].
  intros i Hi. rewrite Hbu in Hi. by apply Hdom, Hidx.
Qed.

#[export] Instance sfq_laws : DisciplineLaws SFQ.
Proof.
  refine {| holds := sfq_holds; accepts := sfq_accepts |}.
  - intros s c (_ & _ & Hc). destruct (bucket (disc s)).
    + destruct Hc as (fs & Hf & -> & _). by eapply fl_NoDup.
    + subst. apply NoDup_nil_2.
  - intros s c l (_ & _ & Hc) Hl. destruct (bucket (disc s)).
    + destruct Hc as (fs & Hf & Hp & _). rewrite Hp in Hl.
      apply held_in in Hl as (k & ck & Hin & Hl).
      destruct (flows_lookup _ _ _ _ _ _ _ Hf Hin) as (b & _ & [Hr _]).
      by eapply pq_rep_lookup.
    + subst. by apply not_elem_of_nil in Hl.
  - intros s c h (Hm & Hb & Hc) A. split; [done|]. split; [done|]. cbn [disc mem].
    destruct (bucket (disc s)); [|done].
    destruct Hc as (fs & Hf & Hp & Hrest). exists fs. split; [|by split].
    eapply flows_env; [apply sfq_ok_agree| |done]. intros l Hl. apply A. by rewrite Hp.
  - intros s c a t Hh. exact Hh.
  - exact SFQ_enque_law.
  - exact SFQ_deque_nil_law.
  - exact SFQ_deque_cons_law.
Defined.

(** [clear] cannot return once there are buckets. *)
Lemma SFQ_clear_loop_stuck fuel i q B : i <> 0 -> SFQ_clear_loop fuel i q B <> Ok tt.
Proof.
  intros Hi. revert q. induction fuel as [|fuel IH]; intros q; cbn [SFQ_clear_loop]; [done|].
  unfold itrue. rewrite (proj2 (Z.eqb_neq _ _) Hi). cbn [negb].
  destruct (B !! slot q) as [v|]; [|done]. destruct (negb _); [done|]. apply IH.
Qed.

(** Which packets [hash] gives a bucket: on non-negative addresses, all but
    the ones whose addresses sum to zero. *)
Lemma shifts_bound k : 0 <= k -> 0 <= Z.shiftr k 8 <= Z.shiftr k 4 /\ Z.shiftr k 4 <= k /\
  (0 < k -> Z.shiftr k 4 < k).
Proof.
  intros Hk. rewrite !Z.shiftr_div_pow2 by lia. change (2 ^ 8) with 256. change (2 ^ 4) with 16.
  pose proof (Z.div_mod k 256 ltac:(lia)). pose proof (Z.mod_pos_bound k 256 ltac:(lia)).
  pose proof (Z.div_mod k 16 ltac:(lia)). pose proof (Z.mod_pos_bound k 16 ltac:(lia)).
  lia.
Qed.

Lemma SFQ_hash_nonneg v :
  0 <= saddr (ip (bits_ v)) -> 0 <= daddr (ip (bits_ v)) ->
  0 < saddr (ip (bits_ v)) + daddr (ip (bits_ v)) < 2 ^ 30 -> 0 <= SFQ_hash v.
Proof.
  intros Hs Hd Hk. unfold SFQ_hash. set (k := saddr _ + daddr _) in *.
  rewrite (wrap_small k) by lia. destruct (shifts_bound k ltac:(lia)) as ([H0 H1] & H2 & H3).
  specialize (H3 ltac:(lia)). rewrite (wrap_small (k + Z.shiftr k 8)) by lia.
  unfold Z.lnot. rewrite wrap_small by lia. apply Z.rem_nonneg; [done|]. lia.
Qed.
