(* ===== verification/Drr.v ===== *)
(** * Deficit round robin (queue/drr.cc)

    Packets are hashed on their source address into buckets.  The active
    buckets are on a ring; a bucket may send while its deficit counter covers
    the size of its oldest packet, and its counter grows by [quantum_] once
    per turn.  When the bytes held exceed [blimit_], packets are dropped from
    the bucket with the most bytes. *)

From stdpp Require Import base numbers list gmap.
From Stdlib Require Import ZArith Lia Bool.
From S2P Require Import Prelude.
From S2P Require Import Store.
From S2P Require Import Float64.
From S2P Require Import Dlist.
From S2P Require Import Packet.
From S2P Require Import PacketQueue.
From S2P Require Import Queue.
From S2P Require Import Ring.
Open Scope Z_scope.

(** [PacketDRR]: its members, and the links of the ring. *)
Record drr_flow := DrrFlow {
  queue : PacketQueue;
  pkts : Z;
  src : Z;
  bcount : Z;
  deficitCounter : Z;
  turn : Z;
}.
Record PacketDRR := mkPacketDRR {
  flow : drr_flow;
  fprev : option positive;
  fnext : option positive;
}.

#[export] Instance drr_linked : Linked PacketDRR drr_flow := {
  next_of := fnext;
  prev_of := fprev;
  data_of := flow;
  with_next p v := mkPacketDRR (flow v) (fprev v) p;
  with_prev p v := mkPacketDRR (flow v) p (fnext v);
}.

#[export] Instance drr_linked_laws : LinkedLaws PacketDRR drr_flow.
Proof. by constructor. Qed.

(** [drr] is the array of buckets, [None] for the null pointer. *)
Record DRR := mkDRR {
  buckets_ : Z;
  blimit_ : Z;
  quantum_ : Z;
  mask_ : Z;
  bytecnt : Z;
  pktcnt : Z;
  flwcnt : Z;
  curr : option positive;
  drr : option (gmap positive PacketDRR);
}.

Definition new_flow : PacketDRR := mkPacketDRR (DrrFlow pq_new 0 (-1) 0 0 0) None None.

(** Writes to the members of a bucket, and to those of the discipline that
    change with every packet. *)
Definition on_flow (f : drr_flow -> drr_flow) (b : PacketDRR) : PacketDRR :=
  mkPacketDRR (f (flow b)) (fprev b) (fnext b).

Definition with_state (bytes npkts flws : Z) (c : option positive) (B : gmap positive PacketDRR)
    (d : DRR) : DRR :=
  mkDRR (buckets_ d) (blimit_ d) (quantum_ d) (mask_ d) bytes npkts flws c (Some B).

Definition set_src (x : Z) (f : drr_flow) : drr_flow :=
  DrrFlow (queue f) (pkts f) x (bcount f) (deficitCounter f) (turn f).
Definition set_deficit (x : Z) (f : drr_flow) : drr_flow :=
  DrrFlow (queue f) (pkts f) (src f) (bcount f) x (turn f).
Definition set_turn (x : Z) (f : drr_flow) : drr_flow :=
  DrrFlow (queue f) (pkts f) (src f) (bcount f) (deficitCounter f) x.
(** A packet of size [n] was put into or taken from the queue, now [q]. *)
Definition put_packet (q : PacketQueue) (n : Z) (f : drr_flow) : drr_flow :=
  DrrFlow q (wrap_i32 (pkts f + 1)) (src f) (wrap_i32 (bcount f + n)) (deficitCounter f) (turn f).
Definition take_packet (q : PacketQueue) (n : Z) (f : drr_flow) : drr_flow :=
  DrrFlow q (wrap_i32 (pkts f - 1)) (src f) (wrap_i32 (bcount f - n)) (deficitCounter f) (turn f).

Definition DRR_hash (d : DRR) (v : packet) : Z :=
  let a := saddr (ip (bits_ v)) in
  let i := if itrue (mask_ d) then Z.land a 65520 else a in
  wrap_i32 (Z.rem (wrap_i32 (wrap_i32 (i + Z.shiftr i 8) + Z.lnot (Z.shiftr i 4)))
              (Z.shiftl 2 23 - 1) + 1).

(** The loop of [getMaxflow]. *)
Fixpoint maxflow_loop (n : nat) (tmp maxflow : option positive) (B : gmap positive PacketDRR)
  : result (option positive) :=
  match n with
  | O => Ok maxflow
  | S n =>
      let! mv := load B maxflow in
      let! tv := load B tmp in
      maxflow_loop n (fnext tv)
        (if bcount (flow mv) <? bcount (flow tv) then tmp else maxflow) B
  end.

Definition getMaxflow (d : DRR) (B : gmap positive PacketDRR) : result (option positive) :=
  maxflow_loop (Z.to_nat (flwcnt d)) (curr d) (curr d) B.

(** [while (bytecnt > blimit_) ...]; returns the dropped packets. *)
Fixpoint drop_loop (fuel : nat) (h : gmap positive packet) (d : DRR)
    (B : gmap positive PacketDRR) : result (DRR * list positive) :=
  match fuel with
  | O => NoFuel
  | S fuel =>
      if blimit_ d <? bytecnt d then
        let! remq := getMaxflow d B in
        let! rv := load B remq in
        let! '(o, q) := pq_deque (queue (flow rv)) h in
        let! pv := load h o in
        let! B := store B remq (on_flow (take_packet q (pk_size pv))) in
        let bytes := wrap_i32 (bytecnt d - pk_size pv) in
        let n := wrap_i32 (pktcnt d - 1) in
        let! rv := load B remq in
        let! '(c, B, flws) :=
          match remq with
          | Some r =>
              if pkts (flow rv) =? 0 then
                let! '(c, B) := idle r (curr d) B in Ok (c, B, wrap_i32 (flwcnt d - 1))
              else Ok (curr d, B, flwcnt d)
          | None => Fault NullDeref
          end in
        let! '(d, ds) := drop_loop fuel h (with_state bytes n flws c B d) B in
        Ok (d, match o with Some p => p :: ds | None => ds end)
      else Ok (d, [])
  end.

(** One round of the loop per packet, and the final test. *)
Definition drop_fuel (d : DRR) : nat := S (Z.to_nat (pktcnt d)).

(** A modulus of zero stops the program. *)
Definition DRR_enque (now : f64) (pkt : positive) (s : qst DRR)
  : result (qst DRR * list positive) :=
  let d := disc s in
  let! pv := load (mem s) (Some pkt) in
  let B := match drr d with
           | Some B => B
           | None => new_array (Z.to_nat (buckets_ d)) new_flow
           end in
  let! _ := if buckets_ d =? 0 then Fault Aborted else Ok tt in
  let! q := elem_ptr B (Z.rem (DRR_hash d pv) (buckets_ d)) in
  let compare := if itrue (mask_ d) then Z.land (saddr (ip (bits_ pv))) 65520
                 else saddr (ip (bits_ pv)) in
  let! B := store B (Some q)
    (on_flow (fun f => if src f =? -1 then set_src compare f else f)) in
  let! v := load B (Some q) in
  let! '(_, pq, h) := pq_enque pkt (queue (flow v)) (mem s) in
  let! B := store B (Some q) (on_flow (put_packet pq (pk_size pv))) in
  let n := wrap_i32 (pktcnt d + 1) in
  let bytes := wrap_i32 (bytecnt d + pk_size pv) in
  let! v := load B (Some q) in
  let! '(c, B, flws) :=
    if pkts (flow v) =? 1 then
      let! '(c, B) := activate q (curr d) B in
      let! B := store B (Some q) (on_flow (set_deficit 0)) in
      Ok (c, B, wrap_i32 (flwcnt d + 1))
    else Ok (curr d, B, flwcnt d) in
  let d := with_state bytes n flws c B d in
  let! '(d, ds) := drop_loop (drop_fuel d) h d B in
  Ok (mkQst d (base s) h, ds).

(** [while (!pkt) ...] of [deque] *)
Fixpoint serve_loop (fuel : nat) (h : gmap positive packet) (d : DRR)
    (B : gmap positive PacketDRR) : result (option positive * DRR) :=
  match fuel with
  | O => NoFuel
  | S fuel =>
      let! v := load B (curr d) in
      let! B :=
        if turn (flow v) =? 0 then
          store B (curr d) (on_flow (fun f =>
            set_turn 1 (set_deficit (wrap_i32 (deficitCounter f + quantum_ d)) f)))
        else Ok B in
      let! v := load B (curr d) in
      let! o := pq_lookup 1 0 (queue (flow v)) h in
      let! pv := load h o in
      if pk_size pv <=? deficitCounter (flow v) then
        let! B := store B (curr d) (on_flow (fun f =>
          set_deficit (wrap_i32 (deficitCounter f - pk_size pv)) f)) in
        let! v := load B (curr d) in
        let! '(o, q) := pq_deque (queue (flow v)) h in
        let! B := store B (curr d) (on_flow (take_packet q (pk_size pv))) in
        let n := wrap_i32 (pktcnt d - 1) in
        let bytes := wrap_i32 (bytecnt d - pk_size pv) in
        let! v := load B (curr d) in
        let! '(c, B, flws) :=
          match curr d with
          | Some a =>
              if pkts (flow v) =? 0 then
                let! B := store B (curr d) (on_flow (fun f => set_deficit 0 (set_turn 0 f))) in
                let! '(c, B) := idle a (curr d) B in
                Ok (c, B, wrap_i32 (flwcnt d - 1))
              else Ok (curr d, B, flwcnt d)
          | None => Fault NullDeref
          end in
        Ok (o, with_state bytes n flws c B d)
      else
        let! B := store B (curr d) (on_flow (set_turn 0)) in
        let! v := load B (curr d) in
        serve_loop fuel h
          (with_state (bytecnt d) (pktcnt d) (flwcnt d) (fnext v) B d) B
  end.

(** Every failed turn lowers a deficit that is at most the bytes held, or
    ends a turn begun before. *)
Definition serve_fuel (d : DRR) : nat := S (Z.to_nat (bytecnt d + pktcnt d)).

Definition DRR_deque (now : f64) (s : qst DRR) : result (option positive * qst DRR) :=
  let d := disc s in
  if bytecnt d =? 0 then Ok (None, s)
  else
    match drr d with
    | None => Fault NullDeref
    | Some B =>
        let! '(o, d) := serve_loop (serve_fuel d) (mem s) d B in
        Ok (o, mkQst d (base s) (mem s))
    end.

(** The loop of [clear] over the buckets from index [q]. *)
Fixpoint clear_loop (i : nat) (q : nat) (B : gmap positive PacketDRR) : result unit :=
  match i with
  | O => Ok tt
  | S i =>
      match B !! slot q with
      | None => Fault OutOfBounds
      | Some v => if itrue (pkts (flow v)) then Fault Exited else clear_loop i (S q) B
      end
  end.

(** A negative [buckets_] makes [while (i--)] run off the array. *)
Definition DRR_clear (d : DRR) : result DRR :=
  match drr d with
  | None => Ok d
  | Some B =>
      if buckets_ d <? 0 then Fault OutOfBounds
      else
        let! _ := clear_loop (Z.to_nat (buckets_ d)) 0 B in
        Ok (mkDRR (buckets_ d) (blimit_ d) (quantum_ d) (mask_ d) (bytecnt d) (pktcnt d)
              (flwcnt d) (curr d) None)
  end.

(** The Tcl commands, with the argument as [atoi] gives it. *)
Definition DRR_command_blimit (n : Z) (d : DRR) : result DRR :=
  if n <? bytecnt d then Fault Exited
  else Ok (mkDRR (buckets_ d) n (quantum_ d) (mask_ d) (bytecnt d) (pktcnt d) (flwcnt d)
             (curr d) (drr d)).

Definition DRR_command_buckets (n : Z) (d : DRR) : result DRR :=
  let! d := DRR_clear d in
  Ok (mkDRR n (blimit_ d) (quantum_ d) (mask_ d) (bytecnt d) (pktcnt d) (flwcnt d)
        (curr d) (drr d)).

Definition DRR_command_quantum (n : Z) (d : DRR) : DRR :=
  mkDRR (buckets_ d) (blimit_ d) n (mask_ d) (bytecnt d) (pktcnt d) (flwcnt d) (curr d) (drr d).

Definition DRR_command_mask (n : Z) (d : DRR) : DRR :=
  mkDRR (buckets_ d) (blimit_ d) (quantum_ d) n (bytecnt d) (pktcnt d) (flwcnt d) (curr d) (drr d).

#[export] Instance drr_discipline : Discipline DRR := {|
  enque := DRR_enque;
  deque := DRR_deque;
|}.

(** ** The invariant *)

(** Packet sizes for which no counter can overflow. *)
Definition fair_size (n : Z) : Prop := 0 < n < 2 ^ 30.

Record drr_ok (f : drr_flow) (h : gmap positive packet) (c : list positive) : Prop := {
  do_queue : pq_rep h (queue f) c;
  do_pkts : pkts f = Z.of_nat (length c);
  do_bcount : bcount f = total_size h c;
  do_sizes : Forall (fun p => fair_size (size_at h p)) c;
  do_turn : turn f = 0 \/ turn f = 1;
  do_deficit : 0 <= deficitCounter f < 2 ^ 31;
  do_idle : turn f = 0 -> deficitCounter f < 2 ^ 30;
}.

Lemma drr_ok_agree f h h' c : agree_on c h h' -> drr_ok f h c -> drr_ok f h' c.
Proof.
  intros A []. split; try done.
  - by eapply pq_rep_agree.
  - by rewrite (agree_total _ _ _ A).
  - rewrite Forall_forall in do_sizes0 |- *. intros p Hp. unfold size_at. rewrite A by done.
    by apply do_sizes0.
Qed.

(** The discipline between two operations: its counters are those of the
    packets held. *)
Record drr_mid (h : gmap positive packet) (d : DRR) (B : gmap positive PacketDRR)
    (fs : list (positive * list positive)) : Prop := {
  dm_flows : flows drr_ok h B (curr d) fs;
  dm_bytes : bytecnt d = total_size h (held fs);
  dm_pkts : pktcnt d = Z.of_nat (length (held fs));
  dm_flws : flwcnt d = Z.of_nat (length fs);
  dm_bound : total_size h (held fs) < 2 ^ 31;
  dm_array : forall i, 0 <= i < buckets_ d -> is_Some (B !! slot (Z.to_nat i));
}.

Lemma total_size_length h c :
  Forall (fun p => fair_size (size_at h p)) c -> Z.of_nat (length c) <= total_size h c.
Proof.
  induction 1 as [|p c Hp _ IH]; cbn [length total_size foldr]; [lia|].
  fold (total_size h c). unfold fair_size in Hp. lia.
Qed.

Lemma held_sizes h (B : gmap positive PacketDRR) cu fs :
  flows drr_ok h B cu fs -> Forall (fun p => fair_size (size_at h p)) (held fs).
Proof.
  intros Hf. rewrite Forall_forall. intros p (l & c & Hin & Hp)%held_in.
  destruct (flows_lookup _ _ _ _ _ _ _ Hf Hin) as (b & _ & Hok).
  pose proof (do_sizes _ _ _ Hok) as Hs. rewrite Forall_forall in Hs. auto.
Qed.

Lemma flows_length h (B : gmap positive PacketDRR) cu fs :
  flows drr_ok h B cu fs -> (length fs <= length (held fs))%nat.
Proof.
  intros Hf. pose proof (fl_full _ _ _ _ _ Hf) as Hfull. clear Hf.
  induction fs as [|[l c] fs IH]; [done|]. unfold held. cbn. rewrite length_app.
  destruct (Hfull l c ltac:(left)) as [Hne _]. destruct c as [|p c]; [done|]. cbn.
  fold (held fs). enough (length fs <= length (held fs))%nat by lia.
  apply IH. intros k ck Hin. apply Hfull. by right.
Qed.

(** The bounds all the counters obey. *)
Lemma drr_mid_bounds h d B fs :
  drr_mid h d B fs ->
  0 <= flwcnt d <= pktcnt d /\ pktcnt d <= bytecnt d < 2 ^ 31.
Proof.
  intros [Hf -> -> -> Hb _].
  pose proof (total_size_length _ _ (held_sizes _ _ _ _ Hf)).
  pose proof (flows_length _ _ _ _ Hf). lia.
Qed.

Lemma total_held_mid h pre l c post :
  total_size h (held (pre ++ (l, c) :: post)) = total_size h c + total_size h (held (pre ++ post)).
Proof. by rewrite (total_size_perm _ _ _ (held_mid pre l c post)), total_size_app. Qed.

Lemma length_held_mid pre l c post :
  length (held (pre ++ (l, c) :: post)) = (length c + length (held (pre ++ post)))%nat.
Proof. by rewrite (Permutation_length (held_mid pre l c post)), length_app. Qed.

(** ** The flow with the most bytes *)

Lemma maxflow_loop_spec h (B : gmap positive PacketDRR) fs cu rest tmp best cb :
  flows drr_ok h B cu fs ->
  seg fnext B tmp rest.*1 cu -> (forall x, x ∈ rest -> x ∈ fs) -> (best, cb) ∈ fs ->
  exists l c, maxflow_loop (length rest) tmp (Some best) B = Ok (Some l) /\ (l, c) ∈ fs /\
    total_size h cb <= total_size h c /\
    forall l' c', (l', c') ∈ rest -> total_size h c' <= total_size h c.
Proof.
  intros Hf. revert tmp best cb.
  induction rest as [|[k ck] rest IH]; intros tmp best cb Hs Hsub Hbest.
  - exists best, cb. split_and!; [done|done|lia|]. intros l' c' Hin. by apply not_elem_of_nil in Hin.
  - rewrite fmap_cons in Hs. cbn [fst] in Hs. destruct Hs as [-> (kv & Hkv & Hs)].
    destruct (flows_lookup _ _ _ _ _ _ _ Hf Hbest) as (bv & Hbv & Hbok).
    destruct (flows_lookup _ _ _ _ _ _ _ Hf (Hsub (k, ck) ltac:(left))) as (kv' & Hkv' & Hkok).
    assert (kv' = kv) as -> by congruence.
    cbn [length maxflow_loop]. rewrite (load_Some _ _ _ Hbv), (load_Some _ _ _ Hkv). cbn [rbind].
    cbn [data_of drr_linked] in Hbok, Hkok.
    rewrite (do_bcount _ _ _ Hbok), (do_bcount _ _ _ Hkok).
    assert (Hsub' : forall x, x ∈ rest -> x ∈ fs) by (intros x Hx; apply Hsub; by right).
    destruct (Z.ltb_spec (total_size h cb) (total_size h ck)).
    + destruct (IH (fnext kv) k ck Hs Hsub' (Hsub (k, ck) ltac:(left)))
        as (l & c & Hm & Hin & Hle & Hall).
      exists l, c. split_and!; [done|done|lia|].
      intros l' c' [[= -> ->]|Hin']%elem_of_cons; [done|by eapply Hall].
    + destruct (IH (fnext kv) best cb Hs Hsub' Hbest) as (l & c & Hm & Hin & Hle & Hall).
      exists l, c. split_and!; [done|done|lia|].
      intros l' c' [[= -> ->]|Hin']%elem_of_cons; [lia|by eapply Hall].
Qed.

Lemma getMaxflow_spec h d B fs :
  drr_mid h d B fs -> fs <> [] ->
  exists l c, getMaxflow d B = Ok (Some l) /\ (l, c) ∈ fs /\
    forall l' c', (l', c') ∈ fs -> total_size h c' <= total_size h c.
Proof.
  intros [Hf _ _ Hn _ _] Hne. unfold getMaxflow. rewrite Hn, Nat2Z.id.
  destruct fs as [|[k ck] fs]; [done|]. pose proof Hf as [[_ Hl] Hcu _ _ _].
  cbn [fmap list_fmap fst head] in Hcu, Hl. rewrite Hcu in *. specialize (Hl ltac:(done)).
  apply dseg_seg in Hl.
  destruct (maxflow_loop_spec h B _ _ ((k, ck) :: fs) (Some k) k ck Hf Hl ltac:(done) ltac:(left))
    as (l & c & Hm & Hin & _ & Hall).
  by exists l, c.
Qed.

(** ** Taking the oldest packet of a flow *)

(** What is left of the ring when the flow at [l] keeps [c0]. *)
Definition keep (pre : list (positive * list positive)) (l : positive) (c0 : list positive)
    (post : list (positive * list positive)) : list (positive * list positive) :=
  match c0 with [] => pre ++ post | _ => pre ++ (l, c0) :: post end.

Lemma held_keep pre l c0 post : held (keep pre l c0 post) ≡ₚ c0 ++ held (pre ++ post).
Proof. destruct c0; cbn [keep]; [done|apply held_mid]. Qed.

Lemma drr_take h d B pre l p c0 post b f :
  drr_mid h d B (pre ++ (l, p :: c0) :: post) -> B !! l = Some b ->
  drr_ok f h (p :: c0) ->
  exists q pv, pq_deque (queue f) h = Ok (Some p, q) /\ h !! p = Some pv /\
    fair_size (pk_size pv) /\ drr_ok (take_packet q (pk_size pv) f) h c0.
Proof.
  intros Hm Hb [Hq Hp Hby Hs Ht Hd Hi].
  destruct (pq_deque_cons _ _ _ _ Hq) as (q & Hdq & Hr & _).
  destruct (pq_rep_lookup _ _ _ p Hq ltac:(left)) as [pv Hpv].
  exists q, pv. apply Forall_cons in Hs as [Hs1 Hs2].
  rewrite (size_at_Some _ _ _ Hpv) in Hs1. split_and!; [done|done|apply Hs1..|].
  pose proof (drr_mid_bounds _ _ _ _ Hm) as [_ Hbd].
  rewrite (dm_bytes _ _ _ _ Hm), (dm_pkts _ _ _ _ Hm), total_held_mid, length_held_mid in Hbd.
  pose proof (total_size_length _ _ Hs2) as Hl0.
  pose proof (held_sizes _ _ _ _ (dm_flows _ _ _ _ Hm)) as Hall.
  rewrite held_mid in Hall. apply Forall_app in Hall as [_ Hall].
  pose proof (total_size_length _ _ Hall) as Hl1.
  cbn [length total_size foldr] in *. fold (total_size h c0) in *.
  rewrite (size_at_Some _ _ _ Hpv) in *. unfold fair_size in Hs1.
  split; cbn [queue pkts bcount turn deficitCounter take_packet]; try done.
  - rewrite Hp, wrap_small; lia.
  - rewrite Hby, wrap_small; lia.
Qed.

(** The counters after the packet is gone, with the bucket emptied or not;
    [b'] is the bucket as the caller leaves it. *)
Lemma drr_take_mid h d B pre l p c0 post b b' pv :
  drr_mid h d B (pre ++ (l, p :: c0) :: post) -> B !! l = Some b -> h !! p = Some pv ->
  fair_size (pk_size pv) -> drr_ok (flow b') h c0 ->
  fnext b' = fnext b -> fprev b' = fprev b ->
  exists c B' flws,
    (if bool_decide (c0 = []) then
       let! '(c, B) := idle l (curr d) (<[l := b']> B) in Ok (c, B, wrap_i32 (flwcnt d - 1))
     else Ok (curr d, <[l := b']> B, flwcnt d)) = Ok (c, B', flws) /\
    drr_mid h (with_state (wrap_i32 (bytecnt d - pk_size pv)) (wrap_i32 (pktcnt d - 1)) flws c B' d)
      B' (keep pre l c0 post).
Proof.
  intros Hm Hb Hpv Hsz Hok Hn Hp. pose proof (drr_mid_bounds _ _ _ _ Hm) as [Hfl Hbd].
  destruct Hm as [Hf Hby Hpk Hfw Hbound Hidx].
  assert (Htot : total_size h (held (keep pre l c0 post)) = bytecnt d - pk_size pv).
  { rewrite Hby, total_held_mid, (total_size_perm _ _ _ (held_keep _ _ _ _)), total_size_app.
    cbn [total_size foldr]. fold (total_size h c0). rewrite (size_at_Some _ _ _ Hpv). lia. }
  assert (Hlen : Z.of_nat (length (held (keep pre l c0 post))) = pktcnt d - 1).
  { rewrite Hpk, length_held_mid, (Permutation_length (held_keep _ _ _ _)), length_app.
    cbn [length]. lia. }
  assert (Hlf : flwcnt d = Z.of_nat (S (length (pre ++ post)))).
  { rewrite Hfw, !length_app. cbn [length]. lia. }
  pose proof (fl_NoDup _ _ _ _ _ Hf) as Hnd. rewrite held_mid in Hnd.
  assert (Hmid : forall c B' flws, flows drr_ok h B' c (keep pre l c0 post) ->
    flws = Z.of_nat (length (keep pre l c0 post)) ->
    (forall k, is_Some (B !! k) -> is_Some (B' !! k)) ->
    drr_mid h (with_state (wrap_i32 (bytecnt d - pk_size pv)) (wrap_i32 (pktcnt d - 1)) flws c B' d)
      B' (keep pre l c0 post)).
  { intros c B' flws Hf' Hflws Hdom. unfold fair_size in Hsz.
    split; cbn [curr bytecnt pktcnt flwcnt buckets_ with_state]; try done.
    - rewrite Htot, wrap_small; [done|]. pose proof (total_size_length _ _ (held_sizes _ _ _ _ Hf')).
      lia.
    - rewrite Hlen, wrap_small; lia.
    - lia.
    - intros i Hi. by apply Hdom, Hidx. }
  destruct c0 as [|k c0].
  - rewrite bool_decide_eq_true_2 by done.
    edestruct (flows_leave drr_ok drr_ok_agree h h B (curr d) pre l [p] post b b')
      as (B' & Hi & Hf' & Hdom); [done..|].
    rewrite Hi. cbn [rbind]. eexists _, _, _. split; [done|]. apply Hmid; [done| |done].
    cbn [keep]. rewrite wrap_small; lia.
  - rewrite bool_decide_eq_false_2 by done. eexists _, _, _. split; [done|]. apply Hmid.
    + cbn [keep]. apply (flows_set drr_ok drr_ok_agree h h B (curr d) pre l (p :: k :: c0) (k :: c0)
        post b b'); try done. cbn [app] in Hnd. by apply NoDup_cons in Hnd as [_ ?].
    + cbn [keep]. rewrite Hlf, !length_app. cbn [length]. lia.
    + intros i Hi. apply lookup_insert_is_Some'. by right.
Qed.

Lemma pkts_zero f h c : drr_ok f h c -> (pkts f =? 0) = bool_decide (c = []).
Proof.
  intros []. rewrite do_pkts0. destruct c; [done|]. cbn [length].
  rewrite bool_decide_eq_false_2 by done. apply Z.eqb_neq. lia.
Qed.

Lemma drop_loop_spec fuel h d B fs :
  drr_mid h d B fs -> drr d = Some B -> 0 <= blimit_ d -> (length (held fs) < fuel)%nat ->
  exists d' B' fs' ds, drop_loop fuel h d B = Ok (d', ds) /\ drr_mid h d' B' fs' /\
    drr d' = Some B' /\ held fs' ++ ds ≡ₚ held fs /\ total_size h (held fs') <= blimit_ d /\
    buckets_ d' = buckets_ d /\ blimit_ d' = blimit_ d /\ quantum_ d' = quantum_ d /\
    (total_size h (held fs) <= blimit_ d -> d' = d /\ ds = []).
Proof.
  revert d B fs. induction fuel as [|fuel IH]; intros d B fs Hm HB Hlim Hfuel; [lia|].
  cbn [drop_loop]. destruct (Z.ltb_spec (blimit_ d) (bytecnt d)) as [Hlt|Hge].
  - assert (Hne : fs <> []).
    { intros ->. rewrite (dm_bytes _ _ _ _ Hm) in Hlt. cbn in Hlt. lia. }
    destruct (getMaxflow_spec _ _ _ _ Hm Hne) as (l & c & -> & Hin & _). cbn [rbind].
    destruct (flows_lookup _ _ _ _ _ _ _ (dm_flows _ _ _ _ Hm) Hin) as (b & Hb & Hok).
    destruct (fl_full _ _ _ _ _ (dm_flows _ _ _ _ Hm) l c Hin) as [Hcne _].
    destruct c as [|p c0]; [done|]. apply list_elem_of_split in Hin as (pre & post & ->).
    rewrite (load_Some _ _ _ Hb). cbn [rbind]. cbn [data_of drr_linked] in Hok.
    destruct (drr_take _ _ _ _ _ _ _ _ _ _ Hm Hb Hok) as (q & pv & -> & Hpv & Hsz & Hok').
    cbn [rbind]. rewrite (load_Some _ _ _ Hpv). cbn [rbind].
    rewrite (store_Some _ _ _ _ Hb). cbn [rbind]. unfold load at 1. rewrite lookup_insert_eq.
    cbn [rbind]. set (b' := on_flow _ b).
    rewrite (pkts_zero (flow b') h c0) by done.
    destruct (drr_take_mid _ _ _ _ _ _ _ _ _ b' _ Hm Hb Hpv Hsz Hok' ltac:(done) ltac:(done))
      as (cu & B' & flws & Heq & Hm').
    rewrite Heq. cbn [rbind].
    destruct (IH _ B' _ Hm' ltac:(done) Hlim)
      as (d' & B2 & fs' & ds & -> & Hm2 & HB2 & Hp & Hle & C1 & C2 & C3 & _).
    { rewrite (Permutation_length (held_keep _ _ _ _)), length_app.
      rewrite length_held_mid in Hfuel. cbn [length] in Hfuel. lia. }
    cbn [rbind]. eexists d', B2, fs', (p :: ds). split; [done|]. split_and!; try done.
    + rewrite held_mid, <- Permutation_middle, Hp, held_keep. done.
    + rewrite <- (dm_bytes _ _ _ _ Hm). lia.
  - rewrite (dm_bytes _ _ _ _ Hm) in Hge. eexists d, B, fs, []. split; [done|].
    by split_and!; rewrite ?app_nil_r.
Qed.

(** ** Adding a packet *)

Lemma put_packet_ok f h p pv c pq h' :
  drr_ok f h c -> p ∉ c -> h !! p = Some pv -> fair_size (pk_size pv) ->
  total_size h c + pk_size pv < 2 ^ 31 ->
  pq_rep h' pq (c ++ [p]) ->
  relinked (c ++ [p]) h h' -> drr_ok (put_packet pq (pk_size pv) f) h' (c ++ [p]).
Proof.
  intros [Hq Hp Hby Hs Ht Hd Hi] Hpc Hpv Hsz Hb Hr R.
  pose proof (total_size_length _ _ Hs). unfold fair_size in Hsz.
  split; cbn [queue pkts bcount turn deficitCounter put_packet]; try done.
  - rewrite length_app. cbn [length]. rewrite Hp, wrap_small; lia.
  - rewrite (relinked_total _ _ _ _ R), total_size_app. cbn [total_size foldr].
    rewrite (size_at_Some _ _ _ Hpv), Hby, wrap_small; lia.
  - rewrite Forall_forall. intros k Hk. rewrite (relinked_size _ _ _ _ R).
    apply elem_of_app in Hk as [Hk| ->%list_elem_of_singleton].
    + rewrite Forall_forall in Hs. auto.
    + by rewrite (size_at_Some _ _ _ Hpv).
Qed.

(** The bucket at [q], whose flow is [f] after the collision check, takes
    the packet [p]. *)
Lemma drr_put h B cu fs q b f p pv n :
  flows drr_ok h B cu fs -> B !! q = Some b -> (forall c, drr_ok (flow b) h c -> drr_ok f h c) ->
  p ∉ held fs -> h !! p = Some pv -> fair_size (pk_size pv) ->
  total_size h (held fs) + pk_size pv < 2 ^ 31 -> n = Z.of_nat (length fs) ->
  exists t pq h' c B' flws fs', pq_enque p (queue f) h = Ok (t, pq, h') /\
    (let b' := mkPacketDRR (put_packet pq (pk_size pv) f) (fprev b) (fnext b) in
     if pkts (flow b') =? 1 then
       let! '(c, B) := activate q cu (<[q := b']> B) in
       let! B := store B (Some q) (on_flow (set_deficit 0)) in
       Ok (c, B, wrap_i32 (n + 1))
     else Ok (cu, <[q := b']> B, n)) = Ok (c, B', flws) /\
    flows drr_ok h' B' c fs' /\ held fs' ≡ₚ p :: held fs /\ flws = Z.of_nat (length fs') /\
    relinked (p :: held fs) h h' /\ (forall k, is_Some (B !! k) -> is_Some (B' !! k)).
Proof.
  intros Hf Hb Hfl Hp Hpv Hsz Htot Hn. pose proof (fl_NoDup _ _ _ _ _ Hf) as Hnd.
  pose proof (held_sizes _ _ _ _ Hf) as Hall.
  pose proof (flows_length _ _ _ _ Hf) as Hlf.
  pose proof (total_size_length _ _ Hall) as Hlt. unfold fair_size in Hsz.
  destruct (decide (q ∈ fs.*1)) as [Hin|Hnin].
  - apply list_elem_of_fmap in Hin as ([q' c0] & Heq & (pre & post & ->)%list_elem_of_split).
    cbn [fst] in Heq. subst q'.
    destruct (fl_full _ _ _ _ _ Hf q c0 ltac:(clear; set_solver)) as (Hne & b2 & Hb2 & Hok).
    assert (b2 = b) as -> by congruence. apply Hfl in Hok.
    rewrite held_mid in Hp, Hnd, Hall. rewrite total_held_mid in Htot, Hlt.
    rewrite length_held_mid in Hlt, Hlf. apply Forall_app in Hall as [_ Hall].
    pose proof (total_size_length _ _ Hall) as Hl1.
    apply not_elem_of_app in Hp as [Hp0 Hp1].
    destruct (pq_enque_spec p pv _ _ _ (do_queue _ _ _ Hok) Hp0 Hpv) as (pq & h' & He & Hr & R & _).
    assert (Hok' : drr_ok (put_packet pq (pk_size pv) f) h' (c0 ++ [p])).
    { eapply put_packet_ok; try done. lia. }
    eexists _, pq, h', cu, _, n, (pre ++ (q, c0 ++ [p]) :: post). split; [exact He|].
    cbn [flow]. rewrite (do_pkts _ _ _ Hok'), length_app. cbn [length].
    rewrite (proj2 (Z.eqb_neq _ _)) by (destruct c0; cbn [length]; lia || done).
    split; [done|]. split; [|split; [|split; [|split]]].
    + apply (flows_set drr_ok drr_ok_agree h h' B cu pre q c0 (c0 ++ [p]) post b); try done.
      * by destruct c0.
      * eapply relinked_agree; [done|]. intros k Hk1 Hk2.
        apply elem_of_app in Hk2 as [Hk2| ->%list_elem_of_singleton]; [|done].
        apply NoDup_app in Hnd as (_ & Hd & _). by apply (Hd k).
      * rewrite <- app_assoc. cbn [app]. rewrite <- Permutation_middle.
        apply NoDup_cons. split; [|done]. intros [?|?]%elem_of_app; done.
    + rewrite !held_mid. clear. solve_Permutation.
    + rewrite Hn, !length_app. done.
    + eapply relinked_mono; [|done]. intros k Hk. rewrite held_mid.
      clear - Hk. set_solver.
    + intros k Hk. apply lookup_insert_is_Some'. by right.
  - pose proof (Hfl [] (fl_empty _ _ _ _ _ Hf q b Hb Hnin)) as Hok.
    destruct (pq_enque_spec p pv _ _ _ (do_queue _ _ _ Hok) ltac:(apply not_elem_of_nil) Hpv)
      as (pq & h' & He & Hr & R & _). cbn [app] in Hr, R.
    assert (Hok' : drr_ok (put_packet pq (pk_size pv) f) h' [p]).
    { apply (put_packet_ok f h p pv [] pq h'); try done; [apply not_elem_of_nil|cbn; lia]. }
    set (b' := mkPacketDRR (put_packet pq (pk_size pv) f) (fprev b) (fnext b)).
    edestruct (flows_enter drr_ok drr_ok_agree h h' B cu fs q b b' [p])
      as (B' & Ha & Hf' & (b2 & Hb2 & Hd2) & Hdom); try done.
    { eapply relinked_agree; [done|]. intros k Hk1 ->%list_elem_of_singleton. done. }
    { apply NoDup_app. split_and!; [done| |apply NoDup_singleton].
      intros k Hk1 ->%list_elem_of_singleton. done. }
    eexists _, pq, h', _, (<[q := on_flow (set_deficit 0) b2]> B'), _, (fs ++ [(q, [p])]).
    split; [exact He|]. cbv zeta. fold b'. cbn [flow b']. rewrite (do_pkts _ _ _ Hok').
    cbn [length Z.of_nat Z.eqb Pos.eqb Pos.of_succ_nat]. rewrite Ha. cbn [rbind].
    rewrite (store_Some _ _ _ _ Hb2). cbn [rbind]. split; [done|].
    split; [|split; [|split; [|split]]].
    + apply (flows_set drr_ok drr_ok_agree h' h' B' _ fs q [p] [p] [] b2); try done.
      * cbn [data_of drr_linked flow on_flow] in *. rewrite Hd2.
        destruct Hok' as [? ? ? ? ? ? ?]. split; cbn [queue pkts bcount turn deficitCounter set_deficit];
          try done; lia.
      * rewrite app_nil_r. cbn [app]. by apply NoDup_cons.
    + rewrite held_mid, app_nil_r. done.
    + rewrite length_app, wrap_small; cbn [length]; lia.
    + eapply relinked_mono; [|done]. clear. set_solver.
    + intros k Hk. apply lookup_insert_is_Some'. right. by apply Hdom.
Qed.

(** ** The laws *)

Definition drr_holds (s : qst DRR) (c : list positive) : Prop :=
  let d := disc s in
  0 < buckets_ d /\ 0 <= blimit_ d < 2 ^ 30 /\ 0 < quantum_ d <= 2 ^ 30 /\
  match drr d with
  | None => c = [] /\ curr d = None /\ bytecnt d = 0 /\ pktcnt d = 0 /\ flwcnt d = 0
  | Some B => exists fs, drr_mid (mem s) d B fs /\ c ≡ₚ held fs /\ bytecnt d <= blimit_ d
  end.

(** Packets of positive size whose hash is the index of a bucket. *)
Definition drr_accepts (s : qst DRR) (v : packet) : Prop :=
  fair_size (pk_size v) /\ 0 <= DRR_hash (disc s) v.

(** The bucket array of the first packet, or the one that is there. *)
Definition array_of (d : DRR) : gmap positive PacketDRR :=
  match drr d with
  | Some B => B
  | None => new_array (Z.to_nat (buckets_ d)) new_flow
  end.

Lemma array_of_mid s c :
  drr_holds s c ->
  exists fs, drr_mid (mem s) (disc s) (array_of (disc s)) fs /\ c ≡ₚ held fs /\
    bytecnt (disc s) <= blimit_ (disc s).
Proof.
  intros (Hb & Hl & Hq & Hc). unfold array_of. destruct (drr (disc s)) as [B|] eqn:HB; [done|].
  destruct Hc as (-> & Hcu & Hby & Hpk & Hfw). exists []. split; [|split; [done|lia]].
  split; rewrite ?Hcu, ?Hby, ?Hpk, ?Hfw; try done.
  - split; cbn; try done.
    + split; [apply NoDup_nil_2|done].
    + intros l c Hin. by apply not_elem_of_nil in Hin.
    + intros l b Hin _. apply new_array_inv in Hin as ->. split; cbn; try done; try lia.
    + apply NoDup_nil_2.
  - intros i Hi. rewrite new_array_lookup, decide_True by lia. done.
Qed.

Lemma DRR_enque_spec now p v s c :
  drr_holds s c -> p ∉ c -> mem s !! p = Some v -> drr_accepts s v ->
  exists s' c' ds, DRR_enque now p s = Ok (s', ds) /\ drr_holds s' c' /\ c' ++ ds ≡ₚ p :: c /\
    relinked (p :: c) (mem s) (mem s') /\ blimit_ (disc s') = blimit_ (disc s) /\
    total_size (mem s') c' <= blimit_ (disc s) /\
    (total_size (mem s) c + pk_size v <= blimit_ (disc s) -> ds = []).
Proof.
  intros Hh Hp Hv [Hsz Hacc]. pose proof Hh as (Hb & Hl & Hqu & _).
  destruct (array_of_mid s c Hh) as (fs & Hm & Hc & Hlim).
  unfold DRR_enque. rewrite (load_Some _ _ _ Hv). cbn [rbind]. fold (array_of (disc s)).
  set (d := disc s) in *. set (B := array_of d) in *.
  rewrite (proj2 (Z.eqb_neq _ _)) by lia. cbn [rbind].
  pose proof (Z.rem_bound_pos (DRR_hash d v) (buckets_ d) Hacc ltac:(lia)) as Hw.
  set (w := Z.rem _ _) in *. destruct (dm_array _ _ _ _ Hm w Hw) as [b Hq].
  unfold elem_ptr. rewrite (proj2 (Z.leb_le _ _)) by lia. rewrite Hq. cbn [rbind].
  set (q := slot (Z.to_nat w)) in *. rewrite (store_Some _ _ _ _ Hq). cbn [rbind].
  unfold load at 1. rewrite lookup_insert_eq. cbn [rbind].
  set (b1 := on_flow _ b). pose proof (dm_bytes _ _ _ _ Hm) as Hby.
  assert (Hb1 : forall c, drr_ok (flow b) (mem s) c -> drr_ok (flow b1) (mem s) c).
  { intros c0 Hok. subst b1. cbn [flow on_flow]. destruct (src (flow b) =? -1); [|done].
    destruct Hok. by split. }
  unfold fair_size in Hsz.
  destruct (drr_put _ B (curr d) fs q b (flow b1) p v (flwcnt d) (dm_flows _ _ _ _ Hm) Hq Hb1)
    as (t & pq & h' & cu & B' & flws & fs' & He & Hst & Hf' & Hpm & Hfw & R & Hdom).
  { by rewrite <- Hc. }
  { done. }
  { done. }
  { lia. }
  { apply (dm_flws _ _ _ _ Hm). }
  rewrite He. cbn [rbind]. unfold store at 1. rewrite lookup_insert_eq. cbn [rbind].
  rewrite insert_insert_eq. unfold load at 1. rewrite lookup_insert_eq. cbn [rbind].
  change (on_flow (put_packet pq (pk_size v)) b1)
    with (mkPacketDRR (put_packet pq (pk_size v) (flow b1)) (fprev b) (fnext b)).
  cbv zeta in Hst. rewrite Hst. cbn [rbind].
  pose proof (drr_mid_bounds _ _ _ _ Hm) as [Hb2 Hb3].
  set (d1 := with_state _ _ _ _ _ _).
  assert (Hm1 : drr_mid h' d1 B' fs').
  { subst d1. split; cbn [curr bytecnt pktcnt flwcnt buckets_ with_state]; try done.
    - rewrite (relinked_total _ _ _ _ R), (total_size_perm _ _ _ Hpm). cbn [total_size foldr].
      fold (total_size (mem s) (held fs)). rewrite (size_at_Some _ _ _ Hv), <- Hby, wrap_small; lia.
    - rewrite Hpm. cbn [length]. rewrite (dm_pkts _ _ _ _ Hm) in *. rewrite wrap_small; lia.
    - rewrite (relinked_total _ _ _ _ R), (total_size_perm _ _ _ Hpm). cbn [total_size foldr].
      fold (total_size (mem s) (held fs)). rewrite (size_at_Some _ _ _ Hv), <- Hby. lia.
    - intros i Hi. by apply Hdom, (dm_array _ _ _ _ Hm). }
  destruct (drop_loop_spec (drop_fuel d1) h' d1 B' fs' Hm1 ltac:(done) ltac:(apply Hl))
    as (d2 & B2 & fs2 & ds & -> & Hm2 & HB2 & Hp2 & Hle & C1 & C2 & C3 & Hfit).
  { unfold drop_fuel. rewrite (dm_pkts _ _ _ _ Hm1). lia. }
  cbn [rbind]. eexists _, (held fs2), ds. split; [done|]. split; [|split; [|split; [|split; [|split]]]].
  - unfold drr_holds. cbn [disc mem]. rewrite HB2, C1, C2, C3. split; [exact Hb|].
    split; [exact Hl|]. split; [exact Hqu|]. exists fs2.
    split; [exact Hm2|]. split; [done|]. rewrite (dm_bytes _ _ _ _ Hm2). exact Hle.
  - by rewrite Hp2, Hpm, Hc.
  - eapply relinked_mono; [|exact R]. intros k Hk. rewrite Hc. done.
  - exact C2.
  - exact Hle.
  - intros Hroom. apply Hfit. rewrite <- (dm_bytes _ _ _ _ Hm1). subst d1.
    cbn [bytecnt blimit_ with_state]. rewrite Hby, <- (total_size_perm _ _ _ Hc), wrap_small; [done|].
    rewrite (total_size_perm _ _ _ Hc), <- Hby. lia.
Qed.

Lemma DRR_enque_law now p v s c :
  drr_holds s c -> p ∉ c -> mem s !! p = Some v -> drr_accepts s v ->
  exists s' c' ds, DRR_enque now p s = Ok (s', ds) /\ drr_holds s' c' /\ c' ++ ds ≡ₚ p :: c /\
    relinked (p :: c) (mem s) (mem s').
Proof.
  intros Hh Hp Hv Ha.
  destruct (DRR_enque_spec now p v s c Hh Hp Hv Ha) as (s' & c' & ds & He & Hh' & Hc & R & _).
  by exists s', c', ds.
Qed.

(** ** Serving *)

(** How many turns a flow can fail before it sends. *)
Definition need (h : gmap positive packet) (B : gmap positive PacketDRR)
    (x : positive * list positive) : nat :=
  match x.2, B !! x.1 with
  | p :: _, Some b =>
      (Z.to_nat (size_at h p - deficitCounter (flow b)) +
       (if (turn (flow b) =? 0)%Z then 0 else 1))%nat
  | _, _ => O
  end.

Definition needs (h : gmap positive packet) (B : gmap positive PacketDRR)
    (fs : list (positive * list positive)) : nat :=
  sum_list_with (need h B) fs.

Lemma needs_insert h B a b fs : a ∉ fs.*1 -> needs h (<[a := b]> B) fs = needs h B fs.
Proof.
  intros Ha. unfold needs. induction fs as [|[l c] fs IH]; [done|]. cbn.
  rewrite fmap_cons in Ha. cbn in Ha. rewrite IH by set_solver. f_equal.
  unfold need. cbn. rewrite lookup_insert_ne by set_solver. done.
Qed.

Lemma needs_app h B fs fs' : needs h B (fs ++ fs') = (needs h B fs + needs h B fs')%nat.
Proof. apply sum_list_with_app. Qed.

Lemma needs_bound h B cu fs :
  flows drr_ok h B cu fs ->
  Z.of_nat (needs h B fs) <= total_size h (held fs) + Z.of_nat (length (held fs)).
Proof.
  intros Hf. pose proof (fl_full _ _ _ _ _ Hf) as Hfull. clear Hf.
  induction fs as [|[l c] fs IH]; [done|]. change (held ((l, c) :: fs)) with (c ++ held fs).
  change (needs h B ((l, c) :: fs)) with (need h B (l, c) + needs h B fs)%nat.
  rewrite total_size_app, length_app.
  destruct (Hfull l c ltac:(left)) as (Hne & b & Hb & Hok).
  specialize (IH ltac:(intros k ck Hin; apply Hfull; by right)).
  unfold need. cbn [fst snd]. rewrite Hb. cbn [data_of drr_linked] in Hok. destruct Hok.
  destruct c as [|p c]; [done|]. apply Forall_cons in do_sizes0 as [Hs1 Hs2].
  pose proof (total_size_length _ _ Hs2). unfold fair_size in Hs1.
  cbn [total_size foldr length]. fold (total_size h c).
  destruct (turn (flow b) =? 0); lia.
Qed.

(** The bucket after the first lines of a turn. *)
Definition begin_turn (quantum : Z) (b : PacketDRR) : PacketDRR :=
  if turn (flow b) =? 0 then
    on_flow (fun f => set_turn 1 (set_deficit (wrap_i32 (deficitCounter f + quantum)) f)) b
  else b.

Lemma begin_turn_ok quantum b h c :
  0 < quantum <= 2 ^ 30 -> drr_ok (flow b) h c -> drr_ok (flow (begin_turn quantum b)) h c.
Proof.
  intros Hq []. unfold begin_turn. destruct (Z.eqb_spec (turn (flow b)) 0) as [E|E]; [|by split].
  specialize (do_idle0 E). cbn [flow on_flow]. rewrite wrap_small by lia.
  split; cbn [queue pkts bcount turn deficitCounter set_turn set_deficit]; try done; try lia.
Qed.

Lemma begin_turn_links quantum b :
  fnext (begin_turn quantum b) = fnext b /\ fprev (begin_turn quantum b) = fprev b.
Proof. unfold begin_turn. by destruct (_ =? 0). Qed.

Lemma begin_turn_store quantum (B : gmap positive PacketDRR) a b :
  B !! a = Some b ->
  (if turn (flow b) =? 0 then
     store B (Some a) (on_flow (fun f =>
       set_turn 1 (set_deficit (wrap_i32 (deficitCounter f + quantum)) f)))
   else Ok B) = Ok (<[a := begin_turn quantum b]> B).
Proof.
  intros Hb. unfold begin_turn. destruct (turn (flow b) =? 0).
  - by rewrite (store_Some _ _ _ _ Hb).
  - by rewrite insert_id.
Qed.

(** A turn in which the flow at the head of the ring cannot send. *)
Lemma failed_turn h d B a p c0 fs b :
  drr_mid h d B ((a, p :: c0) :: fs) -> B !! a = Some b -> 0 < quantum_ d <= 2 ^ 30 ->
  let b1 := begin_turn (quantum_ d) b in
  deficitCounter (flow b1) < size_at h p ->
  let b' := on_flow (set_turn 0) b1 in
  drr_mid h (with_state (bytecnt d) (pktcnt d) (flwcnt d) (fnext b') (<[a := b']> B) d)
    (<[a := b']> B) (fs ++ [(a, p :: c0)]) /\
  (needs h (<[a := b']> B) (fs ++ [(a, p :: c0)]) < needs h B ((a, p :: c0) :: fs))%nat.
Proof.
  intros [Hf Hby Hpk Hfw Hbd Hidx] Hb Hq b1 Hlt b'.
  pose proof (flows_nodup_mid _ _ _ _ [] _ _ _ Hf) as Ha. cbn [app] in Ha.
  destruct (fl_full _ _ _ _ _ Hf a _ ltac:(left)) as (_ & b2 & Hb2 & Hok).
  assert (b2 = b) as -> by congruence. cbn [data_of drr_linked] in Hok.
  assert (Hok1 := begin_turn_ok (quantum_ d) b h _ Hq Hok). fold b1 in Hok1.
  destruct (begin_turn_links (quantum_ d) b) as [Hn Hpv]. fold b1 in Hn, Hpv.
  pose proof (do_sizes _ _ _ Hok) as [Hsz _]%Forall_cons. unfold fair_size in Hsz.
  pose proof (fl_NoDup _ _ _ _ _ Hf) as Hnd.
  split.
  - assert (Hp : held (fs ++ [(a, p :: c0)]) ≡ₚ held ((a, p :: c0) :: fs)).
    { by rewrite held_mid, app_nil_r. }
    split; cbn [curr bytecnt pktcnt flwcnt buckets_ with_state].
    + change (fnext b') with (next_of b').
      apply (flows_rotate drr_ok drr_ok_agree h (<[a := b']> B) (curr d) a (p :: c0) fs b'); [|by rewrite lookup_insert_eq].
      apply (flows_set drr_ok drr_ok_agree h h B (curr d) [] a (p :: c0) (p :: c0) fs b); try done.
      destruct Hok1. split; try done; [by left|]. intros _. cbn. lia.
    + by rewrite (total_size_perm _ _ _ Hp).
    + by rewrite (Permutation_length Hp).
    + rewrite Hfw, length_app. cbn [length]. lia.
    + by rewrite (total_size_perm _ _ _ Hp).
    + intros i Hi. apply lookup_insert_is_Some'. right. by apply Hidx.
  - rewrite needs_app, needs_insert by done. unfold needs. cbn [sum_list_with]. fold (needs h B fs).
    unfold need. cbn [fst snd]. rewrite lookup_insert_eq, Hb. cbn [flow b' on_flow set_turn turn Z.eqb].
    cbn [deficitCounter set_turn]. subst b1. unfold begin_turn in *.
    pose proof (do_deficit _ _ _ Hok). pose proof (do_idle _ _ _ Hok).
    destruct (Z.eqb_spec (turn (flow b)) 0) as [E|E]; [|lia].
    cbn [flow on_flow set_turn set_deficit deficitCounter] in *. rewrite wrap_small in * by lia. lia.
Qed.

Lemma serve_loop_spec fuel h d B fs :
  drr_mid h d B fs -> fs <> [] -> 0 < quantum_ d <= 2 ^ 30 -> (needs h B fs < fuel)%nat ->
  exists p d' B' fs', serve_loop fuel h d B = Ok (Some p, d') /\ drr_mid h d' B' fs' /\
    drr d' = Some B' /\ held fs ≡ₚ p :: held fs' /\ 
    buckets_ d' = buckets_ d /\ blimit_ d' = blimit_ d /\ quantum_ d' = quantum_ d.
Proof.
  revert d B fs. induction fuel as [|fuel IH]; intros d B fs Hm Hne Hq Hfuel; [lia|].
  destruct fs as [|[a [|p c0]] fs]; [done| |].
  { by destruct (fl_full _ _ _ _ _ (dm_flows _ _ _ _ Hm) a [] ltac:(left)). }
  pose proof (dm_flows _ _ _ _ Hm) as Hf.
  assert (Hcu : curr d = Some a) by apply (fl_curr _ _ _ _ _ Hf).
  destruct (flows_lookup _ _ _ _ _ a _ Hf ltac:(left)) as (b & Hb & Hok).
  cbn [data_of drr_linked] in Hok. assert (Hok1 := begin_turn_ok (quantum_ d) b h _ Hq Hok).
  destruct (begin_turn_links (quantum_ d) b) as [Hn Hp].
  cbn [serve_loop]. rewrite Hcu, (load_Some _ _ _ Hb). cbn [rbind].
  rewrite (begin_turn_store _ _ _ _ Hb). cbn [rbind]. unfold load at 1. rewrite lookup_insert_eq.
  cbn [rbind]. set (b1 := begin_turn _ b) in *.
  destruct (pq_rep_lookup _ _ _ p (do_queue _ _ _ Hok1) ltac:(left)) as [pv Hpv].
  unfold pq_lookup. rewrite (pq_rep_head _ _ _ (do_queue _ _ _ Hok1)). cbn [head lookup_loop].
  change (wrap_i32 (0 - 1) <? 0) with true. cbn [rbind]. rewrite (load_Some _ _ _ Hpv). cbn [rbind].
  pose proof (size_at_Some _ _ _ Hpv) as Hsz.
  destruct (Z.leb_spec (pk_size pv) (deficitCounter (flow b1))) as [Hle|Hgt].
  - set (f2 := set_deficit (wrap_i32 (deficitCounter (flow b1) - pk_size pv)) (flow b1)).
    pose proof (do_sizes _ _ _ Hok) as [Hfs _]%Forall_cons. unfold fair_size in Hfs.
    assert (Hok2 : drr_ok f2 h (p :: c0)).
    { pose proof (do_deficit _ _ _ Hok1). subst f2. rewrite wrap_small by lia.
      destruct Hok1. split; cbn [queue pkts bcount turn deficitCounter set_deficit]; try done; lia. }
    unfold store at 1. rewrite lookup_insert_eq. cbn [rbind]. rewrite insert_insert_eq.
    unfold load at 1. rewrite lookup_insert_eq. cbn [rbind flow on_flow]. fold f2.
    destruct (drr_take h d B [] a p c0 fs b f2 Hm Hb Hok2) as (q & pv' & -> & Hpv' & Hsz' & Hok3).
    assert (pv' = pv) as -> by congruence. cbn [rbind].
    unfold store at 1. rewrite lookup_insert_eq. cbn [rbind]. rewrite insert_insert_eq.
    unfold load at 1. rewrite lookup_insert_eq. cbn [rbind flow on_flow]. fold f2.
    rewrite (pkts_zero _ h c0) by done.
    set (b3 := on_flow (take_packet q (pk_size pv)) _).
    set (b4 := if bool_decide (c0 = []) then on_flow (fun f => set_deficit 0 (set_turn 0 f)) b3 else b3).
    assert (Hok4 : drr_ok (flow b4) h c0).
    { subst b4. destruct (bool_decide (c0 = [])); [|done]. destruct Hok3.
      split; cbn [queue pkts bcount turn deficitCounter set_deficit set_turn flow on_flow b3]; try done; try lia. }
    destruct (drr_take_mid h d B [] a p c0 fs b b4 pv Hm Hb Hpv Hsz' Hok4)
      as (cu & B' & flws & Heq & Hm').
    { subst b4. by destruct (bool_decide _). }
    { subst b4. by destruct (bool_decide _). }
    exists p. eexists _, B', (keep [] a c0 fs).
    split; [|split; [exact Hm'|split; [done|]]].
    + subst b4. destruct (bool_decide (c0 = [])).
      * unfold store at 1. rewrite lookup_insert_eq. cbn [rbind]. rewrite insert_insert_eq.
        rewrite Hcu in Heq. apply rbind_Ok_inv in Heq as ([x y] & Hid & [= <- <- <-]).
        rewrite Hid. done.
      * rewrite Hcu in Heq. injection Heq as <- <- <-. done.
    + split; [|done]. rewrite held_keep. done.
  - unfold store at 1. rewrite lookup_insert_eq. cbn [rbind]. rewrite insert_insert_eq.
    unfold load at 1. rewrite lookup_insert_eq. cbn [rbind].
    destruct (failed_turn h d B a p c0 fs b Hm Hb Hq) as [Hm' Hneed].
    { fold b1. lia. }
    destruct (IH _ _ _ Hm' ltac:(by destruct fs) Hq ltac:(lia))
      as (p' & d' & B' & fs' & Hs & Hm2 & HB2 & Hperm & C).
    exists p', d', B', fs'. split; [exact Hs|]. split; [done|]. split; [done|].
    split; [|exact C]. rewrite <- Hperm, held_mid, app_nil_r. done.
Qed.

Lemma DRR_deque_nil_law now s :
  drr_holds s [] -> exists s', DRR_deque now s = Ok (None, s') /\ drr_holds s' [] /\ mem s' = mem s.
Proof.
  intros Hh. exists s. split; [|done]. unfold DRR_deque. destruct Hh as (_ & _ & _ & Hc).
  destruct (drr (disc s)).
  - destruct Hc as (fs & Hm & Hp & _). apply Permutation_nil_l in Hp.
    by rewrite (dm_bytes _ _ _ _ Hm), <- Hp.
  - destruct Hc as (_ & _ & -> & _). done.
Qed.

Lemma DRR_deque_cons_law now s c :
  drr_holds s c -> c <> [] ->
  exists p c' s', DRR_deque now s = Ok (Some p, s') /\ drr_holds s' c' /\ c ≡ₚ p :: c' /\
    relinked c (mem s) (mem s').
Proof.
  intros (Hb & Hl & Hq & Hc) Hne. unfold DRR_deque.
  destruct (drr (disc s)) as [B|]; [|by destruct Hc].
  destruct Hc as (fs & Hm & Hp & Hlim). pose proof (drr_mid_bounds _ _ _ _ Hm) as [_ [Hb1 Hb2]].
  pose proof (Permutation_length Hp) as Hlen. pose proof (dm_pkts _ _ _ _ Hm) as Hpk.
  assert (Hc1 : (1 <= length c)%nat) by (destruct c; cbn; [done|lia]).
  rewrite (proj2 (Z.eqb_neq _ _)) by lia.
  destruct (serve_loop_spec (serve_fuel (disc s)) _ _ _ _ Hm) as
    (p & d' & B' & fs' & -> & Hm' & HB' & Hperm & C1 & C2 & C3); [|done| |].
  - intros ->. by apply Permutation_nil_r in Hp.
  - pose proof (needs_bound _ _ _ _ (dm_flows _ _ _ _ Hm)). unfold serve_fuel.
    rewrite (dm_bytes _ _ _ _ Hm) in *. lia.
  - cbn [rbind]. exists p, (held fs'), (mkQst d' (base s) (mem s)). split; [done|].
    split; [|split; [by rewrite Hp, Hperm|apply relinked_refl]].
    unfold drr_holds. cbn [disc mem]. rewrite HB', C1, C2, C3. split; [exact Hb|].
    split; [exact Hl|]. split; [exact Hq|]. exists fs'. split; [done|]. split; [done|].
    pose proof (held_sizes _ _ _ _ (dm_flows _ _ _ _ Hm)) as Hs. rewrite Hperm in Hs.
    apply Forall_cons in Hs as [Hs _]. unfold fair_size in Hs.
    rewrite (dm_bytes _ _ _ _ Hm'). rewrite (dm_bytes _ _ _ _ Hm) in Hlim.
    rewrite (total_size_perm _ _ _ Hperm) in Hlim. cbn [total_size foldr] in Hlim.
    fold (total_size (mem s) (held fs')) in Hlim. lia.
Qed.

#[export] Instance drr_laws : DisciplineLaws DRR.
Proof.
  refine {| holds := drr_holds; accepts := drr_accepts |}.
  - intros s c (_ & _ & _ & Hc). destruct (drr (disc s)).
    + destruct Hc as (fs & Hm & -> & _). by eapply fl_NoDup, dm_flows.
    + destruct Hc as [-> _]. apply NoDup_nil_2.
  - intros s c l (_ & _ & _ & Hc) Hl. destruct (drr (disc s)).
    + destruct Hc as (fs & Hm & Hp & _). rewrite Hp in Hl.
      apply held_in in Hl as (k & ck & Hin & Hl).
      destruct (flows_lookup _ _ _ _ _ _ _ (dm_flows _ _ _ _ Hm) Hin) as (b & _ & Hok).
      eapply pq_rep_lookup; [by eapply do_queue|done].
    + destruct Hc as [-> _]. by apply not_elem_of_nil in Hl.
  - intros s c h (Hb & Hl & Hq & Hc) A. split; [done|]. split; [done|]. split; [done|].
    cbn [disc mem]. destruct (drr (disc s)); [|done].
    destruct Hc as (fs & [Hf Hby Hpk Hfw Hbd Hidx] & Hp & Hlim). exists fs.
    assert (A' : agree_on (held fs) (mem s) h) by (intros l Hin; apply A; by rewrite Hp).
    split; [|by split]. split; try done.
    + by eapply flows_env; [apply drr_ok_agree| |].
    + by rewrite (agree_total _ _ _ A').
    + by rewrite (agree_total _ _ _ A').
  - intros s c a t Hh. exact Hh.
  - exact DRR_enque_law.
  - exact DRR_deque_nil_law.
  - exact DRR_deque_cons_law.
Defined.
