(* ===== verification/QueueTheorems.v ===== *)
(** * The queues: theorems

    The contract of the packet queue against plain lists; what the connector
    guarantees of any discipline that keeps its promises, applied to
    DropTail, stochastic fair queueing and deficit round robin; and what
    each of the three adds. *)

From stdpp Require Import base numbers list gmap.
From Stdlib Require Import ZArith Lia Bool.
From S2P Require Import Prelude.
From S2P Require Import Store.
From S2P Require Import Float64.
From S2P Require Import Dlist.
From S2P Require Import Packet.
From S2P Require Import PacketQueue.
From S2P Require Import Queue.
From S2P Require Import Ring.
From S2P Require Import DropTail.
From S2P Require Sfq.
From S2P Require Drr.
Open Scope Z_scope.

#[local] Existing Instances Sfq.sfq_linked Sfq.sfq_linked_laws Sfq.sfq Sfq.sfq_laws.
#[local] Existing Instances Drr.drr_linked Drr.drr_linked_laws Drr.drr_discipline Drr.drr_laws.

(** ** The packet queue as a list *)

Inductive pq_op :=
  | Enque (p : positive)
  | Deque
  | EnqueHead (p : positive)
  | Remove (p : positive)
  | Lookup (n : Z).

(** One call, with the pointer it returns. *)
Definition pq_call (fuel : nat) (o : pq_op) (q : PacketQueue) (h : heap)
  : result (option positive * PacketQueue * heap) :=
  match o with
  | Enque p => pq_enque p q h
  | Deque => let! '(r, q) := pq_deque q h in Ok (r, q, h)
  | EnqueHead p => let! '(q, h) := pq_enqueHead p q h in Ok (None, q, h)
  | Remove p => let! '(q, h) := pq_remove fuel p q h in Ok (None, q, h)
  | Lookup n => let! r := pq_lookup fuel n q h in Ok (r, q, h)
  end.

Fixpoint pq_calls (fuel : nat) (os : list pq_op) (q : PacketQueue) (h : heap)
  : result (list (option positive) * PacketQueue * heap) :=
  match os with
  | [] => Ok ([], q, h)
  | o :: os =>
      let! '(r, q, h) := pq_call fuel o q h in
      let! '(rs, q, h) := pq_calls fuel os q h in
      Ok (r :: rs, q, h)
  end.

(** The same on lists; [None] for the calls the class does not allow: a
    packet put into the queue twice, or removed without being there. *)
Definition list_call (o : pq_op) (ls : list positive)
  : option (option positive * list positive) :=
  match o with
  | Enque p => if decide (p ∈ ls) then None else Some (last ls, ls ++ [p])
  | Deque => Some (head ls, tail ls)
  | EnqueHead p => if decide (p ∈ ls) then None else Some (None, p :: ls)
  | Remove p =>
      match list_find (fun l => l = p) ls with
      | Some (i, _) => Some (None, delete i ls)
      | None => None
      end
  | Lookup n => if decide (- 2 ^ 31 < n < 2 ^ 31) then Some (ls !! Z.to_nat n, ls) else None
  end.

Fixpoint list_calls (os : list pq_op) (ls : list positive)
  : option (list (option positive) * list positive) :=
  match os with
  | [] => Some ([], ls)
  | o :: os =>
      match list_call o ls with
      | None => None
      | Some (r, ls) =>
          match list_calls os ls with
          | None => None
          | Some (rs, ls) => Some (r :: rs, ls)
          end
      end
  end.

Definition op_packet (o : pq_op) : list positive :=
  match o with Enque p | EnqueHead p => [p] | _ => [] end.

Lemma pq_call_spec fuel o q h ls r ls' :
  pq_rep h q ls -> list_call o ls = Some (r, ls') -> (length ls < fuel)%nat ->
  (forall p, p ∈ op_packet o -> is_Some (h !! p)) ->
  exists q' h', pq_call fuel o q h = Ok (r, q', h') /\ pq_rep h' q' ls' /\
    relinked (ls ++ op_packet o) h h' /\ (length ls' <= S (length ls))%nat.
Proof.
  intros Hr Hl Hf Hp. destruct o as [p| |p|p|n]; cbn [list_call pq_call op_packet] in *.
  - destruct (decide (p ∈ ls)) as [?|Hn]; [done|]. injection Hl as <- <-.
    destruct (Hp p ltac:(left)) as [v Hv].
    destruct (pq_enque_spec p v q h ls Hr Hn Hv) as (q' & h' & -> & Hr' & R & _).
    exists q', h'. split_and!; try done. rewrite length_app. cbn. lia.
  - injection Hl as <- <-. destruct ls as [|l ls].
    + rewrite (pq_deque_nil _ _ Hr). exists q, h. split_and!; (done || cbn; lia).
    + destruct (pq_deque_cons _ _ _ _ Hr) as (q' & -> & Hr' & _). exists q', h.
      split_and!; try done. cbn. lia.
  - destruct (decide (p ∈ ls)) as [?|Hn]; [done|]. injection Hl as <- <-.
    destruct (Hp p ltac:(left)) as [v Hv].
    destruct (pq_enqueHead_spec p v q h ls Hr Hn Hv) as (q' & h' & -> & Hr' & R & _).
    exists q', h'. split_and!; try done. eapply relinked_mono; [|done]. clear. set_solver.
  - pose proof (pq_remove_spec fuel p q h ls Hr Hf) as Hrm.
    destruct (list_find _ ls) as [[i x]|] eqn:E; [|done]. injection Hl as <- <-.
    destruct Hrm as (q' & h' & -> & Hr' & R & _). exists q', h'. cbn [rbind].
    split_and!; try done; [by rewrite app_nil_r|].
    apply list_find_Some in E as (E & _). rewrite length_delete by (by rewrite E). lia.
  - destruct (decide _) as [Hn|]; [|done]. injection Hl as <- <-.
    rewrite (pq_lookup_spec fuel n q h ls Hr Hf Hn). exists q, h. split_and!; (done || lia).
Qed.

Lemma pq_calls_spec fuel os q h ls rs ls' :
  pq_rep h q ls -> list_calls os ls = Some (rs, ls') -> (length ls + length os < fuel)%nat ->
  (forall p, p ∈ os ≫= op_packet -> is_Some (h !! p)) ->
  exists q' h', pq_calls fuel os q h = Ok (rs, q', h') /\ pq_rep h' q' ls' /\
    (forall l, set_pnext None <$> h' !! l = set_pnext None <$> h !! l).
Proof.
  revert q h ls rs. induction os as [|o os IH]; intros q h ls rs Hr Hl Hf Hp;
    cbn [list_calls pq_calls] in *.
  - injection Hl as <- <-. by exists q, h.
  - destruct (list_call o ls) as [[r ls1]|] eqn:El; [|done].
    destruct (list_calls os ls1) as [[rs1 ls2]|] eqn:Els; [|done]. injection Hl as <- <-.
    cbn [length] in Hf.
    destruct (pq_call_spec fuel o q h ls r ls1 Hr El ltac:(lia)) as (q1 & h1 & -> & Hr1 & R & Hlen).
    { intros p Hin. apply Hp. cbn. set_solver. }
    cbn [rbind]. destruct (IH q1 h1 ls1 rs1 Hr1 Els ltac:(lia)) as (q' & h' & -> & Hr' & Hbits).
    { intros p Hin. destruct (Hp p ltac:(cbn; set_solver)) as [v Hv].
      by destruct (relinked_bits _ _ _ _ _ R Hv) as (x & ->). }
    cbn [rbind]. exists q', h'. split_and!; try done. intros l. rewrite Hbits. apply R.
Qed.

(** ** Sample stores and queues, for the witnesses *)

Definition sample_packet (size src dst : Z) : packet :=
  Packet (on_ip (fun h => set_daddr dst (set_saddr src h)) (on_cmn (set_size size) fresh_headers))
    None true 0 None 0 f0.

Definition sample_heap : heap :=
  list_to_map [(1%positive, sample_packet 100 1 9); (2%positive, sample_packet 200 2 9);
               (3%positive, sample_packet 50 1 9)].

Definition sample_utils : utils := mkUtils f0 f0 f1 f1 f0 f0 0 [f0; f0] 2.

Definition sample_queue {S} (s : S) (lim : Z) : Queue S :=
  mkQueue (mkQst s (mkBase lim f0 f0) sample_heap) 0 1 sample_utils.

Definition sample_droptail : Queue DropTail.DropTail :=
  sample_queue (DropTail.mkDropTail pq_new 0 0 0 1000) 3.

Definition sample_drr : Drr.DRR := Drr.mkDRR 4 250 100 0 0 0 0 None None.

Definition sample_sfq : Sfq.SFQ := Sfq.mkSFQ 8 2 None None 0 0.

(** ** Properties *)

(** C24: any sequence of [enque], [deque], [enqueHead], [remove] and [lookup]
    calls that is legal on a list gives, on the linked queue, the results
    the list gives; the queue then holds the resulting list, with both
    counters right, and no packet has changed but in its link. *)
Theorem packet_queue_is_a_list fuel os q h ls rs ls'
  (Hrep : pq_rep h q ls) (Hlegal : list_calls os ls = Some (rs, ls'))
  (Hfuel : (length ls + length os < fuel)%nat)
  (Halloc : forall p, p ∈ os ≫= op_packet -> is_Some (h !! p)) :
  exists q' h', pq_calls fuel os q h = Ok (rs, q', h') /\ pq_rep h' q' ls' /\
    (forall l, set_pnext None <$> h' !! l = set_pnext None <$> h !! l).
Proof. by eapply pq_calls_spec. Qed.

Lemma packet_queue_is_a_list_witness :
  exists q h, pq_calls 10 [Enque 1; Enque 2; EnqueHead 3; Lookup 1; Remove 1; Deque]%positive
    pq_new sample_heap = Ok ([None; Some 1; None; Some 1; None; Some 3]%positive, q, h) /\
    pq_rep h q [2%positive].
Proof.
  destruct (packet_queue_is_a_list 10 [Enque 1; Enque 2; EnqueHead 3; Lookup 1; Remove 1; Deque]%positive
    pq_new sample_heap [] [None; Some 1; None; Some 1; None; Some 3]%positive [2%positive])
    as (q & h & Hc & Hr & _).
  - apply pq_rep_new.
  - vm_compute. reflexivity.
  - cbn. lia.
  - intros p Hp. cbn in Hp. apply list_elem_of_In in Hp. cbn in Hp.
    decompose [or] Hp; subst; try done; vm_compute; by eexists.
  - by exists q, h.
Defined.

(** Whatever the discipline, a queue that starts idle never loses or
    duplicates a packet: after any interleaving of arrivals, resumptions and
    outside events, the packets that have arrived are exactly those held,
    those sent and those dropped. *)
Theorem queue_conserves_packets {S} `{DisciplineLaws S} (exp : f64 -> f64) (n0 n : @net S) (t : list obs)
  (Hidle : net_idle n0) (Hrun : net_run exp n0 t n) :
  exists c, holds (st (nq n)) c /\ NoDup c /\ arrivals t ≡ₚ c ++ sents t ++ drops t.
Proof.
  destruct (net_run_inv exp n0 t n Hrun Hidle) as (c & Hinv). exists c.
  split; [by eapply inv_holds|]. split; [by eapply holds_NoDup, inv_holds|by eapply inv_flow].
Qed.

(** A run of the sample queue: two packets arrive, the link finishes one. *)
Lemma sample_idle : net_idle (mkNet sample_droptail []).
Proof.
  split_and!; try done. right. cbn. lia.
Qed.

Definition recv_at (exp : f64 -> f64) (p : positive) (q : Queue DropTail.DropTail) :=
  match Queue_recv exp f1 p q with Ok (q', _) => q' | _ => q end.
Definition resume_at (exp : f64 -> f64) (q : Queue DropTail.DropTail) :=
  match Queue_resume exp f1 q with Ok (q', _) => q' | _ => q end.

Lemma sample_may_arrive (p : positive) (q : Queue DropTail.DropTail) v :
  mem (st q) !! p = Some v -> head_ (DropTail.q_ (disc (st q))) = None -> may_arrive p (st q).
Proof.
  intros Hv Hh. exists v. split; [done|]. split; [done|]. intros c Hr. cbn in Hr.
  unfold DropTail.dt_holds in Hr. destruct Hr as [Hs _ _ _]. rewrite Hh in Hs.
  apply seg_nil_inv in Hs as ->. apply not_elem_of_nil.
Qed.

Definition sample_trace : list obs :=
  [Arrived 1; Did (Sent 1); Arrived 2; Did (Sent 2)]%positive.

Definition sample_end : @net DropTail.DropTail :=
  mkNet (resume_at (fun x => x) (recv_at (fun x => x) 2 (recv_at (fun x => x) 1 sample_droptail)))
    [2%positive].

Lemma sample_run : net_run (fun x => x) (mkNet sample_droptail []) sample_trace sample_end.
Proof.
  change sample_trace with ((([] ++ Arrived 1%positive :: map Did [Sent 1%positive]) ++
    Arrived 2%positive :: map Did []) ++ map Did [Sent 2%positive]).
  eapply run_snoc; [eapply run_snoc; [eapply run_snoc; [apply run_nil|]|]|].
  - eapply (step_recv _ f1 1 _ (recv_at (fun x => x) 1 sample_droptail)).
    + eapply sample_may_arrive; [vm_compute; reflexivity|done].
    + vm_compute. reflexivity.
  - eapply (step_recv _ f1 2 _ (recv_at (fun x => x) 2 (recv_at (fun x => x) 1 sample_droptail))).
    + eapply sample_may_arrive; [vm_compute; reflexivity|vm_compute; reflexivity].
    + vm_compute. reflexivity.
  - eapply (step_resume _ f1 1 _ _ []). vm_compute. reflexivity.
Qed.

Lemma queue_conserves_packets_witness :
  exists c, holds (st (nq sample_end)) c /\ NoDup c /\
    arrivals sample_trace ≡ₚ c ++ sents sample_trace ++ drops sample_trace.
Proof. exact (queue_conserves_packets _ _ _ _ sample_idle sample_run). Defined.

(** C22: whatever the discipline, the link carries at most one packet of the
    queue; while it carries none the queue is unblocked and empty, so no
    packet waits behind an idle link; and from every state a run can reach,
    the next arrival and the next [resume] are handled without a fault. *)
Theorem queue_keeps_link_busy {S} `{DisciplineLaws S} (exp : f64 -> f64) (n0 n : @net S) (t : list obs)
  (Hidle : net_idle n0) (Hrun : net_run exp n0 t n) :
  ((blocked_ (nq n) = 0 /\ flying n = [] /\ holds (st (nq n)) []) \/
   (blocked_ (nq n) = 1 /\ exists p, flying n = [p])) /\
  (forall now p, may_arrive p (st (nq n)) ->
     exists q' acts, Queue_recv exp now p (nq n) = Ok (q', acts)) /\
  (flying n <> [] -> forall now, exists q' acts, Queue_resume exp now (nq n) = Ok (q', acts)).
Proof.
  destruct (net_run_inv exp n0 t n Hrun Hidle) as (c & Hinv). destruct n as [q fl].
  cbn [nq flying]. split_and!.
  - pose proof (inv_link _ _ _ Hinv) as [(Hb & Hf & ->)|Hb]; [left|by right].
    split_and!; [done|done|]. exact (inv_holds _ _ _ Hinv).
  - intros now p Hp. destruct (recv_ok exp now p q fl t c Hinv Hp) as (q' & acts & _ & Hr & _).
    by exists q', acts.
  - intros Hne now. destruct fl as [|p fl]; [done|].
    destruct (resume_ok exp now p q fl t c Hinv) as (q' & acts & _ & Hr & _).
    by exists q', acts.
Qed.

Lemma queue_keeps_link_busy_witness :
  flying sample_end = [2%positive] /\
  (flying sample_end <> [] -> forall now, exists q' acts,
     Queue_resume (fun x => x) now (nq sample_end) = Ok (q', acts)).
Proof.
  split; [done|].
  exact (proj2 (proj2 (queue_keeps_link_busy _ _ _ _ sample_idle sample_run))).
Defined.

(** C25: a DropTail queue never reorders: what was sent, followed by what is
    held, is a subsequence of what arrived; and a queue that counts packets
    holds fewer than [qlim_] of them at any time. *)
Theorem droptail_keeps_order_and_bound (exp : f64 -> f64) (n0 n : @net DropTail.DropTail) t
  (Hidle : net_idle n0) (Hrun : net_run exp n0 t n) :
  exists c, DropTail.dt_holds (st (nq n)) c /\ sents t ++ c `sublist_of` arrivals t /\
    (DropTail.qib_ (disc (st (nq n))) = 0 -> 1 <= qlim_ (base (st (nq n0))) < 2 ^ 31 ->
     Z.of_nat (length c) < qlim_ (base (st (nq n0)))).
Proof.
  destruct (DropTail.droptail_run_inv exp n0 t n Hrun Hidle) as (c & [Hh Ho Hc Hb]).
  exists c. split_and!; [done|done|]. intros Hq Hlim.
  destruct Hc as (Hc & _). rewrite Hc in Hb. apply Hb; [by rewrite Hq|done].
Qed.

Lemma droptail_keeps_order_and_bound_witness :
  exists c, DropTail.dt_holds (st (nq sample_end)) c /\
    sents sample_trace ++ c `sublist_of` arrivals sample_trace /\
    (DropTail.qib_ (disc (st (nq sample_end))) = 0 -> 1 <= 3 < 2 ^ 31 -> Z.of_nat (length c) < 3).
Proof. exact (droptail_keeps_order_and_bound _ _ _ _ sample_idle sample_run). Defined.

(** [shrink_queue] of a queue that counts packets stops after removing
    exactly the excess: from the front with [drop_front_], from the back
    without, the packets kept staying in order. *)
Theorem droptail_shrinks_to_limit fuel (s : qst DropTail.DropTail) c
  (Hh : DropTail.dt_holds s c) (Hq : DropTail.qib_ (disc s) = 0) (Hlim : 0 <= qlim_ (base s))
  (Hc : Z.of_nat (length c) < 2 ^ 31) (Hf : (length c < fuel)%nat) :
  let lim := Z.to_nat (qlim_ (base s)) in
  let kept := if itrue (DropTail.drop_front_ (disc s)) then drop (length c - lim) c
              else take lim c in
  exists s' ds, DropTail.shrink_queue fuel s = Ok (s', ds) /\ DropTail.dt_holds s' kept /\
    kept ++ ds ≡ₚ c /\ (length kept <= lim)%nat.
Proof.
  intros lim kept. destruct (DropTail.shrink_queue_spec fuel s c Hh) as (s' & ds & He & Hh' & Hp);
    [by rewrite Hq|done..|].
  exists s', ds. split_and!; [done|done|done|]. subst kept.
  destruct (itrue _); [rewrite length_drop|rewrite length_take]; lia.
Qed.

Lemma droptail_shrinks_to_limit_witness :
  exists s, DropTail.dt_holds s [1; 2; 3]%positive /\ 
    exists s' ds, DropTail.shrink_queue 5 s = Ok (s', ds) /\ DropTail.dt_holds s' [1; 2]%positive.
Proof.
  destruct (packet_queue_is_a_list 10 [Enque 1; Enque 2; Enque 3]%positive
    pq_new sample_heap [] [None; Some 1; Some 2]%positive [1; 2; 3]%positive)
    as (q & h & _ & Hr & _).
  1: apply pq_rep_new. 1: vm_compute; reflexivity. 1: cbn; lia.
  { intros p Hp. cbn in Hp. apply list_elem_of_In in Hp. cbn in Hp.
    decompose [or] Hp; subst; try done; vm_compute; by eexists. }
  exists (mkQst (DropTail.mkDropTail q 0 0 0 1000) (mkBase 2 f0 f0) h). split; [done|].
  destruct (droptail_shrinks_to_limit 5 (mkQst (DropTail.mkDropTail q 0 0 0 1000) (mkBase 2 f0 f0) h)
    [1; 2; 3]%positive) as (s' & ds & He & Hh & _); try done; cbn; try lia.
  by exists s', ds.
Defined.

Definition sfq_start : qst Sfq.SFQ := mkQst sample_sfq (mkBase 50 f0 f0) sample_heap.
Definition drr_start : qst Drr.DRR := mkQst sample_drr (mkBase 50 f0 f0) sample_heap.

Lemma sfq_start_holds : Sfq.sfq_holds sfq_start [].
Proof. split_and!; done. Qed.

Lemma drr_start_holds : Drr.drr_holds drr_start [].
Proof. split_and!; done. Qed.

(** C26: stochastic fair queueing serves its flows round robin, oldest packet
    first: [deque] returns the first packet of the flow at the head of the
    ring, which goes to the end of the ring, or leaves it if it has no other
    packet, and no other flow changes. *)
Theorem sfq_serves_round_robin now (s : qst Sfq.SFQ) B a p c0 fs
  (HB : Sfq.bucket (disc s) = Some B)
  (Hf : flows Sfq.sfq_ok (mem s) B (Sfq.active (disc s)) ((a, p :: c0) :: fs))
  (Hlen : Z.of_nat (length (p :: c0)) < 2 ^ 31) :
  exists s' B', Sfq.SFQ_deque now s = Ok (Some p, s') /\ Sfq.bucket (disc s') = Some B' /\
    flows Sfq.sfq_ok (mem s) B' (Sfq.active (disc s'))
      (match c0 with [] => fs | _ => fs ++ [(a, c0)] end) /\
    mem s' = mem s.
Proof.
  destruct (Sfq.SFQ_deque_head now s B a p c0 fs HB Hf Hlen) as (s' & B' & H1 & H2 & H3 & H4 & _).
  by exists s', B'.
Qed.

Lemma sfq_serves_round_robin_witness :
  exists s B a p c0 fs, Sfq.bucket (disc s) = Some B /\
    flows Sfq.sfq_ok (mem s) B (Sfq.active (disc s)) ((a, p :: c0) :: fs) /\
    exists s' B', Sfq.SFQ_deque f0 s = Ok (Some p, s') /\ Sfq.bucket (disc s') = Some B'.
Proof.
  destruct (Sfq.SFQ_enque_law f0 1%positive (sample_packet 100 1 9) sfq_start [] sfq_start_holds)
    as (s & c & ds & He & Hh & Hp & _).
  1: apply not_elem_of_nil. 1: vm_compute; reflexivity. 1: vm_compute; congruence.
  assert (Hds : match Sfq.SFQ_enque f0 1 sfq_start with Ok (_, ds) => ds = [] | _ => False end)
    by (vm_compute; reflexivity).
  rewrite He in Hds. subst ds. rewrite app_nil_r in Hp.
  destruct Hh as (_ & _ & Hh). destruct (Sfq.bucket (disc s)) as [B|] eqn:HB.
  - destruct Hh as (fs & Hf & Hc & _). destruct fs as [|[a [|p c0]] fs].
    + rewrite Hc in Hp. by apply Permutation_nil_l in Hp.
    + by destruct (fl_full _ _ _ _ _ Hf a [] ltac:(left)).
    + exists s, B, a, p, c0, fs. split; [done|]. split; [done|].
      destruct (sfq_serves_round_robin f0 s B a p c0 fs HB Hf) as (s' & B' & H1 & H2 & _).
      * rewrite Hc in Hp. apply Permutation_length in Hp. unfold held in Hp. cbn in Hp.
        rewrite length_app in Hp.
        cbn [length]. lia.
      * by exists s', B'.
  - subst c. by apply Permutation_nil_l in Hp.
Defined.

(** Once packets have arrived, [clear], and with it the Tcl command that
    changes the number of buckets, never returns: its loop counter is never
    decremented, so the loop leaves the array or exits on a non-empty
    bucket, whatever the number of iterations allowed. *)
Theorem sfq_clear_never_returns (d : Sfq.SFQ) B n
  (HB : Sfq.bucket d = Some B) (Hn : Sfq.buckets_ d <> 0) :
  forall fuel d', Sfq.SFQ_buckets fuel n d <> Ok d'.
Proof.
  intros fuel d'. unfold Sfq.SFQ_buckets, Sfq.SFQ_clear. rewrite HB. intros He.
  apply rbind_Ok_inv in He as (d1 & He & _). apply rbind_Ok_inv in He as ([] & He & _).
  by apply Sfq.SFQ_clear_loop_stuck in He.
Qed.

Lemma sfq_clear_never_returns_witness :
  exists d, Sfq.initsfq sample_sfq = Ok d /\ forall fuel d', Sfq.SFQ_buckets fuel 16 d <> Ok d'.
Proof.
  eexists. split; [vm_compute; reflexivity|].
  eapply sfq_clear_never_returns; [reflexivity|vm_compute; congruence].
Defined.

(** a packet whose two addresses sum to zero hashes to -1, and the bucket
    index computed from it is outside the array. *)
Theorem sfq_zero_hash_leaves_array now (s : qst Sfq.SFQ) c p v
  (Hh : Sfq.sfq_holds s c) (Hb : 1 < Sfq.buckets_ (disc s)) (Hv : mem s !! p = Some v)
  (Hsum : saddr (ip (bits_ v)) + daddr (ip (bits_ v)) = 0) :
  Sfq.SFQ_hash v = -1 /\ Sfq.SFQ_enque now p s = Fault OutOfBounds.
Proof.
  assert (Hhash : Sfq.SFQ_hash v = -1) by (unfold Sfq.SFQ_hash; by rewrite Hsum).
  split; [done|]. unfold Sfq.SFQ_enque.
  destruct (Sfq.ready_spec s c Hh) as (B & d & Hr & _ & _ & _ & _).
  assert (Hd : Sfq.buckets_ d = Sfq.buckets_ (disc s)).
  { unfold Sfq.ready, Sfq.initsfq in Hr. destruct (Sfq.bucket (disc s)); [by simplify_eq|].
    destruct (_ =? 0); [done|]. by simplify_eq/=. }
  rewrite Hr. cbn [rbind]. rewrite (load_Some _ _ _ Hv). cbn [rbind]. rewrite Hhash, Hd.
  rewrite (Z.rem_opp_l 1), Z.rem_small by lia. done.
Qed.

Lemma sfq_zero_hash_leaves_array_witness :
  Sfq.SFQ_enque f0 4 (mkQst sample_sfq (mkBase 50 f0 f0) (<[4%positive := sample_packet 10 0 0]> ∅))
    = Fault OutOfBounds.
Proof.
  apply (sfq_zero_hash_leaves_array f0
    (mkQst sample_sfq (mkBase 50 f0 f0) (<[4%positive := sample_packet 10 0 0]> ∅)) []
    4%positive (sample_packet 10 0 0)); try done; try (cbn; lia).
Defined.

(** An arriving packet is handled by deficit round robin without a fault
    and in a bounded number of steps; every packet is then held or dropped,
    the bytes held are within [blimit_], and if the packet fits, nothing is
    dropped. *)
Theorem drr_enque_respects_limit now (s : qst Drr.DRR) c p v
  (Hh : Drr.drr_holds s c) (Hp : p ∉ c) (Hv : mem s !! p = Some v) (Ha : Drr.drr_accepts s v) :
  exists s' c' ds, Drr.DRR_enque now p s = Ok (s', ds) /\ Drr.drr_holds s' c' /\
    c' ++ ds ≡ₚ p :: c /\ total_size (mem s') c' <= Drr.blimit_ (disc s) /\
    (total_size (mem s) c + pk_size v <= Drr.blimit_ (disc s) -> ds = []).
Proof.
  destruct (Drr.DRR_enque_spec now p v s c Hh Hp Hv Ha)
    as (s' & c' & ds & H1 & H2 & H3 & _ & _ & H4 & H5).
  by exists s', c', ds.
Qed.

Lemma drr_enque_respects_limit_witness :
  exists s' c' ds, Drr.DRR_enque f0 1 drr_start = Ok (s', ds) /\ Drr.drr_holds s' c' /\
    c' ++ ds ≡ₚ [1%positive] /\ total_size (mem s') c' <= 250 /\ (0 + 100 <= 250 -> ds = []).
Proof.
  apply (drr_enque_respects_limit f0 drr_start [] 1%positive (sample_packet 100 1 9)).
  - apply drr_start_holds.
  - apply not_elem_of_nil.
  - vm_compute. reflexivity.
  - split; [split; vm_compute; done|]. vm_compute. congruence.
Defined.

(** C23: deficit round robin always serves: when it holds a packet, [deque]
    ends after a bounded number of turns, however the deficits stand, and
    returns one of the packets held. *)
Theorem drr_deque_always_serves now (s : qst Drr.DRR) c
  (Hh : Drr.drr_holds s c) (Hne : c <> []) :
  exists p c' s', Drr.DRR_deque now s = Ok (Some p, s') /\ Drr.drr_holds s' c' /\ c ≡ₚ p :: c'.
Proof.
  destruct (Drr.DRR_deque_cons_law now s c Hh Hne) as (p & c' & s' & H1 & H2 & H3 & _).
  by exists p, c', s'.
Qed.

Lemma drr_deque_always_serves_witness :
  exists s c, Drr.drr_holds s c /\ c <> [] /\
    exists p c' s', Drr.DRR_deque f0 s = Ok (Some p, s') /\ Drr.drr_holds s' c' /\ c ≡ₚ p :: c'.
Proof.
  destruct (Drr.DRR_enque_spec f0 1%positive (sample_packet 100 1 9) drr_start [] drr_start_holds)
    as (s & c & ds & _ & Hh & Hp & _ & _ & _ & Hfit).
  1: apply not_elem_of_nil. 1: vm_compute; reflexivity.
  { split; [split; vm_compute; done|]. vm_compute. congruence. }
  rewrite Hfit, app_nil_r in Hp by (vm_compute; congruence).
  assert (Hne : c <> []) by (intros ->; by apply Permutation_nil_l in Hp).
  exists s, c. split; [done|]. split; [done|]. by apply drr_deque_always_serves.
Defined.
