(* ===== verification/Text.v ===== *)
(** * Strings of the C library

    What the sources use of the C library on strings: [atoi], [atof] of plain
    decimal numbers, [sprintf] of ["%d"] and the splitting of a dotted address
    ([RouteLogic::ns_strtok], routing/route.cc).  Characters are stdpp's
    [ascii]; a C string is the [string] before its terminating zero. *)

From stdpp Require Import base numbers list sets strings pretty.
From Stdlib Require Import ZArith Lia Ascii SpecFloat.
From S2P Require Import Prelude.
From S2P Require Import Float64.

Open Scope Z_scope.

(** config.h *)
Definition SMALL_LEN : Z := 32.
Definition TINY_LEN : Z := 8.

(** ** Numbers *)

Definition isspace (c : ascii) : bool :=
  let n := N_of_ascii c in (n =? 32)%N || ((9 <=? n) && (n <=? 13))%N.

Definition digit (c : ascii) : option Z :=
  let n := Z.of_N (N_of_ascii c) in
  if (48 <=? n) && (n <=? 57) then Some (n - 48) else None.

Fixpoint skip_spaces (s : string) : string :=
  match s with
  | String c t => if isspace c then skip_spaces t else s
  | EmptyString => s
  end.

(** The value of the digits a string starts with, after [acc]. *)
Fixpoint digits (acc : Z) (s : string) : Z :=
  match s with
  | String c t => match digit c with Some d => digits (10 * acc + d) t | None => acc end
  | EmptyString => acc
  end.

(** [strtol (s, 0, 10)], which saturates, and the cast of [atoi]. *)
Definition strtol (s : string) : Z :=
  match skip_spaces s with
  | String c t =>
      let v := if Ascii.eqb c "-"%char then - digits 0 t
               else if Ascii.eqb c "+"%char then digits 0 t
               else digits 0 (String c t) in
      Z.max (- 2 ^ 63) (Z.min v (2 ^ 63 - 1))
  | EmptyString => 0
  end.

Definition atoi (s : string) : Z := wrap_i32 (strtol s).

(** [sprintf ("%d", z)] *)
Definition fmt_d (z : Z) : string := pretty z.

(** ** Decimal fractions

    [atof] on ["ddd.ddd"], with sign: the nearest double of the exact value.
    Exponents, hexadecimal and the names of the special values are not
    read. *)

Fixpoint skip_digits (s : string) : string :=
  match s with
  | String c t => match digit c with Some _ => skip_digits t | None => s end
  | EmptyString => s
  end.

(** The nearest double of [num / den], for positive integers. *)
Definition f64_nearest (num den : positive) : f64 :=
  let '(m, e, l) := SFdiv_core_binary prec64 emax64 (Zpos num) 0 (Zpos den) 0 in
  binary_round_aux prec64 emax64 false m e l.

Definition decimal_value (s : string) : f64 :=
  let whole := digits 0 s in
  let frac := match skip_digits s with
              | String c t => if Ascii.eqb c "."%char then t else EmptyString
              | EmptyString => EmptyString
              end in
  let places := Z.of_nat (String.length frac - String.length (skip_digits frac)) in
  match digits whole frac with
  | Zpos num => match 10 ^ places with Zpos den => f64_nearest num den | _ => f0 end
  | _ => f0
  end.

Definition atof (s : string) : f64 :=
  match skip_spaces s with
  | String c t =>
      if Ascii.eqb c "-"%char then fneg (decimal_value t)
      else if Ascii.eqb c "+"%char then decimal_value t
      else decimal_value (String c t)
  | EmptyString => f0
  end.

(** ** Dotted addresses *)

(** The pieces [ns_strtok] cuts its copy of the string into: a last empty
    piece is not looked at. *)
Fixpoint pieces (cur s : string) : list string :=
  match s with
  | EmptyString => if String.eqb cur EmptyString then [] else [cur]
  | String c t =>
      if Ascii.eqb c "."%char then cur :: pieces EmptyString t
      else pieces (cur +:+ String c EmptyString) t
  end.

(** The entries of [addrstr] the call writes, from index 0: each number plus
    one.  The copy is into [char tmpstr[SMALL_LEN]]. *)
Definition ns_strtok (addr : string) : result (list Z) :=
  if SMALL_LEN <=? Z.of_nat (String.length addr) then Fault OutOfBounds
  else Ok (map (fun p => wrap_i32 (atoi p + 1)) (pieces EmptyString addr)).

(** ** Reading back what was printed *)

Lemma digit_cases (P : N -> Prop) n : (n < 10)%N -> Forall P (N.of_nat <$> seq 0 10) -> P n.
Proof.
  intros Hn HP. apply (proj1 (Forall_forall _ _) HP). apply list_elem_of_fmap.
  exists (N.to_nat n). split; [lia|]. apply elem_of_seq. lia.
Qed.

Lemma digit_pretty (n : N) : (n < 10)%N -> digit (pretty_N_char n) = Some (Z.of_N n).
Proof. intros Hn. pattern n. apply digit_cases; [done|]. by repeat constructor. Qed.

(** A string whose digits stop at its first character. *)
Definition no_digit (s : string) : Prop :=
  match s with String c _ => digit c = None | EmptyString => True end.

Lemma digits_stop acc s : no_digit s -> digits acc s = acc.
Proof. destruct s as [|c s]; [done|]. simpl. by intros ->. Qed.

Lemma digits_pretty_go n s :
  exists k, forall acc, digits acc (pretty_N_go n s) = digits (acc * k + Z.of_N n) s.
Proof.
  revert s. induction (N.lt_wf_0 n) as [n _ IH]; intros s.
  destruct (decide (n = 0)%N) as [->|Hn].
  { exists 1. intros acc. rewrite pretty_N_go_0. f_equal. lia. }
  destruct (IH (n `div` 10)%N ltac:(by apply N.div_lt; lia)
              (String (pretty_N_char (n `mod` 10)) s)) as (k & Hk).
  exists (10 * k). intros acc. rewrite pretty_N_go_step, Hk by lia. simpl.
  rewrite digit_pretty by (apply N.mod_lt; lia). f_equal.
  rewrite (N.div_mod n 10) at 3 by lia. lia.
Qed.

Lemma string_app_assoc (a b c : string) : ((a +:+ b) +:+ c) = (a +:+ (b +:+ c)).
Proof. induction a as [|x a IH]; [done|exact (f_equal (String x) IH)]. Qed.

Lemma pretty_N_app n s : pretty_N_go n s = (pretty_N_go n EmptyString +:+ s).
Proof.
  revert s. induction (N.lt_wf_0 n) as [n _ IH]; intros s.
  destruct (decide (n = 0)%N) as [->|Hn]; [by rewrite !pretty_N_go_0|].
  rewrite !(pretty_N_go_step n) by lia.
  assert (Hlt : (n `div` 10 < n)%N) by (apply N.div_lt; lia).
  rewrite (IH _ Hlt (String _ s)), (IH _ Hlt (String _ EmptyString)).
  by rewrite string_app_assoc.
Qed.

Lemma digits_N (n : N) s :
  no_digit s -> digits 0 (pretty n +:+ s) = Z.of_N n.
Proof.
  intros Hs. unfold pretty, pretty_N. case_decide as Hn.
  - subst n. simpl. by apply digits_stop.
  - rewrite <- pretty_N_app. destruct (digits_pretty_go n s) as (k & Hk).
    rewrite Hk, digits_stop by done. lia.
Qed.

(** What a printed number starts with is a digit or a minus sign. *)
Lemma fmt_first (n : N) (P : ascii -> Prop) s :
  (forall d, (d < 10)%N -> P (pretty_N_char d)) ->
  match (pretty n +:+ s) with String c _ => P c | EmptyString => False end.
Proof.
  intros HP. unfold pretty, pretty_N. case_decide as Hn; [by apply (HP 0%N)|].
  assert (Hgo : forall m t, match t with String c _ => P c | _ => False end \/ (0 < m)%N ->
    match pretty_N_go m t with String c _ => P c | EmptyString => False end).
  { intros m. induction (N.lt_wf_0 m) as [m _ IH]; intros t Ht.
    destruct (decide (m = 0)%N) as [->|]; [rewrite pretty_N_go_0; by destruct Ht; [|lia]|].
    rewrite pretty_N_go_step by lia. apply IH; [apply N.div_lt; lia|]. left.
    apply HP, N.mod_lt. lia. }
  rewrite <- pretty_N_app. apply Hgo. right. lia.
Qed.

Lemma digit_char_cases d (P : ascii -> Prop) :
  (d < 10)%N -> Forall (fun n => P (pretty_N_char n)) (N.of_nat <$> seq 0 10) ->
  P (pretty_N_char d).
Proof. apply (digit_cases (fun n => P (pretty_N_char n))). Qed.

(** Reading back a printed number, whatever follows it. *)
Lemma atoi_fmt z s : 0 <= z < 2 ^ 31 -> no_digit s -> atoi (fmt_d z +:+ s) = z.
Proof.
  intros Hz Hs. assert (exists n, z = Z.of_N n) as (n & ->) by (exists (Z.to_N z); lia).
  replace (fmt_d (Z.of_N n)) with (pretty n) by (by destruct n).
  pose proof (fmt_first n (fun c => isspace c = false /\ Ascii.eqb c "-" = false /\
    Ascii.eqb c "+" = false) s) as Hc.
  pose proof (digits_N n s Hs) as Hd. revert Hc Hd.
  destruct (pretty n +:+ s) as [|c t]; intros Hc Hd.
  { exfalso. apply Hc. intros d ?. apply digit_char_cases; [done|]. by repeat constructor. }
  destruct Hc as (H1 & H2 & H3).
  { intros d ?. apply digit_char_cases; [done|]. by repeat constructor. }
  unfold atoi, strtol. simpl. rewrite H1, H2, H3. cbn [digits] in Hd. rewrite Hd.
  rewrite Z.min_l, Z.max_r by lia. apply wrap_i32_id. unfold in_i32. lia.
Qed.

Lemma string_app_nil (s : string) : (s +:+ EmptyString) = s.
Proof. induction s as [|c s IH]; [done|exact (f_equal (String c) IH)]. Qed.

Lemma atoi_fmt_d z : 0 <= z < 2 ^ 31 -> atoi (fmt_d z) = z.
Proof. intros Hz. rewrite <- (string_app_nil (fmt_d z)). by apply atoi_fmt. Qed.

(** ** Examples *)

Example atoi_reads : map atoi [" 42x"; "-7"; "+9"; "4294967297"; "x"]%string = [42; -7; 9; 1; 0].
Proof. vm_compute. reflexivity. Qed.

Example atof_reads :
  map atof ["1"; "2.5"; "-0.1"]%string = [f1; f64_ratio 5 2; fneg (f64_ratio 1 10)].
Proof. vm_compute. reflexivity. Qed.

Example strtok_reads :
  ns_strtok "1.2.3" = Ok [2; 3; 4] /\ ns_strtok "1." = Ok [2] /\ ns_strtok ".5" = Ok [1; 6].
Proof. vm_compute. done. Qed.
