(* ===== verification/Array.v ===== *)
(** * Arrays and counted loops

    A C array is a list read and written at a [Z] index, out of bounds being
    a fault; a [for] loop with a counter is [for_loop].  [arr] and [mat] say
    what an array and a matrix stored row by row hold, as a function of the
    index, which is how the proofs read them. *)

From stdpp Require Import base numbers list.
From Stdlib Require Import ZArith Lia.
From S2P Require Import Prelude.

Open Scope Z_scope.

Definition aget {A} (l : list A) (i : Z) : result A :=
  if i <? 0 then Fault OutOfBounds
  else match l !! Z.to_nat i with Some x => Ok x | None => Fault OutOfBounds end.

Definition aset {A} (l : list A) (i : Z) (x : A) : result (list A) :=
  if (i <? 0) || (Z.of_nat (length l) <=? i) then Fault OutOfBounds
  else Ok (<[Z.to_nat i := x]> l).

(** [for (i = lo; i < hi; ++i) body] *)
Fixpoint for_iter {St} (n : nat) (i : Z) (body : Z -> St -> result St) (s : St) : result St :=
  match n with
  | O => Ok s
  | S n => let! s' := body i s in for_iter n (i + 1) body s'
  end.

Definition for_loop {St} (lo hi : Z) (body : Z -> St -> result St) (s : St) : result St :=
  for_iter (Z.to_nat (hi - lo)) lo body s.

(** [while (m <= n) m <<= 1], on an [int] *)
Fixpoint double_up (fuel : nat) (n m : Z) : result Z :=
  if m <=? n then
    match fuel with O => NoFuel | S fuel => double_up fuel n (wrap_i32 (Z.shiftl m 1)) end
  else Ok m.

(** ** Loops *)

Lemma for_iter_spec {St} (I : Z -> St -> Prop) body n lo s :
  I lo s ->
  (forall i s, lo <= i < lo + Z.of_nat n -> I i s -> exists s', body i s = Ok s' /\ I (i + 1) s') ->
  exists s', for_iter n lo body s = Ok s' /\ I (lo + Z.of_nat n) s'.
Proof.
  revert lo s. induction n as [|n IH]; intros lo s HI Hb; cbn [for_iter].
  - exists s. split; [done|]. by replace (lo + Z.of_nat 0) with lo by lia.
  - destruct (Hb lo s) as (s1 & -> & H1); [lia|done|]. cbn [rbind].
    destruct (IH (lo + 1) s1) as (s2 & -> & H2); [done|intros; apply Hb; [lia|done]|].
    exists s2. split; [done|]. by replace (lo + Z.of_nat (S n)) with (lo + 1 + Z.of_nat n) by lia.
Qed.

(** A loop that keeps an invariant of its counter ends with it. *)
Lemma for_loop_spec {St} (I : Z -> St -> Prop) lo hi body s :
  lo <= hi -> I lo s ->
  (forall i s, lo <= i < hi -> I i s -> exists s', body i s = Ok s' /\ I (i + 1) s') ->
  exists s', for_loop lo hi body s = Ok s' /\ I hi s'.
Proof.
  intros Hle HI Hb. unfold for_loop.
  destruct (for_iter_spec I body (Z.to_nat (hi - lo)) lo s HI) as (s' & E & H).
  { intros i s1 Hi. apply Hb. lia. }
  exists s'. split; [done|]. by replace (lo + Z.of_nat (Z.to_nat (hi - lo))) with hi in H by lia.
Qed.

(** Two loops whose bodies agree wherever [I] holds, which it keeps doing. *)
Lemma for_loop_ext {St} (I : St -> Prop) lo hi (f g : Z -> St -> result St) s :
  (forall i s, lo <= i < hi -> I s -> f i s = g i s) ->
  (forall i s s', lo <= i < hi -> I s -> g i s = Ok s' -> I s') ->
  I s ->
  for_loop lo hi f s = for_loop lo hi g s /\ forall s', for_loop lo hi g s = Ok s' -> I s'.
Proof.
  unfold for_loop. intros Hfg Hg.
  assert (H : forall n i s, lo <= i -> i + Z.of_nat n <= Z.max lo hi -> I s ->
    for_iter n i f s = for_iter n i g s /\ forall s', for_iter n i g s = Ok s' -> I s').
  { induction n as [|n IH]; intros i s0 H1 H2 HI; cbn [for_iter].
    - split; [done|]. by intros s' [= <-].
    - rewrite Hfg by (lia || done). destruct (g i s0) as [s1| |] eqn:E; cbn [rbind]; [|done..].
      apply IH; [lia|lia|]. apply (Hg i s0); [lia|done..]. }
  intros HI. apply H; [lia|lia|done].
Qed.

(** The doubling ends just above [n]. *)
Lemma double_up_spec fuel n m :
  0 <= n -> 1 <= m -> n < m * 2 ^ Z.of_nat fuel -> Z.max m (2 * n) < 2 ^ 31 ->
  exists m', double_up fuel n m = Ok m' /\ n < m' /\ m <= m' <= Z.max m (2 * n).
Proof.
  intros Hn. revert m. induction fuel as [|fuel IH]; intros m Hm Hf Hb; cbn [double_up].
  - destruct (Z.leb_spec m n); [change (2 ^ Z.of_nat 0) with 1 in Hf; lia|].
    exists m. split; [done|lia].
  - destruct (Z.leb_spec m n); [|exists m; split; [done|lia]].
    rewrite Z.shiftl_mul_pow2, Z.pow_1_r by lia. rewrite wrap_small by lia.
    rewrite Nat2Z.inj_succ, Z.pow_succ_r in Hf by lia.
    destruct (IH (m * 2)) as (m' & -> & H1 & H2); [lia|lia|lia|].
    exists m'. split; [done|lia].
Qed.

(** ** Arrays as functions *)

Definition upd {A} (f : Z -> A) (i : Z) (x : A) : Z -> A :=
  fun j => if j =? i then x else f j.

Definition upd2 {A} (g : Z -> Z -> A) (i j : Z) (x : A) : Z -> Z -> A :=
  fun i' j' => if (i' =? i) && (j' =? j) then x else g i' j'.

Lemma upd_at {A} (f : Z -> A) i x : upd f i x i = x.
Proof. unfold upd. by rewrite Z.eqb_refl. Qed.

Lemma upd_ne {A} (f : Z -> A) i j x : j <> i -> upd f i x j = f j.
Proof. unfold upd. intros. by destruct (Z.eqb_spec j i). Qed.

Lemma upd2_at {A} (g : Z -> Z -> A) i j x : upd2 g i j x i j = x.
Proof. unfold upd2. by rewrite !Z.eqb_refl. Qed.

Lemma upd2_ne {A} (g : Z -> Z -> A) i j i' j' x :
  (i', j') <> (i, j) -> upd2 g i j x i' j' = g i' j'.
Proof. unfold upd2. intros. destruct (Z.eqb_spec i' i), (Z.eqb_spec j' j); by subst. Qed.

(** [l] has [n] cells and holds [f i] at index [i]. *)
Definition arr {A} (l : list A) (n : Z) (f : Z -> A) : Prop :=
  Z.of_nat (length l) = n /\ forall i, 0 <= i < n -> l !! Z.to_nat i = Some (f i).

Lemma arr_get {A} (l : list A) n f i : arr l n f -> 0 <= i < n -> aget l i = Ok (f i).
Proof.
  intros [_ Hf] Hi. unfold aget. rewrite Hf by done.
  by destruct (Z.ltb_spec i 0); [lia|].
Qed.

Lemma arr_set {A} (l : list A) n f i x :
  arr l n f -> 0 <= i < n -> exists l', aset l i x = Ok l' /\ arr l' n (upd f i x).
Proof.
  intros [Hn Hf] Hi. unfold aset.
  destruct (Z.ltb_spec i 0); [lia|]. destruct (Z.leb_spec (Z.of_nat (length l)) i); [lia|].
  simpl. eexists. split; [done|]. split; [by rewrite length_insert|].
  intros j Hj. unfold upd. destruct (Z.eqb_spec j i) as [->|].
  - apply list_lookup_insert_eq. lia.
  - rewrite list_lookup_insert_ne by lia. by apply Hf.
Qed.

Lemma arr_ext {A} (l : list A) n f g :
  arr l n f -> (forall i, 0 <= i < n -> f i = g i) -> arr l n g.
Proof. intros [Hn Hf] Hg. split; [done|]. intros i Hi. by rewrite Hf, Hg. Qed.

Lemma arr_replicate {A} n (x : A) : 0 <= n -> arr (replicate (Z.to_nat n) x) n (fun _ => x).
Proof.
  intros Hn. split; [rewrite length_replicate; lia|].
  intros i Hi. apply lookup_replicate_2. lia.
Qed.

Lemma arr_seqZ n : 0 <= n -> arr (seqZ 0 n) n (fun i => i).
Proof.
  intros Hn. split; [rewrite length_seqZ; lia|].
  intros i Hi. rewrite lookup_seqZ_lt by lia. f_equal. lia.
Qed.

(** ** Matrices stored row by row *)

(** [INDEX (i, j, N)] of routing/route.h: [N * i + j] *)
Definition INDEX (i j N : Z) : Z := wrap_i32 (N * i + j).

(** [l] holds [g i j] at [INDEX (i, j, n)]; it may be longer. *)
Definition mat {A} (l : list A) (n : Z) (g : Z -> Z -> A) : Prop :=
  n * n <= Z.of_nat (length l) /\
  forall i j, 0 <= i < n -> 0 <= j < n -> l !! Z.to_nat (n * i + j) = Some (g i j).

(** The sides whose square an [int] holds. *)
Definition side_ok (n : Z) : Prop := 0 <= n <= 46340.

Lemma INDEX_id i j n : side_ok n -> 0 <= i < n -> 0 <= j < n -> INDEX i j n = n * i + j.
Proof.
  unfold side_ok, INDEX. intros. apply wrap_small. split; [nia|].
  assert (n * i + j <= n * n) by nia. assert (n * n <= 46340 * 46340) by nia. lia.
Qed.

Lemma cell_inj n i j i' j' :
  0 <= j < n -> 0 <= j' < n -> n * i + j = n * i' + j' -> i = i' /\ j = j'.
Proof.
  intros. assert (i = i').
  { transitivity ((n * i + j) / n); [|transitivity ((n * i' + j') / n); [congruence|]].
    - symmetry. replace (n * i + j) with (j + i * n) by lia.
      rewrite Z.div_add, Z.div_small by lia. lia.
    - replace (n * i' + j') with (j' + i' * n) by lia.
      rewrite Z.div_add, Z.div_small by lia. lia. }
  subst. lia.
Qed.

Lemma cell_lt n i j : 0 <= i < n -> 0 <= j < n -> 0 <= n * i + j < n * n.
Proof. nia. Qed.

Section Matrix.
Context {A : Type} (n : Z) (Hn : side_ok n).

Lemma mat_get (l : list A) g i j :
  mat l n g -> 0 <= i < n -> 0 <= j < n -> aget l (INDEX i j n) = Ok (g i j).
Proof using Hn.
  intros [_ Hg] Hi Hj. rewrite INDEX_id by done. unfold aget.
  destruct (Z.ltb_spec (n * i + j) 0); [nia|]. by rewrite Hg.
Qed.

Lemma mat_set (l : list A) g i j x :
  mat l n g -> 0 <= i < n -> 0 <= j < n ->
  exists l', aset l (INDEX i j n) x = Ok l' /\ mat l' n (upd2 g i j x).
Proof using Hn.
  intros [Hlen Hg] Hi Hj. rewrite INDEX_id by done.
  pose proof (cell_lt n i j Hi Hj). unfold aset.
  destruct (Z.ltb_spec (n * i + j) 0); [lia|].
  destruct (Z.leb_spec (Z.of_nat (length l)) (n * i + j)); [lia|]. simpl.
  eexists. split; [done|]. split; [by rewrite length_insert|].
  intros i' j' Hi' Hj'. unfold upd2.
  destruct (Z.eqb_spec i' i) as [->|], (Z.eqb_spec j' j) as [->|]; simpl.
  - apply list_lookup_insert_eq. lia.
  - rewrite list_lookup_insert_ne; [by apply Hg|]. nia.
  - rewrite list_lookup_insert_ne; [by apply Hg|].
    pose proof (cell_lt n i' j Hi' Hj). intros E. destruct (cell_inj n i j i' j); lia.
  - rewrite list_lookup_insert_ne; [by apply Hg|].
    pose proof (cell_lt n i' j' Hi' Hj'). intros E. destruct (cell_inj n i j i' j'); lia.
Qed.

Lemma mat_replicate (x : A) : mat (replicate (Z.to_nat (n * n)) x) n (fun _ _ => x).
Proof using Hn.
  unfold side_ok in Hn. split; [rewrite length_replicate; nia|].
  intros i j Hi Hj. apply lookup_replicate_2.
  pose proof (cell_lt n i j Hi Hj). nia.
Qed.

Lemma mat_ext (l : list A) g h :
  mat l n g -> (forall i j, 0 <= i < n -> 0 <= j < n -> g i j = h i j) -> mat l n h.
Proof using. intros [Hl Hg] H. split; [done|]. intros i j Hi Hj. by rewrite Hg, H. Qed.
End Matrix.
