(* ===== verification/Address.v ===== *)
(** * Addresses (routing/address.h, routing/address.cc)

    A node address is an [int]; with several levels of hierarchy it is a word
    of fields, one per level, and is written with dots.  [Address] holds the
    position and the width of each field, as the script sets them.  Its
    arrays are indexed from 1; an element is [None] until it is written. *)

From stdpp Require Import base numbers list strings.
From Stdlib Require Import ZArith Lia.
From Stdlib Require String.
From S2P Require Import Prelude.
From S2P Require Import Text.
From S2P Require Import Array.

Open Scope Z_scope.

Definition int_array : Type := list (option Z).

(** [bpl_] is not initialised by the constructor, the other two are null. *)
Record Address := mkAddress {
  bpl_ : option int_array;
  NodeShift_ : option int_array;
  NodeMask_ : option int_array;
  McastShift_ : Z;
  McastMask_ : Z;
  levels_ : Z
}.

Definition new_Address : Address := mkAddress None None None 0 0 0.

Definition set_levels n a :=
  mkAddress (bpl_ a) (NodeShift_ a) (NodeMask_ a) (McastShift_ a) (McastMask_ a) n.
Definition set_bpl b a :=
  mkAddress (Some b) (NodeShift_ a) (NodeMask_ a) (McastShift_ a) (McastMask_ a) (levels_ a).
Definition set_shift s a :=
  mkAddress (bpl_ a) (Some s) (NodeMask_ a) (McastShift_ a) (McastMask_ a) (levels_ a).
Definition set_mask m a :=
  mkAddress (bpl_ a) (NodeShift_ a) (Some m) (McastShift_ a) (McastMask_ a) (levels_ a).
Definition set_mcast s m a :=
  mkAddress (bpl_ a) (NodeShift_ a) (NodeMask_ a) s m (levels_ a).

(** Element [i] of one of the arrays. *)
Definition elem (l : option int_array) (i : Z) : result Z :=
  match l with
  | None => Fault NullDeref
  | Some l => let! x := aget l i in match x with Some v => Ok v | None => Fault Uninit end
  end.

(** Shifts of an [int]; the machine takes the count modulo 32. *)
Definition shl (x k : Z) : Z := wrap_i32 (Z.shiftl x (Z.land k 31)).
Definition shr (x k : Z) : Z := Z.shiftr x (Z.land k 31).

(** ** Commands *)

(** A fresh array of [levels_ + 1] whose elements from 1 on are [vs]. *)
Definition from_one (vs : list Z) : int_array := None :: map Some vs.

(** [$address bpl-are b1 b2 ...] *)
Definition bpl_are (vs : list Z) (a : Address) : option Address :=
  if levels_ a =? Z.of_nat (length vs) then Some (set_bpl (from_one vs) a) else None.

(** [$address idsbits-are i1 s1 i2 s2 ...]: the values are every other
    argument, whatever the indices between them say. *)
Definition idsbits_are (vs : list (Z * Z)) (a : Address) : option Address :=
  let n := Z.of_nat (length vs) in
  if negb (levels_ a =? 0) && negb (n =? levels_ a) then None
  else Some (set_shift (from_one (map snd vs)) (set_levels n a)).

Definition idmbits_are (vs : list (Z * Z)) (a : Address) : option Address :=
  let n := Z.of_nat (length vs) in
  if negb (levels_ a =? 0) && negb (n =? levels_ a) then None
  else Some (set_mask (from_one (map snd vs)) (set_levels n a)).

(** [$address add-hier level mask shift] *)
Definition add_hier (level mask shift : Z) (a : Address) : result Address :=
  let a := if levels_ a <? level then set_levels level a else a in
  match NodeShift_ a with
  | None => Fault NullDeref
  | Some s =>
      let! s := aset s level (Some shift) in
      match NodeMask_ a with
      | None => Fault NullDeref
      | Some m => let! m := aset m level (Some mask) in Ok (set_mask m (set_shift s a))
      end
  end.

(** ** From a string *)

(** [set_word_field] *)
Definition set_word_field (word field shift mask : Z) : Z :=
  Z.lor (shl (Z.land field mask) shift) (Z.land (Z.lnot (shl mask shift)) word).

(** The comparison with [(unsigned long) (1 << bits)] *)
Definition outside (x bits : Z) : bool := shl 1 bits mod 2 ^ 64 <? x mod 2 ^ 64.

Definition str2addr_step (a : Address) (istr : list Z) (i addr : Z) : result Z :=
  let! x := match istr !! Z.to_nat i with Some x => Ok x | None => Fault Uninit end in
  let! _ := assert_that (0 <=? wrap_i32 (x - 1)) in
  let x := wrap_i32 (x - 1) in
  let! b := elem (bpl_ a) (i + 1) in
  if outside x b then Fault Exited
  else
    let! s := elem (NodeShift_ a) (i + 1) in
    let! m := elem (NodeMask_ a) (i + 1) in
    Ok (set_word_field addr x s m).

(** [istr] is a fresh array of [levels_] elements, which [ns_strtok] writes
    from 0 on: a string of more numbers overflows it, of fewer leaves the rest
    unwritten. *)
Definition str2addr (a : Address) (str : string) : result Z :=
  if levels_ a <? 2 then
    let tmp := atoi str in
    if tmp <? 0 then Ok tmp
    else
      let! b := elem (bpl_ a) 1 in
      if outside tmp b then Fault Exited else Ok tmp
  else
    let! istr := ns_strtok str in
    if levels_ a <? Z.of_nat (length istr) then Fault OutOfBounds
    else for_loop 0 (levels_ a) (str2addr_step a istr) 0.

(** ** To a string *)

Definition print_step (a : Address) (address i : Z) (str : string) : result string :=
  let! s := elem (NodeShift_ a) i in
  let x := shr address s in
  let! x := (if 1 <? levels_ a then let! m := elem (NodeMask_ a) i in Ok (Z.land x m)
             else Ok x) in
  let str := (str +:+ (fmt_d x +:+ "."))%string in
  if SMALL_LEN <=? Z.of_nat (String.length str) then Fault OutOfBounds else Ok str.

(** [str[len-1] = 0]: without levels it writes before the array. *)
Definition print_nodeaddr (a : Address) (address : Z) : result string :=
  let! str := for_loop 1 (levels_ a + 1) (print_step a address) EmptyString in
  if String.eqb str EmptyString then Fault OutOfBounds
  else Ok (String.substring 0 (String.length str - 1) str).

Definition hier_addr (a : Address) (address level : Z) : result Z :=
  if level <=? levels_ a then
    let! s := elem (NodeShift_ a) level in
    let! m := elem (NodeMask_ a) level in
    Ok (Z.land (shr address s) m)
  else Ok (-1).

Definition subnet_step (a : Address) (address i : Z) (str : string) : result string :=
  let! s := elem (NodeShift_ a) i in
  let! m := elem (NodeMask_ a) i in
  let x := Z.land (shr address s) m in
  let dot := if i <? levels_ a - 1 then "."%string else EmptyString in
  let str := (str +:+ (fmt_d x +:+ dot))%string in
  if SMALL_LEN <=? Z.of_nat (String.length str) then Fault OutOfBounds else Ok str.

Definition get_subnetaddr (a : Address) (address : Z) : result (option string) :=
  if 1 <? levels_ a then
    let! str := for_loop 1 (levels_ a) (subnet_step a address) EmptyString in Ok (Some str)
  else Ok None.

Definition get_nodeaddr (a : Address) (address : Z) : result Z :=
  let! s := print_nodeaddr a address in str2addr a s.

Definition get_lastaddr (a : Address) (address : Z) : result Z :=
  let! s := elem (NodeShift_ a) (levels_ a) in
  let! m := elem (NodeMask_ a) (levels_ a) in
  Ok (Z.land (shr address s) m).

Definition create_ipaddr (nodeid portid : Z) : Z := nodeid.

Definition print_portaddr (address : Z) : string := fmt_d address.
