(* ===== verification/AddressTheorems.v ===== *)
(** * Printing and reading addresses

    A layout gives each level of the hierarchy its bits, from the highest
    down.  [get_nodeaddr], which prints an address and reads the string
    back, is the identity on the addresses of the layout. *)

From stdpp Require Import base numbers list strings pretty.
From Stdlib Require Import ZArith Lia ZifyBool Ascii.
From Stdlib Require String.
From S2P Require Import Prelude.
From S2P Require Import Text.
From S2P Require Import Array.
From S2P Require Import Address.

Open Scope Z_scope.

(** ** Strings of digits *)

Fixpoint all_digits (s : string) : Prop :=
  match s with
  | EmptyString => True
  | String c s => digit c <> None /\ all_digits s
  end.

Lemma all_digits_go n s : all_digits s -> all_digits (pretty_N_go n s).
Proof.
  revert s. induction (N.lt_wf_0 n) as [n _ IH]; intros s Hs.
  destruct (decide (n = 0)%N) as [->|Hn]; [by rewrite pretty_N_go_0|].
  rewrite pretty_N_go_step by lia. apply IH; [by apply N.div_lt; lia|].
  split; [|done]. rewrite digit_pretty by (apply N.mod_lt; lia). done.
Qed.

Lemma all_digits_fmt z : 0 <= z -> all_digits (fmt_d z).
Proof.
  intros Hz. assert (exists n, z = Z.of_N n) as (n & ->) by (exists (Z.to_N z); lia).
  replace (fmt_d (Z.of_N n)) with (pretty n) by (by destruct n).
  unfold pretty, pretty_N. case_decide; [by split|]. by apply all_digits_go.
Qed.

Lemma fmt_nonempty z : 0 <= z -> fmt_d z <> EmptyString.
Proof.
  intros Hz. assert (exists n, z = Z.of_N n) as (n & ->) by (exists (Z.to_N z); lia).
  replace (fmt_d (Z.of_N n)) with (pretty n) by (by destruct n).
  pose proof (fmt_first n (fun _ => True) EmptyString ltac:(done)) as Hf.
  intros E. by rewrite E in Hf.
Qed.

(** A piece of digits goes to the next dot. *)
Lemma pieces_digits cur s t :
  all_digits s -> pieces cur (s +:+ t) = pieces (cur +:+ s) t.
Proof.
  revert cur. induction s as [|c s IH]; intros cur Hs; [by rewrite string_app_nil|].
  destruct Hs as [Hc Hs]. change (String c s +:+ t) with (String c (s +:+ t)). cbn [pieces].
  destruct (Ascii.eqb_spec c ".") as [->|]; [by exfalso; apply Hc|].
  rewrite IH by done. by rewrite string_app_assoc.
Qed.

Lemma pieces_dot cur t : pieces cur ("." +:+ t) = cur :: pieces EmptyString t.
Proof. done. Qed.

Lemma length_app_string (s t : string) :
  String.length (s +:+ t) = (String.length s + String.length t)%nat.
Proof. induction s as [|c s IH]; [done|exact (f_equal S IH)]. Qed.

Lemma substring_all s t : String.substring 0 (String.length s) (s +:+ t) = s.
Proof.
  induction s as [|c s IH]; [by destruct t|]. exact (f_equal (String c) IH).
Qed.

(** ** Layouts *)

(** A field: its number of bits and its value. *)
Notation field := (Z * Z)%type.

Fixpoint total (l : list field) : Z :=
  match l with [] => 0 | (b, _) :: r => b + total r end.

(** The address of the fields, the first field highest. *)
Fixpoint word (l : list field) : Z :=
  match l with [] => 0 | (_, x) :: r => x * 2 ^ total r + word r end.

Fixpoint shifts (l : list field) : list Z :=
  match l with [] => [] | _ :: r => total r :: shifts r end.

Definition masks (l : list field) : list Z := map (fun f => 2 ^ fst f - 1) l.

Definition fields_ok (l : list field) : Prop :=
  Forall (fun f => 1 <= fst f /\ 0 <= snd f < 2 ^ fst f) l.

(** The object the script has set up for these widths. *)
Definition laid_out (l : list field) (a : Address) : Prop :=
  levels_ a = Z.of_nat (length l) /\ bpl_ a = Some (from_one (map fst l)) /\
  NodeShift_ a = Some (from_one (shifts l)) /\ NodeMask_ a = Some (from_one (masks l)).

(** The string, each number followed by a dot. *)
Fixpoint dotted (l : list field) : string :=
  match l with [] => EmptyString | (_, x) :: r => fmt_d x +:+ ("." +:+ dotted r) end.

(** The string without the last dot. *)
Fixpoint address_string (l : list field) : string :=
  match l with
  | [] => EmptyString
  | [(_, x)] => fmt_d x
  | (_, x) :: r => fmt_d x +:+ ("." +:+ address_string r)
  end.

Lemma total_nonneg l : fields_ok l -> 0 <= total l.
Proof. induction 1 as [|[b x] l [Hb _] _ IH]; simpl in *; lia. Qed.

Lemma word_range l : fields_ok l -> 0 <= word l < 2 ^ total l.
Proof.
  induction 1 as [|[b x] l [Hb Hx] Hl IH]; simpl in *; [lia|].
  pose proof (total_nonneg l Hl). rewrite Z.pow_add_r by lia. nia.
Qed.

Lemma elem_from_one l (i : nat) v : l !! i = Some v -> elem (Some (from_one l)) (Z.of_nat i + 1) = Ok v.
Proof.
  intros Hi. unfold elem, aget. destruct (Z.ltb_spec (Z.of_nat i + 1) 0); [lia|].
  replace (Z.to_nat (Z.of_nat i + 1)) with (S i) by lia. 
  change (from_one l !! S i) with ((Some <$> l) !! i). by rewrite list_lookup_fmap, Hi.
Qed.

(** What the object holds for the field at index [i]. *)
Lemma layout_at l a (i : nat) b x r :
  laid_out l a -> drop i l = (b, x) :: r ->
  elem (bpl_ a) (Z.of_nat i + 1) = Ok b /\ elem (NodeShift_ a) (Z.of_nat i + 1) = Ok (total r) /\
  elem (NodeMask_ a) (Z.of_nat i + 1) = Ok (2 ^ b - 1).
Proof.
  intros (_ & -> & -> & ->) Hd.
  assert (Hi : l !! i = Some (b, x)) by (rewrite <- (Nat.add_0_r i), <- lookup_drop, Hd; done).
  split_and!; apply elem_from_one.
  - change (map fst l) with (fst <$> l). by rewrite list_lookup_fmap, Hi.
  - clear - Hd. revert i Hd. induction l as [|[b' x'] l IH]; intros [|i] Hd; try done.
    + simpl in Hd. by simplify_eq.
    + simpl. by apply IH.
  - change (masks l) with ((fun f => 2 ^ fst f - 1) <$> l). by rewrite list_lookup_fmap, Hi.
Qed.

(** ** Fields of a word *)

Lemma shl_small x k : 0 <= x -> 0 <= k <= 31 -> x * 2 ^ k < 2 ^ 31 -> shl x k = x * 2 ^ k.
Proof.
  intros Hx Hk Hb. unfold shl. rewrite (Z.land_ones _ 5), Z.mod_small by lia.
  rewrite Z.shiftl_mul_pow2 by lia. apply wrap_small.
  pose proof (Z.pow_pos_nonneg 2 k). nia.
Qed.

Lemma shr_small x k : 0 <= k <= 31 -> shr x k = x / 2 ^ k.
Proof.
  intros Hk. unfold shr. rewrite (Z.land_ones _ 5), Z.mod_small by lia.
  apply Z.shiftr_div_pow2. lia.
Qed.

Lemma disjoint_bits x b s q :
  0 <= b -> 0 <= s -> 0 <= x < 2 ^ b -> Z.land (x * 2 ^ s) (q * 2 ^ (b + s)) = 0.
Proof.
  intros Hb Hs Hx. apply Z.bits_inj'. intros n Hn. rewrite Z.land_spec, Z.bits_0.
  destruct (Z.lt_ge_cases n s).
  - by rewrite Z.mul_pow2_bits_low.
  - rewrite Z.mul_pow2_bits by lia. destruct (Z.lt_ge_cases n (b + s)).
    + by rewrite (Z.mul_pow2_bits_low q), andb_false_r.
    + rewrite <- (Z.mod_small x (2 ^ b)) by done. rewrite Z.mod_pow2_bits_high by lia. done.
Qed.

(** Writing a field below the bits already written. *)
Lemma set_word_field_add q x b s :
  0 <= b -> 0 <= s -> 0 <= x < 2 ^ b -> b + s <= 31 ->
  set_word_field (q * 2 ^ (b + s)) x s (2 ^ b - 1) = q * 2 ^ (b + s) + x * 2 ^ s.
Proof.
  intros Hb Hs Hx Hbs. unfold set_word_field.
  assert (Hpow : 2 ^ (b + s) = 2 ^ b * 2 ^ s) by (apply Z.pow_add_r; lia).
  assert (0 < 2 ^ s) by (apply Z.pow_pos_nonneg; lia).
  assert (0 < 2 ^ b) by (apply Z.pow_pos_nonneg; lia).
  assert (Hm : 2 ^ b - 1 = Z.ones b) by (rewrite Z.ones_equiv; lia).
  rewrite Hm at 1. rewrite Z.land_ones, Z.mod_small by lia.
  assert (2 ^ (b + s) <= 2 ^ 31) by (apply Z.pow_le_mono_r; lia).
  rewrite !shl_small by nia.
  assert (Hkeep : Z.land (Z.lnot ((2 ^ b - 1) * 2 ^ s)) (q * 2 ^ (b + s)) = q * 2 ^ (b + s)).
  { assert (Hd : Z.land ((2 ^ b - 1) * 2 ^ s) (q * 2 ^ (b + s)) = 0)
      by (apply disjoint_bits; lia).
    apply Z.bits_inj'. intros n Hn. rewrite Z.land_spec, Z.lnot_spec by done.
    apply (f_equal (fun z => Z.testbit z n)) in Hd. rewrite Z.land_spec, Z.bits_0 in Hd.
    destruct (Z.testbit ((2 ^ b - 1) * 2 ^ s) n), (Z.testbit (q * 2 ^ (b + s)) n); done. }
  rewrite Hkeep. rewrite <- Z.lxor_lor, <- Z.add_nocarry_lxor by (by apply disjoint_bits). lia.
Qed.

(** ** The round trip *)

(** A legal address of at least two levels, that fits the buffers. *)
Definition address_ok (l : list field) : Prop :=
  fields_ok l /\ (2 <= length l)%nat /\ total l <= 31 /\ (String.length (dotted l) < 32)%nat.

(** No field but one has all the bits. *)
Lemma field_bits l k b x :
  fields_ok l -> l !! k = Some (b, x) -> 1 <= b /\ 0 <= x < 2 ^ b /\
    b + Z.of_nat (length l) - 1 <= total l.
Proof.
  intros Hl. revert k. induction Hl as [|[b' x'] l [Hb Hx] Hl IH]; intros [|k] Hk; try done;
    cbn [total length fst snd] in *.
  - simpl in Hk. simplify_eq. split_and!; try lia.
    assert (Hcount : Z.of_nat (length l) <= total l).
    { clear - Hl. induction Hl as [|[b x] l [Hb _] _ IH]; simpl in *; lia. }
    lia.
  - destruct (IH k Hk) as (H1 & H2 & H3). split_and!; lia.
Qed.

Lemma drop_field (l : list field) (k : nat) :
  (k < length l)%nat -> exists b x, drop k l = (b, x) :: drop (S k) l.
Proof.
  intros Hk. destruct (lookup_lt_is_Some_2 l k Hk) as [[b x] E]. exists b, x. by apply drop_S.
Qed.

Lemma fields_drop l k : fields_ok l -> fields_ok (drop k l).
Proof. apply Forall_drop. Qed.

Lemma total_drop l k : fields_ok l -> total (drop k l) <= total l.
Proof.
  intros Hl. revert k. induction Hl as [|[b x] l [Hb _] Hl IH]; intros [|k]; simpl in *; try lia.
  specialize (IH k). lia.
Qed.

(** The fields from the [k]th on are the low digits of the address. *)
Lemma word_drop l k :
  fields_ok l -> exists q, 0 <= q /\ word l = q * 2 ^ total (drop k l) + word (drop k l).
Proof.
  intros Hl. revert k. induction Hl as [|[b x] l [Hb Hx] Hl IH]; intros [|k].
  - by exists 0.
  - by exists 0.
  - by exists 0.
  - destruct (IH k) as (q & Hq & E). cbn [drop word fst snd] in *.
    pose proof (total_nonneg l Hl). pose proof (total_drop l k Hl).
    pose proof (total_nonneg _ (fields_drop l k Hl)).
    exists (x * 2 ^ (total l - total (drop k l)) + q). split.
    + pose proof (Z.pow_nonneg 2 (total l - total (drop k l))). nia.
    + rewrite E, Z.mul_add_distr_r, <- Z.mul_assoc, <- Z.pow_add_r by lia.
      replace (total l - total (drop k l) + total (drop k l)) with (total l) by lia. lia.
Qed.

(** Field [k] read off the address. *)
Lemma read_field l k b x r :
  fields_ok l -> total l <= 31 -> drop k l = (b, x) :: r ->
  Z.land (shr (word l) (total r)) (2 ^ b - 1) = x.
Proof.
  intros Hl Ht Hd. destruct (word_drop l k Hl) as (q & Hq & E).
  pose proof (fields_drop l k Hl) as Hf. pose proof (total_drop l k Hl) as Hle.
  rewrite Hd in E, Hf, Hle. cbn [word total] in E, Hle.
  apply Forall_cons in Hf as [[Hb Hx] Hr]. cbn [fst snd] in Hb, Hx.
  pose proof (total_nonneg r Hr). pose proof (word_range r Hr).
  rewrite shr_small, E by lia. rewrite Z.pow_add_r by lia.
  replace (q * (2 ^ b * 2 ^ total r) + (x * 2 ^ total r + word r))
    with (word r + (q * 2 ^ b + x) * 2 ^ total r) by lia.
  rewrite Z.div_add, Z.div_small by lia.
  replace (2 ^ b - 1) with (Z.ones b) by (rewrite Z.ones_equiv; lia).
  rewrite Z.land_ones by lia. rewrite Z.add_0_l, Z.add_comm, Z.mod_add by lia.
  by apply Z.mod_small.
Qed.

Lemma dotted_string l : l <> [] -> dotted l = (address_string l +:+ ".").
Proof.
  induction l as [|[b x] [|f r] IH]; intros Hne; [done|done|].
  change (dotted ((b, x) :: f :: r)) with (fmt_d x +:+ ("." +:+ dotted (f :: r))).
  rewrite IH by done.
  change (address_string ((b, x) :: f :: r)) with (fmt_d x +:+ ("." +:+ address_string (f :: r))).
  by rewrite !string_app_assoc.
Qed.

Lemma print_spec l a :
  laid_out l a -> address_ok l -> print_nodeaddr a (word l) = Ok (address_string l).
Proof.
  intros Ha (Hl & Hlen & Ht & Hs). unfold print_nodeaddr. pose proof Ha as (-> & _).
  destruct (for_loop_spec (fun i str => (str +:+ dotted (drop (Z.to_nat (i - 1)) l)) = dotted l)
    1 (Z.of_nat (length l) + 1) (print_step a (word l)) EmptyString) as (str & -> & E).
  - lia.
  - done.
  - intros i str Hi E. destruct (drop_field l (Z.to_nat (i - 1)) ltac:(lia)) as (b & x & Hd).
    destruct (layout_at l a (Z.to_nat (i - 1)) b x _ Ha Hd) as (_ & E1 & E2).
    replace (Z.of_nat (Z.to_nat (i - 1)) + 1) with i in E1, E2 by lia.
    unfold print_step. rewrite E1. cbn [rbind]. pose proof Ha as (-> & _).
    replace (1 <? Z.of_nat (length l)) with true by lia. rewrite E2. cbn [rbind].
    rewrite (read_field l _ b x _ Hl Ht Hd). rewrite Hd in E. cbn [dotted] in E.
    assert (E' : ((str +:+ (fmt_d x +:+ ".")) +:+ dotted (drop (S (Z.to_nat (i - 1))) l)) = dotted l).
    { rewrite <- E. by rewrite !string_app_assoc. }
    assert (Hb : (String.length (str +:+ (fmt_d x +:+ ".")) < 32)%nat).
    { rewrite <- E', length_app_string in Hs. lia. }
    unfold SMALL_LEN. replace (32 <=? _) with false by lia.
    eexists. split; [done|]. by replace (Z.to_nat (i + 1 - 1)) with (S (Z.to_nat (i - 1))) by lia.
  - cbn [rbind]. rewrite drop_ge, string_app_nil in E by lia. subst str.
    rewrite dotted_string by (intros ->; simpl in Hlen; lia).
    destruct (String.eqb_spec (address_string l +:+ ".") EmptyString) as [E|_].
    { apply (f_equal String.length) in E. rewrite length_app_string in E. simpl in E. lia. }
    f_equal. rewrite length_app_string.
    replace (String.length (address_string l) + String.length "." - 1)%nat
      with (String.length (address_string l)) by (simpl; lia).
    apply substring_all.
Qed.

Lemma pieces_address l :
  l <> [] -> fields_ok l -> pieces EmptyString (address_string l) = map (fun f => fmt_d (snd f)) l.
Proof.
  induction l as [|[b x] r IH]; intros Hne Hl; [done|].
  apply Forall_cons in Hl as [[_ Hx] Hr]. cbn [fst snd] in Hx.
  pose proof (all_digits_fmt x ltac:(lia)) as Hd. pose proof (fmt_nonempty x ltac:(lia)) as Hne'.
  destruct r as [|f r].
  - cbn [address_string map snd]. rewrite <- (string_app_nil (fmt_d x)) at 1.
    rewrite pieces_digits by done. change (EmptyString +:+ fmt_d x) with (fmt_d x).
    cbn [pieces]. by destruct (String.eqb_spec (fmt_d x) EmptyString).
  - change (address_string ((b, x) :: f :: r)) with (fmt_d x +:+ ("." +:+ address_string (f :: r))).
    rewrite pieces_digits, pieces_dot, IH by done. done.
Qed.

Lemma strtok_address l :
  l <> [] -> fields_ok l -> total l <= 31 -> (2 <= length l)%nat ->
  (String.length (address_string l) < 32)%nat ->
  ns_strtok (address_string l) = Ok (map (fun f => snd f + 1) l).
Proof.
  intros Hne Hl Ht Hlen Hs. unfold ns_strtok, SMALL_LEN. replace (32 <=? _) with false by lia.
  rewrite pieces_address, map_map by done. f_equal. apply map_ext_in. intros [b x] Hin.
  apply list_elem_of_In, list_elem_of_lookup in Hin as [k Hk].
  destruct (field_bits l k b x Hl Hk) as (Hb & Hx & Hle). cbn [snd].
  assert (2 ^ b <= 2 ^ 30) by (apply Z.pow_le_mono_r; lia).
  rewrite atoi_fmt_d by lia. apply wrap_i32_id. unfold in_i32. lia.
Qed.

Lemma outside_small x b : 0 <= b <= 30 -> 0 <= x < 2 ^ b -> outside x b = false.
Proof.
  intros Hb Hx. unfold outside. assert (2 ^ b <= 2 ^ 30) by (apply Z.pow_le_mono_r; lia).
  rewrite shl_small by lia. rewrite !Z.mod_small by lia. lia.
Qed.

Lemma str2addr_spec l a :
  laid_out l a -> address_ok l -> str2addr a (address_string l) = Ok (word l).
Proof.
  intros Ha (Hl & Hlen & Ht & Hs).
  assert (Hne : l <> []) by (intros ->; simpl in Hlen; lia).
  unfold str2addr. pose proof Ha as (-> & _).
  replace (Z.of_nat (length l) <? 2) with false by lia.
  rewrite (strtok_address l Hne Hl Ht Hlen);
    [|rewrite dotted_string, length_app_string in Hs by done; simpl in Hs; lia].
  cbn [rbind]. rewrite length_map. replace (_ <? _) with false by lia.
  destruct (for_loop_spec (fun i addr => exists q, addr = q * 2 ^ total (drop (Z.to_nat i) l) /\
      addr + word (drop (Z.to_nat i) l) = word l)
    0 (Z.of_nat (length l)) (str2addr_step a (map (fun f => snd f + 1) l)) 0)
    as (addr & -> & q & _ & E).
  - lia.
  - exists 0. split; [lia|done].
  - intros i addr Hi (q & Eq & E).
    destruct (drop_field l (Z.to_nat i) ltac:(lia)) as (b & x & Hd).
    destruct (layout_at l a (Z.to_nat i) b x _ Ha Hd) as (E0 & E1 & E2).
    replace (Z.of_nat (Z.to_nat i)) with i in E0, E1, E2 by lia.
    assert (Hk : l !! Z.to_nat i = Some (b, x)).
    { rewrite <- (Nat.add_0_r (Z.to_nat i)), <- lookup_drop, Hd. done. }
    destruct (field_bits l _ b x Hl Hk) as (Hb & Hx & Hle).
    pose proof (total_drop l (Z.to_nat i) Hl) as Hdt.
    pose proof (total_nonneg _ (fields_drop l (S (Z.to_nat i)) Hl)) as Htr.
    rewrite Hd in Eq, E, Hdt. cbn [total word] in Eq, E, Hdt.
    assert (2 ^ b <= 2 ^ 30) by (apply Z.pow_le_mono_r; lia).
    unfold str2addr_step.
    change (map (fun f => snd f + 1) l) with ((fun f : field => snd f + 1) <$> l).
    rewrite list_lookup_fmap, Hk. cbn [fmap option_fmap option_map rbind snd].
    replace (x + 1 - 1) with x by lia. rewrite wrap_small by lia.
    unfold assert_that. replace (0 <=? x) with true by lia. cbn [rbind].
    rewrite E0, E1, E2. cbn [rbind]. rewrite outside_small by lia.
    eexists. split; [done|]. replace (Z.to_nat (i + 1)) with (S (Z.to_nat i)) by lia.
    rewrite Eq, set_word_field_add by lia. exists (q * 2 ^ b + x).
    rewrite Z.pow_add_r in * by lia. split; lia.
  - f_equal. rewrite drop_ge in E by lia. simpl in E. lia.
Qed.

(** C34: printing an address and reading it back is the identity: with any
    hierarchy of two levels or more whose fields fit 31 bits, [print_nodeaddr]
    gives the dotted string of the fields, [str2addr] the word of those
    fields, and so [get_nodeaddr] returns its argument. *)
Theorem address_roundtrip l a :
  laid_out l a -> address_ok l ->
  print_nodeaddr a (word l) = Ok (address_string l) /\
  str2addr a (address_string l) = Ok (word l) /\
  get_nodeaddr a (word l) = Ok (word l).
Proof.
  intros Ha Hl. pose proof (print_spec l a Ha Hl) as Hp. pose proof (str2addr_spec l a Ha Hl) as Hr.
  split; [done|]. split; [done|]. unfold get_nodeaddr. by rewrite Hp.
Qed.

(** Three levels of 10, 11 and 10 bits, as the script would set them up. *)
Definition three_levels : list field := [(10, 3); (11, 7); (10, 1023)].

Definition three_level_address : Address :=
  match idsbits_are [(1, 21); (2, 10); (3, 0)] new_Address with
  | Some a =>
      match idmbits_are [(1, 1023); (2, 2047); (3, 1023)] a with
      | Some a => match bpl_are [10; 11; 10] a with Some a => a | None => new_Address end
      | None => new_Address
      end
  | None => new_Address
  end.

Lemma address_roundtrip_witness :
  laid_out three_levels three_level_address /\ address_ok three_levels /\
  get_nodeaddr three_level_address (word three_levels) = Ok (word three_levels).
Proof.
  assert (H1 : laid_out three_levels three_level_address) by (split_and!; reflexivity).
  assert (H2 : address_ok three_levels).
  { split; [|split; [simpl; lia|split; [simpl; lia|]]].
    - repeat constructor; simpl; lia.
    - apply Nat.ltb_lt. vm_compute. reflexivity. }
  split; [exact H1|]. split; [exact H2|]. apply (address_roundtrip _ _ H1 H2).
Defined.

(** The test against the width of a field lets the first value outside it
    through: the value 1024 of a field of ten bits is accepted and becomes 0. *)
Example first_outside_is_accepted :
  str2addr three_level_address "1024.7.5" = str2addr three_level_address "0.7.5".
Proof. vm_compute. reflexivity. Qed.

(** Sixteen levels print beyond the buffer of [print_nodeaddr]. *)
Example sixteen_levels_overflow :
  print_nodeaddr (mkAddress None (Some (from_one (replicate 16 0)))
                    (Some (from_one (replicate 16 1))) 0 0 16) 0 = Fault OutOfBounds.
Proof. vm_compute. reflexivity. Qed.
