(* ===== verification/MpSelect.v ===== *)
(** * The mpSelect agent (mpSelect/mpSelect.{h,cc})

    The agent is its configuration, its role, its routing table and the
    static packet counter of [Agent]; every method is a function from the
    packet it handles and the agent's state to the new state and the list of
    effects it had, in order: packets scheduled to the target, delivered to
    the local port classifier, dropped or freed, and timer operations.
    Tracing output ([printf]) is left out. *)

From stdpp Require Import base numbers list gmap strings.
From Stdlib Require Import ZArith Lia.
From S2P Require Import Prelude Store Float64 Dlist MpRtable Packet Address.

Local Open Scope Z_scope.

Definition MPSELECT_HDR_LEN : Z := 40.
Definition PING_PKT_SIZE : Z := 1000.

(** The values of the header's [type_]. *)
Definition DATA_PKT : Z := 0.
Definition PING_PKT : Z := 1.
Definition PING_BAK : Z := 2.

(** The values of [select_type_]. *)
Definition SELECT_CORE : Z := 0.
Definition SELECT_INTF : Z := 1.

Variant drop_reason := DROP_RTR_ROUTE_LOOP | DROP_RTR_TTL | DROP_RTR_NO_ROUTE.

Variant effect :=
  | Sched (p : headers) (delay : f64)      (** [schedule (target_, p, delay)] *)
  | ToDmux (p : headers)                   (** [dmux_->recv (p, NULL)] *)
  | DropPkt (p : headers) (why : drop_reason)
  | FreePkt (p : headers)                  (** [Packet::free (p)] *)
  | TimerResched (delay : f64)             (** [ping_timer_.resched (delay)] *)
  | TimerCancel.                           (** [ping_timer_.cancel ()] *)

(** The members of [Agent] that [initpkt] copies into a new packet. *)
Record agent := Agent {
  here_addr : Z; here_port : Z;
  dst_addr : Z; dst_port : Z;
  agent_size : Z; agent_type : Z; agent_fid : Z; agent_prio : Z; defttl_ : Z;
}.

(** [select_type_] and [dmux_] are [None] while they are not initialised: the
    constructor sets neither.  A command sets the first; nothing in the source
    ever sets the second. *)
Record mpSelect := MpSelect {
  base_ : agent;
  select_type_ : option Z;
  ra_addr_ : Z;
  rtable_ : mpRtable;
  dmux_ : option positive;      (** the local port classifier *)
  uidcnt_ : Z;
}.

Definition set_rtable t (a : mpSelect) : mpSelect :=
  MpSelect (base_ a) (select_type_ a) (ra_addr_ a) t (dmux_ a) (uidcnt_ a).
Definition set_select_type x (a : mpSelect) : mpSelect :=
  MpSelect (base_ a) (Some x) (ra_addr_ a) (rtable_ a) (dmux_ a) (uidcnt_ a).

(** The constructor. *)
Definition new_mpSelect (base : agent) (addr uid : Z) : mpSelect :=
  MpSelect base None addr empty_mpRtable None uid.

(** [Agent::allocpkt]: a cleared packet filled in by [initpkt]. *)
Definition initpkt (now : f64) (a : agent) (uid : Z) (h : headers) : headers :=
  Headers
    (HdrCmn (agent_type a) (agent_size a) uid 0 now UNKN_IFACE NONE (next_hop_ (cmn h))
       (last_hop_ (cmn h)) (addr_type_ (cmn h)) (num_forwards_ (cmn h)))
    (HdrIp (here_addr a) (here_port a) (dst_addr a) (dst_port a) (defttl_ a) (agent_fid a)
       (agent_prio a))
    (mps h).

Definition allocpkt (now : f64) (a : mpSelect) : headers * mpSelect :=
  (initpkt now (base_ a) (uidcnt_ a) fresh_headers,
   MpSelect (base_ a) (select_type_ a) (ra_addr_ a) (rtable_ a) (dmux_ a)
     (wrap_i32 (uidcnt_ a + 1))).

(** ** Sending pings *)

(** The packet [send_ping_handler] builds for a path of a selector. *)
Definition ping_packet (now : f64) (a : mpSelect) (dest : Z) (p : path_info) (h : headers)
    : headers :=
  Headers
    (set_addr_type NS_AF_INET (set_next_hop (s_intf p) (set_error 0
      (set_size (MPSELECT_HDR_LEN + IP_HDR_LEN + PING_PKT_SIZE) (set_direction DOWN
        (set_ptype PT_MPSELECT (cmn h)))))))
    (set_dport (dst_port (base_ a)) (set_daddr (s_intf p) (set_sport (here_port (base_ a))
      (set_saddr (ra_addr_ a) (ip h)))))
    (HdrMpSelect PING_PKT (former_addr (mps h)) (former_port (mps h)) (former_ptype (mps h))
       now (s_intf p) (d_intf p) (ra_addr_ a) dest (ping_seq p)).

(** The loop of [send_ping_handler], [n] bounding its iterations. *)
Fixpoint ping_loop (n fuel : nat) (now : f64) (a : mpSelect) : result (mpSelect * list effect) :=
  match n with
  | O => NoFuel
  | S n' =>
      let! '(r, t) := get_path_item fuel (rtable_ a) in
      let a1 := set_rtable t a in
      match r with
      | None => Ok (a1, [])
      | Some (dest, p) =>
          let '(h, a2) := allocpkt now a1 in
          let! t' := update_ping_info fuel now dest (s_intf p) (d_intf p) (rtable_ a2) in
          let! '(a3, effs) := ping_loop n' fuel now (set_rtable t' a2) in
          Ok (a3, Sched (ping_packet now a2 dest p h) f0 :: effs)
      end
  end.

Definition send_ping_handler (n fuel : nat) (now : f64) (a : mpSelect) := ping_loop n fuel now a.

(** [mpPing_PktTimer::expire] *)
Definition ping_expire (n fuel : nat) (now : f64) (a : mpSelect)
    : result (mpSelect * list effect) :=
  let! '(a', effs) := send_ping_handler n fuel now a in
  Ok (a', effs ++ [TimerResched SEND_PING_INTERVAL]).

(** ** Receiving *)

(** The packet after [forward_data] has put the mpSelect header on it. *)
Definition encapsulate (now : f64) (a : mpSelect) (dest s d : Z) (h : headers) : headers :=
  Headers
    (set_next_hop s (set_ptype PT_MPSELECT
      (set_size (wrap_i32 (size_ (cmn h) + MPSELECT_HDR_LEN)) (cmn h))))
    (set_dport (dst_port (base_ a)) (set_daddr s (ip h)))
    (HdrMpSelect DATA_PKT (daddr (ip h)) (dport (ip h)) (ptype_ (cmn h)) now s d (ra_addr_ a)
       dest (mps_ping_seq (mps h))).

Definition forward_data (fuel : nat) (now : f64) (h : headers) (a : mpSelect)
    : result (mpSelect * list effect) :=
  if (direction_ (cmn h) =? UP) &&
     (is_broadcast (daddr (ip h)) || (daddr (ip h) =? ra_addr_ a))
  then
    match dmux_ a with
    | None => Fault Uninit
    | Some _ => Ok (a, [ToDmux h])
    end
  else
    let h1 := on_cmn (fun c => set_addr_type NS_AF_INET (set_direction DOWN c)) h in
    if is_broadcast (daddr (ip h1)) then
      Ok (a, [Sched (on_cmn (set_next_hop broadcast_addr) h1) f0])
    else
      let! mp := find_MP fuel (daddr (ip h1)) (rtable_ a) in
      if (mp : bool) then
        let! '(dest, intfs, t) := lookup_mp fuel now (daddr (ip h1)) (rtable_ a) in
        let a1 := set_rtable t a in
        if is_broadcast dest then Ok (a1, [DropPkt h1 DROP_RTR_NO_ROUTE])
        else
          match intfs with
          | None => Fault Uninit
          | Some (s, d) => Ok (a1, [Sched (encapsulate now a1 dest s d h1) f0])
          end
      else
        let! hop := lookup fuel (daddr (ip h1)) (rtable_ a) in
        if is_broadcast hop then Ok (a, [DropPkt h1 DROP_RTR_NO_ROUTE])
        else Ok (a, [Sched (on_cmn (set_next_hop hop) h1) f0]).

(** The packet [recv_data_pkt] restores. *)
Definition decapsulate (h : headers) : headers :=
  Headers
    (set_size (wrap_i32 (size_ (cmn h) - MPSELECT_HDR_LEN))
       (set_ptype (former_ptype (mps h)) (cmn h)))
    (set_dport (former_port (mps h)) (set_daddr (former_addr (mps h)) (ip h)))
    (mps h).

Definition recv_data_pkt (fuel : nat) (now : f64) (h : headers) (a : mpSelect)
    : result (mpSelect * list effect) :=
  let! t := update_rtime fuel (s_select (mps h)) (mps_d_intf (mps h)) (mps_s_intf (mps h)) now
              (rtable_ a) in
  let a1 := set_rtable t a in
  let h1 := decapsulate h in
  let h2 := if daddr (ip h1) =? ra_addr_ a1 then on_cmn (set_direction UP) h1 else h1 in
  forward_data fuel now h2 a1.

(** The answer [recv_ping_pkt] builds for the ping [h]. *)
Definition echo_packet (now : f64) (a : mpSelect) (h e : headers) : headers :=
  Headers
    (set_addr_type NS_AF_INET (set_next_hop (mps_s_intf (mps h)) (set_error 0
      (set_size (MPSELECT_HDR_LEN + IP_HDR_LEN + PING_PKT_SIZE) (set_direction DOWN
        (set_ptype PT_MPSELECT (cmn e)))))))
    (set_ttl IP_DEF_TTL (set_dport (dst_port (base_ a)) (set_daddr (mps_d_intf (mps h))
      (set_sport (here_port (base_ a)) (set_saddr (ra_addr_ a) (ip e))))))
    (HdrMpSelect PING_BAK (former_addr (mps e)) (former_port (mps e)) (former_ptype (mps e)) now
       (mps_d_intf (mps h)) (mps_s_intf (mps h)) (ra_addr_ a) (s_select (mps h))
       (mps_ping_seq (mps h))).

Definition recv_ping_pkt (fuel : nat) (now : f64) (h : headers) (a : mpSelect)
    : result (mpSelect * list effect) :=
  let m := mps h in
  let! t := update_rtime fuel (s_select m) (mps_d_intf m) (mps_s_intf m) now (rtable_ a) in
  if mps_type m =? PING_PKT then
    let! t' := update_rdelay fuel now (s_select m) (mps_d_intf m) (mps_s_intf m) (send_time m) t in
    let '(e, a1) := allocpkt now (set_rtable t' a) in
    Ok (a1, [Sched (echo_packet now a1 h e) f0; FreePkt h])
  else
    let! t' := update_sdelay fuel (s_select m) (mps_d_intf m) (mps_s_intf m) (send_time m)
                 (mps_ping_seq m) t in
    Ok (set_rtable t' a, [FreePkt h]).

Definition forward_mpS_pkt (h : headers) (a : mpSelect) : list effect :=
  let tmp := daddr (ip h) in
  if negb (tmp =? mps_s_intf (mps h)) && negb (tmp =? mps_d_intf (mps h))
  then [DropPkt h DROP_RTR_NO_ROUTE]
  else if s_select (mps h) =? ra_addr_ a
  then [Sched (Headers (set_next_hop (mps_d_intf (mps h)) (cmn h))
                 (set_daddr (mps_d_intf (mps h)) (ip h)) (mps h)) f0]
  else [Sched (on_ip (set_daddr (ra_addr_ a)) h) f0].

Definition recv (fuel : nat) (now : f64) (h : headers) (a : mpSelect)
    : result (mpSelect * list effect) :=
  let own := saddr (ip h) =? ra_addr_ a in
  if own && (0 <? num_forwards_ (cmn h)) then Ok (a, [DropPkt h DROP_RTR_ROUTE_LOOP])
  else
    let h1 := if own && (num_forwards_ (cmn h) =? 0)
              then on_cmn (fun c => set_size (wrap_i32 (size_ c + IP_HDR_LEN)) c) h else h in
    if ptype_ (cmn h1) =? PT_MPSELECT then
      match select_type_ a with
      | None => Fault Uninit
      | Some ty =>
          if ty =? SELECT_CORE then
            if mps_type (mps h1) =? DATA_PKT then recv_data_pkt fuel now h1 a
            else recv_ping_pkt fuel now h1 a
          else if ty =? SELECT_INTF then Ok (a, forward_mpS_pkt h1 a)
          else Ok (a, [])
      end
    else
      let h2 := on_ip (fun i => set_ttl (wrap_i32 (ttl_ i - 1)) i) h1 in
      if ttl_ (ip h2) <? 0 then Ok (a, [DropPkt h2 DROP_RTR_TTL])
      else forward_data fuel now h2 a.

(** ** Commands *)

(** [TCL_OK] with the new state, or the fall-through to [Agent::command].
    [A] is [Address::instance ()]. *)
Section command.
Context (A : Address) (fuel : nat) (now : f64).

Definition tbl (r : result mpRtable) (a : mpSelect)
    : result (option (mpSelect * list effect)) :=
  let! t := r in Ok (Some (set_rtable t a, [])).

(** Three arguments read as addresses, in order, for an operation. *)
Definition with_three (x y z : string) (f : Z -> Z -> Z -> mpRtable -> result mpRtable)
    (a : mpSelect) : result (option (mpSelect * list effect)) :=
  let! x := str2addr A x in
  let! y := str2addr A y in
  let! z := str2addr A z in
  tbl (f x y z (rtable_ a)) a.

Definition command (argv : list string) (a : mpSelect)
    : result (option (mpSelect * list effect)) :=
  match argv with
  | [_; c] =>
      if String.eqb c "start" then Ok (Some (a, [TimerResched f0]))
      else if String.eqb c "print-rtable" then Ok (Some (a, []))
      else if String.eqb c "stop-ping" then Ok (Some (a, [TimerCancel]))
      else if String.eqb c "core" then Ok (Some (set_select_type SELECT_CORE a, []))
      else if String.eqb c "intf" then Ok (Some (set_select_type SELECT_INTF a, []))
      else Ok None
  | [_; c; x] =>
      if String.eqb c "delete-select"
      then let! x := str2addr A x in tbl (delete_select fuel x (rtable_ a)) a else Ok None
  | [_; c; x; y] =>
      if String.eqb c "delete-route-item"
      then
        let! x := str2addr A x in
        let! y := str2addr A y in
        tbl (delete_item fuel x y (rtable_ a)) a
      else Ok None
  | [_; c; x; y; z] =>
      if String.eqb c "add-route-item" then with_three x y z add_item a
      else if String.eqb c "add-mp-path" then with_three x y z (add_mpath fuel now) a
      else if String.eqb c "delete-mp-path" then with_three x y z (delete_mpath fuel) a
      else if String.eqb c "attach-select" then with_three x y z (attach_select fuel) a
      else if String.eqb c "detach-select" then with_three x y z (detach_select fuel) a
      else Ok None
  | _ => Ok None
  end.
End command.
