(* ===== verification/MpSelectProps.v ===== *)
(** * What the mpSelect agent does

    Lemmas about the enumeration of the paths ([get_path_item] and its two
    statics), the ping handler, and the handlers of received packets, on the
    meaning of the routing table. *)

From stdpp Require Import base numbers list gmap.
From Stdlib Require Import ZArith Lia.
From S2P Require Import Prelude Store Float64 Dlist MpRtable MpRtableSpec MpRtableProps Packet.
From S2P Require Import MpSelect.

Local Open Scope Z_scope.

(** ** Enumerating the paths *)

(** The paths of all the selectors, in list order, with their selector. *)
Definition flat (S : list (Z * list path_info)) : list (Z * path_info) :=
  S ≫= fun x => pair x.1 <$> x.2.

Lemma flat_cons a ds S : flat ((a, ds) :: S) = (pair a <$> ds) ++ flat S.
Proof. done. Qed.

(** The enumeration is not under way. *)
Definition idle (t : mpRtable) : Prop := static_s t = None /\ static_p t = None.

(** Between two calls: the statics designate path [j] of selector [i]; the
    paths still to come are the rest of that selector's and those of the
    next ones. *)
Definition cursor (t : mpRtable) (S : list (Z * list path_info)) (L : list positive)
    (P : list (list positive)) (i j : nat) : Prop :=
  exists l ps q a ds, L !! i = Some l /\ P !! i = Some ps /\ S !! i = Some (a, ds) /\
    ps !! j = Some q /\ (j < length ds)%nat /\ static_s t = Some l /\ static_p t = Some q.

Definition remaining (S : list (Z * list path_info)) (i j : nat) : list (Z * path_info) :=
  match S !! i with
  | Some (a, ds) => (pair a <$> drop (Datatypes.S j) ds) ++ flat (drop (Datatypes.S i) S)
  | None => []
  end.

(** What an enumeration step delivers: the first of [rest]. *)
Definition delivers (t : mpRtable) A L P (rest : list (Z * path_info))
    (r : result (option (Z * path_info) * mpRtable)) : Prop :=
  match rest with
  | [] => r = Ok (None, set_statics None None t)
  | x :: rest' => exists s p i j, r = Ok (Some x, set_statics s p t) /\
      cursor (set_statics s p t) (a_sels A) L P i j /\ remaining (a_sels A) i j = rest' /\
      exists ds, a_sels A !! i = Some (x.1, ds) /\ ds !! j = Some x.2
  end.

(** The selector at position [i]. *)
Lemma sels_lookup sel it p L P S i a ds :
  sels sel it p L P S -> S !! i = Some (a, ds) ->
  exists l m ps, L !! i = Some l /\ P !! i = Some ps /\ sel !! l = Some m /\
    select_addr m = a /\ dlist it (pathHead m) ps ds /\
    next_select m = L !! Datatypes.S i.
Proof.
  revert p L P i. induction S as [|[b es] S IH]; intros p [|l L] [|ps P] [|i]; simpl; try done.
  - intros (-> & m & Hm & Ha & _ & Hd & Hs) [= <- <-]. exists l, m, ps. split_and!; try done.
    pose proof (sels_seg _ _ _ _ _ _ Hs) as Hseg. rewrite (seg_head _ _ _ _ Hseg).
    by destruct L.
  - intros (-> & m & Hm & Ha & _ & Hd & Hs). by apply (IH (next_select m)).
Qed.

Lemma dlist_at (h : gmap positive mpath_item) head ps ds j q :
  dlist h head ps ds -> ps !! j = Some q ->
  exists v, h !! q = Some v /\ ds !! j = Some (path v) /\ next_path v = ps !! S j.
Proof.
  intros Hd Hq. destruct (dl_lookup _ _ _ _ _ _ _ _ Hd Hq) as (v & Hv & Hx).
  exists v. split_and!; [done|done|].
  pose proof (dl_seg _ _ _ _ _ _ Hd) as Hseg.
  destruct (list_elem_of_split_length _ _ _ Hq) as (p1 & p2 & -> & ->).
  apply seg_app in Hseg as (r & _ & (_ & w & Hw & Hseg)).
  assert (w = v) as -> by congruence.
  rewrite lookup_app_r by lia. replace (S (length p1) - length p1)%nat with 1%nat by lia.
  apply (seg_head (next_of : mpath_item -> _)) in Hseg.
  simpl in Hseg. rewrite Hseg. by destruct p2.
Qed.

(** One path of selector [i] is delivered. *)
Lemma deliver_path t A R RD L P i j a ds d s ps q :
  rep_at t A R RD L P -> a_sels A !! i = Some (a, ds) -> ds !! j = Some d ->
  L !! i = Some s -> P !! i = Some ps -> ps !! j = Some q ->
  delivers t A L P ((a, d) :: remaining (a_sels A) i j)
    (Ok (Some (a, d), set_statics (Some s) (Some q) t)).
Proof.
  intros Hrep HS Hd Hs Hps Hq. exists (Some s), (Some q), i, j. split_and!; [done| |done|eauto].
  exists s, ps, q, a, ds. split_and!; try done. by eapply lookup_lt_Some.
Qed.

(** The loop, started at selector [i] without a path. *)
Lemma get_path_loop_fresh t A R RD L P : rep_at t A R RD L P -> forall fuel i,
  (length (a_sels A) < fuel + i)%nat -> (i <= length (a_sels A))%nat ->
  delivers t A L P (flat (drop i (a_sels A))) (get_path_loop fuel (set_statics (L !! i) None t)).
Proof.
  intros Hrep fuel. pose proof (rep_sels _ _ _ _ _ _ Hrep) as Hs.
  pose proof (sels_length _ _ _ _ _ _ Hs) as [HL HP].
  induction fuel as [|fuel IH]; intros i Hf Hi; [simpl in *; lia|].
  cbn [get_path_loop static_s static_p selects items set_statics].
  destruct (a_sels A !! i) as [[a ds]|] eqn:HSi.
  - destruct (sels_lookup _ _ _ _ _ _ _ _ _ Hs HSi)
      as (l & m & ps & Hl & Hps & Hm & <- & Hd & Hn).
    rewrite Hl. cbn [load]. rewrite Hm. cbn [rbind].
    rewrite (drop_S _ _ _ HSi), flat_cons.
    pose proof (dl_seg _ _ _ _ _ _ Hd) as Hseg. apply seg_head in Hseg. rewrite Hseg.
    destruct ps as [|q ps].
    + destruct ds; [|done]. cbn [fmap list_fmap app head].
      change (set_statics (next_select m) None _) with (set_statics (next_select m) None t).
      rewrite Hn. apply IH; [lia|]. by eapply lookup_lt_Some.
    + destruct (dlist_at _ _ _ _ 0 q Hd eq_refl) as (v & Hv & Hd0 & _).
      destruct ds as [|d ds]; [done|]. injection Hd0 as ->. cbn [head load]. rewrite Hv.
      cbn [rbind].
      replace ((pair (select_addr m) <$> path v :: ds) ++ flat (drop (S i) (a_sels A)))
        with ((select_addr m, path v) :: remaining (a_sels A) i 0)
        by (unfold remaining; by rewrite HSi).
      eapply (deliver_path t A R RD L P); try done.
  - apply lookup_ge_None in HSi. rewrite (lookup_ge_None_2 L i) by lia.
    by rewrite drop_ge by lia.
Qed.

(** A call with the enumeration under way. *)
Lemma get_path_item_cursor fuel t A R RD L P i j :
  rep_at t A R RD L P -> (length (a_sels A) < fuel)%nat -> cursor t (a_sels A) L P i j ->
  delivers t A L P (remaining (a_sels A) i j) (get_path_item fuel t).
Proof.
  intros Hrep Hf (l & ps & q & a & ds & Hl & Hps & HSi & Hq & Hj & Ess & Esp).
  pose proof (rep_sels _ _ _ _ _ _ Hrep) as Hs.
  pose proof (lookup_lt_Some _ _ _ HSi) as Hi.
  destruct (sels_lookup _ _ _ _ _ _ _ _ _ Hs HSi)
    as (l' & m & ps' & Hl' & Hps' & Hm & <- & Hd & Hn). simplify_eq.
  destruct (dlist_at _ _ _ _ _ _ Hd Hq) as (v & Hv & Hdv & Hnv).
  unfold get_path_item. destruct (mptable_head t) eqn:Eh.
  2: { destruct L, P, (a_sels A) as [|[? ?] ?]; simpl in Hs; try done. by destruct Hs. }
  rewrite Ess, Esp. destruct fuel as [|fuel]; [lia|]. cbn [get_path_loop].
  rewrite Ess, Esp. cbn [load]. rewrite Hm. cbn [rbind]. rewrite Hv. cbn [rbind].
  rewrite Hnv. unfold remaining. rewrite HSi. destruct (ps !! S j) as [q'|] eqn:Eq'.
  - destruct (dlist_at _ _ _ _ _ _ Hd Eq') as (w & Hw & Hdw & _). cbn [load]. rewrite Hw.
    cbn [rbind]. rewrite (drop_S _ _ _ Hdw).
    replace ((pair (select_addr m) <$> path w :: drop (S (S j)) ds)
        ++ flat (drop (S i) (a_sels A)))
      with ((select_addr m, path w) :: remaining (a_sels A) i (S j))
      by (unfold remaining; by rewrite HSi).
    by eapply deliver_path.
  - assert (drop (S j) ds = []) as ->.
    { apply drop_ge. rewrite <- (dl_length _ _ _ _ _ _ Hd). by apply lookup_ge_None. }
    rewrite Hn. eapply (get_path_loop_fresh t); [done|lia|lia].
Qed.

(** The first call. *)
Lemma get_path_item_idle fuel t A R RD L P :
  rep_at t A R RD L P -> (length (a_sels A) < fuel)%nat -> idle t ->
  delivers t A L P (flat (a_sels A)) (get_path_item fuel t).
Proof.
  intros Hrep Hf [Ess Esp]. pose proof (rep_sels _ _ _ _ _ _ Hrep) as Hs.
  unfold get_path_item. destruct (mptable_head t) eqn:Eh.
  - rewrite Ess, Esp.
    replace (Some p) with (L !! 0%nat).
    + change (flat (a_sels A)) with (flat (drop 0 (a_sels A))).
      eapply get_path_loop_fresh; [done|lia|lia].
    + apply sels_seg in Hs. rewrite (seg_head _ _ _ _ Hs). by destruct L.
  - destruct L, P, (a_sels A) as [|[? ?] ?]; simpl in Hs; try done; [|by destruct Hs..].
    destruct t; simpl in *. by subst.
Qed.

(** ** The ping handler *)

(** The enumeration, idle or under way, has [rest] to come. *)
Definition enum (t : mpRtable) A L P (rest : list (Z * path_info)) : Prop :=
  (idle t /\ rest = flat (a_sels A)) \/
  (exists i j, cursor t (a_sels A) L P i j /\ rest = remaining (a_sels A) i j).

Lemma get_path_item_enum fuel t A R RD L P rest :
  rep_at t A R RD L P -> (length (a_sels A) < fuel)%nat -> enum t A L P rest ->
  delivers t A L P rest (get_path_item fuel t).
Proof.
  intros Hrep Hf [[Hi ->]|(i & j & Hc & ->)];
    [by eapply get_path_item_idle|by eapply get_path_item_cursor].
Qed.

Lemma rep_at_statics t A R RD L P s p :
  rep_at t A R RD L P -> rep_at (set_statics s p t) A R RD L P.
Proof. by intros [Hr Hs Hc Ha Hb]. Qed.

(** The record of a ping sent on a path: its time and the next number. *)
Definition pinged (now : f64) (i : path_info) : path_info :=
  with_ping now (wrap_u32 (ping_seq i + 1)) i.

Definition ping_step (now : f64) (A : spec) (x : Z * path_info) : spec :=
  a_on_sel x.1 (alter_first (same_path (s_intf x.2) (d_intf x.2)) (pinged now)) A.

Lemma alter_first_drop {A} (test : A -> bool) f l j x :
  l !! j = Some x -> test x = true ->
  drop (S j) (alter_first test f l) = drop (S j) l.
Proof.
  revert j. induction l as [|y l IH]; intros [|j]; simpl; try done.
  - intros [= ->] ->. done.
  - intros Hx Ht. destruct (test y); [done|]. simpl. by eapply IH.
Qed.

Lemma on_sel_app a g S1 S2 : on_sel a g (S1 ++ S2) = on_sel a g S1 ++ on_sel a g S2.
Proof. apply map_app. Qed.

(** Recording a ping does not disturb the paths to come. *)
Lemma enum_ping_step now t A L P i j x ds :
  NoDup (map fst (a_sels A)) -> a_sels A !! i = Some (x.1, ds) -> ds !! j = Some x.2 ->
  cursor t (a_sels A) L P i j ->
  cursor t (a_sels (ping_step now A x)) L P i j /\
  remaining (a_sels (ping_step now A x)) i j = remaining (a_sels A) i j.
Proof.
  intros Hnd HS Hds Hc. destruct x as [a p]. simpl in *.
  destruct (list_elem_of_split_length _ _ _ HS) as (S1 & S2 & E & ->).
  rewrite E in Hnd. rewrite map_app in Hnd. cbn [map fst] in Hnd.
  destruct (elem_of_split_NoDup (A:=Z) _ _ _ _ Hnd eq_refl) as [_ Hn2].
  set (g := alter_first (same_path (s_intf p) (d_intf p)) (pinged now)).
  assert (Hi : on_sel a g (a_sels A) !! length S1 = Some (a, g ds)).
  { unfold on_sel. rewrite list_lookup_fmap, HS. simpl. by rewrite Z.eqb_refl. }
  split.
  - destruct Hc as (l & ps & q & b & es & Hl & Hps & HSi & Hq & Hj & Hss & Hsp).
    rewrite HS in HSi. injection HSi as <- <-.
    exists l, ps, q, a, (g ds). split_and!; try done. unfold g. by rewrite length_alter_first.
  - unfold remaining. rewrite Hi, HS. f_equal.
    + f_equal. unfold g. apply alter_first_drop with p; [done|].
      unfold same_path. by rewrite !Z.eqb_refl.
    + f_equal. rewrite E. rewrite on_sel_app. cbn [on_sel map].
      rewrite !(cons_middle _ _ S2), !(cons_middle _ _ (on_sel a g S2)), !(assoc_L (++)).
      rewrite !drop_app_length'; [|rewrite length_app; simpl; unfold on_sel; rewrite ?length_map; lia..].
      by apply on_sel_notin.
Qed.

(** The pings of an enumeration: one per path, numbered from [uid]. *)
Fixpoint pings (now : f64) (a : mpSelect) (uid : Z) (rest : list (Z * path_info))
    : list effect :=
  match rest with
  | [] => []
  | (dest, p) :: rest' =>
      Sched (ping_packet now a dest p (initpkt now (base_ a) uid fresh_headers)) f0
      :: pings now a (wrap_i32 (uid + 1)) rest'
  end.

(** The packet counter after [n] packets. *)
Fixpoint uid_after (n : nat) (uid : Z) : Z :=
  match n with O => uid | S n' => uid_after n' (wrap_i32 (uid + 1)) end.

Lemma pings_config now a a' uid rest :
  base_ a = base_ a' -> ra_addr_ a = ra_addr_ a' -> pings now a uid rest = pings now a' uid rest.
Proof.
  intros Hb Hr. revert uid. induction rest as [|[dest p] rest IH]; intros uid; simpl; [done|].
  unfold ping_packet. by rewrite Hb, Hr, IH.
Qed.

Lemma fits_ping_step fuel now A x : fits fuel A -> fits fuel (ping_step now A x).
Proof.
  intros (H1 & H2 & H3). unfold ping_step, a_on_sel, on_sel. split_and!; cbn [a_routes a_sels].
  - done.
  - by rewrite length_map.
  - apply Forall_map. eapply Forall_impl; [exact H3|]. intros [b ds] Hb. simpl in *.
    destruct (b =? x.1); simpl; [by rewrite length_alter_first|done].
Qed.

(** The configuration of an agent: what no handler changes. *)
Definition same_config (a a' : mpSelect) : Prop :=
  base_ a = base_ a' /\ ra_addr_ a = ra_addr_ a' /\ select_type_ a = select_type_ a' /\
  dmux_ a = dmux_ a'.

Lemma ping_loop_spec now fuel rest : forall n a A R RD L P,
  rep_at (rtable_ a) A R RD L P -> fits fuel A -> enum (rtable_ a) A L P rest ->
  (length rest < n)%nat ->
  exists a', ping_loop n fuel now a = Ok (a', pings now a (uidcnt_ a) rest) /\
    rep (rtable_ a') (fold_left (ping_step now) rest A) /\ idle (rtable_ a') /\
    same_config a a' /\ uidcnt_ a' = uid_after (length rest) (uidcnt_ a).
Proof.
  induction rest as [|[dest p] rest IH]; intros [|n] a A R RD L P Hrep Hfits Henum Hn;
    simpl in Hn; try lia; cbn [ping_loop];
    pose proof (get_path_item_enum fuel _ _ _ _ _ _ _ Hrep (proj1 (proj2 Hfits)) Henum) as Hd.
  - rewrite Hd. cbn [rbind pings length fold_left uid_after]. eexists. split; [done|].
    split_and!; try done. by do 4 eexists; apply rep_at_statics.
  - destruct Hd as (s & q & i & j & -> & Hc & Hrem & ds & HSi & Hds). cbn [rbind].
    cbv zeta. cbn [allocpkt]. cbn [rtable_ set_rtable].
    pose proof (rep_at_statics _ _ _ _ _ _ s q Hrep) as Hrep0.
    destruct (for_selects_rep_at fuel true dest
      (fun l => update_ping fuel now l (s_intf p) (d_intf p))
      (alter_first (same_path (s_intf p) (d_intf p)) (pinged now)) _ A R RD L P Hrep0 Hfits)
      as (t' & P' & E & Hrep' & Hsame & _ & Ess & Esp); [apply update_path_op|].
    rewrite (Hsame eq_refl) in Hrep'. unfold update_ping_info. rewrite E. cbn [rbind].
    destruct (enum_ping_step now _ A L P i j (dest, p) ds (rep_addrs _ _ _ _ _ _ Hrep) HSi Hds Hc)
      as [Hc' Hrem'].
    set (a2 := set_rtable t' _).
    destruct (IH n a2 (ping_step now A (dest, p)) R RD L P) as (a' & Eloop & Hr & Hi & Hcf & Hu).
    + exact Hrep'.
    + by apply fits_ping_step.
    + right. exists i, j. split; [|by rewrite Hrem', Hrem].
      unfold cursor. cbn [rtable_ set_rtable a2]. rewrite Ess, Esp. exact Hc'.
    + lia.
    + rewrite Eloop. cbn [rbind]. exists a'. split_and!; [|done..].
      cbn [pings]. by rewrite (pings_config now a2 a).
Qed.

(** ** Forwarding *)

(** Where the table sends a destination: the first covering route decides. *)
Variant verdict :=
  | VNoRoute
  | VHop (hop : Z)
  | VSelect (a : Z) (d : path_info)
  | VHang.

Definition verdict_of (now : f64) (daddr : Z) (A : spec) : verdict :=
  match first (a_covers daddr) (a_routes A) with
  | None => VNoRoute
  | Some r =>
      match ar_sel r with
      | None => if is_broadcast (ar_hop r) then VNoRoute else VHop (ar_hop r)
      | Some a =>
          match paths_of a A with
          | [] => VNoRoute
          | d0 :: ds =>
              if existsb (fun d => negb (same_as d0 d)) ds then VHang
              else if silent now d0 then VSelect a d0 else VNoRoute
          end
      end
  end.

(** No selection counter has wrapped around. *)
Definition counts_ok (A : spec) : Prop :=
  Forall (fun x => Forall (fun d => 0 <= cnt d) x.2) (a_sels A).

(** The table after a verdict. *)
Definition after_verdict (v : verdict) (A : spec) : spec :=
  match v with
  | VSelect a d => a_on_sel a (alter_first (same_path (s_intf d) (d_intf d)) count_selected) A
  | _ => A
  end.

Lemma first_bound daddr A r a :
  first (a_covers daddr) (a_routes A) = Some r -> ar_sel r = Some a -> bound_route daddr A = Some r.
Proof.
  unfold bound_route. induction (a_routes A) as [|x l IH]; simpl; [done|].
  destruct (a_covers daddr x); simpl; [|done]. intros [= ->] ->. done.
Qed.

Lemma paths_of_In a A : a ∈ map fst (a_sels A) -> (a, paths_of a A) ∈ a_sels A.
Proof.
  unfold paths_of. induction (a_sels A) as [|[b ds] S IH]; simpl; [set_solver|].
  destruct (Z.eqb_spec b a) as [->|]; [set_solver|]. intros [?|?]%elem_of_cons; set_solver.
Qed.

(** [lookup (daddr, s_intf, d_intf)] for a destination whose first covering
    route is bound. *)
Lemma lookup_mp_verdict fuel now daddr t A R RD L P r a :
  rep_at t A R RD L P -> fits fuel A -> counts_ok A ->
  first (a_covers daddr) (a_routes A) = Some r -> ar_sel r = Some a ->
  match verdict_of now daddr A with
  | VHang => lookup_mp fuel now daddr t = NoFuel
  | VSelect b d => b = a /\ exists t', lookup_mp fuel now daddr t
        = Ok (a, Some (s_intf d, d_intf d), t') /\
        rep t' (after_verdict (VSelect b d) A) /\ static_s t' = static_s t /\ static_p t' = static_p t
  | _ => lookup_mp fuel now daddr t = Ok (broadcast_addr, None, t)
  end.
Proof.
  intros Hrep Hfits Hcnt Hfirst Ha. unfold verdict_of. rewrite Hfirst, Ha.
  pose proof (lookup_mp_reach fuel fuel now daddr t A R RD L P Hrep (proj1 Hfits)) as Hreach.
  rewrite (first_bound _ _ _ _ Hfirst Ha) in Hreach.
  destruct Hreach as (a' & l & Ha' & Hl & Hreach). assert (a' = a) as -> by congruence.
  unfold lookup_mp. rewrite Hreach.
  destruct (sel_addr_paths _ _ _ _ _ _ _ _ Hrep Hl) as (m & ps & Hm & Hma & Hd & Hin).
  pose proof (paths_of_In _ _ Hin) as Hp. destruct (paths_of a A) as [|d0 ds] eqn:Eds.
  - unfold select_path. mem_step. destruct ps; [|done]. unfold dlist in Hd. simpl in Hd.
    by rewrite Hd.
  - destruct (existsb _ ds) eqn:Eex.
    { by eapply select_path_diverges. }
    destruct ps as [|p ps]; [done|].
    destruct Hfits as (Hf1 & Hf2 & Hf3).
    assert (Hlen : (length (d0 :: ds) < fuel)%nat)
      by (rewrite Forall_forall in Hf3; apply (Hf3 _ Hp)).
    rewrite (select_path_update _ _ _ _ _ _ _ _ _ Hm Hd Hlen).
    + destruct (silent now d0); [|done]. split; [done|].
      destruct (sel_op_at fuel true _ _ a l t A R RD L P Hrep ltac:(by split_and!)
        (update_path_op fuel count_selected (s_intf d0) (d_intf d0)) Hl)
        as (t' & P' & -> & Hrep' & Hs1 & Hs2). cbn [rbind]. exists t'.
      rewrite Hma. split_and!; try done. by do 4 eexists.
    + unfold counts_ok in Hcnt. rewrite Forall_forall in Hcnt. specialize (Hcnt _ Hp).
      simpl in Hcnt. apply Forall_cons in Hcnt as [Hc0 Hcs]. constructor.
      * split; [|done]. unfold same_as, same_path. by rewrite !Z.eqb_refl.
      * rewrite Forall_forall in Hcs |- *. intros d Hdin. split; [|by apply Hcs].
        destruct (same_as d0 d) eqn:E; [done|]. exfalso.
        enough (existsb (fun d => negb (same_as d0 d)) ds = true) by congruence.
        apply existsb_exists. exists d. rewrite E. split; [by apply list_elem_of_In|done].
Qed.

(** The packet [forward_data] hands down the stack. *)
Definition going_down (h : headers) : headers :=
  on_cmn (fun c => set_addr_type NS_AF_INET (set_direction DOWN c)) h.

Definition verdict_effects (now : f64) (a : mpSelect) (h : headers) (v : verdict) : list effect :=
  match v with
  | VNoRoute | VHang => [DropPkt h DROP_RTR_NO_ROUTE]
  | VHop hop => [Sched (on_cmn (set_next_hop hop) h) f0]
  | VSelect s d =>
      if is_broadcast s then [DropPkt h DROP_RTR_NO_ROUTE]
      else [Sched (encapsulate now a s (s_intf d) (d_intf d) h) f0]
  end.

Lemma forward_data_verdict fuel now h a A :
  rep (rtable_ a) A -> fits fuel A -> counts_ok A ->
  is_broadcast (daddr (ip h)) = false ->
  (direction_ (cmn h) =? UP) && (daddr (ip h) =? ra_addr_ a) = false ->
  let v := verdict_of now (daddr (ip h)) A in
  match v with
  | VHang => forward_data fuel now h a = NoFuel
  | _ => exists t', forward_data fuel now h a
        = Ok (set_rtable t' a, verdict_effects now a (going_down h) v) /\
        rep t' (after_verdict v A) /\ static_s t' = static_s (rtable_ a) /\
        static_p t' = static_p (rtable_ a)
  end.
Proof.
  intros Hrep Hfits Hcnt Hb Hup v. unfold forward_data. rewrite Hb. cbn [orb]. rewrite Hup.
  cbv zeta. fold (going_down h). cbn [ip going_down on_cmn]. rewrite Hb.
  rewrite (find_MP_refines fuel _ _ A Hrep Hfits). cbn [rbind].
  destruct (first (a_covers (daddr (ip h))) (a_routes A)) as [r|] eqn:Efirst.
  - destruct (ar_sel r) as [s|] eqn:Es.
    + rewrite bool_decide_eq_true_2 by done. destruct Hrep as (R & RD & L & P & Hrep).
      pose proof (lookup_mp_verdict fuel now _ _ A R RD L P r s Hrep Hfits Hcnt Efirst Es) as Hv.
      fold v in Hv. assert (Hhop : forall z, v <> VHop z).
      { intros z. unfold v, verdict_of. rewrite Efirst, Es. by repeat case_match. }
      destruct v as [|z|b d|]; [| by destruct (Hhop z)| |by rewrite Hv].
      * rewrite Hv. cbn [rbind]. exists (rtable_ a). split_and!; try done. by do 4 eexists.
      * destruct Hv as (-> & t' & -> & Hrep' & Hs1 & Hs2). cbn [rbind]. exists t'.
        split_and!; try done. cbn [verdict_effects]. by destruct (is_broadcast s).
    + rewrite bool_decide_eq_false_2 by (by intros [? ?]).
      rewrite (lookup_refines fuel _ _ A Hrep Hfits), Efirst. cbn [rbind].
      unfold v, verdict_of. rewrite Efirst, Es.
      destruct (is_broadcast (ar_hop r)); exists (rtable_ a); by destruct a.
  - rewrite (lookup_refines fuel _ _ A Hrep Hfits), Efirst. cbn [rbind].
    unfold v, verdict_of. rewrite Efirst. exists (rtable_ a). by destruct a.
Qed.

(** ** Receiving *)

(** The table after the receive time of a path is recorded. *)
Definition heard (now : f64) (m : hdr_mpSelect) (A : spec) : spec :=
  a_on_sel (s_select m)
    (alter_first (same_path (mps_d_intf m) (mps_s_intf m)) (with_recv_time now)) A.

(** An update of one path keeps the representation, the statics, the bounds
    and the counters. *)
Lemma update_refines fuel f a s d t A :
  rep t A -> fits fuel A ->
  exists t', for_selects fuel a (fun l => update_path fuel f l s d) (mptable_head t) t = Ok t' /\
    rep t' (a_on_sel a (alter_first (same_path s d) f) A) /\
    static_s t' = static_s t /\ static_p t' = static_p t.
Proof.
  intros (R & RD & L & P & Hrep) Hfits.
  destruct (for_selects_rep_at fuel true a _ _ t A R RD L P Hrep Hfits (update_path_op fuel f s d))
    as (t' & P' & E & Hrep' & _ & _ & H1 & H2).
  exists t'. split_and!; try done. by do 4 eexists.
Qed.

Lemma fits_alter fuel a test f A :
  fits fuel A -> fits fuel (a_on_sel a (alter_first test f) A).
Proof.
  intros (H1 & H2 & H3). unfold a_on_sel, on_sel. split_and!; cbn [a_routes a_sels]; [done| |].
  - by rewrite length_map.
  - apply Forall_map. eapply Forall_impl; [exact H3|]. intros [b ds] Hb. simpl in *.
    destruct (b =? a); simpl; [by rewrite length_alter_first|done].
Qed.

Lemma Forall_alter_first {A} (P : A -> Prop) test f l :
  (forall x, P x -> P (f x)) -> Forall P l -> Forall P (alter_first test f l).
Proof.
  intros Hf. induction 1 as [|x l Hx Hl IH]; simpl; [done|].
  destruct (test x); constructor; auto.
Qed.

Lemma counts_alter a test f A :
  (forall d, cnt (f d) = cnt d) -> counts_ok A -> counts_ok (a_on_sel a (alter_first test f) A).
Proof.
  intros Hf HA. unfold counts_ok, a_on_sel, on_sel. cbn [a_sels]. apply Forall_map.
  eapply Forall_impl; [exact HA|]. intros [b ds] Hb. simpl in *.
  destruct (b =? a); simpl; [|done]. apply Forall_alter_first; [|done]. intros d. by rewrite Hf.
Qed.

Lemma fits_heard fuel now m A : fits fuel A -> fits fuel (heard now m A).
Proof. apply fits_alter. Qed.

Lemma counts_heard now m A : counts_ok A -> counts_ok (heard now m A).
Proof. by apply counts_alter. Qed.

(** Where a packet handed to [recv] ends: the packets of an effect. *)
Definition effect_packet (e : effect) : option headers :=
  match e with
  | Sched p _ | ToDmux p | DropPkt p _ | FreePkt p => Some p
  | TimerResched _ | TimerCancel => None
  end.

Definition effect_uid (e : effect) : option Z := uid_ ∘ cmn <$> effect_packet e.

(** How many of the effects get rid of the packet numbered [u]. *)
Definition disposals (u : Z) (effs : list effect) : nat :=
  length (filter (fun e => effect_uid e = Some u) effs).

Lemma disposals_one u e : effect_uid e = Some u -> disposals u [e] = 1%nat.
Proof. intros E. unfold disposals. rewrite filter_cons_True by done. done. Qed.

Lemma forward_data_disposes fuel now h a a' effs :
  forward_data fuel now h a = Ok (a', effs) -> disposals (uid_ (cmn h)) effs = 1%nat.
Proof.
  unfold forward_data. intros H.
  repeat (case_match; simplify_eq/=; try (by apply disposals_one)).
  apply rbind_Ok_inv in H as (mp & _ & H). destruct mp.
  - apply rbind_Ok_inv in H as ([[dest intfs] t] & _ & H).
    repeat (case_match; simplify_eq/=; try (by apply disposals_one)).
  - apply rbind_Ok_inv in H as (hop & _ & H).
    repeat (case_match; simplify_eq/=; try (by apply disposals_one)).
Qed.

(** ** The invariant of the agent *)

(** The invariant between two events: the table represents its meaning, the
    enumeration of the paths is idle, the role is set, and [dmux_] is as the
    constructor left it. *)
Definition agent_ok (a : mpSelect) (A : spec) : Prop :=
  rep (rtable_ a) A /\ idle (rtable_ a) /\ dmux_ a = None /\
  (select_type_ a = Some SELECT_CORE \/ select_type_ a = Some SELECT_INTF).

(** No selector spreads its paths over several pairs of interfaces. *)
Definition one_interface (A : spec) : Prop :=
  Forall (fun x => match x.2 with
                   | [] => True
                   | d0 :: ds => existsb (fun d => negb (same_as d0 d)) ds = false
                   end) (a_sels A).

(** The run returns, keeping the invariant, the routes and the selectors. *)
Definition keeps (a : mpSelect) (A : spec) (r : result (mpSelect * list effect)) : Prop :=
  exists a' A' effs, r = Ok (a', effs) /\ agent_ok a' A' /\ same_config a a' /\
    a_routes A' = a_routes A /\ map fst (a_sels A') = map fst (a_sels A).

(** [forward_data] hands the packet to [dmux_]. *)
Definition for_upper (h : headers) (a : mpSelect) : bool :=
  (direction_ (cmn h) =? UP) &&
  (is_broadcast (daddr (ip h)) || (daddr (ip h) =? ra_addr_ a)).

(** [recv] hands the packet to [dmux_]: an mpSelect data packet whose former
    destination is this node, or the broadcast address on its way up; and any
    other packet that [forward_data] would hand to it. *)
Definition for_dmux (h : headers) (a : mpSelect) : bool :=
  negb ((saddr (ip h) =? ra_addr_ a) && (0 <? num_forwards_ (cmn h))) &&
  if ptype_ (cmn h) =? PT_MPSELECT then
    bool_decide (select_type_ a = Some SELECT_CORE) && (mps_type (mps h) =? DATA_PKT) &&
    ((former_addr (mps h) =? ra_addr_ a) ||
     ((direction_ (cmn h) =? UP) && is_broadcast (former_addr (mps h))))
  else negb (wrap_i32 (ttl_ (ip h) - 1) <? 0) && for_upper h a.

(** A run that reads the uninitialised [dmux_] if [up], and otherwise
    returns and keeps what [keeps] says. *)
Definition serves (up : bool) (a : mpSelect) (A : spec) (r : result (mpSelect * list effect))
    : Prop := if up then r = Fault Uninit else keeps a A r.

Lemma same_as_alter (f : path_info -> path_info) test d0 ds :
  (forall d, s_intf (f d) = s_intf d /\ d_intf (f d) = d_intf d) ->
  existsb (fun d => negb (same_as d0 d)) (alter_first test f ds)
    = existsb (fun d => negb (same_as d0 d)) ds.
Proof.
  intros Hf. induction ds as [|d ds IH]; simpl; [done|].
  destruct (test d); simpl; [|by rewrite IH].
  f_equal. unfold same_as. by destruct (Hf d) as [-> ->].
Qed.

Lemma one_interface_alter a test f A :
  (forall d, s_intf (f d) = s_intf d /\ d_intf (f d) = d_intf d) ->
  one_interface A -> one_interface (a_on_sel a (alter_first test f) A).
Proof.
  intros Hf HA. unfold one_interface, a_on_sel, on_sel. cbn [a_sels]. apply Forall_map.
  eapply Forall_impl; [exact HA|]. intros [b ds] Hb. simpl in *.
  destruct (b =? a); simpl; [|done]. destruct ds as [|d0 ds]; simpl in *; [done|].
  destruct (test d0); [|by rewrite same_as_alter].
  rewrite <- Hb. clear Hb. induction ds as [|d ds IH]; simpl; [done|]. rewrite IH. f_equal.
  unfold same_as, same_path. by destruct (Hf d0) as [-> ->].
Qed.

Lemma one_interface_not_hang now daddr A : one_interface A -> verdict_of now daddr A <> VHang.
Proof.
  intros HA. unfold verdict_of. destruct (first _ _) as [r|]; [|done].
  destruct (ar_sel r) as [a|]; [|by case_match].
  unfold paths_of. destruct (first _ (a_sels A)) as [[b ds]|] eqn:E; [|done]. simpl.
  rewrite first_find in E. destruct (list_find _ (a_sels A)) as [[i x]|] eqn:Ef; [|done].
  simpl in E. injection E as ->. apply list_find_Some in Ef as (Hi & _ & _).
  unfold one_interface in HA. rewrite Forall_forall in HA.
  specialize (HA (b, ds) ltac:(apply list_elem_of_lookup; eauto)). simpl in HA.
  destruct ds as [|d0 ds]; [done|]. rewrite HA. by case_match.
Qed.

Lemma forward_data_serves fuel now h a A :
  agent_ok a A -> fits fuel A -> counts_ok A -> one_interface A ->
  serves (for_upper h a) a A (forward_data fuel now h a).
Proof.
  intros (Hrep & Hidle & Hdm & Hrole) Hfits Hcnt Hone. unfold serves.
  destruct (for_upper h a) eqn:E1; unfold for_upper in E1.
  { unfold forward_data. by rewrite E1, Hdm. }
  destruct (is_broadcast (daddr (ip h))) eqn:E2.
  { unfold forward_data. cbn [ip on_cmn]. rewrite E2, E1. by eexists a, A, _. }
  cbn [orb] in E1.
  pose proof (forward_data_verdict fuel now h a A Hrep Hfits Hcnt E2 E1) as Hv.
  pose proof (one_interface_not_hang now (daddr (ip h)) A Hone) as Hnh.
  cbv zeta in Hv. destruct (verdict_of now (daddr (ip h)) A) as [|hop|b d|] eqn:Ev; [| | |done];
    destruct Hv as (t' & -> & Hrep' & Hs1 & Hs2); eexists _, _, _;
    (split; [done|]; split; [split; [exact Hrep'|split; [|done]]|]);
    try (unfold idle in *; cbn [rtable_ set_rtable]; by rewrite Hs1, Hs2); split_and!; try done.
  apply on_sel_fst.
Qed.

(** Recording something about a path first. *)
Lemma serves_after_update fuel f a s d A (k : mpRtable -> result (mpSelect * list effect)) up x :
  agent_ok x A -> fits fuel A -> counts_ok A -> one_interface A ->
  (forall i, s_intf (f i) = s_intf i /\ d_intf (f i) = d_intf i) ->
  (forall i, cnt (f i) = cnt i) ->
  (forall t' A', agent_ok (set_rtable t' x) A' -> fits fuel A' -> counts_ok A' ->
     one_interface A' -> serves up (set_rtable t' x) A' (k t')) ->
  serves up x A (let! t' := for_selects fuel a (fun l => update_path fuel f l s d)
                          (mptable_head (rtable_ x)) (rtable_ x) in k t').
Proof.
  intros (Hrep & Hidle & Hdm & Hrole) Hfits Hcnt Hone Hf1 Hf2 Hk.
  destruct (update_refines fuel f a s d _ A Hrep Hfits) as (t' & -> & Hrep' & Hs1 & Hs2).
  cbn [rbind].
  pose proof (Hk t' _ (conj Hrep' (conj (conj (eq_trans Hs1 (proj1 Hidle))
    (eq_trans Hs2 (proj2 Hidle))) (conj Hdm Hrole))) ltac:(by apply fits_alter)
    ltac:(by apply counts_alter) ltac:(by apply one_interface_alter)) as Hk'.
  destruct up; [exact Hk'|].
  destruct Hk' as (a' & A' & effs & E & Hok & Hcf & HR & HS).
  exists a', A', effs. split_and!; try done; [apply Hcf..|]. rewrite HS. apply on_sel_fst.
Qed.

Lemma recv_data_serves fuel now h a A :
  agent_ok a A -> fits fuel A -> counts_ok A -> one_interface A ->
  serves ((former_addr (mps h) =? ra_addr_ a) ||
          ((direction_ (cmn h) =? UP) && is_broadcast (former_addr (mps h))))
    a A (recv_data_pkt fuel now h a).
Proof.
  intros. apply (serves_after_update fuel); try done. intros t' A' Hok' Hf' Hc' Ho'.
  cbv zeta. change (daddr (ip (decapsulate h))) with (former_addr (mps h)).
  change (ra_addr_ (set_rtable t' a)) with (ra_addr_ a).
  destruct (former_addr (mps h) =? ra_addr_ a) eqn:E.
  - pose proof (forward_data_serves fuel now (on_cmn (set_direction UP) (decapsulate h))
      (set_rtable t' a) A' Hok' Hf' Hc' Ho') as Hs.
    unfold for_upper in Hs. cbn [daddr ip decapsulate on_cmn set_dport set_daddr ra_addr_ set_rtable] in Hs.
    rewrite E, orb_true_r in Hs. exact Hs.
  - pose proof (forward_data_serves fuel now (decapsulate h) (set_rtable t' a) A' Hok' Hf' Hc' Ho') as Hs.
    unfold for_upper in Hs. cbn [daddr ip decapsulate set_dport set_daddr ra_addr_ set_rtable] in Hs.
    rewrite E, orb_false_r in Hs. exact Hs.
Qed.

Lemma recv_ping_serves fuel now h a A :
  agent_ok a A -> fits fuel A -> counts_ok A -> one_interface A ->
  serves false a A (recv_ping_pkt fuel now h a).
Proof.
  intros. apply (serves_after_update fuel); try done. intros t1 A1 Hok1 Hf1 Hc1 Ho1.
  destruct (mps_type (mps h) =? PING_PKT).
  - apply (serves_after_update fuel (with_recv_delay (fsub now (send_time (mps h))))); try done.
    intros t2 A2 Hok2 Hf2 Hc2 Ho2. by eexists _, A2, _.
  - apply (serves_after_update fuel); try done; [by intros i; case_match..|].
    intros t2 A2 Hok2 Hf2 Hc2 Ho2. by eexists _, A2, _.
Qed.

(** ** The branches of [recv] for mpSelect packets *)

(** A packet this node is the source of, with the IP header counted. *)
Definition counted (a : mpSelect) (h : headers) : headers :=
  if saddr (ip h) =? ra_addr_ a
  then on_cmn (fun c => set_size (wrap_i32 (size_ c + IP_HDR_LEN)) c) h else h.

Lemma counted_same a h : saddr (ip h) <> ra_addr_ a -> counted a h = h.
Proof. intros Hs. unfold counted. by rewrite (proj2 (Z.eqb_neq _ _) Hs). Qed.

Lemma recv_intf fuel now h a :
  select_type_ a = Some SELECT_INTF -> ptype_ (cmn h) = PT_MPSELECT -> num_forwards_ (cmn h) = 0 ->
  recv fuel now h a = Ok (a, forward_mpS_pkt (counted a h) a).
Proof.
  intros Hr Hp Hn. unfold recv, counted. rewrite Hn, Z.ltb_irrefl, andb_false_r, Z.eqb_refl,
    andb_true_r, Hr. by destruct (_ =? ra_addr_ a); cbn; rewrite Hp.
Qed.

Lemma recv_core_data fuel now h a :
  select_type_ a = Some SELECT_CORE -> ptype_ (cmn h) = PT_MPSELECT ->
  mps_type (mps h) = DATA_PKT -> saddr (ip h) <> ra_addr_ a ->
  recv fuel now h a = recv_data_pkt fuel now h a.
Proof.
  intros Hr Hp Hm Hs. unfold recv. rewrite (proj2 (Z.eqb_neq _ _) Hs). cbn [andb].
  by rewrite Hp, Hr, Hm.
Qed.

(** The two hops of an interface agent: out of the source site, and into the
    destination site. *)
Lemma forward_mpS_out h a :
  daddr (ip h) = mps_s_intf (mps h) -> s_select (mps h) = ra_addr_ a ->
  forward_mpS_pkt h a
    = [Sched (Headers (set_next_hop (mps_d_intf (mps h)) (cmn h))
                (set_daddr (mps_d_intf (mps h)) (ip h)) (mps h)) f0].
Proof. intros Hd Hs. unfold forward_mpS_pkt. by rewrite Hd, Hs, !Z.eqb_refl. Qed.

Lemma forward_mpS_in h a :
  daddr (ip h) = mps_d_intf (mps h) -> s_select (mps h) <> ra_addr_ a ->
  forward_mpS_pkt h a = [Sched (on_ip (set_daddr (ra_addr_ a)) h) f0].
Proof.
  intros Hd Hs. unfold forward_mpS_pkt.
  by rewrite Hd, Z.eqb_refl, andb_false_r, (proj2 (Z.eqb_neq _ _) Hs).
Qed.

(** A data packet for this node is handed to [dmux_], which nothing has set. *)
Lemma recv_data_up fuel now h a t :
  update_rtime fuel (s_select (mps h)) (mps_d_intf (mps h)) (mps_s_intf (mps h)) now (rtable_ a)
    = Ok t ->
  former_addr (mps h) = ra_addr_ a -> dmux_ a = None ->
  recv_data_pkt fuel now h a = Fault Uninit.
Proof.
  intros E Hf Hdm. unfold recv_data_pkt. rewrite E. cbn [rbind].
  change (daddr (ip (decapsulate h))) with (former_addr (mps h)).
  change (ra_addr_ (set_rtable t a)) with (ra_addr_ a). rewrite Hf, Z.eqb_refl.
  unfold forward_data. cbn [daddr ip decapsulate on_cmn set_dport set_daddr ra_addr_ set_rtable dmux_].
  by rewrite Hf, !Z.eqb_refl, orb_true_r, Hdm.
Qed.

(** A data packet for another node that an ordinary route covers goes on to
    the route's next hop. *)
Lemma recv_data_on fuel now h a t A hop :
  update_rtime fuel (s_select (mps h)) (mps_d_intf (mps h)) (mps_s_intf (mps h)) now (rtable_ a)
    = Ok t -> rep t A -> fits fuel A -> counts_ok A ->
  former_addr (mps h) <> ra_addr_ a -> is_broadcast (former_addr (mps h)) = false ->
  verdict_of now (former_addr (mps h)) A = VHop hop ->
  exists t', recv_data_pkt fuel now h a
      = Ok (set_rtable t' a, [Sched (on_cmn (set_next_hop hop) (going_down (decapsulate h))) f0]) /\
    rep t' A.
Proof.
  intros E Hrep Hfits Hcnt Hf Hb Hv. unfold recv_data_pkt. rewrite E. cbn [rbind].
  change (daddr (ip (decapsulate h))) with (former_addr (mps h)).
  change (ra_addr_ (set_rtable t a)) with (ra_addr_ a). rewrite (proj2 (Z.eqb_neq _ _) Hf).
  pose proof (forward_data_verdict fuel now (decapsulate h) (set_rtable t a) A Hrep Hfits Hcnt Hb) as Hd.
  cbn [daddr ip decapsulate set_dport set_daddr ra_addr_ set_rtable] in Hd.
  rewrite (proj2 (Z.eqb_neq _ _) Hf), andb_false_r, Hv in Hd.
  destruct (Hd eq_refl) as (t' & E' & Hrep' & _). exists t'. by split.
Qed.

(** A route without a selector decides alone. *)
Lemma verdict_hop_routes now d A A' hop :
  a_routes A' = a_routes A -> verdict_of now d A = VHop hop -> verdict_of now d A' = VHop hop.
Proof.
  unfold verdict_of. intros ->. destruct (first _ _) as [r|]; [|done].
  destruct (ar_sel r); [|done]. by repeat case_match.
Qed.
