(* ===== verification/MpSelectTheorems.v ===== *)
(** * The properties of the mpSelect agent

    The statements over the handlers and the commands of the agent, each
    with a concrete agent and packet that meet its hypotheses. *)

From stdpp Require Import base numbers list gmap strings.
From Stdlib Require Import ZArith Lia.
From S2P Require Import Prelude Store Float64 Dlist MpRtable MpRtableSpec MpRtableProps Packet Address.
From S2P Require Import MpSelect MpSelectProps.

Local Open Scope Z_scope.

(** ** A concrete agent *)

Definition sample_agent_ops : list table_op :=
  [AddItem 0x10 0xf0 5; AddMpath f0 7 1 2; AddMpath f0 9 3 4; AddMpath f0 9 5 6;
   AddItem 0x20 0xf0 6; Attach 0x20 0xf0 7].

Definition sample_agent_spec : spec :=
  fold_left (fun A o => a_op o A) sample_agent_ops empty_spec.

Definition sample_agent (t : mpRtable) : mpSelect :=
  MpSelect (Agent 7 255 0 0 0 0 0 0 32) (Some SELECT_CORE) 8 t None 100.

Lemma sample_agent_run :
  exists t, run_ops 20 sample_agent_ops empty_mpRtable = Ok t /\ rep t sample_agent_spec /\ idle t.
Proof.
  destruct (run_ops_refines 20 sample_agent_ops 0 empty_mpRtable empty_spec rep_empty)
    as (t & E & Hrep).
  { split_and!; simpl; (lia || constructor). }
  { simpl. lia. }
  exists t. split; [exact E|]. split; [exact Hrep|].
  vm_compute in E. injection E as <-. done.
Qed.

Lemma sample_agent_fits : fits 20 sample_agent_spec.
Proof. split_and!; simpl; [lia|lia|]. repeat constructor; simpl; lia. Qed.

Lemma sample_agent_counts : counts_ok sample_agent_spec.
Proof. repeat constructor; simpl; lia. Qed.

(** A data packet to [dst], going down. *)
Definition sample_packet (src dst : Z) : headers :=
  Headers (HdrCmn PT_MESSAGE 1000 42 0 f0 0 DOWN (-2) (-2) 0 0) (HdrIp src 1 dst 2 32 0 0)
    (mps zero_headers).

(** ** Pings *)

(** C20: the ping handler sends exactly one ping for every path of every
    selector, in the order of the lists, each carrying the path's interfaces
    and the sequence number it had; it then has recorded the time and the
    next number of each ping, the packet counter has advanced by one per
    ping, and the statics of [get_path_item] are back to null, so that the
    next round starts over. *)
Theorem send_ping_handler_pings_every_path (n fuel : nat) (now : f64) (a : mpSelect) (A : spec)
    (Hrep : rep (rtable_ a) A) (Hidle : idle (rtable_ a)) (Hfits : fits fuel A)
    (Hn : (length (flat (a_sels A)) < n)%nat) :
  exists a', send_ping_handler n fuel now a
      = Ok (a', pings now a (uidcnt_ a) (flat (a_sels A))) /\
    rep (rtable_ a') (fold_left (ping_step now) (flat (a_sels A)) A) /\ idle (rtable_ a') /\
    same_config a a' /\ uidcnt_ a' = uid_after (length (flat (a_sels A))) (uidcnt_ a).
Proof.
  destruct Hrep as (R & RD & L & P & Hrep).
  apply (ping_loop_spec now fuel _ n a A R RD L P Hrep Hfits); [by left|done].
Qed.

Lemma send_ping_handler_pings_every_path_witness :
  exists t a', run_ops 20 sample_agent_ops empty_mpRtable = Ok t /\
    send_ping_handler 20 20 (f64_of_Z 3) (sample_agent t)
      = Ok (a', pings (f64_of_Z 3) (sample_agent t) 100
                  [(9, new_path f0 5 6); (9, new_path f0 3 4); (7, new_path f0 1 2)]) /\
    idle (rtable_ a') /\ uidcnt_ a' = 103.
Proof.
  destruct sample_agent_run as (t & E & Hrep & Hidle).
  destruct (send_ping_handler_pings_every_path 20 20 (f64_of_Z 3) (sample_agent t) _ Hrep Hidle
    sample_agent_fits) as (a' & Es & _ & Hi & _ & Hu); [simpl; lia|].
  exists t, a'. split; [exact E|]. split; [exact Es|]. split; [exact Hi|exact Hu].
Defined.

(** ** Forwarding *)

(** C39: [forward_data] on a packet that is neither broadcast nor for this
    node follows the first route covering its destination: no route drops it,
    a plain route schedules it to the next hop, a route bound to a selector
    schedules it encapsulated over the chosen path, with the selection
    counted, and a selector over several pairs of interfaces hangs. *)
Theorem forward_data_follows_table (fuel : nat) (now : f64) (h : headers) (a : mpSelect)
    (A : spec) (Hrep : rep (rtable_ a) A) (Hfits : fits fuel A) (Hcounts : counts_ok A)
    (Huni : is_broadcast (daddr (ip h)) = false)
    (Hforeign : (direction_ (cmn h) =? UP) && (daddr (ip h) =? ra_addr_ a) = false) :
  let v := verdict_of now (daddr (ip h)) A in
  match v with
  | VHang => forward_data fuel now h a = NoFuel
  | _ => exists t', forward_data fuel now h a
        = Ok (set_rtable t' a, verdict_effects now a (going_down h) v) /\
        rep t' (after_verdict v A) /\ static_s t' = static_s (rtable_ a) /\
        static_p t' = static_p (rtable_ a)
  end.
Proof. by apply forward_data_verdict. Qed.

Lemma forward_data_follows_table_witness :
  exists t, run_ops 20 sample_agent_ops empty_mpRtable = Ok t /\
    let a := sample_agent t in
    let h := sample_packet 1 0x25 in
    exists t', forward_data 20 (f64_of_Z 5) h a
      = Ok (set_rtable t' a, [Sched (encapsulate (f64_of_Z 5) a 7 1 2 (going_down h)) f0]) /\
      rep t' (after_verdict (VSelect 7 (new_path f0 1 2)) sample_agent_spec) /\
      static_s t' = static_s t /\ static_p t' = static_p t.
Proof.
  destruct sample_agent_run as (t & E & Hrep & _). exists t. split; [exact E|].
  exact (forward_data_follows_table 20 (f64_of_Z 5) (sample_packet 1 0x25) (sample_agent t) _
    Hrep sample_agent_fits sample_agent_counts eq_refl eq_refl).
Defined.

(** ** Receiving *)

(** A packet with its TTL decremented. *)
Definition one_hop (h : headers) : headers := on_ip (fun i => set_ttl (ttl_ i - 1) i) h.

(** The packet is handed to the port classifier. *)
Definition upward (e : effect) : bool := match e with ToDmux _ => true | _ => false end.

Lemma forward_data_not_up fuel now h a a' effs :
  dmux_ a = None -> forward_data fuel now h a = Ok (a', effs) -> existsb upward effs = false.
Proof.
  unfold forward_data. intros -> H. case_match; [done|]. case_match; [by simplify_eq|].
  apply rbind_Ok_inv in H as (mp & _ & H). destruct mp.
  - apply rbind_Ok_inv in H as ([[dest intfs] t] & _ & H). repeat (case_match; simplify_eq/=; try done).
  - apply rbind_Ok_inv in H as (hop & _ & H). repeat (case_match; simplify_eq/=; try done).
Qed.

(** C40: an agent as the source makes it, its [dmux_] never set, whose role
    is set, disposes of every packet on which [recv] returns exactly once:
    among the packets it schedules, drops or frees there is the received one,
    once, the answer to a ping is a packet of another number, and none is
    handed to the port classifier. *)
Theorem recv_disposes_of_packet_once (fuel : nat) (now : f64) (h : headers) (a a' : mpSelect)
    (effs : list effect) (ty : Z)
    (Hrole : select_type_ a = Some ty) (Hty : ty = SELECT_CORE \/ ty = SELECT_INTF)
    (Hdm : dmux_ a = None) (Huid : uid_ (cmn h) <> uidcnt_ a)
    (Hrun : recv fuel now h a = Ok (a', effs)) :
  disposals (uid_ (cmn h)) effs = 1%nat /\ existsb upward effs = false.
Proof.
  revert Hrun. unfold recv. rewrite Hrole.
  destruct (_ && (0 <? _)); [intros [= <- <-]; split; [by apply disposals_one|done]|].
  set (h1 := if _ && (_ =? 0) then _ else h).
  assert (Hu : uid_ (cmn h1) = uid_ (cmn h)) by (unfold h1; by case_match).
  rewrite <- Hu in *. clearbody h1. clear Hu h. case_match.
  - destruct Hty as [-> | ->]; cbn [Z.eqb SELECT_CORE SELECT_INTF].
    + case_match; intros Hrun.
      * unfold recv_data_pkt in Hrun. apply rbind_Ok_inv in Hrun as (t & _ & Hrun).
        split; [|by eapply forward_data_not_up; [|exact Hrun]].
        apply forward_data_disposes in Hrun. revert Hrun. by case_match.
      * unfold recv_ping_pkt, allocpkt in Hrun. inv_ok. case_match; inv_ok; simplify_eq; (split; [|done]).
        -- unfold disposals. rewrite filter_cons_False; [by apply disposals_one|]. intros [= E]. by apply Huid.
        -- by apply disposals_one.
    + intros [= <- <-]. unfold forward_mpS_pkt.
      split; repeat case_match; first [by apply disposals_one|done].
  - case_match; [intros [= <- <-]; split; [by apply disposals_one|done]|].
    intros Hrun. split; [exact (forward_data_disposes _ _ _ _ _ _ Hrun)|].
    exact (forward_data_not_up _ _ _ _ _ _ Hdm Hrun).
Qed.

Lemma recv_disposes_of_packet_once_witness :
  let a := sample_agent empty_mpRtable in
  recv 20 f0 (sample_packet 1 0x15) a
    = Ok (a, [DropPkt (going_down (one_hop (sample_packet 1 0x15))) DROP_RTR_NO_ROUTE]) /\
  disposals 42 [DropPkt (going_down (one_hop (sample_packet 1 0x15))) DROP_RTR_NO_ROUTE] = 1%nat.
Proof.
  cbv zeta. split; [vm_compute; reflexivity|].
  apply (recv_disposes_of_packet_once 20 f0 (sample_packet 1 0x15) (sample_agent empty_mpRtable)
    (sample_agent empty_mpRtable) _ SELECT_CORE); [done|by left|done|done|].
  vm_compute. reflexivity.
Defined.

(** C38: an agent in its invariant, none of whose selectors uses several pairs
    of interfaces, returns from [recv] on every packet that is not for the node
    itself, and the invariant still holds, with the routes and the selectors
    it had.  On a packet for the node, which [forward_data] hands to [dmux_],
    it reads that pointer, which nothing has ever set. *)
Theorem recv_preserves_invariant (fuel : nat) (now : f64) (h : headers) (a : mpSelect) (A : spec)
    (Hok : agent_ok a A) (Hfits : fits fuel A) (Hcounts : counts_ok A) (Hone : one_interface A) :
  if for_dmux h a then recv fuel now h a = Fault Uninit
  else exists a' A' effs, recv fuel now h a = Ok (a', effs) /\ agent_ok a' A' /\
    same_config a a' /\ a_routes A' = a_routes A /\ map fst (a_sels A') = map fst (a_sels A).
Proof.
  change (serves (for_dmux h a) a A (recv fuel now h a)).
  pose proof Hok as (_ & _ & _ & Hrole). unfold recv, for_dmux.
  assert (Hsame : forall effs, keeps a A (Ok (a, effs))) by (intros effs; by exists a, A, effs).
  destruct (_ && (0 <? _)); [apply Hsame|]. cbn [negb andb].
  set (h1 := if _ && (_ =? 0) then _ else h).
  assert (Hh : ip h1 = ip h /\ mps h1 = mps h /\ ptype_ (cmn h1) = ptype_ (cmn h) /\
    direction_ (cmn h1) = direction_ (cmn h)) by (unfold h1; by case_match).
  destruct Hh as (Hi & Hm & Hp & Hdir). rewrite <- Hi, <- Hm, <- Hp, <- Hdir.
  destruct (ptype_ (cmn h1) =? PT_MPSELECT).
  - destruct Hrole as [E|E]; rewrite E; [|apply Hsame].
    rewrite bool_decide_true by done. cbn [andb Z.eqb SELECT_CORE].
    destruct (mps_type (mps h1) =? DATA_PKT); cbn [andb]; [by apply recv_data_serves|by apply recv_ping_serves].
  - unfold for_upper. cbn [ip on_ip set_ttl ttl_]. rewrite <- Hi, <- Hdir.
    destruct (wrap_i32 (ttl_ (ip h1) - 1) <? 0); cbn [negb andb]; [apply Hsame|].
    by apply (forward_data_serves fuel now (on_ip (fun i => set_ttl (wrap_i32 (ttl_ i - 1)) i) h1)).
Qed.

(** A packet on its way up the stack of its node. *)
Definition upward_packet (src dst : Z) : headers :=
  on_cmn (set_direction UP) (sample_packet src dst).

Lemma recv_preserves_invariant_witness :
  exists t a' A' effs, run_ops 20 [AddMpath f0 7 1 2] empty_mpRtable = Ok t /\
    recv 20 f0 (sample_packet 1 0x15) (sample_agent t) = Ok (a', effs) /\ agent_ok a' A' /\
    map fst (a_sels A') = [7] /\
    recv 20 f0 (upward_packet 1 8) (sample_agent t) = Fault Uninit.
Proof.
  destruct (run_ops_refines 20 [AddMpath f0 7 1 2] 0 empty_mpRtable empty_spec rep_empty)
    as (t & E & Hrep).
  { split_and!; simpl; (lia || constructor). }
  { simpl. lia. }
  assert (Hok : agent_ok (sample_agent t) (a_op (AddMpath f0 7 1 2) empty_spec)).
  { split; [exact Hrep|]. split; [vm_compute in E; by injection E as <-|]. split; [done|by left]. }
  assert (Hfits : fits 20 (a_op (AddMpath f0 7 1 2) empty_spec)).
  { split_and!; simpl; [lia|lia|]. repeat constructor; simpl; lia. }
  assert (Hcnt : counts_ok (a_op (AddMpath f0 7 1 2) empty_spec)) by (repeat constructor; simpl; lia).
  assert (Hone : one_interface (a_op (AddMpath f0 7 1 2) empty_spec)) by (repeat constructor).
  pose proof (recv_preserves_invariant 20 f0 (sample_packet 1 0x15) (sample_agent t) _
    Hok Hfits Hcnt Hone) as Hdown.
  pose proof (recv_preserves_invariant 20 f0 (upward_packet 1 8) (sample_agent t) _
    Hok Hfits Hcnt Hone) as Hup.
  change (for_dmux (sample_packet 1 0x15) (sample_agent t)) with false in Hdown.
  change (for_dmux (upward_packet 1 8) (sample_agent t)) with true in Hup.
  destruct Hdown as (a' & A' & effs & Er & Hok' & _ & _ & HS).
  exists t, a', A', effs. split; [exact E|]. split; [exact Er|]. split; [exact Hok'|].
  split; [exact HS|exact Hup].
Defined.

(** ** Pings and their answers *)

(** What an answer to ping [seq], sent at [time], records about a path. *)
Definition answered (time : f64) (seq : Z) (i : path_info) : path_info :=
  if seq <? ping_seq i then with_send_delay (send_delay_of time seq i) i else i.

(** A ping that agent [a] sends to agent [b] comes back to the path it
    was sent on: [b] answers with its own address as the selector, the two
    interfaces exchanged and the sequence number of the ping, and when [a]
    receives the answer it records, for the first path with those interfaces
    of the selector [b], the time of reception and the delay computed from
    the time [b] answered. *)
Theorem ping_answer_returns_to_path (fuel : nat) (t0 t1 t2 : f64) (a b : mpSelect) (dest : Z)
    (p : path_info) (hp : headers) (A B : spec)
    (Ha : rep (rtable_ a) A) (Hfa : fits fuel A) (Hb : rep (rtable_ b) B) (Hfb : fits fuel B) :
  let ping := ping_packet t0 a dest p hp in
  exists b' e ta,
    recv_ping_pkt fuel t1 ping b = Ok (b', [Sched e f0; FreePkt ping]) /\
    rep (rtable_ b') (a_on_sel (ra_addr_ a)
      (alter_first (same_path (d_intf p) (s_intf p)) (with_recv_delay (fsub t1 t0)))
      (heard t1 (mps ping) B)) /\
    recv_ping_pkt fuel t2 e a = Ok (set_rtable ta a, [FreePkt e]) /\
    rep ta (a_on_sel (ra_addr_ b)
      (alter_first (same_path (s_intf p) (d_intf p)) (answered t1 (ping_seq p)))
      (a_on_sel (ra_addr_ b)
        (alter_first (same_path (s_intf p) (d_intf p)) (with_recv_time t2)) A)).
Proof.
  intros ping. set (e := echo_packet t1 b ping (initpkt t1 (base_ b) (uidcnt_ b) fresh_headers)).
  destruct (update_refines fuel (with_recv_time t1) (ra_addr_ a) (d_intf p) (s_intf p) _ B Hb Hfb)
    as (tb & Eb & Hb1 & _).
  destruct (update_refines fuel (with_recv_delay (fsub t1 t0)) (ra_addr_ a) (d_intf p) (s_intf p)
    tb _ Hb1 ltac:(by apply fits_alter)) as (tb' & Eb' & Hb2 & _).
  destruct (update_refines fuel (with_recv_time t2) (ra_addr_ b) (s_intf p) (d_intf p) _ A Ha Hfa)
    as (ta & Ea & Ha1 & _).
  destruct (update_refines fuel (answered t1 (ping_seq p)) (ra_addr_ b) (s_intf p) (d_intf p)
    ta _ Ha1 ltac:(by apply fits_alter)) as (ta' & Ea' & Ha2 & _).
  exists (allocpkt t1 (set_rtable tb' b)).2, e, ta'. split_and!; [|exact Hb2| |exact Ha2].
  - unfold recv_ping_pkt, update_rtime, update_rdelay, update_recv_time, update_recv_delay.
    cbn [mps ping ping_packet s_select mps_d_intf mps_s_intf mps_type send_time].
    rewrite Eb. cbn [rbind Z.eqb PING_PKT Pos.eqb]. rewrite Eb'. cbn [rbind allocpkt].
    cbn [uidcnt_ base_ set_rtable]. done.
  - unfold recv_ping_pkt, update_rtime, update_sdelay, update_recv_time, update_send_delay.
    cbn [mps e echo_packet ping ping_packet s_select mps_d_intf mps_s_intf mps_type send_time
      mps_ping_seq]. rewrite Ea. cbn [rbind Z.eqb PING_PKT PING_BAK Pos.eqb].
    unfold answered in Ea'. rewrite Ea'. done.
Qed.

Lemma ping_answer_returns_to_path_witness :
  exists t, run_ops 20 sample_agent_ops empty_mpRtable = Ok t /\
    let a := sample_agent t in
    let ping := ping_packet f1 a 8 (new_path f0 3 4) fresh_headers in
    exists b' e ta,
      recv_ping_pkt 20 (f64_of_Z 2) ping a = Ok (b', [Sched e f0; FreePkt ping]) /\
      recv_ping_pkt 20 (f64_of_Z 3) e a = Ok (set_rtable ta a, [FreePkt e]).
Proof.
  destruct sample_agent_run as (t & E & Hrep & _). exists t. split; [exact E|]. cbv zeta.
  destruct (ping_answer_returns_to_path 20 f1 (f64_of_Z 2) (f64_of_Z 3) (sample_agent t)
    (sample_agent t) 8 (new_path f0 3 4) fresh_headers _ _ Hrep sample_agent_fits Hrep
    sample_agent_fits) as (b' & e & ta & E1 & _ & E2 & _).
  exists b', e, ta. split; [exact E1|exact E2].
Defined.

(** ** The tunnel *)

(** What a relay makes of a packet it is the only one to schedule. *)
Definition relayed (r : result (mpSelect * list effect)) : option headers :=
  match r with Ok (_, [Sched h _]) => Some h | _ => None end.

(** C37: a data packet that a core agent [ca] encapsulates for the core agent
    [cb] is carried by the two interface agents, which have the addresses of
    their cores, to [cb].  When its destination is another node, which [cb]
    has an ordinary route to, [cb] schedules to that route's next hop the
    packet with the IP header, the type and the number it had; its size is the
    original one, plus one IP header when [ca] is also its source, because the
    interface agent counts that header again.  When its destination is [cb]'s
    own node, the packet never arrives: [cb] reads its [dmux_], which nothing
    has set. *)
Theorem tunnel_restores_packet (fuel : nat) (t0 t1 : f64) (ca ia ib cb : mpSelect) (s d : Z)
    (h : headers) (B : spec)
    (Hia : ra_addr_ ia = ra_addr_ ca) (Hria : select_type_ ia = Some SELECT_INTF)
    (Hib : ra_addr_ ib = ra_addr_ cb) (Hrib : select_type_ ib = Some SELECT_INTF)
    (Hrcb : select_type_ cb = Some SELECT_CORE) (Hdm : dmux_ cb = None)
    (Hdiff : ra_addr_ ca <> ra_addr_ cb)
    (Huni : is_broadcast (daddr (ip h)) = false) (Hsrc : saddr (ip h) <> ra_addr_ cb)
    (Hnew : num_forwards_ (cmn h) = 0) (Hsize : 0 <= size_ (cmn h) < 2 ^ 30)
    (Hb : rep (rtable_ cb) B) (Hfb : fits fuel B) (Hcb : counts_ok B) :
  let e0 := encapsulate t0 ca (ra_addr_ cb) s d h in
  exists e1 e2,
    relayed (recv fuel t1 e0 ia) = Some e1 /\ relayed (recv fuel t1 e1 ib) = Some e2 /\
    if decide (daddr (ip h) = ra_addr_ cb) then recv fuel t1 e2 cb = Fault Uninit
    else forall hop, verdict_of t1 (daddr (ip h)) B = VHop hop -> exists tb h',
      recv fuel t1 e2 cb = Ok (set_rtable tb cb, [Sched h' f0]) /\
      ip h' = ip h /\ ptype_ (cmn h') = ptype_ (cmn h) /\ uid_ (cmn h') = uid_ (cmn h) /\
      size_ (cmn h') = size_ (cmn h) + (if saddr (ip h) =? ra_addr_ ca then IP_HDR_LEN else 0) /\
      next_hop_ (cmn h') = hop /\ direction_ (cmn h') = DOWN /\
      rep tb (a_on_sel (ra_addr_ ca) (alter_first (same_path d s) (with_recv_time t1)) B).
Proof.
  intros e0.
  destruct (update_refines fuel (with_recv_time t1) (ra_addr_ ca) d s _ B Hb Hfb)
    as (tb & Eb & Hb1 & _).
  assert (Hc : counted ia e0 = Headers (cmn (counted ia e0)) (ip e0) (mps e0))
    by (unfold counted; by case_match).
  assert (Hsz : size_ (cmn (counted ia e0)) = size_ (cmn h) + 40
            + (if saddr (ip h) =? ra_addr_ ca then IP_HDR_LEN else 0)).
  { unfold counted. cbn [ip e0 encapsulate saddr set_daddr set_dport]. rewrite Hia.
    destruct (_ =? _); cbn; unfold MPSELECT_HDR_LEN, IP_HDR_LEN;
      rewrite !wrap_i32_id; unfold in_i32; rewrite ?wrap_i32_id; unfold in_i32; lia. }
  assert (Hcp : ptype_ (cmn (counted ia e0)) = PT_MPSELECT /\
                num_forwards_ (cmn (counted ia e0)) = 0 /\
                uid_ (cmn (counted ia e0)) = uid_ (cmn h))
    by (unfold counted; destruct (_ =? ra_addr_ ia); split_and!; first [exact Hnew|done]).
  destruct Hcp as (Hcp & Hcn & Hcu). revert Hc Hsz Hcp Hcn Hcu.
  generalize (counted ia e0) at 2 3 4 5 6 as c. intros c Hc Hsz Hcp Hcn Hcu.
  eexists _, _. split; [|split].
  - rewrite (recv_intf _ _ e0 _ Hria eq_refl Hnew), Hc, forward_mpS_out by done. reflexivity.
  - rewrite recv_intf, counted_same, forward_mpS_in by (done || by rewrite Hib). reflexivity.
  - destruct (decide _) as [Hown|Hother]; [|intros hop Hv]; rewrite recv_core_data by done.
    + by apply (recv_data_up _ _ _ _ tb).
    + match goal with |- context [recv_data_pkt _ _ ?x _] =>
        destruct (recv_data_on fuel t1 x cb tb _ hop Eb Hb1) as (tb' & E & Hrep');
          [by apply fits_alter|by apply counts_alter|exact Hother|exact Huni|
           by eapply verdict_hop_routes, Hv|] end.
      exists tb'. eexists. split; [exact E|]. split_and!; try done; [cbn; by destruct (ip h)|].
      cbn. rewrite Hsz. unfold MPSELECT_HDR_LEN. rewrite wrap_i32_id; [lia|].
      unfold in_i32, IP_HDR_LEN. case_match; lia.
Qed.

(** A packet from host 1 to host 0x25, which node 4 has a route to by 6. *)
Lemma tunnel_restores_packet_witness :
  let ca := MpSelect (Agent 1 255 0 0 0 0 0 0 32) (Some SELECT_CORE) 1 empty_mpRtable None 0 in
  let ia := MpSelect (Agent 2 255 0 0 0 0 0 0 32) (Some SELECT_INTF) 1 empty_mpRtable None 0 in
  let ib := MpSelect (Agent 3 255 0 0 0 0 0 0 32) (Some SELECT_INTF) 4 empty_mpRtable None 0 in
  exists t, run_ops 5 [AddItem 0x20 0xf0 6] empty_mpRtable = Ok t /\
  let cb := MpSelect (Agent 4 255 0 0 0 0 0 0 32) (Some SELECT_CORE) 4 t None 0 in
  exists e1 e2 tb h',
    relayed (recv 5 f1 (encapsulate f0 ca 4 2 3 (sample_packet 1 0x25)) ia) = Some e1 /\
    relayed (recv 5 f1 e1 ib) = Some e2 /\
    recv 5 f1 e2 cb = Ok (set_rtable tb cb, [Sched h' f0]) /\
    ip h' = ip (sample_packet 1 0x25) /\ size_ (cmn h') = 1020 /\ next_hop_ (cmn h') = 6.
Proof.
  intros ca ia ib.
  destruct (run_ops_refines 5 [AddItem 0x20 0xf0 6] 0 empty_mpRtable empty_spec rep_empty)
    as (t & E & Hrep).
  { split_and!; simpl; (lia || constructor). }
  { simpl. lia. }
  exists t. split; [exact E|]. intros cb.
  destruct (tunnel_restores_packet 5 f0 f1 ca ia ib cb 2 3 (sample_packet 1 0x25)
    (a_op (AddItem 0x20 0xf0 6) empty_spec)) as (e1 & e2 & H1 & H2 & H3);
    [done..|simpl; lia|exact Hrep|split_and!; simpl; (lia || constructor)|constructor|].
  rewrite decide_False in H3 by done.
  destruct (H3 6 ltac:(vm_compute; reflexivity)) as (tb & h' & H4 & H5 & _ & _ & H6 & H7 & _).
  exists e1, e2, tb, h'. split; [exact H1|]. split; [exact H2|]. split; [exact H4|].
  split; [exact H5|]. split; [exact H6|exact H7].
Defined.

(** ** The port classifier is never there *)

(** No command sets [dmux_], and by [recv_preserves_invariant] and
    [send_ping_handler_pings_every_path] no handler does: from the
    constructor on, it is not initialised. *)
Theorem dmux_is_never_set (A : Address) (fuel : nat) (now : f64) (argv : list string)
    (a a' : mpSelect) (effs : list effect)
    (Hrun : command A fuel now argv a = Ok (Some (a', effs))) : dmux_ a' = dmux_ a.
Proof.
  revert Hrun. unfold command, with_three, tbl.
  repeat case_match; intros Hrun; inv_ok; by simplify_eq.
Qed.

(** ** Commands *)

Section commands.
Context (A : Address).

(** An operation on the addresses three arguments stand for. *)
Definition three_addresses (x y z : string) (f : Z -> Z -> Z -> table_op) : option table_op :=
  match str2addr A x, str2addr A y, str2addr A z with
  | Ok x, Ok y, Ok z => Some (f x y z)
  | _, _, _ => None
  end.

(** The table operation a command line stands for. *)
Definition op_of_command (now : f64) (argv : list string) : option table_op :=
  match argv with
  | [_; c; x; y] =>
      if String.eqb c "delete-route-item"
      then match str2addr A x, str2addr A y with
           | Ok x, Ok y => Some (DeleteItem x y)
           | _, _ => None
           end
      else None
  | [_; c; x; y; z] =>
      if String.eqb c "add-route-item" then three_addresses x y z AddItem
      else if String.eqb c "add-mp-path" then three_addresses x y z (AddMpath now)
      else if String.eqb c "delete-mp-path" then three_addresses x y z DeleteMpath
      else if String.eqb c "attach-select" then three_addresses x y z Attach
      else if String.eqb c "detach-select" then three_addresses x y z Detach
      else None
  | _ => None
  end.
End commands.

(** Every command that changes the table, [delete-select] apart, returns
    [TCL_OK] and changes what the table represents by the operation it names,
    with its arguments read as addresses in the order of the command line;
    it has no other effect. *)
Theorem commands_change_table (addr : Address) (fuel : nat) (now : f64)
    (argv : list string) (o : table_op) (a : mpSelect) (A : spec)
    (Hop : op_of_command addr now argv = Some o)
    (Hrep : rep (rtable_ a) A) (Hfits : fits fuel A) :
  exists t, command addr fuel now argv a = Ok (Some (set_rtable t a, [])) /\
    rep t (a_op o A).
Proof.
  destruct (run_op_refines fuel o _ A Hrep Hfits) as (t & E & Hrep').
  exists t. split; [|done].
  destruct argv as [|? [|c [|x [|y [|z [|? ?]]]]]]; try done;
    cbn [op_of_command command] in *; unfold three_addresses, with_three in *;
    repeat (case_match; simplify_eq; try done); cbn [run_op rbind] in *; by rewrite E.
Qed.

(** Addresses of one level of 31 bits. *)
Definition flat_address : Address := mkAddress (Some (from_one [31])) None None 0 0 1.

Lemma commands_change_table_witness :
  exists t, command flat_address 9 f0 ["mpSelect"; "add-mp-path"; "3"; "3"; "3"]%string
      (sample_agent empty_mpRtable) = Ok (Some (set_rtable t (sample_agent empty_mpRtable), [])) /\
    rep t (Spec [] [(3, [new_path f0 3 3])]).
Proof.
  apply (commands_change_table flat_address 9 f0 _ (AddMpath f0 3 3 3)
    (sample_agent empty_mpRtable) empty_spec).
  - reflexivity.
  - apply rep_empty.
  - split_and!; simpl; (lia || constructor).
Defined.
