(* ===== verification/EventQueue.v ===== *)
(** * Events and the contract of an event queue (common/scheduler.h)

    Events live in a region of the free store shared by the scheduler, its
    queue and the handlers.  [EventQueue] is the interface of the pure
    virtual functions of [Scheduler]; [EventQueueLaws] is what the scheduler
    relies on: the queue holds a list of events ordered by time, first come
    first served among equal times. *)

From stdpp Require Import base numbers list gmap sorting.
From Stdlib Require Import ZArith Lia.
From S2P Require Import Prelude Store Float64.

Local Open Scope Z_scope.

(** [class Event]; a handler is identified by its address. *)
Record event := Event {
  ev_next : option positive;
  ev_prev : option positive;
  handler_ : option positive;
  time_ : f64;
  uid_ : Z;           (** scheduler_uid_t, 64 bits *)
}.

Abbreviation events := (gmap positive event).

(** [Event () : time_(0), uid_(0)]; the pointers are null in the model. *)
Definition new_event : event := Event None None None f0 0.

Definition set_next p (e : event) := Event p (ev_prev e) (handler_ e) (time_ e) (uid_ e).
Definition set_prev p (e : event) := Event (ev_next e) p (handler_ e) (time_ e) (uid_ e).
Definition set_uid u (e : event) := Event (ev_next e) (ev_prev e) (handler_ e) (time_ e) u.
(** The three assignments of [Scheduler::schedule]. *)
Definition set_schedule u h t (e : event) := Event (ev_next e) (ev_prev e) h t u.

(** What a queue may not change in an event. *)
Definition ev_data (e : event) : option positive * f64 * Z := (handler_ e, time_ e, uid_ e).

(** The time and the number of the event at [e]. *)
Definition tm (st : events) (e : positive) : f64 :=
  match st !! e with Some v => time_ v | None => f0 end.
Definition unum (st : events) (e : positive) : Z :=
  match st !! e with Some v => uid_ v | None => 0 end.

(** Events whose data are the same: only links, and what a queue keeps in
    them, differ. *)
Definition same_data (st st' : events) : Prop := forall k, ev_data <$> st' !! k = ev_data <$> st !! k.

Lemma data_tm (st st' : events) k :
  ev_data <$> st' !! k = ev_data <$> st !! k -> tm st' k = tm st k.
Proof.
  unfold tm. intros Hd. destruct (st' !! k) as [v'|], (st !! k) as [v|]; try done.
  by injection Hd.
Qed.

Lemma same_data_refl st : same_data st st.
Proof. done. Qed.

Lemma same_data_trans st1 st2 st3 : same_data st1 st2 -> same_data st2 st3 -> same_data st1 st3.
Proof. intros H1 H2 k. by rewrite H2. Qed.

Lemma same_data_tm st st' k : same_data st st' -> tm st' k = tm st k.
Proof. intros H. apply data_tm, H. Qed.

(** ** The interface *)

Class EventQueue (Q : Type) := {
  empty_queue : Q;
  eq_insert : nat -> positive -> events -> Q -> result (events * Q);
  eq_cancel : nat -> positive -> events -> Q -> result (events * Q);
  eq_deque : nat -> events -> Q -> result (option positive * events * Q);
  eq_lookup : nat -> Z -> events -> Q -> result (option positive * Q);
  eq_head : events -> Q -> result (option positive * Q);
}.

(** ** Ordered insertion *)

(** Before the first strictly later event. *)
Fixpoint ord_insert (t : positive -> f64) (e : positive) (es : list positive) : list positive :=
  match es with
  | [] => [e]
  | x :: es' => if flt (t e) (t x) then e :: es else x :: ord_insert t e es'
  end.

Definition not_later (t : positive -> f64) (a b : positive) : Prop := fle (t a) (t b) = true.

(** Sorted by time. *)
Definition in_order (t : positive -> f64) (es : list positive) : Prop :=
  StronglySorted (not_later t) es.

(** Events of equal times are in the order of their numbers. *)
Definition in_turn (t : positive -> f64) (u : positive -> Z) (es : list positive) : Prop :=
  StronglySorted (fun a b => feq (t a) (t b) = true -> u a < u b) es.

Definition remove_ev (e : positive) (es : list positive) : list positive :=
  filter (fun x => x <> e) es.

Section order.
Context (t : positive -> f64).
Implicit Types (e x : positive) (es : list positive).

Lemma ord_insert_split e es :
  exists pre post, es = pre ++ post /\ ord_insert t e es = pre ++ e :: post /\
    Forall (fun x => flt (t e) (t x) = false) pre /\
    (match post with [] => True | x :: _ => flt (t e) (t x) = true end).
Proof.
  induction es as [|x es IH]; simpl.
  - by exists [], [].
  - destruct (flt (t e) (t x)) eqn:E.
    + by exists [], (x :: es).
    + destruct IH as (pre & post & -> & -> & HF & Hp). exists (x :: pre), post.
      split_and!; try done. by constructor.
Qed.

Lemma ord_insert_perm e es : ord_insert t e es ≡ₚ e :: es.
Proof.
  destruct (ord_insert_split e es) as (pre & post & -> & -> & _).
  by rewrite Permutation_middle.
Qed.

Lemma elem_of_ord_insert e x es : x ∈ ord_insert t e es <-> x = e \/ x ∈ es.
Proof. by rewrite ord_insert_perm, elem_of_cons. Qed.

Lemma length_ord_insert e es : length (ord_insert t e es) = S (length es).
Proof. by rewrite ord_insert_perm. Qed.

Lemma ord_insert_in_order e es :
  is_nan (t e) = false -> Forall (fun x => is_nan (t x) = false) es ->
  in_order t es -> in_order t (ord_insert t e es).
Proof.
  intros He Hes. induction 1 as [|x es Hs IH Hx]; simpl.
  - by repeat constructor.
  - apply Forall_cons in Hes as [Hnx Hes].
    destruct (flt (t e) (t x)) eqn:E.
    + constructor; [by constructor|]. constructor; [by apply flt_le|].
      eapply Forall_impl; [exact Hx|]. intros y Hy. unfold not_later in *.
      by apply flt_le, flt_le_trans with (t x).
    + constructor; [by apply IH|]. apply Forall_forall. intros y Hy.
      apply elem_of_ord_insert in Hy as [->|Hy].
      * by apply flt_false_le.
      * rewrite Forall_forall in Hx. by apply Hx.
Qed.

Lemma ord_insert_ext t' e es :
  t e = t' e -> Forall (fun x => t x = t' x) es -> ord_insert t e es = ord_insert t' e es.
Proof.
  intros He. induction 1 as [|x es Hx Hes IH]; simpl; [done|]. by rewrite He, Hx, IH.
Qed.

Lemma in_order_ext t' es :
  Forall (fun x => t x = t' x) es -> in_order t es -> in_order t' es.
Proof.
  intros HF Hs. induction Hs as [|x es Hs IH Hx]; [constructor|].
  apply Forall_cons in HF as [Hxt HF]. constructor; [by apply IH|].
  rewrite Forall_forall in Hx, HF |- *. intros y Hy. unfold not_later.
  rewrite <- Hxt, <- HF by done. by apply Hx.
Qed.

Lemma in_turn_ext u t' u' es :
  Forall (fun x => t x = t' x /\ u x = u' x) es -> in_turn t u es -> in_turn t' u' es.
Proof.
  intros HF Hs. induction Hs as [|x es Hs IH Hx]; [constructor|].
  apply Forall_cons in HF as [[Hxt Hxu] HF]. constructor; [by apply IH|].
  rewrite Forall_forall in Hx, HF |- *. intros y Hy. destruct (HF y Hy) as [<- <-].
  rewrite <- Hxt, <- Hxu. by apply Hx.
Qed.

(** The newest event is inserted in its turn. *)
Lemma in_turn_ord_insert u e es :
  in_order t es -> in_turn t u es -> is_nan (t e) = false ->
  Forall (fun x => is_nan (t x) = false) es ->
  Forall (fun x => feq (t x) (t e) = true -> u x < u e) es -> in_turn t u (ord_insert t e es).
Proof.
  intros Ho Hs He. induction Hs as [|x es Hs IH Hx]; intros Hn Hu; simpl.
  - by repeat constructor.
  - apply Forall_cons in Hu as [Hux Hu]. apply Forall_cons in Hn as [Hnx Hn].
    apply StronglySorted_inv in Ho as [Ho Hox].
    destruct (flt (t e) (t x)) eqn:E; constructor.
    + by constructor.
    + constructor; [by rewrite (flt_not_eq _ _ E)|]. rewrite Forall_forall in Hox |- *. intros y Hy.
      rewrite (flt_not_eq (t e) (t y)); [done|]. eapply flt_le_trans; [exact E|by apply Hox].
    + by apply IH.
    + apply Forall_forall. intros y Hy. apply elem_of_ord_insert in Hy as [->|Hy]; [done|].
      rewrite Forall_forall in Hx. by apply Hx.
Qed.

Lemma in_turn_remove u e es : in_turn t u es -> in_turn t u (remove_ev e es).
Proof.
  induction 1 as [|x es Hs IH Hx]; [constructor|]. unfold remove_ev in *.
  rewrite filter_cons. case_decide; [|done]. constructor; [done|].
  rewrite Forall_forall in Hx |- *. intros y [_ Hy]%list_elem_of_filter. by apply Hx.
Qed.

Lemma in_order_remove e es : in_order t es -> in_order t (remove_ev e es).
Proof.
  induction 1 as [|x es Hs IH Hx]; [constructor|]. unfold remove_ev in *.
  rewrite filter_cons. case_decide; [|done]. constructor; [done|].
  rewrite Forall_forall in Hx |- *. intros y [_ Hy]%list_elem_of_filter. by apply Hx.
Qed.
End order.

Lemma elem_of_remove_ev e x es : x ∈ remove_ev e es <-> x <> e /\ x ∈ es.
Proof. unfold remove_ev. by rewrite list_elem_of_filter. Qed.

Lemma NoDup_remove_ev e es : NoDup es -> NoDup (remove_ev e es).
Proof. apply NoDup_filter. Qed.

Lemma remove_ev_notin e es : e ∉ es -> remove_ev e es = es.
Proof.
  unfold remove_ev. induction es as [|x es IH]; [done|]. intros Hn. rewrite filter_cons_True.
  - f_equal. set_solver.
  - set_solver.
Qed.

Lemma length_remove_ev e es : (length (remove_ev e es) <= length es)%nat.
Proof. unfold remove_ev. apply length_filter. Qed.

Lemma remove_ev_middle e es1 es2 :
  NoDup (es1 ++ e :: es2) -> remove_ev e (es1 ++ e :: es2) = es1 ++ es2.
Proof.
  intros Hnd. destruct (elem_of_split_NoDup _ _ _ _ Hnd eq_refl) as [H1 H2].
  unfold remove_ev. rewrite filter_app, filter_cons_False by naive_solver.
  fold (remove_ev e es1). fold (remove_ev e es2). by rewrite !remove_ev_notin.
Qed.

(** [a] is served before [b]. *)
Definition before (a b : positive) (es : list positive) : Prop :=
  exists l1 l2 l3, es = l1 ++ a :: l2 ++ b :: l3.

(** The new event goes after every event that is not later, the ones of the
    same time included, and before the later ones. *)
Lemma ord_insert_before t e x es :
  in_order t es -> is_nan (t e) = false -> is_nan (t x) = false -> x ∈ es ->
  if flt (t e) (t x) then before e x (ord_insert t e es) else before x e (ord_insert t e es).
Proof.
  intros Hs He Hx Hin. destruct (ord_insert_split t e es) as (pre & post & -> & -> & HF & Hp).
  apply elem_of_app in Hin as [Hin|Hin].
  - rewrite Forall_forall in HF. rewrite HF by done.
    apply list_elem_of_split in Hin as (l1 & l2 & ->).
    exists l1, l2, post. by rewrite <- (assoc_L (++)).
  - assert (flt (t e) (t x) = true) as ->.
    { destruct post as [|y post]; [set_solver|]. apply elem_of_cons in Hin as [->|Hin]; [done|].
      apply StronglySorted_app in Hs as (_ & _ & Hs). apply StronglySorted_inv in Hs as [_ HF'].
      rewrite Forall_forall in HF'. specialize (HF' x Hin). unfold not_later in HF'.
      by apply flt_le_trans with (t y). }
    apply list_elem_of_split in Hin as (l1 & l2 & ->). by exists pre, l1, l2.
Qed.

(** ** The contract *)

(** [qrep st q es]: the queue [q] holds the events [es], next one first.
    [room q n]: [n] more insertions keep the order among equal times.
    [by_number]: the queue finds an event to cancel by its number, so the
    events of equal times must be numbered in the order they are served. *)
Class EventQueueLaws (Q : Type) `{EventQueue Q} := {
  qrep : events -> Q -> list positive -> Prop;
  room : Q -> nat -> Prop;
  by_number : Prop;

  qrep_NoDup st q es : qrep st q es -> NoDup es;
  qrep_frame st st' q es :
    qrep st q es -> (forall k, k ∈ es -> st' !! k = st !! k) -> qrep st' q es;
  qrep_empty st : qrep st empty_queue [];
  room_weaken q n : room q (S n) -> room q n;

  insert_law fuel st q es e ev n :
    qrep st q es -> room q (S n) -> st !! e = Some ev -> e ∉ es ->
    Forall (fun x => is_Some (st !! x) /\ is_nan (tm st x) = false) es ->
    is_nan (time_ ev) = false -> in_order (tm st) es -> (length es < fuel)%nat ->
    exists st' q', eq_insert fuel e st q = Ok (st', q') /\
      qrep st' q' (ord_insert (tm st) e es) /\ room q' n /\
      (forall k, ev_data <$> st' !! k = ev_data <$> st !! k);

  deque_law fuel st q es n :
    qrep st q es -> room q n -> (length es < fuel)%nat ->
    Forall (fun x => is_Some (st !! x) /\ is_nan (tm st x) = false) es ->
    exists st' q', eq_deque fuel st q = Ok (head es, st', q') /\ qrep st' q' (tail es) /\
      room q' n /\ (forall k, ev_data <$> st' !! k = ev_data <$> st !! k);

  cancel_law fuel st q es e ev n :
    qrep st q es -> room q n -> st !! e = Some ev -> e ∈ es -> 0 < uid_ ev ->
    Forall (fun x => is_Some (st !! x) /\ is_nan (tm st x) = false) es ->
    in_order (tm st) es -> (by_number -> in_turn (tm st) (unum st) es) ->
    (length es < fuel)%nat ->
    exists st' q', eq_cancel fuel e st q = Ok (st', q') /\ qrep st' q' (remove_ev e es) /\
      room q' n /\
      (forall k, k <> e -> ev_data <$> st' !! k = ev_data <$> st !! k) /\
      ev_data <$> st' !! e = Some (handler_ ev, time_ ev, - uid_ ev);

  cancel_idle_law fuel st q es e ev :
    qrep st q es -> st !! e = Some ev -> uid_ ev <= 0 -> eq_cancel fuel e st q = Ok (st, q);

  lookup_law fuel st q es u n :
    qrep st q es -> room q n -> (length es < fuel)%nat ->
    Forall (fun x => is_Some (st !! x) /\ is_nan (tm st x) = false) es ->
    exists r q', eq_lookup fuel u st q = Ok (r, q') /\ qrep st q' es /\ room q' n /\
      match r with
      | Some e => e ∈ es /\ uid_ <$> st !! e = Some u
      | None => Forall (fun x => uid_ <$> st !! x <> Some u) es
      end;

  head_law st q es n :
    qrep st q es -> room q n -> exists q', eq_head st q = Ok (head es, q') /\ qrep st q' es /\ room q' n;
}.
