(* ===== verification/ListScheduler.v ===== *)
(** * The list scheduler (class ListScheduler, common/scheduler.cc)

    The pending events form a singly linked list through [next_], kept in
    order by [insert].  The loops of the source walk with the address of the
    link to change ([Event **p]); here the link is the queue's head or the
    [next_] field of the event before it. *)

From stdpp Require Import base numbers list gmap.
From Stdlib Require Import ZArith Lia.
From S2P Require Import Prelude Store Float64 EventQueue.

Local Open Scope Z_scope.

Record listq := ListQ { queue_ : option positive }.

(** [*p = v], the link [p] being the head or the [next_] of an event *)
Definition set_link (link : option positive) (v : option positive) (st : events) (q : listq)
    : result (events * listq) :=
  match link with
  | None => Ok (st, ListQ v)
  | Some _ => let! st' := store st link (set_next v) in Ok (st', q)
  end.

(** The loop of [insert]: the link to change and its value. *)
Fixpoint insert_link (fuel : nat) (t : f64) (st : events) (link cur : option positive)
    : result (option positive * option positive) :=
  match fuel with
  | O => NoFuel
  | S fuel' =>
      match cur with
      | None => Ok (link, cur)
      | Some _ =>
          let! v := load st cur in
          if flt t (time_ v) then Ok (link, cur) else insert_link fuel' t st cur (ev_next v)
      end
  end.

Definition list_insert (fuel : nat) (e : positive) (st : events) (q : listq)
    : result (events * listq) :=
  let! ev := load st (Some e) in
  let! '(link, cur) := insert_link fuel (time_ ev) st None (queue_ q) in
  let! st' := store st (Some e) (set_next cur) in
  set_link link (Some e) st' q.

(** The loop of [cancel]: the link that points at [e]. *)
Fixpoint cancel_link (fuel : nat) (e : positive) (st : events) (link cur : option positive)
    : result (option positive) :=
  match fuel with
  | O => NoFuel
  | S fuel' =>
      if decide (cur = Some e) then Ok link
      else match cur with
           | None => Fault Aborted
           | Some _ => let! v := load st cur in cancel_link fuel' e st cur (ev_next v)
           end
  end.

Definition list_cancel (fuel : nat) (e : positive) (st : events) (q : listq)
    : result (events * listq) :=
  let! ev := load st (Some e) in
  if uid_ ev <=? 0 then Ok (st, q)
  else
    let! link := cancel_link fuel e st None (queue_ q) in
    let! '(st', q') := set_link link (ev_next ev) st q in
    let! st'' := store st' (Some e) (fun v => set_uid (- uid_ v) v) in
    Ok (st'', q').

Definition list_lookup (fuel : nat) (u : Z) (st : events) (q : listq)
    : result (option positive * listq) :=
  let! r := walk ev_next fuel st (fun _ v => uid_ v =? u) (queue_ q) in Ok (r, q).

Definition list_deque (st : events) (q : listq) : result (option positive * events * listq) :=
  match queue_ q with
  | None => Ok (None, st, q)
  | Some _ => let! v := load st (queue_ q) in Ok (queue_ q, st, ListQ (ev_next v))
  end.

#[export] Instance list_queue : EventQueue listq := {
  empty_queue := ListQ None;
  eq_insert := list_insert;
  eq_cancel := list_cancel;
  eq_deque _ := list_deque;
  eq_lookup := list_lookup;
  eq_head _ q := Ok (queue_ q, q);
}.

(** ** The contract *)

Definition list_rep (st : events) (q : listq) (es : list positive) : Prop :=
  seg ev_next st (queue_ q) es None.

(** The link of a position: the head or the event before it. *)
Definition link_of (pre : list positive) (link : option positive) : option positive :=
  match last pre with Some k => Some k | None => link end.

Lemma link_of_cons k pre link : link_of (k :: pre) link = link_of pre (Some k).
Proof. unfold link_of. rewrite last_cons. by destruct (last pre). Qed.

Lemma insert_link_spec fuel st e pre post link cur :
  seg ev_next st cur (pre ++ post) None -> (length pre < fuel)%nat ->
  Forall (fun x => flt (tm st e) (tm st x) = false) pre ->
  (match post with [] => True | x :: _ => flt (tm st e) (tm st x) = true end) ->
  insert_link fuel (tm st e) st link cur = Ok (link_of pre link, head post).
Proof.
  revert fuel link cur. induction pre as [|k pre IH]; intros [|fuel] link cur Hs Hf HF Hp;
    simpl in Hf; try lia; cbn [insert_link].
  - simpl in Hs. pose proof (seg_head _ _ _ _ Hs) as ->. destruct post as [|x post]; [done|].
    destruct Hs as (_ & v & Hv & _). simpl. rewrite Hv. simpl. unfold tm in Hp. rewrite Hv in Hp.
    unfold tm at 1. by rewrite Hp.
  - destruct Hs as (-> & v & Hv & Hs). mem_step. apply Forall_cons in HF as [Hk HF].
    unfold tm in Hk at 2. rewrite Hv in Hk. rewrite Hk, link_of_cons. apply IH; try done. lia.
Qed.

(** Writing the link that precedes [post]. *)
Lemma set_link_spec st q pre post r v st' :
  seg ev_next st (queue_ q) pre r -> NoDup pre ->
  (forall k, k ∈ pre -> st' !! k = st !! k) -> r = head post ->
  exists st'' q', set_link (link_of pre None) v st' q = Ok (st'', q') /\
    seg ev_next st'' (queue_ q') pre v /\
    (forall k, k ∉ pre -> st'' !! k = st' !! k) /\
    (forall k, ev_data <$> st'' !! k = ev_data <$> st' !! k).
Proof.
  intros Hs Hnd Hag Hr. destruct pre as [|k0 pre0 _] using rev_ind.
  - exists st', (ListQ v). by split_and!.
  - unfold link_of. rewrite last_snoc. cbn [set_link].
    apply seg_snoc in Hs as (w & Hs & Hw & _).
    assert (Hw' : st' !! k0 = Some w) by (rewrite Hag by set_solver; done).
    rewrite (store_Some _ _ _ _ Hw'). cbn [rbind]. eexists _, q. split; [done|].
    apply NoDup_app in Hnd as (_ & Hdis & _).
    assert (Hk0 : k0 ∉ pre0) by (intros Hin; eapply (Hdis k0); [done|set_solver]).
    split_and!.
    + apply seg_snoc. exists (set_next v w). rewrite lookup_insert_eq. split_and!; try done.
      apply seg_insert_notin; [done|]. eapply seg_agree; [|exact Hs].
      intros k Hk. rewrite Hag by set_solver. done.
    + intros k Hk. apply lookup_insert_ne. set_solver.
    + intros k. destruct (decide (k0 = k)) as [<-|].
      * rewrite lookup_insert_eq, Hw'. done.
      * by rewrite lookup_insert_ne.
Qed.

Lemma list_insert_law fuel st q es e ev :
  list_rep st q es -> st !! e = Some ev -> e ∉ es -> (length es < fuel)%nat ->
  exists st' q', list_insert fuel e st q = Ok (st', q') /\
    list_rep st' q' (ord_insert (tm st) e es) /\
    (forall k, ev_data <$> st' !! k = ev_data <$> st !! k).
Proof.
  intros Hs He Hne Hf. unfold list_rep in *. pose proof (seg_NoDup _ _ _ _ Hs) as Hnd.
  destruct (ord_insert_split (tm st) e es) as (pre & post & -> & -> & HF & Hp).
  unfold list_insert. mem_step.
  replace (time_ ev) with (tm st e) by (unfold tm; by rewrite He).
  rewrite (insert_link_spec _ _ _ pre post) by (done || rewrite length_app in Hf; lia). mem_step.
  apply seg_app in Hs as (r & Hs1 & Hs2). apply NoDup_app in Hnd as (Hnd1 & Hdis & Hnd2).
  destruct (set_link_spec st q pre post r (Some e) (<[e := set_next (head post) ev]> st))
    as (st'' & q' & -> & Hs1' & Hag & Hdata); try done.
  - intros k Hk. apply lookup_insert_ne. set_solver.
  - by apply seg_head in Hs2.
  - exists st'', q'. split_and!; [done| |].
    + apply seg_app. exists (Some e). split; [done|]. split; [done|].
      exists (set_next (head post) ev). split; [rewrite Hag by set_solver; apply lookup_insert_eq|].
      cbn [ev_next set_next]. rewrite <- (seg_head _ _ _ _ Hs2).
      eapply seg_agree; [|exact Hs2]. intros k Hk.
      rewrite Hag, lookup_insert_ne by set_solver. done.
    + intros k. rewrite Hdata. destruct (decide (e = k)) as [<-|].
      * rewrite lookup_insert_eq, He. done.
      * by rewrite lookup_insert_ne.
Qed.

Lemma cancel_link_spec fuel st e pre post link cur :
  seg ev_next st cur (pre ++ e :: post) None -> (length pre < fuel)%nat -> e ∉ pre ->
  cancel_link fuel e st link cur = Ok (link_of pre link).
Proof.
  revert fuel link cur. induction pre as [|k pre IH]; intros [|fuel] link cur Hs Hf Hn;
    simpl in Hf; try lia; cbn [cancel_link].
  - destruct Hs as (-> & _). by rewrite decide_True.
  - destruct Hs as (-> & v & Hv & Hs). rewrite decide_False by set_solver. mem_step.
    rewrite link_of_cons. apply IH; [done|lia|set_solver].
Qed.

Lemma list_cancel_law fuel st q es e ev :
  list_rep st q es -> st !! e = Some ev -> e ∈ es -> 0 < uid_ ev -> (length es < fuel)%nat ->
  exists st' q', list_cancel fuel e st q = Ok (st', q') /\ list_rep st' q' (remove_ev e es) /\
    (forall k, k <> e -> ev_data <$> st' !! k = ev_data <$> st !! k) /\
    ev_data <$> st' !! e = Some (handler_ ev, time_ ev, - uid_ ev).
Proof.
  intros Hs He Hin Hu Hf. unfold list_rep in *. pose proof (seg_NoDup _ _ _ _ Hs) as Hnd.
  apply list_elem_of_split in Hin as (pre & post & ->). rewrite remove_ev_middle by done.
  destruct (elem_of_split_NoDup _ _ _ _ Hnd eq_refl) as [Hn1 Hn2].
  unfold list_cancel. mem_step. rewrite (proj2 (Z.leb_gt _ _) Hu).
  rewrite (cancel_link_spec _ _ _ pre post) by (done || rewrite length_app in Hf; simpl in *; lia).
  mem_step. apply NoDup_app in Hnd as (Hnd1 & Hdis & Hnd2).
  apply seg_app in Hs as (r & Hs1 & (-> & v & Hv & Hs2)). assert (v = ev) as -> by congruence.
  destruct (set_link_spec st q pre (e :: post) (Some e) (ev_next ev) st)
    as (st'' & q' & -> & Hs1' & Hag & Hdata); try done.
  cbn [rbind]. assert (He' : st'' !! e = Some ev) by (by rewrite Hag).
  rewrite (store_Some _ _ _ _ He'). cbn [rbind]. eexists _, q'. split; [done|]. split_and!.
  - apply seg_insert_notin; [set_solver|]. apply seg_app. exists (ev_next ev). split; [done|].
    eapply seg_agree; [|exact Hs2]. intros k Hk. rewrite Hag by set_solver. done.
  - intros k Hk. by rewrite lookup_insert_ne.
  - by rewrite lookup_insert_eq.
Qed.

Lemma list_lookup_law fuel st q es u :
  list_rep st q es -> (length es < fuel)%nat ->
  exists r, list_lookup fuel u st q = Ok (r, q) /\
    match r with
    | Some e => e ∈ es /\ uid_ <$> st !! e = Some u
    | None => Forall (fun x => uid_ <$> st !! x <> Some u) es
    end.
Proof.
  intros Hs Hf. unfold list_lookup. rewrite (walk_spec _ _ _ _ _ es) by done. cbn [rbind].
  eexists. split; [done|].
  destruct (first_match st _ es) as [e|] eqn:E.
  - apply (first_match_Some ev_next) in E as (pre & post & v & -> & Hv & Ht & _). breflect.
    split; [set_solver|]. rewrite Hv. simpl. congruence.
  - apply Forall_forall. intros x Hx Hu. destruct (st !! x) as [v|] eqn:Hv; [|done].
    pose proof (first_match_None _ _ _ _ _ Hs E x v Hx Hv) as Hf'. apply Z.eqb_neq in Hf'.
    by injection Hu.
Qed.

#[export] Instance list_queue_laws : EventQueueLaws listq.
Proof.
  refine {| qrep := list_rep; room _ _ := True; by_number := False |}.
  - intros st q es. apply seg_NoDup.
  - intros st st' q es Hs Hag. eapply seg_agree; [|exact Hs]. intros k Hk. by rewrite Hag.
  - done.
  - done.
  - intros fuel st q es e ev n Hs _ He Hne _ _ _ Hf.
    destruct (list_insert_law fuel st q es e ev Hs He Hne Hf) as (st' & q' & ? & ? & ?). eauto 10.
  - intros fuel st q es n Hs _ Hf _. exists st. unfold list_rep in Hs. cbn.
    unfold list_deque. destruct es as [|e es].
    + simpl in Hs. rewrite Hs. by exists q.
    + destruct Hs as (-> & v & Hv & Hs). mem_step. by exists (ListQ (ev_next v)).
  - intros fuel st q es e ev n Hs _ He Hin Hu _ _ _ Hf.
    destruct (list_cancel_law fuel st q es e ev Hs He Hin Hu Hf) as (st' & q' & ? & ? & ? & ?).
    eauto 10.
  - intros fuel st q es e ev Hs He Hu. cbn. unfold list_cancel. mem_step.
    by rewrite (proj2 (Z.leb_le _ _) Hu).
  - intros fuel st q es u n Hs _ Hf _.
    destruct (list_lookup_law fuel st q es u Hs Hf) as (r & ? & ?). eauto 10.
  - intros st q es n Hs Hr. cbn. exists q. split; [|done]. by apply seg_head in Hs as ->.
Defined.
