(* ===== verification/Heap.v ===== *)
(** * The binary heap (class Heap, common/heap.h and common/scheduler.cc)

    A heap of (time, number, event) in an array.  Equal times are ordered by
    the secondary key, the running number of the insertion.  Sizes and
    indices are [unsigned int]s: numbers of which every sum, product and
    difference is taken modulo 2^32 ([u32]), as is the secondary key;
    [heap_member] returns an [int].  Reading or writing outside the array is
    a fault. *)

From stdpp Require Import base numbers list sorting.
From Stdlib Require Import ZArith Lia ZifyNat.
From S2P Require Import Prelude Float64.

Local Open Scope Z_scope.

(** [struct Heap_elem] *)
Record heap_elem := HeapElem { he_key : f64; he_s_key : Z; he_elem : option positive }.

Record heap := Heap {
  h_elems : list heap_elem;
  h_s_key : Z;
  h_size : nat;
  h_maxsize : nat;
  h_iter : nat;
}.

Definition HEAP_DEFAULT_SIZE : nat := 32.

(** An element of cleared memory. *)
Definition zero_elem : heap_elem := HeapElem f0 0 None.

Definition new_heap : heap :=
  Heap (replicate HEAP_DEFAULT_SIZE zero_elem) 0 0 HEAP_DEFAULT_SIZE 0.

(** An [unsigned int]: the result of an operation, at its 32 bits. *)
Definition u32 (z : Z) : nat := Z.to_nat (wrap_u32 z).

Definition parent (i : nat) : nat := u32 (Z.of_nat (u32 (Z.of_nat i - 1)) / 2).
Definition left (i : nat) : nat := u32 (Z.of_nat (u32 (Z.of_nat i * 2)) + 1).
Definition right (i : nat) : nat := u32 (Z.of_nat (u32 (Z.of_nat i + 1)) * 2).

Definition KEY_LESS_THAN (k1 : f64) (ks1 : Z) (k2 : f64) (ks2 : Z) : bool :=
  flt k1 k2 || (feq k1 k2 && (ks1 <? ks2)).

Definition less (x y : heap_elem) : bool :=
  KEY_LESS_THAN (he_key x) (he_s_key x) (he_key y) (he_s_key y).

(** [h_elems[i]] as a value and as an assignment. *)
Definition get (a : list heap_elem) (i : nat) : result heap_elem :=
  match a !! i with Some x => Ok x | None => Fault OutOfBounds end.

Definition put (a : list heap_elem) (i : nat) (x : heap_elem) : result (list heap_elem) :=
  match a !! i with Some _ => Ok (<[i := x]> a) | None => Fault OutOfBounds end.

Definition swap (a : list heap_elem) (i j : nat) : result (list heap_elem) :=
  let! x := get a i in
  let! y := get a j in
  let! a1 := put a i y in
  put a1 j x.

(** ** Insertion *)

(** The [while] loop of [heap_insert]: elements move down until the place of
    the key is found. *)
Fixpoint up_loop (fuel : nat) (key : f64) (skey : Z) (i : nat) (a : list heap_elem)
    : result (list heap_elem * nat) :=
  match fuel with
  | O => NoFuel
  | S fuel' =>
      if decide (i = 0%nat) then Ok (a, i)
      else
        let! p := get a (parent i) in
        if KEY_LESS_THAN key skey (he_key p) (he_s_key p) then
          let! a' := put a i p in
          up_loop fuel' key skey (parent i) a'
        else Ok (a, i)
  end.

(** The array, grown to twice its size when it is full; the new half is not
    initialised by the source.  [h_maxsize *= 2] wraps around at 2^31: the
    [memcpy] of the old array then writes past the end of the new one. *)
Definition grow (h : heap) : result (list heap_elem * nat) :=
  if decide (h_maxsize h = h_size h) then
    let maxsize := u32 (Z.of_nat (h_maxsize h) * 2) in
    if decide (maxsize < h_maxsize h)%nat then Fault OutOfBounds
    else Ok (h_elems h ++ replicate (maxsize - h_maxsize h) zero_elem, maxsize)
  else Ok (h_elems h, h_maxsize h).

Definition heap_insert (fuel : nat) (key : f64) (elem : positive) (h : heap) : result heap :=
  let! '(a, maxsize) := grow h in
  let! '(a', i) := up_loop fuel key (h_s_key h) (h_size h) a in
  let! a'' := put a' i (HeapElem key (h_s_key h) (Some elem)) in
  Ok (Heap a'' (wrap_u32 (h_s_key h + 1)) (u32 (Z.of_nat (h_size h) + 1)) maxsize (h_iter h)).

(** ** Removal *)

Definition heap_min (h : heap) : result (option positive) :=
  if decide (h_size h = 0%nat) then Ok None
  else let! x := get (h_elems h) 0 in Ok (he_elem x).

(** The child [x] the loop of [heap_extract_min] compares with. *)
Definition try_child (size i : nat) (a : list heap_elem) : result nat :=
  if decide (right i < size)%nat then
    let! l := get a (left i) in
    let! r := get a (right i) in
    Ok (if less l r then left i else right i)
  else Ok (if decide (left i < size)%nat then left i else i).

Fixpoint down_loop (fuel size i : nat) (a : list heap_elem) : result (list heap_elem) :=
  match fuel with
  | O => NoFuel
  | S fuel' =>
      if decide (i < size)%nat then
        let! x := try_child size i a in
        if decide (x = i) then Ok a
        else
          let! ex := get a x in
          let! ei := get a i in
          if less ex ei then
            let! a' := swap a i x in
            down_loop fuel' size x a'
          else Ok a
      else Ok a
  end.

Definition heap_extract_min (fuel : nat) (h : heap) : result (option positive * heap) :=
  if decide (h_size h = 0%nat) then Ok (None, h)
  else
    let! x := get (h_elems h) 0 in
    let size := u32 (Z.of_nat (h_size h) - 1) in
    let! y := get (h_elems h) size in
    let! a := put (h_elems h) 0 y in
    let! a' := down_loop fuel size 0 a in
    Ok (he_elem x, Heap a' (h_s_key h) size (h_maxsize h) (h_iter h)).

(** The loop of [heap_member], from index [i]; [return ++i] is an [unsigned
    int] made an [int]. *)
Fixpoint member_loop (fuel : nat) (elem : positive) (size i : nat) (a : list heap_elem)
    : result Z :=
  match fuel with
  | O => NoFuel
  | S fuel' =>
      if decide (i < size)%nat then
        let! x := get a i in
        let i' := u32 (Z.of_nat i + 1) in
        if decide (he_elem x = Some elem) then Ok (wrap_i32 (Z.of_nat i'))
        else member_loop fuel' elem size i' a
      else Ok 0
  end.

Definition heap_member (fuel : nat) (elem : positive) (h : heap) : result Z :=
  member_loop fuel elem (h_size h) 0 (h_elems h).

(** [for (; i; i = parent(i)) swap(i, parent(i));], over the bits of the
    [int]: the calls make it an [unsigned int]. *)
Fixpoint lift_loop (fuel i : nat) (a : list heap_elem) : result (list heap_elem) :=
  match fuel with
  | O => NoFuel
  | S fuel' =>
      if decide (i = 0%nat) then Ok a
      else let! a' := swap a i (parent i) in lift_loop fuel' (parent i) a'
  end.

Definition heap_delete (fuel : nat) (elem : positive) (h : heap) : result (bool * heap) :=
  let! i := heap_member fuel elem h in
  if i =? 0 then Ok (false, h)
  else if i =? - 2 ^ 31 then Fault Overflow   (* [--i] *)
  else
    let! a := lift_loop fuel (u32 (i - 1)) (h_elems h) in
    let! '(_, h') := heap_extract_min fuel
      (Heap a (h_s_key h) (h_size h) (h_maxsize h) (h_iter h)) in
    Ok (true, h').

(** ** Iteration *)

Definition heap_iter_init (h : heap) : result (option positive * heap) :=
  let! r := heap_min h in
  Ok (r, Heap (h_elems h) (h_s_key h) (h_size h) (h_maxsize h) 1).

Definition heap_iter (h : heap) : result (option positive * heap) :=
  if decide (h_size h <= h_iter h)%nat
  then Ok (None, Heap (h_elems h) (h_s_key h) (h_size h) (h_maxsize h) 0)
  else
    let! x := get (h_elems h) (h_iter h) in
    Ok (he_elem x, Heap (h_elems h) (h_s_key h) (h_size h) (h_maxsize h)
      (u32 (Z.of_nat (h_iter h) + 1))).

(** ** The indices below the widths *)

(** The tree the array stands for. *)
Definition hparent (i : nat) : nat := ((i - 1) / 2)%nat.
Definition hleft (i : nat) : nat := (i * 2 + 1)%nat.
Definition hright (i : nat) : nat := ((i + 1) * 2)%nat.

Lemma u32_id z : 0 <= z < 2 ^ 32 -> u32 z = Z.to_nat z.
Proof. intros Hz. unfold u32. by rewrite wrap_u32_id. Qed.

Lemma u32_succ i : Z.of_nat i < 2 ^ 31 -> u32 (Z.of_nat i + 1) = S i.
Proof. intros Hi. rewrite u32_id; lia. Qed.

Lemma u32_pred i : (0 < i)%nat -> Z.of_nat i < 2 ^ 31 -> u32 (Z.of_nat i - 1) = (i - 1)%nat.
Proof. intros H0 Hi. rewrite u32_id; lia. Qed.

Lemma parent_eq i : (0 < i)%nat -> Z.of_nat i < 2 ^ 31 -> parent i = hparent i.
Proof.
  intros H0 Hi. unfold parent, hparent. rewrite u32_pred by done.
  pose proof (Nat2Z.inj_div (i - 1) 2) as E. change (Z.of_nat 2) with 2 in E. rewrite <- E.
  rewrite u32_id; [apply Nat2Z.id|]. pose proof (Nat.Div0.div_le_upper_bound (i - 1) 2 i). lia.
Qed.

Lemma left_eq i : Z.of_nat i < 2 ^ 31 - 1 -> left i = hleft i.
Proof. intros Hi. unfold left, hleft. rewrite (u32_id (_ * 2)), u32_id; lia. Qed.

Lemma right_eq i : Z.of_nat i < 2 ^ 31 - 1 -> right i = hright i.
Proof. intros Hi. unfold right, hright. rewrite u32_succ, u32_id; lia. Qed.

(** ** The order of the keys *)

Definition num (x : heap_elem) : Prop := is_nan (he_key x) = false.
Definition hle (x y : heap_elem) : Prop := less y x = false.

Lemma less_spec x y :
  num x -> num y ->
  less x y = true <->
  flt (he_key x) (he_key y) = true \/
  (fle (he_key x) (he_key y) = true /\ he_s_key x < he_s_key y).
Proof.
  unfold num, less, KEY_LESS_THAN. intros Hx Hy.
  rewrite orb_true_iff, andb_true_iff, Z.ltb_lt. split.
  - intros [?|[? ?]]; [by left|]. right. split; [by apply feq_le|done].
  - intros [?|[? ?]]; [by left|].
    destruct (flt (he_key x) (he_key y)) eqn:E; [by left|]. right. split; [|done].
    apply fle_antisym; [done|]. by apply flt_false_le.
Qed.

Lemma hle_spec x y :
  num x -> num y ->
  hle x y <->
  flt (he_key x) (he_key y) = true \/
  (fle (he_key x) (he_key y) = true /\ he_s_key x <= he_s_key y).
Proof.
  intros Hx Hy. unfold hle. rewrite <- not_true_iff_false, (less_spec y x Hy Hx).
  unfold num in *. split.
  - intros Hn. destruct (flt (he_key x) (he_key y)) eqn:E; [by left|]. right.
    assert (Hle : fle (he_key y) (he_key x) = true) by (by apply flt_false_le). split.
    + destruct (flt (he_key y) (he_key x)) eqn:E2; [exfalso; apply Hn; by left|].
      by apply flt_false_le.
    + destruct (Z.le_gt_cases (he_s_key x) (he_s_key y)); [done|]. exfalso. apply Hn. by right.
  - intros [H|[H Hs]] [H'|[H' Hs']]; [| | |lia].
    + by rewrite (fle_not_lt _ _ (flt_le _ _ H)) in H'.
    + by rewrite (fle_not_lt _ _ H') in H.
    + by rewrite (fle_not_lt _ _ H) in H'.
Qed.

Lemma hle_refl x : num x -> hle x x.
Proof. intros Hx. apply hle_spec; try done. right. split; [by apply fle_refl|lia]. Qed.

Lemma less_hle x y : num x -> num y -> less x y = true -> hle x y.
Proof.
  intros Hx Hy. rewrite less_spec, hle_spec by done. intros [?|[? ?]]; [by left|right].
  split; [done|lia].
Qed.

Lemma hle_trans x y z : num x -> num y -> num z -> hle x y -> hle y z -> hle x z.
Proof.
  intros Hx Hy Hz. rewrite !hle_spec by done. intros [H1|[H1 S1]] [H2|[H2 S2]].
  - left. by eapply flt_trans.
  - left. by eapply flt_le_trans.
  - left. by eapply fle_lt_trans.
  - right. split; [by eapply fle_trans|lia].
Qed.
