(* ===== verification/HeapProps.v ===== *)
(** * The heap keeps its order

    The loops of Heap preserve the heap order of the array and the multiset
    of its elements; the root is a least element. *)

From stdpp Require Import base numbers list sorting.
From Stdlib Require Import ZArith Lia ZifyNat.
From S2P Require Import Prelude Float64 Heap.

Local Open Scope nat_scope.

(** ** Arrays *)

Lemma split_at {A} (l : list A) i x : l !! i = Some x -> l = take i l ++ x :: drop (S i) l.
Proof. intros H. by rewrite take_drop_middle. Qed.

Lemma insert_perm {A} (l : list A) i x y : l !! i = Some x -> x :: <[i := y]> l ≡ₚ y :: l.
Proof.
  intros Hi. destruct (list_elem_of_split_length _ _ _ Hi) as (l1 & l2 & -> & ->).
  rewrite insert_app_r_alt, Nat.sub_diag by lia. simpl.
  rewrite <- !Permutation_middle. apply Permutation_swap.
Qed.

Lemma swap_perm {A} (l : list A) i j x y :
  l !! i = Some x -> l !! j = Some y -> <[j := x]> (<[i := y]> l) ≡ₚ l.
Proof.
  intros Hi Hj. destruct (decide (i = j)) as [->|Hne].
  { assert (x = y) as -> by congruence. rewrite list_insert_insert_eq, list_insert_id; done. }
  apply (inj (cons y)). rewrite (insert_perm (<[i := y]> l) j y x).
  - by apply insert_perm.
  - by rewrite list_lookup_insert_ne.
Qed.

Lemma Forall_lookup_num a i x : Forall num a -> a !! i = Some x -> num x.
Proof. apply Forall_lookup_1. Qed.

Lemma Forall_swap (P : heap_elem -> Prop) a i j x y :
  Forall P a -> a !! i = Some x -> a !! j = Some y -> Forall P (<[j := x]> (<[i := y]> a)).
Proof. intros HF Hi Hj. by rewrite swap_perm. Qed.

(** ** Heap order *)

(** The element at [j] is not below its hparent. *)
Definition okp (a : list heap_elem) (p j : nat) : Prop :=
  forall x y, a !! p = Some x -> a !! j = Some y -> hle x y.

Definition heap_ord (n : nat) (a : list heap_elem) : Prop :=
  forall j, 0 < j < n -> okp a (hparent j) j.

(** The order holds but at [i], which may be above its hparent's place or
    below its children's; its children are not below its hparent. *)
Definition almost (n i : nat) (a : list heap_elem) : Prop :=
  (forall j, 0 < j < n -> j <> i -> hparent j <> i -> okp a (hparent j) j) /\
  (forall j, 0 < i -> j < n -> 0 < j -> hparent j = i -> okp a (hparent i) j).

Lemma hparent_lt j : 0 < j -> hparent j < j.
Proof. unfold hparent. intros. lia. Qed.

Lemma hparent_child i j : 0 < j -> hparent j = i <-> j = hleft i \/ j = hright i.
Proof. unfold hparent, hleft, hright. lia. Qed.

Lemma heap_ord_almost n i a : Forall num a -> heap_ord n a -> i < n -> almost n i a.
Proof.
  intros HF Ho Hi. split; [intros j ? _ _; by apply Ho|].
  intros j Hi0 Hj Hj0 Hp x y Hx Hy. subst i.
  pose proof (hparent_lt j Hj0).
  destruct (a !! hparent j) as [z|] eqn:Hz.
  - eapply (hle_trans x z y); try by eapply Forall_lookup_num.
    + by apply (Ho (hparent j)).
    + by apply (Ho j).
  - apply lookup_ge_None in Hz. apply lookup_lt_Some in Hy. lia.
Qed.

(** The root is a least element. *)
Lemma heap_ord_root n a r i x :
  Forall num a -> heap_ord n a -> a !! 0 = Some r -> i < n -> a !! i = Some x -> hle r x.
Proof.
  intros HF Ho Hr. revert x. induction i as [i IH] using lt_wf_ind. intros x Hi Hx.
  destruct (decide (i = 0)) as [->|Hi0].
  - assert (x = r) as -> by congruence. apply hle_refl. by eapply Forall_lookup_num.
  - pose proof (hparent_lt i ltac:(lia)). destruct (a !! hparent i) as [z|] eqn:Hz.
    + eapply (hle_trans r z x); try by eapply Forall_lookup_num.
      * apply (IH (hparent i)); [lia|lia|done].
      * by apply (Ho i); [lia|..].
    + apply lookup_ge_None in Hz. apply lookup_lt_Some in Hx. lia.
Qed.

(** A swap of [i] and its hparent moves the exception up. *)
Lemma almost_swap n i a x p :
  Forall num a -> almost n i a -> 0 < i < n -> a !! i = Some x -> a !! hparent i = Some p ->
  almost n (hparent i) (<[hparent i := x]> (<[i := p]> a)).
Proof.
  intros HF [H1 H2] Hi Hx Hp. pose proof (hparent_lt i ltac:(lia)) as Hlt.
  assert (Li : <[hparent i := x]> (<[i := p]> a) !! i = Some p).
  { rewrite list_lookup_insert_ne by lia. apply list_lookup_insert_eq. by eapply lookup_lt_Some. }
  assert (Lo : forall k, k <> i -> k <> hparent i -> <[hparent i := x]> (<[i := p]> a) !! k = a !! k)
    by (intros k ? ?; by rewrite !list_lookup_insert_ne by done).
  split.
  - intros j Hj Hjp Hpj u v Hu Hv.
    assert (Hji : j <> i) by (intros ->; done). rewrite Lo in Hv by done.
    destruct (decide (hparent j = i)) as [E|E].
    + rewrite E, Li in Hu. injection Hu as <-.
      by eapply (H2 j); [lia|lia|lia|..].
    + rewrite Lo in Hu by done. by eapply H1.
  - intros j Hpi Hj Hj0 Hjp u v Hu Hv. pose proof (hparent_lt (hparent i) Hpi).
    rewrite Lo in Hu by lia.
    assert (Hup : hle u p) by (by eapply (H1 (hparent i)); [lia|lia|lia|..]).
    destruct (decide (j = i)) as [->|Hji].
    + rewrite Li in Hv. by injection Hv as <-.
    + rewrite Lo in Hv by (pose proof (hparent_lt j Hj0); lia).
      apply (hle_trans u p v); [by eapply Forall_lookup_num..|exact Hup|].
      eapply (H1 j); [lia|done|lia| |done]. by rewrite Hjp.
Qed.

(** ** The loops *)

Lemma get_lt a i : i < length a -> exists x, a !! i = Some x /\ get a i = Ok x.
Proof.
  intros Hi. destruct (lookup_lt_is_Some_2 a i Hi) as [x Hx]. exists x. unfold get.
  by rewrite Hx.
Qed.

Lemma put_lt a i x : i < length a -> put a i x = Ok (<[i := x]> a).
Proof. intros Hi. unfold put. by destruct (lookup_lt_is_Some_2 a i Hi) as [y ->]. Qed.

Lemma swap_lt a i j x y :
  a !! i = Some x -> a !! j = Some y -> swap a i j = Ok (<[j := x]> (<[i := y]> a)).
Proof.
  intros Hi Hj. unfold swap, get. rewrite Hi, Hj. cbn [rbind]. unfold put at 1. rewrite Hi.
  cbn [rbind]. apply put_lt. rewrite length_insert. by eapply lookup_lt_Some.
Qed.

Lemma take_swap {A} (a : list A) n i j x y :
  i < n -> j < n -> a !! i = Some x -> a !! j = Some y ->
  take n (<[j := x]> (<[i := y]> a)) ≡ₚ take n a.
Proof.
  intros Hi Hj Hx Hy. rewrite !take_insert_lt by done. apply swap_perm; by rewrite lookup_take_lt.
Qed.

(** Writing the new element where [up_loop] stops. *)
Lemma up_loop_spec fuel n x i a :
  Forall num a -> num x -> n <= length a -> (Z.of_nat n <= 2 ^ 31)%Z -> i < n -> i < fuel ->
  almost n i (<[i := x]> a) ->
  (forall j, 0 < j < n -> hparent j = i -> okp (<[i := x]> a) i j) ->
  exists a' i', up_loop fuel (he_key x) (he_s_key x) i a = Ok (a', i') /\
    i' < n /\ length a' = length a /\ heap_ord n (<[i' := x]> a') /\
    Forall num a' /\ take n (<[i' := x]> a') ≡ₚ take n (<[i := x]> a).
Proof.
  intros HF Hx Hn Hb. revert i a HF Hn.
  induction fuel as [|fuel IH]; intros i a HF Hn Hi Hf Hal Hch; [lia|]. cbn [up_loop].
  assert (Lx : <[i := x]> a !! i = Some x) by (apply list_lookup_insert_eq; lia).
  assert (HFx : Forall num (<[i := x]> a)) by (by apply Forall_insert).
  destruct (decide (i = 0)) as [->|Hi0].
  { exists a, 0. split_and!; try done. intros j Hj. destruct (decide (hparent j = 0)) as [E|E].
    - rewrite E. by apply Hch.
    - by apply (proj1 Hal j); [lia|lia|]. }
  rewrite parent_eq by lia. pose proof (hparent_lt i ltac:(lia)) as Hlt.
  destruct (get_lt a (hparent i) ltac:(lia)) as (p & Hp & ->). cbn [rbind].
  assert (Lp : <[i := x]> a !! hparent i = Some p) by (by rewrite list_lookup_insert_ne by lia).
  change (KEY_LESS_THAN _ _ _ _) with (less x p). destruct (less x p) eqn:Hless.
  - rewrite put_lt by lia. cbn [rbind].
    assert (Esw : <[hparent i := x]> (<[i := p]> a)
              = <[hparent i := x]> (<[i := p]> (<[i := x]> a)))
      by (by rewrite list_insert_insert_eq).
    destruct (IH (hparent i) (<[i := p]> a)) as (a' & i' & E & Hi' & Hlen & Ho & HF' & Hperm).
    + apply Forall_insert; [done|by eapply Forall_lookup_num].
    + by rewrite length_insert.
    + lia.
    + lia.
    + rewrite Esw. apply almost_swap; try done. lia.
    + rewrite Esw. intros j Hj Hjp u v Hu Hv.
      rewrite list_lookup_insert_eq in Hu by (rewrite !length_insert; lia). injection Hu as <-.
      pose proof (hparent_lt j ltac:(lia)). rewrite list_lookup_insert_ne in Hv by lia.
      assert (Hxp : hle x p) by (apply less_hle; [done|by eapply Forall_lookup_num|done]).
      destruct (decide (j = i)) as [->|Hji].
      * rewrite list_lookup_insert_eq in Hv by (rewrite length_insert; lia). by injection Hv as <-.
      * rewrite list_lookup_insert_ne in Hv by done.
        apply (hle_trans x p v); [done|by eapply Forall_lookup_num|by eapply Forall_lookup_num|done|].
        eapply (proj1 Hal j); [lia|done|lia| |done]. by rewrite Hjp.
    + exists a', i'. rewrite length_insert in Hlen. split_and!; try done.
      rewrite Hperm, Esw. apply take_swap; try done. lia.
  - exists a, i. split_and!; try done. intros j Hj. destruct (decide (j = i)) as [->|Hji].
    + intros u v Hu Hv. assert (v = x) as -> by congruence. assert (u = p) as -> by congruence.
      done.
    + destruct (decide (hparent j = i)) as [E|E].
      * rewrite E. by apply Hch.
      * by apply (proj1 Hal j).
Qed.

Lemma lift_loop_spec fuel n i a :
  Forall num a -> n <= length a -> (Z.of_nat n <= 2 ^ 31)%Z -> i < n -> i < fuel -> almost n i a ->
  exists a', lift_loop fuel i a = Ok a' /\ length a' = length a /\ almost n 0 a' /\
    Forall num a' /\ take n a' ≡ₚ take n a /\ a' !! 0 = a !! i.
Proof.
  intros HF Hn Hb. revert i a HF Hn.
  induction fuel as [|fuel IH]; intros i a HF Hn Hi Hf Hal; [lia|]. cbn [lift_loop].
  destruct (decide (i = 0)) as [->|Hi0]; [by exists a|]. rewrite parent_eq by lia.
  pose proof (hparent_lt i ltac:(lia)) as Hlt.
  destruct (get_lt a i ltac:(lia)) as (x & Hx & _).
  destruct (get_lt a (hparent i) ltac:(lia)) as (p & Hp & _).
  rewrite (swap_lt _ _ _ _ _ Hx Hp). cbn [rbind].
  destruct (IH (hparent i) (<[hparent i := x]> (<[i := p]> a)))
    as (a' & E & Hlen & Hal' & HF' & Hperm & H0).
  - by apply Forall_swap.
  - by rewrite !length_insert.
  - lia.
  - lia.
  - apply almost_swap; try done. lia.
  - exists a'. rewrite !length_insert in Hlen. split_and!; try done.
    + rewrite Hperm. apply take_swap; try done. lia.
    + rewrite H0, Hx. apply list_lookup_insert_eq. rewrite length_insert. lia.
Qed.

(** The order holds but below [i]. *)
Definition sink (n i : nat) (a : list heap_elem) : Prop :=
  (forall j, 0 < j < n -> hparent j <> i -> okp a (hparent j) j) /\
  (forall j, 0 < i -> 0 < j < n -> hparent j = i -> okp a (hparent i) j).

(** The chosen child is a least child. *)
Lemma try_child_spec n i a :
  Forall num a -> n <= length a -> (Z.of_nat n < 2 ^ 31)%Z -> i < n ->
  exists x, try_child n i a = Ok x /\
    ((x = i /\ forall j, 0 < j < n -> hparent j <> i) \/
     (0 < x < n /\ hparent x = i /\ forall j, 0 < j < n -> hparent j = i -> okp a x j)).
Proof.
  intros HF Hn Hb Hi. unfold try_child. rewrite left_eq, right_eq by lia.
  destruct (decide (hright i < n)) as [Hr|Hr].
  - destruct (get_lt a (hleft i)) as (l & Hl & ->); [unfold hleft, hright in *; lia|].
    destruct (get_lt a (hright i)) as (r & Hrr & ->); [lia|]. cbn [rbind].
    eexists. split; [done|]. right.
    assert (Hnum : num l /\ num r) by (split; by eapply Forall_lookup_num).
    assert (Hpar : forall j, 0 < j -> hparent j = i -> j = hleft i \/ j = hright i)
      by (intros; by apply hparent_child).
    destruct (less l r) eqn:Hless; (split; [unfold hleft, hright in *; lia|]);
      (split; [apply hparent_child; unfold hleft, hright; lia|]);
      intros j Hj Hp u v Hu Hv; destruct (Hpar j) as [-> | ->]; try (done || lia); simplify_eq.
    + apply hle_refl. tauto.
    + apply less_hle; tauto.
    + exact Hless.
    + apply hle_refl. tauto.
  - cbn [rbind]. eexists. split; [done|]. destruct (decide (hleft i < n)) as [Hl|Hl].
    + right. split; [unfold hleft in *; lia|].
      split; [apply hparent_child; unfold hleft; lia|].
      intros j Hj Hp u v Hu Hv. assert (j = hleft i) as ->.
      { apply hparent_child in Hp as [->| ->]; [done| |]; unfold hleft, hright in *; lia. }
      assert (v = u) as -> by congruence. apply hle_refl. by eapply Forall_lookup_num.
    + left. split; [done|]. intros j Hj Hp. apply hparent_child in Hp; [|lia].
      unfold hleft, hright in *. lia.
Qed.

(** A swap of [i] with a least child moves the exception down. *)
Lemma sink_swap n i x a ei ex :
  Forall num a -> sink n i a -> i < n -> 0 < x < n -> hparent x = i ->
  (forall j, 0 < j < n -> hparent j = i -> okp a x j) ->
  a !! i = Some ei -> a !! x = Some ex -> less ex ei = true ->
  sink n x (<[x := ei]> (<[i := ex]> a)).
Proof.
  intros HF [H1 H2] Hi Hx Hpx Hleast Hei Hex Hless.
  pose proof (hparent_lt x ltac:(lia)) as Hlt. rewrite Hpx in Hlt.
  set (b := <[x := ei]> (<[i := ex]> a)).
  assert (Lx : b !! x = Some ei).
  { apply list_lookup_insert_eq. rewrite length_insert. by eapply lookup_lt_Some. }
  assert (Li : b !! i = Some ex).
  { unfold b. rewrite list_lookup_insert_ne by lia. apply list_lookup_insert_eq.
    by eapply lookup_lt_Some. }
  assert (Lo : forall k, k <> i -> k <> x -> b !! k = a !! k)
    by (intros k ? ?; unfold b; by rewrite !list_lookup_insert_ne by done).
  split.
  - intros j Hj Hpj u v Hu Hv. pose proof (hparent_lt j ltac:(lia)).
    destruct (decide (j = x)) as [->|Hjx].
    { rewrite Hpx, Li in Hu. rewrite Lx in Hv. simplify_eq.
      apply less_hle; [by eapply Forall_lookup_num..|done]. }
    destruct (decide (j = i)) as [->|Hji].
    { rewrite Li in Hv. injection Hv as <-. rewrite Lo in Hu by lia.
      by eapply (H2 x); [lia|lia|done|..]. }
    rewrite Lo in Hv by done. destruct (decide (hparent j = i)) as [E|E].
    { rewrite E, Li in Hu. injection Hu as <-. by eapply (Hleast j). }
    rewrite Lo in Hu by done. by eapply (H1 j).
  - intros j _ Hj Hpj u v Hu Hv. pose proof (hparent_lt j ltac:(lia)).
    rewrite Hpx, Li in Hu. injection Hu as <-. rewrite Lo in Hv by lia.
    eapply (H1 j); [lia|lia| |done]. by rewrite Hpj.
Qed.

Lemma down_loop_spec fuel n i a :
  Forall num a -> n <= length a -> (Z.of_nat n < 2 ^ 31)%Z -> (i < n \/ n = 0) -> n - i < fuel -> sink n i a ->
  exists a', down_loop fuel n i a = Ok a' /\ length a' = length a /\ heap_ord n a' /\
    Forall num a' /\ take n a' ≡ₚ take n a.
Proof.
  intros HF Hn Hb. revert i a HF Hn.
  induction fuel as [|fuel IH]; intros i a HF Hn Hi Hf Hs; [lia|]. cbn [down_loop].
  destruct (decide (i < n)) as [Hin|Hin].
  2: { exists a. split_and!; try done. intros j Hj. lia. }
  destruct (try_child_spec n i a HF Hn Hb Hin) as (x & -> & [[-> Hnone]|(Hx & Hpx & Hleast)]);
    cbn [rbind].
  { rewrite decide_True by done. exists a. split_and!; try done.
    intros j Hj. by apply (proj1 Hs j), Hnone. }
  pose proof (hparent_lt x ltac:(lia)) as Hlt. rewrite decide_False by lia.
  destruct (get_lt a x ltac:(lia)) as (ex & Hex & ->).
  destruct (get_lt a i ltac:(lia)) as (ei & Hei & ->). cbn [rbind].
  destruct (less ex ei) eqn:Hless.
  - rewrite (swap_lt _ _ _ _ _ Hei Hex). cbn [rbind].
    destruct (IH x (<[x := ei]> (<[i := ex]> a))) as (a' & E & Hlen & Ho & HF' & Hperm).
    + by apply Forall_swap.
    + by rewrite !length_insert.
    + lia.
    + lia.
    + by eapply sink_swap.
    + exists a'. rewrite !length_insert in Hlen. split_and!; try done.
      rewrite Hperm. apply take_swap; try done. lia.
  - exists a. split_and!; try done. intros j Hj. destruct (decide (hparent j = i)) as [E|E].
    + intros u v Hu Hv. rewrite E in Hu. assert (u = ei) as -> by congruence.
      apply (hle_trans ei ex v); [by eapply Forall_lookup_num..|done|]. by eapply (Hleast j).
    + by apply (proj1 Hs j).
Qed.

(** ** The operations *)

Record heap_wf (h : heap) : Prop := {
  wf_num : Forall num (h_elems h);
  wf_len : length (h_elems h) = h_maxsize h;
  wf_size : h_size h <= h_maxsize h;
  wf_max : 0 < h_maxsize h;
  wf_ord : heap_ord (h_size h) (h_elems h);
}.

Definition contents (h : heap) : list heap_elem := take (h_size h) (h_elems h).

Lemma new_heap_wf : heap_wf new_heap.
Proof.
  constructor; try done; [|unfold new_heap, HEAP_DEFAULT_SIZE; simpl; lia..|].
  - apply Forall_replicate. done.
  - intros j Hj. simpl in Hj. lia.
Qed.

Lemma take_S_insert {A} (a : list A) n x :
  n < length a -> take (S n) (<[n := x]> a) = take n a ++ [x].
Proof.
  intros Hn. erewrite take_S_r by (by apply list_lookup_insert_eq).
  by rewrite take_insert_ge by lia.
Qed.

(** The array with room for one more. *)
Lemma grow_spec h :
  heap_wf h -> (Z.of_nat (h_size h) < 2 ^ 31)%Z ->
  exists a maxsize, grow h = Ok (a, maxsize) /\ length a = maxsize /\ h_size h < length a /\ Forall num a /\
  (forall i, i < h_size h -> a !! i = h_elems h !! i).
Proof.
  intros [Hnum Hlen Hsz Hmax Hord] Hb. unfold grow.
  destruct (decide (h_maxsize h = h_size h)).
  - rewrite (u32_id (_ * 2)), decide_False by lia. eexists _, _. split; [done|].
    rewrite length_app, length_replicate. split_and!; [lia|lia| |].
    + apply Forall_app. split; [done|]. by apply Forall_replicate.
    + intros i Hi. by rewrite lookup_app_l by lia.
  - eexists _, _. split_and!; [done|lia|lia|done|done].
Qed.

Lemma heap_insert_spec fuel key e h :
  heap_wf h -> is_nan key = false -> h_size h < fuel -> (Z.of_nat (h_size h) < 2 ^ 31)%Z ->
  exists h', heap_insert fuel key e h = Ok h' /\ heap_wf h' /\
    contents h' ≡ₚ HeapElem key (h_s_key h) (Some e) :: contents h /\
    h_s_key h' = wrap_u32 (h_s_key h + 1) /\ h_size h' = S (h_size h).
Proof.
  intros Hwf Hk Hf Hb. unfold heap_insert.
  destruct (grow_spec h Hwf Hb) as (a & maxsize & -> & Hlen & Hroom & Hnum & Hsame).
  cbn [rbind]. rewrite (u32_succ (h_size h)) by done.
  set (x := HeapElem key (h_s_key h) (Some e)). set (n := h_size h) in *.
  assert (Hord : heap_ord n (<[n := x]> a)).
  { intros j Hj u v. pose proof (hparent_lt j ltac:(lia)).
    rewrite !list_lookup_insert_ne, !Hsame by lia. by apply Hwf. }
  destruct (up_loop_spec fuel (S n) x n a) as (a' & i & E & Hi & Hlen' & Ho & HF' & Hperm);
    try (done || lia).
  - split.
    + intros j Hj Hjn Hpj. apply Hord. lia.
    + intros j Hn0 Hj Hj0 Hpj. pose proof (hparent_lt j Hj0). lia.
  - intros j Hj Hpj. pose proof (hparent_lt j ltac:(lia)). lia.
  - change (up_loop fuel key (h_s_key h) n a) with
      (up_loop fuel (he_key x) (he_s_key x) n a). rewrite E. cbn [rbind].
    rewrite put_lt by lia. cbn [rbind]. eexists. split; [done|]. unfold contents.
    split_and!; [constructor; cbn; [by apply Forall_insert|rewrite length_insert; lia|lia|lia|done]
      | |done|done].
    cbn [h_size h_elems]. rewrite Hperm, take_S_insert by lia.
    replace (take n a) with (take n (h_elems h)); [by rewrite <- Permutation_cons_append|].
    apply list_eq. intros i'. destruct (decide (i' < n)).
    + rewrite !lookup_take_lt by done. symmetry. by apply Hsame.
    + rewrite !lookup_take_ge by lia. done.
Qed.

(** Removing the root of an array in order but at its root. *)
Lemma extract_spec fuel h :
  Forall num (h_elems h) -> length (h_elems h) = h_maxsize h -> 0 < h_size h <= h_maxsize h ->
  (Z.of_nat (h_size h) < 2 ^ 31)%Z -> h_size h <= fuel -> almost (h_size h) 0 (h_elems h) ->
  exists x h', h_elems h !! 0 = Some x /\ heap_extract_min fuel h = Ok (he_elem x, h') /\
    heap_wf h' /\ x :: contents h' ≡ₚ contents h /\
    h_s_key h' = h_s_key h /\ h_size h' = h_size h - 1 /\ h_iter h' = h_iter h.
Proof.
  intros Hnum Hlen Hsz Hb Hf Hal. unfold heap_extract_min.
  rewrite decide_False, u32_pred by lia. set (a := h_elems h) in *. set (n := h_size h) in *.
  destruct (get_lt a 0 ltac:(lia)) as (x & Hx & ->). cbn [rbind].
  destruct (get_lt a (n - 1) ltac:(lia)) as (y & Hy & ->). cbn [rbind].
  rewrite put_lt by lia. cbn [rbind].
  destruct (down_loop_spec fuel (n - 1) 0 (<[0 := y]> a))
    as (a' & -> & Hlen' & Ho & HF' & Hperm).
  - apply Forall_insert; [done|by eapply Forall_lookup_num].
  - rewrite length_insert. lia.
  - lia.
  - lia.
  - lia.
  - split; [|lia]. intros j Hj Hpj u v. pose proof (hparent_lt j ltac:(lia)).
    rewrite !list_lookup_insert_ne by lia. apply (proj1 Hal j); lia.
  - cbn [rbind]. exists x. eexists. split; [done|]. split; [done|].
    rewrite length_insert in Hlen'.
    split_and!; [constructor; cbn; [done|lia|lia|lia|done]| |done|done|done].
    unfold contents. cbn [h_size h_elems]. rewrite Hperm. fold a n.
    destruct (decide (n = 1)) as [->|Hn1].
    + simpl. destruct a as [|x' a]; [done|]. by injection Hx as ->.
    + rewrite take_insert_lt by lia.
      rewrite (insert_perm (take (n - 1) a) 0 x y) by (rewrite lookup_take_lt by lia; done).
      replace n with (S (n - 1)) at 2 by lia. rewrite (take_S_r a (n - 1) y) by done.
      by rewrite <- Permutation_cons_append.
Qed.

Lemma heap_extract_min_spec fuel h :
  heap_wf h -> h_size h <= fuel -> (Z.of_nat (h_size h) < 2 ^ 31)%Z ->
  (h_size h = 0 /\ heap_extract_min fuel h = Ok (None, h)) \/
  exists x h', heap_extract_min fuel h = Ok (he_elem x, h') /\ heap_wf h' /\
    x :: contents h' ≡ₚ contents h /\ Forall (hle x) (contents h) /\
    h_s_key h' = h_s_key h.
Proof.
  intros Hwf Hf Hb. destruct (decide (h_size h = 0)) as [E|E].
  - left. split; [done|]. unfold heap_extract_min. by rewrite decide_True.
  - right. pose proof Hwf as [Hnum Hlen Hsz Hmax Hord].
    destruct (extract_spec fuel h) as (x & h' & Hx & E' & Hwf' & Hp & Hk & _); try done; [lia| |].
    + apply heap_ord_almost; [done|done|lia].
    + exists x, h'. split_and!; try done. apply Forall_lookup. intros i y Hy.
      assert (i < h_size h).
      { apply lookup_lt_Some in Hy. unfold contents in Hy. rewrite length_take in Hy. lia. }
      unfold contents in Hy. rewrite lookup_take_lt in Hy by done.
      by eapply heap_ord_root.
Qed.

Lemma member_loop_spec fuel e n i a :
  n <= length a -> (Z.of_nat n < 2 ^ 31)%Z -> n - i < fuel ->
  exists r, member_loop fuel e n i a = Ok r /\
    ((r = 0%Z /\ forall j x, i <= j < n -> a !! j = Some x -> he_elem x <> Some e) \/
     (exists j x, r = Z.of_nat (S j) /\ i <= j < n /\ a !! j = Some x /\ he_elem x = Some e)).
Proof.
  intros Hn Hb. revert i. induction fuel as [|fuel IH]; intros i Hf; [lia|]. cbn [member_loop].
  destruct (decide (i < n)) as [Hi|Hi].
  - destruct (get_lt a i ltac:(lia)) as (x & Hx & ->). cbn [rbind]. rewrite u32_succ by lia.
    destruct (decide (he_elem x = Some e)) as [He|He].
    + rewrite wrap_small by lia. eexists. split; [done|]. right. exists i, x. split_and!; try done.
    + destruct (IH (S i) ltac:(lia)) as (r & -> & [[-> Hno]|(j & y & -> & Hj & Hy & Hye)]);
        eexists; (split; [done|]).
      * left. split; [done|]. intros j y Hj Hy. destruct (decide (j = i)) as [->|].
        -- by simplify_eq.
        -- eapply Hno; [|done]. lia.
      * right. exists j, y. split_and!; try done; lia.
  - eexists. split; [done|]. left. split; [done|]. lia.
Qed.

Lemma heap_delete_spec fuel e h :
  heap_wf h -> h_size h < fuel -> (Z.of_nat (h_size h) < 2 ^ 31)%Z ->
  exists b h', heap_delete fuel e h = Ok (b, h') /\ heap_wf h' /\ h_s_key h' = h_s_key h /\
    if b then exists x, he_elem x = Some e /\ x :: contents h' ≡ₚ contents h
    else h' = h /\ Forall (fun x => he_elem x <> Some e) (contents h).
Proof.
  intros Hwf Hf Hb. pose proof Hwf as [Hnum Hlen Hsz Hmax Hord]. unfold heap_delete, heap_member.
  destruct (member_loop_spec fuel e (h_size h) 0 (h_elems h)) as (r & -> & Hr); [lia|done|lia|].
  cbn [rbind]. destruct Hr as [[-> Hno]|(j & x & -> & Hj & Hx & Hxe)].
  - exists false, h. split_and!; try done.
    apply Forall_lookup. intros i y Hy. unfold contents in Hy.
    apply lookup_take_Some in Hy as [Hy Hi]. eapply Hno; [|done]. lia.
  - rewrite (proj2 (Z.eqb_neq _ _)), (proj2 (Z.eqb_neq _ _)) by lia.
    replace (u32 (Z.of_nat (S j) - 1)) with j by (rewrite u32_id; lia).
    destruct (lift_loop_spec fuel (h_size h) j (h_elems h))
      as (a & -> & Hlen' & Hal & HF & Hperm & H0); [done|lia|lia|lia|lia| |].
    { apply heap_ord_almost; [done|done|lia]. }
    cbn [rbind]. set (h1 := Heap a _ _ _ _).
    destruct (extract_spec fuel h1) as (y & h' & Hy & -> & Hwf' & Hp & Hk & _);
      unfold h1; cbn [h_elems h_size h_maxsize]; try done; [lia|lia|lia|].
    cbn [rbind]. exists true, h'. split_and!; try done. exists x. split; [done|].
    cbn [h_elems h1] in Hy. rewrite H0, Hx in Hy. injection Hy as <-.
    rewrite Hp. unfold contents, h1. cbn [h_size h_elems]. done.
Qed.
