(* ===== verification/HeapScheduler.v ===== *)
(** * The heap scheduler (class HeapScheduler, common/scheduler.{h,cc})

    The event queue is a heap of events keyed by their times.  The instance
    of the event queue's laws shows that it serves the events in the same
    order as a sorted list. *)

From stdpp Require Import base numbers list gmap sorting.
From Stdlib Require Import ZArith Lia.
From S2P Require Import Prelude Store Float64 EventQueue Heap HeapProps.

Local Open Scope Z_scope.

Definition hs_insert (fuel : nat) (e : positive) (st : events) (h : heap)
    : result (events * heap) :=
  let! v := load st (Some e) in
  let! h' := heap_insert fuel (time_ v) e h in
  Ok (st, h').

Definition hs_cancel (fuel : nat) (e : positive) (st : events) (h : heap)
    : result (events * heap) :=
  let! v := load st (Some e) in
  if uid_ v <=? 0 then Ok (st, h)
  else
    let! st' := store st (Some e) (fun v => set_uid (- uid_ v) v) in
    let! '(_, h') := heap_delete fuel e h in
    Ok (st', h').

Definition hs_deque (fuel : nat) (st : events) (h : heap)
    : result (option positive * events * heap) :=
  let! '(r, h') := heap_extract_min fuel h in
  Ok (r, st, h').

(** The [for] loop of [lookup] over the heap's iterator. *)
Fixpoint hs_lookup_loop (fuel : nat) (u : Z) (st : events) (e : option positive) (h : heap)
    : result (option positive * heap) :=
  match fuel with
  | O => NoFuel
  | S fuel' =>
      match e with
      | None => Ok (None, h)
      | Some _ =>
          let! v := load st e in
          if uid_ v =? u then Ok (e, h)
          else
            let! '(e', h') := heap_iter h in
            hs_lookup_loop fuel' u st e' h'
      end
  end.

Definition hs_lookup (fuel : nat) (u : Z) (st : events) (h : heap)
    : result (option positive * heap) :=
  let! '(e, h') := heap_iter_init h in
  hs_lookup_loop fuel u st e h'.

#[export] Instance heap_queue : EventQueue heap := {
  empty_queue := new_heap;
  eq_insert := hs_insert;
  eq_cancel := hs_cancel;
  eq_deque := hs_deque;
  eq_lookup := hs_lookup;
  eq_head _ h := let! r := heap_min h in Ok (r, h);
}.

(** ** The contract *)

(** An element of the heap and the event it stands for. *)
Definition stands_for (st : events) (x : heap_elem) (e : positive) : Prop :=
  he_elem x = Some e /\ exists v, st !! e = Some v /\ he_key x = time_ v.

(** The elements [xs] of the heap, in the order they will be served. *)
Record hrep_at (st : events) (h : heap) (es : list positive) (xs : list heap_elem) : Prop := {
  hr_wf : heap_wf h;
  hr_perm : xs ≡ₚ contents h;
  hr_sorted : StronglySorted (fun x y => less x y = true) xs;
  hr_events : Forall2 (stands_for st) xs es;
  hr_skeys : Forall (fun x => he_s_key x < h_s_key h) xs;
  hr_nodup : NoDup es;
}.

Definition hrep (st : events) (h : heap) (es : list positive) : Prop :=
  exists xs, hrep_at st h es xs.

(** Neither the secondary key nor an index or the size wraps around in the
    next [n] insertions. *)
Definition hroom (h : heap) (n : nat) : Prop :=
  (0 <= h_s_key h /\ h_s_key h + Z.of_nat n < 2 ^ 32) /\
  Z.of_nat (h_size h) + Z.of_nat n < 2 ^ 31.

Lemma contents_length h : heap_wf h -> length (contents h) = h_size h.
Proof. intros [_ Hlen Hsz _ _]. unfold contents. rewrite length_take. lia. Qed.

Lemma hrep_size st h es xs : hrep_at st h es xs -> h_size h = length es.
Proof.
  intros [Hwf Hp _ He _ _]. rewrite <- (contents_length h Hwf), <- Hp.
  by apply Forall2_length in He.
Qed.

Lemma contents_num h : heap_wf h -> Forall num (contents h).
Proof. intros [Hn _ _ _ _]. unfold contents. by apply Forall_take. Qed.

Lemma hrep_num st h es xs : hrep_at st h es xs -> Forall num xs.
Proof. intros [Hwf Hp _ _ _ _]. rewrite Hp. by apply contents_num. Qed.

Lemma sorted_app_less (R : heap_elem -> heap_elem -> Prop) xs ys :
  StronglySorted R (xs ++ ys) <->
  StronglySorted R xs /\ StronglySorted R ys /\ (forall x y, x ∈ xs -> y ∈ ys -> R x y).
Proof.
  induction xs as [|x xs IH]; simpl.
  - split; [intros; split_and!; [constructor|done|set_solver]|naive_solver].
  - split.
    + intros [Hs HF]%StronglySorted_inv. apply IH in Hs as (H1 & H2 & H3).
      apply Forall_app in HF as [HF1 HF2]. split_and!; [by constructor|done|].
      intros a b [->|Ha]%elem_of_cons Hb; [|by apply H3]. rewrite Forall_forall in HF2. by apply HF2.
    + intros (Hs & H2 & H3). apply StronglySorted_inv in Hs as [Hs HF]. constructor.
      * apply IH. split_and!; try done. intros; apply H3; set_solver.
      * apply Forall_app. split; [done|]. apply Forall_forall. intros; apply H3; set_solver.
Qed.

Lemma stands_for_tm st x e : stands_for st x e -> he_key x = tm st e.
Proof. intros (_ & v & Hv & Hk). unfold tm. by rewrite Hv. Qed.

Lemma hs_insert_law fuel st h es e ev n :
  hrep st h es -> hroom h (S n) -> st !! e = Some ev -> e ∉ es ->
  is_nan (time_ ev) = false -> (length es < fuel)%nat ->
  exists h', hs_insert fuel e st h = Ok (st, h') /\ hrep st h' (ord_insert (tm st) e es) /\
    hroom h' n.
Proof.
  intros (xs & Hr) [[Hk0 Hk1] Hsz] He Hne Hnan Hf. pose proof (hrep_num _ _ _ _ Hr) as Hnum.
  pose proof (hrep_size _ _ _ _ Hr) as Hsize. destruct Hr as [Hwf Hp Hs Hev Hsk Hnd].
  unfold hs_insert. mem_step.
  destruct (heap_insert_spec fuel (time_ ev) e h) as (h' & -> & Hwf' & Hp' & Hk' & Hsz');
    [done|done|lia|lia|]. cbn [rbind]. eexists. split; [done|].
  rewrite wrap_u32_id in Hk' by (unfold in_u32; lia).
  split; [|unfold hroom; rewrite Hk', Hsz'; lia].
  set (nx := HeapElem (time_ ev) (h_s_key h) (Some e)) in *.
  assert (Hnx : num nx) by done.
  destruct (ord_insert_split (tm st) e es) as (pre & post & -> & Eo & HF & Hpost).
  rewrite Eo. apply Forall2_app_inv_r in Hev as (xpre & xpost & Hpre & Hpo & ->).
  assert (Hte : tm st e = time_ ev) by (unfold tm; by rewrite He).
  apply Forall_app in Hnum as [Hn1 Hn2]. apply Forall_app in Hsk as [Hsk1 Hsk2].
  apply sorted_app_less in Hs as (Hs1 & Hs2 & Hs3).
  exists (xpre ++ nx :: xpost). constructor; try done.
  - by rewrite Hp', <- Hp, Permutation_middle.
  - apply sorted_app_less. split_and!; [done| |].
    + constructor; [done|]. destruct xpost as [|q xpost]; [done|].
      apply Forall2_cons_inv_l in Hpo as (y & post' & Hq & _ & ->). simpl in Hpost.
      apply Forall_cons in Hn2 as [Hnq Hn2].
      assert (Hlt : flt (he_key nx) (he_key q) = true)
        by (rewrite (stands_for_tm _ _ _ Hq); simpl; by rewrite <- Hte).
      constructor; [apply less_spec; [done|done|by left]|].
      apply StronglySorted_inv in Hs2 as [_ HFq]. rewrite Forall_forall in HFq, Hn2 |- *.
      intros z Hz. specialize (HFq z Hz). apply less_spec; [done|by apply Hn2|]. left.
      apply less_spec in HFq as [HFq|[HFq _]]; [by eapply flt_trans|by eapply flt_le_trans|done|
        by apply Hn2].
    + intros x y Hx [->|Hy]%elem_of_cons; [|by apply Hs3].
      rewrite Forall_forall in Hn1, Hsk1. apply less_spec; [by apply Hn1|done|]. right.
      split; [|by apply Hsk1].
      apply list_elem_of_lookup in Hx as [i Hi].
      destruct (Forall2_lookup_l _ _ _ _ _ Hpre Hi) as (k & Hki & Hsf).
      rewrite Forall_forall in HF. apply flt_false_le; [done| |].
      * apply Hn1, list_elem_of_lookup. eauto.
      * rewrite (stands_for_tm _ _ _ Hsf). simpl. rewrite <- Hte.
        apply HF, list_elem_of_lookup. eauto.
  - apply Forall2_app; [done|]. constructor; [|done]. split; [done|]. eauto.
  - rewrite Hk'. apply Forall_app. split;
      [eapply Forall_impl; [exact Hsk1|]|constructor; [|eapply Forall_impl; [exact Hsk2|]]];
      simpl; lia.
  - rewrite <- Permutation_middle. by constructor.
Qed.

(** Removing an element makes room. *)
Lemma hroom_fewer h h' x n :
  heap_wf h -> heap_wf h' -> x :: contents h' ≡ₚ contents h -> h_s_key h' = h_s_key h ->
  hroom h n -> hroom h' n.
Proof.
  intros Hwf Hwf' Hp Hk [H1 H2]. unfold hroom. rewrite Hk.
  apply Permutation_length in Hp. simpl in Hp. rewrite !contents_length in Hp by done. lia.
Qed.

Lemma hs_deque_law fuel st h es n :
  hrep st h es -> hroom h n -> (length es < fuel)%nat ->
  exists h', hs_deque fuel st h = Ok (head es, st, h') /\ hrep st h' (tail es) /\ hroom h' n.
Proof.
  intros (xs & Hr) Hroom Hf. pose proof (hrep_num _ _ _ _ Hr) as Hnum.
  pose proof (hrep_size _ _ _ _ Hr) as Hsize. destruct Hr as [Hwf Hp Hs Hev Hsk Hnd].
  unfold hs_deque.
  destruct (heap_extract_min_spec fuel h Hwf) as [[E0 ->]|(x & h' & -> & Hwf' & Hp' & Hmin & Hk)];
    [lia|destruct Hroom; lia| |]; cbn [rbind].
  - destruct es as [|e es]; [|simpl in *; lia]. exists h. split_and!; try done.
    exists xs. by constructor.
  - assert (Hx : x ∈ xs) by (rewrite Hp, <- Hp'; set_solver).
    destruct es as [|e es].
    { apply Forall2_nil_inv_r in Hev. subst. set_solver. }
    apply Forall2_cons_inv_r in Hev as (x0 & xs' & Hsf & Hev & ->).
    apply StronglySorted_inv in Hs as [Hs HF]. apply NoDup_cons in Hnd as [_ Hnd].
    apply Forall_cons in Hsk as [_ Hsk]. apply Forall_cons in Hnum as [Hn0 Hnum].
    assert (x = x0) as ->.
    { apply elem_of_cons in Hx as [?|Hx]; [done|]. exfalso.
      rewrite Forall_forall in HF, Hmin. specialize (HF x Hx).
      assert (Hle : hle x x0) by (apply Hmin; rewrite <- Hp; set_solver).
      unfold hle in Hle. congruence. }
    exists h'. cbn [head tail]. destruct Hsf as [-> _].
    split; [done|]. split; [|exact (hroom_fewer _ _ _ _ Hwf Hwf' Hp' Hk Hroom)].
    exists xs'. constructor; try done.
    + apply (inj (cons x0)). by rewrite Hp', Hp.
    + by rewrite Hk.
Qed.

(** An event's element is found by the event. *)
Lemma stands_for_inj st xs es i j x y e :
  Forall2 (stands_for st) xs es -> NoDup es -> xs !! i = Some x -> xs !! j = Some y ->
  he_elem x = Some e -> he_elem y = Some e -> i = j.
Proof.
  intros HF Hnd Hx Hy Hxe Hye.
  destruct (Forall2_lookup_l _ _ _ _ _ HF Hx) as (a & Ha & Hsa & _).
  destruct (Forall2_lookup_l _ _ _ _ _ HF Hy) as (b & Hb & Hsb & _).
  assert (a = b) as -> by congruence. by eapply NoDup_lookup.
Qed.

Lemma hs_delete_law fuel st h es e n :
  hrep st h es -> hroom h n -> e ∈ es -> (length es < fuel)%nat ->
  exists h', heap_delete fuel e h = Ok (true, h') /\ hrep st h' (remove_ev e es) /\ hroom h' n.
Proof.
  intros (xs & Hr) Hroom Hin Hf. pose proof (hrep_size _ _ _ _ Hr) as Hsize.
  destruct Hr as [Hwf Hp Hs Hev Hsk Hnd].
  apply list_elem_of_split in Hin as (es1 & es2 & ->). rewrite remove_ev_middle by done.
  pose proof Hev as Hev0. apply Forall2_app_inv_r in Hev as (xs1 & xs2 & Hev1 & Hev2 & ->).
  apply Forall2_cons_inv_r in Hev2 as (x & xs2' & [Hxe _] & Hev2 & ->).
  destruct (heap_delete_spec fuel e h Hwf) as (b & h' & -> & Hwf' & Hk & Hb);
    [lia|destruct Hroom; lia|].
  destruct b.
  - destruct Hb as (y & Hye & Hp'). exists h'.
    split; [done|]. split; [|exact (hroom_fewer _ _ _ _ Hwf Hwf' Hp' Hk Hroom)].
    assert (Hy : y ∈ xs1 ++ x :: xs2') by (rewrite Hp, <- Hp'; set_solver).
    apply list_elem_of_lookup in Hy as [i Hi].
    assert (i = length xs1) as ->.
    { by eapply (stands_for_inj st _ _ i (length xs1) y x e Hev0 Hnd Hi);
        [apply list_lookup_middle|..]. }
    rewrite list_lookup_middle in Hi by done. injection Hi as <-.
    apply sorted_app_less in Hs as (Hs1 & Hs2 & Hs3). apply StronglySorted_inv in Hs2 as [Hs2 _].
    apply Forall_app in Hsk as [Hsk1 Hsk2]. apply Forall_cons in Hsk2 as [_ Hsk2].
    exists (xs1 ++ xs2'). constructor; try done.
    + apply (inj (cons x)). by rewrite Hp', <- Hp, Permutation_middle.
    + apply sorted_app_less. split_and!; try done. intros a b' Ha Hb'. apply Hs3; set_solver.
    + by apply Forall2_app.
    + rewrite Hk. by apply Forall_app.
    + by rewrite <- Permutation_middle in Hnd; apply NoDup_cons in Hnd as [_ ?].
  - destruct Hb as [_ HF]. exfalso. rewrite <- Hp in HF. rewrite Forall_forall in HF.
    apply (HF x); [set_solver|done].
Qed.

Lemma hrep_frame st st' h es :
  hrep st h es -> (forall k, k ∈ es -> st' !! k = st !! k) -> hrep st' h es.
Proof.
  intros (xs & [Hwf Hp Hs Hev Hsk Hnd]) Hag. exists xs. constructor; try done.
  clear -Hev Hag. induction Hev as [|x e xs es (H1 & v & Hv & Hk) HF IH]; [constructor|].
  constructor; [|apply IH; set_solver]. split; [done|]. exists v.
  rewrite Hag by set_solver. done.
Qed.

(** The same heap at another point of an iteration. *)
Definition at_iter (i : nat) (h : heap) : heap :=
  Heap (h_elems h) (h_s_key h) (h_size h) (h_maxsize h) i.

Lemma hrep_iter st h es i : hrep st h es -> hrep st (at_iter i h) es.
Proof.
  intros (xs & [[H1 H2 H3 H4 H5] Hp Hs Hev Hsk Hnd]). exists xs. constructor; try done.
Qed.

(** Each element of the array stands for one of the events. *)
Lemma hrep_elem st h es i :
  hrep st h es -> (i < h_size h)%nat ->
  exists x e v, h_elems h !! i = Some x /\ he_elem x = Some e /\ e ∈ es /\ st !! e = Some v.
Proof.
  intros (xs & [Hwf Hp Hs Hev Hsk Hnd]) Hi.
  destruct (lookup_lt_is_Some_2 (contents h) i) as [x Hx]; [by rewrite contents_length|].
  assert (Hin : x ∈ xs) by (rewrite Hp; apply list_elem_of_lookup; eauto).
  apply list_elem_of_lookup in Hin as [j Hj].
  destruct (Forall2_lookup_l _ _ _ _ _ Hev Hj) as (e & He & Hxe & v & Hv & _).
  apply lookup_take_Some in Hx as [Hx _].
  exists x, e, v. split_and!; try done. apply list_elem_of_lookup. eauto.
Qed.

(** The root stands for the next event. *)
Lemma hrep_root st h es :
  hrep st h es -> h_size h <> 0%nat ->
  exists x e es', es = e :: es' /\ h_elems h !! 0%nat = Some x /\ he_elem x = Some e.
Proof.
  intros (xs & Hr) H0. pose proof (hrep_size _ _ _ _ Hr) as Hsize.
  destruct Hr as [Hwf Hp Hs Hev Hsk Hnd]. destruct es as [|e es]; [done|].
  apply Forall2_cons_inv_r in Hev as (x0 & xs' & [Hx0 _] & Hev & ->).
  destruct (lookup_lt_is_Some_2 (contents h) 0) as [x Hx]; [rewrite contents_length by done; lia|].
  assert (Hin : x ∈ x0 :: xs') by (rewrite Hp; apply list_elem_of_lookup; eauto).
  assert (Hx0c : x0 ∈ contents h) by (rewrite <- Hp; set_solver).
  apply list_elem_of_lookup in Hx0c as [i Hi]. apply lookup_take_Some in Hx as [Hx _].
  apply lookup_take_Some in Hi as [Hi Hlt]. exists x, e, es. split_and!; try done.
  apply elem_of_cons in Hin as [->|Hin]; [done|]. exfalso.
  apply StronglySorted_inv in Hs as [_ HF]. rewrite Forall_forall in HF. specialize (HF x Hin).
  pose proof (heap_ord_root _ _ _ _ _ (wf_num _ Hwf) (wf_ord _ Hwf) Hx Hlt Hi) as Hle.
  unfold hle in Hle. congruence.
Qed.

(** Each event stands somewhere in the array. *)
Lemma hrep_event st h es e :
  hrep st h es -> e ∈ es ->
  exists i x, (i < h_size h)%nat /\ h_elems h !! i = Some x /\ he_elem x = Some e.
Proof.
  intros (xs & [Hwf Hp Hs Hev Hsk Hnd]) [j Hj]%list_elem_of_lookup.
  destruct (Forall2_lookup_r _ _ _ _ _ Hev Hj) as (x & Hx & Hxe & _).
  assert (Hin : x ∈ contents h) by (rewrite <- Hp; apply list_elem_of_lookup; eauto).
  apply list_elem_of_lookup in Hin as [i Hi]. apply lookup_take_Some in Hi as [Hi Hlt].
  exists i, x. done.
Qed.

Definition elem_uid (st : events) (h : heap) (i : nat) : option Z :=
  match (h_elems h) !! i with
  | Some x => match he_elem x with Some e => uid_ <$> st !! e | None => None end
  | None => None
  end.

Lemma hs_lookup_loop_spec fuel u st es h i e :
  hrep st h es -> Z.of_nat (h_size h) < 2 ^ 31 -> (i < h_size h)%nat ->
  (h_size h - i < fuel)%nat -> h_elems h !! i ≫= he_elem = Some e ->
  exists r k, hs_lookup_loop fuel u st (Some e) (at_iter (S i) h) = Ok (r, at_iter k h) /\
    match r with
    | Some e' => e' ∈ es /\ uid_ <$> st !! e' = Some u
    | None => forall j, (i <= j < h_size h)%nat -> elem_uid st h j <> Some u
    end.
Proof.
  intros Hr Hb. revert i e. induction fuel as [|fuel IH]; intros i e Hi Hf He; [lia|].
  cbn [hs_lookup_loop]. destruct (hrep_elem st h es i Hr Hi) as (x & e' & v & Hx & Hxe & Hin & Hv).
  rewrite Hx in He. cbn in He. assert (e' = e) as -> by congruence. mem_step.
  destruct (Z.eqb_spec (uid_ v) u) as [<-|Hne].
  { eexists _, _. split; [done|]. split; [done|]. by rewrite Hv. }
  assert (Hi_ne : elem_uid st h i <> Some u).
  { unfold elem_uid. rewrite Hx. cbn. rewrite Hxe. cbn. rewrite Hv. cbn. congruence. }
  unfold heap_iter. cbn [h_size h_iter at_iter h_elems].
  destruct (decide (h_size h <= S i)%nat) as [Hend|Hend].
  - cbn [rbind]. destruct fuel as [|fuel]; [lia|]. cbn [hs_lookup_loop].
    exists None, 0%nat. split; [done|]. intros j Hj. by replace j with i by lia.
  - destruct (hrep_elem st h es (S i) Hr ltac:(lia)) as (y & e2 & w & Hy & Hye & _).
    unfold get. rewrite Hy. cbn [rbind]. rewrite Hye, u32_succ by lia.
    destruct (IH (S i) e2) as (r & k & E & Hres); [lia|lia|by rewrite Hy|].
    exists r, k. split; [exact E|]. destruct r; [done|]. intros j Hj.
    destruct (decide (j = i)) as [->|]; [done|]. apply Hres. lia.
Qed.

Lemma hs_lookup_law fuel st h es u n :
  hrep st h es -> hroom h n -> (length es < fuel)%nat ->
  exists r h', hs_lookup fuel u st h = Ok (r, h') /\ hrep st h' es /\ hroom h' n /\
    match r with
    | Some e => e ∈ es /\ uid_ <$> st !! e = Some u
    | None => Forall (fun x => uid_ <$> st !! x <> Some u) es
    end.
Proof.
  intros Hr Hroom Hf. assert (Hsize : h_size h = length es)
    by (destruct Hr; by eapply hrep_size).
  unfold hs_lookup, heap_iter_init, heap_min.
  destruct (decide (h_size h = 0%nat)) as [E0|E0]; cbn [rbind].
  - destruct fuel; [lia|]. cbn [hs_lookup_loop]. eexists None, _. split; [done|].
    split; [by apply (hrep_iter _ _ _ 1)|]. split; [done|].
    destruct es; [constructor|simpl in *; lia].
  - destruct (hrep_elem st h es 0 Hr ltac:(lia)) as (x & e & v & Hx & Hxe & _).
    unfold get. rewrite Hx. cbn [rbind]. rewrite Hxe.
    destruct (hs_lookup_loop_spec fuel u st es h 0 e Hr) as (r & k & E & Hres);
      [destruct Hroom; lia|lia|lia|by rewrite Hx|]. exists r, (at_iter k h). split; [exact E|].
    split; [by apply hrep_iter|]. split; [done|]. destruct r; [done|].
    apply Forall_forall. intros a Ha. destruct (hrep_event st h es a Hr Ha) as (i & y & Hi & Hy & Hya).
    specialize (Hres i ltac:(lia)). unfold elem_uid in Hres. rewrite Hy in Hres. cbn in Hres.
    rewrite Hya in Hres. done.
Qed.

#[export] Instance heap_queue_laws : EventQueueLaws heap.
Proof.
  refine {| qrep := hrep; room := hroom; by_number := False |}.
  - intros st q es (xs & Hr). apply Hr.
  - apply hrep_frame.
  - intros st. exists []. constructor; [apply new_heap_wf|constructor..].
  - unfold hroom. intros q n. lia.
  - intros fuel st q es e ev n Hr Hroom He Hne _ Hnan _ Hf.
    destruct (hs_insert_law fuel st q es e ev n Hr Hroom He Hne Hnan Hf) as (h' & ? & ? & ?).
    exists st, h'. done.
  - intros fuel st q es n Hr Hroom Hf _.
    destruct (hs_deque_law fuel st q es n Hr Hroom Hf) as (h' & ? & ? & ?). exists st, h'. done.
  - intros fuel st q es e ev n Hr Hroom He Hin Hu _ _ _ Hf.
    destruct (hs_delete_law fuel st q es e n Hr Hroom Hin Hf) as (h' & E & Hr' & Hroom').
    cbn. unfold hs_cancel. mem_step. rewrite (proj2 (Z.leb_gt _ _) Hu). cbn [rbind].
    rewrite E. cbn [rbind]. eexists _, h'. split; [done|]. split_and!; [|done| |].
    + eapply hrep_frame; [done|]. intros k [Hk _]%elem_of_remove_ev. by apply lookup_insert_ne.
    + intros k Hk. by rewrite lookup_insert_ne.
    + by rewrite lookup_insert_eq.
  - intros fuel st q es e ev Hr He Hu. cbn. unfold hs_cancel. mem_step.
    by rewrite (proj2 (Z.leb_le _ _) Hu).
  - intros fuel st q es u n Hr Hroom Hf _. by apply hs_lookup_law.
  - intros st q es n Hr Hroom. cbn. exists q. split; [|done]. unfold heap_min. assert (Hsize : h_size q = length es)
      by (destruct Hr; by eapply hrep_size).
    destruct (decide (h_size q = 0%nat)) as [E0|E0]; [destruct es; [done|simpl in *; lia]|].
    destruct (hrep_root st q es Hr E0) as (x & e & es' & -> & Hx & Hxe). unfold get.
    rewrite Hx. cbn. by rewrite Hxe.
Defined.
