(* ===== verification/Splay.v ===== *)
(** * The splay scheduler (common/splay-scheduler.cc)

    The event queue as a binary search tree threaded through the events:
    [prev_] is the left child, [next_] the right one.  Insertion splays top
    down, collecting the earlier and the later events under the new root;
    removal of the first event halves the left spine on its way. *)

From stdpp Require Import base numbers list gmap.
From Stdlib Require Import ZArith Lia.
From S2P Require Import Prelude.
From S2P Require Import Store.
From S2P Require Import Float64.
From S2P Require Import EventQueue.

Local Open Scope Z_scope.

Record splayq := SplayQ {
  root_ : option positive;
  lookup_uid_ : Z;
  qsize_ : Z;
}.

Definition new_splay : splayq := SplayQ None 0 0.

(** [LEFT (e)] and [RIGHT (e)], read and assigned. *)
Definition LEFT (st : events) (e : positive) : result (option positive) :=
  let! v := load st (Some e) in Ok (ev_prev v).
Definition RIGHT (st : events) (e : positive) : result (option positive) :=
  let! v := load st (Some e) in Ok (ev_next v).
Definition put_left (e : positive) (x : option positive) (st : events) : result events :=
  store st (Some e) (set_prev x).
Definition put_right (e : positive) (x : option positive) (st : events) : result events :=
  store st (Some e) (set_next x).

(** The macros; each returns what it assigns to its pointer arguments. *)
Definition ROTATE_RIGHT (t x : positive) (st : events) : result (positive * events) :=
  let! xr := RIGHT st x in
  let! st := put_left t xr st in
  let! st := put_right x (Some t) st in
  Ok (x, st).

Definition ROTATE_LEFT (t x : positive) (st : events) : result (positive * events) :=
  let! xl := LEFT st x in
  let! st := put_right t xl st in
  let! st := put_left x (Some t) st in
  Ok (x, st).

Definition LINK_LEFT (l t : positive) (st : events)
    : result (positive * option positive * events) :=
  let! st := put_right l (Some t) st in
  let! x := RIGHT st t in
  Ok (t, x, st).

Definition LINK_RIGHT (r t : positive) (st : events)
    : result (positive * option positive * events) :=
  let! st := put_left r (Some t) st in
  let! x := LEFT st t in
  Ok (t, x, st).

(** The endless loop of [insert]. *)
Fixpoint insert_loop (fuel : nat) (time : f64) (l r t : positive) (st : events) : result events :=
  match fuel with
  | O => NoFuel
  | S fuel =>
      let! tv := load st (Some t) in
      if flt time (time_ tv) then
        match ev_prev tv with
        | None => let! st := put_left r (Some t) st in put_right l None st
        | Some x =>
            let! xv := load st (Some x) in
            let! '(t, st) := if flt time (time_ xv) then ROTATE_RIGHT t x st else Ok (t, st) in
            let! '(r, t, st) := LINK_RIGHT r t st in
            match t with
            | None => put_right l None st
            | Some t => insert_loop fuel time l r t st
            end
        end
      else
        match ev_next tv with
        | None => let! st := put_right l (Some t) st in put_left r None st
        | Some x =>
            let! xv := load st (Some x) in
            let! '(t, st) := if fle (time_ xv) time then ROTATE_LEFT t x st else Ok (t, st) in
            let! '(l, t, st) := LINK_LEFT l t st in
            match t with
            | None => put_left r None st
            | Some t => insert_loop fuel time l r t st
            end
        end
  end.

Definition splay_insert (fuel : nat) (n : positive) (st : events) (q : splayq)
    : result (events * splayq) :=
  let sz := wrap_i32 (qsize_ q + 1) in
  let! nv := load st (Some n) in
  match root_ q with
  | None =>
      let! st := put_right n None st in
      let! st := put_left n None st in
      Ok (st, SplayQ (Some n) (lookup_uid_ q) sz)
  | Some t =>
      let! st := insert_loop fuel (time_ nv) n n t st in
      let! x := LEFT st n in
      let! y := RIGHT st n in
      let! st := put_left n y st in
      let! st := put_right n x st in
      Ok (st, SplayQ (Some n) (lookup_uid_ q) sz)
  end.

(** [for (t = root_; (l = LEFT (t)); t = l)] *)
Fixpoint head_loop (fuel : nat) (t : positive) (st : events) : result positive :=
  match fuel with
  | O => NoFuel
  | S fuel =>
      let! l := LEFT st t in
      match l with None => Ok t | Some l => head_loop fuel l st end
  end.

(** The loop visits each event at most once. *)
Definition splay_head (st : events) (q : splayq) : result (option positive) :=
  match root_ q with
  | None => Ok None
  | Some t => let! e := head_loop (S (size st)) t st in Ok (Some e)
  end.

Fixpoint deque_loop (fuel : nat) (t l : positive) (st : events) : result (positive * events) :=
  match fuel with
  | O => NoFuel
  | S fuel =>
      let! ll := LEFT st l in
      match ll with
      | None =>
          let! lr := RIGHT st l in
          let! st := put_left t lr st in
          Ok (l, st)
      | Some ll =>
          let! lll := LEFT st ll in
          let! llr := RIGHT st ll in
          match lll with
          | None => let! st := put_left l llr st in Ok (ll, st)
          | Some lll =>
              let! st := put_left t (Some ll) st in
              let! llr := RIGHT st ll in
              let! st := put_left l llr st in
              let! st := put_right ll (Some l) st in
              deque_loop fuel ll lll st
          end
      end
  end.

Definition splay_deque (fuel : nat) (st : events) (q : splayq)
    : result (option positive * events * splayq) :=
  match root_ q with
  | None => Ok (None, st, q)
  | Some t =>
      let sz := wrap_i32 (qsize_ q - 1) in
      let! l := LEFT st t in
      match l with
      | None =>
          let! tr := RIGHT st t in
          Ok (Some t, st, SplayQ tr (lookup_uid_ q) sz)
      | Some l =>
          let! '(e, st) := deque_loop fuel t l st in
          Ok (Some e, st, SplayQ (Some t) (lookup_uid_ q) sz)
      end
  end.

(** An [Event **]: the root or a child of an event. *)
Variant slot := AtRoot | AtLeft (e : positive) | AtRight (e : positive).

#[export] Instance slot_eq_dec : EqDecision slot.
Proof. solve_decision. Defined.

Definition get_slot (s : slot) (st : events) (q : splayq) : result (option positive) :=
  match s with AtRoot => Ok (root_ q) | AtLeft e => LEFT st e | AtRight e => RIGHT st e end.

Definition put_slot (s : slot) (x : option positive) (st : events) (q : splayq)
    : result (events * splayq) :=
  match s with
  | AtRoot => Ok (st, SplayQ x (lookup_uid_ q) (qsize_ q))
  | AtLeft e => let! st := put_left e x st in Ok (st, q)
  | AtRight e => let! st := put_right e x st in Ok (st, q)
  end.

(** The search of [cancel] for the slot that holds [e]. *)
Fixpoint find_slot (fuel : nat) (e : positive) (ev : event) (s : slot) (st : events) (q : splayq)
    : result slot :=
  match fuel with
  | O => NoFuel
  | S fuel =>
      let! p := get_slot s st q in
      match p with
      | None => Fault Aborted
      | Some x =>
          let! xv := load st (Some x) in
          let s :=
            if flt (time_ xv) (time_ ev) || (feq (time_ ev) (time_ xv) && (uid_ xv <? uid_ ev))
            then AtRight x else AtLeft x in
          let! p := get_slot s st q in
          if bool_decide (p = Some e) then Ok s else find_slot fuel e ev s st q
      end
  end.

(** [for (; LEFT (q); p = q, q = LEFT (q))] *)
Fixpoint successor_loop (fuel : nat) (p q : positive) (st : events) : result (positive * positive) :=
  match fuel with
  | O => NoFuel
  | S fuel =>
      let! l := LEFT st q in
      match l with None => Ok (p, q) | Some l => successor_loop fuel q l st end
  end.

(** From the second test of [cancel] on: the event leaves the tree. *)
Definition splice_out (fuel : nat) (e : positive) (s : slot) (st : events) (q : splayq)
    : result (events * splayq) :=
  let! er := RIGHT st e in
  let! el := LEFT st e in
  match er, el with
  | None, _ =>
      let! '(st, q) := put_slot s el st q in
      let! st := put_left e None st in
      Ok (st, q)
  | _, None =>
      let! '(st, q) := put_slot s er st q in
      let! st := put_right e None st in
      Ok (st, q)
  | Some p, Some _ =>
      let! pl := LEFT st p in
      match pl with
      | None =>
          let! '(st, q) := put_slot s (Some p) st q in
          let! el := LEFT st e in
          let! st := put_left p el st in
          Ok (st, q)
      | Some x =>
          let! '(p, x) := successor_loop fuel p x st in
          let! '(st, q) := put_slot s (Some x) st q in
          let! xr := RIGHT st x in
          let! st := put_left p xr st in
          let! el := LEFT st e in
          let! st := put_left x el st in
          let! er := RIGHT st e in
          let! st := put_right x er st in
          let! st := put_left e None st in
          let! st := put_right e None st in
          Ok (st, q)
      end
  end.

Definition splay_cancel (fuel : nat) (e : positive) (st : events) (q : splayq)
    : result (events * splayq) :=
  let! ev := load st (Some e) in
  if uid_ ev <=? 0 then Ok (st, q)
  else
    let! s :=
      if bool_decide (root_ q = Some e) then Ok AtRoot else find_slot fuel e ev AtRoot st q in
    let! st := store st (Some e) (fun v => set_uid (- uid_ v) v) in
    let q := SplayQ (root_ q) (lookup_uid_ q) (wrap_i32 (qsize_ q - 1)) in
    splice_out fuel e s st q.

(** [uid_lookup]; the recursion is bounded by the height of the tree. *)
Fixpoint uid_lookup (fuel : nat) (u : Z) (p : option positive) (st : events)
    : result (option positive) :=
  match fuel with
  | O => NoFuel
  | S fuel =>
      match p with
      | None => Ok None
      | Some x =>
          let! v := load st (Some x) in
          if uid_ v =? u then Ok (Some x)
          else
            let! r := uid_lookup fuel u (ev_prev v) st in
            match r with
            | Some e => Ok (Some e)
            | None => uid_lookup fuel u (ev_next v) st
            end
      end
  end.

Definition splay_lookup (fuel : nat) (u : Z) (st : events) (q : splayq)
    : result (option positive * splayq) :=
  let q := SplayQ (root_ q) u (qsize_ q) in
  let! r := uid_lookup fuel (lookup_uid_ q) (root_ q) st in
  Ok (r, q).

#[export] Instance splay_queue : EventQueue splayq := {
  empty_queue := new_splay;
  eq_insert := splay_insert;
  eq_cancel := splay_cancel;
  eq_deque := splay_deque;
  eq_lookup := splay_lookup;
  eq_head st q := let! r := splay_head st q in Ok (r, q);
}.
