(* ===== verification/SplayProps.v ===== *)
(** * The splay scheduler meets the contract of an event queue

    The pointers are read as binary trees; a spine is a chain of nodes that
    leads to a hole, the way the top-down splaying, the search for the first
    event and the search for a successor go through a tree.  Trees and spines
    are stated over two pointer maps, so that what holds going right holds
    going left with the maps exchanged. *)

From stdpp Require Import base numbers list gmap sorting.
From Stdlib Require Import ZArith Lia.
From S2P Require Import Prelude.
From S2P Require Import Store.
From S2P Require Import Float64.
From S2P Require Import EventQueue.
From S2P Require Import Splay.

Local Open Scope Z_scope.

Lemma NoDup_rev {A} (l : list A) : NoDup (reverse l) <-> NoDup l.
Proof. by rewrite reverse_Permutation. Qed.

(** ** Trees *)

Inductive tree := Leaf | Node (L : tree) (e : positive) (R : tree).

Fixpoint inorder (T : tree) : list positive :=
  match T with Leaf => [] | Node L e R => inorder L ++ e :: inorder R end.

Fixpoint mirror (T : tree) : tree :=
  match T with Leaf => Leaf | Node L e R => Node (mirror R) e (mirror L) end.

Lemma inorder_mirror T : inorder (mirror T) = reverse (inorder T).
Proof.
  induction T as [|L IHL e R IHR]; [done|]. cbn [mirror inorder].
  by rewrite IHL, IHR, reverse_app, reverse_cons, <- (assoc_L (++)).
Qed.

Lemma mirror_mirror T : mirror (mirror T) = T.
Proof. induction T as [|L IHL e R IHR]; [done|]. cbn. by rewrite IHL, IHR. Qed.

Abbreviation pmap := (positive -> option (option positive)) (only parsing).
Implicit Types (f g : positive -> option (option positive)) (K : list (tree * positive)).

(** [p] is the root of [T], children being read by [f] and [g]. *)
Fixpoint tr f g (p : option positive) (T : tree) : Prop :=
  match T with
  | Leaf => p = None
  | Node L e R => p = Some e /\ exists pl pr, f e = Some pl /\ g e = Some pr /\ tr f g pl L /\ tr f g pr R
  end.

Lemma tr_mirror f g p T : tr f g p T -> tr g f p (mirror T).
Proof.
  revert p. induction T as [|L IHL e R IHR]; intros p; [done|].
  intros [-> (pl & pr & Hl & Hr & HL & HR)]. split; [done|]. exists pr, pl. auto.
Qed.

Lemma tr_agree f g f' g' p T :
  (forall k, k ∈ inorder T -> f' k = f k /\ g' k = g k) -> tr f g p T -> tr f' g' p T.
Proof.
  revert p. induction T as [|L IHL e R IHR]; intros p Ha; [done|].
  intros [-> (pl & pr & Hl & Hr & HL & HR)]. split; [done|]. cbn [inorder] in Ha.
  destruct (Ha e ltac:(apply elem_of_app; right; left)) as [E1 E2].
  exists pl, pr. rewrite E1, E2. split_and!; try done.
  - apply IHL; [|done]. intros k Hk. apply Ha, elem_of_app. by left.
  - apply IHR; [|done]. intros k Hk. apply Ha, elem_of_app. right. by right.
Qed.

Lemma tr_root f g p T : tr f g p T -> p = match T with Leaf => None | Node _ e _ => Some e end.
Proof. by destruct T; [|intros [-> _]]. Qed.

(** ** Spines *)

(** From [a], following [g] through the nodes of [K], one gets to [l]; the
    [f] children on the way are the trees of [K]. *)
Fixpoint spine f g (a : positive) K (l : positive) : Prop :=
  match K with
  | [] => l = a
  | (T, e) :: K =>
      g a = Some (Some e) /\ (exists p, f e = Some p /\ tr f g p T) /\ spine f g e K l
  end.

Definition keys K : list positive := K ≫= (fun x => inorder x.1 ++ [x.2]).

Lemma keys_cons T e K : keys ((T, e) :: K) = inorder T ++ e :: keys K.
Proof. unfold keys. cbn. by rewrite <- (assoc_L (++)). Qed.

Lemma keys_app K K' : keys (K ++ K') = keys K ++ keys K'.
Proof. apply bind_app. Qed.

Lemma keys_snoc K T e : keys (K ++ [(T, e)]) = keys K ++ inorder T ++ [e].
Proof. by rewrite keys_app, keys_cons. Qed.

(** The tree of a spine with [T] in the hole. *)
Definition plug K (T : tree) : tree := foldr (fun x T => Node x.1 x.2 T) T K.

Lemma inorder_plug K T : inorder (plug K T) = keys K ++ inorder T.
Proof.
  induction K as [|[U e] K IH]; [done|]. cbn [plug foldr inorder fst snd]. fold (plug K T).
  by rewrite IH, keys_cons, <- (assoc_L (++)).
Qed.

Lemma spine_last f g a K l : spine f g a K l -> l ∈ a :: keys K.
Proof.
  revert a. induction K as [|[T e] K IH]; intros a; [intros ->; left|].
  intros (_ & _ & Hs). rewrite keys_cons. right. apply elem_of_app. right. by apply IH.
Qed.

Lemma spine_snoc f g a K l T e p :
  spine f g a K l -> g l = Some (Some e) -> f e = Some p -> tr f g p T ->
  spine f g a (K ++ [(T, e)]) e.
Proof.
  revert a. induction K as [|[U k] K IH]; intros a.
  - intros -> Hg Hf HT. split; [done|]. split; [by exists p|done].
  - intros (Hg' & Hp & Hs) Hg Hf HT. split; [done|]. split; [done|]. by apply IH.
Qed.

(** Filling the hole. *)
Lemma spine_plug f g a K l p T :
  spine f g a K l -> g l = Some p -> tr f g p T -> exists q, g a = Some q /\ tr f g q (plug K T).
Proof.
  revert a. induction K as [|[U k] K IH]; intros a.
  - intros -> Hg HT. by exists p.
  - intros (Hg' & (q & Hf & HU) & Hs) Hg HT. destruct (IH k Hs Hg HT) as (r & Hr & HK).
    exists (Some k). split; [done|]. split; [done|]. by exists q, r.
Qed.

(** Writes outside the spine, and to the [g] child of its last node. *)
Lemma spine_agree f g f' g' a K l :
  NoDup (a :: keys K) ->
  (forall k, k ∈ keys K -> f' k = f k) -> (forall k, k ∈ a :: keys K -> k <> l -> g' k = g k) ->
  spine f g a K l -> spine f' g' a K l.
Proof.
  revert a. induction K as [|[U k] K IH]; intros a; [done|]. rewrite keys_cons.
  intros Hnd Hf Hg (Hga & (q & Hfq & HU) & Hs).
  apply NoDup_cons in Hnd as [Ha Hnd]. apply NoDup_app in Hnd as (HndU & Hd & Hnd).
  pose proof (spine_last _ _ _ _ _ Hs) as Hl.
  assert (Hal : a <> l) by (intros ->; apply Ha, elem_of_app; by right).
  split; [|split].
  - rewrite Hg; [done|left|done].
  - exists q. rewrite Hf by (apply elem_of_app; right; left). split; [done|].
    eapply tr_agree; [|exact HU]. intros j Hj. split.
    + apply Hf, elem_of_app. by left.
    + apply Hg; [right; apply elem_of_app; by left|]. intros ->. by apply (Hd l).
  - apply IH; [done| | |done].
    + intros j Hj. apply Hf, elem_of_app. right. by right.
    + intros j Hj. apply Hg. right. apply elem_of_app. by right.
Qed.

(** The spine that ends where the [g] children end. *)
Fixpoint end_spine (T : tree) : list (tree * positive) :=
  match T with Leaf => [] | Node L e R => (L, e) :: end_spine R end.

Lemma plug_end_spine T : plug (end_spine T) Leaf = T.
Proof. induction T as [|L _ e R IH]; [done|]. cbn. f_equal. exact IH. Qed.

(** ** The three parts of the tree during an insertion *)

(** Under the new root [n]: the spine [KA] of what goes to one side, [KB] of
    what goes to the other, and the tree [T] that remains between them. *)
Record parts f g (n : positive) KA (a : positive) KB (b : positive) (p : option positive) (T : tree)
    : Prop := {
  pt_a : spine f g n KA a;
  pt_b : spine g f n KB b;
  pt_t : tr f g p T;
  pt_nd : NoDup (n :: keys KA ++ inorder T ++ reverse (keys KB));
}.

Lemma parts_sym f g n KA a KB b p T :
  parts f g n KA a KB b p T -> parts g f n KB b KA a p (mirror T).
Proof.
  intros [Ha Hb Ht Hnd]. split; [done|done|by apply tr_mirror|]. rewrite inorder_mirror.
  apply NoDup_cons in Hnd as [Hn Hnd]. apply NoDup_cons. split.
  - intros Hin. apply Hn. rewrite !elem_of_app, !elem_of_reverse in *. tauto.
  - apply NoDup_rev. by rewrite !reverse_app, !reverse_involutive, <- (assoc_L (++)).
Qed.

Section parts.
Context (f g f' g' : positive -> option (option positive)) (n a b : positive).
Context (KA KB : list (tree * positive)).

Lemma parts_NoDup (T : tree) : NoDup (n :: keys KA ++ inorder T ++ reverse (keys KB)) ->
  NoDup (n :: keys KA) /\ NoDup (n :: keys KB) /\ NoDup (inorder T) /\
  (forall k, k ∈ n :: keys KA -> k ∉ inorder T /\ k ∉ keys KB) /\
  (forall k, k ∈ n :: keys KB -> k ∉ inorder T /\ k ∉ keys KA).
Proof.
  intros [Hn (HA & Hd & (HT & Hd' & HB)%NoDup_app)%NoDup_app]%NoDup_cons.
  rewrite !elem_of_app, elem_of_reverse in Hn. setoid_rewrite elem_of_app in Hd.
  setoid_rewrite elem_of_reverse in Hd. setoid_rewrite elem_of_reverse in Hd'.
  rewrite NoDup_rev in HB.
  rewrite !NoDup_cons. split; [tauto|]. split; [tauto|]. split; [done|].
  split; intros k [->|Hk]%elem_of_cons; [tauto|specialize (Hd k Hk); tauto|tauto|].
  split; intros Hk'; [by apply (Hd' k)|]. specialize (Hd k Hk'). tauto.
Qed.

(** The root of [T] and its [f] subtree are linked to the first side. *)
Lemma parts_link t L R :
  parts f g n KA a KB b (Some t) (Node L t R) ->
  (forall k, f' k = f k) -> (forall k, g' k = if decide (k = a) then Some (Some t) else g k) ->
  exists pr, g' t = Some pr /\ parts f' g' n (KA ++ [(L, t)]) t KB b pr R.
Proof.
  intros [Ha Hb [_ (pl & pr & Hl & Hr & HL & HR)] Hnd] Hf Hg.
  destruct (parts_NoDup _ Hnd) as (HndA & HndB & HndT & HdA & HdB).
  cbn [inorder] in *. pose proof (spine_last _ _ _ _ _ Ha) as Hla.
  assert (Hat : a <> t).
  { intros ->. destruct (HdA t Hla) as [Hn _]. apply Hn, elem_of_app. right. left. }
  assert (HnT : forall k, k ∈ inorder L ++ t :: inorder R -> k <> a).
  { intros k Hk ->. by destruct (HdA a Hla). }
  assert (Hgt : g' t = Some pr) by (by rewrite Hg, decide_False).
  assert (Htr : forall U p, (forall k, k ∈ inorder U -> k ∈ inorder L ++ t :: inorder R) ->
    tr f g p U -> tr f' g' p U).
  { intros U p HU. apply tr_agree. intros k Hk. rewrite Hf, Hg, decide_False; [done|].
    by apply HnT, HU. }
  exists pr. split; [done|]. split.
  - eapply (spine_snoc f' g' n KA a); [|by rewrite Hg, decide_True|by rewrite Hf|].
    + eapply spine_agree; [done| | |exact Ha]; intros k Hk; [by rewrite Hf|]. intros Hne.
      by rewrite Hg, decide_False.
    + apply Htr; [|done]. intros k Hk. apply elem_of_app. by left.
  - eapply spine_agree; [done| | |exact Hb]; intros k Hk.
    + rewrite Hg, decide_False; [done|]. intros ->. by destruct (HdA a Hla).
    + by rewrite Hf.
  - apply Htr; [|done]. intros k Hk. apply elem_of_app. right. by right.
  - rewrite keys_snoc. rewrite <- !(assoc_L (++)) in Hnd. rewrite <- !(assoc_L (++)). exact Hnd.
Qed.

(** The parts [TA] and [TB] of what remains fill the two holes. *)
Lemma parts_close p T pa TA pb TB :
  parts f g n KA a KB b p T -> inorder T = inorder TA ++ inorder TB ->
  tr f g pa TA -> tr f g pb TB ->
  (forall k, f' k = if decide (k = b) then Some pb else f k) ->
  (forall k, g' k = if decide (k = a) then Some pa else g k) ->
  exists qa qb, g' n = Some qa /\ f' n = Some qb /\ tr f' g' qa (plug KA TA) /\
    tr f' g' qb (mirror (plug KB (mirror TB))).
Proof.
  intros [Ha Hb _ Hnd] HT HTA HTB Hf Hg.
  destruct (parts_NoDup _ Hnd) as (HndA & HndB & _ & HdA & HdB). rewrite HT in *.
  pose proof (spine_last _ _ _ _ _ Ha) as Hla. pose proof (spine_last _ _ _ _ _ Hb) as Hlb.
  assert (Htr : forall U q, (forall k, k ∈ inorder U -> k ∈ inorder TA ++ inorder TB) ->
    tr f g q U -> tr f' g' q U).
  { intros U q HU. apply tr_agree. intros k Hk.
    rewrite Hf, Hg, !decide_False; [done| |]; intros ->.
    - destruct (HdA a Hla) as [Hn _]. by apply Hn, HU.
    - destruct (HdB b Hlb) as [Hn _]. by apply Hn, HU. }
  assert (Ha' : spine f' g' n KA a).
  { eapply spine_agree; [done| | |exact Ha]; intros k Hk.
    - rewrite Hf, decide_False; [done|]. intros ->. by destruct (HdB b Hlb).
    - intros Hne. by rewrite Hg, decide_False. }
  assert (Hb' : spine g' f' n KB b).
  { eapply spine_agree; [done| | |exact Hb]; intros k Hk.
    - rewrite Hg, decide_False; [done|]. intros ->. by destruct (HdA a Hla).
    - intros Hne. by rewrite Hf, decide_False. }
  destruct (spine_plug _ _ _ _ _ pa TA Ha') as (qa & Hqa & HqaT).
  { by rewrite Hg, decide_True. }
  { apply Htr; [|done]. intros k Hk. apply elem_of_app. by left. }
  destruct (spine_plug _ _ _ _ _ pb (mirror TB) Hb') as (qb & Hqb & HqbT).
  { by rewrite Hf, decide_True. }
  { apply tr_mirror, Htr; [|done]. intros k Hk. apply elem_of_app. by right. }
  exists qa, qb. split_and!; try done. by apply tr_mirror in HqbT.
Qed.

(** A rotation. *)
Lemma parts_rotate p t x L M R :
  parts f g n KA a KB b p (Node (Node L x M) t R) ->
  (forall k, f' k = if decide (k = t) then g x else f k) ->
  (forall k, g' k = if decide (k = x) then Some (Some t) else g k) ->
  parts f' g' n KA a KB b (Some x) (Node L x (Node M t R)).
Proof.
  intros [Ha Hb [_ (pl & pr & Hl & Hr & [-> (qx & qm & Hx & Hm & HL & HM)] & HR)] Hnd] Hf Hg.
  destruct (parts_NoDup _ Hnd) as (HndA & HndB & HndT & HdA & HdB). cbn [inorder] in *.
  rewrite <- (assoc_L (++)) in HndT, Hnd. cbn [app] in HndT, Hnd.
  assert (Hin : x ∈ (inorder L ++ x :: inorder M) ++ t :: inorder R /\
                t ∈ (inorder L ++ x :: inorder M) ++ t :: inorder R).
  { rewrite !elem_of_app, !elem_of_cons. clear. tauto. }
  destruct Hin as [Hinx Hint].
  assert (Hout : forall k, k ∈ n :: keys KA \/ k ∈ n :: keys KB -> k <> t /\ k <> x).
  { intros k Hk. split; intros ->; destruct Hk as [Hk|Hk];
      (destruct (HdA _ Hk) as [Hn _] || destruct (HdB _ Hk) as [Hn _]); by apply Hn. }
  apply NoDup_app in HndT as (HndL & HdL & [Hxn HndT]%NoDup_cons).
  apply NoDup_app in HndT as (HndM & HdM & [Htn HndR]%NoDup_cons).
  assert (Hxt : x <> t) by (intros ->; apply Hxn, elem_of_app; right; left).
  assert (Htr : forall U q, (forall k, k ∈ inorder U -> k <> t /\ k <> x) -> tr f g q U -> tr f' g' q U).
  { intros U q HU. apply tr_agree. intros k Hk. destruct (HU k Hk). by rewrite Hf, Hg, !decide_False. }
  split.
  - eapply spine_agree; [done| | |exact Ha]; intros k Hk.
    + rewrite Hf, decide_False; [done|]. apply Hout. left. by right.
    + intros _. rewrite Hg, decide_False; [done|]. apply Hout. by left.
  - eapply spine_agree; [done| | |exact Hb]; intros k Hk.
    + rewrite Hg, decide_False; [done|]. apply Hout. right. by right.
    + intros _. rewrite Hf, decide_False; [done|]. apply Hout. by right.
  - split; [done|]. exists qx, (Some t). rewrite Hf, Hg, decide_False, decide_True by done.
    split; [done|]. split; [done|]. split.
    + apply Htr; [|done]. intros k Hk. split; intros ->; apply (HdL _ Hk);
        [right; apply elem_of_app; right|]; left.
    + split; [done|]. exists qm, pr. rewrite Hf, Hg, decide_True, decide_False by done.
      split; [done|]. split; [done|]. split.
      * apply Htr; [|done]. intros k Hk. split; intros ->; [by apply (HdM _ Hk); left|].
        apply Hxn, elem_of_app. by left.
      * apply Htr; [|done]. intros k Hk. split; intros ->; [done|].
        apply Hxn, elem_of_app. right. by right.
  - cbn [inorder]. repeat (rewrite <- (assoc_L (++)) || cbn [app]).
    repeat (rewrite <- (assoc_L (++)) in Hnd || cbn [app] in Hnd). exact Hnd.
Qed.
End parts.

(** ** The children in memory *)

Definition Lp (st : events) (k : positive) : option (option positive) := ev_prev <$> st !! k.
Definition Rp (st : events) (k : positive) : option (option positive) := ev_next <$> st !! k.

Lemma LEFT_ok st e p : Lp st e = Some p -> LEFT st e = Ok p.
Proof. unfold Lp, LEFT, load. destruct (st !! e); [|done]. cbn. by intros [= ->]. Qed.
Lemma RIGHT_ok st e p : Rp st e = Some p -> RIGHT st e = Ok p.
Proof. unfold Rp, RIGHT, load. destruct (st !! e); [|done]. cbn. by intros [= ->]. Qed.

Lemma load_children st e p q : Lp st e = Some p -> Rp st e = Some q ->
  exists v, load st (Some e) = Ok v /\ ev_prev v = p /\ ev_next v = q /\ time_ v = tm st e.
Proof.
  unfold Lp, Rp, load, tm. destruct (st !! e) as [v|]; [|done]. intros [= <-] [= <-]. by exists v.
Qed.

Lemma put_left_ok st e x p : Lp st e = Some p ->
  exists st', put_left e x st = Ok st' /\ same_data st st' /\ (forall k, Rp st' k = Rp st k) /\
    (forall k, Lp st' k = if decide (k = e) then Some x else Lp st k).
Proof.
  unfold Lp, Rp, put_left, store. destruct (st !! e) as [v|] eqn:Hv; [|done]. intros _.
  eexists. split; [done|]. split; [|split]; intros k; destruct (decide (k = e)) as [->|];
    rewrite ?lookup_insert_eq, ?lookup_insert_ne by done; try rewrite Hv; done.
Qed.

Lemma put_right_ok st e x p : Rp st e = Some p ->
  exists st', put_right e x st = Ok st' /\ same_data st st' /\ (forall k, Lp st' k = Lp st k) /\
    (forall k, Rp st' k = if decide (k = e) then Some x else Rp st k).
Proof.
  unfold Lp, Rp, put_right, store. destruct (st !! e) as [v|] eqn:Hv; [|done]. intros _.
  eexists. split; [done|]. split; [|split]; intros k; destruct (decide (k = e)) as [->|];
    rewrite ?lookup_insert_eq, ?lookup_insert_ne by done; try rewrite Hv; done.
Qed.

(** An event has both children or none. *)
Lemma Lp_Rp st e p : Lp st e = Some p -> exists q, Rp st e = Some q.
Proof. unfold Lp, Rp. destruct (st !! e); [|done]. by eexists. Qed.
Lemma Rp_Lp st e p : Rp st e = Some p -> exists q, Lp st e = Some q.
Proof. unfold Lp, Rp. destruct (st !! e); [|done]. by eexists. Qed.

(** The last node of a spine is an event, if the first is. *)
Lemma spine_end f g a K l : spine f g a K l -> l = a \/ exists p, f l = Some p.
Proof.
  revert a. induction K as [|[T e] K IH]; intros a; [by left|].
  intros (_ & (p & Hp & _) & Hs). destruct (IH e Hs) as [->|?]; [|by right]. right. by exists p.
Qed.

Lemma rotate_right_ok st n KL l KR r p t x L M R :
  parts (Lp st) (Rp st) n KL l KR r p (Node (Node L x M) t R) ->
  exists st', ROTATE_RIGHT t x st = Ok (x, st') /\ same_data st st' /\
    parts (Lp st') (Rp st') n KL l KR r (Some x) (Node L x (Node M t R)).
Proof.
  intros Hp. pose proof Hp as [_ _ [_ (pl & pr & Hl & Hr & [-> (qx & qm & Hx & Hm & _)] & _)] _].
  unfold ROTATE_RIGHT. rewrite (RIGHT_ok _ _ _ Hm). cbn [rbind].
  destruct (put_left_ok st t qm _ Hl) as (st1 & -> & D1 & R1 & L1). cbn [rbind].
  destruct (put_right_ok st1 x (Some t) qm) as (st2 & -> & D2 & L2 & R2); [by rewrite R1|]. cbn [rbind].
  exists st2. split; [done|]. split; [by eapply same_data_trans|].
  eapply parts_rotate; [exact Hp| |]; intros k.
  - by rewrite L2, L1, Hm.
  - by rewrite R2, R1.
Qed.

Lemma rotate_left_ok st n KL l KR r p t x L M R :
  parts (Lp st) (Rp st) n KL l KR r p (Node L t (Node M x R)) ->
  exists st', ROTATE_LEFT t x st = Ok (x, st') /\ same_data st st' /\
    parts (Lp st') (Rp st') n KL l KR r (Some x) (Node (Node L t M) x R).
Proof.
  intros Hp. pose proof Hp as [_ _ [_ (pl & pr & Hl & Hr & _ & [-> (qm & qx & Hm & Hx & _)])] _].
  unfold ROTATE_LEFT. rewrite (LEFT_ok _ _ _ Hm). cbn [rbind].
  destruct (put_right_ok st t qm _ Hr) as (st1 & -> & D1 & L1 & R1). cbn [rbind].
  destruct (put_left_ok st1 x (Some t) qm) as (st2 & -> & D2 & R2 & L2); [by rewrite L1|]. cbn [rbind].
  exists st2. split; [done|]. split; [by eapply same_data_trans|].
  apply parts_sym in Hp. cbn [mirror] in Hp.
  eapply parts_rotate in Hp; [apply parts_sym in Hp; cbn [mirror] in Hp; rewrite !mirror_mirror in Hp; exact Hp| |];
    intros k; cbn beta.
  - by rewrite R2, R1, Hm.
  - by rewrite L2, L1.
Qed.

Lemma link_left_ok st n KL l KR r t L R :
  is_Some (st !! n) -> parts (Lp st) (Rp st) n KL l KR r (Some t) (Node L t R) ->
  exists st' p, LINK_LEFT l t st = Ok (t, p, st') /\ same_data st st' /\ is_Some (st' !! n) /\
    Rp st' t = Some p /\ parts (Lp st') (Rp st') n (KL ++ [(L, t)]) t KR r p R.
Proof.
  intros [nv Hnv] Hp.
  assert (Hl : exists q, Rp st l = Some q).
  { destruct (spine_end _ _ _ _ _ (pt_a _ _ _ _ _ _ _ _ _ Hp)) as [->|[q Hq]].
    - unfold Rp. rewrite Hnv. by eexists.
    - by eapply Lp_Rp. }
  destruct Hl as [q Hq]. unfold LINK_LEFT.
  destruct (put_right_ok st l (Some t) q Hq) as (st' & -> & D & HL & HR). cbn [rbind].
  destruct (parts_link _ _ (Lp st') (Rp st') _ _ _ _ _ _ _ _ Hp HL HR) as (pr & Hpr & Hp').
  rewrite (RIGHT_ok _ _ _ Hpr). exists st', pr. split; [done|]. split; [done|]. split; [|done].
  specialize (D n). rewrite Hnv in D. by destruct (st' !! n).
Qed.

Lemma link_right_ok st n KL l KR r t L R :
  is_Some (st !! n) -> parts (Lp st) (Rp st) n KL l KR r (Some t) (Node L t R) ->
  exists st' p, LINK_RIGHT r t st = Ok (t, p, st') /\ same_data st st' /\ is_Some (st' !! n) /\
    Lp st' t = Some p /\ parts (Lp st') (Rp st') n KL l (KR ++ [(mirror R, t)]) t p L.
Proof.
  intros [nv Hnv] Hp.
  assert (Hr : exists q, Lp st r = Some q).
  { destruct (spine_end _ _ _ _ _ (pt_b _ _ _ _ _ _ _ _ _ Hp)) as [->|[q Hq]].
    - unfold Lp. rewrite Hnv. by eexists.
    - by eapply Rp_Lp. }
  destruct Hr as [q Hq]. unfold LINK_RIGHT.
  destruct (put_left_ok st r (Some t) q Hq) as (st' & -> & D & HR & HL). cbn [rbind].
  apply parts_sym in Hp. cbn [mirror] in Hp.
  destruct (parts_link _ _ (Rp st') (Lp st') _ _ _ _ _ _ _ _ Hp HR HL) as (pr & Hpr & Hp').
  rewrite (LEFT_ok _ _ _ Hpr). apply parts_sym in Hp'. rewrite mirror_mirror in Hp'.
  exists st', pr. split; [done|]. split; [done|]. split; [|done].
  specialize (D n). rewrite Hnv in D. by destruct (st' !! n).
Qed.

(** ** The insertion loop *)

(** Under [n], the events not later than [time] on one side and the later
    ones on the other. *)
Definition halves (t : positive -> f64) (time : f64) (n : positive) (xs : list positive)
    (st : events) : Prop :=
  exists qa qb A B, Rp st n = Some qa /\ Lp st n = Some qb /\ tr (Lp st) (Rp st) qa A /\
    tr (Lp st) (Rp st) qb B /\ xs = inorder A ++ inorder B /\
    Forall (fun x => flt time (t x) = false) (inorder A) /\
    Forall (fun x => flt time (t x) = true) (inorder B).

(** Both holes are filled. *)
Lemma halves_close t time st st' n KL l KR r p pa pb T TA TB :
  parts (Lp st) (Rp st) n KL l KR r p T -> inorder T = inorder TA ++ inorder TB ->
  tr (Lp st) (Rp st) pa TA -> tr (Lp st) (Rp st) pb TB ->
  (forall k, Lp st' k = if decide (k = r) then Some pb else Lp st k) ->
  (forall k, Rp st' k = if decide (k = l) then Some pa else Rp st k) ->
  Forall (fun x => flt time (t x) = false) (keys KL ++ inorder TA) ->
  Forall (fun x => flt time (t x) = true) (inorder TB ++ reverse (keys KR)) ->
  halves t time n (keys KL ++ inorder T ++ reverse (keys KR)) st'.
Proof.
  intros Hp HT HA HB HL HR FA FB.
  destruct (parts_close _ _ (Lp st') (Rp st') _ _ _ _ _ _ _ _ _ _ _ Hp HT HA HB HL HR)
    as (qa & qb & Hqa & Hqb & H1 & H2).
  exists qa, qb, (plug KL TA), (mirror (plug KR (mirror TB))).
  rewrite inorder_plug, inorder_mirror, inorder_plug, inorder_mirror, reverse_app, reverse_involutive.
  split_and!; try done. by rewrite HT, <- !(assoc_L (++)).
Qed.

Lemma reverse_keys_snoc K R t : reverse (keys (K ++ [(mirror R, t)])) = t :: inorder R ++ reverse (keys K).
Proof. by rewrite keys_snoc, inorder_mirror, !reverse_app, reverse_involutive. Qed.

Lemma tr_Some f g t T : tr f g (Some t) T -> exists L R, T = Node L t R.
Proof. destruct T as [|L e R]; [done|]. intros [[= ->] _]. by exists L, R. Qed.

Lemma is_Some_data st st' n : same_data st st' -> is_Some (st !! n) -> is_Some (st' !! n).
Proof. intros D [v Hv]. specialize (D n). rewrite Hv in D. by destruct (st' !! n). Qed.

(** The end of the loop where an outer half is empty. *)
Lemma stop_left t time st n KL l KR r :
  is_Some (st !! n) -> parts (Lp st) (Rp st) n KL l KR r None Leaf -> Lp st r = Some None ->
  Forall (fun x => flt time (t x) = false) (keys KL) ->
  Forall (fun x => flt time (t x) = true) (reverse (keys KR)) ->
  exists st', put_right l None st = Ok st' /\ same_data st st' /\
    halves t time n (keys KL ++ reverse (keys KR)) st'.
Proof.
  intros [nv Hnv] Hp Hr FA FB.
  assert (Hl : exists q, Rp st l = Some q).
  { destruct (spine_end _ _ _ _ _ (pt_a _ _ _ _ _ _ _ _ _ Hp)) as [->|[q Hq]].
    - unfold Rp. rewrite Hnv. by eexists.
    - by eapply Lp_Rp. }
  destruct Hl as [q Hq]. destruct (put_right_ok st l None q Hq) as (st' & -> & D & HL & HR).
  exists st'. split; [done|]. split; [done|].
  apply (halves_close t time st st' n KL l KR r None None None Leaf Leaf Leaf Hp); try done.
  - intros k. rewrite HL. by destruct (decide (k = r)) as [->|].
  - by rewrite app_nil_r.
Qed.

Lemma stop_right t time st n KL l KR r :
  is_Some (st !! n) -> parts (Lp st) (Rp st) n KL l KR r None Leaf -> Rp st l = Some None ->
  Forall (fun x => flt time (t x) = false) (keys KL) ->
  Forall (fun x => flt time (t x) = true) (reverse (keys KR)) ->
  exists st', put_left r None st = Ok st' /\ same_data st st' /\
    halves t time n (keys KL ++ reverse (keys KR)) st'.
Proof.
  intros [nv Hnv] Hp Hl FA FB.
  assert (Hr : exists q, Lp st r = Some q).
  { destruct (spine_end _ _ _ _ _ (pt_b _ _ _ _ _ _ _ _ _ Hp)) as [->|[q Hq]].
    - unfold Lp. rewrite Hnv. by eexists.
    - by eapply Rp_Lp. }
  destruct Hr as [q Hq]. destruct (put_left_ok st r None q Hq) as (st' & -> & D & HR & HL).
  exists st'. split; [done|]. split; [done|].
  apply (halves_close t time st st' n KL l KR r None None None Leaf Leaf Leaf Hp); try done.
  - intros k. rewrite HR. by destruct (decide (k = l)) as [->|].
  - by rewrite app_nil_r.
Qed.

(** A leaf on the side to go to: the whole tree goes to the other side. *)
Lemma stop_both st n KL l KR r p T x y :
  is_Some (st !! n) -> parts (Lp st) (Rp st) n KL l KR r p T ->
  (exists st', (let! st := put_left r x st in put_right l y st) = Ok st' /\ same_data st st' /\
    (forall k, Lp st' k = if decide (k = r) then Some x else Lp st k) /\
    (forall k, Rp st' k = if decide (k = l) then Some y else Rp st k)) /\
  (exists st', (let! st := put_right l y st in put_left r x st) = Ok st' /\ same_data st st' /\
    (forall k, Lp st' k = if decide (k = r) then Some x else Lp st k) /\
    (forall k, Rp st' k = if decide (k = l) then Some y else Rp st k)).
Proof.
  intros [nv Hnv] Hp.
  assert (Hl : exists q, Rp st l = Some q).
  { destruct (spine_end _ _ _ _ _ (pt_a _ _ _ _ _ _ _ _ _ Hp)) as [->|[q Hq]].
    - unfold Rp. rewrite Hnv. by eexists.
    - by eapply Lp_Rp. }
  assert (Hr : exists q, Lp st r = Some q).
  { destruct (spine_end _ _ _ _ _ (pt_b _ _ _ _ _ _ _ _ _ Hp)) as [->|[q Hq]].
    - unfold Lp. rewrite Hnv. by eexists.
    - by eapply Rp_Lp. }
  destruct Hl as [q Hq], Hr as [q' Hq']. split.
  - destruct (put_left_ok st r x q' Hq') as (st1 & -> & D1 & R1 & L1). cbn [rbind].
    destruct (put_right_ok st1 l y q) as (st2 & -> & D2 & L2 & R2); [by rewrite R1|].
    exists st2. split; [done|]. split; [by eapply same_data_trans|].
    split; intros k; [by rewrite L2|by rewrite R2, R1].
  - destruct (put_right_ok st l y q Hq) as (st1 & -> & D1 & L1 & R1). cbn [rbind].
    destruct (put_left_ok st1 r x q') as (st2 & -> & D2 & R2 & L2); [by rewrite L1|].
    exists st2. split; [done|]. split; [by eapply same_data_trans|].
    split; intros k; [by rewrite L2, L1|by rewrite R2].
Qed.

(** What an ordered tree says of its two sides. *)
Lemma in_order_node t L e R :
  in_order t (inorder L ++ e :: inorder R) ->
  in_order t (inorder L) /\ in_order t (inorder R) /\
  (forall x, x ∈ inorder L -> fle (t x) (t e) = true) /\ (forall x, x ∈ inorder R -> fle (t e) (t x) = true).
Proof.
  intros Ho. apply StronglySorted_app in Ho as (Hx & HL & HR).
  apply StronglySorted_inv in HR as [HR HF]. rewrite Forall_forall in HF.
  split_and!; try done. intros x Hin. apply Hx; [done|left].
Qed.

Lemma insert_loop_spec fuel time n l r t st KL KR T tf :
  parts (Lp st) (Rp st) n KL l KR r (Some t) T -> is_Some (st !! n) ->
  (length (inorder T) < fuel)%nat -> (forall k, tm st k = tf k) -> in_order tf (inorder T) ->
  is_nan time = false -> Forall (fun x => is_nan (tf x) = false) (inorder T) ->
  Forall (fun x => flt time (tf x) = false) (keys KL) ->
  Forall (fun x => flt time (tf x) = true) (reverse (keys KR)) ->
  exists st', insert_loop fuel time l r t st = Ok st' /\ same_data st st' /\
    halves tf time n (keys KL ++ inorder T ++ reverse (keys KR)) st'.
Proof.
  revert l r t st KL KR T. induction fuel as [|fuel IH]; [intros; lia|].
  intros l r t st KL KR T Hp Hn Hf Htm Ho Hnt HnT FA FB. cbn [insert_loop].
  destruct (tr_Some _ _ _ _ (pt_t _ _ _ _ _ _ _ _ _ Hp)) as (L & R & ->).
  pose proof (pt_t _ _ _ _ _ _ _ _ _ Hp) as [_ (pl & pr & Hl & Hr & HL & HR)].
  destruct (load_children _ _ _ _ Hl Hr) as (tv & -> & Htl & Htr & Htt). cbn [rbind].
  rewrite Htl, Htr, Htt, Htm. cbn [inorder] in *. pose proof (in_order_node _ _ _ _ Ho) as (HoL & HoR & HleL & HleR).
  rewrite Forall_app, Forall_cons in HnT. destruct HnT as (HnL & Hnte & HnR).
  rewrite Forall_forall in HnL, HnR.
  destruct (flt time (tf t)) eqn:Et.
  - assert (FR : Forall (fun x => flt time (tf x) = true) (t :: inorder R)).
    { constructor; [done|]. apply Forall_forall. intros x Hx. eapply flt_le_trans; [exact Et|by apply HleR]. }
    destruct L as [|Lx x M].
    + cbn in HL. subst pl. cbn [inorder app].
      destruct (stop_both st n KL l KR r _ _ (Some t) None Hn Hp) as [(st' & -> & D & E1 & E2) _].
      exists st'. split; [done|]. split; [done|].
      eapply (halves_close tf time st st' n KL l KR r _ None (Some t) _ Leaf (Node Leaf t R) Hp); try done.
      * split; [done|]. by exists None, pr.
      * by rewrite app_nil_r.
      * apply Forall_app. by split.
    + pose proof HL as [-> (qx & qm & Hqx & Hqm & _)].
      destruct (load_children _ _ _ _ Hqx Hqm) as (xv & -> & _ & _ & Hxt). cbn [rbind]. rewrite Hxt, Htm.
      cbn [inorder] in *.
      assert (Hrot : exists t' st1 L' R',
        (if flt time (tf x) then ROTATE_RIGHT t x st else Ok (t, st)) = Ok (t', st1) /\ same_data st st1 /\
        parts (Lp st1) (Rp st1) n KL l KR r (Some t') (Node L' t' R') /\
        inorder (Node L' t' R') = (inorder Lx ++ x :: inorder M) ++ t :: inorder R /\
        Forall (fun x => flt time (tf x) = true) (t' :: inorder R')).
      { destruct (flt time (tf x)) eqn:Ex.
        - destruct (rotate_right_ok st n KL l KR r _ t x Lx M R Hp) as (st1 & -> & D & Hp1).
          exists x, st1, Lx, (Node M t R). split; [done|]. split; [done|]. split; [done|]. cbn [inorder].
          split; [by rewrite <- (assoc_L (++))|]. constructor; [done|]. apply Forall_app. split; [|done].
          apply in_order_node in HoL as (_ & _ & _ & HxM). apply Forall_forall. intros y Hy.
          eapply flt_le_trans; [exact Ex|by apply HxM].
        - exists t, st, (Node Lx x M), R. by split_and!. }
      destruct Hrot as (t' & st1 & L' & R' & -> & D1 & Hp1 & Ein & FR'). cbn [rbind].
      destruct (link_right_ok st1 n KL l KR r t' L' R') as (st2 & p & -> & D2 & Hn2 & Hp2t & Hp2);
        [by eapply is_Some_data|done|]. cbn [rbind].
      assert (D : same_data st st2) by (by eapply same_data_trans).
      assert (FB' : Forall (fun x => flt time (tf x) = true) (reverse (keys (KR ++ [(mirror R', t')])))).
      { rewrite reverse_keys_snoc, app_comm_cons. apply Forall_app. by split. }
      assert (Exs : keys KL ++ (inorder Lx ++ x :: inorder M) ++ t :: inorder R ++ reverse (keys KR) =
        keys KL ++ inorder L' ++ reverse (keys (KR ++ [(mirror R', t')]))).
      { rewrite reverse_keys_snoc. f_equal. rewrite !app_comm_cons, !(assoc_L (++)). f_equal.
        rewrite <- Ein. done. }
      rewrite <- (assoc_L (++) _ (t :: inorder R)). cbn [app]. rewrite Exs.
      rewrite <- Ein in Ho, Hf. cbn [inorder] in Ho, Hf. apply in_order_node in Ho as (Ho' & _).
      destruct p as [t2|].
      * destruct (IH l t' t2 st2 KL (KR ++ [(mirror R', t')]) L' Hp2 Hn2) as (st3 & -> & D3 & Hh); try done.
        { rewrite length_app in Hf. cbn [length] in Hf. lia. }
        { intros k. by rewrite (same_data_tm _ _ _ D). }
        { apply Forall_forall. intros y Hy. assert (Hy' : y ∈ inorder (Node L' t' R')).
          { apply elem_of_app. by left. }
          rewrite Ein in Hy'. apply elem_of_app in Hy' as [Hy'|[->|Hy']%elem_of_cons]; auto. }
        exists st3. split; [done|]. split; [by eapply same_data_trans|done].
      * pose proof (pt_t _ _ _ _ _ _ _ _ _ Hp2) as HL'. destruct L' as [|? ? ?]; [|by destruct HL'].
        destruct (stop_left tf time st2 n KL l (KR ++ [(mirror R', t')]) t') as (st3 & -> & D3 & Hh); try done.
        exists st3. split; [done|]. split; [by eapply same_data_trans|done].
  - assert (FL : Forall (fun x => flt time (tf x) = false) (inorder L ++ [t])).
    { apply Forall_app. split; [|by constructor]. apply Forall_forall. intros x Hx.
      apply fle_not_lt. eapply fle_trans; [by apply HleL|]. by apply flt_false_le. }
    destruct R as [|M x Rx].
    + cbn in HR. subst pr. cbn [inorder] in *.
      destruct (stop_both st n KL l KR r _ _ None (Some t) Hn Hp) as [_ (st' & -> & D & E1 & E2)].
      exists st'. split; [done|]. split; [done|].
      eapply (halves_close tf time st st' n KL l KR r _ (Some t) None _ (Node L t Leaf) Leaf Hp); try done.
      * cbn [inorder]. by rewrite app_nil_r.
      * split; [done|]. by exists pl, None.
      * apply Forall_app. by split.
    + pose proof HR as [-> (qm & qx & Hqm & Hqx & _)].
      destruct (load_children _ _ _ _ Hqm Hqx) as (xv & -> & _ & _ & Hxt). cbn [rbind]. rewrite Hxt, Htm.
      cbn [inorder] in *.
      assert (Hrot : exists t' st1 L' R',
        (if fle (tf x) time then ROTATE_LEFT t x st else Ok (t, st)) = Ok (t', st1) /\ same_data st st1 /\
        parts (Lp st1) (Rp st1) n KL l KR r (Some t') (Node L' t' R') /\
        inorder (Node L' t' R') = inorder L ++ t :: inorder M ++ x :: inorder Rx /\
        Forall (fun x => flt time (tf x) = false) (inorder L' ++ [t'])).
      { destruct (fle (tf x) time) eqn:Ex.
        - destruct (rotate_left_ok st n KL l KR r _ t x L M Rx Hp) as (st1 & -> & D & Hp1).
          exists x, st1, (Node L t M), Rx. split; [done|]. split; [done|]. split; [done|]. cbn [inorder].
          split; [by rewrite <- (assoc_L (++))|].
          rewrite (cons_middle t), (assoc_L (++)), <- (assoc_L (++) _ (inorder M)).
          apply Forall_app. split; [done|]. apply in_order_node in HoR as (_ & _ & HxM & _).
          apply Forall_app. split; [|constructor; [by apply fle_not_lt|done]].
          apply Forall_forall. intros y Hy. apply fle_not_lt. eapply fle_trans; [by apply HxM|done].
        - exists t, st, L, (Node M x Rx). by split_and!. }
      destruct Hrot as (t' & st1 & L' & R' & -> & D1 & Hp1 & Ein & FL'). cbn [rbind].
      destruct (link_left_ok st1 n KL l KR r t' L' R') as (st2 & p & -> & D2 & Hn2 & Hp2t & Hp2);
        [by eapply is_Some_data|done|]. cbn [rbind].
      assert (D : same_data st st2) by (by eapply same_data_trans).
      assert (FA' : Forall (fun x => flt time (tf x) = false) (keys (KL ++ [(L', t')]))).
      { rewrite keys_snoc. apply Forall_app. by split. }
      assert (Exs : keys KL ++ (inorder L ++ t :: inorder M ++ x :: inorder Rx) ++ reverse (keys KR) =
        keys (KL ++ [(L', t')]) ++ inorder R' ++ reverse (keys KR)).
      { rewrite keys_snoc, <- !(assoc_L (++)). f_equal. rewrite !(assoc_L (++)). f_equal.
        rewrite <- (assoc_L (++) _ [t']). cbn [app]. by rewrite <- Ein. }
      rewrite Exs. rewrite <- Ein in Ho, Hf. cbn [inorder] in Ho, Hf. apply in_order_node in Ho as (_ & Ho' & _).
      destruct p as [t2|].
      * destruct (IH t' r t2 st2 (KL ++ [(L', t')]) KR R' Hp2 Hn2) as (st3 & -> & D3 & Hh); try done.
        { rewrite length_app in Hf. cbn [length] in Hf. lia. }
        { intros k. by rewrite (same_data_tm _ _ _ D). }
        { apply Forall_forall. intros y Hy. assert (Hy' : y ∈ inorder (Node L' t' R')).
          { apply elem_of_app. right. by right. }
          rewrite Ein in Hy'. apply elem_of_app in Hy' as [Hy'|[->|Hy']%elem_of_cons]; auto. }
        exists st3. split; [done|]. split; [by eapply same_data_trans|done].
      * pose proof (pt_t _ _ _ _ _ _ _ _ _ Hp2) as HR'. destruct R' as [|? ? ?]; [|by destruct HR'].
        destruct (stop_right tf time st2 n (KL ++ [(L', t')]) t' KR r) as (st3 & -> & D3 & Hh); try done.
        exists st3. split; [done|]. split; [by eapply same_data_trans|done].
Qed.

(** ** The contract: insertion *)

(** The tree of a queue holds its events in order. *)
Definition splay_rep (st : events) (q : splayq) (es : list positive) : Prop :=
  exists T, tr (Lp st) (Rp st) (root_ q) T /\ inorder T = es /\ NoDup es /\
    qsize_ q = wrap_i32 (Z.of_nat (length es)).

Lemma ord_insert_halves t e xs ys :
  Forall (fun x => flt (t e) (t x) = false) xs -> Forall (fun x => flt (t e) (t x) = true) ys ->
  ord_insert t e (xs ++ ys) = xs ++ e :: ys.
Proof.
  intros HA HB. induction HA as [|x xs Hx HA IH]; cbn [app ord_insert].
  - destruct HB as [|y ys Hy]; [done|]. cbn [ord_insert]. by rewrite Hy.
  - by rewrite Hx, IH.
Qed.

Lemma wrap_size n : wrap_i32 (wrap_i32 (Z.of_nat n) + 1) = wrap_i32 (Z.of_nat (S n)).
Proof. rewrite wrap_i32_add. f_equal. lia. Qed.

Lemma wrap_size_sub n : wrap_i32 (wrap_i32 (Z.of_nat (S n)) - 1) = wrap_i32 (Z.of_nat n).
Proof. rewrite wrap_i32_sub. f_equal. lia. Qed.

Lemma splay_insert_law fuel st q es e ev :
  splay_rep st q es -> st !! e = Some ev -> e ∉ es ->
  Forall (fun x => is_Some (st !! x) /\ is_nan (tm st x) = false) es ->
  is_nan (time_ ev) = false -> in_order (tm st) es -> (length es < fuel)%nat ->
  exists st' q', splay_insert fuel e st q = Ok (st', q') /\
    splay_rep st' q' (ord_insert (tm st) e es) /\ same_data st st'.
Proof.
  intros (T & HT & <- & Hnd & Hsz) Hev Hne Hes Hnan Ho Hf. unfold splay_insert.
  rewrite (load_Some _ _ _ Hev). cbn [rbind]. rewrite Hsz, wrap_size.
  assert (Hr0 : Rp st e = Some (ev_next ev)) by (unfold Rp; by rewrite Hev).
  assert (Hl0 : Lp st e = Some (ev_prev ev)) by (unfold Lp; by rewrite Hev).
  assert (Htm : tm st e = time_ ev) by (unfold tm; by rewrite Hev).
  destruct (root_ q) as [t|] eqn:Eroot.
  - assert (Hp : parts (Lp st) (Rp st) e [] e [] e (Some t) T).
    { split; [done|done|done|]. cbn. rewrite app_nil_r. by apply NoDup_cons. }
    destruct (insert_loop_spec fuel (time_ ev) e e e t st [] [] T (tm st) Hp) as (st1 & -> & D & Hh);
      try done.
    { eapply Forall_impl; [exact Hes|]. by intros x []. }
    cbn [rbind]. cbn in Hh. rewrite app_nil_r in Hh.
    destruct Hh as (qa & qb & A & B & Hqa & Hqb & HA & HB & Hin & FA & FB).
    rewrite (LEFT_ok _ _ _ Hqb), (RIGHT_ok _ _ _ Hqa). cbn [rbind].
    destruct (put_left_ok st1 e qa _ Hqb) as (st2 & -> & D2 & R2 & L2). cbn [rbind].
    destruct (put_right_ok st2 e qb qa) as (st3 & -> & D3 & L3 & R3); [by rewrite R2|]. cbn [rbind].
    assert (Hne' : forall k, k ∈ inorder A ++ inorder B -> k <> e).
    { intros k Hk ->. by rewrite Hin in Hne. }
    assert (Htr : forall U p, (forall k, k ∈ inorder U -> k ∈ inorder A ++ inorder B) ->
      tr (Lp st1) (Rp st1) p U -> tr (Lp st3) (Rp st3) p U).
    { intros U p HU. apply tr_agree. intros k Hk. specialize (Hne' k (HU k Hk)).
      by rewrite L3, L2, R3, R2, !decide_False. }
    eexists _, _. split; [done|]. split; [|by repeat (eapply same_data_trans; [done|])].
    rewrite <- Htm in FA, FB. rewrite Hin, ord_insert_halves by done.
    exists (Node A e B). cbn [root_ qsize_]. split.
    + split; [done|]. exists qa, qb. rewrite L3, L2, R3, !decide_True by done.
      split; [done|]. split; [done|].
      split; apply Htr; try done; intros k Hk; apply elem_of_app; auto.
    + split; [done|]. rewrite Hin in Hnd, Hne. split.
      * rewrite <- Permutation_middle. by apply NoDup_cons.
      * by rewrite <- Permutation_middle.
  - assert (T = Leaf) as -> by (destruct T as [|? ? ?]; [done|by destruct HT]).
    destruct (put_right_ok st e None _ Hr0) as (st1 & -> & D1 & L1 & R1). cbn [rbind].
    destruct (put_left_ok st1 e None (ev_prev ev)) as (st2 & -> & D2 & R2 & L2); [by rewrite L1|].
    cbn [rbind]. eexists _, _. split; [done|]. split; [|by eapply same_data_trans].
    exists (Node Leaf e Leaf). cbn [root_ qsize_ ord_insert inorder app]. split.
    + split; [done|]. exists None, None. by rewrite L2, R2, R1, !decide_True.
    + split; [done|]. split; [apply NoDup_singleton|done].
Qed.

(** ** The first event *)

Lemma deque_loop_spec fuel a t l st K T :
  spine (Rp st) (Lp st) a K t -> Lp st t = Some (Some l) -> tr (Rp st) (Lp st) (Some l) T ->
  NoDup (a :: keys K ++ inorder T) -> (length (inorder T) < fuel)%nat ->
  exists e st' p T', deque_loop fuel t l st = Ok (e, st') /\ same_data st st' /\
    Lp st' a = Some p /\ tr (Rp st') (Lp st') p T' /\ keys K ++ inorder T = inorder T' ++ [e] /\
    (forall k, k ∉ keys K ++ inorder T -> Rp st' k = Rp st k /\ (k <> a -> Lp st' k = Lp st k)).
Proof.
  revert t l st K T. induction fuel as [|fuel IH]; intros t l st K T Hs Ht HT Hnd Hf; [lia|].
  cbn [deque_loop]. destruct (tr_Some _ _ _ _ HT) as (X & T1 & ->).
  destruct HT as [_ (px & p1 & Hpx & Hp1 & HX & H1)]. cbn [inorder] in *.
  rewrite (LEFT_ok _ _ _ Hp1). cbn [rbind].
  apply NoDup_cons in Hnd as [Ha Hnd]. pose proof Hnd as Hnd'.
  apply NoDup_app in Hnd' as (HndK & HdK & HndT). apply NoDup_app in HndT as (HndX & HdX & [Hl1 Hnd1]%NoDup_cons).
  assert (HndaK : NoDup (a :: keys K)).
  { apply NoDup_cons. split; [|done]. intros Hin. apply Ha, elem_of_app. by left. }
  pose proof (spine_last _ _ _ _ _ Hs) as Htin.
  assert (Htout : t ∉ inorder X ++ l :: inorder T1).
  { apply elem_of_cons in Htin as [->|Hin]; [|by apply HdK]. intros Hin. apply Ha, elem_of_app. by right. }
  assert (Htl : l <> t) by (intros ->; apply Htout, elem_of_app; right; left).
  assert (HlK : l ∉ a :: keys K).
  { intros [->|Hin]%elem_of_cons; [apply Ha|apply (HdK l Hin)]; rewrite !elem_of_app; [right|]; right; left. }
  destruct p1 as [ll|].
  - destruct (tr_Some _ _ _ _ H1) as (Y & Z & ->).
    destruct H1 as [_ (py & pz & Hpy & Hpz & HY & HZ)]. cbn [inorder] in *.
    rewrite (LEFT_ok _ _ _ Hpz), (RIGHT_ok _ _ _ Hpy). cbn [rbind].
    apply NoDup_app in Hnd1 as (HndY & HdY & [Hllz HndZ]%NoDup_cons).
    assert (Hlll : ll <> l /\ ll <> t /\ ll ∉ a :: keys K).
    { split; [|split].
      - intros ->. apply Hl1, elem_of_app. right. left.
      - intros ->. apply Htout. rewrite elem_of_app, elem_of_cons, elem_of_app. right. right. right. left.
      - intros [->|Hin]%elem_of_cons; [apply Ha|apply (HdK ll Hin)];
          rewrite ?elem_of_app, ?elem_of_cons, ?elem_of_app, ?elem_of_cons; tauto. }
    destruct Hlll as (Hlll & Hllt & HllK).
    assert (HXY : forall k, k ∈ inorder X \/ k ∈ inorder Y -> k <> l /\ k <> t /\ k <> ll).
    { intros k Hk. split; [|split]; intros ->.
      - destruct Hk as [Hk|Hk]; [apply (HdX l Hk); left|apply Hl1, elem_of_app; by left].
      - apply Htout. rewrite ?elem_of_app, ?elem_of_cons, ?elem_of_app, ?elem_of_cons. tauto.
      - destruct Hk as [Hk|Hk]; [apply (HdX ll Hk)|apply (HdY ll Hk); left].
        right. apply elem_of_app. right. left. }
    destruct pz as [lll|].
    + assert (HZk : forall k, k ∈ inorder Z -> k <> l /\ k <> t /\ k <> ll /\ k ∉ a :: keys K).
      { intros k Hk. split; [|split; [|split]].
        - intros ->. apply Hl1. rewrite elem_of_app, elem_of_cons. tauto.
        - intros ->. apply Htout. rewrite !elem_of_app, !elem_of_cons, elem_of_app, elem_of_cons. tauto.
        - by intros ->.
        - intros [->|Hin]%elem_of_cons; [apply Ha|apply (HdK k Hin)];
            rewrite ?elem_of_app, ?elem_of_cons, ?elem_of_app, ?elem_of_cons; tauto. }
      destruct (put_left_ok st t (Some ll) _ Ht) as (st1 & -> & D1 & R1 & L1). cbn [rbind].
      rewrite (RIGHT_ok st1 ll py) by (by rewrite R1). cbn [rbind].
      destruct (put_left_ok st1 l py (Some ll)) as (st2 & -> & D2 & R2 & L2).
      { by rewrite L1, decide_False. }
      cbn [rbind].
      destruct (put_right_ok st2 ll (Some l) py) as (st3 & -> & D3 & L3 & R3).
      { by rewrite R2, R1. }
      cbn [rbind].
      assert (HL : forall k, Lp st3 k = if decide (k = l) then Some py else
        if decide (k = t) then Some (Some ll) else Lp st k) by (intros k; by rewrite L3, L2, L1).
      assert (HR : forall k, Rp st3 k = if decide (k = ll) then Some (Some l) else Rp st k)
        by (intros k; by rewrite R3, R2, R1).
      assert (Hs3 : spine (Rp st3) (Lp st3) a (K ++ [(Node X l Y, ll)]) ll).
      { eapply (spine_snoc _ _ _ _ t _ _ (Some l)).
        - eapply spine_agree; [done| | |exact Hs]; intros k Hk.
          + rewrite HR, decide_False; [done|]. intros ->. apply HllK. by right.
          + intros Hkt. rewrite HL, !decide_False; [done|done|]. by intros ->.
        - by rewrite HL, decide_False, decide_True.
        - by rewrite HR, decide_True.
        - split; [done|]. exists px, py. rewrite HR, HL, decide_False, decide_True by done.
          split; [done|]. split; [done|].
          split; (eapply tr_agree; [|done]); intros k Hk;
            (destruct (HXY k ltac:(auto)) as (? & ? & ?)); by rewrite HR, HL, !decide_False. }
      destruct (IH ll lll st3 (K ++ [(Node X l Y, ll)]) Z Hs3) as (e & st' & p & T' & -> & D & Hp & HT' & Hk & Hfr).
      * rewrite HL, !decide_False by done. exact Hpz.
      * eapply tr_agree; [|exact HZ]. intros k Hk. destruct (HZk k Hk) as (? & ? & ? & ?).
        by rewrite HR, HL, !decide_False.
      * rewrite keys_snoc. cbn [inorder]. apply NoDup_cons.
        repeat (rewrite <- (assoc_L (++)) || cbn [app]). done.
      * rewrite !length_app in Hf. cbn [length] in Hf. rewrite length_app in Hf. cbn [length] in Hf. lia.
      * rewrite keys_snoc in Hk, Hfr. cbn [inorder] in Hk, Hfr.
        repeat (rewrite <- (assoc_L (++)) in Hk || cbn [app] in Hk).
        repeat (rewrite <- (assoc_L (++)) in Hfr || cbn [app] in Hfr).
        exists e, st', p, T'. split; [done|]. split.
        { do 3 (eapply same_data_trans; [done|]). done. }
        split; [done|]. split; [done|]. split; [done|]. intros k Hkn. destruct (Hfr k Hkn) as [E1 E2].
        assert (Hkl : k <> l /\ k <> ll).
        { split; intros ->; apply Hkn; rewrite !elem_of_app, ?elem_of_cons, ?elem_of_app, ?elem_of_cons; tauto. }
        destruct Hkl. rewrite E1, HR, decide_False by done. split; [done|].
        intros Hka. rewrite E2, HL, !decide_False; [done| |done|done].
        intros ->. apply elem_of_cons in Htin as [?|?]; [done|]. apply Hkn, elem_of_app. by left.
    + destruct Z as [|? ? ?]; [|by destruct HZ]. cbn [inorder] in *.
      destruct (put_left_ok st l py _ Hp1) as (st1 & -> & D1 & R1 & L1). cbn [rbind].
      assert (Hs1 : spine (Rp st1) (Lp st1) a K t).
      { eapply spine_agree; [done| | |exact Hs]; intros k Hk; [by rewrite R1|]. intros Hkt.
        rewrite L1, decide_False; [done|]. by intros ->. }
      destruct (spine_plug _ _ _ _ _ (Some l) (Node X l Y) Hs1) as (p & Hp & HT').
      { by rewrite L1, decide_False. }
      { split; [done|]. exists px, py. rewrite R1, L1, decide_True by done.
        split; [done|]. split; [done|].
        split; (eapply tr_agree; [|done]); intros k Hk;
          (destruct (HXY k ltac:(auto)) as (? & ? & ?)); by rewrite R1, L1, !decide_False. }
      exists ll, st1, p, (plug K (Node X l Y)). split; [done|]. split; [done|]. split; [done|]. split; [done|].
      rewrite inorder_plug. cbn [inorder]. split; [by repeat (rewrite <- (assoc_L (++)) || cbn [app])|].
      intros k Hkn. rewrite R1, L1. split; [done|]. intros _. rewrite decide_False; [done|].
      intros ->. apply Hkn. rewrite !elem_of_app, elem_of_cons. tauto.
  - destruct T1 as [|? ? ?]; [|by destruct H1]. cbn [inorder] in *.
    rewrite (RIGHT_ok _ _ _ Hpx). cbn [rbind].
    destruct (put_left_ok st t px _ Ht) as (st1 & -> & D1 & R1 & L1). cbn [rbind].
    assert (Hs1 : spine (Rp st1) (Lp st1) a K t).
    { eapply spine_agree; [done| | |exact Hs]; intros k Hk; [by rewrite R1|]. intros Hkt.
      by rewrite L1, decide_False. }
    destruct (spine_plug _ _ _ _ _ px X Hs1) as (p & Hp & HT').
    { by rewrite L1, decide_True. }
    { eapply tr_agree; [|done]. intros k Hk. rewrite R1, L1, decide_False; [done|].
      intros ->. apply Htout, elem_of_app. by left. }
    exists l, st1, p, (plug K X). split; [done|]. split; [done|]. split; [done|]. split; [done|].
    rewrite inorder_plug, <- (assoc_L (++)). split; [done|].
    intros k Hkn. rewrite R1, L1. split; [done|]. intros Hka. rewrite decide_False; [done|].
    intros ->. apply elem_of_cons in Htin as [?|?]; [done|]. apply Hkn, elem_of_app. by left.
Qed.

Lemma splay_deque_law fuel st q es :
  splay_rep st q es -> (length es < fuel)%nat ->
  exists st' q', splay_deque fuel st q = Ok (head es, st', q') /\ splay_rep st' q' (tail es) /\
    same_data st st'.
Proof.
  intros (T & HT & <- & Hnd & Hsz) Hf. unfold splay_deque.
  destruct (root_ q) as [t|] eqn:Eroot.
  - destruct (tr_Some _ _ _ _ HT) as (L & R & ->). destruct HT as [_ (pl & pr & Hl & Hr & HL & HR)].
    rewrite (LEFT_ok _ _ _ Hl). cbn [rbind inorder] in *. rewrite Hsz.
    destruct pl as [l|].
    + destruct L as [|L1 y L2] eqn:EL; [done|]. rewrite <- EL in *.
      assert (HTm : tr (Rp st) (Lp st) (Some l) (mirror L)) by by apply tr_mirror.
      apply NoDup_app in Hnd as (HndL & HdL & [Ht HndR]%NoDup_cons).
      destruct (deque_loop_spec fuel t t l st [] (mirror L)) as (e & st' & p & T' & -> & D & Hp & HT' & Hk & Hfr);
        try done.
      { cbn [keys mbind list_bind app]. rewrite inorder_mirror. apply NoDup_cons.
        rewrite elem_of_reverse, NoDup_rev. split; [|done]. intros Hin. apply (HdL t Hin). left. }
      { rewrite inorder_mirror, length_reverse. rewrite length_app in Hf. lia. }
      cbn [keys mbind list_bind app] in Hk, Hfr. rewrite inorder_mirror in Hk, Hfr.
      assert (HinL : inorder L = e :: reverse (inorder T')).
      { rewrite <- (reverse_involutive (inorder L)), Hk, reverse_app. done. }
      cbn [rbind]. eexists _, _. split; [by rewrite HinL|]. split; [|done].
      rewrite HinL. cbn [app tail]. exists (Node (mirror T') t R).
      cbn [root_ qsize_ inorder]. rewrite inorder_mirror. split.
      * split; [done|]. exists p, pr. setoid_rewrite elem_of_reverse in Hfr.
        rewrite (proj1 (Hfr t ltac:(intros Hin; by apply (HdL t Hin); left))).
        split; [done|]. split; [done|]. split; [by apply tr_mirror|].
        eapply tr_agree; [|exact HR]. intros k Hk'. destruct (Hfr k) as [E1 E2].
        { intros Hin. apply (HdL k Hin). by right. }
        rewrite E1, E2; [done|]. by intros ->.
      * split; [done|]. split.
        -- apply NoDup_app. rewrite NoDup_rev. rewrite HinL in HndL, HdL. apply NoDup_cons in HndL as [_ HndL].
           rewrite NoDup_rev in HndL. split; [done|]. split; [|by apply NoDup_cons].
           intros k Hk'. apply HdL. by right.
        -- cbn [length]. by rewrite wrap_size_sub.
    + destruct L as [|? ? ?]; [|by destruct HL]. cbn [inorder app] in *.
      rewrite (RIGHT_ok _ _ _ Hr). cbn [rbind]. exists st. eexists. split; [done|]. split; [|done].
      exists R. cbn [root_ qsize_ tail]. apply NoDup_cons in Hnd as [_ Hnd].
      cbn [length]. by rewrite wrap_size_sub.
  - destruct T as [|? ? ?]; [|by destruct HT]. exists st, q. split; [done|]. split; [|done].
    exists Leaf. by rewrite Eroot.
Qed.

Lemma head_loop_spec fuel st t T :
  tr (Lp st) (Rp st) (Some t) T -> (length (inorder T) < fuel)%nat ->
  exists e, head_loop fuel t st = Ok e /\ head (inorder T) = Some e.
Proof.
  revert t T. induction fuel as [|fuel IH]; intros t T HT Hf; [lia|]. cbn [head_loop].
  destruct (tr_Some _ _ _ _ HT) as (L & R & ->). destruct HT as [_ (pl & pr & Hl & Hr & HL & HR)].
  rewrite (LEFT_ok _ _ _ Hl). cbn [rbind inorder] in *. destruct pl as [l|].
  - destruct (IH l L HL) as (e & -> & He); [rewrite length_app in Hf; cbn [length] in Hf; lia|].
    exists e. split; [done|]. by destruct (inorder L).
  - destruct L as [|? ? ?]; [|by destruct HL]. by exists t.
Qed.

Lemma tr_in st p T k : tr (Lp st) (Rp st) p T -> k ∈ inorder T -> is_Some (st !! k).
Proof.
  revert p. induction T as [|L IHL e R IHR]; intros p; [by intros _ ?%not_elem_of_nil|].
  intros [-> (pl & pr & Hl & Hr & HL & HR)] [Hk|[->|Hk]%elem_of_cons]%elem_of_app; [by eapply IHL| |by eapply IHR].
  unfold Lp in Hl. destruct (st !! e); [by eexists|done].
Qed.

Lemma size_bound (st : events) es : NoDup es -> (forall k, k ∈ es -> is_Some (st !! k)) -> (length es <= size st)%nat.
Proof.
  intros Hnd Hin. rewrite <- (size_dom (D := gset positive) st), <- (size_list_to_set (C := gset positive) es Hnd).
  apply subseteq_size. intros k Hk%elem_of_list_to_set. by apply elem_of_dom, Hin.
Qed.

Lemma splay_head_law st q es : splay_rep st q es -> splay_head st q = Ok (head es).
Proof.
  intros (T & HT & <- & Hnd & _). unfold splay_head. destruct (root_ q) as [t|].
  - destruct (head_loop_spec (S (size st)) st t T HT) as (e & -> & ->); [|done].
    apply Nat.lt_succ_r, size_bound; [done|]. intros k. by eapply tr_in.
  - by destruct T; [|destruct HT].
Qed.

(** ** Lookup *)

Lemma uid_lookup_spec fuel u st p T :
  tr (Lp st) (Rp st) p T -> (length (inorder T) < fuel)%nat ->
  exists r, uid_lookup fuel u p st = Ok r /\
    match r with
    | Some e => e ∈ inorder T /\ uid_ <$> st !! e = Some u
    | None => Forall (fun x => uid_ <$> st !! x <> Some u) (inorder T)
    end.
Proof.
  revert p T. induction fuel as [|fuel IH]; intros p T HT Hf; [lia|]. cbn [uid_lookup].
  destruct T as [|L x R].
  - cbn in HT. subst p. by exists None.
  - destruct HT as [-> (pl & pr & Hl & Hr & HL & HR)]. cbn [inorder] in *.
    rewrite length_app in Hf. cbn [length] in Hf.
    unfold Lp in Hl. unfold Rp in Hr. destruct (st !! x) as [v|] eqn:Hv; [|done].
    injection Hl as Hl. injection Hr as Hr. rewrite (load_Some _ _ _ Hv). cbn [rbind]. rewrite Hl, Hr.
    destruct (Z.eqb_spec (uid_ v) u) as [Eu|Eu].
    + exists (Some x). split; [done|]. split; [apply elem_of_app; right; left|]. rewrite Hv. cbn. by rewrite Eu.
    + destruct (IH pl L HL ltac:(lia)) as (r1 & -> & H1). cbn [rbind]. destruct r1 as [e|].
      * exists (Some e). split; [done|]. split; [apply elem_of_app; left|]; apply H1.
      * destruct (IH pr R HR ltac:(lia)) as (r2 & -> & H2). exists r2. split; [done|]. destruct r2 as [e|].
        -- split; [apply elem_of_app; right; right|]; apply H2.
        -- apply Forall_app. split; [done|]. constructor; [|done]. rewrite Hv. cbn. by intros [=].
Qed.

(** ** Cancellation *)

(** What a slot of the tree outside [e]'s subtree stands for: between the
    events [pre] and [post], whatever tree is stored in it. *)
Definition slot_of (st : events) (s : slot) (p0 : option positive) (pre post : list positive) : Prop :=
  forall st' p' S', tr (Lp st') (Rp st') p' S' ->
    (forall k, k ∈ pre ++ post ->
       Lp st' k = (if decide (s = AtLeft k) then Some p' else Lp st k) /\
       Rp st' k = (if decide (s = AtRight k) then Some p' else Rp st k)) ->
    exists p1 T', tr (Lp st') (Rp st') p1 T' /\ inorder T' = pre ++ inorder S' ++ post /\
      p1 = (if decide (s = AtRoot) then p' else p0).

Lemma slot_of_root st p0 : slot_of st AtRoot p0 [] [].
Proof.
  intros st' p' S' HS _. exists p', S'. rewrite decide_True by done. cbn. by rewrite app_nil_r.
Qed.

Definition slot_node (s : slot) : option positive :=
  match s with AtRoot => None | AtLeft k | AtRight k => Some k end.

(** Going down one child from the slot [s], which holds [x]. *)
Lemma slot_of_right st q s p0 pre post L x R :
  slot_of st s p0 pre post -> get_slot s st q = Ok (Some x) -> (s = AtRoot -> p0 = Some x) ->
  tr (Lp st) (Rp st) (Some x) (Node L x R) -> NoDup (pre ++ inorder (Node L x R) ++ post) ->
  slot_of st (AtRight x) p0 (pre ++ inorder L ++ [x]) post.
Proof.
  intros Hs Hg H0 [_ (pl & pr & Hl & Hr & HL & HR)] Hnd st' p' S' HS' Hag. cbn [inorder] in Hnd.
  rewrite (assoc_L (++)), (Permutation_app_comm pre), <- (assoc_L (++)) in Hnd.
  apply NoDup_app in Hnd as (HndT & Hout & _). apply NoDup_app in HndT as (_ & HxL & _).
  assert (HL' : forall k, k ∈ inorder L -> Lp st' k = Lp st k /\ Rp st' k = Rp st k).
  { intros k Hk. destruct (Hag k) as [E1 E2]; [rewrite !elem_of_app; tauto|].
    rewrite decide_False in E1 by done. rewrite decide_False in E2; [done|]. intros [= ->].
    apply (HxL k Hk). left. }
  destruct (Hag x) as [E1 E2]; [rewrite !elem_of_app, list_elem_of_singleton; tauto|].
  rewrite decide_False in E1 by done. rewrite decide_True in E2 by done.
  destruct (Hs st' (Some x) (Node L x S')) as (p1 & T' & HT' & Hin & Hp1).
  - split; [done|]. exists pl, p'. rewrite E1, E2. split; [done|]. split; [done|]. split; [|done].
    by eapply tr_agree.
  - intros k Hk. destruct (Hag k) as [F1 F2]; [rewrite !elem_of_app in *; tauto|].
    rewrite decide_False in F1 by done. rewrite decide_False in F2.
    2: { intros [= ->]. apply (Hout k); [apply elem_of_app; right; left|done]. }
    rewrite F1, F2. split.
    + destruct (decide (s = AtLeft k)) as [->|]; [|done]. cbn in Hg. unfold LEFT, load, Lp in *.
      destruct (st !! k); [|done]. cbn in *. by injection Hg as ->.
    + destruct (decide (s = AtRight k)) as [->|]; [|done]. cbn in Hg. unfold RIGHT, load, Rp in *.
      destruct (st !! k); [|done]. cbn in *. by injection Hg as ->.
  - exists p1, T'. split; [done|]. split.
    + rewrite Hin. cbn [inorder]. by repeat (rewrite <- (assoc_L (++)) || cbn [app]).
    + rewrite Hp1, (decide_False (P := AtRight x = AtRoot)) by done.
      destruct (decide (s = AtRoot)) as [->|]; [by rewrite H0|done].
Qed.

Lemma slot_of_left st q s p0 pre post L x R :
  slot_of st s p0 pre post -> get_slot s st q = Ok (Some x) -> (s = AtRoot -> p0 = Some x) ->
  tr (Lp st) (Rp st) (Some x) (Node L x R) -> NoDup (pre ++ inorder (Node L x R) ++ post) ->
  slot_of st (AtLeft x) p0 pre (x :: inorder R ++ post).
Proof.
  intros Hs Hg H0 [_ (pl & pr & Hl & Hr & HL & HR)] Hnd st' p' S' HS' Hag. cbn [inorder] in Hnd.
  rewrite (assoc_L (++)), (Permutation_app_comm pre), <- (assoc_L (++)) in Hnd.
  apply NoDup_app in Hnd as (HndT & Hout & _). apply NoDup_app in HndT as (_ & _ & [HxR _]%NoDup_cons).
  assert (HR' : forall k, k ∈ inorder R -> Lp st' k = Lp st k /\ Rp st' k = Rp st k).
  { intros k Hk. destruct (Hag k) as [E1 E2]; [rewrite !elem_of_app, elem_of_cons, elem_of_app; tauto|].
    rewrite decide_False in E2 by done. rewrite decide_False in E1; [done|]. by intros [= ->]. }
  destruct (Hag x) as [E1 E2]; [rewrite elem_of_app, elem_of_cons; tauto|].
  rewrite decide_True in E1 by done. rewrite decide_False in E2 by done.
  destruct (Hs st' (Some x) (Node S' x R)) as (p1 & T' & HT' & Hin & Hp1).
  - split; [done|]. exists p', pr. rewrite E1, E2. split; [done|]. split; [done|]. split; [done|].
    by eapply tr_agree.
  - intros k Hk. destruct (Hag k) as [F1 F2]; [rewrite !elem_of_app, elem_of_cons, elem_of_app in *; tauto|].
    rewrite decide_False in F2 by done. rewrite decide_False in F1.
    2: { intros [= ->]. apply (Hout k); [apply elem_of_app; right; left|done]. }
    rewrite F1, F2. split.
    + destruct (decide (s = AtLeft k)) as [->|]; [|done]. cbn in Hg. unfold LEFT, load, Lp in *.
      destruct (st !! k); [|done]. cbn in *. by injection Hg as ->.
    + destruct (decide (s = AtRight k)) as [->|]; [|done]. cbn in Hg. unfold RIGHT, load, Rp in *.
      destruct (st !! k); [|done]. cbn in *. by injection Hg as ->.
  - exists p1, T'. split; [done|]. split.
    + rewrite Hin. cbn [inorder]. by repeat (rewrite <- (assoc_L (++)) || cbn [app]).
    + rewrite Hp1, (decide_False (P := AtLeft x = AtRoot)) by done.
      destruct (decide (s = AtRoot)) as [->|]; [by rewrite H0|done].
Qed.

(** The direction [cancel] takes at [x] is the one of [e]. *)
Lemma find_direction t u L x R e :
  in_order t (inorder L ++ x :: inorder R) -> in_turn t u (inorder L ++ x :: inorder R) ->
  (e ∈ inorder R -> flt (t x) (t e) || (feq (t e) (t x) && (u x <? u e)) = true) /\
  (e ∈ inorder L -> flt (t x) (t e) || (feq (t e) (t x) && (u x <? u e)) = false).
Proof.
  intros Ho Ht. apply in_order_node in Ho as (_ & _ & HL & HR).
  apply StronglySorted_app in Ht as (HtL & _ & HtR). apply StronglySorted_inv in HtR as [_ HtR].
  rewrite Forall_forall in HtR. split; intros He.
  - specialize (HR e He). specialize (HtR e He). destruct (flt (t x) (t e)) eqn:E; [done|]. cbn [orb].
    assert (Hxe : feq (t x) (t e) = true) by (clear - HR E; forder).
    rewrite (feq_sym _ _ Hxe). apply Z.ltb_lt, HtR, Hxe.
  - specialize (HL e He). specialize (HtL e x He ltac:(left)). apply orb_false_iff.
    split; [by apply fle_not_lt|]. destruct (feq (t e) (t x)); [|done]. apply Z.ltb_ge.
    specialize (HtL eq_refl). lia.
Qed.

Lemma find_slot_spec fuel e ev s st q T pre post p0 p :
  slot_of st s p0 pre post -> get_slot s st q = Ok p -> (s = AtRoot -> p0 = p) ->
  tr (Lp st) (Rp st) p T -> e ∈ inorder T -> p <> Some e -> NoDup (pre ++ inorder T ++ post) ->
  in_order (tm st) (inorder T) -> in_turn (tm st) (unum st) (inorder T) -> st !! e = Some ev ->
  (length (inorder T) < fuel)%nat ->
  exists s' k pre' post' L R, find_slot fuel e ev s st q = Ok s' /\ slot_of st s' p0 pre' post' /\
    slot_node s' = Some k /\ k ∈ pre' ++ post' /\ tr (Lp st) (Rp st) (Some e) (Node L e R) /\
    pre ++ inorder T ++ post = pre' ++ inorder (Node L e R) ++ post'.
Proof.
  revert s T pre post p. induction fuel as [|fuel IH]; [intros; lia|].
  intros s T pre post p Hs Hg H0 HT He Hpe Hnd Ho Htn Hev Hf. cbn [find_slot]. rewrite Hg. cbn [rbind].
  destruct T as [|L x R]; [by apply not_elem_of_nil in He|].
  pose proof HT as [-> (pl & pr & Hl & Hr & HL & HR)]. cbn [inorder] in *.
  assert (Hx : exists xv, st !! x = Some xv /\ time_ xv = tm st x /\ uid_ xv = unum st x).
  { unfold Lp in Hl. unfold tm, unum. destruct (st !! x) as [xv|]; [by exists xv|done]. }
  destruct Hx as (xv & Hxv & Hxt & Hxu). rewrite (load_Some _ _ _ Hxv). cbn [rbind].
  assert (Het : time_ ev = tm st e /\ uid_ ev = unum st e) by (unfold tm, unum; by rewrite Hev).
  destruct Het as [Het Heu]. rewrite Hxt, Hxu, Het, Heu.
  destruct (find_direction (tm st) (unum st) L x R e Ho Htn) as [Hright Hleft].
  assert (Hsplit : in_turn (tm st) (unum st) (inorder L) /\ in_turn (tm st) (unum st) (inorder R)).
  { apply StronglySorted_app in Htn as (_ & H1 & H2). apply StronglySorted_inv in H2 as [H2 _]. by split. }
  destruct Hsplit as [HtnL HtnR]. apply in_order_node in Ho as (HoL & HoR & _).
  rewrite length_app in Hf. cbn [length] in Hf.
  apply elem_of_app in He as [He|[->|He]%elem_of_cons]; [| done |].
  - rewrite (Hleft He). cbn [get_slot]. rewrite (LEFT_ok _ _ _ Hl). cbn [rbind].
    pose proof (slot_of_left _ _ _ _ _ _ _ _ _ Hs Hg H0 HT Hnd) as Hs'.
    assert (Eall : pre ++ (inorder L ++ x :: inorder R) ++ post = pre ++ inorder L ++ x :: inorder R ++ post)
      by (by repeat (rewrite <- (assoc_L (++)) || cbn [app])).
    rewrite Eall in Hnd |- *. case_bool_decide as Hp.
    + subst pl. destruct (tr_Some _ _ _ _ HL) as (Le & Re & ->).
      exists (AtLeft x), x, pre, (x :: inorder R ++ post), Le, Re. split; [done|]. split; [done|].
      split; [done|]. split; [rewrite elem_of_app, elem_of_cons; tauto|]. split; [exact HL|].
      reflexivity.
    + destruct (IH (AtLeft x) L pre (x :: inorder R ++ post) pl Hs') as (s' & k & pre' & post' & Le & Re & H);
        try done.
      * cbn. by rewrite (LEFT_ok _ _ _ Hl).
      * lia.
      * by exists s', k, pre', post', Le, Re.
  - rewrite (Hright He). cbn [get_slot]. rewrite (RIGHT_ok _ _ _ Hr). cbn [rbind].
    pose proof (slot_of_right _ _ _ _ _ _ _ _ _ Hs Hg H0 HT Hnd) as Hs'.
    assert (Eall : pre ++ (inorder L ++ x :: inorder R) ++ post = (pre ++ inorder L ++ [x]) ++ inorder R ++ post)
      by (by repeat (rewrite <- (assoc_L (++)) || cbn [app])).
    rewrite Eall in Hnd |- *. case_bool_decide as Hp.
    + subst pr. destruct (tr_Some _ _ _ _ HR) as (Le & Re & ->).
      exists (AtRight x), x, (pre ++ inorder L ++ [x]), post, Le, Re. split; [done|]. split; [done|].
      split; [done|]. split; [rewrite !elem_of_app, list_elem_of_singleton; tauto|]. split; [exact HR|done].
    + destruct (IH (AtRight x) R (pre ++ inorder L ++ [x]) post pr Hs') as (s' & k & pre' & post' & Le & Re & H);
        try done.
      * cbn. by rewrite (RIGHT_ok _ _ _ Hr).
      * lia.
      * by exists s', k, pre', post', Le, Re.
Qed.

Lemma put_slot_ok s x st q :
  (forall k, slot_node s = Some k -> is_Some (st !! k)) ->
  exists st' q', put_slot s x st q = Ok (st', q') /\ same_data st st' /\
    (forall k, Lp st' k = if decide (s = AtLeft k) then Some x else Lp st k) /\
    (forall k, Rp st' k = if decide (s = AtRight k) then Some x else Rp st k) /\
    root_ q' = (if decide (s = AtRoot) then x else root_ q) /\ qsize_ q' = qsize_ q.
Proof.
  intros Hk. destruct s as [|k|k]; cbn [put_slot slot_node] in *.
  - eexists st, _. split; [done|]. by repeat split.
  - destruct (Hk k eq_refl) as [v Hv].
    destruct (put_left_ok st k x (ev_prev v)) as (st' & -> & D & R & L); [unfold Lp; by rewrite Hv|].
    exists st', q. split; [done|]. split; [done|]. split; [|split; [done|done]].
    intros j. rewrite L. destruct (decide (j = k)) as [->|]; [by rewrite decide_True|].
    rewrite decide_False; [done|]. by intros [= ->].
  - destruct (Hk k eq_refl) as [v Hv].
    destruct (put_right_ok st k x (ev_next v)) as (st' & -> & D & L & R); [unfold Rp; by rewrite Hv|].
    exists st', q. split; [done|]. split; [done|]. split; [done|]. split; [|done].
    intros j. rewrite R. destruct (decide (j = k)) as [->|]; [by rewrite decide_True|].
    rewrite decide_False; [done|]. by intros [= ->].
Qed.

(** The successor is at the end of a left spine. *)
Lemma successor_spec fuel st a t l K T :
  spine (Rp st) (Lp st) a K t -> Lp st t = Some (Some l) -> tr (Rp st) (Lp st) (Some l) T ->
  (length (inorder T) < fuel)%nat ->
  exists K' p x px X, successor_loop fuel t l st = Ok (p, x) /\ spine (Rp st) (Lp st) a K' p /\
    Lp st p = Some (Some x) /\ Lp st x = Some None /\ Rp st x = Some px /\ tr (Rp st) (Lp st) px X /\
    keys K ++ inorder T = keys K' ++ inorder X ++ [x].
Proof.
  revert t l K T. induction fuel as [|fuel IH]; intros t l K T Hs Ht HT Hf; [lia|]. cbn [successor_loop].
  destruct (tr_Some _ _ _ _ HT) as (X & Y & ->). destruct HT as [_ (px & py & Hpx & Hpy & HX & HY)].
  rewrite (LEFT_ok _ _ _ Hpy). cbn [rbind inorder] in *. destruct py as [ll|].
  - destruct (IH l ll (K ++ [(X, l)]) Y) as (K' & p & x & px' & X' & He & H1 & H2 & H3 & H4 & H5 & H6); try done.
    + by eapply (spine_snoc _ _ _ _ t).
    + rewrite length_app in Hf. cbn [length] in Hf. lia.
    + exists K', p, x, px', X'. rewrite keys_snoc in H6. rewrite <- H6.
      split_and!; try done. by repeat (rewrite <- (assoc_L (++)) || cbn [app]).
  - destruct Y as [|? ? ?]; [|by destruct HY]. by exists K, t, l, px, X.
Qed.

Section splice.
Context (st : events) (q : splayq) (s : slot) (e : positive) (pre post : list positive) (Le Re : tree).
Hypothesis Hslot : slot_of st s (root_ q) pre post.
Hypothesis Hnode : forall k, slot_node s = Some k -> k ∈ pre ++ post /\ is_Some (st !! k).
Hypothesis Htree : tr (Lp st) (Rp st) (Some e) (Node Le e Re).
Hypothesis Hnd : NoDup (pre ++ inorder (Node Le e Re) ++ post).

Lemma splice_disjoint :
  (forall k, k ∈ inorder Le \/ k = e \/ k ∈ inorder Re -> k ∉ pre ++ post) /\
  NoDup (inorder Le ++ e :: inorder Re).
Proof.
  clear Hslot Hnode Htree. pose proof Hnd as H. cbn [inorder] in H.
  rewrite (assoc_L (++)), (Permutation_app_comm pre), <- (assoc_L (++)) in H.
  apply NoDup_app in H as (HT & Hd & _). split; [|done]. intros k Hk. apply Hd.
  rewrite elem_of_app, elem_of_cons. tauto.
Qed.

Lemma splice_not_slot k : k ∈ inorder Le \/ k = e \/ k ∈ inorder Re -> s <> AtLeft k /\ s <> AtRight k.
Proof.
  intros Hk. apply (proj1 splice_disjoint) in Hk. split; intros E; apply Hk.
  - by destruct (Hnode k) as [Hn _]; [rewrite E|].
  - by destruct (Hnode k) as [Hn _]; [rewrite E|].
Qed.

(** After the slot is set to [p'] and the events of the subtree are changed
    into the tree [S']. *)
Lemma splice_done st' q' p' S' :
  tr (Lp st') (Rp st') p' S' -> root_ q' = (if decide (s = AtRoot) then p' else root_ q) ->
  inorder S' = inorder Le ++ inorder Re ->
  (forall k, k ∈ pre ++ post ->
     Lp st' k = (if decide (s = AtLeft k) then Some p' else Lp st k) /\
     Rp st' k = (if decide (s = AtRight k) then Some p' else Rp st k)) ->
  exists T', tr (Lp st') (Rp st') (root_ q') T' /\ inorder T' = pre ++ (inorder Le ++ inorder Re) ++ post.
Proof.
  intros HS Hq Hin Hag. destruct (Hslot st' p' S' HS Hag) as (p1 & T' & HT' & Hin' & ->).
  exists T'. rewrite Hq, <- Hin. by split.
Qed.

(** Writes to events of the subtree do not matter outside. *)
Lemma outside_ne k x : k ∈ pre ++ post -> x ∈ inorder Le \/ x = e \/ x ∈ inorder Re -> k <> x.
Proof. intros Hk Hx ->. by apply (proj1 splice_disjoint) in Hx. Qed.

Lemma slot_step x :
  exists st1 q1, put_slot s x st q = Ok (st1, q1) /\ same_data st st1 /\
    (forall k, k ∈ pre ++ post -> Lp st1 k = (if decide (s = AtLeft k) then Some x else Lp st k) /\
       Rp st1 k = (if decide (s = AtRight k) then Some x else Rp st k)) /\
    (forall k, k ∈ inorder Le \/ k = e \/ k ∈ inorder Re -> Lp st1 k = Lp st k /\ Rp st1 k = Rp st k) /\
    root_ q1 = (if decide (s = AtRoot) then x else root_ q) /\ qsize_ q1 = qsize_ q.
Proof.
  destruct (put_slot_ok s x st q) as (st1 & q1 & E & D & L & R & Q & S).
  { intros k Hk. by apply Hnode. }
  exists st1, q1. split; [done|]. split; [done|]. split; [done|]. split; [|done].
  intros k Hk. destruct (splice_not_slot k Hk) as [N1 N2]. by rewrite L, R, !decide_False.
Qed.

Definition spliced fuel : Prop :=
  exists st' q' T', splice_out fuel e s st q = Ok (st', q') /\ tr (Lp st') (Rp st') (root_ q') T' /\
    inorder T' = pre ++ (inorder Le ++ inorder Re) ++ post /\ same_data st st' /\ qsize_ q' = qsize_ q.

Lemma splice_no_right fuel : Re = Leaf -> spliced fuel.
Proof.
  intros HRe. unfold spliced, splice_out.
  destruct Htree as [_ (pl & pr & Hl & Hr & HL & HR)]. destruct splice_disjoint as [_ HndT].
  rewrite (RIGHT_ok _ _ _ Hr), (LEFT_ok _ _ _ Hl). cbn [rbind].
  assert (pr = None) as -> by (rewrite HRe in HR; exact HR).
  destruct (slot_step pl) as (st1 & q1 & -> & D1 & P1 & I1 & Q1 & S1). cbn [rbind].
  destruct (I1 e ltac:(auto)) as [E1 E2].
  destruct (put_left_ok st1 e None pl) as (st2 & -> & D2 & R2 & L2); [by rewrite E1|]. cbn [rbind].
  destruct (splice_done st2 q1 pl Le) as (T' & HT' & Hin); try done.
  - eapply tr_agree; [|exact HL]. intros k Hk. destruct (I1 k ltac:(auto)) as [F1 F2].
    rewrite R2, L2, decide_False; [done|]. intros ->. apply NoDup_app in HndT as (_ & Hd & _).
    apply (Hd e Hk). left.
  - by rewrite HRe, app_nil_r.
  - intros k Hk. rewrite R2, L2, decide_False; [by apply P1|].
    apply outside_ne; auto.
  - exists st2, q1, T'. split; [done|]. split; [done|]. split; [done|].
    split; [by eapply same_data_trans|done].
Qed.

Lemma splice_no_left fuel : Re <> Leaf -> Le = Leaf -> spliced fuel.
Proof.
  intros HRe HLe. unfold spliced, splice_out.
  destruct Htree as [_ (pl & pr & Hl & Hr & HL & HR)]. destruct splice_disjoint as [_ HndT].
  rewrite (RIGHT_ok _ _ _ Hr), (LEFT_ok _ _ _ Hl). cbn [rbind].
  assert (pl = None) as -> by (rewrite HLe in HL; exact HL).
  destruct pr as [p|]; [|by destruct Re; [|destruct HR]].
  destruct (slot_step (Some p)) as (st1 & q1 & -> & D1 & P1 & I1 & Q1 & S1). cbn [rbind].
  destruct (I1 e ltac:(auto)) as [E1 E2].
  destruct (put_right_ok st1 e None (Some p)) as (st2 & -> & D2 & L2 & R2); [by rewrite E2|]. cbn [rbind].
  destruct (splice_done st2 q1 (Some p) Re) as (T' & HT' & Hin); try done.
  - eapply tr_agree; [|exact HR]. intros k Hk. destruct (I1 k ltac:(auto)) as [F1 F2].
    rewrite R2, L2, decide_False; [done|]. intros ->. apply NoDup_app in HndT as (_ & _ & [He _]%NoDup_cons).
    done.
  - by rewrite HLe.
  - intros k Hk. rewrite R2, L2, (decide_False (P := k = e)); [by apply P1|]. apply outside_ne; auto.
  - exists st2, q1, T'. split; [done|]. split; [done|]. split; [done|].
    split; [by eapply same_data_trans|done].
Qed.

(** The right child has no left child: it takes the place of [e]. *)
Lemma splice_next fuel p Q : Re = Node Leaf p Q -> Le <> Leaf -> spliced fuel.
Proof.
  intros HRe HLe. unfold spliced, splice_out.
  destruct Htree as [_ (pl & pr & Hl & Hr & HL & HR)]. destruct splice_disjoint as [_ HndT].
  rewrite HRe in HR. destruct HR as [-> (pm & pq & Hm & Hq & HM & HQ)]. cbn in HM. subst pm.
  rewrite (RIGHT_ok _ _ _ Hr), (LEFT_ok _ _ _ Hl). cbn [rbind].
  destruct pl as [l|]; [|by destruct Le; [|destruct HL]].
  rewrite (LEFT_ok _ _ _ Hm). cbn [rbind].
  destruct (slot_step (Some p)) as (st1 & q1 & -> & D1 & P1 & I1 & Q1 & S1). cbn [rbind].
  assert (Hp : p ∈ inorder Re) by (rewrite HRe; left).
  destruct (I1 e ltac:(auto)) as [E1 E2]. destruct (I1 p ltac:(auto)) as [G1 G2].
  rewrite (LEFT_ok st1 e (Some l)) by (by rewrite E1). cbn [rbind].
  destruct (put_left_ok st1 p (Some l) None) as (st2 & -> & D2 & R2 & L2); [by rewrite G1|]. cbn [rbind].
  apply NoDup_app in HndT as (_ & HdL & [HeR HndR]%NoDup_cons). rewrite HRe in HndR. cbn in HndR.
  apply NoDup_cons in HndR as [HpQ _].
  destruct (splice_done st2 q1 (Some p) (Node Le p Q)) as (T' & HT' & Hin); try done.
  - split; [done|]. exists (Some l), pq. rewrite L2, R2, decide_True, G2 by done.
    split; [done|]. split; [done|]. split; (eapply tr_agree; [|done]); intros k Hk.
    + destruct (I1 k ltac:(auto)) as [F1 F2]. rewrite R2, L2, decide_False; [done|].
      intros ->. apply (HdL p Hk). by right.
    + destruct (I1 k) as [F1 F2]; [right; right; rewrite HRe; by right|].
      rewrite R2, L2, decide_False; [done|]. by intros ->.
  - by rewrite HRe.
  - intros k Hk. rewrite R2, L2, decide_False; [by apply P1|]. apply outside_ne; auto.
  - exists st2, q1, T'. split; [done|]. split; [done|]. split; [done|].
    split; [by eapply same_data_trans|done].
Qed.

(** The successor is further down: it is taken out and takes the place of
    [e]. *)
Lemma splice_far fuel M1 m M2 p Q :
  Re = Node (Node M1 m M2) p Q -> Le <> Leaf -> (length (inorder Re) < fuel)%nat -> spliced fuel.
Proof.
  intros HRe HLe Hf. unfold spliced, splice_out.
  destruct Htree as [_ (pl & pr & Hl & Hr & HL & HR)]. destruct splice_disjoint as [_ HndT].
  rewrite HRe in HR. destruct HR as [-> (pm & pq & Hm & Hq & HM & HQ)].
  assert (pm = Some m) as -> by (by destruct HM). set (M := Node M1 m M2) in *.
  rewrite (RIGHT_ok _ _ _ Hr), (LEFT_ok _ _ _ Hl). cbn [rbind].
  destruct pl as [l|]; [|by destruct Le; [|destruct HL]].
  rewrite (LEFT_ok _ _ _ Hm). cbn [rbind].
  rewrite HRe in Hf. cbn [inorder] in Hf. rewrite length_app in Hf. cbn [length] in Hf.
  destruct (successor_spec fuel st p p m [] (mirror M)) as (K & p' & x & px & X & -> & HK & Hp' & Hx & Hpx & HX & Hkeys);
    [done|done|by apply tr_mirror|rewrite inorder_mirror, length_reverse; lia|].
  cbn [rbind keys mbind list_bind app] in *. rewrite inorder_mirror in Hkeys.
  assert (HinM : inorder M = x :: reverse (keys K ++ inorder X)).
  { rewrite <- (reverse_involutive (inorder M)), Hkeys, (assoc_L (++)), reverse_app. done. }
  assert (HinRe : inorder Re = x :: reverse (keys K ++ inorder X) ++ p :: inorder Q).
  { rewrite HRe. cbn [inorder]. by rewrite HinM. }
  apply NoDup_app in HndT as (HndL & HdL & [HeR HndR]%NoDup_cons). rewrite HinRe in HndR, HeR.
  setoid_rewrite HinRe in HdL.
  apply NoDup_cons in HndR as [HxR HndR]. apply NoDup_app in HndR as (HndK & HdK & [HpQ HndQ]%NoDup_cons).
  rewrite NoDup_rev in HndK.
  rewrite elem_of_app, elem_of_cons, elem_of_reverse, elem_of_app in HxR.
  setoid_rewrite elem_of_reverse in HdK. setoid_rewrite elem_of_cons in HdK.
  assert (Hinside : forall k, k = x \/ k ∈ keys K \/ k ∈ inorder X \/ k = p \/ k ∈ inorder Q ->
    k ∈ inorder Re /\ k <> e).
  { intros k Hk. assert (Hk' : k ∈ x :: reverse (keys K ++ inorder X) ++ p :: inorder Q).
    { rewrite elem_of_cons, elem_of_app, elem_of_cons, elem_of_reverse, elem_of_app. tauto. }
    rewrite HinRe. split; [done|]. by intros ->. }
  assert (HLe' : forall k, k ∈ inorder Le -> k <> e /\ k ∉ inorder Re).
  { intros k Hk. specialize (HdL k Hk). rewrite HinRe. rewrite elem_of_cons in HdL. tauto. }
  assert (HpK : NoDup (p :: keys K)).
  { apply NoDup_app in HndK as (HndK & _). apply NoDup_cons. split; [|done]. intros Hin.
    apply (HdK p); [apply elem_of_app; by left|by left]. }
  pose proof (spine_last _ _ _ _ _ HK) as Hp'in. rewrite elem_of_cons in Hp'in.
  assert (Hp'x : p' <> x /\ p' ∉ inorder X /\ p' ∉ inorder Q).
  { apply NoDup_app in HndK as (_ & HdX & _). split; [|split].
    - intros ->. tauto.
    - intros Hin. destruct Hp'in as [->|Hk]; [|by apply (HdX p' Hk)].
      apply (HdK p); [apply elem_of_app; by right|by left].
    - intros Hin. destruct Hp'in as [->|Hk]; [done|].
      apply (HdK p'); [apply elem_of_app; by left|by right]. }
  destruct Hp'x as (Hp'x & Hp'X & Hp'Q).
  destruct (slot_step (Some x)) as (st1 & q1 & -> & D1 & P1 & I1 & Q1 & S1). cbn [rbind].
  destruct (I1 e ltac:(auto)) as [E1 E2].
  assert (IR : forall k, k ∈ inorder Re -> Lp st1 k = Lp st k /\ Rp st1 k = Rp st k) by auto.
  destruct (Hinside x ltac:(auto)) as [HxRe Hxe]. destruct (Hinside p' ltac:(tauto)) as [Hp'Re Hp'e].
  destruct (IR x HxRe) as [X1 X2]. destruct (IR p' Hp'Re) as [Y1 Y2].
  rewrite (RIGHT_ok st1 x px) by (by rewrite X2). cbn [rbind].
  destruct (put_left_ok st1 p' px (Some x)) as (st2 & -> & D2 & R2 & L2); [by rewrite Y1|]. cbn [rbind].
  rewrite (LEFT_ok st2 e (Some l)) by (by rewrite L2, decide_False, E1). cbn [rbind].
  destruct (put_left_ok st2 x (Some l) None) as (st3 & -> & D3 & R3 & L3).
  { by rewrite L2, decide_False, X1. }
  cbn [rbind]. rewrite (RIGHT_ok st3 e (Some p)) by (by rewrite R3, R2, E2). cbn [rbind].
  destruct (put_right_ok st3 x (Some p) px) as (st4 & -> & D4 & L4 & R4); [by rewrite R3, R2, X2|].
  cbn [rbind].
  destruct (put_left_ok st4 e None (Some l)) as (st5 & -> & D5 & R5 & L5).
  { by rewrite L4, L3, L2, !decide_False, E1. }
  cbn [rbind].
  destruct (put_right_ok st5 e None (Some p)) as (st6 & -> & D6 & L6 & R6).
  { by rewrite R5, R4, R3, R2, decide_False, E2. }
  cbn [rbind].
  assert (HLk : forall k, k <> e -> Lp st6 k = if decide (k = x) then Some (Some l) else
    if decide (k = p') then Some px else Lp st1 k).
  { intros k Hk. by rewrite L6, L5, decide_False, L4, L3, L2. }
  assert (HRk : forall k, k <> e -> Rp st6 k = if decide (k = x) then Some (Some p) else Rp st1 k).
  { intros k Hk. by rewrite R6, decide_False, R5, R4, R3, R2. }
  assert (Hag : forall k, k ∈ keys K \/ k ∈ inorder X \/ k = p \/ k ∈ inorder Q ->
    Rp st6 k = Rp st k /\ (k <> p' -> Lp st6 k = Lp st k)).
  { intros k Hk. destruct (Hinside k ltac:(auto)) as [HkR Hke]. destruct (IR k HkR) as [F1 F2].
    assert (Hkx : k <> x) by (intros ->; tauto).
    rewrite HRk, HLk, decide_False by done. split; [done|]. intros Hkp. by rewrite !decide_False. }
  assert (HK6 : spine (Rp st6) (Lp st6) p K p').
  { eapply spine_agree; [done| | |exact HK]; intros k Hk.
    - apply Hag. auto.
    - intros Hkp. apply Hag; [|done]. apply elem_of_cons in Hk as [->|Hk]; auto. }
  destruct (spine_plug _ _ _ _ _ px X HK6) as (pz & Hpz & HZ).
  { by rewrite HLk, decide_False, decide_True. }
  { eapply tr_agree; [|exact HX]. intros k Hk. destruct (Hag k ltac:(auto)) as [F1 F2].
    rewrite F1, F2; [done|]. by intros ->. }
  destruct (splice_done st6 q1 (Some x) (Node Le x (Node (mirror (plug K X)) p Q))) as (T' & HT' & Hin); try done.
  - split; [done|]. exists (Some l), (Some p). rewrite HLk, HRk, !decide_True by done.
    split; [done|]. split; [done|]. split.
    + eapply tr_agree; [|exact HL]. intros k Hk. destruct (HLe' k Hk) as [Hke HkR].
      destruct (I1 k ltac:(auto)) as [F1 F2]. rewrite HLk, HRk by done.
      assert (Hne : k <> x /\ k <> p') by (split; by intros ->). destruct Hne.
      by rewrite !decide_False.
    + split; [done|]. exists pz, pq. destruct (Hag p ltac:(auto)) as [F1 _]. rewrite F1.
      split; [done|]. split; [done|]. split; [by apply tr_mirror|].
      eapply tr_agree; [|exact HQ]. intros k Hk. destruct (Hag k ltac:(auto)) as [G1 G2].
      rewrite G1, G2; [done|]. by intros ->.
  - rewrite HinRe. cbn [inorder]. by rewrite inorder_mirror, inorder_plug.
  - intros k Hk. assert (Hne : k <> e /\ k <> x /\ k <> p').
    { split; [|split]; apply outside_ne; auto. }
    destruct Hne as (? & ? & ?).
    rewrite HLk, HRk, !(decide_False (P := k = x)), (decide_False (P := k = p')) by done. by apply P1.
  - exists st6, q1, T'. split; [done|]. split; [done|]. split; [done|]. split; [|done].
    repeat (eapply same_data_trans; [eassumption|]). apply same_data_refl.
Qed.

Lemma splice_out_spec fuel : (length (inorder Re) < fuel)%nat -> spliced fuel.
Proof.
  intros Hf. assert (Hcase : forall T, T = Leaf \/ exists M p Q, T = Node M p Q) by (intros []; eauto).
  destruct (Hcase Re) as [HRe|(M & p & Q & HRe)]; [by apply splice_no_right|].
  destruct (Hcase Le) as [HLe|(L1 & l & L2 & HLe)]; [apply splice_no_left; [by rewrite HRe|done]|].
  assert (HLe' : Le <> Leaf) by by rewrite HLe.
  destruct M as [|M1 m M2]; [by eapply splice_next|by eapply splice_far].
Qed.
End splice.

Lemma store_uid_children st e ev u :
  st !! e = Some ev ->
  let st' := <[e := set_uid u ev]> st in
  (forall k, Lp st' k = Lp st k) /\ (forall k, Rp st' k = Rp st k).
Proof.
  intros Hev st'. split; intros k; unfold Lp, Rp, st'; destruct (decide (e = k)) as [<-|];
    rewrite ?lookup_insert_eq, ?lookup_insert_ne by done; by rewrite ?Hev.
Qed.

Lemma splay_cancel_law fuel st q es e ev :
  splay_rep st q es -> st !! e = Some ev -> e ∈ es -> 0 < uid_ ev ->
  in_order (tm st) es -> in_turn (tm st) (unum st) es -> (length es < fuel)%nat ->
  exists st' q', splay_cancel fuel e st q = Ok (st', q') /\ splay_rep st' q' (remove_ev e es) /\
    same_data (<[e := set_uid (- uid_ ev) ev]> st) st'.
Proof.
  intros (T & HT & <- & Hnd & Hsz) Hev Hin Hu Ho Htn Hf. unfold splay_cancel.
  rewrite (load_Some _ _ _ Hev). cbn [rbind]. rewrite (proj2 (Z.leb_gt _ _) Hu).
  assert (Hfind : exists s pre post L R,
    (if bool_decide (root_ q = Some e) then Ok AtRoot else find_slot fuel e ev AtRoot st q) = Ok s /\
    slot_of st s (root_ q) pre post /\
    (forall k, slot_node s = Some k -> k ∈ pre ++ post /\ is_Some (st !! k)) /\
    tr (Lp st) (Rp st) (Some e) (Node L e R) /\ inorder T = pre ++ inorder (Node L e R) ++ post).
  { case_bool_decide as He.
    - rewrite He in HT. destruct (tr_Some _ _ _ _ HT) as (L & R & ->).
      exists AtRoot, [], [], L, R. split; [done|]. split; [apply slot_of_root|]. split; [done|].
      split; [done|]. by rewrite app_nil_r.
    - destruct (find_slot_spec fuel e ev AtRoot st q T [] [] (root_ q) (root_ q))
        as (s & k & pre & post & L & R & H1 & H2 & H3 & H4 & H5 & H6); try done.
      + apply slot_of_root.
      + cbn [app]. by rewrite app_nil_r.
      + cbn [app] in H6. rewrite app_nil_r in H6. exists s, pre, post, L, R. split; [done|]. split; [done|].
        split; [|by split]. intros k' Hk'. assert (k' = k) as -> by congruence. split; [done|].
        apply (tr_in st (root_ q) T); [done|]. rewrite H6. rewrite elem_of_app in H4.
        rewrite !elem_of_app. tauto. }
  destruct Hfind as (s & pre & post & L & R & -> & Hs & Hk & Htr & HinT). cbn [rbind].
  rewrite (store_Some _ _ _ _ Hev). cbn [rbind].
  destruct (store_uid_children st e ev (- uid_ ev) Hev) as [HL HR]. set (st1 := <[e := _]> st) in *.
  set (q1 := SplayQ _ _ _). rewrite HinT in Hnd, Hf, Hsz |- *.
  destruct (splice_out_spec st1 q1 s e pre post L R) with (fuel := fuel)
    as (st' & q' & T' & E & HT' & Hin' & D & Hq); try done.
  - intros st2 p' S' HS' Hag. apply Hs; [done|]. intros k Hk'. rewrite <- HL, <- HR. by apply Hag.
  - intros k Hk'. destruct (Hk k Hk') as [H1 [v Hv]]. split; [done|]. unfold st1.
    destruct (decide (e = k)) as [<-|]; [rewrite lookup_insert_eq|rewrite lookup_insert_ne, Hv by done]; by eexists.
  - eapply tr_agree; [|exact Htr]. done.
  - rewrite !length_app in Hf. cbn [inorder] in Hf. rewrite length_app in Hf. cbn [length] in Hf. lia.
  - exists st', q'. split; [done|]. split; [|done]. exists T'. split; [done|].
    assert (Erm : remove_ev e (pre ++ inorder (Node L e R) ++ post) = inorder T').
    { rewrite Hin'. cbn [inorder] in Hnd |- *. rewrite <- (assoc_L (++)), (assoc_L (++) pre) in Hnd |- *.
      cbn [app] in Hnd |- *. rewrite remove_ev_middle by done. by rewrite <- !(assoc_L (++)). }
    rewrite Erm. split; [done|]. split; [rewrite <- Erm; by apply NoDup_remove_ev|].
    rewrite Hq. cbn [qsize_ q1]. rewrite Hsz, Hin', !length_app. cbn [inorder].
    rewrite length_app. cbn [length].
    replace (length pre + (length (inorder L) + S (length (inorder R)) + length post))%nat with
      (S (length pre + (length (inorder L) + length (inorder R) + length post)))%nat by lia.
    apply wrap_size_sub.
Qed.

#[export] Instance splay_queue_laws : EventQueueLaws splayq.
Proof.
  refine {| qrep := splay_rep; room _ _ := True; by_number := True |}.
  - by intros st q es (T & _ & _ & Hnd & _).
  - intros st st' q es (T & HT & <- & Hnd & Hsz) Hag. exists T. split; [|done].
    eapply tr_agree; [|exact HT]. intros k Hk. unfold Lp, Rp. by rewrite Hag.
  - intros st. exists Leaf. split; [done|]. split; [done|]. split; [constructor|done].
  - done.
  - intros fuel st q es e ev n Hs _ He Hne Hes Hn Ho Hf.
    destruct (splay_insert_law fuel st q es e ev Hs He Hne Hes Hn Ho Hf) as (st' & q' & ? & ? & ?).
    by exists st', q'.
  - intros fuel st q es n Hs _ Hf _.
    destruct (splay_deque_law fuel st q es Hs Hf) as (st' & q' & ? & ? & ?). by exists st', q'.
  - intros fuel st q es e ev n Hs _ He Hin Hu _ Ho Htn Hf.
    destruct (splay_cancel_law fuel st q es e ev Hs He Hin Hu Ho (Htn I) Hf) as (st' & q' & ? & ? & D).
    exists st', q'. split; [done|]. split; [done|]. split; [done|]. split.
    + intros k Hk. by rewrite D, lookup_insert_ne.
    + by rewrite D, lookup_insert_eq.
  - intros fuel st q es e ev Hs He Hu. cbn. unfold splay_cancel. rewrite (load_Some _ _ _ He). cbn [rbind].
    by rewrite (proj2 (Z.leb_le _ _) Hu).
  - intros fuel st q es u n (T & HT & <- & Hnd & Hsz) _ Hf _. cbn. unfold splay_lookup.
    destruct (uid_lookup_spec fuel u st (root_ q) T HT Hf) as (r & E & Hr). cbn [lookup_uid_ root_].
    rewrite E. cbn [rbind]. eexists r, _. split; [done|]. split; [by exists T|]. by split.
  - intros st q es n Hs Hroom. cbn. exists q. split; [|done]. by rewrite (splay_head_law st q es Hs).
Defined.
