(* ===== verification/Scheduler.v ===== *)
(** * The simulator's scheduler (class Scheduler, common/scheduler.{h,cc})

    Written over the interface of an event queue, as the base class is over
    its pure virtual functions.  A handler is a function from its address,
    the event, the time and a state of its own to a new state and the calls
    it makes on the scheduler, in order. *)

From stdpp Require Import base numbers list gmap sorting.
From Stdlib Require Import ZArith Lia.
From S2P Require Import Prelude Store Float64 EventQueue.

Local Open Scope Z_scope.

Record sched (Q : Type) := Sched {
  clock_ : f64;
  halted_ : bool;
  next_uid : Z;          (** the static [uid_] *)
  evs : events;
  queue : Q;
}.
Arguments Sched {Q} _ _ _ _ _.
Arguments clock_ {Q} _.
Arguments halted_ {Q} _.
Arguments next_uid {Q} _.
Arguments evs {Q} _.
Arguments queue {Q} _.

(** The calls a handler makes. *)
Variant action :=
  | ASchedule (h : option positive) (e : positive) (delay : f64)
  | ACancel (e : positive)
  | AFree (e : positive)            (** [delete e] *)
  | AHalt.

Definition SCHED_START : f64 := f0.

Section scheduler.
Context {Q : Type} `{EventQueue Q}.
Implicit Types (s : sched Q).

(** The constructor; [uid_] starts at 1. *)
Definition new_sched : sched Q := Sched SCHED_START false 1 ∅ empty_queue.

Definition schedule (fuel : nat) (h : option positive) (e : positive) (delay : f64) s
    : result (sched Q) :=
  match h with
  | None => Fault Aborted
  | Some _ =>
      let! ev := load (evs s) (Some e) in
      if 0 <? uid_ ev then Fault Aborted
      else if next_uid s <? 0 then Fault Aborted
      else
        let! st := store (evs s) (Some e)
          (set_schedule (next_uid s) h (fadd (clock_ s) delay)) in
        let! '(st', q') := eq_insert fuel e st (queue s) in
        Ok (Sched (clock_ s) (halted_ s) (wrap_i64 (next_uid s + 1)) st' q')
  end.

Definition cancel (fuel : nat) (e : positive) s : result (sched Q) :=
  let! '(st, q) := eq_cancel fuel e (evs s) (queue s) in
  Ok (Sched (clock_ s) (halted_ s) (next_uid s) st q).

Definition run_action (fuel : nat) (a : action) s : result (sched Q) :=
  match a with
  | ASchedule h e d => schedule fuel h e d s
  | ACancel e => cancel fuel e s
  | AFree e =>
      let! st := release (evs s) (Some e) in
      Ok (Sched (clock_ s) (halted_ s) (next_uid s) st (queue s))
  | AHalt => Ok (Sched (clock_ s) true (next_uid s) (evs s) (queue s))
  end.

Fixpoint run_actions (fuel : nat) (acts : list action) s : result (sched Q) :=
  match acts with
  | [] => Ok s
  | a :: acts' => let! s' := run_action fuel a s in run_actions fuel acts' s'
  end.

(** [reset ()] *)
Definition reset s : sched Q :=
  Sched SCHED_START (halted_ s) (next_uid s) (evs s) (queue s).

Context {W : Type} (handle : positive -> positive -> f64 -> W -> W * list action).

(** [dispatch (p, t)]: the clock moves to [t], the event is marked as being
    dispatched, and its handler runs. *)
Definition dispatch (fuel : nat) (p : positive) (t : f64) (w : W) s : result (W * sched Q) :=
  if flt t (clock_ s) then Fault Aborted
  else
    let! st := store (evs s) (Some p) (fun v => set_uid (- uid_ v) v) in
    let! v := load st (Some p) in
    match handler_ v with
    | None => Fault NullDeref
    | Some h =>
        let '(w', acts) := handle h p t w in
        let! s' := run_actions fuel acts (Sched t (halted_ s) (next_uid s) st (queue s)) in
        Ok (w', s')
    end.

(** The first [n] iterations of the loop of [run], with the events they
    dispatched and their times. *)
Fixpoint run_steps (n fuel : nat) (w : W) s : result (W * sched Q * list (positive * f64)) :=
  match n with
  | O => Ok (w, s, [])
  | S n' =>
      if halted_ s then Ok (w, s, [])
      else
        let! '(r, st, q) := eq_deque fuel (evs s) (queue s) in
        let s1 := Sched (clock_ s) (halted_ s) (next_uid s) st q in
        match r with
        | None => Ok (w, s1, [])
        | Some p =>
            let! v := load st (Some p) in
            let! '(w', s2) := dispatch fuel p (time_ v) w s1 in
            let! '(w2, s3, tr) := run_steps n' fuel w' s2 in
            Ok (w2, s3, (p, time_ v) :: tr)
        end
  end.

(** ** Commands of the Tcl object *)

(** [at t proc]: [None] is the error "can't schedule command in past".
    The new event's handler is [at_handler]. *)
Definition at_command (fuel : nat) (at_handler : positive) (t : f64) s
    : result (option (positive * sched Q)) :=
  let '(e, st) := alloc (evs s) new_event in
  let delay := if flt t f0 then fneg t else fsub t (clock_ s) in
  if flt delay f0 then Ok None
  else
    let! s' := schedule fuel (Some at_handler) e delay
      (Sched (clock_ s) (halted_ s) (next_uid s) st (queue s)) in
    Ok (Some (e, s')).

(** [at-now proc] *)
Definition at_now_command (fuel : nat) (at_handler : positive) s : result (positive * sched Q) :=
  let '(e, st) := alloc (evs s) new_event in
  let! s' := schedule fuel (Some at_handler) e f0
    (Sched (clock_ s) (halted_ s) (next_uid s) st (queue s)) in
  Ok (e, s').

(** [cancel uid] (and [at uid]): look the event up, cancel and free it. *)
Definition cancel_command (fuel : nat) (u : Z) s : result (sched Q) :=
  let! '(r, q) := eq_lookup fuel u (evs s) (queue s) in
  let s1 := Sched (clock_ s) (halted_ s) (next_uid s) (evs s) q in
  match r with
  | None => Ok s1
  | Some e => let! s2 := cancel fuel e s1 in run_action fuel (AFree e) s2
  end.
End scheduler.

(** ** The invariant *)

(** A pending event: to be dispatched at a real time not before the clock,
    by some handler, and numbered. *)
Record pending (clock : f64) (next : Z) (ev : event) : Prop := {
  p_handler : is_Some (handler_ ev);
  p_valid : valid (time_ ev) = true;
  p_nonneg : nonneg (time_ ev) = true;
  p_future : fle clock (time_ ev) = true;
  p_uid : 0 < uid_ ev < next;
}.

(** What holds of the events [es] waiting at time [clock], numbers being
    given out from [next]. *)
Record waiting (clock : f64) (next : Z) (st : events) (es : list positive) : Prop := {
  w_order : in_order (tm st) es;
  w_turn : in_turn (tm st) (unum st) es;
  w_pending : forall e, e ∈ es -> exists ev, st !! e = Some ev /\ pending clock next ev;
  w_others : forall e ev, st !! e = Some ev -> 0 < uid_ ev -> e ∈ es;
  w_uids : forall e1 e2 v1 v2, st !! e1 = Some v1 -> st !! e2 = Some v2 ->
    0 < uid_ v1 -> uid_ v1 = uid_ v2 -> e1 = e2;
  w_clock : valid clock = true /\ nonneg clock = true;
  w_next : 0 < next;
}.

(** The times and numbers of events that kept their data. *)
Lemma data_lookup (st st' : events) k v :
  ev_data <$> st' !! k = ev_data <$> st !! k -> st' !! k = Some v ->
  exists v0, st !! k = Some v0 /\ handler_ v0 = handler_ v /\ time_ v0 = time_ v /\
    uid_ v0 = uid_ v.
Proof.
  intros Hd Hv. rewrite Hv in Hd. destruct (st !! k) as [v0|]; [|done].
  injection Hd as ? ? ?. eauto 10.
Qed.

Lemma data_num (st st' : events) k :
  ev_data <$> st' !! k = ev_data <$> st !! k -> unum st' k = unum st k.
Proof.
  unfold unum. intros Hd. destruct (st' !! k) as [v'|], (st !! k) as [v|]; try done.
  by injection Hd.
Qed.

Section waiting.
Context (c : f64) (nx : Z).
Implicit Types (st : events) (es : list positive).

Lemma w_numbers st es :
  waiting c nx st es -> Forall (fun x => is_Some (st !! x) /\ is_nan (tm st x) = false) es.
Proof.
  intros Hw. apply Forall_forall. intros e He.
  destruct (w_pending _ _ _ _ Hw e He) as (ev & Hev & Hp). unfold tm. rewrite Hev.
  split; [done|]. apply nonneg_not_nan, Hp.
Qed.

Lemma w_idle st es e v : waiting c nx st es -> st !! e = Some v -> uid_ v <= 0 <-> e ∉ es.
Proof.
  intros Hw Hv. split.
  - intros Hu Hin. destruct (w_pending _ _ _ _ Hw e Hin) as (v' & Hv' & [_ _ _ _ P]).
    assert (v' = v) as -> by congruence. lia.
  - intros Hn. destruct (Z.le_gt_cases (uid_ v) 0); [done|]. exfalso. apply Hn.
    by eapply (w_others _ _ _ _ Hw).
Qed.

Lemma w_future st es k : waiting c nx st es -> k ∈ es -> fle c (tm st k) = true.
Proof.
  intros Hw Hk. destruct (w_pending _ _ _ _ Hw k Hk) as (v & Hv & [_ _ _ P _]).
  unfold tm. by rewrite Hv.
Qed.

(** Only the data of the events matters. *)
Lemma waiting_data st st' es :
  waiting c nx st es -> (forall k, ev_data <$> st' !! k = ev_data <$> st !! k) ->
  waiting c nx st' es.
Proof.
  intros [Ho Ht Hp Hot Hu Hc Hn] Hd. constructor; try done.
  - eapply in_order_ext; [|exact Ho]. apply Forall_forall. intros k _. symmetry.
    apply data_tm, Hd.
  - eapply in_turn_ext; [|exact Ht]. apply Forall_forall. intros k _.
    split; symmetry; [apply data_tm, Hd|apply data_num, Hd].
  - intros e He. destruct (Hp e He) as (ev & Hev & [? ? ? ? ?]).
    specialize (Hd e). rewrite Hev in Hd. destruct (st' !! e) as [ev'|]; [|done].
    injection Hd as Eh Et Eu. exists ev'. split; [done|].
    constructor; rewrite ?Eh, ?Et, ?Eu; done.
  - intros e ev Hev Hpos. destruct (data_lookup _ _ _ _ (Hd e) Hev) as (v0 & Hv0 & _ & _ & Eu).
    eapply Hot; [done|]. by rewrite Eu.
  - intros e1 e2 v1 v2 H1 H2 Hpos Heq.
    destruct (data_lookup _ _ _ _ (Hd e1) H1) as (w1 & Hw1 & _ & _ & E1).
    destruct (data_lookup _ _ _ _ (Hd e2) H2) as (w2 & Hw2 & _ & _ & E2).
    eapply Hu; [done|done|by rewrite E1|by rewrite E1, E2].
Qed.

(** Fewer events, changes to the ones that do not wait, and an advance of
    the clock. *)
Lemma waiting_fewer st st' es es' c' :
  waiting c nx st es -> (forall k, k ∈ es' -> k ∈ es) -> in_order (tm st) es' ->
  in_turn (tm st) (unum st) es' ->
  (forall k, k ∈ es' -> st' !! k = st !! k) ->
  (forall k v, k ∉ es' -> st' !! k = Some v -> uid_ v <= 0) ->
  valid c' = true -> nonneg c' = true ->
  (forall k, k ∈ es' -> fle c' (tm st k) = true) -> waiting c' nx st' es'.
Proof.
  intros Hw Hsub Ho Htn Hin Hout Vc Nc Hc.
  assert (Hpos : forall k v, st' !! k = Some v -> 0 < uid_ v -> k ∈ es' /\ st !! k = Some v).
  { intros k v Hv Hu. destruct (decide (k ∈ es')) as [Hk|Hk].
    - split; [done|]. by rewrite <- Hin.
    - specialize (Hout k v Hk Hv). lia. }
  constructor; [| | | | |done|apply Hw].
  - eapply in_order_ext; [|exact Ho]. apply Forall_forall. intros k Hk. unfold tm. by rewrite Hin.
  - eapply in_turn_ext; [|exact Htn]. apply Forall_forall. intros k Hk. unfold tm, unum. by rewrite Hin.
  - intros e He. destruct (w_pending _ _ _ _ Hw e (Hsub e He)) as (v & Hv & [P1 P2 P3 P4 P5]).
    exists v. rewrite Hin by done. split; [done|]. constructor; try done.
    specialize (Hc e He). unfold tm in Hc. by rewrite Hv in Hc.
  - intros e v Hv Hu. by apply (Hpos e v).
  - intros e1 e2 v1 v2 H1 H2 Hu Heq.
    destruct (Hpos _ _ H1 Hu) as [_ W1]. destruct (Hpos _ _ H2 ltac:(lia)) as [_ W2].
    by eapply (w_uids _ _ _ _ Hw).
Qed.

(** One more event, numbered [nx]. *)
Lemma waiting_numbered st es e ev h t :
  waiting c nx st es -> st !! e = Some ev -> uid_ ev <= 0 ->
  valid t = true -> nonneg t = true -> fle c t = true ->
  let st' := <[e := set_schedule nx (Some h) t ev]> st in
  e ∉ es /\ in_order (tm st') es /\ (forall k, k ∈ es -> st' !! k = st !! k) /\
  waiting c (nx + 1) st' (ord_insert (tm st') e es).
Proof.
  intros Hw Hev Hu Vt Nt Hfut st'. pose proof (w_next _ _ _ _ Hw) as Hnx.
  assert (Hne : e ∉ es) by (by eapply w_idle).
  assert (Hst : forall k, k <> e -> st' !! k = st !! k)
    by (intros k Hk; unfold st'; by rewrite lookup_insert_ne).
  assert (Hte : st' !! e = Some (set_schedule nx (Some h) t ev)) by apply lookup_insert_eq.
  assert (Hin : forall k, k ∈ es -> st' !! k = st !! k)
    by (intros k Hk; apply Hst; by intros ->).
  assert (Htm : Forall (fun k => tm st k = tm st' k) es).
  { apply Forall_forall. intros k Hk. unfold tm. by rewrite Hin. }
  assert (Ho : in_order (tm st') es) by (eapply in_order_ext; [exact Htm|apply Hw]).
  assert (Hnan : Forall (fun k => is_nan (tm st' k) = false) es).
  { pose proof (w_numbers _ _ Hw) as HF. rewrite Forall_forall in HF, Htm |- *.
    intros k Hk. rewrite <- Htm by done. by apply HF. }
  assert (Hen : is_nan (tm st' e) = false) by (unfold tm; rewrite Hte; by apply nonneg_not_nan).
  split_and!; try done. constructor; [| | | | |apply Hw|lia].
  - by apply ord_insert_in_order.
  - apply in_turn_ord_insert; try done.
    + eapply in_turn_ext; [|apply (w_turn _ _ _ _ Hw)]. apply Forall_forall. intros k Hk.
      unfold tm, unum. by rewrite Hin.
    + apply Forall_forall. intros k Hk _. unfold unum at 2. rewrite Hte. cbn [uid_ set_schedule].
      destruct (w_pending _ _ _ _ Hw k Hk) as (v0 & Hv0 & [_ _ _ _ P5]).
      unfold unum. rewrite Hin, Hv0 by done. lia.
  - intros k Hk. apply elem_of_ord_insert in Hk as [->|Hk].
    + eexists. split; [exact Hte|]. constructor; cbn; try done. lia.
    + destruct (w_pending _ _ _ _ Hw k Hk) as (v0 & Hv0 & [P1 P2 P3 P4 P5]).
      exists v0. rewrite Hin by done. split; [done|]. constructor; try done. lia.
  - intros k v Hv Hpos. rewrite elem_of_ord_insert. destruct (decide (k = e)) as [->|Hk]; [by left|].
    right. rewrite Hst in Hv by done. by eapply (w_others _ _ _ _ Hw).
  - assert (Hnum : forall k v, st' !! k = Some v -> 0 < uid_ v ->
      k = e /\ uid_ v = nx \/ uid_ v < nx /\ st !! k = Some v).
    { intros k v Hv Hpos. destruct (decide (k = e)) as [->|Hk].
      - left. rewrite Hte in Hv. by injection Hv as <-.
      - right. rewrite Hst in Hv by done. split; [|done].
        destruct (w_pending _ _ _ _ Hw k) as (v1 & Hv1 & [_ _ _ _ Hp]).
        { by eapply (w_others _ _ _ _ Hw). }
        assert (v1 = v) as -> by congruence. lia. }
    intros e1 e2 v1 v2 H1 H2 Hpos Heq.
    destruct (Hnum _ _ H1 Hpos) as [[-> E1]|(L1 & W1)];
      destruct (Hnum _ _ H2 ltac:(lia)) as [[-> E2]|(L2 & W2)];
      [done|lia|lia|]. by eapply (w_uids _ _ _ _ Hw).
Qed.
End waiting.

Lemma last_default {A} (x : A) l d d' : List.last (x :: l) d = List.last (x :: l) d'.
Proof. revert x. induction l as [|y l IH]; intros x; [done|]. apply (IH y). Qed.

Section invariant.
Context {Q : Type} `{EventQueueLaws Q}.
Implicit Types (s : sched Q).

Definition sched_ok s (es : list positive) : Prop :=
  qrep (evs s) (queue s) es /\ waiting (clock_ s) (next_uid s) (evs s) es.

Lemma new_sched_ok : sched_ok (new_sched (Q := Q)) [].
Proof. split; [apply qrep_empty|]. constructor; simpl; try done; [constructor|constructor|set_solver]. Qed.

(** [n] more calls of [schedule] are within the bounds of the run. *)
Definition budget (fuel : nat) s (es : list positive) (n : nat) : Prop :=
  room (queue s) n /\ (length es + n < fuel)%nat /\ next_uid s + Z.of_nat n < 2 ^ 63.

Lemma schedule_full fuel h e delay s es ev n :
  sched_ok s es -> budget fuel s es (S n) -> evs s !! e = Some ev -> uid_ ev <= 0 ->
  valid delay = true -> nonneg delay = true ->
  exists s', schedule fuel (Some h) e delay s = Ok s' /\
    sched_ok s' (ord_insert (tm (evs s')) e es) /\
    budget fuel s' (ord_insert (tm (evs s')) e es) n /\
    clock_ s' = clock_ s /\ halted_ s' = halted_ s /\
    tm (evs s') e = fadd (clock_ s) delay /\ unum (evs s') e = next_uid s /\
    handler_ <$> evs s' !! e = Some (Some h) /\
    (forall k, k <> e -> ev_data <$> evs s' !! k = ev_data <$> evs s !! k).
Proof.
  intros [Hq Hw] (Hroom & Hlen & Hmax) Hev Hu Vd Nd. pose proof (w_next _ _ _ _ Hw) as Hnx.
  destruct (w_clock _ _ _ _ Hw) as [Vc Nc].
  destruct (fadd_nonneg _ _ Vc Vd Nc Nd) as (Nt & Vt & Hct & _).
  destruct (waiting_numbered _ _ _ es e ev h _ Hw Hev Hu Vt Nt Hct) as (Hne & Ho & Hin & Hw').
  unfold schedule. mem_step. rewrite (proj2 (Z.ltb_ge _ _) Hu), (proj2 (Z.ltb_ge _ _)) by lia.
  cbn [rbind]. set (st := <[e := _]> (evs s)) in *.
  destruct (insert_law fuel st (queue s) es e (set_schedule (next_uid s) (Some h)
    (fadd (clock_ s) delay) ev) n) as (st' & q' & -> & Hq' & Hroom' & Hd);
    [by eapply qrep_frame|done|apply lookup_insert_eq|done| |by apply nonneg_not_nan|done|lia|].
  { pose proof (w_numbers _ _ _ _ Hw) as HF. rewrite Forall_forall in HF |- *.
    intros k Hk. specialize (HF k Hk). unfold tm in *. by rewrite Hin. }
  cbn [rbind]. rewrite wrap_i64_id by (unfold in_i64; lia).
  assert (Htm : forall k, tm st' k = tm st k) by (intros k; apply data_tm, Hd).
  eexists. split; [done|]. cbn [evs].
  assert (Eins : ord_insert (tm st') e es = ord_insert (tm st) e es)
    by (apply ord_insert_ext; [done|by apply Forall_forall]).
  rewrite Eins. split_and!; [split; [done|by eapply waiting_data]| |done|done| | | |].
  - unfold budget. cbn. rewrite length_ord_insert. split_and!; [done|lia|lia].
  - rewrite Htm. unfold tm, st. by rewrite lookup_insert_eq.
  - rewrite (data_num st st') by apply Hd. unfold unum, st. by rewrite lookup_insert_eq.
  - specialize (Hd e). unfold st in Hd. rewrite lookup_insert_eq in Hd.
    destruct (st' !! e); [|done]. injection Hd as Hh _ _. cbn. by rewrite Hh.
  - intros k Hk. rewrite Hd. unfold st. by rewrite lookup_insert_ne.
Qed.

Lemma schedule_ok fuel h e delay s es ev n :
  sched_ok s es -> budget fuel s es (S n) -> evs s !! e = Some ev -> uid_ ev <= 0 ->
  valid delay = true -> nonneg delay = true ->
  exists s', schedule fuel (Some h) e delay s = Ok s' /\
    sched_ok s' (ord_insert (tm (evs s')) e es) /\
    budget fuel s' (ord_insert (tm (evs s')) e es) n /\
    clock_ s' = clock_ s /\ halted_ s' = halted_ s /\
    tm (evs s') e = fadd (clock_ s) delay /\
    handler_ <$> evs s' !! e = Some (Some h) /\
    (forall k, k <> e -> ev_data <$> evs s' !! k = ev_data <$> evs s !! k).
Proof.
  intros H1 H2 H3 H4 H5 H6.
  destruct (schedule_full fuel h e delay s es ev n H1 H2 H3 H4 H5 H6)
    as (s' & E & Hok & Hb & Hc & Hr & Ht & _ & Hh & Hd).
  exists s'. by split_and!.
Qed.

(** The event scheduled last has the highest number. *)
Lemma schedule_newest fuel h e delay s es ev n s' :
  sched_ok s es -> budget fuel s es (S n) -> evs s !! e = Some ev -> uid_ ev <= 0 ->
  valid delay = true -> nonneg delay = true -> schedule fuel (Some h) e delay s = Ok s' ->
  forall k, k ∈ es -> unum (evs s') k < unum (evs s') e.
Proof.
  intros H1 H2 H3 H4 H5 H6 E k Hk.
  destruct (schedule_full fuel h e delay s es ev n H1 H2 H3 H4 H5 H6)
    as (s1 & E1 & _ & _ & _ & _ & _ & Hu & _ & Hd). rewrite E in E1. injection E1 as <-.
  destruct (w_pending _ _ _ _ (proj2 H1) k Hk) as (v & Hv & [_ _ _ _ P5]).
  rewrite Hu, (data_num (evs s)) by (apply Hd; intros ->; assert (v = ev) as -> by congruence; lia).
  unfold unum. rewrite Hv. lia.
Qed.

Lemma cancel_ok fuel e s es ev n :
  sched_ok s es -> budget fuel s es n -> evs s !! e = Some ev ->
  exists s', cancel fuel e s = Ok s' /\ sched_ok s' (remove_ev e es) /\
    budget fuel s' (remove_ev e es) n /\ clock_ s' = clock_ s /\ halted_ s' = halted_ s /\
    (forall k, k <> e -> ev_data <$> evs s' !! k = ev_data <$> evs s !! k) /\
    ev_data <$> evs s' !! e = Some (handler_ ev, time_ ev, - Z.abs (uid_ ev)).
Proof.
  intros [Hq Hw] (Hroom & Hlen & Hmax) Hev. unfold cancel.
  destruct (Z.le_gt_cases (uid_ ev) 0) as [Hu|Hu].
  - rewrite (cancel_idle_law fuel _ _ es e ev Hq Hev Hu). cbn [rbind].
    rewrite remove_ev_notin by (by eapply w_idle). exists s. destruct s.
    split_and!; try done. cbn [evs] in *. rewrite Hev, Z.abs_neq, Z.opp_involutive by lia. done.
  - assert (Hin : e ∈ es) by (apply (w_others _ _ _ _ Hw e ev Hev); lia).
    destruct (cancel_law fuel _ _ es e ev n Hq Hroom Hev Hin ltac:(lia) (w_numbers _ _ _ _ Hw)
      (w_order _ _ _ _ Hw) (fun _ => w_turn _ _ _ _ Hw) ltac:(lia)) as (st' & q' & -> & Hq' & Hroom' & Hd & He). cbn [rbind].
    pose proof (length_remove_ev e es) as Hle.
    eexists. split; [done|]. cbn [evs clock_ halted_].
    split_and!; [split; [done|]|split_and!; [done|lia|done]|done|done|done|
      by rewrite He, Z.abs_eq by lia].
    (* forget the event first, then let the queue move its links *)
    apply waiting_data with (<[e := set_uid (- uid_ ev) ev]> (evs s)).
    + eapply waiting_fewer; [exact Hw| | | | | |apply Hw..|].
      * intros k. rewrite elem_of_remove_ev. tauto.
      * apply in_order_remove, Hw.
      * apply in_turn_remove, Hw.
      * intros k. rewrite elem_of_remove_ev. intros [Hk _]. by rewrite lookup_insert_ne.
      * intros k v Hk. rewrite lookup_insert_Some. intros [[<- <-]|[Hne Hv]]; [cbn; lia|].
        eapply w_idle; [exact Hw|done|]. rewrite elem_of_remove_ev in Hk. naive_solver.
      * intros k. rewrite elem_of_remove_ev. intros [_ Hk]. by eapply w_future.
    + intros k. cbn [evs]. destruct (decide (k = e)) as [->|Hk].
      * by rewrite lookup_insert_eq, He.
      * by rewrite Hd, lookup_insert_ne.
Qed.

Lemma budget_weaken fuel s es n : budget fuel s es (S n) -> budget fuel s es n.
Proof. intros (H1 & H2 & H3). split_and!; [by apply room_weaken|lia|lia]. Qed.

Lemma budget_mono fuel s es n m : (m <= n)%nat -> budget fuel s es n -> budget fuel s es m.
Proof. induction 1; [done|]. intros Hb%budget_weaken. auto. Qed.

(** The calls a handler may make in a state: schedule an event that is not
    pending, with a handler and a delay that is a number at or above zero;
    cancel or free an event that exists, the latter not pending. *)
Definition legal (a : action) s : Prop :=
  match a with
  | ASchedule h e d =>
      is_Some h /\ valid d = true /\ nonneg d = true /\
      exists ev, evs s !! e = Some ev /\ uid_ ev <= 0
  | ACancel e => is_Some (evs s !! e)
  | AFree e => exists ev, evs s !! e = Some ev /\ uid_ ev <= 0
  | AHalt => True
  end.

Fixpoint legal_run (fuel : nat) (acts : list action) s : Prop :=
  match acts with
  | [] => True
  | a :: acts' => legal a s /\ forall s', run_action fuel a s = Ok s' -> legal_run fuel acts' s'
  end.

Lemma free_ok e s es ev :
  sched_ok s es -> evs s !! e = Some ev -> uid_ ev <= 0 ->
  sched_ok (Sched (clock_ s) (halted_ s) (next_uid s) (delete e (evs s)) (queue s)) es.
Proof.
  intros [Hq Hw] Hev Hu. assert (Hn : e ∉ es) by (by eapply w_idle).
  assert (Hin : forall k, k ∈ es -> delete e (evs s) !! k = evs s !! k).
  { intros k Hk. apply lookup_delete_ne. by intros <-. }
  split; [by eapply qrep_frame|].
  eapply waiting_fewer; [exact Hw|done|apply Hw|apply Hw|done| |apply Hw..|by intros; eapply w_future].
  cbn [evs]. intros k v Hk [_ Hv]%lookup_delete_Some. by eapply w_idle.
Qed.

Lemma run_action_ok fuel a s es n :
  sched_ok s es -> budget fuel s es (S n) -> legal a s ->
  exists s' es', run_action fuel a s = Ok s' /\ sched_ok s' es' /\ budget fuel s' es' n /\
    clock_ s' = clock_ s.
Proof.
  intros Hok Hb Hl. pose proof (budget_weaken _ _ _ _ Hb) as Hb'.
  destruct a as [h e d|e|e|]; cbn [run_action legal] in *.
  - destruct Hl as ([h' ->] & Vd & Nd & ev & Hev & Hu).
    destruct (schedule_ok fuel h' e d s es ev n Hok Hb Hev Hu Vd Nd)
      as (s' & E & Hok' & Hb2 & Hc & _). eauto 10.
  - destruct Hl as [ev Hev].
    destruct (cancel_ok fuel e s es ev n Hok Hb' Hev) as (s' & E & Hok' & Hb2 & Hc & _). eauto 10.
  - destruct Hl as (ev & Hev & Hu). mem_step. do 2 eexists.
    split; [done|]. split; [by eapply free_ok|]. by split.
  - do 2 eexists. split; [done|]. split; [exact Hok|]. by split.
Qed.

Lemma run_actions_ok fuel acts s es n :
  sched_ok s es -> budget fuel s es (length acts + n) -> legal_run fuel acts s ->
  exists s' es', run_actions fuel acts s = Ok s' /\ sched_ok s' es' /\ budget fuel s' es' n /\
    clock_ s' = clock_ s.
Proof.
  revert s es. induction acts as [|a acts IH]; intros s es Hok Hb Hl; cbn [run_actions].
  - eauto 10.
  - destruct Hl as [Hl Hrest].
    destruct (run_action_ok fuel a s es _ Hok Hb Hl) as (s1 & es1 & E & Hok1 & Hb1 & Hc1).
    rewrite E. cbn [rbind]. destruct (IH s1 es1 Hok1 Hb1 (Hrest _ E))
      as (s2 & es2 & E2 & Hok2 & Hb2 & Hc2). exists s2, es2. by rewrite Hc2.
Qed.

(** Taking the next event out of the queue and marking it as dispatched. *)
Lemma take_next_ok fuel n p es s :
  sched_ok s (p :: es) -> budget fuel s (p :: es) n ->
  exists st q v h, eq_deque fuel (evs s) (queue s) = Ok (Some p, st, q) /\
    st !! p = Some v /\ handler_ v = Some h /\ time_ v = tm (evs s) p /\
    fle (clock_ s) (time_ v) = true /\
    let s' := Sched (time_ v) (halted_ s) (next_uid s) (<[p := set_uid (- uid_ v) v]> st) q in
    sched_ok s' es /\ budget fuel s' es n /\
    forall k, ev_data <$> st !! k = ev_data <$> evs s !! k.
Proof.
  intros [Hq Hw] (Hroom & Hlen & Hmax). cbn [length] in Hlen.
  destruct (deque_law fuel _ _ _ _ Hq Hroom ltac:(simpl; lia) (w_numbers _ _ _ _ Hw))
    as (st & q & E & Hq' & Hroom' & Hd). cbn [head tail] in *.
  pose proof (waiting_data _ _ _ _ _ Hw Hd) as Hw1.
  destruct (w_pending _ _ _ _ Hw1 p ltac:(set_solver)) as (v & Hv & [[h Hh] Vt Nt Hfut Hu]).
  pose proof (qrep_NoDup _ _ _ Hq) as [Hpn _]%NoDup_cons.
  assert (Htm : tm st p = time_ v) by (unfold tm; by rewrite Hv).
  exists st, q, v, h. split; [exact E|]. split; [exact Hv|]. split; [exact Hh|].
  split; [rewrite <- Htm; apply data_tm, Hd|]. split; [exact Hfut|]. cbv zeta. set (st2 := <[p := set_uid (- uid_ v) v]> st).
  assert (Hin : forall k, k ∈ es -> st2 !! k = st !! k)
    by (intros j Hj; unfold st2; apply lookup_insert_ne; by intros <-).
  split; [|split; [unfold budget; cbn; split_and!; (done || lia)|done]].
  split; [by eapply qrep_frame|]. pose proof (w_order _ _ _ _ Hw1) as Hso.
  apply StronglySorted_inv in Hso as [Hso HF].
  pose proof (w_turn _ _ _ _ Hw1) as Hsn. apply StronglySorted_inv in Hsn as [Hsn _].
  eapply waiting_fewer; [exact Hw1|set_solver|done|done|done| |done|done|].
  - intros j u Hj. cbn [evs]. unfold st2. rewrite lookup_insert_Some. intros [[<- <-]|[Hne Hu']]; [cbn; lia|].
    eapply w_idle; [exact Hw1|done|]. set_solver.
  - intros j Hj. rewrite Forall_forall in HF. rewrite <- Htm. by apply HF.
Qed.

Context {W : Type} (handle : positive -> positive -> f64 -> W -> W * list action).

(** [s1] is the state in which event [p] of the waiting [p :: es] is
    dispatched from [s]: the clock is at its time, it is out of the queue and
    no longer pending, its handler is [h], and no other event's handler, time
    or number has changed. *)
Record due (h p : positive) (es : list positive) (s s1 : sched Q) : Prop := {
  due_ok : sched_ok s1 es;
  due_clock : clock_ s1 = tm (evs s) p;
  due_halted : halted_ s1 = halted_ s;
  due_uid : next_uid s1 = next_uid s;
  due_event : exists v, evs s1 !! p = Some v /\ handler_ v = Some h /\ uid_ v <= 0;
  due_others : forall k, k <> p -> ev_data <$> evs s1 !! k = ev_data <$> evs s !! k;
}.

(** A handler that keeps an invariant [I] of its own state and the
    scheduler's: dispatched where [I] holds, it makes at most [k] calls, legal
    ones in the states it makes them in, and [I] holds again after them.  That
    the scheduler's own invariant holds, and that there is room for [k] calls,
    is given to the handler; nothing is asked of it in other states. *)
Definition well_behaved (I : W -> sched Q -> Prop) (fuel k : nat) : Prop :=
  forall h p w s es s1, sched_ok s (p :: es) -> I w s -> due h p es s s1 ->
    budget fuel s1 es k ->
    let '(w', acts) := handle h p (clock_ s1) w in
    (length acts <= k)%nat /\ legal_run fuel acts s1 /\
    forall s2, run_actions fuel acts s1 = Ok s2 -> I w' s2.

(** Taking the next event out of the queue and dispatching it. *)
Lemma dispatch_next_ok I fuel k n p es w s :
  sched_ok s (p :: es) -> budget fuel s (p :: es) (k + n) -> well_behaved I fuel k -> I w s ->
  exists st q v w' s' es', eq_deque fuel (evs s) (queue s) = Ok (Some p, st, q) /\
    load st (Some p) = Ok v /\ time_ v = tm (evs s) p /\ fle (clock_ s) (time_ v) = true /\
    dispatch handle fuel p (time_ v) w (Sched (clock_ s) (halted_ s) (next_uid s) st q)
      = Ok (w', s') /\
    sched_ok s' es' /\ budget fuel s' es' n /\ clock_ s' = time_ v /\ I w' s'.
Proof.
  intros Hok Hb Hwb HI.
  destruct (take_next_ok fuel (k + n) p es s Hok Hb)
    as (st & q & v & h & E & Hv & Hh & Ht & Hfut & Hok2 & Hb2 & Hd).
  set (s2 := Sched _ _ _ _ _) in Hok2, Hb2.
  assert (Hdue : due h p es s s2).
  { constructor; try done; cbn [evs s2].
    - eexists. rewrite lookup_insert_eq. split; [done|]. split; [done|]. cbn [uid_ set_uid].
      destruct Hok as [Hq _]. apply qrep_NoDup, NoDup_cons in Hq as [Hpn _].
      apply (proj2 (w_idle _ _ (evs s2) es p (set_uid (- uid_ v) v) (proj2 Hok2)
        (lookup_insert_eq _ _ _))), Hpn.
    - intros j Hj. by rewrite lookup_insert_ne. }
  specialize (Hwb h p w s es s2 Hok HI Hdue (budget_mono fuel s2 es (k + n) k ltac:(lia) Hb2)). cbn [clock_ s2] in Hwb.
  destruct (handle h p (time_ v) w) as [w' acts] eqn:Eh. destruct Hwb as (Hk & Hlegal & HI').
  destruct (run_actions_ok fuel acts _ es n Hok2) as (s' & es' & E' & Hok' & Hb' & Hc').
  { apply (budget_mono _ _ _ (k + n)); [lia|done]. }
  { done. }
  exists st, q, v, w', s', es'. split_and!; try done.
  - by apply load_Some.
  - unfold dispatch. cbn [clock_ evs halted_ next_uid queue]. rewrite (fle_not_lt _ _ Hfut).
    rewrite (store_Some _ _ _ _ Hv). cbn [rbind load]. rewrite lookup_insert_eq.
    cbn [rbind handler_ set_uid]. rewrite Hh, Eh. unfold s2 in E'. by rewrite E'.
  - by apply HI'.
Qed.

Lemma run_steps_ok I fuel k n w s es :
  sched_ok s es -> budget fuel s es (n * k) -> well_behaved I fuel k -> I w s ->
  exists w' s' es' tr, run_steps handle n fuel w s = Ok (w', s', tr) /\ sched_ok s' es' /\
    StronglySorted (fun a b => fle a b = true) (clock_ s :: map snd tr) /\
    clock_ s' = List.last (map snd tr) (clock_ s).
Proof.
  revert w s es. induction n as [|n IH]; intros w s es Hok Hb Hwb HI; cbn [run_steps].
  { exists w, s, es, []. split_and!; try done. repeat constructor. }
  destruct (halted_ s) eqn:Eh.
  { exists w, s, es, []. split_and!; try done. repeat constructor. }
  destruct es as [|p es].
  - destruct Hok as [Hq Hw]. destruct Hb as (Hroom & Hlen & Hmax).
    destruct (deque_law fuel _ _ _ _ Hq Hroom ltac:(simpl in *; lia) (w_numbers _ _ _ _ Hw))
      as (st & q & -> & Hq' & _ & Hd). cbn [rbind head tail].
    eexists w, _, [], []. split; [done|]. split_and!; [split|repeat constructor|done]; [done|].
    by eapply waiting_data.
  - destruct (dispatch_next_ok I fuel k (n * k) p es w s Hok
      ltac:(by rewrite Nat.mul_succ_l, Nat.add_comm in Hb) Hwb HI)
      as (st & q & v & w1 & s1 & es1 & -> & Ev & _ & Hfut & Ed & Hok1 & Hb1 & Hc1 & HI1).
    cbn [rbind]. rewrite Ev. cbn [rbind]. rewrite <- Eh, Ed. cbn [rbind].
    destruct (IH w1 s1 es1 Hok1 Hb1 Hwb HI1) as (w2 & s2 & es2 & tr & -> & Hok2 & Hs2 & Hc2).
    cbn [rbind]. exists w2, s2, es2, ((p, time_ v) :: tr). rewrite Hc1 in Hs2, Hc2.
    split_and!; try done; cbn [map snd].
    + constructor; [done|]. constructor; [done|]. apply StronglySorted_inv in Hs2 as [_ HF].
      eapply Forall_impl; [exact HF|]. intros x Hx. by apply fle_trans with (time_ v).
    + rewrite Hc2. destruct (map snd tr) as [|x l]; [done|].
      exact (last_default x l _ _).
Qed.
End invariant.

(** ** The commands *)

Section commands.
Context {Q : Type} `{EventQueueLaws Q}.
Implicit Types (s : sched Q).

(** A new event is not pending. *)
Lemma alloc_ok s es :
  sched_ok s es ->
  let e := fresh_loc (evs s) in
  let st := <[e := new_event]> (evs s) in
  e ∉ es /\ sched_ok (Sched (clock_ s) (halted_ s) (next_uid s) st (queue s)) es.
Proof.
  intros [Hq Hw] e st.
  assert (Hn : e ∉ es).
  { intros Hin. destruct (w_pending _ _ _ _ Hw e Hin) as (v & Hv & _).
    unfold e in Hv. by rewrite fresh_loc_None in Hv. }
  assert (Hin : forall k, k ∈ es -> st !! k = evs s !! k).
  { intros k Hk. unfold st. apply lookup_insert_ne. by intros <-. }
  split; [done|]. split; [by eapply qrep_frame|].
  eapply waiting_fewer; [exact Hw|done|apply Hw|apply Hw|done| |apply Hw..|by intros; eapply w_future].
  cbn [evs]. intros k v Hk. unfold st. rewrite lookup_insert_Some.
  intros [[<- <-]|[_ Hv]]; [done|]. by eapply w_idle.
Qed.

(** The delay [at] computes from its argument. *)
Definition at_delay (t : f64) s : f64 := if flt t f0 then fneg t else fsub t (clock_ s).

Lemma at_delay_ok t s es :
  sched_ok s es -> valid t = true -> is_nan t = false -> is_nan (fsub t (clock_ s)) = false ->
  flt (at_delay t s) f0 = false ->
  valid (at_delay t s) = true /\ nonneg (at_delay t s) = true.
Proof.
  intros [_ Hw] Vt Nt Nd. destruct (w_clock _ _ _ _ Hw) as [Vc Nc]. unfold at_delay.
  destruct (flt t f0) eqn:E.
  - intros _. destruct (fneg_nonneg t Vt E). done.
  - intros Hd. assert (nonneg t = true) by (by apply nonneg_fle, flt_false_le).
    destruct (fsub_nonneg t (clock_ s)); done.
Qed.

Lemma at_command_ok fuel h t s es n :
  sched_ok s es -> budget fuel s es (S n) -> valid t = true -> is_nan t = false ->
  is_nan (fsub t (clock_ s)) = false ->
  if flt (at_delay t s) f0 then at_command fuel h t s = Ok None
  else exists e s', at_command fuel h t s = Ok (Some (e, s')) /\ e ∉ es /\
    sched_ok s' (ord_insert (tm (evs s')) e es) /\ clock_ s' = clock_ s /\
    tm (evs s') e = fadd (clock_ s) (at_delay t s).
Proof.
  intros Hok Hb Vt Nt Nd. pose proof (at_delay_ok t s es Hok Vt Nt Nd) as Hd.
  unfold at_command, at_delay in *. cbn [alloc].
  destruct (flt (if flt t f0 then fneg t else fsub t (clock_ s)) f0) eqn:E; [done|].
  destruct (alloc_ok s es Hok) as [Hn Hok1]. destruct (Hd eq_refl) as [Vd Nd'].
  destruct (schedule_ok fuel h (fresh_loc (evs s))
    (if flt t f0 then fneg t else fsub t (clock_ s)) _ es new_event n Hok1 Hb
    (lookup_insert_eq _ _ _) ltac:(done) Vd Nd') as (s' & -> & Hok' & _ & Hc & _ & Ht & _).
  cbn [rbind]. eauto 10.
Qed.

Lemma cancel_command_ok fuel u s es n :
  sched_ok s es -> budget fuel s es n ->
  exists s', cancel_command fuel u s = Ok s' /\ clock_ s' = clock_ s /\
    ((sched_ok s' es /\ Forall (fun x => uid_ <$> evs s !! x <> Some u) es) \/
     (exists e, e ∈ es /\ uid_ <$> evs s !! e = Some u /\ sched_ok s' (remove_ev e es) /\
        evs s' !! e = None)).
Proof.
  intros [Hq Hw] (Hroom & Hlen & Hmax). unfold cancel_command.
  destruct (lookup_law fuel _ _ es u n Hq Hroom ltac:(lia) (w_numbers _ _ _ _ Hw))
    as (r & q' & -> & Hq' & Hroom' & Hr). cbn [rbind].
  set (s1 := Sched (clock_ s) (halted_ s) (next_uid s) (evs s) q').
  assert (Hok1 : sched_ok s1 es) by done.
  destruct r as [e|].
  - destruct Hr as [Hin Hu]. destruct (evs s !! e) as [ev|] eqn:Hev; [|done].
    destruct (cancel_ok fuel e s1 es ev n Hok1) as (s2 & -> & Hok2 & _ & Hc & _ & _ & He);
      [by split_and!|done|]. cbn [rbind run_action].
    destruct (evs s2 !! e) as [ev2|] eqn:Hev2; [|done]. injection He as _ _ Hu2.
    cbn [release]. rewrite Hev2. cbn [rbind]. eexists. split; [done|]. split; [done|].
    right. exists e. split_and!; [done|by rewrite Hev| |cbn; apply lookup_delete_eq].
    eapply free_ok; [done|done|lia].
  - eexists. split; [done|]. split; [done|]. by left.
Qed.
End commands.

(** ** One event at a time *)

(** A handler that only notes what was called: the code of the called object
    is the last thing [dispatch] runs, and is run below. *)
Definition note_handler (h e : positive) (t : f64) (w : option (positive * positive))
    : option (positive * positive) * list action := (Some (h, e), []).

(** The object at [h] is the handler of event [e]. *)
Definition handled (st : events) (h e : positive) : Prop :=
  handler_ <$> st !! e = Some (Some h).

Section one.
Context {Q : Type} `{EventQueueLaws Q}.
Implicit Types s : sched Q.

Lemma handled_fun (st : events) h h' e : handled st h e -> handled st h' e -> h = h'.
Proof. unfold handled. intros Ha Hb. congruence. Qed.

Lemma handled_data (st st' : events) h e :
  ev_data <$> st' !! e = ev_data <$> st !! e -> handled st' h e <-> handled st h e.
Proof.
  unfold handled. intros Hd. destruct (st' !! e), (st !! e); simpl in Hd; try done.
  injection Hd as E _ _. simpl. by rewrite E.
Qed.

(** One iteration of the loop, with a handler that only notes the call. *)
Lemma note_next fuel n p es s :
  sched_ok s (p :: es) -> budget fuel s (p :: es) n -> halted_ s = false ->
  exists h s' tr, run_steps note_handler 1 fuel None s = Ok (Some (h, p), s', tr) /\
    handled (evs s) h p /\ sched_ok s' es /\ budget fuel s' es n /\ halted_ s' = false /\
    clock_ s' = tm (evs s) p /\ fle (clock_ s) (clock_ s') = true /\
    (is_Some (evs s' !! p) /\ tm (evs s') p = tm (evs s) p) /\
    forall k, k <> p -> ev_data <$> evs s' !! k = ev_data <$> evs s !! k.
Proof.
  intros Hok Hb Hrun.
  destruct (take_next_ok fuel n p es s Hok Hb)
    as (st & q & v & h & E & Hv & Hh & Ht & Hfut & Hok2 & Hb2 & Hd).
  cbn [run_steps]. rewrite Hrun, E. cbn [rbind]. rewrite (load_Some _ _ _ Hv). cbn [rbind].
  unfold dispatch. cbn [clock_ evs halted_ next_uid queue]. rewrite (fle_not_lt _ _ Hfut).
  rewrite (store_Some _ _ _ _ Hv). cbn [rbind load]. rewrite lookup_insert_eq.
  cbn [rbind handler_ set_uid]. rewrite Hh. cbn [note_handler run_actions rbind].
  eexists h, _, _. split; [done|]. cbn [evs clock_ halted_].
  split; [apply (handled_data st (evs s) h p); [by rewrite Hd|unfold handled; by rewrite Hv, <- Hh]|].
  split; [exact Hok2|]. split; [exact Hb2|]. split; [done|]. split; [done|].
  split; [done|]. split; [split; [by rewrite lookup_insert_eq|]|].
  - unfold tm at 1. by rewrite lookup_insert_eq.
  - intros k Hk. by rewrite lookup_insert_ne, Hd.
Qed.

Lemma no_next fuel s :
  sched_ok s [] -> (0 < fuel)%nat -> room (queue s) 0 -> halted_ s = false ->
  exists s' tr, run_steps note_handler 1 fuel None s = Ok (None, s', tr).
Proof.
  intros [Hq Hw] Hf Hroom Hrun. cbn [run_steps]. rewrite Hrun.
  destruct (deque_law fuel (evs s) (queue s) [] 0 Hq Hroom ltac:(simpl; lia) ltac:(constructor))
    as (st & q & -> & _). cbn [rbind head]. by eexists _, _.
Qed.
End one.
