(* ===== verification/Timer.v ===== *)
(** * Timers (common/timer-handler.h, common/timer-handler.cc)

    A [TimerHandler] owns one event and a status, and is itself the handler
    of that event.  Its methods are written over the scheduler of
    Scheduler.v, and shown to follow a three-state machine in which the
    timer is pending exactly when its event waits in the event queue. *)

From stdpp Require Import base numbers list gmap sorting.
From Stdlib Require Import ZArith Lia.
From S2P Require Import Prelude.
From S2P Require Import Store.
From S2P Require Import Float64.
From S2P Require Import EventQueue.
From S2P Require Import ListScheduler.
From S2P Require Import Scheduler.
Open Scope Z_scope.

Variant TimerStatus := TIMER_IDLE | TIMER_PENDING | TIMER_HANDLING.

#[export] Instance TimerStatus_eq_dec : EqDecision TimerStatus.
Proof. solve_decision. Defined.

(** A timer, with the addresses of the object and of its [event_]. *)
Record TimerHandler := mkTimer {
  status_ : TimerStatus;
  this_ : positive;
  event_ : positive;
}.

Definition set_status (x : TimerStatus) (t : TimerHandler) : TimerHandler :=
  mkTimer x (this_ t) (event_ t).

(** The calls a client makes on a timer. *)
Variant timer_call :=
  | TSched (delay : f64)
  | TResched (delay : f64)
  | TCancel
  | TForceCancel.

Section timer.
Context {Q : Type} `{EventQueue Q}.
Implicit Types (t : TimerHandler) (s : sched Q).

Definition _sched (fuel : nat) (delay : f64) t s : result (sched Q) :=
  schedule fuel (Some (this_ t)) (event_ t) delay s.

Definition _cancel (fuel : nat) t s : result (sched Q) := cancel fuel (event_ t) s.

Definition timer_cancel (fuel : nat) t s : result (TimerHandler * sched Q) :=
  if decide (status_ t = TIMER_PENDING) then
    let! s := _cancel fuel t s in Ok (set_status TIMER_IDLE t, s)
  else Fault Aborted.

Definition timer_sched (fuel : nat) (delay : f64) t s : result (TimerHandler * sched Q) :=
  if decide (status_ t = TIMER_IDLE) then
    let! s := _sched fuel delay t s in Ok (set_status TIMER_PENDING t, s)
  else Fault Aborted.

Definition timer_resched (fuel : nat) (delay : f64) t s : result (TimerHandler * sched Q) :=
  let! s := if decide (status_ t = TIMER_PENDING) then _cancel fuel t s else Ok s in
  let! s := _sched fuel delay t s in
  Ok (set_status TIMER_PENDING t, s).

Definition timer_force_cancel (fuel : nat) t s : result (TimerHandler * sched Q) :=
  if decide (status_ t = TIMER_PENDING) then
    let! s := _cancel fuel t s in Ok (set_status TIMER_IDLE t, s)
  else Ok (t, s).

Definition run_call (fuel : nat) (c : timer_call) t s : result (TimerHandler * sched Q) :=
  match c with
  | TSched d => timer_sched fuel d t s
  | TResched d => timer_resched fuel d t s
  | TCancel => timer_cancel fuel t s
  | TForceCancel => timer_force_cancel fuel t s
  end.

Fixpoint run_calls (fuel : nat) (cs : list timer_call) t s : result (TimerHandler * sched Q) :=
  match cs with
  | [] => Ok (t, s)
  | c :: cs => let! '(t, s) := run_call fuel c t s in run_calls fuel cs t s
  end.

(** [handle (e)]; the client's [expire] is the calls it makes on the timer. *)
Definition timer_handle (fuel : nat) (expire : list timer_call) t s
  : result (TimerHandler * sched Q) :=
  if decide (status_ t = TIMER_PENDING) then
    let t := set_status TIMER_HANDLING t in
    let! '(t, s) := run_calls fuel expire t s in
    Ok (if decide (status_ t = TIMER_HANDLING) then set_status TIMER_IDLE t else t, s)
  else Fault Aborted.
End timer.

(** ** The state machine *)

Definition status_step (x : TimerStatus) (c : timer_call) : option TimerStatus :=
  match c, x with
  | TSched _, TIMER_IDLE => Some TIMER_PENDING
  | TSched _, _ => None
  | TResched _, _ => Some TIMER_PENDING
  | TCancel, TIMER_PENDING => Some TIMER_IDLE
  | TCancel, _ => None
  | TForceCancel, TIMER_PENDING => Some TIMER_IDLE
  | TForceCancel, _ => Some x
  end.

Fixpoint status_steps (x : TimerStatus) (cs : list timer_call) : option TimerStatus :=
  match cs with
  | [] => Some x
  | c :: cs => match status_step x c with Some y => status_steps y cs | None => None end
  end.

(** When the event of the timer waits, and for what time: after the calls
    [cs] made at [clock], [None] if it does not wait. *)
Definition expiry_step (clock : f64) (x : option f64) (c : timer_call) : option f64 :=
  match c with
  | TSched d | TResched d => Some (fadd clock d)
  | TCancel | TForceCancel => None
  end.

(** Delays a client may ask for. *)
Definition call_ok (c : timer_call) : Prop :=
  match c with
  | TSched d | TResched d => valid d = true /\ nonneg d = true
  | _ => True
  end.

Section invariant.
Context {Q : Type} `{EventQueueLaws Q}.
Implicit Types (t : TimerHandler) (s : sched Q).

(** [w] is the time the timer waits for. *)
Record timer_ok t s (es : list positive) (w : option f64) : Prop := {
  ti_sched : sched_ok s es;
  ti_event : is_Some (evs s !! event_ t);
  ti_pending : status_ t = TIMER_PENDING <-> event_ t ∈ es;
  ti_handler : event_ t ∈ es -> handler_ <$> evs s !! event_ t = Some (Some (this_ t));
  ti_time : w = if decide (status_ t = TIMER_PENDING) then Some (tm (evs s) (event_ t)) else None;
}.

Lemma ti_idle t s es w :
  timer_ok t s es w -> status_ t <> TIMER_PENDING ->
  exists ev, evs s !! event_ t = Some ev /\ uid_ ev <= 0 /\ event_ t ∉ es.
Proof.
  intros [[Hq Hw] [ev Hev] Hp _ _] Hne. exists ev.
  assert (event_ t ∉ es) by (intros Hin; by apply Hne, Hp).
  split; [done|]. split; [|done]. by eapply w_idle.
Qed.

(** A call of the timer [t] touches no event but its own. *)
Record touches t s (es : list positive) s' (es' : list positive) : Prop := {
  to_clock : clock_ s' = clock_ s;
  to_events : forall e, e ∈ es' -> e = event_ t \/ e ∈ es;
  to_data : forall k, k <> event_ t -> ev_data <$> evs s' !! k = ev_data <$> evs s !! k
}.

Lemma touches_none t s es : touches t s es s es.
Proof. split; auto. Qed.

Lemma touches_trans t s1 es1 s2 es2 s3 es3 :
  touches t s1 es1 s2 es2 -> touches t s2 es2 s3 es3 -> touches t s1 es1 s3 es3.
Proof.
  intros [C1 E1 D1] [C2 E2 D2]. split; [congruence| |].
  - intros e [?|?]%E2; auto.
  - intros k Hk. by rewrite D2, D1.
Qed.

Lemma _sched_ok fuel d t s es n ev :
  sched_ok s es -> budget fuel s es (S n) -> evs s !! event_ t = Some ev -> uid_ ev <= 0 ->
  valid d = true -> nonneg d = true ->
  exists s' es', _sched fuel d t s = Ok s' /\
    timer_ok (set_status TIMER_PENDING t) s' es' (Some (fadd (clock_ s) d)) /\
    budget fuel s' es' n /\ touches t s es s' es'.
Proof.
  intros Hok Hb Hev Hu Vd Nd.
  destruct (schedule_ok fuel (this_ t) (event_ t) d s es ev n Hok Hb Hev Hu Vd Nd)
    as (s' & E & Hok' & Hb' & Hc & _ & Ht & Hh & Hd).
  exists s', (ord_insert (tm (evs s')) (event_ t) es). split; [exact E|].
  assert (Hin : event_ t ∈ ord_insert (tm (evs s')) (event_ t) es) by (apply elem_of_ord_insert; auto).
  split; [|split; [done|split; [done|by intros e ?%elem_of_ord_insert|done]]].
  destruct Hok' as [Hq' Hw'].
  destruct (w_pending _ _ _ _ Hw' _ Hin) as (v & Hv & Hpd).
  split; cbn [event_ this_ status_ set_status].
  - done.
  - by rewrite Hv.
  - done.
  - done.
  - by rewrite decide_True, Ht by done.
Qed.

Lemma _cancel_ok fuel t s es w n :
  timer_ok t s es w -> budget fuel s es n -> status_ t = TIMER_PENDING ->
  exists s' es' ev, _cancel fuel t s = Ok s' /\ timer_ok (set_status TIMER_IDLE t) s' es' None /\
    budget fuel s' es' n /\ touches t s es s' es' /\
    evs s' !! event_ t = Some ev /\ uid_ ev <= 0.
Proof.
  intros [Hok [ev Hev] Hp _ _] Hb Hst.
  destruct (cancel_ok fuel (event_ t) s es ev n Hok Hb Hev)
    as (s' & E & Hok' & Hb' & Hc & _ & Hd & He).
  destruct (evs s' !! event_ t) as [ev'|] eqn:Hev'; [|done]. cbn in He. injection He as _ _ Hu'.
  exists s', (remove_ev (event_ t) es), ev'.
  split; [exact E|]. split; [|split; [done|split; [|split; [done|lia]]]];
    [|split; [done|intros e [_ ?]%elem_of_remove_ev; by right|done]].
  assert (Hn : event_ t ∉ remove_ev (event_ t) es) by (rewrite elem_of_remove_ev; tauto).
  split; cbn [event_ this_ status_ set_status]; try done.
Qed.

(** One call follows the machine, or aborts when the machine has no step. *)
Lemma run_call_ok fuel c t s es w n :
  timer_ok t s es w -> budget fuel s es (S n) -> call_ok c ->
  match status_step (status_ t) c with
  | None => run_call fuel c t s = Fault Aborted
  | Some x =>
      exists s' es', run_call fuel c t s = Ok (set_status x t, s') /\
        timer_ok (set_status x t) s' es' (expiry_step (clock_ s) w c) /\
        budget fuel s' es' n /\ touches t s es s' es'
  end.
Proof.
  intros Ht Hb Hc. pose proof (budget_weaken _ _ _ _ Hb) as Hb'.
  assert (Hid : set_status (status_ t) t = t) by (by destruct t).
  destruct c as [d|d| |]; cbn [run_call status_step expiry_step call_ok] in *.
  - unfold timer_sched. destruct (status_ t) eqn:Est; try done. cbn [decide].
    destruct (ti_idle _ _ _ _ Ht ltac:(congruence)) as (ev & Hev & Hu & _).
    destruct (_sched_ok fuel d t s es n ev (ti_sched _ _ _ _ Ht) Hb Hev Hu (proj1 Hc) (proj2 Hc))
      as (s' & es' & E & Ht' & Hb2 & Hcl).
    exists s', es'. rewrite decide_True, E by done. by split_and!.
  - unfold timer_resched. destruct (decide (status_ t = TIMER_PENDING)) as [Hp|Hp].
    + destruct (_cancel_ok fuel t s es w (S n) Ht Hb Hp)
        as (s1 & es1 & ev & E1 & Ht1 & Hb1 & Hcl1 & Hev & Hu).
      rewrite E1. cbn [rbind].
      destruct (_sched_ok fuel d t s1 es1 n ev (ti_sched _ _ _ _ Ht1) Hb1 Hev Hu (proj1 Hc) (proj2 Hc))
        as (s' & es' & E & Ht' & Hb2 & Hcl).
      pose proof (touches_trans _ _ _ _ _ _ _ Hcl1 Hcl) as Hto.
      rewrite E. cbn [rbind]. rewrite (to_clock _ _ _ _ _ Hcl1) in Ht'.
      destruct (status_ t); exists s', es'; by split_and!.
    + destruct (ti_idle _ _ _ _ Ht Hp) as (ev & Hev & Hu & _). cbn [rbind].
      destruct (_sched_ok fuel d t s es n ev (ti_sched _ _ _ _ Ht) Hb Hev Hu (proj1 Hc) (proj2 Hc))
        as (s' & es' & E & Ht' & Hb2 & Hcl).
      rewrite E. cbn [rbind]. destruct (status_ t); exists s', es'; by split_and!.
  - unfold timer_cancel. destruct (status_ t) eqn:Est; [by rewrite decide_False| |by rewrite decide_False].
    destruct (_cancel_ok fuel t s es w n Ht Hb' Est) as (s1 & es1 & ev & E1 & Ht1 & Hb1 & Hcl1 & _).
    rewrite decide_True, E1 by done. cbn [rbind]. exists s1, es1. by split_and!.
  - unfold timer_force_cancel. destruct (decide (status_ t = TIMER_PENDING)) as [Hp|Hp].
    + destruct (_cancel_ok fuel t s es w n Ht Hb' Hp) as (s1 & es1 & ev & E1 & Ht1 & Hb1 & Hcl1 & _).
      rewrite E1, Hp. cbn [rbind]. exists s1, es1. by split_and!.
    + assert (Hw : w = None) by (rewrite (ti_time _ _ _ _ Ht); by rewrite decide_False).
      subst w. pose proof (touches_none t s es).
      destruct (status_ t) eqn:Est; try done; exists s, es; rewrite Hid; by split_and!.
Qed.

(** The time waited for after a sequence of calls. *)
Definition expiry (clock : f64) (w : option f64) (cs : list timer_call) : option f64 :=
  fold_left (expiry_step clock) cs w.

Lemma run_calls_ok fuel cs t s es w n :
  timer_ok t s es w -> budget fuel s es (length cs + n) -> Forall call_ok cs ->
  match status_steps (status_ t) cs with
  | None => run_calls fuel cs t s = Fault Aborted
  | Some x =>
      exists s' es', run_calls fuel cs t s = Ok (set_status x t, s') /\
        timer_ok (set_status x t) s' es' (expiry (clock_ s) w cs) /\
        budget fuel s' es' n /\ clock_ s' = clock_ s
  end.
Proof.
  revert t s es w. induction cs as [|c cs IH]; intros t s es w Ht Hb Hcs; cbn [status_steps run_calls].
  - exists s, es. assert (set_status (status_ t) t = t) as -> by (by destruct t). by split_and!.
  - apply Forall_cons in Hcs as [Hc Hcs].
    pose proof (run_call_ok fuel c t s es w (length cs + n) Ht Hb Hc) as Hcall.
    destruct (status_step (status_ t) c) as [x|].
    + destruct Hcall as (s1 & es1 & -> & Ht1 & Hb1 & [Hcl1 _ _]). cbn [rbind].
      specialize (IH _ s1 es1 _ Ht1 Hb1 Hcs). cbn [status_ set_status] in IH.
      destruct (status_steps x cs) as [y|]; [|done].
      destruct IH as (s' & es' & -> & Ht' & Hb' & Hcl'). exists s', es'.
      rewrite Hcl1 in Ht', Hcl'. by split_and!.
    + by rewrite Hcall.
Qed.
End invariant.

(** ** Properties *)

(** C27: a timer follows its state machine: from a sound state, a sequence of
    [sched], [resched], [cancel] and [force_cancel] calls aborts exactly when
    the machine has no step for one of them; otherwise the timer ends in the
    machine's state, its event is in the event queue exactly when that state
    is pending, it is due at the clock plus the delay of the last
    (re)scheduling, and the event queue keeps its order. *)
Theorem timer_follows_machine {Q} `{EventQueueLaws Q} fuel cs (t : TimerHandler) (s : sched Q) es w n
  (Ht : timer_ok t s es w) (Hb : budget fuel s es (length cs + n)) (Hcs : Forall call_ok cs) :
  match status_steps (status_ t) cs with
  | None => run_calls fuel cs t s = Fault Aborted
  | Some x =>
      exists s' es', run_calls fuel cs t s = Ok (set_status x t, s') /\
        timer_ok (set_status x t) s' es' (expiry (clock_ s) w cs) /\ clock_ s' = clock_ s
  end.
Proof.
  pose proof (run_calls_ok fuel cs t s es w n Ht Hb Hcs) as Hr.
  destruct (status_steps (status_ t) cs); [|done].
  destruct Hr as (s' & es' & H1 & H2 & _ & H3). by exists s', es'.
Qed.

(** An idle timer, its event allocated, over an empty list scheduler. *)
Definition sample_timer : TimerHandler := mkTimer TIMER_IDLE 7 2.
Definition sample_sched : sched listq :=
  Sched f0 false 1 (<[2%positive := new_event]> ∅) empty_queue.

Lemma sample_timer_ok : timer_ok sample_timer sample_sched [] None.
Proof.
  split; try done.
  - destruct (alloc_ok (new_sched (Q := listq)) [] new_sched_ok) as [_ Hok]. exact Hok.
  - split; [done|]. intros Hin. by apply not_elem_of_nil in Hin.
  - intros Hin. by apply not_elem_of_nil in Hin.
Qed.

Lemma timer_follows_machine_witness :
  run_calls 10 [TSched f1; TSched f1] sample_timer sample_sched = Fault Aborted /\
  exists s' es', run_calls 10 [TSched f1; TResched f0; TForceCancel; TForceCancel; TResched f1]
    sample_timer sample_sched = Ok (set_status TIMER_PENDING sample_timer, s') /\
    timer_ok (set_status TIMER_PENDING sample_timer) s' es' (Some (fadd f0 f1)).
Proof.
  split.
  - apply (timer_follows_machine 10 [TSched f1; TSched f1] sample_timer sample_sched [] None 0);
      [apply sample_timer_ok|split_and!; cbn; lia || done|by repeat constructor].
  - destruct (timer_follows_machine 10
      [TSched f1; TResched f0; TForceCancel; TForceCancel; TResched f1]
      sample_timer sample_sched [] None 0) as (s' & es' & H1 & H2 & _);
      [apply sample_timer_ok|split_and!; cbn; lia || done|by repeat constructor|].
    by exists s', es'.
Defined.

(** when the scheduler dispatches the event of a pending timer, [handle]
    runs the client's calls from the handling state and aborts only on a
    call that state forbids ([sched] or [cancel] before a [resched]); a timer
    that was not rescheduled ends idle with no event waiting, and one that
    was ends pending, ready to expire again. *)
Theorem timer_expires_once {Q} `{EventQueueLaws Q} fuel cs (t : TimerHandler) (s : sched Q) es ev n
  (Hst : status_ t = TIMER_PENDING) (Hok : sched_ok s es) (Hev : evs s !! event_ t = Some ev)
  (Hu : uid_ ev <= 0) (Hb : budget fuel s es (length cs + n)) (Hcs : Forall call_ok cs) :
  match status_steps TIMER_HANDLING cs with
  | None => timer_handle fuel cs t s = Fault Aborted
  | Some x =>
      let x' := if decide (x = TIMER_HANDLING) then TIMER_IDLE else x in
      exists s' es', timer_handle fuel cs t s = Ok (set_status x' t, s') /\
        timer_ok (set_status x' t) s' es' (expiry (clock_ s) None cs) /\ clock_ s' = clock_ s
  end.
Proof.
  assert (Hn : event_ t ∉ es) by (destruct Hok as [Hq Hw]; by eapply w_idle).
  assert (Ht : timer_ok (set_status TIMER_HANDLING t) s es None).
  { split; cbn [status_ event_ set_status]; try done. }
  pose proof (run_calls_ok fuel cs _ s es None n Ht Hb Hcs) as Hr.
  unfold timer_handle. rewrite decide_True by done. cbn [status_ set_status] in Hr.
  destruct (status_steps TIMER_HANDLING cs) as [x|]; [|by rewrite Hr].
  destruct Hr as (s' & es' & -> & Ht' & _ & Hc). cbn [rbind status_ set_status].
  exists s', es'. destruct (decide (x = TIMER_HANDLING)) as [->|Hx]; [|by split_and!].
  split; [done|]. split; [|done]. destruct Ht' as [T1 T2 T3 T4 T5].
  split; cbn [status_ event_ set_status this_] in *; try done.
  split; [done|]. intros Hin%T3. done.
Qed.

Lemma timer_expires_once_witness :
  (exists s' es', timer_handle 10 [] (set_status TIMER_PENDING sample_timer) sample_sched
    = Ok (sample_timer, s') /\ timer_ok sample_timer s' es' None) /\
  (exists s' es', timer_handle 10 [TResched f1] (set_status TIMER_PENDING sample_timer) sample_sched
    = Ok (set_status TIMER_PENDING sample_timer, s') /\
    timer_ok (set_status TIMER_PENDING sample_timer) s' es' (Some (fadd f0 f1))).
Proof.
  pose proof (ti_sched _ _ _ _ sample_timer_ok) as Hok. split.
  - destruct (timer_expires_once 10 [] (set_status TIMER_PENDING sample_timer) sample_sched []
      new_event 0) as (s' & es' & H1 & H2 & _); try done; [split_and!; cbn; lia || done|].
    by exists s', es'.
  - destruct (timer_expires_once 10 [TResched f1] (set_status TIMER_PENDING sample_timer)
      sample_sched [] new_event 0) as (s' & es' & H1 & H2 & _); try done;
      [split_and!; cbn; lia || done|by repeat constructor|].
    by exists s', es'.
Defined.
