(* ===== verification/SchedulerTheorems.v ===== *)
(** * The properties of the scheduler

    Statements over every event queue that meets the contract, and the
    agreement of the two queues of the source that do. *)

From stdpp Require Import base numbers list gmap sorting.
From Stdlib Require Import ZArith Lia.
From S2P Require Import Prelude Store Float64 EventQueue ListScheduler Heap HeapProps.
From S2P Require Import HeapScheduler Splay SplayProps Scheduler.

Local Open Scope Z_scope.

(** A heap scheduler at time 0 with two events to schedule. *)
Definition sample_sched : sched heap :=
  Sched f0 false 1 (<[1%positive := new_event]> (<[2%positive := new_event]> ∅)) new_heap.

Lemma sample_sched_ok : sched_ok sample_sched [].
Proof.
  split; [exact (qrep_empty _)|]. constructor; simpl; try done.
  - constructor.
  - constructor.
  - set_solver.
  - intros e ev. rewrite !lookup_insert_Some, lookup_empty.
    intros [[_ <-]|[_ [[_ <-]|[_ ?]]]]; done.
  - intros e1 e2 v1 v2. rewrite !lookup_insert_Some, lookup_empty.
    intros [[_ <-]|[_ [[_ <-]|[_ ?]]]]; done.
Qed.

Lemma sample_budget n : (n < 50)%nat -> budget 100 sample_sched [] n.
Proof.
  intros Hn. split; [change (hroom new_heap n); unfold hroom; cbn [h_s_key h_size new_heap]; lia|].
  cbn [length next_uid sample_sched]. lia.
Qed.

(** Scheduling an event that is not pending, with a delay at or above
    zero, returns; the event is then pending at the time of the clock plus
    the delay, served after every pending event that is not later, the ones
    of the same time included, and before the later ones; the others keep
    their order, times and numbers. *)
Theorem schedule_keeps_order {Q : Type} `{EventQueueLaws Q} (fuel : nat) (h e : positive)
    (delay : f64) (s : sched Q) (es : list positive) (ev : event) (n : nat)
    (Hok : sched_ok s es) (Hb : budget fuel s es (S n)) (Hev : evs s !! e = Some ev)
    (Hidle : uid_ ev <= 0) (Hvalid : valid delay = true) (Hdelay : nonneg delay = true) :
  exists s' es1 es2, schedule fuel (Some h) e delay s = Ok s' /\ es = es1 ++ es2 /\
    sched_ok s' (es1 ++ e :: es2) /\ clock_ s' = clock_ s /\
    tm (evs s') e = fadd (clock_ s) delay /\
    Forall (fun x => fle (tm (evs s') x) (tm (evs s') e) = true) es1 /\
    Forall (fun x => flt (tm (evs s') e) (tm (evs s') x) = true) es2 /\
    (forall k, k <> e -> ev_data <$> evs s' !! k = ev_data <$> evs s !! k).
Proof.
  destruct (schedule_ok fuel h e delay s es ev n Hok Hb Hev Hidle Hvalid Hdelay)
    as (s' & E & Hok' & _ & Hc & _ & Ht & _ & Hd).
  destruct (ord_insert_split (tm (evs s')) e es) as (es1 & es2 & -> & Eo & HF & Hp).
  rewrite Eo in Hok'. exists s', es1, es2. split_and!; try done.
  - destruct Hok' as [_ Hw]. pose proof (w_numbers _ _ _ _ Hw) as Hnum.
    rewrite Forall_app, Forall_cons in Hnum. destruct Hnum as (Hn1 & [_ Hne] & _).
    rewrite Forall_forall in HF, Hn1 |- *. intros x Hx. apply flt_false_le; [done| |by apply HF].
    by apply Hn1.
  - destruct Hok' as [_ Hw]. pose proof (w_order _ _ _ _ Hw) as Hs.
    apply StronglySorted_app in Hs as (_ & _ & Hs). apply StronglySorted_inv in Hs as [Hs _].
    destruct es2 as [|y es2]; [done|]. apply StronglySorted_inv in Hs as [_ HF2].
    constructor; [done|]. rewrite Forall_forall in HF2 |- *. intros x Hx.
    specialize (HF2 x Hx). unfold not_later in HF2. by eapply flt_le_trans.
Qed.

Lemma schedule_keeps_order_witness :
  exists s' es1 es2, schedule 100 (Some 9%positive) 1 f1 sample_sched = Ok s' /\ [] = es1 ++ es2 /\
    sched_ok s' (es1 ++ 1%positive :: es2) /\ tm (evs s') 1 = fadd f0 f1.
Proof.
  destruct (schedule_keeps_order 100 9 1 f1 sample_sched [] new_event 10 sample_sched_ok
    (sample_budget 11 ltac:(lia)) eq_refl ltac:(done) eq_refl eq_refl)
    as (s' & es1 & es2 & H1 & H2 & H3 & _ & H4 & _).
  exists s', es1, es2. split; [exact H1|]. split; [exact H2|]. split; [exact H3|exact H4].
Defined.

(** C2: however many events the scheduler's loop dispatches, with handlers
    that may schedule, cancel and free events and halt, it never reports that
    time goes backwards, aborts or follows a bad pointer: the times of the
    dispatched events never decrease, start at or after the clock and end at
    the clock, and the invariant holds.  What is asked of the handlers is
    what the source asks of them, in the states they are called in and no
    others: they keep some invariant [I] of the simulation, under which they
    schedule, with delays at or above zero, only events that exist and are not
    pending, cancel events that exist, and free events that are not pending. *)
Theorem run_never_goes_backwards {Q : Type} `{EventQueueLaws Q} {W : Type}
    (handle : positive -> positive -> f64 -> W -> W * list action)
    (I : W -> sched Q -> Prop) (fuel k n : nat) (w : W) (s : sched Q) (es : list positive)
    (Hok : sched_ok s es) (Hb : budget fuel s es (n * k))
    (Hwb : well_behaved handle I fuel k) (HI : I w s) :
  exists w' s' es' tr, run_steps handle n fuel w s = Ok (w', s', tr) /\ sched_ok s' es' /\
    StronglySorted (fun a b => fle a b = true) (clock_ s :: map snd tr) /\
    clock_ s' = List.last (map snd tr) (clock_ s).
Proof. by eapply run_steps_ok. Qed.

(** The handler of event 1 is a periodic timer: it schedules its event again
    a second later, and at its first firing it cancels and frees event 2. *)
Definition ticking_handler (h e : positive) (t : f64) (w : nat) : nat * list action :=
  if decide (e = 1%positive) then
    (S w, ASchedule (Some h) 1 f1 :: if decide (w = 0%nat) then [ACancel 2; AFree 2]%positive else [])
  else (w, []).

(** Event 1 exists, and event 2 does until the first firing. *)
Definition ticking_inv {Q : Type} (w : nat) (s : sched Q) : Prop :=
  is_Some (evs s !! 1%positive) /\ (w = 0%nat -> is_Some (evs s !! 2%positive)).

Lemma kept_event (st st' : events) k :
  ev_data <$> st' !! k = ev_data <$> st !! k -> is_Some (st !! k) -> is_Some (st' !! k).
Proof. intros Hd Hs. apply (fmap_is_Some ev_data). rewrite Hd. by apply fmap_is_Some. Qed.

Lemma ticking_ok {Q : Type} `{EventQueueLaws Q} fuel :
  well_behaved (Q := Q) ticking_handler ticking_inv fuel 3.
Proof.
  intros h p w s es s1 _ [I1 I2] [Hok _ _ _ (v & Hv & Hh & Hu) Hd] Hb. unfold ticking_handler.
  assert (Hkeep : forall k, is_Some (evs s !! k) -> is_Some (evs s1 !! k)).
  { intros k Hk. destruct (decide (k = p)) as [->|Hne]; [by rewrite Hv|].
    by eapply kept_event; [apply Hd|]. }
  destruct (decide (p = 1%positive)) as [->|Hp].
  2: { split; [simpl; lia|]. split; [done|]. intros s2 [= <-]. split; [by apply Hkeep|].
       intros Hw. by apply Hkeep, I2. }
  destruct (schedule_ok fuel h 1 f1 s1 es v 2 Hok Hb Hv Hu eq_refl eq_refl)
    as (s2 & E2 & Hok2 & Hb2 & _ & _ & _ & Hh2 & Hd2).
  assert (Hs2 : is_Some (evs s2 !! 1%positive)) by (apply (fmap_is_Some handler_); eauto).
  assert (Hleg : legal (ASchedule (Some h) 1 f1) s1) by (split_and!; eauto).
  destruct (decide (w = 0%nat)) as [Hw|Hw].
  - destruct (kept_event _ _ _ (Hd2 2%positive ltac:(done)) (Hkeep _ (I2 Hw))) as [v2 Hv2].
    destruct (cancel_ok fuel 2 s2 _ v2 2 Hok2 Hb2 Hv2) as (s3 & E3 & _ & _ & _ & _ & Hd3 & He3).
    destruct (evs s3 !! 2%positive) as [v3|] eqn:Hv3; [|done]. injection He3 as _ _ Hu3.
    split; [simpl; lia|]. cbn [legal_run run_actions run_action legal].
    rewrite E2. cbn [rbind]. rewrite E3. cbn [rbind release]. rewrite Hv3. cbn [rbind].
    split; [|intros s4 [= <-]; split; [|done]; cbn [evs]].
    + split; [exact Hleg|]. intros s' [= <-]. split; [done|]. rewrite E3.
      intros s' [= <-]. split; [|done]. exists v3. split; [done|lia].
    + rewrite lookup_delete_ne by done. by eapply kept_event; [apply Hd3|].
  - split; [simpl; lia|]. cbn [legal_run run_actions run_action]. rewrite E2. cbn [rbind].
    split; [by split|]. intros s3 [= <-]. by split.
Qed.

Lemma run_never_goes_backwards_witness :
  exists s1 s2, schedule 100 (Some 9%positive) 1 f1 sample_sched = Ok s1 /\
    schedule 100 (Some 8%positive) 2 (f64_of_Z 5) s1 = Ok s2 /\
    exists w' s' es' tr, run_steps ticking_handler 10 100 0%nat s2 = Ok (w', s', tr) /\
      sched_ok s' es' /\ tr = map (fun i => (1%positive, f64_of_Z i)) (seqZ 1 10) /\
      evs s' !! 2%positive = None.
Proof.
  destruct (schedule_ok 100 9 1 f1 sample_sched [] new_event 40 sample_sched_ok
    (sample_budget 41 ltac:(lia)) eq_refl ltac:(done) eq_refl eq_refl)
    as (s1 & E1 & Hok1 & Hb1 & _ & _ & _ & _ & Hd1).
  assert (He2 : exists ev, evs s1 !! 2%positive = Some ev /\ uid_ ev <= 0).
  { specialize (Hd1 2%positive ltac:(done)). simpl in Hd1.
    destruct (evs s1 !! 2%positive) as [ev|]; [|done]. exists ev. split; [done|].
    by injection Hd1 as _ _ ->. }
  destruct He2 as (ev2 & Hev2 & Hu2).
  destruct (schedule_ok 100 8 2 (f64_of_Z 5) s1 _ ev2 39 Hok1 Hb1 Hev2 Hu2 eq_refl eq_refl)
    as (s2 & E2 & Hok2 & Hb2 & _).
  destruct (run_never_goes_backwards ticking_handler ticking_inv 100 3 10 0%nat s2 _ Hok2
    (budget_mono (Q := heap) _ _ _ 39 30 ltac:(lia) Hb2) (ticking_ok 100))
    as (w' & s' & es' & tr & E & Hok' & _ & _).
  - vm_compute in E1. injection E1 as <-. vm_compute in E2. injection E2 as <-.
    split; [|intros _]; vm_compute; eauto.
  - exists s1, s2. split; [exact E1|]. split; [exact E2|]. exists w', s', es', tr.
    split; [exact E|]. split; [exact Hok'|].
    vm_compute in E1. injection E1 as <-. vm_compute in E2. injection E2 as <-.
    vm_compute in E. injection E as _ <- <-. split; vm_compute; reflexivity.
Defined.

(** The Tcl command [at t] refuses a time before the clock and otherwise
    schedules a new event at the clock plus the computed delay, which is [-t]
    for a negative [t] and [t] minus the clock otherwise; the simulation is
    never given an event in the past. *)
Theorem at_command_never_in_past {Q : Type} `{EventQueueLaws Q} (fuel : nat) (h : positive)
    (t : f64) (s : sched Q) (es : list positive) (n : nat)
    (Hok : sched_ok s es) (Hb : budget fuel s es (S n)) (Hvalid : valid t = true)
    (Hnan : is_nan t = false) (Hdiff : is_nan (fsub t (clock_ s)) = false) :
  if flt (at_delay t s) f0 then at_command fuel h t s = Ok None
  else exists e s', at_command fuel h t s = Ok (Some (e, s')) /\ e ∉ es /\
    sched_ok s' (ord_insert (tm (evs s')) e es) /\ clock_ s' = clock_ s /\
    tm (evs s') e = fadd (clock_ s) (at_delay t s).
Proof. by eapply at_command_ok. Qed.

Lemma at_command_never_in_past_witness :
  exists e s', at_command 100 9 (f64_of_Z 3) sample_sched = Ok (Some (e, s')) /\ e ∉ [] /\
    sched_ok s' (ord_insert (tm (evs s')) e []) /\ clock_ s' = f0 /\
    tm (evs s') e = fadd f0 (fsub (f64_of_Z 3) f0).
Proof.
  exact (at_command_never_in_past 100 9 (f64_of_Z 3) sample_sched [] 10 sample_sched_ok
    (sample_budget 11 ltac:(lia)) eq_refl eq_refl eq_refl).
Defined.

(** The Tcl command [cancel uid] removes from the queue the pending event
    of that number, keeps the order of the others, and frees it; without
    such an event nothing changes. *)
Theorem cancel_command_removes_one {Q : Type} `{EventQueueLaws Q} (fuel : nat) (u : Z)
    (s : sched Q) (es : list positive) (n : nat)
    (Hok : sched_ok s es) (Hb : budget fuel s es n) :
  exists s', cancel_command fuel u s = Ok s' /\ clock_ s' = clock_ s /\
    ((sched_ok s' es /\ Forall (fun x => uid_ <$> evs s !! x <> Some u) es) \/
     (exists e, e ∈ es /\ uid_ <$> evs s !! e = Some u /\ sched_ok s' (remove_ev e es) /\
        evs s' !! e = None)).
Proof. by eapply cancel_command_ok. Qed.

Lemma cancel_command_removes_one_witness :
  exists s', cancel_command 100 5 sample_sched = Ok s' /\ clock_ s' = f0.
Proof.
  destruct (cancel_command_removes_one 100 5 sample_sched [] 3 sample_sched_ok
    (sample_budget 3 ltac:(lia))) as (s' & E & Hc & _).
  exists s'. split; [exact E|exact Hc].
Defined.

(** ** The two queues agree *)

Inductive queue_op := QInsert (e : positive) | QDeque | QCancel (e : positive).

Section scripts.
Context {Q : Type} `{EventQueue Q}.

(** A script of queue operations and the events its [deque]s return. *)
Fixpoint run_script (fuel : nat) (ops : list queue_op) (st : events) (q : Q)
    : result (list (option positive)) :=
  match ops with
  | [] => Ok []
  | QInsert e :: ops' =>
      let! '(st', q') := eq_insert fuel e st q in run_script fuel ops' st' q'
  | QCancel e :: ops' =>
      let! '(st', q') := eq_cancel fuel e st q in run_script fuel ops' st' q'
  | QDeque :: ops' =>
      let! '(r, st', q') := eq_deque fuel st q in
      let! rs := run_script fuel ops' st' q' in
      Ok (r :: rs)
  end.
End scripts.

(** The data of the events: handler, time and number. *)
Abbreviation edata := (gmap positive (option positive * f64 * Z)).

Definition dtime (D : edata) (e : positive) : f64 :=
  match D !! e with Some d => d.1.2 | None => f0 end.

Definition dnum (D : edata) (e : positive) : Z :=
  match D !! e with Some d => d.2 | None => 0 end.

Definition cancelled (D : edata) (e : positive) : edata :=
  match D !! e with Some d => <[e := (d.1, - d.2)]> D | None => D end.

(** What a script may do: insert an event that exists, has a time and is not
    queued, and cancel a queued event, or one whose number says it is not. *)
Fixpoint script_ok (D : edata) (es : list positive) (ops : list queue_op) : Prop :=
  match ops with
  | [] => True
  | QInsert e :: ops' =>
      e ∉ es /\ (exists d, D !! e = Some d /\ is_nan d.1.2 = false) /\
      script_ok D (ord_insert (dtime D) e es) ops'
  | QDeque :: ops' => script_ok D (tail es) ops'
  | QCancel e :: ops' =>
      exists d, D !! e = Some d /\
        if d.2 <=? 0 then script_ok D es ops'
        else e ∈ es /\ script_ok (cancelled D e) (remove_ev e es) ops'
  end.

(** Each event inserted has a greater number than the ones of the same time,
    as the ones numbered by [schedule] have. *)
Fixpoint script_in_turn (D : edata) (es : list positive) (ops : list queue_op) : Prop :=
  match ops with
  | [] => True
  | QInsert e :: ops' =>
      forallb (fun x => negb (feq (dtime D x) (dtime D e)) || (dnum D x <? dnum D e)) es = true /\
      script_in_turn D (ord_insert (dtime D) e es) ops'
  | QDeque :: ops' => script_in_turn D (tail es) ops'
  | QCancel e :: ops' =>
      if dnum D e <=? 0 then script_in_turn D es ops'
      else script_in_turn (cancelled D e) (remove_ev e es) ops'
  end.

(** The events a queue that serves by time, first come first served, gives. *)
Fixpoint script_result (D : edata) (es : list positive) (ops : list queue_op)
    : list (option positive) :=
  match ops with
  | [] => []
  | QInsert e :: ops' => script_result D (ord_insert (dtime D) e es) ops'
  | QDeque :: ops' => head es :: script_result D (tail es) ops'
  | QCancel e :: ops' =>
      match D !! e with
      | Some d => if d.2 <=? 0 then script_result D es ops'
                  else script_result (cancelled D e) (remove_ev e es) ops'
      | None => []
      end
  end.

Section script_laws.
Context {Q : Type} `{EventQueueLaws Q}.

Lemma tm_dtime (st : events) (D : edata) k :
  ev_data <$> st !! k = D !! k -> tm st k = dtime D k.
Proof. unfold tm, dtime. intros <-. by destruct (st !! k). Qed.

Lemma num_dnum (st : events) (D : edata) k :
  ev_data <$> st !! k = D !! k -> unum st k = dnum D k.
Proof. unfold unum, dnum. intros <-. by destruct (st !! k). Qed.

Lemma script_spec fuel ops : forall D es st (q : Q),
  qrep st q es -> room q (length ops) -> (forall k, ev_data <$> st !! k = D !! k) ->
  Forall (fun x => is_Some (D !! x) /\ is_nan (dtime D x) = false) es ->
  in_order (dtime D) es -> (length es + length ops < fuel)%nat -> script_ok D es ops ->
  (by_number (Q := Q) -> in_turn (dtime D) (dnum D) es /\ script_in_turn D es ops) ->
  run_script fuel ops st q = Ok (script_result D es ops).
Proof.
  induction ops as [|o ops IH]; intros D es st q Hq Hroom HD Hes Ho Hf Hok Hnum; [done|].
  assert (HF : Forall (fun x => is_Some (st !! x) /\ is_nan (tm st x) = false) es).
  { eapply Forall_impl; [exact Hes|]. intros x [Hx Hn]. rewrite (tm_dtime st D x (HD x)).
    split; [|done]. rewrite <- HD in Hx. by apply fmap_is_Some in Hx. }
  assert (Htm : Forall (fun x => dtime D x = tm st x) es)
    by (apply Forall_forall; intros x _; symmetry; by apply tm_dtime).
  cbn [length] in Hroom, Hf. destruct o as [e| |e]; cbn [run_script script_result].
  - destruct Hok as (Hne & (d & Hd & Hnan) & Hok).
    destruct (st !! e) as [ev|] eqn:Hev.
    2: { specialize (HD e). by rewrite Hev, Hd in HD. }
    assert (Ed : ev_data ev = d) by (specialize (HD e); rewrite Hev, Hd in HD; by injection HD).
    destruct (insert_law fuel st q es e ev (length ops) Hq Hroom Hev Hne HF)
      as (st' & q' & -> & Hq' & Hroom' & Hdata);
      [by rewrite <- Ed in Hnan|by eapply in_order_ext|lia|]. cbn [rbind].
    rewrite <- (ord_insert_ext (dtime D) (tm st)) in Hq'; [|symmetry; by apply tm_dtime|done].
    assert (Hen : is_nan (dtime D e) = false) by (unfold dtime; by rewrite Hd).
    assert (Hns : Forall (fun x => is_nan (dtime D x) = false) es)
      by (eapply Forall_impl; [exact Hes|]; by intros x [_ ?]).
    apply IH; try done.
    + intros k. by rewrite Hdata, HD.
    + rewrite ord_insert_perm. constructor; [|done]. unfold dtime. by rewrite Hd.
    + by apply ord_insert_in_order.
    + rewrite length_ord_insert. lia.
    + intros Hby. destruct (Hnum Hby) as [Ht [Hu Hs]]. split; [|done]. apply in_turn_ord_insert; try done.
      rewrite forallb_forall in Hu. apply Forall_forall. intros x Hx Heq.
      specialize (Hu x (proj1 (list_elem_of_In _ _) Hx)). rewrite Heq in Hu. by apply Z.ltb_lt.
  - destruct (deque_law fuel st q es (length ops) Hq) as (st' & q' & -> & Hq' & Hroom' & Hdata);
      [by apply room_weaken|lia|done|]. cbn [rbind].
    rewrite (IH D (tail es)); [done|done|done| | | | |done|].
    + intros k. by rewrite Hdata, HD.
    + destruct es; [done|]. by apply Forall_cons in Hes as [_ ?].
    + destruct es; [done|]. by apply StronglySorted_inv in Ho as [? _].
    + destruct es; simpl in *; lia.
    + intros Hby. destruct (Hnum Hby) as [Ht Hs]. split; [|done].
      destruct es; [done|]. by apply StronglySorted_inv in Ht as [? _].
  - destruct Hok as (d & Hd & Hok). rewrite Hd.
    destruct (st !! e) as [ev|] eqn:Hev.
    2: { specialize (HD e). by rewrite Hev, Hd in HD. }
    assert (Ed : ev_data ev = d) by (specialize (HD e); rewrite Hev, Hd in HD; by injection HD).
    destruct (Z.leb_spec d.2 0) as [Hu|Hu].
    + rewrite (cancel_idle_law fuel st q es e ev Hq Hev) by (by rewrite <- Ed in Hu).
      cbn [rbind]. apply IH; try done; [by apply room_weaken|lia|].
      intros Hby. destruct (Hnum Hby) as [Ht Hs]. split; [done|]. cbn [script_in_turn] in Hs.
      unfold dnum in Hs at 1. rewrite Hd, (proj2 (Z.leb_le _ _) Hu) in Hs. done.
    + destruct Hok as [Hin Hok].
      destruct (cancel_law fuel st q es e ev (length ops) Hq ltac:(by apply room_weaken) Hev Hin)
        as (st' & q' & -> & Hq' & Hroom' & Hdata & He);
        [by rewrite <- Ed in Hu|done|by eapply in_order_ext| |lia|].
      { intros Hby. destruct (Hnum Hby) as [Ht _]. eapply in_turn_ext; [|exact Ht].
        apply Forall_forall. intros x _. rewrite (tm_dtime st D x (HD x)). split; [done|].
        symmetry. by apply num_dnum. }
      cbn [rbind].
      assert (Hdt : forall k, dtime (cancelled D e) k = dtime D k).
      { intros k. unfold dtime, cancelled. rewrite Hd. destruct (decide (k = e)) as [->|].
        - by rewrite lookup_insert_eq, Hd.
        - by rewrite lookup_insert_ne. }
      pose proof (length_remove_ev e es). apply IH; try done; [| | |lia|].
      * intros k. unfold cancelled. rewrite Hd. destruct (decide (k = e)) as [->|].
        -- rewrite He, lookup_insert_eq. by rewrite <- Ed.
        -- by rewrite Hdata, HD, lookup_insert_ne.
      * apply Forall_forall. intros x [_ Hx]%elem_of_remove_ev. rewrite Hdt.
        rewrite Forall_forall in Hes. destruct (Hes x Hx) as [[y Hy] ?]. split; [|done].
        unfold cancelled. rewrite Hd. destruct (decide (x = e)) as [->|].
        -- by rewrite lookup_insert_eq.
        -- by rewrite lookup_insert_ne, Hy.
      * eapply in_order_ext; [|apply in_order_remove, Ho]. by apply Forall_forall.
      * intros Hby. destruct (Hnum Hby) as [Ht Hs]. split.
        -- eapply in_turn_ext; [|apply in_turn_remove, Ht]. apply Forall_forall.
           intros x [Hx _]%elem_of_remove_ev. rewrite Hdt. split; [done|].
           unfold dnum, cancelled. by rewrite Hd, lookup_insert_ne.
        -- cbn [script_in_turn] in Hs. unfold dnum in Hs at 1.
           rewrite Hd, (proj2 (Z.leb_gt _ _) Hu) in Hs. done.
Qed.
End script_laws.

(** C3: on every script of insertions, cancellations and removals that
    starts with empty queues, the heap scheduler and the list scheduler give
    out the same events in the same order: the heap is an optimised sorted
    list.  The script has fewer than 2^31 operations, so that neither the
    heap's 32-bit size and indices nor its secondary key wrap around; a larger
    heap is not served correctly ([heap_grow_wraps],
    [heap_tie_order_breaks_at_wrap]). *)
Theorem heap_agrees_with_list (fuel : nat) (ops : list queue_op) (st : events)
    (Hlen : (length ops < fuel)%nat) (Hsize : Z.of_nat (length ops) < 2 ^ 31)
    (Hok : script_ok (ev_data <$> st) [] ops) :
  run_script fuel ops st new_heap = run_script fuel ops st (ListQ None) /\
  run_script fuel ops st new_heap = Ok (script_result (ev_data <$> st) [] ops).
Proof.
  assert (HD : forall k, ev_data <$> st !! k = (ev_data <$> st : edata) !! k)
    by (intros k; by rewrite lookup_fmap).
  rewrite (script_spec (Q := heap) fuel ops (ev_data <$> st) [] st new_heap);
    [|exact (qrep_empty (Q := heap) st)|split; [split|]; simpl; lia|done|constructor|constructor|done|done|done].
  rewrite (script_spec (Q := listq) fuel ops (ev_data <$> st) [] st (ListQ None)); try done.
  - constructor.
Qed.

(** Three events at times 2, 1 and 1. *)
Definition three_events : events :=
  <[1%positive := Event None None None (f64_of_Z 2) 1]>
  (<[2%positive := Event None None None f1 2]>
  (<[3%positive := Event None None None f1 3]> ∅)).

Lemma heap_agrees_with_list_witness :
  let ops := [QInsert 1; QInsert 2; QInsert 3; QDeque; QCancel 1; QDeque; QDeque]%positive in
  run_script 10 ops three_events new_heap = run_script 10 ops three_events (ListQ None) /\
  run_script 10 ops three_events new_heap = Ok [Some 2; Some 3; None]%positive.
Proof.
  intros ops. apply (heap_agrees_with_list 10 ops three_events); [simpl; lia|simpl; lia|].
  vm_compute. repeat (split || eexists); try done; set_solver.
Defined.

(** C4: on every script in which the events of equal times are numbered in
    the order they are inserted, as [Scheduler::schedule] numbers them, the
    splay tree, with its rotations on the way down and its removals without a
    parent pointer, and the sorted list give out the same events in the same
    order, whatever the number of insertions. *)
Theorem splay_agrees_with_list (fuel : nat) (ops : list queue_op) (st : events)
    (Hlen : (length ops < fuel)%nat) (Hok : script_ok (ev_data <$> st) [] ops)
    (Hturn : script_in_turn (ev_data <$> st) [] ops) :
  run_script fuel ops st new_splay = run_script fuel ops st (ListQ None) /\
  run_script fuel ops st new_splay = Ok (script_result (ev_data <$> st) [] ops).
Proof.
  assert (HD : forall k, ev_data <$> st !! k = (ev_data <$> st : edata) !! k)
    by (intros k; by rewrite lookup_fmap).
  assert (Hnil : in_turn (dtime (ev_data <$> st)) (dnum (ev_data <$> st)) []) by constructor.
  rewrite (script_spec (Q := splayq) fuel ops (ev_data <$> st) [] st new_splay);
    [|exact (qrep_empty (Q := splayq) st)|done|done|constructor|constructor|done|done|done].
  rewrite (script_spec (Q := listq) fuel ops (ev_data <$> st) [] st (ListQ None)); try done.
  - constructor.
Qed.

Lemma splay_agrees_with_list_witness :
  let ops := [QInsert 1; QInsert 2; QInsert 3; QDeque; QCancel 1; QDeque; QDeque]%positive in
  run_script 10 ops three_events new_splay = run_script 10 ops three_events (ListQ None) /\
  run_script 10 ops three_events new_splay = Ok [Some 2; Some 3; None]%positive.
Proof.
  intros ops. apply (splay_agrees_with_list 10 ops three_events); [simpl; lia| |].
  - vm_compute. repeat (split || eexists); try done; set_solver.
  - vm_compute. repeat split.
Defined.

(** [heap_delete] of an element of the heap removes that element and no
    other, whatever its place in the array, and keeps the heap order; for an
    element that is not there it changes nothing and reports it. *)
Theorem heap_delete_removes_element (fuel : nat) (e : positive) (h : heap)
    (Hwf : heap_wf h) (Hfuel : (h_size h < fuel)%nat) (Hsize : Z.of_nat (h_size h) < 2 ^ 31) :
  exists b h', heap_delete fuel e h = Ok (b, h') /\ heap_wf h' /\ h_s_key h' = h_s_key h /\
    if b then exists x, he_elem x = Some e /\ x :: contents h' ≡ₚ contents h
    else h' = h /\ Forall (fun x => he_elem x <> Some e) (contents h).
Proof. by apply heap_delete_spec. Qed.

Lemma heap_delete_removes_element_witness :
  exists h b h', heap_insert 5 f1 7 new_heap = Ok h /\ heap_delete 5 7 h = Ok (b, h') /\
    heap_wf h' /\ b = true.
Proof.
  destruct (heap_insert_spec 5 f1 7 new_heap new_heap_wf eq_refl) as (h & E & Hwf & _ & _ & Hs);
    [simpl; lia|simpl; lia|].
  destruct (heap_delete_removes_element 5 7 h Hwf) as (b & h' & E' & Hwf' & _ & Hb);
    [rewrite Hs; simpl; lia..|].
  exists h, b, h'. split; [exact E|]. split; [exact E'|]. split; [exact Hwf'|].
  vm_compute in E. injection E as <-. vm_compute in E'. by injection E' as <- _.
Defined.

(** A heap that has numbered 2^32 - 1 insertions. *)
Definition worn_heap : heap := Heap (h_elems new_heap) (2 ^ 32 - 1) 0 (h_maxsize new_heap) 0.

(** The secondary key is a 32-bit counter: of two events inserted for the
    same time around its wrap-around, the heap serves the second one first,
    although it was scheduled later. *)
Theorem heap_tie_order_breaks_at_wrap :
  run_script 10 [QInsert 2; QInsert 3; QDeque; QDeque]%positive three_events worn_heap
    = Ok [Some 3; Some 2]%positive /\
  run_script 10 [QInsert 2; QInsert 3; QDeque; QDeque]%positive three_events new_heap
    = Ok [Some 2; Some 3]%positive.
Proof. split; vm_compute; reflexivity. Qed.

(** A full array of 2^31 elements is not grown: [h_maxsize *= 2] wraps around
    to 0, and the array is copied past the end of an empty one. *)
Theorem heap_grow_wraps (h : heap) (Hfull : h_size h = h_maxsize h)
    (Hbig : Z.of_nat (h_maxsize h) = 2 ^ 31) (fuel : nat) (key : f64) (e : positive) :
  heap_insert fuel key e h = Fault OutOfBounds.
Proof.
  unfold heap_insert, grow. rewrite decide_True, Hbig by done.
  change (u32 (2 ^ 31 * 2)) with 0%nat. by rewrite decide_True by lia.
Qed.
