(* ===== verification/Link.v ===== *)
(** * The delay element of a link (link/delay.h, link/delay.cc)

    [LinkDelay] takes a packet from the queue before it, schedules the
    packet's arrival at the far end after the transmission time and the
    propagation delay, and the queue's handler after the transmission time.
    A packet is an event: the event part of the packet at address [p] is the
    event at [p] in the scheduler's region, its other fields are in the region
    of packets of the queue.

    The second half puts a queue, its link and the scheduler together: one
    step lets a packet arrive or dispatches the next event. *)

From stdpp Require Import base numbers list gmap.
From Stdlib Require Import ZArith Lia Bool.
From S2P Require Import Prelude.
From S2P Require Import Store.
From S2P Require Import Float64.
From S2P Require Import Packet.
From S2P Require Import PacketQueue.
From S2P Require Import Queue.
From S2P Require Import EventQueue.
From S2P Require Import Scheduler.

Open Scope Z_scope.

(** The fields of the class, with the address of the object as a handler. *)
Record LinkDelay := mkLinkDelay {
  bandwidth_ : f64;
  delay_ : f64;
  intr_ : positive;
  dynamic_ : Z;
  latest_time_ : f64;
  itq_ : option PacketQueue;
  total_ : list Z;
  avoidReordering_ : Z;
  target_ : option positive;
  link_this : positive
}.

(** A new link: [total_] is not initialized, and the fields Tcl binds have
    the values it gives them. *)
Definition new_LinkDelay (bandwidth delay : f64) (avoid : Z) (target : option positive)
    (intr this : positive) (total : list Z) : LinkDelay :=
  mkLinkDelay bandwidth delay intr 0 f0 None total avoid target this.

Definition set_latest_time x l :=
  mkLinkDelay (bandwidth_ l) (delay_ l) (intr_ l) (dynamic_ l) x (itq_ l) (total_ l)
    (avoidReordering_ l) (target_ l) (link_this l).
Definition set_itq x l :=
  mkLinkDelay (bandwidth_ l) (delay_ l) (intr_ l) (dynamic_ l) (latest_time_ l) (Some x) (total_ l)
    (avoidReordering_ l) (target_ l) (link_this l).
Definition set_dynamic x l :=
  mkLinkDelay (bandwidth_ l) (delay_ l) (intr_ l) x (latest_time_ l) (itq_ l) (total_ l)
    (avoidReordering_ l) (target_ l) (link_this l).
Definition set_total x l :=
  mkLinkDelay (bandwidth_ l) (delay_ l) (intr_ l) (dynamic_ l) (latest_time_ l) (itq_ l) x
    (avoidReordering_ l) (target_ l) (link_this l).

(** [isDynamic] *)
Definition isDynamic (l : LinkDelay) : LinkDelay := set_itq pq_new (set_dynamic 1 l).

(** Tcl sets [bandwidth_] and [delay_], at any time. *)
Definition retune (bandwidth delay : f64) l : LinkDelay :=
  mkLinkDelay bandwidth delay (intr_ l) (dynamic_ l) (latest_time_ l) (itq_ l) (total_ l)
    (avoidReordering_ l) (target_ l) (link_this l).

(** [8. * size / bandwidth_] *)
Definition txtime (l : LinkDelay) (v : packet) : f64 :=
  fdiv (fmul (f64_of_Z 8) (f64_of_Z (pk_size v))) (bandwidth_ l).

Definition set_time (t : f64) (e : event) : event :=
  Event (ev_next e) (ev_prev e) (handler_ e) t (uid_ e).

(** [&*itq_] *)
Definition the_itq (l : LinkDelay) : result PacketQueue :=
  match itq_ l with Some q => Ok q | None => Fault NullDeref end.

Section link.
Context {Q : Type} `{EventQueue Q}.
Implicit Types (l : LinkDelay) (m : heap) (s : sched Q).

Definition set_evs (st : events) s : sched Q :=
  Sched (clock_ s) (halted_ s) (next_uid s) st (queue s).

(** The three ways the arrival of the packet is scheduled. *)
Definition schedule_arrival (fuel : nat) (p : positive) (txt : f64) l m s
    : result (LinkDelay * heap * sched Q) :=
  if itrue (dynamic_ l) then
    let! st := store (evs s) (Some p) (set_time (fadd txt (delay_ l))) in
    let! q := the_itq l in
    let! '(_, q, m) := pq_enque p q m in
    let! s := schedule fuel (Some (link_this l)) p (fadd txt (delay_ l)) (set_evs st s) in
    Ok (set_itq q l, m, s)
  else if itrue (avoidReordering_ l) then
    let now := clock_ s in
    if flt (fadd txt (delay_ l)) (fsub (latest_time_ l) now) && flt f0 (latest_time_ l) then
      let l := set_latest_time (fadd (latest_time_ l) txt) l in
      let! s := schedule fuel (target_ l) p (fsub (latest_time_ l) now) s in
      Ok (l, m, s)
    else
      let l := set_latest_time (fadd (fadd now txt) (delay_ l)) l in
      let! s := schedule fuel (target_ l) p (fadd txt (delay_ l)) s in
      Ok (l, m, s)
  else
    let! s := schedule fuel (target_ l) p (fadd txt (delay_ l)) s in
    Ok (l, m, s).

Definition LinkDelay_recv (fuel : nat) (p : positive) (h : option positive) l m s
    : result (LinkDelay * heap * sched Q) :=
  let! v := load m (Some p) in
  let txt := txtime l v in
  let! '(l, m, s) := schedule_arrival fuel p txt l m s in
  let! s := schedule fuel h (intr_ l) txt s in
  Ok (l, m, s).

(** [handle (e)], for a dynamic link: the packet to pass to the target. *)
Definition LinkDelay_handle (e : positive) l m s : result (positive * LinkDelay) :=
  let! q := the_itq l in
  let! '(p, q) := pq_deque q m in
  let! v := load (evs s) p in
  let! w := load (evs s) (Some e) in
  let! _ := assert_that (feq (time_ v) (time_ w)) in
  match p with Some p => Ok (p, set_itq q l) | None => Fault NullDeref end.

(** [reset ()]: the packets in transit are cancelled and dropped. *)
Fixpoint transit_reset (n fuel : nat) (q : PacketQueue) m s
    : result (PacketQueue * sched Q * list positive) :=
  match n with
  | O => NoFuel
  | S n =>
      let! '(p, q) := pq_deque q m in
      match p with
      | None => Ok (q, s, [])
      | Some p =>
          let! s := cancel fuel p s in
          let! '(q, s, ps) := transit_reset n fuel q m s in
          Ok (q, s, p :: ps)
      end
  end.

Definition LinkDelay_reset (fuel : nat) l m s : result (LinkDelay * sched Q * list positive) :=
  match itq_ l with
  | None => Ok (l, s, [])
  | Some q =>
      if pq_length q =? 0 then Ok (l, s, [])
      else
        let! '(q, s, ps) := transit_reset fuel fuel q m s in
        Ok (set_itq q l, s, ps)
  end.

(** *** Counting the packets in transit *)

(** [hdr_CtrMcast], a header of another component: its source and group. *)
Context (ctr : packet -> Z * Z).

(** The counter a packet adds to, if any. *)
Definition transit_class (src group : Z) (v : packet) : option nat :=
  let h := ip (bits_ v) in
  if fid_ h =? 30 then
    if (saddr h =? src) && (daddr h =? group) then Some 0%nat else None
  else if fid_ h =? 31 then
    if (saddr h =? src) && (daddr h =? group) then Some 1%nat else None
  else if fid_ h =? 1 then
    if (fst (ctr v) =? wrap_i32 (src + 1)) && (snd (ctr v) =? group) then Some 2%nat else None
  else if fid_ h =? 0 then
    if (saddr h =? wrap_i32 (src + 1)) && (daddr h =? group) then Some 3%nat else None
  else None.

(** [while (len) { len--; ... }] *)
Fixpoint count_transit (fuel n : nat) (src group : Z) (q : PacketQueue) m (t : list Z)
    : result (list Z) :=
  match n with
  | O => Ok t
  | S n =>
      let! p := pq_lookup fuel (Z.of_nat n) q m in
      let! v := load m p in
      let t := match transit_class src group v with
               | Some k => alter (fun x => wrap_i32 (x + 1)) k t
               | None => t
               end in
      count_transit fuel n src group q m t
  end.

Definition pktintran (fuel : nat) (src group : Z) l m : result LinkDelay :=
  let zero := [0; 0; 0; 0] in
  if itrue (dynamic_ l) then
    let! q := the_itq l in
    let! t := count_transit fuel (Z.to_nat (pq_length q)) src group q m zero in
    Ok (set_total t l)
  else Ok (set_total zero l).
End link.

(** ** A queue and its link *)

(** What leaves the link system. *)
Variant link_obs :=
  | Accepted (p : positive)                 (** a packet reached the queue *)
  | Refused (p : positive)                  (** the queue dropped it *)
  | Started (p : positive) (t txt : f64)    (** its transmission began *)
  | Reached (p : positive) (t : f64)        (** it came to the target *)
  | Retuned (bandwidth delay : f64)         (** Tcl changed the link *)
  | Foreign (h e : positive) (t : f64).     (** an event of somebody else *)

Section system.
Context {S Q : Type} `{Discipline S} `{EventQueue Q}.
Context (exp : f64 -> f64).
(** [&qh_], the handler that calls [Queue::resume]. *)
Context (qh : positive).

Record link_sys := mkSys { sq : Queue S; sl : LinkDelay; ss : sched Q }.

Definition set_mem (m : heap) (q : Queue S) : Queue S :=
  mkQueue (mkQst (disc (st q)) (base (st q)) m) (blocked_ q) (unblock_on_resume_ q) (util q).

(** The queue's [target_] is the link. *)
Fixpoint queue_acts (fuel : nat) (acts : list Queue.action) (x : link_sys)
    : result (link_sys * list link_obs) :=
  match acts with
  | [] => Ok (x, [])
  | Dropped p :: acts =>
      let! '(x, o) := queue_acts fuel acts x in Ok (x, Refused p :: o)
  | Sent p :: acts =>
      let m := mem (st (sq x)) in
      let! v := load m (Some p) in
      let t := clock_ (ss x) in
      let txt := txtime (sl x) v in
      let! '(l, m, s) := LinkDelay_recv fuel p (Some qh) (sl x) m (ss x) in
      let! '(x, o) := queue_acts fuel acts (mkSys (set_mem m (sq x)) l s) in
      Ok (x, Started p t txt :: o)
  end.

Definition sys_recv (fuel : nat) (p : positive) (x : link_sys)
    : result (link_sys * list link_obs) :=
  let! '(q, acts) := Queue_recv exp (clock_ (ss x)) p (sq x) in
  let! '(x, o) := queue_acts fuel acts (mkSys q (sl x) (ss x)) in
  Ok (x, Accepted p :: o).

Definition sys_resume (fuel : nat) (x : link_sys) : result (link_sys * list link_obs) :=
  let! '(q, acts) := Queue_resume exp (clock_ (ss x)) (sq x) in
  queue_acts fuel acts (mkSys q (sl x) (ss x)).

(** One iteration of the scheduler's loop; [None] when no event waits. *)
Definition sys_next (fuel : nat) (x : link_sys) : result (option (link_sys * list link_obs)) :=
  let! '(w, s, _) := run_steps note_handler 1 fuel None (ss x) in
  match w with
  | None => Ok None
  | Some (h, e) =>
      let x := mkSys (sq x) (sl x) s in
      if bool_decide (h = qh) then
        let! y := sys_resume fuel x in Ok (Some y)
      else if bool_decide (h = link_this (sl x)) then
        let! '(p, l) := LinkDelay_handle e (sl x) (mem (st (sq x))) s in
        Ok (Some (mkSys (sq x) l s, [Reached p (clock_ s)]))
      else if bool_decide (target_ (sl x) = Some h) then
        Ok (Some (x, [Reached e (clock_ s)]))
      else Ok (Some (x, [Foreign h e (clock_ s)]))
  end.

(** Iterations until no event waits, [n] at most. *)
Fixpoint sys_run (n fuel : nat) (x : link_sys) : result (link_sys * list link_obs) :=
  match n with
  | O => Ok (x, [])
  | Datatypes.S n =>
      let! r := sys_next fuel x in
      match r with
      | None => Ok (x, [])
      | Some (x, o) => let! '(x, o') := sys_run n fuel x in Ok (x, o ++ o')
      end
  end.
End system.
Arguments link_sys S Q : clear implicits.
