(* ===== verification/LinkProps.v ===== *)
(** * A queue, its link and the scheduler: invariant

    [link_inv x c T es]: the queue of the system [x] holds the packets [c],
    [T] are the packets on their way with the times they are due, and [es]
    are the events that wait, those of other objects among them.  Every step
    keeps it; the bookkeeping of packets and times is read off the
    observations. *)

From stdpp Require Import base numbers list gmap sorting.
From Stdlib Require Import ZArith Lia Bool.
From S2P Require Import Prelude.
From S2P Require Import Store.
From S2P Require Import Float64.
From S2P Require Import Packet.
From S2P Require Import PacketQueue.
From S2P Require Import Queue.
From S2P Require Import EventQueue.
From S2P Require Import Scheduler.
From S2P Require Import Link.

Open Scope Z_scope.

(** ** What the observations say *)

Definition accepted (o : list link_obs) : list positive :=
  omap (fun x => match x with Accepted p => Some p | _ => None end) o.
Definition refused (o : list link_obs) : list positive :=
  omap (fun x => match x with Refused p => Some p | _ => None end) o.
Definition started (o : list link_obs) : list positive :=
  omap (fun x => match x with Started p _ _ => Some p | _ => None end) o.
Definition reached (o : list link_obs) : list (positive * f64) :=
  omap (fun x => match x with Reached p t => Some (p, t) | _ => None end) o.

Lemma accepted_app o o' : accepted (o ++ o') = accepted o ++ accepted o'.
Proof. apply omap_app. Qed.
Lemma refused_app o o' : refused (o ++ o') = refused o ++ refused o'.
Proof. apply omap_app. Qed.
Lemma started_app o o' : started (o ++ o') = started o ++ started o'.
Proof. apply omap_app. Qed.
Lemma reached_app o o' : reached (o ++ o') = reached o ++ reached o'.
Proof. apply omap_app. Qed.

(** What arrivals depend on: the delay, whether the link keeps packets in
    order when it is changed, and the latest arrival so far. *)
Record tuning := mkTuning { tu_delay : f64; tu_keeps : bool; tu_latest : f64 }.

Definition tuning_of (l : LinkDelay) : tuning :=
  mkTuning (delay_ l) (negb (itrue (dynamic_ l)) && itrue (avoidReordering_ l)) (latest_time_ l).

(** When a packet whose transmission starts at [t] and takes [txt] is due, and
    the latest arrival from then on. *)
Definition arrival (w : tuning) (t txt : f64) : f64 * f64 :=
  let a := fadd txt (tu_delay w) in
  if tu_keeps w then
    if flt a (fsub (tu_latest w) t) && flt f0 (tu_latest w) then
      let x := fadd (tu_latest w) txt in (fadd t (fsub x t), x)
    else (fadd t a, fadd (fadd t txt) (tu_delay w))
  else (fadd t a, tu_latest w).

Definition with_latest (x : f64) (w : tuning) : tuning := mkTuning (tu_delay w) (tu_keeps w) x.

Definition tuned_by (w : tuning) (x : link_obs) : tuning :=
  match x with
  | Started p t txt => with_latest (snd (arrival w t txt)) w
  | Retuned _ d => mkTuning d (tu_keeps w) (tu_latest w)
  | _ => w
  end.

Definition tuned (w : tuning) (o : list link_obs) : tuning := foldl tuned_by w o.

(** The packets whose transmission started, and when they are due. *)
Fixpoint expected (w : tuning) (o : list link_obs) : list (positive * f64) :=
  match o with
  | [] => []
  | x :: o =>
      match x with Started p t txt => [(p, fst (arrival w t txt))] | _ => [] end ++
      expected (tuned_by w x) o
  end.

Lemma tuned_app w o o' : tuned w (o ++ o') = tuned (tuned w o) o'.
Proof. apply foldl_app. Qed.

Lemma expected_app w o o' : expected w (o ++ o') = expected w o ++ expected (tuned w o) o'.
Proof. revert w. induction o as [|x o IH]; intros w; [done|]. cbn. by rewrite IH, (assoc_L (++)). Qed.

(** No transmission starts before [u], nor before the one before it ended. *)
Fixpoint spaced (u : f64) (o : list link_obs) : Prop :=
  match o with
  | [] => True
  | Started p t txt :: o => fle u t = true /\ spaced (fadd t txt) o
  | _ :: o => spaced u o
  end.

(** The end of the last transmission, [u] before the first. *)
Fixpoint last_end (u : f64) (o : list link_obs) : f64 :=
  match o with
  | [] => u
  | Started p t txt :: o => last_end (fadd t txt) o
  | _ :: o => last_end u o
  end.

Lemma spaced_app u o o' : spaced u o -> spaced (last_end u o) o' -> spaced u (o ++ o').
Proof.
  revert u. induction o as [|x o IH]; intros u H1 H2; [done|].
  destruct x; simpl in *; auto. destruct H1. auto.
Qed.

Lemma last_end_app u o o' : last_end u (o ++ o') = last_end (last_end u o) o'.
Proof. revert u. induction o as [|x o IH]; intros u; [done|]. by destruct x; simpl. Qed.

(** Where a latest arrival is put off it is still a time. *)
Lemma put_off_ok x t txt a :
  valid x = true -> valid t = true -> valid txt = true ->
  nonneg x = true -> nonneg t = true -> nonneg txt = true -> nonneg a = true ->
  flt a (fsub x t) = true ->
  nonneg (fsub (fadd x txt) t) = true /\ valid (fsub (fadd x txt) t) = true.
Proof.
  intros Vx Vt Vd Nx Nt Nd Na Hlt.
  destruct (fsub_pos x t) as [Hf Hle]; [done..| |].
  { apply (fle_lt_trans f0 a); [by apply nonneg_fle|done]. }
  destruct (fadd_nonneg x txt) as (N1 & V1 & Hx & _); [done..|].
  apply fsub_ge; try done. by eapply fle_trans.
Qed.

Section link.
Context {S Q : Type} `{DisciplineLaws S} `{EventQueueLaws Q}.
Context (exp : f64 -> f64) (qh target : positive).
Implicit Types (l : LinkDelay) (m : heap) (s : sched Q) (T : list (positive * f64)).

(** A packet with a transmission time that is a number at or above zero. *)
Definition sendable (l : LinkDelay) (v : packet) : Prop :=
  valid (txtime l v) = true /\ nonneg (txtime l v) = true.

(** A link whose delay is a number at or above zero, and three different
    handlers. *)
Record steady (l : LinkDelay) : Prop := {
  sy_target : target_ l = Some target;
  sy_handlers : qh <> target /\ link_this l <> qh /\ link_this l <> target;
  sy_delay : valid (delay_ l) = true /\ nonneg (delay_ l) = true;
  sy_latest : valid (latest_time_ l) = true /\ nonneg (latest_time_ l) = true
}.

(** The part of a link that is set up once. *)
Record same_link (l l' : LinkDelay) : Prop := {
  sm_intr : intr_ l' = intr_ l;
  sm_this : link_this l' = link_this l;
  sm_target : target_ l' = target_ l;
  sm_dynamic : dynamic_ l' = dynamic_ l;
  sm_avoid : avoidReordering_ l' = avoidReordering_ l
}.

Lemma same_link_refl l : same_link l l.
Proof. done. Qed.

Lemma same_link_trans l1 l2 l3 : same_link l1 l2 -> same_link l2 l3 -> same_link l1 l3.
Proof. intros [] []. constructor; congruence. Qed.

(** The handler of the arrivals, and the one that has none: a dynamic link
    handles its arrivals itself. *)
Definition arr (l : LinkDelay) : positive := if itrue (dynamic_ l) then link_this l else target.
Definition spare (l : LinkDelay) : positive := if itrue (dynamic_ l) then target else link_this l.

Lemma arr_same l l' : same_link l l' -> arr l' = arr l /\ spare l' = spare l.
Proof. intros []. unfold arr, spare. by rewrite sm_dynamic0, sm_this0. Qed.

Lemma steady_handlers l : steady l -> arr l <> qh /\ spare l <> qh /\ spare l <> arr l.
Proof. intros [_ (A & B & C) _ _]. unfold arr, spare. destruct (itrue (dynamic_ l)); split_and!; congruence. Qed.

(** What the events on a link say: the packets [T] are on their way, with the
    times they are due, [es] are the events that wait, and no event of the
    link or of its queue waits apart from these and [intr_]. *)
Record flight (l : LinkDelay) (s : sched Q) (T : list (positive * f64)) (es : list positive)
    : Prop := {
  fl_sched : sched_ok s es;
  fl_running : halted_ s = false;
  fl_intr : is_Some (evs s !! intr_ l);
  fl_transit : forall p t, (p, t) ∈ T -> p ∈ es /\ handled (evs s) (arr l) p /\ tm (evs s) p = t;
  fl_once : NoDup T.*1;
  fl_owned : forall e, e ∈ es ->
    (handled (evs s) (arr l) e -> e ∈ T.*1) /\ (handled (evs s) qh e -> e = intr_ l) /\
    ~ handled (evs s) (spare l) e
}.

(** A dynamic link keeps the packets [T] in its own queue, in the order they
    were sent. *)
Definition in_order_sent (s : sched Q) (ps : list positive) : Prop :=
  StronglySorted (fun a b => unum (evs s) a < unum (evs s) b) ps.

Definition kept (l : LinkDelay) (m : heap) (s : sched Q) (T : list (positive * f64)) : Prop :=
  itrue (dynamic_ l) = true ->
  in_order_sent s T.*1 /\ exists q, itq_ l = Some q /\ pq_rep m q T.*1.

(** A packet that may go over the link: none of the waiting events, nor the
    link's own. *)
Definition free_packet (m : heap) (l : LinkDelay) (s : sched Q) (es : list positive) (p : positive)
    : Prop :=
  p ∉ es /\ p <> intr_ l /\ is_Some (evs s !! p) /\ exists v, m !! p = Some v /\ sendable l v.

(** The queue holds the packets [c]; [u] is the end of the last transmission:
    a blocked queue will be resumed then, an unblocked one is empty. *)
Record link_inv (x : link_sys S Q) (c : list positive) (T : list (positive * f64))
    (es : list positive) (u : f64) : Prop := {
  li_steady : steady (sl x);
  li_flight : flight (sl x) (ss x) T es;
  li_kept : kept (sl x) (mem (st (sq x))) (ss x) T;
  li_holds : holds (st (sq x)) c;
  li_unblock : unblock_on_resume_ (sq x) = 1;
  li_util : util_ok (util (sq x));
  li_busy : (blocked_ (sq x) = 1 /\ intr_ (sl x) ∈ es /\ handled (evs (ss x)) qh (intr_ (sl x)) /\
               tm (evs (ss x)) (intr_ (sl x)) = u) \/
            (blocked_ (sq x) = 0 /\ c = [] /\ intr_ (sl x) ∉ es /\ fle u (clock_ (ss x)) = true);
  li_free : forall p, p ∈ c -> free_packet (mem (st (sq x))) (sl x) (ss x) es p
}.

(** What a step did: packets and arrivals are accounted for, transmissions do
    not overlap, and [w'] is the tuning after it. *)
Record accounts (w : tuning) (c : list positive) (T : list (positive * f64)) (u : f64)
    (o : list link_obs) (c' : list positive) (T' : list (positive * f64)) (w' : tuning) : Prop := {
  ac_packets : accepted o ++ c ≡ₚ c' ++ started o ++ refused o;
  ac_transit : T ++ expected w o ≡ₚ T' ++ reached o;
  ac_spaced : spaced u o;
  ac_tuned : w' = tuned w o
}.

Lemma transit_waits l s T es k : flight l s T es -> k ∈ T.*1 -> k ∈ es.
Proof. intros Hfl ([p t] & -> & Hin)%list_elem_of_fmap. by apply (fl_transit _ _ _ _ Hfl) in Hin as []. Qed.

(** ** One event *)

(** The packets on their way but for [p]. *)
Definition without (p : positive) (T : list (positive * f64)) : list (positive * f64) :=
  filter (fun x => x.1 <> p) T.

Lemma elem_of_without p T k t : (k, t) ∈ without p T <-> (k, t) ∈ T /\ k <> p.
Proof. unfold without. rewrite list_elem_of_filter. cbn. tauto. Qed.

Lemma without_cons p k t T :
  without p ((k, t) :: T) = if decide (k = p) then without p T else (k, t) :: without p T.
Proof.
  unfold without. destruct (decide (k = p)) as [->|].
  - by rewrite filter_cons_False by (cbn; tauto).
  - by rewrite filter_cons_True.
Qed.

Lemma without_notin p T : p ∉ T.*1 -> without p T = T.
Proof.
  induction T as [|[k t] T IH]; [done|]. rewrite fmap_cons, not_elem_of_cons, without_cons.
  intros [Hne Hin]. cbn in Hne. rewrite decide_False by congruence. by rewrite IH.
Qed.

Lemma without_in p t T : NoDup T.*1 -> (p, t) ∈ T -> T ≡ₚ (p, t) :: without p T.
Proof.
  induction T as [|[k v] T IH]; intros Hnd Hin; [by apply elem_of_nil in Hin|].
  rewrite without_cons. apply NoDup_cons in Hnd as [Hk Hnd]. cbn in Hk.
  apply elem_of_cons in Hin as [[= -> ->]|Hin].
  - by rewrite decide_True, without_notin.
  - rewrite decide_False.
    + rewrite perm_swap. f_equiv. by apply IH.
    + intros ->. apply Hk, list_elem_of_fmap. by exists (p, t).
Qed.

Lemma without_fst p T : (without p T).*1 = filter (fun k => k <> p) T.*1.
Proof.
  induction T as [|[k t] T IH]; [done|]. rewrite without_cons, fmap_cons.
  destruct (decide (k = p)) as [->|Hne].
  - by rewrite filter_cons_False by (cbn; tauto).
  - rewrite filter_cons_True by done. by rewrite fmap_cons, IH.
Qed.

Lemma NoDup_without p T : NoDup T.*1 -> NoDup (without p T).*1.
Proof. rewrite without_fst. apply NoDup_filter. Qed.

(** The event at the head of the list is dispatched. *)
Lemma flight_next fuel n p es l s T :
  steady l -> flight l s T (p :: es) -> budget fuel s (p :: es) n ->
  exists h s' tr, run_steps note_handler 1 fuel None s = Ok (Some (h, p), s', tr) /\
    flight l s' (without p T) es /\ budget fuel s' es n /\ clock_ s' = tm (evs s) p /\
    fle (clock_ s) (clock_ s') = true /\ p ∉ es /\
    (forall k, is_Some (evs s !! k) -> is_Some (evs s' !! k)) /\
    (forall k, k <> p -> ev_data <$> evs s' !! k = ev_data <$> evs s !! k) /\
    handled (evs s) h p /\ h <> spare l /\ (h = qh -> p = intr_ l) /\
    tm (evs s') p = tm (evs s) p /\
    if decide (h = arr l) then (p, clock_ s') ∈ T else p ∉ T.*1.
Proof.
  intros Hst [Hok Hrun Hi Ht Hnd Hown] Hb.
  destruct (note_next fuel n p es s Hok Hb Hrun)
    as (h & s' & tr & E & Hh & Hok' & Hb' & Hrun' & Hc & Hle & [Hp Hpt] & Hd).
  pose proof (qrep_NoDup _ _ _ (proj1 Hok)) as [Hpn _]%NoDup_cons.
  assert (Hsome : forall k, is_Some (evs s !! k) -> is_Some (evs s' !! k)).
  { intros k Hk. destruct (decide (k = p)) as [->|Hne]; [done|]. specialize (Hd k Hne).
    destruct (evs s !! k); [|by destruct Hk]. by destruct (evs s' !! k). }
  assert (Hkeep : forall h e, e ∈ es -> handled (evs s') h e <-> handled (evs s) h e).
  { intros h' e He. apply handled_data, Hd. by intros ->. }
  destruct (Hown p ltac:(by left)) as (O1 & O2 & O3).
  exists h, s', tr. split; [exact E|].
  split_and!; try done; [|by intros ->|by intros ->; auto|].
  - constructor; [done|done|auto|..].
    + intros k t [Hin Hne]%elem_of_without. destruct (Ht k t Hin) as (He & Hh' & Htm).
      apply elem_of_cons in He as [?|He]; [done|]. split_and!; [done|by apply Hkeep|].
      rewrite <- Htm. by apply data_tm, Hd.
    + by apply NoDup_without.
    + intros e He. destruct (Hown e ltac:(by right)) as (P1 & P2 & P3).
      rewrite !Hkeep by done. split_and!; [|done|done]. intros Hh'.
      destruct (proj1 (list_elem_of_fmap _ _ _) (P1 Hh')) as ([k t] & -> & Hin). cbn [fst] in *.
      apply list_elem_of_fmap. exists (k, t). split; [done|]. apply elem_of_without.
      split; [done|]. by intros ->.
  - destruct (decide (h = arr l)) as [->|Hne].
    + destruct (proj1 (list_elem_of_fmap _ _ _) (O1 Hh)) as ([k t] & -> & Hin). cbn [fst] in *.
      destruct (Ht k t Hin) as (_ & _ & Htm). by rewrite Hc, Htm.
    + intros ([k t] & -> & Hin)%list_elem_of_fmap. destruct (Ht k t Hin) as (_ & Hh' & _).
      apply Hne. by eapply handled_fun.
Qed.

(** ** A packet handed to the link *)

(** [p] has been scheduled for the handler [h] at [a]. *)
Record scheduled (s s' : sched Q) (es es' : list positive) (h p : positive) (a : f64) : Prop := {
  sc_ok : sched_ok s' es';
  sc_perm : es' ≡ₚ p :: es;
  sc_clock : clock_ s' = clock_ s;
  sc_halted : halted_ s' = halted_ s;
  sc_handler : handled (evs s') h p;
  sc_time : tm (evs s') p = a;
  sc_newest : forall k, k ∈ es -> unum (evs s') k < unum (evs s') p;
  sc_data : forall k, k <> p -> ev_data <$> evs s' !! k = ev_data <$> evs s !! k
}.

Lemma schedule_scheduled fuel n h p t s es ev :
  sched_ok s es -> budget fuel s es (1 + n) -> evs s !! p = Some ev -> p ∉ es ->
  valid t = true -> nonneg t = true ->
  exists s' es', schedule fuel (Some h) p t s = Ok s' /\ budget fuel s' es' n /\
    scheduled s s' es es' h p (fadd (clock_ s) t).
Proof.
  intros Hok Hb Hev Hp Vt Nt. assert (Hu : uid_ ev <= 0) by (by eapply w_idle; [apply Hok|..]).
  destruct (schedule_ok fuel h p t s es ev n) as (s' & E & Hok' & Hb' & Hc & Hr & Ht & Hh & Hd); [done..|].
  pose proof (schedule_newest fuel h p t s es ev n s' Hok Hb Hev Hu Vt Nt E) as Hn.
  exists s', (ord_insert (tm (evs s')) p es). split; [done|]. split; [done|].
  constructor; try done. apply ord_insert_perm.
Qed.

(** The time of an event that does not wait may be written. *)
Lemma set_time_ok t p s es ev :
  sched_ok s es -> evs s !! p = Some ev -> p ∉ es ->
  sched_ok (set_evs (<[p := set_time t ev]> (evs s)) s) es.
Proof.
  intros [Hq Hw] Hev Hp.
  assert (Hin : forall k, k ∈ es -> <[p := set_time t ev]> (evs s) !! k = evs s !! k)
    by (intros k Hk; apply lookup_insert_ne; by intros <-).
  split; [by eapply qrep_frame|].
  eapply waiting_fewer; [exact Hw|done|apply Hw|apply Hw|exact Hin| |apply Hw|apply Hw|].
  - intros k v Hk. cbn [evs set_evs]. rewrite lookup_insert_Some. intros [[<- <-]|[Hne Hv]]; cbn.
    + by eapply (w_idle _ _ _ es p).
    + by eapply (w_idle _ _ _ es k).
  - intros k Hk. by eapply w_future.
Qed.

(** What the link is after [schedule_arrival], [x] being the latest arrival. *)
Record handed (l l' : LinkDelay) (x : f64) : Prop := {
  hd_steady : steady l';
  hd_same : same_link l l';
  hd_bandwidth : bandwidth_ l' = bandwidth_ l;
  hd_tuning : tuning_of l' = with_latest x (tuning_of l)
}.

(** The branch of a dynamic link. *)
Lemma arrival_dynamic fuel n p v txt l m s T es ev :
  steady l -> flight l s T es -> kept l m s T -> budget fuel s es (1 + n) ->
  m !! p = Some v -> evs s !! p = Some ev -> p ∉ es -> valid txt = true -> nonneg txt = true ->
  itrue (dynamic_ l) = true ->
  exists l' m' s' es', schedule_arrival fuel p txt l m s = Ok (l', m', s') /\ budget fuel s' es' n /\
    scheduled s s' es es' (arr l) p (fst (arrival (tuning_of l) (clock_ s) txt)) /\
    handed l l' (snd (arrival (tuning_of l) (clock_ s) txt)) /\ relinked (T.*1 ++ [p]) m m' /\
    exists q, itq_ l' = Some q /\ pq_rep m' q (T.*1 ++ [p]).
Proof.
  intros Hst Hfl Hk Hb Hv Hev Hp Vt Nt Hdyn. destruct (Hk Hdyn) as (_ & q & Hq & Hr).
  assert (HpT : p ∉ T.*1) by (intros Hin; apply Hp; by eapply transit_waits).
  destruct (fadd_nonneg txt (delay_ l)) as (Na & Va & _); [done|apply Hst|done|apply Hst|].
  destruct (pq_enque_spec p v q m _ Hr HpT Hv) as (q' & m' & Eq & Hr' & Hrel & _).
  pose proof (set_time_ok (fadd txt (delay_ l)) p s es ev (fl_sched _ _ _ _ Hfl) Hev Hp) as Hok1.
  set (s1 := set_evs _ s) in *.
  destruct (schedule_scheduled fuel n (link_this l) p (fadd txt (delay_ l)) s1 es
    (set_time (fadd txt (delay_ l)) ev)) as (s' & es' & Es & Hb' & [C1 C2 C3 C4 C5 C6 C7 C8]);
    [done|done|apply lookup_insert_eq|done..|].
  exists (set_itq q' l), m', s', es'. split.
  { unfold schedule_arrival, the_itq. rewrite Hdyn, (store_Some _ _ _ _ Hev), Hq. cbn [rbind].
    rewrite Eq. cbn [rbind]. fold s1. by rewrite Es. }
  unfold arrival, arr. cbn [tu_keeps tuning_of tu_delay tu_latest]. rewrite Hdyn. cbn [negb andb fst snd].
  split; [done|]. split; [|split; [|split; [done|by exists q']]].
  - constructor; try done. intros k Hk'. rewrite C8 by done. unfold s1. cbn. by rewrite lookup_insert_ne.
  - constructor; try done. by destruct Hst.
Qed.

(** The two branches of a link that is not. *)
Lemma arrival_plain fuel n p txt l m s T es ev :
  steady l -> flight l s T es -> budget fuel s es (1 + n) ->
  evs s !! p = Some ev -> p ∉ es -> valid txt = true -> nonneg txt = true ->
  itrue (dynamic_ l) = false ->
  exists l' s' es', schedule_arrival fuel p txt l m s = Ok (l', m, s') /\ budget fuel s' es' n /\
    scheduled s s' es es' (arr l) p (fst (arrival (tuning_of l) (clock_ s) txt)) /\
    handed l l' (snd (arrival (tuning_of l) (clock_ s) txt)).
Proof.
  intros Hst Hfl Hb Hev Hp Vt Nt Hdyn. pose proof Hst as [Htg Hhs [Vd Nd] [Vl Nl]].
  destruct (w_clock _ _ _ _ (proj2 (fl_sched _ _ _ _ Hfl))) as [Vc Nc].
  destruct (fadd_nonneg txt (delay_ l)) as (Na & Va & _); [done..|].
  destruct (fadd_nonneg (latest_time_ l) txt) as (Nx & Vx & _); [done..|].
  destruct (fadd_nonneg (clock_ s) txt) as (N1 & V1 & _); [done..|].
  destruct (fadd_nonneg (fadd (clock_ s) txt) (delay_ l)) as (N2 & V2 & _); [done..|].
  unfold schedule_arrival, arrival, arr. cbn [tu_keeps tuning_of tu_delay tu_latest].
  rewrite Hdyn, Htg. cbn [negb andb].
  assert (Hgo : forall t, valid t = true -> nonneg t = true ->
    exists s' es', schedule fuel (Some target) p t s = Ok s' /\ budget fuel s' es' n /\
      scheduled s s' es es' target p (fadd (clock_ s) t))
    by (intros t Vt' Nt'; apply (schedule_scheduled _ _ _ _ _ _ _ ev); [apply Hfl|done..]).
  destruct (itrue (avoidReordering_ l)) eqn:Hav.
  2:{ destruct (Hgo _ Va Na) as (s' & es' & -> & Hb' & Hsc). cbn [rbind]. exists l, s', es'.
      by split_and!. }
  destruct (flt _ _ && flt _ _) eqn:Hlt.
  - apply andb_prop in Hlt as [Hlt _].
    destruct (put_off_ok (latest_time_ l) (clock_ s) txt _ Vl Vc Vt Nl Nc Nt Na Hlt) as [Np Vp].
    cbn [latest_time_ set_latest_time target_].
    rewrite Htg. destruct (Hgo _ Vp Np) as (s' & es' & -> & Hb' & Hsc). cbn [rbind].
    eexists _, s', es'. split; [done|]. split; [done|]. split; [done|]. constructor; try done.
  - cbn [set_latest_time target_ delay_]. rewrite Htg.
    destruct (Hgo _ Va Na) as (s' & es' & -> & Hb' & Hsc). cbn [rbind].
    eexists _, s', es'. split; [done|]. split; [done|]. split; [done|]. constructor; try done.
Qed.

(** Both branches at once. *)
Lemma schedule_arrival_ok fuel n p v txt l m s T es ev :
  steady l -> flight l s T es -> kept l m s T -> budget fuel s es (1 + n) ->
  m !! p = Some v -> evs s !! p = Some ev -> p ∉ es -> valid txt = true -> nonneg txt = true ->
  exists l' m' s' es', schedule_arrival fuel p txt l m s = Ok (l', m', s') /\ budget fuel s' es' n /\
    scheduled s s' es es' (arr l) p (fst (arrival (tuning_of l) (clock_ s) txt)) /\
    handed l l' (snd (arrival (tuning_of l) (clock_ s) txt)) /\ relinked (T.*1 ++ [p]) m m' /\
    (itrue (dynamic_ l) = true -> exists q, itq_ l' = Some q /\ pq_rep m' q (T.*1 ++ [p])).
Proof.
  intros Hst Hfl Hk Hb Hv Hev Hp Vt Nt. destruct (itrue (dynamic_ l)) eqn:Hdyn.
  - destruct (arrival_dynamic fuel n p v txt l m s T es ev) as (l' & m' & s' & es' & R); try done.
    exists l', m', s', es'. naive_solver.
  - destruct (arrival_plain fuel n p txt l m s T es ev) as (l' & s' & es' & E & R1 & R2 & R3); try done.
    exists l', m, s', es'. by split_and!.
Qed.

Lemma kept_some (st st' : events) k :
  ev_data <$> st' !! k = ev_data <$> st !! k -> is_Some (st !! k) -> is_Some (st' !! k).
Proof. intros Hd Hk. by rewrite <- (fmap_is_Some ev_data), Hd, fmap_is_Some. Qed.

Lemma in_order_sent_ext s s' ps :
  in_order_sent s ps -> (forall k, k ∈ ps -> unum (evs s') k = unum (evs s) k) -> in_order_sent s' ps.
Proof.
  unfold in_order_sent. induction 1 as [|p ps Hs IH Hp]; intros Hu; constructor.
  - apply IH. intros k Hk. apply Hu. by right.
  - rewrite Forall_forall in Hp |- *. intros k Hk. rewrite !Hu by (by (left || right)). auto.
Qed.

(** The events of a packet handed to the link. *)
Lemma flight_add p t l l' s s2 T es es2 :
  steady l -> same_link l l' -> flight l s T es -> sched_ok s2 es2 -> halted_ s2 = false ->
  es2 ≡ₚ intr_ l :: p :: es -> p ∉ es -> intr_ l ∉ es ->
  handled (evs s2) (arr l) p -> tm (evs s2) p = t -> handled (evs s2) qh (intr_ l) ->
  (forall k, k <> p -> k <> intr_ l -> ev_data <$> evs s2 !! k = ev_data <$> evs s !! k) ->
  flight l' s2 (T ++ [(p, t)]) es2.
Proof.
  intros Hst Hsm [Hok Hrun Hi Ht Hnd Hown] Hok2 Hrun2 Hes Hp Hin Hhp Htp Hhi Hd.
  destruct (steady_handlers l Hst) as (Hne1 & Hne2 & Hne3).
  destruct (arr_same l l' Hsm) as [Ea Es].
  assert (Hold : forall k, k ∈ es -> ev_data <$> evs s2 !! k = ev_data <$> evs s !! k)
    by (intros k Hk; apply Hd; by intros ->).
  constructor; rewrite ?Ea, ?Es, ?(sm_intr _ _ Hsm);
    [done|done|by unfold handled in Hhi; destruct (evs s2 !! intr_ l)|..].
  - intros k u [Hk|[= -> ->]%list_elem_of_singleton]%elem_of_app; rewrite Hes;
      [|split_and!; [by right; left|done..]].
    destruct (Ht k u Hk) as (He & Hh & Htm). split_and!; [by right; right| |].
    + by apply (handled_data (evs s)); [apply Hold|].
    + rewrite <- Htm. by apply data_tm, Hold.
  - rewrite fmap_app. cbn. rewrite NoDup_app. split_and!; [done| |apply NoDup_singleton].
    intros k ([j u] & -> & Hk)%list_elem_of_fmap Hj%list_elem_of_singleton. cbn in Hj. subst j.
    by destruct (Ht _ u Hk).
  - intros e He. rewrite Hes, !elem_of_cons in He. rewrite fmap_app, elem_of_app. destruct He as [->|[->|He]].
    + split_and!; intros Hh; [|done|]; pose proof (handled_fun _ _ _ _ Hh Hhi); congruence.
    + split_and!; intros Hh; [by right; left| |]; pose proof (handled_fun _ _ _ _ Hh Hhp); congruence.
    + destruct (Hown e He) as (P1 & P2 & P3).
      assert (Hk : forall h, handled (evs s2) h e <-> handled (evs s) h e)
        by (intros h; apply handled_data; auto).
      rewrite !Hk. split_and!; [left; auto|done|done].
Qed.

(** A packet handed to the link. *)
Lemma flight_send fuel n p v l m s T es :
  steady l -> flight l s T es -> kept l m s T -> budget fuel s es (2 + n) ->
  m !! p = Some v -> sendable l v -> is_Some (evs s !! p) -> p ∉ es ->
  intr_ l ∉ es -> p <> intr_ l ->
  let r := arrival (tuning_of l) (clock_ s) (txtime l v) in
  let T' := T ++ [(p, fst r)] in
  exists l' m' s' es', LinkDelay_recv fuel p (Some qh) l m s = Ok (l', m', s') /\
    flight l' s' T' es' /\ kept l' m' s' T' /\ handed l l' (snd r) /\ relinked (T.*1 ++ [p]) m m' /\
    budget fuel s' es' n /\ es' ≡ₚ intr_ l :: p :: es /\
    handled (evs s') qh (intr_ l) /\ tm (evs s') (intr_ l) = fadd (clock_ s) (txtime l v) /\
    (forall k, is_Some (evs s !! k) -> is_Some (evs s' !! k)).
Proof.
  intros Hst Hfl Hk Hb Hv (Vx & Nx) [ev Hev] Hp Hin Hpi. cbn zeta.
  destruct (schedule_arrival_ok fuel (1 + n) p v (txtime l v) l m s T es ev)
    as (l' & m' & s1 & es1 & E1 & Hb1 & [C1 C2 C3 C4 C5 C6 C7 C8] & Hhd & Hrel & Hq); [done..|].
  destruct (kept_some (evs s) (evs s1) (intr_ l)) as [iv Hiv]; [auto|apply Hfl|].
  assert (Hin1 : intr_ l ∉ es1) by (rewrite C2; intros [?|?]%elem_of_cons; [by apply Hpi|done]).
  destruct (schedule_scheduled fuel n qh (intr_ l) (txtime l v) s1 es1 iv)
    as (s2 & es2 & E2 & Hb2 & [D1 D2 D3 D4 D5 D6 D7 D8]); [done..|].
  assert (Hes : es2 ≡ₚ intr_ l :: p :: es) by (by rewrite D2, C2).
  pose proof (hd_same _ _ _ Hhd) as Hsm.
  exists l', m', s2, es2. split.
  { unfold LinkDelay_recv. rewrite (load_Some _ _ _ Hv). cbn [rbind]. rewrite E1. cbn [rbind].
    rewrite (sm_intr _ _ Hsm). by rewrite E2. }
  split; [|split; [|split_and!; try done; [by rewrite D6, C3|]]].
  - eapply flight_add; try done; [rewrite D4, C4; apply Hfl| | |].
    + by apply (handled_data (evs s1)); [apply D8|].
    + rewrite <- C6. by apply data_tm, D8.
    + intros k ??. by rewrite D8, C8.
  - rewrite <- (sm_dynamic _ _ Hsm) in Hq. intros Hdyn. rewrite fmap_app. cbn [fmap list_fmap fst].
    split; [|by apply Hq].
    assert (Hu : forall k, k ∈ T.*1 -> unum (evs s2) k = unum (evs s) k /\ unum (evs s2) k < unum (evs s2) p).
    { intros k Hk'. pose proof (transit_waits _ _ _ _ _ Hfl Hk') as Hke.
      rewrite !(data_num (evs s1) (evs s2)) by (apply D8; congruence || (intros ->; done)).
      split; [apply data_num, C8; by intros ->|auto]. }
    rewrite (sm_dynamic _ _ Hsm) in Hdyn. destruct (Hk Hdyn) as [Hso _].
    apply StronglySorted_app_2; [..|by eapply in_order_sent_ext; [done|intros k Hk'; apply Hu]|by repeat constructor].
    intros k j Hk' ->%list_elem_of_singleton. by apply Hu.
  - intros k Hk'. destruct (decide (k = intr_ l)) as [->|]; [unfold handled in D5; by destruct (evs s2 !! intr_ l)|].
    apply (kept_some (evs s1)); [by apply D8|].
    destruct (decide (k = p)) as [->|]; [unfold handled in C5; by destruct (evs s1 !! p)|].
    apply (kept_some (evs s)); [by apply C8|done].
Qed.

(** ** The queue's packets *)

Lemma free_relinked m m' l s es ks p :
  relinked ks m m' -> free_packet m l s es p -> free_packet m' l s es p.
Proof.
  intros Hr (Hp & Hi & He & v & Hv & Hs). split_and!; try done.
  destruct (relinked_bits _ _ _ _ _ Hr Hv) as (y & Hy). by exists (set_pnext y v).
Qed.

Lemma free_handed m l l' x s es p : handed l l' x -> free_packet m l s es p -> free_packet m l' s es p.
Proof.
  intros [_ Hsm Hbw _] (Hp & Hi & He & v & Hv & Hs). unfold free_packet, sendable, txtime in *.
  rewrite (sm_intr _ _ Hsm), Hbw. split_and!; try done. by exists v.
Qed.

Lemma kept_mem l m m' s T : kept l m s T -> agree_on T.*1 m m' -> kept l m' s T.
Proof.
  intros Hk Ha Hd. destruct (Hk Hd) as (Hs & q & Hq & Hr). split; [done|]. exists q. split; [done|].
  by eapply pq_rep_agree.
Qed.

Lemma queue_acts_dropped fuel ds acts (x : link_sys S Q) :
  queue_acts qh fuel (map Dropped ds ++ acts) x =
  let! '(x, o) := queue_acts qh fuel acts x in Ok (x, map Refused ds ++ o).
Proof.
  induction ds as [|d ds IH]; simpl; [by destruct (queue_acts _ _ _ _) as [[]| |]|].
  rewrite IH. clear IH. by destruct (queue_acts _ _ _ _) as [[]| |].
Qed.

(** Dropping packets does nothing to the link. *)
Record quiet (o : list link_obs) : Prop := {
  qu_accepted : accepted o = [];
  qu_started : started o = [];
  qu_reached : reached o = [];
  qu_expected : forall w, expected w o = [] /\ tuned w o = w;
  qu_spaced : forall u, spaced u o /\ last_end u o = u
}.

Lemma quiet_refused ds : quiet (map Refused ds) /\ refused (map Refused ds) = ds.
Proof.
  induction ds as [|d ds [[H1' H2' H3' H4' H5'] H6']]; [by repeat split|].
  split; [constructor; simpl; try done; apply H4'|]. simpl. by f_equal.
Qed.

(** An unblocked queue [q] whose link is free hands over the packet [o], if
    there is one. *)
Record handover (l : LinkDelay) T (es : list positive) (u : f64) (ds : list positive) (o : option positive)
    (x' : link_sys S Q) T' (es' : list positive) (os : list link_obs) : Prop := {
  ho_same : same_link l (sl x');
  ho_tuned : tuning_of (sl x') = tuned (tuning_of l) os;
  ho_accepted : accepted os = [];
  ho_started : started os = option_list o;
  ho_refused : refused os = ds;
  ho_reached : reached os = [];
  ho_expected : T' = T ++ expected (tuning_of l) os;
  ho_spaced : spaced u os;
  ho_length : length es' = (length es + 2 * length (option_list o))%nat
}.

Lemma hand_nothing fuel q l s T es ds u :
  steady l -> flight l s T es -> kept l (mem (st q)) s T -> intr_ l ∉ es ->
  holds (st q) [] -> unblock_on_resume_ q = 1 -> util_ok (util q) -> blocked_ q = 0 ->
  fle u (clock_ s) = true ->
  exists os, queue_acts qh fuel (map Dropped ds ++ []) (mkSys q l s) = Ok (mkSys q l s, os) /\
    link_inv (mkSys q l s) [] T es (last_end u os) /\ handover l T es u ds None (mkSys q l s) T es os.
Proof.
  intros Hst Hfl Hk Hin Hh Hub Hu Hbl Hle. destruct (quiet_refused ds) as [[R1 R2 R3 R4 R5] R6].
  rewrite queue_acts_dropped. cbn [queue_acts rbind]. exists (map Refused ds). rewrite app_nil_r.
  split; [done|]. rewrite (proj2 (R5 u)). split.
  - constructor; try done; [by right|by intros ? ?%elem_of_nil].
  - constructor; cbn [sl option_list length]; try done;
      try rewrite (proj2 (R4 _)); try rewrite (proj1 (R4 _)), app_nil_r; (done || apply R5 || lia).
Qed.

Lemma hand_one fuel n q l s T es c k ds u :
  steady l -> flight l s T es -> kept l (mem (st q)) s T -> budget fuel s es (2 + n) -> intr_ l ∉ es ->
  holds (st q) c -> unblock_on_resume_ q = 1 -> util_ok (util q) -> k ∉ c ->
  (forall j, j ∈ k :: c -> free_packet (mem (st q)) l s es j) -> blocked_ q = 1 ->
  fle u (clock_ s) = true ->
  exists x' T' es' os,
    queue_acts qh fuel (map Dropped ds ++ [Sent k]) (mkSys q l s) = Ok (x', os) /\
    link_inv x' c T' es' (last_end u os) /\ budget fuel (ss x') es' n /\
    handover l T es u ds (Some k) x' T' es' os.
Proof.
  intros Hst Hfl Hk Hb Hin Hh Hub Hu Hkc Hfree Hbl Hle.
  destruct (quiet_refused ds) as [[R1 R2 R3 R4 R5] R6].
  rewrite queue_acts_dropped. cbn [queue_acts rbind].
  destruct (Hfree k ltac:(by left)) as (Hke & Hki & Hks & v & Hv & Hs).
  cbn [sq sl ss]. rewrite (load_Some _ _ _ Hv). cbn [rbind].
  destruct (flight_send fuel n k v l (mem (st q)) s T es)
    as (l' & m' & s' & es' & -> & Hfl' & Hk' & Hhd & Hrel & Hb' & Hes & Hih & Hit & Hkeep); try done.
  cbn [rbind]. pose proof (hd_same _ _ _ Hhd) as Hsm.
  assert (Hout : forall j, j ∈ c -> j ∉ T.*1 ++ [k]).
  { intros j Hj [Hj'|Hj']%elem_of_app; [|by apply list_elem_of_singleton in Hj' as ->].
    destruct (Hfree j ltac:(by right)) as (Hj1 & _). apply Hj1. by eapply transit_waits. }
  eexists _, _, es', _. split; [done|]. split; [|split; [done|]].
  - rewrite last_end_app, (proj2 (R5 u)). cbn [last_end].
    constructor; cbn [sq sl ss set_mem st mem unblock_on_resume_ util blocked_];
      [apply Hhd|done|done| |done|done| |].
    + apply holds_env; [done|]. by eapply relinked_agree.
    + left. rewrite (sm_intr _ _ Hsm). split_and!; [done| |done|done]. rewrite Hes. by left.
    + intros j Hj. eapply free_handed, free_relinked; [done..|].
      destruct (Hfree j ltac:(by right)) as (Hj1 & Hj2 & Hj3 & Hj4).
      split_and!; [|done|auto|done]. rewrite Hes, !not_elem_of_cons. split_and!; [done| |done].
      by intros ->.
  - constructor; cbn [sl];
      rewrite ?accepted_app, ?started_app, ?refused_app, ?reached_app, ?tuned_app, ?expected_app,
        ?(proj2 (R4 _)), ?(proj1 (R4 _)), ?R1, ?R2, ?R3, ?R6; try done.
    + apply Hhd.
    + by rewrite app_nil_r.
    + apply spaced_app; [apply R5|]. by rewrite (proj2 (R5 u)).
    + rewrite Hes. cbn. lia.
Qed.

(** Whatever the queue hands over. *)
Lemma hand_over fuel n q l s T es c o ds u :
  steady l -> flight l s T es -> kept l (mem (st q)) s T -> budget fuel s es (2 + n) -> intr_ l ∉ es ->
  holds (st q) c -> unblock_on_resume_ q = 1 -> util_ok (util q) ->
  NoDup (c ++ option_list o) ->
  (forall k, k ∈ c ++ option_list o -> free_packet (mem (st q)) l s es k) ->
  match o with Some _ => blocked_ q = 1 | None => blocked_ q = 0 /\ c = [] end ->
  fle u (clock_ s) = true ->
  exists x' T' es' os,
    queue_acts qh fuel (map Dropped ds ++ map Sent (option_list o)) (mkSys q l s) = Ok (x', os) /\
    link_inv x' c T' es' (last_end u os) /\ budget fuel (ss x') es' n /\
    handover l T es u ds o x' T' es' os.
Proof.
  intros Hst Hfl Hk Hb Hin Hh Hub Hu Hnd Hfree Hbl Hle. destruct o as [k|].
  - change (option_list (Some k)) with [k] in *. rewrite Permutation_app_comm in Hnd. cbn in Hnd.
    apply NoDup_cons in Hnd as [Hkc _]. apply hand_one; try done.
    intros j [->|Hj]%elem_of_cons; apply Hfree, elem_of_app; [by right; left|by left].
  - destruct Hbl as [Hbl ->].
    destruct (hand_nothing fuel q l s T es ds u) as (os & E & Hinv & Hho); try done.
    exists (mkSys q l s), T, es, os. split_and!; try done. eapply budget_mono; [|done]. lia.
Qed.

(** ** The two ways in *)

(** What a packet that comes to the queue must be. *)
Record may_enter (x : link_sys S Q) (p : positive) : Prop := {
  me_packet : exists v, mem (st (sq x)) !! p = Some v /\ accepts (st (sq x)) v /\ sendable (sl x) v;
  me_fresh : forall c, holds (st (sq x)) c -> p ∉ c;
  me_event : exists ev, evs (ss x) !! p = Some ev /\ uid_ ev <= 0;
  me_other : p <> intr_ (sl x)
}.

Lemma enter_free x c T es u p :
  link_inv x c T es u -> may_enter x p ->
  p ∉ c /\ forall k, k ∈ p :: c -> free_packet (mem (st (sq x))) (sl x) (ss x) es k.
Proof.
  intros [Hst Hfl _ Hh Hub Hu Hbl Hfr] [(v & Hv & _ & Hs) Hp (ev & Hev & Hun) Hne].
  split; [auto|]. intros k [->|Hk]%elem_of_cons; [|auto]. split_and!; [|done|done|eauto].
  by apply (w_idle _ _ _ _ _ _ (proj2 (fl_sched _ _ _ _ Hfl)) Hev).
Qed.

(** The queue's packets are not on their way. *)
Lemma kept_relinked l m m' s T es ks :
  flight l s T es -> kept l m s T -> relinked ks m m' -> (forall k, k ∈ ks -> k ∉ es) -> kept l m' s T.
Proof.
  intros Hfl Hk Hr Hks. eapply kept_mem; [done|]. eapply relinked_agree; [done|].
  intros k Hk' Hin. apply (Hks k Hin). by eapply transit_waits.
Qed.

Lemma accounts_over l c c' T es u o ds x' T' es' os a :
  handover l T es u ds o x' T' es' os -> a ++ c ≡ₚ c' ++ option_list o ++ ds ->
  accounts (tuning_of l) c T u (map Accepted a ++ os) c' T' (tuning_of (sl x')).
Proof.
  intros [A1 A2 A3 A4 A5 A6 A7 A8 A9] Hperm.
  assert (Ha : accepted (map Accepted a) = a /\ started (map Accepted a) = [] /\
    refused (map Accepted a) = [] /\ reached (map Accepted a) = [] /\
    forall w u, expected w (map Accepted a) = [] /\ tuned w (map Accepted a) = w /\
      last_end u (map Accepted a) = u /\ spaced u (map Accepted a)).
  { clear. induction a as [|p a (B1 & B2 & B3 & B4 & B5)]; [done|]. cbn. split_and!; try done. by f_equal. }
  destruct Ha as (B1 & B2 & B3 & B4 & B5). destruct (B5 (tuning_of l) u) as (B6 & B7 & B8 & B9).
  constructor.
  - by rewrite accepted_app, started_app, refused_app, B1, B2, B3, A3, A4, A5, app_nil_r.
  - by rewrite expected_app, reached_app, B4, B6, B7, A6, A7, app_nil_r.
  - apply spaced_app; [done|]. by rewrite B8.
  - by rewrite tuned_app, B7.
Qed.

Lemma sys_recv_ok fuel n p x c T es u :
  link_inv x c T es u -> budget fuel (ss x) es (2 + n) -> may_enter x p ->
  exists x' o c' T' es', sys_recv exp qh fuel p x = Ok (x', o) /\
    link_inv x' c' T' es' (last_end u o) /\ budget fuel (ss x') es' n /\ same_link (sl x) (sl x') /\
    accounts (tuning_of (sl x)) c T u o c' T' (tuning_of (sl x')) /\
    (length es' + 2 * length c' <= length es + 2 * length c + 2)%nat.
Proof.
  intros Hinv Hb Hp. destruct (enter_free _ _ _ _ _ _ Hinv Hp) as [Hpc Hfree].
  destruct Hinv as [Hst Hfl Hk Hh Hub Hu Hbl _].
  destruct (me_packet _ _ Hp) as (v & Hv & Hacc & _).
  pose proof (holds_NoDup _ _ Hh) as Hnd.
  destruct (Queue_recv_spec exp (clock_ (ss x)) p v (sq x) c Hh Hv Hacc Hpc) as
    (q' & c' & o & ds & E & Hh' & Hperm & Hr & Hub' & Hu' & Ho); [|done|].
  { intros Hb0. destruct Hbl as [[Hb1 _]|(_ & Hc & _)]; [congruence|done]. }
  assert (Hfree' : forall k, k ∈ c' ++ option_list o ++ ds ->
    free_packet (mem (st q')) (sl x) (ss x) es k).
  { intros k Hk'. rewrite <- Hperm in Hk'. eapply free_relinked; [done|auto]. }
  assert (Hnd' : NoDup (c' ++ option_list o ++ ds)) by (rewrite <- Hperm; by constructor).
  assert (Hkm : kept (sl x) (mem (st q')) (ss x) T)
    by (eapply kept_relinked; [done..|]; intros k Hk'; by apply Hfree).
  pose proof (Permutation_length Hperm) as Hlen. rewrite !length_app in Hlen. cbn [length] in Hlen.
  unfold sys_recv. rewrite E. cbn [rbind].
  destruct Hbl as [(Hb1 & Hin & Hih & Hit)|(Hb0 & Hc & Hin & Hle)].
  - (* the link is busy *)
    destruct o as [k|]; [destruct Ho; congruence|]. destruct Ho as [Hb1' _].
    change (option_list None) with (@nil positive) in *. cbn [map app] in *.
    destruct (quiet_refused ds) as [[R1 R2 R3 R4 R5] R6].
    rewrite queue_acts_dropped. cbn [queue_acts rbind]. rewrite app_nil_r.
    eexists _, _, c', T, es. split; [done|]. cbn [last_end]. rewrite (proj2 (R5 u)). split_and!;
      [|by apply (budget_mono fuel (ss x) es (2 + n)); [lia|]|done| |cbn in Hlen; lia].
    + constructor; cbn [sq sl ss]; try done; [congruence|left; split_and!; congruence|].
      intros k Hk'. apply Hfree', elem_of_app. by left.
    + constructor; cbn; fold (accepted (map Refused ds)) (started (map Refused ds))
        (refused (map Refused ds)) (reached (map Refused ds));
        rewrite ?R1, ?R2, ?R3, ?R6, ?(proj1 (R4 _)), ?app_nil_r; try done; [apply R5|].
      symmetry. apply (R4 (tuning_of (sl x))).
  - destruct (hand_over fuel n q' (sl x) (ss x) T es c' o ds u) as
      (x' & T' & es' & os & -> & Hinv' & Hb' & Hho); try done.
    + congruence.
    + by rewrite app_assoc in Hnd'; apply NoDup_app in Hnd' as [? _].
    + intros k Hk'. apply Hfree'. rewrite app_assoc. apply elem_of_app. by left.
    + destruct o; [by destruct Ho|]. destruct Ho as [Ho1 Ho2]. split; [congruence|auto].
    + cbn [rbind]. eexists x', _, c', T', es'. split; [done|]. cbn [last_end].
      split_and!; try done; [apply Hho|by apply (accounts_over _ _ _ _ _ _ _ _ _ _ _ _ [p] Hho)|].
      rewrite (ho_length _ _ _ _ _ _ _ _ _ _ Hho). lia.
Qed.

(** An event that is not the queue's leaves the queue as it is. *)
Lemma pass_inv x l c T T' p es u s' :
  link_inv x c T (p :: es) u -> handed (sl x) l (latest_time_ (sl x)) -> flight l s' T' es ->
  kept l (mem (st (sq x))) s' T' ->
  fle (clock_ (ss x)) (clock_ s') = true -> p <> intr_ (sl x) \/ ~ handled (evs (ss x)) qh p ->
  (forall k, is_Some (evs (ss x) !! k) -> is_Some (evs s' !! k)) ->
  (forall k, k <> p -> ev_data <$> evs s' !! k = ev_data <$> evs (ss x) !! k) ->
  link_inv (mkSys (sq x) l s') c T' es u.
Proof.
  intros [Hst Hfl Hk Hh Hub Hu Hbl Hfr] Hhd Hfl' Hk' Hle Hp Hkeep Hd.
  pose proof (hd_same _ _ _ Hhd) as Hsm. constructor; cbn [sq sl ss]; try done; [apply Hhd| |].
  - rewrite (sm_intr _ _ Hsm). destruct Hbl as [(Hb & Hin & Hih & Hit)|(Hb & Hc & Hin & Hlu)].
    + left. assert (Hne : intr_ (sl x) <> p) by (intros <-; by destruct Hp).
      apply elem_of_cons in Hin as [?|Hin]; [done|]. split_and!; [done|done| |].
      * apply (handled_data (evs (ss x))); auto.
      * rewrite <- Hit. apply data_tm, Hd, Hne.
    + right. split_and!; [done|done|set_solver|by eapply fle_trans].
  - intros k Hkc. eapply free_handed; [done|]. destruct (Hfr k Hkc) as (Hk1 & Hk2 & Hk3 & Hk4).
    split_and!; auto. set_solver.
Qed.

Lemma handed_refl l : steady l -> handed l l (latest_time_ l).
Proof. by intros Hst. Qed.

(** Resuming the queue when its transmission has ended. *)
Lemma sys_resume_ok fuel n x c T es u s' :
  link_inv x c T (intr_ (sl x) :: es) u -> flight (sl x) s' T es ->
  kept (sl x) (mem (st (sq x))) s' T -> intr_ (sl x) ∉ es ->
  budget fuel s' es (2 + n) -> clock_ s' = tm (evs (ss x)) (intr_ (sl x)) ->
  (forall k, is_Some (evs (ss x) !! k) -> is_Some (evs s' !! k)) ->
  exists x' o c' T' es', sys_resume exp qh fuel (mkSys (sq x) (sl x) s') = Ok (x', o) /\
    link_inv x' c' T' es' (last_end u o) /\ budget fuel (ss x') es' n /\ same_link (sl x) (sl x') /\
    accounts (tuning_of (sl x)) c T u o c' T' (tuning_of (sl x')) /\ accepted o = [] /\ refused o = [] /\
    (length es' + 2 * length c' = length es + 2 * length c)%nat.
Proof.
  intros [Hst Hfl Hk Hh Hub Hu Hbl Hfr] Hfl' Hk' Hin Hb Hc Hkeep.
  destruct Hbl as [(Hb1 & _ & _ & Hit)|(_ & _ & Hn & _)]; [|by destruct Hn; left].
  pose proof (holds_NoDup _ _ Hh) as Hnd.
  destruct (Queue_resume_spec exp (clock_ s') (sq x) c Hh Hb1 Hub Hu) as
    (q' & c' & o & E & Hh' & Hperm & Hr & Hub' & Hu' & Ho).
  assert (Hout : forall k, k ∈ c -> k ∉ es) by (intros k (Hk1 & _)%Hfr; set_solver).
  destruct (hand_over fuel n q' (sl x) s' T es c' o [] u) as
    (x' & T' & es' & os & E' & Hinv' & Hb' & Hho); try done.
  - by eapply kept_relinked.
  - by rewrite <- Hperm.
  - intros k Hkc. rewrite <- Hperm in Hkc. eapply free_relinked; [done|].
    destruct (Hfr k Hkc) as (Hk1 & Hk2 & Hk3 & Hk4). split_and!; auto.
  - rewrite Hc, Hit, fle_refl; [done|]. rewrite <- Hit, <- Hc. apply nonneg_not_nan.
    apply (w_clock _ _ _ _ (proj2 (fl_sched _ _ _ _ Hfl'))).
  - unfold sys_resume. cbn [sq sl ss]. rewrite E. cbn [rbind]. cbn [map app] in E'. rewrite E'.
    exists x', os, c', T', es'. split_and!; try done; try apply Hho.
    + apply (accounts_over _ _ _ _ _ _ _ _ _ _ _ _ [] Hho). by rewrite app_nil_r.
    + rewrite (ho_length _ _ _ _ _ _ _ _ _ _ Hho), Hperm, length_app. lia.
Qed.

(** *** The arrival of a dynamic link *)

(** The packet that a dynamic link sent first is due after another one. *)
Definition overtaken (x : link_sys S Q) : Prop :=
  itrue (dynamic_ (sl x)) = true /\ exists q a c e, itq_ (sl x) = Some q /\
    pq_rep (mem (st (sq x))) q (a :: c) /\ e ∈ c /\
    flt (tm (evs (ss x)) e) (tm (evs (ss x)) a) = true.

(** Events of equal times are dispatched in the order they were scheduled. *)
Lemma first_due p es s a :
  sched_ok s (p :: es) -> a ∈ es -> unum (evs s) a < unum (evs s) p ->
  flt (tm (evs s) p) (tm (evs s) a) = true.
Proof.
  intros [_ Hw] Ha Hu. pose proof (w_order _ _ _ _ Hw) as [_ Ho]%StronglySorted_inv.
  pose proof (w_turn _ _ _ _ Hw) as [_ Ht]%StronglySorted_inv.
  rewrite Forall_forall in Ho, Ht. pose proof (Ho a Ha) as Hle. unfold not_later in Hle.
  destruct (flt (tm (evs s) p) (tm (evs s) a)) eqn:Hlt; [done|]. exfalso.
  assert (feq (tm (evs s) p) (tm (evs s) a) = true) as He.
  { apply fle_antisym; [done|]. apply fle_rank in Hle as (N1 & N2 & _). by apply flt_false_le. }
  specialize (Ht a Ha He). lia.
Qed.

(** A time that waits is a number. *)
Lemma waits_number s es p : sched_ok s es -> p ∈ es -> feq (tm (evs s) p) (tm (evs s) p) = true.
Proof.
  intros [_ Hw] Hp. pose proof (w_numbers _ _ _ _ Hw) as HF. rewrite Forall_forall in HF.
  destruct (HF p Hp) as [_ Hn]. apply fle_antisym; by apply fle_refl.
Qed.

Lemma link_handle_ok p es x c T u s' t :
  link_inv x c T (p :: es) u -> itrue (dynamic_ (sl x)) = true -> (p, t) ∈ T -> p ∉ es ->
  tm (evs s') p = tm (evs (ss x)) p ->
  (forall k, is_Some (evs (ss x) !! k) -> is_Some (evs s' !! k)) ->
  (forall k, k <> p -> ev_data <$> evs s' !! k = ev_data <$> evs (ss x) !! k) ->
  (exists q, LinkDelay_handle p (sl x) (mem (st (sq x))) s' = Ok (p, set_itq q (sl x)) /\
     in_order_sent s' (without p T).*1 /\ pq_rep (mem (st (sq x))) q (without p T).*1) \/
  (LinkDelay_handle p (sl x) (mem (st (sq x))) s' = Fault Assertion /\ overtaken x).
Proof.
  intros Hinv Hdyn HpT Hpes Htp Hkeep Hd. pose proof (li_flight _ _ _ _ _ Hinv) as Hfl.
  destruct (li_kept _ _ _ _ _ Hinv Hdyn) as (Hso & q & Hq & Hr). pose proof (fl_sched _ _ _ _ Hfl) as Hok.
  destruct T as [|[a ta] T]; [by apply elem_of_nil in HpT|]. rewrite fmap_cons in Hr, Hso. cbn [fst] in Hr, Hso.
  destruct (pq_deque_cons _ _ _ _ Hr) as (q' & Edq & Hr' & _).
  assert (Hsome : forall k, k ∈ p :: es -> exists v, evs s' !! k = Some v /\ time_ v = tm (evs s') k).
  { intros k Hk. destruct (Hkeep k) as [v Hv].
    { destruct (w_pending _ _ _ _ (proj2 Hok) k Hk) as (v & Hv & _). by exists v. }
    exists v. split; [done|]. unfold tm. by rewrite Hv. }
  assert (Hae : a ∈ p :: es) by (eapply transit_waits; [exact Hfl|by left]).
  destruct (Hsome a Hae) as (va & Hva & Eva). destruct (Hsome p ltac:(by left)) as (vp & Hvp & Evp).
  unfold LinkDelay_handle, the_itq. rewrite Hq. cbn [rbind]. rewrite Edq. cbn [rbind].
  rewrite (load_Some _ _ _ Hva), (load_Some _ _ _ Hvp). cbn [rbind]. rewrite Eva, Evp, Htp.
  destruct (decide (a = p)) as [->|Hne].
  - rewrite Htp, (waits_number _ _ _ Hok) by by left. cbn [rbind assert_that]. left. exists q'.
    pose proof (fl_once _ _ _ _ Hfl) as [Hn _]%NoDup_cons. cbn [fst] in Hn.
    rewrite without_cons, decide_True, without_notin by done. split_and!; [done| |done].
    apply StronglySorted_inv in Hso as [Hso _]. eapply in_order_sent_ext; [done|].
    intros k Hk. apply data_num, Hd. by intros ->.
  - right. rewrite (data_tm (evs (ss x)) (evs s')) by by apply Hd.
    apply elem_of_cons in Hae as [?|Hae]; [done|].
    assert (HpT' : p ∈ T.*1).
    { apply elem_of_cons in HpT as [[= -> _]|HpT]; [done|]. apply list_elem_of_fmap. by exists (p, t). }
    apply StronglySorted_inv in Hso as [_ Hso]. rewrite Forall_forall in Hso.
    pose proof (first_due p es _ a Hok Hae (Hso p HpT')) as Hlt.
    split; [|by split; [|exists q, a, T.*1, p]].
    apply flt_not_eq in Hlt. destruct (feq (tm (evs (ss x)) a) _) eqn:He; [|done].
    apply feq_sym in He. congruence.
Qed.

(** A step of [sys_next]. *)
Definition next_done (fuel n : nat) (es : list positive) x c T u : Prop :=
  exists x' o c' T' es', sys_next exp qh fuel x = Ok (Some (x', o)) /\
    link_inv x' c' T' es' (last_end u o) /\ budget fuel (ss x') es' n /\ same_link (sl x) (sl x') /\
    accounts (tuning_of (sl x)) c T u o c' T' (tuning_of (sl x')) /\ accepted o = [] /\ refused o = [] /\
    (length es' + 2 * length c' < length es + 2 * length c)%nat.

Lemma accounts_reached w c T u p t :
  NoDup T.*1 -> (p, t) ∈ T -> accounts w c T u [Reached p t] c (without p T) w.
Proof.
  intros Hnd Hin. constructor; cbn; [by rewrite app_nil_r| |done|done].
  rewrite app_nil_r. etrans; [by apply (without_in p t T)|]. apply Permutation_cons_append.
Qed.

Lemma accounts_nothing w c T u o :
  quiet o -> refused o = [] -> accounts w c T u o c T w.
Proof.
  intros [R1 R2 R3 R4 R5] R6. constructor.
  - by rewrite R1, R2, R6, app_nil_r.
  - by rewrite R3, (proj1 (R4 w)).
  - apply R5.
  - by rewrite (proj2 (R4 w)).
Qed.

(** The link's own handler. *)
Lemma next_dynamic fuel n p es x c T u s' :
  link_inv x c T (p :: es) u -> flight (sl x) s' (without p T) es -> budget fuel s' es n ->
  itrue (dynamic_ (sl x)) = true -> (p, clock_ s') ∈ T -> p ∉ es ->
  fle (clock_ (ss x)) (clock_ s') = true -> ~ handled (evs (ss x)) qh p ->
  tm (evs s') p = tm (evs (ss x)) p ->
  (forall k, is_Some (evs (ss x) !! k) -> is_Some (evs s' !! k)) ->
  (forall k, k <> p -> ev_data <$> evs s' !! k = ev_data <$> evs (ss x) !! k) ->
  (exists l', LinkDelay_handle p (sl x) (mem (st (sq x))) s' = Ok (p, l') /\ same_link (sl x) l' /\
     tuning_of l' = tuning_of (sl x) /\ link_inv (mkSys (sq x) l' s') c (without p T) es u) \/
  (LinkDelay_handle p (sl x) (mem (st (sq x))) s' = Fault Assertion /\ overtaken x).
Proof.
  intros Hinv Hfl' Hb Hdyn HpT Hpes Hle Hqh Htp Hkeep Hd.
  destruct (link_handle_ok p es x c T u s' _ Hinv Hdyn HpT Hpes Htp Hkeep Hd)
    as [(q & E & Hso & Hr)|HF]; [left|by right].
  exists (set_itq q (sl x)). split; [done|]. split; [done|]. split; [done|].
  assert (Hhd : handed (sl x) (set_itq q (sl x)) (latest_time_ (sl x))).
  { constructor; try done. by destruct (li_steady _ _ _ _ _ Hinv). }
  eapply pass_inv; try done; [|intros _; split; [done|by exists q]|by right].
  destruct Hfl' as [F1 F2 F3 F4 F5 F6]. by constructor.
Qed.

Lemma sys_next_ok fuel n p es x c T u :
  link_inv x c T (p :: es) u -> budget fuel (ss x) (p :: es) (2 + n) ->
  next_done fuel n (p :: es) x c T u \/ (sys_next exp qh fuel x = Fault Assertion /\ overtaken x).
Proof.
  intros Hinv Hb. pose proof (li_steady _ _ _ _ _ Hinv) as Hst.
  destruct (steady_handlers _ Hst) as (A1 & A2 & A3).
  pose proof (fl_once _ _ _ _ (li_flight _ _ _ _ _ Hinv)) as Hnd.
  destruct (flight_next fuel (2 + n) p es _ _ T Hst (li_flight _ _ _ _ _ Hinv) Hb) as
    (h & s' & tr & E & Hfl' & Hb' & Hc & Hle & Hp & Hkeep & Hd & Hh & Ht & Hq & Htp & HT).
  assert (Hb2 : budget fuel s' es n) by (by apply (budget_mono fuel s' es (2 + n)); [lia|]).
  assert (Hkw : h <> arr (sl x) -> kept (sl x) (mem (st (sq x))) s' (without p T)).
  { intros Hne Hdyn. rewrite decide_False in HT by done. rewrite without_notin by done.
    destruct (li_kept _ _ _ _ _ Hinv Hdyn) as [Hso ?]. split; [|done].
    eapply in_order_sent_ext; [done|]. intros k Hk. apply data_num, Hd. by intros ->. }
  unfold next_done, sys_next. rewrite E. cbn [rbind sq sl ss].
  destruct (decide (h = qh)) as [->|Hne].
  { (* the transmission has ended *)
    left. rewrite bool_decide_eq_true_2 by done. specialize (Hq eq_refl) as ->.
    rewrite decide_False in HT by done. specialize (Hkw ltac:(done)). rewrite without_notin in * by done.
    destruct (sys_resume_ok fuel n x c T es u s') as
      (x' & o & c' & T' & es' & -> & Hinv' & Hb3 & Hsm & Hac & Ha & Href & Hlen); try done.
    exists x', o, c', T', es'. split_and!; try done. cbn [length]. lia. }
  rewrite bool_decide_eq_false_2 by done.
  assert (Hqh : ~ handled (evs (ss x)) qh p) by (intros Hh'; apply Hne; by eapply handled_fun).
  assert (Hinv' : h <> arr (sl x) \/ itrue (dynamic_ (sl x)) = false ->
    link_inv (mkSys (sq x) (sl x) s') c (without p T) es u).
  { intros Hor. eapply pass_inv; try done; [|by right]. destruct Hor as [?|Hdyn]; [auto|].
    intros Hdyn'. congruence. }
  destruct (decide (h = arr (sl x))) as [->|Hna].
  - unfold arr in *. destruct (itrue (dynamic_ (sl x))) eqn:Hdyn.
    + rewrite bool_decide_eq_true_2 by done.
      destruct (next_dynamic fuel n p es x c T u s') as [(l' & -> & Hsm & Htu & Hi)|[-> HF]]; try done;
        [left|by right].
      cbn [rbind]. exists (mkSys (sq x) l' s'), [Reached p (clock_ s')], c, (without p T), es.
      cbn [sl ss last_end]. rewrite Htu.
      split_and!; try done; [by apply accounts_reached|cbn; lia].
    + left. rewrite bool_decide_eq_false_2 by (destruct (sy_handlers _ Hst) as (?&?&?); congruence).
      rewrite (sy_target _ Hst), bool_decide_eq_true_2 by done.
      eexists _, _, c, (without p T), es. cbn [sl ss last_end].
      split_and!; try done; [apply Hinv'; by right|by apply accounts_reached|cbn; lia].
  - left. assert (h <> link_this (sl x) /\ Some h <> target_ (sl x)) as [N1 N2].
    { rewrite (sy_target _ Hst). unfold arr, spare in *. destruct (itrue (dynamic_ (sl x))); split; congruence. }
    rewrite (bool_decide_eq_false_2 (h = link_this _)), bool_decide_eq_false_2 by congruence.
    eexists _, _, c, (without p T), es. cbn [sl ss last_end].
    split_and!; try done; [apply Hinv'; by left| |cbn; lia].
    rewrite without_notin by done. by apply accounts_nothing.
Qed.

Lemma sys_next_none fuel x c T u :
  link_inv x c T [] u -> budget fuel (ss x) [] 0 -> sys_next exp qh fuel x = Ok None /\ c = [] /\ T = [].
Proof.
  intros [Hst Hfl Hk Hh Hub Hu Hbl Hfr] (Hroom & Hlen & _).
  destruct (no_next fuel (ss x)) as (s' & tr & E);
    [apply Hfl|simpl in Hlen; lia|done|apply Hfl|].
  unfold sys_next. rewrite E. split_and!; [done| |].
  - destruct Hbl as [(_ & Hin & _)|(_ & Hc & _)]; [by apply elem_of_nil in Hin|done].
  - destruct T as [|[p t] T]; [done|]. destruct (fl_transit _ _ _ _ Hfl p t) as [Hin _]; [by left|].
    by apply elem_of_nil in Hin.
Qed.

(** ** Other objects *)

Definition not_ours (x : link_sys S Q) (h : positive) : Prop :=
  h <> qh /\ h <> target /\ h <> link_this (sl x).

(** An event [e] of another object, which is not one of a packet in the queue,
    comes or goes. *)
Lemma link_foreign x c T es u s' es' e :
  link_inv x c T es u -> sched_ok s' es' -> halted_ s' = halted_ (ss x) -> clock_ s' = clock_ (ss x) ->
  e <> intr_ (sl x) -> e ∉ c -> e ∉ T.*1 -> (forall k, k <> e -> k ∈ es' <-> k ∈ es) ->
  (e ∈ es' -> exists h, handled (evs s') h e /\ not_ours x h) ->
  (forall k, k <> e -> ev_data <$> evs s' !! k = ev_data <$> evs (ss x) !! k) ->
  link_inv (mkSys (sq x) (sl x) s') c T es' u.
Proof.
  intros [Hst [Hok Hrun Hi Ht Hnd Hown] Hk Hh Hub Hu Hbl Hfr] Hok' Hr Hc Hei Hec HeT Hes Hhe Hd.
  assert (Hsome : forall k, k <> e -> is_Some (evs (ss x) !! k) -> is_Some (evs s' !! k))
    by (intros k Hne; apply kept_some; auto).
  assert (Hhd : forall k h, k <> e -> handled (evs s') h k <-> handled (evs (ss x)) h k)
    by (intros k h Hne; apply handled_data; auto).
  constructor; cbn [sq sl ss]; try done.
  - constructor; [done|congruence|auto|..]; [|done|].
    + intros p t Hin. destruct (Ht p t Hin) as (He & Hhp & Htm).
      assert (p <> e) by (intros ->; apply HeT, list_elem_of_fmap; by exists (e, t)).
      split_and!; [by apply Hes|by apply Hhd|]. rewrite <- Htm. by apply data_tm, Hd.
    + intros k Hk'. destruct (decide (k = e)) as [->|Hne].
      * destruct (Hhe Hk') as (h & Hh' & N1 & N2 & N3).
        assert (arr (sl x) <> h /\ spare (sl x) <> h) as [].
        { unfold arr, spare. destruct (itrue _); split; congruence. }
        split_and!; intros Hh2; pose proof (handled_fun _ _ _ _ Hh2 Hh'); congruence.
      * rewrite !Hhd by done. apply Hown. by apply Hes.
  - intros Hdyn. destruct (Hk Hdyn) as [Hso ?]. split; [|done].
    eapply in_order_sent_ext; [done|]. intros k Hk'. apply data_num, Hd. by intros ->.
  - rewrite Hc. destruct Hbl as [(Hb & Hin & Hih & Hit)|(Hb & Hcn & Hin & Hlu)].
    + left. split_and!; [done|by apply Hes|by apply Hhd|]. rewrite <- Hit. by apply data_tm, Hd.
    + right. split_and!; [done|done|by rewrite Hes|done].
  - intros p Hp. assert (p <> e) by by intros ->. destruct (Hfr p Hp) as (F1 & F2 & F3 & F4).
    split_and!; [by rewrite Hes|done|auto|done].
Qed.

(** Another object schedules the event [e]. *)
Record may_schedule (x : link_sys S Q) (h e : positive) (t : f64) : Prop := {
  ms_handler : not_ours x h;
  ms_event : e <> intr_ (sl x);
  ms_packet : forall c, holds (st (sq x)) c -> e ∉ c;
  ms_idle : exists ev, evs (ss x) !! e = Some ev /\ uid_ ev <= 0;
  ms_delay : valid t = true /\ nonneg t = true
}.

Lemma schedule_inv fuel n x c T es u h e t s' :
  link_inv x c T es u -> may_schedule x h e t -> budget fuel (ss x) es (1 + n) ->
  schedule fuel (Some h) e t (ss x) = Ok s' ->
  exists es', link_inv (mkSys (sq x) (sl x) s') c T es' u /\ budget fuel s' es' n /\ length es' = Datatypes.S (length es).
Proof.
  intros Hinv [Hh Hei Hpk (ev & Hev & Hun) [Vt Nt]] Hb E. pose proof (li_flight _ _ _ _ _ Hinv) as Hfl.
  assert (He : e ∉ es) by (by eapply w_idle; [apply (fl_sched _ _ _ _ Hfl)|..]).
  destruct (schedule_scheduled fuel n h e t (ss x) es ev) as (s1 & es1 & E1 & Hb1 & [C1 C2 C3 C4 C5 C6 C7 C8]);
    [apply Hfl|done..|].
  rewrite E in E1. injection E1 as <-. exists es1. split; [|split; [done|by rewrite C2]].
  eapply link_foreign; try done; [apply Hpk, Hinv| | |by exists h].
  - intros Hin. apply He. by eapply transit_waits.
  - intros k Hne. rewrite C2, elem_of_cons. naive_solver.
Qed.

(** Another object cancels an event of its own. *)
Record may_cancel (x : link_sys S Q) (e : positive) : Prop := {
  mc_handler : forall h, handled (evs (ss x)) h e -> not_ours x h;
  mc_event : e <> intr_ (sl x) /\ is_Some (evs (ss x) !! e);
  mc_packet : forall c, holds (st (sq x)) c -> e ∉ c
}.

Lemma cancel_inv fuel n x c T es u e s' :
  link_inv x c T es u -> may_cancel x e -> budget fuel (ss x) es n -> cancel fuel e (ss x) = Ok s' ->
  exists es', link_inv (mkSys (sq x) (sl x) s') c T es' u /\ budget fuel s' es' n /\ (length es' <= length es)%nat.
Proof.
  intros Hinv [Hh [Hei [ev Hev]] Hpk] Hb E. pose proof (li_flight _ _ _ _ _ Hinv) as Hfl.
  destruct (cancel_ok fuel e (ss x) es ev n (fl_sched _ _ _ _ Hfl) Hb Hev)
    as (s1 & E1 & Hok & Hb1 & Hc & Hr & Hd & _).
  rewrite E in E1. injection E1 as <-. exists (remove_ev e es).
  split; [|split; [done|apply length_filter]].
  eapply link_foreign; try done; [apply Hpk, Hinv| | |].
  - intros ([p t] & -> & Hin)%list_elem_of_fmap. cbn in *.
    destruct (fl_transit _ _ _ _ Hfl p t Hin) as (_ & Hhp & _). destruct (Hh _ Hhp) as (N1 & N2 & N3).
    unfold arr in *. destruct (itrue _); congruence.
  - intros k Hne. rewrite elem_of_remove_ev. naive_solver.
  - by intros [? ?]%elem_of_remove_ev.
Qed.

(** Tcl changes the bandwidth and the delay. *)
Record may_retune (x : link_sys S Q) (b d : f64) : Prop := {
  mr_delay : valid d = true /\ nonneg d = true;
  mr_queue : forall c p v, holds (st (sq x)) c -> p ∈ c -> mem (st (sq x)) !! p = Some v ->
    sendable (retune b d (sl x)) v
}.

Lemma retune_inv x c T es u b d :
  link_inv x c T es u -> may_retune x b d ->
  link_inv (mkSys (sq x) (retune b d (sl x)) (ss x)) c T es u /\
  accounts (tuning_of (sl x)) c T u [Retuned b d] c T (tuning_of (retune b d (sl x))).
Proof.
  intros [[Y1 Y2 Y3 Y4] [F1 F2 F3 F4 F5 F6] Hk Hh Hub Hu Hbl Hfr] [Hd Hq]. split.
  - constructor; cbn [sq sl ss]; try done.
    intros p Hp. destruct (Hfr p Hp) as (P1 & P2 & P3 & v & Hv & _). split_and!; try done.
    exists v. split; [done|]. by eapply Hq.
  - constructor; cbn; [by rewrite app_nil_r|done|done|done].
Qed.

(** ** Runs *)

(** [n] steps: packets arrive, events are dispatched, other objects schedule
    events and cancel theirs, and Tcl changes the link, in any order. *)
Inductive link_run (fuel : nat) (x : link_sys S Q) : nat -> list link_obs -> link_sys S Q -> Prop :=
  | lr_start : link_run fuel x 0 [] x
  | lr_recv n o x1 p o' x2 :
      link_run fuel x n o x1 -> may_enter x1 p -> sys_recv exp qh fuel p x1 = Ok (x2, o') ->
      link_run fuel x (1 + n) (o ++ o') x2
  | lr_next n o x1 o' x2 :
      link_run fuel x n o x1 -> sys_next exp qh fuel x1 = Ok (Some (x2, o')) ->
      link_run fuel x (1 + n) (o ++ o') x2
  | lr_schedule n o x1 h e t s :
      link_run fuel x n o x1 -> may_schedule x1 h e t -> schedule fuel (Some h) e t (ss x1) = Ok s ->
      link_run fuel x (1 + n) o (mkSys (sq x1) (sl x1) s)
  | lr_cancel n o x1 e s :
      link_run fuel x n o x1 -> may_cancel x1 e -> cancel fuel e (ss x1) = Ok s ->
      link_run fuel x (1 + n) o (mkSys (sq x1) (sl x1) s)
  | lr_retune n o x1 b d :
      link_run fuel x n o x1 -> may_retune x1 b d ->
      link_run fuel x (1 + n) (o ++ [Retuned b d]) (mkSys (sq x1) (retune b d (sl x1)) (ss x1)).

(** No packet has arrived yet; the events [es] of other objects wait. *)
Record link_idle (x : link_sys S Q) (es : list positive) : Prop := {
  id_steady : steady (sl x);
  id_sched : sched_ok (ss x) es;
  id_foreign : forall h e, e ∈ es -> handled (evs (ss x)) h e -> not_ours x h;
  id_running : halted_ (ss x) = false;
  id_intr : is_Some (evs (ss x) !! intr_ (sl x)) /\ intr_ (sl x) ∉ es;
  id_kept : kept (sl x) (mem (st (sq x))) (ss x) [];
  id_holds : holds (st (sq x)) [];
  id_blocked : blocked_ (sq x) = 0;
  id_unblock : unblock_on_resume_ (sq x) = 1;
  id_util : util_ok (util (sq x))
}.

Lemma idle_inv x es : link_idle x es -> link_inv x [] [] es (clock_ (ss x)).
Proof.
  intros [Hst Hok Hfo Hrun [Hi Hin] Hk Hh Hb Hub Hu].
  constructor; try done; [| |by intros p Hp%elem_of_nil].
  - constructor; try done; [by intros ? ? ?%elem_of_nil|constructor|].
    intros e He. unfold arr, spare.
    split_and!; intros Hh'; destruct (Hfo _ _ He Hh') as (N1 & N2 & N3); try done;
      destruct (itrue _); done.
  - right. split_and!; [done|done|done|]. apply fle_refl, nonneg_not_nan.
    apply (w_clock _ _ _ _ (proj2 Hok)).
Qed.

Lemma accounts_app w c T u o c1 T1 w1 o' c2 T2 w2 :
  accounts w c T u o c1 T1 w1 -> accounts w1 c1 T1 (last_end u o) o' c2 T2 w2 ->
  accounts w c T u (o ++ o') c2 T2 w2.
Proof.
  intros [P1 Q1 S1 ->] [P2 Q2 S2 ->]. constructor; [| |by apply spaced_app|by rewrite tuned_app].
  - rewrite accepted_app, started_app, refused_app.
    rewrite (Permutation_app_comm (accepted o)), <- app_assoc, P1, app_assoc, P2.
    solve_Permutation.
  - rewrite expected_app, reached_app, app_assoc, Q1.
    rewrite (Permutation_app_comm T1), <- app_assoc, Q2. solve_Permutation.
Qed.

(** The state a run has come to, from [x0]. *)
Record come_to (x0 x : link_sys S Q) (c : list positive) T (es : list positive) (u : f64)
    (o : list link_obs) (c' : list positive) T' (es' : list positive) (n : nat) : Prop := {
  ct_inv : link_inv x c' T' es' (last_end u o);
  ct_same : same_link (sl x0) (sl x);
  ct_accounts : accounts (tuning_of (sl x0)) c T u o c' T' (tuning_of (sl x));
  ct_length : (length es' + 2 * length c' <= length es + 2 * length c + 2 * n)%nat
}.

Lemma come_more x0 x1 x2 c T es u o c1 T1 es1 n o' c2 T2 es2 :
  come_to x0 x1 c T es u o c1 T1 es1 n -> link_inv x2 c2 T2 es2 (last_end (last_end u o) o') ->
  same_link (sl x1) (sl x2) ->
  accounts (tuning_of (sl x1)) c1 T1 (last_end u o) o' c2 T2 (tuning_of (sl x2)) ->
  (length es2 + 2 * length c2 <= length es1 + 2 * length c1 + 2)%nat ->
  come_to x0 x2 c T es u (o ++ o') c2 T2 es2 (1 + n).
Proof.
  intros [C1 C2 C3 C4] Hi Hs Ha Hl. constructor; [by rewrite last_end_app|by eapply same_link_trans| |lia].
  by eapply accounts_app.
Qed.

Lemma come_foreign x0 x1 x2 c T es u o c1 T1 es1 n es2 :
  come_to x0 x1 c T es u o c1 T1 es1 n -> link_inv x2 c1 T1 es2 (last_end u o) -> sl x2 = sl x1 ->
  (length es2 <= length es1 + 1)%nat -> come_to x0 x2 c T es u o c1 T1 es2 (1 + n).
Proof.
  intros Hc Hi Hs Hl. rewrite <- (app_nil_r o). eapply come_more; [done|done|by rewrite Hs| |lia].
  rewrite Hs. by apply accounts_nothing.
Qed.

Lemma link_run_inv fuel n k x0 o x c T es u :
  link_run fuel x0 n o x -> link_inv x0 c T es u -> budget fuel (ss x0) es (2 * n + k) ->
  exists c' T' es', come_to x0 x c T es u o c' T' es' n /\ budget fuel (ss x) es' k.
Proof.
  intros Hrun Hinv. revert k. induction Hrun as
    [|n o x1 p o' x2 Hrun IH Hp E|n o x1 o' x2 Hrun IH E|n o x1 h e t s Hrun IH Hm E
     |n o x1 e s Hrun IH Hm E|n o x1 b d Hrun IH Hm]; intros k Hb.
  1: { exists c, T, es. split; [|done]. constructor; [done|done|by apply accounts_nothing|lia]. }
  all: destruct (IH (2 + k)%nat) as (c1 & T1 & es1 & Hc & Hb1);
    [eapply budget_mono; [|done]; lia|]; pose proof (ct_inv _ _ _ _ _ _ _ _ _ _ _ Hc) as Hinv1.
  - destruct (sys_recv_ok fuel k p x1 c1 T1 es1 _ Hinv1 Hb1 Hp)
      as (x3 & o3 & c2 & T2 & es2 & E' & Hinv2 & Hb2 & Hsl2 & Hac2 & Hlen2).
    rewrite E in E'. injection E' as <- <-. exists c2, T2, es2. split; [|done]. by eapply come_more.
  - destruct es1 as [|e es1].
    { destruct (sys_next_none fuel x1 c1 T1 _ Hinv1) as [E' _]; [|congruence].
      eapply budget_mono; [|done]. lia. }
    destruct (sys_next_ok fuel k e es1 x1 c1 T1 _ Hinv1 Hb1)
      as [(x3 & o3 & c2 & T2 & es2 & E' & Hinv2 & Hb2 & Hsl2 & Hac2 & _ & _ & Hlen2)|[E' _]]; [|congruence].
    rewrite E in E'. injection E' as <- <-. exists c2, T2, es2. split; [|done].
    eapply come_more; [done..|]. lia.
  - destruct (schedule_inv fuel k x1 c1 T1 es1 _ h e t s Hinv1 Hm) as (es2 & Hi & Hb2 & Hl);
      [by eapply budget_mono; [|exact Hb1]; lia|done|].
    exists c1, T1, es2. split; [|done]. eapply come_foreign; [done..|]. lia.
  - destruct (cancel_inv fuel (2 + k) x1 c1 T1 es1 _ e s Hinv1 Hm Hb1 E) as (es2 & Hi & Hb2 & Hl).
    exists c1, T1, es2. split; [|by eapply budget_mono; [|exact Hb2]; lia]. eapply come_foreign; [done..|]. lia.
  - destruct (retune_inv x1 c1 T1 es1 _ b d Hinv1 Hm) as [Hi Ha]. exists c1, T1, es1.
    split; [|by eapply budget_mono; [|exact Hb1]; lia]. eapply come_more; [done|done|done|done|lia].
Qed.

(** Left alone, the system drains: each event brings the measure down. *)
Lemma sys_run_drains fuel n x c T es u :
  link_inv x c T es u -> budget fuel (ss x) es (2 * n) ->
  (length es + 2 * length c < n)%nat ->
  (exists x' o, sys_run exp qh n fuel x = Ok (x', o) /\ holds (st (sq x')) [] /\
     accepted o = [] /\ refused o = [] /\
     accounts (tuning_of (sl x)) c T u o [] [] (tuning_of (sl x'))) \/
  (sys_run exp qh n fuel x = Fault Assertion /\ itrue (dynamic_ (sl x)) = true).
Proof.
  revert x c T es u. induction n as [|n IH]; intros x c T es u Hinv Hb Hm; [lia|].
  cbn [sys_run]. destruct es as [|e es].
  - destruct (sys_next_none fuel x c T u Hinv) as (-> & -> & ->);
      [eapply budget_mono; [|done]; lia|].
    cbn [rbind]. left. exists x, []. split_and!; try done. apply Hinv.
  - destruct (sys_next_ok fuel (2 * n) e es x c T u Hinv)
      as [(x1 & o1 & c1 & T1 & es1 & -> & Hinv1 & Hb1 & Hsl1 & Hac1 & Ha1 & Hr1 & Hlen1)|[-> [Hd _]]];
      [eapply budget_mono; [|done]; lia| |by right].
    cbn [rbind]. rewrite <- (sm_dynamic _ _ Hsl1).
    destruct (IH x1 c1 T1 es1 _ Hinv1 Hb1) as [(x2 & o2 & -> & Hh & Ha2 & Hr2 & Hac2)|[-> Hd]];
      [lia|left|by right].
    cbn [rbind]. exists x2, (o1 ++ o2). rewrite accepted_app, refused_app, Ha1, Hr1, Ha2, Hr2.
    split_and!; try done. by eapply accounts_app.
Qed.
End link.

(** ** A dynamic link *)

Section dynamic.
Context {Q : Type} `{EventQueueLaws Q}.
Implicit Types (s : sched Q) (m : heap).

Lemma transit_reset_ok n fuel k q m s es c :
  pq_rep m q c -> sched_ok s es -> budget fuel s es k -> (length c < n)%nat ->
  (forall p, p ∈ c -> is_Some (evs s !! p)) ->
  exists q' s', transit_reset n fuel q m s = Ok (q', s', c) /\ pq_rep m q' [] /\
    sched_ok s' (foldl (fun es p => remove_ev p es) es c) /\
    budget fuel s' (foldl (fun es p => remove_ev p es) es c) k /\ clock_ s' = clock_ s.
Proof.
  revert n q s es. induction c as [|p c IH]; intros n q s es Hr Hok Hb Hn He;
    destruct n as [|n]; [simpl in Hn; lia| |simpl in Hn; lia|]; cbn [transit_reset].
  - rewrite (pq_deque_nil _ _ Hr). cbn [rbind]. by exists q, s.
  - destruct (pq_deque_cons _ _ _ _ Hr) as (q1 & -> & Hr1 & _). cbn [rbind].
    destruct (He p ltac:(by left)) as [ev Hev].
    destruct (cancel_ok fuel p s es ev k Hok Hb Hev) as (s1 & -> & Hok1 & Hb1 & Hc1 & _ & Hd1 & He1).
    cbn [rbind]. destruct (IH n q1 s1 _ Hr1 Hok1 Hb1) as (q2 & s2 & -> & Hr2 & Hok2 & Hb2 & Hc2).
    + simpl in Hn. lia.
    + intros j Hj. destruct (decide (j = p)) as [->|Hne]; [by destruct (evs s1 !! p)|].
      rewrite <- (fmap_is_Some ev_data), Hd1, fmap_is_Some by done. apply He. by right.
    + cbn [rbind]. exists q2, s2. split_and!; try done. congruence.
Qed.

Lemma elem_of_removed es c e : e ∈ foldl (fun es p => remove_ev p es) es c <-> e ∈ es /\ e ∉ c.
Proof.
  revert es. induction c as [|p c IH]; intros es; cbn [foldl]; [set_solver|].
  rewrite IH, elem_of_remove_ev, not_elem_of_cons. tauto.
Qed.

(** What [pktintran] counts for class [k]. *)
Definition class_count (ctr : packet -> Z * Z) (src group : Z) m (c : list positive) (k : nat) : Z :=
  Z.of_nat (length (filter (fun p => m !! p ≫= transit_class ctr src group = Some k) c)).

Lemma count_transit_ok ctr fuel n src group q m t c :
  pq_rep m q c -> (length c < fuel)%nat -> Z.of_nat (length c) < 2 ^ 31 -> (n <= length c)%nat ->
  Forall in_i32 t ->
  exists t', count_transit ctr fuel n src group q m t = Ok t' /\
    forall k x, t !! k = Some x ->
      t' !! k = Some (wrap_i32 (x + class_count ctr src group m (take n c) k)).
Proof.
  intros Hr Hf Hc. revert t. induction n as [|n IH]; intros t Hn Ht; cbn [count_transit].
  - exists t. split; [done|]. intros k x Hk. unfold class_count. cbn.
    rewrite Z.add_0_r, wrap_i32_id; [done|]. by eapply Forall_lookup_1 in Ht.
  - rewrite (pq_lookup_spec _ _ _ _ c) by (done || lia). rewrite Nat2Z.id.
    destruct (lookup_lt_is_Some_2 c n ltac:(lia)) as [p Hp]. rewrite Hp. cbn [rbind].
    destruct (pq_rep_lookup _ _ _ p Hr) as [v Hv]; [by eapply list_elem_of_lookup_2|].
    rewrite (load_Some _ _ _ Hv). cbn [rbind]. rewrite (take_S_r _ _ _ Hp).
    assert (Hadd : forall k, class_count ctr src group m (take n c ++ [p]) k =
      class_count ctr src group m (take n c) k +
      if decide (transit_class ctr src group v = Some k) then 1 else 0).
    { intros k. unfold class_count. rewrite filter_app, length_app, Nat2Z.inj_add. f_equal.
      rewrite filter_cons, filter_nil, Hv. cbn [mbind option_bind]. by destruct (decide _). }
    destruct (transit_class ctr src group v) as [j|] eqn:Ej.
    + destruct (IH (alter (fun x => wrap_i32 (x + 1)) j t)) as (t' & -> & Hk); [lia| |].
      { apply Forall_lookup_2. intros i x. destruct (decide (i = j)) as [->|Hne].
        - rewrite list_lookup_alter_eq. intros (y & _ & ->)%fmap_Some. apply wrap_i32_in.
        - rewrite list_lookup_alter_ne by done. by apply Forall_lookup_1. }
      exists t'. split; [done|]. intros k x Hx. rewrite Hadd.
      destruct (decide (Some j = Some k)) as [[= ->]|Hne].
      * rewrite (Hk k (wrap_i32 (x + 1))) by (by rewrite list_lookup_alter_eq, Hx).
        f_equal. rewrite wrap_i32_add. f_equal. lia.
      * rewrite (Hk k x) by (rewrite list_lookup_alter_ne by congruence; done). do 2 f_equal. lia.
    + destruct (IH t ltac:(lia) Ht) as (t' & -> & Hk). exists t'. split; [done|].
      intros k x Hx. rewrite Hadd, decide_False, Z.add_0_r by done. by apply Hk.
Qed.

End dynamic.
