(* ===== verification/LinkTheorems.v ===== *)
(** * A queue, its link and the scheduler: theorems

    For any discipline, any event queue and any interleaving, other objects'
    events included: every packet put on the link is delivered once, when it
    is due; no step faults, but for a dynamic link whose delay is lowered; and
    left alone the system drains.  Then [reset] and [pktintran] of a dynamic
    link, and what a lower delay does to one. *)

From stdpp Require Import base numbers list gmap sorting.
From Stdlib Require Import ZArith Lia Bool.
From S2P Require Import Prelude.
From S2P Require Import Store.
From S2P Require Import Float64.
From S2P Require Import Packet.
From S2P Require Import PacketQueue.
From S2P Require Import Queue.
From S2P Require Import DropTail.
From S2P Require Import QueueTheorems.
From S2P Require Import EventQueue.
From S2P Require Import ListScheduler.
From S2P Require Import Scheduler.
From S2P Require Import Link.
From S2P Require Import LinkProps.

Open Scope Z_scope.

(** ** Theorems *)

(** C5: a queue of any discipline, its link and the scheduler, after any
    interleaving of arrivals, dispatched events, events that other objects
    schedule and cancel, and changes of the bandwidth and the delay from Tcl:
    every packet accepted is in the queue, was refused, or was put on the link
    once; every packet put on the link at time [t] is on its way to be
    delivered at exactly the time [arrival] gives, or was delivered then,
    once; and no transmission starts before the one before it has ended.  That
    time is [t + (txtime + delay_)], with the bandwidth and the delay of that
    moment; where [avoidReordering_] is set and the last arrival is later, it
    is put off to that one plus [txtime].  The link may be dynamic, and then
    no [reset] is among the steps. *)
Theorem link_delivers_once {S Q} `{DisciplineLaws S} `{EventQueueLaws Q} (exp : f64 -> f64)
  (qh target : positive) fuel n (x0 x : link_sys S Q) es o
  (Hidle : link_idle qh target x0 es) (Hrun : link_run exp qh target fuel x0 n o x)
  (Hb : budget fuel (ss x0) es (2 * n)) :
  exists c T, holds (st (sq x)) c /\ NoDup c /\ NoDup T.*1 /\
    accepted o ≡ₚ c ++ started o ++ refused o /\
    expected (tuning_of (sl x0)) o ≡ₚ T ++ reached o /\
    (forall p t, (p, t) ∈ T -> tm (evs (ss x)) p = t /\ fle (clock_ (ss x)) t = true) /\
    spaced (clock_ (ss x0)) o.
Proof.
  destruct (link_run_inv exp qh target fuel n 0 x0 o x _ _ _ _ Hrun (idle_inv _ _ _ _ Hidle))
    as (c & T & es' & [Hinv _ [P D Sp _] _] & _); [by rewrite Nat.add_0_r|].
  pose proof (li_flight _ _ _ _ _ _ _ Hinv) as Hfl. rewrite app_nil_r in P. exists c, T.
  split_and!; [apply Hinv|eapply holds_NoDup, Hinv|apply Hfl|done|done| |done].
  intros p t Hin. destruct (fl_transit _ _ _ _ _ _ Hfl p t Hin) as (He & _ & Htm).
  split; [done|]. rewrite <- Htm. eapply w_future; [apply Hfl|done].
Qed.

(** C7: from every state such a run reaches, the next packet that comes is
    handled without a fault, and so is the next event, with one exception: on
    a dynamic link a packet may be due before one that was sent earlier
    ([overtaken]: the delay was lowered in between), and [handle] then aborts
    on its assertion. *)
Theorem link_never_faults {S Q} `{DisciplineLaws S} `{EventQueueLaws Q} (exp : f64 -> f64)
  (qh target : positive) fuel n (x0 x : link_sys S Q) es o
  (Hidle : link_idle qh target x0 es) (Hrun : link_run exp qh target fuel x0 n o x)
  (Hb : budget fuel (ss x0) es (2 * n + 2)) :
  (forall p, may_enter x p -> exists y o', sys_recv exp qh fuel p x = Ok (y, o')) /\
  ((exists r, sys_next exp qh fuel x = Ok r) \/
   (sys_next exp qh fuel x = Fault Assertion /\ overtaken x)).
Proof.
  destruct (link_run_inv exp qh target fuel n 2 x0 o x _ _ _ _ Hrun (idle_inv _ _ _ _ Hidle) Hb)
    as (c & T & es' & [Hinv _ _ _] & Hb'). split.
  - intros p Hp. destruct (sys_recv_ok exp qh target fuel 0 p x c T es' _ Hinv Hb' Hp)
      as (y & o' & _ & _ & _ & E & _). eauto.
  - destruct es' as [|e es'].
    + destruct (sys_next_none exp qh target fuel x c T _ Hinv) as [E _]; [|eauto].
      by apply (budget_mono fuel (ss x) [] 2); [lia|].
    + destruct (sys_next_ok exp qh target fuel 0 e es' x c T _ Hinv Hb')
        as [(y & o' & _ & _ & _ & E & _)|?]; eauto.
Qed.

(** C6: when nothing more comes, the queue drains: after a run of [n] steps
    and more than [2 n] events, besides those of other objects that waited at
    the start, nothing waits, and every packet that was ever accepted and not
    refused has been delivered, exactly once, at the time [arrival] gives.
    Only a dynamic link may abort instead, as in [link_never_faults]. *)
Theorem link_drains {S Q} `{DisciplineLaws S} `{EventQueueLaws Q} (exp : f64 -> f64)
  (qh target : positive) fuel n k (x0 x : link_sys S Q) es o
  (Hidle : link_idle qh target x0 es) (Hrun : link_run exp qh target fuel x0 n o x)
  (Hk : (length es + 2 * n < k)%nat) (Hb : budget fuel (ss x0) es (2 * n + 2 * k)) :
  (exists y o', sys_run exp qh k fuel x = Ok (y, o') /\ holds (st (sq y)) [] /\
     accepted o ≡ₚ started (o ++ o') ++ refused o /\
     reached (o ++ o') ≡ₚ expected (tuning_of (sl x0)) (o ++ o')) \/
  (sys_run exp qh k fuel x = Fault Assertion /\ dynamic_ (sl x0) <> 0).
Proof.
  destruct (link_run_inv exp qh target fuel n (2 * k) x0 o x _ _ _ _ Hrun (idle_inv _ _ _ _ Hidle) Hb)
    as (c & T & es' & [Hinv Hsm Hac Hlen] & Hb').
  destruct (sys_run_drains exp qh target fuel k x c T es' _ Hinv Hb')
    as [(y & o' & E & Hh & Ha & Hr & Hac')|[E Hd]]; [simpl in Hlen; lia| |].
  - left. exists y, o'.
    destruct (accounts_app _ _ _ _ _ _ _ _ _ _ _ _ Hac Hac') as [P D _ _].
    rewrite accepted_app, refused_app, Ha, Hr, !app_nil_r in P.
    split_and!; [done|done|done|by symmetry].
  - right. split; [done|]. rewrite (sm_dynamic _ _ Hsm) in Hd. unfold itrue in Hd.
    by apply negb_true_iff, Z.eqb_neq in Hd.
Qed.

(** ** A dynamic link *)

Section dynamic.
Context {Q : Type} `{EventQueueLaws Q}.
Implicit Types (s : sched Q) (m : heap).

(** A dynamic link keeps the packets in transit in a queue [c] of its own:
    [reset] drops them all, in order, and cancels exactly their events. *)
Theorem link_reset_kills fuel k l m s es q c
  (Hq : itq_ l = Some q) (Hr : pq_rep m q c) (Hok : sched_ok s es) (Hb : budget fuel s es k)
  (Hf : (length c < fuel)%nat) (Hc : Z.of_nat (length c) < 2 ^ 31)
  (He : forall p, p ∈ c -> is_Some (evs s !! p)) :
  exists q' s' es', LinkDelay_reset fuel l m s = Ok (set_itq q' l, s', c) /\ pq_rep m q' [] /\
    sched_ok s' es' /\ (forall e, e ∈ es' <-> e ∈ es /\ e ∉ c) /\ clock_ s' = clock_ s.
Proof.
  unfold LinkDelay_reset. rewrite Hq. unfold pq_length. rewrite (rep_len _ _ _ Hr).
  rewrite wrap_small by lia. destruct (Z.eqb_spec (Z.of_nat (length c)) 0) as [H0'|H0'].
  - destruct c; [|simpl in H0'; lia]. exists q, s, es. split_and!; try done.
    + do 3 f_equal. destruct l; cbn in *. by rewrite Hq.
    + set_solver.
  - destruct (transit_reset_ok fuel fuel k q m s es c Hr Hok Hb Hf He)
      as (q' & s' & -> & Hr' & Hok' & _ & Hc'). cbn [rbind].
    eexists q', s', _. split_and!; try done. apply elem_of_removed.
Qed.

(** [pktintran] counts the packets in transit of each of the four classes, in
    the C++ int the counter is. *)
Theorem pktintran_counts ctr fuel src group l m q c
  (Hd : dynamic_ l <> 0) (Hq : itq_ l = Some q) (Hr : pq_rep m q c)
  (Hf : (length c < fuel)%nat) (Hc : Z.of_nat (length c) < 2 ^ 31) :
  exists t, pktintran ctr fuel src group l m = Ok (set_total t l) /\
    forall k, (k < 4)%nat -> t !! k = Some (class_count ctr src group m c k).
Proof.
  unfold pktintran, itrue, the_itq. rewrite (proj2 (Z.eqb_neq _ _) Hd), Hq. cbn [negb rbind].
  unfold pq_length. rewrite (rep_len _ _ _ Hr), wrap_small, Nat2Z.id by lia.
  destruct (count_transit_ok ctr fuel (length c) src group q m [0; 0; 0; 0] c) as (t & -> & Ht);
    [done|done|done|done|by repeat constructor|].
  cbn [rbind]. exists t. split; [done|]. intros k Hk. rewrite (Ht k 0).
  - rewrite firstn_all. f_equal. apply wrap_small. unfold class_count.
    pose proof (length_filter (fun p => m !! p ≫= transit_class ctr src group = Some k) c). lia.
  - by do 4 (destruct k as [|k]; [done|]); lia.
Qed.
End dynamic.

(** *** A link of 8 kbit/s with a delay of 1 s behind a DropTail queue *)

Definition idle_exp : f64 -> f64 := fun x => x.

(** It keeps its packets in order. *)
Definition sample_link : LinkDelay :=
  new_LinkDelay (f64_of_Z 8000) f1 1 (Some 11%positive) 10 12 [0; 0; 0; 0].

Definition sample_evs : events :=
  list_to_map [(1%positive, new_event); (2%positive, new_event); (4%positive, new_event);
               (10%positive, new_event)].

Definition sample_sys : link_sys DropTail.DropTail listq :=
  mkSys sample_droptail sample_link (Sched f0 false 1 sample_evs (ListQ None)).

Lemma sample_link_sched : sched_ok (ss sample_sys) [].
Proof.
  assert (Hz : map_Forall (fun _ v => uid_ v = 0) sample_evs)
    by (apply (bool_decide_unpack _); vm_compute; exact I).
  split; [done|]. constructor; try done; [constructor|constructor|by intros e He%elem_of_nil| |];
    intros e; [intros v Hv|intros e2 v v2 Hv _]; pose proof (Hz e v Hv); cbn in *; lia.
Qed.

Lemma sample_sys_idle : link_idle 13 11 sample_sys [].
Proof.
  constructor; [by constructor|apply sample_link_sched|by intros h e He%elem_of_nil|reflexivity| | | |
    reflexivity|reflexivity|right; cbn; lia].
  - split; [by eexists|by intros He%elem_of_nil].
  - by intros Hd.
  - done.
Qed.

Definition after (r : result (link_sys DropTail.DropTail listq * list link_obs))
    : link_sys DropTail.DropTail listq * list link_obs :=
  match r with Ok y => y | _ => (sample_sys, []) end.
Definition after_next (x : link_sys DropTail.DropTail listq)
    : link_sys DropTail.DropTail listq * list link_obs :=
  match sys_next idle_exp 13 99 x with Ok (Some y) => y | _ => (sample_sys, []) end.

(** Two packets arrive; another object, 14, schedules its event 4 for 50 ms;
    the delay is lowered to 10 ms; event 4 is dispatched, and the transmission
    of the first packet ends: the second one, sent now, would overtake it. *)
Definition sample_1 := after (sys_recv idle_exp 13 99 1 sample_sys).
Definition sample_2 := after (sys_recv idle_exp 13 99 2 (fst sample_1)).
Definition soon : f64 := f64_ratio 1 20.
Definition short : f64 := f64_ratio 1 100.
Definition sample_3 : link_sys DropTail.DropTail listq :=
  mkSys (sq (fst sample_2)) (sl (fst sample_2))
    match schedule 99 (Some 14%positive) 4 soon (ss (fst sample_2)) with Ok s => s | _ => ss sample_sys end.
Definition sample_4 : link_sys DropTail.DropTail listq :=
  mkSys (sq sample_3) (retune (f64_of_Z 8000) short (sl sample_3)) (ss sample_3).
Definition sample_5 := after_next sample_4.
Definition sample_6 := after_next (fst sample_5).

Definition sample_obs : list link_obs :=
  (((([] ++ snd sample_1) ++ snd sample_2) ++ [Retuned (f64_of_Z 8000) short]) ++ snd sample_5) ++ snd sample_6.

Definition can_enter (x : link_sys DropTail.DropTail listq) (p : positive) : bool :=
  match mem (st (sq x)) !! p, evs (ss x) !! p with
  | Some v, Some ev =>
      let t := txtime (sl x) v in
      valid t && nonneg t && (uid_ ev <=? 0) &&
      bool_decide (head_ (DropTail.q_ (disc (st (sq x)))) = None) && negb (bool_decide (p = intr_ (sl x)))
  | _, _ => false
  end.

Lemma sample_may_enter x p : can_enter x p = true -> may_enter x p.
Proof.
  unfold can_enter. destruct (mem (st (sq x)) !! p) as [v|] eqn:Hv; [|done].
  destruct (evs (ss x) !! p) as [ev|] eqn:He; [|done].
  intros ((((A & B)%andb_prop & F)%andb_prop & G)%andb_prop & I)%andb_prop.
  apply bool_decide_eq_true in G. apply negb_true_iff, bool_decide_eq_false in I.
  apply Z.leb_le in F. destruct (sample_may_arrive p (sq x) v Hv G) as (w & _ & _ & Hf).
  constructor; [by exists v|done|by exists ev|done].
Qed.

Lemma sample_schedules : may_schedule 13 11 (fst sample_2) 14 4 soon.
Proof.
  constructor.
  - split_and!; vm_compute; discriminate.
  - vm_compute. discriminate.
  - intros c Hc Hin. destruct (holds_mem _ _ 4%positive Hc Hin) as [v Hv]. vm_compute in Hv. discriminate.
  - eexists. split; vm_compute; [reflexivity|discriminate].
  - split; vm_compute; reflexivity.
Qed.

Lemma sample_retunes : may_retune sample_3 (f64_of_Z 8000) short.
Proof.
  constructor; [split; vm_compute; reflexivity|]. intros c p v _ _ Hv.
  assert (HF : map_Forall (fun _ v => valid (txtime (retune (f64_of_Z 8000) short (sl sample_3)) v) = true /\
    nonneg (txtime (retune (f64_of_Z 8000) short (sl sample_3)) v) = true) (mem (st (sq sample_3))))
    by (apply (bool_decide_unpack _); vm_compute; exact I).
  exact (HF p v Hv).
Qed.

Lemma sample_link_run : link_run idle_exp 13 11 99 sample_sys 6 sample_obs (fst sample_6).
Proof.
  apply (lr_next _ _ _ _ _ _ _ (fst sample_5)); [|vm_compute; reflexivity].
  apply (lr_next _ _ _ _ _ _ _ sample_4); [|vm_compute; reflexivity].
  apply (lr_retune _ _ _ _ _ _ _ sample_3); [|apply sample_retunes].
  apply (lr_schedule _ _ _ _ _ _ _ (fst sample_2) 14 4 soon);
    [|apply sample_schedules|vm_compute; reflexivity].
  apply (lr_recv _ _ _ _ _ _ _ (fst sample_1) 2);
    [|apply sample_may_enter; vm_compute; reflexivity|vm_compute; reflexivity].
  apply (lr_recv _ _ _ _ _ _ _ sample_sys 1);
    [apply lr_start|apply sample_may_enter; vm_compute; reflexivity|vm_compute; reflexivity].
Qed.

(** Both packets are on their way, the second due after the first. *)
Lemma link_delivers_once_witness :
  exists c (T : list (positive * f64)), holds (st (sq (fst sample_6))) c /\
    [1; 2]%positive ≡ₚ c ++ [1; 2]%positive /\
    T ≡ₚ expected (tuning_of sample_link) sample_obs /\ reached sample_obs = [].
Proof.
  destruct (link_delivers_once _ _ _ _ _ _ _ _ _ sample_sys_idle sample_link_run
    ltac:(split_and!; [done|cbn; lia|cbn; lia])) as (c & T & Hh & _ & _ & P & D & _).
  assert (E1 : reached sample_obs = []) by (vm_compute; reflexivity).
  rewrite E1, app_nil_r in D.
  exists c, T. vm_compute in P. split_and!; [exact Hh|exact P|symmetry; exact D|exact E1].
Defined.

Example sample_put_off :
  match expected (tuning_of sample_link) sample_obs with
  | [(1%positive, t1); (2%positive, t2)] => flt t1 t2
  | _ => false
  end = true.
Proof. vm_compute. reflexivity. Qed.

Lemma link_never_faults_witness :
  exists r, sys_next idle_exp 13 99 (fst sample_6) = Ok r.
Proof.
  destruct (proj2 (link_never_faults _ _ _ _ _ _ _ _ _ sample_sys_idle sample_link_run
    ltac:(split_and!; [done|cbn; lia|cbn; lia]))) as [Hr|[_ [Hd _]]]; [exact Hr|].
  vm_compute in Hd. discriminate Hd.
Defined.

Lemma link_drains_witness :
  exists y o', sys_run idle_exp 13 13 99 (fst sample_6) = Ok (y, o') /\ holds (st (sq y)) [].
Proof.
  destruct (link_drains idle_exp 13 11 99 6 13 sample_sys (fst sample_6) [] sample_obs sample_sys_idle
    sample_link_run) as [(y & o' & E & Hh & _)|[_ Hd]];
    [cbn; lia|split_and!; [done|cbn; lia|cbn; lia]| |].
  - exists y, o'. split; [exact E|exact Hh].
  - exfalso. apply Hd. reflexivity.
Defined.

(** *** A dynamic link whose delay is lowered *)

Definition dynamic_sys : link_sys DropTail.DropTail listq :=
  mkSys sample_droptail (retune (f64_of_Z 8000) (f64_of_Z 5) (isDynamic sample_link))
    (Sched f0 false 1 sample_evs (ListQ None)).

(** Two packets arrive while the delay is 5 s; it becomes [d] before the
    second is sent; three events follow. *)
Definition dynamic_run (d : f64) : result (list link_obs) :=
  let! '(x, _) := sys_recv idle_exp 13 99 1 dynamic_sys in
  let! '(x, _) := sys_recv idle_exp 13 99 2 x in
  let! '(_, o) := sys_run idle_exp 13 5 99 (mkSys (sq x) (retune (f64_of_Z 8000) d (sl x)) (ss x)) in
  Ok o.

(** With the delay unchanged both packets come out, in order; with a delay of
    1 s the second overtakes the first, and [handle] aborts on its
    assertion that the packet at the head of [itq_] is the one due. *)
Example lower_delay_aborts :
  dynamic_run f1 = Fault Assertion /\
  (fst <$> match dynamic_run (f64_of_Z 5) with Ok o => reached o | _ => [] end) = [1; 2]%positive.
Proof. split; vm_compute; reflexivity. Qed.

(** One packet in transit, due in a second: [reset] drops it and nothing waits
    any more. *)
Lemma link_reset_kills_witness :
  exists q (m : heap) s q' s', LinkDelay_reset 9 (set_itq q sample_link) m s =
    Ok (set_itq q' (set_itq q sample_link), s', [1%positive]) /\ sched_ok s [1%positive] /\ sched_ok s' [].
Proof.
  destruct (pq_enque_spec 1%positive (sample_packet 100 1 9) pq_new sample_heap [] (pq_rep_new _)
    ltac:(by intros ?%elem_of_nil) eq_refl) as (q & m & _ & Hr & _).
  destruct (schedule_ok 99 11%positive 1%positive f1 (ss sample_sys) [] new_event 1
    sample_link_sched) as (s & _ & Hok & Hb & _ & _ & _ & Hh & _);
    [split_and!; [done|cbn; lia|cbn; lia]|done|done|done|done|].
  destruct (link_reset_kills 9 1 (set_itq q sample_link) m s [1%positive] q [1%positive] eq_refl Hr Hok)
    as (q' & s' & es' & E & _ & Hok' & Hes & _).
  - destruct Hb as (? & _ & ?). split_and!; [done|cbn; lia|done].
  - cbn. lia.
  - cbn. lia.
  - intros p ->%list_elem_of_singleton. by destruct (evs s !! 1%positive).
  - exists q, m, s, q', s'. split; [exact E|]. split; [exact Hok|].
    destruct es' as [|e es']; [exact Hok'|]. exfalso. destruct (proj1 (Hes e) ltac:(by left)) as [He Hn].
    by apply Hn.
Defined.
