(* ===== verification/Acker.v ===== *)
(** * What a TCP sink has received (tcp/tcp-sink.h, tcp/tcp-sink.cc)

    An [Acker] records which segments have come in a circular buffer [seen_]
    of a power of two of cells, which grows as needed, and knows the next
    segment expected.  A [Sacker] also keeps a stack of the blocks of
    segments reported last, to fill the selective acknowledgment option. *)

From stdpp Require Import base numbers list.
From Stdlib Require Import ZArith Lia Bool.
From S2P Require Import Prelude.
From S2P Require Import Float64.
From S2P Require Import Array.

Open Scope Z_scope.

Definition MWS : Z := 64.
Definition MWM : Z := MWS - 1.
(** The number of SACK blocks a header may carry; it has room for one more. *)
Definition NSA : Z := 3.

Record Acker := mkAcker {
  next_ : Z;
  maxseen_ : Z;
  wndmask_ : Z;
  ecn_unacked_ : Z;
  seen_ : list Z;
  ts_to_echo_ : f64;
  is_dup_ : bool;
  last_ack_sent_ : Z
}.

Definition set_next x a :=
  mkAcker x (maxseen_ a) (wndmask_ a) (ecn_unacked_ a) (seen_ a) (ts_to_echo_ a) (is_dup_ a)
    (last_ack_sent_ a).
Definition set_maxseen x a :=
  mkAcker (next_ a) x (wndmask_ a) (ecn_unacked_ a) (seen_ a) (ts_to_echo_ a) (is_dup_ a)
    (last_ack_sent_ a).
Definition set_seen mask x a :=
  mkAcker (next_ a) (maxseen_ a) mask (ecn_unacked_ a) x (ts_to_echo_ a) (is_dup_ a)
    (last_ack_sent_ a).
Definition set_ts_to_echo x a :=
  mkAcker (next_ a) (maxseen_ a) (wndmask_ a) (ecn_unacked_ a) (seen_ a) x (is_dup_ a)
    (last_ack_sent_ a).
Definition set_is_dup x a :=
  mkAcker (next_ a) (maxseen_ a) (wndmask_ a) (ecn_unacked_ a) (seen_ a) (ts_to_echo_ a) x
    (last_ack_sent_ a).
Definition set_last_ack_sent x a :=
  mkAcker (next_ a) (maxseen_ a) (wndmask_ a) (ecn_unacked_ a) (seen_ a) (ts_to_echo_ a)
    (is_dup_ a) x.

(** [Acker ()]; [is_dup_] is not initialized. *)
Definition new_Acker (dup : bool) : Acker :=
  mkAcker 0 0 MWM 0 (replicate (Z.to_nat MWS) 0) f0 dup 0.

Definition update_ecn_unacked (value : Z) (a : Acker) : Acker :=
  mkAcker (next_ a) (maxseen_ a) (wndmask_ a) value (seen_ a) (ts_to_echo_ a) (is_dup_ a)
    (last_ack_sent_ a).

Definition Seqno (a : Acker) : Z := wrap_i32 (next_ a - 1).

(** [seen_[i & wndmask_]] *)
Definition seen_get (a : Acker) (i : Z) : result Z := aget (seen_ a) (Z.land i (wndmask_ a)).

Definition seen_put (i x : Z) (a : Acker) : result Acker :=
  let! l := aset (seen_ a) (Z.land i (wndmask_ a)) x in
  Ok (set_seen (wndmask_ a) l a).

(** [reset ()]: [memset] clears [wndmask_ + 1] cells. *)
Definition acker_reset (a : Acker) : result Acker :=
  let! l := for_loop 0 (wrap_i32 (wndmask_ a + 1)) (fun i l => aset l i 0) (seen_ a) in
  Ok (set_seen (wndmask_ a) l (set_maxseen 0 (set_next 0 a))).

(** [resize_buffers (sz)]; [new] throws for a negative size. *)
Definition resize_buffers (sz : Z) (a : Acker) : result Acker :=
  if sz <? 0 then Fault Aborted
  else
    let new_wndmask := wrap_i32 (sz - 1) in
    let! new_seen := for_loop (next_ a) (wrap_i32 (maxseen_ a + 1) + 1)
      (fun i l => let! x := seen_get a i in aset l (Z.land i new_wndmask) x)
      (replicate (Z.to_nat sz) 0) in
    Ok (set_seen new_wndmask new_seen a).

Definition update_ts (seqno : Z) (ts : f64) (rfc1323 : bool) (a : Acker) : Acker :=
  let due := wrap_i32 (last_ack_sent_ a + 1) in
  if rfc1323 && (seqno =? due) then set_ts_to_echo ts a
  else if fle (ts_to_echo_ a) ts && (seqno <=? due) then set_ts_to_echo ts a
  else a.

(** [while (seq + 1 - next_ >= wndmask_) resize_buffers ((wndmask_+1)*2)] *)
Fixpoint make_room (fuel : nat) (seq : Z) (a : Acker) : result Acker :=
  if wndmask_ a <=? wrap_i32 (wrap_i32 (seq + 1) - next_ a) then
    match fuel with
    | O => NoFuel
    | S fuel =>
        let! a := resize_buffers (wrap_i32 (wrap_i32 (wndmask_ a + 1) * 2)) a in
        make_room fuel seq a
    end
  else Ok a.

(** The block for a new highest segment. *)
Definition mark_highest (seq numBytes : Z) (a : Acker) : result Acker :=
  let! a := for_loop (wrap_i32 (maxseen_ a + 1)) seq (fun i a => seen_put i 0 a) a in
  let a := set_maxseen seq a in
  let! a := seen_put seq numBytes a in
  seen_put (wrap_i32 (seq + 1)) 0 a.

(** [while (seen_[next & wndmask_]) { numToDeliver += ...; ++next; }] *)
Fixpoint deliver (fuel : nat) (next n : Z) (a : Acker) : result (Z * Z) :=
  let! x := seen_get a next in
  if x =? 0 then Ok (next, n)
  else
    match fuel with
    | O => NoFuel
    | S fuel => deliver fuel (wrap_i32 (next + 1)) (wrap_i32 (n + x)) a
    end.

(** The block for a segment in the window; [just] says that it has just been
    marked as the highest. *)
Definition fill (fuel : nat) (seq numBytes : Z) (just : bool) (a : Acker) : result (Acker * Z) :=
  let! x := seen_get a seq in
  let a := if negb (x =? 0) && negb just then set_is_dup true a else a in
  let! a := seen_put seq numBytes a in
  let! '(next, n) := deliver fuel (next_ a) 0 a in
  Ok (set_next next a, n).

(** The bytes that can be delivered, and the new state. *)
Definition update (fuel : nat) (seq numBytes : Z) (a : Acker) : result (Acker * Z) :=
  let a := set_is_dup false a in
  let! a := make_room fuel seq a in
  let just := maxseen_ a <? seq in
  let! a := if just then mark_highest seq numBytes a else Ok a in
  let next := next_ a in
  let a := if seq <? next then set_is_dup true a else a in
  if (next <=? seq) && (seq <=? maxseen_ a) then fill fuel seq numBytes just a else Ok (a, 0).

(** ** The stack of blocks *)

Record SackStack := mkSackStack {
  size_ : Z;
  cnt_ : Z;
  SFE_ : list (Z * Z)
}.

Definition no_block : Z * Z := (-1, -1).

(** [SackStack (sz)] *)
Definition new_SackStack (sz : Z) : result SackStack :=
  if sz <? 0 then Fault Aborted else Ok (mkSackStack sz 0 (replicate (Z.to_nat sz) no_block)).

Definition stack_reset (k : SackStack) : result SackStack :=
  let! l := for_loop 0 (cnt_ k) (fun i l => aset l i no_block) (SFE_ k) in
  Ok (mkSackStack (size_ k) 0 l).

(** [push ()]: room for a block at the head; the last one is lost when the
    stack is full. *)
Definition stack_push (k : SackStack) : result SackStack :=
  let cnt := if size_ k <=? cnt_ k then size_ k - 1 else cnt_ k in
  let! l := for_loop 0 cnt (fun j l =>
    let i := cnt - 1 - j in
    let! x := aget l i in aset l (i + 1) x) (SFE_ k) in
  Ok (mkSackStack (size_ k) (cnt + 1) l).

(** [pop (n)] *)
Definition stack_pop (n : Z) (k : SackStack) : result SackStack :=
  let! l := for_loop n (cnt_ k - 1) (fun i l =>
    let! x := aget l (i + 1) in aset l i x) (SFE_ k) in
  let! l := aset l (Z.max n (cnt_ k - 1)) no_block in
  Ok (mkSackStack (size_ k) (cnt_ k - 1) l).

(** [head_left (0) = left; head_right (0) = right] *)
Definition stack_set_head (b : Z * Z) (k : SackStack) : result SackStack :=
  let! l := aset (SFE_ k) 0 b in Ok (mkSackStack (size_ k) (cnt_ k) l).

(** ** Selective acknowledgments *)

Record Sacker := mkSacker {
  base_nblocks_ : Z;
  sf_ : SackStack
}.

(** [configure] and [trace]: the number of blocks Tcl has set, [NSA] at most. *)
Definition sacker_configure (nblocks : Z) : result Sacker :=
  let nblocks := if NSA <? nblocks then NSA else nblocks in
  let! k := new_SackStack nblocks in
  Ok (mkSacker nblocks k).

(** [Sacker::reset ()], which nothing in the source calls: the sink calls
    [reset] of an [Acker]. *)
Definition sacker_reset (s : Sacker) (a : Acker) : result (Sacker * Acker) :=
  let! k := stack_reset (sf_ s) in
  let! a := acker_reset a in
  Ok (mkSacker (base_nblocks_ s) k, a).

(** A block written to the header, which has [NSA + 1] entries. *)
Definition put_block (b : Z * Z) (blocks : list (Z * Z)) : result (list (Z * Z)) :=
  if NSA <? Z.of_nat (length blocks) then Fault OutOfBounds else Ok (blocks ++ [b]).

(** The first hole at [i] or after it, up to [maxseen_]; [n] cells are left. *)
Fixpoint hole_right (n : nat) (i : Z) (a : Acker) : result Z :=
  match n with
  | O => Ok (-1)
  | S n =>
      let! x := seen_get a i in
      if x =? 0 then Ok i else hole_right n (i + 1) a
  end.

(** The cell after the first hole at [i] or before it, down to [Seqno () + 1]. *)
Fixpoint hole_left (n : nat) (i : Z) (a : Acker) : result Z :=
  match n with
  | O => Ok (-1)
  | S n =>
      let! x := seen_get a i in
      if x =? 0 then Ok (i + 1) else hole_left n (i - 1) a
  end.

(** The loop over the older blocks, of which [recent] covers some. *)
Fixpoint older_blocks (fuel : nat) (recent : Z * Z) (maxseen nblocks k : Z)
    (blocks : list (Z * Z)) (sf : SackStack) : result (list (Z * Z) * SackStack) :=
  if Z.of_nat (length blocks) <? nblocks then
    match fuel with
    | O => NoFuel
    | S fuel =>
        let! '(sack_left, sack_right) := aget (SFE_ sf) k in
        if (sack_left <? 0) || (sack_right <? 0) || (wrap_i32 (maxseen + 1) <? sack_right)
        then Ok (blocks, sf)
        else if (fst recent <=? sack_left) && (sack_right <=? snd recent) then
          let! sf := stack_pop k sf in
          older_blocks fuel recent maxseen nblocks k blocks sf
        else
          let! blocks := put_block (sack_left, sack_right) blocks in
          older_blocks fuel recent maxseen nblocks (k + 1) blocks sf
    end
  else Ok (blocks, sf).

(** The newest block and then the older ones. *)
Definition build_blocks (fuel : nat) (old_seqno : Z) (blocks : list (Z * Z)) (s : Sacker) (a : Acker)
    : result (list (Z * Z) * Sacker) :=
  let seqno := Seqno a in
  let! r := hole_right (Z.to_nat (maxseen_ a + 1 - old_seqno)) old_seqno a in
  let sack_right := if r =? -1 then wrap_i32 (maxseen_ a + 1) else r in
  let! '(sack_left, blocks) :=
    if old_seqno <=? seqno then Ok (0, blocks)
    else
      let! sack_left := hole_left (Z.to_nat (sack_right - 1 - seqno)) (sack_right - 1) a in
      let! blocks := put_block (sack_left, sack_right) blocks in
      Ok (sack_left, blocks) in
  let! '(blocks, sf) :=
    older_blocks fuel (sack_left, sack_right) (maxseen_ a) (base_nblocks_ s) 0 blocks (sf_ s) in
  let! sf :=
    if seqno <? old_seqno then let! sf := stack_push sf in stack_set_head (sack_left, sack_right) sf
    else Ok sf in
  Ok (blocks, mkSacker (base_nblocks_ s) sf).

(** [append_ack]: the blocks of the acknowledgment, and the new stack. *)
Definition append_ack (fuel : nat) (dsacks : bool) (old_seqno : Z) (s : Sacker) (a : Acker)
    : result (list (Z * Z) * Sacker) :=
  let seqno := Seqno a in
  if old_seqno <? 0 then Ok ([], s)
  else if (maxseen_ a <=? seqno) && negb (cnt_ (sf_ s) =? 0) then
    let! k := stack_reset (sf_ s) in Ok ([], mkSacker (base_nblocks_ s) k)
  else if ((seqno <? maxseen_ a) || is_dup_ a) && (0 <? base_nblocks_ s) then
    let! blocks :=
      if dsacks && is_dup_ a then put_block (old_seqno, wrap_i32 (old_seqno + 1)) [] else Ok [] in
    if base_nblocks_ s <=? Z.of_nat (length blocks) then Ok (blocks, s)
    else build_blocks fuel old_seqno blocks s a
  else Ok ([], s).
