(* ===== verification/AckerProps.v ===== *)
(** * What a TCP sink has received: invariant

    [acker_rep lo got a]: the segments recorded by [a] are those where [got]
    is not zero, [got i] being the size of segment [i]; the buffer has the
    cells from [lo] to [maxseen_ + 1], no two of them sharing a place.  Each
    step is followed on [got]. *)

From stdpp Require Import base numbers list.
From Stdlib Require Import ZArith Lia Bool.
From S2P Require Import Prelude.
From S2P Require Import Float64.
From S2P Require Import Array.
From S2P Require Import Acker.

Open Scope Z_scope.
Implicit Types (a : Acker) (got : Z -> Z).

(** ** The circular buffer *)

(** The buffer has [got i] for [i] from [lo] to [hi]. *)
Definition cells (lo hi : Z) got a : Prop :=
  exists k f, 6 <= k <= 30 /\ wndmask_ a = 2 ^ k - 1 /\ arr (seen_ a) (2 ^ k) f /\
    hi - lo <= wndmask_ a /\ forall i, lo <= i <= hi -> f (i mod 2 ^ k) = got i.

Lemma land_mask i k : 0 <= k -> Z.land i (2 ^ k - 1) = i mod 2 ^ k.
Proof. intros. rewrite <- Z.land_ones, Z.ones_equiv by done. done. Qed.

Lemma mod_inj n i j : 0 < n -> Z.abs (i - j) < n -> i mod n = j mod n -> i = j.
Proof.
  intros Hn Hd E. pose proof (Z.div_mod i n ltac:(lia)). pose proof (Z.div_mod j n ltac:(lia)).
  assert (i / n = j / n) by nia. nia.
Qed.

Lemma cells_sub lo hi lo' hi' got a :
  cells lo hi got a -> lo <= lo' -> hi' <= hi -> cells lo' hi' got a.
Proof.
  intros (k & f & Hk & Hm & Hf & Hs & Hc) ??. exists k, f. split_and!; try (done || lia).
  intros i Hi. apply Hc. lia.
Qed.

Lemma cells_ext lo hi got got' a :
  cells lo hi got a -> (forall i, lo <= i <= hi -> got i = got' i) -> cells lo hi got' a.
Proof.
  intros (k & f & Hk & Hm & Hf & Hs & Hc) Hg. exists k, f. split_and!; try (done || lia).
  intros i Hi. rewrite <- Hg by done. by apply Hc.
Qed.

Lemma cells_get lo hi got a i : cells lo hi got a -> lo <= i <= hi -> seen_get a i = Ok (got i).
Proof.
  intros (k & f & Hk & Hm & Hf & Hs & Hc) Hi. unfold seen_get. rewrite Hm, land_mask by lia.
  rewrite (arr_get _ _ _ _ Hf), Hc; [done|done|]. apply Z.mod_pos_bound. lia.
Qed.

(** A write next to the cells, or over one of them. *)
Lemma cells_put lo hi got a i x :
  cells lo hi got a -> lo <= i <= hi + 1 -> i - lo <= wndmask_ a ->
  exists l, seen_put i x a = Ok (set_seen (wndmask_ a) l a) /\
    cells lo (Z.max hi i) (upd got i x) (set_seen (wndmask_ a) l a).
Proof.
  intros (k & f & Hk & Hm & Hf & Hs & Hc) Hi Hd. unfold seen_put. rewrite Hm, land_mask by lia.
  pose proof (Z.mod_pos_bound i (2 ^ k) ltac:(lia)) as Hb.
  destruct (arr_set _ _ _ _ x Hf Hb) as (l & -> & Hl). cbn [rbind]. exists l. split; [done|].
  exists k, (upd f (i mod 2 ^ k) x). cbn [wndmask_ seen_ set_seen].
  split_and!; [lia|lia|done|done|lia|]. intros j Hj. unfold upd.
  destruct (Z.eqb_spec j i) as [->|Hne]; [by rewrite Z.eqb_refl|].
  destruct (Z.eqb_spec (j mod 2 ^ k) (i mod 2 ^ k)) as [E|_]; [|apply Hc; lia].
  destruct Hne. eapply mod_inj; [| |exact E]; lia.
Qed.

(** ** Making room *)

Lemma resize_ok got a lo :
  cells lo (maxseen_ a + 1) got a -> lo <= next_ a -> next_ a <= maxseen_ a + 1 ->
  0 <= next_ a -> maxseen_ a < 2 ^ 29 -> wndmask_ a < 2 ^ 29 + 1 ->
  exists l, resize_buffers (wrap_i32 (wrap_i32 (wndmask_ a + 1) * 2)) a =
      Ok (set_seen (2 * wndmask_ a + 1) l a) /\
    cells (next_ a) (maxseen_ a + 1) got (set_seen (2 * wndmask_ a + 1) l a).
Proof.
  intros Hc Hlo Hn Hn0 Hmax Hw. pose proof Hc as (k & f & Hk & Hm & Hf & Hs & _).
  assert (H2 : 2 ^ k <= 2 ^ 29) by (assert (k <= 29); [apply Z.lt_succ_r, (Z.pow_lt_mono_r_iff 2); lia|
    apply Z.pow_le_mono_r; lia]).
  unfold resize_buffers. rewrite Hm. replace (2 ^ k - 1 + 1) with (2 ^ k) by lia.
  rewrite (wrap_small (2 ^ k)), (wrap_small (2 ^ k * 2)) by lia.
  destruct (Z.ltb_spec (2 ^ k * 2) 0); [lia|].
  rewrite (wrap_small (2 ^ k * 2 - 1)), (wrap_small (maxseen_ a + 1)) by lia.
  set (n' := 2 ^ k * 2). assert (Hn' : n' = 2 ^ (k + 1)) by (unfold n'; rewrite Z.pow_add_r; lia).
  assert (Hn2 : n' = 2 ^ k * 2) by done. clearbody n'.
  destruct (for_loop_spec (fun j l => Z.of_nat (length l) = n' /\
      exists f', arr l n' f' /\ forall i, next_ a <= i < j -> f' (i mod n') = got i)
    (next_ a) (maxseen_ a + 1 + 1) (fun i l => let! x := seen_get a i in
      aset l (Z.land i (n' - 1)) x) (replicate (Z.to_nat n') 0)) as (l & E & _ & f' & Hf' & Hg).
  - lia.
  - split; [rewrite length_replicate; lia|]. exists (fun _ => 0). split; [|lia].
    split; [rewrite length_replicate; lia|]. intros i Hi. apply lookup_replicate. split; [done|lia].
  - intros i l Hi (Hl & f' & Hf' & Hg). rewrite (cells_get _ _ _ _ _ Hc) by lia. cbn [rbind].
    rewrite Hn', land_mask, <- Hn' by lia. pose proof (Z.mod_pos_bound i n' ltac:(lia)) as Hb.
    destruct (arr_set _ _ _ _ (got i) Hf' Hb) as (l' & -> & Hl'). exists l'. split; [done|].
    split; [apply Hl'|]. eexists. split; [done|]. intros j Hj. unfold upd.
    destruct (Z.eqb_spec (j mod n') (i mod n')) as [E|E].
    + f_equal. symmetry. eapply mod_inj; [| |exact E]; lia.
    + apply Hg. assert (j <> i) by congruence. lia.
  - rewrite E. cbn [rbind]. exists l. replace (2 * (2 ^ k - 1) + 1) with (n' - 1) by lia.
    split; [done|]. exists (k + 1), f'. cbn [wndmask_ seen_ set_seen]. rewrite <- Hn'.
    assert (k < 30) by (apply (Z.pow_lt_mono_r_iff 2); lia).
    split_and!; [lia|lia|lia|done|lia|]. intros i Hi. apply Hg. lia.
Qed.

Lemma make_room_ok fuel seq got a :
  cells (next_ a) (maxseen_ a + 1) got a -> 0 <= next_ a <= maxseen_ a + 1 ->
  maxseen_ a < 2 ^ 29 -> - 2 ^ 29 <= seq < 2 ^ 29 -> 2 ^ 30 <= (wndmask_ a + 1) * 2 ^ Z.of_nat fuel ->
  exists m l, make_room fuel seq a = Ok (set_seen m l a) /\ seq + 1 - next_ a < m /\
    cells (next_ a) (maxseen_ a + 1) got (set_seen m l a).
Proof.
  revert a. induction fuel as [|fuel IH]; intros a Hc Hn Hmax Hseq Hf; cbn [make_room];
    rewrite (wrap_i32_id (seq + 1)), (wrap_i32_id (seq + 1 - _)) by (unfold in_i32; lia);
    destruct (Z.leb_spec (wndmask_ a) (seq + 1 - next_ a)) as [Hle|Hle].
  - change (2 ^ Z.of_nat 0) with 1 in Hf. lia.
  - exists (wndmask_ a), (seen_ a). by destruct a.
  - destruct (resize_ok got a (next_ a) Hc) as (l & -> & Hc'); try lia. cbn [rbind].
    destruct (IH (set_seen (2 * wndmask_ a + 1) l a)) as (m & l' & -> & Hm & Hc2); cbn; try done.
    + rewrite Nat2Z.inj_succ, Z.pow_succ_r in Hf by lia. lia.
    + exists m, l'. by destruct a.
  - exists (wndmask_ a), (seen_ a). by destruct a.
Qed.

(** ** Marking a segment *)

Lemma upd_same got i : (forall j, upd got i (got i) j = got j).
Proof. intros j. unfold upd. by destruct (Z.eqb_spec j i) as [->|]. Qed.

Lemma mark_highest_ok seq b lo got a :
  cells lo (maxseen_ a + 1) got a -> 0 <= lo <= maxseen_ a + 1 -> 0 <= maxseen_ a ->
  maxseen_ a < seq < 2 ^ 29 -> seq + 1 - lo <= wndmask_ a ->
  (forall i, maxseen_ a < i -> got i = 0) ->
  exists l, mark_highest seq b a = Ok (set_seen (wndmask_ a) l (set_maxseen seq a)) /\
    cells lo (seq + 1) (upd got seq b) (set_seen (wndmask_ a) l (set_maxseen seq a)).
Proof.
  intros Hc Hlo H0 Hseq Hs Hz. unfold mark_highest.
  rewrite (wrap_small (maxseen_ a + 1)), (wrap_small (seq + 1)) by lia.
  destruct (for_loop_spec (fun i a' => exists l, a' = set_seen (wndmask_ a) l a /\
      cells lo (Z.max (maxseen_ a + 1) (i - 1)) got a')
    (maxseen_ a + 1) seq (fun i a => seen_put i 0 a) a) as (a1 & -> & l1 & -> & Hc1).
  - lia.
  - exists (seen_ a). split; [by destruct a|]. by rewrite Z.max_l by lia.
  - intros i ? Hi (l & -> & Hc'). destruct (cells_put _ _ _ _ i 0 Hc') as (l' & -> & Hl'); [lia|cbn; lia|].
    eexists. split; [done|]. exists l'. split; [done|].
    eapply cells_ext; [eapply cells_sub; [exact Hl'|lia|lia]|].
    intros j _. rewrite <- (Hz i) by lia. apply upd_same.
  - cbn [rbind]. set (a1 := set_maxseen seq (set_seen (wndmask_ a) l1 a)).
    change (cells lo (Z.max (maxseen_ a + 1) (seq - 1)) got a1) in Hc1.
    destruct (cells_put _ _ _ _ seq b Hc1) as (l2 & -> & Hc2); [lia|cbn; lia|]. cbn [rbind].
    destruct (cells_put _ _ _ _ (seq + 1) 0 Hc2) as (l3 & -> & Hc3); [lia|cbn; lia|].
    exists l3. split; [done|]. eapply cells_ext; [eapply cells_sub; [exact Hc3|lia|lia]|].
    intros j _. replace 0 with (upd got seq b (seq + 1)); [apply upd_same|].
    rewrite upd_ne by lia. apply Hz. lia.
Qed.

(** ** Delivering *)

(** The sum of [f] over the [n] numbers from [i]. *)
Fixpoint sum_from (f : Z -> Z) (i : Z) (n : nat) : Z :=
  match n with O => 0 | S n => f i + sum_from f (i + 1) n end.

(** The sum of [f] from [lo] to [hi - 1]. *)
Definition sum_range (f : Z -> Z) (lo hi : Z) : Z := sum_from f lo (Z.to_nat (hi - lo)).

Lemma sum_range_nil f lo hi : hi <= lo -> sum_range f lo hi = 0.
Proof. intros. unfold sum_range. by replace (Z.to_nat (hi - lo)) with 0%nat by lia. Qed.

Lemma sum_range_cons f lo hi : lo < hi -> sum_range f lo hi = f lo + sum_range f (lo + 1) hi.
Proof.
  intros. unfold sum_range. replace (Z.to_nat (hi - lo)) with (S (Z.to_nat (hi - (lo + 1)))) by lia.
  done.
Qed.

Lemma sum_from_app f lo n m : sum_from f lo (n + m) = sum_from f lo n + sum_from f (lo + Z.of_nat n) m.
Proof.
  revert lo. induction n as [|n IH]; intros lo; cbn [sum_from Nat.add].
  - by rewrite Z.add_0_r.
  - rewrite IH. replace (lo + Z.of_nat (S n)) with (lo + 1 + Z.of_nat n) by lia. lia.
Qed.

Lemma sum_range_app f lo mid hi :
  lo <= mid <= hi -> sum_range f lo hi = sum_range f lo mid + sum_range f mid hi.
Proof.
  intros. unfold sum_range.
  replace (Z.to_nat (hi - lo)) with (Z.to_nat (mid - lo) + Z.to_nat (hi - mid))%nat by lia.
  rewrite sum_from_app. by replace (lo + Z.of_nat (Z.to_nat (mid - lo))) with mid by lia.
Qed.

Lemma sum_from_ext f g lo n :
  (forall i, lo <= i < lo + Z.of_nat n -> f i = g i) -> sum_from f lo n = sum_from g lo n.
Proof.
  revert lo. induction n as [|n IH]; intros lo Hfg; cbn [sum_from]; [done|].
  rewrite Hfg, IH; [done|intros i Hi; apply Hfg; lia|lia].
Qed.

Lemma sum_range_ext f g lo hi :
  (forall i, lo <= i < hi -> f i = g i) -> sum_range f lo hi = sum_range g lo hi.
Proof. intros Hfg. apply sum_from_ext. intros i Hi. apply Hfg. lia. Qed.

Lemma deliver_ok fuel lo hi got a next n :
  cells lo hi got a -> lo <= next <= hi -> 0 <= next -> hi < 2 ^ 30 -> got hi = 0 ->
  hi - next <= Z.of_nat fuel ->
  exists next', deliver fuel next n a = Ok (next',
      if next' =? next then n else wrap_i32 (n + sum_range got next next')) /\
    next <= next' <= hi /\ (forall i, next <= i < next' -> got i <> 0) /\ got next' = 0.
Proof.
  intros Hc. revert next n. induction fuel as [|fuel IH]; intros next n Hn H0 Hhi Hz Hf;
    cbn [deliver]; rewrite (cells_get _ _ _ _ _ Hc) by lia; cbn [rbind];
    destruct (Z.eqb_spec (got next) 0) as [E|E].
  - exists next. rewrite Z.eqb_refl. split_and!; (done || lia).
  - assert (next = hi) by lia. congruence.
  - exists next. rewrite Z.eqb_refl. split_and!; (done || lia).
  - assert (next <> hi) by congruence. rewrite (wrap_small (next + 1)) by lia.
    destruct (IH (next + 1) (wrap_i32 (n + got next))) as (next' & -> & Hn' & Hg & Hz'); try (done || lia).
    exists next'. destruct (Z.eqb_spec next' next); [lia|].
    rewrite (sum_range_cons _ next) by lia. split_and!; [|lia|lia| |done].
    + destruct (Z.eqb_spec next' (next + 1)) as [->|].
      * by rewrite sum_range_nil, Z.add_0_r by lia.
      * rewrite wrap_i32_add. do 3 f_equal. lia.
    + intros i Hi. destruct (Z.eq_dec i next) as [->|]; [done|]. apply Hg. lia.
Qed.

(** ** Updates *)

Record acker_ok got a : Prop := {
  ao_cells : cells (next_ a) (maxseen_ a + 1) got a;
  ao_next : 0 <= next_ a <= maxseen_ a + 1;
  ao_max : 0 <= maxseen_ a < 2 ^ 29;
  ao_got : forall i, 0 <= i < next_ a -> got i <> 0;
  ao_hole : got (next_ a) = 0;
  ao_zero : forall i, i < 0 \/ maxseen_ a < i -> got i = 0
}.

Lemma new_Acker_ok dup : acker_ok (fun _ => 0) (new_Acker dup).
Proof.
  constructor; cbn; try (done || lia). exists 6, (fun _ => 0). split_and!; try (done || lia).
  split; [done|]. intros i Hi. apply lookup_replicate. split; [done|]. change (2 ^ 6) with MWS in Hi. lia.
Qed.

Lemma acker_reset_ok got a : acker_ok got a ->
  exists a', acker_reset a = Ok a' /\ acker_ok (fun _ => 0) a' /\ wndmask_ a' = wndmask_ a.
Proof.
  intros [(k & f & Hk & Hm & Hf & _) _ _ _ _ _]. unfold acker_reset.
  assert (2 ^ k <= 2 ^ 30) by (apply Z.pow_le_mono_r; lia).
  assert (2 ^ 6 <= 2 ^ k) by (apply Z.pow_le_mono_r; lia).
  rewrite Hm, wrap_small by lia. replace (2 ^ k - 1 + 1) with (2 ^ k) by lia.
  destruct (for_loop_spec (fun j l => exists f', arr l (2 ^ k) f' /\ forall i, 0 <= i < j -> f' i = 0)
    0 (2 ^ k) (fun i l => aset l i 0) (seen_ a)) as (l & -> & f' & Hl & Hz).
  - lia.
  - exists f. split; [done|lia].
  - intros i l Hi (f' & Hl & Hz). destruct (arr_set _ _ _ i 0 Hl Hi) as (l' & -> & Hl').
    exists l'. split; [done|]. exists (upd f' i 0). split; [done|]. intros j Hj. unfold upd.
    destruct (Z.eqb_spec j i); [done|]. apply Hz. lia.
  - cbn [rbind]. eexists. split; [done|]. split; [|done]. constructor; cbn; try (done || lia).
    exists k, f'. cbn. split_and!; try (done || lia). intros i Hi. apply Hz, Z.mod_pos_bound. lia.
Qed.

(** The sizes after segment [seq] of [b] bytes: a segment before the window
    changes nothing. *)
Definition record_seg (seq b : Z) a got : Z -> Z := if next_ a <=? seq then upd got seq b else got.

(** What does not change but in the buffer. *)
Lemma set_seen_fields m l a :
  next_ (set_seen m l a) = next_ a /\ maxseen_ (set_seen m l a) = maxseen_ a.
Proof. done. Qed.

(** The buffer after the block for a new highest segment, taken or not. *)
Lemma marked_ok seq b got a :
  cells (next_ a) (maxseen_ a + 1) got a -> 0 <= next_ a <= maxseen_ a + 1 -> 0 <= maxseen_ a ->
  seq < 2 ^ 29 -> seq + 1 - next_ a < wndmask_ a -> (forall i, maxseen_ a < i -> got i = 0) ->
  let M := Z.max (maxseen_ a) seq in
  exists l, (if maxseen_ a <? seq then mark_highest seq b a else Ok a) =
      Ok (set_seen (wndmask_ a) l (set_maxseen M a)) /\
    cells (next_ a) (M + 1) (if maxseen_ a <? seq then upd got seq b else got)
      (set_seen (wndmask_ a) l (set_maxseen M a)).
Proof.
  intros Hc Hn H0 Hseq Hm Hz M. unfold M. destruct (Z.ltb_spec (maxseen_ a) seq).
  - rewrite Z.max_r by lia. apply mark_highest_ok; try (done || lia).
  - rewrite Z.max_l by lia. exists (seen_ a). by destruct a.
Qed.

Lemma fill_ok fuel seq b just got a :
  cells (next_ a) (maxseen_ a + 1) got a -> 0 <= next_ a <= seq -> seq <= maxseen_ a < 2 ^ 29 ->
  got (maxseen_ a + 1) = 0 -> maxseen_ a + 1 - next_ a <= Z.of_nat fuel ->
  exists l next' a' n, fill fuel seq b just a = Ok (a', n) /\
    a' = set_next next' (set_seen (wndmask_ a) l
           (if negb (got seq =? 0) && negb just then set_is_dup true a else a)) /\
    cells (next_ a) (maxseen_ a + 1) (upd got seq b) a' /\
    next_ a <= next' <= maxseen_ a + 1 /\ n = wrap_i32 (sum_range (upd got seq b) (next_ a) next') /\
    (forall i, next_ a <= i < next' -> upd got seq b i <> 0) /\ upd got seq b next' = 0.
Proof.
  intros Hc Hn Hs Hz Hf. unfold fill. rewrite (cells_get _ _ _ _ _ Hc) by lia. cbn [rbind].
  set (a1 := if _ && _ then _ else a).
  assert (H1 : next_ a1 = next_ a /\ maxseen_ a1 = maxseen_ a /\ wndmask_ a1 = wndmask_ a /\
    seen_ a1 = seen_ a) by (unfold a1; by destruct (_ && _)).
  clearbody a1. destruct H1 as (En & Em & Ew & El).
  assert (Hc1 : cells (next_ a) (maxseen_ a + 1) got a1).
  { destruct Hc as (k & f & Hr). exists k, f. by rewrite Ew, El. }
  destruct (cells_put _ _ _ _ seq b Hc1) as (l & -> & Hc2); [lia| |].
  { destruct Hc1 as (_ & _ & _ & _ & _ & Hw & _). lia. }
  cbn [rbind]. cbn [next_ set_seen]. rewrite En. rewrite Z.max_l in Hc2 by lia.
  destruct (deliver_ok fuel (next_ a) (maxseen_ a + 1) _ _ (next_ a) 0 Hc2)
    as (next' & -> & Hn' & Hg' & Hz'); try lia.
  { by rewrite upd_ne by lia. }
  cbn [rbind]. rewrite Ew in *. exists l, next'. do 2 eexists. split; [done|]. split_and!; try (done || lia).
  destruct (Z.eqb_spec next' (next_ a)) as [->|]; [by rewrite sum_range_nil by lia|done].
Qed.

Lemma update_ok fuel seq b got a :
  acker_ok got a -> - 2 ^ 29 <= seq < 2 ^ 29 -> (24 <= fuel)%nat ->
  Z.max (maxseen_ a) seq + 1 - next_ a <= Z.of_nat fuel ->
  exists a' n, update fuel seq b a = Ok (a', n) /\
    let got' := record_seg seq b a got in
    acker_ok got' a' /\ cells (next_ a) (maxseen_ a' + 1) got' a' /\
    maxseen_ a' = Z.max (maxseen_ a) seq /\ next_ a <= next_ a' /\
    (seq <> next_ a -> next_ a' = next_ a) /\
    n = wrap_i32 (sum_range got' (next_ a) (next_ a')) /\
    is_dup_ a' = (seq <? next_ a) || negb (got seq =? 0).
Proof.
  intros [Hc Hn Hm Hg Hh Hz] Hseq Hf1 Hf2. unfold update.
  set (a0 := set_is_dup false a). change (cells (next_ a0) (maxseen_ a0 + 1) got a0) in Hc.
  assert (Hk : 64 <= wndmask_ a + 1).
  { destruct Hc as (k & _ & Hk & Hw & _). change (wndmask_ a0) with (wndmask_ a) in Hw.
    rewrite Hw. assert (2 ^ 6 <= 2 ^ k) by (apply Z.pow_le_mono_r; lia). lia. }
  destruct (make_room_ok fuel seq got a0 Hc) as (m & l & -> & Hm1 & Hc1); [cbn; lia|cbn; lia|done| |].
  { cbn. assert (2 ^ 24 <= 2 ^ Z.of_nat fuel) by (apply Z.pow_le_mono_r; lia). nia. }
  cbn [rbind]. set (a1 := set_seen m l a0) in *.
  change (maxseen_ a0) with (maxseen_ a) in *. change (next_ a0) with (next_ a) in *.
  destruct (marked_ok seq b got a1 Hc1) as (l2 & -> & Hc2); [done|cbn; lia|lia|done| |].
  { intros i Hi. apply Hz. cbn in Hi. lia. }
  cbn [rbind]. set (a2 := set_seen _ l2 _) in *. set (M := Z.max (maxseen_ a) seq) in *.
  change (next_ a1) with (next_ a) in *. change (next_ a2) with (next_ a).
  change (maxseen_ a1) with (maxseen_ a) in *. fold M in Hc2.
  set (got2 := if maxseen_ a <? seq then upd got seq b else got) in *. unfold record_seg.
  destruct (Z.ltb_spec seq (next_ a)) as [Hlt|Hge].
  - (* before the window *)
    rewrite (proj2 (Z.leb_gt _ _) Hlt). cbn [andb]. do 2 eexists. split; [done|].
    cbn zeta. assert (HM : M = maxseen_ a) by lia. assert (Hg2 : got2 = got).
    { unfold got2. by rewrite (proj2 (Z.ltb_ge _ _)) by lia. }
    cbn [next_ maxseen_ is_dup_ set_is_dup set_seen set_maxseen a2 a1 a0]. fold M. rewrite HM, Hg2 in *.
    rewrite sum_range_nil by lia.
    split_and!; try (done || lia).
    constructor; cbn [next_ maxseen_ set_is_dup set_seen set_maxseen a2 a1 a0]; try done; fold M;
      by rewrite HM.
  - rewrite (proj2 (Z.leb_le _ _) Hge). cbn [andb].
    change (maxseen_ a2) with M. rewrite (proj2 (Z.leb_le seq M)) by lia.
    assert (Hgot : forall j, upd got2 seq b j = upd got seq b j).
    { intros j. unfold got2, upd. by destruct (maxseen_ a <? seq), (j =? seq). }
    destruct (fill_ok fuel seq b (maxseen_ a <? seq) got2 a2)
      as (l3 & next' & a' & n & -> & -> & Hc3 & Hn' & -> & Hg' & Hz');
      cbn [next_ maxseen_ set_is_dup set_seen set_maxseen a2 a1 a0]; fold M; try (done || lia).
    { unfold got2. destruct (maxseen_ a <? seq); [rewrite upd_ne by lia|]; apply Hz; lia. }
    do 2 eexists. split; [done|]. cbn zeta.
    change (next_ a2) with (next_ a) in *. change (maxseen_ a2) with M in *.
    set (d := negb (got2 seq =? 0) && _) in *.
    assert (Hd : d = negb (got seq =? 0)).
    { unfold d, got2. destruct (Z.ltb_spec (maxseen_ a) seq) as [Hj|Hj]; cbn [negb].
      - by rewrite andb_false_r, (Hz seq) by lia.
      - by rewrite andb_true_r. }
    set (a' := set_next next' _) in *.
    assert (Ha : next_ a' = next' /\ maxseen_ a' = M /\ is_dup_ a' = d)
      by (unfold a'; by destruct d).
    clearbody a'. destruct Ha as (En & Em & ->). rewrite En, Em, (sum_range_ext _ (upd got seq b)) by auto.
    assert (Hc4 : cells (next_ a) (M + 1) (upd got seq b) a') by (eapply cells_ext; eauto).
    split_and!; [|done|done|lia| |done|by rewrite Hd].
    + constructor; rewrite ?En, ?Em; [eapply cells_sub; [exact Hc4|lia|lia]|lia|lia| |by rewrite <- Hgot|].
      * intros i Hi. destruct (Z.lt_ge_cases i (next_ a)); [|by rewrite <- Hgot; apply Hg'; cbn; lia].
        rewrite upd_ne by lia. apply Hg. lia.
      * intros i Hi. rewrite upd_ne by lia. apply Hz. lia.
    + intros Hne. destruct (Z.eq_dec next' (next_ a)) as [|Hlt]; [done|].
      destruct (Hg' (next_ a)); [cbn in *; lia|]. by rewrite Hgot, upd_ne by done.
Qed.
