(* ===== verification/SackProps.v ===== *)
(** * Selective acknowledgments: invariant

    [stack_rep k es]: the stack [k] has the blocks [es], the newest first.
    [sacker_ok R p got a s es]: the newer blocks of [es] are runs of received
    segments above the cumulative acknowledgment, and the older ones are left
    from before the last reset of the sink, which does not clear the stack.
    [append_ack] reports such blocks only. *)

From stdpp Require Import base numbers list.
From Stdlib Require Import ZArith Lia Bool.
From S2P Require Import Prelude.
From S2P Require Import Float64.
From S2P Require Import Array.
From S2P Require Import Acker.
From S2P Require Import AckerProps.

Open Scope Z_scope.
Implicit Types (a : Acker) (got : Z -> Z) (es : list (Z * Z)).

(** ** The stack *)

Definition stack_fn es (i : Z) : Z * Z := default no_block (es !! Z.to_nat i).

Record stack_rep (k : SackStack) es : Prop := {
  sr_cells : arr (SFE_ k) (size_ k) (stack_fn es);
  sr_cnt : cnt_ k = Z.of_nat (length es);
  sr_room : cnt_ k <= size_ k
}.

Lemma stack_fn_out es i : Z.of_nat (length es) <= i -> stack_fn es i = no_block.
Proof. intros. unfold stack_fn. by rewrite lookup_ge_None_2 by lia. Qed.

Lemma stack_fn_in es i b : 0 <= i -> es !! Z.to_nat i = Some b -> stack_fn es i = b.
Proof. unfold stack_fn. by intros _ ->. Qed.

Lemma new_SackStack_ok sz : 0 <= sz -> exists k, new_SackStack sz = Ok k /\ stack_rep k [] /\ size_ k = sz.
Proof.
  intros Hs. unfold new_SackStack. destruct (Z.ltb_spec sz 0); [lia|].
  eexists. split; [done|]. split; [|done]. constructor; cbn; [|done|done].
  split; [rewrite length_replicate; lia|]. intros i Hi. apply lookup_replicate. split; [done|lia].
Qed.

Lemma stack_reset_ok k es :
  stack_rep k es -> exists k', stack_reset k = Ok k' /\ stack_rep k' [] /\ size_ k' = size_ k.
Proof.
  intros [Hc Hn Hr]. unfold stack_reset.
  destruct (for_loop_spec (fun j l => exists f, arr l (size_ k) f /\
      forall i, 0 <= i < j \/ cnt_ k <= i -> f i = no_block)
    0 (cnt_ k) (fun i l => aset l i no_block) (SFE_ k)) as (l & -> & f & Hl & Hf).
  - lia.
  - exists (stack_fn es). split; [done|]. intros i [Hi|Hi]; [lia|]. apply stack_fn_out. lia.
  - intros i l Hi (f & Hl & Hf). destruct (arr_set _ _ _ i no_block Hl) as (l' & -> & Hl'); [lia|].
    exists l'. split; [done|]. exists (upd f i no_block). split; [done|]. intros j Hj. unfold upd.
    destruct (Z.eqb_spec j i); [done|]. apply Hf. lia.
  - cbn [rbind]. eexists. split; [done|]. split; [|done].
    constructor; cbn; [|done|lia]. eapply arr_ext; [exact Hl|]. intros i Hi.
    rewrite stack_fn_out by (cbn; lia). apply Hf. lia.
Qed.

Lemma stack_pop_ok k es n :
  stack_rep k es -> 0 <= n < cnt_ k ->
  exists k', stack_pop n k = Ok k' /\ stack_rep k' (delete (Z.to_nat n) es) /\ size_ k' = size_ k.
Proof.
  intros [Hc Hn Hr] Hb. unfold stack_pop.
  destruct (for_loop_spec (fun j l => arr l (size_ k)
      (fun i => if (n <=? i) && (i <? j) then stack_fn es (i + 1) else stack_fn es i))
    n (cnt_ k - 1) (fun i l => let! x := aget l (i + 1) in aset l i x) (SFE_ k)) as (l & -> & Hl).
  - lia.
  - eapply arr_ext; [exact Hc|]. intros i Hi.
    by destruct (Z.leb_spec n i), (Z.ltb_spec i n); cbn; try lia.
  - intros i l Hi Hl. rewrite (arr_get _ _ _ _ Hl) by lia. cbn [rbind].
    destruct (Z.leb_spec n (i + 1)), (Z.ltb_spec (i + 1) i); cbn [andb]; try lia.
    destruct (arr_set _ _ _ i (stack_fn es (i + 1)) Hl) as (l' & -> & Hl'); [lia|].
    exists l'. split; [done|]. eapply arr_ext; [exact Hl'|]. intros j Hj. unfold upd.
    destruct (Z.eqb_spec j i), (Z.leb_spec n j), (Z.ltb_spec j i), (Z.ltb_spec j (i + 1));
      subst; cbn; (done || lia).
  - cbn [rbind]. rewrite Z.max_r by lia.
    destruct (arr_set _ _ _ (cnt_ k - 1) no_block Hl) as (l' & -> & Hl'); [lia|].
    cbn [rbind]. eexists. split; [done|]. split; [|done].
    assert (Hlen : length (delete (Z.to_nat n) es) = (length es - 1)%nat).
    { apply length_delete. apply lookup_lt_is_Some_2. lia. }
    constructor; cbn; [|lia|lia]. eapply arr_ext; [exact Hl'|]. intros i Hi. unfold upd.
    destruct (Z.eqb_spec i (cnt_ k - 1)) as [->|Hne].
    + symmetry. apply stack_fn_out. lia.
    + unfold stack_fn. destruct (Z.leb_spec n i), (Z.ltb_spec i (cnt_ k - 1)); cbn [andb].
      * rewrite list_lookup_delete_ge by lia. by replace (S (Z.to_nat i)) with (Z.to_nat (i + 1)) by lia.
      * rewrite list_lookup_delete_ge by lia. rewrite !lookup_ge_None_2 by lia. done.
      * by rewrite list_lookup_delete_lt by lia.
      * by rewrite list_lookup_delete_lt by lia.
Qed.

(** [push] and the two writes after it. *)
Lemma stack_push_ok k es b :
  stack_rep k es -> 0 < size_ k ->
  exists k1 k', stack_push k = Ok k1 /\ stack_set_head b k1 = Ok k' /\
    stack_rep k' (b :: take (Z.to_nat (size_ k - 1)) es) /\ size_ k' = size_ k.
Proof.
  intros [Hc Hn Hr] Hs. unfold stack_push. cbv zeta.
  set (cnt := if size_ k <=? cnt_ k then size_ k - 1 else cnt_ k).
  assert (Hcnt : cnt = Z.min (cnt_ k) (size_ k - 1))
    by (unfold cnt; destruct (Z.leb_spec (size_ k) (cnt_ k)); lia).
  clearbody cnt.
  destruct (for_loop_spec (fun j l => arr l (size_ k)
      (fun i => if (cnt - j <? i) && (i <=? cnt) then stack_fn es (i - 1) else stack_fn es i))
    0 cnt (fun j l => let! x := aget l (cnt - 1 - j) in aset l (cnt - 1 - j + 1) x) (SFE_ k))
    as (l & E & Hl).
  - lia.
  - eapply arr_ext; [exact Hc|]. intros i Hi.
    by destruct (Z.ltb_spec (cnt - 0) i), (Z.leb_spec i cnt); cbn; try lia.
  - intros j l Hj Hl. rewrite (arr_get _ _ _ _ Hl) by lia. cbn [rbind].
    destruct (Z.ltb_spec (cnt - j) (cnt - 1 - j)); [lia|]. cbn [andb].
    destruct (arr_set _ _ _ (cnt - 1 - j + 1) (stack_fn es (cnt - 1 - j)) Hl) as (l' & -> & Hl'); [lia|].
    exists l'. split; [done|]. eapply arr_ext; [exact Hl'|]. intros i Hi. unfold upd.
    destruct (Z.eqb_spec i (cnt - 1 - j + 1)),
      (Z.ltb_spec (cnt - j) i), (Z.ltb_spec (cnt - (j + 1)) i), (Z.leb_spec i cnt); cbn;
      (lia || done || (f_equal; lia)).
  - rewrite E. cbn [rbind]. unfold stack_set_head. cbn [SFE_ size_ cnt_].
    destruct (arr_set _ _ _ 0 b Hl) as (l' & E' & Hl'); [lia|].
    eexists _, _. split; [done|]. cbn [SFE_ size_ cnt_]. rewrite E'. cbn [rbind].
    split; [done|]. split; [|done]. constructor; cbn [SFE_ size_ cnt_ length].
    + eapply arr_ext; [exact Hl'|]. intros i Hi. unfold upd.
      destruct (Z.eqb_spec i 0) as [->|Hne]; [done|].
      unfold stack_fn. replace (Z.to_nat i) with (S (Z.to_nat (i - 1))) by lia. simpl.
      destruct (Z.ltb_spec (cnt - cnt) i), (Z.leb_spec i cnt); cbn [andb]; try lia.
      * by rewrite lookup_take_lt by lia.
      * rewrite !lookup_ge_None_2; [done|rewrite length_take; lia|lia].
    + rewrite length_take. lia.
    + lia.
Qed.

(** ** The search for holes *)

Lemma seen_get_total lo hi got a i : cells lo hi got a -> exists x, seen_get a i = Ok x.
Proof.
  intros (k & f & Hk & Hm & Hf & _). unfold seen_get. rewrite Hm, land_mask by lia.
  rewrite (arr_get _ _ _ _ Hf); [by eexists|]. apply Z.mod_pos_bound. lia.
Qed.

Lemma hole_right_total lo hi got a n i : cells lo hi got a -> exists r, hole_right n i a = Ok r.
Proof.
  intros Hc. revert i. induction n as [|n IH]; intros i; cbn [hole_right]; [by eexists|].
  destruct (seen_get_total lo hi got a i Hc) as [x ->]. cbn [rbind].
  destruct (x =? 0); [by eexists|apply IH].
Qed.

Lemma hole_right_ok lo hi got a n i :
  cells lo hi got a -> lo <= i -> 0 <= i -> i + Z.of_nat n <= hi + 1 ->
  exists r, hole_right n i a = Ok r /\
    let stop := if r =? -1 then i + Z.of_nat n else r in
    i <= stop <= i + Z.of_nat n /\ (forall j, i <= j < stop -> got j <> 0) /\
    (r <> -1 -> got r = 0).
Proof.
  intros Hc. revert i. induction n as [|n IH]; intros i Hlo H0 Hn; cbn [hole_right].
  - exists (-1). cbn. split_and!; (done || lia).
  - rewrite (cells_get _ _ _ _ _ Hc) by lia. cbn [rbind].
    destruct (Z.eqb_spec (got i) 0) as [E|E].
    + exists i. destruct (Z.eqb_spec i (-1)); [lia|]. split_and!; (done || lia).
    + destruct (IH (i + 1)) as (r & -> & Hr & Hg & Hz); [lia..|]. exists r. split; [done|].
      cbn zeta in *. replace (i + Z.of_nat (S n)) with (i + 1 + Z.of_nat n) by lia.
      split_and!; [lia|lia| |done]. intros j Hj. destruct (Z.eq_dec j i) as [->|]; [done|].
      apply Hg. lia.
Qed.

(** Going down there is a hole at the end of the search. *)
Lemma hole_left_ok lo hi got a n i :
  cells lo hi got a -> i <= hi -> lo <= i - Z.of_nat n -> got (i - Z.of_nat n) = 0 ->
  exists r, hole_left (S n) i a = Ok r /\ i - Z.of_nat n < r <= i + 1 /\
    (forall j, r <= j <= i -> got j <> 0) /\ got (r - 1) = 0.
Proof.
  intros Hc. revert i. induction n as [|n IH]; intros i Hi Hlo Hz.
  - cbn [hole_left]. rewrite Z.sub_0_r in *. rewrite (cells_get _ _ _ _ _ Hc) by lia. cbn [rbind].
    rewrite Hz. cbn. exists (i + 1). replace (i + 1 - 1) with i by lia. split_and!; (done || lia).
  - remember (S n) as m. cbn [hole_left]. rewrite (cells_get _ _ _ _ _ Hc) by lia. cbn [rbind].
    destruct (Z.eqb_spec (got i) 0) as [E|E].
    + exists (i + 1). replace (i + 1 - 1) with i by lia. split_and!; (done || lia).
    + subst m. destruct (IH (i - 1)) as (r & -> & Hr & Hg & Hz'); [lia|lia| |].
      { by replace (i - 1 - Z.of_nat n) with (i - Z.of_nat (S n)) by lia. }
      exists r. split_and!; try (done || lia). intros j Hj.
      destruct (Z.eq_dec j i) as [->|]; [done|]. apply Hg. lia.
Qed.

(** ** The older blocks *)

Definition covered_by (recent b : Z * Z) : Prop := fst recent <= fst b /\ snd b <= snd recent.

(** Whatever the blocks [post] are, some of them are reported and some lost. *)
Lemma older_blocks_any fuel recent maxs nb pre post blocks sf :
  stack_rep sf (pre ++ post) -> size_ sf = nb -> nb <= NSA ->
  (length pre <= length blocks)%nat -> (length post < fuel)%nat ->
  exists new post' sf',
    older_blocks fuel recent maxs nb (Z.of_nat (length pre)) blocks sf = Ok (blocks ++ new, sf') /\
    stack_rep sf' (pre ++ post') /\ size_ sf' = nb /\ post' `sublist_of` post /\
    new `sublist_of` post' /\
    (Z.of_nat (length blocks) <= nb -> Z.of_nat (length (blocks ++ new)) <= nb).
Proof.
  revert pre post blocks sf. induction fuel as [|fuel IH];
    intros pre post blocks sf Hs Hsz Hnb Hpre Hf; [lia|]. cbn [older_blocks].
  assert (Hend : exists new post' sf', Ok (blocks, sf) = Ok (blocks ++ new, sf') /\
    stack_rep sf' (pre ++ post') /\ size_ sf' = nb /\ post' `sublist_of` post /\
    new `sublist_of` post' /\
    (Z.of_nat (length blocks) <= nb -> Z.of_nat (length (blocks ++ new)) <= nb)).
  { exists [], post, sf. rewrite app_nil_r. split_and!; try done. apply sublist_nil_l. }
  destruct (Z.ltb_spec (Z.of_nat (length blocks)) nb) as [Hlt|Hge]; [|exact Hend].
  rewrite (arr_get _ _ _ _ (sr_cells _ _ Hs)) by lia. cbn [rbind].
  unfold stack_fn. rewrite Nat2Z.id. destruct post as [|[l r] post].
  { rewrite lookup_ge_None_2 by (rewrite app_nil_r; lia). exact Hend. }
  rewrite list_lookup_middle by done. cbn [default from_option id].
  destruct ((l <? 0) || (r <? 0) || (wrap_i32 (maxs + 1) <? r)); [exact Hend|]. clear Hend. simpl in Hf.
  destruct ((fst recent <=? l) && (r <=? snd recent)).
  - destruct (stack_pop_ok sf _ (Z.of_nat (length pre)) Hs) as (sf1 & -> & Hs1 & Hz1).
    { rewrite (sr_cnt _ _ Hs), length_app. simpl. lia. }
    rewrite Nat2Z.id, delete_middle in Hs1. cbn [rbind].
    destruct (IH pre post blocks sf1) as (new & post' & sf' & -> & R1 & R2 & R3 & R4 & R6);
      try (done || lia). exists new, post', sf'. split_and!; try done. by apply sublist_cons.
  - unfold put_block. rewrite (proj2 (Z.ltb_ge _ _)) by lia. cbn [rbind].
    destruct (IH (pre ++ [(l, r)]) post (blocks ++ [(l, r)]) sf) as
      (new & post' & sf' & E & R1 & R2 & R3 & R4 & R6);
      rewrite ?length_app, <- ?app_assoc; try (done || (simpl; lia)).
    rewrite length_app, Nat2Z.inj_add in E. cbn [length] in E. change (Z.of_nat 1) with 1 in E.
    rewrite E. exists ((l, r) :: new), ((l, r) :: post'), sf'. rewrite <- !app_assoc in *. cbn [app] in *.
    split_and!; [done|done|done|by apply sublist_skip|by apply sublist_skip|].
    intros _. apply R6. rewrite length_app. simpl. lia.
Qed.

(** Of the stack, [fresh] are blocks up to the highest segment and [old] any
    blocks.  No [fresh] one stops the loop, so those that [recent] covers are
    lost, if there is room for all of them. *)
Lemma older_blocks_ok fuel recent maxs nb pre fresh old blocks sf :
  stack_rep sf (pre ++ fresh ++ old) -> size_ sf = nb -> nb <= NSA -> maxs < 2 ^ 29 ->
  (length pre <= length blocks)%nat -> (length (fresh ++ old) < fuel)%nat ->
  Forall (fun b => 0 <= fst b /\ 0 <= snd b <= maxs + 1) fresh -> -1 <= maxs ->
  exists new new_old fresh' old' sf',
    older_blocks fuel recent maxs nb (Z.of_nat (length pre)) blocks sf =
      Ok (blocks ++ new ++ new_old, sf') /\
    stack_rep sf' (pre ++ fresh' ++ old') /\ size_ sf' = nb /\
    (fresh' `sublist_of` fresh /\ old' `sublist_of` old) /\
    (new `sublist_of` fresh' /\ new_old `sublist_of` old') /\
    (Z.of_nat (length blocks + length fresh) <= nb -> Forall (fun b => ~ covered_by recent b) fresh') /\
    (Z.of_nat (length blocks) <= nb -> Z.of_nat (length (blocks ++ new ++ new_old)) <= nb).
Proof.
  revert pre fresh blocks sf. induction fuel as [|fuel IH];
    intros pre fresh blocks sf Hs Hsz Hnb Hm Hpre Hf Hfresh Hm0; [lia|].
  destruct fresh as [|[l r] fresh].
  { destruct (older_blocks_any (S fuel) recent maxs nb pre old blocks sf)
      as (new & old' & sf' & E & R1 & R2 & R3 & R4 & R5); try done.
    by exists [], new, [], old', sf'. }
  cbn [older_blocks]. destruct (Z.ltb_spec (Z.of_nat (length blocks)) nb) as [Hlt|Hge].
  2:{ exists [], [], ((l, r) :: fresh), old, sf. rewrite !app_nil_r.
      split_and!; try done; [apply sublist_nil_l..|]. intros Hl. simpl in Hl. lia. }
  rewrite (arr_get _ _ _ _ (sr_cells _ _ Hs)) by lia. cbn [rbind].
  unfold stack_fn. rewrite Nat2Z.id, <- app_comm_cons, list_lookup_middle by done.
  cbn [default from_option id].
  apply Forall_cons in Hfresh as [[Hl Hr] Hfresh]. cbn [fst snd] in *.
  rewrite (proj2 (Z.ltb_ge l 0)), (proj2 (Z.ltb_ge r 0)), wrap_small by lia.
  rewrite (proj2 (Z.ltb_ge _ r)) by lia. cbn [orb]. simpl in Hf.
  destruct (Z.leb_spec (fst recent) l) as [Hc1|Hc1], (Z.leb_spec r (snd recent)) as [Hc2|Hc2]; cbn [andb].
  { (* covered *)
    destruct (stack_pop_ok sf _ (Z.of_nat (length pre)) Hs) as (sf1 & -> & Hs1 & Hz1).
    { rewrite (sr_cnt _ _ Hs), length_app. simpl. lia. }
    rewrite Nat2Z.id, <- app_comm_cons, delete_middle in Hs1. cbn [rbind].
    destruct (IH pre fresh blocks sf1) as (new & new' & fresh' & old' & sf' & -> & R1 & R2 & [R3 R3'] & R4 & R5 & R6);
      try (done || lia). exists new, new', fresh', old', sf'. split_and!; try done; [by apply sublist_cons|..].
    all: try apply R4. intros Hn. apply R5. simpl in Hn. lia. }
  all: unfold put_block; rewrite (proj2 (Z.ltb_ge _ _)) by lia; cbn [rbind];
    destruct (IH (pre ++ [(l, r)]) fresh (blocks ++ [(l, r)]) sf) as
      (new & new' & fresh' & old' & sf' & E & R1 & R2 & [R3 R3'] & [R4 R4'] & R5 & R6);
      rewrite ?length_app, <- ?app_assoc; try (done || (simpl; rewrite ?length_app in *; lia));
    rewrite length_app, Nat2Z.inj_add in E; cbn [length] in E; change (Z.of_nat 1) with 1 in E;
    rewrite E; exists ((l, r) :: new), new', ((l, r) :: fresh'), old', sf';
    rewrite <- !app_assoc in *; cbn [app] in *;
    (split_and!; [done|done|done|by apply sublist_skip|done|by apply sublist_skip|done| |]);
    [intros Hn; constructor; [unfold covered_by; cbn; lia|apply R5; rewrite length_app; simpl in *; lia]
    |intros _; apply R6; rewrite length_app; simpl; lia].
Qed.

(** ** The acknowledgment *)

(** A block of received segments strictly above [p]. *)
Definition run_above (p : Z) got a (b : Z * Z) : Prop :=
  p < fst b < snd b /\ snd b <= maxseen_ a + 1 /\ forall i, fst b <= i < snd b -> got i <> 0.

(** The longest run of received segments around [seq]. *)
Definition run_around got (seq : Z) (b : Z * Z) : Prop :=
  fst b <= seq < snd b /\ got (fst b - 1) = 0 /\ got (snd b) = 0.

(** The blocks reported before the last reset of the sink, and all that have
    been. *)
Record reports := mkReports { before_reset : list (Z * Z); all_reports : list (Z * Z) }.

Definition no_reports : reports := mkReports [] [].
Definition reported (blocks : list (Z * Z)) (R : reports) : reports :=
  mkReports (before_reset R) (all_reports R ++ blocks).
Definition after_reset (R : reports) : reports := mkReports (all_reports R) (all_reports R).

(** Blocks whose first ones are runs above [p], the others having been
    reported before the last reset. *)
Definition runs_then_old (O : list (Z * Z)) p got a es : Prop :=
  exists fresh old, es = fresh ++ old /\ Forall (run_above p got a) fresh /\ Forall (.∈ O) old.

Record sacker_ok (R : reports) p got a (s : Sacker) es : Prop := {
  so_stack : stack_rep (sf_ s) es;
  so_size : size_ (sf_ s) = base_nblocks_ s;
  so_base : 0 <= base_nblocks_ s <= NSA;
  so_runs : runs_then_old (before_reset R) p got a es;
  so_reported : Forall (.∈ all_reports R) es
}.

Lemma sacker_length R p got a s es : sacker_ok R p got a s es -> Z.of_nat (length es) <= base_nblocks_ s.
Proof. intros [[_ Hn Hr] Hs _ _ _]. lia. Qed.

Lemma runs_nil O p got a : runs_then_old O p got a [].
Proof. by exists [], []. Qed.

Lemma runs_take O p got a es n : runs_then_old O p got a es -> runs_then_old O p got a (take n es).
Proof.
  intros (fresh & old & -> & H1 & H2). rewrite take_app. do 2 eexists. split; [done|].
  split; by apply Forall_take.
Qed.

Lemma runs_cons O p got a b es :
  run_above p got a b -> runs_then_old O p got a es -> runs_then_old O p got a (b :: es).
Proof. intros Hb (fresh & old & -> & H1 & H2). exists (b :: fresh), old. split_and!; [done|by constructor|done]. Qed.

Lemma Forall_reported bs blocks R : Forall (.∈ all_reports R) bs -> Forall (.∈ all_reports (reported blocks R)) bs.
Proof. intros HF. eapply Forall_impl; [exact HF|]. intros b Hb. apply elem_of_app. by left. Qed.

Lemma sublist_Forall {A} (P : A -> Prop) l l' : l' `sublist_of` l -> Forall P l -> Forall P l'.
Proof. induction 1; rewrite ?Forall_cons; naive_solver. Qed.

(** The newest run, above the cumulative acknowledgment. *)
Lemma newest_run got a old :
  acker_ok got a -> next_ a <= old <= maxseen_ a -> got old <> 0 ->
  exists r l, hole_right (Z.to_nat (maxseen_ a + 1 - old)) old a = Ok r /\
    let right := if r =? -1 then wrap_i32 (maxseen_ a + 1) else r in
    hole_left (Z.to_nat (right - 1 - Seqno a)) (right - 1) a = Ok l /\
    run_above (next_ a) got a (l, right) /\ run_around got old (l, right).
Proof.
  intros [Hc Hn Hm Hg Hh Hz] Hold Hgot.
  assert (Hne : old <> next_ a) by congruence.
  destruct (hole_right_ok (next_ a) (maxseen_ a + 1) got a (Z.to_nat (maxseen_ a + 1 - old)) old Hc)
    as (r & E & Hr & Hgr & Hzr); [lia..|]. rewrite Z2Nat.id in * by lia.
  exists r. rewrite wrap_small by lia. unfold Seqno. rewrite wrap_i32_id by (unfold in_i32; lia).
  cbn zeta in *. replace (old + (maxseen_ a + 1 - old)) with (maxseen_ a + 1) in * by lia.
  set (right := if r =? -1 then maxseen_ a + 1 else r) in *.
  assert (Hr0 : got right = 0).
  { unfold right. destruct (Z.eqb_spec r (-1)); [apply Hz; lia|by apply Hzr]. }
  assert (right <> old) by congruence.
  destruct (hole_left_ok (next_ a) (maxseen_ a + 1) got a (Z.to_nat (right - 1 - next_ a)) (right - 1) Hc)
    as (l & El & Hl & Hgl & Hzl); [lia|lia| |].
  { by replace (right - 1 - Z.of_nat (Z.to_nat (right - 1 - next_ a))) with (next_ a) by lia. }
  exists l. split; [done|]. split.
  { replace (Z.to_nat (right - 1 - (next_ a - 1))) with (S (Z.to_nat (right - 1 - next_ a))) by lia. done. }
  assert (Hlo : l <= old).
  { destruct (Z.le_gt_cases l old); [done|]. exfalso. apply (Hgr (l - 1)); [lia|done]. }
  split; [|split_and!; cbn; (done || lia)]. split; [cbn; lia|]. split; [cbn; lia|].
  intros i Hi. cbn in Hi. apply Hgl. lia.
Qed.

(** The segment [p] that filled the first hole: the runs that remain start
    above the next hole. *)
Lemma runs_past_hole p got a fresh right r :
  acker_ok got a -> cells p (maxseen_ a + 1) got a -> 0 <= p < next_ a -> p <= maxseen_ a ->
  hole_right (Z.to_nat (maxseen_ a + 1 - p)) p a = Ok r ->
  right = (if r =? -1 then wrap_i32 (maxseen_ a + 1) else r) ->
  Forall (run_above p got a) fresh -> Forall (fun b => ~ covered_by (0, right) b) fresh ->
  Forall (run_above (next_ a) got a) fresh.
Proof.
  intros [Hc Hn Hm Hg Hh Hz] Hcp Hp Hpm E Er H1 H2.
  assert (Hright : next_ a <= right).
  { destruct (hole_right_ok p (maxseen_ a + 1) got a (Z.to_nat (maxseen_ a + 1 - p)) p Hcp)
      as (r' & E2 & Hr & _ & Hz'); [lia..|]. assert (r' = r) as -> by congruence.
    rewrite Z2Nat.id in Hr by lia. rewrite wrap_small in Er by lia. cbn zeta in Hr. subst right.
    destruct (Z.eqb_spec r (-1)) as [|Hr1]; [lia|].
    destruct (Z.le_gt_cases (next_ a) r); [done|]. destruct (Hg r); [lia|by apply Hz']. }
  rewrite Forall_forall in H1, H2 |- *. intros b Hb'. destruct (H1 b Hb') as (Hl & Hr & Hi).
  specialize (H2 b Hb'). unfold covered_by in H2. cbn in H2. split; [|done].
  destruct (Z.le_gt_cases (fst b) (next_ a)); [|lia]. destruct (Hi (next_ a)); [lia|done].
Qed.

(** What [build_blocks] reports after [blocks]. *)
Definition built (R : reports) got a nblocks old (rest : list (Z * Z)) : Prop :=
  exists runs stale, rest = runs ++ stale /\ Forall (run_above (next_ a) got a) runs /\
    Forall (.∈ before_reset R) stale /\
    (next_ a <= old -> exists b tl, runs = b :: tl /\ run_around got old b) /\
    Z.of_nat (length rest) <= nblocks.

Lemma build_blocks_below fuel R p got a s es old blocks :
  acker_ok got a -> cells p (maxseen_ a + 1) got a -> 0 <= p <= next_ a ->
  sacker_ok R p got a s es -> 0 <= old <= maxseen_ a -> (3 < fuel)%nat -> old < next_ a ->
  p = next_ a \/ old = p /\ p < next_ a /\ blocks = [] ->
  Z.of_nat (length blocks) < base_nblocks_ s ->
  exists rest s' es', build_blocks fuel old blocks s a = Ok (blocks ++ rest, s') /\
    sacker_ok (reported (blocks ++ rest) R) (next_ a) got a s' es' /\
    base_nblocks_ s' = base_nblocks_ s /\
    built R got a (base_nblocks_ s - Z.of_nat (length blocks)) old rest.
Proof.
  intros Hok Hcp Hp Hs Hold Hf Hlt Hcase Hlen. pose proof (sacker_length _ _ _ _ _ _ Hs) as Hes.
  destruct Hs as [Hsr Hsz Hb (fresh & stale & -> & Hruns & Hst) Hrep]. pose proof Hok as [Hc Hn Hm _ _ _].
  rewrite length_app in Hes.
  assert (Hbnd : Forall (fun b => 0 <= fst b /\ 0 <= snd b <= maxseen_ a + 1) fresh).
  { eapply Forall_impl; [exact Hruns|]. intros b (? & ? & _). lia. }
  assert (Hseq : Seqno a = next_ a - 1) by (unfold Seqno; apply wrap_i32_id; unfold in_i32; lia).
  unfold build_blocks. rewrite Hseq, (proj2 (Z.leb_le _ _)) by lia.
  destruct (hole_right_total _ _ _ _ (Z.to_nat (maxseen_ a + 1 - old)) old Hcp) as (r & E).
  rewrite E. cbn [rbind]. set (right := if r =? -1 then _ else r).
  destruct (older_blocks_ok fuel (0, right) (maxseen_ a) (base_nblocks_ s) [] fresh stale blocks (sf_ s))
    as (new & new' & fresh' & stale' & sf' & E' & R1 & R2 & [R3 R3'] & [R4 R4'] & R5 & R6);
    try (done || (simpl; rewrite ?length_app; unfold NSA in *; lia)).
  cbn [length] in E'. change (Z.of_nat 0) with 0 in E'. rewrite E'. cbn [rbind].
  rewrite (proj2 (Z.ltb_ge _ _)) by lia. cbn [rbind].
  assert (Hruns' : Forall (run_above (next_ a) got a) fresh').
  { pose proof (sublist_Forall _ _ _ R3 Hruns) as H1. destruct Hcase as [->|(-> & _ & ->)]; [done|].
    eapply (runs_past_hole p); try done; [lia..|]. apply R5. simpl. lia. }
  apply Forall_app in Hrep as [Hrf Hrs].
  assert (Hst' : Forall (.∈ before_reset R) stale') by (by eapply sublist_Forall).
  eexists (new ++ new'), _, (fresh' ++ stale'). split; [done|]. split; [|split; [done|]].
  - constructor; cbn; [exact R1|done|done|by exists fresh', stale'|].
    apply Forall_reported, Forall_app. split; by eapply sublist_Forall.
  - exists new, new'. split_and!; [done|by eapply sublist_Forall|by eapply sublist_Forall|lia|].
    specialize (R6 ltac:(lia)). rewrite (length_app blocks) in R6. lia.
Qed.

Lemma build_blocks_above fuel R got a s es old blocks :
  acker_ok got a -> sacker_ok R (next_ a) got a s es -> next_ a <= old <= maxseen_ a ->
  got old <> 0 -> (3 < fuel)%nat -> Z.of_nat (length blocks) < base_nblocks_ s ->
  exists rest s' es', build_blocks fuel old blocks s a = Ok (blocks ++ rest, s') /\
    sacker_ok (reported (blocks ++ rest) R) (next_ a) got a s' es' /\
    base_nblocks_ s' = base_nblocks_ s /\
    built R got a (base_nblocks_ s - Z.of_nat (length blocks)) old rest.
Proof.
  intros Hok Hs Hold Hgot Hf Hlen. pose proof (sacker_length _ _ _ _ _ _ Hs) as Hes.
  destruct Hs as [Hsr Hsz Hb (fresh & stale & -> & Hruns & Hst) Hrep]. pose proof Hok as [Hc Hn Hm _ _ _].
  rewrite length_app in Hes.
  assert (Hbnd : Forall (fun b => 0 <= fst b /\ 0 <= snd b <= maxseen_ a + 1) fresh).
  { eapply Forall_impl; [exact Hruns|]. intros b (? & ? & _). lia. }
  assert (Hseq : Seqno a = next_ a - 1) by (unfold Seqno; apply wrap_i32_id; unfold in_i32; lia).
  unfold build_blocks. rewrite Hseq, (proj2 (Z.leb_gt _ _)) by lia.
  destruct (newest_run got a old Hok) as (r & l & -> & El & Hrun & Har); [lia|done|].
  cbn [rbind]. rewrite Hseq in El. set (right := if r =? -1 then _ else r) in *. cbn zeta in El.
  rewrite El. cbn [rbind]. unfold put_block. rewrite (proj2 (Z.ltb_ge _ _)) by (unfold NSA in *; lia).
  cbn [rbind].
  destruct (older_blocks_ok fuel (l, right) (maxseen_ a) (base_nblocks_ s) [] fresh stale
    (blocks ++ [(l, right)]) (sf_ s))
    as (new & new' & fresh' & stale' & sf' & E' & R1 & R2 & [R3 R3'] & [R4 R4'] & _ & R6);
    try (done || (simpl; rewrite ?length_app; unfold NSA in *; lia)).
  cbn [length] in E'. change (Z.of_nat 0) with 0 in E'. rewrite E'. cbn [rbind].
  rewrite (proj2 (Z.ltb_lt _ _)) by lia.
  destruct (stack_push_ok sf' (fresh' ++ stale') (l, right) R1) as (k1 & k' & -> & E2 & R7 & R8); [lia|].
  cbn [rbind]. rewrite E2. cbn [rbind]. apply Forall_app in Hrep as [Hrf Hrs].
  assert (Hruns' : Forall (run_above (next_ a) got a) fresh') by (by eapply sublist_Forall).
  assert (Hst' : Forall (.∈ before_reset R) stale') by (by eapply sublist_Forall).
  eexists ((l, right) :: new ++ new'), _, _. rewrite <- !app_assoc in *. split; [done|].
  split; [|split; [done|]].
  - constructor; [exact R7|cbn; congruence|done| |].
    + apply runs_cons; [done|]. apply runs_take. by exists fresh', stale'.
    + constructor; [cbn; rewrite !elem_of_app; right; right; by left|]. apply Forall_take, Forall_reported, Forall_app.
      split; by eapply sublist_Forall.
  - exists ((l, right) :: new), new'.
    split_and!; [done|constructor; [done|by eapply sublist_Forall]|by eapply sublist_Forall|by eexists _, _|].
    specialize (R6 ltac:(rewrite length_app; simpl; lia)). rewrite (length_app blocks) in R6. cbn in R6 |- *. lia.
Qed.

(** The blocks of an acknowledgment of segment [old]: maybe one that reports a
    duplicate; then runs above the cumulative acknowledgment, the first of
    them around [old] if that segment is above it; and last some blocks that
    were reported before the last reset. *)
Definition ack_blocks (R : reports) (dup : bool) got a (nblocks old : Z) (blocks : list (Z * Z)) : Prop :=
  Z.of_nat (length blocks) <= nblocks /\
  exists dsack runs stale, blocks = dsack ++ runs ++ stale /\
    (dsack = [] \/ dsack = [(old, old + 1)] /\ dup = true) /\
    Forall (run_above (next_ a) got a) runs /\ Forall (.∈ before_reset R) stale /\
    (next_ a <= old -> (if dup then 1 else 0) < nblocks ->
     dsack = (if dup then [(old, old + 1)] else []) /\
     exists b tl, runs = b :: tl /\ run_around got old b).

Lemma no_blocks R dup got a nblocks old :
  0 <= nblocks -> nblocks = 0 \/ old < next_ a -> ack_blocks R dup got a nblocks old [].
Proof.
  intros H0 H1. split; [done|]. exists [], [], [].
  split; [done|]. split; [by left|]. split; [constructor|]. split; [constructor|].
  intros. exfalso. destruct dup; lia.
Qed.

Lemma sacker_reported R p got a s es blocks :
  sacker_ok R p got a s es -> sacker_ok (reported blocks R) p got a s es.
Proof. intros [H1 H2 H3 H4 H5]. constructor; try done. by apply Forall_reported. Qed.

Lemma sacker_empty R p got a s :
  stack_rep (sf_ s) [] -> size_ (sf_ s) = base_nblocks_ s -> 0 <= base_nblocks_ s <= NSA ->
  sacker_ok R p got a s [].
Proof. intros. constructor; try done. apply runs_nil. Qed.

(** Nothing to report, or no room: the stack is empty. *)
Lemma append_ack_quiet k es a dup nb seqno :
  stack_rep k es -> Z.of_nat (length es) <= nb ->
  (maxseen_ a <=? seqno) && negb (cnt_ k =? 0) = false ->
  ((seqno <? maxseen_ a) || dup) && (0 <? nb) = false ->
  es = [] /\ (nb <= 0 \/ maxseen_ a <= seqno).
Proof.
  intros Hsr Hes E1 E2. apply andb_false_iff in E2 as [E2|E2%Z.ltb_ge].
  - apply orb_false_iff in E2 as [E2%Z.ltb_ge _].
    apply andb_false_iff in E1 as [E1%Z.leb_gt|E1]; [lia|].
    apply negb_false_iff, Z.eqb_eq in E1. rewrite (sr_cnt _ _ Hsr) in E1.
    split; [destruct es; [done|simpl in E1; lia]|by right].
  - split; [destruct es; [done|simpl in Hes; lia]|by left].
Qed.

Lemma append_ack_ok fuel dsacks R p got a s es old :
  acker_ok got a -> cells p (maxseen_ a + 1) got a -> 0 <= p <= next_ a ->
  sacker_ok R p got a s es -> 0 <= old <= maxseen_ a -> got old <> 0 -> (3 < fuel)%nat ->
  p = next_ a \/ old = p /\ p < next_ a /\ is_dup_ a = false ->
  exists blocks s' es', append_ack fuel dsacks old s a = Ok (blocks, s') /\
    sacker_ok (reported blocks R) (next_ a) got a s' es' /\ base_nblocks_ s' = base_nblocks_ s /\
    ack_blocks R (dsacks && is_dup_ a) got a (base_nblocks_ s) old blocks.
Proof.
  intros Hok Hcp Hp Hs Hold Hgot Hf Hcase. pose proof (sacker_length _ _ _ _ _ _ Hs) as Hes.
  pose proof Hs as [Hsr Hsz Hb _ _]. pose proof Hok as [Hc Hn Hm Hg Hh Hz].
  assert (Hseq : Seqno a = next_ a - 1) by (unfold Seqno; apply wrap_i32_id; unfold in_i32; lia).
  assert (Hne : old <> next_ a) by congruence.
  unfold append_ack. rewrite Hseq, (proj2 (Z.ltb_ge old 0)) by lia.
  destruct ((maxseen_ a <=? next_ a - 1) && negb (cnt_ (sf_ s) =? 0)) eqn:E1.
  { (* all has been received: the stack is cleared *)
    apply andb_prop in E1 as [E1%Z.leb_le _].
    destruct (stack_reset_ok _ _ Hsr) as (k & -> & Hk & Hks). cbn [rbind].
    eexists [], _, []. split; [done|]. split; [apply sacker_empty; cbn; (done || congruence)|]. split; [done|].
    apply no_blocks; [lia|right; lia]. }
  destruct (((next_ a - 1 <? maxseen_ a) || is_dup_ a) && (0 <? base_nblocks_ s)) eqn:E2.
  2: { destruct (append_ack_quiet _ _ _ _ _ _ Hsr Hes E1 E2) as [-> H1].
       exists [], s, []. split; [done|]. split; [by apply sacker_empty|]. split; [done|].
       apply no_blocks; lia. }
  apply andb_prop in E2 as [_ E2%Z.ltb_lt].
  set (d := dsacks && is_dup_ a). set (B := if d then [(old, old + 1)] else []).
  assert (EB : (if d then put_block (old, wrap_i32 (old + 1)) [] else Ok []) = Ok B)
    by (unfold B; destruct d; [by rewrite wrap_small by lia|done]).
  rewrite EB. cbn [rbind].
  assert (HB : B = [] \/ B = [(old, old + 1)] /\ d = true)
    by (unfold B; destruct d; [by right|by left]).
  assert (Hlen : Z.of_nat (length B) = if d then 1 else 0) by (unfold B; by destruct d).
  assert (Hd : d = true -> p = next_ a).
  { intros Ed. destruct Hcase as [|(_ & _ & Hdup)]; [done|].
    unfold d in Ed. by rewrite Hdup, andb_false_r in Ed. }
  destruct (Z.leb_spec (base_nblocks_ s) (Z.of_nat (length B))) as [Hle|Hgt].
  - (* one block, and that for the duplicate *)
    assert (Ed : d = true) by (destruct d; [done|lia]). rewrite (Hd Ed) in Hs.
    exists B, s, es. split; [done|]. split; [by apply sacker_reported|]. split; [done|].
    split; [destruct d; lia|]. exists B, [], []. rewrite app_nil_r. split_and!; try done. lia.
  - assert (Hbuilt : exists rest s' es', build_blocks fuel old B s a = Ok (B ++ rest, s') /\
      sacker_ok (reported (B ++ rest) R) (next_ a) got a s' es' /\ base_nblocks_ s' = base_nblocks_ s /\
      built R got a (base_nblocks_ s - Z.of_nat (length B)) old rest).
    { destruct (Z.lt_ge_cases old (next_ a)).
      - apply (build_blocks_below fuel R p got a s es); try (done || lia).
        destruct Hcase as [|(-> & ? & Hdup)]; [by left|right].
        split_and!; try done. unfold B, d. by rewrite Hdup, andb_false_r.
      - apply (build_blocks_above fuel R got a s es); try done; [|lia].
        destruct Hcase as [<-|(-> & ? & _)]; [done|lia]. }
    destruct Hbuilt as (rest & s' & es' & E & H1 & H2 & runs & stale & -> & H3 & H4 & H5 & H6).
    exists (B ++ runs ++ stale), s', es'. split; [done|]. split; [done|]. split; [done|].
    split; [rewrite length_app; lia|]. exists B, runs, stale. split_and!; auto.
Qed.
