(* ===== verification/TcpSink.v ===== *)
(** * The TCP sink (tcp/tcp-sink.h, tcp/tcp-sink.cc)

    [TcpSink] acknowledges every segment; [DelAckSink] delays the
    acknowledgment of a segment that comes in order until the next segment or
    until a timer expires.  Of a packet, the fields of the headers that the
    sink reads are kept; what leaves the sink is a list of actions. *)

From stdpp Require Import base numbers list.
From Stdlib Require Import ZArith Lia Bool.
From S2P Require Import Prelude.
From S2P Require Import Float64.
From S2P Require Import EventQueue.
From S2P Require Import Scheduler.
From S2P Require Import Timer.
From S2P Require Import Acker.

Open Scope Z_scope.

(** The packet at [pkt] and the fields of its headers: common, IP, TCP,
    flags and Quick-Start. *)
Record segment := mkSegment {
  pkt : positive;
  sg_size : Z;
  sg_flowid : Z;
  sg_ttl : Z;
  sg_seqno : Z;
  sg_ts : f64;
  sg_ect : Z;
  sg_ce : Z;
  sg_ecnecho : Z;
  sg_cong_action : Z;
  sg_qs_flag : Z;
  sg_qs_ttl : Z;
  sg_qs_rate : Z
}.

(** The fields of an acknowledgment that the sink sets, the others being
    those of a new packet. *)
Record ack_pkt := mkAck {
  ak_size : Z;
  ak_flowid : Z;
  ak_seqno : Z;
  ak_ts : f64;
  ak_ts_echo : f64;
  ak_ect : Z;
  ak_ecnecho : Z;
  ak_qs : option (Z * Z * Z);
  ak_sacks : list (Z * Z)
}.

(** The enumeration [QS_STATE]. *)
Definition QS_DISABLE : Z := 0.
Definition QS_REQUEST : Z := 1.
Definition QS_RESPONSE : Z := 2.

Variant sink_act :=
  | RecvBytes (n : Z)
  | SendAck (a : ack_pkt)
  | FreePkt (p : positive).

Record TcpSink := mkTcpSink {
  acker_ : Acker;
  sacker_ : option Sacker;
  ts_echo_bugfix_ : bool;
  ts_echo_rfc1323_ : bool;
  save_ : option segment;
  generate_dsacks_ : bool;
  qs_enabled_ : bool;
  RFC2581_immediate_ack_ : bool;
  SYN_immediate_ack_ : bool;
  bytes_ : Z;
  lastreset_ : f64;
  ecn_syn_ : bool;
  sink_size_ : Z
}.

Definition set_acker a (k : TcpSink) : TcpSink :=
  mkTcpSink a (sacker_ k) (ts_echo_bugfix_ k) (ts_echo_rfc1323_ k) (save_ k) (generate_dsacks_ k)
    (qs_enabled_ k) (RFC2581_immediate_ack_ k) (SYN_immediate_ack_ k) (bytes_ k) (lastreset_ k)
    (ecn_syn_ k) (sink_size_ k).
Definition set_sacker s (k : TcpSink) : TcpSink :=
  mkTcpSink (acker_ k) s (ts_echo_bugfix_ k) (ts_echo_rfc1323_ k) (save_ k) (generate_dsacks_ k)
    (qs_enabled_ k) (RFC2581_immediate_ack_ k) (SYN_immediate_ack_ k) (bytes_ k) (lastreset_ k)
    (ecn_syn_ k) (sink_size_ k).
Definition set_save x (k : TcpSink) : TcpSink :=
  mkTcpSink (acker_ k) (sacker_ k) (ts_echo_bugfix_ k) (ts_echo_rfc1323_ k) x (generate_dsacks_ k)
    (qs_enabled_ k) (RFC2581_immediate_ack_ k) (SYN_immediate_ack_ k) (bytes_ k) (lastreset_ k)
    (ecn_syn_ k) (sink_size_ k).
Definition set_bytes x (k : TcpSink) : TcpSink :=
  mkTcpSink (acker_ k) (sacker_ k) (ts_echo_bugfix_ k) (ts_echo_rfc1323_ k) (save_ k)
    (generate_dsacks_ k) (qs_enabled_ k) (RFC2581_immediate_ack_ k) (SYN_immediate_ack_ k) x
    (lastreset_ k) (ecn_syn_ k) (sink_size_ k).
Definition set_lastreset x (k : TcpSink) : TcpSink :=
  mkTcpSink (acker_ k) (sacker_ k) (ts_echo_bugfix_ k) (ts_echo_rfc1323_ k) (save_ k)
    (generate_dsacks_ k) (qs_enabled_ k) (RFC2581_immediate_ack_ k) (SYN_immediate_ack_ k)
    (bytes_ k) x (ecn_syn_ k) (sink_size_ k).

Definition nonzero (x : Z) : bool := negb (x =? 0).

(** The Quick-Start answer. *)
Definition qs_answer (o : segment) : Z * Z * Z :=
  if (sg_seqno o =? 0) && (sg_qs_flag o =? QS_REQUEST)
  then (QS_RESPONSE, Z.rem (wrap_i32 (sg_ttl o - sg_qs_ttl o)) 256, sg_qs_rate o)
  else (QS_DISABLE, 0, 0).

(** Some packet of the delayed one, if any, and the one that came. *)
Definition either (save : option segment) (o : segment) (f : segment -> bool) : bool :=
  match save with Some s => f s | None => false end || f o.

(** What the congestion bits of the packets make of [ecn_unacked_]. *)
Definition ecn_state (save : option segment) (o : segment) (a : Acker) : Acker :=
  let a := if either save o (fun s => nonzero (sg_cong_action s)) then update_ecn_unacked 0 a else a in
  if either save o (fun s => nonzero (sg_ect s) && nonzero (sg_ce s)) then update_ecn_unacked 1 a else a.

(** The two congestion bits of the acknowledgment: [ect] and [ecnecho]. *)
Definition ecn_bits (save : option segment) (o : segment) (ecn_syn : bool) (a : Acker) : Z * Z :=
  let echo := if either save o (fun s => nonzero (sg_ect s)) then ecn_unacked_ a mod 256 else 0 in
  if either save o (fun s => negb (nonzero (sg_ect s)) && nonzero (sg_ecnecho s))
  then (if ecn_syn then 1 else 0, 1)
  else (0, echo).

(** [acker_->append_ack (...)], which only a [Sacker] redefines. *)
Definition sink_append_ack (fuel : nat) (old_seqno : Z) (a : Acker) (k : TcpSink)
    : result (list (Z * Z) * option Sacker) :=
  match sacker_ k with
  | None => Ok ([], None)
  | Some s =>
      let! '(blocks, s) := append_ack fuel (generate_dsacks_ k) old_seqno s a in
      Ok (blocks, Some s)
  end.

(** [ack (opkt)]: the acknowledgment sent. *)
Definition ack (now : f64) (fuel : nat) (o : segment) (k : TcpSink) : result (TcpSink * ack_pkt) :=
  let a := acker_ k in
  let seqno := Seqno a in
  let echo := if ts_echo_bugfix_ k then ts_to_echo_ a else sg_ts o in
  let a := ecn_state (save_ k) o a in
  let '(ect, ecnecho) := ecn_bits (save_ k) o (ecn_syn_ k) a in
  let! '(blocks, s) := sink_append_ack fuel (sg_seqno o) a k in
  let a := set_last_ack_sent seqno a in
  Ok (set_sacker s (set_acker a k),
      mkAck (sink_size_ k + 8 * Z.of_nat (length blocks)) (sg_flowid o) seqno now echo ect ecnecho
        (if qs_enabled_ k then Some (qs_answer o) else None) blocks).

(** A packet of a previous incarnation. *)
Definition stale (o : segment) (k : TcpSink) : bool := flt (sg_ts o) (lastreset_ k).

(** What both sinks do first with a packet: the receive window is updated and
    the bytes in order go to the application. *)
Definition take_segment (fuel : nat) (o : segment) (k : TcpSink) : result (TcpSink * list sink_act) :=
  let a := update_ts (sg_seqno o) (sg_ts o) (ts_echo_rfc1323_ k) (acker_ k) in
  let! '(a, n) := update fuel (sg_seqno o) (sg_size o) a in
  let k := set_acker a k in
  if nonzero n then Ok (set_bytes (wrap_i32 (bytes_ k + n)) k, [RecvBytes n]) else Ok (k, []).

Definition TcpSink_recv (now : f64) (fuel : nat) (o : segment) (k : TcpSink)
    : result (TcpSink * list sink_act) :=
  if stale o k then Ok (k, [FreePkt (pkt o)])
  else
    let! '(k, acts) := take_segment fuel o k in
    let! '(k, p) := ack now fuel o k in
    Ok (k, acts ++ [SendAck p; FreePkt (pkt o)]).

(** [acker_->reset ()]: [Acker::reset] is not virtual, so that of a [Sacker]
    too it is [acker_reset] and not [sacker_reset]: the stack of blocks stays. *)
Definition sink_acker_reset (k : TcpSink) : result TcpSink :=
  let! a := acker_reset (acker_ k) in Ok (set_acker a k).

Definition TcpSink_reset (now : f64) (k : TcpSink) : result TcpSink :=
  let! k := sink_acker_reset k in
  Ok (set_lastreset now (set_save None k)).

(** ** Delayed acknowledgments *)

Record DelAckSink := mkDelAckSink {
  sink : TcpSink;
  interval_ : f64;
  delay_timer_ : TimerHandler
}.

Section delack.
Context {Q : Type} `{EventQueue Q}.
Implicit Types (d : DelAckSink) (s : sched Q).

Definition with_timer t k d : DelAckSink := mkDelAckSink k (interval_ d) t.

Definition timer_pending d : bool := bool_decide (status_ (delay_timer_ d) = TIMER_PENDING).

(** Whether the acknowledgment of a packet just taken may wait. *)
Definition may_delay (o : segment) (pending : bool) (k : TcpSink) : bool :=
  negb pending && (sg_seqno o =? Seqno (acker_ k)) &&
  negb (RFC2581_immediate_ack_ k && (sg_seqno o <? maxseen_ (acker_ k))) &&
  negb (SYN_immediate_ack_ k && (sg_seqno o =? 0)).

Definition DelAckSink_recv (fuel : nat) (o : segment) d s
    : result (DelAckSink * sched Q * list sink_act) :=
  if stale o (sink d) then Ok (d, s, [FreePkt (pkt o)])
  else
    let! '(k, acts) := take_segment fuel o (sink d) in
    if may_delay o (timer_pending d) k then
      let! '(t, s) := timer_resched fuel (interval_ d) (delay_timer_ d) s in
      Ok (with_timer t (set_save (Some o) k) d, s, acts)
    else
      let! '(t, s) := if timer_pending d then timer_cancel fuel (delay_timer_ d) s
                      else Ok (delay_timer_ d, s) in
      let! '(k, p) := ack (clock_ s) fuel o k in
      let '(k, frees) := match save_ k with
                         | Some q => (set_save None k, [FreePkt (pkt q)])
                         | None => (k, [])
                         end in
      Ok (with_timer t k d, s, acts ++ SendAck p :: frees ++ [FreePkt (pkt o)]).

(** [timeout (0)] *)
Definition timeout (now : f64) (fuel : nat) d : result (DelAckSink * list sink_act) :=
  match save_ (sink d) with
  | None => Ok (d, [])
  | Some q =>
      let! '(k, p) := ack now fuel q (sink d) in
      Ok (with_timer (delay_timer_ d) (set_save None k) d, [SendAck p; FreePkt (pkt q)])
  end.

(** The event of the timer is dispatched: [DelayTimer::expire] only calls
    [timeout], which does not touch the timer. *)
Definition delay_timer_handle (fuel : nat) d s : result (DelAckSink * sched Q * list sink_act) :=
  let! '(t, s) := timer_handle fuel [] (delay_timer_ d) s in
  let! '(d, acts) := timeout (clock_ s) fuel d in
  Ok (with_timer t (sink d) d, s, acts).

Definition DelAckSink_reset (fuel : nat) d s : result (DelAckSink * sched Q) :=
  let! '(t, s) := if timer_pending d then timer_cancel fuel (delay_timer_ d) s
                  else Ok (delay_timer_ d, s) in
  let! k := TcpSink_reset (clock_ s) (sink d) in
  Ok (with_timer t k d, s).
End delack.
