(* ===== verification/TcpSinkProps.v ===== *)
(** * The TCP sink: invariant

    [sink_ok R got k es]: the window and the stack of blocks of [k] are sound,
    the blocks [R] having been reported so far.
    Taking a segment and sending an acknowledgment keep it; what they send is
    read off [got]. *)

From stdpp Require Import base numbers list.
From Stdlib Require Import ZArith Lia Bool.
From S2P Require Import Prelude.
From S2P Require Import Float64.
From S2P Require Import Array.
From S2P Require Import EventQueue.
From S2P Require Import Scheduler.
From S2P Require Import Timer.
From S2P Require Import Acker.
From S2P Require Import AckerProps.
From S2P Require Import SackProps.
From S2P Require Import TcpSink.

Open Scope Z_scope.
Implicit Types (a : Acker) (k : TcpSink) (o : segment) (got : Z -> Z).

(** ** The window *)

(** The fields of the window are the same. *)
Definition same_window a a' : Prop :=
  next_ a' = next_ a /\ maxseen_ a' = maxseen_ a /\ wndmask_ a' = wndmask_ a /\ seen_ a' = seen_ a.

Lemma cells_same lo hi got a a' : same_window a a' -> cells lo hi got a -> cells lo hi got a'.
Proof. intros (_ & _ & Ew & El) (k & f & Hr). exists k, f. by rewrite Ew, El. Qed.

Lemma acker_ok_same got a a' : same_window a a' -> acker_ok got a -> acker_ok got a'.
Proof.
  intros Hw [Hc Hn Hm Hg Hh Hz]. pose proof Hw as (En & Em & _).
  constructor; rewrite ?En, ?Em; try done. by eapply cells_same.
Qed.

Lemma run_above_mono p got got' a a' b :
  run_above p got a b -> (forall i, got i <> 0 -> got' i <> 0) -> maxseen_ a <= maxseen_ a' ->
  run_above p got' a' b.
Proof. intros (H1 & H2 & H3) Hg Hm. split; [done|]. split; [lia|]. auto. Qed.

Lemma sacker_mono R p got got' a a' s es :
  sacker_ok R p got a s es -> (forall i, got i <> 0 -> got' i <> 0) -> maxseen_ a <= maxseen_ a' ->
  sacker_ok R p got' a' s es.
Proof.
  intros [H1 H2 H3 (fresh & old & -> & H4 & H5) H6] Hg Hm. constructor; try done.
  exists fresh, old. split_and!; try done. eapply Forall_impl; [exact H4|].
  intros b Hb. by eapply run_above_mono.
Qed.

(** A run above [p] does not start at the next segment, which is missing. *)
Lemma runs_advance R p got a s es :
  sacker_ok R p got a s es -> got (next_ a) = 0 -> next_ a <= p + 1 ->
  sacker_ok R (next_ a) got a s es.
Proof.
  intros [H1 H2 H3 (fresh & old & -> & H4 & H5) H6] Hz Hn. constructor; try done.
  exists fresh, old. split_and!; try done. eapply Forall_impl; [exact H4|].
  intros b (Hl & Hr & Hi). split; [|done].
  assert (fst b <> next_ a); [|lia]. intros E. destruct (Hi (fst b)); [lia|congruence].
Qed.

(** [p] is a number below which the blocks of the stack may start. *)
Definition blocks_ok (R : reports) (p : Z) got k es : Prop :=
  match sacker_ k with
  | None => es = []
  | Some s => sacker_ok R p got (acker_ k) s es
  end.

Record sink_ok (R : reports) got k es : Prop := {
  sk_acker : acker_ok got (acker_ k);
  sk_blocks : blocks_ok R (next_ (acker_ k)) got k es
}.

(** The part of the sink that is set up once. *)
Definition same_setup k k' : Prop :=
  ts_echo_rfc1323_ k' = ts_echo_rfc1323_ k /\ generate_dsacks_ k' = generate_dsacks_ k /\
  lastreset_ k' = lastreset_ k /\
  base_nblocks_ <$> sacker_ k' = base_nblocks_ <$> sacker_ k.

Lemma setup_trans k1 k2 k3 : same_setup k1 k2 -> same_setup k2 k3 -> same_setup k1 k3.
Proof. intros (H1 & H2 & H3 & H4) (H5 & H6 & H7 & H8). by split_and!; etransitivity. Qed.

(** ** Taking a segment *)

(** Enough fuel for the numbers below [N]. *)
Definition enough (N : Z) (fuel : nat) : Prop := 0 <= N <= 2 ^ 29 /\ N + 25 <= Z.of_nat fuel.

(** A segment below [N] that is not empty. *)
Definition in_window (N : Z) o : Prop := 0 <= sg_seqno o < N /\ sg_size o <> 0.

Lemma record_seg_mono seq b a got : b <> 0 -> forall i, got i <> 0 -> record_seg seq b a got i <> 0.
Proof. unfold record_seg, upd. intros Hb i Hi. by repeat case_match. Qed.

Lemma update_ts_window seq ts r a : same_window a (update_ts seq ts r a).
Proof. unfold update_ts. by repeat case_match. Qed.

(** The bytes a segment makes deliverable. *)
Definition delivered got' a a' : Z := wrap_i32 (sum_range got' (next_ a) (next_ a')).

Lemma take_segment_ok N fuel o R got k es :
  sink_ok R got k es -> enough N fuel -> in_window N o -> maxseen_ (acker_ k) < Z.max 1 N ->
  exists k' acts, take_segment fuel o k = Ok (k', acts) /\
    let got' := record_seg (sg_seqno o) (sg_size o) (acker_ k) got in
    let a' := acker_ k' in
    let n := delivered got' (acker_ k) a' in
    acker_ok got' a' /\ cells (next_ (acker_ k)) (maxseen_ a' + 1) got' a' /\
    blocks_ok R (next_ (acker_ k)) got' k' es /\
    next_ (acker_ k) <= next_ a' /\ maxseen_ a' = Z.max (maxseen_ (acker_ k)) (sg_seqno o) /\
    (sg_seqno o <> next_ (acker_ k) -> next_ a' = next_ (acker_ k)) /\
    is_dup_ a' = negb (got (sg_seqno o) =? 0) /\
    acts = (if n =? 0 then [] else [RecvBytes n]) /\
    bytes_ k' = (if n =? 0 then bytes_ k else wrap_i32 (bytes_ k + n)) /\
    same_setup k k' /\ save_ k' = save_ k.
Proof.
  intros [Hok Hb] [HN Hf] [Hs Hsz] Hm. set (a0 := update_ts (sg_seqno o) (sg_ts o) (ts_echo_rfc1323_ k) (acker_ k)).
  pose proof (update_ts_window (sg_seqno o) (sg_ts o) (ts_echo_rfc1323_ k) (acker_ k)) as Hw.
  fold a0 in Hw. pose proof Hw as (En & Em & _).
  destruct (update_ok fuel (sg_seqno o) (sg_size o) got a0) as (a' & n & E & Hok' & Hc' & Hm' & Hn' & Hne & -> & Hd).
  1: by eapply acker_ok_same. 1: lia. 1: lia. 1: destruct Hok; rewrite En, Em; lia.
  unfold record_seg in *. rewrite En, Em in *.
  unfold take_segment. fold a0. rewrite E. cbn [rbind].
  set (got' := if _ <=? _ then _ else _) in *. fold (delivered got' (acker_ k) a').
  assert (Hb' : forall k', acker_ k' = a' -> sacker_ k' = sacker_ k ->
    blocks_ok R (next_ (acker_ k)) got' k' es).
  { unfold blocks_ok in *. intros k' -> ->. destruct (sacker_ k) as [s|]; [|done].
    eapply sacker_mono; [exact Hb| |lia]. by apply (record_seg_mono _ _ (acker_ k)). }
  assert (Hd' : is_dup_ a' = negb (got (sg_seqno o) =? 0)).
  { rewrite Hd. destruct (Z.ltb_spec (sg_seqno o) (next_ (acker_ k))) as [Hlt|]; [|done].
    destruct (Z.eqb_spec (got (sg_seqno o)) 0) as [H0|]; [|done].
    exfalso. apply (ao_got _ _ Hok (sg_seqno o)); [lia|done]. }
  unfold nonzero. destruct (delivered got' (acker_ k) a' =? 0) eqn:E0; cbn [negb];
    eexists _, _; (split; [done|]); cbn [acker_ set_acker set_bytes bytes_ save_];
    rewrite E0; split_and!; try done; by apply Hb'.
Qed.

(** ** Acknowledging *)

Lemma ecn_state_window save o a : same_window a (ecn_state save o a).
Proof. unfold ecn_state. by repeat case_match. Qed.

Lemma ecn_state_dup save o a : is_dup_ (ecn_state save o a) = is_dup_ a.
Proof. unfold ecn_state. by repeat case_match. Qed.

(** The blocks of the acknowledgment [p] of segment [old]. *)
Definition sack_right (R : reports) got k old (p : ack_pkt) : Prop :=
  match sacker_ k with
  | None => ak_sacks p = []
  | Some s => ack_blocks R (generate_dsacks_ k && is_dup_ (acker_ k)) got (acker_ k) (base_nblocks_ s) old
                (ak_sacks p)
  end.

Lemma ack_ok now fuel o R got k es q :
  acker_ok got (acker_ k) -> cells q (maxseen_ (acker_ k) + 1) got (acker_ k) ->
  0 <= q <= next_ (acker_ k) -> blocks_ok R q got k es -> (3 < fuel)%nat ->
  0 <= sg_seqno o <= maxseen_ (acker_ k) -> got (sg_seqno o) <> 0 ->
  q = next_ (acker_ k) \/ sg_seqno o = q /\ q < next_ (acker_ k) /\ is_dup_ (acker_ k) = false ->
  exists k' p es', ack now fuel o k = Ok (k', p) /\
    sink_ok (reported (ak_sacks p) R) got k' es' /\
    same_window (acker_ k) (acker_ k') /\ same_setup k k' /\ save_ k' = save_ k /\ bytes_ k' = bytes_ k /\
    last_ack_sent_ (acker_ k') = ak_seqno p /\ ak_seqno p = next_ (acker_ k) - 1 /\
    ak_ts p = now /\ sack_right R got k (sg_seqno o) p.
Proof.
  intros Hok Hc Hq Hb Hf Ho Hg Hcase. pose proof (ecn_state_window (save_ k) o (acker_ k)) as Hw.
  assert (Hseq : Seqno (acker_ k) = next_ (acker_ k) - 1).
  { unfold Seqno. destruct Hok. apply wrap_i32_id. unfold in_i32. lia. }
  unfold ack. set (a1 := ecn_state _ _ _) in *. pose proof Hw as (En & Em & _).
  destruct (ecn_bits _ _ _ _) as [ect ecnecho]. unfold sink_append_ack, blocks_ok in *.
  assert (Hok1 : acker_ok got a1) by (by eapply acker_ok_same).
  assert (Hdup : is_dup_ a1 = is_dup_ (acker_ k)) by apply ecn_state_dup.
  assert (Hw' : same_window (acker_ k) (set_last_ack_sent (Seqno (acker_ k)) a1)) by done.
  destruct (sacker_ k) as [s|] eqn:Es.
  - destruct (append_ack_ok fuel (generate_dsacks_ k) R q got a1 s es (sg_seqno o)) as
      (blocks & s' & es' & -> & Hs' & Hbase & Hbl); rewrite ?En, ?Em, ?Hdup; try done.
    { by eapply cells_same. }
    { eapply sacker_mono; [exact Hb|done|lia]. }
    cbn [rbind]. eexists _, _, es'. split; [done|]. split_and!; try done.
    + constructor; cbn; [by eapply acker_ok_same|]. unfold blocks_ok. cbn.
      eapply sacker_mono; [exact Hs'|done|cbn; lia].
    + unfold same_setup. rewrite Es. simpl. by rewrite Hbase.
    + unfold sack_right. rewrite Es. cbn. rewrite Hdup in Hbl. unfold ack_blocks in *.
      rewrite En in Hbl. destruct Hbl as (H1 & d & r & st & H2 & H3 & H4 & H5 & H6).
      split; [done|]. exists d, r, st. split_and!; try done. eapply Forall_impl; [exact H4|].
      intros b Hb'. eapply run_above_mono; [exact Hb'|done|lia].
  - cbn [rbind]. eexists _, _, []. split; [done|]. split_and!; try done.
    + constructor; cbn; [by eapply acker_ok_same|done].
    + unfold same_setup. by rewrite Es.
    + unfold sack_right. by rewrite Es.
Qed.

(** ** Against the history *)

(** [S] are the numbers of the segments that have come. *)
Definition knows got (S : list Z) : Prop := forall i, got i <> 0 <-> i ∈ S.

(** Every segment up to [n] has come, and the next one has not. *)
Definition cumulative (S : list Z) (n : Z) : Prop :=
  -1 <= n /\ (forall i, 0 <= i <= n -> i ∈ S) /\ n + 1 ∉ S.

(** What the blocks sent with the acknowledgment [n] for segment [old] must
    be, [nb] being allowed and [O] having been reported before the last reset:
    maybe one for a duplicate; then runs of segments that have come, all above
    [n + 1], the first of these, if [old] is above, being the longest run
    around it; and last, blocks of [O].  Before the first reset [O] is empty
    and every block is true. *)
Definition sack_honest (O : list (Z * Z)) (S : list Z) (n : Z) (dup : bool) (nb old : Z)
    (blocks : list (Z * Z)) : Prop :=
  Z.of_nat (length blocks) <= nb /\
  exists dsack runs stale, blocks = dsack ++ runs ++ stale /\
    (dsack = [] \/ dsack = [(old, old + 1)] /\ dup = true) /\
    Forall (fun b => n + 1 < fst b < snd b /\ forall i, fst b <= i < snd b -> i ∈ S) runs /\
    Forall (.∈ O) stale /\
    (n < old -> (if dup then 1 else 0) < nb ->
     dsack = (if dup then [(old, old + 1)] else []) /\
     exists b tl, runs = b :: tl /\ fst b <= old < snd b /\ fst b - 1 ∉ S /\ snd b ∉ S).

Lemma knows_zero got S i : knows got S -> got i = 0 <-> i ∉ S.
Proof. intros Hk. rewrite <- (Hk i). destruct (Z.eq_dec (got i) 0); tauto. Qed.

Lemma knows_cumulative got S a : acker_ok got a -> knows got S -> cumulative S (next_ a - 1).
Proof.
  intros [_ Hn _ Hg Hh _] Hk. split; [lia|]. split; [intros i Hi; apply Hk, Hg; lia|].
  apply (knows_zero got); [done|]. by replace (next_ a - 1 + 1) with (next_ a) by lia.
Qed.

Lemma knows_honest R got S a dup nb old blocks :
  acker_ok got a -> knows got S -> ack_blocks R dup got a nb old blocks ->
  sack_honest (before_reset R) S (next_ a - 1) dup nb old blocks.
Proof.
  intros Ha Hk (H1 & d & r & st & -> & H2 & H3 & H5 & H4). split; [done|].
  exists d, r, st. split_and!; try done.
  - eapply Forall_impl; [exact H3|]. intros b (Hb & _ & Hi). split; [lia|].
    intros i ?. apply Hk. auto.
  - intros Ho Hlt. destruct H4 as (-> & b & tl & -> & Hb1 & Hb2 & Hb3); [lia|done|].
    split; [done|]. exists b, tl. split_and!; try (done || lia); by apply (knows_zero got).
Qed.

Lemma knows_record got S a seq b :
  acker_ok got a -> knows got S -> 0 <= seq -> b <> 0 -> knows (record_seg seq b a got) (seq :: S).
Proof.
  intros Ha Hk Hs Hb i. rewrite elem_of_cons, <- (Hk i). unfold record_seg, upd.
  destruct (Z.leb_spec (next_ a) seq), (Z.eqb_spec i seq) as [->|]; try tauto.
  pose proof (ao_got _ _ Ha seq). naive_solver lia.
Qed.

(** ** Runs of the plain sink *)

Inductive sink_op :=
  | Arrive (now : f64) (o : segment)
  | ResetSink (now : f64).

Definition sink_step (fuel : nat) (x : sink_op) k : result (TcpSink * list sink_act) :=
  match x with
  | Arrive now o => TcpSink_recv now fuel o k
  | ResetSink now => let! k := TcpSink_reset now k in Ok (k, [])
  end.

Fixpoint sink_run (fuel : nat) (xs : list sink_op) k : result (TcpSink * list sink_act) :=
  match xs with
  | [] => Ok (k, [])
  | x :: xs =>
      let! '(k, acts) := sink_step fuel x k in
      let! '(k, acts') := sink_run fuel xs k in
      Ok (k, acts ++ acts')
  end.

(** The packets that come. *)
Definition arrivals (xs : list sink_op) : list segment :=
  omap (fun x => match x with Arrive _ o => Some o | ResetSink _ => None end) xs.

Definition acks (acts : list sink_act) : list ack_pkt :=
  omap (fun x => match x with SendAck p => Some p | _ => None end) acts.
Definition freed (acts : list sink_act) : list positive :=
  omap (fun x => match x with FreePkt p => Some p | _ => None end) acts.
Definition received (acts : list sink_act) : list Z :=
  omap (fun x => match x with RecvBytes n => Some n | _ => None end) acts.

Definition sumZ (l : list Z) : Z := foldr Z.add 0 l.

Lemma sumZ_app l l' : sumZ (l ++ l') = sumZ l + sumZ l'.
Proof. induction l as [|x l IH]; cbn; [done|]. unfold sumZ in *. lia. Qed.

(** The number of SACK blocks of a sink, if it sends any. *)
Definition nblocks k : option Z := base_nblocks_ <$> sacker_ k.

(** The acknowledgment [p] of segment [o], the segments [S] having come
    before it and the blocks [O] having been reported before the last reset. *)
Definition ack_right (O : list (Z * Z)) (ds : bool) (nb : option Z) (S : list Z) o (p : ack_pkt) : Prop :=
  cumulative (sg_seqno o :: S) (ak_seqno p) /\
  match nb with
  | None => ak_sacks p = []
  | Some nb => sack_honest O (sg_seqno o :: S) (ak_seqno p) (ds && bool_decide (sg_seqno o ∈ S)) nb
                 (sg_seqno o) (ak_sacks p)
  end.

(** The state after the segments [S] below [N] have come. *)
Definition sink_inv (R : reports) (N : Z) (S : list Z) k : Prop :=
  exists got es, sink_ok R got k es /\ knows got S /\ maxseen_ (acker_ k) < Z.max 1 N.

(** Where the sizes are a function of the number, that is what is kept. *)
Definition sized (sz : Z -> Z) got : Prop := forall i, got i <> 0 -> got i = sz i.

Lemma record_sized sz seq a got : sized sz got -> sized sz (record_seg seq (sz seq) a got).
Proof. unfold sized, record_seg, upd. intros Hs i. repeat case_match; [|auto..]. by apply Z.eqb_eq in H0 as ->. Qed.

(** The bytes delivered in a step. *)
Lemma delivered_sized sz got a a' N :
  sized sz got -> acker_ok got a' -> (forall i, 0 < sz i) -> 0 <= next_ a <= next_ a' -> next_ a' <= N ->
  sum_range sz 0 N < 2 ^ 31 ->
  delivered got a a' = sum_range sz (next_ a) (next_ a').
Proof.
  intros Hs Ha Hpos Hn HN Hsum. unfold delivered.
  assert (E : sum_range got (next_ a) (next_ a') = sum_range sz (next_ a) (next_ a')).
  { apply sum_range_ext. intros i Hi. apply Hs, (ao_got _ _ Ha). lia. }
  rewrite E. apply wrap_small.
  assert (Hge : forall lo hi, 0 <= sum_range sz lo hi).
  { intros lo hi. unfold sum_range. generalize (Z.to_nat (hi - lo)). intros n. revert lo.
    induction n as [|n IH]; intros lo; cbn; [lia|]. pose proof (Hpos lo). pose proof (IH (lo + 1)). lia. }
  rewrite (sum_range_app sz 0 (next_ a) N), (sum_range_app sz (next_ a) (next_ a') N) in Hsum by lia.
  pose proof (Hge 0 (next_ a)). pose proof (Hge (next_ a) (next_ a')). pose proof (Hge (next_ a') N). lia.
Qed.

(** The state [k'] after the segment [o], and [n], the bytes it delivered. *)
Record took (N : Z) got (S : list Z) k o k' (n : Z) : Prop := {
  tk_knows : knows (record_seg (sg_seqno o) (sg_size o) (acker_ k) got) (sg_seqno o :: S);
  tk_max : maxseen_ (acker_ k') < Z.max 1 N;
  tk_setup : same_setup k k';
  tk_next : next_ (acker_ k) <= next_ (acker_ k');
  tk_bytes : n = delivered (record_seg (sg_seqno o) (sg_size o) (acker_ k) got) (acker_ k) (acker_ k') /\
    bytes_ k' = (if n =? 0 then bytes_ k else wrap_i32 (bytes_ k + n))
}.

(** The acknowledgment of a segment that has just been taken. *)
Lemma ack_right_intro R got S k old o p :
  acker_ok got (acker_ k) -> knows got (sg_seqno o :: S) -> ak_seqno p = next_ (acker_ k) - 1 ->
  sack_right R got k (sg_seqno o) p -> is_dup_ (acker_ k) = negb (old =? 0) -> (old <> 0 <-> sg_seqno o ∈ S) ->
  ack_right (before_reset R) (generate_dsacks_ k) (nblocks k) S o p.
Proof.
  intros Ha Hk Hp Hs Hd Ho. unfold ack_right, nblocks, sack_right in *. rewrite Hp.
  split; [by eapply knows_cumulative|]. destruct (sacker_ k) as [s|]; [|done]. simpl.
  replace (bool_decide (sg_seqno o ∈ S)) with (is_dup_ (acker_ k)); [by eapply knows_honest|].
  rewrite Hd. destruct (Z.eqb_spec old 0); symmetry; [apply bool_decide_eq_false|apply bool_decide_eq_true]; tauto.
Qed.

Lemma TcpSink_recv_ok N now fuel o R got S k es :
  sink_ok R got k es -> knows got S -> maxseen_ (acker_ k) < Z.max 1 N ->
  enough N fuel -> in_window N o -> stale o k = false ->
  exists k' p n es', TcpSink_recv now fuel o k =
      Ok (k', (if n =? 0 then [] else [RecvBytes n]) ++ [SendAck p; FreePkt (pkt o)]) /\
    sink_ok (reported (ak_sacks p) R) (record_seg (sg_seqno o) (sg_size o) (acker_ k) got) k' es' /\
    took N got S k o k' n /\ ak_ts p = now /\ ack_right (before_reset R) (generate_dsacks_ k) (nblocks k) S o p.
Proof.
  intros Hok Hk Hm HN Ho Hst. pose proof (sk_acker _ _ _ _ Hok) as Ha.
  destruct (take_segment_ok N fuel o R got k es Hok HN Ho Hm)
    as (k1 & acts & E & Ha1 & Hc1 & Hb1 & Hn1 & Hm1 & Hne1 & Hd1 & Hacts & Hby1 & Hs1 & Hv1).
  cbn zeta in *. destruct Ho as [Hseq Hsz]. set (got' := record_seg _ _ _ _) in *.
  pose proof (knows_record got S (acker_ k) _ _ Ha Hk (proj1 Hseq) Hsz) as Hk'. fold got' in Hk'.
  destruct (ack_ok now fuel o R got' k1 es (next_ (acker_ k)) Ha1 Hc1) as
    (k2 & p & es' & E2 & Hok2 & (En & Em & _) & Hs2 & Hv2 & Hby2 & Hl2 & Hp & Hts & Hsack).
  { destruct Ha. lia. } { done. } { destruct HN. lia. } { destruct Ha1. lia. }
  { apply Hk'. by left. }
  { destruct (Z.eq_dec (next_ (acker_ k1)) (next_ (acker_ k))) as [->|Hne]; [by left|right].
    assert (sg_seqno o = next_ (acker_ k)) as Eq by (destruct (Z.eq_dec (sg_seqno o) (next_ (acker_ k))); auto with lia).
    split_and!; [done|lia|]. by rewrite Hd1, Eq, (ao_hole _ _ Ha). }
  unfold TcpSink_recv. rewrite Hst, E. cbn [rbind]. rewrite E2. cbn [rbind]. rewrite Hacts.
  exists k2, p, (delivered got' (acker_ k) (acker_ k1)), es'. split; [done|]. split; [done|].
  pose proof Hs1 as (_ & S2 & _ & S4). split.
  - constructor; [exact Hk'|rewrite Em; lia|by eapply setup_trans|by rewrite En|]. unfold delivered. rewrite En. split; [done|].
    by rewrite Hby2.
  - split; [done|]. assert (Hnb : nblocks k1 = nblocks k) by exact S4. rewrite <- S2, <- Hnb.
    by eapply ack_right_intro.
Qed.

(** What a reset leaves: a window that has received nothing, and the stack of
    blocks, every one of them reported before. *)
Lemma TcpSink_reset_ok R N now S k :
  sink_inv R N S k -> exists k', TcpSink_reset now k = Ok k' /\ sink_inv (after_reset R) N [] k' /\
    generate_dsacks_ k' = generate_dsacks_ k /\ nblocks k' = nblocks k /\ lastreset_ k' = now /\
    save_ k' = None.
Proof.
  intros (got & es & [Ha Hb] & Hk & Hm). unfold TcpSink_reset, sink_acker_reset, nblocks, blocks_ok in *.
  assert (H0 : knows (fun _ => 0) []) by (intros i; split; [done|by intros ?%elem_of_nil]).
  destruct (acker_reset_ok _ _ Ha) as (a' & E & Ha' & Em).
  assert (Hm' : maxseen_ a' < Z.max 1 N /\ next_ a' = 0).
  { unfold acker_reset in E. apply rbind_Ok_inv in E as (l & _ & [= <-]). cbn [maxseen_ set_seen set_maxseen set_next next_]. lia. }
  rewrite E. cbn [rbind]. eexists. split; [done|]. split; [|done].
  exists (fun _ => 0), es. split_and!; [|done|apply Hm'].
  split; [done|]. unfold blocks_ok. cbn [sacker_ acker_ set_acker set_save set_lastreset].
  destruct (sacker_ k) as [s|]; [|done]. destruct Hb as [Hst Hsz Hbase _ Hrep].
  constructor; try done. by exists [], es.
Qed.

(** The acknowledgments [ps] of a run, [S] being the segments that have come
    since the last reset, at [last], and [R] the blocks reported so far: one
    for each packet that was not sent before that reset. *)
Fixpoint acks_right (ds : bool) (nb : option Z) (last : f64) (R : reports) (S : list Z)
    (xs : list sink_op) (ps : list ack_pkt) : Prop :=
  match xs with
  | [] => ps = []
  | ResetSink now :: xs => acks_right ds nb now (after_reset R) [] xs ps
  | Arrive now o :: xs =>
      if flt (sg_ts o) last then acks_right ds nb last R S xs ps
      else exists p ps', ps = p :: ps' /\ ak_ts p = now /\
        ack_right (before_reset R) ds nb S o p /\
        acks_right ds nb last (reported (ak_sacks p) R) (sg_seqno o :: S) xs ps'
  end.

(** The segments that have come since the last reset. *)
Fixpoint history (last : f64) (xs : list sink_op) (S : list Z) : list Z :=
  match xs with
  | [] => S
  | ResetSink now :: xs => history now xs []
  | Arrive now o :: xs => history last xs (if flt (sg_ts o) last then S else sg_seqno o :: S)
  end.

Lemma acts_split n p i :
  let acts := (if n =? 0 then [] else [RecvBytes n]) ++ [SendAck p; FreePkt i] in
  acks acts = [p] /\ freed acts = [i] /\ sumZ (received acts) = n.
Proof. cbn zeta. destruct (Z.eqb_spec n 0) as [->|]; cbn; split_and!; (done || lia). Qed.

Lemma sink_run_ok N fuel xs R S k :
  sink_inv R N S k -> enough N fuel -> Forall (in_window N) (arrivals xs) ->
  exists R' k' acts, sink_run fuel xs k = Ok (k', acts) /\
    sink_inv R' N (history (lastreset_ k) xs S) k' /\
    acks_right (generate_dsacks_ k) (nblocks k) (lastreset_ k) R S xs (acks acts) /\
    freed acts = map pkt (arrivals xs).
Proof.
  revert R S k. induction xs as [|[now o|now] xs IH]; intros R S k Hi HN Hos;
    cbn [sink_run sink_step acks_right history arrivals omap list_omap] in *.
  { by exists R, k, []. }
  - apply Forall_cons in Hos as [Ho Hos]. destruct (flt (sg_ts o) (lastreset_ k)) eqn:Hst.
    + destruct (IH R S k Hi HN Hos) as (R' & k' & acts & E & Hi' & Ha & Hf).
      exists R', k', (FreePkt (pkt o) :: acts). unfold TcpSink_recv, stale. rewrite Hst. cbn [rbind]. rewrite E.
      split_and!; try done. cbn. by f_equal.
    + destruct Hi as (got & es & Hok & Hk & Hm).
      destruct (TcpSink_recv_ok N now fuel o R got S k es Hok Hk Hm HN Ho Hst)
        as (k1 & p & n & es1 & -> & Hok1 & [Hk1 Hm1 (_ & Eds & Elr & Enb) Hn1 _] & Hts & Hack).
      cbn [rbind]. destruct (acts_split n p (pkt o)) as (A1 & A2 & _).
      destruct (IH (reported (ak_sacks p) R) (sg_seqno o :: S) k1)
        as (R' & k' & acts & -> & Hi' & Ha & Hf); [by eexists _, es1|done|done|].
      cbn [rbind]. set (acts1 := _ ++ [SendAck p; _]) in *. exists R', k', (acts1 ++ acts).
      unfold acks, freed, nblocks in *. rewrite !omap_app, A1, A2. rewrite Elr in *. rewrite Eds, Enb in Ha.
      split_and!; try done; [by eexists _, _|cbn; by f_equal].
  - destruct (TcpSink_reset_ok R N now S k Hi) as (k1 & -> & Hi1 & Eds & Enb & Elr & _). cbn [rbind].
    destruct (IH (after_reset R) [] k1 Hi1 HN Hos) as (R' & k' & acts & -> & Hi' & Ha & Hf).
    cbn [rbind app]. exists R', k', acts. rewrite Eds, Enb, Elr in Ha. rewrite Elr in Hi'. by split_and!.
Qed.

(** ** What the application gets *)

(** Packets that come, none of which was sent before the last reset. *)
Definition plain_run (k : TcpSink) (xs : list sink_op) : Prop :=
  Forall (fun x => match x with Arrive _ o => stale o k = false | ResetSink _ => False end) xs.

Lemma sink_run_bytes N fuel sz xs R S k got es k' acts :
  sink_ok R got k es -> knows got S -> maxseen_ (acker_ k) < Z.max 1 N -> enough N fuel ->
  Forall (in_window N) (arrivals xs) -> plain_run k xs ->
  sized sz got -> Forall (fun o => sg_size o = sz (sg_seqno o)) (arrivals xs) ->
  (forall i, 0 < sz i) -> sum_range sz 0 (Z.max 1 N) < 2 ^ 31 ->
  sink_run fuel xs k = Ok (k', acts) ->
  sumZ (received acts) + sum_range sz 0 (next_ (acker_ k)) = sum_range sz 0 (next_ (acker_ k')).
Proof.
  intros Hok Hk Hm HN Hos Hp Hsz Hszs Hpos Hb. revert R got S k es acts Hok Hk Hm Hos Hp Hsz Hszs.
  induction xs as [|[now o|now] xs IH]; intros R got S k es acts Hok Hk Hm Hos Hp Hsz Hszs E;
    cbn [sink_run sink_step arrivals omap list_omap] in *; [by injection E as <- <-| |].
  - apply Forall_cons in Hos as [Ho Hos]. apply Forall_cons in Hp as [Hs1 Hp].
    apply Forall_cons in Hszs as [Ho1 Hszs].
    destruct (TcpSink_recv_ok N now fuel o R got S k es Hok Hk Hm HN Ho Hs1)
      as (k1 & p & n & es1 & E1 & Hok1 & [Hk1 Hm1 (_ & _ & Elr & _) Hn1 [En _]] & _).
    rewrite E1 in E. cbn [rbind] in E. apply rbind_Ok_inv in E as ([k2 acts2] & E & [= -> <-]).
    destruct (acts_split n p (pkt o)) as (_ & _ & A3). set (acts1 := _ ++ [SendAck p; _]) in *.
    set (got1 := record_seg _ _ _ _) in *.
    assert (Hsz1 : sized sz got1) by (unfold got1; rewrite Ho1; by apply record_sized).
    specialize (IH _ got1 (sg_seqno o :: S) k1 es1 acts2 Hok1 Hk1 Hm1 Hos).
    unfold received in *. rewrite omap_app, sumZ_app, A3.
    pose proof (sk_acker _ _ _ _ Hok1) as Ha1. pose proof (sk_acker _ _ _ _ Hok) as Ha.
    pose proof (ao_next _ _ Ha1). pose proof (ao_next _ _ Ha).
    rewrite (delivered_sized sz got1 _ _ (Z.max 1 N)) in En by (done || lia).
    rewrite <- (IH ltac:(eapply Forall_impl; [exact Hp|]; intros []; unfold stale; by rewrite ?Elr) Hsz1 Hszs E).
    rewrite (sum_range_app sz 0 (next_ (acker_ k)) (next_ (acker_ k1))) by lia. lia.
  - by apply Forall_cons in Hp as [[] _].
Qed.
