(* ===== verification/DelAckProps.v ===== *)
(** * Delayed acknowledgments: invariant

    [delack_inv N R S d s es w]: the sink is sound, [S] are the segments it has
    accepted and [R] the blocks it has reported, and its timer is pending, for the time [w], exactly when a
    segment waits for its acknowledgment. *)

From stdpp Require Import base numbers list gmap.
From Stdlib Require Import ZArith Lia Bool.
From S2P Require Import Prelude.
From S2P Require Import Float64.
From S2P Require Import EventQueue.
From S2P Require Import Scheduler.
From S2P Require Import Timer.
From S2P Require Import Acker.
From S2P Require Import AckerProps.
From S2P Require Import SackProps.
From S2P Require Import TcpSink.
From S2P Require Import TcpSinkProps.

Open Scope Z_scope.

Section delack.
Context {Q : Type} `{EventQueueLaws Q}.
Implicit Types (d : DelAckSink) (s : sched Q) (o : segment).

(** The segment that waits for its acknowledgment. *)
Definition waiting_seg d : list segment := option_list (save_ (sink d)).

Record delack_inv (N : Z) (R : reports) (S : list Z) d s (es : list positive) (w : option f64) : Prop := {
  di_sink : exists got bs, sink_ok R got (sink d) bs /\ knows got S;
  di_max : maxseen_ (acker_ (sink d)) < Z.max 1 N;
  di_timer : timer_ok (delay_timer_ d) s es w;
  di_status : status_ (delay_timer_ d) =
    match save_ (sink d) with Some _ => TIMER_PENDING | None => TIMER_IDLE end;
  di_saved : forall q, save_ (sink d) = Some q -> sg_seqno q ∈ S;
  di_acked : save_ (sink d) = None -> S <> [] ->
    last_ack_sent_ (acker_ (sink d)) = next_ (acker_ (sink d)) - 1;
  di_interval : valid (interval_ d) = true /\ nonneg (interval_ d) = true
}.

Lemma freed_app l l' : freed (l ++ l') = freed l ++ freed l'.
Proof. apply omap_app. Qed.

Lemma acks_app l l' : acks (l ++ l') = acks l ++ acks l'.
Proof. apply omap_app. Qed.

(** What came and was not freed is what waits. *)
Definition balanced (came : list positive) d (acts : list sink_act) d' : Prop :=
  map pkt (waiting_seg d) ++ came ≡ₚ freed acts ++ map pkt (waiting_seg d').

Lemma knows_seen got S a i : acker_ok got a -> knows got S -> i ∈ S -> 0 <= i <= maxseen_ a.
Proof.
  intros Ha Hk Hi. apply Hk in Hi. pose proof (ao_zero _ _ Ha i).
  destruct (Z.lt_ge_cases i 0); [tauto|]. destruct (Z.le_gt_cases i (maxseen_ a)); [done|tauto].
Qed.

(** The acknowledgment of the segment that waits, or of the one that has just
    been taken. *)
Lemma ack_now now fuel o R got S k bs q :
  acker_ok got (acker_ k) -> cells q (maxseen_ (acker_ k) + 1) got (acker_ k) ->
  0 <= q <= next_ (acker_ k) -> blocks_ok R q got k bs -> (3 < fuel)%nat -> knows got S ->
  sg_seqno o ∈ S ->
  q = next_ (acker_ k) \/ sg_seqno o = q /\ q < next_ (acker_ k) /\ is_dup_ (acker_ k) = false ->
  exists k' p bs', ack now fuel o k = Ok (k', p) /\
    sink_ok (reported (ak_sacks p) R) got k' bs' /\
    maxseen_ (acker_ k') = maxseen_ (acker_ k) /\ next_ (acker_ k') = next_ (acker_ k) /\
    save_ k' = save_ k /\ last_ack_sent_ (acker_ k') = next_ (acker_ k) - 1 /\
    same_setup k k' /\ ak_seqno p = next_ (acker_ k) - 1 /\ ak_ts p = now /\
    sack_right R got k (sg_seqno o) p.
Proof.
  intros Ha Hc Hq Hb Hf Hk Ho Hcase.
  destruct (ack_ok now fuel o R got k bs q Ha Hc Hq Hb Hf) as
    (k' & p & bs' & E & Hok & (En & Em & _) & Hs & Hv & _ & Hl & Hp & Hts & Hsack).
  { by eapply knows_seen. } { by apply Hk. } { done. }
  exists k', p, bs'. split_and!; try done. congruence.
Qed.

(** The segment [o] has been taken, which left [k]: its acknowledgment may
    wait, or the state is ready for [ack]. *)
Record taken (N : Z) (R : reports) (S : list Z) d o k got bs (q : Z) (acts : list sink_act) : Prop := {
  ta_silent : freed acts = [] /\ acks acts = [];
  ta_saved : save_ k = save_ (sink d);
  ta_setup : same_setup (sink d) k;
  ta_knows : knows got (sg_seqno o :: S);
  ta_max : maxseen_ (acker_ k) < Z.max 1 N;
  ta_acker : acker_ok got (acker_ k);
  ta_dup : exists old, is_dup_ (acker_ k) = negb (old =? 0) /\ (old <> 0 <-> sg_seqno o ∈ S);
  ta_cells : cells q (maxseen_ (acker_ k) + 1) got (acker_ k);
  ta_from : 0 <= q <= next_ (acker_ k);
  ta_blocks : blocks_ok R q got k bs;
  ta_case : q = next_ (acker_ k) \/
    sg_seqno o = q /\ q < next_ (acker_ k) /\ is_dup_ (acker_ k) = false
}.

Lemma take_ready N fuel o R S d s es w :
  delack_inv N R S d s es w -> enough N fuel -> in_window N o ->
  exists k got bs q acts, take_segment fuel o (sink d) = Ok (k, acts) /\
    taken N R S d o k got bs q acts.
Proof.
  intros [(got & bs & Hok & Hk) Hm _ _ _ _ _] HN Ho. pose proof (sk_acker _ _ _ _ Hok) as Ha.
  destruct (take_segment_ok N fuel o R got (sink d) bs Hok HN Ho Hm)
    as (k & acts & E & Ha1 & Hc1 & Hb1 & Hn1 & Hm1 & Hne1 & Hd1 & Hacts & _ & Hs1 & Hv1).
  cbn zeta in *. destruct Ho as [Hseq Hsz].
  exists k, (record_seg (sg_seqno o) (sg_size o) (acker_ (sink d)) got), bs,
    (next_ (acker_ (sink d))), acts.
  split; [done|]. constructor; try done.
  - rewrite Hacts. by case_match.
  - by apply knows_record; [| |lia|].
  - lia.
  - exists (got (sg_seqno o)). split; [done|apply Hk].
  - destruct Ha. lia.
  - destruct (Z.eq_dec (next_ (acker_ k)) (next_ (acker_ (sink d)))) as [->|Hne]; [by left|right].
    assert (sg_seqno o = next_ (acker_ (sink d))) as Eq
      by (destruct (Z.eq_dec (sg_seqno o) (next_ (acker_ (sink d)))); auto with lia).
    split_and!; [done|lia|]. by rewrite Hd1, Eq, (ao_hole _ _ Ha).
Qed.

(** The part of the sink set up once. *)
Definition same_timer (t t' : TimerHandler) : Prop := event_ t' = event_ t /\ this_ t' = this_ t.

Record same_delack d d' : Prop := {
  sd_nblocks : nblocks (sink d') = nblocks (sink d);
  sd_dsacks : generate_dsacks_ (sink d') = generate_dsacks_ (sink d);
  sd_interval : interval_ d' = interval_ d;
  sd_timer : same_timer (delay_timer_ d) (delay_timer_ d')
}.

Lemma same_delack_intro d t k :
  same_setup (sink d) k -> same_timer (delay_timer_ d) t -> same_delack d (with_timer t k d).
Proof. by intros (_ & ? & _ & ?) ?. Qed.

(** The blocks reported once the step has sent its acknowledgments. *)
Definition acked (acts : list sink_act) (R : reports) : reports :=
  reported (concat (map ak_sacks (acks acts))) R.

Lemma acked_none acts R : acks acts = [] -> acked acts R = R.
Proof. intros E. unfold acked, reported. rewrite E. cbn. rewrite app_nil_r. by destruct R. Qed.

Lemma acked_one acts R p : acks acts = [p] -> acked acts R = reported (ak_sacks p) R.
Proof. intros E. unfold acked. rewrite E. cbn. by rewrite app_nil_r. Qed.

(** What a step leaves. *)
Definition sends_now (R : reports) (S : list Z) d s o (acts : list sink_act) d' : Prop :=
  exists p, acks acts = [p] /\ ak_ts p = clock_ s /\ save_ (sink d') = None /\
    ack_right (before_reset R) (generate_dsacks_ (sink d)) (nblocks (sink d)) S o p.

Definition sends_later d s o (acts : list sink_act) d' (w : option f64) : Prop :=
  acks acts = [] /\ save_ (sink d) = None /\ save_ (sink d') = Some o /\
  w = Some (fadd (clock_ s) (interval_ d)).

Lemma timer_pending_save N R S d s es w :
  delack_inv N R S d s es w -> timer_pending d = bool_decide (is_Some (save_ (sink d))).
Proof.
  intros Hd. unfold timer_pending. rewrite (di_status _ _ _ _ _ _ _ Hd).
  by destruct (save_ (sink d)).
Qed.

(** The timer is turned off, if it runs. *)
Lemma timer_off N R S d s es w fuel n :
  delack_inv N R S d s es w -> budget fuel s es (1 + n) ->
  exists t s' es', (if timer_pending d then timer_cancel fuel (delay_timer_ d) s
                    else Ok (delay_timer_ d, s)) = Ok (t, s') /\
    timer_ok t s' es' None /\ status_ t = TIMER_IDLE /\ same_timer (delay_timer_ d) t /\ budget fuel s' es' n /\ touches (delay_timer_ d) s es s' es'.
Proof.
  intros Hd Hb. pose proof (di_timer _ _ _ _ _ _ _ Hd) as Ht. pose proof (di_status _ _ _ _ _ _ _ Hd) as Hs.
  rewrite (timer_pending_save _ _ _ _ _ _ _ Hd). destruct (save_ (sink d)) as [q|].
  - pose proof (run_call_ok fuel TCancel (delay_timer_ d) s es w n Ht Hb I) as Hc.
    rewrite Hs in Hc. cbn [status_step] in Hc. destruct Hc as (s' & es' & E & Ht' & Hb' & Hcl).
    rewrite bool_decide_eq_true_2 by done. cbn [run_call] in E. rewrite E. by eexists _, s', es'.
  - rewrite bool_decide_eq_false_2 by (by intros [? ?]). exists (delay_timer_ d), s, es.
    split_and!; try done; [|by apply budget_weaken|apply touches_none].
    assert (w = None) as -> by (rewrite (ti_time _ _ _ _ Ht), Hs; by rewrite decide_False). done.
Qed.

Lemma set_save_None k : save_ k = None -> set_save None k = k.
Proof. destruct k; cbn. by intros ->. Qed.

Lemma sink_ok_save R got x k bs : sink_ok R got k bs -> sink_ok R got (set_save x k) bs.
Proof. by intros [? ?]; constructor. Qed.

(** Only the acknowledgment of a segment in order waits, and alone. *)
Lemma may_delay_inv N R S d s es w o k got :
  delack_inv N R S d s es w -> 0 <= N <= 2 ^ 29 -> acker_ok got (acker_ k) ->
  maxseen_ (acker_ k) < Z.max 1 N -> may_delay o (timer_pending d) k = true ->
  save_ (sink d) = None /\ sg_seqno o = next_ (acker_ k) - 1.
Proof.
  intros Hd HN Ha Hm [[[Hp Hs%Z.eqb_eq]%andb_prop _]%andb_prop _]%andb_prop. split.
  - rewrite (timer_pending_save _ _ _ _ _ _ _ Hd) in Hp.
    apply negb_true_iff, bool_decide_eq_false in Hp. by apply eq_None_not_Some.
  - rewrite Hs. unfold Seqno. destruct Ha. apply wrap_i32_id. unfold in_i32. lia.
Qed.

(** The acknowledgment waits. *)
Lemma recv_later N fuel n o R S d s es w k got bs q acts :
  delack_inv N R S d s es w -> 0 <= N <= 2 ^ 29 -> budget fuel s es (1 + n) -> taken N R S d o k got bs q acts ->
  may_delay o (timer_pending d) k = true ->
  exists t s' es', timer_resched fuel (interval_ d) (delay_timer_ d) s = Ok (t, s') /\
    let d' := with_timer t (set_save (Some o) k) d in
    let w' := Some (fadd (clock_ s) (interval_ d)) in
    delack_inv N R (sg_seqno o :: S) d' s' es' w' /\ budget fuel s' es' n /\ touches (delay_timer_ d) s es s' es' /\
    same_delack d d' /\ balanced [pkt o] d acts d' /\ sends_later d s o acts d' w'.
Proof.
  intros Hd HN Hb [[Hfr Hak] Hsv Hse Hk Hm Ha _ _ Hq Hbl Hcase] Hmay.
  destruct (may_delay_inv _ _ _ _ _ _ _ _ _ _ Hd HN Ha Hm Hmay) as [Hnone Hseq].
  pose proof Hd as [_ _ Ht _ _ _ Hint].
  pose proof (run_call_ok fuel (TResched (interval_ d)) (delay_timer_ d) s es w n Ht Hb Hint) as Hcall.
  assert (Estep : status_step (status_ (delay_timer_ d)) (TResched (interval_ d)) = Some TIMER_PENDING)
    by done.
  rewrite Estep in Hcall. destruct Hcall as (s' & es' & Ec & Ht' & Hb' & Hcl).
  eexists _, s', es'. split; [exact Ec|]. cbn zeta. split_and!; try done.
  - constructor; cbn; [|done|exact Ht'|done|intros ? [= <-]; by left|done|done].
    exists got, bs. split; [|done]. constructor; [done|]. cbn.
    unfold blocks_ok in *. cbn. destruct (sacker_ k); [|done].
    destruct Hcase as [<-|(Eq & Hlt & _)]; [done|]. eapply runs_advance; [done|apply Ha|lia].
  - by apply same_delack_intro.
  - unfold balanced, waiting_seg. cbn. by rewrite Hnone, Hfr.
Qed.

(** The packets freed once the acknowledgment is sent. *)
Definition free_saved k : TcpSink * list sink_act :=
  match save_ k with
  | Some q => (set_save None k, [FreePkt (pkt q)])
  | None => (k, [])
  end.

Lemma free_saved_eq k :
  free_saved k = (set_save None k, map FreePkt (map pkt (option_list (save_ k)))).
Proof. unfold free_saved. destruct (save_ k) eqn:E; [done|]. by rewrite set_save_None. Qed.

(** The acknowledgment is sent. *)
Lemma recv_now N fuel o R S d s es w k got bs q acts t s' es' :
  delack_inv N R S d s es w -> enough N fuel -> taken N R S d o k got bs q acts ->
  timer_ok t s' es' None -> clock_ s' = clock_ s -> status_ t = TIMER_IDLE -> same_timer (delay_timer_ d) t ->
  exists k' p, ack (clock_ s') fuel o k = Ok (k', p) /\
    let '(k2, frees) := free_saved k' in
    let d' := with_timer t k2 d in
    let acts' := acts ++ SendAck p :: frees ++ [FreePkt (pkt o)] in
    delack_inv N (acked acts' R) (sg_seqno o :: S) d' s' es' None /\
    same_delack d d' /\ balanced [pkt o] d acts' d' /\ sends_now R S d s o acts' d'.
Proof.
  intros Hd HN [[Hfr Hak] Hsv Hse Hk Hm Ha (old & Hdup & Hold) Hc Hq Hbl Hcase] Ht' Hcl Hidle Hsame.
  destruct (ack_now (clock_ s') fuel o R got (sg_seqno o :: S) k bs q) as
    (k' & p & bs' & E & Hok' & Em & En & Ev & Hl & Hse' & Hp & Hts & Hsack); try done;
    [destruct HN; lia|by left|].
  exists k', p. split; [done|]. rewrite free_saved_eq, Ev, Hsv. split_and!.
  - rewrite (acked_one _ _ p) by (rewrite acks_app, Hak; by destruct (save_ (sink d))).
    constructor; cbn [sink delay_timer_ interval_ with_timer set_save acker_ save_];
      [exists got, bs'; split; [by apply sink_ok_save|done]|lia|done|done|done| |apply Hd].
    intros _ _. by rewrite Hl, En.
  - apply same_delack_intro; [by eapply setup_trans|done].
  - unfold balanced. rewrite freed_app, Hfr. unfold waiting_seg. by destruct (save_ (sink d)).
  - exists p. rewrite acks_app, Hak. split_and!; [by destruct (save_ (sink d))|congruence|done|].
    pose proof Hse as (_ & Eds & _ & Enb). rewrite <- Eds. unfold nblocks. rewrite <- Enb.
    by eapply ack_right_intro.
Qed.

Lemma DelAckSink_recv_ok N fuel n o R S d s es w :
  delack_inv N R S d s es w -> enough N fuel -> in_window N o -> stale o (sink d) = false ->
  budget fuel s es (1 + n) ->
  exists d' s' es' w' acts, DelAckSink_recv fuel o d s = Ok (d', s', acts) /\
    delack_inv N (acked acts R) (sg_seqno o :: S) d' s' es' w' /\ budget fuel s' es' n /\ touches (delay_timer_ d) s es s' es' /\
    same_delack d d' /\ balanced [pkt o] d acts d' /\
    (sends_now R S d s o acts d' \/ sends_later d s o acts d' w').
Proof.
  intros Hd HN Ho Hst Hb. destruct (take_ready N fuel o R S d s es w Hd HN Ho) as (k & got & bs & q & acts & E & Hta).
  unfold DelAckSink_recv. rewrite Hst, E. cbn [rbind].
  destruct (may_delay o (timer_pending d) k) eqn:Hmay.
  - destruct (recv_later N fuel n o R S d s es w k got bs q acts Hd (proj1 HN) Hb Hta Hmay)
      as (t & s' & es' & -> & R1 & R2 & R3 & R4 & R5 & R6). cbn [rbind].
    eexists _, s', es', _, acts. split; [done|]. rewrite acked_none by apply R6. split_and!; try done. by right.
  - destruct (timer_off N R S d s es w fuel n Hd Hb) as (t & s' & es' & -> & Ht' & Hidle & Hsame & Hb' & Hcl).
    cbn [rbind].
    destruct (recv_now N fuel o R S d s es w k got bs q acts t s' es' Hd HN Hta Ht' (to_clock _ _ _ _ _ Hcl) Hidle Hsame)
      as (k' & p & -> & Hr). cbn [rbind]. fold (free_saved k').
    destruct (free_saved k') as [k2 frees]. destruct Hr as (R1 & R2 & R3 & R4).
    eexists _, s', es', _, _. split; [done|]. split_and!; try done. by left.
Qed.

(** An acknowledgment [p] of segment [o], the segments [S] having come, and
    the blocks [O] having been reported before the last reset. *)
Definition ack_fits (O : list (Z * Z)) (nb : option Z) (S : list Z) o (p : ack_pkt) : Prop :=
  cumulative S (ak_seqno p) /\
  match nb with
  | None => ak_sacks p = []
  | Some nb => exists dup, sack_honest O S (ak_seqno p) dup nb (sg_seqno o) (ak_sacks p)
  end.

Lemma ack_right_fits O ds nb S o p : ack_right O ds nb S o p -> ack_fits O nb (sg_seqno o :: S) o p.
Proof. intros [H1 H2]. split; [done|]. destruct nb; [by eexists|done]. Qed.

Lemma ack_fits_intro R got S k o p :
  acker_ok got (acker_ k) -> knows got S -> ak_seqno p = next_ (acker_ k) - 1 ->
  sack_right R got k (sg_seqno o) p -> ack_fits (before_reset R) (nblocks k) S o p.
Proof.
  intros Ha Hk Hp Hs. unfold ack_fits, nblocks, sack_right in *. rewrite Hp.
  split; [by eapply knows_cumulative|]. destruct (sacker_ k) as [s|]; [|done].
  eexists. by eapply knows_honest.
Qed.

(** The timer's event has been taken out of the event queue at its time. *)
Record fires (t : TimerHandler) (w : f64) (s1 : sched Q) (es1 : list positive) : Prop := {
  fi_sched : sched_ok s1 es1;
  fi_event : exists ev, evs s1 !! event_ t = Some ev /\ uid_ ev <= 0;
  fi_clock : clock_ s1 = w
}.

Lemma delay_timer_handle_ok N fuel R S d s es w s1 es1 :
  delack_inv N R S d s es (Some w) -> enough N fuel -> fires (delay_timer_ d) w s1 es1 ->
  exists q d' p, save_ (sink d) = Some q /\
    delay_timer_handle fuel d s1 = Ok (d', s1, [SendAck p; FreePkt (pkt q)]) /\
    delack_inv N (reported (ak_sacks p) R) S d' s1 es1 None /\ same_delack d d' /\ save_ (sink d') = None /\
    ak_ts p = clock_ s1 /\ ack_fits (before_reset R) (nblocks (sink d)) S q p.
Proof.
  intros [(got & bs & Hok & Hk) Hm Ht Hs Hsv Hacked Hint] HN [Hok1 (ev & Hev & Hu) Hcl].
  assert (Hpend : status_ (delay_timer_ d) = TIMER_PENDING).
  { pose proof (ti_time _ _ _ _ Ht) as Hw. by destruct (decide (status_ (delay_timer_ d) = TIMER_PENDING)). }
  rewrite Hpend in Hs. destruct (save_ (sink d)) as [q|] eqn:Eq; [|done].
  pose proof (sk_acker _ _ _ _ Hok) as Ha.
  destruct (ack_now (clock_ s1) fuel q R got S (sink d) bs (next_ (acker_ (sink d)))) as
    (k' & p & bs' & E & Hok' & Em & En & Ev & Hl & Hse' & Hp & Hts & Hsack);
    [done|apply Ha|destruct Ha; lia|apply Hok|destruct HN; lia|done|by apply Hsv|by left|].
  set (t := set_status TIMER_IDLE (set_status TIMER_HANDLING (delay_timer_ d))).
  exists q, (with_timer t (set_save None k') d), p. split; [done|]. split.
  { unfold delay_timer_handle, timer_handle. rewrite decide_True by done. cbn [run_calls rbind].
    rewrite decide_True by done. cbn [rbind]. unfold timeout. rewrite Eq, E. done. }
  assert (Hn : event_ (delay_timer_ d) ∉ es1) by (destruct Hok1 as [_ Hw1]; by eapply w_idle).
  split; [|split_and!; try done; [|by eapply ack_fits_intro]].
  - constructor; cbn [sink delay_timer_ interval_ with_timer set_save acker_ save_];
      [exists got, bs'; split; [by apply sink_ok_save|done]|lia| |done|done| |done].
    + constructor; [done|by eexists|done|by intros Hin%Hn|done].
    + intros _ _. by rewrite Hl, En.
  - by apply same_delack_intro.
Qed.
End delack.
