(* ===== verification/DelAckRun.v ===== *)
(** * Delayed acknowledgments: runs

    A delayed-acknowledgment sink and the scheduler whose events it shares
    with other objects: the sink receives packets, its timer's event is
    dispatched, other events are scheduled and dispatched in between, and the
    sink is reset.  A log keeps what has happened. *)

From stdpp Require Import base numbers list gmap.
From Stdlib Require Import ZArith Lia Bool.
From S2P Require Import Prelude.
From S2P Require Import Float64.
From S2P Require Import EventQueue.
From S2P Require Import Scheduler.
From S2P Require Import Timer.
From S2P Require Import Acker.
From S2P Require Import AckerProps.
From S2P Require Import SackProps.
From S2P Require Import TcpSink.
From S2P Require Import TcpSinkProps.
From S2P Require Import DelAckProps.

Open Scope Z_scope.

(** An acknowledgment sent, the numbers [as_taken] having been taken since the
    last reset and the blocks [as_before] reported before it. *)
Record ack_sent := mkAckSent {
  as_taken : list Z;
  as_before : list (Z * Z);
  as_ack : ack_pkt
}.

(** The packets that came and when; the numbers of those taken since the last
    reset; the blocks reported; the acknowledgments sent; the packets freed,
    and those that a reset dropped. *)
Record log := mkLog {
  came : list (f64 * segment);
  taken_in : list Z;
  told : reports;
  sent : list ack_sent;
  gone : list positive;
  dropped : list positive
}.

Definition log_acts (S : list Z) (acts : list sink_act) (g : log) : log :=
  mkLog (came g) S (acked acts (told g))
    (sent g ++ map (mkAckSent S (before_reset (told g))) (acks acts)) (gone g ++ freed acts) (dropped g).
Definition log_came (t : f64) (o : segment) (g : log) : log :=
  mkLog (came g ++ [(t, o)]) (taken_in g) (told g) (sent g) (gone g) (dropped g).
Definition log_reset (ps : list positive) (g : log) : log :=
  mkLog (came g) [] (after_reset (told g)) (sent g) (gone g) (dropped g ++ ps).

Definition no_log : log := mkLog [] [] no_reports [] [] [].

(** The acknowledgment is right for a segment that came. *)
Definition sent_ok (nb : option Z) (c : list segment) (x : ack_sent) : Prop :=
  exists o, o ∈ c /\ ack_fits (as_before x) nb (as_taken x) o (as_ack x).

Section run.
Context {Q : Type} `{EventQueueLaws Q}.
Implicit Types (d : DelAckSink) (s : sched Q) (o : segment) (g : log).

(** The next event: the timer's own handler, or an object not modelled. *)
Definition delack_next (fuel : nat) d s : result (option (DelAckSink * sched Q * list sink_act)) :=
  let! '(w, s, _) := run_steps note_handler 1 fuel None s in
  match w with
  | None => Ok None
  | Some (h, e) =>
      if bool_decide (h = this_ (delay_timer_ d)) then
        let! y := delay_timer_handle fuel d s in Ok (Some y)
      else Ok (Some (d, s, []))
  end.

(** What [recv] has made of the numbers taken. *)
Definition seen_after o d (S : list Z) : list Z := if stale o (sink d) then S else sg_seqno o :: S.

(** An event that another object may schedule. *)
Record foreign_event d s (h e : positive) (t : f64) : Prop := {
  fe_handler : h <> this_ (delay_timer_ d);
  fe_event : e <> event_ (delay_timer_ d);
  fe_idle : exists ev, evs s !! e = Some ev /\ uid_ ev <= 0;
  fe_delay : valid t = true /\ nonneg t = true
}.

Inductive delack_run (fuel : nat) (N : Z) (d0 : DelAckSink) (s0 : sched Q)
    : nat -> DelAckSink -> sched Q -> log -> Prop :=
  | dr_start : delack_run fuel N d0 s0 0 d0 s0 no_log
  | dr_recv n d s g o d' s' acts :
      delack_run fuel N d0 s0 n d s g -> in_window N o ->
      DelAckSink_recv fuel o d s = Ok (d', s', acts) ->
      delack_run fuel N d0 s0 (S n) d' s'
        (log_acts (seen_after o d (taken_in g)) acts (log_came (clock_ s) o g))
  | dr_next n d s g d' s' acts :
      delack_run fuel N d0 s0 n d s g -> delack_next fuel d s = Ok (Some (d', s', acts)) ->
      delack_run fuel N d0 s0 (S n) d' s' (log_acts (taken_in g) acts g)
  | dr_foreign n d s g h e t s' :
      delack_run fuel N d0 s0 n d s g -> foreign_event d s h e t ->
      schedule fuel (Some h) e t s = Ok s' -> delack_run fuel N d0 s0 (S n) d s' g
  | dr_reset n d s g d' s' :
      delack_run fuel N d0 s0 n d s g -> DelAckSink_reset fuel d s = Ok (d', s') ->
      delack_run fuel N d0 s0 (S n) d' s' (log_reset (map pkt (waiting_seg d)) g).

(** A sink that has just been made. *)
Record fresh_sink (k : TcpSink) : Prop := {
  fr_acker : exists dup, acker_ k = new_Acker dup;
  fr_sacker : forall x, sacker_ k = Some x -> exists nb, sacker_configure nb = Ok x;
  fr_save : save_ k = None
}.

Lemma fresh_sink_inv N k : fresh_sink k -> sink_inv no_reports N [] k.
Proof.
  intros [[dup Ha] Hs _]. exists (fun _ => 0), []. split_and!.
  - constructor; rewrite Ha; [apply new_Acker_ok|]. unfold blocks_ok.
    destruct (sacker_ k) as [s|]; [|done]. destruct (Hs s eq_refl) as [nb Hc]. unfold sacker_configure in Hc.
    set (b := if NSA <? nb then NSA else nb) in *.
    assert (Hb : b <= NSA) by (unfold b; destruct (Z.ltb_spec NSA nb); lia).
    destruct (Z.lt_ge_cases b 0).
    + unfold new_SackStack in Hc. by rewrite (proj2 (Z.ltb_lt _ _)) in Hc.
    + destruct (new_SackStack_ok b) as (f & E & Hr & Hz); [done|]. rewrite E in Hc. injection Hc as <-.
      by constructor; cbn; [| | |apply runs_nil|constructor].
  - intros i. split; [done|by intros ?%elem_of_nil].
  - rewrite Ha. cbn. lia.
Qed.

(** A sink and a scheduler to start from. *)
Record delack_idle d s : Prop := {
  id_sink : fresh_sink (sink d);
  id_sched : sched_ok s [];
  id_timer : status_ (delay_timer_ d) = TIMER_IDLE;
  id_event : is_Some (evs s !! event_ (delay_timer_ d));
  id_interval : valid (interval_ d) = true /\ nonneg (interval_ d) = true
}.

(** The state and the log of a run. *)
Record delack_st (N : Z) (d0 : DelAckSink) d s g (es : list positive) (w : option f64) : Prop := {
  ds_inv : delack_inv N (told g) (taken_in g) d s es w;
  ds_owned : forall e, e ∈ es -> handled (evs s) (this_ (delay_timer_ d)) e -> e = event_ (delay_timer_ d);
  ds_setup : same_delack d0 d;
  ds_packets : map pkt (map snd (came g)) ≡ₚ gone g ++ dropped g ++ map pkt (waiting_seg d);
  ds_sent : Forall (sent_ok (nblocks (sink d0)) (map snd (came g))) (sent g);
  ds_waits : forall q, save_ (sink d) = Some q ->
    exists t, (t, q) ∈ came g /\ w = Some (fadd t (interval_ d0))
}.

Lemma same_delack_trans d1 d2 d3 : same_delack d1 d2 -> same_delack d2 d3 -> same_delack d1 d3.
Proof. intros [A1 A2 A3 [A4 A5]] [B1 B2 B3 [B4 B5]]. split; [..|split]; congruence. Qed.

Lemma idle_st N d s : delack_idle d s -> delack_st N d d s no_log [] None.
Proof.
  intros [Hk Hok Ht He Hi]. pose proof (fr_save _ Hk) as Hs.
  destruct (fresh_sink_inv N _ Hk) as (got & bs & Hsk & Hkn & Hm).
  constructor; cbn.
  - constructor; rewrite ?Hs; try done; [by exists got, bs|].
    constructor; [done|done| |by intros ?%elem_of_nil|by rewrite Ht].
    rewrite Ht. split; [done|by intros ?%elem_of_nil].
  - by intros e ?%elem_of_nil.
  - done.
  - unfold waiting_seg. by rewrite Hs.
  - constructor.
  - intros q. by rewrite Hs.
Qed.

(** ** Steps *)

(** Another object's event leaves the sink's own alone. *)
Lemma inv_foreign N R S d s es w s' es' :
  delack_inv N R S d s es w -> sched_ok s' es' ->
  (event_ (delay_timer_ d) ∈ es' <-> event_ (delay_timer_ d) ∈ es) ->
  ev_data <$> evs s' !! event_ (delay_timer_ d) = ev_data <$> evs s !! event_ (delay_timer_ d) ->
  delack_inv N R S d s' es' w.
Proof.
  intros [D1 D2 [T1 T2 T3 T4 T5] D4 D5 D6 D7] Hok Hin Hd. constructor; try done. constructor; try done.
  - by rewrite <- (fmap_is_Some ev_data), Hd, fmap_is_Some.
  - by rewrite Hin.
  - intros He%Hin%T4. by apply (handled_data (evs s)).
  - rewrite T5. destruct (decide _); [|done]. f_equal. symmetry. by apply data_tm.
Qed.

(** A call of the timer keeps the other events with their owners. *)
Lemma owned_touches t s es s' es' :
  touches t s es s' es' ->
  (forall e, e ∈ es -> handled (evs s) (this_ t) e -> e = event_ t) ->
  forall e, e ∈ es' -> handled (evs s') (this_ t) e -> e = event_ t.
Proof.
  intros [_ He Hd] Ho e [?|Hin]%He Hh; [done|]. destruct (decide (e = event_ t)) as [|Hne]; [done|].
  apply Ho; [done|]. by apply (handled_data (evs s') (evs s)), Hh; rewrite Hd.
Qed.

(** What the log gets from acknowledgments that fit. *)
Lemma sent_more nb (c c' : list segment) (l : list ack_sent) S O ps :
  Forall (sent_ok nb c) l -> (forall o, o ∈ c -> o ∈ c') ->
  Forall (fun p => exists o, o ∈ c' /\ ack_fits O nb S o p) ps ->
  Forall (sent_ok nb c') (l ++ map (mkAckSent S O) ps).
Proof.
  intros H1 H2 H3. apply Forall_app. split.
  - eapply Forall_impl; [exact H1|]. intros x (o & ? & ?). exists o. auto.
  - apply Forall_fmap. eapply Forall_impl; [exact H3|]. done.
Qed.

Lemma recv_st N fuel n o d0 d s g es w :
  delack_st N d0 d s g es w -> enough N fuel -> in_window N o -> budget fuel s es (1 + n) ->
  exists d' s' acts es' w', DelAckSink_recv fuel o d s = Ok (d', s', acts) /\ budget fuel s' es' n /\
    delack_st N d0 d' s' (log_acts (seen_after o d (taken_in g)) acts (log_came (clock_ s) o g)) es' w'.
Proof.
  intros [Hi Ho Hs Hp Hf Hw] HN Hin Hb. unfold seen_after. destruct (stale o (sink d)) eqn:Hst.
  { exists d, s, [FreePkt (pkt o)], es, w. unfold DelAckSink_recv. rewrite Hst.
    split; [done|]. split; [by apply budget_weaken|].
    unfold log_acts. rewrite acked_none by done. constructor; cbn; try done.
    - rewrite !map_app, Hp. cbn. solve_Permutation.
    - rewrite app_nil_r. eapply Forall_impl; [exact Hf|]. intros x (q & Hq & ?). exists q.
      rewrite map_app, elem_of_app. auto.
    - intros q Hq. destruct (Hw q Hq) as (t & ? & ?). exists t. rewrite elem_of_app. auto. }
  destruct (DelAckSink_recv_ok N fuel n o (told g) (taken_in g) d s es w Hi HN Hin Hst Hb)
    as (d' & s' & es' & w' & acts & E & Hi' & Hb' & Hto & Hsd & Hbal & Hcase).
  exists d', s', acts, es', w'. split; [done|]. split; [done|].
  pose proof (sd_timer _ _ Hsd) as [Ee Et].
  assert (Hlast : o ∈ map snd (came g ++ [(clock_ s, o)])).
  { rewrite map_app, elem_of_app. right. by left. }
  constructor; cbn [log_acts log_came came taken_in told sent gone dropped]; try done.
  - rewrite Ee, Et. by eapply owned_touches.
  - by eapply same_delack_trans.
  - unfold balanced in Hbal. rewrite !map_app, Hp. cbn [map snd].
    rewrite <- !(assoc_L (++)), Hbal. solve_Permutation.
  - eapply sent_more; [exact Hf|intros q Hq; rewrite map_app, elem_of_app; by left|].
    destruct Hcase as [(p & -> & _ & _ & Hr)|(-> & _)]; [|done]. repeat constructor.
    exists o. split; [done|]. rewrite <- (sd_nblocks _ _ Hs). by eapply ack_right_fits.
  - intros q Hq. destruct Hcase as [(p & _ & _ & Hn & _)|(_ & _ & Hn & ->)]; [congruence|].
    rewrite Hn in Hq. injection Hq as <-. exists (clock_ s). rewrite (sd_interval _ _ Hs).
    split; [|done]. rewrite elem_of_app. right. by left.
Qed.

Lemma log_nothing g : log_acts (taken_in g) [] g = g.
Proof. destruct g. unfold log_acts. rewrite acked_none by done. cbn. by rewrite !app_nil_r. Qed.

Lemma foreign_st N d0 d s g es w s' es' :
  delack_st N d0 d s g es w -> sched_ok s' es' ->
  (event_ (delay_timer_ d) ∈ es' <-> event_ (delay_timer_ d) ∈ es) ->
  ev_data <$> evs s' !! event_ (delay_timer_ d) = ev_data <$> evs s !! event_ (delay_timer_ d) ->
  (forall e, e ∈ es' -> handled (evs s') (this_ (delay_timer_ d)) e -> e = event_ (delay_timer_ d)) ->
  delack_st N d0 d s' g es' w.
Proof. intros [H1 H2 H3 H4 H5 H6] Hok Hin Hd Ho. constructor; try done. by eapply inv_foreign. Qed.

(** The timer's event is dispatched: the acknowledgment is sent. *)
Lemma fires_st N fuel d0 d s g es w s1 es1 :
  delack_st N d0 d s g es (Some w) -> enough N fuel -> fires (delay_timer_ d) w s1 es1 ->
  (forall e, e ∈ es1 -> handled (evs s1) (this_ (delay_timer_ d)) e -> e = event_ (delay_timer_ d)) ->
  exists q d' p, save_ (sink d) = Some q /\ save_ (sink d') = None /\ ak_ts p = w /\
    ack_fits (before_reset (told g)) (nblocks (sink d0)) (taken_in g) q p /\
    delay_timer_handle fuel d s1 = Ok (d', s1, [SendAck p; FreePkt (pkt q)]) /\
    delack_st N d0 d' s1 (log_acts (taken_in g) [SendAck p; FreePkt (pkt q)] g) es1 None.
Proof.
  intros [Hi Ho Hs Hp Hf Hw] HN Hfi Ho1.
  destruct (delay_timer_handle_ok N fuel (told g) (taken_in g) d s es w s1 es1 Hi HN Hfi)
    as (q & d' & p & Hq & E & Hi' & Hsd & Hn & Hts & Hfit).
  rewrite <- (acked_one [SendAck p; FreePkt (pkt q)] _ p eq_refl) in Hi'.
  rewrite (sd_nblocks _ _ Hs) in Hfit. rewrite (fi_clock _ _ _ _ Hfi) in Hts.
  pose proof (sd_timer _ _ Hsd) as [Ee Et]. exists q, d', p. split_and!; try done.
  constructor; cbn [log_acts came taken_in told sent gone dropped acks freed omap list_omap]; try done.
  - by rewrite Ee, Et.
  - by eapply same_delack_trans.
  - rewrite Hp. unfold waiting_seg. rewrite Hq, Hn. cbn. solve_Permutation.
  - eapply sent_more; [exact Hf|done|]. repeat constructor. exists q. split; [|done].
    destruct (Hw q Hq) as (t & Hin & _). apply list_elem_of_fmap. by exists (t, q).
  - intros q'. by rewrite Hn.
Qed.

(** The next event. *)
Lemma next_st N fuel n d0 d s g p es w :
  delack_st N d0 d s g (p :: es) w -> enough N fuel -> budget fuel s (p :: es) n -> halted_ s = false ->
  exists d' s' acts w', delack_next fuel d s = Ok (Some (d', s', acts)) /\ budget fuel s' es n /\
    halted_ s' = false /\ (if decide (p = event_ (delay_timer_ d)) then save_ (sink d') = None
                           else d' = d /\ w' = w /\ acts = []) /\
    delack_st N d0 d' s' (log_acts (taken_in g) acts g) es w' /\
    (p = event_ (delay_timer_ d) -> exists q a, save_ (sink d) = Some q /\
      acts = [SendAck a; FreePkt (pkt q)] /\ w = Some (ak_ts a) /\
      ack_fits (before_reset (told g)) (nblocks (sink d0)) (taken_in g) q a).
Proof.
  intros Hst HN Hb Hrun. pose proof (di_timer _ _ _ _ _ _ _ (ds_inv _ _ _ _ _ _ _ Hst)) as Ht.
  pose proof (ti_sched _ _ _ _ Ht) as Hok.
  destruct (note_next fuel n p es s Hok Hb Hrun)
    as (h & s1 & tr & E & Hh & Hok1 & Hb1 & Hr1 & Hcl & _ & [Hp1 _] & Hd).
  pose proof (qrep_NoDup _ _ _ (proj1 Hok)) as [Hpn _]%NoDup_cons.
  assert (Ho1 : forall e, e ∈ es -> handled (evs s1) (this_ (delay_timer_ d)) e -> e = event_ (delay_timer_ d)).
  { intros e He Hhe. apply (ds_owned _ _ _ _ _ _ _ Hst); [by right|].
    apply (handled_data (evs s1) (evs s)); [|done]. symmetry. apply Hd. by intros ->. }
  unfold delack_next. rewrite E. cbn [rbind].
  destruct (bool_decide_reflect (h = this_ (delay_timer_ d))) as [->|Hne].
  - assert (p = event_ (delay_timer_ d)) as -> by (apply (ds_owned _ _ _ _ _ _ _ Hst); [by left|done]).
    assert (Hpe : status_ (delay_timer_ d) = TIMER_PENDING) by (apply (ti_pending _ _ _ _ Ht); by left).
    pose proof (ti_time _ _ _ _ Ht) as Hw. rewrite decide_True in Hw by done. subst w.
    destruct (fires_st N fuel d0 d s g _ _ s1 es Hst HN) as (q & d' & a & Hq & Hn & Hts & Hfit & Eh & Hst'); [|done|].
    { split; [done| |done]. destruct Hp1 as [ev Hev]. exists ev. split; [done|].
      destruct Hok1 as [_ Hw1]. by eapply w_idle. }
    rewrite Eh. cbn [rbind]. eexists d', s1, _, None. split_and!; try done; [by rewrite decide_True|].
    intros _. exists q, a. by rewrite Hts.
  - assert (p <> event_ (delay_timer_ d)) as Hpe.
    { intros ->. apply Hne. eapply handled_fun; [exact Hh|]. unfold handled. apply (ti_handler _ _ _ _ Ht). by left. }
    exists d, s1, [], w. split_and!; try done; [by rewrite decide_False|]. rewrite log_nothing. eapply foreign_st; [exact Hst|done| |by apply Hd|done].
    rewrite elem_of_cons. naive_solver.
Qed.

Lemma schedule_st N fuel n d0 d s g es w h e t s' :
  delack_st N d0 d s g es w -> foreign_event d s h e t -> budget fuel s es (1 + n) ->
  schedule fuel (Some h) e t s = Ok s' ->
  exists es', delack_st N d0 d s' g es' w /\ budget fuel s' es' n.
Proof.
  intros Hst [Hh He (ev & Hev & Hu) [Vt Nt]] Hb E.
  pose proof (di_timer _ _ _ _ _ _ _ (ds_inv _ _ _ _ _ _ _ Hst)) as Ht.
  destruct (schedule_ok fuel h e t s es ev n (ti_sched _ _ _ _ Ht) Hb Hev Hu Vt Nt)
    as (s1 & E1 & Hok & Hb' & _ & _ & _ & Hhe & Hd).
  rewrite E in E1. injection E1 as <-. eexists. split; [|done].
  eapply foreign_st; [exact Hst|done| |by apply Hd|].
  - rewrite elem_of_ord_insert. naive_solver.
  - intros k Hk Hhk. destruct (decide (k = e)) as [->|Hne].
    + unfold handled in Hhk. rewrite Hhe in Hhk. by injection Hhk as ->.
    + apply elem_of_ord_insert in Hk as [->|Hk]; [done|]. apply (ds_owned _ _ _ _ _ _ _ Hst); [done|]. by apply (handled_data (evs s') (evs s)); [rewrite Hd|].
Qed.

Lemma reset_st N fuel n d0 d s g es w :
  delack_st N d0 d s g es w -> budget fuel s es (1 + n) ->
  exists d' s' es', DelAckSink_reset fuel d s = Ok (d', s') /\ budget fuel s' es' n /\
    save_ (sink d') = None /\ event_ (delay_timer_ d') ∉ es' /\
    delack_st N d0 d' s' (log_reset (map pkt (waiting_seg d)) g) es' None.
Proof.
  intros [Hi Ho Hs Hp Hf Hw] Hb.
  destruct (timer_off N (told g) (taken_in g) d s es w fuel n Hi Hb)
    as (t & s' & es' & E & Ht' & Hidle & Hsame & Hb' & Hto).
  assert (Hsi : sink_inv (told g) N (taken_in g) (sink d)).
  { destruct (di_sink _ _ _ _ _ _ _ Hi) as (got & bs & ? & ?). exists got, bs. split_and!; try done. apply Hi. }
  destruct (TcpSink_reset_ok (told g) N (clock_ s') (taken_in g) (sink d) Hsi)
    as (k & Ek & (got & bs & Hk & Hkn & Hm) & Eds & Enb & _ & Hn).
  unfold DelAckSink_reset. rewrite E. cbn [rbind]. rewrite Ek. cbn [rbind].
  eexists _, s', es'. split; [done|]. split; [done|]. split; [done|]. destruct Hsame as [Ee Et]. split.
  { cbn [delay_timer_ with_timer]. intros Hin%(ti_pending _ _ _ _ Ht'). congruence. }
  constructor; cbn [log_reset came taken_in told sent gone dropped]; try done.
  - constructor; cbn [sink delay_timer_ interval_ with_timer];
      [by exists got, bs|done|done|by rewrite Hn|intros q; by rewrite Hn|done|apply Hi].
  - cbn [delay_timer_ with_timer]. rewrite Ee, Et. by eapply owned_touches.
  - destruct Hs as [S1 S2 S3 [S4 S5]]. split; cbn; [congruence..|]. split; congruence.
  - unfold waiting_seg at 2. cbn [sink with_timer]. rewrite Hn, Hp. cbn. solve_Permutation.
  - intros q. cbn [sink with_timer]. by rewrite Hn.
Qed.

Lemma delack_run_inv fuel N n m d0 s0 d s g :
  delack_run fuel N d0 s0 n d s g -> delack_idle d0 s0 -> enough N fuel -> budget fuel s0 [] (n + m) ->
  exists es w, delack_st N d0 d s g es w /\ budget fuel s es m.
Proof.
  intros Hrun Hid HN. revert m. induction Hrun as
    [|n d s g o d' s' acts Hrun IH Ho E|n d s g d' s' acts Hrun IH E|n d s g h e t s' Hrun IH Hfe E
     |n d s g d' s' Hrun IH E]; intros m Hb.
  - exists [], None. split; [by apply idle_st|done].
  - destruct (IH (1 + m)%nat) as (es & w & Hst & Hb'); [by rewrite Nat.add_succ_r|].
    destruct (recv_st N fuel m o d0 d s g es w Hst HN Ho Hb') as (d1 & s1 & acts1 & es1 & w1 & E1 & Hb1 & Hst1).
    rewrite E in E1. injection E1 as <- <- <-. eauto.
  - destruct (IH m) as (es & w & Hst & Hb'); [eapply budget_mono; [|exact Hb]; lia|].
    destruct (halted_ s) eqn:Hh.
    { unfold delack_next in E. cbn [run_steps] in E. by rewrite Hh in E. }
    destruct es as [|p es].
    + pose proof (ti_sched _ _ _ _ (di_timer _ _ _ _ _ _ _ (ds_inv _ _ _ _ _ _ _ Hst))) as Hok.
      destruct (budget_mono _ _ _ _ 0 ltac:(lia) Hb') as (Hroom & Hlen & _).
      destruct (no_next fuel s Hok ltac:(simpl in Hlen; lia) Hroom Hh) as (s1 & tr & E1).
      unfold delack_next in E. by rewrite E1 in E.
    + destruct (next_st N fuel m d0 d s g p es w Hst HN Hb' Hh) as (d1 & s1 & a1 & w1 & E1 & Hb1 & _ & _ & Hst1 & _).
      rewrite E in E1. injection E1 as <- <- <-. eauto.
  - destruct (IH (1 + m)%nat) as (es & w & Hst & Hb'); [by rewrite Nat.add_succ_r|].
    destruct (schedule_st N fuel m d0 d s g es w h e t s' Hst Hfe Hb' E) as (es' & ? & ?). eauto.
  - destruct (IH (1 + m)%nat) as (es & w & Hst & Hb'); [by rewrite Nat.add_succ_r|].
    destruct (reset_st N fuel m d0 d s g es w Hst Hb') as (d1 & s1 & es1 & E1 & Hb1 & _ & _ & Hst1).
    rewrite E in E1. injection E1 as <- <-. eauto.
Qed.

(** ** The events that wait are dispatched, [k] at most *)

Fixpoint delack_nexts (k fuel : nat) d s : result (DelAckSink * sched Q * list sink_act) :=
  match k with
  | O => Ok (d, s, [])
  | S k =>
      let! y := delack_next fuel d s in
      match y with
      | None => Ok (d, s, [])
      | Some (d, s, acts) =>
          let! '(d, s, acts') := delack_nexts k fuel d s in Ok (d, s, acts ++ acts')
      end
  end.

Lemma nexts_quiet N k fuel d0 d s g es w :
  delack_st N d0 d s g es w -> enough N fuel -> budget fuel s es 0 -> halted_ s = false ->
  save_ (sink d) = None -> exists s', delack_nexts k fuel d s = Ok (d, s', []).
Proof.
  revert s es. induction k as [|k IH]; intros s es Hst HN Hb Hh Hs; cbn [delack_nexts]; [by eexists|].
  pose proof (di_timer _ _ _ _ _ _ _ (ds_inv _ _ _ _ _ _ _ Hst)) as Ht.
  destruct es as [|p es].
  - destruct Hb as (Hroom & Hlen & _).
    destruct (no_next fuel s (ti_sched _ _ _ _ Ht) ltac:(simpl in Hlen; lia) Hroom Hh) as (s1 & tr & E1).
    unfold delack_next. rewrite E1. by eexists.
  - destruct (next_st N fuel 0 d0 d s g p es w Hst HN Hb Hh)
      as (d' & s' & acts & w' & -> & Hb' & Hh' & Hcase & Hst' & _). cbn [rbind].
    rewrite decide_False in Hcase.
    + destruct Hcase as (-> & -> & ->). rewrite log_nothing in Hst'.
      destruct (IH s' es) as (s2 & ->); try done; by eexists.
    + intros ->. pose proof (proj2 (ti_pending _ _ _ _ Ht) ltac:(by left)) as Hp.
      by rewrite (di_status _ _ _ _ _ _ _ (ds_inv _ _ _ _ _ _ _ Hst)), Hs in Hp.
Qed.

Lemma nexts_ack N k fuel d0 d s g es w q :
  delack_st N d0 d s g es w -> enough N fuel -> budget fuel s es 0 -> halted_ s = false ->
  save_ (sink d) = Some q -> (length es < k)%nat ->
  exists d' s' a, delack_nexts k fuel d s = Ok (d', s', [SendAck a; FreePkt (pkt q)]) /\
    save_ (sink d') = None /\ w = Some (ak_ts a) /\ ack_fits (before_reset (told g)) (nblocks (sink d0)) (taken_in g) q a.
Proof.
  revert k s. induction es as [|p es IH]; intros k s Hst HN Hb Hh Hq Hk;
    pose proof (di_timer _ _ _ _ _ _ _ (ds_inv _ _ _ _ _ _ _ Hst)) as Ht.
  - exfalso. apply (not_elem_of_nil (event_ (delay_timer_ d))), (ti_pending _ _ _ _ Ht).
    by rewrite (di_status _ _ _ _ _ _ _ (ds_inv _ _ _ _ _ _ _ Hst)), Hq.
  - destruct k as [|k]; [simpl in Hk; lia|]. cbn [delack_nexts].
    destruct (next_st N fuel 0 d0 d s g p es w Hst HN Hb Hh)
      as (d' & s' & acts & w' & -> & Hb' & Hh' & Hcase & Hst' & Hfire). cbn [rbind].
    destruct (decide (p = event_ (delay_timer_ d))) as [Hp|Hp].
    + destruct (Hfire Hp) as (q' & a & Hq' & -> & -> & Hfit). rewrite Hq in Hq'. injection Hq' as <-.
      destruct (nexts_quiet _ k _ _ _ _ _ _ _ Hst' HN Hb' Hh' Hcase) as (s2 & ->).
      cbn [rbind]. by exists d', s2, a.
    + destruct Hcase as (-> & -> & ->). rewrite log_nothing in Hst'.
      destruct (IH k s') as (d2 & s2 & a & -> & H2); try done; [simpl in Hk; lia|].
      cbn [rbind]. by exists d2, s2, a.
Qed.
End run.
