(* ===== verification/TcpSinkTheorems.v ===== *)
(** * The TCP sink: theorems

    What a sender may rely on: acknowledgments are cumulative, the blocks of
    the selective acknowledgment option are runs of segments that have come,
    up to blocks left from before a reset, the application gets each byte in
    order once, and an acknowledgment is delayed by no more than the interval. *)

From stdpp Require Import base numbers list gmap.
From Stdlib Require Import ZArith Lia Bool.
From S2P Require Import Prelude.
From S2P Require Import Store.
From S2P Require Import Float64.
From S2P Require Import EventQueue.
From S2P Require Import ListScheduler.
From S2P Require Import Scheduler.
From S2P Require Import Timer.
From S2P Require Import Acker.
From S2P Require Import AckerProps.
From S2P Require Import SackProps.
From S2P Require Import TcpSink.
From S2P Require Import TcpSinkProps.
From S2P Require Import DelAckProps.
From S2P Require Import DelAckRun.

Open Scope Z_scope.

(** ** The plain sink *)

(** C8: a sink receives any packets with numbers below [N], in any order, some
    more than once, with resets in between.  It frees each packet once, and
    acknowledges at once each one that was not sent before the last reset:
    with the number up to which every segment since that reset has come, and
    with blocks that are a true account of the segments above (a duplicate is
    reported only if it is one; a run of segments is above the next one
    expected and has come entirely; the first run is the whole run of segments
    around the one that came, if that one is above).  A reset runs the reset of
    the base class, which keeps the blocks of [Sacker]: blocks reported before
    the last reset may be reported again after it, at the end of the list, and
    there are no others; with no reset every block is true. *)
Theorem sink_acks_every_segment (fuel : nat) (N : Z) (k : TcpSink) (xs : list sink_op)
  (Hk : fresh_sink k) (HN : enough N fuel) (Hxs : Forall (in_window N) (arrivals xs)) :
  exists k' acts, sink_run fuel xs k = Ok (k', acts) /\
    acks_right (generate_dsacks_ k) (nblocks k) (lastreset_ k) no_reports [] xs (acks acts) /\
    freed acts = map pkt (arrivals xs).
Proof.
  destruct (sink_run_ok N fuel xs no_reports [] k (fresh_sink_inv N k Hk) HN Hxs)
    as (_ & k' & acts & E & _ & Ha & Hf).
  by exists k', acts.
Qed.

(** A sink with three blocks, and segments 0, 2, 2, 3, 1. *)
Definition sample_sink : TcpSink :=
  mkTcpSink (new_Acker false) (Some (mkSacker 3 (mkSackStack 3 0 (replicate 3 no_block))))
    false false None true false true false 0 f0 false 40.

Definition sample_seg (p : positive) (n : Z) (ts : f64) : segment :=
  mkSegment p 1000 0 64 n ts 0 0 0 0 0 0 0.

Definition sample_ops : list sink_op :=
  [Arrive f0 (sample_seg 1 0 f0); Arrive f0 (sample_seg 2 2 f0); Arrive f0 (sample_seg 3 2 f0);
   Arrive f0 (sample_seg 4 3 f0); Arrive f1 (sample_seg 5 1 f0)].

(** Then a reset, a packet sent before it and two sent after it. *)
Definition sample_reset_ops : list sink_op :=
  sample_ops ++ [ResetSink f1; Arrive f1 (sample_seg 6 4 f0); Arrive f1 (sample_seg 7 0 f1);
                 Arrive f1 (sample_seg 8 3 f1)].

(** Segments 0 and 2, a reset, and segment 5. *)
Definition stale_ops : list sink_op :=
  [Arrive f0 (sample_seg 1 0 f0); Arrive f0 (sample_seg 2 2 f0); ResetSink f1;
   Arrive f1 (sample_seg 3 5 f1)].

Lemma sample_sink_fresh : fresh_sink sample_sink.
Proof. constructor; [by exists false|intros x [= <-]; by exists 7|done]. Qed.

Lemma sample_enough : enough 6 100.
Proof. split; lia. Qed.

Lemma sample_reset_in_window : Forall (in_window 6) (arrivals sample_reset_ops).
Proof. repeat constructor; cbn; lia. Qed.

Lemma sink_acks_every_segment_witness :
  exists k' acts, sink_run 100 sample_reset_ops sample_sink = Ok (k', acts) /\
    acks_right true (Some 3) f0 no_reports [] sample_reset_ops (acks acts) /\
    freed acts = [1; 2; 3; 4; 5; 6; 7; 8]%positive.
Proof.
  exact (sink_acks_every_segment 100 6 sample_sink sample_reset_ops sample_sink_fresh sample_enough
    sample_reset_in_window).
Defined.

(** The numbers and the blocks of the seven acknowledgments. *)
Example sample_acks :
  (let! '(_, acts) := sink_run 100 sample_reset_ops sample_sink in
   Ok (map (fun p => (ak_seqno p, ak_sacks p)) (acks acts))) =
  Ok [(0, []); (0, [(2, 3)]); (0, [(2, 3); (2, 3)]); (0, [(2, 4)]); (3, []); (0, []);
      (0, [(3, 4)])].
Proof. vm_compute. reflexivity. Qed.

(** After the reset the sink reports segment 2, which has not come again. *)
Example reset_keeps_blocks :
  (let! '(_, acts) := sink_run 100 stale_ops sample_sink in
   Ok (map (fun p => (ak_seqno p, ak_sacks p)) (acks acts))) =
  Ok [(0, []); (0, [(2, 3)]); (-1, [(5, 6); (2, 3)])] /\
  history f0 stale_ops [] = [5].
Proof. split; vm_compute; reflexivity. Qed.

(** C11: where the size of a segment is a function [sz] of its number, what the
    application gets between two resets adds up to the sizes of the segments
    up to the number [m] acknowledged, each counted once, whatever came twice
    or out of order. *)
Theorem sink_delivers_in_order (fuel : nat) (N : Z) (sz : Z -> Z) (k : TcpSink) (xs : list sink_op)
  (Hk : fresh_sink k) (HN : enough N fuel) (Hxs : Forall (in_window N) (arrivals xs))
  (Hp : plain_run k xs) (Hsz : Forall (fun o => sg_size o = sz (sg_seqno o)) (arrivals xs))
  (Hpos : forall i, 0 < sz i) (Hsum : sum_range sz 0 (Z.max 1 N) < 2 ^ 31) :
  exists k' acts m, sink_run fuel xs k = Ok (k', acts) /\
    cumulative (history (lastreset_ k) xs []) m /\ sumZ (received acts) = sum_range sz 0 (m + 1).
Proof.
  destruct (fresh_sink_inv N k Hk) as (got & es & Hok & Hkn & Hm).
  destruct (sink_run_ok N fuel xs no_reports [] k (fresh_sink_inv N k Hk) HN Hxs)
    as (R' & k' & acts & E & Hi & _).
  destruct Hi as (got' & es' & Hok' & Hkn' & _). exists k', acts, (next_ (acker_ k') - 1).
  split; [done|]. split; [eapply knows_cumulative; [apply Hok'|done]|].
  pose proof (sink_run_bytes N fuel sz xs no_reports [] k got es k' acts Hok Hkn Hm HN Hxs Hp) as H.
  rewrite Z.sub_add. rewrite <- H; try done.
  - destruct Hk as [[dup ->] _ _]. cbn [next_ new_Acker].
    assert (sum_range sz 0 0 = 0) as -> by done. by rewrite Z.add_0_r.
  - intros i Hi. exfalso. apply Hkn in Hi. by apply elem_of_nil in Hi.
Qed.

Lemma sink_delivers_in_order_witness :
  exists k' acts m, sink_run 100 sample_ops sample_sink = Ok (k', acts) /\
    cumulative [1; 3; 2; 2; 0] m /\ sumZ (received acts) = sum_range (fun _ => 1000) 0 (m + 1).
Proof.
  apply (sink_delivers_in_order 100 6 (fun _ => 1000) sample_sink sample_ops sample_sink_fresh sample_enough).
  - repeat constructor; cbn; lia.
  - repeat constructor.
  - repeat constructor.
  - intros i. lia.
  - vm_compute. reflexivity.
Defined.

(** ** The sink that delays *)

Section delack.
Context {Q : Type} `{EventQueueLaws Q}.
Implicit Types (d : DelAckSink) (s : sched Q).

(** C9: after any run of a delayed-acknowledgment sink, with any event queue
    and any events of other objects in between: every packet that came has
    been freed once, was dropped by a reset, or waits; every acknowledgment
    sent was cumulative when it was sent, and its blocks were true, but for
    ones at the end that had been reported before the last reset; if a segment
    waits, its acknowledgment is scheduled for the time it came plus the
    interval, which has not passed; if none waits, all that has come in order
    has been acknowledged. *)
Theorem delack_acks_in_time (fuel n : nat) (N : Z) d0 s0 d s g
  (Hid : delack_idle d0 s0) (HN : enough N fuel) (Hrun : delack_run fuel N d0 s0 n d s g)
  (Hb : budget fuel s0 [] n) :
  map pkt (map snd (came g)) ≡ₚ gone g ++ dropped g ++ map pkt (waiting_seg d) /\
  Forall (sent_ok (nblocks (sink d0)) (map snd (came g))) (sent g) /\
  match save_ (sink d) with
  | Some q => exists t, (t, q) ∈ came g /\ status_ (delay_timer_ d) = TIMER_PENDING /\
      tm (evs s) (event_ (delay_timer_ d)) = fadd t (interval_ d0) /\
      fle (clock_ s) (fadd t (interval_ d0)) = true
  | None => status_ (delay_timer_ d) = TIMER_IDLE /\
      (taken_in g <> [] -> cumulative (taken_in g) (last_ack_sent_ (acker_ (sink d))))
  end.
Proof.
  destruct (delack_run_inv fuel N n 0 d0 s0 d s g Hrun Hid HN) as (es & w & Hst & _); [by rewrite Nat.add_0_r|].
  pose proof Hst as [Hi _ Hs Hp Hf Hw]. split; [done|]. split; [done|].
  pose proof Hi as [(got & bs & Hok & Hkn) _ Ht Hstat _ Hack _].
  destruct (save_ (sink d)) as [q|].
  - destruct (Hw q eq_refl) as (t & Hin & Hwt). exists t. split; [done|]. split; [done|].
    pose proof (ti_time _ _ _ _ Ht) as Htm. rewrite decide_True in Htm by done.
    assert (Etm : tm (evs s) (event_ (delay_timer_ d)) = fadd t (interval_ d0)) by congruence.
    split; [done|]. rewrite <- Etm. eapply w_future; [apply Ht|]. by apply (ti_pending _ _ _ _ Ht).
  - split; [done|]. intros Hne. rewrite Hack by done. eapply knows_cumulative; [apply Hok|done].
Qed.

(** From every state such a run reaches, the next packet, the next event
    and a reset are handled without a fault. *)
Theorem delack_never_faults (fuel n : nat) (N : Z) d0 s0 d s g
  (Hid : delack_idle d0 s0) (HN : enough N fuel) (Hrun : delack_run fuel N d0 s0 n d s g)
  (Hb : budget fuel s0 [] (n + 1)) :
  (forall o, in_window N o -> exists y, DelAckSink_recv fuel o d s = Ok y) /\
  (exists y, delack_next fuel d s = Ok y) /\ (exists y, DelAckSink_reset fuel d s = Ok y).
Proof.
  destruct (delack_run_inv fuel N n 1 d0 s0 d s g Hrun Hid HN Hb) as (es & w & Hst & Hb').
  split_and!.
  - intros o Ho. destruct (recv_st N fuel 0 o d0 d s g es w Hst HN Ho Hb') as (? & ? & ? & ? & ? & E & _).
    rewrite E. by eexists.
  - destruct (halted_ s) eqn:Hh.
    { unfold delack_next. cbn [run_steps]. rewrite Hh. cbn [rbind]. by eexists. }
    destruct es as [|p es].
    + destruct (budget_weaken _ _ _ _ Hb') as (Hroom & Hlen & _).
      destruct (no_next fuel s (ti_sched _ _ _ _ (di_timer _ _ _ _ _ _ _ (ds_inv _ _ _ _ _ _ _ Hst)))
        ltac:(simpl in Hlen; lia) Hroom Hh) as (s1 & tr & E1).
      unfold delack_next. rewrite E1. by eexists.
    + destruct (next_st N fuel 1 d0 d s g p es w Hst HN Hb' Hh) as (? & ? & ? & ? & -> & _). by eexists.
  - destruct (reset_st N fuel 0 d0 d s g es w Hst Hb') as (? & ? & ? & -> & _). by eexists.
Qed.

(** C10: a segment that waits is acknowledged: when no more packets come, the
    events that wait are dispatched and the sink sends one acknowledgment, at
    exactly the time the segment came plus the interval, and frees it.  The
    acknowledgment is cumulative and its blocks are true, but for ones at the
    end that had been reported before the last reset. *)
Theorem delack_ack_is_sent (fuel n : nat) (N : Z) d0 s0 d s g q
  (Hid : delack_idle d0 s0) (HN : enough N fuel) (Hrun : delack_run fuel N d0 s0 n d s g)
  (Hb : budget fuel s0 [] n) (Hh : halted_ s = false) (Hq : save_ (sink d) = Some q) :
  exists d' s' a t, delack_nexts fuel fuel d s = Ok (d', s', [SendAck a; FreePkt (pkt q)]) /\
    save_ (sink d') = None /\ (t, q) ∈ came g /\ ak_ts a = fadd t (interval_ d0) /\
    ack_fits (before_reset (told g)) (nblocks (sink d0)) (taken_in g) q a.
Proof.
  destruct (delack_run_inv fuel N n 0 d0 s0 d s g Hrun Hid HN) as (es & w & Hst & Hb');
    [by rewrite Nat.add_0_r|].
  destruct (nexts_ack N fuel fuel d0 d s g es w q Hst HN Hb' Hh Hq) as (d' & s' & a & E & Hn & Hw & Hf).
  { destruct Hb' as (_ & Hl & _). lia. }
  destruct (ds_waits _ _ _ _ _ _ _ Hst q Hq) as (t & Hin & Ht). exists d', s', a, t.
  split_and!; try done. congruence.
Qed.

(** A reset cancels the timer and forgets the segment that waits, but does
    not free it: with all that came freed, dropped or waiting before the reset,
    nothing waits after it and the run goes on with one packet more dropped if
    one waited. *)
Theorem delack_reset_forgets (fuel n : nat) (N : Z) d0 s0 d s g
  (Hid : delack_idle d0 s0) (HN : enough N fuel) (Hrun : delack_run fuel N d0 s0 n d s g)
  (Hb : budget fuel s0 [] (n + 1)) :
  exists d' s', DelAckSink_reset fuel d s = Ok (d', s') /\
    delack_run fuel N d0 s0 (S n) d' s' (log_reset (map pkt (waiting_seg d)) g) /\
    waiting_seg d' = [] /\ status_ (delay_timer_ d') = TIMER_IDLE /\
    map pkt (map snd (came g)) ≡ₚ gone g ++ dropped g ++ map pkt (waiting_seg d).
Proof.
  destruct (delack_run_inv fuel N n 1 d0 s0 d s g Hrun Hid HN Hb) as (es & w & Hst & Hb').
  destruct (reset_st N fuel 0 d0 d s g es w Hst Hb') as (d' & s' & es' & E & _ & Hn & _ & Hst').
  exists d', s'. split; [done|]. split; [by econstructor|]. split; [unfold waiting_seg; by rewrite Hn|].
  split; [|apply Hst]. by rewrite (di_status _ _ _ _ _ _ _ (ds_inv _ _ _ _ _ _ _ Hst')), Hn.
Qed.
End delack.

(** *** A sink with an interval of 1 s and a list scheduler *)

Definition sample_delack : DelAckSink := mkDelAckSink sample_sink f1 (mkTimer TIMER_IDLE 7 2).

Lemma sample_delack_idle : delack_idle sample_delack sample_sched.
Proof.
  pose proof sample_timer_ok as Ht. constructor; [apply sample_sink_fresh|apply Ht|done|by eexists|done].
Qed.

Definition da_state : Type := DelAckSink * sched listq * list sink_act.
Definition da_after (r : result da_state) : da_state :=
  match r with Ok y => y | _ => (sample_delack, sample_sched, []) end.
Definition da_now (y : da_state) : DelAckSink := fst (fst y).
Definition ds_now (y : da_state) : sched listq := snd (fst y).

(** Segment 0 comes, and its acknowledgment waits. *)
Definition sample_waiting : da_state :=
  da_after (DelAckSink_recv 100 (sample_seg 1 0 f0) sample_delack sample_sched).
Definition sample_waiting_log : log :=
  log_acts [0] (snd sample_waiting) (log_came f0 (sample_seg 1 0 f0) no_log).

(** Segment 2 comes out of order: both are acknowledged. *)
Definition sample_both : da_state :=
  da_after (DelAckSink_recv 100 (sample_seg 2 2 f0) (da_now sample_waiting) (ds_now sample_waiting)).
Definition sample_both_log : log :=
  log_acts [2; 0] (snd sample_both)
    (log_came (clock_ (ds_now sample_waiting)) (sample_seg 2 2 f0) sample_waiting_log).

Lemma sample_waiting_run :
  delack_run 100 6 sample_delack sample_sched 1 (da_now sample_waiting) (ds_now sample_waiting)
    sample_waiting_log.
Proof.
  apply (dr_recv 100 6 sample_delack sample_sched 0 sample_delack sample_sched no_log
    (sample_seg 1 0 f0)); [apply dr_start|split; cbn; lia|vm_compute; reflexivity].
Qed.

Lemma sample_both_run :
  delack_run 100 6 sample_delack sample_sched 2 (da_now sample_both) (ds_now sample_both) sample_both_log.
Proof.
  apply (dr_recv 100 6 sample_delack sample_sched 1 (da_now sample_waiting) (ds_now sample_waiting)
    sample_waiting_log (sample_seg 2 2 f0));
    [apply sample_waiting_run|split; cbn; lia|vm_compute; reflexivity].
Qed.

Lemma sample_da_budget n : (n < 50)%nat -> budget 100 sample_sched [] n.
Proof. intros. split_and!; cbn; lia || done. Qed.

Lemma sample_saved : save_ (sink (da_now sample_waiting)) = Some (sample_seg 1 0 f0).
Proof. vm_compute. reflexivity. Qed.

Lemma sample_unsaved : save_ (sink (da_now sample_both)) = None.
Proof. vm_compute. reflexivity. Qed.

Lemma delack_acks_in_time_witness :
  (exists t, (t, sample_seg 1 0 f0) ∈ came sample_waiting_log /\
     tm (evs (ds_now sample_waiting)) (event_ (delay_timer_ (da_now sample_waiting))) = fadd t f1) /\
  cumulative [2; 0] (last_ack_sent_ (acker_ (sink (da_now sample_both)))).
Proof.
  pose proof (delack_acks_in_time 100 1 6 _ _ _ _ _ sample_delack_idle sample_enough sample_waiting_run
    (sample_da_budget 1 ltac:(lia))) as (_ & _ & H1).
  pose proof (delack_acks_in_time 100 2 6 _ _ _ _ _ sample_delack_idle sample_enough sample_both_run
    (sample_da_budget 2 ltac:(lia))) as (_ & _ & H2).
  rewrite sample_saved in H1. rewrite sample_unsaved in H2.
  destruct H1 as (t & H1 & _ & H3 & _). destruct H2 as [_ H2]. split; [|by apply H2].
  exists t. split; [exact H1|exact H3].
Defined.

Lemma delack_never_faults_witness :
  (exists y, DelAckSink_recv 100 (sample_seg 3 1 f0) (da_now sample_waiting) (ds_now sample_waiting) = Ok y) /\
  (exists y, delack_next 100 (da_now sample_waiting) (ds_now sample_waiting) = Ok y).
Proof.
  destruct (delack_never_faults 100 1 6 _ _ _ _ _ sample_delack_idle sample_enough sample_waiting_run
    (sample_da_budget 2 ltac:(lia))) as (H1 & H2 & _).
  split; [apply H1; split; cbn; lia|exact H2].
Defined.

Lemma delack_ack_is_sent_witness :
  exists d' s' a t, delack_nexts 100 100 (da_now sample_waiting) (ds_now sample_waiting) =
      Ok (d', s', [SendAck a; FreePkt 1]) /\
    save_ (sink d') = None /\ (t, sample_seg 1 0 f0) ∈ came sample_waiting_log /\ ak_ts a = fadd t f1 /\
    ack_fits [] (Some 3) [0] (sample_seg 1 0 f0) a.
Proof.
  apply (delack_ack_is_sent 100 1 6 _ _ _ _ _ (sample_seg 1 0 f0) sample_delack_idle sample_enough
    sample_waiting_run (sample_da_budget 1 ltac:(lia))); vm_compute; reflexivity.
Defined.

Lemma delack_reset_forgets_witness :
  exists d' s', DelAckSink_reset 100 (da_now sample_waiting) (ds_now sample_waiting) = Ok (d', s') /\
    delack_run 100 6 sample_delack sample_sched 2 d' s' (log_reset [1%positive] sample_waiting_log) /\
    waiting_seg d' = [].
Proof.
  destruct (delack_reset_forgets 100 1 6 _ _ _ _ _ sample_delack_idle sample_enough sample_waiting_run
    (sample_da_budget 2 ltac:(lia))) as (d' & s' & H1 & H2 & H3 & _).
  exists d', s'. by split_and!.
Defined.
