(* ===== verification/Deque.v ===== *)
(** * Doubly linked lists with a head and a tail

    The reassembly queue (tcp/rq.cc) threads its segments on two lists at
    once, one through [next_]/[prev_], one through [snext_]/[sprev_]; both
    have a head and a tail pointer and are changed by the same lines of code,
    written here over [Linked]. *)

From stdpp Require Import base numbers list gmap.
From Stdlib Require Import ZArith Lia.
From S2P Require Import Prelude.
From S2P Require Import Store.
From S2P Require Import Dlist.
From S2P Require Import Ring.

Section ops.
Context {T D : Type} `{Linked T D}.
Implicit Types (B : gmap positive T) (hd tl p q : option positive).

(** [if (p->prev) p->prev->next = p->next; else head = p->next;
     if (p->next) p->next->prev = p->prev; else tail = p->prev;] *)
Definition dq_unlink (l : positive) hd tl B
  : result (option positive * option positive * gmap positive T) :=
  let! v := load B (Some l) in
  let! '(hd, B) :=
    match prev_of v with
    | Some _ => let! B := store B (prev_of v) (with_next (next_of v)) in Ok (hd, B)
    | None => Ok (next_of v, B)
    end in
  let! v := load B (Some l) in
  let! '(tl, B) :=
    match next_of v with
    | Some _ => let! B := store B (next_of v) (with_prev (prev_of v)) in Ok (tl, B)
    | None => Ok (prev_of v, B)
    end in
  Ok (hd, tl, B).

(** [if (p) p->next = n; else head = n;] *)
Definition dq_hang_prev (n : positive) p hd B : result (option positive * gmap positive T) :=
  match p with
  | Some _ => let! B := store B p (with_next (Some n)) in Ok (hd, B)
  | None => Ok (Some n, B)
  end.

(** [if (q) q->prev = n; else tail = n;] *)
Definition dq_hang_next (n : positive) q tl B : result (option positive * gmap positive T) :=
  match q with
  | Some _ => let! B := store B q (with_prev (Some n)) in Ok (tl, B)
  | None => Ok (Some n, B)
  end.
End ops.

Section spec.
Context {T D : Type} `{LinkedLaws T D}.
Implicit Types (B : gmap positive T) (hd tl p q : option positive) (ks : list positive).

Abbreviation links := (dseg next_of prev_of).

(** The whole list, from [hd] to [tl]. *)
Definition deque_of B hd tl ks : Prop := links B None hd ks tl None.

Lemma deque_NoDup B hd tl ks : deque_of B hd tl ks -> NoDup ks.
Proof. apply dseg_NoDup. Qed.

Lemma deque_head B hd tl ks : deque_of B hd tl ks -> hd = head ks.
Proof. intros Hd. apply dseg_seg in Hd. by eapply seg_head. Qed.

Lemma deque_tail B hd tl ks : deque_of B hd tl ks -> tl = last ks.
Proof. intros Hd. apply dseg_last in Hd. rewrite Hd. by destruct (last ks). Qed.

Lemma deque_agree B B' hd tl ks :
  (forall l, l ∈ ks -> B' !! l = B !! l) -> deque_of B hd tl ks -> deque_of B' hd tl ks.
Proof. intros A. apply dseg_agree; intros l Hl; by rewrite A. Qed.

Lemma deque_set_data B hd tl ks l v v' :
  B !! l = Some v -> next_of v' = next_of v -> prev_of v' = prev_of v ->
  deque_of B hd tl ks -> deque_of (<[l := v']> B) hd tl ks.
Proof. apply dseg_insert_same. Qed.

Lemma links_rev B pv p ks lst q : links B pv p ks lst q -> dseg prev_of next_of B q lst (reverse ks) p pv.
Proof.
  revert pv p. induction ks as [|k ks IH]; intros pv p; simpl.
  - by intros [-> ->].
  - intros [-> (v & Hv & Hp & Hl)]. rewrite reverse_cons. apply dseg_app.
    exists (next_of v), (Some k). split; [by apply IH|]. split; [done|]. exists v. by split_and!.
Qed.

Lemma deque_seg_rev B hd tl ks : deque_of B hd tl ks -> seg prev_of B tl (reverse ks) None.
Proof. intros Hd. by apply links_rev, dseg_seg in Hd. Qed.

(** The neighbours of an element. *)
Lemma deque_neighbours B hd tl pre l post :
  deque_of B hd tl (pre ++ l :: post) ->
  exists v, B !! l = Some v /\ prev_of v = last pre /\ next_of v = head post.
Proof.
  intros Hd. apply dseg_app in Hd as (m & r & H1 & [-> (v & Hv & Hp & H2)]).
  exists v. split; [done|]. split.
  - rewrite Hp. apply dseg_last in H1. rewrite H1. by destruct (last pre).
  - apply dseg_seg in H2. by eapply seg_head.
Qed.

Lemma dq_unlink_spec B hd tl pre l post :
  deque_of B hd tl (pre ++ l :: post) ->
  exists hd' tl' B', dq_unlink l hd tl B = Ok (hd', tl', B') /\
    deque_of B' hd' tl' (pre ++ post) /\ rehung (pre ++ post) B B'.
Proof.
  intros Hd. pose proof (deque_NoDup _ _ _ _ Hd) as Hnd.
  apply NoDup_app in Hnd as (Hnd1 & Hdis & [Hl Hnd2]%NoDup_cons).
  assert (Hlp : l ∉ pre) by (intros ?; apply (Hdis l); set_solver).
  apply dseg_app in Hd as (m & r & H1 & [-> (v & Hv & Hp & H2)]).
  unfold dq_unlink. rewrite (load_Some _ _ _ Hv). cbn [rbind]. rewrite Hp.
  pose proof (dseg_last _ _ _ _ _ _ _ _ H1) as Hm.
  assert (Hleft : exists hd1 B1,
    match m with
    | Some _ => let! B := store B m (with_next (next_of v)) in Ok (hd, B)
    | None => Ok (next_of v, B)
    end = Ok (hd1, B1) /\ links B1 None hd1 pre m (next_of v) /\ rehung pre B B1).
  { destruct pre as [|t pre _] using rev_ind.
    - simpl in Hm. rewrite Hm in H1 |- *. exists (next_of v), B. split; [done|]. split; [by split|apply rehung_refl].
    - rewrite last_snoc in Hm. rewrite Hm in H1 |- *.
      destruct (seg_lookup next_of _ _ _ _ t (dseg_seg _ _ _ _ _ _ _ _ H1)) as [w Hw]; [set_solver|].
      rewrite (store_Some _ _ _ _ Hw). exists hd, (<[t := with_next (next_of v) w]> B).
      split; [done|]. split.
      + eapply links_set_last; [done..| |]; [by rewrite prev_with_next|by rewrite next_with_next].
      + eapply rehung_set; [set_solver|done|by rewrite data_with_next]. }
  destruct Hleft as (hd1 & B1 & -> & L1 & R1). cbn [rbind].
  assert (Hv1 : B1 !! l = Some v) by (by rewrite (proj1 R1)).
  rewrite (load_Some _ _ _ Hv1). cbn [rbind]. rewrite Hp.
  assert (H2' : links B1 (Some l) (next_of v) post tl None).
  { eapply dseg_agree; [| |exact H2]; intros k Hk; rewrite (proj1 R1); [done| |done|];
      intros ?; apply (Hdis k); set_solver. }
  destruct post as [|k post].
  - destruct H2' as [Hn Ht]. rewrite Hn in L1 |- *. exists hd1, m, B1.
    rewrite app_nil_r. split; [done|]. by split.
  - pose proof H2' as [Hn (w & Hw & _)]. rewrite Hn. rewrite (store_Some _ _ _ _ Hw). cbn [rbind].
    assert (Hkp : k ∉ pre) by (intros ?; apply (Hdis k); set_solver).
    exists hd1, tl, (<[k := with_prev m w]> B1). split; [done|]. split.
    + apply dseg_app. exists m, (next_of v). split; [by apply dseg_insert_notin|].
      eapply links_set_first; [done|exact H2'|done| |]; [by rewrite next_with_prev|by rewrite prev_with_prev].
    + eapply rehung_trans; [eapply rehung_mono; [|exact R1]; clear; set_solver|].
      eapply rehung_set; [clear; set_solver|done|by rewrite data_with_prev].
Qed.

(** [n], with its own links set, joins the list between [pre] and [post]. *)
Lemma dq_hang_spec B hd tl pre post n w :
  deque_of B hd tl (pre ++ post) -> n ∉ pre ++ post -> B !! n = Some w ->
  prev_of w = last pre -> next_of w = head post ->
  exists hd' B1 tl' B', dq_hang_prev n (last pre) hd B = Ok (hd', B1) /\
    dq_hang_next n (head post) tl B1 = Ok (tl', B') /\
    deque_of B' hd' tl' (pre ++ n :: post) /\ rehung (pre ++ post) B B' /\
    rehung pre B B1 /\ B' !! n = Some w.
Proof.
  intros Hd Hn Hw Hpw Hnw. pose proof (deque_NoDup _ _ _ _ Hd) as Hnd.
  apply NoDup_app in Hnd as (Hnd1 & Hdis & Hnd2). apply not_elem_of_app in Hn as [Hn1 Hn2].
  apply dseg_app in Hd as (m & r & H1 & H2).
  pose proof (dseg_last _ _ _ _ _ _ _ _ H1) as Hm.
  assert (Hr : r = head post) by (apply dseg_seg in H2; by eapply seg_head). subst r.
  assert (Hleft : exists hd1 B1, dq_hang_prev n (last pre) hd B = Ok (hd1, B1) /\
    links B1 None hd1 pre m (Some n) /\ rehung pre B B1).
  { destruct pre as [|t pre _] using rev_ind.
    - simpl in Hm. rewrite Hm in H1 |- *. exists (Some n), B. split; [done|]. split; [by split|apply rehung_refl].
    - rewrite last_snoc in *. rewrite Hm in H1 |- *.
      destruct (seg_lookup next_of _ _ _ _ t (dseg_seg _ _ _ _ _ _ _ _ H1)) as [x Hx]; [set_solver|].
      unfold dq_hang_prev. rewrite (store_Some _ _ _ _ Hx). cbn [rbind].
      exists hd, (<[t := with_next (Some n) x]> B). split; [done|]. split.
      + eapply links_set_last; [done..| |]; [by rewrite prev_with_next|by rewrite next_with_next].
      + eapply rehung_set; [set_solver|done|by rewrite data_with_next]. }
  destruct Hleft as (hd1 & B1 & -> & L1 & R1).
  assert (Hw1 : B1 !! n = Some w) by (by rewrite (proj1 R1)).
  assert (H2' : links B1 m (head post) post tl None).
  { eapply dseg_agree; [| |exact H2]; intros k Hk; rewrite (proj1 R1); [done| |done|];
      intros ?; apply (Hdis k); set_solver. }
  assert (Hml : m = last pre) by (rewrite Hm; by destruct (last pre)).
  destruct post as [|k post]; cbn [head] in *.
  - destruct H2' as [_ <-]. exists hd1, B1, (Some n), B1. rewrite app_nil_r.
    split; [done|]. split; [done|]. split; [|split; [done|by split]]. apply dseg_app. exists m, (Some n).
    split; [done|]. split; [done|]. exists w. by split_and!; [|congruence|].
  - pose proof H2' as [_ (x & Hx & _)].
    exists hd1, B1, tl, (<[k := with_prev (Some n) x]> B1). split; [done|].
    split; [unfold dq_hang_next; by rewrite (store_Some _ _ _ _ Hx)|].
    assert (Hkn : k <> n) by set_solver.
    assert (Hkp : k ∉ pre) by (intros ?; apply (Hdis k); set_solver).
    split; [|split; [|split; [done|by rewrite lookup_insert_ne]]].
    + apply dseg_app. exists m, (Some n). split; [by apply dseg_insert_notin|]. split; [done|].
      exists w. rewrite lookup_insert_ne by done. split; [done|]. split; [congruence|].
      rewrite Hnw. eapply links_set_first; [done|exact H2'|done| |];
        [by rewrite next_with_prev|by rewrite prev_with_prev].
    + eapply rehung_trans; [eapply rehung_mono; [|exact R1]; clear; set_solver|].
      eapply rehung_set; [clear; set_solver|done|by rewrite data_with_prev].
Qed.
End spec.
