(* ===== verification/Rq.v ===== *)
(** * The TCP reassembly queue (tcp/rq.h, tcp/rq.cc)

    A [ReassemblyQueue] keeps the segments received out of order as disjoint
    blocks of sequence numbers: on a list in sequence order (the FIFO), from
    which [rcv_nxt_] advances, and on a stack in order of arrival (the LIFO),
    from which SACK options are generated.  Freed blocks go to a free list.

    Sequence numbers are plain [int]s, compared without wrap-around;
    [total_] and the reference counts are [int]s. *)

From stdpp Require Import base numbers list gmap.
From Stdlib Require Import ZArith Lia Bool.
From S2P Require Import Prelude.
From S2P Require Import Store.
From S2P Require Import Dlist.
From S2P Require Import Ring.
From S2P Require Import Deque.
Open Scope Z_scope.

(** [struct seginfo] *)
Record seginfo := Seginfo {
  next_ : option positive;
  prev_ : option positive;
  snext_ : option positive;
  sprev_ : option positive;
  startseq_ : Z;
  endseq_ : Z;
  pflags_ : Z;
  rqflags_ : Z;
  cnt_ : Z;
}.

(** The two lists a segment is on. *)
Definition fifo : Linked seginfo seginfo := {|
  next_of := next_;
  prev_of := prev_;
  data_of v := Seginfo None None (snext_ v) (sprev_ v) (startseq_ v) (endseq_ v) (pflags_ v)
                 (rqflags_ v) (cnt_ v);
  with_next p v := Seginfo p (prev_ v) (snext_ v) (sprev_ v) (startseq_ v) (endseq_ v) (pflags_ v)
                     (rqflags_ v) (cnt_ v);
  with_prev p v := Seginfo (next_ v) p (snext_ v) (sprev_ v) (startseq_ v) (endseq_ v) (pflags_ v)
                     (rqflags_ v) (cnt_ v);
|}.

Definition lifo : Linked seginfo seginfo := {|
  next_of := snext_;
  prev_of := sprev_;
  data_of v := Seginfo (next_ v) (prev_ v) None None (startseq_ v) (endseq_ v) (pflags_ v)
                 (rqflags_ v) (cnt_ v);
  with_next p v := Seginfo (next_ v) (prev_ v) p (sprev_ v) (startseq_ v) (endseq_ v) (pflags_ v)
                     (rqflags_ v) (cnt_ v);
  with_prev p v := Seginfo (next_ v) (prev_ v) (snext_ v) p (startseq_ v) (endseq_ v) (pflags_ v)
                     (rqflags_ v) (cnt_ v);
|}.

Lemma fifo_laws : @LinkedLaws seginfo seginfo fifo.
Proof. by constructor. Qed.
Lemma lifo_laws : @LinkedLaws seginfo seginfo lifo.
Proof. by constructor. Qed.

(** The members of the object, the class's static free list, the variable
    [rcv_nxt_] refers to, and the segments. *)
Record rq := Rq {
  freelist_ : option positive;
  head_ : option positive;
  tail_ : option positive;
  top_ : option positive;
  bottom_ : option positive;
  hint_ : option positive;
  total_ : Z;
  rcv_nxt_ : Z;
  segs : gmap positive seginfo;
}.

Definition empty_rq (rcvnxt : Z) : rq := Rq None None None None None None 0 rcvnxt ∅.

Definition set_fifo hd tl B (s : rq) : rq :=
  Rq (freelist_ s) hd tl (top_ s) (bottom_ s) (hint_ s) (total_ s) (rcv_nxt_ s) B.
Definition set_lifo tp bt B (s : rq) : rq :=
  Rq (freelist_ s) (head_ s) (tail_ s) tp bt (hint_ s) (total_ s) (rcv_nxt_ s) B.
Definition set_hint x (s : rq) : rq :=
  Rq (freelist_ s) (head_ s) (tail_ s) (top_ s) (bottom_ s) x (total_ s) (rcv_nxt_ s) (segs s).
Definition add_total d (s : rq) : rq :=
  Rq (freelist_ s) (head_ s) (tail_ s) (top_ s) (bottom_ s) (hint_ s) (wrap_i32 (total_ s + d))
    (rcv_nxt_ s) (segs s).
Definition set_total x (s : rq) : rq :=
  Rq (freelist_ s) (head_ s) (tail_ s) (top_ s) (bottom_ s) (hint_ s) x (rcv_nxt_ s) (segs s).
Definition set_rcv_nxt x (s : rq) : rq :=
  Rq (freelist_ s) (head_ s) (tail_ s) (top_ s) (bottom_ s) (hint_ s) (total_ s) x (segs s).
Definition set_free x B (s : rq) : rq :=
  Rq x (head_ s) (tail_ s) (top_ s) (bottom_ s) (hint_ s) (total_ s) (rcv_nxt_ s) B.
Definition set_segs B (s : rq) : rq := set_free (freelist_ s) B s.

(** Writes to the members of a segment other than its links. *)
Definition set_start x (v : seginfo) : seginfo :=
  Seginfo (next_ v) (prev_ v) (snext_ v) (sprev_ v) x (endseq_ v) (pflags_ v) (rqflags_ v) (cnt_ v).
Definition set_end x (v : seginfo) : seginfo :=
  Seginfo (next_ v) (prev_ v) (snext_ v) (sprev_ v) (startseq_ v) x (pflags_ v) (rqflags_ v) (cnt_ v).
Definition or_flags x (v : seginfo) : seginfo :=
  Seginfo (next_ v) (prev_ v) (snext_ v) (sprev_ v) (startseq_ v) (endseq_ v)
    (Z.lor (pflags_ v) x) (rqflags_ v) (cnt_ v).
Definition add_cnt x (v : seginfo) : seginfo :=
  Seginfo (next_ v) (prev_ v) (snext_ v) (sprev_ v) (startseq_ v) (endseq_ v) (pflags_ v)
    (rqflags_ v) (wrap_i32 (cnt_ v + x)).

Definition upd (p : option positive) (f : seginfo -> seginfo) (s : rq) : result rq :=
  let! B := store (segs s) p f in Ok (set_segs B s).

(** [newseginfo]: a new block is left uninitialised; its users set every
    member before reading it. *)
Definition newseginfo (s : rq) : result (positive * rq) :=
  match freelist_ s with
  | Some p =>
      let! v := load (segs s) (Some p) in
      Ok (p, set_free (next_ v) (segs s) s)
  | None =>
      let '(p, B) := alloc (segs s) (Seginfo None None None None 0 0 0 0 0) in
      Ok (p, set_segs B s)
  end.

Definition deleteseginfo (p : positive) (s : rq) : result rq :=
  let! B := store (segs s) (Some p) (@with_next _ _ fifo (freelist_ s)) in
  Ok (set_free (Some p) B s).

Definition forget_hint (p : positive) (s : rq) : rq :=
  if bool_decide (hint_ s = Some p) then set_hint None s else s.

Definition fremove (p : positive) (s : rq) : result rq :=
  let s := forget_hint p s in
  let! '(hd, tl, B) := @dq_unlink _ _ fifo p (head_ s) (tail_ s) (segs s) in
  Ok (set_fifo hd tl B s).

Definition sremove (p : positive) (s : rq) : result rq :=
  let s := forget_hint p s in
  let! '(tp, bt, B) := @dq_unlink _ _ lifo p (top_ s) (bottom_ s) (segs s) in
  Ok (set_lifo tp bt B s).

Definition push (p : positive) (s : rq) : result rq :=
  let! B := store (segs s) (Some p) (@with_next _ _ lifo (top_ s)) in
  let! B := store B (Some p) (@with_prev _ _ lifo None) in
  let! v := load B (Some p) in
  let! '(bt, B) := @dq_hang_next _ _ lifo p (snext_ v) (bottom_ s) B in
  Ok (set_lifo (Some p) bt B s).

Fixpoint cnts_loop (fuel : nat) (p : option positive) (blks bytes : Z) (B : gmap positive seginfo)
  : result (Z * Z) :=
  match fuel with
  | O => NoFuel
  | S fuel =>
      match p with
      | None => Ok (blks, bytes)
      | Some l =>
          let! v := load B (Some l) in
          cnts_loop fuel (next_ v) (wrap_i32 (blks + 1))
            (wrap_i32 (bytes + (endseq_ v - startseq_ v))) B
      end
  end.

Definition cnts (fuel : nat) (p : option positive) (s : rq) : result (Z * Z) :=
  cnts_loop fuel p 0 0 (segs s).

Fixpoint clear_loop (fuel : nat) (s : rq) : result rq :=
  match fuel with
  | O => NoFuel
  | S fuel =>
      match head_ s with
      | None => Ok s
      | Some p =>
          let! v := load (segs s) (Some p) in
          let! s := deleteseginfo p (set_fifo (next_ v) (tail_ s) (segs s) s) in
          clear_loop fuel s
      end
  end.

Definition clear (fuel : nat) (s : rq) : result rq :=
  let s := Rq (freelist_ s) (head_ s) None None None None (total_ s) (rcv_nxt_ s) (segs s) in
  let! s := clear_loop fuel s in
  Ok (set_total 0 (set_fifo (head_ s) None (segs s) s)).

Definition init (fuel : nat) (rcvnxt : Z) (s : rq) : result rq := clear fuel (set_rcv_nxt rcvnxt s).

(** The loop of [clearto]; also returns the segment it stops at. *)
Fixpoint clearto_loop (fuel : nat) (seq : Z) (p : option positive) (flag : Z) (s : rq)
  : result (option positive * Z * rq) :=
  match fuel with
  | O => NoFuel
  | S fuel =>
      match p with
      | None => Ok (None, flag, s)
      | Some l =>
          let! v := load (segs s) (Some l) in
          if endseq_ v <=? seq then
            let q := next_ v in
            let s := add_total (- (endseq_ v - startseq_ v)) s in
            let! s := sremove l s in
            let! s := fremove l s in
            let! s := deleteseginfo l s in
            clearto_loop fuel seq q (Z.lor flag (pflags_ v)) s
          else Ok (Some l, flag, s)
      end
  end.

Definition clearto (fuel : nat) (seq : Z) (s : rq) : result (Z * rq) :=
  let! '(p, flag, s) := clearto_loop fuel seq (head_ s) 0 s in
  match p with
  | None => Ok (flag, s)
  | Some l =>
      let! v := load (segs s) (Some l) in
      if (startseq_ v <=? seq) && (seq <? endseq_ v) then
        let s := add_total (- (seq - startseq_ v)) s in
        let! s := upd (Some l) (set_start seq) s in
        Ok (Z.lor flag (pflags_ v), s)
      else Ok (flag, s)
  end.

Definition cleartonxt (fuel : nat) (s : rq) : result (Z * rq) := clearto fuel (rcv_nxt_ s) s.

(** The blocks written to the buffer, as pairs. *)
Fixpoint gensack_loop (maxsblock : nat) (p : option positive) (B : gmap positive seginfo)
  : result (list (Z * Z)) :=
  match maxsblock with
  | O => Ok []
  | S n =>
      match p with
      | None => Ok []
      | Some l =>
          let! v := load B (Some l) in
          let! bs := gensack_loop n (snext_ v) B in
          Ok ((startseq_ v, endseq_ v) :: bs)
      end
  end.

Definition gensack (maxsblock : nat) (s : rq) : result (list (Z * Z)) :=
  gensack_loop maxsblock (top_ s) (segs s).

Definition maxseq (s : rq) : result Z :=
  match tail_ s with None => Ok (-1) | Some _ => let! v := load (segs s) (tail_ s) in Ok (endseq_ v) end.
Definition minseq (s : rq) : result Z :=
  match head_ s with None => Ok (-1) | Some _ => let! v := load (segs s) (head_ s) in Ok (startseq_ v) end.

(** [if (rcv_nxt_ >= x->startseq_) rcv_nxt_ = x->endseq_;] *)
Definition advance (x : option positive) (s : rq) : result rq :=
  let! v := load (segs s) x in
  if startseq_ v <=? rcv_nxt_ s then Ok (set_rcv_nxt (endseq_ v) s) else Ok s.

Definition coalesce (p : option positive) (n : positive) (q : option positive) (s : rq)
  : result (Z * rq) :=
  let! nv := load (segs s) (Some n) in
  let! pe := match p with None => Ok None | Some _ => let! v := load (segs s) p in Ok (Some (endseq_ v)) end in
  let! qs := match q with None => Ok None | Some _ => let! v := load (segs s) q in Ok (Some (startseq_ v)) end in
  let joins_p := bool_decide (pe = Some (startseq_ nv)) in
  let joins_q := bool_decide (qs = Some (endseq_ nv)) in
  match p, q, joins_p, joins_q with
  | Some _, Some ql, true, true =>
      let! s := sremove n s in
      let! s := fremove n s in
      let! s := sremove ql s in
      let! s := fremove ql s in
      let! qv := load (segs s) q in
      let! s := upd p (set_end (endseq_ qv)) s in
      let! s := upd p (add_cnt (cnt_ nv + cnt_ qv)) s in
      let! s := upd p (or_flags (pflags_ nv)) s in
      let! pv := load (segs s) p in
      let! s := deleteseginfo n s in
      let! s := deleteseginfo ql s in
      let! s := advance p s in
      Ok (pflags_ pv, s)
  | Some _, _, true, _ =>
      let! s := sremove n s in
      let! s := fremove n s in
      let! s := upd p (set_end (endseq_ nv)) s in
      let! s := upd p (or_flags (pflags_ nv)) s in
      let! s := upd p (add_cnt (cnt_ nv)) s in
      let! pv := load (segs s) p in
      let! s := deleteseginfo n s in
      let! s := advance p s in
      Ok (pflags_ pv, s)
  | _, Some _, _, true =>
      let! s := sremove n s in
      let! s := fremove n s in
      let! s := upd q (set_start (startseq_ nv)) s in
      let! s := upd q (or_flags (pflags_ nv)) s in
      let! s := upd q (add_cnt (cnt_ nv)) s in
      let! qv := load (segs s) q in
      let! s := deleteseginfo n s in
      let! s := advance q s in
      Ok (pflags_ qv, s)
  | _, _, _, _ => let! s := advance p s in Ok (0, s)
  end.

(** The first lines after the label [endfast]: a new block is put on both
    lists, between [p] and [q] on the FIFO. *)
Definition link_new (p q : option positive) (start end_ tiflags rqflags initcnt : Z) (s : rq)
  : result (positive * rq) :=
  let! '(n, s) := newseginfo s in
  let! s := upd (Some n) (fun v => Seginfo q p (snext_ v) (sprev_ v) start end_ tiflags rqflags initcnt) s in
  let! s := push n s in
  let! '(hd, B) := @dq_hang_prev _ _ fifo n p (head_ s) (segs s) in
  let! '(tl, B) := @dq_hang_next _ _ fifo n q (tail_ s) B in
  Ok (n, set_fifo hd tl B s).

(** From the label [endfast] on. *)
Definition endfast (p q : option positive) (needmerge : bool) (start end_ tiflags rqflags initcnt : Z)
    (s : rq) : result (Z * rq) :=
  let! '(n, s) := link_new p q start end_ tiflags rqflags initcnt s in
  let s := add_total (end_ - start) s in
  if needmerge then coalesce p n q s
  else
    let s := if start <=? rcv_nxt_ s then set_rcv_nxt end_ s else s in
    Ok (tiflags, s).

(** [while (q && q->startseq_ < end) q = q->next_;] *)
Definition scan_after (fuel : nat) (end_ : Z) (s : rq) : result (option positive) :=
  walk next_ fuel (segs s) (fun _ v => end_ <=? startseq_ v) (head_ s).

(** [while (p && p->endseq_ > start) p = p->prev_;] *)
Definition scan_before (fuel : nat) (start : Z) (s : rq) : result (option positive) :=
  walk prev_ fuel (segs s) (fun _ v => endseq_ v <=? start) (tail_ s).

(** What the loop over the overlapped segments ends with: the flags to
    return on an exact overlap, or the flags and count gathered. *)
Variant killed :=
  | Duplicate (flags : Z) (s : rq)
  | Killed (tiflags initcnt : Z) (altered : bool) (s : rq).

Fixpoint kill_loop (fuel : nat) (r q : option positive) (start end_ tiflags initcnt : Z)
    (altered : bool) (s : rq) : result killed :=
  match fuel with
  | O => NoFuel
  | S fuel =>
      match r with
      | None => Ok (Killed tiflags initcnt altered s)
      | Some l =>
          if bool_decide (r = q) then Ok (Killed tiflags initcnt altered s)
          else
            let! v := load (segs s) r in
            if (start =? startseq_ v) && (end_ =? endseq_ v) then
              let! s := upd r (or_flags tiflags) s in
              let! v := load (segs s) r in
              Ok (Duplicate (pflags_ v) s)
            else if (start <=? startseq_ v) && (endseq_ v <=? end_) then
              let s := add_total (- (endseq_ v - startseq_ v)) s in
              let! s := fremove l s in
              let! s := sremove l s in
              let! s := deleteseginfo l s in
              kill_loop fuel (next_ v) q start end_ (Z.lor tiflags (pflags_ v))
                (wrap_i32 (initcnt + cnt_ v)) true s
            else kill_loop fuel (next_ v) q start end_ tiflags initcnt altered s
      end
  end.

(** "look for left-side merge": the segment merged with, its end being the
    new start, [None] if there is none. *)
Definition left_merge (p : option positive) (start tiflags : Z) (s : rq)
  : result (option (option positive * Z) * rq) :=
  let! cand :=
    match p with
    | None => Ok (Some (head_ s))
    | Some _ =>
        let! pv := load (segs s) p in
        let! nv := load (segs s) (next_ pv) in
        Ok (if startseq_ nv <? start then Some (next_ pv) else None)
    end in
  match cand with
  | None => Ok (None, s)
  | Some p =>
      let! v := load (segs s) p in
      let! s :=
        if start <? startseq_ v then
          upd p (set_start start) (add_total (startseq_ v - start) s)
        else Ok s in
      let! v := load (segs s) p in
      let! s := upd p (or_flags tiflags) s in
      let! s := upd p (add_cnt 1) s in
      Ok (Some (p, endseq_ v), s)
  end.

(** "look for right-side merge" *)
Definition right_merge (q : option positive) (end_ tiflags : Z) (s : rq)
  : result (option (option positive * Z) * rq) :=
  let! cand :=
    match q with
    | None => Ok (Some (tail_ s))
    | Some _ =>
        let! qv := load (segs s) q in
        let! nv := load (segs s) (prev_ qv) in
        Ok (if end_ <? endseq_ nv then Some (prev_ qv) else None)
    end in
  match cand with
  | None => Ok (None, s)
  | Some q =>
      let! v := load (segs s) q in
      let! s :=
        if endseq_ v <? end_ then upd q (set_end end_) (add_total (end_ - endseq_ v) s)
        else Ok s in
      let! v := load (segs s) q in
      let! s := upd q (or_flags tiflags) s in
      Ok (Some (q, startseq_ v), s)
  end.

(** From the left-side merge to the end, for an overlap with no segment
    inside the new one. *)
Definition merge_sides (p q : option positive) (start end_ tiflags rqflags initcnt : Z) (s : rq)
  : result (Z * rq) :=
  let! '(lm, s) := left_merge p start tiflags s in
  let '(p, start, initcnt, merged) :=
    match lm with
    | Some (p, st) => (p, st, wrap_i32 (initcnt - 1), true)
    | None => (p, start, initcnt, false)
    end in
  let! '(rm, s) := right_merge q end_ tiflags s in
  let '(q, end_, merged) :=
    match rm with Some (q, en) => (q, en, true) | None => (q, end_, merged) end in
  if end_ <=? start then
    let! s := advance (head_ s) s in Ok (tiflags, s)
  else
    let! needmerge :=
      if merged then Ok true
      else
        let! pv := load (segs s) p in
        if bool_decide (next_ pv = q) && (endseq_ pv <=? start) then
          let! qv := load (segs s) q in
          Ok ((end_ <=? startseq_ qv) && ((endseq_ pv =? start) || (startseq_ qv =? end_)))
        else Ok false in
    endfast p q needmerge start end_ tiflags rqflags initcnt s.

(** From the label [again2] on; [fuel] also bounds the returns to it. *)
Fixpoint again2 (fuel : nat) (start end_ tiflags rqflags initcnt : Z) (s : rq) : result (Z * rq) :=
  match fuel with
  | O => NoFuel
  | S fuel' =>
      let! tv := load (segs s) (tail_ s) in
      if endseq_ tv <=? start then
        endfast (tail_ s) None (start =? endseq_ tv) start end_ tiflags rqflags initcnt s
      else
        let! hv := load (segs s) (head_ s) in
        if end_ <=? startseq_ hv then
          endfast None (head_ s) (end_ =? startseq_ hv) start end_ tiflags rqflags initcnt s
        else
          let! q := scan_after fuel end_ s in
          let! p := scan_before fuel start s in
          let r := match p with Some _ => p | None => head_ s end in
          let! k := kill_loop fuel r q start end_ tiflags initcnt false s in
          match k with
          | Duplicate flags s => Ok (flags, s)
          | Killed tiflags initcnt altered s =>
              match head_ s with
              | None => endfast p q false start end_ tiflags rqflags initcnt s
              | Some _ =>
                  if altered then again2 fuel' start end_ tiflags rqflags initcnt s
                  else merge_sides p q start end_ tiflags rqflags initcnt s
              end
          end
  end.

Definition add (fuel : nat) (start end_ tiflags rqflags : Z) (s : rq) : result (Z * rq) :=
  if end_ <? start then Fault Aborted
  else
    match head_ s with
    | None =>
        match top_ s with
        | Some _ => Fault Aborted
        | None =>
            let! '(n, s) := newseginfo s in
            let s := set_lifo (Some n) (Some n) (segs s) (set_fifo (Some n) (Some n) (segs s) s) in
            let! s := upd (Some n) (fun _ => Seginfo None None None None start end_ tiflags rqflags 1) s in
            let s := set_total (wrap_i32 (end_ - start)) s in
            let s := if start <=? rcv_nxt_ s then set_rcv_nxt end_ s else s in
            Ok (tiflags, s)
        end
    | Some _ => again2 fuel start end_ tiflags rqflags 1 s
    end.

(** The loop of [nexthole]. *)
Fixpoint nexthole_loop (fuel : nat) (seq : Z) (p : option positive) (s : rq) : result (Z * Z * Z) :=
  match fuel with
  | O => NoFuel
  | S fuel' =>
      match p with
      | None => Ok (-1, -1, -1)
      | Some l =>
          let! v := load (segs s) (Some l) in
          if seq <? startseq_ v then
            let! '(n, b) := cnts fuel (Some l) s in Ok (seq, n, b)
          else if (startseq_ v <=? seq) && (seq <=? endseq_ v) then
            match next_ v with
            | Some _ => let! '(n, b) := cnts fuel (next_ v) s in Ok (endseq_ v, n, b)
            | None => Ok (endseq_ v, -1, -1)
            end
          else nexthole_loop fuel' seq (next_ v) s
      end
  end.

(** The hole, and the counts of blocks and bytes above it. *)
Definition nexthole (fuel : nat) (seq : Z) (s : rq) : result (Z * Z * Z * rq) :=
  let s := set_hint (head_ s) s in
  let! '(r, n, b) := nexthole_loop fuel seq (head_ s) s in
  Ok (r, n, b, s).
