(* ===== verification/RqProps.v ===== *)
(** * The reassembly queue: the lists of segments

    [rep] says which blocks the two lists and the free list are made of, and
    each function of the class that moves segments is given its effect on
    it. *)

From stdpp Require Import base numbers list gmap sorting.
From Stdlib Require Import ZArith Lia Bool.
From S2P Require Import Prelude.
From S2P Require Import Store.
From S2P Require Import Dlist.
From S2P Require Import Ring.
From S2P Require Import Deque.
From S2P Require Import Rq.
Open Scope Z_scope.

#[local] Existing Instances fifo_laws lifo_laws.

Abbreviation block := (Z * Z)%type.
Implicit Types (s : rq) (fs : list (positive * block)) (ls F : list positive) (B : gmap positive seginfo).

(** The members of a segment the lists do not touch. *)
Definition core (v : seginfo) : Z * Z * Z * Z * Z :=
  (startseq_ v, endseq_ v, pflags_ v, rqflags_ v, cnt_ v).

Definition range_of (v : seginfo) : block := (startseq_ v, endseq_ v).

(** The FIFO is made of the segments [fs], with their blocks; the LIFO of the
    segments [ls]; the free list of [F], which share nothing with them. *)
Record rep s fs ls F : Prop := {
  rp_fifo : @deque_of _ _ fifo (segs s) (head_ s) (tail_ s) fs.*1;
  rp_lifo : @deque_of _ _ lifo (segs s) (top_ s) (bottom_ s) ls;
  rp_free : seg next_ (segs s) (freelist_ s) F None;
  rp_disj : forall l, l ∈ F -> l ∉ fs.*1 /\ l ∉ ls;
  rp_range : forall l r, (l, r) ∈ fs -> exists v, segs s !! l = Some v /\ range_of v = r;
}.

(** The members of the object the lists do not touch. *)
Definition outer s : Z * Z := (total_ s, rcv_nxt_ s).

Lemma core_range B (B' : gmap positive seginfo) l v r :
  core <$> B' !! l = core <$> B !! l -> B !! l = Some v -> range_of v = r ->
  exists v', B' !! l = Some v' /\ range_of v' = r.
Proof.
  intros Hc Hv Hr. rewrite Hv in Hc. destruct (B' !! l) as [v'|]; [|done].
  injection Hc as H1 H2 _ _ _. exists v'. split; [done|]. unfold range_of in *. congruence.
Qed.

Lemma rep_fst s fs ls F l r : rep s fs ls F -> (l, r) ∈ fs -> l ∈ fs.*1.
Proof. intros _ Hin. apply list_elem_of_fmap. by exists (l, r). Qed.

Lemma rep_NoDup s fs ls F : rep s fs ls F -> NoDup fs.*1.
Proof. intros []. by eapply (@deque_NoDup _ _ fifo). Qed.

Lemma rep_head s fs ls F : rep s fs ls F -> head_ s = head fs.*1.
Proof. intros []. by eapply (@deque_head _ _ fifo). Qed.

Lemma rep_tail s fs ls F : rep s fs ls F -> tail_ s = last fs.*1.
Proof. intros []. by eapply (@deque_tail _ _ fifo). Qed.

Lemma rep_lookup s fs ls F l a b :
  rep s fs ls F -> (l, (a, b)) ∈ fs ->
  exists v, segs s !! l = Some v /\ startseq_ v = a /\ endseq_ v = b.
Proof.
  intros [] Hin. destruct (rp_range0 l (a, b) Hin) as (v & Hv & Hr). exists v.
  by injection Hr as -> ->.
Qed.

Lemma fifo_rehung_core ks B (B' : gmap positive seginfo) l :
  @rehung _ _ fifo ks B B' -> core <$> B' !! l = core <$> B !! l.
Proof.
  intros [_ C]. specialize (C l). destruct (B' !! l) as [v'|], (B !! l) as [v|]; try done.
  injection C as H1 H2 H3 H4 H5 H6 H7. unfold core. cbn. congruence.
Qed.

Lemma lifo_rehung_core ks B (B' : gmap positive seginfo) l :
  @rehung _ _ lifo ks B B' -> core <$> B' !! l = core <$> B !! l.
Proof.
  intros [_ C]. specialize (C l). destruct (B' !! l) as [v'|], (B !! l) as [v|]; try done.
  injection C as H1 H2 H3 H4 H5 H6 H7. unfold core. cbn. congruence.
Qed.

Lemma fifo_rehung_lifo ks B (B' : gmap positive seginfo) hd tl xs :
  @rehung _ _ fifo ks B B' -> @deque_of _ _ lifo B hd tl xs -> @deque_of _ _ lifo B' hd tl xs.
Proof.
  intros [_ C]. apply dseg_agree; intros l Hl; specialize (C l);
    destruct (B' !! l) as [v'|], (B !! l) as [v|]; try done; injection C; intros; cbn; congruence.
Qed.

Lemma lifo_rehung_fifo ks B (B' : gmap positive seginfo) hd tl xs :
  @rehung _ _ lifo ks B B' -> @deque_of _ _ fifo B hd tl xs -> @deque_of _ _ fifo B' hd tl xs.
Proof.
  intros [_ C]. apply dseg_agree; intros l Hl; specialize (C l);
    destruct (B' !! l) as [v'|], (B !! l) as [v|]; try done; injection C; intros; cbn; congruence.
Qed.

Lemma forget_hint_rep p s fs ls F : rep s fs ls F -> rep (forget_hint p s) fs ls F.
Proof. intros []. unfold forget_hint. by destruct (bool_decide _). Qed.

Lemma forget_hint_eqs p s :
  outer (forget_hint p s) = outer s /\ segs (forget_hint p s) = segs s /\
  freelist_ (forget_hint p s) = freelist_ s.
Proof. unfold forget_hint. by destruct (bool_decide _). Qed.

(** [l] leaves the FIFO. *)
Lemma fremove_spec s pre l r post ls F :
  rep s (pre ++ (l, r) :: post) ls F ->
  exists s', fremove l s = Ok s' /\ rep s' (pre ++ post) ls F /\ outer s' = outer s /\
    (forall k, core <$> segs s' !! k = core <$> segs s !! k).
Proof.
  intros Hr. apply (forget_hint_rep l) in Hr. destruct (forget_hint_eqs l s) as (E1 & E2 & _).
  unfold fremove. destruct Hr as [Hf Hl Hfr Hd Hrg]. rewrite fmap_app, fmap_cons in Hf. cbn [fst] in Hf.
  destruct (@dq_unlink_spec _ _ fifo fifo_laws _ _ _ _ _ _ Hf) as (hd & tl & B & -> & Hf' & R).
  cbn [rbind]. eexists. split; [done|]. split; [|split; [done|]].
  - split; cbn [segs head_ tail_ top_ bottom_ freelist_ set_fifo].
    + by rewrite fmap_app.
    + by eapply fifo_rehung_lifo.
    + eapply seg_agree; [|exact Hfr]. intros k Hk. rewrite (proj1 R); [done|].
      destruct (Hd k Hk) as [Hn _]. rewrite fmap_app, fmap_cons in Hn. clear - Hn. set_solver.
    + intros k Hk. destruct (Hd k Hk) as [Hn1 Hn2]. split; [|done].
      rewrite fmap_app, fmap_cons in Hn1. rewrite fmap_app. clear - Hn1. set_solver.
    + intros k rk Hin. destruct (Hrg k rk) as (v & Hv & Hrv); [clear - Hin; set_solver|].
      eapply core_range; [|exact Hv|exact Hrv]. by eapply fifo_rehung_core.
  - intros k. cbn [segs set_fifo]. rewrite <- E2. by eapply fifo_rehung_core.
Qed.

(** [l] leaves the LIFO. *)
Lemma sremove_spec s fs xs l ys F :
  rep s fs (xs ++ l :: ys) F ->
  exists s', sremove l s = Ok s' /\ rep s' fs (xs ++ ys) F /\ outer s' = outer s /\
    (forall k, core <$> segs s' !! k = core <$> segs s !! k).
Proof.
  intros Hr. apply (forget_hint_rep l) in Hr. destruct (forget_hint_eqs l s) as (E1 & E2 & _).
  unfold sremove. destruct Hr as [Hf Hl Hfr Hd Hrg].
  destruct (@dq_unlink_spec _ _ lifo lifo_laws _ _ _ _ _ _ Hl) as (hd & tl & B & -> & Hl' & R).
  cbn [rbind]. eexists. split; [done|]. split; [|split; [done|]].
  - split; cbn [segs head_ tail_ top_ bottom_ freelist_ set_lifo].
    + by eapply lifo_rehung_fifo.
    + done.
    + eapply seg_agree; [|exact Hfr]. intros k Hk. rewrite (proj1 R); [done|].
      destruct (Hd k Hk) as [_ Hn]. clear - Hn. set_solver.
    + intros k Hk. destruct (Hd k Hk) as [Hn1 Hn2]. split; [done|]. clear - Hn2. set_solver.
    + intros k rk Hin. destruct (Hrg k rk Hin) as (v & Hv & Hrv).
      eapply core_range; [|exact Hv|exact Hrv]. by eapply lifo_rehung_core.
  - intros k. cbn [segs set_lifo]. rewrite <- E2. by eapply lifo_rehung_core.
Qed.

(** A segment off both lists is freed. *)
Lemma deleteseginfo_spec s fs ls F l v :
  rep s fs ls F -> segs s !! l = Some v -> l ∉ fs.*1 -> l ∉ ls -> l ∉ F ->
  exists s', deleteseginfo l s = Ok s' /\ rep s' fs ls (l :: F) /\ outer s' = outer s /\
    (forall k, core <$> segs s' !! k = core <$> segs s !! k).
Proof.
  intros [Hf Hl Hfr Hd Hrg] Hv H1 H2 H3. unfold deleteseginfo.
  rewrite (store_Some _ _ _ _ Hv). cbn [rbind]. eexists. split; [done|]. split; [|split; [done|]].
  - split; cbn [segs head_ tail_ top_ bottom_ freelist_ set_free].
    + by apply dseg_insert_notin.
    + by apply dseg_insert_notin.
    + split; [done|]. eexists. rewrite lookup_insert_eq. split; [done|]. by apply seg_insert_notin.
    + intros k [->|Hk]%elem_of_cons; [done|by apply Hd].
    + intros k r Hin. destruct (Hrg k r Hin) as (w & Hw & Hrw). exists w.
      rewrite lookup_insert_ne; [done|]. intros <-. apply H1, list_elem_of_fmap. by exists (l, r).
  - intros k. cbn [segs set_free]. destruct (decide (l = k)) as [<-|Hne].
    + by rewrite lookup_insert_eq, Hv.
    + by rewrite lookup_insert_ne.
Qed.

(** A write to the members of a segment that are not links. *)
Lemma upd_spec s pre l r post ls F f v :
  rep s (pre ++ (l, r) :: post) ls F -> segs s !! l = Some v ->
  next_ (f v) = next_ v -> prev_ (f v) = prev_ v -> snext_ (f v) = snext_ v ->
  sprev_ (f v) = sprev_ v ->
  exists s', upd (Some l) f s = Ok s' /\ rep s' (pre ++ (l, range_of (f v)) :: post) ls F /\
    outer s' = outer s /\ segs s' = <[l := f v]> (segs s).
Proof.
  intros Hr Hv H1 H2 H3 H4. pose proof (rep_NoDup _ _ _ _ Hr) as Hnd.
  destruct Hr as [Hf Hl Hfr Hd Hrg]. unfold upd. rewrite (store_Some _ _ _ _ Hv).
  cbn [rbind]. eexists. split; [done|]. split; [|done].
  rewrite fmap_app, fmap_cons in Hf, Hnd. cbn [fst] in Hf, Hnd.
  destruct (elem_of_split_NoDup _ _ _ _ Hnd eq_refl) as [Hn1 Hn2].
  split; cbn [segs head_ tail_ top_ bottom_ freelist_ set_segs set_free].
  - rewrite fmap_app, fmap_cons. by eapply (@deque_set_data _ _ fifo).
  - by eapply (@deque_set_data _ _ lifo).
  - by eapply seg_insert_same.
  - intros k Hk. destruct (Hd k Hk) as [Hk1 Hk2]. split; [|done].
    by rewrite fmap_app, fmap_cons in *.
  - intros k rk Hin. destruct (decide (l = k)) as [<-|Hne].
    + assert (rk = range_of (f v)) as ->.
      { apply elem_of_app in Hin as [Hin|[Hin|Hin]%elem_of_cons]; [|by injection Hin|];
          exfalso; [apply Hn1|apply Hn2]; apply list_elem_of_fmap; by exists (l, rk). }
      exists (f v). by rewrite lookup_insert_eq.
    + destruct (Hrg k rk) as (w & Hw & Hrw); [clear - Hin Hne; set_solver|].
      exists w. by rewrite lookup_insert_ne.
Qed.

(** A segment that is on neither list, nor free. *)
Definition detached (n : positive) fs ls F : Prop := n ∉ fs.*1 /\ n ∉ ls /\ n ∉ F.

Lemma newseginfo_spec s fs ls F :
  rep s fs ls F ->
  exists n s' F' v, newseginfo s = Ok (n, s') /\ rep s' fs ls F' /\ detached n fs ls F' /\
    segs s' !! n = Some v /\ outer s' = outer s.
Proof.
  intros [Hf Hl Hfr Hd Hrg]. unfold newseginfo. destruct F as [|n F].
  - rewrite Hfr. cbn [alloc]. set (n := fresh_loc (segs s)).
    assert (Hn : segs s !! n = None) by apply fresh_loc_None.
    assert (Hnf : n ∉ fs.*1).
    { intros Hin. edestruct (seg_lookup next_) as [v Hv]; [eapply dseg_seg, Hf|exact Hin|]. congruence. }
    assert (Hnl : n ∉ ls).
    { intros Hin. edestruct (seg_lookup snext_) as [v Hv]; [eapply dseg_seg, Hl|exact Hin|]. congruence. }
    eexists n, _, [], _. split; [done|].
    split; [|split; [split_and!; try done; apply not_elem_of_nil|split; [apply lookup_insert_eq|done]]].
    split; cbn [segs head_ tail_ top_ bottom_ freelist_ set_segs set_free].
    + by apply dseg_insert_notin.
    + by apply dseg_insert_notin.
    + done.
    + intros k Hk. by apply not_elem_of_nil in Hk.
    + intros k r Hin. destruct (Hrg k r Hin) as (w & Hw & Hrw). exists w.
      rewrite lookup_insert_ne; [done|]. intros <-. congruence.
  - pose proof (seg_NoDup _ _ _ _ Hfr) as [Hn _]%NoDup_cons.
    destruct Hfr as [-> (v & Hv & Hfr)]. rewrite (load_Some _ _ _ Hv). cbn [rbind].
    destruct (Hd n ltac:(left)) as [H1 H2].
    eexists n, _, F, v. split; [done|]. split; [|by split_and!].
    split; cbn [segs head_ tail_ top_ bottom_ freelist_ set_free]; try done.
    intros k Hk. apply Hd. by right.
Qed.

(** Writing anything to a detached segment. *)
Lemma upd_detached n f s fs ls F v :
  rep s fs ls F -> detached n fs ls F -> segs s !! n = Some v ->
  exists s', upd (Some n) f s = Ok s' /\ rep s' fs ls F /\ outer s' = outer s /\
    segs s' = <[n := f v]> (segs s).
Proof.
  intros [Hf Hl Hfr Hd Hrg] (H1 & H2 & H3) Hv. unfold upd. rewrite (store_Some _ _ _ _ Hv).
  cbn [rbind]. eexists. split; [done|]. split; [|done].
  split; cbn [segs head_ tail_ top_ bottom_ freelist_ set_segs set_free].
  - by apply dseg_insert_notin.
  - by apply dseg_insert_notin.
  - by apply seg_insert_notin.
  - done.
  - intros k r Hin. destruct (Hrg k r Hin) as (w & Hw & Hrw). exists w.
    rewrite lookup_insert_ne; [done|]. intros <-. apply H1, list_elem_of_fmap. by exists (n, r).
Qed.

Lemma push_spec n s fs ls F v :
  rep s fs ls F -> detached n fs ls F -> segs s !! n = Some v ->
  exists s' v', push n s = Ok s' /\ rep s' fs (n :: ls) F /\ outer s' = outer s /\
    segs s' !! n = Some v' /\ next_ v' = next_ v /\ prev_ v' = prev_ v /\ core v' = core v.
Proof.
  intros Hr Hdt Hv. pose proof Hdt as (H1 & H2 & H3).
  set (w := @with_prev _ _ lifo None (@with_next _ _ lifo (top_ s) v)).
  destruct (upd_detached n (fun _ => w) s fs ls F v Hr Hdt Hv) as (s1 & Hup & Hr1 & Ho1 & Hs1).
  unfold upd in Hup. rewrite (store_Some _ _ _ _ Hv) in Hup. injection Hup as <-.
  cbn [segs set_segs set_free] in *.
  unfold push. rewrite (store_Some _ _ _ _ Hv). cbn [rbind]. unfold store at 1.
  rewrite lookup_insert_eq. cbn [rbind]. rewrite insert_insert_eq. fold w.
  unfold load at 1. rewrite lookup_insert_eq. cbn [rbind].
  destruct Hr1 as [Hf Hl Hfr Hd Hrg]. cbn [segs set_segs set_free head_ tail_ top_ bottom_ freelist_] in *.
  pose proof (@deque_head _ _ lifo _ _ _ _ Hl) as Htop.
  destruct (@dq_hang_spec _ _ lifo lifo_laws _ _ _ [] ls n w Hl H2 (lookup_insert_eq _ _ _))
    as (tp & B1 & bt & B' & Hh1 & Hh2 & Hl' & R & _ & Hw'); [done|exact Htop|].
  change (last (@nil positive)) with (@None positive) in Hh1. unfold dq_hang_prev in Hh1.
  injection Hh1 as <- <-. change (snext_ w) with (top_ s). rewrite Htop, Hh2.
  cbn [rbind]. eexists _, w. split; [done|]. cbn [segs set_lifo].
  split; [|split; [done|split; [done|by split_and!]]].
  split; cbn [segs head_ tail_ top_ bottom_ freelist_ set_lifo].
  - by eapply lifo_rehung_fifo.
  - exact Hl'.
  - eapply seg_agree; [|exact Hfr]. intros k Hk. rewrite (proj1 R); [done|]. by apply Hd.
  - intros k Hk. destruct (Hd k Hk) as [Hk1 Hk2]. split; [done|].
    intros [->|?]%elem_of_cons; done.
  - intros k r Hin. destruct (Hrg k r Hin) as (u & Hu & Hru).
    eapply core_range; [|exact Hu|exact Hru]. by eapply lifo_rehung_core.
Qed.

Lemma link_new_spec s pre post ls F a b t rf c :
  rep s (pre ++ post) ls F ->
  exists n s' F' v, link_new (last pre.*1) (head post.*1) a b t rf c s = Ok (n, s') /\
    rep s' (pre ++ (n, (a, b)) :: post) (n :: ls) F' /\ detached n (pre ++ post) ls F' /\
    segs s' !! n = Some v /\ core v = (a, b, t, rf, c) /\ outer s' = outer s.
Proof.
  intros Hr. unfold link_new.
  destruct (newseginfo_spec _ _ _ _ Hr) as (n & s1 & F' & v & -> & Hr1 & Hdt & Hv & Ho1). cbn [rbind].
  destruct (upd_detached n (fun v => Seginfo (head post.*1) (last pre.*1) (snext_ v) (sprev_ v) a b t rf c)
    s1 _ _ _ v Hr1 Hdt Hv) as (s2 & -> & Hr2 & Ho2 & Hs2). cbn [rbind].
  edestruct (push_spec n s2) as (s3 & w & -> & Hr3 & Ho3 & Hw & Hnx & Hpv & Hcore);
    [exact Hr2|exact Hdt|by rewrite Hs2, lookup_insert_eq|]. cbn [rbind next_ prev_] in *.
  destruct Hr3 as [Hf Hl Hfr Hd Hrg]. rewrite fmap_app in Hf.
  pose proof Hdt as (H1 & H2 & H3).
  destruct (@dq_hang_spec _ _ fifo fifo_laws _ _ _ _ _ n w Hf) as
    (hd & B1 & tl & B' & -> & Hh2 & Hf' & R & _ & Hw'); [by rewrite <- fmap_app|done|done|done|].
  cbn [rbind]. rewrite Hh2. cbn [rbind]. eexists n, _, F', w. split; [done|].
  split; [|split; [done|split; [done|split; [done|cbn; unfold outer in *; cbn; congruence]]]].
  split; cbn [segs head_ tail_ top_ bottom_ freelist_ set_fifo].
  - by rewrite fmap_app, fmap_cons.
  - by eapply fifo_rehung_lifo.
  - eapply seg_agree; [|exact Hfr]. intros k Hk. rewrite (proj1 R); [done|].
    rewrite <- fmap_app. by apply Hd.
  - intros k Hk. destruct (Hd k Hk) as [Hk1 Hk2]. split; [|done].
    rewrite fmap_app in Hk1. rewrite fmap_app, fmap_cons. cbn [fst].
    intros [Hi|[->|Hi]%elem_of_cons]%elem_of_app; [apply Hk1|apply Hk2|apply Hk1]; 
      [apply elem_of_app; by left|by left|apply elem_of_app; by right].
  - intros k r Hin. destruct (decide (k = n)) as [->|Hne].
    + exists w. split; [done|]. assert (r = (a, b)) as ->.
      { apply elem_of_app in Hin as [Hin|[Hin|Hin]%elem_of_cons]; [|by injection Hin|];
          exfalso; apply H1; apply list_elem_of_fmap; exists (n, r);
          (split; [done|]); apply elem_of_app; auto. }
      unfold core in Hcore. unfold range_of. cbn in Hcore. congruence.
    + destruct (Hrg k r) as (u & Hu & Hru).
      { apply elem_of_app in Hin as [Hin|[Hin|Hin]%elem_of_cons]; [apply elem_of_app; by left| |
          apply elem_of_app; by right]. congruence. }
      eapply core_range; [|exact Hu|exact Hru]. by eapply fifo_rehung_core.
Qed.

(** ** Whole states *)

Definition sumlen (rs : list block) : Z := foldr (fun r n => r.2 - r.1 + n) 0 rs.

(** The state between two operations: both lists have the same segments, and
    [total_] is the number of bytes in them. *)
Definition shape s fs : Prop :=
  exists ls F, rep s fs ls F /\ ls ≡ₚ fs.*1 /\ total_ s = wrap_i32 (sumlen fs.*2).

Lemma sumlen_cons r rs : sumlen (r :: rs) = r.2 - r.1 + sumlen rs.
Proof. done. Qed.

Lemma sumlen_app xs ys : sumlen (xs ++ ys) = sumlen xs + sumlen ys.
Proof. induction xs as [|x xs IH]; [done|]. cbn [app]. rewrite !sumlen_cons. lia. Qed.

Lemma sumlen_mid xs x y ys : sumlen (xs ++ (x, y) :: ys) = y - x + sumlen (xs ++ ys).
Proof. rewrite !sumlen_app, sumlen_cons. cbn. lia. Qed.

Lemma wrap_total t a b : t = wrap_i32 a -> wrap_i32 (t + b) = wrap_i32 (a + b).
Proof. intros ->. apply wrap_i32_add. Qed.

Lemma add_total_rep d s fs ls F : rep s fs ls F -> rep (add_total d s) fs ls F.
Proof. by intros []. Qed.

Lemma add_total_core d s : segs (add_total d s) = segs s.
Proof. done. Qed.

Lemma set_rcv_rep x s fs ls F : rep s fs ls F -> rep (set_rcv_nxt x s) fs ls F.
Proof. by intros []. Qed.

Lemma shape_head s fs : shape s fs -> head_ s = head fs.*1.
Proof. intros (ls & F & Hr & _). by eapply rep_head. Qed.

Lemma shape_tail s fs : shape s fs -> tail_ s = last fs.*1.
Proof. intros (ls & F & Hr & _). by eapply rep_tail. Qed.

Lemma shape_NoDup s fs : shape s fs -> NoDup fs.*1.
Proof. intros (ls & F & Hr & _). by eapply rep_NoDup. Qed.

Lemma shape_load s fs l a b :
  shape s fs -> (l, (a, b)) ∈ fs ->
  exists v, load (segs s) (Some l) = Ok v /\ startseq_ v = a /\ endseq_ v = b.
Proof.
  intros (ls & F & Hr & _) Hin. destruct (rep_lookup _ _ _ _ _ _ _ Hr Hin) as (v & Hv & Ha).
  exists v. by rewrite (load_Some _ _ _ Hv).
Qed.

Lemma shape_links s pre l a b post :
  shape s (pre ++ (l, (a, b)) :: post) ->
  exists v, load (segs s) (Some l) = Ok v /\ startseq_ v = a /\ endseq_ v = b /\
    prev_ v = last pre.*1 /\ next_ v = head post.*1.
Proof.
  intros (ls & F & Hr & _). pose proof (rp_fifo _ _ _ _ Hr) as Hf.
  rewrite fmap_app, fmap_cons in Hf. cbn [fst] in Hf.
  destruct (@deque_neighbours _ _ fifo _ _ _ _ _ _ Hf) as (v & Hv & Hp & Hn).
  destruct (rep_lookup _ _ _ _ l a b Hr) as (v' & Hv' & Ha & Hb); [apply elem_of_app; right; left|].
  assert (v' = v) as -> by congruence. exists v. rewrite (load_Some _ _ _ Hv). by split_and!.
Qed.

(** A segment leaves both lists, in either order. *)
Lemma drop_spec s pre l r post ls F :
  rep s (pre ++ (l, r) :: post) ls F -> l ∈ ls ->
  (exists s' ls', (let! s := sremove l s in fremove l s) = Ok s' /\ rep s' (pre ++ post) ls' F /\
    ls ≡ₚ l :: ls' /\ detached l (pre ++ post) ls' F /\ outer s' = outer s /\
    (forall k, core <$> segs s' !! k = core <$> segs s !! k)) /\
  (exists s' ls', (let! s := fremove l s in sremove l s) = Ok s' /\ rep s' (pre ++ post) ls' F /\
    ls ≡ₚ l :: ls' /\ detached l (pre ++ post) ls' F /\ outer s' = outer s /\
    (forall k, core <$> segs s' !! k = core <$> segs s !! k)).
Proof.
  intros Hr Hin. apply list_elem_of_split in Hin as (xs & ys & ->).
  pose proof (@deque_NoDup _ _ lifo _ _ _ _ (rp_lifo _ _ _ _ Hr)) as Hnd.
  destruct (elem_of_split_NoDup _ _ _ _ Hnd eq_refl) as [Hx Hy].
  pose proof (rep_NoDup _ _ _ _ Hr) as Hnf. rewrite fmap_app, fmap_cons in Hnf. cbn [fst] in Hnf.
  destruct (elem_of_split_NoDup _ _ _ _ Hnf eq_refl) as [Hpr Hpo].
  assert (Hdt : detached l (pre ++ post) (xs ++ ys) F).
  { split_and!.
    - rewrite fmap_app. by intros [?|?]%elem_of_app.
    - by intros [?|?]%elem_of_app.
    - intros HF. destruct (rp_disj _ _ _ _ Hr l HF) as [_ Hn]. apply Hn, elem_of_app. right. left. }
  split.
  - destruct (sremove_spec _ _ _ _ _ _ Hr) as (s1 & -> & Hr1 & Ho1 & Hc1). cbn [rbind].
    destruct (fremove_spec _ _ _ _ _ _ _ Hr1) as (s2 & -> & Hr2 & Ho2 & Hc2).
    exists s2, (xs ++ ys). split; [done|]. split; [done|].
    split; [by rewrite <- Permutation_middle|]. split; [done|]. split; [congruence|].
    intros k. by rewrite Hc2, Hc1.
  - destruct (fremove_spec _ _ _ _ _ _ _ Hr) as (s1 & -> & Hr1 & Ho1 & Hc1). cbn [rbind].
    destruct (sremove_spec _ _ _ _ _ _ Hr1) as (s2 & -> & Hr2 & Ho2 & Hc2).
    exists s2, (xs ++ ys). split; [done|]. split; [done|].
    split; [by rewrite <- Permutation_middle|]. split; [done|]. split; [congruence|].
    intros k. by rewrite Hc2, Hc1.
Qed.

Lemma core_Some B B' k v :
  core <$> B' !! k = core <$> B !! k -> B !! k = Some v ->
  exists v', B' !! k = Some v' /\ core v' = core v.
Proof.
  intros Hc Hv. rewrite Hv in Hc. destruct (B' !! k) as [v'|]; [|done]. exists v'.
  split; [done|]. cbn [fmap option_fmap option_map] in Hc. congruence.
Qed.

(** A block is taken out and freed, its bytes off the total. *)
Lemma shape_kill s pre l a b post :
  shape s (pre ++ (l, (a, b)) :: post) ->
  let s0 := add_total (- (b - a)) s in
  (exists s', (let! s := fremove l s0 in let! s := sremove l s in deleteseginfo l s) = Ok s' /\
    shape s' (pre ++ post) /\ rcv_nxt_ s' = rcv_nxt_ s) /\
  (exists s', (let! s := sremove l s0 in let! s := fremove l s in deleteseginfo l s) = Ok s' /\
    shape s' (pre ++ post) /\ rcv_nxt_ s' = rcv_nxt_ s).
Proof.
  intros (ls & F & Hr & Hp & Ht) s0.
  assert (Hr0 : rep s0 (pre ++ (l, (a, b)) :: post) ls F) by (by apply add_total_rep).
  assert (Hin : l ∈ ls) by (rewrite Hp, fmap_app; apply elem_of_app; right; left).
  assert (Ht0 : total_ s0 = wrap_i32 (sumlen (pre ++ post).*2)).
  { cbn [total_ s0 add_total]. rewrite (wrap_total _ _ _ Ht). f_equal.
    rewrite !fmap_app, fmap_cons. cbn [snd]. rewrite sumlen_mid. lia. }
  destruct (rep_lookup _ _ _ _ l a b Hr0) as (v & Hv & _ & _); [apply elem_of_app; right; left|].
  assert (Hfin : forall s1 ls', rep s1 (pre ++ post) ls' F -> ls ≡ₚ l :: ls' ->
    detached l (pre ++ post) ls' F -> outer s1 = outer s0 ->
    (forall k, core <$> segs s1 !! k = core <$> segs s0 !! k) ->
    exists s', deleteseginfo l s1 = Ok s' /\ shape s' (pre ++ post) /\ rcv_nxt_ s' = rcv_nxt_ s).
  { intros s1 ls' Hr1 Hp1 (D1 & D2 & D3) Ho1 Hc1.
    destruct (core_Some _ _ _ _ (Hc1 l) Hv) as (v1 & Hv1 & _).
    destruct (deleteseginfo_spec _ _ _ _ _ _ Hr1 Hv1 D1 D2 D3) as (s2 & Hd & Hr2 & Ho2 & _).
    exists s2. split; [done|]. unfold outer in *. split; [|cbn in *; congruence].
    exists ls', (l :: F). split; [done|]. split.
    - rewrite Hp in Hp1. rewrite fmap_app, fmap_cons in Hp1. cbn [fst] in Hp1.
      rewrite <- Permutation_middle, <- fmap_app in Hp1. by apply Permutation_cons_inv in Hp1.
    - rewrite <- Ht0. congruence. }
  destruct (drop_spec _ _ _ _ _ _ _ Hr0 Hin) as [(s1 & ls1 & E1 & H1) (s2 & ls2 & E2 & H2)].
  split.
  - apply rbind_Ok_inv in E2 as (x & -> & Ex). cbn [rbind]. rewrite Ex. cbn [rbind].
    destruct H2 as (R2 & P2 & D2 & O2 & C2). by eapply Hfin.
  - apply rbind_Ok_inv in E1 as (x & -> & Ex). cbn [rbind]. rewrite Ex. cbn [rbind].
    destruct H1 as (R1 & P1 & D1 & O1 & C1). by eapply Hfin.
Qed.

(** A write to one block, with the change of the total that goes with it. *)
Lemma shape_upd s pre l a b a' b' post f d :
  shape s (pre ++ (l, (a, b)) :: post) ->
  (forall v, startseq_ v = a -> endseq_ v = b -> range_of (f v) = (a', b') /\
    next_ (f v) = next_ v /\ prev_ (f v) = prev_ v /\ snext_ (f v) = snext_ v /\
    sprev_ (f v) = sprev_ v) ->
  d = (b' - a') - (b - a) ->
  exists s', upd (Some l) f (add_total d s) = Ok s' /\
    shape s' (pre ++ (l, (a', b')) :: post) /\ rcv_nxt_ s' = rcv_nxt_ s.
Proof.
  intros (ls & F & Hr & Hp & Ht) Hf Hd. apply (add_total_rep d) in Hr.
  destruct (rep_lookup _ _ _ _ l a b Hr) as (v & Hv & Ha & Hb); [apply elem_of_app; right; left|].
  destruct (Hf v Ha Hb) as (Hrg & H1 & H2 & H3 & H4).
  destruct (upd_spec _ _ _ _ _ _ _ f v Hr Hv H1 H2 H3 H4) as (s' & Hu & Hr' & Ho & _).
  exists s'. split; [done|]. rewrite Hrg in Hr'. injection Ho as Ho1 Ho2.
  split; [|done]. exists ls, F. split; [done|]. split.
  - by rewrite Hp, !fmap_app.
  - rewrite Ho1. rewrite (wrap_total _ _ _ Ht). f_equal. rewrite !fmap_app, !fmap_cons. cbn [snd].
    rewrite !sumlen_mid. lia.
Qed.

(** A write that changes neither end. *)
Lemma shape_touch s pre l a b post f :
  shape s (pre ++ (l, (a, b)) :: post) ->
  (forall v, range_of (f v) = range_of v /\
    next_ (f v) = next_ v /\ prev_ (f v) = prev_ v /\ snext_ (f v) = snext_ v /\
    sprev_ (f v) = sprev_ v) ->
  exists s', upd (Some l) f s = Ok s' /\ shape s' (pre ++ (l, (a, b)) :: post) /\
    rcv_nxt_ s' = rcv_nxt_ s.
Proof.
  intros (ls & F & Hr & Hp & Ht) Hf.
  destruct (rep_lookup _ _ _ _ l a b Hr) as (v & Hv & Ha & Hb); [apply elem_of_app; right; left|].
  destruct (Hf v) as (Hrg & H1 & H2 & H3 & H4).
  destruct (upd_spec _ _ _ _ _ _ _ f v Hr Hv H1 H2 H3 H4) as (s' & Hu & Hr' & Ho & _).
  exists s'. split; [done|]. injection Ho as Ho1 Ho2. split; [|done]. exists ls, F.
  assert (Hre : range_of (f v) = (a, b)) by (rewrite Hrg; unfold range_of; congruence).
  rewrite Hre in Hr'. split; [done|]. split; [done|]. congruence.
Qed.

Lemma advance_spec s fs ls F l x y :
  rep s fs ls F -> (l, (x, y)) ∈ fs ->
  advance (Some l) s = Ok (if x <=? rcv_nxt_ s then set_rcv_nxt y s else s).
Proof.
  intros Hr Hin. destruct (rep_lookup _ _ _ _ _ _ _ Hr Hin) as (v & Hv & <- & <-).
  unfold advance. rewrite (load_Some _ _ _ Hv). cbn [rbind]. by destruct (_ <=? _).
Qed.

(** ** Joining a new block to its neighbours *)

(** The neighbours that touch the new block [(a, b)]: on the left one that
    starts at [x], on the right one that ends at [y]. *)
Definition lnb (a : Z) (P : option (positive * Z)) : list (positive * block) :=
  match P with Some (l, x) => [(l, (x, a))] | None => [] end.
Definition rnb (b : Z) (Q : option (positive * Z)) : list (positive * block) :=
  match Q with Some (l, y) => [(l, (b, y))] | None => [] end.
Definition lend (a : Z) (P : option (positive * Z)) : Z :=
  match P with Some (_, x) => x | None => a end.
Definition rend (b : Z) (Q : option (positive * Z)) : Z :=
  match Q with Some (_, y) => y | None => b end.

(** The segment that remains. *)
Definition survivor (n : positive) (P Q : option (positive * Z)) : positive :=
  match P, Q with Some (l, _), _ => l | None, Some (l, _) => l | None, None => n end.

(** What is left of the new block's own segment when it is off the lists. *)
Lemma coalesce_finish s fs ls F l x y n v :
  rep s fs ls F -> detached n fs ls F -> segs s !! n = Some v -> (l, (x, y)) ∈ fs ->
  exists s' F', (let! s := deleteseginfo n s in advance (Some l) s) = Ok s' /\
    rep s' fs ls F' /\ total_ s' = total_ s /\
    rcv_nxt_ s' = (if x <=? rcv_nxt_ s then y else rcv_nxt_ s).
Proof.
  intros Hr (D1 & D2 & D3) Hv Hin.
  destruct (deleteseginfo_spec _ _ _ _ _ _ Hr Hv D1 D2 D3) as (s1 & -> & Hr1 & Ho & _).
  cbn [rbind]. rewrite (advance_spec _ _ _ _ _ _ _ Hr1 Hin). injection Ho as Ho1 Ho2.
  rewrite Ho2. exists (if x <=? rcv_nxt_ s then set_rcv_nxt y s1 else s1), (n :: F).
  split; [done|]. destruct (x <=? rcv_nxt_ s); (split; [by try apply set_rcv_rep|by split]).
Qed.

Lemma upd_core_spec s pre l r post ls F f v :
  rep s (pre ++ (l, r) :: post) ls F -> segs s !! l = Some v ->
  next_ (f v) = next_ v -> prev_ (f v) = prev_ v -> snext_ (f v) = snext_ v ->
  sprev_ (f v) = sprev_ v ->
  exists s', upd (Some l) f s = Ok s' /\ rep s' (pre ++ (l, range_of (f v)) :: post) ls F /\
    outer s' = outer s /\ segs s' !! l = Some (f v) /\
    (forall k, k <> l -> segs s' !! k = segs s !! k).
Proof.
  intros Hr Hv H1 H2 H3 H4.
  destruct (upd_spec _ _ _ _ _ _ _ f v Hr Hv H1 H2 H3 H4) as (s' & Hu & Hr' & Ho & Hs).
  exists s'. rewrite Hs. split; [done|]. split; [done|]. split; [done|].
  split; [apply lookup_insert_eq|]. intros k Hk. by rewrite lookup_insert_ne.
Qed.

(** The three writes to the surviving segment. *)
Lemma coalesce_writes s pre l r post ls F v f g h :
  rep s (pre ++ (l, r) :: post) ls F -> segs s !! l = Some v ->
  (forall w, next_ (f w) = next_ w /\ prev_ (f w) = prev_ w /\ snext_ (f w) = snext_ w /\ sprev_ (f w) = sprev_ w) ->
  (forall w, next_ (g w) = next_ w /\ prev_ (g w) = prev_ w /\ snext_ (g w) = snext_ w /\ sprev_ (g w) = sprev_ w) ->
  (forall w, next_ (h w) = next_ w /\ prev_ (h w) = prev_ w /\ snext_ (h w) = snext_ w /\ sprev_ (h w) = sprev_ w) ->
  exists s1 s2 s3, upd (Some l) f s = Ok s1 /\ upd (Some l) g s1 = Ok s2 /\ upd (Some l) h s2 = Ok s3 /\
    rep s3 (pre ++ (l, range_of (h (g (f v)))) :: post) ls F /\ outer s3 = outer s /\
    segs s3 !! l = Some (h (g (f v))) /\ (forall k, k <> l -> segs s3 !! k = segs s !! k).
Proof.
  intros Hr Hv Hf Hg Hh.
  destruct (Hf v) as (f1 & f2 & f3 & f4).
  destruct (upd_core_spec _ _ _ _ _ _ _ f v Hr Hv f1 f2 f3 f4) as (s1 & E1 & R1 & O1 & V1 & K1).
  destruct (Hg (f v)) as (g1 & g2 & g3 & g4).
  destruct (upd_core_spec _ _ _ _ _ _ _ g _ R1 V1 g1 g2 g3 g4) as (s2 & E2 & R2 & O2 & V2 & K2).
  destruct (Hh (g (f v))) as (h1 & h2 & h3 & h4).
  destruct (upd_core_spec _ _ _ _ _ _ _ h _ R2 V2 h1 h2 h3 h4) as (s3 & E3 & R3 & O3 & V3 & K3).
  exists s1, s2, s3. split; [done|]. split; [done|]. split; [done|]. split; [done|].
  split; [congruence|]. split; [done|]. intros k Hk. by rewrite K3, K2, K1.
Qed.

(** The state [coalesce] leaves. *)
Definition coalesced s0 A x y C (m : positive) s' : Prop :=
  exists ls F, rep s' (A ++ (m, (x, y)) :: C) ls F /\ ls ≡ₚ (A ++ (m, (x, y)) :: C).*1 /\
    total_ s' = total_ s0 /\ rcv_nxt_ s' = (if x <=? rcv_nxt_ s0 then y else rcv_nxt_ s0).

Lemma last_fst (A : list (positive * block)) l r : last (A ++ [(l, r)]).*1 = Some l.
Proof. rewrite fmap_app. apply last_snoc. Qed.

Lemma detached_ne (n l : positive) fs ls F r : detached n fs ls F -> (l, r) ∈ fs -> l <> n.
Proof. intros (D & _) Hin ->. apply D, list_elem_of_fmap. by exists (n, r). Qed.

(** The new block joins the one on its left only. *)
Lemma coalesce_left s A pl x a n b C ls F nv :
  rep s (A ++ (pl, (x, a)) :: (n, (a, b)) :: C) ls F ->
  ls ≡ₚ (A ++ (pl, (x, a)) :: (n, (a, b)) :: C).*1 -> segs s !! n = Some nv ->
  exists flags s', (
      let! s := sremove n s in let! s := fremove n s in
      let! s := upd (Some pl) (set_end (endseq_ nv)) s in
      let! s := upd (Some pl) (or_flags (pflags_ nv)) s in
      let! s := upd (Some pl) (add_cnt (cnt_ nv)) s in
      let! pv := load (segs s) (Some pl) in
      let! s := deleteseginfo n s in let! s := advance (Some pl) s in
      Ok (pflags_ pv, s)) = Ok (flags, s') /\ coalesced s A x b C pl s'.
Proof.
  intros Hr Hp Hnv.
  change (A ++ (pl, (x, a)) :: (n, (a, b)) :: C) with (A ++ [(pl, (x, a))] ++ (n, (a, b)) :: C) in Hr, Hp.
  rewrite (assoc_L (++)) in Hr, Hp.
  destruct (rep_lookup _ _ _ _ n a b Hr) as (nv' & Hnv' & _ & Hb); [apply elem_of_app; right; left|].
  assert (nv' = nv) as -> by congruence.
  assert (Hin : n ∈ ls) by (rewrite Hp, fmap_app; apply elem_of_app; right; left).
  destruct (drop_spec _ _ _ _ _ _ _ Hr Hin) as [(s1 & ls1 & E1 & R1 & P1 & D1 & O1 & C1) _].
  apply rbind_Ok_inv in E1 as (s0 & -> & E1). cbn [rbind]. rewrite E1. cbn [rbind].
  rewrite <- (assoc_L (++)) in R1, D1. cbn [app] in R1, D1.
  destruct (rep_lookup _ _ _ _ pl x a R1) as (pv & Hpv & Hx & Ha); [apply elem_of_app; right; left|].
  destruct (coalesce_writes _ _ _ _ _ _ _ pv (set_end (endseq_ nv)) (or_flags (pflags_ nv))
    (add_cnt (cnt_ nv)) R1 Hpv) as (t1 & t2 & t3 & -> & T2 & T3 & R3 & O3 & V3 & K3); [done..|].
  cbn [rbind]. rewrite T2. cbn [rbind]. rewrite T3. cbn [rbind]. rewrite (load_Some _ _ _ V3). cbn [rbind].
  change (range_of _) with (startseq_ pv, endseq_ nv) in R3. rewrite Hx, Hb in R3.
  destruct (core_Some _ _ _ _ (C1 n) Hnv) as (w & Hw & _).
  assert (Hne : n <> pl) by (intros ->; eapply detached_ne; [exact D1| |done]; apply elem_of_app; right; left).
  destruct (coalesce_finish t3 _ _ _ pl x b n w R3) as (s' & F' & Hfin & Rf & Tf & Nf).
  { destruct D1 as (D & D' & D''). split; [|by split]. by rewrite fmap_app, fmap_cons in *. }
  { by rewrite K3. }
  { apply elem_of_app; right; left. }
  apply rbind_Ok_inv in Hfin as (t4 & -> & Hfin). cbn [rbind]. rewrite Hfin. cbn [rbind].
  eexists _, s'. split; [done|]. unfold outer in *. exists ls1, F'. split; [exact Rf|]. split.
  - rewrite P1 in Hp. rewrite !fmap_app, !fmap_cons in Hp |- *. cbn [fst] in *.
    rewrite <- Permutation_middle in Hp. apply Permutation_cons_inv in Hp. rewrite Hp, fmap_app.
    by rewrite <- (assoc_L (++)).
  - rewrite Tf, Nf. injection O3 as O31 O32. injection O1 as O11 O12. split; [congruence|].
    rewrite O32, O12. done.
Qed.

(** The new block joins the one on its right only. *)
Lemma coalesce_right s A n a b ql y C ls F nv :
  rep s (A ++ (n, (a, b)) :: (ql, (b, y)) :: C) ls F ->
  ls ≡ₚ (A ++ (n, (a, b)) :: (ql, (b, y)) :: C).*1 -> segs s !! n = Some nv ->
  exists flags s', (
      let! s := sremove n s in let! s := fremove n s in
      let! s := upd (Some ql) (set_start (startseq_ nv)) s in
      let! s := upd (Some ql) (or_flags (pflags_ nv)) s in
      let! s := upd (Some ql) (add_cnt (cnt_ nv)) s in
      let! qv := load (segs s) (Some ql) in
      let! s := deleteseginfo n s in let! s := advance (Some ql) s in
      Ok (pflags_ qv, s)) = Ok (flags, s') /\ coalesced s A a y C ql s'.
Proof.
  intros Hr Hp Hnv.
  destruct (rep_lookup _ _ _ _ n a b Hr) as (nv' & Hnv' & Ha & _); [apply elem_of_app; right; left|].
  assert (nv' = nv) as -> by congruence.
  assert (Hin : n ∈ ls) by (rewrite Hp, fmap_app; apply elem_of_app; right; left).
  destruct (drop_spec _ _ _ _ _ _ _ Hr Hin) as [(s1 & ls1 & E1 & R1 & P1 & D1 & O1 & C1) _].
  apply rbind_Ok_inv in E1 as (s0 & -> & E1). cbn [rbind]. rewrite E1. cbn [rbind].
  destruct (rep_lookup _ _ _ _ ql b y R1) as (qv & Hqv & Hb & Hy); [apply elem_of_app; right; left|].
  destruct (coalesce_writes _ _ _ _ _ _ _ qv (set_start (startseq_ nv)) (or_flags (pflags_ nv))
    (add_cnt (cnt_ nv)) R1 Hqv) as (t1 & t2 & t3 & -> & T2 & T3 & R3 & O3 & V3 & K3); [done..|].
  cbn [rbind]. rewrite T2. cbn [rbind]. rewrite T3. cbn [rbind]. rewrite (load_Some _ _ _ V3). cbn [rbind].
  change (range_of _) with (startseq_ nv, endseq_ qv) in R3. rewrite Ha, Hy in R3.
  destruct (core_Some _ _ _ _ (C1 n) Hnv) as (w & Hw & _).
  assert (Hne : n <> ql) by (intros ->; eapply detached_ne; [exact D1| |done]; apply elem_of_app; right; left).
  destruct (coalesce_finish t3 _ _ _ ql a y n w R3) as (s' & F' & Hfin & Rf & Tf & Nf).
  { destruct D1 as (D & D' & D''). split; [|by split]. by rewrite fmap_app, fmap_cons in *. }
  { by rewrite K3. }
  { apply elem_of_app; right; left. }
  apply rbind_Ok_inv in Hfin as (t4 & -> & Hfin). cbn [rbind]. rewrite Hfin. cbn [rbind].
  eexists _, s'. split; [done|]. unfold outer in *. exists ls1, F'. split; [exact Rf|]. split.
  - rewrite P1 in Hp. rewrite !fmap_app, !fmap_cons in Hp |- *. cbn [fst] in *.
    rewrite <- (Permutation_middle A.*1 _ n) in Hp. by apply Permutation_cons_inv in Hp.
  - rewrite Tf, Nf. injection O3 as O31 O32. injection O1 as O11 O12. split; [congruence|].
    rewrite O32, O12. done.
Qed.

(** The new block fills the gap between its two neighbours. *)
Lemma coalesce_both s A pl x a n b ql y C ls F nv :
  rep s (A ++ (pl, (x, a)) :: (n, (a, b)) :: (ql, (b, y)) :: C) ls F ->
  ls ≡ₚ (A ++ (pl, (x, a)) :: (n, (a, b)) :: (ql, (b, y)) :: C).*1 -> segs s !! n = Some nv ->
  exists flags s', (
      let! s := sremove n s in let! s := fremove n s in
      let! s := sremove ql s in let! s := fremove ql s in
      let! qv := load (segs s) (Some ql) in
      let! s := upd (Some pl) (set_end (endseq_ qv)) s in
      let! s := upd (Some pl) (add_cnt (cnt_ nv + cnt_ qv)) s in
      let! s := upd (Some pl) (or_flags (pflags_ nv)) s in
      let! pv := load (segs s) (Some pl) in
      let! s := deleteseginfo n s in let! s := deleteseginfo ql s in
      let! s := advance (Some pl) s in
      Ok (pflags_ pv, s)) = Ok (flags, s') /\ coalesced s A x y C pl s'.
Proof.
  intros Hr Hp Hnv.
  change (A ++ (pl, (x, a)) :: (n, (a, b)) :: (ql, (b, y)) :: C)
    with (A ++ [(pl, (x, a))] ++ (n, (a, b)) :: (ql, (b, y)) :: C) in Hr, Hp.
  rewrite (assoc_L (++)) in Hr, Hp. set (A' := A ++ [(pl, (x, a))]) in *.
  assert (Hin : n ∈ ls) by (rewrite Hp, fmap_app; apply elem_of_app; right; left).
  destruct (drop_spec _ _ _ _ _ _ _ Hr Hin) as [(s1 & ls1 & E1 & R1 & P1 & D1 & O1 & C1) _].
  apply rbind_Ok_inv in E1 as (s0 & -> & E1). cbn [rbind]. rewrite E1. cbn [rbind].
  assert (P1' : ls1 ≡ₚ (A' ++ (ql, (b, y)) :: C).*1).
  { rewrite P1 in Hp. rewrite !fmap_app, !fmap_cons in Hp |- *. cbn [fst] in *.
    rewrite <- (Permutation_middle A'.*1 _ n) in Hp. by apply Permutation_cons_inv in Hp. }
  assert (Hin1 : ql ∈ ls1) by (rewrite P1', fmap_app; apply elem_of_app; right; left).
  assert (Hqn : ql <> n) by (eapply detached_ne; [exact D1|apply elem_of_app; right; left]).
  destruct (rep_lookup _ _ _ _ ql b y R1) as (qv0 & Hqv0 & _ & Hy); [apply elem_of_app; right; left|].
  destruct (drop_spec _ _ _ _ _ _ _ R1 Hin1) as [(s2 & ls2 & E2 & R2 & P2 & D2 & O2 & C2) _].
  apply rbind_Ok_inv in E2 as (s1' & -> & E2). cbn [rbind]. rewrite E2. cbn [rbind].
  destruct (core_Some _ _ _ _ (C2 ql) Hqv0) as (qv & Hqv & Hqc).
  rewrite (load_Some _ _ _ Hqv). cbn [rbind]. injection Hqc as _ Hqe _ _ _.
  unfold A' in R2, D2. rewrite <- (assoc_L (++)) in R2, D2. cbn [app] in R2, D2.
  destruct (rep_lookup _ _ _ _ pl x a R2) as (pv & Hpv & Hx & Ha); [apply elem_of_app; right; left|].
  destruct (coalesce_writes _ _ _ _ _ _ _ pv (set_end (endseq_ qv)) (add_cnt (cnt_ nv + cnt_ qv))
    (or_flags (pflags_ nv)) R2 Hpv) as (t1 & t2 & t3 & -> & T2 & T3 & R3 & O3 & V3 & K3); [done..|].
  cbn [rbind]. rewrite T2. cbn [rbind]. rewrite T3. cbn [rbind]. rewrite (load_Some _ _ _ V3). cbn [rbind].
  change (range_of _) with (startseq_ pv, endseq_ qv) in R3. rewrite Hx, Hqe, Hy in R3.
  destruct (core_Some _ _ _ _ (C1 n) Hnv) as (w1 & Hw1 & _).
  destruct (core_Some _ _ _ _ (C2 n) Hw1) as (w & Hw & _).
  assert (Hpq : pl <> ql) by (eapply detached_ne; [exact D2|apply elem_of_app; right; left]).
  assert (Hpn : pl <> n).
  { eapply detached_ne; [exact D1|]. unfold A'. apply elem_of_app; left. apply elem_of_app; right; left. }
  assert (Hfst : forall r r', (A ++ (pl, r) :: C).*1 = (A ++ (pl, r') :: C).*1)
    by (intros; by rewrite !fmap_app).
  assert (Dn : detached n (A ++ (pl, (x, y)) :: C) ls2 F).
  { destruct D1 as (D & D' & D''). split; [|split; [|done]].
    - rewrite (Hfst _ (x, a)). intros Hi. apply D. unfold A'. rewrite !fmap_app, !fmap_cons in *.
      cbn [fst fmap list_fmap] in *. clear - Hi. set_solver.
    - intros Hi. apply D'. rewrite P2. by right. }
  destruct D2 as (Dq1 & Dq2 & Dq3). rewrite (Hfst _ (x, y)) in Dq1.
  destruct (deleteseginfo_spec _ _ _ _ n w R3) as (t4 & -> & R4 & O4 & C4);
    [by rewrite K3|apply Dn..|]. cbn [rbind].
  destruct (core_Some _ _ _ _ (C4 ql) (eq_trans (K3 ql (not_eq_sym Hpq)) Hqv)) as (qv4 & Hqv4 & _).
  destruct (coalesce_finish t4 _ _ _ pl x y ql qv4 R4) as (s' & F' & Hfin & Rf & Tf & Nf).
  { split; [done|]. split; [done|]. by intros [?|?]%elem_of_cons. }
  { done. }
  { apply elem_of_app; right; left. }
  apply rbind_Ok_inv in Hfin as (t5 & -> & Hfin). cbn [rbind]. rewrite Hfin. cbn [rbind].
  eexists _, s'. split; [done|]. unfold outer in *. exists ls2, F'. split; [exact Rf|]. split.
  - rewrite (Hfst _ (x, a)). rewrite P2 in P1'. unfold A' in P1'.
    rewrite !fmap_app, !fmap_cons in P1' |- *. cbn [fst fmap list_fmap] in *.
    rewrite <- Permutation_middle in P1'. apply Permutation_cons_inv in P1'. rewrite P1'.
    rewrite fmap_app. cbn [fmap list_fmap fst]. by rewrite <- (assoc_L (++)).
  - rewrite Tf, Nf. injection O4 as O41 O42. injection O3 as O31 O32. injection O2 as O21 O22.
    injection O1 as O11 O12. split; [congruence|]. rewrite O42, O32, O22, O12. done.
Qed.

(** [coalesce], whichever neighbours touch the new block. *)
Lemma coalesce_spec s A P n a b Q C ls F :
  rep s (A ++ lnb a P ++ (n, (a, b)) :: rnb b Q ++ C) ls F ->
  ls ≡ₚ (A ++ lnb a P ++ (n, (a, b)) :: rnb b Q ++ C).*1 -> a < b ->
  (P = None -> forall l x, last A <> Some (l, (x, a))) ->
  (Q = None -> forall l y, head C <> Some (l, (b, y))) -> P <> None \/ Q <> None ->
  exists flags s', coalesce (last (A ++ lnb a P).*1) n (head (rnb b Q ++ C).*1) s = Ok (flags, s') /\
    coalesced s A (lend a P) (rend b Q) C (survivor n P Q) s'.
Proof.
  intros Hr Hp Hab HP HQ Hor.
  destruct (rep_lookup _ _ _ _ n a b Hr) as (nv & Hnv & Ha & Hb).
  { apply elem_of_app; right. apply elem_of_app; right; left. }
  unfold coalesce. rewrite (load_Some _ _ _ Hnv). cbn [rbind].
  assert (HpL : exists pe : option Z, match last (A ++ lnb a P).*1 with
      | None => Ok None
      | Some _ => let! v := load (segs s) (last (A ++ lnb a P).*1) in Ok (Some (endseq_ v))
      end = Ok pe /\ bool_decide (pe = Some (startseq_ nv)) = bool_decide (P <> None)).
  { rewrite Ha. destruct P as [[pl x]|]; cbn [lnb] in *.
    - rewrite last_fst. destruct (rep_lookup _ _ _ _ pl x a Hr) as (v & Hv & _ & He).
      { apply elem_of_app; right. left. }
      rewrite (load_Some _ _ _ Hv). cbn [rbind]. eexists. split; [done|]. rewrite He.
      by rewrite !bool_decide_eq_true_2.
    - rewrite app_nil_r. destruct A as [|[pl [x e]] A _] using rev_ind.
      + exists None. split; [done|]. by rewrite !bool_decide_eq_false_2 by naive_solver.
      + rewrite last_fst. destruct (rep_lookup _ _ _ _ pl x e Hr) as (v & Hv & _ & He).
        { apply elem_of_app; left. apply elem_of_app; right. left. }
        rewrite (load_Some _ _ _ Hv). cbn [rbind]. eexists. split; [done|].
        rewrite !bool_decide_eq_false_2; [done|naive_solver|].
        rewrite He. intros [= ->]. apply (HP eq_refl pl x). by rewrite last_snoc. }
  assert (HqR : exists qs : option Z, match head (rnb b Q ++ C).*1 with
      | None => Ok None
      | Some _ => let! v := load (segs s) (head (rnb b Q ++ C).*1) in Ok (Some (startseq_ v))
      end = Ok qs /\ bool_decide (qs = Some (endseq_ nv)) = bool_decide (Q <> None)).
  { rewrite Hb. destruct Q as [[ql y]|]; cbn [rnb app] in *.
    - cbn [fmap list_fmap fst head]. destruct (rep_lookup _ _ _ _ ql b y Hr) as (v & Hv & He & _).
      { apply elem_of_app; right. apply elem_of_app; right. right. left. }
      rewrite (load_Some _ _ _ Hv). cbn [rbind]. eexists. split; [done|]. rewrite He.
      by rewrite !bool_decide_eq_true_2.
    - destruct C as [|[ql [e y]] C].
      + exists None. split; [done|]. by rewrite !bool_decide_eq_false_2 by naive_solver.
      + cbn [fmap list_fmap fst head]. destruct (rep_lookup _ _ _ _ ql e y Hr) as (v & Hv & He & _).
        { apply elem_of_app; right. apply elem_of_app; right. right. left. }
        rewrite (load_Some _ _ _ Hv). cbn [rbind]. eexists. split; [done|].
        rewrite !bool_decide_eq_false_2; [done|naive_solver|].
        rewrite He. intros [= ->]. by apply (HQ eq_refl ql y). }
  destruct HpL as (pe & -> & Ep). cbn [rbind]. destruct HqR as (qs & -> & Eq). cbn [rbind].
  cbv zeta. rewrite Ep, Eq.
  destruct P as [[pl x]|], Q as [[ql y]|]; cbn [lnb rnb lend rend survivor app] in *.
  - rewrite last_fst. rewrite !bool_decide_eq_true_2 by done.
    cbn [fmap list_fmap fst head]. by eapply coalesce_both.
  - rewrite last_fst, bool_decide_eq_true_2, bool_decide_eq_false_2 by naive_solver.
    destruct (coalesce_left _ _ _ _ _ _ _ _ _ _ nv Hr Hp Hnv) as (fl & s' & Hs).
    exists fl, s'. destruct (head C.*1); done.
  - rewrite bool_decide_eq_false_2, bool_decide_eq_true_2 by naive_solver.
    rewrite app_nil_r. cbn [fmap list_fmap fst head].
    destruct (coalesce_right _ _ _ _ _ _ _ _ _ _ nv Hr Hp Hnv) as (fl & s' & Hs).
    exists fl, s'. destruct (last A.*1); done.
  - by destruct Hor.
Qed.

Lemma sumlen_lnb a P : sumlen (lnb a P).*2 = a - lend a P.
Proof. destruct P as [[l x]|]; cbn; lia. Qed.

Lemma sumlen_rnb b Q : sumlen (rnb b Q).*2 = rend b Q - b.
Proof. destruct Q as [[l y]|]; cbn; lia. Qed.

(** From [endfast] on: the new block is put between its neighbours, and
    joined to the ones it touches. *)
Lemma endfast_spec s A P Q C a b (needmerge : bool) t rf c :
  shape s (A ++ lnb a P ++ rnb b Q ++ C) -> a < b ->
  (P = None -> forall l x, last A <> Some (l, (x, a))) ->
  (Q = None -> forall l y, head C <> Some (l, (b, y))) ->
  (needmerge = true <-> P <> None \/ Q <> None) ->
  exists flags s' m, endfast (last (A ++ lnb a P).*1) (head (rnb b Q ++ C).*1) needmerge a b t rf c s
      = Ok (flags, s') /\
    shape s' (A ++ (m, (lend a P, rend b Q)) :: C) /\
    rcv_nxt_ s' = (if lend a P <=? rcv_nxt_ s then rend b Q else rcv_nxt_ s).
Proof.
  intros (ls & F & Hr & Hp & Ht) Hab HP HQ Hnm. rewrite (assoc_L (++)) in Hr.
  unfold endfast.
  destruct (link_new_spec s _ _ _ _ a b t rf c Hr) as (n & s1 & F' & v & -> & Hr1 & Hdt & Hv & _ & Ho).
  cbn [rbind]. injection Ho as Ho1 Ho2.
  assert (Hsum : total_ (add_total (b - a) s1) =
    wrap_i32 (sumlen (A ++ (n, (lend a P, rend b Q)) :: C).*2)).
  { cbn [total_ add_total]. rewrite Ho1, (wrap_total _ _ _ Ht). f_equal.
    rewrite !fmap_app, !fmap_cons. cbn [snd]. rewrite !sumlen_app, sumlen_cons.
    rewrite sumlen_lnb, sumlen_rnb. cbn [fst snd]. lia. }
  apply (add_total_rep (b - a)) in Hr1. set (s2 := add_total (b - a) s1) in *.
  assert (Hp2 : n :: ls ≡ₚ (A ++ lnb a P ++ (n, (a, b)) :: rnb b Q ++ C).*1).
  { rewrite Hp. rewrite !fmap_app, fmap_cons, !fmap_app. cbn [fst]. solve_Permutation. }
  rewrite <- (assoc_L (++)) in Hr1. destruct needmerge.
  - destruct (coalesce_spec s2 A P n a b Q C _ _ Hr1 Hp2 Hab HP HQ ltac:(by apply Hnm))
      as (fl & s' & -> & (ls' & F2 & Rf & Pf & Tf & Nf)).
    exists fl, s', (survivor n P Q). split; [done|].
    change (rcv_nxt_ s2) with (rcv_nxt_ s1) in Nf. rewrite Ho2 in Nf. split; [|done].
    exists ls', F2. split; [done|]. split; [done|]. rewrite Tf, Hsum. f_equal.
    rewrite !fmap_app, !fmap_cons. done.
  - assert (P = None /\ Q = None) as [-> ->].
    { destruct P, Q; try (split; done); exfalso;
        assert (false = true) by (apply Hnm; auto); done. }
    cbn [lnb rnb lend rend app] in *. change (rcv_nxt_ s2) with (rcv_nxt_ s1). rewrite Ho2.
    exists t, (if a <=? rcv_nxt_ s then set_rcv_nxt b s2 else s2), n. split; [done|].
    split; [|destruct (a <=? _); done]. exists (n :: ls), F'.
    split; [destruct (a <=? _); [by apply set_rcv_rep|done]|]. split; [done|].
    destruct (a <=? _); exact Hsum.
Qed.
