(* ===== verification/RqAdd.v ===== *)
(** * The reassembly queue: adding a segment

    [add] is shown to keep the blocks disjoint, in order and separated by
    gaps, and to add exactly the new segment's sequence numbers to the ones
    covered; [rcv_nxt_] moves to the end of the block the segment ends up in
    when that block starts at or before it. *)

From stdpp Require Import base numbers list gmap sorting.
From Stdlib Require Import ZArith Lia Bool.
From S2P Require Import Prelude.
From S2P Require Import Store.
From S2P Require Import Dlist.
From S2P Require Import Ring.
From S2P Require Import Deque.
From S2P Require Import Rq.
From S2P Require Import RqProps.
Open Scope Z_scope.

Implicit Types (s : rq) (rs A C : list block) (r : block).

(** ** Lists of blocks *)

Definition gap r r' : Prop := r.2 < r'.1.

(** Non-empty blocks in order, with at least one missing number between two. *)
Definition blocks_ok rs : Prop := Forall (fun r => r.1 < r.2) rs /\ StronglySorted gap rs.

(** The sequence numbers received. *)
Definition cov rs (z : Z) : Prop := exists r, r ∈ rs /\ r.1 <= z < r.2.

Lemma blocks_ok_app rs rs' :
  blocks_ok (rs ++ rs') <->
  blocks_ok rs /\ blocks_ok rs' /\ forall r r', r ∈ rs -> r' ∈ rs' -> gap r r'.
Proof.
  unfold blocks_ok. rewrite Forall_app. split.
  - intros [[H1 H2] Hs]. apply StronglySorted_app in Hs as (Hx & Ha & Hb).
    split_and!; done.
  - intros ([H1 Ha] & [H2 Hb] & Hx). split; [done|]. apply StronglySorted_app. by split_and!.
Qed.

Lemma blocks_ok_cons r rs :
  blocks_ok (r :: rs) <-> r.1 < r.2 /\ blocks_ok rs /\ forall r', r' ∈ rs -> gap r r'.
Proof.
  unfold blocks_ok. rewrite Forall_cons. split.
  - intros [[H1 H2] Hs]. apply StronglySorted_inv in Hs as [Hs Hf]. rewrite Forall_forall in Hf.
    by split_and!.
  - intros (H1 & [H2 Hs] & Hf). split; [done|]. constructor; [done|]. by rewrite Forall_forall.
Qed.

Lemma blocks_ok_nil : blocks_ok [].
Proof. split; [done|constructor]. Qed.

Lemma blocks_ok_mid A x y C :
  blocks_ok (A ++ (x, y) :: C) <->
  blocks_ok A /\ blocks_ok C /\ x < y /\ (forall r, r ∈ A -> r.2 < x) /\
  (forall r, r ∈ C -> y < r.1) /\ (forall r r', r ∈ A -> r' ∈ C -> gap r r').
Proof.
  rewrite blocks_ok_app, blocks_ok_cons. unfold gap. cbn [fst snd]. split.
  - intros (HA & (Hxy & HC & Hy) & H). split_and!; try done.
    + intros r Hr. apply (H r (x, y) Hr). by left.
    + intros r r' Hr Hr'. apply H; [done|by right].
  - intros (HA & HC & Hxy & Hx & Hy & H). split_and!; try done.
    intros r r' Hr [->|Hr']%elem_of_cons; [by apply Hx|by apply H].
Qed.

(** Around a block, whatever touches it. *)
Lemma blocks_ok_widen A x y x' y' C :
  blocks_ok (A ++ (x, y) :: C) -> x' < y' -> (forall r, r ∈ A -> r.2 < x') ->
  (forall r, r ∈ C -> y' < r.1) -> blocks_ok (A ++ (x', y') :: C).
Proof. rewrite !blocks_ok_mid. intros (H1 & H2 & H3 & H4 & H5 & H6) ???. by split_and!. Qed.

Lemma blocks_ok_drop A M C : blocks_ok (A ++ M ++ C) -> blocks_ok (A ++ C).
Proof.
  rewrite !blocks_ok_app. intros (HA & (HM & HC & HMC) & HAM). split_and!; try done.
  intros r r' Hr Hr'. apply HAM; [done|]. apply elem_of_app. by right.
Qed.

Lemma blocks_ok_elem rs r : blocks_ok rs -> r ∈ rs -> r.1 < r.2.
Proof. intros [Hf _] Hr. rewrite Forall_forall in Hf. auto. Qed.

Lemma cov_app rs rs' z : cov (rs ++ rs') z <-> cov rs z \/ cov rs' z.
Proof. unfold cov. setoid_rewrite elem_of_app. naive_solver. Qed.

Lemma cov_cons r rs z : cov (r :: rs) z <-> r.1 <= z < r.2 \/ cov rs z.
Proof. unfold cov. setoid_rewrite elem_of_cons. naive_solver. Qed.

Lemma cov_nil z : cov [] z <-> False.
Proof. unfold cov. split; [|done]. intros (r & Hr & _). by apply not_elem_of_nil in Hr. Qed.

(** ** What [add] may leave *)

(** [r] touches or overlaps [[a, b)]. *)
Definition touches (a b : Z) r : Prop := r.1 <= b /\ a <= r.2.

(** The blocks [rs] have grown by [[a, b)] into the state [s']: one block
    has swallowed the new numbers and everything they touch, the others are
    as they were; [rn] was the value of [rcv_nxt_]. *)
Record grown (rn : Z) rs (a b : Z) s' : Prop := {
  gr_state : exists fs A x y C,
    shape s' fs /\ fs.*2 = A ++ (x, y) :: C /\ blocks_ok (A ++ (x, y) :: C) /\
    (forall r, r ∈ A ++ C -> r ∈ rs) /\ x <= a /\ b <= y /\
    (forall r, r ∈ rs -> touches a b r -> x <= r.1 /\ r.2 <= y) /\
    (forall z, cov (A ++ (x, y) :: C) z <-> cov rs z \/ a <= z < b) /\
    rcv_nxt_ s' = (if x <=? rn then y else rn)
}.

(** [u] is at or after the start of the block that grows, [v] at or before
    its end. *)
Definition left_in rs (a b u : Z) : Prop := a <= u \/ exists r, r ∈ rs /\ touches a b r /\ r.1 <= u.
Definition right_in rs (a b v : Z) : Prop := v <= b \/ exists r, r ∈ rs /\ touches a b r /\ v <= r.2.

Lemma grown_weaken rn rs1 a1 b1 rs a b s' :
  grown rn rs1 a1 b1 s' -> left_in rs1 a1 b1 a -> right_in rs1 a1 b1 b ->
  (forall r, r ∈ rs -> touches a b r -> left_in rs1 a1 b1 r.1 /\ right_in rs1 a1 b1 r.2) ->
  (forall r, r ∈ rs1 -> r ∈ rs \/ touches a1 b1 r) ->
  (forall z, cov rs1 z \/ a1 <= z < b1 <-> cov rs z \/ a <= z < b) ->
  grown rn rs a b s'.
Proof.
  intros [(fs & A & x & y & C & Hs & Hfs & Hok & Hsub & Hx & Hy & Ht & Hc & Hn)] Hl Hr Hin Hback Hcov.
  assert (HL : forall u, left_in rs1 a1 b1 u -> x <= u).
  { intros u [?|(r & Hr' & Htr & ?)]; [lia|]. destruct (Ht r Hr' Htr). lia. }
  assert (HR : forall v, right_in rs1 a1 b1 v -> v <= y).
  { intros v [?|(r & Hr' & Htr & ?)]; [lia|]. destruct (Ht r Hr' Htr). lia. }
  split. exists fs, A, x, y, C. split_and!; try done.
  - intros r Hrr. destruct (Hback r (Hsub r Hrr)) as [?|Htr]; [done|].
    destruct (Ht r (Hsub r Hrr) Htr) as [H1 H2].
    apply blocks_ok_mid in Hok as (HA & HC & _ & HAx & HCy & _).
    apply elem_of_app in Hrr as [Hrr|Hrr].
    + specialize (HAx r Hrr). pose proof (blocks_ok_elem _ _ HA Hrr). lia.
    + specialize (HCy r Hrr). pose proof (blocks_ok_elem _ _ HC Hrr). lia.
  - by apply HL.
  - by apply HR.
  - intros r Hrr Htr. destruct (Hin r Hrr Htr). split; [by apply HL|by apply HR].
  - intros z. by rewrite Hc.
Qed.

(** ** Inserting between two groups of blocks *)

Section endfast.
Implicit Types (fs L R : list (positive * block)).

Lemma elem_snd fs r : r ∈ fs.*2 <-> exists l, (l, r) ∈ fs.
Proof.
  rewrite list_elem_of_fmap. split.
  - intros ([l r'] & -> & Hin). by exists l.
  - intros (l & Hin). by exists (l, r).
Qed.

Lemma elem_snd_2 fs l r : (l, r) ∈ fs -> r ∈ fs.*2.
Proof. intros Hin. apply elem_snd. by exists l. Qed.

(** The blocks on the left end with one that touches [a], or with none. *)
Lemma split_left L a :
  blocks_ok L.*2 -> (forall r, r ∈ L.*2 -> r.2 <= a) ->
  exists L0 P, L = L0 ++ lnb a P /\ (forall r, r ∈ L0.*2 -> r.2 < lend a P) /\
    (P <> None <-> exists l x, last L = Some (l, (x, a))).
Proof.
  intros Hok Hle. destruct L as [|[l [x e]] L _] using rev_ind.
  { exists [], None. split_and!; [done| |split; [done|naive_solver]].
    intros r Hr. by apply not_elem_of_nil in Hr. }
  rewrite fmap_app in Hok, Hle. cbn [fmap list_fmap snd] in Hok, Hle.
  apply blocks_ok_mid in Hok as (_ & _ & Hxe & HL & _).
  destruct (decide (e = a)) as [->|Hne].
  - exists L, (Some (l, x)). split_and!; [done|done|]. split; [|done].
    intros _. exists l, x. by rewrite last_snoc.
  - exists (L ++ [(l, (x, e))]), None. split; [by rewrite app_nil_r|]. split.
    + intros r Hr. rewrite fmap_app in Hr. cbn [lend].
      specialize (Hle (x, e) ltac:(apply elem_of_app; right; left)). cbn [snd] in Hle.
      apply elem_of_app in Hr as [Hr| ->%list_elem_of_singleton].
      * specialize (HL r Hr). lia.
      * cbn [snd]. lia.
    + split; [done|]. intros (l' & x' & Hl). rewrite last_snoc in Hl. congruence.
Qed.

Lemma split_right R b :
  blocks_ok R.*2 -> (forall r, r ∈ R.*2 -> b <= r.1) ->
  exists R0 Q, R = rnb b Q ++ R0 /\ (forall r, r ∈ R0.*2 -> rend b Q < r.1) /\
    (Q <> None <-> exists l y, head R = Some (l, (b, y))).
Proof.
  intros Hok Hle. destruct R as [|[l [e y]] R].
  { exists [], None. split_and!; [done| |split; [done|naive_solver]].
    intros r Hr. by apply not_elem_of_nil in Hr. }
  cbn [fmap list_fmap snd] in Hok, Hle. apply blocks_ok_cons in Hok as (Hey & _ & HR).
  destruct (decide (e = b)) as [->|Hne].
  - exists R, (Some (l, y)). split_and!; [done|done|]. split; [|done]. intros _. by exists l, y.
  - exists ((l, (e, y)) :: R), None. split; [done|]. split.
    + intros r Hr. cbn [rend]. specialize (Hle (e, y) ltac:(left)). cbn [fst] in Hle.
      apply elem_of_cons in Hr as [->|Hr]; [cbn [fst snd]; lia|].
      specialize (HR r Hr). unfold gap in HR. cbn [fst snd] in *. lia.
    + split; [done|]. intros (l' & y' & Hl). cbn in Hl. congruence.
Qed.

Lemma lend_le a P : (forall l x, P = Some (l, x) -> x < a) -> lend a P <= a.
Proof. destruct P as [[l x]|]; cbn; [|lia]. intros H. specialize (H l x eq_refl). lia. Qed.

Lemma endfast_grown s L R a b (needmerge : bool) t rf c :
  shape s (L ++ R) -> blocks_ok (L ++ R).*2 -> a < b ->
  (forall r, r ∈ L.*2 -> r.2 <= a) -> (forall r, r ∈ R.*2 -> b <= r.1) ->
  (needmerge = true <->
     (exists l x, last L = Some (l, (x, a))) \/ (exists l y, head R = Some (l, (b, y)))) ->
  exists flags s', endfast (last L.*1) (head R.*1) needmerge a b t rf c s = Ok (flags, s') /\
    grown (rcv_nxt_ s) (L ++ R).*2 a b s'.
Proof.
  intros Hs Hok Hab HL HR Hnm.
  pose proof Hok as Hok'. rewrite fmap_app in Hok'. apply blocks_ok_app in Hok' as (HokL & HokR & HLR).
  destruct (split_left L a HokL HL) as (L0 & P & -> & HL0 & HP).
  destruct (split_right R b HokR HR) as (R0 & Q & -> & HR0 & HQ).
  rewrite <- HP, <- HQ in Hnm. clear HP HQ.
  assert (HxL : lend a P <= a /\ (forall l x, P = Some (l, x) -> x < a)).
  { assert (forall l x, P = Some (l, x) -> x < a).
    { intros l x ->. apply (blocks_ok_elem _ (x, a) HokL). rewrite fmap_app. apply elem_of_app. right. left. }
    split; [by apply lend_le|done]. }
  assert (HyR : b <= rend b Q /\ (forall l y, Q = Some (l, y) -> b < y)).
  { assert (Hq : forall l y, Q = Some (l, y) -> b < y).
    { intros l y ->. apply (blocks_ok_elem _ (b, y) HokR). left. }
    split; [|done]. destruct Q as [[l y]|]; cbn [rend]; [|lia]. specialize (Hq l y eq_refl). lia. }
  destruct HxL as [Hx Hx']. destruct HyR as [Hy Hy'].
  rewrite <- (assoc_L (++)) in Hs.
  destruct (endfast_spec s L0 P Q R0 a b needmerge t rf c Hs Hab) as (fl & s' & m & He & Hs' & Hn).
  { intros -> l x Hl. apply last_Some_elem_of in Hl.
    assert (Hr : (x, a) ∈ L0.*2) by (apply elem_snd; by exists l). specialize (HL0 _ Hr). cbn in HL0. lia. }
  { intros -> l y Hl. apply head_Some_elem_of in Hl.
    assert (Hr : (b, y) ∈ R0.*2) by (apply elem_snd; by exists l). specialize (HR0 _ Hr). cbn in HR0. lia. }
  { exact Hnm. }
  exists fl, s'. split; [exact He|]. split.
  exists (L0 ++ (m, (lend a P, rend b Q)) :: R0), L0.*2, (lend a P), (rend b Q), R0.*2.
  assert (Hsub : forall r, r ∈ L0.*2 ++ R0.*2 -> r ∈ ((L0 ++ lnb a P) ++ rnb b Q ++ R0).*2).
  { intros r Hr. rewrite !fmap_app. clear - Hr. set_solver. }
  assert (Hcase : forall r, r ∈ ((L0 ++ lnb a P) ++ rnb b Q ++ R0).*2 ->
    r ∈ L0.*2 \/ r ∈ R0.*2 \/ r ∈ (lnb a P).*2 \/ r ∈ (rnb b Q).*2).
  { intros r Hr. rewrite !fmap_app in Hr. clear - Hr. set_solver. }
  assert (Hlnb : forall r, r ∈ (lnb a P).*2 <-> P <> None /\ r = (lend a P, a)).
  { intros r. destruct P as [[l x]|]; cbn; [rewrite list_elem_of_singleton; naive_solver|].
    split; [by intros ?%not_elem_of_nil|by intros []]. }
  assert (Hrnb : forall r, r ∈ (rnb b Q).*2 <-> Q <> None /\ r = (b, rend b Q)).
  { intros r. destruct Q as [[l y]|]; cbn; [rewrite list_elem_of_singleton; naive_solver|].
    split; [by intros ?%not_elem_of_nil|by intros []]. }
  rewrite fmap_app in HokL, HokR. apply blocks_ok_app in HokL as (HokL & _ & _).
  apply blocks_ok_app in HokR as (_ & HokR & _).
  split; [exact Hs'|]. split; [by rewrite fmap_app|]. split; [|split; [exact Hsub|split; [exact Hx|
    split; [exact Hy|split; [|split; [|exact Hn]]]]]].
  - apply blocks_ok_mid. split; [done|]. split; [done|]. split; [lia|]. split; [exact HL0|].
    split; [exact HR0|]. intros r r' Hr Hr'. unfold gap. specialize (HL0 r Hr). specialize (HR0 r' Hr'). lia.
  - intros r [Hr|[Hr|[[_ ->]%Hlnb|[_ ->]%Hrnb]]]%Hcase [T1 T2]; cbn [fst snd] in *.
    + specialize (HL0 r Hr). destruct P as [[l x]|]; cbn [lend] in *; [specialize (Hx' l x eq_refl)|]; lia.
    + specialize (HR0 r Hr). destruct Q as [[l y]|]; cbn [rend] in *; [specialize (Hy' l y eq_refl)|]; lia.
    + lia.
    + lia.
  - intros z. rewrite !fmap_app, !cov_app, cov_cons. cbn [fst snd].
    generalize (cov L0.*2 z) (cov R0.*2 z). intros U V.
    assert (Hl : cov (lnb a P).*2 z <-> lend a P <= z < a).
    { clear. destruct P as [[l x]|]; cbn; rewrite ?cov_cons, cov_nil; cbn [fst snd]; [tauto|lia]. }
    assert (Hr : cov (rnb b Q).*2 z <-> b <= z < rend b Q).
    { clear. destruct Q as [[l y]|]; cbn; rewrite ?cov_cons, cov_nil; cbn [fst snd]; [tauto|lia]. }
    rewrite Hl, Hr.
    assert (Hz : lend a P <= z < rend b Q <-> lend a P <= z < a \/ a <= z < b \/ b <= z < rend b Q) by lia.
    rewrite Hz. clear. tauto.
Qed.
End endfast.

(** ** The searches of [add] *)

Section search.
Implicit Types (fs L R M : list (positive * block)).

(** A walk stops at the first of [ys] when no object of [xs] passes the test
    and the first of [ys] does. *)
Lemma walk_stops {T} (nxt : T -> option positive) fuel (h : gmap positive T) test p xs ys :
  seg nxt h p (xs ++ ys) None -> (length (xs ++ ys) < fuel)%nat ->
  (forall l v, l ∈ xs -> h !! l = Some v -> test l v = false) ->
  (forall l v, head ys = Some l -> h !! l = Some v -> test l v = true) ->
  walk nxt fuel h test p = Ok (head ys).
Proof.
  intros Hs Hf Hx Hy. rewrite (walk_spec nxt fuel h test p _ Hs Hf). f_equal.
  clear Hf. revert p Hs. induction xs as [|x xs IH]; intros p Hs; cbn [app first_match].
  - destruct ys as [|y ys]; [done|]. destruct Hs as [_ (v & Hv & _)]. cbn [first_match].
    rewrite Hv, (Hy y v eq_refl Hv). done.
  - destruct Hs as [_ (v & Hv & Hs)]. rewrite Hv, (Hx x v ltac:(left) Hv).
    eapply IH; [|exact Hs]. intros l w Hl. apply Hx. by right.
Qed.

Lemma shape_range s fs l v :
  shape s fs -> l ∈ fs.*1 -> segs s !! l = Some v -> (l, (startseq_ v, endseq_ v)) ∈ fs.
Proof.
  intros (ls & F & Hr & _) Hl Hv. apply list_elem_of_fmap in Hl as ([k r] & -> & Hin). cbn [fst] in *.
  destruct (rp_range _ _ _ _ Hr k r Hin) as (w & Hw & <-).
  assert (w = v) as -> by congruence. done.
Qed.

(** A segment of one half of the FIFO has its block there. *)
Lemma shape_side s L R l v :
  shape s (L ++ R) -> segs s !! l = Some v ->
  (l ∈ L.*1 -> (startseq_ v, endseq_ v) ∈ L.*2) /\ (l ∈ R.*1 -> (startseq_ v, endseq_ v) ∈ R.*2).
Proof.
  intros Hs Hv. pose proof (shape_NoDup _ _ Hs) as Hnd. rewrite fmap_app in Hnd.
  apply NoDup_app in Hnd as (_ & Hd & _).
  split; intros Hl; (assert (Hin : (l, (startseq_ v, endseq_ v)) ∈ L ++ R);
    [apply (shape_range s); [done|rewrite fmap_app; apply elem_of_app; auto|done]|]);
    apply elem_of_app in Hin as [Hin|Hin].
  - by apply (elem_snd_2 _ l).
  - exfalso. apply (Hd l Hl). apply list_elem_of_fmap. by exists (l, (startseq_ v, endseq_ v)).
  - exfalso. refine (Hd l _ Hl). apply list_elem_of_fmap. by exists (l, (startseq_ v, endseq_ v)).
  - by apply (elem_snd_2 _ l).
Qed.

Lemma scan_after_spec fuel b s L R :
  shape s (L ++ R) -> (length (L ++ R) < fuel)%nat ->
  (forall r, r ∈ L.*2 -> r.1 < b) -> (forall r, r ∈ R.*2 -> b <= r.1) ->
  scan_after fuel b s = Ok (head R.*1).
Proof.
  intros Hs Hf HL HR. pose proof Hs as (ls & F & Hr & _).
  assert (Hseg : seg next_ (segs s) (head_ s) (L.*1 ++ R.*1) None).
  { rewrite <- fmap_app. eapply dseg_seg. apply (rp_fifo _ _ _ _ Hr). }
  unfold scan_after. apply (walk_stops _ _ _ _ _ _ _ Hseg).
  - by rewrite <- fmap_app, length_fmap.
  - intros l v Hl Hv. apply Z.leb_gt. exact (HL _ (proj1 (shape_side _ _ _ _ _ Hs Hv) Hl)).
  - intros l v Hl%head_Some_elem_of Hv. apply Z.leb_le.
    exact (HR _ (proj2 (shape_side _ _ _ _ _ Hs Hv) Hl)).
Qed.

Lemma scan_before_spec fuel a s L R :
  shape s (L ++ R) -> (length (L ++ R) < fuel)%nat ->
  (forall r, r ∈ L.*2 -> r.2 <= a) -> (forall r, r ∈ R.*2 -> a < r.2) ->
  scan_before fuel a s = Ok (last L.*1).
Proof.
  intros Hs Hf HL HR. pose proof Hs as (ls & F & Hr & _).
  assert (Hseg : seg prev_ (segs s) (tail_ s) (reverse R.*1 ++ reverse L.*1) None).
  { rewrite <- reverse_app, <- fmap_app.
    apply (@deque_seg_rev _ _ fifo) with (head_ s). apply (rp_fifo _ _ _ _ Hr). }
  unfold scan_before. rewrite <- head_reverse. apply (walk_stops _ _ _ _ _ _ _ Hseg).
  - by rewrite <- reverse_app, length_reverse, <- fmap_app, length_fmap.
  - intros l v Hl Hv. rewrite ?reverse_involutive, ?elem_of_reverse in Hl. apply Z.leb_gt.
    exact (HR _ (proj2 (shape_side _ _ _ _ _ Hs Hv) Hl)).
  - intros l v Hl Hv. apply Z.leb_le. rewrite head_reverse in Hl. apply last_Some_elem_of in Hl.
    exact (HL _ (proj1 (shape_side _ _ _ _ _ Hs Hv) Hl)).
Qed.

(** ** Killing what the new segment contains *)

Definition inside (a b : Z) (x : positive * block) : bool := (a <=? x.2.1) && (x.2.2 <=? b).

Definition survivors (a b : Z) fs : list (positive * block) := List.filter (fun x => negb (inside a b x)) fs.

Lemma head_fst_ne R (C : list (positive * block)) l r :
  NoDup ((l, r) :: R ++ C).*1 -> head C.*1 <> Some l.
Proof.
  rewrite fmap_cons, fmap_app. cbn [fst]. intros [Hl _]%NoDup_cons Hh. apply Hl, elem_of_app. right.
  by apply head_Some_elem_of.
Qed.

Lemma kill_loop_spec fuel a b t c alt s (P R C : list (positive * block)) :
  shape s (P ++ R ++ C) -> (length R < fuel)%nat -> (forall x, x ∈ R -> x.2 <> (a, b)) ->
  exists t' c' s', kill_loop fuel (head (R ++ C).*1) (head C.*1) a b t c alt s =
      Ok (Killed t' c' (alt || existsb (inside a b) R) s') /\
    shape s' (P ++ survivors a b R ++ C) /\ rcv_nxt_ s' = rcv_nxt_ s.
Proof.
  revert fuel t c alt s P. induction R as [|[l [u v]] R IH]; intros fuel t c alt s P Hs Hf Hex;
    (destruct fuel as [|fuel]; [cbn in Hf; lia|]); cbn [kill_loop].
  - exists t, c, s. cbn [app existsb]. rewrite orb_false_r. split; [|done].
    destruct (head C.*1); [by rewrite bool_decide_eq_true_2|done].
  - cbn [app fmap list_fmap fst head].
    pose proof (shape_NoDup _ _ Hs) as Hnd. rewrite fmap_app in Hnd.
    apply NoDup_app in Hnd as (_ & _ & Hnd). cbn [app] in Hnd.
    rewrite bool_decide_eq_false_2 by (intros E; by apply (head_fst_ne _ _ _ _ Hnd)).
    destruct (shape_links s P l u v (R ++ C) Hs) as (w & -> & Hu & Hv & _ & Hn). cbn [rbind].
    assert (Hne : (a =? startseq_ w) && (b =? endseq_ w) = false).
    { apply andb_false_iff. specialize (Hex (l, (u, v)) ltac:(left)). cbn [snd] in Hex. rewrite Hu, Hv.
      destruct (Z.eqb_spec a u), (Z.eqb_spec b v); auto. subst. done. }
    rewrite Hne. unfold survivors. cbn [List.filter existsb]. rewrite Hu, Hv. cbn [length] in Hf.
    change ((a <=? u) && (v <=? b)) with (inside a b (l, (u, v))).
    destruct (inside a b (l, (u, v))) eqn:Ein; cbn [negb].
    + destruct (shape_kill s P l u v (R ++ C) Hs) as [(s1 & E1 & Hs1 & Hn1) _].
      apply rbind_Ok_inv in E1 as (s2 & -> & E1). cbn [rbind].
      apply rbind_Ok_inv in E1 as (s3 & -> & E1). cbn [rbind]. rewrite E1. cbn [rbind]. rewrite Hn.
      destruct (IH fuel (Z.lor t (pflags_ w)) (wrap_i32 (c + cnt_ w)) true s1 P Hs1 ltac:(lia))
        as (t' & c' & s' & -> & Hs' & Hn'); [intros x Hx; apply Hex; by right|].
      exists t', c', s'. rewrite orb_true_r. split; [done|]. split; [done|]. congruence.
    + rewrite Hn.
      destruct (IH fuel t c alt s (P ++ [(l, (u, v))])) as (t' & c' & s' & -> & Hs' & Hn').
      { by rewrite <- (assoc_L (++)). }
      { lia. }
      { intros x Hx; apply Hex; by right. }
      rewrite <- (assoc_L (++)) in Hs'. by exists t', c', s'.
Qed.

(** An exact duplicate is found, and only its flags change. *)
Lemma kill_loop_dup fuel a b t c s (P R : list (positive * block)) l (C : list (positive * block)) :
  shape s (P ++ R ++ (l, (a, b)) :: C) -> (length R < fuel)%nat ->
  (forall x, x ∈ R -> inside a b x = false) ->
  exists flags s', kill_loop fuel (head (R ++ (l, (a, b)) :: C).*1) (head C.*1) a b t c false s =
      Ok (Duplicate flags s') /\
    shape s' (P ++ R ++ (l, (a, b)) :: C) /\ rcv_nxt_ s' = rcv_nxt_ s.
Proof.
  intros Hs Hf Hin. revert fuel s P Hs Hf. induction R as [|[k [u v]] R IH]; intros fuel s P Hs Hf;
    (destruct fuel as [|fuel]; [cbn in Hf; lia|]); cbn [kill_loop].
  - cbn [app fmap list_fmap fst head].
    pose proof (shape_NoDup _ _ Hs) as Hnd. rewrite fmap_app in Hnd.
    apply NoDup_app in Hnd as (_ & _ & Hnd). cbn [app] in Hnd.
    rewrite bool_decide_eq_false_2 by (intros E; by apply (head_fst_ne [] _ _ _ Hnd)).
    destruct (shape_links s P l a b C Hs) as (w & -> & Hu & Hv & _ & Hn). cbn [rbind].
    rewrite Hu, Hv, !Z.eqb_refl. cbn [andb].
    destruct (shape_touch s P l a b C (or_flags t) Hs) as (s1 & -> & Hs1 & Hn1); [done|]. cbn [rbind].
    destruct (shape_links s1 P l a b C Hs1) as (w1 & -> & _). cbn [rbind]. by eexists _, s1.
  - cbn [app fmap list_fmap fst head].
    pose proof (shape_NoDup _ _ Hs) as Hnd. rewrite fmap_app in Hnd.
    apply NoDup_app in Hnd as (_ & _ & Hnd). cbn [app] in Hnd.
    rewrite bool_decide_eq_false_2.
    2: { intros E. apply (head_fst_ne (R ++ [(l, (a, b))]) C k (u, v)); [|done].
         by rewrite <- (assoc_L (++)). }
    destruct (shape_links s P k u v (R ++ (l, (a, b)) :: C) Hs) as (w & -> & Hu & Hv & _ & Hn). cbn [rbind].
    specialize (Hin (k, (u, v)) ltac:(left)) as Hk. unfold inside in Hk. cbn [fst snd] in Hk.
    rewrite Hu, Hv, Hk.
    assert (Hne : (a =? u) && (b =? v) = false).
    { destruct (Z.eqb_spec a u), (Z.eqb_spec b v); subst; try done.
      rewrite !(proj2 (Z.leb_le _ _)) in Hk by lia. done. }
    rewrite Hne, Hn. cbn [length] in Hf.
    destruct (IH ltac:(intros x Hx; apply Hin; by right) fuel s (P ++ [(k, (u, v))]))
      as (fl & s' & -> & Hs' & Hn').
    { by rewrite <- (assoc_L (++)). }
    { lia. }
    rewrite <- (assoc_L (++)) in Hs'. by exists fl, s'.
Qed.
End search.

(** ** Growing in place *)

(** [rcv_nxt_] is the end of every block that starts at or below it. *)
Definition settled (rn : Z) rs : Prop := forall r, r ∈ rs -> r.1 <= rn -> r.2 = rn.

Lemma blocks_ok_order rs r r' : blocks_ok rs -> r ∈ rs -> r' ∈ rs -> r = r' \/ gap r r' \/ gap r' r.
Proof.
  intros Hok Hr. apply list_elem_of_split in Hr as (A & C & ->). destruct r as [x y].
  apply blocks_ok_mid in Hok as (_ & _ & _ & HA & HC & _).
  intros [Hr|[->|Hr]%elem_of_cons]%elem_of_app; [|by left|]; right; unfold gap; cbn [fst snd].
  - right. by apply HA.
  - left. by apply HC.
Qed.

(** It is enough to add the part of [[a, b)] between two blocks that hold the
    rest. *)
Lemma grown_narrow rn rs a b a1 b1 s' :
  blocks_ok rs -> a <= a1 < b1 -> b1 <= b ->
  a1 = a \/ (exists u, (u, a1) ∈ rs /\ u <= a) -> b1 = b \/ (exists v, (b1, v) ∈ rs /\ b <= v) ->
  grown rn rs a1 b1 s' -> grown rn rs a b s'.
Proof.
  intros Hok Ha Hb HL HR Hg. apply (grown_weaken _ _ _ _ _ _ _ _ Hg).
  - destruct HL as [->|(u & Hu & ?)]; [left; lia|]. right. exists (u, a1). unfold touches. cbn [fst snd].
    split; [done|]. lia.
  - destruct HR as [->|(v & Hv & ?)]; [left; lia|]. right. exists (b1, v). unfold touches. cbn [fst snd].
    split; [done|]. lia.
  - intros r Hr [T1 T2]. split.
    + destruct (Z.le_gt_cases a1 r.1); [by left|]. right. exists r. split; [done|].
      split; [|lia]. split; [lia|]. destruct (Z.le_gt_cases a1 r.2); [done|].
      destruct HL as [->|(u & Hu & ?)]; [lia|].
      destruct (blocks_ok_order _ _ _ Hok Hr Hu) as [->|[G|G]]; unfold gap in *; cbn [fst snd] in *; lia.
    + destruct (Z.le_gt_cases r.2 b1); [by left|]. right. exists r. split; [done|].
      split; [|lia]. split; [|lia]. destruct (Z.le_gt_cases r.1 b1); [done|].
      destruct HR as [->|(v & Hv & ?)]; [lia|].
      destruct (blocks_ok_order _ _ _ Hok Hr Hv) as [->|[G|G]]; unfold gap in *; cbn [fst snd] in *; lia.
  - auto.
  - intros z. split; [intros [?|?]; [by left|right; lia]|]. intros [?|?]; [by left|].
    destruct (Z.le_gt_cases a1 z), (Z.le_gt_cases b1 z); [|right; lia| |]; left.
    + destruct HR as [->|(v & Hv & ?)]; [lia|]. exists (b1, v). split; [done|]. cbn [fst snd]. lia.
    + lia.
    + destruct HL as [->|(u & Hu & ?)]; [lia|]. exists (u, a1). split; [done|]. cbn [fst snd]. lia.
Qed.

(** Blocks inside the new segment may be dropped first. *)
Lemma grown_kill rn rs1 rs a b s' :
  grown rn rs1 a b s' -> (forall r, r ∈ rs1 -> r ∈ rs) ->
  (forall r, r ∈ rs -> r ∈ rs1 \/ (a <= r.1 /\ r.2 <= b)) -> grown rn rs a b s'.
Proof.
  intros Hg Hsub Hin. apply (grown_weaken _ _ _ _ _ _ _ _ Hg).
  - left. lia.
  - left. lia.
  - intros r Hr Ht. destruct (Hin r Hr) as [Hr1|[H1 H2]]; [|split; by left].
    split; right; exists r; split; [done|split; [done|lia]|done|split; [done|lia]].
  - intros r Hr. left. by apply Hsub.
  - intros z. split; (intros [(r & Hr & Hz)|?]; [|by right]).
    + left. exists r. split; [by apply Hsub|done].
    + destruct (Hin r Hr) as [Hr1|[H1 H2]]; [left; by exists r|right; lia].
Qed.

Section sides.
Implicit Types (fs L R M : list (positive * block)).

(** The early return of [merge_sides]: the segment is in one block. *)
Lemma advance_grown s L l u v x y R a b :
  shape s (L ++ (l, (x, y)) :: R) -> blocks_ok (L ++ (l, (u, v)) :: R).*2 -> a < b ->
  x = Z.min a u -> y = Z.max b v -> u <= b -> a <= v ->
  (forall r, r ∈ L.*2 -> r.2 < x) -> (forall r, r ∈ R.*2 -> y < r.1) ->
  settled (rcv_nxt_ s) (L ++ (l, (u, v)) :: R).*2 ->
  exists s', advance (head_ s) s = Ok s' /\ grown (rcv_nxt_ s) (L ++ (l, (u, v)) :: R).*2 a b s'.
Proof.
  intros Hs Hok Hab Hx Hy Hub Hav HL HR Hset. rewrite fmap_app, fmap_cons in Hok, Hset |- *.
  cbn [snd] in *. pose proof Hs as (ls & F & Hr & Hp & Ht).
  assert (Hadv : exists s', advance (head_ s) s = Ok s' /\ shape s' (L ++ (l, (x, y)) :: R) /\
    rcv_nxt_ s' = if x <=? rcv_nxt_ s then y else rcv_nxt_ s).
  { rewrite (shape_head _ _ Hs). destruct L as [|[l0 [h e]] L].
    - cbn [app fmap list_fmap fst head] in *. rewrite (advance_spec _ _ _ _ l x y Hr) by left.
      eexists. split; [done|]. destruct (x <=? rcv_nxt_ s); [|done].
      split; [|done]. exists ls, F. by split; [apply set_rcv_rep|].
    - cbn [app fmap list_fmap fst snd head] in *. rewrite (advance_spec _ _ _ _ l0 h e Hr) by left.
      pose proof (HL (h, e) ltac:(left)) as He. cbn [snd] in He.
      pose proof (blocks_ok_elem _ (h, e) Hok ltac:(left)) as Hhe. cbn [fst snd] in Hhe.
      pose proof (Hset (h, e) ltac:(left)) as Hh. cbn [fst snd] in Hh.
      eexists. split; [done|]. destruct (Z.leb_spec h (rcv_nxt_ s)) as [Hle|Hgt].
      + rewrite (proj2 (Z.leb_gt x _)) by (specialize (Hh Hle); lia).
        split; [|exact (Hh Hle)]. exists ls, F. by split; [apply set_rcv_rep|].
      + by rewrite (proj2 (Z.leb_gt _ _)) by lia. }
  destruct Hadv as (s' & Ha & Hs' & Hn). exists s'. split; [done|]. split.
  exists (L ++ (l, (x, y)) :: R), L.*2, x, y, R.*2. rewrite fmap_app, fmap_cons. cbn [snd].
  split; [done|]. split; [done|].
  apply blocks_ok_mid in Hok as (H1 & H2 & H3 & H4 & H5 & H6).
  split; [apply blocks_ok_mid; split; [done|]; split; [done|]; split; [lia|done]|].
  split; [intros r Hr'; rewrite elem_of_app in Hr'; rewrite elem_of_app, elem_of_cons; tauto|].
  split; [lia|]. split; [lia|]. split; [|split; [|done]].
  - intros r [Hr'|[->|Hr']%elem_of_cons]%elem_of_app [T1 T2]; cbn [fst snd] in *; [|lia|].
    + specialize (HL r Hr'). specialize (H4 r Hr'). lia.
    + specialize (HR r Hr'). specialize (H5 r Hr'). lia.
  - intros z. rewrite !cov_app, !cov_cons. cbn [fst snd].
    assert (Hz : x <= z < y <-> u <= z < v \/ a <= z < b) by lia. rewrite Hz. clear. tauto.
Qed.

(** ** The merges on the two sides *)

Lemma shape_elem s L l u v R : shape s (L ++ (l, (u, v)) :: R) -> (l, (u, v)) ∈ L ++ (l, (u, v)) :: R.
Proof. intros _. apply elem_of_app. right. left. Qed.

Lemma left_merge_take s L l u v R a t :
  shape s (L ++ (l, (u, v)) :: R) -> L = [] \/ u < a ->
  exists s', left_merge (last L.*1) a t s = Ok (Some (Some l, v), s') /\
    shape s' (L ++ (l, (Z.min a u, v)) :: R) /\ rcv_nxt_ s' = rcv_nxt_ s.
Proof.
  intros Hs Hor. unfold left_merge.
  assert (Hc : match last L.*1 with
    | None => Ok (Some (head_ s))
    | Some _ =>
        let! pv := load (segs s) (last L.*1) in
        let! nv := load (segs s) (next_ pv) in
        Ok (if startseq_ nv <? a then Some (next_ pv) else None)
    end = Ok (Some (Some l))).
  { destruct L as [|[k [x y]] L _] using rev_ind.
    - cbn [fmap list_fmap last]. by rewrite (shape_head _ _ Hs).
    - rewrite last_fst. destruct Hor as [?%app_nil|Hu]; [naive_solver|].
      destruct (shape_load _ _ l u v Hs) as (w & Hw & Hwu & _); [eapply shape_elem, Hs|].
      rewrite <- (assoc_L (++)) in Hs. cbn [app] in Hs.
      destruct (shape_links _ _ k x y _ Hs) as (kv & -> & _ & _ & _ & Hn). cbn [rbind].
      rewrite Hn. cbn [fmap list_fmap fst head]. rewrite Hw. cbn [rbind].
      by rewrite (proj2 (Z.ltb_lt _ _)) by lia. }
  rewrite Hc. cbn [rbind]. clear Hc.
  destruct (shape_load _ _ l u v Hs) as (w & -> & Hwu & Hwv); [eapply shape_elem, Hs|]. cbn [rbind].
  assert (Hext : exists s1, (if a <? startseq_ w
      then upd (Some l) (set_start a) (add_total (startseq_ w - a) s) else Ok s) = Ok s1 /\
      shape s1 (L ++ (l, (Z.min a u, v)) :: R) /\ rcv_nxt_ s1 = rcv_nxt_ s).
  { rewrite Hwu. destruct (Z.ltb_spec a u).
    - rewrite Z.min_l by lia. eapply shape_upd; [exact Hs| |lia].
      intros x <- <-. by split_and!.
    - rewrite Z.min_r by lia. by exists s. }
  destruct Hext as (s1 & -> & Hs1 & Hn1). cbn [rbind].
  destruct (shape_load _ _ l (Z.min a u) v Hs1) as (w1 & -> & _ & Hv1); [eapply shape_elem, Hs1|].
  cbn [rbind].
  destruct (shape_touch _ _ _ _ _ _ (or_flags t) Hs1) as (s2 & -> & Hs2 & Hn2); [done|]. cbn [rbind].
  destruct (shape_touch _ _ _ _ _ _ (add_cnt 1) Hs2) as (s3 & -> & Hs3 & Hn3); [done|]. cbn [rbind].
  exists s3. rewrite Hv1. split; [done|]. split; [done|]. congruence.
Qed.

Lemma left_merge_none s L l u v R a t :
  shape s (L ++ (l, (u, v)) :: R) -> L <> [] -> a <= u -> left_merge (last L.*1) a t s = Ok (None, s).
Proof.
  intros Hs HL Ha. unfold left_merge. destruct L as [|[k [x y]] L _] using rev_ind; [done|].
  rewrite last_fst.
  destruct (shape_load _ _ l u v Hs) as (w & Hw & Hwu & _); [eapply shape_elem, Hs|].
  rewrite <- (assoc_L (++)) in Hs. cbn [app] in Hs.
  destruct (shape_links _ _ k x y _ Hs) as (kv & -> & _ & _ & _ & Hn). cbn [rbind].
  rewrite Hn. cbn [fmap list_fmap fst head]. rewrite Hw. cbn [rbind].
  by rewrite (proj2 (Z.ltb_ge _ _)) by lia.
Qed.

Lemma right_merge_take s L l u v R b t :
  shape s (L ++ (l, (u, v)) :: R) -> R = [] \/ b < v ->
  exists s', right_merge (head R.*1) b t s = Ok (Some (Some l, u), s') /\
    shape s' (L ++ (l, (u, Z.max b v)) :: R) /\ rcv_nxt_ s' = rcv_nxt_ s.
Proof.
  intros Hs Hor. unfold right_merge.
  assert (Hc : match head R.*1 with
    | None => Ok (Some (tail_ s))
    | Some _ =>
        let! qv := load (segs s) (head R.*1) in
        let! nv := load (segs s) (prev_ qv) in
        Ok (if b <? endseq_ nv then Some (prev_ qv) else None)
    end = Ok (Some (Some l))).
  { destruct R as [|[k [x y]] R].
    - cbn [fmap list_fmap head]. by rewrite (shape_tail _ _ Hs), last_fst.
    - cbn [fmap list_fmap fst head]. destruct Hor as [?|Hu]; [done|].
      destruct (shape_load _ _ l u v Hs) as (w & Hw & _ & Hwv); [eapply shape_elem, Hs|].
      rewrite cons_middle, (assoc_L (++)) in Hs.
      destruct (shape_links _ _ k x y _ Hs) as (kv & -> & _ & _ & Hp & _). cbn [rbind].
      rewrite Hp, last_fst, Hw. cbn [rbind]. by rewrite (proj2 (Z.ltb_lt _ _)) by lia. }
  rewrite Hc. cbn [rbind]. clear Hc.
  destruct (shape_load _ _ l u v Hs) as (w & -> & Hwu & Hwv); [eapply shape_elem, Hs|]. cbn [rbind].
  assert (Hext : exists s1, (if endseq_ w <? b
      then upd (Some l) (set_end b) (add_total (b - endseq_ w) s) else Ok s) = Ok s1 /\
      shape s1 (L ++ (l, (u, Z.max b v)) :: R) /\ rcv_nxt_ s1 = rcv_nxt_ s).
  { rewrite Hwv. destruct (Z.ltb_spec v b).
    - rewrite Z.max_l by lia. eapply shape_upd; [exact Hs| |lia].
      intros x <- <-. by split_and!.
    - rewrite Z.max_r by lia. by exists s. }
  destruct Hext as (s1 & -> & Hs1 & Hn1). cbn [rbind].
  destruct (shape_load _ _ l u (Z.max b v) Hs1) as (w1 & -> & Hu1 & _); [eapply shape_elem, Hs1|].
  cbn [rbind].
  destruct (shape_touch _ _ _ _ _ _ (or_flags t) Hs1) as (s2 & -> & Hs2 & Hn2); [done|]. cbn [rbind].
  exists s2. rewrite Hu1. split; [done|]. split; [done|]. congruence.
Qed.

Lemma right_merge_none s L l u v R b t :
  shape s (L ++ (l, (u, v)) :: R) -> R <> [] -> v <= b -> right_merge (head R.*1) b t s = Ok (None, s).
Proof.
  intros Hs HR Hb. unfold right_merge. destruct R as [|[k [x y]] R]; [done|].
  cbn [fmap list_fmap fst head].
  destruct (shape_load _ _ l u v Hs) as (w & Hw & _ & Hwv); [eapply shape_elem, Hs|].
  rewrite cons_middle, (assoc_L (++)) in Hs.
  destruct (shape_links _ _ k x y _ Hs) as (kv & -> & _ & _ & Hp & _). cbn [rbind].
  rewrite Hp, last_fst, Hw. cbn [rbind]. by rewrite (proj2 (Z.ltb_ge _ _)) by lia.
Qed.
End sides.

(** ** The segments the new one overlaps *)

Section merge.
Implicit Types (fs L R M : list (positive * block)).

Lemma split_overlap fs a b :
  blocks_ok fs.*2 -> a < b ->
  exists L M R, fs = L ++ M ++ R /\ (forall r, r ∈ L.*2 -> r.2 <= a) /\
    (forall r, r ∈ M.*2 -> r.1 < b /\ a < r.2) /\ (forall r, r ∈ R.*2 -> b <= r.1).
Proof.
  intros Hok Hab. induction fs as [|[l [x y]] fs IH].
  { exists [], [], []. split; [done|]. by split; [|split]; intros r Hr; apply not_elem_of_nil in Hr. }
  cbn [fmap list_fmap snd] in Hok. apply blocks_ok_cons in Hok as (Hxy & Hok & Hgap).
  cbn [fst snd] in *. destruct (IH Hok) as (L & M & R & -> & HL & HM & HR).
  rewrite !fmap_app in *. unfold gap in Hgap. cbn [snd] in Hgap. setoid_rewrite elem_of_app in Hgap.
  setoid_rewrite elem_of_app in Hgap. destruct (Z.le_gt_cases y a).
  { exists ((l, (x, y)) :: L), M, R. split; [done|]. split; [|done].
    intros r [->|Hr]%elem_of_cons; [done|by apply HL]. }
  assert (L = []) as ->.
  { destruct L as [|[k r] L]; [done|]. specialize (HL r ltac:(left)). specialize (Hgap r ltac:(left; left)).
    apply blocks_ok_app in Hok as (Hok & _). pose proof (blocks_ok_elem _ r Hok ltac:(left)). lia. }
  destruct (Z.le_gt_cases b x).
  - assert (M = []) as ->.
    { destruct M as [|[k r] M]; [done|]. destruct (HM r ltac:(left)).
      specialize (Hgap r ltac:(right; left; left)). lia. }
    exists [], [], ((l, (x, y)) :: R). split; [done|].
    split; [by intros r Hr%not_elem_of_nil|]. split; [by intros r Hr%not_elem_of_nil|].
    intros r [->|Hr]%elem_of_cons; [done|by apply HR].
  - exists [], ((l, (x, y)) :: M), R. split; [done|]. split; [by intros r Hr%not_elem_of_nil|].
    split; [|done]. intros r [->|Hr]%elem_of_cons; [done|by apply HM].
Qed.

(** None of them being inside the new segment, there are at most two. *)
Lemma overlap_shapes M a b :
  blocks_ok M.*2 -> (forall r, r ∈ M.*2 -> r.1 < b /\ a < r.2) -> existsb (inside a b) M = false ->
  M = [] \/ (exists l u v, M = [(l, (u, v))] /\ u < b /\ a < v /\ (u < a \/ b < v)) \/
  (exists l u v l' u' v', M = [(l, (u, v)); (l', (u', v'))] /\
     u < a < v /\ v < u' < b /\ b < v').
Proof.
  assert (Hin : forall x, inside a b x = false -> x.2.1 < a \/ b < x.2.2).
  { intros x [H|H]%andb_false_iff; apply Z.leb_gt in H; lia. }
  intros Hok HM Hi. destruct M as [|[l [u v]] M]; [by left|right].
  destruct (HM (u, v) ltac:(left)) as [Hu Hv]. cbn [existsb] in Hi.
  apply orb_false_iff in Hi as [Hi1%Hin Hi]. cbn [fmap list_fmap fst snd] in *.
  apply blocks_ok_cons in Hok as (Huv & Hok & Hgap). unfold gap in Hgap. cbn [fst snd] in *.
  destruct M as [|[l' [u' v']] M]; [left; by exists l, u, v|right].
  destruct (HM (u', v') ltac:(right; left)) as [Hu' Hv']. cbn [existsb] in Hi.
  apply orb_false_iff in Hi as [Hi2%Hin Hi]. cbn [fmap list_fmap fst snd] in *.
  specialize (Hgap (u', v') ltac:(left)) as Hg. cbn [fst] in Hg.
  apply blocks_ok_cons in Hok as (Huv' & Hok & Hgap'). unfold gap in Hgap'. cbn [fst snd] in *.
  destruct M as [|[l'' [u'' v'']] M].
  - exists l, u, v, l', u', v'. split; [done|]. lia.
  - destruct (HM (u'', v'') ltac:(right; right; left)).
    specialize (Hgap' (u'', v'') ltac:(left)). cbn [fst snd] in *. lia.
Qed.

(** [merge_sides] when one block is hit. *)
Lemma merge_one s L l u v R a b t rf c :
  let rs := (L ++ (l, (u, v)) :: R).*2 in
  shape s (L ++ (l, (u, v)) :: R) -> blocks_ok rs -> a < b ->
  (forall r, r ∈ L.*2 -> r.2 <= a) -> (forall r, r ∈ R.*2 -> b <= r.1) ->
  u < b -> a < v -> (u < a \/ b < v) -> settled (rcv_nxt_ s) rs ->
  exists flags s', merge_sides (last L.*1) (head R.*1) a b t rf c s = Ok (flags, s') /\
    grown (rcv_nxt_ s) rs a b s'.
Proof.
  intros rs Hs Hok Hab HL HR Hu Hv Hor Hset. unfold merge_sides.
  pose proof Hok as Hok'. unfold rs in Hok'. rewrite fmap_app, fmap_cons in Hok'. cbn [snd] in Hok'.
  apply blocks_ok_mid in Hok' as (HokL & HokR & Huv & HLu & HvR & _).
  destruct (decide (L = [] \/ u < a)) as [Htl|Hnl].
  - destruct (left_merge_take s L l u v R a t Hs Htl) as (s1 & -> & Hs1 & Hn1). cbn [rbind].
    destruct (decide (R = [] \/ b < v)) as [Htr|Hnr].
    + destruct (right_merge_take s1 L l (Z.min a u) v R b t Hs1 Htr) as (s2 & -> & Hs2 & Hn2).
      cbn [rbind]. rewrite (proj2 (Z.leb_le _ _)) by lia.
      destruct (advance_grown s2 L l u v _ _ R a b Hs2 Hok Hab eq_refl eq_refl ltac:(lia) ltac:(lia))
        as (s3 & -> & Hg).
      { intros r Hr. specialize (HLu r Hr). destruct Htl as [->|?]; [by apply not_elem_of_nil in Hr|lia]. }
      { intros r Hr. specialize (HvR r Hr). destruct Htr as [->|?]; [by apply not_elem_of_nil in Hr|lia]. }
      { by rewrite ?Hn2, ?Hn1. }
      cbn [rbind]. exists t, s3. split; [done|]. by rewrite ?Hn2, ?Hn1 in Hg.
    + assert (u < a /\ v <= b) as [Hua Hvb] by (destruct (Z.le_gt_cases v b); [lia|naive_solver]).
      rewrite Z.min_r in Hs1 by lia.
      rewrite (right_merge_none s1 L l u v R b t Hs1) by naive_solver. cbn [rbind].
      destruct (Z.leb_spec b v).
      * destruct (advance_grown s1 L l u v u v R a b Hs1 Hok Hab) as (s3 & -> & Hg); try lia; try done.
        { by rewrite ?Hn2, ?Hn1. }
        cbn [rbind]. exists t, s3. split; [done|]. by rewrite ?Hn2, ?Hn1 in Hg.
      * assert (Hl : last (L ++ [(l, (u, v))]) = Some (l, (u, v))) by by rewrite last_snoc.
        rewrite cons_middle, (assoc_L (++)) in Hs1.
        destruct (endfast_grown s1 (L ++ [(l, (u, v))]) R v b true t rf (wrap_i32 (c - 1)) Hs1)
          as (fl & s3 & He & Hg).
        { by rewrite <- (assoc_L (++)). }
        { lia. }
        { intros r. rewrite fmap_app, elem_of_app. intros [Hr|Hr]; [specialize (HL r Hr); lia|].
          apply list_elem_of_singleton in Hr as ->. cbn. lia. }
        { done. }
        { split; [|done]. intros _. left. by exists l, u. }
        rewrite last_fst in He. cbn [rbind]. rewrite He. exists fl, s3. split; [done|].
        rewrite <- (assoc_L (++)) in Hg. rewrite <- Hn1.
        apply (grown_narrow _ _ a b v b); [done|lia|lia|right|by left|exact Hg].
        exists u. split; [|lia]. apply (elem_snd_2 _ l). apply elem_of_app. right. left.
  - assert (a <= u /\ L <> []) as [Hau HLn] by (destruct (Z.le_gt_cases a u); naive_solver).
    rewrite (left_merge_none s L l u v R a t Hs HLn Hau). cbn [rbind].
    destruct (right_merge_take s L l u v R b t Hs ltac:(lia)) as (s2 & -> & Hs2 & Hn2). cbn [rbind].
    rewrite Z.max_r in Hs2 by lia. destruct (Z.leb_spec u a).
    + destruct (advance_grown s2 L l u v u v R a b Hs2 Hok Hab) as (s3 & -> & Hg); try lia; try done.
      { by rewrite ?Hn2, ?Hn1. }
      cbn [rbind]. exists t, s3. split; [done|]. by rewrite ?Hn2, ?Hn1 in Hg.
    + destruct (endfast_grown s2 L ((l, (u, v)) :: R) a u true t rf c Hs2 Hok ltac:(lia) HL)
        as (fl & s3 & He & Hg).
      { intros r. rewrite fmap_cons, elem_of_cons. intros [->|Hr]; [cbn; lia|]. specialize (HR r Hr). lia. }
      { split; [|done]. intros _. right. by exists l, v. }
      cbn [rbind]. cbn [fmap list_fmap fst head] in He. rewrite He. exists fl, s3. split; [done|].
      rewrite <- Hn2.
      apply (grown_narrow _ _ a b a u); [done|lia|lia|by left|right|exact Hg].
      exists v. split; [|lia]. apply (elem_snd_2 _ l). apply elem_of_app. right. left.
Qed.

(** When two are hit, the hole between them is filled. *)
Lemma merge_two s L l u v l' u' v' R a b t rf c :
  let rs := (L ++ (l, (u, v)) :: (l', (u', v')) :: R).*2 in
  shape s (L ++ (l, (u, v)) :: (l', (u', v')) :: R) -> blocks_ok rs ->
  (forall r, r ∈ L.*2 -> r.2 <= a) -> (forall r, r ∈ R.*2 -> b <= r.1) ->
  u < a < v -> v < u' < b -> b < v' ->
  exists flags s', merge_sides (last L.*1) (head R.*1) a b t rf c s = Ok (flags, s') /\
    grown (rcv_nxt_ s) rs a b s'.
Proof.
  intros rs Hs Hok HL HR Hu Hv Hb. unfold merge_sides.
  destruct (left_merge_take s L l u v _ a t Hs ltac:(lia)) as (s1 & -> & Hs1 & Hn1). cbn [rbind].
  rewrite Z.min_r in Hs1 by lia. rewrite cons_middle, (assoc_L (++)) in Hs1.
  destruct (right_merge_take s1 _ l' u' v' R b t Hs1 ltac:(lia)) as (s2 & -> & Hs2 & Hn2). cbn [rbind].
  rewrite Z.max_r in Hs2 by lia. rewrite (proj2 (Z.leb_gt _ _)) by lia. cbn [rbind].
  destruct (endfast_grown s2 (L ++ [(l, (u, v))]) ((l', (u', v')) :: R) v u' true t rf (wrap_i32 (c - 1)) Hs2)
    as (fl & s3 & He & Hg).
  { by rewrite <- (assoc_L (++)). }
  { lia. }
  { intros r. rewrite fmap_app, elem_of_app. intros [Hr|Hr]; [specialize (HL r Hr); lia|].
    apply list_elem_of_singleton in Hr as ->. cbn. lia. }
  { intros r. rewrite fmap_cons, elem_of_cons. intros [->|Hr]; [cbn; lia|]. specialize (HR r Hr). lia. }
  { split; [|done]. intros _. left. exists l, u. by rewrite last_snoc. }
  rewrite last_fst in He. cbn [fmap list_fmap fst head] in He. rewrite He. exists fl, s3. split; [done|].
  rewrite <- (assoc_L (++)) in Hg. rewrite <- Hn1, <- Hn2.
  apply (grown_narrow _ _ a b v u'); [done|lia|lia| | |exact Hg]; right.
  - exists u. split; [|lia]. apply (elem_snd_2 _ l). apply elem_of_app. right. left.
  - exists v'. split; [|lia]. apply (elem_snd_2 _ l'). apply elem_of_app. right. right. left.
Qed.

(** When none is hit, the segment falls in a hole, and may touch the blocks
    around it. *)
Lemma merge_none s L R a b t rf c :
  shape s (L ++ R) -> blocks_ok (L ++ R).*2 -> a < b -> L <> [] -> R <> [] ->
  (forall r, r ∈ L.*2 -> r.2 <= a) -> (forall r, r ∈ R.*2 -> b <= r.1) ->
  exists flags s', merge_sides (last L.*1) (head R.*1) a b t rf c s = Ok (flags, s') /\
    grown (rcv_nxt_ s) (L ++ R).*2 a b s'.
Proof.
  intros Hs Hok Hab HLn HRn HL HR. destruct L as [|[l [x y]] L _] using rev_ind; [done|].
  destruct R as [|[l' [x' y']] R]; [done|]. clear HLn HRn. unfold merge_sides.
  assert (Hy : y <= a) by (apply (HL (x, y)); rewrite fmap_app; apply elem_of_app; right; left).
  assert (Hx' : b <= x') by (apply (HR (x', y')); left).
  assert (Hok' := Hok). rewrite fmap_app in Hok'. apply blocks_ok_app in Hok' as (_ & HokR & _).
  pose proof (blocks_ok_elem _ (x', y') HokR ltac:(left)) as Hxy'. cbn [fst snd] in Hxy'.
  rewrite (left_merge_none s _ l' x' y' R a t Hs) by (auto using app_cons_not_nil; lia). cbn [rbind].
  assert (Hs2 := Hs). rewrite <- (assoc_L (++)) in Hs2. cbn [app] in Hs2.
  rewrite (right_merge_none s L l x y _ b t Hs2) by (done || lia). cbn [rbind].
  rewrite (proj2 (Z.leb_gt _ _)) by lia. rewrite last_fst. cbn [fmap list_fmap fst head].
  destruct (shape_links s L l x y _ Hs2) as (pv & -> & _ & Hpy & _ & Hpn). cbn [rbind].
  destruct (shape_links s _ l' x' y' _ Hs) as (qv & -> & Hqx & _). cbn [rbind]. rewrite Hpn, Hpy, Hqx.
  cbn [fmap list_fmap fst head]. rewrite bool_decide_eq_true_2 by done.
  rewrite (proj2 (Z.leb_le y a)), (proj2 (Z.leb_le b x')) by lia. cbn [andb rbind].
  destruct (endfast_grown s (L ++ [(l, (x, y))]) ((l', (x', y')) :: R) a b
    ((y =? a) || (x' =? b)) t rf c Hs Hok Hab HL HR) as (fl & s' & He & Hg).
  { rewrite last_snoc. cbn [head]. rewrite orb_true_iff, !Z.eqb_eq. clear. naive_solver. }
  rewrite last_fst in He. cbn [fmap list_fmap fst head] in He. exists fl, s'. by rewrite He.
Qed.

Lemma merge_sides_spec s L M R a b t rf c :
  shape s (L ++ M ++ R) -> blocks_ok (L ++ M ++ R).*2 -> a < b ->
  (forall r, r ∈ L.*2 -> r.2 <= a) -> (forall r, r ∈ M.*2 -> r.1 < b /\ a < r.2) ->
  (forall r, r ∈ R.*2 -> b <= r.1) -> existsb (inside a b) M = false ->
  (M = [] -> L <> [] /\ R <> []) -> settled (rcv_nxt_ s) (L ++ M ++ R).*2 ->
  exists flags s', merge_sides (last L.*1) (head R.*1) a b t rf c s = Ok (flags, s') /\
    grown (rcv_nxt_ s) (L ++ M ++ R).*2 a b s'.
Proof.
  intros Hs Hok Hab HL HM HR Hi Hne Hset.
  assert (HokM : blocks_ok M.*2).
  { rewrite !fmap_app in Hok. apply blocks_ok_app in Hok as (_ & Hok & _).
    by apply blocks_ok_app in Hok as (Hok & _). }
  destruct (overlap_shapes M a b HokM HM Hi) as
    [->|[(l & u & v & -> & Hu & Hv & Hor)|(l & u & v & l' & u' & v' & -> & H1 & H2 & H3)]];
    cbn [app] in *.
  - destruct (Hne eq_refl). by apply merge_none.
  - by apply merge_one.
  - by apply merge_two.
Qed.
End merge.

(** ** Adding a segment *)

Section again.
Implicit Types (fs L R M : list (positive * block)).

Lemma elem_survivors a b M r : r ∈ (survivors a b M).*2 -> r ∈ M.*2.
Proof.
  rewrite !elem_snd. intros (l & Hl). exists l. unfold survivors in Hl.
  rewrite list_elem_of_In, filter_In in Hl. by apply list_elem_of_In, Hl.
Qed.

Lemma survives a b M r : r ∈ M.*2 -> r ∈ (survivors a b M).*2 \/ (a <= r.1 /\ r.2 <= b).
Proof.
  rewrite elem_snd. intros (l & Hl). destruct (inside a b (l, r)) eqn:E.
  - right. apply andb_true_iff in E as [H1%Z.leb_le H2%Z.leb_le]. done.
  - left. apply (elem_snd_2 _ l), list_elem_of_In, filter_In.
    split; [by apply list_elem_of_In|by rewrite E].
Qed.

Lemma survivors_ok a b M : blocks_ok M.*2 -> blocks_ok (survivors a b M).*2.
Proof.
  induction M as [|[l r] M IH]; [done|]. cbn [fmap list_fmap snd]. rewrite blocks_ok_cons.
  intros (Hr & Hok & Hg). unfold survivors. cbn [List.filter]. fold (survivors a b M).
  destruct (inside a b (l, r)); cbn [negb]; [by apply IH|]. cbn [fmap list_fmap snd].
  apply blocks_ok_cons. split; [done|]. split; [by apply IH|].
  intros r' Hr'%elem_survivors. by apply Hg.
Qed.

Lemma survivors_length a b M :
  (length (survivors a b M) <= length M)%nat /\
  (existsb (inside a b) M = true -> length (survivors a b M) < length M)%nat.
Proof.
  induction M as [|x M [IH1 IH2]]; [done|]. unfold survivors. cbn [List.filter existsb length].
  fold (survivors a b M). destruct (inside a b x); cbn [negb orb length]; [lia|].
  split; [lia|]. intros H. specialize (IH2 H). lia.
Qed.

Lemma survivors_all a b M : existsb (inside a b) M = false -> survivors a b M = M.
Proof.
  induction M as [|x M IH]; [done|]. cbn [existsb]. intros [Hx HM]%orb_false_iff.
  unfold survivors. cbn [List.filter]. rewrite Hx. cbn [negb]. f_equal. by apply IH.
Qed.

Lemma survivors_app_L a b L M : existsb (inside a b) L = false ->
  survivors a b (L ++ M) = L ++ survivors a b M /\ existsb (inside a b) (L ++ M) = existsb (inside a b) M.
Proof.
  intros H. unfold survivors. rewrite List.filter_app, existsb_app, H.
  by rewrite (survivors_all a b L H : List.filter _ _ = _).
Qed.

Lemma kill_ok a b L M R : blocks_ok (L ++ M ++ R).*2 -> blocks_ok (L ++ survivors a b M ++ R).*2.
Proof.
  rewrite !fmap_app, !blocks_ok_app. intros (HL & (HM & HR & HMR) & HLMR).
  split; [done|]. split.
  - split; [by apply survivors_ok|]. split; [done|]. intros r r' Hr%elem_survivors. by apply HMR.
  - intros r r' Hr [Hr'%elem_survivors|Hr']%elem_of_app; apply HLMR; try done; apply elem_of_app; auto.
Qed.

(** The segment overlapped exactly. *)
Lemma only_block a b M : blocks_ok M.*2 -> (forall r, r ∈ M.*2 -> r.1 < b /\ a < r.2) ->
  (a, b) ∈ M.*2 -> exists l, M = [(l, (a, b))].
Proof.
  intros Hok HM Hin. apply elem_snd in Hin as (l & Hin). apply list_elem_of_split in Hin as (M1 & M2 & ->).
  rewrite fmap_app, fmap_cons in Hok, HM. cbn [snd] in *.
  apply blocks_ok_mid in Hok as (_ & _ & _ & H1 & H2 & _). exists l.
  destruct M1 as [|[k r] M1].
  - destruct M2 as [|[k r] M2]; [done|]. specialize (H2 r ltac:(left)).
    destruct (HM r); [apply elem_of_app; right; right; left|]. lia.
  - specialize (H1 r ltac:(left)). destruct (HM r); [left|]. lia.
Qed.

Lemma grown_same s L l a b R s' :
  let rs := (L ++ (l, (a, b)) :: R).*2 in
  shape s' (L ++ (l, (a, b)) :: R) -> blocks_ok rs -> settled (rcv_nxt_ s) rs ->
  rcv_nxt_ s' = rcv_nxt_ s -> grown (rcv_nxt_ s) rs a b s'.
Proof.
  intros rs Hs Hok Hset Hn. split. exists (L ++ (l, (a, b)) :: R), L.*2, a, b, R.*2. unfold rs in *.
  rewrite fmap_app, fmap_cons in Hok, Hset |- *. cbn [snd] in *. split; [done|]. split; [done|].
  split; [done|]. apply blocks_ok_mid in Hok as (HL & HR & Hab & HLa & HbR & _).
  split; [intros r Hr'; rewrite elem_of_app in Hr'; rewrite elem_of_app, elem_of_cons; tauto|].
  split; [lia|]. split; [lia|]. split; [|split].
  - intros r [Hr'|[->|Hr']%elem_of_cons]%elem_of_app [T1 T2]; cbn [fst snd] in *; [|lia|].
    + specialize (HLa r Hr'). lia.
    + specialize (HbR r Hr'). lia.
  - intros z. rewrite !cov_app, !cov_cons. cbn [fst snd]. tauto.
  - rewrite Hn. destruct (Z.leb_spec a (rcv_nxt_ s)); [|done]. symmetry. apply (Hset (a, b)); [|done].
    apply elem_of_app. right. left.
Qed.

(** What the loop over the overlapped segments starts from. *)
Lemma before_overlap s L M R :
  shape s (L ++ M ++ R) -> exists L0 Lr, L = L0 ++ Lr /\ (length Lr <= 1)%nat /\
    match last L.*1 with Some _ => last L.*1 | None => head_ s end = head ((Lr ++ M) ++ R).*1.
Proof.
  intros Hs. destruct L as [|[l r] L _] using rev_ind.
  - exists [], []. split; [done|]. split; [cbn; lia|]. cbn. by rewrite (shape_head _ _ Hs).
  - exists L, [(l, r)]. split; [done|]. split; [cbn; lia|]. by rewrite last_fst.
Qed.

Lemma not_inside a b L : blocks_ok L.*2 -> (forall r, r ∈ L.*2 -> r.2 <= a) -> existsb (inside a b) L = false.
Proof.
  induction L as [|[l r] L IH]; [done|]. cbn [existsb fmap list_fmap snd]. rewrite blocks_ok_cons.
  intros (Hr & Hok & _) HL. rewrite IH; [|done|intros r' Hr'; apply HL; by right].
  specialize (HL r ltac:(left)). rewrite orb_false_r. apply andb_false_iff. left. cbn [snd].
  apply Z.leb_gt. lia.
Qed.
End again.

Section add.
Implicit Types (fs L R M : list (positive * block)).

(** The new segment is past the last block, or before the first. *)
Lemma again2_tail s fs l x y a b t rf c :
  let rs := (fs ++ [(l, (x, y))]).*2 in
  shape s (fs ++ [(l, (x, y))]) -> blocks_ok rs -> a < b -> y <= a ->
  exists flags s', endfast (tail_ s) None (a =? y) a b t rf c s = Ok (flags, s') /\
    grown (rcv_nxt_ s) rs a b s'.
Proof.
  intros rs Hs Hok Hab Hy.
  assert (HL : forall r, r ∈ rs -> r.2 <= a).
  { unfold rs in *. rewrite fmap_app in Hok |- *. cbn [fmap list_fmap snd] in *.
    apply blocks_ok_mid in Hok as (Hok & _ & Hxy & Hx & _).
    intros r [Hr| ->%list_elem_of_singleton]%elem_of_app; [specialize (Hx r Hr); lia|done]. }
  destruct (endfast_grown s (fs ++ [(l, (x, y))]) [] a b (a =? y) t rf c) as (fl & s' & He & Hg).
  { by rewrite app_nil_r. }
  { by rewrite app_nil_r. }
  { done. }
  { exact HL. }
  { by intros r Hr%not_elem_of_nil. }
  { rewrite last_snoc. cbn [head]. rewrite Z.eqb_eq. clear. naive_solver. }
  rewrite app_nil_r in Hg. exists fl, s'. by rewrite (shape_tail _ _ Hs).
Qed.

Lemma again2_head s l x y fs a b t rf c :
  let rs := ((l, (x, y)) :: fs).*2 in
  shape s ((l, (x, y)) :: fs) -> blocks_ok rs -> a < b -> b <= x ->
  exists flags s', endfast None (head_ s) (b =? x) a b t rf c s = Ok (flags, s') /\
    grown (rcv_nxt_ s) rs a b s'.
Proof.
  intros rs Hs Hok Hab Hx.
  assert (HR : forall r, r ∈ rs -> b <= r.1).
  { unfold rs in *. cbn [fmap list_fmap snd] in *. apply blocks_ok_cons in Hok as (Hxy & _ & Hg).
    intros r [->|Hr]%elem_of_cons; [done|]. specialize (Hg r Hr). unfold gap in Hg. cbn in *. lia. }
  destruct (endfast_grown s [] ((l, (x, y)) :: fs) a b (b =? x) t rf c) as (fl & s' & He & Hg);
    try done.
  { by intros r Hr%not_elem_of_nil. }
  { cbn [head last]. rewrite Z.eqb_eq. clear. naive_solver. }
  exists fl, s'. by rewrite (shape_head _ _ Hs).
Qed.

(** The new segment overlaps the blocks [M], if any: the step from there,
    given what [again2] does with fewer blocks. *)
Lemma overlap_step fuel s L M R a b t rf c :
  let rs := (L ++ M ++ R).*2 in
  (forall fs a b t rf c s, shape s fs -> blocks_ok fs.*2 -> a < b -> settled (rcv_nxt_ s) fs.*2 ->
     fs <> [] -> (length fs < fuel)%nat ->
     exists flags s', again2 fuel a b t rf c s = Ok (flags, s') /\ grown (rcv_nxt_ s) fs.*2 a b s') ->
  shape s (L ++ M ++ R) -> blocks_ok rs -> a < b -> settled (rcv_nxt_ s) rs ->
  (length (L ++ M ++ R) < S fuel)%nat ->
  (forall r, r ∈ L.*2 -> r.2 <= a) -> (forall r, r ∈ M.*2 -> r.1 < b /\ a < r.2) ->
  (forall r, r ∈ R.*2 -> b <= r.1) -> (M = [] -> L <> [] /\ R <> []) ->
  exists flags s',
    (let! k := kill_loop (S fuel) (match last L.*1 with Some _ => last L.*1 | None => head_ s end)
       (head R.*1) a b t c false s in
     match k with
     | Duplicate flags s => Ok (flags, s)
     | Killed tiflags initcnt altered s =>
         match head_ s with
         | None => endfast (last L.*1) (head R.*1) false a b tiflags rf initcnt s
         | Some _ =>
             if altered then again2 fuel a b tiflags rf initcnt s
             else merge_sides (last L.*1) (head R.*1) a b tiflags rf initcnt s
         end
     end) = Ok (flags, s') /\ grown (rcv_nxt_ s) rs a b s'.
Proof.
  intros rs IH Hs Hok Hab Hset Hf HL HM HR Hne.
  assert (Hoks : blocks_ok L.*2 /\ blocks_ok M.*2).
  { unfold rs in Hok. rewrite !fmap_app in Hok. apply blocks_ok_app in Hok as (H1 & H2 & _).
    by apply blocks_ok_app in H2 as (H2 & _). }
  destruct Hoks as [HokL HokM].
  pose proof (not_inside a b L HokL HL) as HinL.
  destruct (before_overlap s L M R Hs) as (L0 & Lr & -> & Hlr & ->).
  rewrite existsb_app, orb_false_iff in HinL. destruct HinL as [HinL0 HinLr].
  destruct (decide ((a, b) ∈ M.*2)) as [Hd|Hnd].
  - destruct (only_block a b M HokM HM Hd) as (l & ->).
    cbn [app] in *. rewrite <- (assoc_L (++)) in Hs.
    destruct (kill_loop_dup (S fuel) a b t c s L0 Lr l R Hs) as (fl & s' & Hk & Hs' & Hn).
    { rewrite !length_app in Hf. cbn [length] in Hf. lia. }
    { intros x Hx. destruct (inside a b x) eqn:E; [|done]. rewrite <- HinLr. symmetry.
      apply existsb_exists. exists x. by rewrite list_elem_of_In in Hx. }
    rewrite <- (assoc_L (++)). cbn [app]. rewrite Hk. cbn [rbind]. exists fl, s'. split; [done|].
    unfold rs in *. rewrite (assoc_L (++)) in Hs'. by apply grown_same.
  - assert (Hs0 := Hs). rewrite <- (assoc_L (++)), (assoc_L (++) Lr) in Hs0.
    destruct (kill_loop_spec (S fuel) a b t c false s L0 (Lr ++ M) R Hs0) as (t' & c' & s1 & Hk & Hs1 & Hn1).
    { rewrite !length_app in Hf. rewrite !length_app. lia. }
    { intros x [Hx|Hx]%elem_of_app E.
      - assert (Hin : inside a b x = true) by (unfold inside; rewrite E; cbn; by rewrite !Z.leb_refl).
        assert (existsb (inside a b) Lr = true); [|congruence].
        apply existsb_exists. exists x. by rewrite list_elem_of_In in Hx.
      - apply Hnd. rewrite <- E. destruct x as [k r]. by apply (elem_snd_2 _ k). }
    rewrite Hk. cbn [rbind]. clear Hk.
    destruct (survivors_app_L a b Lr M HinLr) as [Hsv Hex]. rewrite Hsv, <- (assoc_L (++)), (assoc_L (++) L0) in Hs1.
    rewrite Hex. clear Hsv Hex Hs0. cbn [orb]. set (L := L0 ++ Lr) in *.
    pose proof (kill_ok a b L M R Hok) as Hok1.
    assert (Hgk : forall s', grown (rcv_nxt_ s1) (L ++ survivors a b M ++ R).*2 a b s' ->
      grown (rcv_nxt_ s) rs a b s').
    { rewrite Hn1. intros s' Hg. apply (grown_kill _ _ _ _ _ _ Hg); unfold rs; intros r;
        rewrite !fmap_app, !elem_of_app.
      - intros [?|[?%elem_survivors|?]]; auto.
      - intros [?|[Hr|?]]; auto. destruct (survives a b M r Hr); auto. }
    assert (Hset1 : settled (rcv_nxt_ s1) (L ++ survivors a b M ++ R).*2).
    { rewrite Hn1. intros r Hr. apply Hset. unfold rs. rewrite !fmap_app, !elem_of_app in Hr |- *.
      destruct Hr as [?|[?%elem_survivors|?]]; auto. }
    rewrite (shape_head _ _ Hs1). destruct (existsb (inside a b) M) eqn:Ein.
    + destruct (L ++ survivors a b M ++ R) as [|x fs'] eqn:Efs.
      * apply app_nil in Efs as [-> [_ ->]%app_nil].
        destruct (endfast_grown s1 [] [] a b false t' rf c' Hs1 Hok1 Hab) as (fl & s' & He & Hg);
          try (by intros r Hr%not_elem_of_nil).
        { cbn. clear. naive_solver. }
        exists fl, s'. split; [exact He|]. by apply Hgk.
      * destruct (IH (x :: fs') a b t' rf c' s1) as (fl & s' & He & Hg); try done.
        { rewrite <- Efs. rewrite !length_app in Hf. rewrite !length_app.
          pose proof (proj2 (survivors_length a b M) Ein). lia. }
        exists fl, s'. split; [exact He|]. by apply Hgk.
    + rewrite (survivors_all a b M Ein) in *.
      destruct (merge_sides_spec s1 L M R a b t' rf c' Hs1 Hok Hab HL HM HR Ein Hne Hset1)
        as (fl & s' & He & Hg).
      exists fl, s'. split; [|by apply Hgk].
      destruct (head (L ++ M ++ R).*1) eqn:Eh; [exact He|].
      destruct L as [|x L1]; [|done]. destruct M; [|done]. destruct (Hne eq_refl); done.
Qed.

Lemma again2_spec fuel a b t rf c s fs :
  shape s fs -> blocks_ok fs.*2 -> a < b -> settled (rcv_nxt_ s) fs.*2 -> fs <> [] ->
  (length fs < fuel)%nat ->
  exists flags s', again2 fuel a b t rf c s = Ok (flags, s') /\ grown (rcv_nxt_ s) fs.*2 a b s'.
Proof.
  revert fs a b t rf c s. induction fuel as [|fuel IH]; intros fs a b t rf c s Hs Hok Hab Hset Hne Hf; [lia|].
  cbn [again2]. destruct fs as [|[lt [xt yt]] fs1 _] using rev_ind; [done|]. clear Hne.
  rewrite (shape_tail _ _ Hs), last_fst.
  destruct (shape_load _ _ lt xt yt Hs) as (tv & -> & _ & Hty); [eapply shape_elem, Hs|]. cbn [rbind].
  rewrite Hty. destruct (Z.leb_spec yt a) as [Hya|Hya].
  { rewrite <- (last_fst fs1 lt (xt, yt)), <- (shape_tail _ _ Hs). by apply again2_tail. }
  destruct (fs1 ++ [(lt, (xt, yt))]) as [|[lh [xh yh]] fs2] eqn:Efs; [by apply app_nil in Efs as []|].
  pose proof (shape_head _ _ Hs) as Hh0. cbn [fmap list_fmap fst head] in Hh0.
  destruct (shape_load _ _ lh xh yh Hs) as (hv & Hhv & Hhx & _); [left|].
  rewrite <- Hh0 in Hhv. rewrite Hhv. cbn [rbind].
  rewrite Hhx. destruct (Z.leb_spec b xh) as [Hxb|Hxb].
  { by apply again2_head. }
  assert (Hht : (lh, (xh, yh)) ∈ (lh, (xh, yh)) :: fs2 /\ (lt, (xt, yt)) ∈ (lh, (xh, yh)) :: fs2).
  { split; [left|]. rewrite <- Efs. apply elem_of_app. right. left. }
  clear Efs Hh0 Hhv. revert Hs Hok Hset Hf Hht. generalize ((lh, (xh, yh)) :: fs2). intros fs Hs Hok Hset Hf [Hh Ht].
  destruct (split_overlap fs a b Hok Hab) as (L & M & R & -> & HL & HM & HR).
  assert (Hscan : scan_after (S fuel) b s = Ok (head R.*1)).
  { rewrite (assoc_L (++)) in Hs, Hf. apply (scan_after_spec _ _ _ _ _ Hs Hf); [|done].
    intros r. rewrite fmap_app, elem_of_app. intros [Hr|Hr]; [|by apply HM].
    rewrite !fmap_app in Hok. apply blocks_ok_app in Hok as (Hok & _).
    pose proof (blocks_ok_elem _ _ Hok Hr). specialize (HL r Hr). lia. }
  assert (Hscan' : scan_before (S fuel) a s = Ok (last L.*1)).
  { apply (scan_before_spec _ _ _ _ _ Hs Hf HL). intros r. rewrite fmap_app, elem_of_app.
    intros [Hr|Hr]; [by apply HM|]. rewrite !fmap_app in Hok. apply blocks_ok_app in Hok as (_ & Hok & _).
    apply blocks_ok_app in Hok as (_ & Hok & _).
    pose proof (blocks_ok_elem _ _ Hok Hr). specialize (HR r Hr). lia. }
  rewrite Hscan, Hscan'. cbn [rbind].
  apply (overlap_step fuel s L M R a b t rf c IH Hs Hok Hab Hset Hf HL HM HR).
  intros ->. cbn [app] in Hh, Ht. rewrite elem_of_app in Hh, Ht.
  split; intros ->.
  - destruct Hh as [Hh|Hh]; [by apply not_elem_of_nil in Hh|]. specialize (HR _ (elem_snd_2 _ _ _ Hh)). cbn in HR. lia.
  - destruct Ht as [Ht|Ht]; [|by apply not_elem_of_nil in Ht]. specialize (HL _ (elem_snd_2 _ _ _ Ht)). cbn in HL. lia.
Qed.
End add.
