(* ===== verification/RqTheorems.v ===== *)
(** * The reassembly queue: what it promises

    A state [holds] a list of blocks; every method is given its effect on the
    sequence numbers those blocks cover, and any sequence of calls keeps the
    blocks in order, apart and counted. *)

From stdpp Require Import base numbers list gmap sorting.
From Stdlib Require Import ZArith Lia Bool.
From S2P Require Import Prelude.
From S2P Require Import Store.
From S2P Require Import Dlist.
From S2P Require Import Ring.
From S2P Require Import Deque.
From S2P Require Import Rq.
From S2P Require Import RqProps.
From S2P Require Import RqAdd.
Open Scope Z_scope.

Implicit Types (s : rq) (rs : list block).

(** The blocks of a state: in sequence order, apart, with their total number
    of bytes in [total_], and [rcv_nxt_] not inside or below any of those it
    has reached. *)
Record holds s rs : Prop := {
  h_shape : exists fs, shape s fs /\ fs.*2 = rs;
  h_ok : blocks_ok rs;
  h_settled : settled (rcv_nxt_ s) rs;
}.

Lemma holds_total s rs : holds s rs -> total_ s = wrap_i32 (sumlen rs).
Proof. intros [(fs & (ls & F & _ & _ & Ht) & <-) _ _]. exact Ht. Qed.

Lemma settled_sub rn rs rs' : settled rn rs -> (forall r, r ∈ rs' -> r ∈ rs) -> settled rn rs'.
Proof. intros H Hs r Hr. by apply H, Hs. Qed.

(** ** [add] *)

Definition within (a b : Z) (r : block) : Prop := r.1 <= a /\ b <= r.2.

(** [rs'] is [rs] with [[a, b)], and [rn'] what becomes of [rn]. *)
Definition added (rs : list block) (a b rn : Z) (rs' : list block) (rn' : Z) : Prop :=
  (forall z, cov rs' z <-> cov rs z \/ a <= z < b) /\
  exists r, r ∈ rs' /\ within a b r /\ rn' = if r.1 <=? rn then r.2 else rn.

Lemma blocks_ok_NoDup rs : blocks_ok rs -> NoDup rs.
Proof.
  induction rs as [|r rs IH]; [constructor|]. rewrite blocks_ok_cons. intros (Hr & Hok & Hg).
  apply NoDup_cons. split; [|by apply IH]. intros Hin. specialize (Hg r Hin). unfold gap in Hg. lia.
Qed.

Lemma blocks_ok_drop_one rs r rs' : blocks_ok (rs ++ r :: rs') -> blocks_ok (rs ++ rs').
Proof. apply (blocks_ok_drop rs [r] rs'). Qed.

Lemma grown_holds s rs a b s' :
  settled (rcv_nxt_ s) rs -> grown (rcv_nxt_ s) rs a b s' ->
  exists rs', holds s' rs' /\ added rs a b (rcv_nxt_ s) rs' (rcv_nxt_ s') /\
    (length rs' <= S (length rs))%nat.
Proof.
  intros Hset [(fs & A & x & y & C & Hs & Hfs & Hok & Hsub & Hx & Hy & _ & Hc & Hn)].
  exists (A ++ (x, y) :: C). split.
  - split; [by exists fs|done|]. rewrite Hn. apply blocks_ok_mid in Hok as (HA & _ & Hxy & HAx & HCy & _).
    intros r Hr. destruct (Z.leb_spec x (rcv_nxt_ s)) as [Hle|Hgt].
    + intros Hr1. apply elem_of_app in Hr as [Hr|[->|Hr]%elem_of_cons]; [exfalso| |exfalso].
      * specialize (HAx r Hr). pose proof (blocks_ok_elem _ _ HA Hr).
        assert (r.2 = rcv_nxt_ s); [|lia]. apply Hset; [apply Hsub, elem_of_app; auto|lia].
      * done.
      * specialize (HCy r Hr). lia.
    + intros Hr1. apply elem_of_app in Hr as [Hr|[->|Hr]%elem_of_cons].
      * apply Hset; [apply Hsub, elem_of_app; auto|done].
      * cbn in Hr1. lia.
      * specialize (HCy r Hr). lia.
  - split; [split; [done|]; exists (x, y); split; [apply elem_of_app; right; left|]; by split|].
    apply blocks_ok_drop_one in Hok. apply blocks_ok_NoDup in Hok.
    rewrite length_app. cbn [length]. rewrite Nat.add_succ_r, <- Nat.succ_le_mono, <- length_app.
    apply submseteq_length, NoDup_submseteq; done.
Qed.

(** The first segment. *)
Lemma add_first fuel a b t rf s :
  holds s [] -> a < b -> exists s' rs', add fuel a b t rf s = Ok (t, s') /\ holds s' rs' /\
    added [] a b (rcv_nxt_ s) rs' (rcv_nxt_ s') /\ (length rs' <= 1)%nat.
Proof.
  intros [(fs & (ls & F & Hr & Hp & Ht) & Hfs) _ _] Hab. destruct fs; [|done].
  apply Permutation_nil_r in Hp as ->. unfold add. rewrite (proj2 (Z.ltb_ge _ _)) by lia.
  rewrite (rep_head _ _ _ _ Hr). cbn [fmap list_fmap head].
  assert (Htop : top_ s = None) by by apply (@deque_head _ _ lifo _ _ _ _ (rp_lifo _ _ _ _ Hr)).
  rewrite Htop. destruct (newseginfo_spec _ _ _ _ Hr) as (n & s1 & F' & v & -> & Hr1 & Hdt & Hv & Ho).
  cbn [rbind]. unfold upd. cbn [segs set_lifo set_fifo]. rewrite (store_Some _ _ _ _ Hv). cbn [rbind].
  injection Ho as _ Hn. cbn [rcv_nxt_ set_total set_segs set_free set_lifo set_fifo]. rewrite Hn.
  set (w := Seginfo _ _ _ _ _ _ _ _ _). set (B := <[n := w]> (segs s1)).
  assert (Hw : B !! n = Some w) by apply lookup_insert_eq.
  assert (Hsh : forall x, shape (Rq (freelist_ s1) (Some n) (Some n) (Some n) (Some n) (hint_ s1)
    (wrap_i32 (b - a)) x B) [(n, (a, b))]).
  { intros x. exists [n], F'. split; [|split; [done|cbn; f_equal; lia]].
    split; cbn [segs head_ tail_ top_ bottom_ freelist_].
    - split; [done|]. exists w. by split_and!.
    - split; [done|]. exists w. by split_and!.
    - apply seg_insert_notin; [apply Hdt|apply (rp_free _ _ _ _ Hr1)].
    - intros k Hk. assert (k <> n) by (intros ->; by apply Hdt). clear - H. set_solver.
    - intros k r [= -> ->]%list_elem_of_singleton. by exists w. }
  eexists _, [(a, b)]. split; [done|]. split.
  - split.
    + exists [(n, (a, b))]. split; [|done]. destruct (a <=? rcv_nxt_ s); apply Hsh.
    + apply blocks_ok_cons. split; [done|]. split; [apply blocks_ok_nil|]. by intros r Hr'%not_elem_of_nil.
    + intros r ->%list_elem_of_singleton. cbn [fst snd].
      destruct (Z.leb_spec a (rcv_nxt_ s)); cbn; lia.
  - split; [split|done].
    + intros z. rewrite cov_cons, cov_nil. cbn [fst snd]. tauto.
    + exists (a, b). split; [left|]. split; [by split|]. cbn [fst snd]. destruct (a <=? rcv_nxt_ s); [done|exact Hn].
Qed.

Lemma add_spec fuel a b t rf s rs :
  holds s rs -> a < b -> (length rs < fuel)%nat ->
  exists flags s' rs', add fuel a b t rf s = Ok (flags, s') /\ holds s' rs' /\
    added rs a b (rcv_nxt_ s) rs' (rcv_nxt_ s') /\ (length rs' <= S (length rs))%nat.
Proof.
  intros Hh Hab Hf. destruct rs as [|r rs].
  { destruct (add_first fuel a b t rf s Hh Hab) as (s' & rs' & H). by exists t, s', rs'. }
  destruct Hh as [(fs & Hs & Hfs) Hok Hset]. rewrite <- Hfs in *. rewrite length_fmap in Hf.
  assert (Hne : fs <> []) by (by intros ->).
  destruct (again2_spec fuel a b t rf 1 s fs Hs Hok Hab Hset Hne Hf) as (fl & s' & He & Hg).
  destruct (grown_holds _ _ _ _ _ Hset Hg) as (rs' & Hh' & Ha). rewrite length_fmap in Ha |- *.
  exists fl, s', rs'. split; [|done]. unfold add. rewrite (proj2 (Z.ltb_ge _ _)) by lia.
  rewrite (shape_head _ _ Hs). by destruct fs.
Qed.

(** ** [clearto] *)

Lemma clearto_loop_spec fuel seq flag s fs :
  shape s fs -> (length fs < fuel)%nat ->
  exists fs1 fs2 flag' s', fs = fs1 ++ fs2 /\
    clearto_loop fuel seq (head fs.*1) flag s = Ok (head fs2.*1, flag', s') /\
    shape s' fs2 /\ rcv_nxt_ s' = rcv_nxt_ s /\ (forall r, r ∈ fs1.*2 -> r.2 <= seq) /\
    (forall r, head fs2.*2 = Some r -> seq < r.2).
Proof.
  revert fs flag s. induction fuel as [|fuel IH]; intros fs flag s Hs Hf; [lia|]. cbn [clearto_loop].
  destruct fs as [|[l [x y]] fs].
  { exists [], [], flag, s. repeat (split; [done|]). split; [|done]. by intros r Hr%not_elem_of_nil. }
  cbn [fmap list_fmap fst head].
  destruct (shape_links s [] l x y fs Hs) as (v & -> & Hx & Hy & _ & Hn). cbn [rbind]. rewrite Hx, Hy.
  destruct (Z.leb_spec y seq) as [Hle|Hgt].
  - destruct (shape_kill s [] l x y fs Hs) as [_ (s1 & E1 & Hs1 & Hn1)].
    apply rbind_Ok_inv in E1 as (s2 & -> & E1). cbn [rbind].
    apply rbind_Ok_inv in E1 as (s3 & -> & E1). cbn [rbind]. rewrite E1. cbn [rbind]. rewrite Hn.
    cbn [length] in Hf. destruct (IH fs (Z.lor flag (pflags_ v)) s1 Hs1 ltac:(lia))
      as (fs1 & fs2 & flag' & s' & -> & He & Hs' & Hn' & H1 & H2).
    exists ((l, (x, y)) :: fs1), fs2, flag', s'. split; [done|]. split; [done|]. split; [done|].
    split; [congruence|]. split; [|done]. intros r [->|Hr]%elem_of_cons; [done|by apply H1].
  - exists [], ((l, (x, y)) :: fs), flag, s. repeat (split; [done|]).
    split; [by intros r Hr%not_elem_of_nil|]. by intros r [= <-].
Qed.

(** What is left after [clearto]. *)
Definition above (seq : Z) rs rs' : Prop := forall z, cov rs' z <-> cov rs z /\ seq <= z.

(** No block of [rs'] but what is left of one of [rs] cut on its left. *)
Definition trimmed rs rs' : Prop := forall r', r' ∈ rs' -> exists r, r ∈ rs /\ r.1 <= r'.1 /\ r.2 = r'.2.

Lemma settled_trimmed rn rs rs' : settled rn rs -> trimmed rs rs' -> settled rn rs'.
Proof. intros H Ht r' Hr' Hle. destruct (Ht r' Hr') as (r & Hr & H1 & <-). apply H; [done|lia]. Qed.

Lemma clearto_blocks fuel seq s fs :
  shape s fs -> blocks_ok fs.*2 -> (length fs < fuel)%nat ->
  exists flags s' fs', clearto fuel seq s = Ok (flags, s') /\ shape s' fs' /\ blocks_ok fs'.*2 /\
    trimmed fs.*2 fs'.*2 /\ above seq fs.*2 fs'.*2 /\ (length fs' <= length fs)%nat /\ rcv_nxt_ s' = rcv_nxt_ s.
Proof.
  intros Hs Hok Hf. unfold clearto. rewrite (shape_head _ _ Hs).
  destruct (clearto_loop_spec fuel seq 0 s fs Hs Hf)
    as (fs1 & fs2 & flag & s1 & -> & -> & Hs1 & Hn1 & H1 & H2). cbn [rbind].
  rewrite fmap_app in Hok |- *. apply blocks_ok_app in Hok as (_ & Hok & _).
  assert (Hlow : forall z, seq <= z -> ~ cov fs1.*2 z).
  { intros z Hz (r & Hr & Hc). specialize (H1 r Hr). lia. }
  destruct fs2 as [|[l [x y]] fs2].
  { exists flag, s1, []. do 3 (split; [done|]). split; [by intros r Hr%not_elem_of_nil|].
    split; [|cbn; split; [lia|done]].
    intros z. rewrite app_nil_r, cov_nil. split; [done|]. intros [Hc Hz]. by apply (Hlow z). }
  cbn [fmap list_fmap fst head].
  destruct (shape_load _ _ l x y Hs1) as (v & -> & Hvx & Hvy); [left|]. cbn [rbind]. rewrite Hvx, Hvy.
  specialize (H2 (x, y) eq_refl). cbn [snd] in H2.
  rewrite (proj2 (Z.ltb_lt seq y)) by lia. rewrite andb_true_r.
  cbn [fmap list_fmap snd] in *. apply blocks_ok_cons in Hok as (Hxy & Hok & Hgap). cbn [fst snd] in *.
  assert (Hup : above seq (fs1.*2 ++ (x, y) :: fs2.*2) ((Z.max x seq, y) :: fs2.*2)).
  { intros z. rewrite cov_app, !cov_cons. cbn [fst snd]. split.
    - intros [Hz|(r & Hr & Hz)]; [split; [right; left|]; lia|].
      specialize (Hgap r Hr). unfold gap in Hgap. cbn [snd] in Hgap.
      split; [right; right; by exists r|lia].
    - intros [[Hc|[Hc|Hc]] Hz]; [by destruct (Hlow z)|left; lia|by right]. }
  assert (Hok' : blocks_ok ((Z.max x seq, y) :: fs2.*2)) by (apply blocks_ok_cons; split; [cbn; lia|done]).
  assert (Htr : trimmed (fs1.*2 ++ (x, y) :: fs2.*2) ((Z.max x seq, y) :: fs2.*2)).
  { intros r' [->|Hr']%elem_of_cons.
    - exists (x, y). split; [apply elem_of_app; right; left|]. cbn. lia.
    - exists r'. split; [apply elem_of_app; right; by right|]. lia. }
  destruct (Z.leb_spec x seq) as [Hle|Hgt].
  - rewrite Z.max_r in * by lia.
    destruct (shape_upd s1 [] l x y seq y fs2 (set_start seq) (- (seq - x)) Hs1) as (s2 & -> & Hs2 & Hn2).
    { intros w Hwx Hwy. unfold range_of. cbn. by rewrite Hwy. }
    { lia. }
    cbn [rbind]. eexists _, s2, ((l, (seq, y)) :: fs2). do 5 (split; [done|]).
    rewrite length_app. cbn [length]. split; [lia|congruence].
  - rewrite Z.max_l in * by lia. exists flag, s1, ((l, (x, y)) :: fs2). do 5 (split; [done|]).
    rewrite length_app. cbn [length]. split; [lia|done].
Qed.

Lemma clearto_cut fuel seq s rs :
  holds s rs -> (length rs < fuel)%nat ->
  exists flags s' rs', clearto fuel seq s = Ok (flags, s') /\ holds s' rs' /\ above seq rs rs' /\
    (length rs' <= length rs)%nat /\ rcv_nxt_ s' = rcv_nxt_ s.
Proof.
  intros [(fs & Hs & <-) Hok Hset] Hf. rewrite length_fmap in Hf |- *.
  destruct (clearto_blocks fuel seq s fs Hs Hok Hf) as (fl & s' & fs' & -> & Hs' & Hok' & Ht & Ha & Hl & Hn).
  exists fl, s', fs'.*2. rewrite length_fmap. split; [done|]. split; [|done].
  split; [by exists fs'|done|]. rewrite Hn. by eapply settled_trimmed.
Qed.

(** ** [clear] and [init] *)

Lemma clear_loop_spec fuel s ls F :
  seg next_ (segs s) (head_ s) ls None -> seg next_ (segs s) (freelist_ s) F None ->
  (forall l, l ∈ ls -> l ∉ F) -> (length ls < fuel)%nat ->
  exists s' F', clear_loop fuel s = Ok s' /\ head_ s' = None /\ tail_ s' = tail_ s /\ top_ s' = top_ s /\
    bottom_ s' = bottom_ s /\ rcv_nxt_ s' = rcv_nxt_ s /\ seg next_ (segs s') (freelist_ s') F' None.
Proof.
  revert s ls F. induction fuel as [|fuel IH]; intros s ls F Hl Hfr Hd Hf; [lia|]. cbn [clear_loop].
  destruct ls as [|l ls].
  - cbn in Hl. rewrite Hl. by exists s, F.
  - pose proof (seg_NoDup _ _ _ _ Hl) as [Hn _]%NoDup_cons. destruct Hl as [-> (v & Hv & Hl)].
    rewrite (load_Some _ _ _ Hv). cbn [rbind]. unfold deleteseginfo. cbn [segs set_fifo freelist_].
    rewrite (store_Some _ _ _ _ Hv). cbn [rbind]. set (w := with_next _ v).
    assert (HlF : l ∉ F) by (apply Hd; left).
    destruct (IH (set_free (Some l) (<[l:=w]> (segs s)) (set_fifo (next_ v) (tail_ s) (segs s) s)) ls (l :: F))
      as (s' & F' & He & Hs'); cbn [segs head_ set_free set_fifo freelist_ length] in *.
    + by apply seg_insert_notin.
    + split; [done|]. exists w. split; [apply lookup_insert_eq|]. by apply seg_insert_notin.
    + intros k Hk [->|HkF]%elem_of_cons; [done|]. by apply (Hd k); [right|].
    + lia.
    + by exists s', F'.
Qed.

Lemma clear_spec fuel s fs :
  shape s fs -> (length fs < fuel)%nat ->
  exists s', clear fuel s = Ok s' /\ holds s' [] /\ rcv_nxt_ s' = rcv_nxt_ s.
Proof.
  intros (ls & F & Hr & _) Hf. unfold clear.
  destruct (clear_loop_spec fuel
    (Rq (freelist_ s) (head_ s) None None None None (total_ s) (rcv_nxt_ s) (segs s)) fs.*1 F)
    as (s' & F' & He & H1 & H2 & H3 & H4 & H5 & H6); cbn [segs head_ freelist_].
  - eapply dseg_seg, (rp_fifo _ _ _ _ Hr).
  - apply (rp_free _ _ _ _ Hr).
  - intros l Hl HlF. by destruct (rp_disj _ _ _ _ Hr l HlF).
  - by rewrite length_fmap.
  - rewrite He. cbn [rbind]. eexists. split; [done|]. split; [|done]. split.
    + exists []. split; [|done]. exists [], F'. split; [|done].
      split; cbn [segs head_ tail_ top_ bottom_ freelist_ set_total set_fifo].
      * by split.
      * by split.
      * exact H6.
      * intros l _. split; apply not_elem_of_nil.
      * by intros l r Hin%not_elem_of_nil.
    + apply blocks_ok_nil.
    + by intros r Hr'%not_elem_of_nil.
Qed.


(** ** The queue as a set of sequence numbers

    The reference: the set of numbers received and not yet cleared, and
    [rcv_nxt_]. *)

(** [[x, y)] is a maximal run of the set. *)
Definition is_run (P : Z -> Prop) (x y : Z) : Prop :=
  x < y /\ (forall z, x <= z < y -> P z) /\ ~ P (x - 1) /\ ~ P y.

Variant rq_call :=
  | RAdd (start end_ tiflags rqflags : Z)
  | RClearto (seq : Z)
  | RCleartonxt
  | RInit (rcvnxt : Z)
  | RClear.

Inductive ref_step : rq_call -> (Z -> Prop) * Z -> (Z -> Prop) * Z -> Prop :=
  | ref_add P P' a b t rf rn x y :
      (forall z, P' z <-> P z \/ a <= z < b) -> is_run P' x y -> x <= a -> b <= y ->
      ref_step (RAdd a b t rf) (P, rn) (P', if x <=? rn then y else rn)
  | ref_clearto P P' seq rn :
      (forall z, P' z <-> P z /\ seq <= z) -> ref_step (RClearto seq) (P, rn) (P', rn)
  | ref_cleartonxt P P' rn :
      (forall z, P' z <-> P z /\ rn <= z) -> ref_step RCleartonxt (P, rn) (P', rn)
  | ref_init P P' rn rcvnxt :
      (forall z, ~ P' z) -> ref_step (RInit rcvnxt) (P, rn) (P', rcvnxt)
  | ref_clear P P' rn :
      (forall z, ~ P' z) -> ref_step RClear (P, rn) (P', rn).

Inductive ref_run : list rq_call -> (Z -> Prop) * Z -> (Z -> Prop) * Z -> Prop :=
  | ref_done x : ref_run [] x x
  | ref_more c cs x y z : ref_step c x y -> ref_run cs y z -> ref_run (c :: cs) x z.

Definition rq_do (fuel : nat) (c : rq_call) (s : rq) : result rq :=
  match c with
  | RAdd a b t rf => let! '(_, s) := add fuel a b t rf s in Ok s
  | RClearto seq => let! '(_, s) := clearto fuel seq s in Ok s
  | RCleartonxt => let! '(_, s) := cleartonxt fuel s in Ok s
  | RInit rcvnxt => init fuel rcvnxt s
  | RClear => clear fuel s
  end.

Fixpoint rq_run (fuel : nat) (cs : list rq_call) (s : rq) : result rq :=
  match cs with
  | [] => Ok s
  | c :: cs => let! s := rq_do fuel c s in rq_run fuel cs s
  end.

(** [add] is only called with a segment that is not empty. *)
Definition call_ok (c : rq_call) : Prop :=
  match c with RAdd a b _ _ => a < b | _ => True end.

Lemma block_is_run rs x y : blocks_ok rs -> (x, y) ∈ rs -> is_run (cov rs) x y.
Proof.
  intros Hok Hin. pose proof (blocks_ok_elem _ _ Hok Hin) as Hxy. cbn [fst snd] in Hxy.
  split; [done|]. split; [intros z Hz; by exists (x, y)|].
  split; intros (r & Hr & Hz); destruct (blocks_ok_order _ _ _ Hok Hr Hin) as [->|[G|G]];
    unfold gap in *; cbn [fst snd] in *; lia.
Qed.

Lemma rq_do_ok fuel c s rs :
  holds s rs -> call_ok c -> (length rs < fuel)%nat ->
  exists s' rs', rq_do fuel c s = Ok s' /\ holds s' rs' /\ (length rs' <= S (length rs))%nat /\
    ref_step c (cov rs, rcv_nxt_ s) (cov rs', rcv_nxt_ s').
Proof.
  intros Hh Hc Hf. pose proof Hh as [(fs & Hs & Hfs) _ _].
  assert (Hlen : (length fs < fuel)%nat) by (rewrite <- Hfs, length_fmap in Hf; done).
  assert (Hnil : forall z, ~ cov [] z) by (intros z; rewrite cov_nil; tauto).
  destruct c as [a b t rf|seq| |rcvnxt|]; cbn [rq_do call_ok] in *.
  - destruct (add_spec fuel a b t rf s rs Hh Hc Hf) as (fl & s' & rs' & -> & Hh' & (Hcov & [x y] & Hin & Hw & Hn) & Hl).
    cbn [rbind fst snd] in *. exists s', rs'. split; [done|]. split; [done|]. split; [done|].
    rewrite Hn. apply ref_add; [done| |apply Hw|apply Hw]. apply block_is_run; [apply Hh'|done].
  - destruct (clearto_cut fuel seq s rs Hh Hf) as (fl & s' & rs' & -> & Hh' & Hab & Hl & Hn).
    cbn [rbind]. exists s', rs'. split; [done|]. split; [done|]. split; [lia|]. rewrite Hn. by constructor.
  - unfold cleartonxt.
    destruct (clearto_cut fuel (rcv_nxt_ s) s rs Hh Hf) as (fl & s' & rs' & -> & Hh' & Hab & Hl & Hn).
    cbn [rbind]. exists s', rs'. split; [done|]. split; [done|]. split; [lia|]. rewrite Hn. by constructor.
  - unfold init. destruct (clear_spec fuel (set_rcv_nxt rcvnxt s) fs) as (s' & -> & Hh' & Hn); [|done|].
    { destruct Hs as (ls & F & Hr & Hp & Ht). exists ls, F. by split; [apply set_rcv_rep|]. }
    exists s', []. split; [done|]. split; [done|]. split; [cbn; lia|]. rewrite Hn. by constructor.
  - destruct (clear_spec fuel s fs Hs Hlen) as (s' & -> & Hh' & Hn).
    exists s', []. split; [done|]. split; [done|]. split; [cbn; lia|]. rewrite Hn. by constructor.
Qed.

(** C21: (refinement) The queue, with its two linked lists, its free list and
    its in-place merges, implements a set of sequence numbers.  From any state
    that holds ordered, separate blocks, any sequence of calls with non-empty
    segments runs without a fault, follows the reference step by step ([add]
    adds exactly its segment's numbers and moves [rcv_nxt_] to the end of the
    run the segment ended up in if that run starts at or below it; [clearto]
    drops exactly the numbers below its argument; [clear] and [init] empty
    it), and leaves ordered, separate blocks again. *)
Theorem rq_refines_set fuel cs s rs
  (Hh : holds s rs) (Hcs : Forall call_ok cs) (Hf : (length rs + length cs < fuel)%nat) :
  exists s' rs', rq_run fuel cs s = Ok s' /\ holds s' rs' /\
    ref_run cs (cov rs, rcv_nxt_ s) (cov rs', rcv_nxt_ s').
Proof.
  revert s rs Hh Hf. induction Hcs as [|c cs Hc Hcs IH]; intros s rs Hh Hf.
  - exists s, rs. split; [done|]. split; [done|]. constructor.
  - cbn [length] in Hf. destruct (rq_do_ok fuel c s rs Hh Hc) as (s1 & rs1 & He & Hh1 & Hl & Hst); [lia|].
    cbn [rq_run]. rewrite He. cbn [rbind].
    destruct (IH s1 rs1 Hh1) as (s' & rs' & Hr & Hh' & Href); [lia|].
    exists s', rs'. split; [done|]. split; [done|]. by eapply ref_more.
Qed.

Lemma holds_empty rn : holds (empty_rq rn) [].
Proof.
  split; [|apply blocks_ok_nil|by intros r Hr%not_elem_of_nil].
  exists []. split; [|done]. exists [], []. split; [|done]. split.
  - by split.
  - by split.
  - done.
  - intros l _. split; apply not_elem_of_nil.
  - by intros l r Hin%not_elem_of_nil.
Qed.

(** Three segments, the last one joining the first two and overlapping both. *)
Definition sample_calls : list rq_call :=
  [RAdd 10 12 1 0; RAdd 20 24 0 0; RAdd 11 21 0 0; RClearto 15].

Lemma rq_refines_set_witness :
  Forall call_ok sample_calls /\
  exists s' rs', rq_run 8 sample_calls (empty_rq 10) = Ok s' /\ holds s' rs' /\
    ref_run sample_calls (cov [], 10) (cov rs', rcv_nxt_ s').
Proof.
  assert (H : Forall call_ok sample_calls) by (repeat constructor).
  split; [exact H|]. apply (rq_refines_set 8 sample_calls (empty_rq 10) [] (holds_empty 10) H). cbn. lia.
Defined.

(** ** What the receiver reads *)

(** [n] integers from [x], and the numbers of the blocks, in order. *)
Definition span (x : Z) (n : nat) : list Z := (fun i => x + Z.of_nat i) <$> seq 0 n.
Definition members (rs : list block) : list Z := rs ≫= (fun r => span r.1 (Z.to_nat (r.2 - r.1))).

Lemma elem_span x n z : z ∈ span x n <-> x <= z < x + Z.of_nat n.
Proof.
  unfold span. rewrite list_elem_of_fmap. setoid_rewrite elem_of_seq. split.
  - intros (i & -> & Hi). lia.
  - intros Hz. exists (Z.to_nat (z - x)). lia.
Qed.

Lemma length_span x n : length (span x n) = n.
Proof. unfold span. by rewrite length_fmap, length_seq. Qed.

Lemma NoDup_span x n : NoDup (span x n).
Proof.
  apply NoDup_fmap_2; [|apply NoDup_seq]. intros i j Hij. lia.
Qed.

Lemma elem_members rs z : z ∈ members rs <-> cov rs z.
Proof.
  unfold members, cov. rewrite list_elem_of_bind. setoid_rewrite elem_span. split.
  - intros (r & Hz & Hr). exists r. split; [done|]. lia.
  - intros (r & Hr & Hz). exists r. split; [lia|done].
Qed.

Lemma NoDup_members rs : blocks_ok rs -> NoDup (members rs).
Proof.
  induction rs as [|r rs IH]; [constructor|]. rewrite blocks_ok_cons. intros (Hr & Hok & Hg).
  cbn [members mbind list_bind]. apply NoDup_app. split; [apply NoDup_span|]. split; [|by apply IH].
  intros z Hz%elem_span Hz'. apply (elem_members rs z) in Hz' as (r' & Hr' & Hz').
  specialize (Hg r' Hr'). unfold gap in Hg. lia.
Qed.

Lemma length_members rs : blocks_ok rs -> Z.of_nat (length (members rs)) = sumlen rs.
Proof.
  induction rs as [|r rs IH]; [done|]. rewrite blocks_ok_cons. intros (Hr & Hok & _).
  cbn [members mbind list_bind]. rewrite length_app, Nat2Z.inj_add, sumlen_cons.
  fold (members rs). rewrite <- (IH Hok), length_span. lia.
Qed.

(** [total_] is the number of sequence numbers in the queue, and
    [minseq] and [maxseq] are the least of them and the one after the
    greatest (or both -1): every number held is between the two. *)
Theorem rq_counts_its_bytes s rs (Hh : holds s rs) :
  exists zs lo hi, NoDup zs /\ (forall z, z ∈ zs <-> cov rs z) /\
    total_ s = wrap_i32 (Z.of_nat (length zs)) /\ minseq s = Ok lo /\ maxseq s = Ok hi /\
    match rs with
    | [] => lo = -1 /\ hi = -1
    | _ => cov rs lo /\ cov rs (hi - 1) /\ forall z, cov rs z -> lo <= z < hi
    end.
Proof.
  pose proof (holds_total _ _ Hh) as Ht. destruct Hh as [(fs & Hs & Hfs) Hok _].
  assert (Hlo : exists lo, minseq s = Ok lo /\ match rs with [] => lo = -1 | r :: _ => lo = r.1 end).
  { unfold minseq. rewrite (shape_head _ _ Hs). subst rs. destruct fs as [|[l [x y]] fs]; [by eexists|].
    cbn [fmap list_fmap fst head]. destruct (shape_load _ _ l x y Hs) as (v & -> & <- & _); [left|].
    by eexists. }
  assert (Hhi : exists hi, maxseq s = Ok hi /\ match last rs with None => hi = -1 | Some r => hi = r.2 end).
  { unfold maxseq. rewrite (shape_tail _ _ Hs). subst rs.
    destruct fs as [|[l [x y]] fs _] using rev_ind; [by eexists|]. rewrite last_fst, fmap_app.
    cbn [fmap list_fmap snd]. rewrite last_snoc.
    destruct (shape_load _ _ l x y Hs) as (v & -> & _ & <-); [apply elem_of_app; right; left|].
    by eexists. }
  destruct Hlo as (lo & H1 & Hlo), Hhi as (hi & H2 & Hhi).
  exists (members rs), lo, hi. split; [by apply NoDup_members|]. split; [apply elem_members|].
  split; [by rewrite length_members|]. split; [done|]. split; [done|]. clear Ht Hs Hfs H1 H2.
  destruct rs as [|r rs]; [by split|]. subst lo.
  destruct (last (r :: rs)) as [[x y]|] eqn:El; [|by apply last_None in El]. subst hi. cbn [snd].
  assert (Hin : (x, y) ∈ r :: rs) by by apply last_Some_elem_of.
  apply last_Some in El as (rs0 & E).
  pose proof (blocks_ok_elem _ _ Hok Hin) as Hxy. pose proof (blocks_ok_elem _ r Hok ltac:(left)) as Hr.
  cbn [fst snd] in Hxy. split; [exists r; split; [left|lia]|]. split; [exists (x, y); split; [done|cbn; lia]|].
  intros z (r' & Hr' & Hz).
  assert (Hlow : r.1 <= r'.1).
  { apply blocks_ok_cons in Hok as (_ & _ & Hg). apply elem_of_cons in Hr' as [->|Hr']; [lia|].
    specialize (Hg r' Hr'). unfold gap in Hg. lia. }
  assert (Hhigh : r'.2 <= y); [|lia]. rewrite E in Hok, Hr'.
  apply blocks_ok_mid in Hok as (_ & _ & _ & Hx & _).
  apply elem_of_app in Hr' as [Hr'| ->%list_elem_of_singleton]; [specialize (Hx r' Hr'); lia|cbn; lia].
Qed.

(** One segment in the queue. *)
Definition one_segment : rq :=
  Rq None (Some 1%positive) (Some 1%positive) (Some 1%positive) (Some 1%positive) None 5 0
    {[ 1%positive := Seginfo None None None None 10 15 0 0 1 ]}.

Lemma one_segment_holds : holds one_segment [(10, 15)].
Proof.
  split.
  - exists [(1%positive, (10, 15))]. split; [|done]. exists [1%positive], []. split; [|done]. split.
    + split; [done|]. eexists. split; [apply lookup_insert_eq|]. by split.
    + split; [done|]. eexists. split; [apply lookup_insert_eq|]. by split.
    + done.
    + by intros l Hl%not_elem_of_nil.
    + intros l r [= -> ->]%list_elem_of_singleton. by eexists.
  - apply blocks_ok_cons. split; [cbn; lia|]. split; [apply blocks_ok_nil|]. by intros r Hr%not_elem_of_nil.
  - intros r ->%list_elem_of_singleton. cbn. lia.
Qed.

Lemma rq_counts_its_bytes_witness :
  exists zs lo hi, NoDup zs /\ (forall z, z ∈ zs <-> cov [(10, 15)] z) /\
    total_ one_segment = wrap_i32 (Z.of_nat (length zs)) /\ minseq one_segment = Ok lo /\
    maxseq one_segment = Ok hi /\
    (cov [(10, 15)] lo /\ cov [(10, 15)] (hi - 1) /\ forall z, cov [(10, 15)] z -> lo <= z < hi).
Proof. apply (rq_counts_its_bytes one_segment [(10, 15)] one_segment_holds). Defined.

(** [gensack] reads the LIFO. *)
Lemma gensack_loop_spec n B p ls (rg : positive -> block) :
  seg snext_ B p ls None -> (forall l v, l ∈ ls -> B !! l = Some v -> range_of v = rg l) ->
  gensack_loop n p B = Ok (take n (rg <$> ls)).
Proof.
  revert p ls. induction n as [|n IH]; intros p ls Hs Hrg; [done|]. cbn [gensack_loop].
  destruct ls as [|l ls].
  - cbn in Hs. by rewrite Hs.
  - destruct Hs as [-> (v & Hv & Hs)]. rewrite (load_Some _ _ _ Hv). cbn [rbind].
    rewrite (IH _ _ Hs) by (intros k w Hk; apply Hrg; by right). cbn [rbind fmap list_fmap take].
    rewrite <- (Hrg l v ltac:(left) Hv). done.
Qed.

(** [gensack] reports the blocks of the queue, each once, as
    many as fit: the first [maxsblock] blocks of some order of all of them. *)
Theorem gensack_reports_blocks n s rs (Hh : holds s rs) :
  exists rs', rs' ≡ₚ rs /\ gensack n s = Ok (take n rs').
Proof.
  destruct Hh as [(fs & (ls & F & Hr & Hp & _) & <-) _ _].
  pose proof (rep_NoDup _ _ _ _ Hr) as Hnd.
  set (rg := fun l => default (0, 0) (range_of <$> segs s !! l)).
  exists (rg <$> ls). split.
  - transitivity (rg <$> fs.*1); [by apply fmap_Permutation|]. apply Permutation_refl'.
    change (@fmap list _ _ _ rg fs.*1 = fs.*2). rewrite <- list_fmap_compose. apply list_fmap_ext.
    intros i [l r] Hi%list_elem_of_lookup_2. cbn. destruct (rp_range _ _ _ _ Hr l r Hi) as (v & Hv & <-).
    unfold rg. by rewrite Hv.
  - unfold gensack. apply gensack_loop_spec.
    + eapply dseg_seg, (rp_lifo _ _ _ _ Hr).
    + intros l v _ Hv. unfold rg. by rewrite Hv.
Qed.

Lemma gensack_reports_blocks_witness :
  exists rs', rs' ≡ₚ [(10, 15)] /\ gensack 3 one_segment = Ok (take 3 rs').
Proof. apply (gensack_reports_blocks 3 one_segment [(10, 15)] one_segment_holds). Defined.

(** A block that grows stays where it is on the LIFO: the segment
    [[12, 14)] arrived last, and the first block reported does not hold it. *)
Lemma sack_first_block_stale :
  (let! s := rq_run 8 [RAdd 10 12 0 0; RAdd 20 22 0 0; RAdd 12 14 0 0] (empty_rq 0) in gensack 1 s)
    = Ok [(20, 22)].
Proof. vm_compute. reflexivity. Qed.

(** A late segment below [rcv_nxt_] moves it back. *)
Lemma rcv_nxt_moves_back :
  (let! s := rq_run 8 [RAdd 5 10 0 0; RAdd 1 3 0 0] (empty_rq 5) in Ok (rcv_nxt_ s)) = Ok 3.
Proof. vm_compute. reflexivity. Qed.
