(* ===== verification/FloatInt.v ===== *)
(** * Integers held in doubles

    Below 2^53 a non-negative integer is a double exactly, comparing two such
    doubles compares the integers, and adding them adds the integers when the
    sum is below 2^53 too: no rounding takes place.  So it is for integers of
    either sign, their products, sums and differences, and the quotient of
    two, rounded, has the integer quotient as its integral part.  Costs of links are read
    as doubles and are small integers in every script the route computation
    is meant for, so the search is exact on them. *)

From stdpp Require Import base numbers list.
From Stdlib Require Import ZArith Lia ZifyBool SpecFloat.
From S2P Require Import Prelude.
From S2P Require Import Float64.

Local Open Scope Z_scope.

(** ** Rounding an exact value *)

Lemma iter_shr_exact n m :
  iter_pos shr_1 n (Build_shr_record (m * 2 ^ Zpos n) false false)
  = Build_shr_record m false false.
Proof.
  assert (H1 : forall k, shr_1 (Build_shr_record (k * 2) false false)
                         = Build_shr_record k false false).
  { intros [|p|p]; [done|by replace (Zpos p * 2) with (Zpos p~0) by lia
                    |by replace (Zneg p * 2) with (Zneg p~0) by lia]. }
  revert m. induction n as [n IH|n IH|]; intros m; cbn [iter_pos].
  - replace (m * 2 ^ Zpos n~1) with (m * 2 ^ Zpos n * 2 ^ Zpos n * 2).
    + by rewrite H1, !IH.
    + rewrite (Pos2Z.inj_xI n), Z.pow_add_r, Z.pow_twice_r, Z.pow_1_r by lia. lia.
  - replace (m * 2 ^ Zpos n~0) with (m * 2 ^ Zpos n * 2 ^ Zpos n).
    + by rewrite !IH.
    + rewrite (Pos2Z.inj_xO n), Z.pow_twice_r. lia.
  - rewrite Z.pow_1_r. apply H1.
Qed.

(** Shifting down to the exponent of the format loses nothing when the low
    digits are zero. *)
Lemma shr_fexp_exact m e :
  1 <= m -> e <= fx (lead m e) -> (2 ^ (fx (lead m e) - e) | m) ->
  shr_fexp prec64 emax64 m e loc_Exact
  = (Build_shr_record (m / 2 ^ (fx (lead m e) - e)) false false, fx (lead m e)).
Proof.
  intros Hm He [q Hq]. unfold shr_fexp. rewrite Zdigits2_lead by done.
  change (fexp prec64 emax64 (lead m e)) with (fx (lead m e)).
  remember (fx (lead m e) - e) as d eqn:Hd. cbn [shr_record_of_loc]. unfold shr.
  assert (Hp : 0 < 2 ^ d) by (apply Z.pow_pos_nonneg; lia).
  assert (E : m / 2 ^ d = q) by (rewrite Hq; apply Z.div_mul; lia). rewrite E.
  destruct d as [|d|d]; [| |lia].
  - rewrite Z.pow_0_r in Hq. f_equal; [f_equal; lia|lia].
  - f_equal; [rewrite Hq; apply iter_shr_exact|lia].
Qed.

(** The mantissa and the exponent of [z]. *)
Definition int_mant (z : Z) : positive := Z.to_pos (z * 2 ^ (52 - Z.log2 z)).
Definition int_exp (z : Z) : Z := Z.log2 z - 52.

Definition small_int (z : Z) : Prop := 1 <= z < 2 ^ 53.

Lemma small_log2 z : small_int z -> 0 <= Z.log2 z <= 52.
Proof.
  intros [H1 H2]. split; [apply Z.log2_nonneg|].
  assert (Z.log2 z < 53); [apply Z.log2_lt_pow2; lia|lia].
Qed.

Lemma int_mant_Z z : small_int z -> Zpos (int_mant z) = z * 2 ^ (52 - Z.log2 z).
Proof.
  intros Hz. pose proof (small_log2 z Hz). unfold int_mant. apply Z2Pos.id.
  apply Z.mul_pos_pos; [destruct Hz; lia|apply Z.pow_pos_nonneg; lia].
Qed.

Lemma int_lead z : small_int z -> lead (Zpos (int_mant z)) (int_exp z) = Z.log2 z + 1.
Proof.
  intros Hz. pose proof (small_log2 z Hz). rewrite int_mant_Z by done. unfold lead, int_exp.
  rewrite Z.log2_mul_pow2 by (unfold small_int in Hz; lia). lia.
Qed.

Lemma int_fx z : small_int z -> fx (Z.log2 z + 1) = int_exp z.
Proof. intros Hz. pose proof (small_log2 z Hz). rewrite fx_max. unfold int_exp. lia. Qed.

(** Rounding the canonical mantissa, or one with more low zeros, keeps it. *)
Lemma round_aux_exact z e :
  small_int z -> e <= int_exp z ->
  binary_round_aux prec64 emax64 false (z * 2 ^ (- e)) e loc_Exact
  = S754_finite false (int_mant z) (int_exp z).
Proof.
  intros Hz He. pose proof (small_log2 z Hz) as Hl.
  assert (Hpos : 0 < 2 ^ (- e)) by (apply Z.pow_pos_nonneg; unfold int_exp in He; lia).
  assert (HL : lead (z * 2 ^ (- e)) e = Z.log2 z + 1).
  { unfold lead, int_exp in *. rewrite Z.log2_mul_pow2 by (unfold small_int in Hz; lia). lia. }
  assert (Hsplit : z * 2 ^ (- e) = Zpos (int_mant z) * 2 ^ (int_exp z - e)).
  { rewrite int_mant_Z, <- Z.mul_assoc, <- Z.pow_add_r by (done || unfold int_exp in *; lia).
    do 2 f_equal. unfold int_exp. lia. }
  unfold binary_round_aux.
  rewrite shr_fexp_exact; rewrite ?HL, ?int_fx by done;
    [|unfold small_int in Hz; nia|done|exists (Zpos (int_mant z)); done].
  cbn [shr_m loc_of_shr_record round_nearest_even].
  assert (Hp2 : 0 < 2 ^ (int_exp z - e)) by (apply Z.pow_pos_nonneg; lia).
  rewrite Hsplit, Z.div_mul by lia.
  rewrite shr_fexp_exact; rewrite ?int_lead, ?int_fx by done;
    [|lia|done|rewrite Z.sub_diag; apply Z.divide_1_l].
  rewrite Z.sub_diag, Z.pow_0_r, Z.div_1_r. cbn [shr_m].
  destruct (Z.leb_spec (int_exp z) (emax64 - prec64)) as [|Hbig]; [done|].
  unfold int_exp, emax64, prec64 in Hbig. lia.
Qed.

Lemma round_exact (S : positive) ez z :
  small_int z -> ez <= 0 -> Zpos S = z * 2 ^ (- ez) ->
  binary_round prec64 emax64 false S ez = S754_finite false (int_mant z) (int_exp z).
Proof.
  intros Hz Hez HS. pose proof (small_log2 z Hz) as Hl.
  assert (HL : lead (Zpos S) ez = Z.log2 z + 1).
  { unfold lead. rewrite HS, Z.log2_mul_pow2 by (unfold small_int in Hz; lia). lia. }
  unfold binary_round. rewrite digits_log2.
  change (fexp prec64 emax64 (Z.log2 (Zpos S) + 1 + ez)) with (fx (lead (Zpos S) ez)).
  rewrite HL, int_fx by done.
  destruct (shl_align S ez (int_exp z)) as [m1 e1] eqn:Ea.
  apply shl_align_spec in Ea as [He1 Hm1];
    [|unfold shl_align in Ea; destruct (int_exp z - ez) eqn:?; simplify_eq; lia].
  rewrite Hm1, HS, <- Z.mul_assoc, <- Z.pow_add_r by lia.
  replace (- ez + (ez - e1)) with (- e1) by lia.
  apply round_aux_exact; [done|lia].
Qed.

(** ** Conversion, sum and order *)

Lemma f64_of_small z :
  small_int z -> f64_of_Z z = S754_finite false (int_mant z) (int_exp z).
Proof.
  intros Hz. unfold f64_of_Z. destruct z as [|p|p]; [by destruct Hz| |by destruct Hz].
  cbn [binary_normalize]. apply round_exact; [done|lia|]. simpl. lia.
Qed.

Lemma f64_add_small x y :
  small_int x -> small_int y -> x + y < 2 ^ 53 ->
  fadd (f64_of_Z x) (f64_of_Z y) = f64_of_Z (x + y).
Proof.
  intros Hx Hy Hxy. assert (Hz : small_int (x + y)) by (unfold small_int in *; lia).
  pose proof (small_log2 x Hx) as Lx. pose proof (small_log2 y Hy) as Ly.
  rewrite (f64_of_small (x + y)) by done. rewrite !f64_of_small by done.
  unfold fadd, SFadd. set (ez := Z.min (int_exp x) (int_exp y)).
  assert (Al : forall z, small_int z -> ez <= int_exp z ->
    Zpos (fst (shl_align (int_mant z) (int_exp z) ez)) = z * 2 ^ (- ez)).
  { intros z Sz Hle. pose proof (small_log2 z Sz).
    destruct (shl_align (int_mant z) (int_exp z) ez) as [m1 e1] eqn:Ea. simpl.
    apply shl_align_spec in Ea as [-> ->];
      [|unfold shl_align in Ea; destruct (ez - int_exp z) eqn:?; simplify_eq; lia].
    rewrite int_mant_Z, <- Z.mul_assoc, <- Z.pow_add_r by (done || lia).
    do 2 f_equal. unfold int_exp in *. lia. }
  cbn [cond_Zopp].
  change (Zpos ?a + Zpos ?b) with (Zpos (a + b)). cbn [binary_normalize].
  apply round_exact; [done|unfold ez, int_exp; lia|].
  rewrite Pos2Z.inj_add, !Al by (done || unfold ez; lia). lia.
Qed.

(** An [int] as it is read in an expression of type [double]. *)
Definition nat_int (z : Z) : Prop := 0 <= z < 2 ^ 53.

Lemma nat_int_cases z : nat_int z -> z = 0 \/ small_int z.
Proof. unfold nat_int, small_int. lia. Qed.

Lemma fadd_Z x y :
  nat_int x -> nat_int y -> nat_int (x + y) -> fadd (f64_of_Z x) (f64_of_Z y) = f64_of_Z (x + y).
Proof.
  intros Hx Hy Hxy.
  destruct (nat_int_cases x Hx) as [->|Sx]; destruct (nat_int_cases y Hy) as [->|Sy].
  - done.
  - rewrite Z.add_0_l, (f64_of_small y) by done. done.
  - rewrite Z.add_0_r, (f64_of_small x) by done. done.
  - apply f64_add_small; [done..|apply Hxy].
Qed.

Lemma flt_small x y : small_int x -> small_int y -> flt (f64_of_Z x) (f64_of_Z y) = (x <? y).
Proof.
  intros Hx Hy. apply eq_true_iff_eq. rewrite Z.ltb_lt.
  rewrite flt_rank, !f64_of_small by done.
  pose proof (small_log2 x Hx) as Lx. pose proof (small_log2 y Hy) as Ly.
  split.
  - intros (_ & _ & H). cbn [rank lt3] in H.
    assert (H' : int_exp x < int_exp y \/
      int_exp x = int_exp y /\ Zpos (int_mant x) < Zpos (int_mant y)) by lia.
    destruct H' as [H'|[H' Hm]]; unfold int_exp in H'.
    + destruct (Z.le_gt_cases y x) as [Hle|]; [|done]. apply Z.log2_le_mono in Hle. lia.
    + rewrite !int_mant_Z in Hm by done.
      replace (Z.log2 y) with (Z.log2 x) in Hm by lia.
      apply Z.mul_lt_mono_pos_r in Hm; [done|apply Z.pow_pos_nonneg; lia].
  - intros Hlt. split_and!; [done..|]. cbn [rank lt3].
    pose proof (Z.log2_le_mono x y ltac:(lia)).
    destruct (decide (Z.log2 x = Z.log2 y)) as [E|].
    + assert (Zpos (int_mant x) < Zpos (int_mant y)).
      { rewrite !int_mant_Z, E by done. apply Z.mul_lt_mono_pos_r; [|done].
        apply Z.pow_pos_nonneg; lia. }
      unfold int_exp. lia.
    + unfold int_exp. lia.
Qed.

Lemma flt_Z x y : nat_int x -> nat_int y -> flt (f64_of_Z x) (f64_of_Z y) = (x <? y).
Proof.
  intros Hx Hy.
  destruct (nat_int_cases x Hx) as [->|Sx]; destruct (nat_int_cases y Hy) as [->|Sy].
  - done.
  - rewrite (f64_of_small y) by done. symmetry. apply Z.ltb_lt. destruct Sy. lia.
  - rewrite (f64_of_small x) by done. symmetry. apply Z.ltb_ge. unfold small_int in Sx. lia.
  - by apply flt_small.
Qed.

Lemma feq_flt x y :
  is_nan x = false -> is_nan y = false -> feq x y = negb (flt x y) && negb (flt y x).
Proof.
  intros Hx Hy. apply eq_true_iff_eq. rewrite andb_true_iff, !negb_true_iff. split.
  - intros He. split; apply fle_not_lt; apply feq_le; [by apply feq_sym|done].
  - intros [H1 H2]. apply fle_antisym; apply flt_false_le; done.
Qed.

Lemma f64_of_Z_num z : nat_int z -> is_nan (f64_of_Z z) = false.
Proof. intros Hz. destruct (nat_int_cases z Hz) as [->|Sz]; [done|]. by rewrite f64_of_small. Qed.

Lemma feq_Z x y : nat_int x -> nat_int y -> feq (f64_of_Z x) (f64_of_Z y) = (x =? y).
Proof. intros. rewrite feq_flt, !flt_Z by (done || by apply f64_of_Z_num). lia. Qed.

(** ** Signed integers *)

(** Exact as a double, of either sign. *)
Definition exact_int (z : Z) : Prop := - 2 ^ 53 < z < 2 ^ 53.

Definition is_neg (z : Z) : bool := z <? 0.

(** ** Rounding *)

Lemma iter_pos_comm {A} (f : A -> A) n x : iter_pos f n (f x) = f (iter_pos f n x).
Proof. revert x. induction n as [n IH|n IH|]; intros x; cbn [iter_pos]; by rewrite ?IH. Qed.

Lemma iter_pos_succ {A} (f : A -> A) n x : iter_pos f (Pos.succ n) x = f (iter_pos f n x).
Proof.
  revert x. induction n as [n IH|n IH|]; intros x; simpl; [|by rewrite !iter_pos_comm|done].
  by rewrite !IH, !iter_pos_comm.
Qed.

(** The digit that the last of [n] shifts drops. *)
Lemma iter_shr_r n mrs :
  0 <= shr_m mrs -> shr_r (iter_pos shr_1 n mrs) = true ->
  2 ^ Zpos n <= 2 * (shr_m mrs mod 2 ^ Zpos n).
Proof.
  intros Hm. set (m := shr_m mrs) in *.
  assert (Hodd : forall x, 0 <= shr_m x -> shr_r (shr_1 x) = Z.odd (shr_m x)).
  { intros [[|[q|q|]|q] r s] Hx; cbn in *; try done; lia. }
  assert (Hdiv : forall k, 0 <= k -> Z.odd (m / 2 ^ k) = true -> 2 ^ (k + 1) <= 2 * (m mod 2 ^ (k + 1))).
  { intros k Hk [j Hj]%Z.odd_spec. assert (0 < 2 ^ k) by (apply Z.pow_pos_nonneg; lia).
    pose proof (Z.div_mod m (2 ^ k) ltac:(lia)) as E. pose proof (Z.mod_pos_bound m (2 ^ k) ltac:(lia)).
    rewrite Z.pow_add_r by lia. rewrite Hj in E. change (2 ^ 1) with 2.
    replace (m mod (2 ^ k * 2)) with (2 ^ k + m mod 2 ^ k); [lia|].
    apply Z.mod_unique with j; [left; lia|lia]. }
  destruct (Pos.eq_dec n 1) as [->|Hn].
  - cbn [iter_pos]. rewrite Hodd by done. intros Ho. apply (Hdiv 0); [lia|]. by rewrite Z.pow_0_r, Z.div_1_r.
  - assert (E : n = Pos.succ (Pos.pred n)) by lia. rewrite E at 1. rewrite iter_pos_succ.
    assert (0 <= m / 2 ^ Zpos (Pos.pred n)) by (apply Z.div_pos; lia).
    rewrite Hodd, iter_shr_m by (rewrite ?iter_shr_m; done). fold m. intros Ho.
    replace (Zpos n) with (Zpos (Pos.pred n) + 1) by lia. apply Hdiv; [lia|done].
Qed.

Lemma shr_fexp_loc m e l mrs e' :
  0 <= m -> shr_fexp prec64 emax64 m e l = (mrs, e') ->
  (loc_of_shr_record mrs = loc_Inexact Eq \/ loc_of_shr_record mrs = loc_Inexact Gt) ->
  if decide (e = e') then l = loc_Inexact Eq \/ l = loc_Inexact Gt
  else 2 ^ (e' - e) <= 2 * (m mod 2 ^ (e' - e)).
Proof.
  intros Hm. unfold shr_fexp, shr. fold (fx (Zdigits2 m + e)).
  assert (Hl : loc_of_shr_record (shr_record_of_loc m l) = l) by (by destruct l as [|[]]).
  assert (Hmm : shr_m (shr_record_of_loc m l) = m) by (by destruct l as [|[]]).
  destruct (fx (Zdigits2 m + e) - e) as [|n|n]; intros [= <- <-] Hloc.
  - rewrite decide_True by done. by rewrite Hl in Hloc.
  - rewrite decide_False by lia. replace (e + Zpos n - e) with (Zpos n) by lia.
    rewrite <- Hmm. apply (iter_shr_r n (shr_record_of_loc m l)); [by rewrite Hmm|].
    destruct (iter_pos shr_1 n _) as [x [] []]; cbn in *; by destruct Hloc.
  - rewrite decide_True by done. by rewrite Hl in Hloc.
Qed.

Lemma log2_up q : 1 <= q -> Z.log2 (q + 1) = Z.log2 q \/
  Z.log2 (q + 1) = Z.log2 q + 1 /\ q + 1 = 2 ^ (Z.log2 q + 1).
Proof.
  intros Hq. pose proof (Z.log2_spec q ltac:(lia)) as [H1 H2].
  pose proof (Z.log2_spec (q + 1) ltac:(lia)) as [H3 H4]. pose proof (Z.log2_le_mono q (q + 1) ltac:(lia)).
  pose proof (Z.log2_nonneg q).
  destruct (Z.eq_dec (q + 1) (2 ^ Z.succ (Z.log2 q))) as [E|Hne].
  - right. rewrite E. rewrite Z.log2_pow2 by lia. split; [lia|f_equal; lia].
  - left. assert (Z.log2 (q + 1) < Z.succ (Z.log2 q)); [apply Z.log2_lt_pow2; lia|lia].
Qed.

(** Shifting the rounded mantissa to its place drops no digit. *)
Lemma round_again m E mrs e2 q :
  1 <= q -> fx (lead q E) = E -> m = q \/ m = q + 1 ->
  shr_fexp prec64 emax64 m E loc_Exact = (mrs, e2) ->
  E <= e2 <= E + 1 /\ 1 <= shr_m mrs /\ shr_m mrs * 2 ^ (e2 - E) = m /\
  fx (lead (shr_m mrs) e2) = e2.
Proof.
  intros Hq HE Hm Hs. apply shr_fexp_spec in Hs as [He2 Hr]; [|lia].
  rewrite Zdigits2_lead in He2 by lia.
  assert (Hsame : Z.log2 m = Z.log2 q -> E <= e2 <= E + 1 /\ 1 <= shr_m mrs /\
    shr_m mrs * 2 ^ (e2 - E) = m /\ fx (lead (shr_m mrs) e2) = e2).
  { intros El. assert (lead m E = lead q E) as EL by (unfold lead; lia). rewrite EL, HE in He2.
    rewrite Z.max_id in He2. subst e2. rewrite Z.sub_diag, Z.pow_0_r, Z.div_1_r in Hr.
    rewrite Hr, Z.sub_diag, Z.pow_0_r, EL. split_and!; lia. }
  destruct Hm as [-> | ->]; [by apply Hsame|].
  destruct (log2_up q Hq) as [El|[El Ep]]; [by apply Hsame|].
  assert (EL : lead (q + 1) E = lead q E + 1) by (unfold lead; lia). rewrite EL in He2.
  pose proof (Z.log2_nonneg q). rewrite fx_max in *.
  assert (Hc : e2 = E \/ e2 = E + 1) by lia. destruct Hc as [->| ->].
  - rewrite Z.sub_diag, Z.pow_0_r, Z.div_1_r in Hr. rewrite Hr, Z.sub_diag, Z.pow_0_r. split_and!; lia.
  - replace (E + 1 - E) with 1 in * by lia. change (2 ^ 1) with 2 in *.
    rewrite Z.pow_add_r in Ep by lia. change (2 ^ 1) with 2 in Ep. rewrite Ep, Z.div_mul in Hr by lia.
    pose proof (Z.pow_pos_nonneg 2 (Z.log2 q) ltac:(lia) ltac:(lia)).
    rewrite Hr. split_and!; try lia. unfold lead. rewrite Z.log2_pow2 by lia. unfold lead in *. lia.
Qed.

(** One rounding: the mantissa [m'] at the exponent of the format is the
    truncated one, or the next when the last digit dropped says so. *)
Lemma round_aux_bounds sx m e l :
  1 <= m -> e <= fx (lead m e) -> -1074 < lead m e -> lead m e < 1000 ->
  exists m2 e2 m', let E := fx (lead m e) in
    binary_round_aux prec64 emax64 sx m e l = S754_finite sx m2 e2 /\
    fx (lead (Zpos m2) e2) = e2 /\ e2 <= emax64 - prec64 /\
    E <= e2 /\ Zpos m2 * 2 ^ (e2 - E) = m' /\
    (m' = m / 2 ^ (E - e) \/ m' = m / 2 ^ (E - e) + 1 /\
      if decide (e = E) then l = loc_Inexact Eq \/ l = loc_Inexact Gt
      else 2 ^ (E - e) <= 2 * (m mod 2 ^ (E - e))).
Proof.
  intros Hm He Hlo Hhi. unfold binary_round_aux.
  destruct (shr_fexp _ _ m e l) as [mrs e'] eqn:E1.
  assert (Hm0 : 0 <= m) by lia. pose proof (shr_fexp_loc _ _ _ _ _ Hm0 E1) as Hloc.
  apply shr_fexp_spec in E1 as [He' Hq]; [|lia].
  rewrite Zdigits2_lead in He' by done. rewrite Z.max_r in He' by done. subst e'.
  set (D := lead m e) in *.
  assert (HD : 0 <= fx D - e <= Z.log2 m).
  { unfold lead in D. rewrite fx_max in *. lia. }
  destruct (lead_shift m e (fx D - e) HD Hm) as [Hq1 HqD].
  replace (e + (fx D - e)) with (fx D) in HqD by lia. fold D in HqD.
  set (q := m / 2 ^ (fx D - e)) in *. set (m' := round_nearest_even _ _).
  assert (Hm' : m' = q \/ m' = q + 1 /\
    if decide (e = fx D) then l = loc_Inexact Eq \/ l = loc_Inexact Gt
    else 2 ^ (fx D - e) <= 2 * (m mod 2 ^ (fx D - e))).
  { unfold m', round_nearest_even. rewrite Hq.
    destruct (loc_of_shr_record mrs) as [|[]]; try (by left); [destruct (Z.even _); [by left|]|];
      (right; split; [lia|by apply Hloc; auto]). }
  destruct (shr_fexp _ _ m' _ loc_Exact) as [mrs2 e2] eqn:E2.
  destruct (round_again m' (fx D) mrs2 e2 q Hq1) as (He2 & Hp & Hmm & Hc); [by rewrite HqD|tauto|done|].
  destruct (shr_m mrs2) as [|m2|m2] eqn:Em2; [lia| |lia].
  destruct (Z.leb_spec e2 (emax64 - prec64)) as [Hmax|Hmax].
  - exists m2, e2, m'. cbn zeta. split_and!; try done; lia.
  - rewrite fx_max in He2. unfold emax64, prec64 in Hmax. lia.
Qed.

Definition with_sign (s : bool) (x : f64) : f64 := if s then fneg x else x.

Lemma round_aux_sign s m e l :
  binary_round_aux prec64 emax64 s m e l = with_sign s (binary_round_aux prec64 emax64 false m e l).
Proof.
  destruct s; [|done]. unfold binary_round_aux, with_sign, fneg.
  destruct (shr_fexp _ _ m e l) as [mrs e']. destruct (shr_fexp _ _ _ e' _) as [mrs2 e2].
  destruct (shr_m mrs2); try done. by destruct (_ <=? _).
Qed.

Lemma round_sign s m e :
  binary_round prec64 emax64 s m e = with_sign s (binary_round prec64 emax64 false m e).
Proof. unfold binary_round. destruct (shl_align _ _ _). apply round_aux_sign. Qed.

(** ** Conversion *)

Lemma exact_cases z : exact_int z -> z = 0 \/ small_int (Z.abs z).
Proof. unfold exact_int, small_int. lia. Qed.

Lemma small_exact z : small_int z -> exact_int z.
Proof. unfold exact_int, small_int. lia. Qed.

Lemma f64_of_exact z :
  small_int (Z.abs z) -> f64_of_Z z = S754_finite (is_neg z) (int_mant (Z.abs z)) (int_exp (Z.abs z)).
Proof.
  intros Hz. destruct z as [|p|p]; [by destruct Hz|by apply f64_of_small|].
  unfold f64_of_Z. cbn [binary_normalize]. rewrite round_sign.
  by rewrite (round_exact p 0 (Zpos p)) by (done || simpl; lia).
Qed.

Lemma f64_opp z : exact_int z -> z <> 0 -> fneg (f64_of_Z z) = f64_of_Z (- z).
Proof.
  intros Hz Hne. assert (small_int (Z.abs z)) by (unfold exact_int, small_int in *; lia).
  rewrite !f64_of_exact by (rewrite ?Z.abs_opp; done). rewrite Z.abs_opp.
  unfold fneg, is_neg. cbn [SFopp]. f_equal. lia.
Qed.

(** Rounding the integer [z], written with [- ez] low zeros. *)
Lemma normalize_exact z ez :
  exact_int z -> ez <= 0 -> binary_normalize prec64 emax64 (z * 2 ^ (- ez)) ez false = f64_of_Z z.
Proof.
  intros Hz He. assert (0 < 2 ^ (- ez)) by (apply Z.pow_pos_nonneg; lia).
  destruct (exact_cases z Hz) as [->|Hs]; [done|].
  destruct (z * 2 ^ (- ez)) as [|S|S] eqn:ES; [unfold small_int in Hs; nia|..]; cbn [binary_normalize].
  - rewrite (round_exact S ez z) by (unfold small_int in *; lia || nia).
    rewrite f64_of_small; [done|]. unfold small_int in *. nia.
  - rewrite round_sign, (round_exact S ez (- z)) by (unfold small_int in *; lia || nia).
    assert (z < 0) by nia.
    rewrite f64_of_exact, Z.abs_neq by (done || lia). unfold is_neg. by rewrite (proj2 (Z.ltb_lt _ _)).
Qed.

(** ** Sum, difference, product *)

Lemma align_exact z ez :
  small_int z -> ez <= int_exp z ->
  Zpos (fst (shl_align (int_mant z) (int_exp z) ez)) = z * 2 ^ (- ez).
Proof.
  intros Sz Hle. pose proof (small_log2 z Sz).
  destruct (shl_align (int_mant z) (int_exp z) ez) as [m1 e1] eqn:Ea. simpl.
  apply shl_align_spec in Ea as [-> ->];
    [|unfold shl_align in Ea; destruct (ez - int_exp z) eqn:?; simplify_eq; lia].
  rewrite int_mant_Z, <- Z.mul_assoc, <- Z.pow_add_r by (done || unfold int_exp in *; lia).
  do 2 f_equal. unfold int_exp in *. lia.
Qed.

Lemma signed_align z ez :
  small_int (Z.abs z) -> ez <= int_exp (Z.abs z) ->
  cond_Zopp (is_neg z) (Zpos (fst (shl_align (int_mant (Z.abs z)) (int_exp (Z.abs z)) ez))) = z * 2 ^ (- ez).
Proof.
  intros Hz He. rewrite align_exact by done. unfold is_neg, cond_Zopp. destruct (Z.ltb_spec z 0); lia.
Qed.

Lemma fadd_exact x y :
  exact_int x -> exact_int y -> exact_int (x + y) -> fadd (f64_of_Z x) (f64_of_Z y) = f64_of_Z (x + y).
Proof.
  intros Hx Hy Hxy. destruct (exact_cases x Hx) as [->|Sx]; destruct (exact_cases y Hy) as [->|Sy].
  - done.
  - rewrite Z.add_0_l, (f64_of_exact y) by done. done.
  - rewrite Z.add_0_r, (f64_of_exact x) by done. done.
  - pose proof (small_log2 _ Sx) as Lx. pose proof (small_log2 _ Sy) as Ly.
    rewrite (f64_of_exact x), (f64_of_exact y) by done. unfold fadd, SFadd.
    set (ez := Z.min _ _). rewrite !signed_align by (done || unfold ez; lia).
    rewrite <- Z.mul_add_distr_r. apply normalize_exact; [done|]. unfold ez, int_exp. lia.
Qed.

Lemma fsub_fadd x y : fsub x y = fadd x (fneg y).
Proof.
  unfold fsub, fadd, fneg. destruct x as [sx|sx| |sx mx ex], y as [sy|sy| |sy my ey]; try done;
    by destruct sx, sy.
Qed.

Lemma fadd_neg_zero x : exact_int x -> fadd (f64_of_Z x) (S754_zero true) = f64_of_Z x.
Proof. intros Hx. destruct (exact_cases x Hx) as [->|Sx]; [done|]. by rewrite f64_of_exact. Qed.

Lemma fsub_exact x y :
  exact_int x -> exact_int y -> exact_int (x - y) -> fsub (f64_of_Z x) (f64_of_Z y) = f64_of_Z (x - y).
Proof.
  intros Hx Hy Hxy. rewrite fsub_fadd. destruct (Z.eq_dec y 0) as [->|Hne].
  - rewrite Z.sub_0_r. by apply fadd_neg_zero.
  - rewrite f64_opp by done. apply fadd_exact; [done|unfold exact_int in *; lia|done].
Qed.

(** A product that is zero may come out as minus zero. *)
Definition is_zero (x : f64) : Prop := x = S754_zero false \/ x = S754_zero true.

Lemma fmul_exact x y :
  exact_int x -> exact_int y -> exact_int (x * y) ->
  fmul (f64_of_Z x) (f64_of_Z y) = f64_of_Z (x * y) \/ x * y = 0 /\ is_zero (fmul (f64_of_Z x) (f64_of_Z y)).
Proof.
  intros Hx Hy Hxy. destruct (exact_cases x Hx) as [->|Sx].
  { right. split; [lia|]. destruct (exact_cases y Hy) as [->|Sy]; [by left|].
    rewrite (f64_of_exact y) by done. unfold is_zero. cbn. destruct (is_neg y); auto. }
  destruct (exact_cases y Hy) as [->|Sy].
  { right. split; [lia|]. rewrite (f64_of_exact x) by done. unfold is_zero. cbn. destruct (is_neg x); auto. }
  left. assert (Sxy : small_int (Z.abs (x * y))).
  { rewrite Z.abs_mul. unfold small_int, exact_int in *. nia. }
  rewrite (f64_of_exact x), (f64_of_exact y), (f64_of_exact (x * y)) by done.
  unfold fmul, SFmul. rewrite round_aux_sign, Pos2Z.inj_mul, !int_mant_Z by done.
  pose proof (small_log2 _ Sx) as Lx. pose proof (small_log2 _ Sy) as Ly.
  replace (Z.abs x * 2 ^ (52 - Z.log2 (Z.abs x)) * (Z.abs y * 2 ^ (52 - Z.log2 (Z.abs y))))
    with (Z.abs (x * y) * 2 ^ (- (int_exp (Z.abs x) + int_exp (Z.abs y)))).
  - rewrite round_aux_exact; [|done|].
    + unfold with_sign, fneg, is_neg. cbn [SFopp]. unfold small_int in *.
      destruct (Z.ltb_spec x 0), (Z.ltb_spec y 0), (Z.ltb_spec (x * y) 0); cbn; (done || nia).
    + rewrite Z.abs_mul. unfold int_exp.
      pose proof (Z.log2_mul_below (Z.abs x) (Z.abs y) ltac:(unfold small_int in *; lia) ltac:(unfold small_int in *; lia)). lia.
  - rewrite Z.abs_mul. unfold int_exp.
    replace (- (Z.log2 (Z.abs x) - 52 + (Z.log2 (Z.abs y) - 52)))
      with ((52 - Z.log2 (Z.abs x)) + (52 - Z.log2 (Z.abs y))) by lia.
    rewrite Z.pow_add_r by lia. lia.
Qed.

(** The sign of a zero product is lost in a sum. *)
Lemma fmadd_exact a s c :
  exact_int a -> exact_int s -> exact_int c -> exact_int (a * s) -> exact_int (a * s + c) ->
  fadd (fmul (f64_of_Z a) (f64_of_Z s)) (f64_of_Z c) = f64_of_Z (a * s + c).
Proof.
  intros Ha Hs Hc Has Hasc. destruct (fmul_exact a s Ha Hs Has) as [->|[E Hz]]; [by apply fadd_exact|].
  rewrite E, Z.add_0_l. destruct (exact_cases c Hc) as [->|Sc].
  - by destruct Hz as [-> | ->].
  - rewrite (f64_of_exact c) by done. by destruct Hz as [-> | ->].
Qed.

Lemma fmul_nonneg x y :
  0 <= x -> 0 <= y -> exact_int x -> exact_int y -> exact_int (x * y) ->
  fmul (f64_of_Z x) (f64_of_Z y) = f64_of_Z (x * y).
Proof.
  intros H1 H2 Hx Hy Hxy. destruct (fmul_exact x y Hx Hy Hxy) as [|[E Hz]]; [done|]. rewrite E.
  destruct (exact_cases x Hx) as [->|Sx], (exact_cases y Hy) as [->|Sy]; [done|..].
  - rewrite Z.abs_eq in Sy by done. by rewrite (f64_of_small y).
  - rewrite Z.abs_eq in Sx by done. by rewrite (f64_of_small x).
  - unfold small_int in *. nia.
Qed.

(** ** Comparison *)

Lemma flt_zero z : exact_int z -> flt (f64_of_Z z) f0 = (z <? 0).
Proof.
  intros Hz. destruct (exact_cases z Hz) as [->|Sz]; [done|]. rewrite f64_of_exact by done.
  change (z <? 0) with (is_neg z). by destruct (is_neg z).
Qed.

(** 2^53, the first integer whose successor is not a double. *)
Definition two53 : f64 := S754_finite false 4503599627370496 1.

Lemma exact_below z : exact_int z -> fle two53 (f64_of_Z z) = false /\ fle (f64_of_Z z) (fneg two53) = false.
Proof.
  intros Hz. destruct (exact_cases z Hz) as [->|Sz]; [done|].
  pose proof (small_log2 _ Sz) as Hl. rewrite f64_of_exact by done.
  assert (He : int_exp (Z.abs z) < 1) by (unfold int_exp; lia).
  generalize dependent (int_exp (Z.abs z)). generalize (int_mant (Z.abs z)). intros m e He.
  unfold fle, SFleb, two53, fneg. cbn [SFopp SFcompare].
  destruct (is_neg z); cbn [negb]; split; try done.
  - by rewrite (proj2 (Z.compare_lt_iff e 1) He).
  - by rewrite (proj2 (Z.compare_gt_iff 1 e) He).
Qed.

(** ** Quotient *)

(** A double without its fraction. *)
Definition truncate (x : f64) : option Z :=
  match x with
  | S754_zero _ => Some 0
  | S754_finite s m e => Some (cond_Zopp s (if 0 <=? e then Zpos m * 2 ^ e else Zpos m / 2 ^ (- e)))
  | _ => None
  end.

Lemma truncate_finite s (m : positive) e E m' :
  E <= 0 -> E <= e -> Zpos m * 2 ^ (e - E) = m' ->
  truncate (S754_finite s m e) = Some (cond_Zopp s (m' / 2 ^ (- E))).
Proof.
  intros HE He <-. cbn [truncate]. do 2 f_equal. destruct (Z.leb_spec 0 e).
  - replace (e - E) with (e + - E) by lia. rewrite Z.pow_add_r, Z.mul_assoc, Z.div_mul by lia. done.
  - replace (- E) with ((e - E) + - e) by lia.
    rewrite Z.pow_add_r, (Z.mul_comm (2 ^ (e - E))), Z.div_mul_cancel_r by (apply Z.pow_nonzero || lia; lia).
    done.
Qed.

(** A quotient rounded at [2^-K] keeps its integral part. *)
Lemma rounded_quotient v w K q m' :
  1 <= v < 2 ^ 53 -> 1 <= w -> 0 <= K -> q = v * 2 ^ K / w -> 2 ^ 52 <= q ->
  (m' = q \/ m' = q + 1 /\ (2 * q + 1) * w <= 2 * (v * 2 ^ K)) -> m' / 2 ^ K = v / w.
Proof.
  intros Hv Hw HK Hq Hbig Hm. assert (Hp : 0 < 2 ^ K) by (apply Z.pow_pos_nonneg; lia).
  assert (Hqv : q / 2 ^ K = v / w).
  { rewrite Hq, Z.div_div, Z.mul_comm by lia. rewrite (Z.mul_comm w), Z.div_mul_cancel_l by lia. done. }
  destruct Hm as [-> | [-> Hup]]; [done|].
  set (n := v / w) in *. pose proof (Z.div_mod q (2 ^ K) ltac:(lia)) as Eq. rewrite Hqv in Eq.
  pose proof (Z.mod_pos_bound q (2 ^ K) Hp). pose proof (Z.div_mod v w ltac:(lia)) as Ev. fold n in Ev.
  pose proof (Z.mod_pos_bound v w ltac:(lia)).
  assert (Hlt : q + 1 < (n + 1) * 2 ^ K).
  { destruct (Z.lt_ge_cases (q + 1) ((n + 1) * 2 ^ K)) as [|Hge]; [done|exfalso].
    assert (q + 1 = (n + 1) * 2 ^ K) as E by lia.
    assert (2 * 2 ^ K <= w) by nia.
    assert (Hvw : q * w <= v * 2 ^ K) by (rewrite Hq, Z.mul_comm; apply Z.mul_div_le; lia).
    nia. }
  symmetry. apply Z.div_unique with (q + 1 - n * 2 ^ K); lia.
Qed.

Lemma new_location_half n r :
  new_location n r = loc_Inexact Eq \/ new_location n r = loc_Inexact Gt -> n <= 2 * r.
Proof.
  unfold new_location, new_location_even, new_location_odd.
  destruct (Z.even n), (r =? 0); try (by intros []).
  - destruct (Z.compare_spec (2 * r) n); intros []; (done || lia).
  - destruct (Z.compare_spec (2 * r + 1) n); intros []; (done || lia).
Qed.

Lemma int_mant_bounds z : small_int z -> 2 ^ 52 <= Zpos (int_mant z) < 2 ^ 53.
Proof.
  intros Hz. rewrite int_mant_Z by done. pose proof (small_log2 z Hz) as Hl.
  pose proof (Z.log2_spec z ltac:(unfold small_int in Hz; lia)) as [H1 H2].
  assert (Hp : 0 < 2 ^ (52 - Z.log2 z)) by (apply Z.pow_pos_nonneg; lia). split.
  - replace 52 with (Z.log2 z + (52 - Z.log2 z)) at 1 by lia. rewrite Z.pow_add_r by lia. nia.
  - replace 53 with (Z.succ (Z.log2 z) + (52 - Z.log2 z)) by lia. rewrite Z.pow_add_r by lia. nia.
Qed.

(** The quotient of the mantissas to 53 or 54 digits, and what is left. *)
Lemma SFdiv_exact sv sw v w :
  small_int v -> small_int w ->
  let q0 := Zpos (int_mant v) * 2 ^ 53 / Zpos (int_mant w) in
  let r := Zpos (int_mant v) * 2 ^ 53 mod Zpos (int_mant w) in
  fdiv (S754_finite sv (int_mant v) (int_exp v)) (S754_finite sw (int_mant w) (int_exp w)) =
  binary_round_aux prec64 emax64 (xorb sv sw) q0 (int_exp v - int_exp w - 53) (new_location (Zpos (int_mant w)) r).
Proof.
  intros Hv Hw. cbn zeta. unfold fdiv, SFdiv, SFdiv_core_binary.
  pose proof (int_lead v Hv) as Lv. pose proof (int_lead w Hw) as Lw. unfold lead in Lv, Lw.
  pose proof (small_log2 v Hv). pose proof (small_log2 w Hw).
  assert (Hd : forall m, Zdigits2 (Zpos m) = Z.log2 (Zpos m) + 1).
  { intros m. unfold Zdigits2. apply digits_log2. }
  rewrite !Hd. fold (fx (Z.log2 (Z.pos (int_mant v)) + 1 + int_exp v - (Z.log2 (Z.pos (int_mant w)) + 1 + int_exp w))).
  assert (He : Z.min (fx (Z.log2 (Z.pos (int_mant v)) + 1 + int_exp v - (Z.log2 (Z.pos (int_mant w)) + 1 + int_exp w)))
    (int_exp v - int_exp w) = int_exp v - int_exp w - 53).
  { rewrite fx_max. unfold int_exp in *. lia. }
  rewrite He. replace (int_exp v - int_exp w - (int_exp v - int_exp w - 53)) with 53 by lia.
  cbn match. rewrite Z.shiftl_mul_pow2 by lia. unfold Z.div, Z.modulo.
  destruct (Z.div_eucl _ _) as [q r]. done.
Qed.

Lemma fdiv_truncate_pos s v w :
  small_int v -> small_int w ->
  truncate (fdiv (S754_finite s (int_mant v) (int_exp v)) (S754_finite false (int_mant w) (int_exp w))) =
  Some (cond_Zopp s (v / w)).
Proof.
  intros Hv Hw. rewrite SFdiv_exact by done. rewrite xorb_false_r.
  pose proof (int_mant_bounds v Hv) as Bv. pose proof (int_mant_bounds w Hw) as Bw.
  pose proof (int_mant_Z v Hv) as Mv. pose proof (int_mant_Z w Hw) as Mw.
  pose proof (small_log2 v Hv) as Hlv. pose proof (small_log2 w Hw) as Hlw.
  set (M := Zpos (int_mant v) * 2 ^ 53) in *. set (W := Zpos (int_mant w)) in *.
  set (q0 := M / W). set (e := int_exp v - int_exp w - 53).
  assert (Hq0 : 2 ^ 52 <= q0 < 2 ^ 54).
  { unfold q0. split; [apply Z.div_le_lower_bound; lia|apply Z.div_lt_upper_bound; lia]. }
  assert (Hlq : 52 <= Z.log2 q0 <= 53).
  { split; [apply Z.log2_le_pow2; lia|]. assert (Z.log2 q0 < 54); [apply Z.log2_lt_pow2; lia|lia]. }
  set (n := Z.log2 q0 - 52).
  assert (HE : fx (lead q0 e) = e + n).
  { rewrite fx_max. unfold lead, n, e, int_exp. lia. }
  destruct (round_aux_bounds s q0 e (new_location W (M mod W))) as (m2 & e2 & m' & -> & _ & _ & HeE & Hm' & Hup);
    [lia|rewrite HE; lia|unfold lead, e, int_exp; lia|unfold lead, e, int_exp; lia|].
  rewrite HE in HeE, Hm', Hup. replace (e + n - e) with n in Hup by lia.
  rewrite (truncate_finite s m2 e2 (e + n) m') by (done || unfold e, n, int_exp; lia).
  do 2 f_equal. set (K := - (e + n)). set (c := n - int_exp w).
  assert (Hc : 0 <= c) by (unfold c, n, int_exp; lia). assert (HK : 0 <= K) by (unfold K, e, n, int_exp; lia).
  assert (Hp : 0 < 2 ^ c) by (apply Z.pow_pos_nonneg; lia).
  assert (EM : M = v * 2 ^ K * 2 ^ c).
  { unfold M. rewrite Mv, <- !Z.mul_assoc, <- !Z.pow_add_r by lia. do 2 f_equal. unfold K, c, e, n, int_exp. lia. }
  assert (EW : W * 2 ^ n = w * 2 ^ c).
  { rewrite Mw, <- Z.mul_assoc, <- Z.pow_add_r by (unfold n; lia). do 2 f_equal. unfold c, int_exp. lia. }
  apply (rounded_quotient v w K (q0 / 2 ^ n)).
  - exact Hv.
  - unfold small_int in Hw. lia.
  - done.
  - unfold q0. rewrite Z.div_div by (apply Z.pow_nonzero || apply Z.pow_pos_nonneg || idtac; unfold n; lia).
    rewrite EW, EM. apply Z.div_mul_cancel_r; [unfold small_int in Hw|]; lia.
  - apply Z.div_le_lower_bound; [apply Z.pow_pos_nonneg; unfold n; lia|].
    rewrite <- Z.pow_add_r by (unfold n; lia). unfold n.
    replace (Z.log2 q0 - 52 + 52) with (Z.log2 q0) by lia. apply Z.log2_spec. lia.
  - destruct Hup as [->|[-> Hup]]; [by left|right]. split; [done|].
    pose proof (Z.div_mod M W ltac:(lia)) as ED. fold q0 in ED. pose proof (Z.mod_pos_bound M W ltac:(lia)).
    assert (Hn : n = 0 \/ n = 1) by (unfold n; lia). destruct Hn as [En|En]; rewrite En in *.
    + rewrite decide_True in Hup by lia. apply new_location_half in Hup.
      rewrite Z.pow_0_r, Z.div_1_r in *. apply (Z.mul_le_mono_pos_r _ _ (2 ^ c)); [done|]. nia.
    + rewrite decide_False in Hup by lia. change (2 ^ 1) with 2 in *.
      pose proof (Z.div_mod q0 2 ltac:(lia)). apply (Z.mul_le_mono_pos_r _ _ (2 ^ c)); [done|]. nia.
Qed.

(** Dividing and dropping the fraction is the quotient of C. *)
Lemma fdiv_truncate v w :
  exact_int v -> small_int w -> truncate (fdiv (f64_of_Z v) (f64_of_Z w)) = Some (Z.quot v w).
Proof.
  intros Hv Hw. rewrite (f64_of_small w) by done. destruct (exact_cases v Hv) as [->|Sv].
  - by rewrite Z.quot_0_l by (unfold small_int in Hw; lia).
  - rewrite f64_of_exact by done. rewrite fdiv_truncate_pos by done. f_equal. unfold is_neg, cond_Zopp.
    unfold small_int in Hw. destruct (Z.ltb_spec v 0).
    + rewrite Z.abs_neq by lia. replace v with (- - v) at 2 by lia. rewrite Z.quot_opp_l, Z.quot_div_nonneg by lia. done.
    + rewrite Z.abs_eq, Z.quot_div_nonneg by lia. done.
Qed.

Lemma fmsub_exact v a m :
  exact_int v -> exact_int a -> exact_int m -> exact_int (a * m) -> exact_int (v - a * m) ->
  fsub (f64_of_Z v) (fmul (f64_of_Z a) (f64_of_Z m)) = f64_of_Z (v - a * m).
Proof.
  intros Hv Ha Hm Ham Hs. destruct (fmul_exact a m Ha Hm Ham) as [->|[E Hz]]; [by apply fsub_exact|].
  rewrite E, Z.sub_0_r, fsub_fadd. destruct Hz as [-> | ->]; cbn [fneg SFopp negb].
  - by apply fadd_neg_zero.
  - destruct (exact_cases v Hv) as [->|Sv]; [done|]. by rewrite f64_of_exact.
Qed.

(** ** Large values *)

Definition big (x : f64) : Prop := fle two53 x = true /\ nonneg x = true /\ valid x = true.

Lemma big_finite m e :
  valid (S754_finite false m e) = true -> 1 <= e -> 2 ^ 52 <= Zpos m -> big (S754_finite false m e).
Proof.
  intros Hv He Hm. split_and!; [|done|done]. apply fle_rank. split_and!; [done..|]. cbn [rank lt3].
  unfold rank, two53. change 4503599627370496 with (2 ^ 52). lia.
Qed.

Lemma big_add x y : big x -> nonneg y = true -> valid y = true -> big (fadd x y).
Proof.
  intros (H1 & H2 & H3) Hn Hv. destruct (fadd_nonneg x y H3 Hv H2 Hn) as (N & V & L & _).
  split_and!; [by eapply fle_trans|done|done].
Qed.

Lemma f64_of_nonneg z : nat_int z -> nonneg (f64_of_Z z) = true /\ valid (f64_of_Z z) = true.
Proof.
  intros Hz. destruct (nat_int_cases z Hz) as [->|Sz]; [done|]. pose proof (small_log2 z Sz).
  rewrite f64_of_small by done. split; [done|]. apply valid_finite. rewrite int_lead, int_fx by done.
  split; [done|]. unfold int_exp, emax64, prec64. lia.
Qed.

(** A product or a sum of integers that exceeds 2^53 is seen to. *)
Lemma fmul_big x y :
  small_int x -> small_int y -> 2 ^ 53 <= x * y -> big (fmul (f64_of_Z x) (f64_of_Z y)).
Proof.
  intros Sx Sy Hxy. rewrite !f64_of_small by done. unfold fmul, SFmul. cbn [xorb].
  pose proof (small_log2 x Sx) as Lx. pose proof (small_log2 y Sy) as Ly.
  set (e := int_exp x + int_exp y). rewrite Pos2Z.inj_mul, !int_mant_Z by done.
  set (m := x * 2 ^ (52 - Z.log2 x) * (y * 2 ^ (52 - Z.log2 y))).
  assert (Em : m = x * y * 2 ^ (- e)).
  { unfold m, e, int_exp. replace (- (Z.log2 x - 52 + (Z.log2 y - 52))) with ((52 - Z.log2 x) + (52 - Z.log2 y)) by lia.
    rewrite Z.pow_add_r by lia. lia. }
  assert (Hp : 0 < 2 ^ (- e)) by (apply Z.pow_pos_nonneg; unfold e, int_exp; lia).
  assert (Hl : lead m e = Z.log2 (x * y) + 1).
  { unfold lead. rewrite Em, Z.log2_mul_pow2 by (unfold e, int_exp; lia). lia. }
  assert (H53 : 53 <= Z.log2 (x * y)) by (apply Z.log2_le_pow2; lia).
  assert (H106 : Z.log2 (x * y) <= 107).
  { pose proof (Z.log2_mul_above x y ltac:(unfold small_int in *; lia) ltac:(unfold small_int in *; lia)). lia. }
  assert (HE : fx (lead m e) = Z.log2 (x * y) - 52) by (rewrite Hl, fx_max; lia).
  destruct (round_aux_bounds false m e loc_Exact) as (m2 & e2 & m' & -> & Hc & Hmax & HeE & Hm' & Hup);
    [nia|rewrite HE; unfold e, int_exp; lia|lia|lia|].
  rewrite HE in *. set (E := Z.log2 (x * y) - 52) in *.
  assert (Hq : 2 ^ 52 <= m / 2 ^ (E - e)).
  { apply Z.div_le_lower_bound; [apply Z.pow_pos_nonneg; unfold E, e, int_exp; lia|].
    rewrite <- Z.pow_add_r by (unfold E, e, int_exp; lia). rewrite Em.
    replace (E - e + 52) with (Z.log2 (x * y) + - e) by (unfold E; lia).
    rewrite Z.pow_add_r by (unfold e, int_exp; lia). apply Z.mul_le_mono_nonneg_r; [lia|].
    apply Z.log2_spec. lia. }
  apply big_finite; [by apply valid_finite|unfold E in *; lia|].
  rewrite fx_max in Hc. unfold lead in Hc.
  assert (52 <= Z.log2 (Zpos m2)) by (unfold E in *; lia).
  apply Z.log2_le_pow2; lia.
Qed.

Lemma fadd_big x y : small_int x -> small_int y -> 2 ^ 53 <= x + y -> big (fadd (f64_of_Z x) (f64_of_Z y)).
Proof.
  intros Sx Sy Hxy. pose proof (small_log2 x Sx) as Lx. pose proof (small_log2 y Sy) as Ly.
  rewrite !f64_of_small by done. unfold fadd, SFadd. set (ez := Z.min _ _). cbn [cond_Zopp].
  rewrite !align_exact, <- Z.mul_add_distr_r by (done || unfold ez; lia).
  assert (Hez : ez <= 0) by (unfold ez, int_exp; lia).
  assert (Hp : 0 < 2 ^ (- ez)) by (apply Z.pow_pos_nonneg; lia).
  destruct ((x + y) * 2 ^ (- ez)) as [|S|S] eqn:ES; [nia| |nia]. cbn [binary_normalize].
  destruct (binary_round_ge S ez) as (N & V & L).
  - unfold lead. rewrite <- ES, Z.log2_mul_pow2 by lia. pose proof (Z.log2_nonneg (x + y)). lia.
  - split_and!; [|done|done]. apply L; [done|lia|].
    rewrite <- ES. replace (1 - ez) with (1 + - ez) by lia. rewrite Z.pow_add_r by lia.
    change 4503599627370496 with (2 ^ 52). nia.
Qed.
