(* ===== verification/Route.v ===== *)
(** * Route computation: [RouteLogic] (routing/route.h, routing/route.cc)

    The object behind [$ns compute-routes]: a matrix of link costs, grown on
    demand, and a matrix of next hops computed from it by a shortest path
    search from each node.  Node number [x] of a script is row and column
    [x + 1]; index 0 means "no node".  This file has the state of the whole
    class and the operations on flat addresses; HierRoute.v has the
    hierarchical ones, which run the same search on a matrix per cluster. *)

From stdpp Require Import base numbers list strings.
From Stdlib Require Import ZArith Lia SpecFloat.
From S2P Require Import Prelude.
From S2P Require Import Float64.
From S2P Require Import Text.
From S2P Require Import Array.

Open Scope Z_scope.

(** ** Data *)

(** [#define INFINITY 0x3fff], and the double it is compared with *)
Definition INFINITY : Z := 16383.
Definition INF : f64 := f64_of_Z INFINITY.

Record adj_entry := AdjEntry { cost : f64; adj_ent : ptr }.
Record route_entry := RouteEntry { next_hop : Z; route_ent : ptr }.

(** A pointer to an array: null, freed, or the array. *)
Variant block (A : Type) :=
  | Null
  | Freed
  | Block (l : list A).
Arguments Null {A}.
Arguments Freed {A}.
Arguments Block {A} l.

Definition deref {A} (b : block A) : result (list A) :=
  match b with Null => Fault NullDeref | Freed => Fault Dangling | Block l => Ok l end.

(** [delete[] p] *)
Definition delete_array {A} (b : block A) : result unit :=
  match b with Freed => Fault Dangling | _ => Ok tt end.

Definition is_null {A} (b : block A) : bool := match b with Null => true | _ => false end.

(** [new T[n * n]], the product being an [int]: a negative size throws. *)
Definition square (n : Z) : result nat :=
  let m := wrap_i32 (n * n) in
  if m <? 0 then Fault Aborted else Ok (Z.to_nat m).

(** The fields of the class; [maxnode_] is never used.  An [int] of a fresh
    array is [None] until it is written, and so is a pointer. *)
Record RouteLogic := mkRouteLogic {
  adj_ : block adj_entry;
  route_ : block route_entry;
  size_ : Z;
  level_ : Z;
  C_ : option (list (option Z));
  D_ : Z;
  Cmax_ : Z;
  cluster_size_ : option (list (option Z));
  hsize_ : option (list Z);
  hadj_ : option (list (option (list Z)));
  hroute_ : option (list (option (list Z)));
  hconnect_ : option (list (option (list (option string))))
}.

Definition new_RouteLogic : RouteLogic :=
  mkRouteLogic Null Null 0 0 None 0 0 None None None None None.

Definition set_adj a r :=
  mkRouteLogic a (route_ r) (size_ r) (level_ r) (C_ r) (D_ r) (Cmax_ r) (cluster_size_ r)
    (hsize_ r) (hadj_ r) (hroute_ r) (hconnect_ r).
Definition set_route t r :=
  mkRouteLogic (adj_ r) t (size_ r) (level_ r) (C_ r) (D_ r) (Cmax_ r) (cluster_size_ r)
    (hsize_ r) (hadj_ r) (hroute_ r) (hconnect_ r).
Definition set_size n r :=
  mkRouteLogic (adj_ r) (route_ r) n (level_ r) (C_ r) (D_ r) (Cmax_ r) (cluster_size_ r)
    (hsize_ r) (hadj_ r) (hroute_ r) (hconnect_ r).

(** What a Tcl command answers: [TCL_OK] with the result string, if it sets
    one, or [TCL_ERROR] with its message. *)
Variant reply :=
  | TCL_OK (res : option string)
  | TCL_ERROR (msg : string).

(** ** The cost matrix *)

Definition rl_alloc (n : Z) (r : RouteLogic) : result RouteLogic :=
  let! m := square n in
  Ok (set_adj (Block (replicate m (AdjEntry INF NULL))) (set_size n r)).

(** One row of the copy into the larger matrix: the costs, not the entries. *)
Definition copy_cost (old : list adj_entry) (osize m i j : Z) (a : list adj_entry)
    : result (list adj_entry) :=
  let! o := aget old (INDEX i j osize) in
  let! e := aget a (INDEX i j m) in
  aset a (INDEX i j m) (AdjEntry (cost o) (adj_ent e)).

Definition copy_costs (old : list adj_entry) (osize m : Z) (a : list adj_entry)
    : result (list adj_entry) :=
  for_loop 0 osize (fun i a => for_loop 0 osize (copy_cost old osize m i) a) a.

Definition rl_check (fuel : nat) (n : Z) (r : RouteLogic) : result RouteLogic :=
  if n <? size_ r then Ok r
  else
    let old := adj_ r in
    let osize := size_ r in
    let! m := double_up fuel n (if osize =? 0 then 16 else osize) in
    let! r1 := rl_alloc m r in
    let! a := deref (adj_ r1) in
    let! a := (if osize <=? 0 then Ok a
               else let! o := deref old in copy_costs o osize m a) in
    let! _ := delete_array old in
    Ok (set_adj (Block a) (set_size m r1)).

Definition rl_insert (fuel : nat) (src dst : Z) (c : f64) (r : RouteLogic) : result RouteLogic :=
  let! r := rl_check fuel src r in
  let! r := rl_check fuel dst r in
  let! a := deref (adj_ r) in
  let! e := aget a (INDEX src dst (size_ r)) in
  let! a := aset a (INDEX src dst (size_ r)) (AdjEntry c (adj_ent e)) in
  Ok (set_adj (Block a) r).

(** The overload with an entry. *)
Definition rl_insert_entry (fuel : nat) (src dst : Z) (c : f64) (e : ptr) (r : RouteLogic)
    : result RouteLogic :=
  let! r := rl_check fuel src r in
  let! r := rl_check fuel dst r in
  let! a := deref (adj_ r) in
  let! a := aset a (INDEX src dst (size_ r)) (AdjEntry c e) in
  Ok (set_adj (Block a) r).

Definition rl_reset (src dst : Z) (r : RouteLogic) : result RouteLogic :=
  let! _ := assert_that (src <? size_ r) in
  let! _ := assert_that (dst <? size_ r) in
  let! a := deref (adj_ r) in
  let! e := aget a (INDEX src dst (size_ r)) in
  let! a := aset a (INDEX src dst (size_ r)) (AdjEntry INF (adj_ent e)) in
  Ok (set_adj (Block a) r).

Definition reset_all (r : RouteLogic) : result RouteLogic :=
  let! _ := delete_array (adj_ r) in
  let! _ := delete_array (route_ r) in
  Ok (set_size 0 (set_adj Null (set_route Null r))).

(** ** The search *)

(** The arrays of [compute_routes]: [hopcnt] is a fresh array, [None] where
    nothing has been written. *)
Record search := Search {
  parent : list Z;
  hopcnt : list (option f64);
  routes : list route_entry
}.

Definition hop (s : search) (v : Z) : result f64 :=
  let! h := aget (hopcnt s) v in
  match h with Some x => Ok x | None => Fault Uninit end.

Section Search.
Context (adj : list adj_entry) (n : Z).

(** [ADJ (i, j)] and [ADJ_ENTRY (i, j)] *)
Definition ADJ (i j : Z) : result adj_entry := aget adj (INDEX i j n).

(** The body of the loop that sets the routes of the neighbours of [k]. *)
Definition set_neighbour (k v : Z) (s : search) : result search :=
  let! p := aget (parent s) v in
  if p =? k then Ok s
  else
    let! e := ADJ k v in
    let! hs := aset (hopcnt s) v (Some (cost e)) in
    if feq (cost e) INF then Ok (Search (parent s) hs (routes s))
    else
      let! rs := aset (routes s) (INDEX k v n) (RouteEntry v (adj_ent e)) in
      Ok (Search (parent s) hs rs).

(** The body of the loop that picks the nearest node not yet routed. *)
Definition nearer (s : search) (k w o : Z) : result Z :=
  let! p := aget (parent s) w in
  if p =? k then Ok o
  else
    let! hw := hop s w in
    let! ho := hop s o in
    Ok (if flt hw ho then w else o).

(** The body of the loop that updates the distances of the neighbours of [o]. *)
Definition relax (k o w : Z) (s : search) : result search :=
  let! p := aget (parent s) w in
  if p =? k then Ok s
  else
    let! ho := hop s o in
    let! e := ADJ o w in
    let! hw := hop s w in
    if flt (fadd ho (cost e)) hw then
      let! ro := aget (routes s) (INDEX k o n) in
      let! rs := aset (routes s) (INDEX k w n) ro in
      let! hs := aset (hopcnt s) w (Some (fadd ho (cost e))) in
      Ok (Search (parent s) hs rs)
    else Ok s.

(** One step of the search from [k]. *)
Definition extend (k : Z) (s : search) : result search :=
  let! hs := aset (hopcnt s) 0 (Some INF) in
  let s := Search (parent s) hs (routes s) in
  let! o := for_loop 1 n (nearer s k) 0 in
  let! ps := aset (parent s) o k in
  let s := Search ps (hopcnt s) (routes s) in
  if o =? 0 then Ok s else for_loop 1 n (relax k o) s.

(** The body of the loop over the sources. *)
Definition from_source (k : Z) (s : search) : result search :=
  let s := Search (seqZ 0 n) (hopcnt s) (routes s) in
  let! s := for_loop 1 n (set_neighbour k) s in
  for_loop 1 n (fun _ => extend k) s.

Definition route_to_self (k : Z) (rs : list route_entry) : result (list route_entry) :=
  aset rs (INDEX k k n) (RouteEntry k NULL).

(** [compute_routes] from the fresh arrays on: the matrix of next hops. *)
Definition all_routes : result (list route_entry) :=
  let! m := square n in
  let s := Search (replicate (Z.to_nat n) 0) (replicate (Z.to_nat n) None)
             (replicate m (RouteEntry 0 NULL)) in
  let! s := for_loop 1 n from_source s in
  for_loop 1 n route_to_self (routes s).
End Search.

Definition compute_routes (r : RouteLogic) : result RouteLogic :=
  let! _ := delete_array (route_ r) in
  let! a := deref (adj_ r) in
  let! rs := all_routes a (size_ r) in
  Ok (set_route (Block rs) r).

(** ** Look-up *)

(** [lookup_flat (int, int)], the one the rest of the program calls *)
Definition lookup_flat (sid did : Z) (r : RouteLogic) : result Z :=
  let src := wrap_i32 (sid + 1) in
  let dst := wrap_i32 (did + 1) in
  if is_null (route_ r) then Ok (-1)
  else if (size_ r <=? src) || (size_ r <=? dst) then Ok (-2)
  else
    let! t := deref (route_ r) in
    let! e := aget t (INDEX src dst (size_ r)) in
    Ok (wrap_i32 (next_hop e - 1)).

(** [lookup_flat (char*, char*, int&)], behind the Tcl command *)
Definition lookup_flat_tcl (asrc adst : string) (r : RouteLogic) : result (sum string Z) :=
  let src := wrap_i32 (atoi asrc + 1) in
  let dst := wrap_i32 (atoi adst + 1) in
  if is_null (route_ r) then Ok (inl "routes not yet computed"%string)
  else if (size_ r <=? src) || (size_ r <=? dst) then Ok (inl "node out of range"%string)
  else
    let! t := deref (route_ r) in
    let! e := aget t (INDEX src dst (size_ r)) in
    Ok (inr (wrap_i32 (next_hop e - 1))).
