(* ===== verification/RouteProps.v ===== *)
(** * Proof of the search of [RouteLogic]

    The arrays of [compute_routes] are read as functions: which nodes are
    settled, the distance of each node, the route to each node.  [search_inv]
    is the invariant of the search from one node, [row_ok] what it leaves in
    that node's row of the route matrix, and [all_routes_spec] the whole
    computation.  The costs are integers between 0 and [INFINITY], the value
    that stands for "no link". *)

From stdpp Require Import base numbers list.
From Stdlib Require Import ZArith Lia ZifyBool.
From S2P Require Import Prelude.
From S2P Require Import Float64.
From S2P Require Import FloatInt.
From S2P Require Import Array.
From S2P Require Import Route.

Open Scope Z_scope.

(** ** Walks *)

(** The cost of the walk that leaves [u] and visits [p]. *)
Fixpoint walk_cost (a : Z -> Z -> Z) (u : Z) (p : list Z) : Z :=
  match p with [] => 0 | v :: p => a u v + walk_cost a v p end.

Fixpoint walk_end (u : Z) (p : list Z) : Z :=
  match p with [] => u | v :: p => walk_end v p end.

Definition node (n v : Z) : Prop := 1 <= v < n.

Lemma walk_cost_snoc a u p v :
  walk_cost a u (p ++ [v]) = walk_cost a u p + a (walk_end u p) v.
Proof. revert u. induction p as [|x p IH]; intros u; simpl; [lia|]. rewrite IH. lia. Qed.

Lemma walk_end_snoc u p v : walk_end u (p ++ [v]) = v.
Proof. revert u. induction p as [|x p IH]; intros u; simpl; [done|apply IH]. Qed.

(** A matrix of costs an [adj_] array can hold. *)
Definition costs_ok (n : Z) (a : Z -> Z -> Z) : Prop :=
  forall i j, 0 <= i < n -> 0 <= j < n -> 0 <= a i j <= INFINITY.

Lemma nat_int_cost z : 0 <= z <= 2 * INFINITY -> nat_int z.
Proof. unfold nat_int, INFINITY. lia. Qed.
#[export] Hint Resolve nat_int_cost : ints.

Definition no_route : route_entry := RouteEntry 0 NULL.

Section Search.
Context (adj : list adj_entry) (n : Z) (a : Z -> Z -> Z) (E : Z -> Z -> ptr).
Hypothesis Hn : side_ok n.
Hypothesis Hadj : mat adj n (fun i j => AdjEntry (f64_of_Z (a i j)) (E i j)).
Hypothesis Ha : costs_ok n a.

Lemma ADJ_ok i j :
  node n i -> node n j -> ADJ adj n i j = Ok (AdjEntry (f64_of_Z (a i j)) (E i j)).
Proof using Hn Hadj. unfold node. intros. apply (mat_get n Hn _ _ _ _ Hadj); lia. Qed.

Lemma cost_range i j : node n i -> node n j -> 0 <= a i j <= INFINITY.
Proof using Ha. unfold node. intros. apply Ha; lia. Qed.

(** The arrays of a search from [k] hold the parents [P], the distances [d]
    and the routes [R]. *)
Record holds (k : Z) (s : search) (P d : Z -> Z) (R : Z -> Z -> route_entry) : Prop := {
  h_par : arr (parent s) n P;
  h_hop : exists hv, arr (hopcnt s) n hv /\
            forall v, node n v -> v <> k -> hv v = Some (f64_of_Z (d v));
  h_rt : mat (routes s) n R
}.

(** The route of a node at distance [c]: the first hop of a walk of that
    cost, or none. *)
Definition routed (k v c : Z) (r : route_entry) : Prop :=
  if c <? INFINITY then
    exists p, let h := next_hop r in
      Forall (node n) (h :: p) /\ walk_end k (h :: p) = v /\
      walk_cost a k (h :: p) = c /\ route_ent r = E k h
  else r = no_route.

Record search_inv (k : Z) (P d : Z -> Z) (R : Z -> Z -> route_entry) : Prop := {
  si_self : P k = k;
  si_dist : forall v, node n v -> v <> k -> 0 <= d v <= INFINITY;
  si_near : forall u, node n u -> u <> k -> P u = k ->
              d u < INFINITY /\ forall v, node n v -> P v <> k -> d u <= d v;
  si_link : forall v, node n v -> v <> k -> d v <= a k v;
  si_relaxed : forall u v, node n u -> u <> k -> P u = k -> node n v -> v <> k ->
              d v <= d u + a u v;
  si_routed : forall v, node n v -> v <> k -> routed k v (d v) (R k v)
}.

(** ** The neighbours of the source *)

Lemma neighbours_spec k s R :
  node n k -> parent s = seqZ 0 n -> Z.of_nat (length (hopcnt s)) = n ->
  mat (routes s) n R -> (forall j, R k j = no_route) ->
  exists s' d' R', for_loop 1 n (set_neighbour adj n k) s = Ok s' /\
    holds k s' (fun v => v) d' R' /\ search_inv k (fun v => v) d' R' /\
    forall i j, i <> k -> R' i j = R i j.
Proof using Hn Hadj Ha.
  intros Hk Hp Hl HR Hz.
  set (R' w := fun i j => if (i =? k) && (1 <=? j) && (j <? w) && negb (j =? k)
     && negb (a k j =? INFINITY) then RouteEntry j (E k j) else R i j).
  destruct (for_loop_spec (fun w s => arr (parent s) n (fun v => v) /\
    (exists hv, arr (hopcnt s) n hv /\
       forall v, node n v -> v <> k -> v < w -> hv v = Some (f64_of_Z (a k v))) /\
    mat (routes s) n (R' w)) 1 n (set_neighbour adj n k) s) as (s' & Es & Hpar & Hhop & Hrt).
  - unfold node in Hk. lia.
  - split_and!.
    + rewrite Hp. apply arr_seqZ. unfold node in Hk. lia.
    + exists (fun i => default None (hopcnt s !! Z.to_nat i)). split.
      * split; [done|]. intros i Hi.
        destruct (lookup_lt_is_Some_2 (hopcnt s) (Z.to_nat i) ltac:(lia)) as [x Hx].
        by rewrite Hx.
      * unfold node. lia.
    + apply (mat_ext n _ R); [done|]. intros i j _ _. unfold R'.
      replace ((i =? k) && (1 <=? j) && (j <? 1) && negb (j =? k)
        && negb (a k j =? INFINITY)) with false by lia. done.
  - intros w s1 Hw (Hpar & (hv & Hhv & Hval) & Hrt). unfold set_neighbour.
    rewrite (arr_get _ _ _ _ Hpar) by lia. cbn [rbind].
    destruct (Z.eqb_spec w k) as [->|Hwk].
    { exists s1. split; [done|]. split_and!; [done| |].
      - exists hv. split; [done|]. intros v Hv Hvk Hlt. apply Hval; [done..|]. lia.
      - apply (mat_ext n _ (R' k)); [done|]. intros i j _ _. unfold R'.
        destruct (Z.eqb_spec j k) as [->|]; [by rewrite !andb_false_r|].
        by replace (j <? k + 1) with (j <? k) by lia. }
    rewrite ADJ_ok by (unfold node in *; lia). cbn [rbind cost adj_ent].
    destruct (arr_set _ _ _ w (Some (f64_of_Z (a k w))) Hhv ltac:(lia)) as (hs & -> & Hhs).
    cbn [rbind].
    assert (Hhop : exists hv', arr hs n hv' /\
      forall v, node n v -> v <> k -> v < w + 1 -> hv' v = Some (f64_of_Z (a k v))).
    { eexists. split; [exact Hhs|]. intros v Hv Hvk Hlt.
      destruct (decide (v = w)) as [->|]; [apply upd_at|].
      rewrite upd_ne by done. apply Hval; [done..|lia]. }
    pose proof (cost_range k w Hk ltac:(unfold node; lia)) as Hc.
    unfold INF. rewrite feq_Z by (apply nat_int_cost; unfold INFINITY in *; lia).
    destruct (Z.eqb_spec (a k w) INFINITY) as [Hinf|Hinf].
    + eexists. split; [done|]. split_and!; [done..|]. simpl.
      apply (mat_ext n _ (R' w)); [done|]. intros i j _ _. unfold R'.
      destruct (decide (j = w)) as [->|].
      * rewrite Hinf, Z.eqb_refl. by rewrite !andb_false_r.
      * by replace (j <? w + 1) with (j <? w) by lia.
    + destruct (mat_set n Hn _ _ k w (RouteEntry w (E k w)) Hrt
        ltac:(unfold node in Hk; lia) ltac:(lia)) as (rs & -> & Hrs). cbn [rbind].
      eexists. split; [done|]. split_and!; [done..|]. simpl.
      apply (mat_ext n _ _ _ Hrs). intros i j _ _. unfold R', upd2.
      destruct (Z.eqb_spec i k) as [->|]; [|done]. simpl.
      destruct (Z.eqb_spec j w) as [->|]; simpl.
      * replace ((1 <=? w) && (w <? w + 1) && negb (w =? k) && negb (a k w =? INFINITY))
          with true by lia. done.
      * by replace (j <? w + 1) with (j <? w) by lia.
  - exists s', (a k), (R' n). split_and!; [done| | |].
    + split; [done| |done]. destruct Hhop as (hv & Hhv & Hval). exists hv.
      split; [done|]. intros v Hv Hvk. apply Hval; [done..|]. unfold node in Hv. lia.
    + split; [done| | | | |].
      * intros. by apply cost_range.
      * intros u _ Hu Hu'. done.
      * done.
      * intros u v _ Hu Hu'. done.
      * intros v Hv Hvk. unfold routed, R'.
        pose proof (cost_range k v Hk Hv) as Hc. unfold node in Hv.
        destruct (Z.ltb_spec (a k v) INFINITY).
        -- replace ((k =? k) && (1 <=? v) && (v <? n) && negb (v =? k)
             && negb (a k v =? INFINITY)) with true by lia.
           exists []. simpl. split_and!; [by constructor|done|lia|done].
        -- replace (a k v =? INFINITY) with true by lia.
           by rewrite !andb_false_r, Hz.
    + intros i j Hi. unfold R'. by replace (i =? k) with false by lia.
Qed.

(** ** The nearest unsettled node *)

(** The distance the code reads at [v], [hopcnt[0]] being [INFINITY]. *)
Definition dist0 (d : Z -> Z) (v : Z) : Z := if v =? 0 then INFINITY else d v.

(** [o] is the nearest unsettled node below [w], or 0. *)
Definition nearest (k w : Z) (P d : Z -> Z) (o : Z) : Prop :=
  (o = 0 \/ node n o /\ P o <> k /\ d o < INFINITY) /\
  forall u, 1 <= u < w -> P u <> k -> dist0 d o <= d u.

Lemma nearer_spec k s P d R :
  node n k -> holds k s P d R -> search_inv k P d R ->
  (exists hv, arr (hopcnt s) n hv /\ hv 0 = Some INF /\
     forall v, node n v -> v <> k -> hv v = Some (f64_of_Z (d v))) ->
  exists o, for_loop 1 n (nearer s k) 0 = Ok o /\ nearest k n P d o.
Proof using Hn.
  intros Hk [Hpar _ _] Hinv (hv & Hhv & H0 & Hval).
  apply (for_loop_spec (fun w o => nearest k w P d o) 1 n (nearer s k) 0).
  - unfold node in Hk. lia.
  - split; [by left|]. lia.
  - intros w o Hw [Ho Hmin]. unfold nearer.
    rewrite (arr_get _ _ _ _ Hpar) by lia. cbn [rbind].
    destruct (Z.eqb_spec (P w) k) as [Hpw|Hpw].
    { exists o. split; [done|]. split; [done|]. intros u Hu Hpu.
      destruct (decide (u = w)) as [->|]; [done|]. apply Hmin; [lia|done]. }
    assert (Hwk : w <> k) by (intros ->; by rewrite (si_self _ _ _ _ Hinv) in Hpw).
    assert (Hnw : node n w) by (unfold node; lia).
    assert (Hho : hv o = Some (f64_of_Z (dist0 d o)) /\ 0 <= o < n /\ 0 <= dist0 d o <= INFINITY).
    { unfold dist0. destruct Ho as [->|(Ho & Hpo & _)]; [unfold node in Hk; split_and!; (done || lia)|].
      assert (o <> k) by (intros ->; by rewrite (si_self _ _ _ _ Hinv) in Hpo).
      pose proof (si_dist _ _ _ _ Hinv o Ho ltac:(done)). unfold node in Ho.
      replace (o =? 0) with false by lia. split_and!; [by apply Hval|lia..]. }
    destruct Hho as (Hho & Hor & Hdo).
    pose proof (si_dist _ _ _ _ Hinv w Hnw Hwk) as Hdw.
    unfold hop. rewrite !(arr_get _ _ _ _ Hhv) by lia.
    rewrite Hho, Hval by done. cbn [rbind].
    rewrite flt_Z by (apply nat_int_cost; lia).
    destruct (Z.ltb_spec (d w) (dist0 d o)).
    + exists w. split; [done|]. split; [right; split_and!; [done..|lia]|].
      intros u Hu Hpu. unfold dist0 at 1. replace (w =? 0) with false by lia.
      destruct (decide (u = w)) as [->|]; [done|].
      specialize (Hmin u ltac:(lia) Hpu). lia.
    + exists o. split; [done|]. split; [done|]. intros u Hu Hpu.
      destruct (decide (u = w)) as [->|]; [done|]. apply Hmin; [lia|done].
Qed.

(** ** Relaxing the links of the settled node *)

Definition relaxed (k o w : Z) (P d : Z -> Z) (v : Z) : bool :=
  (1 <=? v) && (v <? w) && negb (P v =? k) && (d o + a o v <? d v).

Definition relax_dist (k o w : Z) (P d : Z -> Z) (v : Z) : Z :=
  if relaxed k o w P d v then d o + a o v else d v.

Definition relax_route (k o w : Z) (P d : Z -> Z) (R : Z -> Z -> route_entry) (i j : Z)
    : route_entry :=
  if (i =? k) && relaxed k o w P d j then R k o else R i j.

Lemma relaxed_next k o w P d v :
  relaxed k o (w + 1) P d v
  = if v =? w then relaxed k o (w + 1) P d w else relaxed k o w P d v.
Proof using.
  destruct (Z.eqb_spec v w) as [->|]; [done|]. unfold relaxed.
  by replace (v <? w + 1) with (v <? w) by lia.
Qed.

Lemma relax_spec k o s P d R :
  node n k -> node n o -> o <> k -> P o = k -> d o < INFINITY -> P k = k ->
  (forall v, node n v -> v <> k -> 0 <= d v <= INFINITY) ->
  holds k s P d R ->
  exists s', for_loop 1 n (relax adj n k o) s = Ok s' /\
    holds k s' P (relax_dist k o n P d) (relax_route k o n P d R).
Proof using Hn Hadj Ha.
  intros Hk Ho Hok Hpo Hdo Hpk Hd Hs.
  assert (Hso : forall w, relaxed k o w P d o = false).
  { intros w. unfold relaxed. replace (P o =? k) with true by lia. by rewrite andb_false_r. }
  apply (for_loop_spec (fun w s' => holds k s' P (relax_dist k o w P d)
    (relax_route k o w P d R)) 1 n (relax adj n k o) s).
  - unfold node in Hk. lia.
  - assert (H1 : forall v, relaxed k o 1 P d v = false) by (intros; unfold relaxed; lia).
    destruct Hs as [Hp (hv & Hhv & Hval) Hr]. split; [done| |].
    + exists hv. split; [done|]. intros v Hv Hvk. unfold relax_dist. rewrite H1. by apply Hval.
    + apply (mat_ext n _ R); [done|]. intros i j _ _. unfold relax_route.
      by rewrite H1, andb_false_r.
  - intros w s1 Hw [Hp (hv & Hhv & Hval) Hr]. unfold relax.
    rewrite (arr_get _ _ _ _ Hp) by lia. cbn [rbind].
    assert (Hskip : relaxed k o (w + 1) P d w = false ->
      holds k s1 P (relax_dist k o (w + 1) P d) (relax_route k o (w + 1) P d R)).
    { intros Hf.
      assert (Hrw : forall v, relaxed k o (w + 1) P d v = relaxed k o w P d v).
      { intros v. rewrite relaxed_next, Hf. destruct (Z.eqb_spec v w) as [->|]; [|done].
        unfold relaxed. symmetry. by replace (w <? w) with false by lia; rewrite andb_false_r. }
      split; [done| |].
      - exists hv. split; [done|]. intros v Hv Hvk. unfold relax_dist. rewrite Hrw.
        by apply Hval.
      - apply (mat_ext n _ _ _ Hr). intros i j _ _. unfold relax_route. by rewrite Hrw. }
    destruct (Z.eqb_spec (P w) k) as [Hpw|Hpw].
    { exists s1. split; [done|]. apply Hskip. unfold relaxed. lia. }
    assert (Hwk : w <> k) by (intros ->; done).
    assert (Hnw : node n w) by (unfold node; lia).
    assert (Hww : relax_dist k o w P d w = d w).
    { unfold relax_dist, relaxed. by replace (w <? w) with false by lia; rewrite andb_false_r. }
    assert (Hoo : relax_dist k o w P d o = d o) by (unfold relax_dist; by rewrite Hso).
    pose proof (Hd o Ho Hok) as Hdo'. pose proof (Hd w Hnw Hwk) as Hdw.
    pose proof (cost_range o w Ho Hnw) as Haw.
    unfold hop. rewrite !(arr_get _ _ _ _ Hhv) by (unfold node in *; lia).
    rewrite !Hval, Hww, Hoo, ADJ_ok by done. cbn [rbind cost].
    rewrite fadd_Z, flt_Z by (apply nat_int_cost; lia).
    destruct (Z.ltb_spec (d o + a o w) (d w)) as [Hlt|Hge];
      [|exists s1; split; [done|]; apply Hskip; unfold relaxed; lia].
    assert (Ht : relaxed k o (w + 1) P d w = true) by (unfold relaxed; lia).
    rewrite (mat_get n Hn _ _ _ _ Hr) by (unfold node in *; lia). cbn [rbind].
    destruct (mat_set n Hn _ _ k w (relax_route k o w P d R k o) Hr
      ltac:(unfold node in Hk; lia) ltac:(lia)) as (rs & -> & Hrs). cbn [rbind].
    destruct (arr_set _ _ _ w (Some (f64_of_Z (d o + a o w))) Hhv ltac:(lia)) as (hs & -> & Hhs).
    cbn [rbind]. eexists. split; [done|]. split; [done| |].
    + eexists. split; [exact Hhs|]. intros v Hv Hvk. unfold relax_dist. rewrite relaxed_next.
      destruct (Z.eqb_spec v w) as [->|]; [by rewrite Ht, upd_at|].
      rewrite upd_ne by done. by apply Hval.
    + apply (mat_ext n _ _ _ Hrs). intros i j _ _. unfold relax_route, upd2.
      rewrite relaxed_next, Hso, andb_false_r.
      destruct (Z.eqb_spec i k) as [->|], (Z.eqb_spec j w) as [->|]; simpl; try done.
      by rewrite Ht.
Qed.

(** ** One step of the search *)

Lemma relax_dist_le k o w P d v : relax_dist k o w P d v <= d v.
Proof using. unfold relax_dist, relaxed. destruct (_ && _) eqn:Er; lia. Qed.

Lemma relax_dist_settled k o w P d v : P v = k -> relax_dist k o w P d v = d v.
Proof using.
  intros Hv. unfold relax_dist, relaxed. rewrite Hv, Z.eqb_refl. simpl.
  by rewrite andb_false_r.
Qed.

Lemma relax_dist_nonneg k o w P d v :
  node n o -> node n v -> 0 <= d o -> 0 <= d v -> 0 <= relax_dist k o w P d v.
Proof using Ha.
  intros Ho Hv H1 H2. pose proof (cost_range o v Ho Hv). unfold relax_dist.
  destruct (relaxed _ _ _ _ _ _); lia.
Qed.

Lemma relax_dist_bound k o P d v :
  node n v -> P v <> k -> relax_dist k o n P d v <= d o + a o v.
Proof using.
  unfold node. intros Hv Hp. unfold relax_dist. destruct (relaxed _ _ _ _ _ _) eqn:Er; [lia|].
  unfold relaxed in Er. lia.
Qed.

Lemma nearest_cases k P d o :
  nearest k n P d o -> o <> 0 ->
  node n o /\ P o <> k /\ d o < INFINITY /\
  forall u, node n u -> P u <> k -> d o <= d u.
Proof using.
  intros [[->|(Ho & Hpo & Hdo)] Hmin] Hne; [done|]. split_and!; [done..|].
  intros u Hu Hpu. specialize (Hmin u Hu Hpu). unfold dist0 in Hmin.
  by replace (o =? 0) with false in Hmin by lia.
Qed.

Section Settle.
Context (k o : Z) (P d : Z -> Z) (R : Z -> Z -> route_entry).
Hypothesis Hk : node n k.
Hypothesis Hinv : search_inv k P d R.
Hypothesis Ho : node n o.
Hypothesis Hpo : P o <> k.
Hypothesis Hdo : d o < INFINITY.
Hypothesis Hmin : forall u, node n u -> P u <> k -> d o <= d u.

Let P' := upd P o k.
Let d' := relax_dist k o n P' d.

Lemma source_ne : o <> k.
Proof using Hinv Hpo. intros Eo. apply Hpo. rewrite Eo. apply (si_self _ _ _ _ Hinv). Qed.

Lemma settled_cases u : P' u = k -> u = o \/ P u = k.
Proof using. unfold P', upd. destruct (Z.eqb_spec u o); auto. Qed.

Lemma unsettled_before v : P' v <> k -> P v <> k /\ v <> o.
Proof using. unfold P', upd. destruct (Z.eqb_spec v o); by subst. Qed.

Lemma settled_dist u : P' u = k -> d' u = d u.
Proof using. apply relax_dist_settled. Qed.

(** No settled node is farther than the one being settled. *)
Lemma settled_le u : node n u -> u <> k -> P' u = k -> d u <= d o.
Proof using Hinv Ho Hpo.
  intros Hu Huk [->|Hpu]%settled_cases; [lia|].
  apply (proj2 (si_near _ _ _ _ Hinv u Hu Huk Hpu) o Ho Hpo).
Qed.

Lemma settle_routed v : node n v -> v <> k -> routed k v (d' v) (relax_route k o n P' d R k v).
Proof using Hinv Ho Hpo Hdo Ha.
  intros Hv Hvk. unfold d', relax_dist, relax_route. rewrite Z.eqb_refl. simpl.
  pose proof (si_routed _ _ _ _ Hinv v Hv Hvk) as Hold.
  destruct (relaxed k o n P' d v) eqn:Er; [|done].
  pose proof (si_routed _ _ _ _ Hinv o Ho source_ne) as Hro.
  pose proof (si_dist _ _ _ _ Hinv v Hv Hvk).
  unfold relaxed in Er. unfold routed in Hro |- *.
  replace (d o <? INFINITY) with true in Hro by lia.
  replace (d o + a o v <? INFINITY) with true by lia.
  destruct Hro as (p & Hp & He & Hc & Hr). exists (p ++ [v]).
  change (next_hop (R k o) :: p ++ [v]) with ((next_hop (R k o) :: p) ++ [v]).
  split_and!; [|by rewrite walk_end_snoc|by rewrite walk_cost_snoc, Hc, He|done].
  apply Forall_app. split; [done|by constructor].
Qed.

Lemma settle_inv : search_inv k P' d' (relax_route k o n P' d R).
Proof using Hinv Hk Ho Hpo Hdo Hmin Ha.
  pose proof source_ne as Hok. pose proof (si_dist _ _ _ _ Hinv o Ho Hok) as Hd0.
  split.
  - unfold P', upd. replace (k =? o) with false by lia. apply (si_self _ _ _ _ Hinv).
  - intros v Hv Hvk. pose proof (si_dist _ _ _ _ Hinv v Hv Hvk) as Hd.
    pose proof (relax_dist_le k o n P' d v). split; [|unfold d'; lia].
    apply relax_dist_nonneg; [done..|lia|lia].
  - intros u Hu Huk Hpu. pose proof (settled_le u Hu Huk Hpu) as Hle.
    rewrite (settled_dist u) by done. split; [lia|].
    intros v Hv [Hpv Hvo]%unsettled_before. specialize (Hmin v Hv Hpv).
    unfold d', relax_dist. pose proof (cost_range o v Ho Hv).
    destruct (relaxed _ _ _ _ _ _); lia.
  - intros v Hv Hvk. pose proof (relax_dist_le k o n P' d v).
    pose proof (si_link _ _ _ _ Hinv v Hv Hvk). unfold d'. lia.
  - intros u v Hu Huk Hpu Hv Hvk. rewrite (settled_dist u) by done.
    pose proof (relax_dist_le k o n P' d v) as Hle. fold d' in Hle.
    destruct (settled_cases u Hpu) as [->|Hpu'].
    + destruct (decide (P' v = k)) as [Hpv|Hpv].
      * pose proof (settled_le v Hv Hvk Hpv). pose proof (cost_range o v Ho Hv).
        rewrite (settled_dist v Hpv). lia.
      * by apply relax_dist_bound.
    + pose proof (si_relaxed _ _ _ _ Hinv u v Hu Huk Hpu' Hv Hvk). lia.
  - intros v Hv Hvk. by apply settle_routed.
Qed.
End Settle.

(** How many nodes are settled. *)
Definition settled (k : Z) (P : Z -> Z) : nat :=
  length (filter (fun v => P v = k) (seqZ 1 (n - 1))).

Lemma settled_bound k P : node n k -> Z.of_nat (settled k P) <= n - 1.
Proof using.
  unfold node, settled. intros Hk.
  pose proof (length_filter (fun v => P v = k) (seqZ 1 (n - 1))) as H.
  rewrite length_seqZ in H. lia.
Qed.

Lemma filter_upd_out (k : Z) (P : Z -> Z) o (l : list Z) :
  o ∉ l -> filter (fun v => upd P o k v = k) l = filter (fun v => P v = k) l.
Proof using.
  induction l as [|x l IH]; intros Ho; [done|]. apply not_elem_of_cons in Ho as [Hx Ho].
  rewrite !filter_cons, (IH Ho), upd_ne by done. done.
Qed.

Lemma filter_upd (k : Z) (P : Z -> Z) o (l : list Z) :
  NoDup l -> o ∈ l -> P o <> k ->
  length (filter (fun v => upd P o k v = k) l) = S (length (filter (fun v => P v = k) l)).
Proof using.
  intros Hl Ho Hpo. induction Hl as [|x l Hx Hl IH]; [by apply elem_of_nil in Ho|].
  rewrite !filter_cons. destruct (decide (x = o)) as [->|Hxo].
  - rewrite upd_at. rewrite decide_True by done. rewrite decide_False by done. simpl.
    by rewrite filter_upd_out.
  - rewrite upd_ne by done. apply elem_of_cons in Ho as [->|Ho]; [done|].
    destruct (decide (P x = k)); simpl; rewrite IH by done; done.
Qed.

Lemma settled_step k P o :
  node n o -> P o <> k -> settled k (upd P o k) = S (settled k P).
Proof using.
  unfold node. intros Ho Hpo. apply filter_upd; [apply NoDup_seqZ| |done].
  apply elem_of_seqZ. lia.
Qed.

Lemma settled_source k P : node n k -> P k = k -> (1 <= settled k P)%nat.
Proof using.
  unfold node, settled. intros Hk Hp.
  assert (Hin : k ∈ filter (fun v => P v = k) (seqZ 1 (n - 1))).
  { apply list_elem_of_filter. split; [done|]. apply elem_of_seqZ. lia. }
  destruct (filter _ _); [by apply elem_of_nil in Hin|]. simpl. lia.
Qed.

(** Nothing is left to settle. *)
Definition finished (k : Z) (P d : Z -> Z) : Prop :=
  forall v, node n v -> P v <> k -> d v = INFINITY.

Lemma extend_spec k i s P d R :
  node n k -> holds k s P d R -> search_inv k P d R ->
  finished k P d \/ i <= Z.of_nat (settled k P) ->
  exists s' P' d' R', extend adj n k s = Ok s' /\ holds k s' P' d' R' /\
    search_inv k P' d' R' /\
    (finished k P' d' \/ i + 1 <= Z.of_nat (settled k P')) /\
    forall i' j, i' <> k -> R' i' j = R i' j.
Proof using Hn Hadj Ha.
  intros Hk [Hp (hv & Hhv & Hval) Hr] Hinv Hpg. unfold extend.
  destruct (arr_set _ _ _ 0 (Some INF) Hhv ltac:(unfold node in Hk; lia)) as (hs & -> & Hhs).
  cbn [rbind]. set (s1 := Search (parent s) hs (routes s)).
  assert (Hval1 : forall v, node n v -> v <> k -> upd hv 0 (Some INF) v = Some (f64_of_Z (d v))).
  { intros v Hv Hvk. rewrite upd_ne by (unfold node in Hv; lia). by apply Hval. }
  assert (Hs1 : holds k s1 P d R) by (split; [done|by eexists|done]).
  destruct (nearer_spec k s1 P d R Hk Hs1 Hinv) as (o & -> & Hnear).
  { eexists. split_and!; [exact Hhs|apply upd_at|exact Hval1]. }
  cbn [rbind].
  assert (Hor : 0 <= o < n).
  { destruct Hnear as [[->|(Ho & _)] _]; unfold node in *; lia. }
  destruct (arr_set _ _ _ o k Hp Hor) as (ps & E1 & Hps).
  change (parent s1) with (parent s). rewrite E1. cbn [rbind].
  destruct (Z.eqb_spec o 0) as [->|Hne].
  - eexists _, (upd P 0 k), d, R. split; [done|].
    assert (Hagree : forall v, node n v -> upd P 0 k v = P v).
    { intros v Hv. apply upd_ne. unfold node in Hv. lia. }
    split; [split; [done|by eexists|done]|]. split; [|split; [|done]].
    + destruct Hinv as [H1 H2 H3 H4 H5 H6]. split; [by rewrite Hagree|done| |done| |done].
      * intros u Hu Huk Hpu. rewrite Hagree in Hpu by done.
        destruct (H3 u Hu Huk Hpu) as [H7 H8]. split; [done|].
        intros v Hv Hpv. rewrite Hagree in Hpv by done. by apply H8.
      * intros u v Hu Huk Hpu. rewrite Hagree in Hpu by done. by apply H5.
    + left. intros v Hv Hpv. rewrite Hagree in Hpv by done.
      destruct Hnear as [_ Hmin]. specialize (Hmin v Hv Hpv). unfold dist0 in Hmin. simpl in Hmin.
      assert (v <> k) by (intros ->; by rewrite (si_self _ _ _ _ Hinv) in Hpv).
      pose proof (si_dist _ _ _ _ Hinv v Hv ltac:(done)). lia.
  - destruct (nearest_cases k P d o Hnear Hne) as (Ho & Hpo & Hdo & Hmin).
    pose proof (source_ne k o P d R Hinv Hpo) as Hok.
    destruct (relax_spec k o (Search ps hs (routes s)) (upd P o k) d R) as (s' & E2 & Hs');
      [done|done|done|apply upd_at|done| | |split; [done|by eexists|done]|].
    { rewrite upd_ne by done. apply (si_self _ _ _ _ Hinv). }
    { apply (si_dist _ _ _ _ Hinv). }
    exists s', (upd P o k). do 2 eexists. split; [exact E2|]. split; [exact Hs'|].
    split; [by apply settle_inv|]. split.
    + right. rewrite settled_step by done. destruct Hpg as [Hfin|]; [|lia].
      rewrite (Hfin o Ho Hpo) in Hdo. lia.
    + intros i' j Hi. unfold relax_route. by replace (i' =? k) with false by lia.
Qed.

(** ** A row of the route matrix *)

(** The distances of all nodes from [k], and the routes they go with. *)
Definition row_ok (k : Z) (R : Z -> Z -> route_entry) : Prop :=
  exists d : Z -> Z,
    (forall v, node n v -> v <> k -> 0 <= d v <= INFINITY /\ d v <= a k v /\
       routed k v (d v) (R k v)) /\
    (forall u v, node n u -> node n v -> u <> k -> v <> k -> d v <= d u + a u v).

Lemma finished_row k P d R :
  search_inv k P d R -> finished k P d -> row_ok k R.
Proof using Ha.
  intros [H1 H2 H3 H4 H5 H6] Hfin. exists d. split.
  - intros v Hv Hvk. split; [|split]; auto.
  - intros u v Hu Hv Huk Hvk. destruct (decide (P u = k)) as [Hpu|Hpu]; [by apply H5|].
    rewrite (Hfin u Hu Hpu). pose proof (H2 v Hv Hvk). pose proof (cost_range u v Hu Hv). lia.
Qed.

Lemma from_source_spec k s R :
  node n k -> Z.of_nat (length (hopcnt s)) = n -> mat (routes s) n R ->
  (forall j, R k j = no_route) ->
  exists s' R', from_source adj n k s = Ok s' /\ Z.of_nat (length (hopcnt s')) = n /\
    mat (routes s') n R' /\ row_ok k R' /\ (forall i j, i <> k -> R' i j = R i j).
Proof using Hn Hadj Ha.
  intros Hk Hl HR Hz. unfold from_source.
  destruct (neighbours_spec k (Search (seqZ 0 n) (hopcnt s) (routes s)) R) as
    (s1 & d1 & R1 & -> & Hs1 & Hinv1 & Hfr1); [done..|]. cbn [rbind].
  destruct (for_loop_spec (fun i s => exists P d R', holds k s P d R' /\ search_inv k P d R' /\
    (finished k P d \/ i <= Z.of_nat (settled k P)) /\
    forall i' j, i' <> k -> R' i' j = R i' j) 1 n (fun _ => extend adj n k) s1)
    as (s' & E' & P & d & R' & Hs & Hinv & Hpg & Hfr).
  - unfold node in Hk. lia.
  - exists (fun v => v), d1, R1. split_and!; [done..| |done]. right.
    pose proof (settled_source k (fun v => v) Hk eq_refl). lia.
  - intros i s2 Hi (P & d & R2 & Hs2 & Hinv2 & Hpg2 & Hfr2).
    destruct (extend_spec k i s2 P d R2 Hk Hs2 Hinv2 Hpg2)
      as (s3 & P3 & d3 & R3 & -> & Hs3 & Hinv3 & Hpg3 & Hfr3).
    exists s3. split; [done|]. exists P3, d3, R3. split_and!; [done..|].
    intros i' j Hi'. by rewrite Hfr3, Hfr2.
  - exists s', R'. destruct Hs as [_ (hv & [Hlen _] & _) Hrt]. split_and!; [done..| |done].
    apply (finished_row k P d R' Hinv). destruct Hpg as [Hfin|Hall]; [done|].
    pose proof (settled_bound k P Hk). lia.
Qed.

Lemma row_ok_ext k R R' : (forall j, R' k j = R k j) -> row_ok k R -> row_ok k R'.
Proof using.
  intros HR (d & H1 & H2). exists d. split; [|done].
  intros v Hv Hvk. rewrite HR. by apply H1.
Qed.

(** The whole computation ends; each row holds the routes of its search, and
    the diagonal the nodes themselves. *)
Lemma all_routes_spec :
  1 <= n ->
  exists rs R, all_routes adj n = Ok rs /\ mat rs n R /\
    (forall k, node n k -> R k k = RouteEntry k NULL) /\
    forall k, node n k -> exists R', row_ok k R' /\ forall v, v <> k -> R k v = R' k v.
Proof using Hn Hadj Ha.
  intros H1. unfold all_routes, square.
  assert (Hsq : 0 <= n * n < 2 ^ 31).
  { pose proof Hn as Hb. unfold side_ok in Hb. split; [nia|].
    apply Z.le_lt_trans with (46340 * 46340); [nia|lia]. }
  rewrite wrap_small by lia. destruct (Z.ltb_spec (n * n) 0); [lia|]. cbn [rbind].
  set (s0 := Search _ _ _).
  destruct (for_loop_spec (fun k s => Z.of_nat (length (hopcnt s)) = n /\
    exists R, mat (routes s) n R /\ (forall i, node n i -> i < k -> row_ok i R) /\
      forall i j, k <= i -> R i j = no_route) 1 n (from_source adj n) s0)
    as (s & -> & _ & R & HR & Hrows & _).
  - done.
  - split; [simpl; rewrite length_replicate; lia|].
    exists (fun _ _ => no_route). split_and!; [by apply mat_replicate| |done].
    unfold node. lia.
  - intros k s Hk (Hl & R & HR & Hrows & Hrest).
    destruct (from_source_spec k s R Hk Hl HR) as (s' & R' & -> & Hl' & HR' & Hrow & Hfr).
    { intros j. apply Hrest. lia. }
    exists s'. split; [done|]. split; [done|]. exists R'. split; [done|]. split.
    + intros i Hi Hlt. destruct (decide (i = k)) as [->|Hik]; [done|].
      apply (row_ok_ext i R); [intros j; by apply Hfr|]. apply Hrows; [done|lia].
    + intros i j Hle. rewrite Hfr by lia. apply Hrest. lia.
  - cbn [rbind].
    destruct (for_loop_spec (fun k rs => exists R1, mat rs n R1 /\
      (forall i, node n i -> i < k -> R1 i i = RouteEntry i NULL) /\
      forall i j, i <> j -> R1 i j = R i j) 1 n (route_to_self n) (routes s))
      as (rs & -> & R1 & HR1 & Hdiag & Hoff).
    + done.
    + exists R. split_and!; [done|unfold node; lia|done].
    + intros k rs Hk (R1 & HR1 & Hdiag & Hoff). unfold route_to_self.
      destruct (mat_set n Hn _ _ k k (RouteEntry k NULL) HR1 ltac:(lia) ltac:(lia))
        as (rs' & -> & HR2).
      exists rs'. split; [done|]. eexists. split; [exact HR2|]. split.
      * intros i Hi Hlt. destruct (decide (i = k)) as [->|]; [apply upd2_at|].
        rewrite upd2_ne by congruence. apply Hdiag; [done|lia].
      * intros i j Hij. rewrite upd2_ne by congruence. by apply Hoff.
    + exists rs, R1. split_and!; [done|done| |].
      * intros k Hk. apply Hdiag; [done|]. unfold node in Hk. lia.
      * intros k Hk. exists R. split; [apply Hrows; [done|]; unfold node in Hk; lia|].
        intros v Hv. apply Hoff. done.
Qed.

(** ** Shortest paths *)

(** [r] is the route from [k] to [v]: the first hop of a walk no walk is
    shorter than, or none when every walk costs [INFINITY] or more. *)
Definition best_route (k v : Z) (r : route_entry) : Prop :=
  (r = no_route /\
   forall p, Forall (node n) p -> walk_end k p = v -> INFINITY <= walk_cost a k p) \/
  (exists p, let h := next_hop r in
    Forall (node n) (h :: p) /\ walk_end k (h :: p) = v /\ route_ent r = E k h /\
    walk_cost a k (h :: p) < INFINITY /\
    forall q, Forall (node n) q -> walk_end k q = v ->
      walk_cost a k (h :: p) <= walk_cost a k q).

(** No walk from [k] is cheaper than the distance the search gives. *)
Lemma row_walk k d u p :
  (forall v, node n v -> v <> k -> 0 <= d v <= INFINITY /\ d v <= a k v) ->
  (forall u v, node n u -> node n v -> u <> k -> v <> k -> d v <= d u + a u v) ->
  node n k -> node n u -> Forall (node n) p ->
  let D v := if v =? k then 0 else d v in
  D (walk_end u p) <= D u + walk_cost a u p.
Proof using Ha.
  intros H1 H2 Hk Hu Hp D. revert u Hu.
  induction Hp as [|v p Hv Hp IH]; intros u Hu; simpl; [lia|].
  specialize (IH v Hv). pose proof (cost_range u v Hu Hv) as Hc.
  assert (Hstep : D v <= D u + a u v).
  { unfold D. destruct (Z.eqb_spec v k) as [->|Hvk], (Z.eqb_spec u k) as [->|Huk]; [lia| | |].
    - pose proof (H1 u Hu Huk). lia.
    - pose proof (H1 v Hv Hvk). lia.
    - by apply H2. }
  lia.
Qed.

Lemma row_best k v R :
  node n k -> node n v -> v <> k -> row_ok k R -> best_route k v (R k v).
Proof using Ha.
  intros Hk Hv Hvk (d & H1 & H2).
  assert (Hbest : forall p, Forall (node n) p -> walk_end k p = v -> d v <= walk_cost a k p).
  { intros p Hp He. pose proof (row_walk k d k p) as Hw. cbv zeta in Hw.
    rewrite He, Z.eqb_refl in Hw. replace (v =? k) with false in Hw by lia.
    apply Hw; try done. intros u Hu Huk. destruct (H1 u Hu Huk) as (? & ? & _). lia. }
  destruct (H1 v Hv Hvk) as (_ & _ & Hr). unfold routed in Hr.
  destruct (Z.ltb_spec (d v) INFINITY) as [Hlt|Hge].
  - right. destruct Hr as (p & Hp & He & Hc & Hr). exists p.
    split_and!; [done..|by rewrite Hc|]. intros q Hq Hqe. rewrite Hc. by apply Hbest.
  - left. split; [done|]. intros p Hp He. specialize (Hbest p Hp He). lia.
Qed.
End Search.
