(* ===== verification/RouteTheorems.v ===== *)
(** * What [RouteLogic] computes

    [links_are r m]: the matrix of the object [r] holds the costs [m].  The
    operations on the matrix keep it up to date whatever growth they cause,
    the routes computed from it are first hops of least-cost walks, and
    following them hop by hop reaches the destination. *)

From stdpp Require Import base numbers list.
From Stdlib Require Import ZArith Lia ZifyBool.
From S2P Require Import Prelude.
From S2P Require Import Float64.
From S2P Require Import FloatInt.
From S2P Require Import Array.
From S2P Require Import Route.
From S2P Require Import RouteProps.

Open Scope Z_scope.

(** ** The matrix of costs *)

Definition no_link (i j : Z) : f64 := INF.

(** The costs of [r] are [m]; [INF] beyond its size. *)
Definition links_are (r : RouteLogic) (m : Z -> Z -> f64) : Prop :=
  side_ok (size_ r) /\
  (forall i j, 0 <= i -> 0 <= j -> size_ r <= i \/ size_ r <= j -> m i j = INF) /\
  (adj_ r = Null /\ size_ r = 0 \/
   exists l E, adj_ r = Block l /\ 1 <= size_ r /\
     mat l (size_ r) (fun i j => AdjEntry (m i j) (E i j))).

(** The indices the matrix can grow to: the square of twice an index fits an
    [int]. *)
Definition index_ok (x : Z) : Prop := 0 <= x <= 23170.

Lemma links_new : links_are new_RouteLogic no_link.
Proof. split; [by unfold side_ok|]. split; [done|by left]. Qed.

(** Copying the smaller matrix into the larger one. *)
Lemma copy_costs_spec old osize m mo f Eo l E0 :
  side_ok osize -> side_ok m -> osize <= m ->
  mat old osize (fun i j => AdjEntry (mo i j) (Eo i j)) ->
  mat l m (fun i j => AdjEntry (f i j) (E0 i j)) ->
  exists l', copy_costs old osize m l = Ok l' /\
    mat l' m (fun i j => AdjEntry (if (i <? osize) && (j <? osize) then mo i j else f i j)
                           (E0 i j)).
Proof.
  intros Ho Hm Hle Hold Hl. unfold copy_costs.
  set (V i j i' j' := AdjEntry (if (i' <? i) && (j' <? osize) || (i' =? i) && (j' <? j)
                                then mo i' j' else f i' j') (E0 i' j')).
  destruct (for_loop_spec (fun i l => mat l m (V i 0)) 0 osize
    (fun i l => for_loop 0 osize (copy_cost old osize m i) l) l) as (l' & -> & Hl').
  - unfold side_ok in Ho. lia.
  - apply (mat_ext m _ _ _ Hl). intros i j Hi Hj. unfold V.
    by replace ((i <? 0) && (j <? osize) || (i =? 0) && (j <? 0)) with false by lia.
  - intros i l1 Hi Hl1.
    destruct (for_loop_spec (fun j l => mat l m (V i j)) 0 osize (copy_cost old osize m i) l1)
      as (l2 & -> & Hl2); [lia|done| |].
    + intros j l2 Hj Hl2. unfold copy_cost.
      rewrite (mat_get osize Ho _ _ _ _ Hold), (mat_get m Hm _ _ _ _ Hl2) by lia.
      cbn [rbind cost adj_ent]. destruct (mat_set m Hm _ _ i j (AdjEntry (mo i j) (E0 i j)) Hl2
        ltac:(lia) ltac:(lia)) as (l3 & E3 & Hl3).
      change (adj_ent (V i j i j)) with (E0 i j). rewrite E3. exists l3. split; [done|].
      apply (mat_ext m _ _ _ Hl3). intros i' j' Hi' Hj'. unfold upd2, V.
      destruct (Z.eqb_spec i' i) as [->|], (Z.eqb_spec j' j) as [->|]; simpl.
      * by replace ((i <? i) && (j <? osize) || (j <? j + 1)) with true by lia.
      * by replace (j' <? j + 1) with (j' <? j) by lia.
      * done.
      * done.
    + exists l2. split; [done|]. apply (mat_ext m _ _ _ Hl2). intros i' j' Hi' Hj'. unfold V.
      by replace ((i' <? i + 1) && (j' <? osize) || (i' =? i + 1) && (j' <? 0))
        with ((i' <? i) && (j' <? osize) || (i' =? i) && (j' <? osize)) by lia.
  - exists l'. split; [done|]. apply (mat_ext m _ _ _ Hl'). intros i j Hi Hj. unfold V.
    by replace ((i <? osize) && (j <? osize) || (i =? osize) && (j <? 0))
      with ((i <? osize) && (j <? osize)) by lia.
Qed.

(** [check] makes room and changes no cost. *)
Lemma check_spec fuel x r m :
  links_are r m -> index_ok x -> (15 <= fuel)%nat ->
  exists r', rl_check fuel x r = Ok r' /\ links_are r' m /\ x < size_ r' /\
    size_ r <= size_ r' /\ route_ r' = route_ r.
Proof.
  intros (Hs & Hout & Hadj) Hx Hf. unfold index_ok, side_ok in Hx, Hs. unfold rl_check.
  destruct (Z.ltb_spec x (size_ r)) as [|Hge]; [by exists r|].
  set (m0 := if size_ r =? 0 then 16 else size_ r).
  assert (Hm0 : 1 <= m0 /\ (m0 = 16 \/ m0 <= x) /\ size_ r <= m0) by (unfold m0; destruct (Z.eqb_spec (size_ r) 0); lia).
  assert (Hp : 2 ^ 15 <= 2 ^ Z.of_nat fuel) by (apply Z.pow_le_mono_r; lia).
  assert (Hfm : x < m0 * 2 ^ Z.of_nat fuel).
  { apply Z.lt_le_trans with (1 * 2 ^ 15); [lia|]. apply Z.mul_le_mono_nonneg; lia. }
  destruct (double_up_spec fuel x m0) as (m' & -> & Hlt & Hle); [lia..|].
  assert (Hside : side_ok m') by (unfold side_ok; lia). cbn [rbind]. unfold rl_alloc, square.
  assert (Hsq : 0 <= m' * m' < 2 ^ 31).
  { split; [nia|]. apply Z.le_lt_trans with (46340 * 46340); [nia|lia]. }
  rewrite wrap_small by lia. destruct (Z.ltb_spec (m' * m') 0); [lia|].
  cbn [rbind deref adj_ set_adj].
  pose proof (mat_replicate m' Hside (AdjEntry INF NULL)) as Hnew.
  destruct Hadj as [[E1 E2] | (l & E & El & H1 & Hl)].
  - rewrite E2. replace (0 <=? 0) with true by lia. cbn [rbind]. rewrite E1. cbn [delete_array rbind].
    eexists. split; [done|]. split; [|split; [done|split; [cbn; lia|done]]].
    split; [done|]. split; [intros i j Hi Hj _; apply Hout; lia|]. right.
    exists (replicate (Z.to_nat (m' * m')) (AdjEntry INF NULL)), (fun _ _ => NULL).
    split_and!; [done|cbn; lia|].
    apply (mat_ext m' _ _ _ Hnew). intros i j Hi Hj. by rewrite Hout by lia.
  - rewrite El. replace (size_ r <=? 0) with false by lia. cbn [deref rbind].
    destruct (copy_costs_spec l (size_ r) m' m (fun _ _ => INF) E _ (fun _ _ => NULL)
      Hs Hside ltac:(lia) Hl Hnew) as (l' & -> & Hl').
    cbn [delete_array rbind]. eexists.
    split; [done|]. split; [|split; [done|split; [cbn; lia|done]]].
    split; [done|]. split; [intros i j Hi Hj Hij; apply Hout; cbn in Hij; lia|]. right.
    exists l', (fun _ _ => NULL). split_and!; [done|cbn; lia|].
    apply (mat_ext m' _ _ _ Hl'). intros i j Hi Hj.
    destruct ((i <? size_ r) && (j <? size_ r)) eqn:Eij; [done|]. rewrite Hout by lia. done.
Qed.

(** Writing a cost inside the matrix. *)
Lemma links_upd r m l E x y c e l' :
  links_are r m -> adj_ r = Block l -> 0 <= x < size_ r -> 0 <= y < size_ r ->
  mat l' (size_ r) (upd2 (fun i j => AdjEntry (m i j) (E i j)) x y (AdjEntry c e)) ->
  links_are (set_adj (Block l') r) (upd2 m x y c).
Proof.
  intros (Hs & Hout & Hadj) El Hx Hy Hl'. split; [done|]. split.
  - intros i j Hi Hj Hij. cbn in Hij. rewrite upd2_ne; [by apply Hout|]. intros [= -> ->]. lia.
  - right. exists l', (upd2 E x y e). split_and!; [done|cbn; lia|].
    apply (mat_ext _ _ _ _ Hl'). intros i j _ _. unfold upd2. by destruct (_ && _).
Qed.

Lemma insert_spec fuel x y c r m :
  links_are r m -> index_ok x -> index_ok y -> (15 <= fuel)%nat ->
  exists r', rl_insert fuel x y c r = Ok r' /\ links_are r' (upd2 m x y c) /\
    x < size_ r' /\ y < size_ r' /\ size_ r <= size_ r' /\ route_ r' = route_ r.
Proof.
  intros Hr Hx Hy Hf. unfold rl_insert.
  destruct (check_spec fuel x r m Hr Hx Hf) as (r1 & -> & Hr1 & Hx1 & Hle1 & Hrt1).
  cbn [rbind].
  destruct (check_spec fuel y r1 m Hr1 Hy Hf) as (r2 & -> & Hr2 & Hy2 & Hle2 & Hrt2).
  cbn [rbind]. pose proof Hr2 as (Hs & _ & [[_ E2] | (l & E & El & H1 & Hl)]).
  { unfold index_ok in Hy. lia. }
  unfold index_ok in Hx, Hy. rewrite El. cbn [deref rbind].
  rewrite (mat_get _ Hs _ _ _ _ Hl) by lia. cbn [rbind adj_ent].
  destruct (mat_set _ Hs _ _ x y (AdjEntry c (E x y)) Hl ltac:(lia) ltac:(lia))
    as (l' & -> & Hl').
  cbn [rbind]. eexists. split; [done|].
  split; [apply (links_upd r2 m l E x y c (E x y) l'); (done || lia)|].
  cbn. split_and!; [lia|lia|lia|congruence].
Qed.

Lemma reset_spec x y r m :
  links_are r m -> 0 <= x < size_ r -> 0 <= y < size_ r ->
  exists r', rl_reset x y r = Ok r' /\ links_are r' (upd2 m x y INF) /\
    size_ r' = size_ r /\ route_ r' = route_ r.
Proof.
  intros Hr Hx Hy. unfold rl_reset, assert_that.
  replace (x <? size_ r) with true by lia. replace (y <? size_ r) with true by lia. cbn [rbind].
  pose proof Hr as (Hs & _ & [[_ E2] | (l & E & El & H1 & Hl)]); [lia|].
  rewrite El. cbn [deref rbind]. rewrite (mat_get _ Hs _ _ _ _ Hl) by lia. cbn [rbind adj_ent].
  destruct (mat_set _ Hs _ _ x y (AdjEntry INF (E x y)) Hl ltac:(lia) ltac:(lia))
    as (l' & -> & Hl').
  cbn [rbind]. eexists. split; [done|].
  split; [apply (links_upd r m l E x y INF (E x y) l'); (done || lia)|done].
Qed.

(** ** Edits of the matrix *)

(** What a script does to the costs before it asks for routes. *)
Variant edit := Link (x y : Z) (c : f64) | Unlink (x y : Z).

Definition run_edit (fuel : nat) (e : edit) (r : RouteLogic) : result RouteLogic :=
  match e with
  | Link x y c => rl_insert fuel x y c r
  | Unlink x y => rl_reset x y r
  end.

Fixpoint run_edits (fuel : nat) (es : list edit) (r : RouteLogic) : result RouteLogic :=
  match es with
  | [] => Ok r
  | e :: es => let! r := run_edit fuel e r in run_edits fuel es r
  end.

(** The costs the edits ask for. *)
Definition spec_edit (m : Z -> Z -> f64) (e : edit) : Z -> Z -> f64 :=
  match e with Link x y c => upd2 m x y c | Unlink x y => upd2 m x y INF end.

Definition spec_edits (m : Z -> Z -> f64) (es : list edit) : Z -> Z -> f64 :=
  foldl spec_edit m es.

(** Only a pair of indices that have been linked before is reset. *)
Fixpoint edits_legal (seen : list Z) (es : list edit) : Prop :=
  match es with
  | [] => True
  | Link x y _ :: es => index_ok x /\ index_ok y /\ edits_legal (x :: y :: seen) es
  | Unlink x y :: es => x ∈ seen /\ y ∈ seen /\ edits_legal seen es
  end.

(** The cost the object keeps for a pair. *)
Definition cost_at (x y : Z) (r : RouteLogic) : result f64 :=
  let! l := deref (adj_ r) in
  let! e := aget l (INDEX x y (size_ r)) in
  Ok (cost e).

Lemma run_edits_spec fuel es seen r m :
  (15 <= fuel)%nat -> links_are r m -> edits_legal seen es ->
  Forall (fun x => 0 <= x < size_ r) seen ->
  exists r', run_edits fuel es r = Ok r' /\ links_are r' (spec_edits m es) /\
    size_ r <= size_ r' /\ route_ r' = route_ r.
Proof.
  intros Hf. revert seen r m. induction es as [|e es IH]; intros seen r m Hr Hl Hs; [by exists r|].
  rewrite Forall_forall in Hs. cbn [run_edits spec_edits foldl].
  destruct e as [x y c|x y]; cbn [run_edit spec_edit].
  - destruct Hl as (Hx & Hy & Hl).
    destruct (insert_spec fuel x y c r m Hr Hx Hy Hf) as (r1 & -> & Hr1 & H1 & H2 & H3 & H4).
    cbn [rbind]. unfold index_ok in Hx, Hy.
    destruct (IH (x :: y :: seen) r1 (upd2 m x y c) Hr1 Hl) as (r2 & -> & Hr2 & H5 & H6).
    { repeat constructor; [lia..|]. rewrite Forall_forall. intros z Hz. specialize (Hs z Hz). lia. }
    exists r2. split_and!; [done|done|lia|congruence].
  - destruct Hl as (Hx & Hy & Hl).
    destruct (reset_spec x y r m Hr) as (r1 & -> & Hr1 & H3 & H4); [by apply Hs..|].
    cbn [rbind].
    destruct (IH seen r1 (upd2 m x y INF) Hr1 Hl) as (r2 & -> & Hr2 & H5 & H6).
    { rewrite Forall_forall, H3. done. }
    exists r2. split_and!; [done|done|lia|congruence].
Qed.

Lemma cost_at_spec r m x y :
  links_are r m -> 0 <= x < size_ r -> 0 <= y < size_ r -> cost_at x y r = Ok (m x y).
Proof.
  intros (Hs & _ & [[_ E2] | (l & E & El & _ & Hl)]) Hx Hy; [lia|].
  unfold cost_at. rewrite El. cbn [deref rbind]. by rewrite (mat_get _ Hs _ _ _ _ Hl).
Qed.

(** C31: [RouteLogic::insert], [check] and [reset] keep a matrix that refines
    the function from pairs of nodes to costs: whatever links are added, in
    whatever order and however often the matrix is reallocated on the way,
    the object holds for each pair the last cost given to it, and INFINITY
    for a pair never linked or reset since. *)
Theorem cost_matrix_refines_map fuel es :
  (15 <= fuel)%nat -> edits_legal [] es ->
  exists r, run_edits fuel es new_RouteLogic = Ok r /\
    (forall x y, 0 <= x < size_ r -> 0 <= y < size_ r ->
       cost_at x y r = Ok (spec_edits no_link es x y)) /\
    (forall x y, 0 <= x -> 0 <= y -> size_ r <= x \/ size_ r <= y ->
       spec_edits no_link es x y = INF).
Proof.
  intros Hf Hl.
  destruct (run_edits_spec fuel es [] new_RouteLogic no_link Hf links_new Hl)
    as (r & -> & Hr & _); [done|].
  exists r. split; [done|]. split; [intros; by apply cost_at_spec|apply Hr].
Qed.

Definition grow_edits : list edit := [Link 1 2 f1; Link 2 40 f1; Unlink 1 2].

Lemma cost_matrix_refines_map_witness :
  edits_legal [] grow_edits /\
  exists r, run_edits 15 grow_edits new_RouteLogic = Ok r /\
    (forall x y, 0 <= x < size_ r -> 0 <= y < size_ r ->
       cost_at x y r = Ok (spec_edits no_link grow_edits x y)) /\
    (forall x y, 0 <= x -> 0 <= y -> size_ r <= x \/ size_ r <= y ->
       spec_edits no_link grow_edits x y = INF).
Proof.
  assert (H : edits_legal [] grow_edits).
  { cbn. unfold index_ok. split_and!; try lia; try done; rewrite !elem_of_cons; lia. }
  split; [exact H|]. apply (cost_matrix_refines_map 15 grow_edits); [lia|exact H].
Defined.

(** ** Routes *)

Definition is_walk (n k v : Z) (p : list Z) : Prop := Forall (node n) p /\ walk_end k p = v.

(** [p] is a walk from [k] to [v] of least cost, and that cost is finite. *)
Definition shortest (n : Z) (a : Z -> Z -> Z) (k v : Z) (p : list Z) : Prop :=
  is_walk n k v p /\ walk_cost a k p < INFINITY /\
  forall q, is_walk n k v q -> walk_cost a k p <= walk_cost a k q.

(** [h] is the first hop of a shortest walk, or 0 when there is none. *)
Definition first_hop (n : Z) (a : Z -> Z -> Z) (k v h : Z) : Prop :=
  (h = 0 /\ forall p, is_walk n k v p -> INFINITY <= walk_cost a k p) \/
  (node n h /\ exists p, shortest n a k v (h :: p)).

Lemma delete_live {A} (b : block A) : b <> Freed -> delete_array b = Ok tt.
Proof. by destruct b. Qed.

(** Reading the route matrix through [lookup_flat]. *)
Lemma lookup_flat_mat r rs R k v :
  side_ok (size_ r) -> route_ r = Block rs -> mat rs (size_ r) R ->
  node (size_ r) k -> node (size_ r) v -> 0 <= next_hop (R k v) < size_ r ->
  lookup_flat (k - 1) (v - 1) r = Ok (next_hop (R k v) - 1).
Proof.
  unfold node, side_ok. intros Hs Er HR Hk Hv Hh. unfold lookup_flat. rewrite Er.
  replace (k - 1 + 1) with k by lia. replace (v - 1 + 1) with v by lia.
  rewrite (wrap_small k), (wrap_small v) by lia. cbn [is_null].
  replace ((size_ r <=? k) || (size_ r <=? v)) with false by lia. cbn [deref rbind].
  rewrite (mat_get _ Hs _ _ _ _ HR) by lia. cbn [rbind]. f_equal.
  apply wrap_i32_id. unfold in_i32. lia.
Qed.

Lemma best_first_hop n a E k v r :
  1 <= n -> best_route n a E k v r -> 0 <= next_hop r < n /\ first_hop n a k v (next_hop r).
Proof.
  intros Hn [[-> Hno] | (p & Hp & He & _ & Hc & Hb)].
  - split; [simpl; lia|]. left. split; [done|]. intros p [Hp He]. by apply Hno.
  - inversion Hp as [|? ? Hh Hp1]; subst. split; [unfold node in Hh; lia|]. right. split; [done|].
    exists p. split; [done|]. split; [done|]. intros q [Hq Hqe]. by apply Hb.
Qed.

Lemma compute_spec r a :
  links_are r (fun i j => f64_of_Z (a i j)) -> adj_ r <> Null -> route_ r <> Freed ->
  costs_ok (size_ r) a ->
  exists r', compute_routes r = Ok r' /\ size_ r' = size_ r /\ adj_ r' = adj_ r /\
    forall k v, node (size_ r) k -> node (size_ r) v ->
      exists h, lookup_flat (k - 1) (v - 1) r' = Ok (h - 1) /\ 0 <= h < size_ r /\
        if k =? v then h = v else first_hop (size_ r) a k v h.
Proof.
  intros (Hs & _ & [[E1 _] | (l & E & El & H1 & Hl)]) Hadj Hrt Ha; [done|].
  unfold compute_routes. rewrite (delete_live _ Hrt), El. cbn [deref rbind].
  destruct (all_routes_spec l (size_ r) a E Hs Hl Ha H1) as (rs & R & -> & HR & Hself & Hrow).
  cbn [rbind]. eexists. split; [done|]. split; [done|]. split; [done|].
  intros k v Hk Hv. exists (next_hop (R k v)).
  assert (Hh : 0 <= next_hop (R k v) < size_ r /\
    if k =? v then next_hop (R k v) = v else first_hop (size_ r) a k v (next_hop (R k v))).
  { destruct (Z.eqb_spec k v) as [->|Hkv]; [rewrite Hself by done; unfold node in Hv; simpl; lia|].
    destruct (Hrow k Hk) as (R' & Hok & HRR). rewrite HRR by congruence.
    apply (best_first_hop _ _ E); [done|]. by apply row_best. }
  destruct Hh as [Hh1 Hh2]. split; [|done].
  by apply (lookup_flat_mat (set_route (Block rs) r) rs R).
Qed.

Lemma links_ext r m m' :
  (forall i j, 0 <= i -> 0 <= j -> m i j = m' i j) -> links_are r m -> links_are r m'.
Proof.
  intros Hm (Hs & Hout & Hadj). split; [done|]. split.
  - intros i j Hi Hj Hij. rewrite <- Hm by done. by apply Hout.
  - destruct Hadj as [Hnull | (l & E & El & H1 & Hl)]; [by left|]. right. exists l, E.
    split_and!; [done..|]. apply (mat_ext _ _ _ _ Hl). intros i j Hi Hj. rewrite Hm by lia. done.
Qed.

(** The costs a non-empty sequence of edits leaves are the integers [a]. *)
Definition edits_cost (es : list edit) (a : Z -> Z -> Z) : Prop :=
  es <> [] /\
  forall i j, 0 <= i -> 0 <= j ->
    spec_edits no_link es i j = f64_of_Z (a i j) /\ 0 <= a i j <= INFINITY.

(** The edits, then [compute_routes]. *)
Definition build_routes (fuel : nat) (es : list edit) : result RouteLogic :=
  let! r := run_edits fuel es new_RouteLogic in compute_routes r.

Lemma first_edit_sizes fuel e es r :
  (15 <= fuel)%nat -> edits_legal [] (e :: es) -> run_edits fuel (e :: es) new_RouteLogic = Ok r ->
  1 <= size_ r.
Proof.
  intros Hf Hl Hrun. destruct e as [x y c|x y]; [|destruct Hl as [Hx _]; by apply elem_of_nil in Hx].
  destruct Hl as (Hx & Hy & Hl). cbn [run_edits run_edit] in Hrun.
  destruct (insert_spec fuel x y c new_RouteLogic no_link links_new Hx Hy Hf)
    as (r1 & E1 & Hr1 & H1 & H2 & _). rewrite E1 in Hrun. cbn [rbind] in Hrun.
  unfold index_ok in Hx, Hy.
  destruct (run_edits_spec fuel es [x; y] r1 _ Hf Hr1) as (r2 & E2 & _ & Hle & _).
  - revert Hl. generalize (@nil Z). done.
  - repeat constructor; lia.
  - rewrite E2 in Hrun. simplify_eq. lia.
Qed.

Lemma build_routes_spec fuel es a :
  (15 <= fuel)%nat -> edits_legal [] es -> edits_cost es a ->
  exists r, build_routes fuel es = Ok r /\ side_ok (size_ r) /\ costs_ok (size_ r) a /\
    forall k v, node (size_ r) k -> node (size_ r) v ->
      exists h, lookup_flat (k - 1) (v - 1) r = Ok (h - 1) /\ 0 <= h < size_ r /\
        if k =? v then h = v else first_hop (size_ r) a k v h.
Proof.
  intros Hf Hl [Hne Hc]. unfold build_routes.
  destruct (run_edits_spec fuel es [] new_RouteLogic no_link Hf links_new Hl)
    as (r & Er & Hr & _ & Hrt); [done|]. rewrite Er. cbn [rbind].
  assert (H1 : 1 <= size_ r).
  { destruct es as [|e es]; [done|]. by apply (first_edit_sizes fuel e es). }
  assert (Ha : costs_ok (size_ r) a) by (intros i j Hi Hj; apply Hc; lia).
  destruct (compute_spec r a) as (r' & -> & Hs & _ & Hlook).
  - apply (links_ext _ (spec_edits no_link es)); [|done]. intros i j Hi Hj. by apply Hc.
  - destruct Hr as (_ & _ & [[_ E2] | (l & E & El & _)]); [lia|by rewrite El].
  - by rewrite Hrt.
  - done.
  - exists r'. rewrite Hs. split_and!; [done|apply Hr|done|done].
Qed.

(** C28: after [compute_routes] the next hop [lookup_flat] gives for a pair of
    nodes is the first hop of a least-cost walk between them, and -1 exactly
    when every walk costs INFINITY or more; the search never leaves its
    arrays and never reads a distance before it is written. *)
Theorem routes_are_shortest fuel es a :
  (15 <= fuel)%nat -> edits_legal [] es -> edits_cost es a ->
  exists r, build_routes fuel es = Ok r /\
    forall k v, node (size_ r) k -> node (size_ r) v -> k <> v ->
      exists h, lookup_flat (k - 1) (v - 1) r = Ok (h - 1) /\ first_hop (size_ r) a k v h.
Proof.
  intros Hf Hl Hc. destruct (build_routes_spec fuel es a Hf Hl Hc) as (r & -> & _ & _ & Hlook).
  exists r. split; [done|]. intros k v Hk Hv Hkv.
  destruct (Hlook k v Hk Hv) as (h & E & _ & Hh). exists h. split; [done|].
  by replace (k =? v) with false in Hh by lia.
Qed.

(** ** Forwarding *)

(** A packet for [v] at [k] is given to the next hop [lookup_flat] names,
    until it is at [v]; [None] when a node has no route. *)
Fixpoint forward (fuel : nat) (r : RouteLogic) (k v : Z) : result (option (list Z)) :=
  if k =? v then Ok (Some [])
  else
    match fuel with
    | O => NoFuel
    | S fuel =>
        let! h := lookup_flat (k - 1) (v - 1) r in
        if h <? 0 then Ok None
        else
          let! p := forward fuel r (h + 1) v in
          Ok (option_map (cons (h + 1)) p)
    end.

(** The rest of a shortest walk is a shortest walk. *)
Lemma shortest_tail n a k v h p :
  node n h -> 0 <= a k h -> shortest n a k v (h :: p) -> shortest n a h v p.
Proof.
  intros Hh Ha ([Hp He] & Hc & Hb). simpl in He, Hc.
  apply Forall_cons in Hp as [_ Hp]. split; [done|]. split; [lia|].
  intros q [Hq Hqe]. specialize (Hb (h :: q)). simpl in Hb.
  cut (a k h + walk_cost a h p <= a k h + walk_cost a h q); [lia|].
  apply Hb. split; [by constructor|done].
Qed.

Lemma shortest_cons n a k v h p q :
  shortest n a k v (h :: p) -> shortest n a h v q -> shortest n a k v (h :: q).
Proof.
  intros ([Hp He] & Hc & Hb) ([Hq Hqe] & _ & Hbq). simpl in He.
  apply Forall_cons in Hp as [Hh Hp].
  assert (walk_cost a h q <= walk_cost a h p) by by apply Hbq.
  assert (walk_cost a k (h :: q) <= walk_cost a k (h :: p)) by (simpl; lia).
  split; [split; [by constructor|done]|]. split; [lia|].
  intros q' Hq'. specialize (Hb q' Hq'). lia.
Qed.

Definition positive_costs (n : Z) (a : Z -> Z -> Z) : Prop :=
  forall i j, node n i -> node n j -> 1 <= a i j.

Lemma walk_nonneg n a k p :
  positive_costs n a -> node n k -> Forall (node n) p -> 0 <= walk_cost a k p.
Proof.
  intros Ha Hk Hp. revert k Hk. induction Hp as [|x p Hx Hp IH]; intros k Hk; simpl; [lia|].
  specialize (IH x Hx). specialize (Ha k x Hk Hx). lia.
Qed.

Lemma shortest_nil n a v : positive_costs n a -> node n v -> shortest n a v v [].
Proof.
  intros Ha Hv. split; [by split; [constructor|]|]. split; [done|].
  intros q [Hq _]. by apply (walk_nonneg n).
Qed.

Lemma forward_arrives r a v :
  (forall k, node (size_ r) k -> exists h, lookup_flat (k - 1) (v - 1) r = Ok (h - 1) /\
      (k <> v -> first_hop (size_ r) a k v h)) ->
  positive_costs (size_ r) a ->
  forall fuel k p, node (size_ r) k -> shortest (size_ r) a k v p ->
    walk_cost a k p <= Z.of_nat fuel ->
    exists q, forward fuel r k v = Ok (Some q) /\ shortest (size_ r) a k v q.
Proof.
  intros Hlook Ha fuel. induction fuel as [|fuel IH]; intros k p Hk Hp Hc; cbn [forward];
    destruct (Z.eqb_spec k v) as [->|Hkv].
  1,3: exists []; split; [done|by apply shortest_nil].
  - destruct Hp as ([Hp He] & Hlt & _). destruct p as [|x p]; [by simpl in He|].
    apply Forall_cons in Hp as [Hx Hp]. simpl in Hc.
    pose proof (Ha k x Hk Hx). pose proof (walk_nonneg _ a x p Ha Hx Hp). lia.
  - destruct (Hlook k Hk) as (h & -> & Hh). specialize (Hh Hkv). cbn [rbind].
    destruct Hh as [[-> Hno] | (Hh & q & Hq)].
    { destruct Hp as (Hp & Hlt & _). specialize (Hno p Hp). lia. }
    pose proof Hh as Hh'. unfold node in Hh'.
    destruct (Z.ltb_spec (h - 1) 0); [lia|]. replace (h - 1 + 1) with h by lia.
    pose proof (Ha k h Hk Hh) as Hah.
    assert (Hcq : walk_cost a k (h :: q) <= walk_cost a k p) by (apply Hq, Hp).
    destruct (IH h q Hh) as (q' & -> & Hq').
    + apply (shortest_tail _ _ k); [done|lia|done].
    + simpl in Hcq. lia.
    + exists (h :: q'). split; [done|]. by apply (shortest_cons _ _ _ _ _ q).
Qed.

(** Hop-by-hop forwarding ends, at the destination or at once. *)
Lemma forwarding_reaches fuel es a :
  (15 <= fuel)%nat -> edits_legal [] es -> edits_cost es a ->
  (forall i j, 1 <= i -> 1 <= j -> 1 <= a i j) ->
  exists r, build_routes fuel es = Ok r /\
    (forall k v, node (size_ r) k -> node (size_ r) v ->
      (exists p, forward (Z.to_nat INFINITY) r k v = Ok (Some p) /\
         shortest (size_ r) a k v p) \/
      (forward (Z.to_nat INFINITY) r k v = Ok None /\
       forall p, is_walk (size_ r) k v p -> INFINITY <= walk_cost a k p)).
Proof.
  intros Hf Hl Hc Hpos. destruct (build_routes_spec fuel es a Hf Hl Hc) as (r & -> & _ & _ & Hlook).
  exists r. split; [done|]. intros k v Hk Hv.
  assert (Ha : positive_costs (size_ r) a) by (intros i j Hi Hj; unfold node in *; apply Hpos; lia).
  assert (Hlook' : forall k, node (size_ r) k -> exists h,
    lookup_flat (k - 1) (v - 1) r = Ok (h - 1) /\ (k <> v -> first_hop (size_ r) a k v h)).
  { intros k' Hk'. destruct (Hlook k' v Hk' Hv) as (h & E & _ & Hh). exists h. split; [done|].
    intros Hkv. by replace (k' =? v) with false in Hh by lia. }
  pose proof (forward_arrives r a v Hlook' Ha) as Harr.
  destruct (decide (k = v)) as [->|Hkv].
  - left. apply (Harr _ v []); [done|by apply shortest_nil|done].
  - destruct (Hlook' k Hk) as (h & E & Hh). destruct (Hh Hkv) as [[-> Hno] | (Hhn & q & Hq)].
    + right. split; [|done]. change (Z.to_nat INFINITY) with (S (Z.to_nat (INFINITY - 1))).
      cbn [forward]. replace (k =? v) with false by lia. by rewrite E.
    + left. apply (Harr _ k (h :: q)); [done..|]. destruct Hq as (_ & Hlt & _). lia.
Qed.

(** C30: with positive integer costs, hop-by-hop forwarding along the computed
    routes always ends: a packet reaches its destination along a least-cost
    walk, within as many hops as that walk costs, or is given up at once
    because no walk costs less than INFINITY.  There are no loops. *)
Theorem forwarding_reaches_destination fuel es a :
  (15 <= fuel)%nat -> edits_legal [] es -> edits_cost es a ->
  (forall i j, 1 <= i -> 1 <= j -> 1 <= a i j) ->
  exists r, build_routes fuel es = Ok r /\
    (forall k v, node (size_ r) k -> node (size_ r) v ->
      (exists p, forward (Z.to_nat INFINITY) r k v = Ok (Some p) /\
         shortest (size_ r) a k v p) \/
      (forward (Z.to_nat INFINITY) r k v = Ok None /\
       forall p, is_walk (size_ r) k v p -> INFINITY <= walk_cost a k p)).
Proof. apply forwarding_reaches. Qed.

(** ** An example network *)

(** Three nodes in a triangle with one expensive side, and a fourth the
    triangle cannot reach. *)
Definition triangle : list edit :=
  [Link 1 2 f1; Link 2 1 f1; Link 2 3 (f64_of_Z 2); Link 3 1 f1; Link 1 3 (f64_of_Z 4);
   Link 4 1 f1].

Definition triangle_cost (i j : Z) : Z :=
  upd2 (upd2 (upd2 (upd2 (upd2 (upd2 (fun _ _ => INFINITY) 1 2 1) 2 1 1) 2 3 2) 3 1 1) 1 3 4)
    4 1 1 i j.

Lemma triangle_legal : edits_legal [] triangle.
Proof. cbn. unfold index_ok. lia. Qed.

Lemma triangle_costs : edits_cost triangle triangle_cost.
Proof.
  split; [done|]. intros i j _ _. unfold triangle, triangle_cost. cbn [spec_edits foldl spec_edit].
  unfold no_link, upd2, INFINITY. repeat destruct (_ && _); (split; [reflexivity|lia]).
Qed.

Lemma triangle_positive i j : 1 <= i -> 1 <= j -> 1 <= triangle_cost i j.
Proof. intros _ _. unfold triangle_cost, upd2, INFINITY. repeat destruct (_ && _); lia. Qed.

Lemma routes_are_shortest_witness :
  exists r, build_routes 15 triangle = Ok r /\
    forall k v, node (size_ r) k -> node (size_ r) v -> k <> v ->
      exists h, lookup_flat (k - 1) (v - 1) r = Ok (h - 1) /\
        first_hop (size_ r) triangle_cost k v h.
Proof.
  apply (routes_are_shortest 15 triangle triangle_cost);
    [lia|exact triangle_legal|exact triangle_costs].
Defined.

Lemma forwarding_reaches_destination_witness :
  exists r, build_routes 15 triangle = Ok r /\
    (forall k v, node (size_ r) k -> node (size_ r) v ->
      (exists p, forward (Z.to_nat INFINITY) r k v = Ok (Some p) /\
         shortest (size_ r) triangle_cost k v p) \/
      (forward (Z.to_nat INFINITY) r k v = Ok None /\
       forall p, is_walk (size_ r) k v p -> INFINITY <= walk_cost triangle_cost k p)).
Proof.
  apply (forwarding_reaches_destination 15 triangle triangle_cost);
    [lia|exact triangle_legal|exact triangle_costs|exact triangle_positive].
Defined.

(** Node 0 reaches node 2 through node 1; nothing reaches node 3. *)
Example triangle_routes :
  (let! r := build_routes 15 triangle in
   let! a := lookup_flat 0 2 r in
   let! b := lookup_flat 0 3 r in
   let! p := forward 9 r 1 3 in
   Ok (a, b, p, size_ r)) = Ok (1, -1, Some [2; 3], 16).
Proof. vm_compute. reflexivity. Qed.

(** ** What the growth of the matrix forgets *)

(** [check] copies the costs and not the entries: an entry given before the
    matrix grows is lost. *)
Example growth_forgets_entries :
  (let! r := rl_insert_entry 15 1 2 f1 (Some 7%positive) new_RouteLogic in
   let! r := rl_insert 15 1 16 f1 r in
   let! l := deref (adj_ r) in
   aget l (INDEX 1 2 (size_ r))) = Ok (AdjEntry f1 NULL).
Proof. vm_compute. reflexivity. Qed.

(** [lookup_flat] checks its arguments against the size of the cost matrix;
    the routes computed before the last growth are a smaller matrix, and are
    read out of bounds. *)
Example lookup_after_growth :
  (let! r := build_routes 15 triangle in
   let! r := rl_insert 15 1 16 f1 r in
   lookup_flat 9 9 r) = Fault OutOfBounds.
Proof. vm_compute. reflexivity. Qed.

(** The same happens with a node number below -1. *)
Example lookup_negative_node :
  (let! r := build_routes 15 triangle in lookup_flat (-2) 0 r) = Fault OutOfBounds.
Proof. vm_compute. reflexivity. Qed.
