(* ===== verification/HierRoute.v ===== *)
(** * Hierarchical routes (routing/route.h, routing/route.cc)

    With hierarchical addresses [RouteLogic] keeps one matrix per cluster: its
    rows and columns are the nodes of the cluster, then the other clusters of
    the domain, then the other domains.  Routes are computed in each matrix
    by the same search as for flat addresses, on an array of costs copied
    from the matrix.  Indices of domains, clusters and nodes start at 1.

    The arrays of integers an address is split into are on the stack and are
    not initialised: their contents before the call, [junk], are a parameter. *)

From stdpp Require Import base numbers list strings.
From Stdlib Require Import ZArith Lia Ascii.
From S2P Require Import Prelude.
From S2P Require Import Float64.
From S2P Require Import Text.
From S2P Require Import Array.
From S2P Require Import Address.
From S2P Require Import Route.

Open Scope Z_scope.

(** ** Fields *)

Definition set_level l r :=
  mkRouteLogic (adj_ r) (route_ r) (size_ r) l (C_ r) (D_ r) (Cmax_ r) (cluster_size_ r)
    (hsize_ r) (hadj_ r) (hroute_ r) (hconnect_ r).
Definition set_D d r :=
  mkRouteLogic (adj_ r) (route_ r) (size_ r) (level_ r) (C_ r) d (Cmax_ r) (cluster_size_ r)
    (hsize_ r) (hadj_ r) (hroute_ r) (hconnect_ r).
Definition set_C c r :=
  mkRouteLogic (adj_ r) (route_ r) (size_ r) (level_ r) (Some c) (D_ r) (Cmax_ r)
    (cluster_size_ r) (hsize_ r) (hadj_ r) (hroute_ r) (hconnect_ r).
Definition set_cluster_size c r :=
  mkRouteLogic (adj_ r) (route_ r) (size_ r) (level_ r) (C_ r) (D_ r) (Cmax_ r)
    (Some c) (hsize_ r) (hadj_ r) (hroute_ r) (hconnect_ r).
Definition set_hier hs ha hr hc r :=
  mkRouteLogic (adj_ r) (route_ r) (size_ r) (level_ r) (C_ r) (D_ r) (Cmax_ r)
    (cluster_size_ r) (Some hs) (Some ha) (Some hr) (Some hc).
Definition set_hadj ha r :=
  mkRouteLogic (adj_ r) (route_ r) (size_ r) (level_ r) (C_ r) (D_ r) (Cmax_ r)
    (cluster_size_ r) (hsize_ r) (Some ha) (hroute_ r) (hconnect_ r).
Definition set_hroute hr r :=
  mkRouteLogic (adj_ r) (route_ r) (size_ r) (level_ r) (C_ r) (D_ r) (Cmax_ r)
    (cluster_size_ r) (hsize_ r) (hadj_ r) (Some hr) (hconnect_ r).
Definition set_hconnect hc r :=
  mkRouteLogic (adj_ r) (route_ r) (size_ r) (level_ r) (C_ r) (D_ r) (Cmax_ r)
    (cluster_size_ r) (hsize_ r) (hadj_ r) (hroute_ r) (Some hc).

(** Reading and writing an array reached through an array of pointers. *)
Definition array_of {A} (p : option (list (option (list A)))) (i : Z) : result (list A) :=
  match p with
  | None => Fault NullDeref
  | Some l => let! x := aget l i in match x with Some v => Ok v | None => Fault Uninit end
  end.

Definition put_array {A} (p : option (list (option (list A)))) (i : Z) (v : list A)
    : result (list (option (list A))) :=
  match p with None => Fault NullDeref | Some l => aset l i (Some v) end.

(** The arrays of plain integers, which are cleared. *)
Definition hsize_at (r : RouteLogic) (i : Z) : result Z :=
  match hsize_ r with None => Fault NullDeref | Some l => aget l i end.

(** ** The positions of a matrix: [a] nodes, [b] - 1 clusters, [c] - 1 domains *)

Definition N_N_INDEX (i j a b c : Z) : Z := wrap_i32 (i * (a + b + c) + j).
Definition N_C_INDEX (i j a b c : Z) : Z := wrap_i32 (i * (a + b + c) + (a + j)).
Definition N_D_INDEX (i j a b c : Z) : Z := wrap_i32 (i * (a + b + c) + (a + (b - 1) + j)).
Definition C_C_INDEX (i j a b c : Z) : Z := wrap_i32 ((a + i) * (a + b + c) + (a + j)).
Definition C_D_INDEX (i j a b c : Z) : Z := wrap_i32 ((a + i) * (a + b + c) + (a + (b - 1) + j)).
Definition D_D_INDEX (i j a b c : Z) : Z :=
  wrap_i32 ((a + (b - 1) + i) * (a + b + c) + (a + (b - 1) + j)).

(** ** Setting up *)

Definition wider (r : RouteLogic) (i cm : Z) : result Z :=
  let! c := elem (C_ r) i in Ok (if cm <? c then c else cm).

Definition hier_init (r : RouteLogic) : result RouteLogic :=
  let! cm := for_loop 1 (D_ r) (wider r) (Cmax_ r) in
  let arr_size := wrap_i32 (cm * D_ r) in
  if arr_size <? 0 then Fault Aborted
  else
    let n := Z.to_nat arr_size in
    Ok (mkRouteLogic (adj_ r) (route_ r) (size_ r) (level_ r) (C_ r) (D_ r) cm
          (Some (replicate n None)) (Some (replicate n 0)) (Some (replicate n None))
          (Some (replicate n None)) (Some (replicate n None))).

(** [hier_alloc (i)]: square matrices of the greatest size the domains allow. *)
Definition hier_alloc (i : Z) (r : RouteLogic) : result RouteLogic :=
  let! c := elem (cluster_size_ r) i in
  let s := wrap_i32 (c + Cmax_ r + D_ r) in
  let! n := square s in
  let links := wrap_i32 ((Cmax_ r + D_ r) * (c + 1)) in
  if links <? 0 then Fault Aborted
  else
    let! hs := (match hsize_ r with
                | None => Fault NullDeref
                | Some l => aset l i (Z.of_nat n)
                end) in
    let! ha := put_array (hadj_ r) i (replicate n INFINITY) in
    let! hr := put_array (hroute_ r) i (replicate n INFINITY) in
    let! hc := put_array (hconnect_ r) i (replicate (Z.to_nat links) None) in
    Ok (set_hier hs ha hr hc r).

Definition hier_check (i : Z) (r : RouteLogic) : result RouteLogic :=
  let! h := hsize_at r i in
  if 0 <? h then Ok r else hier_alloc i r.

(** [send-num-of-clusters c1 c2 ...] *)
Definition send_num_of_clusters (vs : list Z) (r : RouteLogic)
    : result (reply * RouteLogic) :=
  if negb (2 + Z.of_nat (length vs) =? D_ r + 1)
  then Ok (TCL_ERROR ("send-num-of-clusters: # of clusters " +:+
             (fmt_d (2 + Z.of_nat (length vs)) +:+ (" != domain (" +:+
             (fmt_d (D_ r) +:+ (") + 1" +:+ String "010"%char EmptyString))))), r)
  else
    let! r := hier_init (set_C (from_one (map (fun v => wrap_i32 (v + 1)) vs)) r) in
    Ok (TCL_OK None, r).

Definition count_clusters (r : RouteLogic) (i t : Z) : result Z :=
  let! c := elem (C_ r) i in Ok (wrap_i32 (t + (c - 1))).

(** One element of [cluster_size_]; the state is the next argument and the
    array. *)
Definition put_size (vs : list Z) (cmax i j : Z) (st : Z * int_array) : result (Z * int_array) :=
  let '(k, l) := st in
  let! v := aget vs k in
  let! l := aset l (INDEX i j cmax) (Some v) in
  Ok (k + 1, l).

Definition put_sizes (vs : list Z) (r : RouteLogic) (l : int_array) : result int_array :=
  let! st := for_loop 1 (D_ r) (fun i st =>
    let! c := elem (C_ r) i in for_loop 1 c (put_size vs (Cmax_ r) i) st) (0, l) in
  Ok (snd st).

(** [send-num-of-nodes n1 n2 ...] *)
Definition send_num_of_nodes (vs : list Z) (r : RouteLogic) : result (reply * RouteLogic) :=
  let! t := for_loop 1 (D_ r) (count_clusters r) 0 in
  if negb (2 + Z.of_nat (length vs) =? t + 2)
  then Ok (TCL_ERROR "send-hlastdata: # args do not match", r)
  else
    match cluster_size_ r with
    | None => if t <=? 0 then Ok (TCL_OK None, r) else Fault NullDeref
    | Some l => let! l := put_sizes vs r l in Ok (TCL_OK None, set_cluster_size l r)
    end.

(** ** Sizes *)

Definition domains (r : RouteLogic) : Z := D_ r - 1.
Definition domain_size (domain : Z) (r : RouteLogic) : result Z :=
  let! c := elem (C_ r) (domain + 1) in Ok (c - 1).
Definition cluster_size (d c : Z) (r : RouteLogic) : result Z :=
  elem (cluster_size_ r) (INDEX (d + 1) (c + 1) (Cmax_ r)).

Definition elements_in_level (addr : list Z) (level : Z) (r : RouteLogic) : result Z :=
  if level =? 1 then Ok (domains r)
  else if level =? 2 then let! d := aget addr 0 in domain_size d r
  else if level =? 3 then
    let! d := aget addr 0 in let! c := aget addr 1 in cluster_size d c r
  else Ok (-1).

(** ** Costs *)

(** [hadj_[i][index] = v] *)
Definition put_cost (i index v : Z) (r : RouteLogic) : result RouteLogic :=
  let! m := array_of (hadj_ r) i in
  let! m := aset m index v in
  let! ha := put_array (hadj_ r) i m in
  Ok (set_hadj ha r).

(** [hconnect_[i][I] = "X2.Y2.Z2"], the numbers less one *)
Definition dotted_address (x y z : Z) : string :=
  (fmt_d (x - 1) +:+ ("." +:+ (fmt_d (y - 1) +:+ ("." +:+ fmt_d (z - 1)))))%string.

Definition put_connect (i index : Z) (s : string) (r : RouteLogic) : result RouteLogic :=
  if SMALL_LEN <=? Z.of_nat (String.length s) then Fault OutOfBounds
  else
    let! m := array_of (hconnect_ r) i in
    let! m := aset m index (Some s) in
    let! hc := put_array (hconnect_ r) i m in
    Ok (set_hconnect hc r).

Section hier_insert.
Context (X1 Y1 Z1 X2 Y2 Z2 cost : Z).

(** In the domain: the link between two clusters, in the matrix of cluster [y]. *)
Definition insert_cluster (y : Z) (r : RouteLogic) : result RouteLogic :=
  let i := INDEX X1 y (Cmax_ r) in
  let! n := elem (cluster_size_ r) i in
  let! r := hier_check i r in
  let! c := elem (C_ r) X1 in
  let! r := put_cost i (C_C_INDEX Y1 Y2 n c (D_ r)) cost r in
  if y =? Y1 then
    let! r := put_cost i (N_C_INDEX Z1 Y2 n c (D_ r)) cost r in
    put_connect i (wrap_i32 (Z1 * (c + D_ r) + Y2)) (dotted_address X2 Y2 Z2) r
  else Ok r.

(** Everywhere: the link between two domains, in the matrix of cluster [y] of
    domain [x]. *)
Definition insert_domain (x y : Z) (r : RouteLogic) : result RouteLogic :=
  let i := INDEX x y (Cmax_ r) in
  let! n := elem (cluster_size_ r) i in
  let! r := hier_check i r in
  let! c := elem (C_ r) x in
  put_cost i (D_D_INDEX X1 X2 n c (D_ r)) cost r.

(** In the domain: the link from a cluster to the other domain. *)
Definition insert_gateway (y : Z) (r : RouteLogic) : result RouteLogic :=
  let i := INDEX X1 y (Cmax_ r) in
  let! n := elem (cluster_size_ r) i in
  let! r := hier_check i r in
  let! c := elem (C_ r) X1 in
  put_cost i (C_D_INDEX Y1 X2 n c (D_ r)) cost r.

Definition hier_insert (r : RouteLogic) : result RouteLogic :=
  if X1 =? X2 then
    if Y1 =? Y2 then
      let i := INDEX X1 Y1 (Cmax_ r) in
      let! n := elem (cluster_size_ r) i in
      let! r := hier_check i r in
      let! c := elem (C_ r) X1 in
      put_cost i (N_N_INDEX Z1 Z2 n c (D_ r)) cost r
    else
      let! c := elem (C_ r) X1 in
      for_loop 1 c insert_cluster r
  else
    let! r := for_loop 1 (D_ r) (fun x r =>
      let! c := elem (C_ r) x in for_loop 1 c (insert_domain x) r) r in
    let! c := elem (C_ r) X1 in
    let! r := for_loop 1 c insert_gateway r in
    let i := INDEX X1 Y1 (Cmax_ r) in
    let! n := elem (cluster_size_ r) i in
    let! r := put_cost i (N_D_INDEX Z1 X2 n c (D_ r)) cost r in
    put_connect i (wrap_i32 (Z1 * (c + D_ r) + (c - 1 + X2))) (dotted_address X2 Y2 Z2) r.
End hier_insert.

Section hier_reset.
Context (s0 s1 s2 d0 d1 d2 : Z).

Definition reset_cluster (y : Z) (r : RouteLogic) : result RouteLogic :=
  let i := INDEX s0 y (Cmax_ r) in
  let! n := elem (cluster_size_ r) i in
  let! c := elem (C_ r) s0 in
  let! r := put_cost i (C_C_INDEX s1 d1 n c (D_ r)) INFINITY r in
  if y =? s1 then put_cost i (N_C_INDEX s2 d1 n c (D_ r)) INFINITY r else Ok r.

Definition reset_domain (x y : Z) (r : RouteLogic) : result RouteLogic :=
  let i := INDEX x y (Cmax_ r) in
  let! n := elem (cluster_size_ r) i in
  let! c := elem (C_ r) x in
  let! r := put_cost i (D_D_INDEX s0 d0 n c (D_ r)) INFINITY r in
  if x =? s0 then
    let! r := put_cost i (C_D_INDEX s1 d0 n c (D_ r)) INFINITY r in
    if y =? s1 then put_cost i (N_D_INDEX s2 d0 n c (D_ r)) INFINITY r else Ok r
  else Ok r.

Definition hier_reset (r : RouteLogic) : result RouteLogic :=
  if s0 =? d0 then
    if s1 =? d1 then
      let i := INDEX s0 s1 (Cmax_ r) in
      let! n := elem (cluster_size_ r) i in
      let! c := elem (C_ r) s0 in
      put_cost i (N_N_INDEX s2 d2 n c (D_ r)) INFINITY r
    else let! c := elem (C_ r) s0 in for_loop 1 c reset_cluster r
  else
    for_loop 1 (D_ r) (fun x r => let! c := elem (C_ r) x in for_loop 1 c (reset_domain x) r) r.
End hier_reset.

(** ** The search

    [compute_routes] over again, on the array the caller has just filled; the
    entries of the routes keep the zeros of [memset]. *)

Definition set_next_hop (i h : Z) (rs : list route_entry) : result (list route_entry) :=
  let! e := aget rs i in aset rs i (RouteEntry h (route_ent e)).

Section HierSearch.
Context (adj : list adj_entry) (n : Z).

Definition h_set_neighbour (k v : Z) (s : search) : result search :=
  let! p := aget (parent s) v in
  if p =? k then Ok s
  else
    let! e := ADJ adj n k v in
    let! hs := aset (hopcnt s) v (Some (cost e)) in
    if feq (cost e) INF then Ok (Search (parent s) hs (routes s))
    else
      let! rs := set_next_hop (INDEX k v n) v (routes s) in
      Ok (Search (parent s) hs rs).

Definition h_relax (k o w : Z) (s : search) : result search :=
  let! p := aget (parent s) w in
  if p =? k then Ok s
  else
    let! ho := hop s o in
    let! e := ADJ adj n o w in
    let! hw := hop s w in
    if flt (fadd ho (cost e)) hw then
      let! ro := aget (routes s) (INDEX k o n) in
      let! rs := set_next_hop (INDEX k w n) (next_hop ro) (routes s) in
      let! hs := aset (hopcnt s) w (Some (fadd ho (cost e))) in
      Ok (Search (parent s) hs rs)
    else Ok s.

Definition h_extend (k : Z) (s : search) : result search :=
  let! hs := aset (hopcnt s) 0 (Some INF) in
  let s := Search (parent s) hs (routes s) in
  let! o := for_loop 1 n (nearer s k) 0 in
  let! ps := aset (parent s) o k in
  let s := Search ps (hopcnt s) (routes s) in
  if o =? 0 then Ok s else for_loop 1 n (h_relax k o) s.

Definition h_from_source (k : Z) (s : search) : result search :=
  let s := Search (seqZ 0 n) (hopcnt s) (routes s) in
  let! s := for_loop 1 n (h_set_neighbour k) s in
  for_loop 1 n (fun _ => h_extend k) s.

Definition h_route_to_self (k : Z) (rs : list route_entry) : result (list route_entry) :=
  set_next_hop (INDEX k k n) k rs.

Definition h_all_routes : result (list route_entry) :=
  let! m := square n in
  let s := Search (replicate (Z.to_nat n) 0) (replicate (Z.to_nat n) None)
             (replicate m (RouteEntry 0 NULL)) in
  let! s := for_loop 1 n h_from_source s in
  for_loop 1 n h_route_to_self (routes s).
End HierSearch.

(** [size] of a cluster's matrix: [cluster_size_[i] + C_[j] + D_] *)
Definition side (r : RouteLogic) (i j : Z) : result Z :=
  let! n := elem (cluster_size_ r) i in
  let! c := elem (C_ r) j in
  Ok (wrap_i32 (n + c + D_ r)).

Definition hier_compute_routes (i j : Z) (r : RouteLogic) : result RouteLogic :=
  let! size := side r i j in
  if size <? 0 then Fault Aborted
  else
    let! _ := delete_array (route_ r) in
    let! _ := square size in
    let! a := deref (adj_ r) in
    let! rs := h_all_routes a size in
    Ok (set_route (Block rs) r).

(** The costs of the cluster's matrix, copied into [adj_]. *)
Definition load_cost (h : list Z) (s n m : Z) (a : list adj_entry) : result (list adj_entry) :=
  let! c := aget h (INDEX n m s) in
  let! e := aget a (INDEX n m s) in
  aset a (INDEX n m s) (AdjEntry (f64_of_Z c) (adj_ent e)).

(** The routes found, copied into the cluster's matrix. *)
Definition store_route (t : list route_entry) (s n m : Z) (h : list Z) : result (list Z) :=
  let! e := aget t (INDEX n m s) in
  aset h (INDEX n m s) (next_hop e).

Definition over_square {St} (s : Z) (body : Z -> Z -> St -> result St) (st : St) : result St :=
  for_loop 0 s (fun n => for_loop 0 s (body n)) st.

(** One cluster of [hier_compute].  The array [adj_] points to before is not
    freed; the one allocated here is, and [adj_] keeps pointing to it. *)
Definition compute_cluster (j k : Z) (r : RouteLogic) : result RouteLogic :=
  let i := INDEX j k (Cmax_ r) in
  let! s := side r i j in
  let! q := square s in
  let! a := over_square s (fun n m a =>
    let! h := array_of (hadj_ r) i in load_cost h s n m a) (replicate q (AdjEntry f0 NULL)) in
  let! r := hier_compute_routes i j (set_adj (Block a) r) in
  let! r := over_square s (fun n m r =>
    let! t := deref (route_ r) in
    let! h := array_of (hroute_ r) i in
    let! h := store_route t s n m h in
    let! hr := put_array (hroute_ r) i h in
    Ok (set_hroute hr r)) r in
  Ok (set_adj Freed r).

Definition hier_compute (r : RouteLogic) : result RouteLogic :=
  for_loop 1 (D_ r) (fun j r => let! c := elem (C_ r) j in for_loop 1 c (compute_cluster j) r) r.

(** ** Look-up *)

(** An element of an array of [SMALL_LEN] integers on the stack of which
    [ns_strtok] wrote the first ones. *)
Definition part (junk : Z -> Z) (l : list Z) (i : Z) : Z :=
  match l !! Z.to_nat i with Some x => x | None => junk i end.

Definition get_address (next_hop index d size s0 s1 s2 : Z) (r : RouteLogic) : result string :=
  if next_hop <=? size then
    let a := dotted_address s0 s1 next_hop in
    if SMALL_LEN <=? Z.of_nat (String.length a) then Fault OutOfBounds else Ok a
  else
    let! c := elem (C_ r) d in
    let I := (if next_hop <? wrap_i32 (size + c)
              then wrap_i32 (s2 * (c + D_ r) + (next_hop - size))
              else wrap_i32 (s2 * (c + D_ r) + (c - 1 + (next_hop - size - (c - 1))))) in
    let! m := array_of (hconnect_ r) index in
    let! a := aget m I in
    match a with Some a => Ok a | None => Fault Uninit end.

(** The checks of the range of the addresses: the inner ones have no effect
    but the reads they make. *)
Definition in_range (src dst : Z -> Z) (size : Z) (r : RouteLogic) : result bool :=
  if (src 0 <? D_ r) || (dst 0 <? D_ r) then
    let! c := elem (C_ r) (src 0) in
    let! b := (if src 1 <? c then Ok true
               else let! c := elem (C_ r) (dst 0) in Ok (dst 1 <? c)) in
    if b then
      if src 2 <=? size then Ok true
      else let! _ := elem (cluster_size_ r) (INDEX (dst 0) (dst 1) (Cmax_ r)) in Ok true
    else Ok true
  else Ok false.

(** Where the route from [src] to [dst] is in the matrix of the cluster. *)
Definition route_index (src dst : Z -> Z) (size c : Z) (r : RouteLogic) : Z :=
  if ((dst 1 <=? 0) && (dst 2 <=? 0)) || negb (src 0 =? dst 0)
  then N_D_INDEX (src 2) (dst 0) size c (D_ r)
  else if (dst 2 <=? 0) || negb (src 1 =? dst 1)
  then N_C_INDEX (src 2) (dst 1) size c (D_ r)
  else N_N_INDEX (src 2) (dst 2) size c (D_ r).

(** The answer to the script, and the address stored through [result]: a
    reply that is an error leaves it alone. *)
Definition lookup_hier (A : Address) (junk : (Z -> Z) * (Z -> Z)) (asrc adst : string)
    (r : RouteLogic) : result (reply * option Z) :=
  match hroute_ r with
  | None => Ok (TCL_ERROR "Required Hier_data not sent", None)
  | Some _ =>
      let! s := ns_strtok asrc in
      let! t := ns_strtok adst in
      let src := part (fst junk) s in
      let dst := part (snd junk) t in
      if SMALL_LEN <? level_ r then Fault OutOfBounds
      else if existsb (fun i => src i <=? 0) (seqZ 0 (level_ r))
      then Ok (TCL_ERROR "negative src node number", None)
      else if dst 0 <=? 0 then Ok (TCL_ERROR "negative dst domain number", None)
      else
        let index := INDEX (src 0) (src 1) (Cmax_ r) in
        let! size := elem (cluster_size_ r) index in
        let! h := hsize_at r index in
        if h =? 0 then Ok (TCL_ERROR "Routes not computed", None)
        else
          let! b := in_range src dst size r in
          if negb b then Ok (TCL_ERROR "node out of range", None)
          else
            let! c := elem (C_ r) (src 0) in
            let! t := array_of (hroute_ r) index in
            let! h := aget t (route_index src dst size c r) in
            if 0 <? h then
              let! a := get_address h index (src 0) size (src 0) (src 1) (src 2) r in
              let! n := str2addr A a in
              Ok (TCL_OK (Some a), Some n)
            else Ok (TCL_OK (Some "-1"%string), Some (-1))
  end.

(** ** The Tcl commands *)

Section Command.
(** The base class answers the commands this one does not know. *)
Context (TclObject_command : list string -> RouteLogic -> result (reply * RouteLogic)).
Context (A : Address) (junk : (Z -> Z) * (Z -> Z)) (fuel : nat).

(** [argv[argc]] is null. *)
Definition arg (argv : list string) (i : nat) : result string :=
  match argv !! i with Some s => Ok s | None => Fault NullDeref end.

Definition done_with (r : RouteLogic) : result (reply * RouteLogic) := Ok (TCL_OK None, r).
Definition refuse (msg : string) (r : RouteLogic) : result (reply * RouteLogic) :=
  Ok (TCL_ERROR msg, r).

(** [str2address] *)
Definition str2address (argv : list string) : result ((Z -> Z) * (Z -> Z)) :=
  let! a := arg argv 2 in
  let! b := arg argv 3 in
  let! s := ns_strtok a in
  let! t := ns_strtok b in
  Ok (part (fst junk) s, part (snd junk) t).

Definition negative_part (s t : Z -> Z) (r : RouteLogic) : bool :=
  existsb (fun i => (s i <=? 0) || (t i <=? 0)) (seqZ 0 (level_ r)).

(** The commands without arguments. *)
Definition command2 (cmd : string) (argv : list string) (r : RouteLogic)
    : result (reply * RouteLogic) :=
  if String.eqb cmd "compute" then
    if is_null (adj_ r) then done_with r else let! r := compute_routes r in done_with r
  else if String.eqb cmd "hier-compute" then
    match hadj_ r with
    | None => done_with r
    | Some _ => let! r := hier_compute r in done_with r
    end
  else if String.eqb cmd "hier-print" || String.eqb cmd "hier-print-route" then done_with r
  else if String.eqb cmd "reset" then let! r := reset_all r in done_with r
  else TclObject_command argv r.

(** The commands on two node numbers. *)
Definition node_arg (argv : list string) (i : nat) : result Z :=
  let! a := arg argv i in Ok (wrap_i32 (atoi a + 1)).

Definition insert_command (argv : list string) (r : RouteLogic) : result (reply * RouteLogic) :=
  let! src := node_arg argv 2 in
  let! dst := node_arg argv 3 in
  if (src <=? 0) || (dst <=? 0) then refuse "negative node number" r
  else
    let! c := (if (length argv =? 5)%nat then let! a := arg argv 4 in Ok (atof a)
               else Ok (f64_of_Z 1)) in
    let! r := rl_insert fuel src dst c r in done_with r.

Definition reset_command (argv : list string) (r : RouteLogic) : result (reply * RouteLogic) :=
  let! src := node_arg argv 2 in
  let! dst := node_arg argv 3 in
  if (src <=? 0) || (dst <=? 0) then refuse "negative node number" r
  else let! r := rl_reset src dst r in done_with r.

Definition lookup_command (argv : list string) (r : RouteLogic) : result (reply * RouteLogic) :=
  let! a := arg argv 2 in
  let! b := arg argv 3 in
  let! x := lookup_flat_tcl a b r in
  match x with
  | inl e => refuse e r
  | inr nh => Ok (TCL_OK (Some (fmt_d nh)), r)
  end.

(** The commands on two addresses. *)
Definition hier_insert_command (argv : list string) (r : RouteLogic)
    : result (reply * RouteLogic) :=
  if (Cmax_ r =? 0) || (D_ r =? 0) then refuse "Required Hier_data not sent" r
  else
    let! '(s, t) := str2address argv in
    if SMALL_LEN <? level_ r then Fault OutOfBounds
    else if negative_part s t r then refuse "negative node number" r
    else
      let! c := (if (length argv =? 5)%nat then let! a := arg argv 4 in Ok (atoi a) else Ok 1) in
      let! r := hier_insert (s 0) (s 1) (s 2) (t 0) (t 1) (t 2) c r in done_with r.

Definition hier_reset_command (argv : list string) (r : RouteLogic)
    : result (reply * RouteLogic) :=
  let! '(s, t) := str2address argv in
  if SMALL_LEN <? level_ r then Fault OutOfBounds
  else if negative_part s t r then refuse "negative node number" r
  else let! r := hier_reset (s 0) (s 1) (s 2) (t 0) (t 1) (t 2) r in done_with r.

Definition hier_lookup_command (argv : list string) (r : RouteLogic)
    : result (reply * RouteLogic) :=
  let! a := arg argv 2 in
  let! b := arg argv 3 in
  let! x := lookup_hier A junk a b r in Ok (fst x, r).

(** The commands that send the sizes. *)
Definition size_command (cmd : string) (argv : list string) (r : RouteLogic)
    : result (reply * RouteLogic) :=
  let! a := arg argv 2 in
  if String.eqb cmd "hlevel-is" then
    if atoi a <? 1
    then refuse "send-hlevel: # hierarchy levels should be non-zero" (set_level (atoi a) r)
    else done_with (set_level (atoi a) r)
  else
    let d := wrap_i32 (atoi a + 1) in
    if d <=? 1 then refuse "send-num-of-domains: # domains should be larger than 1" (set_D d r)
    else done_with (set_D d r).

(** [RouteLogic::command (argc, argv)] *)
Definition rl_command (argv : list string) (r : RouteLogic) : result (reply * RouteLogic) :=
  match argv with
  | [_; cmd] => command2 cmd argv r
  | _ :: cmd :: args =>
      if String.eqb cmd "insert" then insert_command argv r
      else if String.eqb cmd "hlevel-is" || String.eqb cmd "send-num-of-domains"
      then size_command cmd argv r
      else if String.eqb cmd "send-num-of-clusters" then send_num_of_clusters (map atoi args) r
      else if String.eqb cmd "send-num-of-nodes" then send_num_of_nodes (map atoi args) r
      else if String.eqb cmd "hier-insert" then hier_insert_command argv r
      else if String.eqb cmd "hier-reset" then hier_reset_command argv r
      else if String.eqb cmd "hier-lookup" then hier_lookup_command argv r
      else if String.eqb cmd "reset" then reset_command argv r
      else if String.eqb cmd "lookup" then lookup_command argv r
      else TclObject_command argv r
  | _ => TclObject_command argv r
  end.
End Command.
