(* ===== verification/HierProps.v ===== *)
(** * Proof of the hierarchical routes

    [h_all_routes_flat]: the search the hierarchical half repeats is the
    search on flat addresses.  [hier_rep d r H]: the matrices of the clusters
    of [r] hold [H]; each operation is given its effect on [H], through the
    writes to a single cluster. *)

From stdpp Require Import base numbers list strings.
From Stdlib Require Import ZArith Lia ZifyBool.
From S2P Require Import Prelude.
From S2P Require Import Float64.
From S2P Require Import FloatInt.
From S2P Require Import Text.
From S2P Require Import Array.
From S2P Require Import Address.
From S2P Require Import Route.
From S2P Require Import RouteProps.
From S2P Require Import RouteTheorems.
From S2P Require Import HierRoute.

Open Scope Z_scope.

(** ** Outcomes and arrays *)

Lemma rbind_ext {A B} (m : result A) (f g : A -> result B) :
  (forall x, m = Ok x -> f x = g x) -> rbind m f = rbind m g.
Proof. destruct m; simpl; auto. Qed.

Lemma aget_Ok_inv {A} (l : list A) i x : aget l i = Ok x -> l !! Z.to_nat i = Some x.
Proof. unfold aget. intros H. destruct (i <? 0); [done|]. destruct (l !! _); by simplify_eq. Qed.

Lemma aset_Ok_inv {A} (l l' : list A) i x : aset l i x = Ok l' -> l' = <[Z.to_nat i := x]> l.
Proof. unfold aset. intros H. destruct (_ || _); by simplify_eq. Qed.

Lemma aset_aset {A} (l : list A) i x :
  (forall y, aget l i = Ok y -> y = x) -> aset l i x = (let! _ := aget l i in Ok l).
Proof.
  unfold aset, aget. intros Hx. destruct (Z.ltb_spec i 0); [done|]. simpl.
  destruct (Z.leb_spec (Z.of_nat (length l)) i).
  - by rewrite lookup_ge_None_2 by lia.
  - destruct (lookup_lt_is_Some_2 l (Z.to_nat i) ltac:(lia)) as [y Hy].
    rewrite Hy in Hx |- *. specialize (Hx y eq_refl). subst y. simpl.
    by rewrite list_insert_id.
Qed.

(** ** The search without entries *)

Definition no_entries (rs : list route_entry) : Prop := Forall (fun e => route_ent e = NULL) rs.

Lemma no_entries_get rs i e : no_entries rs -> aget rs i = Ok e -> route_ent e = NULL.
Proof. intros Hrs E%aget_Ok_inv. by apply (proj1 (Forall_lookup _ _) Hrs _ _ E). Qed.

Lemma no_entries_set rs i h rs' :
  no_entries rs -> aset rs i (RouteEntry h NULL) = Ok rs' -> no_entries rs'.
Proof. intros Hrs ->%aset_Ok_inv. by apply Forall_insert. Qed.

Lemma aget_in {A} (l : list A) i x :
  aset l i x = match aget l i with Ok _ => aset l i x | Fault f => Fault f | NoFuel => NoFuel end.
Proof.
  unfold aset, aget. destruct (Z.ltb_spec i 0); [done|]. simpl.
  destruct (Z.leb_spec (Z.of_nat (length l)) i); [by rewrite lookup_ge_None_2 by lia|].
  by destruct (lookup_lt_is_Some_2 l (Z.to_nat i) ltac:(lia)) as [y ->].
Qed.

(** Writing the hop is writing the whole entry. *)
Lemma set_next_hop_entry rs i h :
  no_entries rs -> set_next_hop i h rs = aset rs i (RouteEntry h NULL).
Proof.
  intros Hrs. unfold set_next_hop. rewrite (aget_in rs i (RouteEntry h NULL)).
  destruct (aget rs i) as [e| |] eqn:E; simpl; [|done..].
  by rewrite (no_entries_get _ _ _ Hrs E).
Qed.

Section Flat.
Context (adj : list adj_entry) (n : Z).
Hypothesis Hadj : Forall (fun e => adj_ent e = NULL) adj.

Lemma ADJ_no_entry i j e : ADJ adj n i j = Ok e -> adj_ent e = NULL.
Proof using Hadj. intros E%aget_Ok_inv. by apply (proj1 (Forall_lookup _ _) Hadj _ _ E). Qed.

Lemma h_set_neighbour_flat k v s :
  no_entries (routes s) -> h_set_neighbour adj n k v s = set_neighbour adj n k v s.
Proof using Hadj.
  intros Hs. unfold h_set_neighbour, set_neighbour.
  apply rbind_ext. intros p _. destruct (p =? k); [done|].
  apply rbind_ext. intros e He. apply rbind_ext. intros hs _. destruct (feq _ _); [done|].
  by rewrite set_next_hop_entry, (ADJ_no_entry _ _ _ He).
Qed.

Lemma set_neighbour_keeps k v s s' :
  no_entries (routes s) -> set_neighbour adj n k v s = Ok s' -> no_entries (routes s').
Proof using Hadj.
  intros Hs. unfold set_neighbour.
  intros (p & _ & E)%rbind_Ok_inv. destruct (p =? k); [by simplify_eq|].
  apply rbind_Ok_inv in E as (e & He & E). apply rbind_Ok_inv in E as (hs & _ & E).
  destruct (feq _ _); [by simplify_eq|]. apply rbind_Ok_inv in E as (rs & Ers & E).
  simplify_eq. rewrite (ADJ_no_entry _ _ _ He) in Ers. by apply no_entries_set in Ers.
Qed.

Lemma h_relax_flat k o w s :
  no_entries (routes s) -> h_relax adj n k o w s = relax adj n k o w s.
Proof using.
  intros Hs. unfold h_relax, relax.
  apply rbind_ext. intros p _. destruct (p =? k); [done|].
  apply rbind_ext. intros ho _. apply rbind_ext. intros e _. apply rbind_ext. intros hw _.
  destruct (flt _ _); [|done]. apply rbind_ext. intros [h en] Hro.
  apply no_entries_get in Hro; [|done]. simpl in Hro. subst en.
  by rewrite set_next_hop_entry.
Qed.

Lemma relax_keeps k o w s s' :
  no_entries (routes s) -> relax adj n k o w s = Ok s' -> no_entries (routes s').
Proof using.
  intros Hs. unfold relax.
  intros (p & _ & E)%rbind_Ok_inv. destruct (p =? k); [by simplify_eq|].
  apply rbind_Ok_inv in E as (ho & _ & E). apply rbind_Ok_inv in E as (e & _ & E).
  apply rbind_Ok_inv in E as (hw & _ & E). destruct (flt _ _); [|by simplify_eq].
  apply rbind_Ok_inv in E as ([h en] & Hro & E). apply rbind_Ok_inv in E as (rs & Ers & E).
  apply rbind_Ok_inv in E as (hs & _ & E). simplify_eq.
  apply no_entries_get in Hro; [|done]. simpl in Hro. subst en. by apply no_entries_set in Ers.
Qed.

Definition quiet (s : search) : Prop := no_entries (routes s).

Lemma h_extend_flat k s :
  quiet s -> h_extend adj n k s = extend adj n k s /\
  forall s', extend adj n k s = Ok s' -> quiet s'.
Proof using Hadj.
  intros Hs. unfold h_extend, extend. destruct (aset _ _ _) as [hs| |]; cbn [rbind]; [|done..].
  destruct (for_loop 1 n (nearer _ k) 0) as [o| |]; cbn [rbind]; [|done..].
  destruct (aset _ _ _) as [ps| |]; cbn [rbind]; [|done..].
  destruct (o =? 0); [split; [done|]; by intros s' [= <-]|].
  apply (for_loop_ext quiet); [|by intros; eapply relax_keeps|done].
  intros. by apply h_relax_flat.
Qed.

Lemma h_from_source_flat k s :
  quiet s -> h_from_source adj n k s = from_source adj n k s /\
  forall s', from_source adj n k s = Ok s' -> quiet s'.
Proof using Hadj.
  intros Hs. unfold h_from_source, from_source.
  destruct (for_loop_ext quiet 1 n (h_set_neighbour adj n k) (set_neighbour adj n k)
    (Search (seqZ 0 n) (hopcnt s) (routes s))) as [E Hq].
  { intros. by apply h_set_neighbour_flat. }
  { intros. by eapply set_neighbour_keeps. }
  { done. }
  rewrite E. destruct (for_loop 1 n (set_neighbour adj n k) _) as [s1| |];
    cbn [rbind]; [|done..].
  apply (for_loop_ext quiet).
  - intros. by apply h_extend_flat.
  - intros i s2 s3 _ H2 E3. by apply (h_extend_flat k s2).
  - by apply Hq.
Qed.

Lemma h_all_routes_flat : h_all_routes adj n = all_routes adj n.
Proof using Hadj.
  unfold h_all_routes, all_routes. apply rbind_ext. intros m _.
  set (s0 := Search _ _ _).
  destruct (for_loop_ext quiet 1 n (h_from_source adj n) (from_source adj n) s0) as [E Hq].
  { intros. by apply h_from_source_flat. }
  { intros i s1 s2 _ H1 E2. by apply (h_from_source_flat i s1). }
  { apply Forall_replicate. done. }
  rewrite E. destruct (for_loop 1 n (from_source adj n) s0) as [s1| |];
    cbn [rbind]; [|done..].
  apply (for_loop_ext no_entries); [| |by apply Hq].
  - intros k rs _ Hrs. by apply set_next_hop_entry.
  - intros k rs rs' _ Hrs E2. by apply no_entries_set in E2.
Qed.
End Flat.

(** ** What the matrices hold *)

(** The sizes the script has sent: domains plus one, clusters of a domain plus
    one, nodes of a cluster, and the largest number of clusters plus one. *)
Record dims := Dims { dD : Z; dC : Z -> Z; dN : Z -> Z -> Z; dM : Z }.

Definition domain (d : dims) (j : Z) : Prop := 1 <= j < dD d.
Definition cluster (d : dims) (j k : Z) : Prop := domain d j /\ 1 <= k < dC d j.
Definition idx (d : dims) (j k : Z) : Z := dM d * j + k.
Definition sd (d : dims) (j k : Z) : Z := dN d j k + dC d j + dD d.

Record dims_ok (d : dims) : Prop := {
  do_D : 1 <= dD d;
  do_M : 0 <= dM d;
  do_C : forall j, domain d j -> 1 <= dC d j <= dM d;
  do_N : forall j k, cluster d j k -> 0 <= dN d j k /\ dN d j k + dM d + dD d <= 46340;
  do_MD : dM d + dD d <= 46340
}.

(** Positions in the matrix of a cluster: node [z] of the cluster is [z]. *)
Definition at_cluster (d : dims) (j k y : Z) : Z := dN d j k + y.
Definition at_domain (d : dims) (j k x : Z) : Z := dN d j k + (dC d j - 1) + x.

(** The costs of a matrix, and the address each node has for a cluster or a
    domain it is linked to. *)
Record mx := Mx { m_cost : Z -> Z -> Z; m_conn : Z -> Z -> option string }.

Definition slot {A} (p : option (list A)) (i : Z) : option A :=
  match p with Some l => l !! Z.to_nat i | None => None end.

Section Rep.
Context (d : dims) (Hd : dims_ok d).

Definition allocated (r : RouteLogic) (j k : Z) (x : mx) : Prop :=
  exists h la lr lc, let i := idx d j k in let s := sd d j k in
    slot (hsize_ r) i = Some h /\ 0 < h /\
    slot (hadj_ r) i = Some (Some la) /\ mat la s (m_cost x) /\
    slot (hroute_ r) i = Some (Some lr) /\ s * s <= Z.of_nat (length lr) /\
    slot (hconnect_ r) i = Some (Some lc) /\
    (dC d j + dD d) * (dN d j k + 1) <= Z.of_nat (length lc) /\
    forall z c, 0 <= z <= dN d j k -> 0 <= c < dC d j + dD d ->
      lc !! Z.to_nat (z * (dC d j + dD d) + c) = Some (m_conn x z c).

Definition cluster_rep (r : RouteLogic) (j k : Z) (o : option mx) : Prop :=
  match o with
  | Some x => allocated r j k x
  | None => let i := idx d j k in
      slot (hsize_ r) i = Some 0 /\ slot (hadj_ r) i = Some None /\
      slot (hroute_ r) i = Some None /\ slot (hconnect_ r) i = Some None
  end.

Record sized (r : RouteLogic) : Prop := {
  sz_R : route_ r <> Freed;
  sz_L : level_ r = 3;
  sz_D : D_ r = dD d;
  sz_M : Cmax_ r = dM d;
  sz_C : forall j, domain d j -> elem (C_ r) j = Ok (dC d j);
  sz_N : forall j k, cluster d j k -> elem (cluster_size_ r) (idx d j k) = Ok (dN d j k)
}.

Definition hier_rep (r : RouteLogic) (H : Z -> Z -> option mx) : Prop :=
  sized r /\ forall j k, cluster d j k -> cluster_rep r j k (H j k).

Lemma cluster_C j k : cluster d j k -> domain d j /\ 1 <= k < dM d.
Proof using Hd. intros [Hj Hk]. pose proof (do_C d Hd j Hj). split; [done|lia]. Qed.

Lemma idx_lt j k : cluster d j k -> 0 <= idx d j k < dM d * dD d.
Proof using Hd.
  intros Hc. destruct (cluster_C j k Hc) as [[Hj1 Hj2] Hk]. unfold idx.
  pose proof (do_M d Hd). nia.
Qed.

Lemma idx_range j k : cluster d j k -> 0 <= idx d j k < 2 ^ 31.
Proof using Hd.
  intros Hc. pose proof (idx_lt j k Hc). pose proof (do_MD d Hd). pose proof (do_M d Hd).
  pose proof (do_D d Hd). nia.
Qed.

Lemma idx_INDEX j k : cluster d j k -> INDEX j k (dM d) = idx d j k.
Proof using Hd. intros Hc. apply wrap_small. pose proof (idx_range j k Hc). unfold idx in *. lia. Qed.

Lemma idx_inj j k j' k' :
  cluster d j k -> cluster d j' k' -> idx d j k = idx d j' k' -> j = j' /\ k = k'.
Proof using Hd.
  intros Hc Hc' E. destruct (cluster_C _ _ Hc), (cluster_C _ _ Hc').
  apply (cell_inj (dM d)); [lia|lia|done].
Qed.

Lemma sd_ok j k : cluster d j k -> side_ok (sd d j k) /\ 2 <= sd d j k.
Proof using Hd.
  intros Hc. destruct (do_N d Hd j k Hc), (cluster_C _ _ Hc) as [Hj _].
  pose proof (do_C d Hd j Hj). unfold side_ok, sd, domain in *. lia.
Qed.

Lemma hier_rep_ext r H H' :
  (forall j k, cluster d j k -> H j k = H' j k) -> hier_rep r H -> hier_rep r H'.
Proof using. intros He [Hs Hr]. split; [done|]. intros j k Hc. rewrite <- He by done. auto. Qed.

(** A change to one cluster. *)
Lemma rep_write r r' H j k o :
  hier_rep r H -> cluster d j k ->
  (route_ r <> Freed -> route_ r' <> Freed) ->
  level_ r' = level_ r -> D_ r' = D_ r -> Cmax_ r' = Cmax_ r -> C_ r' = C_ r -> cluster_size_ r' = cluster_size_ r ->
  (forall i, 0 <= i -> i <> idx d j k ->
    slot (hsize_ r') i = slot (hsize_ r) i /\ slot (hadj_ r') i = slot (hadj_ r) i /\
    slot (hroute_ r') i = slot (hroute_ r) i /\ slot (hconnect_ r') i = slot (hconnect_ r) i) ->
  cluster_rep r' j k o -> hier_rep r' (upd2 H j k o).
Proof using Hd.
  intros [Hs Hr] Hc ER EL ED EM EC EN Hfar Ho. split.
  - destruct Hs as [HR H0 H1 H2 H3 H4]. split; [by apply ER|congruence..| |]; intros.
    + rewrite EC. auto.
    + rewrite EN. auto.
  - intros j' k' Hc'. destruct (decide (j' = j /\ k' = k)) as [[-> ->]|Hne]; [by rewrite upd2_at|].
    rewrite upd2_ne by (intros [= -> ->]; tauto).
    destruct (Hfar (idx d j' k')) as (F1 & F2 & F3 & F4).
    + by apply idx_range.
    + intros E. destruct (idx_inj _ _ _ _ Hc' Hc E). tauto.
    + specialize (Hr _ _ Hc'). revert Hr. unfold cluster_rep, allocated.
      by rewrite F1, F2, F3, F4.
Qed.

Lemma array_of_slot {A} (p : option (list (option (list A)))) i v :
  0 <= i -> slot p i = Some (Some v) -> array_of p i = Ok v.
Proof using.
  intros Hi Hs. destruct p as [l|]; [|done]. unfold array_of, aget. cbn in Hs. rewrite Hs.
  by destruct (Z.ltb_spec i 0); [lia|].
Qed.

Lemma aset_slot {A} (l : list A) i v x :
  0 <= i -> slot (Some l) i = Some x -> exists l', aset l i v = Ok l' /\
    slot (Some l') i = Some v /\ forall i', 0 <= i' -> i' <> i -> slot (Some l') i' = slot (Some l) i'.
Proof using.
  intros Hi Hs. cbn in Hs. pose proof (lookup_lt_Some _ _ _ Hs) as Hl. unfold aset.
  destruct (Z.ltb_spec i 0); [lia|]. destruct (Z.leb_spec (Z.of_nat (length l)) i); [lia|]. simpl.
  eexists. split; [done|]. split; [by apply list_lookup_insert_eq|].
  intros i' Hi' Hne. apply list_lookup_insert_ne. lia.
Qed.

Lemma put_array_slot {A} (p : option (list (option (list A)))) i v x :
  0 <= i -> slot p i = Some x -> exists l', put_array p i v = Ok l' /\
    slot (Some l') i = Some (Some v) /\
    forall i', 0 <= i' -> i' <> i -> slot (Some l') i' = slot p i'.
Proof using. destruct p as [l|]; [|done]. apply aset_slot. Qed.

(** *** Writes to a matrix *)

Lemma connect_cell w n z c : 0 <= z <= n -> 0 <= c < w -> 0 <= z * w + c < w * (n + 1).
Proof using. nia. Qed.

Definition with_cost (p q v : Z) (x : mx) : mx := Mx (upd2 (m_cost x) p q v) (m_conn x).
Definition with_conn (z c : Z) (a : string) (x : mx) : mx :=
  Mx (m_cost x) (upd2 (m_conn x) z c (Some a)).

Lemma put_cost_spec r H j k x p q v :
  hier_rep r H -> cluster d j k -> H j k = Some x -> 0 <= p < sd d j k -> 0 <= q < sd d j k ->
  exists r', put_cost (idx d j k) (INDEX p q (sd d j k)) v r = Ok r' /\
    hier_rep r' (upd2 H j k (Some (with_cost p q v x))).
Proof using Hd.
  intros Hr Hc Hx Hp Hq. pose proof (proj2 Hr j k Hc) as Ha. rewrite Hx in Ha.
  destruct Ha as (h & la & lr & lc & Eh & Hh & Ea & Hla & Er & Hlr & Ec & Hlc & Hcon).
  pose proof (idx_range j k Hc) as Hi. unfold put_cost.
  rewrite (array_of_slot _ _ _ (proj1 Hi) Ea). cbn [rbind].
  destruct (mat_set _ (proj1 (sd_ok j k Hc)) _ _ p q v Hla Hp Hq) as (la' & -> & Hla').
  cbn [rbind]. destruct (put_array_slot (hadj_ r) (idx d j k) la' _ ltac:(lia) Ea)
    as (ha & -> & Ea' & Hfar).
  cbn [rbind]. eexists. split; [done|].
  apply (rep_write r); [done..| |].
  - intros i Hi0 Hne. by split_and!; [|apply Hfar| |].
  - exists h, la', lr, lc. cbn -[slot]. by split_and!.
Qed.

Lemma put_connect_spec r H j k x z c a :
  hier_rep r H -> cluster d j k -> H j k = Some x -> 0 <= z <= dN d j k ->
  0 <= c < dC d j + dD d -> Z.of_nat (String.length a) < SMALL_LEN ->
  exists r', put_connect (idx d j k) (wrap_i32 (z * (dC d j + dD d) + c)) a r = Ok r' /\
    hier_rep r' (upd2 H j k (Some (with_conn z c a x))).
Proof using Hd.
  intros Hr Hc Hx Hz Hcc Hlen. pose proof (proj2 Hr j k Hc) as Ha. rewrite Hx in Ha.
  destruct Ha as (h & la & lr & lc & Eh & Hh & Ea & Hla & Er & Hlr & Ec & Hlc & Hcon).
  pose proof (idx_range j k Hc) as Hi. unfold put_connect.
  destruct (Z.leb_spec SMALL_LEN (Z.of_nat (String.length a))); [lia|].
  rewrite (array_of_slot _ _ _ (proj1 Hi) Ec). cbn [rbind].
  set (w := dC d j + dD d) in *.
  assert (Hw : w + dN d j k <= 46340).
  { destruct (do_N d Hd j k Hc), (cluster_C _ _ Hc) as [Hj _]. pose proof (do_C d Hd j Hj). lia. }
  pose proof (connect_cell w (dN d j k) z c Hz Hcc) as Hb.
  assert (Hs : w * (dN d j k + 1) <= 46340 * 46341) by (apply Z.mul_le_mono_nonneg; lia).
  rewrite wrap_small by lia.
  destruct (aset_slot lc (z * w + c) (Some a) (m_conn x z c)) as (lc' & E' & Hat & Hoth);
    [lia|cbn; apply Hcon; lia|].
  rewrite E'. cbn [rbind].
  destruct (put_array_slot (hconnect_ r) (idx d j k) lc' _ ltac:(lia) Ec)
    as (hc & -> & Ec' & Hfar).
  cbn [rbind]. eexists. split; [done|].
  apply (rep_write r); [done..| |].
  - intros i Hi0 Hne. by split_and!; [| | |apply Hfar].
  - exists h, la, lr, lc'. cbn -[slot]. split_and!; [done..| |].
    + apply aset_Ok_inv in E'. subst lc'. by rewrite length_insert.
    + intros z' c' Hz' Hc'. unfold upd2.
      destruct (decide (z' = z /\ c' = c)) as [[-> ->]|Hne].
      * rewrite !Z.eqb_refl. exact Hat.
      * replace ((z' =? z) && (c' =? c)) with false by lia.
        rewrite <- (Hcon z' c') by done. fold w. apply (Hoth (z' * w + c')); [nia|].
        intros E. destruct (cell_inj w z' c' z c); [done|lia|lia|tauto].
Qed.

Definition fresh : mx := Mx (fun _ _ => INFINITY) (fun _ _ => None).
Definition alloc (o : option mx) : mx := default fresh o.

Lemma hier_check_spec r H j k :
  hier_rep r H -> cluster d j k ->
  exists r', hier_check (idx d j k) r = Ok r' /\
    hier_rep r' (upd2 H j k (Some (alloc (H j k)))).
Proof using Hd.
  intros Hr Hc. pose proof (proj2 Hr j k Hc) as Ho. pose proof (idx_range j k Hc) as Hi.
  unfold hier_check. destruct (H j k) as [x|] eqn:Hx.
  - pose proof Ho as (h & la & lr & lc & Eh & Hh & _).
    assert (E : hsize_at r (idx d j k) = Ok h).
    { unfold hsize_at. destruct (hsize_ r) as [l|]; [|done]. unfold aget. cbn in Eh. rewrite Eh.
      by destruct (Z.ltb_spec (idx d j k) 0); [lia|]. }
    rewrite E. cbn [rbind]. destruct (Z.ltb_spec 0 h); [|lia]. exists r. split; [done|].
    by apply (rep_write r).
  - destruct Ho as (Eh & Ea & Er & Ec).
    assert (E : hsize_at r (idx d j k) = Ok 0).
    { unfold hsize_at. destruct (hsize_ r) as [l|]; [|done]. unfold aget. cbn in Eh. rewrite Eh.
      by destruct (Z.ltb_spec (idx d j k) 0); [lia|]. }
    rewrite E. cbn [rbind Z.ltb Z.compare]. unfold hier_alloc.
    rewrite (sz_N _ (proj1 Hr) j k Hc), (sz_M _ (proj1 Hr)), (sz_D _ (proj1 Hr)). cbn [rbind].
    destruct (do_N d Hd j k Hc) as [HN1 HN2], (cluster_C _ _ Hc) as [Hj Hk].
    pose proof (do_C d Hd j Hj) as HC. pose proof (do_D d Hd).
    set (t := dN d j k + dM d + dD d) in *.
    assert (Ht0 : 0 < t) by (unfold t; lia).
    assert (Ht : 0 <= t * t < 2 ^ 31) by nia.
    rewrite (wrap_small t) by lia. unfold square. rewrite wrap_small by lia.
    destruct (Z.ltb_spec (t * t) 0); [lia|]. cbn [rbind].
    assert (Hw : 0 <= (dM d + dD d) * (dN d j k + 1) < 2 ^ 31) by nia.
    rewrite wrap_small by lia.
    destruct (Z.ltb_spec ((dM d + dD d) * (dN d j k + 1)) 0); [lia|]. rewrite Z2Nat.id by lia.
    destruct (hsize_ r) as [lh|] eqn:Elh; [|done].
    destruct (aset_slot lh (idx d j k) (t * t) _ ltac:(lia) Eh) as (lh' & -> & Eh' & Fh).
    cbn [rbind].
    destruct (put_array_slot (hadj_ r) (idx d j k) (replicate (Z.to_nat (t * t)) INFINITY) _
      ltac:(lia) Ea) as (ha & -> & Ea' & Fa). cbn [rbind].
    destruct (put_array_slot (hroute_ r) (idx d j k) (replicate (Z.to_nat (t * t)) INFINITY) _
      ltac:(lia) Er) as (hr & -> & Er' & Fr). cbn [rbind].
    destruct (put_array_slot (hconnect_ r) (idx d j k)
      (replicate (Z.to_nat ((dM d + dD d) * (dN d j k + 1))) (@None string)) _
      ltac:(lia) Ec) as (hc & -> & Ec' & Fc). cbn [rbind].
    eexists. split; [done|]. apply (rep_write r); [done..| |].
    + intros i Hi0 Hne. rewrite Elh. split_and!; auto.
    + assert (Hst : sd d j k <= t) by (unfold sd; lia).
      pose proof (sd_ok j k Hc) as [[Hs0 Hs1] _].
      assert (Hsq : sd d j k * sd d j k <= t * t) by (apply Z.square_le_mono_nonneg; lia).
      assert (Hwn : (dC d j + dD d) * (dN d j k + 1) <= (dM d + dD d) * (dN d j k + 1))
        by (apply Z.mul_le_mono_nonneg_r; lia).
      exists (t * t), (replicate (Z.to_nat (t * t)) INFINITY),
        (replicate (Z.to_nat (t * t)) INFINITY),
        (replicate (Z.to_nat ((dM d + dD d) * (dN d j k + 1))) None).
      cbn -[slot]. rewrite !length_replicate.
      split_and!; [done|by apply Z.mul_pos_pos|done| |done|lia|done|lia|].
      * split; [rewrite length_replicate; lia|]. intros a b Ha Hb.
        apply lookup_replicate_2. pose proof (cell_lt _ a b Ha Hb). lia.
      * intros z c Hz Hc'. apply lookup_replicate_2.
        pose proof (connect_cell (dC d j + dD d) (dN d j k) z c Hz Hc'). lia.
Qed.
End Rep.
