(* ===== verification/HierEdits.v ===== *)
(** * What the hierarchical commands do to the matrices

    [link] and [unlink] on matrices, and the theorems that [hier_insert] and
    [hier_reset] implement them; the commands that send the sizes set up a
    state without matrices. *)

From stdpp Require Import base numbers list strings.
From Stdlib Require Import ZArith Lia ZifyBool.
From S2P Require Import Prelude.
From S2P Require Import Text.
From S2P Require Import Array.
From S2P Require Import Address.
From S2P Require Import AddressTheorems.
From S2P Require Import Route.
From S2P Require Import RouteProps.
From S2P Require Import HierRoute.
From S2P Require Import HierProps.

Open Scope Z_scope.

(** ** The positions of the macros *)

Section Positions.
Context (d : dims) (j k : Z).
Let n := dN d j k.
Let c := dC d j.
Let D := dD d.

Lemma N_N_pos a b : N_N_INDEX a b n c D = INDEX a b (sd d j k).
Proof using. unfold N_N_INDEX, INDEX, sd, n, c, D. f_equal. lia. Qed.
Lemma N_C_pos a y : N_C_INDEX a y n c D = INDEX a (at_cluster d j k y) (sd d j k).
Proof using. unfold N_C_INDEX, INDEX, sd, at_cluster, n, c, D. f_equal. lia. Qed.
Lemma N_D_pos a x : N_D_INDEX a x n c D = INDEX a (at_domain d j k x) (sd d j k).
Proof using. unfold N_D_INDEX, INDEX, sd, at_domain, n, c, D. f_equal. lia. Qed.
Lemma C_C_pos y y' :
  C_C_INDEX y y' n c D = INDEX (at_cluster d j k y) (at_cluster d j k y') (sd d j k).
Proof using. unfold C_C_INDEX, INDEX, sd, at_cluster, n, c, D. f_equal. lia. Qed.
Lemma C_D_pos y x :
  C_D_INDEX y x n c D = INDEX (at_cluster d j k y) (at_domain d j k x) (sd d j k).
Proof using. unfold C_D_INDEX, INDEX, sd, at_cluster, at_domain, n, c, D. f_equal. lia. Qed.
Lemma D_D_pos x x' :
  D_D_INDEX x x' n c D = INDEX (at_domain d j k x) (at_domain d j k x') (sd d j k).
Proof using. unfold D_D_INDEX, INDEX, sd, at_domain, n, c, D. f_equal. lia. Qed.
End Positions.

(** The address of a node: domain, cluster, node, each plus one. *)
Definition addr3 : Type := Z * Z * Z.

Definition inside (d : dims) (a : addr3) : Prop :=
  let '(j, k, z) := a in cluster d j k /\ 1 <= z <= dN d j k.

(** The numbers an address of three levels can have, printed, are shorter
    than the array. *)
Definition printable (a : addr3) : Prop :=
  let '(j, k, z) := a in Z.of_nat (String.length (dotted_address j k z)) < SMALL_LEN.

Section Edits.
Context (d : dims) (Hd : dims_ok d).

Lemma node_pos j k z : cluster d j k -> 1 <= z <= dN d j k -> node (sd d j k) z.
Proof using Hd.
  intros [Hj Hk] Hz. pose proof (do_D d Hd). pose proof (do_C d Hd j Hj).
  unfold node, sd. lia.
Qed.

Lemma cluster_pos j k y : cluster d j k -> cluster d j y -> node (sd d j k) (at_cluster d j k y).
Proof using Hd.
  intros Hc [Hj Hy]. pose proof (do_N d Hd j k Hc). pose proof (do_D d Hd).
  unfold node, sd, at_cluster. lia.
Qed.

Lemma domain_pos j k x : cluster d j k -> domain d x -> node (sd d j k) (at_domain d j k x).
Proof using Hd.
  intros Hc Hx. pose proof (do_N d Hd j k Hc). destruct Hc as [Hj Hk].
  unfold domain in Hx. pose proof (do_C d Hd j Hj). unfold node, sd, at_domain. lia.
Qed.

(** ** Commands on matrices *)

(** What a command does to the matrix of cluster (j, k): [v] is the cost, and
    [conn] whether the address of the other end is stored. *)
Definition edit_within (v : Z) (s t : addr3) (j k : Z) (x : mx) : mx :=
  let '(X1, Y1, Z1) := s in let '(X2, Y2, Z2) := t in with_cost Z1 Z2 v x.

Definition connected (b : bool) (z c : Z) (t : addr3) (x : mx) : mx :=
  if b then let '(X2, Y2, Z2) := t in with_conn z c (dotted_address X2 Y2 Z2) x else x.

Definition edit_domain (b : bool) (v : Z) (s t : addr3) (j k : Z) (x : mx) : mx :=
  let '(X1, Y1, Z1) := s in let '(X2, Y2, Z2) := t in
  let x := with_cost (at_cluster d j k Y1) (at_cluster d j k Y2) v x in
  if k =? Y1 then connected b Z1 Y2 t (with_cost Z1 (at_cluster d j k Y2) v x) else x.

Definition edit_far (b : bool) (v : Z) (s t : addr3) (j k : Z) (x : mx) : mx :=
  let '(X1, Y1, Z1) := s in let '(X2, Y2, Z2) := t in
  let x := with_cost (at_domain d j k X1) (at_domain d j k X2) v x in
  if j =? X1 then
    let x := with_cost (at_cluster d j k Y1) (at_domain d j k X2) v x in
    if k =? Y1
    then connected b Z1 (dC d j - 1 + X2) t (with_cost Z1 (at_domain d j k X2) v x)
    else x
  else x.

(** Which matrices a command changes, and how. *)
Definition edit_all (b : bool) (v : Z) (s t : addr3) (H : Z -> Z -> option mx) (j k : Z)
    : option mx :=
  let '(X1, Y1, Z1) := s in let '(X2, Y2, Z2) := t in
  if X1 =? X2 then
    if Y1 =? Y2 then
      if (j =? X1) && (k =? Y1) then Some (edit_within v s t j k (alloc (H j k))) else H j k
    else if j =? X1 then Some (edit_domain b v s t j k (alloc (H j k))) else H j k
  else Some (edit_far b v s t j k (alloc (H j k))).

(** ** Loops over the clusters *)

Lemma clusters_loop j body r H g :
  domain d j -> hier_rep d r H ->
  (forall k r H', cluster d j k -> H' j k = H j k -> hier_rep d r H' ->
    exists r', body k r = Ok r' /\ hier_rep d r' (upd2 H' j k (g k))) ->
  exists r', for_loop 1 (dC d j) body r = Ok r' /\
    hier_rep d r' (fun j' k' => if (j' =? j) && (1 <=? k') && (k' <? dC d j) then g k'
                                else H j' k').
Proof using Hd.
  intros Hj Hr Hb. pose proof (do_C d Hd j Hj) as HC.
  destruct (for_loop_spec (fun k r => hier_rep d r (fun j' k' =>
    if (j' =? j) && (1 <=? k') && (k' <? k) then g k' else H j' k')) 1 (dC d j) body r)
    as (r' & -> & Hr'); [lia| | |by exists r'].
  - apply (hier_rep_ext d r H); [|done]. intros j' k' _.
    by replace ((j' =? j) && (1 <=? k') && (k' <? 1)) with false by lia.
  - intros k r1 Hk Hr1. edestruct (Hb k r1) as (r2 & -> & Hr2); [by split| |exact Hr1|].
    { cbn. by replace ((j =? j) && (1 <=? k) && (k <? k)) with false by lia. }
    exists r2. split; [done|]. revert Hr2. apply hier_rep_ext. intros j' k' _.
    unfold upd2. destruct (Z.eqb_spec j' j) as [->|], (Z.eqb_spec k' k) as [->|]; simpl; try done.
    + by replace ((1 <=? k) && (k <? k + 1)) with true by lia.
    + by replace (k' <? k + 1) with (k' <? k) by lia.
Qed.

Lemma domains_loop body r H g :
  hier_rep d r H ->
  (forall j k r H', cluster d j k -> H' j k = H j k -> hier_rep d r H' ->
    exists r', body j k r = Ok r' /\ hier_rep d r' (upd2 H' j k (g j k))) ->
  exists r', for_loop 1 (dD d) (fun j r => let! c := elem (C_ r) j in for_loop 1 c (body j) r) r
      = Ok r' /\ hier_rep d r' g.
Proof using Hd.
  intros Hr Hb. pose proof (do_D d Hd) as HD.
  destruct (for_loop_spec (fun j r => hier_rep d r (fun j' k' =>
    if j' <? j then g j' k' else H j' k')) 1 (dD d)
    (fun j r => let! c := elem (C_ r) j in for_loop 1 c (body j) r) r) as (r' & -> & Hr').
  - done.
  - apply (hier_rep_ext d r H); [|done]. intros j' k' [[Hj _] _].
    by replace (j' <? 1) with false by lia.
  - intros j r1 Hj Hr1. rewrite (sz_C d _ (proj1 Hr1) j Hj). cbn [rbind].
    destruct (clusters_loop j (body j) r1 _ (g j) Hj Hr1) as (r2 & -> & Hr2).
    { intros k r2 H2 Hc E2 Hr2. apply Hb; [done| |done]. rewrite E2.
      by replace (j <? j) with false by lia. }
    exists r2. split; [done|]. revert Hr2. apply hier_rep_ext. intros j' k' Hc.
    destruct Hc as [_ Hk]. destruct (Z.eqb_spec j' j) as [->|]; simpl.
    + replace ((1 <=? k') && (k' <? dC d j)) with true by lia.
      by replace (j <? j + 1) with true by lia.
    + by replace (j' <? j + 1) with (j' <? j) by lia.
  - exists r'. split; [done|]. revert Hr'. apply hier_rep_ext. intros j k [[_ Hj] _].
    by replace (j <? dD d) with true by lia.
Qed.

(** ** One cluster *)

Lemma upd2_upd2 {A} (H : Z -> Z -> A) j k a b j' k' :
  upd2 (upd2 H j k a) j k b j' k' = upd2 H j k b j' k'.
Proof using. unfold upd2. by destruct (_ && _). Qed.

Lemma rep_same r H j k x :
  hier_rep d r H -> H j k = Some x -> hier_rep d r (upd2 H j k (Some x)).
Proof using.
  intros Hr Hx. revert Hr. apply hier_rep_ext. intros j' k' _. unfold upd2.
  destruct (Z.eqb_spec j' j) as [->|], (Z.eqb_spec k' k) as [->|]; done.
Qed.

Section Cluster.
Context (j k : Z) (Hc : cluster d j k) (H : Z -> Z -> option mx).

(** The matrix of the cluster is [x]. *)
Definition cl_holds (r : RouteLogic) (x : mx) : Prop := hier_rep d r (upd2 H j k (Some x)).

Lemma cost_step r x p q v :
  cl_holds r x -> node (sd d j k) p -> node (sd d j k) q ->
  exists r', put_cost (idx d j k) (INDEX p q (sd d j k)) v r = Ok r' /\
    cl_holds r' (with_cost p q v x).
Proof using Hd Hc.
  unfold cl_holds, node. intros Hr Hp Hq.
  destruct (put_cost_spec d Hd r _ j k x p q v Hr Hc) as (r' & -> & Hr');
    [apply upd2_at|lia|lia|].
  exists r'. split; [done|]. revert Hr'. apply hier_rep_ext. intros. apply upd2_upd2.
Qed.

Lemma conn_step r x z c t :
  cl_holds r x -> 1 <= z <= dN d j k -> 0 <= c < dC d j + dD d -> printable t ->
  let '(X2, Y2, Z2) := t in
  exists r', put_connect (idx d j k) (wrap_i32 (z * (dC d j + dD d) + c))
      (dotted_address X2 Y2 Z2) r = Ok r' /\
    cl_holds r' (connected true z c t x).
Proof using Hd Hc.
  destruct t as [[X2 Y2] Z2]. unfold cl_holds. intros Hr Hz Hcc Hp.
  destruct (put_connect_spec d Hd r _ j k x z c (dotted_address X2 Y2 Z2) Hr Hc)
    as (r' & -> & Hr'); [apply upd2_at|lia|done|done|].
  exists r'. split; [done|]. revert Hr'. apply hier_rep_ext. intros. apply upd2_upd2.
Qed.

Lemma check_step r :
  hier_rep d r H -> exists r', hier_check (idx d j k) r = Ok r' /\ cl_holds r' (alloc (H j k)).
Proof using Hd Hc. intros Hr. apply (hier_check_spec d Hd r H j k Hr Hc). Qed.
End Cluster.

(** Reading the sizes. *)
Ltac sizes Hr Hc :=
  rewrite ?(sz_M d _ (proj1 Hr)), ?(idx_INDEX d Hd _ _ Hc), ?(sz_N d _ (proj1 Hr) _ _ Hc),
    ?(sz_C d _ (proj1 Hr) _ (proj1 Hc)), ?(sz_D d _ (proj1 Hr)); cbn [rbind].

(** Writing one cost, at the positions the macro stands for. *)
Ltac write Hc Hr pos :=
  rewrite pos;
  match goal with |- context [put_cost _ (INDEX ?p ?q _) ?v _] =>
    destruct (cost_step _ _ Hc _ _ _ p q v Hr) as (? & -> & ?);
      [eauto using node_pos, cluster_pos, domain_pos..|]; cbn [rbind]
  end.

(** ** Links *)

Section Insert.
Context (X1 Y1 Z1 X2 Y2 Z2 v : Z).
Let s : addr3 := (X1, Y1, Z1).
Let t : addr3 := (X2, Y2, Z2).
Hypothesis Hs : inside d s.
Hypothesis Ht : inside d t.
Hypothesis Hp : printable t.

Lemma insert_within r H :
  X1 = X2 -> Y1 = Y2 -> hier_rep d r H ->
  exists r', hier_insert X1 Y1 Z1 X2 Y2 Z2 v r = Ok r' /\
    hier_rep d r' (upd2 H X1 Y1 (Some (edit_within v s t X1 Y1 (alloc (H X1 Y1))))).
Proof using Hd Hs Ht Hp.
  intros <- <- Hr. destruct Hs as [Hc Hz1], Ht as [_ Hz2]. unfold hier_insert.
  rewrite !Z.eqb_refl. sizes Hr Hc.
  destruct (check_step X1 Y1 Hc H r Hr) as (r1 & -> & Hr1). cbn [rbind]. sizes Hr1 Hc.
  rewrite (N_N_pos d X1 Y1).
  apply (cost_step X1 Y1 Hc); [done|by apply node_pos..].
Qed.

Lemma insert_cluster_spec y r H :
  cluster d X1 y -> cluster d X1 Y2 -> hier_rep d r H ->
  exists r', insert_cluster X1 Y1 Z1 X2 Y2 Z2 v y r = Ok r' /\
    hier_rep d r' (upd2 H X1 y (Some (edit_domain true v s t X1 y (alloc (H X1 y))))).
Proof using Hd Hs Ht Hp.
  intros Hc Hc2 Hr. pose proof Hs as [Hc1 Hz1]. unfold insert_cluster, edit_domain. sizes Hr Hc.
  destruct (check_step X1 y Hc H r Hr) as (r1 & -> & Hr1). cbn [rbind]. sizes Hr1 Hc.
  write Hc Hr1 (C_C_pos d X1 y). cbn.
  destruct (Z.eqb_spec y Y1) as [->|]; [|eexists; done].
  match goal with E : cl_holds _ _ _ _ _ |- _ => sizes E Hc; write Hc E (N_C_pos d X1 Y1) end.
  match goal with E : cl_holds _ _ _ ?r (with_cost Z1 _ _ _) |- _ => sizes E Hc;
    apply (conn_step X1 Y1 Hc _ _ _ Z1 Y2 t E); [done| |done] end.
  destruct Hc2 as [_ ?]. pose proof (do_D d Hd). lia.
Qed.

Lemma insert_domain_spec x y r H :
  cluster d x y -> hier_rep d r H ->
  exists r', insert_domain X1 X2 v x y r = Ok r' /\
    hier_rep d r' (upd2 H x y (Some
      (with_cost (at_domain d x y X1) (at_domain d x y X2) v (alloc (H x y))))).
Proof using Hd Hs Ht Hp.
  intros Hc Hr. pose proof Hs as [[Hx1 _] _]. pose proof Ht as [[Hx2 _] _].
  unfold insert_domain. sizes Hr Hc.
  destruct (check_step x y Hc H r Hr) as (r1 & -> & Hr1). cbn [rbind]. sizes Hr1 Hc.
  rewrite (D_D_pos d x y). apply (cost_step x y Hc); [done|by apply domain_pos..].
Qed.

Lemma insert_gateway_spec y r H :
  cluster d X1 y -> hier_rep d r H ->
  exists r', insert_gateway X1 Y1 X2 v y r = Ok r' /\
    hier_rep d r' (upd2 H X1 y (Some
      (with_cost (at_cluster d X1 y Y1) (at_domain d X1 y X2) v (alloc (H X1 y))))).
Proof using Hd Hs Ht Hp.
  intros Hc Hr. pose proof Hs as [Hc1 _]. pose proof Ht as [[Hx2 _] _].
  unfold insert_gateway. sizes Hr Hc.
  destruct (check_step X1 y Hc H r Hr) as (r1 & -> & Hr1). cbn [rbind]. sizes Hr1 Hc.
  rewrite (C_D_pos d X1 y).
  apply (cost_step X1 y Hc); [done|by apply cluster_pos|by apply domain_pos].
Qed.

Lemma insert_far r H :
  X1 <> X2 -> hier_rep d r H ->
  exists r', hier_insert X1 Y1 Z1 X2 Y2 Z2 v r = Ok r' /\
    hier_rep d r' (fun j k => Some (edit_far true v s t j k (alloc (H j k)))).
Proof using Hd Hs Ht Hp.
  intros Hx Hr. pose proof Hs as [Hc1 Hz1]. pose proof Ht as [[Hx2 _] _].
  unfold hier_insert. replace (X1 =? X2) with false by lia.
  rewrite (sz_D d _ (proj1 Hr)).
  edestruct (domains_loop (insert_domain X1 X2 v) r H) as (r1 & -> & Hr1); [done| |].
  { intros j k r0 H' Hc E Hr0.
    destruct (insert_domain_spec j k r0 H' Hc Hr0) as (r2 & E2 & Hr2).
    rewrite E in Hr2. exists r2. split; [exact E2|exact Hr2]. }
  cbn [rbind]. rewrite (sz_C d _ (proj1 Hr1) X1 (proj1 Hc1)). cbn [rbind].
  edestruct (clusters_loop X1 (insert_gateway X1 Y1 X2 v) r1) as (r2 & -> & Hr2);
    [apply Hc1|exact Hr1| |].
  { intros k r0 H' Hc E Hr0.
    destruct (insert_gateway_spec k r0 H' Hc Hr0) as (r3 & E3 & Hr3).
    rewrite E in Hr3. exists r3. split; [exact E3|exact Hr3]. }
  cbn [rbind]. sizes Hr2 Hc1. rewrite (N_D_pos d X1 Y1).
  set (H2 := fun _ _ => _) in Hr2.
  assert (E2 : H2 X1 Y1 = Some (with_cost (at_cluster d X1 Y1 Y1) (at_domain d X1 Y1 X2) v
     (with_cost (at_domain d X1 Y1 X1) (at_domain d X1 Y1 X2) v (alloc (H X1 Y1))))).
  { unfold H2. destruct Hc1 as [_ Hk].
    by replace ((X1 =? X1) && (1 <=? Y1) && (Y1 <? dC d X1)) with true by lia. }
  edestruct (cost_step X1 Y1 Hc1 H2 r2) as (r3 & -> & Hr3);
    [by apply rep_same|by apply node_pos|by apply domain_pos|].
  cbn [rbind]. sizes Hr3 Hc1.
  destruct (conn_step X1 Y1 Hc1 H2 r3 _ Z1 (dC d X1 - 1 + X2) t Hr3 Hz1) as (r4 & E4 & Hr4);
    [pose proof (do_C d Hd X1 (proj1 Hc1)); unfold domain in Hx2; lia|done|].
  exists r4. split; [exact E4|]. revert Hr4. apply hier_rep_ext. intros j k [Hj Hk].
  unfold upd2, H2, edit_far, s, t. destruct (Z.eqb_spec j X1) as [->|]; simpl; [|done].
  destruct (Z.eqb_spec k Y1) as [->|]; simpl; [done|].
  by replace ((1 <=? k) && (k <? dC d X1)) with true by lia.
Qed.

Lemma hier_insert_spec r H :
  hier_rep d r H ->
  exists r', hier_insert X1 Y1 Z1 X2 Y2 Z2 v r = Ok r' /\
    hier_rep d r' (edit_all true v s t H).
Proof using Hd Hs Ht Hp.
  intros Hr. unfold edit_all, s, t. destruct (Z.eqb_spec X1 X2) as [EX|];
    [destruct (Z.eqb_spec Y1 Y2) as [EY|]|].
  - destruct (insert_within r H EX EY Hr) as (r' & E & Hr'). exists r'. split; [done|].
    revert Hr'. apply hier_rep_ext. intros j k _. unfold upd2.
    destruct (Z.eqb_spec j X1) as [->|]; [|done]. by destruct (Z.eqb_spec k Y1) as [->|].
  - unfold hier_insert. replace (X1 =? X2) with true by lia. replace (Y1 =? Y2) with false by lia.
    pose proof Hs as [Hc1 _]. pose proof Ht as [Hc2 _]. rewrite <- EX in Hc2.
    rewrite (sz_C d _ (proj1 Hr) X1 (proj1 Hc1)). cbn [rbind].
    edestruct (clusters_loop X1 (insert_cluster X1 Y1 Z1 X2 Y2 Z2 v) r H)
      as (r1 & E1 & Hr1); [apply Hc1|done| |].
    { intros k r0 H' Hc E Hr0.
      destruct (insert_cluster_spec k r0 H' Hc Hc2 Hr0) as (r2 & E2 & Hr2).
      rewrite E in Hr2. exists r2. split; [exact E2|exact Hr2]. }
    exists r1. split; [done|]. revert Hr1. apply hier_rep_ext. intros j k [_ Hk].
    destruct (Z.eqb_spec j X1) as [->|]; simpl; [|done].
    by replace ((1 <=? k) && (k <? dC d X1)) with true by lia.
  - by apply insert_far.
Qed.
End Insert.

(** The matrices a command writes to; [hier_reset] wants them to exist. *)
Definition touches (s t : addr3) (j k : Z) : bool :=
  let '(X1, Y1, _) := s in let '(X2, Y2, _) := t in
  if X1 =? X2 then if Y1 =? Y2 then (j =? X1) && (k =? Y1) else j =? X1 else true.

Section Reset.
Context (X1 Y1 Z1 X2 Y2 Z2 : Z).
Let s : addr3 := (X1, Y1, Z1).
Let t : addr3 := (X2, Y2, Z2).
Hypothesis Hs : inside d s.
Hypothesis Ht : inside d t.

Lemma reset_cluster_spec y r H x :
  cluster d X1 y -> cluster d X1 Y2 -> hier_rep d r H -> H X1 y = Some x ->
  exists r', reset_cluster X1 Y1 Z1 Y2 y r = Ok r' /\
    hier_rep d r' (upd2 H X1 y (Some (edit_domain false INFINITY s t X1 y x))).
Proof using Hd Hs Ht.
  intros Hc Hc2 Hr Hx. pose proof Hs as [Hc1 Hz1]. unfold reset_cluster, edit_domain.
  assert (Hr0 : cl_holds X1 y H r x) by by apply rep_same.
  sizes Hr0 Hc. write Hc Hr0 (C_C_pos d X1 y). cbn.
  destruct (Z.eqb_spec y Y1) as [->|]; [|eexists; done].
  match goal with E : cl_holds _ _ _ _ (with_cost _ _ _ _) |- _ => sizes E Hc;
    rewrite (N_C_pos d X1 Y1); apply (cost_step X1 Y1 Hc); [exact E|by apply node_pos|] end.
  by apply cluster_pos.
Qed.

Lemma reset_domain_spec j k r H x :
  cluster d j k -> hier_rep d r H -> H j k = Some x ->
  exists r', reset_domain X1 Y1 Z1 X2 j k r = Ok r' /\
    hier_rep d r' (upd2 H j k (Some (edit_far false INFINITY s t j k x))).
Proof using Hd Hs Ht.
  intros Hc Hr Hx. pose proof Hs as [Hc1 Hz1]. pose proof Ht as [[Hx2 _] _].
  pose proof (proj1 Hc1) as Hx1. unfold reset_domain, edit_far, s, t.
  assert (Hr0 : cl_holds j k H r x) by by apply rep_same.
  sizes Hr0 Hc. write Hc Hr0 (D_D_pos d j k).
  destruct (Z.eqb_spec j X1) as [->|]; [|eexists; done].
  match goal with E : cl_holds _ _ _ _ (with_cost _ _ _ _) |- _ => sizes E Hc;
    write Hc E (C_D_pos d X1 k) end.
  destruct (Z.eqb_spec k Y1) as [->|]; [|eexists; done].
  match goal with E : cl_holds _ _ _ _ (with_cost _ _ _ (with_cost _ _ _ _)) |- _ => sizes E Hc;
    rewrite (N_D_pos d X1 Y1); apply (cost_step X1 Y1 Hc); [exact E|by apply node_pos|] end.
  by apply domain_pos.
Qed.

Lemma hier_reset_spec r H :
  hier_rep d r H -> (forall j k, cluster d j k -> touches s t j k = true -> H j k <> None) ->
  exists r', hier_reset X1 Y1 Z1 X2 Y2 Z2 r = Ok r' /\
    hier_rep d r' (edit_all false INFINITY s t H).
Proof using Hd Hs Ht.
  intros Hr Hlive. unfold edit_all, hier_reset, s, t. unfold touches, s, t in Hlive.
  pose proof Hs as [Hc1 Hz1]. pose proof Ht as [Hc2 Hz2].
  destruct (Z.eqb_spec X1 X2) as [EX|]; [destruct (Z.eqb_spec Y1 Y2) as [EY|]|].
  - destruct (H X1 Y1) as [x|] eqn:Hx; [|exfalso; apply (Hlive X1 Y1); [done|lia|done]].
    assert (Hr0 : cl_holds X1 Y1 H r x) by by apply rep_same.
    rewrite <- EX, <- EY in Hz2. sizes Hr0 Hc1. write Hc1 Hr0 (N_N_pos d X1 Y1).
    eexists. split; [done|]. match goal with E : cl_holds _ _ _ _ (with_cost _ _ _ _) |- _ =>
      revert E end.
    apply hier_rep_ext. intros j k _. unfold upd2.
    destruct (Z.eqb_spec j X1) as [->|]; [|done]. destruct (Z.eqb_spec k Y1) as [->|]; [|done].
    by rewrite Hx.
  - rewrite (sz_C d _ (proj1 Hr) X1 (proj1 Hc1)). cbn [rbind].
    destruct (clusters_loop X1 (reset_cluster X1 Y1 Z1 Y2) r H (fun k =>
      Some (edit_domain false INFINITY s t X1 k (alloc (H X1 k))))) as (r1 & E1 & Hr1);
      [apply Hc1|done| |].
    { cbn beta. intros k r0 H' Hc E Hr0. destruct (H X1 k) as [x|] eqn:Hx;
        [|exfalso; apply (Hlive X1 k); [done|lia|done]].
      apply (reset_cluster_spec k r0 H' x Hc); [by rewrite EX|done|done]. }
    exists r1. split; [done|]. revert Hr1. apply hier_rep_ext. intros j k [_ Hk].
    destruct (Z.eqb_spec j X1) as [->|]; simpl; [|done].
    by replace ((1 <=? k) && (k <? dC d X1)) with true by lia.
  - rewrite (sz_D d _ (proj1 Hr)).
    apply (domains_loop (reset_domain X1 Y1 Z1 X2) r H); [done|].
    cbn beta. intros j k r0 H' Hc E Hr0.
    destruct (H j k) as [x|] eqn:Hx; [|by destruct (Hlive j k)]. by apply (reset_domain_spec j k r0 H' x).
Qed.
End Reset.
End Edits.

(** ** Setting up *)

(** The sizes of a network given by the nodes of each cluster of each domain. *)
Definition dims_of (nss : list (list Z)) : dims :=
  let cs := map (fun ns => Z.of_nat (length ns) + 1) nss in
  Dims (Z.of_nat (length nss) + 1)
    (fun j => default 0 (cs !! Z.to_nat (j - 1)))
    (fun j k => default 0 (default [] (nss !! Z.to_nat (j - 1)) !! Z.to_nat (k - 1)))
    (fold_left Z.max cs 0).

(** The commands that send them. *)
Definition hier_setup (nss : list (list Z)) : result RouteLogic :=
  let r := set_D (Z.of_nat (length nss) + 1) (set_level 3 new_RouteLogic) in
  let! '(_, r) := send_num_of_clusters (map (fun ns => Z.of_nat (length ns)) nss) r in
  let! '(_, r) := send_num_of_nodes (concat nss) r in
  Ok r.

Lemma map_fmap {A B} (f : A -> B) (l : list A) : map f l = f <$> l.
Proof. done. Qed.

Section Setup.
Context (nss : list (list Z)).
Let d := dims_of nss.
Hypothesis Hd : dims_ok d.

Let cs : list Z := map (fun ns => Z.of_nat (length ns) + 1) nss.

Lemma setup_C j : domain d j -> cs !! Z.to_nat (j - 1) = Some (dC d j).
Proof using.
  intros [H1 H2]. unfold d, dims_of in *. cbn in *. fold cs.
  destruct (lookup_lt_is_Some_2 cs (Z.to_nat (j - 1))) as [c Hc].
  { unfold cs. rewrite length_map. lia. }
  by rewrite Hc.
Qed.

Lemma setup_elem_C j : domain d j -> elem (Some (from_one cs)) j = Ok (dC d j).
Proof using.
  intros Hj. pose proof Hj as [H1 _].
  rewrite <- (elem_from_one cs (Z.to_nat (j - 1)) (dC d j) (setup_C j Hj)). f_equal. lia.
Qed.

(** The largest number of clusters. *)
Lemma setup_max r :
  C_ r = Some (from_one cs) -> D_ r = dD d -> for_loop 1 (D_ r) (wider r) 0 = Ok (dM d).
Proof using Hd.
  intros EC ED. rewrite ED.
  destruct (for_loop_spec (fun i cm => cm = fold_left Z.max (take (Z.to_nat (i - 1)) cs) 0)
    1 (dD d) (wider r) 0) as (cm & -> & Hcm).
  - apply (do_D d Hd).
  - done.
  - intros i cm Hi ->. unfold wider. rewrite EC, (setup_elem_C i Hi). cbn [rbind].
    eexists. split; [done|]. replace (Z.to_nat (i + 1 - 1)) with (S (Z.to_nat (i - 1))) by lia.
    rewrite (take_S_r _ _ _ (setup_C i Hi)), fold_left_app. cbn [fold_left].
    destruct (Z.ltb_spec (fold_left Z.max (take (Z.to_nat (i - 1)) cs) 0) (dC d i)); lia.
  - f_equal. rewrite Hcm. unfold d, dims_of. cbn. fold cs. rewrite take_ge; [done|].
    unfold cs. rewrite length_map. lia.
Qed.

(** The nodes sent before cluster [k] of domain [j]. *)
Definition sent (j k : Z) : Z :=
  Z.of_nat (length (concat (take (Z.to_nat (j - 1)) nss))) + (k - 1).

Lemma setup_domain j : domain d j -> exists ns, nss !! Z.to_nat (j - 1) = Some ns /\
  dC d j = Z.of_nat (length ns) + 1.
Proof using.
  intros Hj. pose proof (setup_C j Hj) as E. unfold cs in E. rewrite map_fmap in E.
  apply list_lookup_fmap_Some in E as (ns & -> & Hns). by exists ns.
Qed.

Lemma sent_next j : domain d j -> sent (j + 1) 1 = sent j (dC d j).
Proof using.
  intros Hj. destruct (setup_domain j Hj) as (ns & Hns & ->). pose proof Hj as [H1 _].
  unfold sent. replace (Z.to_nat (j + 1 - 1)) with (S (Z.to_nat (j - 1))) by lia.
  rewrite (take_S_r _ _ _ Hns), concat_app, length_app. simpl. rewrite app_nil_r. lia.
Qed.

Lemma sent_lookup j k : cluster d j k -> aget (concat nss) (sent j k) = Ok (dN d j k).
Proof using.
  intros [Hj Hk]. destruct (setup_domain j Hj) as (ns & Hns & EC). pose proof Hj as [H1 _].
  unfold sent, aget. destruct (Z.ltb_spec (Z.of_nat (length (concat (take (Z.to_nat (j - 1)) nss))) +
    (k - 1)) 0); [lia|].
  rewrite <- (take_drop_middle _ _ _ Hns) at 2. rewrite concat_app. simpl.
  rewrite lookup_app_r by lia.
  replace (Z.to_nat _ - _)%nat with (Z.to_nat (k - 1)) by lia.
  rewrite lookup_app_l by lia. unfold d, dims_of. cbn. rewrite Hns. simpl.
  destruct (lookup_lt_is_Some_2 ns (Z.to_nat (k - 1)) ltac:(lia)) as [n Hn]. by rewrite Hn.
Qed.

Lemma sent_total : sent (dD d) 1 = Z.of_nat (length (concat nss)).
Proof using.
  unfold sent, d, dims_of. cbn. rewrite take_ge by lia. lia.
Qed.

Lemma count_spec r :
  C_ r = Some (from_one cs) -> D_ r = dD d -> Z.of_nat (length (concat nss)) < 2 ^ 31 ->
  for_loop 1 (D_ r) (count_clusters r) 0 = Ok (Z.of_nat (length (concat nss))).
Proof using Hd.
  intros EC ED Hlen. rewrite ED.
  destruct (for_loop_spec (fun i t => t = sent i 1) 1 (dD d) (count_clusters r) 0)
    as (t & -> & ->).
  - apply (do_D d Hd).
  - done.
  - intros i t Hi ->. unfold count_clusters. rewrite EC, (setup_elem_C i Hi). cbn [rbind].
    eexists. split; [done|]. rewrite (sent_next i Hi).
    assert (Hle : 0 <= sent i (dC d i) <= Z.of_nat (length (concat nss))).
    { rewrite <- (sent_next i Hi). unfold sent. replace (i + 1 - 1) with i by lia.
      rewrite <- (take_drop (Z.to_nat i) nss) at 3. rewrite concat_app, length_app. lia. }
    rewrite wrap_small; unfold sent in *; lia.
  - by rewrite sent_total.
Qed.

(** The sizes of the clusters, stored one by one. *)
Definition stored (j k : Z) (l : int_array) : Prop :=
  Z.of_nat (length l) = dM d * dD d /\
  forall j' k', cluster d j' k' -> j' < j \/ j' = j /\ k' < k ->
    l !! Z.to_nat (idx d j' k') = Some (Some (dN d j' k')).

Lemma put_sizes_spec r (l : int_array) :
  C_ r = Some (from_one cs) -> D_ r = dD d -> Cmax_ r = dM d ->
  Z.of_nat (length l) = dM d * dD d ->
  exists l', put_sizes (concat nss) r l = Ok l' /\ stored (dD d) 1 l'.
Proof using Hd.
  intros EC ED EM Hl. unfold put_sizes. rewrite ED, EM.
  destruct (for_loop_spec (fun j st => fst st = sent j 1 /\ stored j 1 (snd st)) 1 (dD d)
    (fun i st => let! c := elem (C_ r) i in for_loop 1 c (put_size (concat nss) (dM d) i) st)
    (0, l)) as ([k0 l'] & -> & _ & Hs).
  - apply (do_D d Hd).
  - split; [done|]. split; [done|]. intros j k [[Hj _] [Hk _]]. lia.
  - intros j st Hj Hst. rewrite EC, (setup_elem_C j Hj). cbn [rbind].
    pose proof (do_C d Hd j Hj) as HC.
    destruct (for_loop_spec (fun k st => fst st = sent j k /\ stored j k (snd st)) 1 (dC d j)
      (put_size (concat nss) (dM d) j) st) as (st' & -> & E1 & Hs1 & Hs2); [lia|done| |].
    + intros k [m l1] Hk [E [Hl1 Hold]]. cbn [fst snd] in E, Hl1, Hold. subst m. cbn [put_size].
      assert (Hc : cluster d j k) by done.
      rewrite (sent_lookup j k Hc), (idx_INDEX d Hd j k Hc). cbn [rbind].
      pose proof (idx_range d Hd j k Hc) as Hi. destruct (cluster_C d Hd j k Hc) as [[Hj1 Hj2] Hk2].
      assert (Hlt : idx d j k < Z.of_nat (length l1)) by (rewrite Hl1; by apply idx_lt).
      destruct (lookup_lt_is_Some_2 l1 (Z.to_nat (idx d j k)) ltac:(lia)) as [x Hx].
      destruct (aset_slot l1 (idx d j k) (Some (dN d j k)) x (proj1 Hi) Hx)
        as (l2 & E2 & Hat & Hfar). rewrite E2. cbn [rbind].
      eexists. split; [done|]. split; [unfold sent; simpl; lia|]. split.
      { apply aset_Ok_inv in E2. subst l2. simpl. by rewrite length_insert. }
      intros j' k' Hc' Hbefore. destruct (decide (j' = j /\ k' = k)) as [[-> ->]|Hne]; [exact Hat|].
      pose proof (idx_range d Hd j' k' Hc').
      rewrite <- (Hold j' k' Hc') by lia. apply (Hfar (idx d j' k')); [lia|].
      intros E. destruct (idx_inj d Hd _ _ _ _ Hc' Hc E). tauto.
    + exists st'. split; [done|]. split; [by rewrite (sent_next j Hj)|]. split; [done|].
      intros j' k' Hc' Hbefore. apply Hs2; [done|]. destruct Hc' as [_ ?].
      destruct (decide (j' = j)) as [->|]; lia.
  - exists l'. by split.
Qed.

Lemma setup_spec :
  nss <> [] -> Z.of_nat (length (concat nss)) < 2 ^ 31 ->
  exists r, hier_setup nss = Ok r /\ hier_rep d r (fun _ _ => None) /\
    adj_ r = Null /\ route_ r = Null.
Proof using Hd.
  intros Hne Hlen. unfold hier_setup, send_num_of_clusters. cbn [D_ set_D set_level].
  rewrite length_map. replace (2 + _ =? _) with true by lia. cbn [negb].
  rewrite map_map. pose proof (do_MD d Hd) as HMD. pose proof (do_M d Hd) as HM.
  pose proof (do_D d Hd) as HD.
  assert (Ecs : map (fun ns : list Z => wrap_i32 (Z.of_nat (length ns) + 1)) nss = cs).
  { unfold cs. apply map_ext_in. intros ns Hin. apply wrap_small.
    apply list_elem_of_In, list_elem_of_lookup in Hin as [i Hi].
    assert (Hj : domain d (Z.of_nat i + 1)).
    { apply lookup_lt_Some in Hi. unfold domain, d, dims_of. cbn. lia. }
    pose proof (do_C d Hd _ Hj) as HC. destruct (setup_domain _ Hj) as (ns' & Hns' & E).
    replace (Z.to_nat (Z.of_nat i + 1 - 1)) with i in Hns' by lia. simplify_eq. lia. }
  rewrite Ecs. unfold hier_init. cbn [Cmax_ set_C set_D set_level new_RouteLogic].
  rewrite setup_max by done. cbn [rbind C_ D_ set_C set_D].
  change (Z.of_nat (length nss) + 1) with (dD d).
  assert (Harr : 0 <= dM d * dD d < 2 ^ 31) by nia. rewrite wrap_small by lia.
  destruct (Z.ltb_spec (dM d * dD d) 0); [lia|]. cbn [rbind].
  unfold send_num_of_nodes. rewrite count_spec by done. cbn [rbind].
  replace (2 + Z.of_nat (length (concat nss)) =? Z.of_nat (length (concat nss)) + 2) with true by lia.
  cbn [negb cluster_size_].
  match goal with |- context [put_sizes _ ?r ?l] => destruct (put_sizes_spec r l) as (l' & -> & Hs);
    [done..|rewrite length_replicate; lia|] end.
  cbn [rbind]. eexists. split; [done|]. split; [|done]. split.
  - split; [done..| |].
    + intros j Hj. by apply setup_elem_C.
    + intros j k Hc. destruct Hs as [Hl Hs]. pose proof (idx_range d Hd j k Hc). cbn. unfold aget.
      destruct (Z.ltb_spec (idx d j k) 0); [lia|]. rewrite Hs; [done..|].
      left. apply Hc.
  - intros j k Hc. pose proof (idx_range d Hd j k Hc).
    destruct (cluster_C d Hd j k Hc) as [[Hj1 Hj2] Hk2].
    assert (Hlt : (Z.to_nat (idx d j k) < Z.to_nat (dM d * dD d))%nat)
      by (pose proof (idx_lt d Hd j k Hc); lia).
    cbn. by rewrite !lookup_replicate_2 by done.
Qed.
End Setup.
