(* ===== verification/HierCompute.v ===== *)
(** * Computing the hierarchical routes

    After [hier_compute] the matrix of each cluster holds, for each pair of
    its positions, the first hop of a least-cost walk between them in the
    cluster's own graph. *)

From stdpp Require Import base numbers list strings.
From Stdlib Require Import ZArith Lia ZifyBool.
From S2P Require Import Prelude.
From S2P Require Import Float64.
From S2P Require Import FloatInt.
From S2P Require Import Array.
From S2P Require Import Address.
From S2P Require Import Route.
From S2P Require Import RouteProps.
From S2P Require Import RouteTheorems.
From S2P Require Import HierRoute.
From S2P Require Import HierProps.
From S2P Require Import HierEdits.

Open Scope Z_scope.

(** A loop over the cells of a square, with an invariant of the next cell. *)
Lemma over_square_spec {St} (I : Z -> Z -> St -> Prop) s body st :
  0 <= s -> I 0 0 st ->
  (forall n m st, 0 <= n < s -> 0 <= m < s -> I n m st ->
    exists st', body n m st = Ok st' /\ I n (m + 1) st') ->
  (forall n st, I n s st -> I (n + 1) 0 st) ->
  exists st', over_square s body st = Ok st' /\ I s 0 st'.
Proof.
  intros Hs H0 Hb Hn. unfold over_square.
  apply (for_loop_spec (fun n => I n 0)); [done..|].
  intros n st1 Hr H1.
  destruct (for_loop_spec (I n) 0 s (body n) st1) as (st2 & -> & H2); [done..| |].
  - intros m st2 Hm H2. by apply Hb.
  - exists st2. split; [done|]. by apply Hn.
Qed.

(** The cells before (n, m). *)
Definition before (n m i j : Z) : bool := (i <? n) || ((i =? n) && (j <? m)).

Lemma before_next n m i j :
  before n (m + 1) i j = (i =? n) && (j =? m) || before n m i j.
Proof. unfold before. lia. Qed.

Lemma before_row s n i j : 0 <= j < s -> before (n + 1) 0 i j = before n s i j.
Proof. unfold before. lia. Qed.

Section Load.
Context (s : Z) (Hs : side_ok s) (h : list Z) (c : Z -> Z -> Z).
Hypothesis Hh : mat h s c.

(** The costs reach the array the search reads; no entry is set. *)
Lemma load_costs_spec :
  exists a, over_square s (fun n m a => load_cost h s n m a)
      (replicate (Z.to_nat (s * s)) (AdjEntry f0 NULL)) = Ok a /\
    mat a s (fun i j => AdjEntry (f64_of_Z (c i j)) NULL) /\
    Forall (fun e => adj_ent e = NULL) a.
Proof using Hs Hh.
  pose proof Hs as Hs0. unfold side_ok in Hs0.
  destruct (over_square_spec (fun n m a => mat a s (fun i j => AdjEntry
      (if before n m i j then f64_of_Z (c i j) else f0) NULL) /\
      Forall (fun e => adj_ent e = NULL) a) s (fun n m a => load_cost h s n m a)
    (replicate (Z.to_nat (s * s)) (AdjEntry f0 NULL))) as (a & -> & Ha & Hnull).
  - lia.
  - split; [|by apply Forall_replicate]. apply (mat_ext s _ _ _ (mat_replicate s Hs _)).
    intros i j Hi Hj. by replace (before 0 0 i j) with false by (unfold before; lia).
  - intros n m a Hn Hm [Ha Hnull]. unfold load_cost.
    rewrite (mat_get s Hs _ _ _ _ Hh), (mat_get s Hs _ _ _ _ Ha) by done. cbn [rbind adj_ent].
    destruct (mat_set s Hs _ _ n m (AdjEntry (f64_of_Z (c n m)) NULL) Ha Hn Hm)
      as (a' & E & Ha'). exists a'. split; [done|]. split.
    + apply (mat_ext s _ _ _ Ha'). intros i j _ _. rewrite before_next. unfold upd2.
      destruct (Z.eqb_spec i n) as [->|], (Z.eqb_spec j m) as [->|]; done.
    + apply aset_Ok_inv in E. subst a'. by apply Forall_insert.
  - intros n a [Ha Hnull]. split; [|done]. apply (mat_ext s _ _ _ Ha). intros i j _ Hj.
    by rewrite (before_row s).
  - exists a. split; [done|]. split; [|done]. apply (mat_ext s _ _ _ Ha). intros i j Hi Hj.
    by replace (before s 0 i j) with true by (unfold before; lia).
Qed.
End Load.

(** A list long enough is a matrix of something. *)
Lemma mat_of s (l : list Z) :
  side_ok s -> s * s <= Z.of_nat (length l) ->
  mat l s (fun i j => default 0 (l !! Z.to_nat (s * i + j))).
Proof.
  intros Hs Hl. split; [done|]. intros i j Hi Hj. pose proof (cell_lt s i j Hi Hj).
  destruct (lookup_lt_is_Some_2 l (Z.to_nat (s * i + j)) ltac:(lia)) as [x Hx]. by rewrite Hx.
Qed.

Section Compute.
Context (d : dims) (Hd : dims_ok d).

(** The matrix of routes of a cluster. *)
Definition routed_cl (r : RouteLogic) (j k : Z) (x : mx) : Prop :=
  exists lr R, slot (hroute_ r) (idx d j k) = Some (Some lr) /\ mat lr (sd d j k) R /\
    forall u v, node (sd d j k) u -> node (sd d j k) v ->
      0 <= R u v < sd d j k /\
      if u =? v then R u v = v else first_hop (sd d j k) (m_cost x) u v (R u v).

Lemma routed_cl_slot r r' j k x :
  slot (hroute_ r') (idx d j k) = slot (hroute_ r) (idx d j k) ->
  routed_cl r j k x -> routed_cl r' j k x.
Proof using. intros E (lr & R & Hl & H). exists lr, R. by rewrite E. Qed.

(** The search of one cluster. *)
Lemma hier_compute_routes_spec r H j k x a :
  hier_rep d r H -> cluster d j k -> costs_ok (sd d j k) (m_cost x) -> route_ r <> Freed ->
  adj_ r = Block a -> mat a (sd d j k) (fun p q => AdjEntry (f64_of_Z (m_cost x p q)) NULL) ->
  Forall (fun e => adj_ent e = NULL) a ->
  exists rs R, hier_compute_routes (idx d j k) j r = Ok (set_route (Block rs) r) /\
    mat rs (sd d j k) R /\
    forall u v, node (sd d j k) u -> node (sd d j k) v ->
      0 <= next_hop (R u v) < sd d j k /\
      if u =? v then next_hop (R u v) = v
      else first_hop (sd d j k) (m_cost x) u v (next_hop (R u v)).
Proof using Hd.
  intros Hr Hc Hcost Hfree Ea Ha Hnull. destruct (sd_ok d Hd j k Hc) as [Hs H2].
  unfold hier_compute_routes, side. rewrite (sz_N d _ (proj1 Hr) j k Hc),
    (sz_C d _ (proj1 Hr) j (proj1 Hc)), (sz_D d _ (proj1 Hr)). cbn [rbind].
  fold (sd d j k). pose proof Hs as [Hs0 Hs1]. rewrite wrap_small by lia.
  destruct (Z.ltb_spec (sd d j k) 0); [lia|]. rewrite (delete_live _ Hfree), Ea.
  unfold square. assert (0 <= sd d j k * sd d j k < 2 ^ 31) by nia. rewrite wrap_small by lia.
  destruct (Z.ltb_spec (sd d j k * sd d j k) 0); [lia|]. cbn [rbind deref].
  rewrite h_all_routes_flat by done.
  destruct (all_routes_spec a (sd d j k) (m_cost x) (fun _ _ => NULL) Hs Ha Hcost ltac:(lia))
    as (rs & R & -> & HR & Hself & Hrow).
  exists rs, R. split; [done|]. split; [done|]. intros u v Hu Hv.
  destruct (Z.eqb_spec u v) as [->|Huv].
  - rewrite Hself by done. unfold node in Hv. simpl. lia.
  - destruct (Hrow u Hu) as (R' & Hok & ->); [|done].
    apply (best_first_hop _ _ (fun _ _ => NULL)); [lia|]. by apply row_best.
Qed.

(** The routes found replace those of the cluster, and of no other. *)
Lemma store_routes_spec r t j k R lr :
  cluster d j k -> route_ r = Block t -> mat t (sd d j k) R ->
  slot (hroute_ r) (idx d j k) = Some (Some lr) ->
  sd d j k * sd d j k <= Z.of_nat (length lr) ->
  exists hr lr', over_square (sd d j k) (fun n m r =>
      let! t := deref (route_ r) in
      let! h := array_of (hroute_ r) (idx d j k) in
      let! h := store_route t (sd d j k) n m h in
      let! hr := put_array (hroute_ r) (idx d j k) h in
      Ok (set_hroute hr r)) r = Ok (set_hroute hr r) /\
    slot (Some hr) (idx d j k) = Some (Some lr') /\
    mat lr' (sd d j k) (fun p q => next_hop (R p q)) /\
    forall i, 0 <= i -> i <> idx d j k -> slot (Some hr) i = slot (hroute_ r) i.
Proof using Hd.
  intros Hc Et Ht El Hl. destruct (sd_ok d Hd j k Hc) as [Hs _]. pose proof Hs as [Hs0 _].
  pose proof (idx_range d Hd j k Hc) as Hi. set (s := sd d j k) in *.
  destruct (hroute_ r) as [hr0|] eqn:Ehr; [|done].
  destruct (over_square_spec (fun n m r' => exists hr lr', r' = set_hroute hr r /\
      slot (Some hr) (idx d j k) = Some (Some lr') /\
      mat lr' s (fun p q => if before n m p q then next_hop (R p q)
                            else default 0 (lr !! Z.to_nat (s * p + q))) /\
      forall i, 0 <= i -> i <> idx d j k -> slot (Some hr) i = slot (Some hr0) i) s
    (fun n m r =>
      let! t := deref (route_ r) in
      let! h := array_of (hroute_ r) (idx d j k) in
      let! h := store_route t s n m h in
      let! hr := put_array (hroute_ r) (idx d j k) h in
      Ok (set_hroute hr r)) r) as (r' & -> & hr & lr' & -> & E' & Hm & Hfar).
  - lia.
  - exists hr0, lr. split_and!; [by destruct r; simpl in Ehr; subst|done| |done].
    apply (mat_ext s _ _ _ (mat_of s lr Hs Hl)). intros p q Hp Hq.
    by replace (before 0 0 p q) with false by (unfold before; lia).
  - intros n m r' Hn Hm (hr & lr' & -> & E' & Hm' & Hfar). cbn [route_ hroute_ set_hroute].
    rewrite Et. cbn [deref rbind]. rewrite (array_of_slot _ _ _ (proj1 Hi) E'). cbn [rbind].
    unfold store_route. rewrite (mat_get s Hs _ _ _ _ Ht) by done. cbn [rbind].
    destruct (mat_set s Hs _ _ n m (next_hop (R n m)) Hm' Hn Hm) as (l2 & -> & Hl2). cbn [rbind].
    destruct (put_array_slot (Some hr) (idx d j k) l2 _ (proj1 Hi) E') as (hr2 & -> & E2 & Hfar2).
    cbn [rbind]. eexists. split; [done|]. exists hr2, l2. split_and!; [by destruct r|done| |].
    + apply (mat_ext s _ _ _ Hl2). intros p q _ _. rewrite before_next. unfold upd2.
      destruct (Z.eqb_spec p n) as [->|], (Z.eqb_spec q m) as [->|]; done.
    + intros i Hi0 Hne. rewrite Hfar2 by done. by apply Hfar.
  - intros n r' (hr & lr' & -> & E' & Hm & Hfar). exists hr, lr'. split_and!; [done..| |done].
    apply (mat_ext s _ _ _ Hm). intros p q _ Hq. by rewrite (before_row s).
  - exists hr, lr'. split_and!; [done..| |done]. apply (mat_ext s _ _ _ Hm). intros p q Hp Hq.
    by replace (before s 0 p q) with true by (unfold before; lia).
Qed.

Lemma compute_cluster_spec r H j k x :
  hier_rep d r H -> cluster d j k -> H j k = Some x -> costs_ok (sd d j k) (m_cost x) ->
  route_ r <> Freed ->
  exists r', compute_cluster j k r = Ok r' /\ hier_rep d r' H /\ route_ r' <> Freed /\
    routed_cl r' j k x /\
    forall i, 0 <= i -> i <> idx d j k -> slot (hroute_ r') i = slot (hroute_ r) i.
Proof using Hd.
  intros Hr Hc Hx Hcost Hfree. destruct (sd_ok d Hd j k Hc) as [Hs H2].
  pose proof (proj2 Hr j k Hc) as Hal. rewrite Hx in Hal.
  destruct Hal as (h & la & lr & lc & Eh & Hh & Ea & Hla & Er & Hlr & Ec & Hlc & Hcon).
  pose proof (idx_range d Hd j k Hc) as Hi. unfold compute_cluster, side.
  rewrite (sz_M d _ (proj1 Hr)), (idx_INDEX d Hd j k Hc), (sz_N d _ (proj1 Hr) j k Hc),
    (sz_C d _ (proj1 Hr) j (proj1 Hc)), (sz_D d _ (proj1 Hr)). cbn [rbind].
  fold (sd d j k). pose proof Hs as [Hs0 Hs1]. rewrite wrap_small by lia. unfold square.
  assert (0 <= sd d j k * sd d j k < 2 ^ 31) by nia. rewrite wrap_small by lia.
  destruct (Z.ltb_spec (sd d j k * sd d j k) 0); [lia|]. cbn [rbind].
  rewrite (array_of_slot _ _ _ (proj1 Hi) Ea). cbn [rbind].
  destruct (load_costs_spec (sd d j k) Hs la (m_cost x) Hla) as (a & -> & Ha & Hnull).
  cbn [rbind].
  destruct (hier_compute_routes_spec (set_adj (Block a) r) H j k x a)
    as (rs & R & -> & HR & Hroutes);
    [by split; [destruct (proj1 Hr)|exact (proj2 Hr)]|done..|]. cbn [rbind].
  set (r1 := set_route (Block rs) (set_adj (Block a) r)).
  destruct (store_routes_spec r1 rs j k R lr Hc eq_refl HR Er Hlr)
    as (hr & lr' & -> & E' & Hlr' & Hfar). cbn [rbind].
  eexists. split; [done|]. split_and!; [|done| |exact Hfar].
  - apply (hier_rep_ext d _ (upd2 H j k (H j k))).
    { intros j' k' _. unfold upd2.
      destruct (Z.eqb_spec j' j) as [->|], (Z.eqb_spec k' k) as [->|]; done. }
    apply (rep_write d Hd r); [done..| |].
    + intros i Hi0 Hne. by split_and!; [| |apply Hfar|].
    + rewrite Hx. exists h, la, lr', lc. cbn -[slot]. split_and!; try done. apply Hlr'.
  - exists lr', (fun p q => next_hop (R p q)). by split_and!.
Qed.

(** The whole computation. *)
Lemma hier_compute_spec r H :
  hier_rep d r H -> route_ r <> Freed ->
  (forall j k, cluster d j k -> exists x, H j k = Some x /\ costs_ok (sd d j k) (m_cost x)) ->
  exists r', hier_compute r = Ok r' /\ hier_rep d r' H /\
    forall j k x, cluster d j k -> H j k = Some x -> routed_cl r' j k x.
Proof using Hd.
  intros Hr Hfree Hall. pose proof (do_D d Hd) as HD. unfold hier_compute.
  rewrite (sz_D d _ (proj1 Hr)).
  set (I j k (r : RouteLogic) := hier_rep d r H /\ route_ r <> Freed /\
    forall j' k' x, cluster d j' k' -> before j k j' k' = true -> H j' k' = Some x ->
      routed_cl r j' k' x).
  destruct (for_loop_spec (fun j => I j 1) 1 (dD d)
    (fun j r => let! c := elem (C_ r) j in for_loop 1 c (compute_cluster j) r) r)
    as (r' & -> & Hr' & _ & Hdone).
  - done.
  - split_and!; [done..|]. intros j k x [[Hj _] [Hk _]] Hb. unfold before in Hb. lia.
  - intros j r1 Hj (Hr1 & Hf1 & Hd1). rewrite (sz_C d _ (proj1 Hr1) j Hj). cbn [rbind].
    pose proof (do_C d Hd j Hj) as HC.
    destruct (for_loop_spec (I j) 1 (dC d j) (compute_cluster j) r1) as (r2 & -> & Hr2 & Hf2 & Hd2).
    + lia.
    + by split_and!.
    + intros k r2 Hk (Hr2 & Hf2 & Hd2). assert (Hc : cluster d j k) by done.
      destruct (Hall j k Hc) as (x & Hx & Hcost).
      destruct (compute_cluster_spec r2 H j k x Hr2 Hc Hx Hcost Hf2)
        as (r3 & -> & Hr3 & Hf3 & Hrt & Hfar).
      exists r3. split; [done|]. split_and!; [done..|]. intros j' k' x' Hc' Hb Hx'.
      destruct (decide (j' = j /\ k' = k)) as [[-> ->]|Hne]; [by simplify_eq|].
      apply (routed_cl_slot r2).
      * apply Hfar; [by apply idx_range|]. intros E.
        destruct (idx_inj d Hd _ _ _ _ Hc' Hc E). tauto.
      * apply Hd2; [done| |done]. rewrite before_next in Hb. lia.
    + exists r2. split; [done|]. split_and!; [done..|]. intros j' k' x Hc' Hb.
      apply Hd2; [done|]. destruct Hc' as [_ Hk']. unfold before in *.
      destruct (Z.eqb_spec j' j) as [->|]; lia.
  - exists r'. split_and!; [done..|]. intros j k x Hc. apply Hdone; [done|].
    destruct Hc as [[_ Hj] _]. unfold before. lia.
Qed.
End Compute.
