(* ===== verification/HierTheorems.v ===== *)
(** * Hierarchical routing: what it promises

    The commands of a script (sizes, links, [hier-compute]) lead to a state in
    which [lookup_hier] answers, from a node to another node of its cluster,
    another cluster of its domain or another domain, the address of the first
    hop of a least-cost walk in the graph of its cluster, whatever the stack
    holds behind the numbers of the addresses. *)

From stdpp Require Import base numbers list strings pretty.
From Stdlib Require Import ZArith Lia ZifyBool.
From S2P Require Import Prelude.
From S2P Require Import Text.
From S2P Require Import Array.
From S2P Require Import Address.
From S2P Require Import AddressTheorems.
From S2P Require Import Route.
From S2P Require Import RouteProps.
From S2P Require Import RouteTheorems.
From S2P Require Import HierRoute.
From S2P Require Import HierProps.
From S2P Require Import HierEdits.
From S2P Require Import HierCompute.

Open Scope Z_scope.

(** ** Addresses in strings *)

(** Numbers with dots between them. *)
Fixpoint dots (l : list Z) : string :=
  match l with
  | [] => EmptyString
  | [x] => fmt_d x
  | x :: l => fmt_d x +:+ ("." +:+ dots l)
  end.

Lemma pieces_dots l :
  l <> [] -> Forall (fun x => 0 <= x) l -> pieces EmptyString (dots l) = map fmt_d l.
Proof.
  induction l as [|x [|y l] IH]; intros Hne Hl; [done| |].
  - apply Forall_cons in Hl as [Hx _]. cbn [dots map].
    rewrite <- (string_app_nil (fmt_d x)) at 1.
    rewrite pieces_digits by by apply all_digits_fmt.
    change (EmptyString +:+ fmt_d x) with (fmt_d x). cbn [pieces].
    pose proof (fmt_nonempty x Hx). by destruct (String.eqb_spec (fmt_d x) EmptyString).
  - apply Forall_cons in Hl as [Hx Hl].
    change (dots (x :: y :: l)) with (fmt_d x +:+ ("." +:+ dots (y :: l))).
    rewrite pieces_digits by by apply all_digits_fmt.
    rewrite pieces_dot, IH by done. done.
Qed.

Lemma strtok_dots l :
  l <> [] -> Forall (fun x => 0 <= x < 2 ^ 31 - 1) l ->
  Z.of_nat (String.length (dots l)) < SMALL_LEN ->
  ns_strtok (dots l) = Ok (map (fun x => x + 1) l).
Proof.
  intros Hne Hl Hlen. unfold ns_strtok.
  destruct (Z.leb_spec SMALL_LEN (Z.of_nat (String.length (dots l)))); [lia|].
  rewrite pieces_dots, map_map; [|done|by apply (Forall_impl _ _ _ Hl); lia].
  f_equal. apply map_ext_in. intros x Hx%list_elem_of_In.
  pose proof (proj1 (Forall_forall _ _) Hl x Hx) as Hb. cbn beta in Hb.
  rewrite atoi_fmt_d by lia. apply wrap_small. lia.
Qed.

Lemma length_pretty_go k n s :
  (n < 10 ^ N.of_nat k)%N -> (String.length (pretty_N_go n s) <= k + String.length s)%nat.
Proof.
  revert n s. induction k as [|k IH]; intros n s Hn.
  - replace n with 0%N by (simpl in Hn; lia). by rewrite pretty_N_go_0.
  - destruct (decide (n = 0)%N) as [->|]; [rewrite pretty_N_go_0; lia|].
    rewrite pretty_N_go_step by lia. etrans; [apply IH|simpl; lia].
    apply N.Div0.div_lt_upper_bound. rewrite Nat2N.inj_succ, N.pow_succ_r' in Hn. lia.
Qed.

Lemma length_fmt_d z : 0 <= z < 10 ^ 5 -> (String.length (fmt_d z) <= 5)%nat.
Proof.
  intros Hz. assert (exists n, z = Z.of_N n) as (n & ->) by (exists (Z.to_N z); lia).
  replace (fmt_d (Z.of_N n)) with (pretty n) by (by destruct n).
  unfold pretty, pretty_N. case_decide; [simpl; lia|].
  etrans; [apply (length_pretty_go 5)|simpl; lia]. simpl. lia.
Qed.

(** Up to three numbers below 10^5 fit. *)
Lemma length_dots l :
  Forall (fun x => 0 <= x < 10 ^ 5) l -> (length l <= 3)%nat ->
  Z.of_nat (String.length (dots l)) < SMALL_LEN.
Proof.
  assert (H : forall l, Forall (fun x => 0 <= x < 10 ^ 5) l ->
    (String.length (dots l) <= 6 * length l)%nat).
  { clear l. induction l as [|x [|y l] IH]; intros Hl; [done| |].
    - apply Forall_cons in Hl as [Hx _]. pose proof (length_fmt_d x Hx). simpl. lia.
    - apply Forall_cons in Hl as [Hx Hl]. pose proof (length_fmt_d x Hx) as Hf. specialize (IH Hl).
      change (dots (x :: y :: l)) with (fmt_d x +:+ ("." +:+ dots (y :: l))).
      rewrite !length_app_string. change (String.length ".") with 1%nat.
      cbn [length] in *. lia. }
  intros Hl Hlen. specialize (H l Hl). unfold SMALL_LEN. lia.
Qed.

(** ** Scripts *)

Variant hier_edit :=
  | HLink (s t : addr3) (cost : Z)
  | HUnlink (s t : addr3).

Definition run_hier_edit (e : hier_edit) (r : RouteLogic) : result RouteLogic :=
  match e with
  | HLink (x, y, z) (x', y', z') c => hier_insert x y z x' y' z' c r
  | HUnlink (x, y, z) (x', y', z') => hier_reset x y z x' y' z' r
  end.

Fixpoint run_hier_edits (es : list hier_edit) (r : RouteLogic) : result RouteLogic :=
  match es with
  | [] => Ok r
  | e :: es => let! r := run_hier_edit e r in run_hier_edits es r
  end.

Section Script.
Context (d : dims) (Hd : dims_ok d).

(** The numbers of the domains, clusters and nodes are small. *)
Lemma inside_small j k z :
  inside d (j, k, z) -> 1 <= j <= 46340 /\ 1 <= k <= 46340 /\ 1 <= z <= 46340.
Proof using Hd.
  intros [Hc Hz]. pose proof (do_N d Hd j k Hc). destruct Hc as [Hj Hk].
  pose proof (do_C d Hd j Hj). unfold domain in Hj. lia.
Qed.

Lemma inside_printable a : inside d a -> printable a.
Proof using Hd.
  destruct a as [[j k] z]. intros Ha. pose proof (inside_small j k z Ha).
  apply (length_dots [j - 1; k - 1; z - 1]); [|done]. repeat constructor; lia.
Qed.

(** The edits on matrices. *)
Definition spec_hier_edit (H : Z -> Z -> option mx) (e : hier_edit) : Z -> Z -> option mx :=
  match e with
  | HLink s t c => edit_all d true c s t H
  | HUnlink s t => edit_all d false INFINITY s t H
  end.

Definition spec_hier_edits (H : Z -> Z -> option mx) (es : list hier_edit) :=
  fold_left spec_hier_edit es H.

(** Costs an entry can have; a link is only removed from matrices that exist. *)
Definition edit_legal (H : Z -> Z -> option mx) (e : hier_edit) : Prop :=
  match e with
  | HLink s t c => inside d s /\ inside d t /\ 0 <= c <= INFINITY
  | HUnlink s t => inside d s /\ inside d t /\
      forall j k, cluster d j k -> touches s t j k = true -> H j k <> None
  end.

Fixpoint hier_edits_legal (H : Z -> Z -> option mx) (es : list hier_edit) : Prop :=
  match es with
  | [] => True
  | e :: es => edit_legal H e /\ hier_edits_legal (spec_hier_edit H e) es
  end.

(** A matrix has legal costs, and the address of each cluster and domain a
    node is linked to. *)
Definition mx_ok (j k : Z) (x : mx) : Prop :=
  costs_ok (sd d j k) (m_cost x) /\
  forall z c, 1 <= z <= dN d j k -> 1 <= c -> m_cost x z (dN d j k + c) < INFINITY ->
    m_conn x z c <> None.

Definition all_ok (H : Z -> Z -> option mx) : Prop :=
  forall j k x, cluster d j k -> H j k = Some x -> mx_ok j k x.

Lemma fresh_ok j k : mx_ok j k fresh.
Proof using.
  split; [intros p q _ _; cbn; unfold INFINITY; lia|]. intros z c _ _ Hlt. cbn in Hlt. lia.
Qed.

Lemma alloc_mx_ok H j k : all_ok H -> cluster d j k -> mx_ok j k (alloc (H j k)).
Proof using. intros HH Hc. destruct (H j k) as [x|] eqn:E; [by apply HH|apply fresh_ok]. Qed.

Lemma costs_upd n a p q v : costs_ok n a -> 0 <= v <= INFINITY -> costs_ok n (upd2 a p q v).
Proof using.
  intros Ha Hv i j Hi Hj. unfold upd2. destruct (_ && _); [done|by apply Ha].
Qed.

(** A cost from a place that is not a node, or to a node, or none. *)
Lemma with_cost_ok j k x p q v :
  mx_ok j k x -> 0 <= v <= INFINITY -> dN d j k < p \/ q <= dN d j k \/ v = INFINITY ->
  mx_ok j k (with_cost p q v x).
Proof using.
  intros [H1 H2] Hv Hpq. split; [by apply costs_upd|]. intros z c Hz Hcc. simpl. unfold upd2.
  destruct (Z.eqb_spec z p) as [->|]; simpl; [|by apply H2].
  destruct (Z.eqb_spec (dN d j k + c) q) as [<-|]; [intros; exfalso; lia|by apply H2].
Qed.

(** A cost from a node with the address of the other end. *)
Lemma with_link_ok b j k x z c t v :
  mx_ok j k x -> 0 <= v <= INFINITY -> b = true \/ v = INFINITY ->
  mx_ok j k (connected b z c t (with_cost z (dN d j k + c) v x)).
Proof using.
  intros Hx Hv [-> | ->]; [|destruct b; [|by apply with_cost_ok; [|done|tauto]]];
    destruct t as [[X Y] Z0], Hx as [H1 H2]; (split; [by apply costs_upd|]);
    intros z' c' Hz Hcc; simpl; unfold upd2;
    destruct (Z.eqb_spec z' z) as [->|]; simpl; [|by apply H2| |by apply H2];
    (destruct (Z.eqb_spec c' c) as [->|Hne]; [done|]);
    replace (dN d j k + c' =? dN d j k + c) with false by lia; by apply H2.
Qed.

Lemma edit_all_ok b v s t H :
  inside d s -> inside d t -> 0 <= v <= INFINITY -> b = true \/ v = INFINITY -> all_ok H ->
  all_ok (edit_all d b v s t H).
Proof using Hd.
  destruct s as [[X1 Y1] Z1], t as [[X2 Y2] Z2]. intros [Hc1 Hz1] [Hc2 Hz2] Hv Hb HH j k x Hc.
  pose proof (alloc_mx_ok H j k HH Hc) as Ha. pose proof (do_N d Hd j k Hc) as [HN _].
  pose proof (do_C d Hd j (proj1 Hc)) as HC.
  unfold edit_all. destruct (Z.eqb_spec X1 X2) as [EX|]; [destruct (Z.eqb_spec Y1 Y2) as [EY|]|].
  - destruct ((j =? X1) && (k =? Y1)) eqn:E; [|by apply HH].
    assert (j = X1 /\ k = Y1) as [-> ->] by lia. rewrite <- EX, <- EY in Hz2.
    intros [= <-]. apply with_cost_ok; [done..|lia].
  - destruct (Z.eqb_spec j X1) as [->|]; [|by apply HH]. intros [= <-]. unfold edit_domain.
    assert (H1 : mx_ok X1 k (with_cost (at_cluster d X1 k Y1) (at_cluster d X1 k Y2) v
      (alloc (H X1 k)))).
    { apply with_cost_ok; [done..|]. destruct Hc1 as [_ ?]. unfold at_cluster. lia. }
    destruct (Z.eqb_spec k Y1) as [->|]; [by apply with_link_ok|done].
  - intros [= <-]. unfold edit_far.
    assert (H1 : mx_ok j k (with_cost (at_domain d j k X1) (at_domain d j k X2) v
      (alloc (H j k)))).
    { apply with_cost_ok; [done..|]. destruct Hc1 as [[? _] _]. unfold at_domain. lia. }
    destruct (Z.eqb_spec j X1) as [->|]; [|done].
    assert (H2 : mx_ok X1 k (with_cost (at_cluster d X1 k Y1) (at_domain d X1 k X2) v
      (with_cost (at_domain d X1 k X1) (at_domain d X1 k X2) v (alloc (H X1 k))))).
    { apply with_cost_ok; [done..|]. destruct Hc1 as [_ ?]. unfold at_cluster. lia. }
    destruct (Z.eqb_spec k Y1) as [->|]; [|done].
    replace (at_domain d X1 Y1 X2) with (dN d X1 Y1 + (dC d X1 - 1 + X2)) in H2 |- *
      by (unfold at_domain; lia).
    by apply with_link_ok.
Qed.

Lemma run_hier_edits_spec es r H :
  hier_rep d r H -> all_ok H -> hier_edits_legal H es ->
  exists r', run_hier_edits es r = Ok r' /\ hier_rep d r' (spec_hier_edits H es) /\
    all_ok (spec_hier_edits H es).
Proof using Hd.
  revert r H. induction es as [|e es IH]; intros r H Hr HH Hl; [by exists r|].
  destruct Hl as [He Hl]. cbn [run_hier_edits].
  change (spec_hier_edits H (e :: es)) with (spec_hier_edits (spec_hier_edit H e) es).
  destruct e as [[[x y] z] [[x' y'] z'] c | [[x y] z] [[x' y'] z']]; cbn [run_hier_edit].
  - destruct He as (Hs & Ht & Hc).
    destruct (hier_insert_spec d Hd x y z x' y' z' c Hs Ht (inside_printable _ Ht) r H Hr) as (r1 & -> & Hr1).
    apply IH; [done| |done]. apply edit_all_ok; auto.
  - destruct He as (Hs & Ht & Hlive).
    destruct (hier_reset_spec d Hd x y z x' y' z' Hs Ht r H Hr Hlive) as (r1 & -> & Hr1).
    apply IH; [done| |done]. apply edit_all_ok; auto. unfold INFINITY. lia.
Qed.

(** ** Look-up *)

(** Where a packet may be going, seen from a node of cluster (j, k). *)
Variant target := ToNode (z : Z) | ToCluster (y : Z) | ToDomain (x : Z).

Definition target_ok (j k : Z) (t : target) : Prop :=
  match t with
  | ToNode z => 1 <= z <= dN d j k
  | ToCluster y => cluster d j y /\ y <> k
  | ToDomain x => domain d x /\ x <> j
  end.

Definition target_pos (j k : Z) (t : target) : Z :=
  match t with ToNode z => z | ToCluster y => at_cluster d j k y | ToDomain x => at_domain d j k x end.

(** The numbers of the address the code is given for it. *)
Definition target_parts (j k : Z) (t : target) : list Z :=
  match t with
  | ToNode z => [j - 1; k - 1; z - 1]
  | ToCluster y => [j - 1; y - 1]
  | ToDomain x => [x - 1]
  end.

Lemma target_node j k t : cluster d j k -> target_ok j k t -> node (sd d j k) (target_pos j k t).
Proof using Hd.
  intros Hc. destruct t; simpl; [by apply node_pos|intros []; by apply cluster_pos|].
  intros []. by apply domain_pos.
Qed.

Lemma target_small j k t :
  cluster d j k -> target_ok j k t -> Forall (fun x => 0 <= x < 10 ^ 5) (target_parts j k t).
Proof using Hd.
  intros Hc Ht. pose proof (do_MD d Hd) as HM. pose proof (do_N d Hd j k Hc).
  pose proof (cluster_C d Hd j k Hc) as [[Hj1 Hj2] Hk].
  destruct t as [z|y|x]; simpl in *.
  - repeat constructor; lia.
  - destruct Ht as [Hy _]. pose proof (cluster_C d Hd j y Hy) as [_ ?]. repeat constructor; lia.
  - destruct Ht as [[Hx1 Hx2] _]. repeat constructor; lia.
Qed.

Lemma strtok_small l :
  l <> [] -> Forall (fun x => 0 <= x < 10 ^ 5) l -> (length l <= 3)%nat ->
  ns_strtok (dots l) = Ok (map (fun x => x + 1) l).
Proof using.
  intros Hne Hl Hlen. apply strtok_dots; [done| |by apply length_dots].
  apply (Forall_impl _ _ _ Hl). lia.
Qed.

(** The address [get_address] has for the position [h] of a first hop. *)
Definition hop_address (x : mx) (j k z h : Z) : option string :=
  if h <=? dN d j k then Some (dotted_address j k h) else m_conn x z (h - dN d j k).

Lemma get_address_spec r H j k x z h :
  hier_rep d r H -> H j k = Some x -> inside d (j, k, z) -> 1 <= h < sd d j k ->
  get_address h (idx d j k) j (dN d j k) j k z r =
    match hop_address x j k z h with Some a => Ok a | None => Fault Uninit end.
Proof using Hd.
  intros Hr Hx [Hc Hz] Hh. pose proof (proj2 Hr j k Hc) as Hal. rewrite Hx in Hal.
  destruct Hal as (h0 & la & lr & lc & _ & _ & _ & _ & _ & _ & Ec & Hlc & Hcon).
  pose proof (idx_range d Hd j k Hc) as Hi. unfold get_address, hop_address.
  destruct (Z.leb_spec h (dN d j k)) as [Hle|Hgt].
  - assert (Hp : printable (j, k, h)) by (apply inside_printable; split; [done|lia]).
    unfold printable in Hp. by destruct (Z.leb_spec SMALL_LEN
      (Z.of_nat (String.length (dotted_address j k h)))); [lia|].
  - rewrite (sz_C d _ (proj1 Hr) j (proj1 Hc)), (sz_D d _ (proj1 Hr)). cbn [rbind].
    set (w := dC d j + dD d) in *.
    replace (if h <? _ then _ else _) with (wrap_i32 (z * w + (h - dN d j k)))
      by (destruct (_ <? _); f_equal; lia).
    rewrite (array_of_slot _ _ _ (proj1 Hi) Ec). cbn [rbind].
    assert (Hw : 0 <= h - dN d j k < w) by (unfold sd, w in *; lia).
    pose proof (connect_cell w (dN d j k) z _ ltac:(lia) Hw) as Hb.
    assert (Hs : w * (dN d j k + 1) <= 46340 * 46341).
    { destruct (do_N d Hd j k Hc). pose proof (do_C d Hd j (proj1 Hc)).
      apply Z.mul_le_mono_nonneg; unfold w; pose proof (do_D d Hd); lia. }
    rewrite wrap_small by lia. unfold aget.
    destruct (Z.ltb_spec (z * w + (h - dN d j k)) 0); [lia|].
    rewrite Hcon by lia. done.
Qed.

(** Where the look-up reads, whatever lies behind the numbers it was given. *)
Lemma route_index_spec junk r j k z t :
  D_ r = dD d -> inside d (j, k, z) -> target_ok j k t ->
  let src := part (fst junk) [j; k; z] in
  let dst := part (snd junk) (map (fun x => x + 1) (target_parts j k t)) in
  0 < dst 0 /\
  route_index src dst (dN d j k) (dC d j) r = INDEX z (target_pos j k t) (sd d j k).
Proof using Hd.
  intros ED Ha Ht. pose proof (inside_small j k z Ha) as (Hj & Hk & Hz).
  intros src dst. unfold route_index. rewrite ED.
  change (src 0) with j. change (src 1) with k. change (src 2) with z.
  destruct t as [z'|y|x]; cbn [target_ok target_parts target_pos] in *.
  - change (dst 0) with (j - 1 + 1). change (dst 1) with (k - 1 + 1).
    change (dst 2) with (z' - 1 + 1). rewrite <- (N_N_pos d j k), !Z.sub_add. split; [lia|].
    replace (k <=? 0) with false by lia. replace (z' <=? 0) with false by lia.
    by rewrite !Z.eqb_refl.
  - destruct Ht as [[_ Hy] Hne]. change (dst 0) with (j - 1 + 1).
    change (dst 1) with (y - 1 + 1). rewrite <- (N_C_pos d j k), !Z.sub_add. split; [lia|].
    replace (y <=? 0) with false by lia. replace (k =? y) with false by lia.
    by rewrite Z.eqb_refl, orb_true_r.
  - destruct Ht as [[Hx1 Hx2] Hne]. change (dst 0) with (x - 1 + 1).
    rewrite <- (N_D_pos d j k), Z.sub_add. split; [lia|].
    replace (j =? x) with false by lia. by rewrite orb_true_r.
Qed.

Lemma lookup_hier_spec A junk r H j k x z t :
  hier_rep d r H -> H j k = Some x -> mx_ok j k x -> routed_cl d r j k x ->
  inside d (j, k, z) -> target_ok j k t -> target_pos j k t <> z ->
  exists h, first_hop (sd d j k) (m_cost x) z (target_pos j k t) h /\
    let answer := lookup_hier A junk (dots [j - 1; k - 1; z - 1]) (dots (target_parts j k t)) r in
    (h = 0 /\ answer = Ok (TCL_OK (Some "-1"%string), Some (-1))) \/
    exists a, hop_address x j k z h = Some a /\
      answer = (let! n := str2addr A a in Ok (TCL_OK (Some a), Some n)).
Proof using Hd.
  intros Hr Hx [Hcost Hcon] (lr & R & El & HR & Hroute) Ha Ht Hne.
  pose proof Ha as [Hc Hz]. pose proof (inside_small j k z Ha) as (Hj & Hk & Hz').
  pose proof (target_node j k t Hc Ht) as Hpos. pose proof (node_pos d Hd j k z Hc Hz) as Hnz.
  destruct (Hroute z (target_pos j k t) Hnz Hpos) as [Hb Hh].
  replace (z =? target_pos j k t) with false in Hh by lia.
  exists (R z (target_pos j k t)). split; [done|]. cbv zeta. unfold lookup_hier.
  destruct (hroute_ r) as [hr|] eqn:Ehr; [|done].
  rewrite (strtok_small [j - 1; k - 1; z - 1]) by (done || (repeat constructor; lia)).
  rewrite (strtok_small (target_parts j k t)); [|by destruct t|by apply target_small|
    by destruct t; simpl; lia].
  cbn [rbind map]. replace (j - 1 + 1) with j by lia. replace (k - 1 + 1) with k by lia.
  replace (z - 1 + 1) with z by lia.
  destruct (route_index_spec junk r j k z t (sz_D d _ (proj1 Hr)) Ha Ht) as [Hd0 Hidx].
  cbv zeta in Hd0, Hidx. rewrite (sz_L d _ (proj1 Hr)). cbn [Z.ltb Z.compare].
  set (src := part (fst junk) [j; k; z]) in *. set (dst := part (snd junk) _) in *.
  change (seqZ 0 3) with [0; 1; 2]. cbn [existsb].
  change (src 0) with j in *. change (src 1) with k in *. change (src 2) with z in *.
  replace (j <=? 0) with false by lia. replace (k <=? 0) with false by lia.
  replace (z <=? 0) with false by lia. replace (dst 0 <=? 0) with false by lia. cbn [orb].
  rewrite (sz_M d _ (proj1 Hr)), (idx_INDEX d Hd j k Hc), (sz_N d _ (proj1 Hr) j k Hc).
  cbn [rbind].
  pose proof (proj2 Hr j k Hc) as Hal. rewrite Hx in Hal. destruct Hal as (h0 & _ & _ & _ & Eh & Hh0 & _).
  pose proof (idx_range d Hd j k Hc) as Hi.
  assert (E : hsize_at r (idx d j k) = Ok h0).
  { unfold hsize_at. destruct (hsize_ r) as [l|]; [|done]. unfold aget. cbn in Eh. rewrite Eh.
    by destruct (Z.ltb_spec (idx d j k) 0); [lia|]. }
  rewrite E. cbn [rbind]. destruct (Z.eqb_spec h0 0); [lia|].
  unfold in_range. rewrite (sz_D d _ (proj1 Hr)). change (src 0) with j. change (src 1) with k.
  change (src 2) with z. rewrite (sz_C d _ (proj1 Hr) j (proj1 Hc)). cbn [rbind].
  pose proof Hc as [[_ HjD] [_ HkC]].
  replace (j <? dD d) with true by lia. replace (k <? dC d j) with true by lia.
  replace (z <=? dN d j k) with true by lia. cbn [orb rbind negb].
  rewrite (array_of_slot _ _ _ (proj1 Hi) El). cbn [rbind].
  rewrite Hidx. rewrite (mat_get _ (proj1 (sd_ok d Hd j k Hc)) _ _ _ _ HR)
    by (unfold node in *; lia). cbn [rbind].
  destruct (Z.ltb_spec 0 (R z (target_pos j k t))) as [Hpos'|Hzero].
  - right. rewrite (get_address_spec r H j k x z) by (done || lia).
    destruct Hh as [[E0 _] | (_ & p & (Hw & Hwe) & Hfin & _)]; [lia|].
    assert (Ha' : hop_address x j k z (R z (target_pos j k t)) <> None).
    { unfold hop_address. destruct (Z.leb_spec (R z (target_pos j k t)) (dN d j k)); [done|].
      apply Hcon; [done|lia|]. replace (dN d j k + _) with (R z (target_pos j k t)) by lia.
      apply Forall_cons in Hw as [Hh' Hp]. simpl in Hfin.
      assert (0 <= walk_cost (m_cost x) (R z (target_pos j k t)) p); [|lia].
      revert Hh' Hp. clear -Hcost. generalize (R z (target_pos j k t)).
      induction p as [|y p IH]; intros u Hu Hp; simpl; [lia|].
      apply Forall_cons in Hp as [Hy Hp]. specialize (IH y Hy Hp).
      unfold node in *. pose proof (Hcost u y ltac:(lia) ltac:(lia)). lia. }
    destruct (hop_address _ _ _ _ _) as [a|]; [|done]. by exists a.
  - left. split; [lia|done].
Qed.
End Script.

(** ** The whole script *)

Definition no_matrices (j k : Z) : option mx := None.

(** The sizes, the links, [hier-compute]. *)
Definition hier_build (nss : list (list Z)) (es : list hier_edit) : result RouteLogic :=
  let! r := hier_setup nss in
  let! r := run_hier_edits es r in
  hier_compute r.

(** C29: in a hierarchy set up by the script's commands, after any sequence of
    link insertions and removals that leaves every cluster with a matrix,
    [hier-compute] ends without leaving an array, and [lookup_hier], asked at a
    node for another node of its cluster, another cluster of its domain or
    another domain, answers the address of the first hop of a least-cost walk
    in the graph of the node's cluster, or -1 exactly when every walk costs
    INFINITY or more.  The unwritten rest of the arrays on the stack does not
    matter. *)
Theorem hier_lookup_gives_first_hop nss es A junk :
  let d := dims_of nss in
  let H := spec_hier_edits d no_matrices es in
  dims_ok d -> nss <> [] -> Z.of_nat (length (concat nss)) < 2 ^ 31 ->
  hier_edits_legal d no_matrices es ->
  (forall j k, cluster d j k -> H j k <> None) ->
  exists r, hier_build nss es = Ok r /\
    forall j k z t x, inside d (j, k, z) -> H j k = Some x -> target_ok d j k t ->
      target_pos d j k t <> z ->
      exists h, first_hop (sd d j k) (m_cost x) z (target_pos d j k t) h /\
        let answer := lookup_hier A junk (dots [j - 1; k - 1; z - 1]) (dots (target_parts j k t)) r in
        (h = 0 /\ answer = Ok (TCL_OK (Some "-1"%string), Some (-1))) \/
        exists a, hop_address d x j k z h = Some a /\
          answer = (let! n := str2addr A a in Ok (TCL_OK (Some a), Some n)).
Proof.
  intros d H Hd Hne Hlen Hl Hall. unfold hier_build.
  destruct (setup_spec nss Hd Hne Hlen) as (r0 & -> & Hr0 & _ & Hrt0). cbn [rbind].
  destruct (run_hier_edits_spec d Hd es r0 no_matrices Hr0 ltac:(done) Hl)
    as (r1 & E1 & Hr1 & Hok).
  rewrite E1. cbn [rbind].
  destruct (hier_compute_spec d Hd r1 H Hr1) as (r & -> & Hr & Hrouted).
  - apply (sz_R d r1 (proj1 Hr1)).
  - intros j k Hc. destruct (H j k) as [x|] eqn:Hx; [|by destruct (Hall j k Hc)].
    exists x. split; [done|]. by apply (Hok j k x Hc).
  - exists r. split; [done|]. intros j k z t x Ha Hx Ht Hpos. pose proof (proj1 Ha) as Hc.
    apply (lookup_hier_spec d Hd A junk r H); [done|done| | |done..].
    + by apply (Hok j k x Hc).
    + by apply Hrouted.
Qed.

(** Two domains; the first has a cluster of two nodes and one of a single
    node. *)
Definition two_domains : list (list Z) := [[2; 1]; [1]].
Definition two_domains_links : list hier_edit :=
  [HLink (1, 1, 1) (1, 1, 2) 1; HLink (1, 1, 2) (1, 1, 1) 1;
   HLink (1, 1, 2) (1, 2, 1) 1; HLink (1, 2, 1) (1, 1, 2) 1;
   HLink (1, 1, 1) (2, 1, 1) 1; HLink (1, 1, 2) (2, 1, 1) 2;
   HUnlink (1, 1, 1) (2, 1, 1); HLink (1, 1, 2) (2, 1, 1) 3].

Lemma two_domains_cluster j k :
  cluster (dims_of two_domains) j k -> (j, k) = (1, 1) \/ (j, k) = (1, 2) \/ (j, k) = (2, 1).
Proof.
  intros [[Hj1 Hj2] [Hk1 Hk2]]. change (dD _) with 3 in Hj2.
  assert (j = 1 \/ j = 2) as [-> | ->] by lia.
  - change (dC _ _) with 3 in Hk2. assert (k = 1 \/ k = 2) as [-> | ->] by lia; tauto.
  - change (dC _ _) with 2 in Hk2. assert (k = 1) as -> by lia. tauto.
Qed.

Lemma two_domains_dims : dims_ok (dims_of two_domains).
Proof.
  split; [by vm_compute..| | |by vm_compute].
  - intros j [Hj1 Hj2]. change (dD _) with 3 in Hj2.
    by assert (j = 1 \/ j = 2) as [-> | ->] by lia; vm_compute.
  - intros j k [[= -> ->] | [[= -> ->] | [= -> ->]]]%two_domains_cluster; by vm_compute.
Qed.

(** A link between domains leaves every cluster with a matrix, and no edit
    takes one away. *)
Lemma far_link_allocates d H s t c j k :
  fst (fst s) <> fst (fst t) -> spec_hier_edit d H (HLink s t c) j k <> None.
Proof.
  destruct s as [[X1 Y1] Z1], t as [[X2 Y2] Z2]. simpl. intros Hne.
  by replace (X1 =? X2) with false by lia.
Qed.

Lemma edit_keeps_matrices d H e j k : H j k <> None -> spec_hier_edit d H e j k <> None.
Proof.
  intros Hne. destruct e as [[[X1 Y1] Z1] [[X2 Y2] Z2] c | [[X1 Y1] Z1] [[X2 Y2] Z2]]; simpl;
    destruct (X1 =? X2); [destruct (Y1 =? Y2)| |destruct (Y1 =? Y2)|]; try done;
    by destruct (_ =? _); [try destruct (_ =? _)|].
Qed.

Lemma two_domains_legal : hier_edits_legal (dims_of two_domains) no_matrices two_domains_links.
Proof.
  cbn [hier_edits_legal two_domains_links edit_legal inside]. unfold cluster, domain.
  repeat lazymatch goal with |- _ /\ _ => split end; lazymatch goal with
  | |- forall j k, _ => intros j k _ _; by apply edit_keeps_matrices, far_link_allocates
  | |- _ => by vm_compute
  end.
Qed.

Lemma hier_lookup_gives_first_hop_witness :
  let d := dims_of two_domains in
  let H := spec_hier_edits d no_matrices two_domains_links in
  let A := three_level_address in let junk := (fun _ : Z => 7, fun i : Z => - i) in
  exists r, hier_build two_domains two_domains_links = Ok r /\
    forall j k z t x, inside d (j, k, z) -> H j k = Some x -> target_ok d j k t ->
      target_pos d j k t <> z ->
      exists h, first_hop (sd d j k) (m_cost x) z (target_pos d j k t) h /\
        let answer := lookup_hier A junk (dots [j - 1; k - 1; z - 1]) (dots (target_parts j k t)) r in
        (h = 0 /\ answer = Ok (TCL_OK (Some "-1"%string), Some (-1))) \/
        exists a, hop_address d x j k z h = Some a /\
          answer = (let! n := str2addr A a in Ok (TCL_OK (Some a), Some n)).
Proof.
  cbv zeta. apply (hier_lookup_gives_first_hop two_domains two_domains_links
    three_level_address (fun _ => 7, fun i => - i)).
  - exact two_domains_dims.
  - done.
  - done.
  - exact two_domains_legal.
  - intros j k _. apply (edit_keeps_matrices _ (spec_hier_edits _ _ (take 7 two_domains_links))).
    apply (edit_keeps_matrices _ (spec_hier_edits _ _ (take 6 two_domains_links))).
    by apply far_link_allocates.
Defined.

(** From node 0.0.0: to its neighbour, to the other cluster and to the other
    domain through it, and from node 0.0.1 over the links it has. *)
Lemma two_domains_lookups :
  let junk := (fun _ : Z => 7, fun i : Z => - i) in
  (let! r := hier_build two_domains two_domains_links in
   let! a := lookup_hier three_level_address junk "0.0.0" "0.0.1" r in
   let! b := lookup_hier three_level_address junk "0.0.0" "0.1" r in
   let! c := lookup_hier three_level_address junk "0.0.0" "1" r in
   let! e := lookup_hier three_level_address junk "0.0.1" "1" r in
   let! f := lookup_hier three_level_address junk "1.0.0" "0" r in
   Ok [a; b; c; e; f]) =
  Ok [(TCL_OK (Some "0.0.1"%string), Some 1); (TCL_OK (Some "0.0.1"%string), Some 1);
      (TCL_OK (Some "0.0.1"%string), Some 1); (TCL_OK (Some "1.0.0"%string), Some (2 ^ 21));
      (TCL_OK (Some "-1"%string), Some (-1))].
Proof. vm_compute. done. Qed.

(** The commands of the script, as strings. *)
Lemma two_domains_commands :
  let none argv r := Ok (TCL_ERROR "unknown", r) in
  let run := fold_left (fun m argv => let! '(_, r) := m in
    rl_command none three_level_address (fun _ => 0, fun _ => 0) 15 argv r) in
  match run
    [["r"; "hlevel-is"; "3"]; ["r"; "send-num-of-domains"; "2"];
     ["r"; "send-num-of-clusters"; "2"; "1"]; ["r"; "send-num-of-nodes"; "2"; "1"; "1"];
     ["r"; "hier-insert"; "0.0.0"; "0.0.1"; "1"]; ["r"; "hier-insert"; "0.0.1"; "1.0.0"];
     ["r"; "hier-compute"]; ["r"; "hier-lookup"; "0.0.0"; "1.0.0"]]%string
    (Ok (TCL_OK None, new_RouteLogic)) with
  | Ok (TCL_OK (Some a), _) => a = "0.0.1"%string
  | _ => False
  end.
Proof. vm_compute. done. Qed.

(** A cluster no link touches has no matrix: [hier-compute] reads a pointer
    that was never written. *)
Lemma unlinked_cluster_is_read :
  (let! r := hier_setup [[2; 1]] in
   let! r := hier_insert 1 1 1 1 1 2 1 r in
   hier_compute r) = Fault Uninit.
Proof. vm_compute. done. Qed.

(** [hier-compute] deletes [adj_] and leaves the pointer: [reset] deletes the
    array again. *)
Lemma reset_after_hier_compute :
  (let! r := hier_build two_domains two_domains_links in reset_all r) = Fault Dangling.
Proof. vm_compute. done. Qed.
