(* ===== verification/Classifier.v ===== *)
(** * Packet classifiers (classifier/classifier.h, classifier/classifier.cc,
    classifier/classifier-port.cc, classifier/classifier-addr.cc,
    classifier/classifier-hash.h, classifier/classifier-hash.cc)

    A node forwards a packet through classifiers: a table of slots, each
    holding a pointer to the next object, and a function that maps a packet
    to a slot.  [Classifier] is the table, the classes that derive from it
    differ in [classify]; the hash classifiers look the slot up in a hash
    table of the Tcl library, which is an interface here.

    The objects a slot points to are only names (addresses); the procedures
    [no-slot] and [unknown-flow] are OTcl code that may change the table, and
    are parameters. *)

From stdpp Require Import base numbers list gmap strings.
From Stdlib Require Import ZArith Lia.
From S2P Require Import Prelude.
From S2P Require Import Text.
From S2P Require Import Array.
From S2P Require Import Packet.

Open Scope Z_scope.

(** ** The table of slots *)

Record Classifier := mkClassifier {
  slot_ : option (list ptr);
  nslot_ : Z;
  maxslot_ : Z;
  shift_ : Z;
  mask_ : Z;
  default_target_ : ptr;
  nsize_ : Z
}.

(** The constructor; [shift_] and [mask_] are bound to variables of the script. *)
Definition new_Classifier (shift mask : Z) : Classifier :=
  mkClassifier None 0 (-1) shift mask NULL 0.

Definition set_slots s n c :=
  mkClassifier s n (maxslot_ c) (shift_ c) (mask_ c) (default_target_ c) (nsize_ c).
Definition set_maxslot m c :=
  mkClassifier (slot_ c) (nslot_ c) m (shift_ c) (mask_ c) (default_target_ c) (nsize_ c).
Definition set_table_size n c :=
  mkClassifier (slot_ c) (nslot_ c) (maxslot_ c) (shift_ c) (mask_ c) (default_target_ c) n.
Definition set_default_target t c :=
  mkClassifier (slot_ c) (nslot_ c) (maxslot_ c) (shift_ c) (mask_ c) t (nsize_ c).

(** [enum classify_ret {ONCE= -2, TWICE= -1}] *)
Definition ONCE : Z := -2.
Definition TWICE : Z := -1.

(** [(val >> shift_) & mask_]; the machine takes the shift count modulo 32. *)
Definition mshift (c : Classifier) (v : Z) : Z :=
  Z.land (Z.shiftr v (Z.land (shift_ c) 31)) (mask_ c).

(** The array [slot_] points to. *)
Definition slots (c : Classifier) : result (list ptr) :=
  match slot_ c with Some l => Ok l | None => Fault NullDeref end.

Definition copy_slot (old : list ptr) (i : Z) (l : list ptr) : result (list ptr) :=
  let! x := aget old i in aset l i x.

Definition cl_alloc (fuel : nat) (slot : Z) (c : Classifier) : result Classifier :=
  let n := nslot_ c in
  let start := match slot_ c with
               | None => if nsize_ c =? 0 then 32 else nsize_ c
               | Some _ => nslot_ c
               end in
  let! m := double_up fuel slot start in
  if m <? 0 then Fault Aborted
  else
    let l := replicate (Z.to_nat m) NULL in
    let! l := match slot_ c with
              | None => if 0 <? n then Fault NullDeref else Ok l
              | Some old => for_loop 0 n (copy_slot old) l
              end in
    Ok (set_slots (Some l) m c).

Definition install (fuel : nat) (slot : Z) (p : ptr) (c : Classifier) : result Classifier :=
  let! c := (if nslot_ c <=? slot then cl_alloc fuel slot c else Ok c) in
  let! l := slots c in
  let! l := aset l slot p in
  let c := set_slots (Some l) (nslot_ c) c in
  Ok (if maxslot_ c <=? slot then set_maxslot slot c else c).

(** [while (--maxslot_ >= lo && slot_[maxslot_] == 0) ;] *)
Fixpoint lower_max (fuel : nat) (lo m : Z) (l : list ptr) : result Z :=
  let m := m - 1 in
  if m <? lo then Ok m
  else
    let! x := aget l m in
    match x with
    | Some _ => Ok m
    | None => match fuel with O => NoFuel | S fuel => lower_max fuel lo m l end
    end.

(** [clear] of [Classifier] with [lo] = 0, of the classes with reserved ports
    with [lo] = [reserved_]. *)
Definition cl_clear (fuel : nat) (lo slot : Z) (c : Classifier) : result Classifier :=
  let! l := slots c in
  let! l := aset l slot NULL in
  let c := set_slots (Some l) (nslot_ c) c in
  if slot =? maxslot_ c then
    let! m := lower_max fuel lo (maxslot_ c) l in Ok (set_maxslot m c)
  else Ok c.

(** The loop of [getnxt], from slot [i]: the first that is empty or holds
    [nullagent]. *)
Fixpoint first_free (fuel : nat) (i : Z) (nullagent : ptr) (c : Classifier) : result (option Z) :=
  if nslot_ c <=? i then Ok None
  else
    let! l := slots c in
    let! x := aget l i in
    if bool_decide (x = NULL) || bool_decide (x = nullagent) then Ok (Some i)
    else match fuel with O => NoFuel | S fuel => first_free fuel (i + 1) nullagent c end.

(** [getnxt], and that of the classes with reserved ports. *)
Definition getnxt (fuel : nat) (reserved : Z) (nullagent : ptr) (c : Classifier)
    : result (Z * Classifier) :=
  let! r := first_free fuel reserved nullagent c in
  match r with
  | Some i => Ok (i, c)
  | None => let i := nslot_ c in let! c := cl_alloc fuel i c in Ok (i, c)
  end.

Definition allocPort (fuel : nat) (nullagent : ptr) (c : Classifier) := getnxt fuel 0 nullagent c.

Definition install_next (fuel : nat) (node : ptr) (c : Classifier) : result (Z * Classifier) :=
  let slot := wrap_i32 (maxslot_ c + 1) in
  let! c := install fuel slot node c in Ok (slot, c).

(** [reserve-port] *)
Definition reserve_port (fuel : nat) (n : Z) (c : Classifier) : result Classifier :=
  cl_alloc fuel (n - 1) (set_maxslot (n - 1) c).

(** The inline [slot (int)] *)
Definition slot (c : Classifier) (s : Z) : result ptr :=
  if (0 <=? s) && (s <? nslot_ c) then let! l := slots c in aget l s else Ok NULL.

(** ** Classes of classifiers *)

(** [PortClassifier::classify], [AddressClassifier::classify] *)
Definition port_classify (c : Classifier) (h : headers) : Z := dport (ip h).
Definition addr_classify (c : Classifier) (h : headers) : Z := mshift c (daddr (ip h)).

Section find.
(** The object with its table, how it classifies, and the script's [no-slot]. *)
Context {C : Type} (base : C -> Classifier) (classify : C -> headers -> Z)
  (no_slot : Z -> C -> C).

(** [cl < 0 || cl >= nslot_ || (node = slot_[cl]) == 0] *)
Definition slot_at (c : C) (cl : Z) : result ptr :=
  if (cl <? 0) || (nslot_ (base c) <=? cl) then Ok NULL
  else let! l := slots (base c) in aget l cl.

Definition find (h : headers) (c : C) : result (ptr * C) :=
  let cl := classify c h in
  let! node := slot_at c cl in
  match node, default_target_ (base c) with
  | Some x, _ => Ok (Some x, c)
  | None, Some t => Ok (Some t, c)
  | None, None =>
      let c := no_slot cl c in
      if cl =? TWICE then let! node := slot_at c (classify c h) in Ok (node, c)
      else Ok (NULL, c)
  end.

(** [recv]: what the packet is given to, or freed. *)
Variant handed := To (obj : positive) | Freed_packet.

Definition cl_recv (h : headers) (c : C) : result (handed * C) :=
  let! '(node, c) := find h c in
  Ok (match node with Some x => To x | None => Freed_packet end, c).
End find.

(** ** Hash classifiers *)

(** A [Tcl_HashTable] of [long] values, keyed by words. *)
Class TclHash (HT : Type) := {
  ht_new : HT;
  ht_find : HT -> list Z -> option Z;
  ht_put : HT -> list Z -> Z -> HT;
  ht_del : HT -> list Z -> HT
}.

Class TclHashLaws (HT : Type) `{TclHash HT} : Prop := {
  ht_find_new : forall k, ht_find ht_new k = None;
  ht_find_put : forall h k v k',
    ht_find (ht_put h k v) k' = if decide (k' = k) then Some v else ht_find h k';
  ht_find_del : forall h k k',
    ht_find (ht_del h k) k' = if decide (k' = k) then None else ht_find h k'
}.

#[export] Instance gmap_hash : TclHash (gmap (list Z) Z) := {
  ht_new := ∅; ht_find h k := h !! k; ht_put h k v := <[k := v]> h; ht_del h k := delete k h
}.

#[export] Instance gmap_hash_laws : TclHashLaws (gmap (list Z) Z).
Proof.
  split; cbn; intros.
  - apply lookup_empty.
  - case_decide; subst; [apply lookup_insert_eq|by apply lookup_insert_ne].
  - case_decide; subst; [apply lookup_delete_eq|by apply lookup_delete_ne].
Qed.

(** Which fields of the packet the class keys on. *)
Variant hash_kind := SrcDestFidHash | SrcDestHash | FidHash | DestHash.

Section Hash.
Context {HT : Type} `{TclHash HT}.

Record HashClassifier := mkHash {
  hbase : Classifier;
  hkind : hash_kind;
  default_ : Z;
  ht_ : HT
}.

Definition new_HashClassifier (k : hash_kind) (shift mask : Z) : HashClassifier :=
  mkHash (new_Classifier shift mask) k (-1) ht_new.

Definition set_hbase b (c : HashClassifier) := mkHash b (hkind c) (default_ c) (ht_ c).
Definition set_ht t (c : HashClassifier) := mkHash (hbase c) (hkind c) (default_ c) t.
Definition set_default d (c : HashClassifier) := mkHash (hbase c) (hkind c) d (ht_ c).

Definition hashkey (c : HashClassifier) (src dst fid : Z) : list Z :=
  let sh := mshift (hbase c) in
  match hkind c with
  | SrcDestFidHash => [sh src; sh dst; fid]
  | SrcDestHash => [sh src; sh dst]
  | FidHash => [fid]
  | DestHash => [sh dst]
  end.

(** [Tcl_CreateHashEntry] always gives an entry. *)
Definition set_hash (src dst fid slot : Z) (c : HashClassifier) : HashClassifier :=
  set_ht (ht_put (ht_ c) (hashkey c src dst fid) slot) c.

Definition get_hash (src dst fid : Z) (c : HashClassifier) : Z :=
  default (-1) (ht_find (ht_ c) (hashkey c src dst fid)).

(** [del-hash]: the slot of the entry it deletes. *)
Definition del_hash (src dst fid : Z) (c : HashClassifier) : option (Z * HashClassifier) :=
  match ht_find (ht_ c) (hashkey c src dst fid) with
  | Some s => Some (s, set_ht (ht_del (ht_ c) (hashkey c src dst fid)) c)
  | None => None
  end.

Definition hash_reset (c : HashClassifier) : HashClassifier := set_ht ht_new c.

(** [lookup (Packet* )] *)
Definition hash_lookup (c : HashClassifier) (h : headers) : Z :=
  let sh := mshift (hbase c) in
  get_hash (sh (saddr (ip h))) (sh (daddr (ip h))) (fid_ (ip h)) c.

(** The test both [classify] make of the slot they looked up. *)
Definition known_slot (c : HashClassifier) (s : Z) : option Z :=
  if (0 <=? s) && (s <=? maxslot_ (hbase c)) then Some s
  else if 0 <=? default_ c then Some (default_ c) else None.

(** [HashClassifier::classify]; [unknown_flow] is the script's procedure. *)
Definition hash_classify (unknown_flow : headers -> HashClassifier -> HashClassifier)
    (c : HashClassifier) (h : headers) : Z * HashClassifier :=
  match known_slot c (wrap_i32 (hash_lookup c h)) with
  | Some s => (s, c)
  | None => let c := unknown_flow h c in (wrap_i32 (hash_lookup c h), c)
  end.

(** [DestHashClassifier::classify] *)
Definition dest_classify (c : HashClassifier) (h : headers) : Z :=
  default (-1) (known_slot c (wrap_i32 (hash_lookup c h))).

(** [DestHashClassifier::do_install] *)
Definition do_install (fuel : nat) (dst : string) (target : ptr) (c : HashClassifier)
    : result HashClassifier :=
  let d := atoi dst in
  let! '(slot, b) := getnxt fuel 0 target (hbase c) in
  let! b := install fuel slot target b in
  Ok (set_hash 0 d 0 slot (set_hbase b c)).
End Hash.
Arguments HashClassifier HT : clear implicits.
