(* ===== verification/ClassifierTheorems.v ===== *)
(** * What the classifiers guarantee

    [holds_slots c f]: the table of [c] holds [f i] in slot [i].  Installing,
    clearing and allocating slots act on [f] as they should whatever growth
    they cause; a destination hash classifier that is only written by
    [do_install] is a map from destinations to objects. *)

From stdpp Require Import base numbers list gmap strings.
From Stdlib Require Import ZArith Lia ZifyBool.
From S2P Require Import Prelude.
From S2P Require Import Text.
From S2P Require Import Array.
From S2P Require Import Packet.
From S2P Require Import Classifier.

Open Scope Z_scope.

(** The slots a table can grow to. *)
Definition slot_ok (s : Z) : Prop := 0 <= s < 2 ^ 29.

(** A table and its contents; nothing is installed above [maxslot_]. *)
Definition holds_slots (c : Classifier) (f : Z -> ptr) : Prop :=
  (slot_ c = None /\ nslot_ c = 0 /\ (forall i, f i = NULL) \/
   exists l, slot_ c = Some l /\ 1 <= nslot_ c /\ arr l (nslot_ c) f) /\
  nslot_ c < 2 ^ 30 /\ 0 <= nsize_ c < 2 ^ 30 /\
  -1 <= maxslot_ c < nslot_ c /\ (forall i, maxslot_ c < i -> f i = NULL).

Lemma new_holds shift mask : holds_slots (new_Classifier shift mask) (fun _ => NULL).
Proof. unfold holds_slots. cbn. split; [by left|]. split_and!; (done || lia). Qed.

Lemma slots_nonneg c f : holds_slots c f -> 0 <= nslot_ c.
Proof. intros [[(_ & -> & _) | (l & _ & H & _)] _]; lia. Qed.

(** The members an operation on the slots leaves alone. *)
Definition same_setup (c c' : Classifier) : Prop :=
  shift_ c' = shift_ c /\ mask_ c' = mask_ c /\ default_target_ c' = default_target_ c /\
  nsize_ c' = nsize_ c.

Lemma same_setup_trans c1 c2 c3 : same_setup c1 c2 -> same_setup c2 c3 -> same_setup c1 c3.
Proof. unfold same_setup. intuition congruence. Qed.

(** The copy of the old slots into the new array. *)
Lemma copy_slots_spec n m old f :
  0 <= n <= m -> arr old n f ->
  exists l, for_loop 0 n (copy_slot old) (replicate (Z.to_nat m) NULL) = Ok l /\
    arr l m (fun i => if i <? n then f i else NULL).
Proof.
  intros Hn Hold.
  destruct (for_loop_spec (fun k l => arr l m (fun i => if i <? k then f i else NULL)) 0 n
    (copy_slot old) (replicate (Z.to_nat m) NULL)) as (l & E & Hl).
  - lia.
  - apply (arr_ext _ _ (fun _ => NULL)); [apply arr_replicate; lia|].
    intros i Hi. by destruct (Z.ltb_spec i 0); [lia|].
  - intros k l Hk Hl. unfold copy_slot. rewrite (arr_get _ _ _ _ Hold) by lia. cbn [rbind].
    destruct (arr_set l m _ k (f k) Hl ltac:(lia)) as (l' & -> & Hl').
    exists l'. split; [done|]. apply (arr_ext _ _ _ _ Hl'). intros i Hi. unfold upd.
    destruct (Z.eqb_spec i k) as [->|]; [by replace (k <? k + 1) with true by lia|].
    by replace (i <? k + 1) with (i <? k) by lia.
  - by exists l.
Qed.

(** [alloc] makes room for a slot and moves nothing. *)
Lemma alloc_spec fuel s c f :
  holds_slots c f -> slot_ok s -> (30 <= fuel)%nat ->
  exists c', cl_alloc fuel s c = Ok c' /\ holds_slots c' f /\ s < nslot_ c' /\
    maxslot_ c' = maxslot_ c /\
    nslot_ c <= nslot_ c' <= Z.max (Z.max 32 (nsize_ c)) (Z.max (nslot_ c) (2 * s)) /\
    same_setup c c'.
Proof.
  intros (Hs & Hb & Hz & Hm & Hnull) Hok Hf. unfold cl_alloc, slot_ok in *.
  set (start := match slot_ c with None => _ | Some _ => _ end).
  assert (Hst : 1 <= start < 2 ^ 30 /\ nslot_ c <= start /\
    start <= Z.max (Z.max 32 (nsize_ c)) (nslot_ c)).
  { unfold start. destruct Hs as [(-> & -> & _) | (l & -> & H1 & _)]; [|lia].
    destruct (Z.eqb_spec (nsize_ c) 0); lia. }
  assert (Hp : s < start * 2 ^ Z.of_nat fuel).
  { apply Z.lt_le_trans with (1 * 2 ^ 30); [lia|]. apply Z.mul_le_mono_nonneg; [lia..|].
    apply Z.pow_le_mono_r; lia. }
  destruct (double_up_spec fuel s start) as (m & -> & Hlt & Hle); [lia..|]. cbn [rbind].
  destruct (Z.ltb_spec m 0); [lia|].
  destruct Hs as [(Es & En & Hall) | (l & Es & H1 & Hl)]; rewrite Es.
  - rewrite En. cbn [rbind]. replace (0 <? 0) with false by lia. cbn [rbind].
    eexists. split; [done|]. split; [|cbn; split_and!; (done || lia)].
    unfold holds_slots. cbn. split; [|split_and!; (done || lia)]. right.
    eexists. split; [done|]. split; [lia|].
    apply (arr_ext _ _ (fun _ => NULL)); [apply arr_replicate; lia|]. intros i _. by rewrite Hall.
  - destruct (copy_slots_spec (nslot_ c) m l f ltac:(lia) Hl) as (l' & -> & Hl'). cbn [rbind].
    eexists. split; [done|]. split; [|cbn; split_and!; (done || lia)].
    unfold holds_slots. cbn. split; [|split_and!; (done || lia)]. right.
    exists l'. split; [done|]. split; [lia|].
    apply (arr_ext _ _ _ _ Hl'). intros i Hi.
    destruct (Z.ltb_spec i (nslot_ c)); [done|]. symmetry. apply Hnull. lia.
Qed.

Lemma slots_get c f i :
  holds_slots c f -> 0 <= i < nslot_ c -> exists l, slots c = Ok l /\ aget l i = Ok (f i).
Proof.
  intros [[(_ & E & _) | (l & E & _ & Hl)] _] Hi; [lia|].
  exists l. unfold slots. rewrite E. split; [done|]. by apply (arr_get _ _ _ _ Hl).
Qed.

(** Writing a slot of the table. *)
Lemma slots_put c f i x :
  holds_slots c f -> 0 <= i < nslot_ c ->
  exists l l', slots c = Ok l /\ aset l i x = Ok l' /\
    forall m, Z.max i (maxslot_ c) <= m < nslot_ c ->
      holds_slots (set_maxslot m (set_slots (Some l') (nslot_ c) c)) (upd f i x).
Proof.
  intros (Hs & Hb & Hz & Hm & Hnull) Hi.
  destruct Hs as [(_ & E & _) | (l & E & H1 & Hl)]; [lia|].
  destruct (arr_set l _ _ i x Hl Hi) as (l' & E' & Hl').
  exists l, l'. unfold slots. rewrite E. split; [done|]. split; [done|]. intros m Hmm.
  unfold holds_slots. cbn. split; [right; by exists l'|]. split_and!; try lia.
  intros j Hj. rewrite upd_ne by lia. apply Hnull. lia.
Qed.

Lemma install_spec fuel s p c f :
  holds_slots c f -> slot_ok s -> (30 <= fuel)%nat ->
  exists c', install fuel s p c = Ok c' /\ holds_slots c' (upd f s p) /\
    s <= maxslot_ c' < nslot_ c' /\
    maxslot_ c' = Z.max s (maxslot_ c) /\ (s < nslot_ c -> nslot_ c' = nslot_ c) /\
    same_setup c c'.
Proof.
  intros Hc Hs Hf. unfold install.
  assert (Hgrow : exists c1, (if nslot_ c <=? s then cl_alloc fuel s c else Ok c) = Ok c1 /\
    holds_slots c1 f /\ s < nslot_ c1 /\ maxslot_ c1 = maxslot_ c /\
    (s < nslot_ c -> nslot_ c1 = nslot_ c) /\ same_setup c c1).
  { destruct (Z.leb_spec (nslot_ c) s); [|by exists c].
    destruct (alloc_spec fuel s c f Hc Hs Hf) as (c1 & E & H1 & H2 & H3 & _ & H4).
    exists c1. split_and!; (done || lia). }
  destruct Hgrow as (c1 & -> & H1 & Hlt & Hmax & Hsame & Hrest). cbn [rbind]. unfold slot_ok in Hs.
  destruct (slots_put c1 f s p H1 ltac:(lia)) as (l & l' & -> & E & Hput).
  cbn [rbind]. rewrite E. cbn [rbind]. pose proof H1 as (_ & _ & _ & Hm & _).
  cbn [set_slots maxslot_].
  destruct (Z.leb_spec (maxslot_ c1) s).
  - eexists. split; [done|]. split; [apply Hput; lia|]. cbn. split_and!; (lia || apply Hrest || (intros; cbn; lia)).
  - eexists. split; [done|]. split.
    + specialize (Hput (maxslot_ c1) ltac:(lia)). exact Hput.
    + cbn. split_and!; (lia || apply Hrest || (intros; cbn; lia)).
Qed.

(** [clear] empties the slot; afterwards [maxslot_] is the highest slot in
    use, or just below the reserved ones. *)
Lemma lower_max_spec lo l n f :
  arr l n f -> 0 <= lo ->
  forall fuel m, m <= n -> m - lo <= Z.of_nat fuel -> lo <= m ->
  exists m', lower_max fuel lo m l = Ok m' /\ lo - 1 <= m' < m /\
    (forall i, m' < i < m -> f i = NULL) /\ (lo <= m' -> f m' <> NULL).
Proof.
  intros Hl Hlo fuel. induction fuel as [|fuel IH]; intros m Hn Hf Hm; cbn [lower_max].
  - replace m with lo by lia. replace (lo - 1 <? lo) with true by lia.
    exists (lo - 1). split; [done|]. split_and!; [lia|lia|lia|lia].
  - destruct (Z.ltb_spec (m - 1) lo).
    { exists (m - 1). split; [done|]. split_and!; [lia|lia|lia|lia]. }
    rewrite (arr_get _ _ _ _ Hl) by lia. cbn [rbind].
    destruct (f (m - 1)) as [x|] eqn:Ex.
    { exists (m - 1). split; [done|]. split_and!; [lia|lia|lia|]. intros _. by rewrite Ex. }
    destruct (IH (m - 1)) as (m' & -> & H1 & H2 & H3); [lia..|].
    exists m'. split; [done|]. split_and!; [lia|lia| |done].
    intros i Hi. destruct (decide (i = m - 1)) as [->|]; [done|]. apply H2. lia.
Qed.

Lemma cl_clear_spec fuel s c f :
  holds_slots c f -> 0 <= s < nslot_ c -> maxslot_ c <= Z.of_nat fuel ->
  exists c', cl_clear fuel 0 s c = Ok c' /\ holds_slots c' (upd f s NULL) /\
    nslot_ c' = nslot_ c /\
    (s = maxslot_ c -> 0 <= maxslot_ c' -> f (maxslot_ c') <> NULL /\ maxslot_ c' <> s).
Proof.
  intros Hc Hs Hf. unfold cl_clear. pose proof Hc as (Hsl & Hb & Hz & Hm & Hnull).
  destruct Hsl as [(_ & E & _) | (l & E & H1 & Hl)]; [lia|].
  destruct (arr_set l _ _ s NULL Hl Hs) as (l' & E' & Hl').
  unfold slots. rewrite E. cbn [rbind]. rewrite E'. cbn [rbind set_slots maxslot_].
  destruct (Z.eqb_spec s (maxslot_ c)) as [Heq|Hne].
  - destruct (lower_max_spec 0 l' _ _ Hl' ltac:(lia) fuel (maxslot_ c))
      as (m & -> & Hm1 & Hm2 & Hm3); [lia..|].
    cbn [rbind]. eexists. split; [done|]. split.
    + unfold holds_slots. cbn. split; [right; by exists l'|]. split_and!; try lia.
      intros i Hi. unfold upd. destruct (Z.eqb_spec i s) as [|His]; [done|].
      destruct (decide (i < maxslot_ c)); [|apply Hnull; lia].
      specialize (Hm2 i ltac:(lia)). by rewrite upd_ne in Hm2.
    + cbn. split; [done|]. intros _ Hge. specialize (Hm3 Hge). rewrite upd_ne in Hm3 by lia.
      split; [done|lia].
  - eexists. split; [done|]. split; [|cbn; split; [done|lia]].
    unfold holds_slots. cbn. split; [right; by exists l'|]. split_and!; try lia.
    intros i Hi. unfold upd. destruct (Z.eqb_spec i s); [done|]. apply Hnull. lia.
Qed.

(** [getnxt] finds the first slot that is empty or holds the object. *)
Lemma first_free_spec c f x :
  holds_slots c f ->
  forall fuel i, 0 <= i <= nslot_ c -> nslot_ c - i <= Z.of_nat fuel ->
  exists r, first_free fuel i x c = Ok r /\
    match r with
    | Some k => i <= k < nslot_ c /\ (f k = NULL \/ f k = x) /\
        (i <= maxslot_ c + 1 -> k <= maxslot_ c + 1)
    | None => i <= maxslot_ c + 1 -> nslot_ c <= maxslot_ c + 1
    end.
Proof.
  intros Hc fuel. induction fuel as [|fuel IH]; intros i Hi Hf; cbn [first_free].
  - replace (nslot_ c <=? i) with true by lia. exists None. split; [done|lia].
  - destruct (Z.leb_spec (nslot_ c) i); [exists None; split; [done|lia]|].
    destruct (slots_get c f i Hc ltac:(lia)) as (l & -> & Eg). cbn [rbind]. rewrite Eg.
    cbn [rbind]. destruct (_ || _) eqn:Eb.
    + exists (Some i). split; [done|]. split; [lia|]. split; [|done].
      apply orb_true_iff in Eb as [Eb|Eb]; apply bool_decide_eq_true in Eb; auto.
    + assert (Hi1 : i <= maxslot_ c + 1 -> i + 1 <= maxslot_ c + 1).
      { intros Hle. destruct (decide (i = maxslot_ c + 1)) as [->|]; [|lia].
        destruct Hc as (_ & _ & _ & _ & Hnull). rewrite (Hnull (maxslot_ c + 1)) in Eb by lia.
        done. }
      destruct (IH (i + 1)) as (r & -> & Hr); [lia..|]. exists r. split; [done|].
      destruct r as [k|]; [|intros; apply Hr; auto].
      destruct Hr as (Hk & Hr & Hr'). split; [lia|]. split; [done|]. auto.
Qed.

Lemma getnxt_spec fuel x c f :
  holds_slots c f -> nslot_ c < 2 ^ 29 -> (30 <= fuel)%nat -> nslot_ c <= Z.of_nat fuel ->
  exists k c', getnxt fuel 0 x c = Ok (k, c') /\ holds_slots c' f /\
    0 <= k < nslot_ c' /\ k <= maxslot_ c + 1 /\ (f k = NULL \/ f k = x) /\
    maxslot_ c' = maxslot_ c /\
    nslot_ c' <= Z.max (Z.max 32 (nsize_ c)) (Z.max (nslot_ c) (2 * (maxslot_ c + 1))) /\
    same_setup c c'.
Proof.
  intros Hc Hb Hf Hn. unfold getnxt. pose proof (slots_nonneg c f Hc).
  destruct (first_free_spec c f x Hc fuel 0 ltac:(lia) ltac:(lia)) as (r & -> & Hr).
  cbn [rbind]. destruct r as [k|].
  - exists k, c. destruct Hr as (Hk & Hr & Hr'). pose proof Hc as (_ & _ & _ & Hm & _).
    specialize (Hr' ltac:(lia)). split_and!; (done || lia).
  - destruct (alloc_spec fuel (nslot_ c) c f Hc) as (c' & -> & H1 & H2 & H3 & H5 & H4);
      [unfold slot_ok; lia|done|].
    pose proof Hc as (_ & _ & _ & Hm & Hnull). specialize (Hr ltac:(lia)).
    cbn [rbind]. exists (nslot_ c), c'. split; [done|]. split; [done|]. split; [lia|].
    split; [lia|]. split; [left; apply Hnull; lia|]. split; [done|]. split; [lia|done].
Qed.

(** ** The destination hash classifier *)

Lemma mshift_id c v : shift_ c = 0 -> mask_ c = -1 -> mshift c v = v.
Proof. unfold mshift. intros -> ->. by rewrite Z.land_m1_r, Z.shiftr_0_r. Qed.

Section DestHash.
Context {HT : Type} `{TclHash HT} `{!TclHashLaws HT}.

(** [c] sends the destinations of [m] to their objects, [t] installations
    after its creation; its table has at most [B] slots. *)
Definition dest_map (c : HashClassifier HT) (m : gmap Z positive) (t B : Z) : Prop :=
  exists f, holds_slots (hbase c) f /\ hkind c = DestHash /\ default_ c = -1 /\
    shift_ (hbase c) = 0 /\ mask_ (hbase c) = -1 /\ default_target_ (hbase c) = NULL /\
    maxslot_ (hbase c) + 1 <= t /\ nslot_ (hbase c) <= B /\ Z.max 32 (nsize_ (hbase c)) <= B /\
    forall d, match ht_find (ht_ c) [d] with
              | Some s => 0 <= s <= maxslot_ (hbase c) /\
                  exists x, m !! d = Some x /\ f s = Some x
              | None => m !! d = None
              end.

Lemma dest_key c m t B src d fid : dest_map c m t B -> hashkey c src d fid = [d].
Proof using.
  intros (f & _ & Hk & _ & Hs & Hm & _). unfold hashkey. by rewrite Hk, mshift_id.
Qed.

Lemma dest_map_kind c m t B : dest_map c m t B -> hkind c = DestHash.
Proof using. by intros (f & _ & Hk & _). Qed.

(** [set_table_size] before anything is installed. *)
Lemma dest_map_size c m t B nn :
  dest_map c m t B -> 0 <= nn < 2 ^ 30 -> nn <= B ->
  dest_map (set_hbase (set_table_size nn (hbase c)) c) m t B.
Proof using.
  intros (f & (Hs & Hb & Hz & Hrest) & H1 & H2 & H3 & H4 & H5 & H6 & H7 & H8 & H9) Hnn HB.
  exists f. split; [exact (conj Hs (conj Hb (conj Hnn Hrest)))|]. do 7 (split; [done|]). split; [cbn; lia|done].
Qed.

Lemma dest_map_widen c m t B t' B' :
  dest_map c m t B -> t <= t' -> B <= B' -> dest_map c m t' B'.
Proof using.
  intros (f & H0 & H1 & H2 & H3 & H4 & H5 & H6 & H7 & H8 & H9) Ht HB.
  exists f. split; [done|]. do 5 (split; [done|]). do 3 (split; [lia|]). done.
Qed.

Lemma do_install_spec fuel dst x c m t B :
  dest_map c m t B -> 2 * (t + 1) <= B -> B < 2 ^ 29 -> (30 <= fuel)%nat -> B <= Z.of_nat fuel ->
  exists c', do_install fuel dst (Some x) c = Ok c' /\ dest_map c' (<[atoi dst := x]> m) (t + 1) B.
Proof using TclHashLaws0.
  intros Hc Ht HB Hf HBf.
  destruct Hc as (f & Hsl & Hk & Hd & Hsh & Hma & Hdt & Hmax & Hn & Hsz & Hht).
  unfold do_install.
  destruct (getnxt_spec fuel (Some x) (hbase c) f Hsl)
    as (k & b & -> & Hb & Hkr & Hkm & Hfree & Hmb & Hnb & Hset); [lia..|].
  cbn [rbind].
  destruct (install_spec fuel k (Some x) b f Hb) as (b' & -> & Hb' & Hkb & Hmb' & Hnb' & Hset');
    [unfold slot_ok; lia|done|].
  pose proof (same_setup_trans _ _ _ Hset Hset') as (E1 & E2 & E3 & E4).
  specialize (Hnb' ltac:(lia)).
  cbn [rbind]. eexists. split; [done|]. exists (upd f k (Some x)).
  unfold set_hash, set_ht, set_hbase. cbn [hbase hkind default_ ht_].
  split; [exact Hb'|]. do 8 (split; [congruence || lia|]).
  intros d. unfold hashkey. cbn [hkind hbase]. rewrite Hk, mshift_id by congruence.
  rewrite ht_find_put. destruct (decide ([d] = [atoi dst])) as [[= ->]|Hne].
  - split; [lia|]. exists x. by rewrite lookup_insert_eq, upd_at.
  - rewrite lookup_insert_ne by congruence. specialize (Hht d).
    destruct (ht_find (ht_ c) [d]) as [s|]; [|done].
    destruct Hht as (Hs & y & Hy & Hfs). split; [lia|]. exists y. split; [done|].
    destruct (decide (s = k)) as [->|]; [|by rewrite upd_ne].
    rewrite upd_at. destruct Hfree as [Hfree|Hfree]; rewrite Hfree in Hfs; congruence.
Qed.

(** What [find] answers, whatever the script's [no-slot] does, as long as it
    leaves the table alone. *)
Lemma dest_find c m t B no_slot h :
  dest_map c m t B -> B < 2 ^ 29 -> no_slot (-1) c = c ->
  find hbase dest_classify no_slot h c = Ok (m !! daddr (ip h), c).
Proof using.
  intros Hc HB Hno. pose proof (fun src d fid => dest_key c m t B src d fid Hc) as Hkey.
  destruct Hc as (f & Hsl & Hk & Hd & Hsh & Hma & Hdt & Hmax & Hn & Hsz & Hht).
  specialize (Hht (daddr (ip h))).
  assert (Hcl : dest_classify c h =
    match ht_find (ht_ c) [daddr (ip h)] with Some s => s | None => -1 end).
  { unfold dest_classify, hash_lookup, get_hash. rewrite Hkey, mshift_id by done.
    destruct (ht_find (ht_ c) _) as [s|]; unfold known_slot; rewrite Hd.
    - cbn [default]. unfold id. pose proof Hsl as (_ & Hlt & _ & Hm & _). destruct Hht as [Hs _].
      rewrite wrap_small by lia.
      by replace ((0 <=? s) && (s <=? maxslot_ (hbase c))) with true by lia.
    - done. }
  unfold find. rewrite Hcl. destruct (ht_find (ht_ c) [daddr (ip h)]) as [s|].
  - destruct Hht as (Hs & x & Hx & Hfx). pose proof Hsl as (_ & _ & _ & Hm & _).
    unfold slot_at. replace ((s <? 0) || (nslot_ (hbase c) <=? s)) with false by lia.
    destruct (slots_get _ f s Hsl ltac:(lia)) as (l & -> & E). cbn [rbind]. rewrite E, Hfx, Hx.
    done.
  - unfold slot_at at 1. cbn [Z.ltb Z.compare orb rbind]. rewrite Hdt. rewrite Hno, Hcl.
    cbn. by rewrite Hht.
Qed.

(** Routes installed one after the other. *)
Fixpoint install_all (fuel : nat) (rs : list (string * positive)) (c : HashClassifier HT)
    : result (HashClassifier HT) :=
  match rs with
  | [] => Ok c
  | (d, x) :: rs => let! c := do_install fuel d (Some x) c in install_all fuel rs c
  end.

Definition add_entry (m : gmap Z positive) (r : string * positive) : gmap Z positive :=
  <[atoi (fst r) := snd r]> m.

Lemma install_all_spec fuel rs c m t B :
  dest_map c m t B -> 2 * (t + Z.of_nat (length rs)) <= B -> B < 2 ^ 29 -> (30 <= fuel)%nat ->
  B <= Z.of_nat fuel ->
  exists c', install_all fuel rs c = Ok c' /\
    dest_map c' (foldl add_entry m rs) (t + Z.of_nat (length rs)) B.
Proof using TclHashLaws0.
  revert c m t. induction rs as [|[d x] rs IH]; intros c m t Hc Ht HB Hf HBf.
  - exists c. split; [done|]. by replace (t + Z.of_nat (length [])) with t by (simpl; lia).
  - rewrite length_cons, Nat2Z.inj_succ in *. cbn [install_all foldl].
    destruct (do_install_spec fuel d x c m t B Hc) as (c1 & -> & Hc1); [lia..|].
    cbn [rbind]. unfold add_entry at 2. cbn [fst snd].
    destruct (IH c1 _ _ Hc1) as (c' & -> & Hc'); [lia..|]. exists c'. split; [done|].
    by replace (t + Z.succ (Z.of_nat (length rs))) with (t + 1 + Z.of_nat (length rs)) by lia.
Qed.

Lemma new_dest_map : dest_map (new_HashClassifier DestHash 0 (-1)) ∅ 0 32.
Proof using TclHashLaws0.
  exists (fun _ => NULL). split; [apply new_holds|]. do 8 (split; [done|]).
  intros d. cbn. by rewrite ht_find_new, lookup_empty.
Qed.

(** C33: a [DestHashClassifier] refines the map from destination addresses to
    next objects: after any sequence of [do_install], whatever slots the
    objects share and however often the table grows, a packet is handed to
    the object last installed for its destination, and to none, through the
    script's [no-slot], when there is none. *)
Theorem dest_classifier_is_map fuel rs h no_slot :
  (32 <= fuel)%nat -> Z.of_nat (2 * length rs) <= Z.of_nat fuel ->
  Z.of_nat (2 * length rs) < 2 ^ 29 -> (forall c, no_slot (-1) c = c) ->
  exists c, install_all fuel rs (new_HashClassifier DestHash 0 (-1)) = Ok c /\
    find hbase dest_classify no_slot h c = Ok (foldl add_entry ∅ rs !! daddr (ip h), c).
Proof using TclHashLaws0.
  intros Hf Hn Hb Hno. set (B := Z.max 32 (Z.of_nat (2 * length rs))).
  destruct (install_all_spec fuel rs _ ∅ 0 B
    (dest_map_widen _ _ _ _ 0 B new_dest_map ltac:(lia) ltac:(lia))) as (c & E & Hc); [lia..|].
  exists c. split; [done|]. apply (dest_find _ _ _ _ _ _ Hc); [lia|done].
Qed.
End DestHash.

Definition example_routes : list (string * positive) :=
  [("7", 1%positive); ("9", 2%positive); ("7", 3%positive)].

Lemma dest_classifier_is_map_witness :
  exists c : HashClassifier (gmap (list Z) Z),
    install_all 40 example_routes (new_HashClassifier DestHash 0 (-1)) = Ok c /\
    find hbase dest_classify (fun _ c => c) (on_ip (set_daddr 7) fresh_headers) c
    = Ok (foldl add_entry ∅ example_routes !! 7, c).
Proof.
  apply (dest_classifier_is_map 40 example_routes (on_ip (set_daddr 7) fresh_headers)
    (fun _ c => c)); [lia|vm_compute; discriminate|vm_compute; reflexivity|reflexivity].
Defined.

(** ** Where the tables and the hash table part *)

Notation ex_hash k sh ma := (new_HashClassifier (HT := gmap (list Z) Z) k sh ma).

(** [clear] empties a slot and leaves the hash entries that name it: the next
    object installed takes the slot, and the packets of the old destination
    with it. *)
Example cleared_slot_is_reused :
  (let! c := do_install 40 "7" (Some 1%positive) (ex_hash DestHash 0 (-1)) in
   let! b := cl_clear 40 0 0 (hbase c) in
   let! c := do_install 40 "9" (Some 2%positive) (set_hbase b c) in
   let! '(x, _) := find hbase dest_classify (fun _ c => c)
                     (on_ip (set_daddr 7) fresh_headers) c in
   Ok x) = Ok (Some 2%positive).
Proof. vm_compute. reflexivity. Qed.

(** [lookup (Packet* )] shifts and masks the addresses, and [hashkey] does it
    again: with a shift, the entry [set_hash] made is not the one a packet of
    the same addresses is looked up under. *)
Example shifted_key_is_missed :
  let c := set_hash 256 512 0 5 (ex_hash SrcDestHash 8 (-1)) in
  get_hash 256 512 0 c = 5 /\
  hash_lookup c (on_ip (fun i => set_saddr 256 (set_daddr 512 i)) fresh_headers) = -1.
Proof. vm_compute. done. Qed.
