(* ===== verification/Simulator.v ===== *)
(** * Nodes, routing modules and the population of their tables
    (common/simulator.h, common/simulator.cc, common/node.cc,
    routing/rtmodule.h, routing/rtmodule.cc)

    When a simulation starts, [Simulator::populate_flat_classifiers] asks the
    route computation for the next hop of every pair of nodes and hands the
    head of the link to it to the node, which passes it down its chain of
    routing modules to their classifiers.

    The head of a link is found by OTcl code ([get-link-head]) and is a
    parameter.  A node and a routing module are objects of the free store. *)

From stdpp Require Import base numbers list gmap strings.
From Stdlib Require Import ZArith Lia.
From S2P Require Import Prelude.
From S2P Require Import Store.
From S2P Require Import Text.
From S2P Require Import Array.
From S2P Require Import Packet.
From S2P Require Import Route.
From S2P Require Import Classifier.

Open Scope Z_scope.

(** ** Data *)

Section Simulator.
Context {HT : Type} `{TclHash HT}.

(** A classifier object, by the class that decides its [do_install]:
    [DestHashClassifier] has its own, the others that of [Classifier]. *)
Variant table :=
  | Plain (c : Classifier)
  | Hashed (c : HashClassifier HT).

Record RoutingModule := mkModule {
  next_rtm_ : ptr;
  rtm_classifier : option table
}.

Record Node := mkNode {
  nodeid_ : Z;
  address_ : Z;
  rtnotif_ : ptr
}.

(** [nodelist_] is null or an array; the elements are null until a node is
    added. *)
Record Simulator := mkSimulator {
  nodelist_ : option (list ptr);
  rtobject_ : option RouteLogic;
  nn_ : Z;
  sim_size_ : Z;
  nodes : gmap positive Node;
  rtms : gmap positive RoutingModule
}.

Definition new_Simulator (ns : gmap positive Node) (ms : gmap positive RoutingModule) : Simulator :=
  mkSimulator None None 0 0 ns ms.

Definition set_nodelist l n s := mkSimulator l (rtobject_ s) (nn_ s) n (nodes s) (rtms s).
Definition set_nn n s :=
  mkSimulator (nodelist_ s) (rtobject_ s) n (sim_size_ s) (nodes s) (rtms s).
Definition set_rtobject r s :=
  mkSimulator (nodelist_ s) (Some r) (nn_ s) (sim_size_ s) (nodes s) (rtms s).
Definition set_rtms m s :=
  mkSimulator (nodelist_ s) (rtobject_ s) (nn_ s) (sim_size_ s) (nodes s) m.
Definition set_nodes n s :=
  mkSimulator (nodelist_ s) (rtobject_ s) (nn_ s) (sim_size_ s) n (rtms s).

(** ** Tables *)

(** The virtual [do_install] *)
Definition table_install (fuel : nat) (dst : string) (target : ptr) (t : table) : result table :=
  match t with
  | Plain c => let! c := install fuel (atoi dst) target c in Ok (Plain c)
  | Hashed c =>
      match hkind c with
      | DestHash => let! c := do_install fuel dst target c in Ok (Hashed c)
      | _ => let! b := install fuel (atoi dst) target (hbase c) in Ok (Hashed (set_hbase b c))
      end
  end.

(** [set_table_size (int)] is not virtual: it sets the member of the base
    class whatever the classifier is. *)
Definition table_size (nn : Z) (t : table) : table :=
  match t with
  | Plain c => Plain (set_table_size nn c)
  | Hashed c => Hashed (set_hbase (set_table_size nn (hbase c)) c)
  end.

(** ** The chain of routing modules *)

(** Run [f] on the classifier of each module of the chain. *)
Fixpoint rtm_each (fuel : nat) (f : table -> result table) (p : positive)
    (ms : gmap positive RoutingModule) : result (gmap positive RoutingModule) :=
  let! m := load ms (Some p) in
  let! c := match rtm_classifier m with
            | None => Ok None
            | Some t => let! t := f t in Ok (Some t)
            end in
  let! ms := store ms (Some p) (fun m => mkModule (next_rtm_ m) c) in
  match next_rtm_ m with
  | None => Ok ms
  | Some q => match fuel with O => NoFuel | S fuel => rtm_each fuel f q ms end
  end.

Definition rtm_add_route (fuel : nat) (dst : string) (target : ptr) :=
  rtm_each fuel (table_install fuel dst target).

(** [delete_route] installs the null agent, and passes it down the chain as
    a route to add. *)
Definition rtm_delete_route (fuel : nat) (dst : string) (nullagent : ptr) (p : positive)
    (ms : gmap positive RoutingModule) : result (gmap positive RoutingModule) :=
  let! m := load ms (Some p) in
  let! c := match rtm_classifier m with
            | None => Ok None
            | Some t => let! t := table_install fuel dst nullagent t in Ok (Some t)
            end in
  let! ms := store ms (Some p) (fun m => mkModule (next_rtm_ m) c) in
  match next_rtm_ m with
  | None => Ok ms
  | Some q => rtm_add_route fuel dst nullagent q ms
  end.

Definition rtm_set_table_size (fuel : nat) (nn : Z) :=
  rtm_each fuel (fun t => Ok (table_size nn t)).

Fixpoint rtm_route_notify (fuel : nat) (rtm p : positive) (ms : gmap positive RoutingModule)
    : result (gmap positive RoutingModule) :=
  let! m := load ms (Some p) in
  match next_rtm_ m with
  | Some q => match fuel with O => NoFuel | S fuel => rtm_route_notify fuel rtm q ms end
  | None => store ms (Some p) (fun m => mkModule (Some rtm) (rtm_classifier m))
  end.

Fixpoint rtm_unreg (fuel : nat) (rtm p : positive) (ms : gmap positive RoutingModule)
    : result (gmap positive RoutingModule) :=
  let! m := load ms (Some p) in
  match next_rtm_ m with
  | None => Ok ms
  | Some q =>
      if bool_decide (q = rtm) then
        let! m' := load ms (Some q) in
        store ms (Some p) (fun m => mkModule (next_rtm_ m') (rtm_classifier m))
      else match fuel with O => NoFuel | S fuel => rtm_unreg fuel rtm q ms end
  end.

(** ** [Node] *)

Definition node_route_notify (fuel : nat) (rtm : positive) (n : Node)
    (ms : gmap positive RoutingModule) : result (Node * gmap positive RoutingModule) :=
  match rtnotif_ n with
  | None => Ok (mkNode (nodeid_ n) (address_ n) (Some rtm), ms)
  | Some p => let! ms := rtm_route_notify fuel rtm p ms in Ok (n, ms)
  end.

Definition node_unreg_route_notify (fuel : nat) (rtm : positive) (n : Node)
    (ms : gmap positive RoutingModule) : result (Node * gmap positive RoutingModule) :=
  match rtnotif_ n with
  | None => Ok (n, ms)
  | Some p =>
      if bool_decide (p = rtm) then
        let! m := load ms (Some p) in
        Ok (mkNode (nodeid_ n) (address_ n) (next_rtm_ m), ms)
      else let! ms := rtm_unreg fuel rtm p ms in Ok (n, ms)
  end.

Definition node_add_route (fuel : nat) (dst : string) (target : ptr) (n : Node)
    (ms : gmap positive RoutingModule) : result (gmap positive RoutingModule) :=
  match rtnotif_ n with None => Ok ms | Some p => rtm_add_route fuel dst target p ms end.

Definition node_delete_route (fuel : nat) (dst : string) (nullagent : ptr) (n : Node)
    (ms : gmap positive RoutingModule) : result (gmap positive RoutingModule) :=
  match rtnotif_ n with None => Ok ms | Some p => rtm_delete_route fuel dst nullagent p ms end.

Definition node_set_table_size (fuel : nat) (nn : Z) (n : Node)
    (ms : gmap positive RoutingModule) : result (gmap positive RoutingModule) :=
  match rtnotif_ n with None => Ok ms | Some p => rtm_set_table_size fuel nn p ms end.

(** ** [Simulator] *)

Definition sim_check (fuel : nat) (n : Z) (s : Simulator) : result Simulator :=
  if n <? sim_size_ s then Ok s
  else
    let osize := sim_size_ s in
    let! m := double_up fuel n (if osize =? 0 then SMALL_LEN else osize) in
    if m <? 0 then Fault Aborted
    else
      let fresh := replicate (Z.to_nat m) NULL in
      let! l := (if osize <=? 0 then Ok fresh
                 else match nodelist_ s with
                      | None => Fault NullDeref
                      | Some old => for_loop 0 osize (copy_slot old) fresh
                      end) in
      Ok (set_nodelist (Some l) m s).

(** The elements of the array the first call allocates are not read before
    [check] replaces it. *)
Definition sim_add_node (fuel : nat) (node : positive) (id : Z) (s : Simulator)
    : result Simulator :=
  let s := match nodelist_ s with
           | None => set_nodelist (Some (replicate (Z.to_nat SMALL_LEN) NULL)) (sim_size_ s) s
           | Some _ => s
           end in
  let! s := sim_check fuel id s in
  match nodelist_ s with
  | None => Fault NullDeref
  | Some l => let! l := aset l id (Some node) in Ok (set_nodelist (Some l) (sim_size_ s) s)
  end.

(** [get_link_head (node, nh)] evaluates [get-link-head id nh] in the script. *)
Context (link_head : Z -> Z -> ptr).

(** The body of the inner loop, for the node [n] of index [i]. *)
Definition populate_pair (fuel : nat) (rt : RouteLogic) (n : Node) (i j : Z)
    (ms : gmap positive RoutingModule) : result (gmap positive RoutingModule) :=
  if i =? j then Ok ms
  else
    let! nh := lookup_flat i j rt in
    if nh <? 0 then Ok ms
    else node_add_route fuel (fmt_d j) (link_head (nodeid_ n) nh) n ms.

(** The outer loop from [i] on.  A null element skips the next one as well:
    the body increments [i] before the [for] does. *)
Fixpoint populate_loop (fuel steps : nat) (l : list ptr) (i : Z) (s : Simulator)
    : result Simulator :=
  if nn_ s <=? i then Ok s
  else
    match steps with
    | O => NoFuel
    | S steps =>
        let! p := aget l i in
        match p with
        | None => populate_loop fuel steps l (wrap_i32 (i + 2)) s
        | Some _ =>
            let! n := load (nodes s) p in
            let! ms := node_set_table_size fuel (nn_ s) n (rtms s) in
            let! ms := match rtobject_ s with
                       | None => if nn_ s <=? 1 then Ok ms else Fault NullDeref
                       | Some rt => for_loop 0 (nn_ s) (populate_pair fuel rt n i) ms
                       end in
            populate_loop fuel steps l (i + 1) (set_rtms ms s)
        end
    end.

Definition populate_flat_classifiers (fuel : nat) (s : Simulator) : result Simulator :=
  match nodelist_ s with
  | None => Ok s
  | Some _ =>
      let! s := sim_check fuel (nn_ s) s in
      match nodelist_ s with
      | None => Fault NullDeref
      | Some l => populate_loop fuel (S (Z.to_nat (nn_ s))) l 0 s
      end
  end.
End Simulator.
Arguments table HT : clear implicits.
Arguments RoutingModule HT : clear implicits.
Arguments Simulator HT : clear implicits.
