(* ===== verification/SimulatorTheorems.v ===== *)
(** * A populated network delivers

    [wired]: a network of [nn] nodes, each with one routing module over a
    destination hash classifier, as the script creates them.  After
    [populate_flat_classifiers] the classifier of each node maps each
    destination to the head of the link to the next hop, and following the
    classifiers from node to node is following the computed routes. *)

From stdpp Require Import base numbers list gmap strings.
From Stdlib Require Import ZArith Lia ZifyBool.
From S2P Require Import Prelude.
From S2P Require Import Store.
From S2P Require Import Text.
From S2P Require Import Array.
From S2P Require Import Packet.
From S2P Require Import Route.
From S2P Require Import RouteProps.
From S2P Require Import RouteTheorems.
From S2P Require Import Classifier.
From S2P Require Import ClassifierTheorems.
From S2P Require Import Simulator.

Open Scope Z_scope.

Section Network.
Context {HT : Type} `{TclHash HT} `{!TclHashLaws HT}.

(** The head of the link from a node to a neighbour, and the node a link
    leads to. *)
Context (lnk : Z -> Z -> positive) (far : positive -> Z).
Hypothesis far_lnk : forall i h, far (lnk i h) = h.

Definition link_head (i h : Z) : ptr := Some (lnk i h).

(** A fresh classifier, of a table of at most [B] slots once it grows. *)
Definition fresh_module (B : Z) (m : RoutingModule HT) : Prop :=
  next_rtm_ m = NULL /\ exists c, rtm_classifier m = Some (Hashed c) /\ dest_map c ∅ 0 B.

Record wired (s : Simulator HT) (nn : Z) (rt : RouteLogic) (a mo : Z -> positive) : Prop := {
  w_nn : nn_ s = nn;
  w_size : nn < sim_size_ s;
  w_list : exists l f, nodelist_ s = Some l /\ arr l (sim_size_ s) f /\
             forall i, 0 <= i < nn -> f i = Some (a i);
  w_rt : rtobject_ s = Some rt;
  w_node : forall i, 0 <= i < nn ->
             exists ad, nodes s !! a i = Some (mkNode i ad (Some (mo i)));
  w_mod : forall i, 0 <= i < nn -> exists m, rtms s !! mo i = Some m /\ fresh_module 32 m;
  w_inj : forall i j, 0 <= i < nn -> 0 <= j < nn -> mo i = mo j -> i = j
}.

(** Every look-up between the nodes has an answer. *)
Definition routes_ok (nn : Z) (rt : RouteLogic) : Prop :=
  forall i j, 0 <= i < nn -> 0 <= j < nn -> i <> j ->
    exists h, lookup_flat i j rt = Ok h /\ -1 <= h.

(** The object the classifier of node [i] should give for destination [d]. *)
Definition entry (rt : RouteLogic) (i d : Z) : option positive :=
  if i =? d then None
  else match lookup_flat i d rt with
       | Ok h => if h <? 0 then None else Some (lnk i h)
       | _ => None
       end.

Definition row_map (rt : RouteLogic) (i n : Z) (m : gmap Z positive) : Prop :=
  forall d, m !! d = if (0 <=? d) && (d <? n) then entry rt i d else None.

(** A module with a classifier for the destinations of [m]. *)
Definition module_is (ms : gmap positive (RoutingModule HT)) (p : positive)
    (c : HashClassifier HT) : Prop :=
  ms !! p = Some (mkModule NULL (Some (Hashed c))).

Lemma add_route_single fuel d x ms p c m t B :
  module_is ms p c -> dest_map c m t B -> 2 * (t + 1) <= B -> B < 2 ^ 29 ->
  (30 <= fuel)%nat -> B <= Z.of_nat fuel -> 0 <= d < 2 ^ 31 ->
  exists c', rtm_add_route fuel (fmt_d d) (Some x) p ms
      = Ok (<[p := mkModule NULL (Some (Hashed c'))]> ms) /\
    dest_map c' (<[d := x]> m) (t + 1) B.
Proof using TclHashLaws0.
  intros Hp Hc Ht HB Hf HBf Hd. unfold module_is in Hp.
  pose proof (dest_map_kind _ _ _ _ Hc) as Hk.
  unfold rtm_add_route. destruct fuel as [|fuel]; [lia|]. cbn [rtm_each].
  rewrite (load_Some _ _ _ Hp). cbn [rbind rtm_classifier].
  destruct (do_install_spec (S fuel) (fmt_d d) x c m t B Hc Ht HB Hf HBf) as (c' & E & Hc').
  unfold table_install. rewrite Hk, E. cbn [rbind]. rewrite (store_Some _ _ _ _ Hp).
  cbn [rbind next_rtm_]. exists c'. split; [done|].
  by rewrite atoi_fmt_d in Hc'.
Qed.

Lemma size_single fuel nn ms p c m t B :
  module_is ms p c -> dest_map c m t B -> 0 <= nn < 2 ^ 30 -> nn <= B ->
  exists c', rtm_set_table_size fuel nn p ms
      = Ok (<[p := mkModule NULL (Some (Hashed c'))]> ms) /\ dest_map c' m t B.
Proof using.
  intros Hp Hc Hnn HB. unfold module_is in Hp. eexists. split; [|by apply dest_map_size].
  unfold rtm_set_table_size. destruct fuel as [|fuel]; cbn [rtm_each];
    rewrite (load_Some _ _ _ Hp); cbn [rbind rtm_classifier]; rewrite (store_Some _ _ _ _ Hp);
    done.
Qed.

(** ** One row *)

(** The inner loop fills the classifier of node [i]. *)
Lemma populate_row fuel rt i nn ad p ms c B :
  module_is ms p c -> dest_map c ∅ 0 B -> 0 <= nn -> 2 * nn <= B -> B < 2 ^ 29 ->
  (30 <= fuel)%nat -> B <= Z.of_nat fuel ->
  (forall j, 0 <= j < nn -> i <> j -> exists h, lookup_flat i j rt = Ok h /\ -1 <= h) ->
  exists ms' c' m, for_loop 0 nn (populate_pair link_head fuel rt (mkNode i ad (Some p)) i) ms
      = Ok ms' /\
    module_is ms' p c' /\ dest_map c' m nn B /\ row_map rt i nn m /\
    forall q, q <> p -> ms' !! q = ms !! q.
Proof using TclHashLaws0.
  intros Hp Hc Hnn HB HB' Hf HBf Hrt.
  destruct (for_loop_spec (fun j ms' => exists c' m t, module_is ms' p c' /\
    dest_map c' m t B /\ t <= j /\ row_map rt i j m /\ forall q, q <> p -> ms' !! q = ms !! q)
    0 nn (populate_pair link_head fuel rt (mkNode i ad (Some p)) i) ms)
    as (ms' & E & c' & m & t & H1 & H2 & H3 & H4 & H5).
  - done.
  - exists c, ∅, 0. split_and!; try done. intros d. rewrite lookup_empty.
    by destruct ((0 <=? d) && (d <? 0)) eqn:?; [lia|].
  - intros j ms1 Hj (c1 & m1 & t1 & H1 & H2 & H3 & H4 & H5). unfold populate_pair.
    assert (Hnext : forall m2, (forall d, m2 !! d = if decide (d = j) then entry rt i j else m1 !! d) ->
      row_map rt i (j + 1) m2).
    { intros m2 Hm2 d. rewrite Hm2. destruct (decide (d = j)) as [->|Hd].
      - by replace ((0 <=? j) && (j <? j + 1)) with true by lia.
      - rewrite H4. by replace (d <? j + 1) with (d <? j) by lia. }
    assert (Hskip : entry rt i j = None -> row_map rt i (j + 1) m1).
    { intros He. apply Hnext. intros d. case_decide as Hd; [|done]. subst d.
      rewrite H4, He. by replace ((0 <=? j) && (j <? j)) with false by lia. }
    unfold entry in Hnext, Hskip. destruct (Z.eqb_spec i j) as [->|Hij].
    { exists ms1. split; [done|]. exists c1, m1, t1. split_and!; try done; [lia|]. by apply Hskip. }
    destruct (Hrt j Hj Hij) as (h & Eh & Hh). rewrite Eh in *. cbn [rbind].
    destruct (Z.ltb_spec h 0).
    { exists ms1. split; [done|]. exists c1, m1, t1. split_and!; try done; [lia|]. by apply Hskip. }
    unfold node_add_route, link_head. cbn [rtnotif_ nodeid_].
    destruct (add_route_single fuel j (lnk i h) ms1 p c1 m1 t1 B H1 H2) as (c2 & -> & H6); [lia..|].
    eexists. split; [done|]. exists c2, (<[j := lnk i h]> m1), (t1 + 1). split_and!; try done.
    + unfold module_is. by rewrite lookup_insert_eq.
    + lia.
    + apply Hnext. intros d. case_decide as Hd; [subst; by rewrite lookup_insert_eq|].
      by rewrite lookup_insert_ne by done.
    + intros q Hq. rewrite lookup_insert_ne by done. by apply H5.
  - exists ms', c', m. split_and!; try done. by apply (dest_map_widen _ _ t B).
Qed.

(** ** All rows *)

Definition bound (nn : Z) : Z := Z.max 32 (2 * nn).

Definition row_done (rt : RouteLogic) (nn : Z) (ms : gmap positive (RoutingModule HT))
    (p : positive) (i : Z) : Prop :=
  exists c m, module_is ms p c /\ dest_map c m nn (bound nn) /\ row_map rt i nn m.

Lemma populate_node fuel s nn rt a mo i ms :
  wired s nn rt a mo -> routes_ok nn rt -> 0 <= i < nn -> nn < 2 ^ 28 -> (30 <= fuel)%nat ->
  bound nn <= Z.of_nat fuel -> ms !! mo i = rtms s !! mo i ->
  exists n ms', load (nodes s) (Some (a i)) = Ok n /\
    (let! ms := node_set_table_size fuel nn n ms in
     for_loop 0 nn (populate_pair link_head fuel rt n i) ms) = Ok ms' /\
    row_done rt nn ms' (mo i) i /\ forall q, q <> mo i -> ms' !! q = ms !! q.
Proof using TclHashLaws0.
  intros Hw Hrt Hi Hnn Hf HBf Hms. destruct (w_node _ _ _ _ _ Hw i Hi) as (ad & Hn).
  destruct (w_mod _ _ _ _ _ Hw i Hi) as ([nx cl] & Hm & Hnx & c & Hcl & Hc).
  cbn in Hnx, Hcl. subst nx cl. rewrite Hm in Hms. unfold bound in HBf.
  assert (Hc0 : dest_map c ∅ 0 (bound nn)) by (apply (dest_map_widen c ∅ 0 32); unfold bound; lia || done).
  exists (mkNode i ad (Some (mo i))). rewrite (load_Some _ _ _ Hn).
  unfold node_set_table_size. cbn [rtnotif_].
  destruct (size_single fuel nn ms (mo i) c ∅ 0 (bound nn) Hms Hc0) as (c1 & -> & Hc1);
    [lia|unfold bound; lia|]. cbn [rbind].
  destruct (populate_row fuel rt i nn ad (mo i) (<[mo i := mkModule NULL (Some (Hashed c1))]> ms)
    c1 (bound nn)) as (ms' & c' & m & E & H1 & H2 & H3 & H4).
  - apply lookup_insert_eq.
  - done.
  - lia.
  - unfold bound; lia.
  - unfold bound; lia.
  - done.
  - unfold bound; lia.
  - intros j Hj Hij. by apply Hrt.
  - exists ms'. split; [done|]. split; [done|]. split; [by exists c', m|].
    intros q Hq. rewrite H4 by done. by apply lookup_insert_ne.
Qed.

Lemma populate_loop_spec fuel s nn rt a mo l f :
  wired s nn rt a mo -> routes_ok nn rt -> arr l (sim_size_ s) f -> (forall i, 0 <= i < nn -> f i = Some (a i)) ->
  nn < 2 ^ 28 -> (30 <= fuel)%nat -> bound nn <= Z.of_nat fuel ->
  forall steps i ms, 0 <= i <= nn -> nn - i < Z.of_nat steps ->
    (forall k, 0 <= k < i -> row_done rt nn ms (mo k) k) ->
    (forall k, i <= k < nn -> ms !! mo k = rtms s !! mo k) ->
    exists ms', populate_loop link_head fuel steps l i (set_rtms ms s) = Ok (set_rtms ms' s) /\
      forall k, 0 <= k < nn -> row_done rt nn ms' (mo k) k.
Proof using TclHashLaws0.
  intros Hw Hrt Hl Hfa Hnn Hf HBf steps. induction steps as [|steps IH]; intros i ms Hi Hst Hdone Hrest;
    [lia|]. cbn [populate_loop set_rtms nn_ nodes rtms rtobject_].
  rewrite (w_nn _ _ _ _ _ Hw), (w_rt _ _ _ _ _ Hw).
  destruct (Z.leb_spec nn i) as [Hle|Hlt].
  { exists ms. split; [done|]. intros k Hk. apply Hdone. lia. }
  pose proof (w_size _ _ _ _ _ Hw) as Hsz.
  rewrite (arr_get _ _ _ _ Hl) by lia. rewrite Hfa by lia. cbn [rbind].
  destruct (populate_node fuel s nn rt a mo i ms Hw Hrt) as (n & ms1 & -> & E & Hrow & Hfr);
    [lia|done..|apply Hrest; lia|].
  cbn [rbind]. destruct (node_set_table_size fuel nn n ms) as [ms0|?|]; [|done..].
  cbn [rbind] in E |- *. rewrite E. cbn [rbind].
  assert (Hne : forall k, 0 <= k < nn -> k <> i -> mo k <> mo i).
  { intros k Hk Hki Hm. apply Hki. apply (w_inj _ _ _ _ _ Hw); [lia..|done]. }
  destruct (IH (i + 1) ms1) as (ms' & E' & H1); [lia|lia| | |].
  - intros k Hk. destruct (decide (k = i)) as [->|Hki]; [done|].
    destruct (Hdone k ltac:(lia)) as (c & m & H1 & H2 & H3). exists c, m. split; [|done].
    unfold module_is. rewrite Hfr by (apply Hne; lia). done.
  - intros k Hk. rewrite Hfr by (apply Hne; lia). apply Hrest. lia.
  - exists ms'. split; [exact E'|done].
Qed.

Lemma populate_spec fuel s nn rt a mo :
  wired s nn rt a mo -> routes_ok nn rt -> 0 <= nn < 2 ^ 28 -> (30 <= fuel)%nat -> bound nn <= Z.of_nat fuel ->
  exists ms', populate_flat_classifiers link_head fuel s = Ok (set_rtms ms' s) /\
    forall k, 0 <= k < nn -> row_done rt nn ms' (mo k) k.
Proof using TclHashLaws0.
  intros Hw Hrt Hnn Hf HBf. destruct (w_list _ _ _ _ _ Hw) as (l & f & El & Hl & Hfa).
  unfold populate_flat_classifiers, sim_check. rewrite El, (w_nn _ _ _ _ _ Hw).
  pose proof (w_size _ _ _ _ _ Hw). replace (nn <? sim_size_ s) with true by lia.
  cbn [rbind]. rewrite El.
  destruct (populate_loop_spec fuel s nn rt a mo l f Hw Hrt Hl Hfa ltac:(lia) Hf HBf
    (S (Z.to_nat nn)) 0 (rtms s)) as (ms' & E & H1); [lia|lia|lia|done|].
  exists ms'. split; [|done]. rewrite <- E, (w_nn _ _ _ _ _ Hw). f_equal.
  by destruct s.
Qed.

(** ** Delivery *)

(** The object the entry classifier of node [i] hands a packet for node [d]
    to, the script's [no-slot] leaving the tables alone. *)
Definition node_find (i d : Z) (h : headers) (s : Simulator HT) : result (option positive) :=
  match nodelist_ s with
  | None => Fault NullDeref
  | Some l =>
      let! p := aget l i in
      let! n := load (nodes s) p in
      let! m := load (rtms s) (rtnotif_ n) in
      match rtm_classifier m with
      | Some (Hashed c) =>
          let! '(x, _) := find hbase dest_classify (fun _ c => c) (on_ip (set_daddr d) h) c in Ok x
      | _ => Fault NullDeref
      end
  end.

Lemma node_find_spec s nn rt a mo ms i d h :
  wired s nn rt a mo -> 0 <= i < nn -> 0 <= d < nn -> nn < 2 ^ 28 ->
  row_done rt nn ms (mo i) i -> node_find i d h (set_rtms ms s) = Ok (entry rt i d).
Proof using.
  intros Hw Hi Hd Hnn (c & m & Hm & Hc & Hrow). unfold module_is in Hm.
  destruct (w_list _ _ _ _ _ Hw) as (l & f & El & Hl & Hfa).
  destruct (w_node _ _ _ _ _ Hw i Hi) as (ad & Hn).
  pose proof (w_size _ _ _ _ _ Hw). unfold node_find. cbn [set_rtms nodelist_ nodes rtms].
  rewrite El, (arr_get _ _ _ _ Hl), Hfa by lia. cbn [rbind].
  rewrite (load_Some _ _ _ Hn). cbn [rbind rtnotif_]. rewrite (load_Some _ _ _ Hm).
  cbn [rbind rtm_classifier].
  rewrite (dest_find c m nn (bound nn) _ _ Hc) by (done || (unfold bound; lia)).
  cbn [rbind]. f_equal. cbn [on_ip ip set_daddr daddr]. rewrite Hrow.
  by replace ((0 <=? d) && (d <? nn)) with true by lia.
Qed.

(** A packet for node [d] goes from node to node, through the object each
    classifier gives, which is the head of a link to the next node; [None]
    when a classifier has no object for it.  The result is the list of nodes
    visited. *)
Fixpoint deliver (fuel : nat) (h : headers) (s : Simulator HT) (i d : Z)
    : result (option (list Z)) :=
  if i =? d then Ok (Some [])
  else
    match fuel with
    | O => NoFuel
    | S fuel =>
        let! x := node_find i d h s in
        match x with
        | None => Ok None
        | Some x =>
            let! p := deliver fuel h s (far x) d in
            Ok (option_map (cons (far x)) p)
        end
    end.

(** Delivery takes the hops the routes say. *)
Lemma deliver_forward s nn rt a mo ms h d :
  wired s nn rt a mo -> routes_ok nn rt -> 0 <= d < nn -> nn < 2 ^ 28 ->
  (forall k, 0 <= k < nn -> row_done rt nn ms (mo k) k) ->
  (forall i h, 0 <= i < nn -> i <> d -> lookup_flat i d rt = Ok h -> h < nn) ->
  forall fuel i, 0 <= i < nn ->
    forward fuel rt (i + 1) (d + 1)
    = let! p := deliver fuel h (set_rtms ms s) i d in Ok (option_map (map (Z.add 1)) p).
Proof using far_lnk.
  intros Hw Hrt Hd Hnn Hrows Hh fuel. induction fuel as [|fuel IH]; intros i Hi; cbn [forward deliver].
  - destruct (Z.eqb_spec i d) as [->|]; [by rewrite Z.eqb_refl|].
    by replace (i + 1 =? d + 1) with false by lia.
  - destruct (Z.eqb_spec i d) as [->|Hid]; [by rewrite Z.eqb_refl|].
    replace (i + 1 =? d + 1) with false by lia.
    replace (i + 1 - 1) with i by lia. replace (d + 1 - 1) with d by lia.
    rewrite (node_find_spec s nn rt a mo ms i d h Hw Hi Hd Hnn (Hrows i Hi)). cbn [rbind].
    unfold entry. replace (i =? d) with false by lia.
    destruct (Hrt i d Hi Hd Hid) as (nh & E & Hnh).
    specialize (Hh i nh Hi Hid E). rewrite E. cbn [rbind].
    destruct (Z.ltb_spec nh 0); [done|]. rewrite far_lnk, IH by lia.
    destruct (deliver fuel h (set_rtms ms s) nh d) as [[p|]|?|]; cbn; try done.
    do 3 f_equal. lia.
Qed.

(** A shortest walk of finite cost stays among the nodes that have links. *)
Lemma first_hop_inside n c k v h nn :
  first_hop n c k v h -> positive_costs n c -> node n k ->
  (forall i j, nn < j -> c i j = INFINITY) -> h <= nn \/ h = 0.
Proof using.
  intros [[-> _] | (Hh & p & Hp)] Hpos Hk Hc; [by right|]. left.
  destruct (Z.le_gt_cases h nn) as [|Hgt]; [done|]. exfalso.
  destruct Hp as ([Hn _] & Hlt & _). cbn [walk_cost] in Hlt. rewrite Hc in Hlt by done.
  apply Forall_cons in Hn as [_ Hn]. pose proof (walk_nonneg n c h p Hpos Hh Hn). lia.
Qed.

(** C32: a network populated by [populate_flat_classifiers] delivers: whatever
    the links and their positive integer costs, a packet for node [d] handed
    to the classifier of node [i] is passed from node to node along a
    least-cost walk until it is at [d], or is refused at once when there is
    no such walk. *)
Theorem network_delivers fuel es c nn s rt a mo hdr :
  edits_legal [] es -> edits_cost es c -> (forall i j, 1 <= i -> 1 <= j -> 1 <= c i j) ->
  build_routes 15 es = Ok rt -> 0 <= nn < size_ rt -> (forall i j, nn < j -> c i j = INFINITY) ->
  wired s nn rt a mo -> (30 <= fuel)%nat -> bound nn <= Z.of_nat fuel ->
  exists s', populate_flat_classifiers link_head fuel s = Ok s' /\
    forall i d, 0 <= i < nn -> 0 <= d < nn ->
      (exists p, deliver (Z.to_nat INFINITY) hdr s' i d = Ok (Some p) /\
         shortest (size_ rt) c (i + 1) (d + 1) (map (Z.add 1) p)) \/
      (deliver (Z.to_nat INFINITY) hdr s' i d = Ok None /\
       forall q, is_walk (size_ rt) (i + 1) (d + 1) q -> INFINITY <= walk_cost c (i + 1) q).
Proof using TclHashLaws0 far_lnk.
  intros Hl Hc Hpos Hb Hnn Hout Hw Hf HBf.
  destruct (build_routes_spec 15 es c ltac:(lia) Hl Hc) as (rt' & E & Hs & Ha & Hlook).
  rewrite Hb in E. injection E as <-. unfold side_ok in Hs.
  assert (Hp : positive_costs (size_ rt) c) by (intros i j Hi Hj; apply Hpos; unfold node in *; lia).
  assert (Hhop : forall i j, 0 <= i < nn -> 0 <= j < nn -> i <> j ->
    exists h, lookup_flat i j rt = Ok (h - 1) /\ 0 <= h <= nn /\
      first_hop (size_ rt) c (i + 1) (j + 1) h).
  { intros i j Hi Hj Hij. assert (Hni : node (size_ rt) (i + 1)) by (unfold node; lia).
    destruct (Hlook (i + 1) (j + 1) Hni ltac:(unfold node; lia)) as (h & Eh & Hh & Hfh).
    replace (i + 1 =? j + 1) with false in Hfh by lia.
    replace (i + 1 - 1) with i in Eh by lia. replace (j + 1 - 1) with j in Eh by lia.
    exists h. split; [done|]. split; [|done].
    destruct (first_hop_inside _ _ _ _ _ nn Hfh Hp Hni Hout); lia. }
  assert (Hrt : routes_ok nn rt).
  { intros i j Hi Hj Hij. destruct (Hhop i j Hi Hj Hij) as (h & Eh & Hh & _).
    exists (h - 1). split; [done|lia]. }
  destruct (populate_spec fuel s nn rt a mo Hw Hrt) as (ms & -> & Hrows); [lia|done|done|].
  eexists. split; [done|]. intros i d Hi Hd.
  destruct (forwarding_reaches 15 es c ltac:(lia) Hl Hc Hpos) as (r2 & E2 & Hfwd).
  rewrite Hb in E2. injection E2 as <-.
  assert (Hin : forall i' h, 0 <= i' < nn -> i' <> d -> lookup_flat i' d rt = Ok h -> h < nn).
  { intros i' h Hi' Hne Eh. destruct (Hhop i' d Hi' Hd Hne) as (h' & Eh' & ? & _).
    rewrite Eh in Eh'. simplify_eq. lia. }
  pose proof (deliver_forward s nn rt a mo ms hdr d Hw Hrt Hd ltac:(lia) Hrows Hin
    (Z.to_nat INFINITY) i Hi) as Hdf.
  destruct (Hfwd (i + 1) (d + 1)) as [(q & E & Hq) | (E & Hno)]; [unfold node; lia..| |];
    rewrite Hdf in E; destruct (deliver _ _ _ _ _) as [[p|]|?|]; cbn in E; simplify_eq.
  - left. by exists p.
  - by right.
Qed.
End Network.

(** ** An example: the four nodes of [triangle] *)

(** Links named by the node they lead to. *)
Definition ex_lnk (i h : Z) : positive :=
  match h with Z0 => 1 | Zpos p => p~0 | Zneg p => p~1 end%positive.
Definition ex_far (x : positive) : Z :=
  match x with xH => 0 | xO p => Zpos p | xI p => Zneg p end.

Lemma ex_far_lnk i h : ex_far (ex_lnk i h) = h.
Proof. by destruct h. Qed.

(** Node [i] is object [i + 1], its routing module object [i + 11]. *)
Definition ex_node (i : Z) : positive := Z.to_pos (i + 1).
Definition ex_module (i : Z) : positive := Z.to_pos (i + 11).

Definition ex_routes : RouteLogic :=
  match build_routes 15 triangle with Ok r => r | _ => new_RouteLogic end.

Definition ex_tables : gmap positive (RoutingModule (gmap (list Z) Z)) :=
  list_to_map (map (fun i => (ex_module i,
    mkModule NULL (Some (Hashed (new_HashClassifier DestHash 0 (-1)))))) [0; 1; 2; 3]).

Definition ex_nodes : gmap positive Node :=
  list_to_map (map (fun i => (ex_node i, mkNode i i (Some (ex_module i)))) [0; 1; 2; 3]).

(** The nodes are added one by one, then the script gives their number and
    the route object. *)
Definition ex_sim : result (Simulator (gmap (list Z) Z)) :=
  let! s := sim_add_node 40 (ex_node 0) 0 (new_Simulator ex_nodes ex_tables) in
  let! s := sim_add_node 40 (ex_node 1) 1 s in
  let! s := sim_add_node 40 (ex_node 2) 2 s in
  let! s := sim_add_node 40 (ex_node 3) 3 s in
  Ok (set_rtobject ex_routes (set_nn 4 s)).

Definition ex_net : Simulator (gmap (list Z) Z) :=
  match ex_sim with Ok s => s | _ => new_Simulator ∅ ∅ end.

Lemma four_cases (P : Z -> Prop) : P 0 -> P 1 -> P 2 -> P 3 -> forall i, 0 <= i < 4 -> P i.
Proof. intros. assert (i = 0 \/ i = 1 \/ i = 2 \/ i = 3) as Hi by lia. naive_solver. Qed.

Lemma ex_wired : wired ex_net 4 ex_routes ex_node ex_module.
Proof.
  split; try done.
  - exists (map (fun i => if i <? 4 then Some (ex_node i) else NULL) (seqZ 0 32)),
      (fun i => if i <? 4 then Some (ex_node i) else NULL).
    split; [vm_compute; reflexivity|]. split; [|apply four_cases; done].
    split; [done|]. intros i Hi. rewrite list_lookup_fmap.
    change (sim_size_ ex_net) with 32 in Hi. rewrite lookup_seqZ_lt by lia. cbn.
    by rewrite Z2Nat.id by lia.
  - apply (four_cases (fun i => exists ad, nodes ex_net !! ex_node i
      = Some (mkNode i ad (Some (ex_module i))))); eexists; vm_compute; reflexivity.
  - apply (four_cases (fun i => exists m, rtms ex_net !! ex_module i = Some m /\ fresh_module 32 m));
      (exists (mkModule NULL (Some (Hashed (new_HashClassifier DestHash 0 (-1)))));
       split; [vm_compute; reflexivity|]; split; [done|];
       exists (new_HashClassifier DestHash 0 (-1)); split; [done|apply new_dest_map]).
  - intros i j Hi Hj. unfold ex_module. lia.
Qed.

Lemma triangle_inside i j : 4 < j -> triangle_cost i j = INFINITY.
Proof.
  intros Hj. unfold triangle_cost, upd2.
  replace (j =? 1) with false by lia. replace (j =? 2) with false by lia.
  replace (j =? 3) with false by lia. by rewrite !andb_false_r.
Qed.

Lemma network_delivers_witness :
  exists s', populate_flat_classifiers (link_head ex_lnk) 40 ex_net = Ok s' /\
    forall i d, 0 <= i < 4 -> 0 <= d < 4 ->
      (exists p, deliver ex_far (Z.to_nat INFINITY) fresh_headers s' i d = Ok (Some p) /\
         shortest (size_ ex_routes) triangle_cost (i + 1) (d + 1) (map (Z.add 1) p)) \/
      (deliver ex_far (Z.to_nat INFINITY) fresh_headers s' i d = Ok None /\
       forall q, is_walk (size_ ex_routes) (i + 1) (d + 1) q ->
         INFINITY <= walk_cost triangle_cost (i + 1) q).
Proof.
  apply (network_delivers ex_lnk ex_far ex_far_lnk 40 triangle triangle_cost 4 ex_net ex_routes
    ex_node ex_module fresh_headers).
  - exact triangle_legal.
  - exact triangle_costs.
  - exact triangle_positive.
  - vm_compute. reflexivity.
  - split; [lia|]. vm_compute. reflexivity.
  - exact triangle_inside.
  - exact ex_wired.
  - lia.
  - unfold bound. lia.
Defined.

(** A null element of [nodelist_] makes the loop skip the node after it: here
    node 0 is missing and node 1 gets no routes. *)
Example null_node_skips_next :
  (let! s := sim_add_node 40 (ex_node 1) 1 (new_Simulator ex_nodes ex_tables) in
   let! s := sim_add_node 40 (ex_node 2) 2 s in
   let! s := populate_flat_classifiers (link_head ex_lnk) 40
               (set_rtobject ex_routes (set_nn 3 s)) in
   let! x := node_find 1 2 fresh_headers s in
   let! y := node_find 2 1 fresh_headers s in
   Ok (x, y)) = Ok (None, Some (ex_lnk 2 0)).
Proof. vm_compute. reflexivity. Qed.
