(* ===== verification/Rng.v ===== *)
(** * The random number generator (tools/rng.h, tools/rng.cc)

    The combined multiple recursive generator MRG32k3a: two recurrences of
    order three modulo two primes near 2^32, computed in [double]s.  A [RNG]
    is a stream; the streams made one after another start 2^127 steps apart,
    and each is cut into substreams of 2^76 steps.  Arrays of three or six
    [double]s are tuples, and the loops over them are unrolled.  The C++
    [long] is the 64-bit one. *)

From stdpp Require Import base numbers list.
From Stdlib Require Import ZArith Lia ZifyBool SpecFloat.
From S2P Require Import Prelude.
From S2P Require Import Float64.
From S2P Require Import Array.
From S2P Require Import FloatInt.

Open Scope Z_scope.

Definition triple (A : Type) : Type := A * A * A.
Definition vec3 : Type := triple f64.
Definition mat3 : Type := triple vec3.
Definition vec6 : Type := vec3 * vec3.

Definition map3 {A B} (f : A -> B) (v : triple A) : triple B :=
  let '(x, y, z) := v in (f x, f y, f z).
Definition map33 {A B} (f : A -> B) (v : triple (triple A)) : triple (triple B) := map3 (map3 f) v.

(** ** Constants *)

Definition M1 : Z := 4294967087.
Definition M2 : Z := 4294944443.
Definition m1 : f64 := f64_of_Z M1.
Definition m2 : f64 := f64_of_Z M2.
Definition norm : f64 := fdiv f1 (fadd m1 f1).
Definition a12 : f64 := f64_of_Z 1403580.
Definition a13n : f64 := f64_of_Z 810728.
Definition a21 : f64 := f64_of_Z 527612.
Definition a23n : f64 := f64_of_Z 1370589.
Definition two17 : f64 := f64_of_Z 131072.
(** 1 / 2^24 *)
Definition fact : f64 := fdiv f1 (f64_of_Z 16777216).

Definition zmat : Type := triple (triple Z).
Definition inj_mat : zmat -> mat3 := map33 f64_of_Z.

Definition zInvA1 : zmat := ((184888585, 0, 1945170933), (1, 0, 0), (0, 1, 0)).
Definition zInvA2 : zmat := ((0, 360363334, 4225571728), (1, 0, 0), (0, 1, 0)).
Definition zA1p0 : zmat := ((0, 1, 0), (0, 0, 1), (-810728, 1403580, 0)).
Definition zA2p0 : zmat := ((0, 1, 0), (0, 0, 1), (-1370589, 0, 527612)).
Definition zA1p76 : zmat :=
  ((82758667, 1871391091, 4127413238), (3672831523, 69195019, 1871391091),
   (3672091415, 3528743235, 69195019)).
Definition zA2p76 : zmat :=
  ((1511326704, 3759209742, 1610795712), (4292754251, 1511326704, 3889917532),
   (3859662829, 4292754251, 3708466080)).
Definition zA1p127 : zmat :=
  ((2427906178, 3580155704, 949770784), (226153695, 1230515664, 3580155704),
   (1988835001, 986791581, 1230515664)).
Definition zA2p127 : zmat :=
  ((1464411153, 277697599, 1610723613), (32183930, 1464411153, 1022607788),
   (2824425944, 32183930, 2093834863)).

Definition InvA1 : mat3 := inj_mat zInvA1.
Definition InvA2 : mat3 := inj_mat zInvA2.
Definition A1p0 : mat3 := inj_mat zA1p0.
Definition A2p0 : mat3 := inj_mat zA2p0.
Definition A1p76 : mat3 := inj_mat zA1p76.
Definition A2p76 : mat3 := inj_mat zA2p76.
Definition A1p127 : mat3 := inj_mat zA1p127.
Definition A2p127 : mat3 := inj_mat zA2p127.

(** ** Arithmetic modulo [m] *)

(** [static_cast<long> (x)], undefined when [x] is out of range. *)
Definition to_long (x : f64) : result Z :=
  match truncate x with
  | Some z => if (- 2 ^ 63 <=? z) && (z <? 2 ^ 63) then Ok z else Fault Overflow
  | None => Fault Overflow
  end.

(** [static_cast<unsigned long> (x)] *)
Definition to_ulong (x : f64) : result Z :=
  match truncate x with
  | Some z => if (0 <=? z) && (z <? 2 ^ 64) then Ok z else Fault Overflow
  | None => Fault Overflow
  end.

(** The remainder at the end of [MultModM]. *)
Definition reduce (v m : f64) : result f64 :=
  let! a1 := to_long (fdiv v m) in
  let v := fsub v (fmul (f64_of_Z a1) m) in
  Ok (if flt v f0 then fadd v m else v).

Definition MultModM (a s c m : f64) : result f64 :=
  let v := fadd (fmul a s) c in
  if fle two53 v || fle v (fneg two53) then
    let! a1 := to_long (fdiv a two17) in
    let a := fsub a (fmul (f64_of_Z a1) two17) in
    let v := fmul (f64_of_Z a1) s in
    let! a1 := to_long (fdiv v m) in
    let v := fsub v (fmul (f64_of_Z a1) m) in
    reduce (fadd (fadd (fmul v two17) (fmul a s)) c) m
  else reduce v m.

(** One row of [MatVecModM]. *)
Definition row_mod (A s : vec3) (m : f64) : result f64 :=
  let '(a0, a1, a2) := A in
  let '(s0, s1, s2) := s in
  let! x := MultModM a0 s0 f0 m in
  let! x := MultModM a1 s1 x m in
  MultModM a2 s2 x m.

Definition MatVecModM (A : mat3) (s : vec3) (m : f64) : result vec3 :=
  let '(A0, A1, A2) := A in
  let! x0 := row_mod A0 s m in
  let! x1 := row_mod A1 s m in
  let! x2 := row_mod A2 s m in
  Ok (x0, x1, x2).

Definition transpose {A} (B : triple (triple A)) : triple (triple A) :=
  let '((b00, b01, b02), (b10, b11, b12), (b20, b21, b22)) := B in
  ((b00, b10, b20), (b01, b11, b21), (b02, b12, b22)).

(** [MatMatModM]: the columns of [B], one after another. *)
Definition MatMatModM (A B : mat3) (m : f64) : result mat3 :=
  let '(c0, c1, c2) := transpose B in
  let! v0 := MatVecModM A c0 m in
  let! v1 := MatVecModM A c1 m in
  let! v2 := MatVecModM A c2 m in
  Ok (transpose (v0, v1, v2)).

(** [for (i = 0; i < e; i++) MatMatModM (B, B, B, m)]: the counter is an
    [int] and [e] a [long]; when [e] is 2^31 or more, [i++] overflows after
    the round of [i = 2^31 - 1]. *)
Definition MatTwoPowModM (A : mat3) (m : f64) (e : Z) : result mat3 :=
  let! B := for_loop 0 (Z.min e (2 ^ 31)) (fun _ B => MatMatModM B B m) A in
  if 2 ^ 31 <=? e then Fault Overflow else Ok B.

(** [while (n > 0) ...]; a [long] has 63 digits. *)
Fixpoint pow_loop (fuel : nat) (n : Z) (W B : mat3) (m : f64) : result mat3 :=
  if 0 <? n then
    match fuel with
    | O => NoFuel
    | S fuel =>
        let! B := if Z.rem n 2 =? 0 then Ok B else MatMatModM W B m in
        let! W := MatMatModM W W m in
        pow_loop fuel (Z.quot n 2) W B m
    end
  else Ok B.

Definition zid : zmat := ((1, 0, 0), (0, 1, 0), (0, 0, 1)).

Definition MatPowModM (fuel : nat) (A : mat3) (m : f64) (n : Z) : result mat3 :=
  pow_loop fuel n A (inj_mat zid) m.

(** ** Streams *)

(** Six seeds of type [unsigned long]. *)
Definition seeds : Type := triple Z * triple Z.

(** [CheckSeed (seed)]: 0 if the seeds may be used, -1 if not. *)
Definition CheckSeed (s : seeds) : Z :=
  let '((s0, s1, s2), (s3, s4, s5)) := s in
  let high m x := fle m (f64_of_Z x) in
  if high m1 s0 || high m1 s1 || high m1 s2 || high m2 s3 || high m2 s4 || high m2 s5 then -1
  else if (s0 =? 0) && (s1 =? 0) && (s2 =? 0) then -1
  else if (s3 =? 0) && (s4 =? 0) && (s5 =? 0) then -1
  else 0.

Definition inj6 (s : seeds) : vec6 := (map3 f64_of_Z (fst s), map3 f64_of_Z (snd s)).

Record RNG := mkRNG {
  Cg_ : vec6;
  Bg_ : vec6;
  Ig_ : vec6;
  anti_ : bool;
  inc_prec_ : bool
}.

Definition set_Cg c r := mkRNG c (Bg_ r) (Ig_ r) (anti_ r) (inc_prec_ r).

(** The default [next_seed_]. *)
Definition default_seed : vec6 := inj6 ((12345, 12345, 12345), (12345, 12345, 12345)).

(** One step of a recurrence: [p = ahi * x - alo * y] reduced modulo [m]. *)
Definition recur (ahi x alo y m : f64) : result f64 :=
  let p := fsub (fmul ahi x) (fmul alo y) in
  let! k := to_long (fdiv p m) in
  let p := fsub p (fmul (f64_of_Z k) m) in
  Ok (if flt p f0 then fadd p m else p).

Definition U01 (r : RNG) : result (RNG * f64) :=
  let '((c0, c1, c2), (c3, c4, c5)) := Cg_ r in
  let! p1 := recur a12 c1 a13n c0 m1 in
  let! p2 := recur a21 c5 a23n c3 m2 in
  let u := if flt p2 p1 then fmul (fsub p1 p2) norm else fmul (fadd (fsub p1 p2) m1) norm in
  Ok (set_Cg ((c1, c2, p1), (c4, c5, p2)) r, if anti_ r then fsub f1 u else u).

Definition U01d (r : RNG) : result (RNG * f64) :=
  let! '(r, u) := U01 r in
  let! '(r, w) := U01 r in
  if anti_ r then
    let u := fadd u (fmul (fsub w f1) fact) in
    Ok (r, if flt u f0 then fadd u f1 else u)
  else
    let u := fadd u (fmul w fact) in
    Ok (r, if flt u f1 then u else fsub u f1).

Definition rand_u01 (r : RNG) : result (RNG * f64) := if inc_prec_ r then U01d r else U01 r.

Definition rand_int (low high : Z) (r : RNG) : result (RNG * Z) :=
  let! '(r, u) := rand_u01 r in
  let! k := to_ulong (fmul (f64_of_Z (wrap_u64 (wrap_i64 (wrap_i64 (high - low) + 1)))) u) in
  Ok (r, wrap_i64 (wrap_u64 (low + k))).

Definition MAXINT : Z := 2147483647.

Definition next (r : RNG) : result (RNG * Z) := rand_int 0 MAXINT r.

(** [uniform_positive_int ()]: the [long] is converted to [int]. *)
Definition uniform_positive_int (r : RNG) : result (RNG * Z) :=
  let! '(r, x) := next r in Ok (r, wrap_i32 x).

(** [uniform (k)] of an [int]; the remainder is taken in [unsigned]. *)
Definition uniform_int (k : Z) (r : RNG) : result (RNG * Z) :=
  let! '(r, x) := uniform_positive_int r in
  if wrap_u32 k =? 0 then Fault Aborted
  else Ok (r, wrap_i32 (wrap_u32 x mod wrap_u32 k)).

(** [init ()]: the stream that starts at [next_seed_], and the start of the
    one after it. *)
Definition init (next_seed : vec6) : result (RNG * vec6) :=
  let! n1 := MatVecModM A1p127 (fst next_seed) m1 in
  let! n2 := MatVecModM A2p127 (snd next_seed) m2 in
  Ok (mkRNG next_seed next_seed next_seed false false, (n1, n2)).

Definition reset_start_stream (r : RNG) : RNG := mkRNG (Ig_ r) (Ig_ r) (Ig_ r) (anti_ r) (inc_prec_ r).
Definition reset_start_substream (r : RNG) : RNG := set_Cg (Bg_ r) r.

Definition reset_next_substream (r : RNG) : result RNG :=
  let! b1 := MatVecModM A1p76 (fst (Bg_ r)) m1 in
  let! b2 := MatVecModM A2p76 (snd (Bg_ r)) m2 in
  Ok (mkRNG (b1, b2) (b1, b2) (Ig_ r) (anti_ r) (inc_prec_ r)).

Definition set_package_seed (s : seeds) : result vec6 :=
  if CheckSeed s =? 0 then Ok (inj6 s) else Fault Aborted.

(** [set_seed (seed)] with six seeds. *)
Definition set_seeds (s : seeds) (r : RNG) : result RNG :=
  if CheckSeed s =? 0 then Ok (mkRNG (inj6 s) (inj6 s) (inj6 s) (anti_ r) (inc_prec_ r))
  else Fault Aborted.

(** [-x] of a [long], undefined for the least one. *)
Definition neg_long (x : Z) : result Z :=
  if x =? - 2 ^ 63 then Fault Overflow else Ok (- x).

(** One of the two components of [advance_state]. *)
Definition jump_vec (fuel : nat) (e c : Z) (A I : mat3) (m : f64) (s : vec3) : result vec3 :=
  let! C :=
    if 0 <=? c then MatPowModM fuel A m c
    else let! c' := neg_long c in MatPowModM fuel I m c' in
  let! C :=
    if 0 <? e then let! B := MatTwoPowModM A m e in MatMatModM B C m
    else if e <? 0 then
      let! e' := neg_long e in let! B := MatTwoPowModM I m e' in MatMatModM B C m
    else Ok C in
  MatVecModM C s m.

Definition advance_state (fuel : nat) (e c : Z) (r : RNG) : result RNG :=
  let! c1 := jump_vec fuel e c A1p0 InvA1 m1 (fst (Cg_ r)) in
  let! c2 := jump_vec fuel e c A2p0 InvA2 m2 (snd (Cg_ r)) in
  Ok (set_Cg (c1, c2) r).

Definition set_antithetic (a : bool) (r : RNG) : RNG := mkRNG (Cg_ r) (Bg_ r) (Ig_ r) a (inc_prec_ r).
Definition increased_precis (i : bool) (r : RNG) : RNG := mkRNG (Cg_ r) (Bg_ r) (Ig_ r) (anti_ r) i.

(** [get_state (seed)] *)
Definition get_state (r : RNG) : result seeds :=
  let '((c0, c1, c2), (c3, c4, c5)) := Cg_ r in
  let! s0 := to_ulong c0 in let! s1 := to_ulong c1 in let! s2 := to_ulong c2 in
  let! s3 := to_ulong c3 in let! s4 := to_ulong c4 in let! s5 := to_ulong c5 in
  Ok ((s0, s1, s2), (s3, s4, s5)).

(** [seed ()] *)
Definition seed (r : RNG) : result Z :=
  let! s := get_state r in Ok (wrap_i64 (fst (fst (fst s)))).

(** [uniform ()], [uniform (r)] and [uniform (a, b)]. *)
Definition uniform (r : RNG) : result (RNG * f64) := rand_u01 r.
Definition uniform_scaled (x : f64) (r : RNG) : result (RNG * f64) :=
  let! '(r, u) := uniform r in Ok (r, fmul x u).
Definition uniform_between (a b : f64) (r : RNG) : result (RNG * f64) :=
  let! '(r, x) := uniform_scaled (fsub b a) r in Ok (r, fadd a x).

(** ** Seeds

    What all generators share: [RNG::next_seed_] and the counter of
    [set_seed]. *)

Record world := mkWorld {
  next_seed_ : vec6;
  heuristic_sequence : Z
}.

Inductive RNGSources := RAW_SEED_SOURCE | PREDEF_SEED_SOURCE | HEURISTIC_SEED_SOURCE.

Definition predef_seeds : list Z :=
  [1973272912; 188312339; 1072664641; 694388766; 2009044369; 934100682; 1972392646; 1936856304;
   1598189534; 1822174485; 1871883252; 558746720; 605846893; 1384311643; 2081634991; 1644999263;
   773370613; 358485174; 1996632795; 1000004583; 1769370802; 1895218768; 186872697; 1859168769;
   349544396; 1996610406; 222735214; 1334983095; 144443207; 720236707; 762772169; 437720306;
   939612284; 425414105; 1998078925; 981631283; 1024155645; 822780843; 701857417; 960703545;
   2101442385; 2125204119; 2041095833; 89865291; 898723423; 1859531344; 764283187; 1349341884;
   678622600; 778794064; 1319566104; 1277478588; 538474442; 683102175; 999157082; 985046914;
   722594620; 1695858027; 1700738670; 1995749838; 1147024708; 346983590; 565528207; 513791680].

(** [set_package_seed] with six copies of [seed], then [init ()]. *)
Definition seed_package (sd : Z) (w : world) : result (RNG * world) :=
  let x := wrap_u64 sd in
  let! ns := set_package_seed ((x, x, x), (x, x, x)) in
  let! '(r, ns) := init ns in
  Ok (r, mkWorld ns (heuristic_sequence w)).

(** The first [n] numbers are thrown away. *)
Fixpoint toss (n : nat) (r : RNG) : result RNG :=
  match n with
  | O => Ok r
  | S n => let! '(r, _) := next r in toss n r
  end.

(** [set_seed (seed)] of a [long], which for 0 calls [set_seed] for a seed
    made of the time of day, and that function this one again.  [tvs] are the
    times, seconds and microseconds, that [gettimeofday] tells. *)
Fixpoint set_seed_long (tvs : list (Z * Z)) (sd : Z) (w : world) : result (RNG * world) :=
  if sd =? 0 then
    match tvs with
    | [] => NoFuel
    | (sec, usec) :: tvs =>
        let n := wrap_i64 (heuristic_sequence w + 1) in
        let sd := Z.land (Z.lxor (Z.lxor sec usec) (Z.shiftl n 8)) 2147483647 in
        let! '(r, w) := set_seed_long tvs sd (mkWorld (next_seed_ w) n) in
        let! r := toss 128 r in
        Ok (r, w)
    end
  else seed_package sd w.

(** [set_seed (source, seed)] *)
Definition set_seed_source (tvs : list (Z * Z)) (source : RNGSources) (sd : Z) (w : world)
    : result (RNG * world) :=
  match source with
  | RAW_SEED_SOURCE =>
      if (sd <=? 0) || (MAXINT <=? wrap_u32 sd) then Fault Aborted else set_seed_long tvs sd w
  | PREDEF_SEED_SOURCE =>
      if (sd <? 0) || (64 <=? sd) then Fault Aborted
      else let! sd := aget predef_seeds sd in set_seed_long tvs sd w
  | HEURISTIC_SEED_SOURCE => set_seed_long tvs 0 w
  end.

(** The name of a stream in its buffer of 100 bytes; [strcpy] ends with a
    zero byte, [strncpy] here does not. *)
Definition copy_bytes (s : list Z) (buf : list Z) : result (list Z) :=
  for_loop 0 (Z.of_nat (length s)) (fun i buf => let! x := aget s i in aset buf i x) buf.

Definition set_name (s buf : list Z) : result (list Z) :=
  if 99 <? Z.of_nat (length s) then
    let! buf := copy_bytes (take 99 s) buf in aset buf 100 0
  else
    let! buf := copy_bytes s buf in aset buf (Z.of_nat (length s)) 0.

(** The constructors: [RNG (name)], [RNG (seed)], [RNG (source, seed)]. *)
Definition new_RNG (name buf : list Z) (w : world) : result (RNG * list Z * world) :=
  let! buf := set_name name buf in
  let! '(r, ns) := init (next_seed_ w) in
  Ok (r, buf, mkWorld ns (heuristic_sequence w)).

Definition new_RNG_long (tvs : list (Z * Z)) (sd : Z) (w : world) : result (RNG * world) :=
  let! '(_, w) := set_seed_long tvs sd w in
  let! '(r, ns) := init (next_seed_ w) in
  Ok (r, mkWorld ns (heuristic_sequence w)).

Definition new_RNG_source (tvs : list (Z * Z)) (source : RNGSources) (sd : Z) (w : world)
    : result (RNG * world) := set_seed_source tvs source sd w.
