(* ===== verification/RngProps.v ===== *)
(** * The random number generator: arithmetic

    The [double]s of the generator are integers below 2^53 throughout, so
    [MultModM] and the recurrences compute exact remainders; the products of
    matrices are those modulo the prime. *)

From stdpp Require Import base numbers list.
From Stdlib Require Import ZArith Lia ZifyBool SpecFloat Setoid.
From S2P Require Import Prelude.
From S2P Require Import Float64.
From S2P Require Import FloatInt.
From S2P Require Import Array.
From S2P Require Import Rng.

Open Scope Z_scope.

(** A modulus of the generator. *)
Definition modulus (m : Z) : Prop := 2 ^ 31 < m < 2 ^ 32.

Lemma M1_modulus : modulus M1. Proof. done. Qed.
Lemma M2_modulus : modulus M2. Proof. done. Qed.

Lemma modulus_small m : modulus m -> small_int m.
Proof. unfold modulus, small_int. lia. Qed.

Ltac exact_int_tac := unfold exact_int, small_int, modulus in *; lia.

Lemma quot_le v m : 0 < m -> Z.abs (Z.quot v m * m) <= Z.abs v.
Proof.
  intros Hm. destruct (Z.le_ge_cases 0 v).
  - pose proof (Z.mul_quot_le v m ltac:(lia) ltac:(lia)). lia.
  - pose proof (Z.mul_quot_ge v m ltac:(lia) ltac:(lia)). lia.
Qed.

Lemma to_long_quot v m :
  exact_int v -> small_int m -> to_long (fdiv (f64_of_Z v) (f64_of_Z m)) = Ok (Z.quot v m).
Proof.
  intros Hv Hm. unfold to_long. rewrite fdiv_truncate by done.
  pose proof (quot_le v m ltac:(exact_int_tac)).
  assert (Z.abs (Z.quot v m) <= Z.abs (Z.quot v m * m)) by (unfold small_int in Hm; nia).
  rewrite (proj2 (Z.leb_le _ _)), (proj2 (Z.ltb_lt _ _)) by exact_int_tac. done.
Qed.

Lemma quot_rest v m : 0 < m -> Z.abs (v - Z.quot v m * m) < m /\ (v - Z.quot v m * m) mod m = v mod m.
Proof.
  intros Hm. pose proof (Z.quot_rem v m ltac:(lia)). pose proof (Z.rem_bound_abs v m ltac:(lia)).
  split; [lia|]. rewrite <- Zminus_mod_idemp_r, Z.mod_mul, Z.sub_0_r by lia. done.
Qed.

(** The remainder at the end: of C, then made non-negative. *)
Lemma small_rest r m : 0 < m -> Z.abs r < m -> (if r <? 0 then r + m else r) = r mod m.
Proof.
  intros Hm Hr. destruct (Z.ltb_spec r 0).
  - apply Z.mod_unique with (-1); lia.
  - symmetry. apply Z.mod_small. lia.
Qed.

Lemma reduce_ok v m :
  exact_int v -> modulus m -> reduce (f64_of_Z v) (f64_of_Z m) = Ok (f64_of_Z (v mod m)).
Proof.
  intros Hv Hm. pose proof (modulus_small m Hm) as Sm. unfold reduce.
  rewrite to_long_quot by done. cbn [rbind].
  destruct (quot_rest v m ltac:(exact_int_tac)) as [Hr Em].
  pose proof (quot_le v m ltac:(exact_int_tac)) as Hq.
  assert (Hq1 : Z.abs (Z.quot v m) <= Z.abs (Z.quot v m * m)) by (unfold modulus in Hm; nia).
  rewrite fmsub_exact by exact_int_tac. rewrite flt_zero by exact_int_tac.
  rewrite <- Em, <- small_rest by exact_int_tac.
  destruct (_ <? 0); [|done]. by rewrite fadd_exact by exact_int_tac.
Qed.

Lemma recur_ok ahi x alo y m :
  modulus m -> 0 <= ahi <= 1403580 -> 0 <= alo <= 1403580 -> 0 <= x < 2 ^ 32 -> 0 <= y < 2 ^ 32 ->
  recur (f64_of_Z ahi) (f64_of_Z x) (f64_of_Z alo) (f64_of_Z y) (f64_of_Z m) =
  Ok (f64_of_Z ((ahi * x - alo * y) mod m)).
Proof.
  intros Hm Hh Hl Hx Hy. assert (0 <= ahi * x < 2 ^ 53 /\ 0 <= alo * y < 2 ^ 53) as [H1 H2] by nia.
  unfold recur. rewrite (fmul_nonneg ahi), fmsub_exact by exact_int_tac.
  by rewrite <- reduce_ok by exact_int_tac.
Qed.

Lemma div_parts v m : 0 <= v -> 0 < m -> 0 <= v / m <= v / m * m /\ v / m * m <= v.
Proof. intros Hv Hm. pose proof (Z.div_pos v m Hv Hm). pose proof (Z.mul_div_le v m Hm). nia. Qed.

(** Factors for which [MultModM] is exact: residues, or a small factor. *)
Definition factors (a s : Z) : Prop :=
  0 <= a < 2 ^ 32 /\ 0 <= s < 2 ^ 32 \/ Z.abs a <= 1403580 /\ Z.abs s < 2 ^ 32.

Lemma MultModM_small a s c m :
  modulus m -> exact_int a -> exact_int s -> exact_int c -> exact_int (a * s) -> exact_int (a * s + c) ->
  MultModM (f64_of_Z a) (f64_of_Z s) (f64_of_Z c) (f64_of_Z m) = Ok (f64_of_Z ((a * s + c) mod m)).
Proof.
  intros Hm Ha Hs Hc Has Hasc. unfold MultModM. rewrite fmadd_exact by done.
  destruct (exact_below _ Hasc) as [-> ->]. by apply reduce_ok.
Qed.

(** The product is cut in two when it does not fit. *)
Lemma MultModM_big a s c m :
  modulus m -> 0 <= a < 2 ^ 32 -> 0 <= s < 2 ^ 32 -> 0 <= c < 2 ^ 32 -> 2 ^ 53 <= a * s + c ->
  MultModM (f64_of_Z a) (f64_of_Z s) (f64_of_Z c) (f64_of_Z m) = Ok (f64_of_Z ((a * s + c) mod m)).
Proof.
  intros Hm Ha Hs Hc Hbig. assert (Sa : small_int a) by (unfold small_int; nia).
  assert (Ss : small_int s) by (unfold small_int; nia).
  assert (Hv : big (fadd (fmul (f64_of_Z a) (f64_of_Z s)) (f64_of_Z c))).
  { destruct (Z.lt_ge_cases (a * s) (2 ^ 53)).
    - rewrite fmul_nonneg by exact_int_tac. apply fadd_big; unfold small_int in *; lia.
    - apply big_add; [by apply fmul_big|apply f64_of_nonneg; unfold nat_int; lia..]. }
  unfold MultModM. rewrite (proj1 Hv). cbn [orb].
  assert (Ht : small_int 131072) by (unfold small_int; lia). unfold two17.
  assert (Xa : exact_int a) by exact_int_tac. rewrite (to_long_quot a 131072 Xa Ht). cbn [rbind].
  rewrite Z.quot_div_nonneg by lia. set (h := a / 131072).
  pose proof (Z.div_mod a 131072 ltac:(lia)) as Ea. fold h in Ea.
  pose proof (Z.mod_pos_bound a 131072 ltac:(lia)) as Hl. set (l := a mod 131072) in *.
  assert (Hh : 0 <= h < 2 ^ 15) by (unfold h; split; [apply Z.div_pos|apply Z.div_lt_upper_bound]; lia).
  assert (El : a - h * 131072 = l) by lia.
  rewrite fmsub_exact by exact_int_tac. rewrite El.
  assert (Hhs : 0 <= h * s < 2 ^ 47) by nia. assert (Hls : 0 <= l * s < 2 ^ 49) by nia.
  rewrite (fmul_nonneg h s) by exact_int_tac.
  rewrite (to_long_quot (h * s) m) by (exact_int_tac || by apply modulus_small). cbn [rbind].
  rewrite Z.quot_div_nonneg by exact_int_tac.
  pose proof (Z.div_mod (h * s) m ltac:(exact_int_tac)) as Ed.
  pose proof (Z.mod_pos_bound (h * s) m ltac:(exact_int_tac)) as Hd.
  pose proof (div_parts (h * s) m ltac:(lia) ltac:(exact_int_tac)) as Hqm.
  rewrite fmsub_exact by exact_int_tac.
  replace (h * s - h * s / m * m) with ((h * s) mod m) by lia. set (d := (h * s) mod m) in *.
  assert (Hdm : 0 <= d < 2 ^ 32) by exact_int_tac.
  rewrite (fmul_nonneg d 131072), (fmul_nonneg l s), !fadd_exact, reduce_ok by exact_int_tac.
  do 2 f_equal. unfold d. rewrite <- El.
  rewrite <- Z.add_assoc, <- Zplus_mod_idemp_l, Zmult_mod_idemp_l, Zplus_mod_idemp_l. f_equal. lia.
Qed.

Lemma MultModM_ok a s c m :
  modulus m -> factors a s -> 0 <= c < 2 ^ 32 ->
  MultModM (f64_of_Z a) (f64_of_Z s) (f64_of_Z c) (f64_of_Z m) = Ok (f64_of_Z ((a * s + c) mod m)).
Proof.
  intros Hm Hf Hc. destruct Hf as [[Ha Hs]|[Ha Hs]].
  - destruct (Z.lt_ge_cases (a * s + c) (2 ^ 53)).
    + assert (0 <= a * s) by nia. apply MultModM_small; (done || exact_int_tac).
    + by apply MultModM_big.
  - assert (Z.abs (a * s) <= 1403580 * 2 ^ 32) by nia.
    apply MultModM_small; (done || exact_int_tac).
Qed.

(** ** Congruence *)

Definition cong (m x y : Z) : Prop := x mod m = y mod m.

#[export] Instance cong_equivalence m : Equivalence (cong m).
Proof. unfold cong. split; [done|by intros x y|intros x y z; congruence]. Qed.

#[export] Instance cong_add m : Proper (cong m ==> cong m ==> cong m) Z.add.
Proof. unfold cong. intros x x' Hx y y' Hy. by rewrite Zplus_mod, Hx, Hy, <- Zplus_mod. Qed.

#[export] Instance cong_mul m : Proper (cong m ==> cong m ==> cong m) Z.mul.
Proof. unfold cong. intros x x' Hx y y' Hy. by rewrite Zmult_mod, Hx, Hy, <- Zmult_mod. Qed.

Lemma cong_mod m x : cong m (x mod m) x.
Proof. unfold cong. apply Zmod_mod. Qed.

(** ** Matrices of integers modulo [m] *)

Definition dot (a s : triple Z) : Z :=
  let '(a0, a1, a2) := a in let '(s0, s1, s2) := s in a0 * s0 + a1 * s1 + a2 * s2.

Definition mat_vec (m : Z) (A : zmat) (s : triple Z) : triple Z := map3 (fun a => dot a s mod m) A.

Definition mat_mat (m : Z) (A B : zmat) : zmat := transpose (map3 (mat_vec m A) (transpose B)).

(** The residues. *)
Definition in3 {A} (P : A -> Prop) (v : triple A) : Prop :=
  let '(x, y, z) := v in P x /\ P y /\ P z.
Definition residues (m : Z) : triple Z -> Prop := in3 (fun x => 0 <= x < m).
Definition residue_mat (m : Z) : zmat -> Prop := in3 (residues m).

Lemma mat_vec_residues m A s : 0 < m -> residues m (mat_vec m A s).
Proof. intros Hm. destruct A as [[? ?] ?]. cbn. pose proof Z.mod_pos_bound. auto. Qed.

Lemma mat_mat_residues m A B : 0 < m -> residue_mat m (mat_mat m A B).
Proof.
  intros Hm. destruct A as [[A0 A1] A2], B as [[[[? ?] ?] [[? ?] ?]] [[? ?] ?]]. cbn.
  pose proof Z.mod_pos_bound. auto 20.
Qed.

Lemma triple_eq {A} (a a' b b' c c' : A) : a = a' -> b = b' -> c = c' -> (a, b, c) = (a', b', c').
Proof. by intros -> -> ->. Qed.

Lemma cong_eq m x y : cong m x y -> x mod m = y mod m.
Proof. done. Qed.

(** The product stands for the composition. *)
Lemma mat_mat_vec m A B s : mat_vec m (mat_mat m A B) s = mat_vec m A (mat_vec m B s).
Proof.
  destruct A as [[[[? ?] ?] [[? ?] ?]] [[? ?] ?]], B as [[[[? ?] ?] [[? ?] ?]] [[? ?] ?]], s as [[s0 s1] s2].
  cbn. apply triple_eq; apply cong_eq; rewrite !cong_mod; unfold cong; f_equal; ring.
Qed.

Lemma mat_vec_id m s : residues m s -> mat_vec m zid s = s.
Proof.
  destruct s as [[s0 s1] s2]. cbn. intros (H0 & H1 & H2).
  apply triple_eq; (rewrite Z.mod_small; lia).
Qed.

(** Matrices of doubles compute them. *)
Definition fac3 (a s : triple Z) : Prop :=
  let '(a0, a1, a2) := a in let '(s0, s1, s2) := s in factors a0 s0 /\ factors a1 s1 /\ factors a2 s2.

Lemma row_mod_ok m a s :
  modulus m -> fac3 a s ->
  row_mod (map3 f64_of_Z a) (map3 f64_of_Z s) (f64_of_Z m) = Ok (f64_of_Z (dot a s mod m)).
Proof.
  destruct a as [[a0 a1] a2], s as [[s0 s1] s2]. intros Hm (H0 & H1 & H2). cbn [map3 row_mod].
  assert (Hr : forall x, 0 <= x mod m < 2 ^ 32).
  { intros x. pose proof (Z.mod_pos_bound x m). unfold modulus in Hm. lia. }
  change f0 with (f64_of_Z 0). rewrite MultModM_ok by (done || lia). cbn [rbind].
  rewrite MultModM_ok by done. cbn [rbind]. rewrite MultModM_ok by done. do 2 f_equal.
  cbn [dot]. apply cong_eq. rewrite !cong_mod. unfold cong. f_equal. ring.
Qed.

Definition fac_mat (A : zmat) (s : triple Z) : Prop := in3 (fun a => fac3 a s) A.

Lemma MatVecModM_ok m A s :
  modulus m -> fac_mat A s ->
  MatVecModM (inj_mat A) (map3 f64_of_Z s) (f64_of_Z m) = Ok (map3 f64_of_Z (mat_vec m A s)).
Proof.
  destruct A as [[A0 A1] A2]. intros Hm (H0 & H1 & H2). cbn [inj_mat map33 map3 MatVecModM].
  rewrite !row_mod_ok by done. done.
Qed.

Lemma transpose_map {A B} (f : A -> B) M : transpose (map33 f M) = map33 f (transpose M).
Proof. by destruct M as [[[[? ?] ?] [[? ?] ?]] [[? ?] ?]]. Qed.

Lemma MatMatModM_ok m A B :
  modulus m -> in3 (fac_mat A) (transpose B) ->
  MatMatModM (inj_mat A) (inj_mat B) (f64_of_Z m) = Ok (inj_mat (mat_mat m A B)).
Proof.
  intros Hm. unfold MatMatModM, mat_mat. change (inj_mat B) with (map33 f64_of_Z B). rewrite transpose_map.
  destruct (transpose B) as [[c0 c1] c2]. intros (H0 & H1 & H2). cbn [map33 map3].
  rewrite !MatVecModM_ok by done. cbn [rbind]. unfold inj_mat. rewrite <- transpose_map. done.
Qed.

(** Residues, or a matrix of small entries on the left. *)
Definition small3 : triple Z -> Prop := in3 (fun x => Z.abs x <= 1403580).
Definition small_mat : zmat -> Prop := in3 small3.

Lemma fac_mat_residues m A s : modulus m -> residue_mat m A -> residues m s -> fac_mat A s.
Proof.
  destruct A as [[[[? ?] ?] [[? ?] ?]] [[? ?] ?]], s as [[s0 s1] s2]. unfold modulus. cbn. intros.
  unfold factors. split_and!; left; lia.
Qed.

Lemma fac_mat_small A s : small_mat A -> in3 (fun x => Z.abs x < 2 ^ 32) s -> fac_mat A s.
Proof.
  destruct A as [[[[? ?] ?] [[? ?] ?]] [[? ?] ?]], s as [[s0 s1] s2]. cbn. intros.
  unfold factors. split_and!; right; lia.
Qed.
