(* ===== verification/RngJump.v ===== *)
(** * The random number generator: streams

    The recurrences as functions on integers, and the matrices that jump: the
    constants of the source are powers of the matrix of one step, so the jumps
    are what stepping that many times gives. *)

From stdpp Require Import base numbers list.
From Stdlib Require Import ZArith Lia ZifyBool.
From S2P Require Import Prelude.
From S2P Require Import Float64.
From S2P Require Import FloatInt.
From S2P Require Import Array.
From S2P Require Import Rng.
From S2P Require Import RngProps.

Open Scope Z_scope.

(** ** The recurrences *)

Definition step1 (s : triple Z) : triple Z :=
  let '(x, y, z) := s in (y, z, (1403580 * y - 810728 * x) mod M1).
Definition step2 (s : triple Z) : triple Z :=
  let '(x, y, z) := s in (y, z, (527612 * z - 1370589 * x) mod M2).
Definition step (s : seeds) : seeds := (step1 (fst s), step2 (snd s)).

(** [n] steps. *)
Definition steps (n : N) (s : seeds) : seeds := N.iter n step s.

Lemma steps_pair n s : steps n s = (N.iter n step1 (fst s), N.iter n step2 (snd s)).
Proof.
  unfold steps. destruct s as [a b]. cbn [fst snd].
  induction n as [|n IH] using N.peano_ind; [done|]. by rewrite !N.iter_succ, IH.
Qed.

Lemma steps_0 s : steps 0 s = s.
Proof. done. Qed.

Lemma steps_add n k s : steps (n + k) s = steps n (steps k s).
Proof. apply N.iter_add. Qed.

Lemma steps_succ k s : steps (N.of_nat (S k)) s = steps (N.of_nat k) (step s).
Proof. unfold steps. rewrite Nat2N.inj_succ. apply N.iter_succ_r. Qed.

Definition nonzero3 (s : triple Z) : Prop := s <> (0, 0, 0).

(** Seeds that the generator can be in. *)
Record seeds_ok (s : seeds) : Prop := {
  so_first : residues M1 (fst s);
  so_last : residues M2 (snd s);
  so_first_nonzero : nonzero3 (fst s);
  so_last_nonzero : nonzero3 (snd s)
}.

(** ** Powers of a matrix *)

Fixpoint squared (m : Z) (n : nat) (A : zmat) : zmat :=
  match n with
  | O => A
  | S n => let B := squared m n A in mat_mat m B B
  end.

Lemma squared_iter m n A s :
  mat_vec m (squared m n A) s = N.iter (2 ^ N.of_nat n) (mat_vec m A) s.
Proof.
  revert s. induction n as [|n IH]; intros s; cbn [squared]; [done|].
  rewrite mat_mat_vec, !IH, <- N.iter_add. f_equal. rewrite Nat2N.inj_succ, N.pow_succ_r'. lia.
Qed.

Section matrix.
Context (m : Z) (Hm : modulus m) (A I : zmat).

(** [A] may be squared: of small entries, or of residues. *)
Definition base_mat (A : zmat) : Prop := small_mat A \/ residue_mat m A.

Lemma base_vec B s : base_mat B -> residues m s -> fac_mat B s.
Proof.
  intros [Hs|Hr] Hv; [|by eapply fac_mat_residues]. apply fac_mat_small; [done|].
  destruct s as [[? ?] ?]. cbn in *. unfold modulus in Hm. lia.
Qed.

Lemma base_times B C : base_mat B -> residue_mat m C -> in3 (fac_mat B) (transpose C).
Proof.
  destruct C as [[[[? ?] ?] [[? ?] ?]] [[? ?] ?]]. intros HB HC. cbn in HC. cbn [in3 transpose].
  split; [|split]; (apply base_vec; [done|cbn; tauto]).
Qed.

Lemma base_square B : base_mat B -> in3 (fac_mat B) (transpose B).
Proof.
  intros [Hs|Hr]; [|by apply base_times; [right|]].
  destruct B as [[[[? ?] ?] [[? ?] ?]] [[? ?] ?]]. pose proof Hs as H. cbn in H. cbn [in3 transpose].
  split; [|split]; (apply fac_mat_small; [exact Hs|cbn; lia]).
Qed.

Lemma squared_base n B : base_mat B -> base_mat (squared m n B).
Proof.
  destruct n; [done|]. right. apply mat_mat_residues. unfold modulus in Hm. lia.
Qed.

Lemma squared_residues n B : (0 < n)%nat -> residue_mat m (squared m n B).
Proof. destruct n; [lia|]. intros _. apply mat_mat_residues. unfold modulus in Hm. lia. Qed.

Lemma square_loop_ok e B :
  base_mat B -> 0 <= e ->
  for_loop 0 e (fun _ B => MatMatModM B B (f64_of_Z m)) (inj_mat B) =
  Ok (inj_mat (squared m (Z.to_nat e) B)).
Proof.
  intros HB He.
  destruct (for_loop_spec (fun j x => x = inj_mat (squared m (Z.to_nat j) B)) 0 e
    (fun _ x => MatMatModM x x (f64_of_Z m)) (inj_mat B)) as (x & E & Hx); [lia|done| |by rewrite E, Hx].
  intros j x Hj ->. eexists. split; [apply MatMatModM_ok; [done|by apply base_square, squared_base]|].
  by replace (Z.to_nat (j + 1)) with (S (Z.to_nat j)) by lia.
Qed.

Lemma MatTwoPowModM_ok e B :
  base_mat B -> 0 <= e < 2 ^ 31 ->
  MatTwoPowModM (inj_mat B) (f64_of_Z m) e = Ok (inj_mat (squared m (Z.to_nat e) B)).
Proof.
  intros HB He. unfold MatTwoPowModM. rewrite Z.min_l, (proj2 (Z.leb_gt _ _)) by lia.
  by rewrite square_loop_ok by (done || lia).
Qed.

(** The counter overflows. *)
Lemma MatTwoPowModM_big e B :
  base_mat B -> 2 ^ 31 <= e -> MatTwoPowModM (inj_mat B) (f64_of_Z m) e = Fault Overflow.
Proof.
  intros HB He. unfold MatTwoPowModM. rewrite square_loop_ok by (done || lia). cbn [rbind].
  by rewrite (proj2 (Z.leb_le _ _)) by lia.
Qed.

(** The loop of [MatPowModM]. *)
Lemma pow_loop_ok fuel n W B :
  0 <= n < 2 ^ Z.of_nat fuel -> base_mat W -> residue_mat m B ->
  exists C, pow_loop fuel n (inj_mat W) (inj_mat B) (f64_of_Z m) = Ok (inj_mat C) /\
    residue_mat m C /\
    forall s, mat_vec m C s = N.iter (Z.to_N n) (mat_vec m W) (mat_vec m B s).
Proof.
  assert (Hm0 : 0 < m) by (unfold modulus in Hm; lia).
  revert n W B. induction fuel as [|fuel IH]; intros n W B Hn HW HB; cbn [pow_loop].
  { assert (n = 0) as -> by (change (2 ^ Z.of_nat 0) with 1 in Hn; lia). by exists B. }
  destruct (Z.ltb_spec 0 n) as [Hpos|]; [|assert (n = 0) as -> by lia; by exists B].
  rewrite Z.rem_mod_nonneg, Z.quot_div_nonneg by lia.
  pose proof (Z.div_mod n 2 ltac:(lia)) as En. pose proof (Z.mod_pos_bound n 2 ltac:(lia)) as Hb.
  assert (Hn2 : 0 <= n / 2 < 2 ^ Z.of_nat fuel).
  { rewrite Nat2Z.inj_succ, Z.pow_succ_r in Hn by lia. lia. }
  rewrite (MatMatModM_ok m W W Hm (base_square W HW)).
  assert (HWW : base_mat (mat_mat m W W)) by (right; by apply mat_mat_residues).
  assert (Hiter : forall k s, N.iter k (mat_vec m (mat_mat m W W)) s = N.iter (2 * k) (mat_vec m W) s).
  { intros k s. induction k as [|k IHk] using N.peano_ind; [done|].
    replace (2 * N.succ k)%N with (N.succ (N.succ (2 * k))) by lia.
    rewrite !N.iter_succ, IHk. apply mat_mat_vec. }
  destruct (Z.eqb_spec (n mod 2) 0) as [E0|E1]; cbn [rbind].
  - destruct (IH (n / 2) (mat_mat m W W) B Hn2 HWW HB) as (C & -> & HC & Hs).
    exists C. split_and!; try done. intros s. rewrite Hs, Hiter. f_equal. lia.
  - rewrite (MatMatModM_ok m W B Hm) by (by apply base_times). cbn [rbind].
    destruct (IH (n / 2) (mat_mat m W W) (mat_mat m W B) Hn2 HWW) as (C & -> & HC & Hs);
      [by apply mat_mat_residues|].
    exists C. split_and!; try done. intros s. rewrite Hs, Hiter, mat_mat_vec, <- N.iter_succ_r.
    f_equal. lia.
Qed.

Lemma zid_residues : residue_mat m zid.
Proof. unfold modulus in Hm. cbn. lia. Qed.

Lemma MatPowModM_ok fuel n W :
  0 <= n < 2 ^ Z.of_nat fuel -> base_mat W ->
  exists C, MatPowModM fuel (inj_mat W) (f64_of_Z m) n = Ok (inj_mat C) /\ residue_mat m C /\
    forall s, residues m s -> mat_vec m C s = N.iter (Z.to_N n) (mat_vec m W) s.
Proof.
  intros Hn HW. destruct (pow_loop_ok fuel n W zid Hn HW zid_residues) as (C & E & HC & Hs).
  exists C. split_and!; try done. intros s Hr. by rewrite Hs, mat_vec_id.
Qed.

(** ** The inverse matrix undoes steps *)

Context (HAI : mat_mat m A I = zid) (HIA : mat_mat m I A = zid).

Lemma iter_residues n B s : residues m s -> residues m (N.iter n (mat_vec m B) s).
Proof.
  intros Hs. induction n as [|n IH] using N.peano_ind; [done|]. rewrite N.iter_succ.
  apply mat_vec_residues. unfold modulus in Hm. lia.
Qed.

Lemma iter_cancel n s : residues m s -> N.iter n (mat_vec m A) (N.iter n (mat_vec m I) s) = s.
Proof.
  intros Hs. induction n as [|n IH] using N.peano_ind; [done|].
  rewrite N.iter_succ_r, (N.iter_succ n _ (mat_vec m I)).
  rewrite <- mat_mat_vec, HAI, mat_vec_id by (by apply iter_residues). done.
Qed.

Lemma step_nonzero s : residues m s -> nonzero3 s -> nonzero3 (mat_vec m A s).
Proof.
  unfold nonzero3. intros Hr Hs E. apply Hs. rewrite <- (mat_vec_id m s Hr), <- HIA, mat_mat_vec, E.
  destruct I as [[[[? ?] ?] [[? ?] ?]] [[? ?] ?]]. cbn. apply triple_eq; rewrite !Z.mul_0_r; apply Z.mod_0_l;
    unfold modulus in Hm; lia.
Qed.
End matrix.

(** ** The constants of the source *)

Lemma A1_small : small_mat zA1p0. Proof. cbn. lia. Qed.
Lemma A2_small : small_mat zA2p0. Proof. cbn. lia. Qed.
Lemma A1_inverse : mat_mat M1 zA1p0 zInvA1 = zid /\ mat_mat M1 zInvA1 zA1p0 = zid.
Proof. split; vm_compute; reflexivity. Qed.
Lemma A2_inverse : mat_mat M2 zA2p0 zInvA2 = zid /\ mat_mat M2 zInvA2 zA2p0 = zid.
Proof. split; vm_compute; reflexivity. Qed.
Lemma A1_jumps : squared M1 76 zA1p0 = zA1p76 /\ squared M1 127 zA1p0 = zA1p127.
Proof. split; vm_compute; reflexivity. Qed.
Lemma A2_jumps : squared M2 76 zA2p0 = zA2p76 /\ squared M2 127 zA2p0 = zA2p127.
Proof. split; vm_compute; reflexivity. Qed.

Lemma InvA1_residues : residue_mat M1 zInvA1. Proof. unfold M1. cbn. lia. Qed.
Lemma InvA2_residues : residue_mat M2 zInvA2. Proof. unfold M2. cbn. lia. Qed.

Lemma step1_mat s : residues M1 s -> mat_vec M1 zA1p0 s = step1 s.
Proof.
  destruct s as [[x y] z]. intros (Hx & Hy & Hz). unfold mat_vec, step1. cbn [map3 dot zA1p0].
  apply triple_eq; [| |f_equal; lia]; (rewrite Z.mod_small; lia).
Qed.

Lemma step2_mat s : residues M2 s -> mat_vec M2 zA2p0 s = step2 s.
Proof.
  destruct s as [[x y] z]. intros (Hx & Hy & Hz). unfold mat_vec, step2. cbn [map3 dot zA2p0].
  apply triple_eq; [| |f_equal; lia]; (rewrite Z.mod_small; lia).
Qed.

Lemma iter_same m A (f : triple Z -> triple Z) n s :
  modulus m -> (forall t, residues m t -> mat_vec m A t = f t) -> residues m s ->
  N.iter n (mat_vec m A) s = N.iter n f s.
Proof.
  intros Hm Hf Hs. induction n as [|n IH] using N.peano_ind; [done|].
  rewrite !N.iter_succ, <- IH. apply Hf. by apply iter_residues.
Qed.

Definition iter1 n s (Hs : residues M1 s) := iter_same M1 zA1p0 step1 n s M1_modulus step1_mat Hs.
Definition iter2 n s (Hs : residues M2 s) := iter_same M2 zA2p0 step2 n s M2_modulus step2_mat Hs.

Lemma step_ok s : seeds_ok s -> seeds_ok (step s).
Proof.
  intros [R1 R2 N1 N2]. constructor; cbn [step fst snd]; rewrite <- ?step1_mat, <- ?step2_mat by done.
  - by apply mat_vec_residues.
  - by apply mat_vec_residues.
  - apply (step_nonzero M1 M1_modulus zA1p0 zInvA1); first [apply A1_inverse|done].
  - apply (step_nonzero M2 M2_modulus zA2p0 zInvA2); first [apply A2_inverse|done].
Qed.

Lemma steps_ok n s : seeds_ok s -> seeds_ok (steps n s).
Proof.
  intros Hs. unfold steps. induction n as [|n IH] using N.peano_ind; [done|].
  rewrite N.iter_succ. by apply step_ok.
Qed.

(** A jump by a constant of the source. *)
Lemma jump_ok m A f k P s :
  modulus m -> small_mat A -> (forall t, residues m t -> mat_vec m A t = f t) ->
  (0 < k)%nat -> squared m k A = P -> residues m s ->
  MatVecModM (inj_mat P) (map3 f64_of_Z s) (f64_of_Z m) =
  Ok (map3 f64_of_Z (N.iter (2 ^ N.of_nat k) f s)).
Proof.
  intros Hm HA Hf Hk HP Hs. rewrite MatVecModM_ok; [|done|].
  - by rewrite <- HP, squared_iter, (iter_same m A f).
  - subst P. apply (fac_mat_residues m); [done| |done]. by apply squared_residues.
Qed.

Definition jump1 k P s := jump_ok M1 zA1p0 step1 k P s M1_modulus A1_small step1_mat.
Definition jump2 k P s := jump_ok M2 zA2p0 step2 k P s M2_modulus A2_small step2_mat.

Definition substream : N := 2 ^ 76.
Definition stream : N := 2 ^ 127.

Lemma init_ok s :
  seeds_ok s -> init (inj6 s) = Ok (mkRNG (inj6 s) (inj6 s) (inj6 s) false false, inj6 (steps stream s)).
Proof.
  intros [R1 R2 _ _]. unfold init, inj6 at 1 2. cbn [fst snd]. unfold A1p127, A2p127, m1, m2.
  rewrite (jump1 127 _ _ ltac:(lia) (proj2 A1_jumps) R1), (jump2 127 _ _ ltac:(lia) (proj2 A2_jumps) R2).
  cbn [rbind]. rewrite (steps_pair stream). unfold inj6. cbn [fst snd].
  change (2 ^ N.of_nat 127)%N with stream. reflexivity.
Qed.

Lemma reset_next_substream_ok r b :
  seeds_ok b -> Bg_ r = inj6 b ->
  reset_next_substream r =
  Ok (mkRNG (inj6 (steps substream b)) (inj6 (steps substream b)) (Ig_ r) (anti_ r) (inc_prec_ r)).
Proof.
  intros [R1 R2 _ _] Hb. unfold reset_next_substream. rewrite Hb. unfold inj6 at 1 2. cbn [fst snd].
  unfold A1p76, A2p76, m1, m2.
  rewrite (jump1 76 _ _ ltac:(lia) (proj1 A1_jumps) R1), (jump2 76 _ _ ltac:(lia) (proj1 A2_jumps) R2).
  cbn [rbind]. rewrite (steps_pair substream). unfold inj6. cbn [fst snd].
  change (2 ^ N.of_nat 76)%N with substream. reflexivity.
Qed.

(** ** Jumps of any length *)

(** Steps forward and steps back that [advance_state (e, c)] makes. *)
Definition forward (e c : Z) : N := (if (0 <? e)%Z then 2 ^ Z.to_N e else 0) + Z.to_N c.
Definition backward (e c : Z) : N := (if (e <? 0)%Z then 2 ^ Z.to_N (- e) else 0) + Z.to_N (- c).

Section jump.
Context (m : Z) (Hm : modulus m) (A I : zmat) (HA : small_mat A) (HI : residue_mat m I).
Context (HAI : mat_mat m A I = zid) (HIA : mat_mat m I A = zid).

(** The matrix for [e] on top of the one for [c]. *)
Lemma two_pow_times B e C s :
  base_mat m B -> 0 < e < 2 ^ 31 -> residue_mat m C -> residues m s ->
  exists D, (let! B := MatTwoPowModM (inj_mat B) (f64_of_Z m) e in MatMatModM B (inj_mat C) (f64_of_Z m)) =
    Ok (inj_mat D) /\ residue_mat m D /\
    mat_vec m D s = N.iter (2 ^ Z.to_N e) (mat_vec m B) (mat_vec m C s).
Proof.
  intros HB He HC Hs. rewrite MatTwoPowModM_ok by (done || lia). cbn [rbind].
  rewrite MatMatModM_ok; [|done|by apply (base_times m Hm); [apply (squared_base m Hm)|]].
  eexists. split; [done|]. split; [apply mat_mat_residues; unfold modulus in Hm; lia|].
  rewrite mat_mat_vec, squared_iter. do 2 f_equal. lia.
Qed.

Lemma pow_either fuel c s :
  Z.abs c < 2 ^ Z.of_nat fuel -> Z.abs c < 2 ^ 63 -> residues m s ->
  exists C, (if 0 <=? c then MatPowModM fuel (inj_mat A) (f64_of_Z m) c
             else let! c' := neg_long c in MatPowModM fuel (inj_mat I) (f64_of_Z m) c') = Ok (inj_mat C) /\ residue_mat m C /\
    N.iter (Z.to_N (- c)) (mat_vec m A) (mat_vec m C s) = N.iter (Z.to_N c) (mat_vec m A) s.
Proof.
  intros Hc Hc63 Hs. unfold neg_long. rewrite (proj2 (Z.eqb_neq c _)) by lia. cbn [rbind].
  destruct (Z.leb_spec 0 c).
  - destruct (MatPowModM_ok m Hm fuel c A) as (C & E & HC & HCs); [lia|by left|].
    exists C. split_and!; try done. rewrite HCs by done. by replace (Z.to_N (- c)) with 0%N by lia.
  - destruct (MatPowModM_ok m Hm fuel (- c) I) as (C & E & HC & HCs); [lia|by right|].
    exists C. split_and!; try done. rewrite HCs by done. replace (Z.to_N c) with 0%N by lia.
    by rewrite (iter_cancel m Hm A I).
Qed.

Lemma iter_swap n k (f : triple Z -> triple Z) s : N.iter n f (N.iter k f s) = N.iter k f (N.iter n f s).
Proof. rewrite <- !N.iter_add. f_equal. lia. Qed.

Lemma jump_vec_ok fuel e c s :
  Z.abs c < 2 ^ Z.of_nat fuel -> Z.abs c < 2 ^ 63 -> Z.abs e < 2 ^ 31 -> residues m s ->
  exists t, jump_vec fuel e c (inj_mat A) (inj_mat I) (f64_of_Z m) (map3 f64_of_Z s) = Ok (map3 f64_of_Z t) /\
    residues m t /\
    N.iter (backward e c) (mat_vec m A) t = N.iter (forward e c) (mat_vec m A) s.
Proof.
  intros Hc Hc63 He31 Hs. assert (Hm0 : 0 < m) by (unfold modulus in Hm; lia). unfold jump_vec.
  destruct (pow_either fuel c s Hc Hc63 Hs) as (C & -> & HC & Hpow). cbn [rbind].
  assert (HCs : residues m (mat_vec m C s)) by (by apply mat_vec_residues).
  assert (Hend : forall D, residue_mat m D ->
    N.iter (backward e c) (mat_vec m A) (mat_vec m D s) = N.iter (forward e c) (mat_vec m A) s ->
    exists t, MatVecModM (inj_mat D) (map3 f64_of_Z s) (f64_of_Z m) = Ok (map3 f64_of_Z t) /\
      residues m t /\ N.iter (backward e c) (mat_vec m A) t = N.iter (forward e c) (mat_vec m A) s).
  { intros D HD Hi. exists (mat_vec m D s). split; [|split; [by apply mat_vec_residues|done]].
    apply MatVecModM_ok; [done|]. by eapply fac_mat_residues. }
  unfold forward, backward in *.
  destruct (Z.ltb_spec 0 e) as [He|He]; [|destruct (Z.ltb_spec e 0) as [He'|He']].
  - destruct (two_pow_times A e C s) as (D & -> & HD & Ed); [by left|lia|done..|]. cbn [rbind]. apply Hend; [done|].
    rewrite Ed. rewrite (proj2 (Z.ltb_ge e 0)) by lia. rewrite N.add_0_l, iter_swap, Hpow.
    by rewrite <- N.iter_add.
  - unfold neg_long. rewrite (proj2 (Z.eqb_neq e _)) by lia. cbn [rbind].
    destruct (two_pow_times I (- e) C s) as (D & -> & HD & Ed); [by right|lia|done..|]. cbn [rbind].
    apply Hend; [done|]. rewrite Ed, N.add_0_l, N.add_comm, N.iter_add, (iter_cancel m Hm A I HAI) by done.
    done.
  - cbn [rbind]. apply Hend; [done|]. by rewrite !N.add_0_l.
Qed.
End jump.

(** Outside the range of the counter and of the negations. *)
Lemma jump_vec_overflow fuel e c v m A I s :
  modulus m -> small_mat A -> residue_mat m I -> mat_mat m A I = zid ->
  Z.abs c < 2 ^ Z.of_nat fuel -> residues m s -> in_i64 c -> in_i64 e ->
  ~ (- 2 ^ 63 < c /\ Z.abs e < 2 ^ 31) ->
  jump_vec fuel e c (inj_mat A) (inj_mat I) (f64_of_Z m) v = Fault Overflow.
Proof.
  intros Hm HA HI HAI Hf Hs Hc He Hout. unfold in_i64 in Hc, He. unfold jump_vec.
  destruct (decide (c = - 2 ^ 63)) as [->|Hc'].
  { by rewrite (proj2 (Z.leb_gt 0 (- 2 ^ 63))) by lia. }
  destruct (pow_either m Hm A I HA HI HAI fuel c s Hf ltac:(lia) Hs) as (C & -> & _). cbn [rbind].
  destruct (Z.ltb_spec 0 e); [|rewrite (proj2 (Z.ltb_lt e 0)) by lia].
  - by rewrite (MatTwoPowModM_big m Hm) by (first [by left|lia]).
  - unfold neg_long. destruct (Z.eqb_spec e (- 2 ^ 63)); [done|]. cbn [rbind].
    by rewrite (MatTwoPowModM_big m Hm) by (first [by right|lia]).
Qed.

(** [advance_state] steps forward, and back: as many steps on from the new
    state as from the old one lead to one state. *)
Lemma advance_state_ok fuel e c r s :
  Z.abs c < 2 ^ Z.of_nat fuel -> Z.abs c < 2 ^ 63 -> Z.abs e < 2 ^ 31 ->
  seeds_ok s -> Cg_ r = inj6 s ->
  exists t, advance_state fuel e c r = Ok (set_Cg (inj6 t) r) /\
    residues M1 (fst t) /\ residues M2 (snd t) /\
    steps (backward e c) t = steps (forward e c) s.
Proof.
  intros Hc Hc63 He [R1 R2 _ _] Hr. unfold advance_state. rewrite Hr.
  destruct (jump_vec_ok M1 M1_modulus zA1p0 zInvA1 A1_small InvA1_residues (proj1 A1_inverse) fuel e c (fst s) Hc Hc63 He R1)
    as (t1 & E1 & Rt1 & H1).
  destruct (jump_vec_ok M2 M2_modulus zA2p0 zInvA2 A2_small InvA2_residues (proj1 A2_inverse) fuel e c (snd s) Hc Hc63 He R2)
    as (t2 & E2 & Rt2 & H2).
  unfold inj6 at 1 2. cbn [fst snd]. unfold A1p0, A2p0, InvA1, InvA2, m1, m2. rewrite E1. cbn [rbind].
  rewrite E2. cbn [rbind]. exists (t1, t2). split_and!; [done..|].
  rewrite !steps_pair. cbn [fst snd]. rewrite !iter1, !iter2 in * by done.
  by rewrite H1, H2.
Qed.

Lemma steps_zero1 n : N.iter n step1 (0, 0, 0) = (0, 0, 0).
Proof. induction n as [|n IH] using N.peano_ind; [done|]. by rewrite N.iter_succ, IH. Qed.

Lemma steps_zero2 n : N.iter n step2 (0, 0, 0) = (0, 0, 0).
Proof. induction n as [|n IH] using N.peano_ind; [done|]. by rewrite N.iter_succ, IH. Qed.

(** Zero seeds stay zero, so what leads to good seeds is good. *)
Lemma seeds_ok_back n s :
  residues M1 (fst s) -> residues M2 (snd s) -> seeds_ok (steps n s) -> seeds_ok s.
Proof.
  intros R1 R2 [_ _ N1 N2]. rewrite steps_pair in N1, N2. cbn [fst snd] in *. constructor; [done|done| |].
  - intros E. apply N1. by rewrite E, steps_zero1.
  - intros E. apply N2. by rewrite E, steps_zero2.
Qed.

#[global] Opaque steps.
