(* ===== verification/RngTheorems.v ===== *)
(** * The random number generator: theorems

    The doubles of the generator carry out the recurrences exactly; streams
    and substreams start where the design says; what is drawn stays in range;
    and what the seeds and the constructors do.  A number drawn is an integer
    from 1 to [M1] times the double nearest to [1 / (M1 + 1)]; rounding never
    takes it to 0 or 1, nor a scaled number out of its range. *)

From stdpp Require Import base numbers list.
From Stdlib Require Import ZArith Lia ZifyBool SpecFloat.
From S2P Require Import Prelude.
From S2P Require Import Float64.
From S2P Require Import Array.
From S2P Require Import FloatInt.
From S2P Require Import Rng.
From S2P Require Import RngProps.
From S2P Require Import RngJump.

Open Scope Z_scope.

(** ** A product that is rounded *)

(** The product [x * N * 2^e] is rounded up by one part in 2^52 at most. *)
Lemma fmul_round x (N : positive) e :
  small_int x -> 2 ^ 52 <= Zpos N < 2 ^ 53 -> - 1000 < e < - 52 ->
  Z.log2 x + e <= - 3 ->
  exists m2 e2, fmul (f64_of_Z x) (S754_finite false N e) = S754_finite false m2 e2 /\
    valid (S754_finite false m2 e2) = true /\ e <= e2 < 0 /\ 2 ^ 52 <= Zpos m2 < 2 ^ 53 /\
    Zpos m2 * 2 ^ (e2 - e) * 2 ^ 52 <= x * Zpos N * (2 ^ 52 + 1).
Proof.
  intros Sx HN He Hx. rewrite f64_of_small by done. unfold fmul, SFmul. cbn [xorb].
  pose proof (small_log2 x Sx) as Lx. set (e0 := int_exp x + e). rewrite Pos2Z.inj_mul, int_mant_Z by done.
  set (m := x * 2 ^ (52 - Z.log2 x) * Zpos N).
  assert (Hp0 : 0 < 2 ^ (52 - Z.log2 x)) by (apply Z.pow_pos_nonneg; lia).
  assert (Em : m = x * Zpos N * 2 ^ (52 - Z.log2 x)) by (unfold m; lia).
  assert (HP : 0 < x * Zpos N) by (unfold small_int in Sx; nia).
  assert (HlN : Z.log2 (Zpos N) = 52) by (apply Z.log2_unique; lia).
  assert (HlP : Z.log2 x + 52 <= Z.log2 (x * Zpos N) <= Z.log2 x + 53).
  { pose proof (Z.log2_mul_below x (Zpos N) ltac:(unfold small_int in Sx; lia) ltac:(lia)).
    pose proof (Z.log2_mul_above x (Zpos N) ltac:(unfold small_int in Sx; lia) ltac:(lia)). lia. }
  assert (Hl : lead m e0 = Z.log2 (x * Zpos N) + 1 + e).
  { unfold lead. rewrite Em, Z.log2_mul_pow2 by lia. unfold e0, int_exp. lia. }
  set (P := x * Zpos N) in *. set (k := Z.log2 P - 52). set (E := k + e).
  assert (Hk : 0 <= k) by (unfold k; lia).
  assert (HE : fx (lead m e0) = E) by (rewrite Hl, fx_max; unfold E, k; lia).
  destruct (round_aux_bounds false m e0 loc_Exact) as (m2 & e2 & m' & -> & Hc & Hmax & HeE & Hm' & Hup);
    [nia|rewrite HE; unfold E, k, e0, int_exp; lia|lia|lia|].
  rewrite HE in *. exists m2, e2.
  assert (Hd : m / 2 ^ (E - e0) = P / 2 ^ k).
  { rewrite Em. replace (E - e0) with (k + (52 - Z.log2 x)) by (unfold E, e0, int_exp; lia).
    rewrite Z.pow_add_r by lia. apply Z.div_mul_cancel_r; [apply Z.pow_nonzero; lia|lia]. }
  assert (Hpk : 0 < 2 ^ k) by (apply Z.pow_pos_nonneg; lia).
  assert (HkP : 2 ^ k * 2 ^ 52 <= P < 2 ^ k * 2 ^ 53).
  { rewrite <- !Z.pow_add_r by lia. replace (k + 52) with (Z.log2 P) by (unfold k; lia).
    replace (k + 53) with (Z.succ (Z.log2 P)) by (unfold k; lia). apply Z.log2_spec. lia. }
  assert (Hq : 2 ^ 52 <= P / 2 ^ k < 2 ^ 53).
  { split; [apply Z.div_le_lower_bound; lia|apply Z.div_lt_upper_bound; lia]. }
  assert (Hm1 : P / 2 ^ k <= m' <= P / 2 ^ k + 1) by (rewrite <- Hd; destruct Hup as [->|[-> _]]; lia).
  assert (Hp2 : 0 < 2 ^ (e2 - E)) by (apply Z.pow_pos_nonneg; lia).
  assert (Hl2 : 52 <= Z.log2 (Zpos m2) <= 52).
  { rewrite fx_max in Hc. unfold lead in Hc. unfold E, k in *. lia. }
  assert (He2 : e2 < 0).
  { rewrite <- Hm' in Hm1.
    assert (e2 - E <= 1); [|unfold E, k in *; lia].
    destruct (Z.le_gt_cases (e2 - E) 1) as [|Hbig]; [done|exfalso].
    assert (2 ^ 2 <= 2 ^ (e2 - E)) by (apply Z.pow_le_mono_r; lia).
    assert (2 ^ 52 <= Zpos m2) by (apply Z.log2_le_pow2; lia). nia. }
  split_and!; [done|by apply valid_finite|unfold E in HeE; lia|done|apply Z.log2_le_pow2; lia|
    apply Z.log2_lt_pow2; lia|].
  replace (e2 - e) with (e2 - E + k) by (unfold E; lia). rewrite Z.pow_add_r by lia.
  rewrite Z.mul_assoc, Hm'. pose proof (Z.mul_div_le P (2 ^ k) Hpk). nia.
Qed.

(** So it stays below what exceeds it by more than that. *)
Lemma fmul_below x (N : positive) e B :
  small_int x -> 2 ^ 52 <= Zpos N < 2 ^ 53 -> - 1000 < e < - 52 ->
  Z.log2 x + e <= - 3 -> 0 < B -> x * Zpos N * (2 ^ 52 + 1) < B * 2 ^ (52 - e) ->
  exists t, truncate (fmul (f64_of_Z x) (S754_finite false N e)) = Some t /\ 0 <= t < B.
Proof.
  intros Sx HN He Hx HB Hlt.
  destruct (fmul_round x N e Sx HN He Hx) as (m2 & e2 & -> & _ & He2 & _ & Hm2).
  cbn [truncate cond_Zopp]. rewrite (proj2 (Z.leb_gt 0 e2)) by lia. eexists. split; [done|].
  assert (Hp : 0 < 2 ^ (- e2)) by (apply Z.pow_pos_nonneg; lia).
  split; [apply Z.div_pos; lia|]. apply Z.div_lt_upper_bound; [done|].
  assert (Hpe : 0 < 2 ^ (e2 - e)) by (apply Z.pow_pos_nonneg; lia).
  apply (Z.mul_lt_mono_pos_r (2 ^ (e2 - e) * 2 ^ 52)); [lia|].
  replace (2 ^ (- e2) * B * (2 ^ (e2 - e) * 2 ^ 52)) with (B * 2 ^ (52 - e)); [lia|].
  replace (52 - e) with (- e2 + ((e2 - e) + 52)) by lia. rewrite !Z.pow_add_r by lia. lia.
Qed.

(** ** The numbers of [U01] *)

(** What the two components make. *)
Definition mix (s : seeds) : Z :=
  let '((_, _, x), (_, _, y)) := s in if y <? x then x - y else x - y + M1.

Definition unit_number (s : seeds) : f64 := fmul (f64_of_Z (mix s)) norm.

Lemma mix_bounds s : seeds_ok s -> 1 <= mix s <= M1.
Proof.
  destruct s as [[[? ?] x] [[? ?] y]]. intros [(_ & _ & Hx) (_ & _ & Hy) _ _]. unfold mix, M1, M2 in *. cbn in *.
  destruct (Z.ltb_spec y x); lia.
Qed.

Lemma U01_ok r s :
  seeds_ok s -> Cg_ r = inj6 s ->
  U01 r = Ok (set_Cg (inj6 (step s)) r,
              if anti_ r then fsub f1 (unit_number (step s)) else unit_number (step s)).
Proof.
  intros Hs Hr. unfold U01. rewrite Hr. unfold unit_number.
  destruct s as [[[x0 x1] x2] [[y0 y1] y2]]. destruct Hs as [(H0 & H1 & H2) (H3 & H4 & H5) _ _].
  cbn [fst snd] in *. assert (HM : M1 = 4294967087 /\ M2 = 4294944443) by done.
  unfold inj6, step. cbn [fst snd map3 step1 step2]. unfold a12, a13n, a21, a23n, m1, m2.
  rewrite (recur_ok 1403580 x1 810728 x0 M1 M1_modulus) by lia.
  rewrite (recur_ok 527612 y2 1370589 y0 M2 M2_modulus) by lia. cbn [rbind].
  pose proof (Z.mod_pos_bound (1403580 * x1 - 810728 * x0) M1 ltac:(lia)) as Hp.
  pose proof (Z.mod_pos_bound (527612 * y2 - 1370589 * y0) M2 ltac:(lia)) as Hq.
  set (p1 := _ mod M1) in *. set (p2 := _ mod M2) in *.
  rewrite flt_Z by (unfold nat_int; lia). cbn [mix].
  rewrite fsub_exact by (unfold exact_int; lia).
  destruct (Z.ltb_spec p2 p1); [done|]. by rewrite fadd_exact by (unfold exact_int; lia).
Qed.

(** A double in (0, 1) that rounding keeps away from the next unit. *)
Record fraction (u : f64) (m : positive) (e : Z) : Prop := {
  fr_eq : u = S754_finite false m e;
  fr_valid : valid u = true;
  fr_mant : 2 ^ 52 <= Zpos m < 2 ^ 53;
  fr_exp : - 84 <= e < - 52;
  fr_below : Zpos m * (2 ^ 52 + 1) < 2 ^ (52 - e)
}.

Lemma norm_eq : norm = S754_finite false 4503599845474315 (-84).
Proof. vm_compute. reflexivity. Qed.

Lemma unit_number_fraction s : seeds_ok s -> exists m e, fraction (unit_number s) m e.
Proof.
  intros Hs. pose proof (mix_bounds s Hs) as Hd. unfold unit_number. set (d := mix s) in *.
  assert (HM : M1 = 4294967087) by done. rewrite norm_eq.
  assert (Sd : small_int d) by (unfold small_int; lia).
  assert (Hl : Z.log2 d < 32) by (apply Z.log2_lt_pow2; lia).
  destruct (fmul_round d 4503599845474315 (-84) Sd ltac:(lia) ltac:(lia) ltac:(lia))
    as (m & e & -> & Hv & He & Hm & Hup).
  assert (Hlt : Zpos m * (2 ^ 52 + 1) < 2 ^ (52 - e)).
  { assert (Hp : 0 < 2 ^ (e - -84)) by (apply Z.pow_pos_nonneg; lia).
    apply (Z.mul_lt_mono_pos_r (2 ^ (e - -84))); [done|].
    rewrite <- Z.pow_add_r by lia. replace (52 - e + (e - -84)) with 136 by lia. lia. }
  exists m, e. constructor; try done. split; [lia|].
  destruct (Z.lt_ge_cases e (- 52)) as [|Hge]; [done|exfalso].
  assert (2 ^ (52 - e) <= 2 ^ 104) by (apply Z.pow_le_mono_r; lia). lia.
Qed.

(** Between 0 and 1, neither of them. *)
Lemma fraction_range u m e : fraction u m e -> flt f0 u = true /\ flt u f1 = true.
Proof.
  intros [-> _ Hm He _]. split; [done|]. apply flt_rank. split_and!; [done..|].
  change f1 with (S754_finite false 4503599627370496 (-52)). cbn [rank lt3]. lia.
Qed.

(** A number below [n] that is drawn. *)
Lemma fraction_scaled u m e n :
  fraction u m e -> 1 <= n <= 2 ^ 49 ->
  exists t, truncate (fmul (f64_of_Z n) u) = Some t /\ 0 <= t < n.
Proof.
  intros [-> _ Hm He Hlt] Hn.
  assert (Sn : small_int n) by (unfold small_int; lia).
  assert (Hl : Z.log2 n <= 49) by (change 49 with (Z.log2 (2 ^ 49)); apply Z.log2_le_mono; lia).
  destruct (fmul_below n m e n Sn ltac:(lia) ltac:(lia) ltac:(lia) ltac:(lia)) as (t & E & Ht); [|by exists t].
  rewrite <- Z.mul_assoc. apply Z.mul_lt_mono_pos_l; lia.
Qed.

(** ** Integers *)

Definition plain (r : RNG) : Prop := anti_ r = false /\ inc_prec_ r = false.

Lemma rand_u01_ok r s :
  seeds_ok s -> Cg_ r = inj6 s -> plain r ->
  rand_u01 r = Ok (set_Cg (inj6 (step s)) r, unit_number (step s)).
Proof.
  intros Hs Hr [Ha Hi]. unfold rand_u01. rewrite Hi, (U01_ok r s Hs Hr), Ha. done.
Qed.

Lemma wrap_u64_i64 z : in_i64 z -> wrap_i64 (wrap_u64 z) = z.
Proof.
  unfold in_i64, wrap_i64, wrap_u64. intros Hz.
  rewrite Zplus_mod_idemp_l, Z.mod_small by lia. lia.
Qed.

Lemma rand_int_ok low high r s :
  seeds_ok s -> Cg_ r = inj6 s -> plain r -> in_i64 low -> in_i64 high -> 1 <= high - low + 1 <= 2 ^ 49 ->
  exists x, rand_int low high r = Ok (set_Cg (inj6 (step s)) r, x) /\ low <= x <= high.
Proof.
  intros Hs Hr Hp Hlow Hhigh Hn. unfold rand_int. rewrite (rand_u01_ok r s Hs Hr Hp). cbn [rbind].
  rewrite !wrap_i64_id by (unfold in_i64 in *; rewrite ?wrap_i64_id by (unfold in_i64; lia); lia).
  unfold wrap_u64 at 1. rewrite Z.mod_small by lia.
  destruct (unit_number_fraction (step s) (step_ok s Hs)) as (m & e & Hf).
  destruct (fraction_scaled _ m e (high - low + 1) Hf Hn) as (t & E & Ht).
  unfold to_ulong. rewrite E. rewrite (proj2 (Z.leb_le 0 t)), (proj2 (Z.ltb_lt t _)) by lia. cbn [andb rbind].
  exists (low + t). rewrite wrap_u64_i64 by (unfold in_i64 in *; lia). split; [done|lia].
Qed.

Lemma next_ok r s :
  seeds_ok s -> Cg_ r = inj6 s -> plain r ->
  exists x, next r = Ok (set_Cg (inj6 (step s)) r, x) /\ 0 <= x <= MAXINT.
Proof.
  intros Hs Hr Hp. apply rand_int_ok; try done; unfold in_i64, MAXINT; lia.
Qed.

Lemma uniform_int_ok k r s :
  seeds_ok s -> Cg_ r = inj6 s -> plain r -> 0 < k < 2 ^ 31 ->
  exists x, uniform_int k r = Ok (set_Cg (inj6 (step s)) r, x) /\ 0 <= x < k.
Proof.
  intros Hs Hr Hp Hk. destruct (next_ok r s Hs Hr Hp) as (x & E & Hx). unfold MAXINT in Hx.
  unfold uniform_int, uniform_positive_int. rewrite E. cbn [rbind].
  rewrite (wrap_i32_id x) by (unfold in_i32; lia).
  rewrite !wrap_u32_id by (unfold in_u32; lia). rewrite (proj2 (Z.eqb_neq k 0)) by lia.
  pose proof (Z.mod_pos_bound x k ltac:(lia)). rewrite wrap_i32_id by (unfold in_i32; lia). eauto.
Qed.

(** ** The numbers drawn *)

(** [n] numbers in a row. *)
Fixpoint draw (n : nat) (r : RNG) : result (RNG * list f64) :=
  match n with
  | O => Ok (r, [])
  | S n =>
      let! '(r, u) := rand_u01 r in
      let! '(r, us) := draw n r in
      Ok (r, u :: us)
  end.

Lemma draw_ok (n : nat) (r : RNG) (s : seeds)
  (Hs : seeds_ok s) (Hr : Cg_ r = inj6 s) (Hp : plain r) :
  exists us, draw n r = Ok (set_Cg (inj6 (steps (N.of_nat n) s)) r, us) /\ length us = n /\
    forall i u, us !! i = Some u ->
      u = unit_number (steps (N.of_nat (S i)) s) /\ flt f0 u = true /\ flt u f1 = true.
Proof.
  revert r s Hs Hr Hp. induction n as [|n IH]; intros r s Hs Hr Hp; cbn [draw].
  { exists []. rewrite steps_0. split_and!; [|done|done]. rewrite <- Hr. by destruct r. }
  rewrite (rand_u01_ok r s Hs Hr Hp). cbn [rbind].
  destruct (IH (set_Cg (inj6 (step s)) r) (step s) (step_ok s Hs) eq_refl Hp) as (us & -> & Hl & Hus).
  cbn [rbind]. exists (unit_number (step s) :: us).
  split_and!; [by rewrite steps_succ|by cbn; f_equal|].
  intros [|i] u; cbn [lookup list_lookup].
  - intros [= <-]. rewrite steps_succ, steps_0. split; [done|].
    destruct (unit_number_fraction (step s) (step_ok s Hs)) as (m & e & Hf). by eapply fraction_range.
  - intros Hi. rewrite steps_succ. by apply Hus.
Qed.

(** C12: a generator at good seeds draws, whatever the number of draws, exactly
    the sequence of the two integer recurrences: the doubles hold the state of
    the recurrences, no rounding and no undefined conversion ever happens in
    them, the [i]-th number is that state combined, and it lies strictly
    between 0 and 1. *)
Theorem rng_draws_recurrence (n : nat) (r : RNG) (s : seeds)
  (Hs : seeds_ok s) (Hr : Cg_ r = inj6 s) (Hp : plain r) :
  exists us, draw n r = Ok (set_Cg (inj6 (steps (N.of_nat n) s)) r, us) /\ length us = n /\
    forall i u, us !! i = Some u ->
      u = unit_number (steps (N.of_nat (S i)) s) /\ flt f0 u = true /\ flt u f1 = true.
Proof. by apply draw_ok. Qed.

Definition sample_seeds : seeds := ((1, 1, 1), (1, 1, 1)).
Definition sample_rng : RNG := mkRNG (inj6 sample_seeds) (inj6 sample_seeds) (inj6 sample_seeds) false false.

Lemma sample_seeds_ok : seeds_ok sample_seeds.
Proof. constructor; unfold M1, M2; cbn; (done || lia). Qed.

Lemma rng_draws_recurrence_witness :
  exists us, draw 5 sample_rng = Ok (set_Cg (inj6 (steps 5 sample_seeds)) sample_rng, us) /\ length us = 5%nat.
Proof.
  destruct (rng_draws_recurrence 5 sample_rng sample_seeds sample_seeds_ok eq_refl (conj eq_refl eq_refl))
    as (us & H1 & H2 & _). exists us. split; [exact H1|exact H2].
Defined.

(** The value that [RNGTest] of the source expects of the 10000th number for
    the raw seed 1. *)
Example rng_test_value :
  exists us r, draw (Z.to_nat 9999) sample_rng = Ok (r, us) /\
    (let! '(_, x) := uniform_positive_int r in Ok x) = Ok 1179983147.
Proof.
  destruct (draw_ok (Z.to_nat 9999) sample_rng sample_seeds sample_seeds_ok eq_refl (conj eq_refl eq_refl))
    as (us & E & _).
  eexists _, _. split; [exact E|]. vm_compute. reflexivity.
Qed.

(** ** Streams *)

(** [n] generators made one after another. *)
Fixpoint make_streams (n : nat) (ns : vec6) : result (list RNG * vec6) :=
  match n with
  | O => Ok ([], ns)
  | S n =>
      let! '(r, ns) := init ns in
      let! '(rs, ns) := make_streams n ns in
      Ok (r :: rs, ns)
  end.

Fixpoint next_substreams (n : nat) (r : RNG) : result RNG :=
  match n with
  | O => Ok r
  | S n => let! r := reset_next_substream r in next_substreams n r
  end.

Lemma next_substreams_ok n r b :
  seeds_ok b -> Bg_ r = inj6 b -> Cg_ r = inj6 b ->
  exists r', next_substreams n r = Ok r' /\ Ig_ r' = Ig_ r /\
    Bg_ r' = inj6 (steps (N.of_nat n * substream) b) /\ Cg_ r' = Bg_ r'.
Proof.
  revert r b. induction n as [|n IH]; intros r b Hb HB HC; cbn [next_substreams].
  { exists r. rewrite N.mul_0_l, steps_0. split_and!; congruence. }
  rewrite (reset_next_substream_ok r b Hb HB). cbn [rbind].
  set (c := steps substream b).
  destruct (IH (mkRNG (inj6 c) (inj6 c) (Ig_ r) (anti_ r) (inc_prec_ r)) c (steps_ok _ _ Hb) eq_refl eq_refl)
    as (r' & -> & HI & HB' & HC').
  exists r'. split_and!; [done|done| |done]. rewrite HB'. f_equal.
  unfold c. rewrite <- steps_add. f_equal. lia.
Qed.

(** C13: streams do not have to be stepped to be found: of the generators made
    one after another from the seed [s], the [i]-th starts where [i * 2^127]
    steps from [s] lead, and its [j]-th substream where [j * 2^76] steps more
    lead.  The matrices written out in the source are those powers of the
    matrix of one step. *)
Theorem rng_streams_are_spaced (n j : nat) (s : seeds) (Hs : seeds_ok s) :
  exists rs, make_streams n (inj6 s) = Ok (rs, inj6 (steps (N.of_nat n * stream) s)) /\ length rs = n /\
    forall i r, rs !! i = Some r ->
      let start := steps (N.of_nat i * stream) s in
      Ig_ r = inj6 start /\
      exists r', next_substreams j r = Ok r' /\ Ig_ r' = Ig_ r /\
        Cg_ r' = inj6 (steps (N.of_nat j * substream) start) /\ Cg_ r' = Bg_ r'.
Proof.
  revert s Hs. induction n as [|n IH]; intros s Hs; cbn [make_streams].
  { exists []. rewrite N.mul_0_l, steps_0. by split_and!. }
  rewrite (init_ok s Hs). cbn [rbind].
  destruct (IH (steps stream s) (steps_ok _ _ Hs)) as (rs & -> & Hl & Hrs). cbn [rbind].
  assert (Hadd : forall k, steps (N.of_nat k * stream) (steps stream s) = steps (N.of_nat (S k) * stream) s).
  { intros k. rewrite <- steps_add. f_equal. lia. }
  eexists. split; [by rewrite Hadd|]. split; [by cbn; f_equal|].
  intros [|i] r; cbn [lookup list_lookup].
  - intros [= <-]. cbn zeta. rewrite N.mul_0_l, steps_0. split; [done|].
    destruct (next_substreams_ok j (mkRNG (inj6 s) (inj6 s) (inj6 s) false false) s Hs eq_refl eq_refl)
      as (r' & E & HI & HB & HC). exists r'. split_and!; [done|done|congruence|done].
  - intros Hi. cbn zeta. rewrite <- Hadd. by apply Hrs.
Qed.

Lemma rng_streams_are_spaced_witness :
  exists rs, make_streams 3 default_seed = Ok (rs, inj6 (steps (3 * stream) ((12345, 12345, 12345), (12345, 12345, 12345)))) /\
    length rs = 3%nat.
Proof.
  destruct (rng_streams_are_spaced 3 2 ((12345, 12345, 12345), (12345, 12345, 12345))) as (rs & H1 & H2 & _).
  - constructor; unfold M1, M2; cbn; (done || lia).
  - exists rs. split; [exact H1|exact H2].
Defined.

(** C14: for every two [long]s, [advance_state (e, c)] is stepping: with [n]
    the number of steps its comment gives ([2^e + c], [-2^(-e) + c] or [c]),
    [n] split in the steps forward and those back, as many steps as go back
    lead from the new state to where the steps forward lead from the old one;
    the start of the stream and of the substream stay.  Only a [c] that has no
    negation, and an [e] of 2^31 or more either way, which the [int] counter of
    [MatTwoPowModM] cannot reach, overflow. *)
Theorem advance_state_steps (e c : Z) (r : RNG) (s : seeds)
  (Hc : in_i64 c) (He : in_i64 e) (Hs : seeds_ok s) (Hr : Cg_ r = inj6 s) :
  if decide (- 2 ^ 63 < c /\ Z.abs e < 2 ^ 31) then
    exists t, advance_state 64 e c r = Ok (set_Cg (inj6 t) r) /\ seeds_ok t /\
      steps (backward e c) t = steps (forward e c) s
  else advance_state 64 e c r = Fault Overflow.
Proof.
  assert (Hf : Z.abs c < 2 ^ Z.of_nat 64) by (unfold in_i64 in Hc; change (Z.of_nat 64) with 64; lia).
  destruct (decide _) as [[Hc63 He31]|Hout].
  - destruct (advance_state_ok 64 e c r s) as (t & E & R1 & R2 & Ht);
      [done|unfold in_i64 in Hc; lia|done..|].
    exists t. split; [done|]. split; [|done]. apply (seeds_ok_back (backward e c)); [done|done|].
    rewrite Ht. by apply steps_ok.
  - unfold advance_state, A1p0, InvA1, m1.
    rewrite (jump_vec_overflow 64 e c _ M1 zA1p0 zInvA1 (fst s)); [done|apply M1_modulus|apply A1_small|
      apply InvA1_residues|apply A1_inverse|done|apply Hs|done..].
Qed.

Lemma advance_state_steps_witness :
  (exists t, advance_state 64 5 (-3) sample_rng = Ok (set_Cg (inj6 t) sample_rng) /\
     steps 3 t = steps 32 sample_seeds) /\
  advance_state 64 (2 ^ 31) 0 sample_rng = Fault Overflow.
Proof.
  pose proof (advance_state_steps 5 (-3) sample_rng sample_seeds ltac:(split; lia) ltac:(split; lia)
    sample_seeds_ok eq_refl) as H1.
  pose proof (advance_state_steps (2 ^ 31) 0 sample_rng sample_seeds ltac:(split; lia) ltac:(split; lia)
    sample_seeds_ok eq_refl) as H2.
  rewrite decide_True in H1 by lia. rewrite decide_False in H2 by lia. split; [|exact H2].
  destruct H1 as (t & H1 & _ & H3). exists t. split; [exact H1|exact H3].
Defined.

(** C15: what is drawn stays in range, the rounded product included:
    [rand_int (low, high)] gives a number from [low] to [high], for up to 2^49
    of them, [next ()] one from 0 to [MAXINT], and [uniform (k)] one from 0 to
    [k - 1]; each draw is one step of the recurrences. *)
Theorem rand_int_in_range (low high k : Z) (r : RNG) (s : seeds)
  (Hs : seeds_ok s) (Hr : Cg_ r = inj6 s) (Hp : plain r)
  (Hlow : in_i64 low) (Hhigh : in_i64 high) (Hn : 1 <= high - low + 1 <= 2 ^ 49) (Hk : 0 < k < 2 ^ 31) :
  let r' := set_Cg (inj6 (step s)) r in
  (exists x, rand_int low high r = Ok (r', x) /\ low <= x <= high) /\
  (exists x, next r = Ok (r', x) /\ 0 <= x <= MAXINT) /\
  (exists x, uniform_int k r = Ok (r', x) /\ 0 <= x < k).
Proof.
  split_and!; [by apply rand_int_ok|by apply next_ok|by apply uniform_int_ok].
Qed.

Lemma rand_int_in_range_witness :
  (exists x, rand_int (-5) 5 sample_rng = Ok (set_Cg (inj6 (step sample_seeds)) sample_rng, x) /\ -5 <= x <= 5) /\
  (exists x, uniform_int 6 sample_rng = Ok (set_Cg (inj6 (step sample_seeds)) sample_rng, x) /\ 0 <= x < 6).
Proof.
  destruct (rand_int_in_range (-5) 5 6 sample_rng sample_seeds) as (H1 & _ & H3);
    [apply sample_seeds_ok|done|done|split; lia|split; lia|lia|lia|].
  split; [exact H1|exact H3].
Defined.

(** ** Seeds and constructors *)

Definition copies (x : Z) : seeds := ((x, x, x), (x, x, x)).

Lemma CheckSeed_copies x : 1 <= x < M2 -> CheckSeed (copies x) = 0.
Proof.
  intros Hx. assert (HM : M1 = 4294967087 /\ M2 = 4294944443) by done.
  unfold CheckSeed, copies. cbn zeta.
  assert (Hlow : forall m, x < m -> m < 2 ^ 53 -> fle (f64_of_Z m) (f64_of_Z x) = false).
  { intros m H1 H2. destruct (fle (f64_of_Z m) (f64_of_Z x)) eqn:E; [|done].
    apply fle_not_lt in E. rewrite FloatInt.flt_Z in E by (unfold FloatInt.nat_int; lia).
    apply Z.ltb_ge in E. lia. }
  unfold m1, m2. rewrite !Hlow by lia. cbn [orb]. by rewrite (proj2 (Z.eqb_neq x 0)) by lia.
Qed.

Lemma copies_ok x : 1 <= x < M2 -> seeds_ok (copies x).
Proof.
  intros Hx. assert (HM : M1 = 4294967087 /\ M2 = 4294944443) by done.
  constructor; unfold residues, nonzero3, copies; cbn; [lia|lia|intros [=]; lia|intros [=]; lia].
Qed.

Lemma seed_package_ok x w :
  1 <= x < M2 ->
  seed_package x w = Ok (mkRNG (inj6 (copies x)) (inj6 (copies x)) (inj6 (copies x)) false false,
                         mkWorld (inj6 (steps stream (copies x))) (heuristic_sequence w)).
Proof.
  intros Hx. assert (HM : M2 = 4294944443) by done. unfold seed_package, wrap_u64.
  rewrite Z.mod_small by lia. fold (copies x). unfold set_package_seed. rewrite CheckSeed_copies by done.
  cbn [Z.eqb rbind]. rewrite (init_ok (copies x) (copies_ok x Hx)). done.
Qed.

(** A raw seed from 1 to [MAXINT - 1] starts the stream that has it six
    times as its state; any other aborts the program.  A predefined seed is
    one of 64, each of which starts a stream; any other index aborts. *)
Theorem set_seed_accepts (tvs : list (Z * Z)) (sd : Z) (w : world) (Hsd : in_i32 sd) :
  (if decide (1 <= sd < MAXINT) then
     exists r w', set_seed_source tvs RAW_SEED_SOURCE sd w = Ok (r, w') /\ Cg_ r = inj6 (copies sd) /\ plain r
   else set_seed_source tvs RAW_SEED_SOURCE sd w = Fault Aborted) /\
  (if decide (0 <= sd < 64) then
     exists x r w', predef_seeds !! Z.to_nat sd = Some x /\ 1 <= x < M2 /\
       set_seed_source tvs PREDEF_SEED_SOURCE sd w = Ok (r, w') /\ Cg_ r = inj6 (copies x) /\ plain r
   else set_seed_source tvs PREDEF_SEED_SOURCE sd w = Fault Aborted).
Proof.
  assert (HM : MAXINT = 2147483647 /\ M2 = 4294944443) by done. unfold in_i32 in Hsd.
  assert (Hlong : forall x, 1 <= x < M2 -> exists r w', set_seed_long tvs x w = Ok (r, w') /\
    Cg_ r = inj6 (copies x) /\ plain r).
  { intros x Hx. eexists _, _. destruct tvs; cbn [set_seed_long];
      rewrite (proj2 (Z.eqb_neq x 0)), seed_package_ok by lia; by split_and!. }
  split.
  - unfold set_seed_source. destruct (decide (1 <= sd < MAXINT)) as [Hin|Hout].
    + rewrite (proj2 (Z.leb_gt sd 0)), wrap_u32_id by (unfold in_u32; lia).
      rewrite (proj2 (Z.leb_gt MAXINT sd)) by lia. apply Hlong. lia.
    + destruct (Z.leb_spec sd 0); [done|]. rewrite wrap_u32_id by (unfold in_u32; lia).
      by rewrite (proj2 (Z.leb_le MAXINT sd)) by lia.
  - unfold set_seed_source. destruct (decide (0 <= sd < 64)) as [Hin|Hout].
    + assert (Hl : forall i x, predef_seeds !! i = Some x -> 1 <= x < M2).
      { assert (HF : Forall (fun x => 1 <= x < M2) predef_seeds)
          by (apply (bool_decide_unpack _); vm_compute; exact I).
        intros i x Hi. rewrite Forall_forall in HF. eapply HF, list_elem_of_lookup_2, Hi. }
      destruct (lookup_lt_is_Some_2 predef_seeds (Z.to_nat sd)) as [x Hx].
      { change (length predef_seeds) with 64%nat. lia. }
      rewrite (proj2 (Z.ltb_ge sd 0)), (proj2 (Z.leb_gt 64 sd)) by lia. cbn [orb].
      unfold aget. rewrite (proj2 (Z.ltb_ge sd 0)), Hx by lia. cbn [rbind].
      destruct (Hlong x (Hl _ _ Hx)) as (r & w' & E & H1 & H2). exists x, r, w'. by split_and!; try eapply Hl.
    + destruct (Z.ltb_spec sd 0); [done|]. by rewrite (proj2 (Z.leb_le 64 sd)) by lia.
Qed.

Lemma set_seed_accepts_witness :
  (exists r w', set_seed_source [] RAW_SEED_SOURCE 1 (mkWorld default_seed 0) = Ok (r, w') /\ Cg_ r = inj6 sample_seeds) /\
  set_seed_source [] PREDEF_SEED_SOURCE 64 (mkWorld default_seed 0) = Fault Aborted.
Proof.
  destruct (set_seed_accepts [] 1 (mkWorld default_seed 0) ltac:(unfold in_i32; lia)) as [H1 _].
  destruct (set_seed_accepts [] 64 (mkWorld default_seed 0) ltac:(unfold in_i32; lia)) as [_ H2].
  rewrite decide_True in H1 by (unfold MAXINT; lia). rewrite decide_False in H2 by lia.
  split; [|exact H2]. destruct H1 as (r & w' & E & Hc & _). exists r, w'. split; [exact E|exact Hc].
Defined.

(** [RNG (seed)] calls [init ()] a second time: the generator starts at the
    second stream of the seed, which [RNG (source, seed)] does not skip. *)
Theorem rng_long_skips_a_stream (sd : Z) (w : world) (Hsd : 1 <= sd < M2) :
  exists r w', new_RNG_long [] sd w = Ok (r, w') /\ Cg_ r = inj6 (steps stream (copies sd)).
Proof.
  unfold new_RNG_long. cbn [set_seed_long]. rewrite (proj2 (Z.eqb_neq sd 0)), seed_package_ok by lia.
  cbn [rbind next_seed_]. pose proof (steps_ok stream _ (copies_ok sd Hsd)) as Hc.
  set (c := steps stream (copies sd)) in *. clearbody c. rewrite (init_ok c Hc). cbn [rbind].
  eexists _, _. split; [reflexivity|]. cbn [Cg_]. reflexivity.
Qed.

(** ** Names *)

Lemma copy_bytes_ok s buf :
  (length s <= length buf)%nat -> exists buf', copy_bytes s buf = Ok buf' /\ length buf' = length buf.
Proof.
  intros Hl. unfold copy_bytes.
  destruct (for_loop_spec (fun _ l => length l = length buf) 0 (Z.of_nat (length s))
    (fun i l => let! x := aget s i in aset l i x) buf) as (l & E & Hb); [lia|done| |by exists l].
  intros i l Hi Hlen. destruct (lookup_lt_is_Some_2 s (Z.to_nat i)) as [x Hx]; [lia|].
  unfold aget, aset. rewrite (proj2 (Z.ltb_ge i 0)), Hx by lia. cbn [rbind orb].
  rewrite (proj2 (Z.leb_gt (Z.of_nat (length l)) i)) by lia. eexists. split; [done|].
  by rewrite length_insert.
Qed.

(** The buffer of a name has 100 bytes: a name of 99 characters or fewer is
    stored, and for a longer one the constructor writes past its end. *)
Theorem long_name_overflows (name buf : list Z) (w : world) (s : seeds)
  (Hbuf : length buf = 100%nat) (Hw : next_seed_ w = inj6 s) (Hs : seeds_ok s) :
  if decide (length name <= 99)%nat
  then exists r buf' w', new_RNG name buf w = Ok (r, buf', w') /\ Cg_ r = inj6 s
  else new_RNG name buf w = Fault OutOfBounds.
Proof.
  unfold new_RNG, set_name. destruct (decide (length name <= 99)%nat).
  - rewrite (proj2 (Z.ltb_ge 99 (Z.of_nat (length name)))) by lia.
    destruct (copy_bytes_ok name buf) as (b & -> & Hl); [lia|]. cbn [rbind]. unfold aset.
    rewrite (proj2 (Z.ltb_ge (Z.of_nat (length name)) 0)), (proj2 (Z.leb_gt (Z.of_nat (length b)) _)) by lia.
    cbn [orb rbind]. rewrite Hw, (init_ok s Hs). cbn [rbind].
    eexists _, _, _. split; [reflexivity|]. cbn [Cg_]. reflexivity.
  - rewrite (proj2 (Z.ltb_lt 99 (Z.of_nat (length name)))) by lia.
    destruct (copy_bytes_ok (take 99 name) buf) as (b & -> & Hl); [rewrite length_take; lia|]. cbn [rbind].
    unfold aset. by rewrite Hl, Hbuf.
Qed.
