(* ===== verification/FloatBounds.v ===== *)
(** * Doubles as rational numbers: order and relative error

    [val] is the rational number a finite double stands for.  On the doubles
    the machine can hold, the comparisons are those of the rationals; an
    operation whose result is in the normal range is exact to one part in
    2^52; and subtraction is monotone. *)

From stdpp Require Import base numbers list.
From Stdlib Require Import ZArith Lia ZifyBool SpecFloat QArith Qpower Lqa.
From S2P Require Import Prelude.
From S2P Require Import Float64.
From S2P Require Import FloatInt.

Local Open Scope Z_scope.

(** ** Powers of two *)

Definition pow2 (e : Z) : Q := Qpower 2 e.

Lemma two_nonzero : ~ (2 == 0)%Q.
Proof. discriminate. Qed.

Lemma pow2_pos e : (0 < pow2 e)%Q.
Proof. apply Qpower_0_lt. reflexivity. Qed.

Lemma pow2_add a b : (pow2 (a + b) == pow2 a * pow2 b)%Q.
Proof. apply Qpower_plus, two_nonzero. Qed.

Lemma pow2_Z e : 0 <= e -> (pow2 e == inject_Z (2 ^ e))%Q.
Proof. intros He. unfold pow2. rewrite Zpower_Qpower by done. reflexivity. Qed.

Lemma pow2_0 : (pow2 0 == 1)%Q.
Proof. reflexivity. Qed.

Lemma pow2_neg e : (pow2 e * pow2 (- e) == 1)%Q.
Proof. rewrite <- pow2_add, Z.add_opp_diag_r. reflexivity. Qed.

Lemma pow2_mono a b : a <= b -> (pow2 a <= pow2 b)%Q.
Proof.
  intros Hab. replace b with (a + (b - a)) by lia. rewrite pow2_add, (pow2_Z (b - a)) by lia.
  assert (H1 : (1 <= inject_Z (2 ^ (b - a)))%Q).
  { change 1%Q with (inject_Z 1). rewrite <- Zle_Qle. pose proof (Z.pow_pos_nonneg 2 (b - a)). lia. }
  pose proof (pow2_pos a). nra.
Qed.

Lemma inj_pos a : 0 < a -> (0 < inject_Z a)%Q.
Proof. change 0%Q with (inject_Z 0). by rewrite <- Zlt_Qlt. Qed.

(** [m * 2^e], moved to a lower exponent. *)
Lemma scale_down m e k : k <= e -> (inject_Z m * pow2 e == inject_Z (m * 2 ^ (e - k)) * pow2 k)%Q.
Proof.
  intros Hk. rewrite inject_Z_mult, <- pow2_Z by lia. replace e with (e - k + k) at 1 by lia.
  rewrite pow2_add. ring.
Qed.

(** ** The value of a double *)

Definition val (x : f64) : Q :=
  match x with
  | S754_finite s m e => inject_Z (cond_Zopp s (Zpos m)) * pow2 e
  | _ => 0
  end.

(** A double that stands for a number, zero or above. *)
Definition finite_pos (x : f64) : Prop :=
  valid x = true /\ nonneg x = true /\ x <> S754_infinity false.

Lemma finite_pos_cases x :
  finite_pos x -> (exists s, x = S754_zero s) \/
  exists m e, x = S754_finite false m e /\ fx (lead (Zpos m) e) = e /\ e <= 971.
Proof.
  intros (Hv & Hn & Hi). destruct x as [s|[]| |[] m e]; try done; [by left; exists s|right].
  apply valid_finite in Hv. by exists m, e.
Qed.

Lemma finite_pos_num x : finite_pos x -> is_nan x = false.
Proof. intros (_ & H & _). by apply nonneg_not_nan. Qed.

Lemma val_nonneg x : nonneg x = true -> (0 <= val x)%Q.
Proof.
  destruct x as [s|[]| |[] m e]; try done. intros _. cbn [val cond_Zopp].
  pose proof (pow2_pos e). pose proof (inj_pos (Zpos m) ltac:(lia)). nra.
Qed.

(** A canonical mantissa has 53 digits above the least exponent. *)
Lemma canonical_bounds (m : positive) e :
  fx (lead (Zpos m) e) = e ->
  -1074 <= e /\ Zpos m < 2 ^ 53 /\ (-1074 < e -> 2 ^ 52 <= Zpos m).
Proof.
  intros Hc. rewrite fx_max in Hc. unfold lead in Hc.
  pose proof (Z.log2_nonneg (Zpos m)). split_and!; [lia|apply Z.log2_lt_pow2; lia|].
  intros He. apply Z.log2_le_pow2; lia.
Qed.

Lemma val_lt_exp (m1 m2 : positive) e1 e2 :
  fx (lead (Zpos m1) e1) = e1 -> fx (lead (Zpos m2) e2) = e2 -> e1 < e2 ->
  (inject_Z (Zpos m1) * pow2 e1 < inject_Z (Zpos m2) * pow2 e2)%Q.
Proof.
  intros (H1 & H2 & _)%canonical_bounds (_ & _ & H3)%canonical_bounds He.
  rewrite (scale_down (Zpos m2) e2 e1) by lia. apply Qmult_lt_r; [apply pow2_pos|].
  rewrite <- Zlt_Qlt. pose proof (Z.pow_le_mono_r 2 1 (e2 - e1)). nia.
Qed.

Lemma flt_val x y :
  finite_pos x -> finite_pos y -> flt x y = true <-> (val x < val y)%Q.
Proof.
  intros Hx Hy. rewrite flt_rank.
  pose proof (finite_pos_num x Hx). pose proof (finite_pos_num y Hy).
  assert (Hpos : forall m e, (0 < inject_Z (Zpos m) * pow2 e)%Q).
  { intros m e. apply Qmult_lt_0_compat; [by apply inj_pos|apply pow2_pos]. }
  destruct (finite_pos_cases x Hx) as [[s ->]|(m1 & e1 & -> & C1 & _)];
    destruct (finite_pos_cases y Hy) as [[s' ->]|(m2 & e2 & -> & C2 & _)]; cbn [rank lt3 val cond_Zopp].
  - split; [intros; lia|]. intros Hq. by apply Qlt_irrefl in Hq.
  - split; [intros _; apply Hpos|]. intros _. split_and!; (done || lia).
  - split; [intros; lia|]. intros Hq. specialize (Hpos m1 e1). lra.
  - split.
    + intros (_ & _ & Hl). assert (Hc : e1 < e2 \/ e1 = e2 /\ Zpos m1 < Zpos m2) by lia.
      destruct Hc as [Hlt|[<- Hlt]]; [by apply val_lt_exp|].
      apply Qmult_lt_r; [apply pow2_pos|]. by rewrite <- Zlt_Qlt.
    + intros Hq. split_and!; [done..|]. right. split; [done|].
      destruct (Z.lt_total e1 e2) as [|[->|Hgt]]; [by left| |].
      * right. split; [done|]. apply Qmult_lt_r in Hq; [|apply pow2_pos]. by rewrite <- Zlt_Qlt in Hq.
      * pose proof (val_lt_exp m2 m1 e2 e1 C2 C1 Hgt). lra.
Qed.

Lemma fle_val x y :
  finite_pos x -> finite_pos y -> fle x y = true <-> (val x <= val y)%Q.
Proof.
  intros Hx Hy. pose proof (finite_pos_num x Hx). pose proof (finite_pos_num y Hy). split.
  - intros Hl%fle_not_lt. apply Qnot_lt_le. rewrite <- flt_val by done. by rewrite Hl.
  - intros Hq. apply flt_false_le; [done..|]. destruct (flt y x) eqn:E; [|done].
    apply flt_val in E; [|done..]. lra.
Qed.

(** The two zeros apart, a value has one double. *)
Lemma val_inj x y :
  finite_pos x -> finite_pos y -> (val x == val y)%Q ->
  ((exists s, x = S754_zero s) /\ (exists s, y = S754_zero s)) \/ x = y.
Proof.
  intros Hx Hy E.
  assert (Hpos : forall m e, (0 < inject_Z (Zpos m) * pow2 e)%Q).
  { intros m e. apply Qmult_lt_0_compat; [by apply inj_pos|apply pow2_pos]. }
  destruct (finite_pos_cases x Hx) as [[s ->]|(m1 & e1 & -> & C1 & _)];
    destruct (finite_pos_cases y Hy) as [[s' ->]|(m2 & e2 & -> & C2 & _)]; cbn [val cond_Zopp] in E.
  - left. by split; eexists.
  - specialize (Hpos m2 e2). lra.
  - specialize (Hpos m1 e1). lra.
  - right. destruct (Z.lt_total e1 e2) as [Hlt|[<-|Hlt]].
    + pose proof (val_lt_exp m1 m2 e1 e2 C1 C2 Hlt). lra.
    + apply Qmult_inj_r in E; [|pose proof (pow2_pos e1); lra]. f_equal.
      unfold Qeq in E. cbn in E. lia.
    + pose proof (val_lt_exp m2 m1 e2 e1 C2 C1 Hlt). lra.
Qed.

(** ** Rounding *)

(** [x] is [X] to one part in 2^52. *)
Definition near (x X : Q) : Prop :=
  (X * (1 - (1 # 4503599627370496)) <= x <= X * (1 + (1 # 4503599627370496)))%Q.

(** The exact result [X] lies in the cell of the mantissa [m] at [e]. *)
Definition in_cell (m e : Z) (l : location) (X : Q) : Prop :=
  (inject_Z m * pow2 e <= X < inject_Z (m + 1) * pow2 e)%Q /\
  (l = loc_Exact -> (X == inject_Z m * pow2 e)%Q).

Lemma div_pow_cell m e E X :
  e <= E -> (inject_Z m * pow2 e <= X < inject_Z (m + 1) * pow2 e)%Q ->
  (inject_Z (m / 2 ^ (E - e)) * pow2 E <= X < inject_Z (m / 2 ^ (E - e) + 1) * pow2 E)%Q.
Proof.
  intros He [H1 H2]. assert (Hp : 0 < 2 ^ (E - e)) by (apply Z.pow_pos_nonneg; lia).
  pose proof (Z.div_mod m (2 ^ (E - e)) ltac:(lia)) as Ed. pose proof (Z.mod_pos_bound m _ Hp).
  rewrite !(scale_down _ E e) by done. pose proof (pow2_pos e). split.
  - eapply Qle_trans; [|exact H1]. apply Qmult_le_r; [done|]. rewrite <- Zle_Qle. lia.
  - eapply Qlt_le_trans; [exact H2|]. apply Qmult_le_r; [done|]. rewrite <- Zle_Qle. lia.
Qed.

(** Rounding in the normal range, or of a mantissa that is already in place. *)
Lemma round_aux_near m e l X :
  1 <= m -> e <= fx (lead m e) -> -1074 < lead m e -> lead m e < 1000 -> in_cell m e l X ->
  -1021 <= lead m e \/ (e = fx (lead m e) /\ l = loc_Exact) ->
  let r := binary_round_aux prec64 emax64 false m e l in
  finite_pos r /\ near (val r) X.
Proof.
  intros Hm He Hlo Hhi [Hc Hl] Hn.
  destruct (round_aux_bounds false m e l Hm He Hlo Hhi) as (m2 & e2 & m' & -> & Hcan & Hmax & HE & Hm' & Hup).
  cbn zeta. set (E := fx (lead m e)) in *. split.
  { split_and!; [by apply valid_finite|done|done]. }
  assert (Hv : (val (S754_finite false m2 e2) == inject_Z m' * pow2 E)%Q).
  { cbn [val cond_Zopp]. rewrite (scale_down _ e2 E) by done. by rewrite Hm'. }
  unfold near. rewrite Hv. set (q := m / 2 ^ (E - e)) in *.
  pose proof (div_pow_cell m e E X He Hc) as [C1 C2]. fold q in C1, C2.
  rewrite inject_Z_plus in C2. change (inject_Z 1) with 1%Q in C2. pose proof (pow2_pos E) as PE.
  destruct Hn as [Hn|[HeE Hex]].
  - assert (Hq : 2 ^ 52 <= q).
    { unfold E, lead in HE. apply Z.div_le_lower_bound; [apply Z.pow_pos_nonneg; unfold E; lia|].
      rewrite <- Z.pow_add_r by (unfold E in *; lia).
      transitivity (2 ^ Z.log2 m); [|by apply Z.log2_spec; lia].
      apply Z.pow_le_mono_r; [lia|]. unfold E. rewrite fx_max in *. unfold lead in *. lia. }
    assert (HqQ : (4503599627370496 <= inject_Z q)%Q).
    { change 4503599627370496%Q with (inject_Z (2 ^ 52)). by rewrite <- Zle_Qle. }
    set (p := pow2 E) in *. set (a := inject_Z q) in *.
    assert (Hp : (p <= X * (1 # 4503599627370496))%Q).
    { assert (4503599627370496 * p <= a * p)%Q by (apply Qmult_le_r; done).
      lra. }
    assert (Hmq : (a * p <= inject_Z m' * p <= (a + 1) * p)%Q).
    { destruct Hup as [->|[-> _]]; [fold a; nra|]. rewrite inject_Z_plus. fold a. change (inject_Z 1) with 1%Q. nra. }
    lra.
  - assert (Hmm : m' = m).
    { unfold q in Hup. rewrite <- HeE, Z.sub_diag, Z.pow_0_r, Z.div_1_r in Hup.
      destruct Hup as [|[_ Hup]]; [done|]. rewrite decide_True in Hup by done.
      rewrite Hex in Hup. by destruct Hup. }
    rewrite Hmm, <- HeE, <- (Hl Hex). pose proof (Hl Hex) as HX.
    assert (0 <= X)%Q.
    { rewrite HX. pose proof (pow2_pos e). pose proof (inj_pos m ltac:(lia)). nra. }
    lra.
Qed.

(** The exact sum or difference of two doubles, rounded. *)
Lemma round_near (S : positive) ez :
  -1074 <= ez -> lead (Zpos S) ez < 1000 ->
  let r := binary_round prec64 emax64 false S ez in
  finite_pos r /\ near (val r) (inject_Z (Zpos S) * pow2 ez).
Proof.
  intros Hez Hhi. assert (HD : -1074 < lead (Zpos S) ez) by (unfold lead; pose proof (Z.log2_nonneg (Zpos S)); lia).
  cbn zeta. unfold binary_round. rewrite digits_log2.
  change (fexp prec64 emax64 (Z.log2 (Zpos S) + 1 + ez)) with (fx (lead (Zpos S) ez)).
  set (E := fx (lead (Zpos S) ez)).
  destruct (shl_align S ez E) as [m1 e1] eqn:Ea.
  apply shl_align_spec in Ea as [He1 Hm1];
    [|unfold shl_align in Ea; destruct (E - ez) eqn:?; simplify_eq; lia].
  assert (HD1 : lead (Zpos m1) e1 = lead (Zpos S) ez).
  { rewrite Hm1. replace e1 with (ez - (ez - e1)) at 2 by lia. apply lead_scale; lia. }
  assert (HX : (inject_Z (Zpos S) * pow2 ez == inject_Z (Zpos m1) * pow2 e1)%Q).
  { rewrite (scale_down _ ez e1), Hm1 by lia. reflexivity. }
  apply round_aux_near; rewrite ?HD1; fold E; try lia.
  - split; [|by intros _]. rewrite HX, inject_Z_plus. pose proof (pow2_pos e1). change (inject_Z 1) with 1%Q. nra.
  - destruct (decide (e1 = E)); [by right|left]. unfold E in *. rewrite fx_max in *. lia.
Qed.

Lemma near_refl X : (0 <= X)%Q -> near X X.
Proof. intros H. unfold near. lra. Qed.

#[global] Instance near_proper : Proper (Qeq ==> Qeq ==> iff) near.
Proof. intros x x' Hx X X' HX. unfold near. by rewrite Hx, HX. Qed.

Lemma pow2_lt_inv a b : (pow2 a < pow2 b)%Q -> a < b.
Proof.
  intros H. destruct (Z.lt_ge_cases a b) as [|Hge]; [done|]. apply pow2_mono in Hge. lra.
Qed.

Lemma lead_below m e k : 1 <= m -> (inject_Z m * pow2 e < pow2 k)%Q -> lead m e <= k.
Proof.
  intros Hm H. pose proof (Z.log2_nonneg m). unfold lead.
  enough (Z.log2 m + e < k) by lia. apply pow2_lt_inv. eapply Qle_lt_trans; [|exact H].
  rewrite pow2_add, (pow2_Z (Z.log2 m)) by lia. pose proof (pow2_pos e).
  apply Qmult_le_r; [done|]. rewrite <- Zle_Qle. apply Z.log2_spec. lia.
Qed.

Lemma lead_above m e k : 1 <= m -> (pow2 k <= inject_Z m * pow2 e)%Q -> k < lead m e.
Proof.
  intros Hm H. pose proof (Z.log2_nonneg m). unfold lead. apply pow2_lt_inv.
  eapply Qle_lt_trans; [exact H|]. replace (Z.log2 m + 1 + e) with (Z.succ (Z.log2 m) + e) by lia.
  rewrite pow2_add, (pow2_Z (Z.succ _)) by lia. apply Qmult_lt_r; [apply pow2_pos|].
  rewrite <- Zlt_Qlt. apply Z.log2_spec. lia.
Qed.

Lemma align_val (m : positive) e ez :
  ez <= e -> (inject_Z (Zpos (fst (shl_align m e ez))) * pow2 ez == inject_Z (Zpos m) * pow2 e)%Q.
Proof.
  intros He. destruct (shl_align m e ez) as [m1 e1] eqn:Ea. cbn [fst].
  apply shl_align_spec in Ea as [-> ->];
    [|unfold shl_align in Ea; destruct (ez - e) eqn:?; simplify_eq; lia].
  rewrite Z.min_r, <- scale_down by lia. reflexivity.
Qed.

Lemma fsub_near x y :
  finite_pos x -> finite_pos y -> (val y <= val x)%Q -> (val x < pow2 999)%Q ->
  finite_pos (fsub x y) /\ near (val (fsub x y)) (val x - val y).
Proof.
  intros Hx Hy Hle Hhi.
  destruct (finite_pos_cases x Hx) as [[s ->]|(m1 & e1 & -> & C1 & B1)];
    destruct (finite_pos_cases y Hy) as [[s' ->]|(m2 & e2 & -> & C2 & B2)].
  - split; [by destruct s, s'|]. destruct s, s'; apply near_refl; lra.
  - cbn [val cond_Zopp] in Hle. pose proof (pow2_pos e2). pose proof (inj_pos (Zpos m2) ltac:(lia)). nra.
  - split; [done|]. change (fsub (S754_finite false m1 e1) (S754_zero s')) with (S754_finite false m1 e1).
    assert (E : (val (S754_finite false m1 e1) - val (S754_zero s') == val (S754_finite false m1 e1))%Q) by (cbn [val]; ring).
    rewrite E. apply near_refl, val_nonneg. done.
  - unfold fsub, SFsub. set (ez := Z.min e1 e2).
    pose proof (canonical_bounds _ _ C1) as (L1 & _). pose proof (canonical_bounds _ _ C2) as (L2 & _).
    pose proof (align_val m1 e1 ez ltac:(lia)) as A1. pose proof (align_val m2 e2 ez ltac:(lia)) as A2.
    cbn [val cond_Zopp] in *. set (a := fst (shl_align m1 e1 ez)) in *. set (b := fst (shl_align m2 e2 ez)) in *.
    assert (EX : (inject_Z (Zpos m1) * pow2 e1 - inject_Z (Zpos m2) * pow2 e2 == inject_Z (Zpos a - Zpos b) * pow2 ez)%Q).
    { rewrite <- A1, <- A2. unfold Z.sub. rewrite inject_Z_plus, inject_Z_opp. ring. }
    pose proof (pow2_pos ez) as Pz. rewrite EX.
    assert (Hd : 0 <= Zpos a - Zpos b).
    { rewrite Zle_Qle. apply (Qmult_le_r _ _ _ Pz). change (inject_Z 0) with 0%Q. rewrite <- EX. lra. }
    destruct (Zpos a - Zpos b) as [|S|S] eqn:ES; [|cbn [binary_normalize]|lia].
    + split; [done|]. cbn [binary_normalize val]. unfold near. change (inject_Z 0) with 0%Q. lra.
    + apply round_near; [lia|]. enough (lead (Zpos S) ez <= 999) by lia. apply lead_below; [lia|].
      rewrite <- EX. pose proof (pow2_pos e2). pose proof (inj_pos (Zpos m2) ltac:(lia)). nra.
Qed.

Lemma fadd_near x y :
  finite_pos x -> finite_pos y -> (val x + val y < pow2 999)%Q ->
  finite_pos (fadd x y) /\ near (val (fadd x y)) (val x + val y).
Proof.
  intros Hx Hy Hhi.
  destruct (finite_pos_cases x Hx) as [[s ->]|(m1 & e1 & -> & C1 & B1)];
    destruct (finite_pos_cases y Hy) as [[s' ->]|(m2 & e2 & -> & C2 & B2)].
  - split; [by destruct s, s'|]. destruct s, s'; apply near_refl; by vm_compute.
  - split; [done|]. change (fadd (S754_zero s) (S754_finite false m2 e2)) with (S754_finite false m2 e2).
    assert (E : (val (S754_zero s) + val (S754_finite false m2 e2) == val (S754_finite false m2 e2))%Q) by (cbn [val]; ring).
    rewrite E. apply near_refl, val_nonneg. done.
  - split; [done|]. change (fadd (S754_finite false m1 e1) (S754_zero s')) with (S754_finite false m1 e1).
    assert (E : (val (S754_finite false m1 e1) + val (S754_zero s') == val (S754_finite false m1 e1))%Q) by (cbn [val]; ring).
    rewrite E. apply near_refl, val_nonneg. done.
  - unfold fadd, SFadd. set (ez := Z.min e1 e2).
    pose proof (canonical_bounds _ _ C1) as (L1 & _). pose proof (canonical_bounds _ _ C2) as (L2 & _).
    pose proof (align_val m1 e1 ez ltac:(lia)) as A1. pose proof (align_val m2 e2 ez ltac:(lia)) as A2.
    cbn [val cond_Zopp] in *. set (a := fst (shl_align m1 e1 ez)) in *. set (b := fst (shl_align m2 e2 ez)) in *.
    change (Zpos a + Zpos b) with (Zpos (a + b)).
    assert (EX : (inject_Z (Zpos m1) * pow2 e1 + inject_Z (Zpos m2) * pow2 e2 == inject_Z (Zpos (a + b)) * pow2 ez)%Q).
    { rewrite <- A1, <- A2, Pos2Z.inj_add, inject_Z_plus. ring. }
    rewrite EX. cbn [binary_normalize]. apply round_near; [lia|].
    enough (lead (Zpos (a + b)) ez <= 999) by lia. apply lead_below; [lia|]. by rewrite <- EX.
Qed.

(** Products and quotients whose exact value is in the normal range. *)
Lemma fmul_near x y :
  finite_pos x -> finite_pos y ->
  (pow2 (-1000) <= val x * val y)%Q -> (val x * val y < pow2 999)%Q ->
  finite_pos (fmul x y) /\ near (val (fmul x y)) (val x * val y).
Proof.
  intros Hx Hy Hlo Hhi. pose proof (pow2_pos (-1000)).
  destruct (finite_pos_cases x Hx) as [[s ->]|(m1 & e1 & -> & C1 & B1)]; [cbn [val] in Hlo; lra|].
  destruct (finite_pos_cases y Hy) as [[s' ->]|(m2 & e2 & -> & C2 & B2)]; [cbn [val] in Hlo; lra|].
  cbn [val cond_Zopp] in *. unfold fmul, SFmul. cbn [xorb]. rewrite Pos2Z.inj_mul.
  assert (EX : (inject_Z (Zpos m1) * pow2 e1 * (inject_Z (Zpos m2) * pow2 e2) ==
    inject_Z (Zpos m1 * Zpos m2) * pow2 (e1 + e2))%Q) by (rewrite inject_Z_mult, pow2_add; ring).
  assert (L : -1000 < lead (Zpos m1 * Zpos m2) (e1 + e2) <= 999).
  { split; [apply lead_above|apply lead_below]; try lia; by rewrite <- EX. }
  destruct (canonical_bounds _ _ C1) as (L1 & _ & N1). destruct (canonical_bounds _ _ C2) as (L2 & _ & N2).
  apply round_aux_near; [lia| |lia|lia| |lia].
  - rewrite fx_max. unfold lead in *.
    destruct (decide (e1 = -1074)), (decide (e2 = -1074)); [lia|..].
    + assert (52 <= Z.log2 (Zpos m1 * Zpos m2)); [apply Z.log2_le_pow2; lia|lia].
    + assert (52 <= Z.log2 (Zpos m1 * Zpos m2)); [apply Z.log2_le_pow2; lia|lia].
    + assert (52 <= Z.log2 (Zpos m1 * Zpos m2)); [apply Z.log2_le_pow2; lia|lia].
  - split; [|by intros _]. rewrite EX, inject_Z_plus. change (inject_Z 1) with 1%Q.
    pose proof (pow2_pos (e1 + e2)). nra.
Qed.

(** ** What the last digits dropped say

    The record of a shift and the exact value: below, at or above the half of
    the last place. *)

Definition at_loc (l : location) (f : Q) : Prop :=
  match l with
  | loc_Exact => (f == 0)%Q
  | loc_Inexact Lt => (0 < f < 1 # 2)%Q
  | loc_Inexact Eq => (f == 1 # 2)%Q
  | loc_Inexact Gt => ((1 # 2) < f < 1)%Q
  end.

Lemma at_loc_range l f : at_loc l f -> (0 <= f < 1)%Q.
Proof. destruct l as [|[]]; cbn; lra. Qed.

Definition located (mrs : shr_record) (e : Z) (X : Q) : Prop :=
  0 <= shr_m mrs /\
  exists f, (X == (inject_Z (shr_m mrs) + f) * pow2 e)%Q /\ at_loc (loc_of_shr_record mrs) f.

Lemma located_shr_1 mrs e X : located mrs e X -> located (shr_1 mrs) (e + 1) X.
Proof.
  intros (Hm & f & HX & Hf). pose proof (shr_1_m mrs Hm) as E1.
  split; [rewrite E1; apply Z.div_pos; lia|].
  set (b := shr_m mrs mod 2).
  exists ((inject_Z b + f) * (1 # 2))%Q. split.
  - rewrite HX, E1, pow2_add. change (pow2 1) with 2%Q.
    rewrite (Z.div_mod (shr_m mrs) 2) at 1 by lia. rewrite inject_Z_plus, inject_Z_mult.
    fold b. change (inject_Z 2) with 2%Q. ring.
  - assert (Hr : shr_r (shr_1 mrs) = (b =? 1) /\ shr_s (shr_1 mrs) = shr_r mrs || shr_s mrs).
    { unfold b. rewrite Zmod_odd. destruct mrs as [[|[p|p|]|p] r s]; cbn in Hm |- *; (lia || by destruct r, s). }
    assert (Hb : b = 0 \/ b = 1) by (unfold b; pose proof (Z.mod_pos_bound (shr_m mrs) 2); lia).
    destruct (shr_1 mrs) as [m1 r1 s1]. cbn [shr_r shr_s] in Hr. destruct Hr as [-> ->].
    destruct mrs as [m r s]. cbn [shr_r shr_s] in *.
    destruct Hb as [-> | ->]; destruct r, s; cbn [loc_of_shr_record at_loc orb Z.eqb Pos.eqb] in *;
      change (inject_Z 0) with 0%Q; change (inject_Z 1) with 1%Q; lra.
Qed.

Lemma located_iter n mrs e X : located mrs e X -> located (SpecFloat.iter_pos shr_1 n mrs) (e + Zpos n) X.
Proof.
  revert mrs. induction n as [|n IH] using Pos.peano_ind; intros mrs H; [by apply located_shr_1|].
  rewrite iter_pos_succ. replace (e + Zpos (Pos.succ n)) with (e + Zpos n + 1) by lia.
  by apply located_shr_1, IH.
Qed.

Lemma located_fexp m e l X f mrs e' :
  0 <= m -> (X == (inject_Z m + f) * pow2 e)%Q -> at_loc l f ->
  shr_fexp prec64 emax64 m e l = (mrs, e') -> located mrs e' X.
Proof.
  intros Hm HX Hf. unfold shr_fexp, shr.
  assert (Hl : located (shr_record_of_loc m l) e X).
  { split; [by destruct l as [|[]]|]. exists f. split; [by destruct l as [|[]]|]. by destruct l as [|[]]. }
  destruct (fexp _ _ _ - e); intros [= <- <-]; [done| |done]. by apply located_iter.
Qed.

(** [r] is [X] rounded to the nearest double: [q] is its mantissa truncated,
    [m'] rounded. *)
Definition rounded (r : f64) (X : Q) : Prop :=
  finite_pos r /\ exists q m' E, (val r == inject_Z m' * pow2 E)%Q /\
    (inject_Z q * pow2 E <= X < (inject_Z q + 1) * pow2 E)%Q /\
    0 <= q < 2 ^ 53 /\ -1074 <= E /\ (-1074 < E -> 2 ^ 52 <= q) /\
    (m' = q /\ (X <= (inject_Z q + (1 # 2)) * pow2 E)%Q \/
     m' = q + 1 /\ ((inject_Z q + (1 # 2)) * pow2 E <= X)%Q).

Lemma digits_bound m : 0 <= m -> m < 2 ^ Zdigits2 m /\ (1 <= m -> 2 ^ (Zdigits2 m - 1) <= m).
Proof.
  intros Hm. destruct m as [|p|p]; [done| |lia]. cbn [Zdigits2]. rewrite digits_log2.
  pose proof (Z.log2_spec (Zpos p) ltac:(lia)) as [H1 H2]. split; [by rewrite Z.add_1_r|].
  by replace (Z.log2 (Zpos p) + 1 - 1) with (Z.log2 (Zpos p)) by lia.
Qed.

Lemma round_aux_rounded m e l f X :
  0 <= m -> e <= fx (Zdigits2 m + e) -> Zdigits2 m + e < 1000 ->
  (X == (inject_Z m + f) * pow2 e)%Q -> at_loc l f ->
  rounded (binary_round_aux prec64 emax64 false m e l) X.
Proof.
  intros Hm He Hhi HX Hf. unfold binary_round_aux.
  destruct (shr_fexp _ _ m e l) as [mrs e'] eqn:E1.
  pose proof (located_fexp m e l X f mrs e' Hm HX Hf E1) as (Hq0 & g & HXg & Hg).
  apply shr_fexp_spec in E1 as [He' Hq]; [|done]. rewrite Z.max_r in He' by done. subst e'.
  set (E := fx (Zdigits2 m + e)) in *. set (q := shr_m mrs) in *.
  destruct (digits_bound m Hm) as [Hup Hlow].
  assert (HE : -1074 <= E) by (unfold E; rewrite fx_max; lia).
  assert (Hp : 0 < 2 ^ (E - e)) by (apply Z.pow_pos_nonneg; lia).
  assert (Hq53 : q < 2 ^ 53).
  { rewrite Hq. apply Z.div_lt_upper_bound; [lia|]. rewrite <- Z.pow_add_r by lia.
    eapply Z.lt_le_trans; [exact Hup|]. apply Z.pow_le_mono_r; [lia|]. unfold E. rewrite fx_max. lia. }
  assert (Hq52 : -1074 < E -> 2 ^ 52 <= q).
  { intros HE2. unfold E in HE2. rewrite fx_max in HE2.
    assert (1 <= m).
    { destruct (decide (m = 0)) as [Em|]; [|lia]. unfold E in He. rewrite fx_max in He.
      rewrite Em in HE2, He. cbn [Zdigits2] in *. lia. }
    rewrite Hq. apply Z.div_le_lower_bound; [lia|]. rewrite <- Z.pow_add_r by lia.
    transitivity (2 ^ (Zdigits2 m - 1)); [|by apply Hlow]. apply Z.pow_le_mono_r; [lia|].
    unfold E. rewrite fx_max. lia. }
  set (m' := round_nearest_even _ _).
  assert (Hm' : m' = q /\ (g <= 1 # 2)%Q \/ m' = q + 1 /\ ((1 # 2) <= g)%Q).
  { unfold m', round_nearest_even. destruct (loc_of_shr_record mrs) as [|[]]; cbn [at_loc] in Hg;
      [left; split; [done|lra]|destruct (Z.even _); [left|right]; (split; [done|lra])
      |left; split; [done|lra]|right; split; [done|lra]]. }
  pose proof (pow2_pos E) as PE.
  assert (Hcell : (inject_Z q * pow2 E <= X < (inject_Z q + 1) * pow2 E)%Q).
  { rewrite HXg. apply at_loc_range in Hg. nra. }
  assert (Hhalf : m' = q /\ (X <= (inject_Z q + (1 # 2)) * pow2 E)%Q \/
     m' = q + 1 /\ ((inject_Z q + (1 # 2)) * pow2 E <= X)%Q).
  { rewrite HXg. destruct Hm' as [[-> Hh]|[-> Hh]]; [left|right]; (split; [done|nra]). }
  destruct (shr_fexp _ _ m' _ loc_Exact) as [mrs2 e2] eqn:E2.
  match goal with |- rounded ?r _ =>
    enough (Hfin : finite_pos r /\ (val r == inject_Z m' * pow2 E)%Q) end.
  { destruct Hfin as [F V]. split; [exact F|]. exists q, m', E. split_and!; try done; tauto. }
  destruct (decide (1 <= q)) as [Hq1|Hq1].
  - assert (Hlead : fx (lead q E) = E).
    { assert (HD : lead q E = Zdigits2 m + e).
      { assert (1 <= m) by (destruct (decide (m = 0)) as [->|]; [rewrite Z.div_0_l in Hq by lia; lia|lia]).
        rewrite Zdigits2_lead, Hq by done. replace E with (e + (E - e)) at 2 by lia.
        apply lead_shift; [|done]. split; [lia|]. apply Z.log2_le_pow2; [lia|].
        pose proof (Z.mul_div_le m (2 ^ (E - e)) Hp). nia. }
      by rewrite HD. }
    destruct (round_again m' E mrs2 e2 q Hq1 Hlead) as (He2 & Hp2 & Hmm & Hc); [tauto|done|].
    destruct (shr_m mrs2) as [|m2|m2] eqn:Em2; [lia| |lia].
    assert (Hmax : e2 <= emax64 - prec64).
    { unfold emax64, prec64. unfold E in He2. rewrite fx_max in He2. lia. }
    rewrite (proj2 (Z.leb_le _ _) Hmax). split.
    + split_and!; [by apply valid_finite|done|done].
    + cbn [val cond_Zopp]. rewrite (scale_down _ e2 E) by lia. by rewrite Hmm.
  - assert (Hq0' : q = 0) by lia. assert (HE74 : E = -1074) by lia.
    assert (Hc : m' = 0 \/ m' = 1) by lia.
    apply shr_fexp_spec in E2 as [He2 Hs2]; [|lia].
    destruct Hc as [Hc|Hc]; rewrite Hc in *.
    + rewrite Z.div_0_l in Hs2 by (apply Z.pow_nonzero; lia || (rewrite He2; lia)). rewrite Hs2.
      split; [done|]. cbn [val]. change (inject_Z 0) with 0%Q. ring.
    + rewrite HE74 in *. change (Z.max (-1074) (fx (Zdigits2 1 + -1074))) with (-1074) in He2. subst e2.
      change (1 / 2 ^ (-1074 - -1074)) with 1 in Hs2. rewrite Hs2.
      change (-1074 <=? emax64 - prec64) with true. cbn iota. split; [by split_and!|].
      cbn [val cond_Zopp]. reflexivity.
Qed.

(** ** Rounding is monotone *)

Lemma cell_below a E b E' :
  -1074 <= E -> -1074 <= E' -> (-1074 < E -> 2 ^ 52 <= a) -> 0 <= b < 2 ^ 53 -> E' < E ->
  ((inject_Z b + 1) * pow2 E' <= inject_Z a * pow2 E)%Q.
Proof.
  intros HE HE' Ha Hb Hlt. specialize (Ha ltac:(lia)).
  rewrite (scale_down a E E') by lia. change 1%Q with (inject_Z 1). rewrite <- inject_Z_plus.
  apply Qmult_le_r; [apply pow2_pos|]. rewrite <- Zle_Qle.
  pose proof (Z.pow_le_mono_r 2 1 (E - E') ltac:(lia) ltac:(lia)). nia.
Qed.

Lemma rounded_mono r r' X X' : rounded r X -> rounded r' X' -> (X < X')%Q -> (val r <= val r')%Q.
Proof.
  intros (_ & q & m & E & -> & [C1 C2] & Hq & HE & Hq2 & Hm)
    (_ & q' & m' & E' & -> & [C1' C2'] & Hq' & HE' & Hq2' & Hm') Hlt.
  pose proof (pow2_pos E) as PE. pose proof (pow2_pos E') as PE'.
  assert (Hle : (inject_Z m <= inject_Z q + 1 /\ inject_Z q' <= inject_Z m')%Q).
  { split; [destruct Hm as [[-> _]|[-> _]]|destruct Hm' as [[-> _]|[-> _]]]; rewrite ?inject_Z_plus;
      change (inject_Z 1) with 1%Q; lra. }
  destruct (Z.lt_total E E') as [HEE|[<-|HEE]].
  - pose proof (cell_below q' E' q E HE' HE Hq2' Hq HEE). nra.
  - assert (Hqq : (inject_Z q < inject_Z q' + 1)%Q) by (apply (Qmult_lt_r _ _ _ PE); lra).
    change 1%Q with (inject_Z 1) in Hqq. rewrite <- inject_Z_plus, <- Zlt_Qlt in Hqq.
    apply Qmult_le_r; [done|]. rewrite <- Zle_Qle.
    destruct Hm as [[-> _]|[-> H1]], Hm' as [[-> H2]|[-> _]]; try lia.
    assert (Hne : q <> q') by (intros <-; lra). lia.
  - pose proof (cell_below q E q' E' HE HE' Hq2 Hq' HEE). lra.
Qed.

Lemma rounded_near r X : rounded r X -> (pow2 (-1000) <= X)%Q -> near (val r) X.
Proof.
  intros (_ & q & m & E & Hv & [C1 C2] & Hq & HE & Hq2 & Hm) HX. pose proof (pow2_pos E) as PE.
  assert (HE2 : -1074 < E).
  { destruct (decide (E = -1074)) as [->|]; [exfalso|lia].
    assert (Hb : ((inject_Z q + 1) * pow2 (-1074) <= inject_Z (2 ^ 53) * pow2 (-1074))%Q).
    { change 1%Q with (inject_Z 1). rewrite <- inject_Z_plus. apply Qmult_le_r; [done|]. rewrite <- Zle_Qle. lia. }
    rewrite <- pow2_Z, <- pow2_add in Hb by lia. pose proof (pow2_mono (53 + -1074) (-1000) ltac:(lia)). lra. }
  specialize (Hq2 HE2).
  assert (HqQ : (4503599627370496 <= inject_Z q)%Q).
  { change 4503599627370496%Q with (inject_Z (2 ^ 52)). by rewrite <- Zle_Qle. }
  assert (Hs : (4503599627370496 * pow2 E <= inject_Z q * pow2 E)%Q) by (by apply Qmult_le_r).
  unfold near. rewrite Hv. destruct Hm as [[-> _]|[-> _]]; [lra|].
  rewrite inject_Z_plus. change (inject_Z 1) with 1%Q. lra.
Qed.

(** ** Division *)

Lemma new_location_at n r :
  0 < n -> 0 <= r < n -> at_loc (new_location n r) (inject_Z r / inject_Z n).
Proof.
  intros Hn Hr. pose proof (inj_pos n Hn) as Pn. set (f := (inject_Z r / inject_Z n)%Q).
  assert (Hf : (f * inject_Z n == inject_Z r)%Q) by (unfold f; field; intros E; lra).
  assert (Hlt : forall a b : Z, a < b -> (inject_Z a < inject_Z b)%Q) by (intros a b H; by rewrite <- Zlt_Qlt).
  pose proof (Hlt r n ltac:(lia)) as H1.
  assert (Hcmp : forall c, match (2 * r ?= n) with
      | Lt => c = Lt -> r <> 0 -> (0 < f < 1 # 2)%Q
      | Eq => c = Eq -> (f == 1 # 2)%Q
      | Gt => c = Gt -> ((1 # 2) < f < 1)%Q end).
  { intros c. destruct (Z.compare_spec (2 * r) n) as [Ec|Ec|Ec]; intros _.
    - assert (E2 : (2 * inject_Z r == inject_Z n)%Q) by (change 2%Q with (inject_Z 2); rewrite <- inject_Z_mult, Ec; reflexivity).
      apply (Qmult_inj_r _ _ (inject_Z n)); [intros E; lra|lra].
    - intros H0. pose proof (Hlt _ _ Ec) as H2. rewrite inject_Z_mult in H2. change (inject_Z 2) with 2%Q in H2.
      pose proof (Hlt 0 r ltac:(lia)) as H3. change (inject_Z 0) with 0%Q in H3.
      split; apply (Qmult_lt_r _ _ (inject_Z n)); (done || lra).
    - pose proof (Hlt _ _ Ec) as H2. rewrite inject_Z_mult in H2. change (inject_Z 2) with 2%Q in H2.
      split; apply (Qmult_lt_r _ _ (inject_Z n)); (done || lra). }
  assert (H0 : r = 0 -> (f == 0)%Q) by (intros ->; unfold f; change (inject_Z 0) with 0%Q; field; intros E; lra).
  unfold new_location, new_location_even, new_location_odd.
  destruct (Z.even n) eqn:Ev, (Z.eqb_spec r 0) as [E0|E0]; try (by apply H0).
  - specialize (Hcmp (2 * r ?= n)). destruct (2 * r ?= n); cbn [at_loc]; auto.
  - assert (Hne : 2 * r <> n) by (intros <-; by rewrite Z.even_mul in Ev).
    destruct (Z.compare_spec (2 * r) n) as [Ec|Ec|Ec]; [done|..].
    + specialize (Hcmp Lt). destruct (Z.compare_spec (2 * r + 1) n); cbn [at_loc]; (lia || auto).
    + specialize (Hcmp Gt). destruct (Z.compare_spec (2 * r + 1) n); cbn [at_loc]; (lia || auto).
Qed.

Lemma rounded_zero s : rounded (S754_zero s) 0.
Proof.
  split; [done|]. exists 0, 0, (-1074). pose proof (pow2_pos (-1074)).
  change (inject_Z 0) with 0%Q. cbn [val]. split_and!; try lia; try lra. left. split; [done|lra].
Qed.

Lemma fdiv_rounded x y :
  finite_pos x -> finite_pos y -> (0 < val y)%Q -> (val x < pow2 990 * val y)%Q ->
  rounded (fdiv x y) (val x / val y).
Proof.
  intros Hx Hy H0 Hhi.
  destruct (finite_pos_cases y Hy) as [[s' ->]|(m2 & e2 & -> & C2 & _)]; [cbn [val] in H0; lra|].
  destruct (finite_pos_cases x Hx) as [[s ->]|(m1 & e1 & -> & C1 & _)].
  { destruct (rounded_zero (xorb s false)) as [F (q & m' & E & H)]. split; [exact F|].
    exists q, m', E. assert (EZ : (val (S754_zero s) / val (S754_finite false m2 e2) == 0)%Q).
    { cbn [val]. unfold Qdiv. ring. }
    rewrite EZ. exact H. }
  unfold fdiv, SFdiv, SFdiv_core_binary. set (d1 := Zdigits2 (Zpos m1)). set (d2 := Zdigits2 (Zpos m2)).
  change (fexp prec64 emax64 ?D) with (fx D). set (e := Z.min _ _). set (s := e1 - e2 - e).
  assert (Hs : 0 <= s) by (unfold s, e; lia).
  assert (EM : match s with Z0 => Zpos m1 | Zpos _ => Z.shiftl (Zpos m1) s | Zneg _ => 0 end = Zpos m1 * 2 ^ s).
  { destruct s; [by rewrite Z.mul_1_r|by rewrite Z.shiftl_mul_pow2|lia]. }
  rewrite EM. clear EM. set (M := Zpos m1 * 2 ^ s).
  assert (ED : Z.div_eucl M (Zpos m2) = (M / Zpos m2, M mod Zpos m2)).
  { unfold Z.div, Z.modulo. by destruct (Z.div_eucl _ _). }
  rewrite ED. cbn [xorb]. set (q := M / Zpos m2).
  pose proof (Z.mod_pos_bound M (Zpos m2) ltac:(lia)) as Hr.
  pose proof (Z.div_mod M (Zpos m2) ltac:(lia)) as Edm. fold q in Edm.
  assert (Hq : 0 <= q) by (apply Z.div_pos; unfold M; pose proof (Z.pow_nonneg 2 s); lia).
  cbn [val cond_Zopp] in *. pose proof (inj_pos (Zpos m2) ltac:(lia)) as P2.
  pose proof (pow2_pos e) as Pe. pose proof (pow2_pos e2) as Pe2.
  set (f := (inject_Z (M mod Zpos m2) / inject_Z (Zpos m2))%Q).
  assert (HX : (inject_Z (Zpos m1) * pow2 e1 / (inject_Z (Zpos m2) * pow2 e2) == (inject_Z q + f) * pow2 e)%Q).
  { assert (E1 : (inject_Z M == inject_Z q * inject_Z (Zpos m2) + inject_Z (M mod Zpos m2))%Q).
    { rewrite Edm at 1. rewrite inject_Z_plus, inject_Z_mult. ring. }
    assert (E2 : (inject_Z M * pow2 e * pow2 e2 == inject_Z (Zpos m1) * pow2 e1)%Q).
    { unfold M. rewrite inject_Z_mult, <- pow2_Z by done. rewrite <- !Qmult_assoc, <- !pow2_add.
      unfold s. replace (e1 - e2 - e + (e + e2)) with e1 by lia. reflexivity. }
    unfold f. rewrite <- E2, E1. field. split; intros E; lra. }
  assert (Hlow : Zdigits2 q + e >= d1 + e1 - (d2 + e2) \/ e <= -1074).
  { destruct (digits_bound (Zpos m1) ltac:(lia)) as [_ B1]. destruct (digits_bound (Zpos m2) ltac:(lia)) as [B2 _].
    fold d1 in B1. fold d2 in B2. specialize (B1 ltac:(lia)).
    destruct (decide (0 <= d1 - 1 + s - d2)) as [Hge|Hlt].
    - left. assert (Hqq : 2 ^ (d1 - 1 + s - d2) <= q).
      { apply Z.div_le_lower_bound; [lia|]. unfold M.
        assert (Hd1 : 0 <= d1 - 1 /\ 0 <= d2) by (unfold d1, d2; cbn [Zdigits2]; lia).
        transitivity (2 ^ d2 * 2 ^ (d1 - 1 + s - d2)); [apply Z.mul_le_mono_nonneg_r; [apply Z.pow_nonneg|]; lia|].
        rewrite <- Z.pow_add_r by lia.
        replace (d2 + (d1 - 1 + s - d2)) with (d1 - 1 + s) by lia. rewrite Z.pow_add_r by lia.
        apply Z.mul_le_mono_nonneg_r; [apply Z.pow_nonneg; lia|done]. }
      destruct (digits_bound q Hq) as [B3 _].
      assert (d1 - 1 + s - d2 < Zdigits2 q); [|unfold s in *; lia].
      apply (Z.pow_lt_mono_r_iff 2); [lia| |lia]. destruct q; cbn [Zdigits2]; lia.
    - right. unfold s, e in *. rewrite fx_max in *. lia. }
  apply (round_aux_rounded q e _ f); [done| | |done|by apply new_location_at].
  - unfold e in *. rewrite !fx_max in *. lia.
  - destruct (decide (q = 0)) as [Eq|Hne].
    + rewrite Eq in *. cbn [Zdigits2] in *. unfold e in *. rewrite !fx_max in *. lia.
    + assert (HQ : (inject_Z q * pow2 e < pow2 990)%Q).
      { apply (Qle_lt_trans _ (inject_Z (Zpos m1) * pow2 e1 / (inject_Z (Zpos m2) * pow2 e2))).
        - rewrite HX. pose proof (at_loc_range _ _ (new_location_at (Zpos m2) (M mod Zpos m2) ltac:(lia) Hr)) as Hf.
          fold f in Hf. nra.
        - by apply Qlt_shift_div_r. }
      apply lead_below in HQ; [|lia]. rewrite Zdigits2_lead by lia. lia.
Qed.

(** ** The integral part *)

Lemma truncate_val x :
  finite_pos x -> exists k, truncate x = Some k /\ 0 <= k /\ (inject_Z k <= val x < inject_Z k + 1)%Q.
Proof.
  intros Hx. destruct (finite_pos_cases x Hx) as [[s ->]|(m & e & -> & C & _)].
  - exists 0. split; [done|]. split; [done|]. cbn [val]. change (inject_Z 0) with 0%Q. lra.
  - cbn [truncate cond_Zopp val]. eexists. split; [done|]. destruct (Z.leb_spec 0 e) as [He|He].
    + split; [apply Z.mul_nonneg_nonneg; [lia|apply Z.pow_nonneg; lia]|]. rewrite inject_Z_mult, <- pow2_Z by done. lra.
    + assert (Hp : 0 < 2 ^ (- e)) by (apply Z.pow_pos_nonneg; lia).
      split; [apply Z.div_pos; lia|].
      pose proof (div_pow_cell (Zpos m) e 0 (inject_Z (Zpos m) * pow2 e) ltac:(lia)) as H.
      replace (0 - e) with (- e) in H by lia. rewrite pow2_0, inject_Z_plus in H. change (inject_Z 1) with 1%Q in H.
      rewrite inject_Z_plus in H. pose proof (pow2_pos e). change (inject_Z 1) with 1%Q in H. lra.
Qed.

Lemma truncate_mono x y k l :
  finite_pos x -> finite_pos y -> (val x <= val y)%Q -> truncate x = Some k -> truncate y = Some l -> k <= l.
Proof.
  intros Hx Hy Hle Ek El. destruct (truncate_val x Hx) as (k' & Ek' & _ & Hk).
  destruct (truncate_val y Hy) as (l' & El' & _ & Hl).
  rewrite Ek in Ek'. rewrite El in El'. injection Ek' as <-. injection El' as <-.
  assert (H : (inject_Z k < inject_Z (l + 1))%Q) by (rewrite inject_Z_plus; change (inject_Z 1) with 1%Q; lra).
  rewrite <- Zlt_Qlt in H. lia.
Qed.
