(* ===== verification/Calendar.v ===== *)
(** * The calendar queue (class CalendarScheduler, common/scheduler.cc)

    The default scheduler.  Events are hashed by their time into the days of
    a year, the buckets; each bucket is a circular doubly linked list through
    [next_] and [prev_], ordered by time.  The next event is searched day by
    day from the day of the last one.  The number of buckets follows the
    number of distinct times that wait, and the length of a day is estimated
    anew at each change and when the searches have become long.

    The fields of the class are grouped: [layout] is what [reinit] computes
    from the number and length of the days, [snoopy] are the statistics that
    adjust the length. *)

From stdpp Require Import base numbers list gmap.
From Stdlib Require Import ZArith Lia ZifyBool SpecFloat.
From S2P Require Import Prelude.
From S2P Require Import Store.
From S2P Require Import Float64.
From S2P Require Import Array.
From S2P Require Import Dlist.
From S2P Require Import EventQueue.
From S2P Require Import FloatInt.
From S2P Require Import Ring.

Local Open Scope Z_scope.

(** ** Of the C library *)

(** [fmod]: the exact remainder, with the sign of [x]. *)
Definition fmod (x y : f64) : f64 :=
  match x, y with
  | S754_nan, _ | _, S754_nan | S754_infinity _, _ | _, S754_zero _ => S754_nan
  | S754_zero _, _ | _, S754_infinity _ => x
  | S754_finite sx mx ex, S754_finite _ my ey =>
      let e := Z.min ex ey in
      binary_normalize prec64 emax64
        (cond_Zopp sx ((Zpos mx * 2 ^ (ex - e)) mod (Zpos my * 2 ^ (ey - e)))) e sx
  end.

Definition fsqrt : f64 -> f64 := SFsqrt prec64 emax64.

(** [(int)x], undefined when [x] is out of range. *)
Definition to_int (x : f64) : result Z :=
  match truncate x with
  | Some z => if (- 2 ^ 31 <=? z) && (z <? 2 ^ 31) then Ok z else Fault Overflow
  | None => Fault Overflow
  end.

(** ** The object *)

Record bucket := Bucket { list_ : option positive; count_ : Z }.

Record layout := Layout {
  width_ : f64;
  diff0_ : f64;
  diff1_ : f64;
  diff2_ : f64;
  nbuckets_ : Z;
  top_threshold_ : Z;
  bot_threshold_ : Z
}.

Record snoopy := Snoopy {
  min_bin_width_ : f64;
  adjust_new_width_interval_ : Z;   (** unsigned *)
  time_to_newwidth : Z;             (** unsigned *)
  head_search_ : Z;                 (** unsigned long *)
  insert_search_ : Z;               (** unsigned long *)
  round_num_ : Z;
  gap_num_ : Z;                     (** long *)
  last_time_ : f64;
  avg_gap_ : f64
}.

Record calq := CalQ {
  lay : layout;
  snoop : snoopy;
  stat_qsize_ : Z;
  qsize_ : Z;
  lastbucket_ : Z;
  buckets_ : list bucket;
  cal_clock_ : f64
}.

Definition with_snoop s q :=
  CalQ (lay q) s (stat_qsize_ q) (qsize_ q) (lastbucket_ q) (buckets_ q) (cal_clock_ q).
Definition with_place l c q :=
  CalQ (lay q) (snoop q) (stat_qsize_ q) (qsize_ q) l (buckets_ q) c.
Definition with_buckets stat size bs q :=
  CalQ (lay q) (snoop q) stat size (lastbucket_ q) bs (cal_clock_ q).

(** The statistics after a search, and after a change of the width. *)
Definition searched (h i : Z) s :=
  Snoopy (min_bin_width_ s) (adjust_new_width_interval_ s) (time_to_newwidth s)
    (wrap_u64 (head_search_ s + h)) (wrap_u64 (insert_search_ s + i)) (round_num_ s)
    (gap_num_ s) (last_time_ s) (avg_gap_ s).
Definition forget_searches (ttn : Z) s :=
  Snoopy (min_bin_width_ s) (adjust_new_width_interval_ s) ttn 0 0 0
    (gap_num_ s) (last_time_ s) (avg_gap_ s).
Definition with_time_to_newwidth (ttn : Z) s :=
  Snoopy (min_bin_width_ s) (adjust_new_width_interval_ s) ttn (head_search_ s) (insert_search_ s)
    (round_num_ s) (gap_num_ s) (last_time_ s) (avg_gap_ s).
Definition with_gap (round gap : Z) (last avg : f64) s :=
  Snoopy (min_bin_width_ s) (adjust_new_width_interval_ s) (time_to_newwidth s)
    (head_search_ s) (insert_search_ s) round gap last avg.

(** [CALENDAR_HASH (t)] *)
Definition cal_hash (t : f64) (l : layout) : result Z :=
  to_int (fmod (fdiv t (width_ l)) (f64_of_Z (nbuckets_ l))).

(** What [reinit (nbuck, bwidth, start)] makes of its arguments. *)
Definition layout_of (nbuck : Z) (bwidth : f64) : layout :=
  let d0 := fdiv (fmul bwidth (f64_of_Z nbuck)) (f64_of_Z 2) in
  Layout bwidth d0 (fadd d0 bwidth) (fmul bwidth (f64_of_Z nbuck)) nbuck
    (wrap_i32 (Z.shiftl nbuck 1)) (wrap_i32 (Z.shiftr nbuck 1 - 2)).

Definition reinit (nbuck : Z) (bwidth start : f64) (q : calq) : result calq :=
  let l := layout_of nbuck bwidth in
  let! last := cal_hash start l in
  Ok (CalQ l (snoop q) 0 0 last (replicate (Z.to_nat nbuck) (Bucket None 0)) (cal_clock_ q)).

(** The constructor, with what the Tcl variables hold and, where no interval
    is set, the values of the fields it does not initialise. *)
Definition new_calendar (min_width : f64) (interval : Z) (garbage : snoopy) : result calq :=
  let s :=
    if interval =? 0 then
      Snoopy min_width interval (time_to_newwidth garbage) (head_search_ garbage) (insert_search_ garbage)
        (round_num_ garbage) (gap_num_ garbage) (last_time_ garbage) (avg_gap_ garbage)
    else Snoopy min_width interval interval 0 0 0 0 (f64_of_Z (-2)) (f64_of_Z (-2)) in
  reinit 4 f1 f0 (CalQ (layout_of 4 f1) s 0 0 0 [] f0).

(** ** Insertion *)

#[export] Instance event_linked : Linked event (option positive * f64 * Z) := {
  next_of := ev_next; prev_of := ev_prev; data_of := ev_data;
  with_next := set_next; with_prev := set_prev;
}.

#[export] Instance event_linked_laws : LinkedLaws event (option positive * f64 * Z).
Proof. by split. Qed.

Definition bump (b : bucket) (l : option positive) (d : Z) : bucket := Bucket l (wrap_i32 (count_ b + d)).

(** [e] alone: [e->next_ = e->prev_ = e] *)
Definition link_alone (e : positive) (st : events) : result events :=
  let! st := store st (Some e) (set_prev (Some e)) in
  store st (Some e) (set_next (Some e)).

(** In front of the head [h] of a bucket, as [insert] does it. *)
Definition link_head (e h : positive) (st : events) : result events :=
  let! st := store st (Some e) (set_next (Some h)) in
  let! hv := load st (Some h) in
  let! st := store st (Some e) (set_prev (ev_prev hv)) in
  let! ev := load st (Some e) in
  let! st := store st (ev_prev ev) (set_next (Some e)) in
  store st (Some h) (set_prev (Some e)).

(** After [a]. *)
Definition link_after (e : positive) (a : option positive) (st : events) : result events :=
  let! av := load st a in
  let! st := store st (Some e) (set_next (ev_next av)) in
  let! st := store st (Some e) (set_prev a) in
  let! ev := load st (Some e) in
  let! st := store st (ev_next ev) (set_prev (Some e)) in
  store st a (set_next (Some e)).

(** Before [b], as [insert2] does it. *)
Definition link_before (e : positive) (b : option positive) (st : events) : result events :=
  let! st := store st (Some e) (set_next b) in
  let! bv := load st b in
  let! st := store st (Some e) (set_prev (ev_prev bv)) in
  let! st := store st b (set_prev (Some e)) in
  let! ev := load st (Some e) in
  store st (ev_prev ev) (set_next (Some e)).

(** [for (after = head->prev_; newtime < after->time_; after = after->prev_)],
    with the number of its rounds. *)
Fixpoint find_after (fuel : nat) (t : f64) (st : events) (a : option positive) (n : Z)
    : result (option positive * Z) :=
  let! v := load st a in
  if flt t (time_ v) then
    match fuel with O => NoFuel | S fuel => find_after fuel t st (ev_prev v) (n + 1) end
  else Ok (a, n).

(** [insert (e)] up to the test of the threshold. *)
Definition cal_place (fuel : nat) (e : positive) (st : events) (q : calq) : result (events * calq) :=
  let! ev := load st (Some e) in
  let newtime := time_ ev in
  let! i := cal_hash newtime (lay q) in
  let q := if flt newtime (cal_clock_ q) then with_place i newtime q else q in
  let! b := aget (buckets_ q) i in
  let size := wrap_i32 (qsize_ q + 1) in
  match list_ b with
  | None =>
      let! st := link_alone e st in
      let! bs := aset (buckets_ q) i (bump b (Some e) 1) in
      Ok (st, with_buckets (wrap_i32 (stat_qsize_ q + 1)) size bs q)
  | Some h =>
      let q := with_snoop (searched 0 1 (snoop q)) q in
      let! hv := load st (Some h) in
      if flt newtime (time_ hv) then
        let! st := link_head e h st in
        let! bs := aset (buckets_ q) i (bump b (Some e) 1) in
        Ok (st, with_buckets (wrap_i32 (stat_qsize_ q + 1)) size bs q)
      else
        let! '(after, n) := find_after fuel newtime st (ev_prev hv) 0 in
        let q := with_snoop (searched 0 n (snoop q)) q in
        let! st := link_after e after st in
        let! av := load st after in
        if flt (time_ av) newtime then
          let! bs := aset (buckets_ q) i (bump b (list_ b) 1) in
          Ok (st, with_buckets (wrap_i32 (stat_qsize_ q + 1)) size bs q)
        else Ok (st, with_buckets (stat_qsize_ q) size (buckets_ q) q)
  end.

(** ** Resizing *)

(** [for (before = head; e->time_ > before->time_; before = before->next_)] *)
Fixpoint find_before (fuel : nat) (t : f64) (st : events) (b : option positive) : result (option positive) :=
  let! v := load st b in
  if flt (time_ v) t then
    match fuel with O => NoFuel | S fuel => find_before fuel t st (ev_next v) end
  else Ok b.

(** [insert2 (e)] *)
Definition insert2 (fuel : nat) (e : positive) (st : events) (q : calq) : result (events * calq) :=
  let! ev := load st (Some e) in
  let! i := cal_hash (time_ ev) (lay q) in
  let! b := aget (buckets_ q) i in
  let size := wrap_i32 (qsize_ q + 1) in
  match list_ b with
  | None =>
      let! st := link_alone e st in
      let! bs := aset (buckets_ q) i (bump b (Some e) 1) in
      Ok (st, with_buckets (wrap_i32 (stat_qsize_ q + 1)) size bs q)
  | Some h =>
      let! hv := load st (Some h) in
      let! pv := load st (ev_prev hv) in
      let! before :=
        if flt (time_ pv) (time_ ev) then Ok (Some h) else find_before fuel (time_ ev) st (Some h) in
      let newhead := negb (flt (time_ pv) (time_ ev)) && bool_decide (before = Some h) in
      let! st := link_before e before st in
      let b := if newhead then Bucket (Some e) (count_ b) else b in
      let! ev := load st (Some e) in
      let! nv := load st (ev_next ev) in
      if negb (bool_decide (ev_next ev = Some e)) && negb (feq (time_ nv) (time_ ev)) then
        let! bs := aset (buckets_ q) i (bump b (list_ b) 1) in
        Ok (st, with_buckets (wrap_i32 (stat_qsize_ q + 1)) size bs q)
      else
        let! bs := aset (buckets_ q) i b in
        Ok (st, with_buckets (stat_qsize_ q) size bs q)
  end.

(** The [do ... while] of [resize] over one bucket, from its tail. *)
Fixpoint move_bucket (fuel loop : nat) (tail e : option positive) (st : events) (q : calq)
    : result (events * calq) :=
  match fuel with
  | O => NoFuel
  | S fuel =>
      let! ev := load st e in
      let ep := ev_prev ev in
      let! st := store st e (fun v => set_next None (set_prev None v)) in
      let! '(st, q) := match e with Some e => insert2 loop e st q | None => Fault NullDeref end in
      if bool_decide (ep = tail) then Ok (st, q) else move_bucket fuel loop tail ep st q
  end.

Fixpoint move_buckets (fuel : nat) (oldb : list bucket) (st : events) (q : calq)
    : result (events * calq) :=
  match oldb with
  | [] => Ok (st, q)
  | b :: oldb =>
      let! '(st, q) :=
        match list_ b with
        | None => Ok (st, q)
        | Some h =>
            let! hv := load st (Some h) in
            move_bucket fuel fuel (ev_prev hv) (ev_prev hv) st q
        end in
      move_buckets fuel oldb st q
  end.

(** The index of the first bucket with the greatest count. *)
Fixpoint fullest (bs : list bucket) (i : Z) (best : Z) (n : Z) : Z * Z :=
  match bs with
  | [] => (best, n)
  | b :: bs => if n <? count_ b then fullest bs (i + 1) i (count_ b) else fullest bs (i + 1) best n
  end.

(** [newwidth (newsize)] *)
Definition newwidth (newsize : Z) (st : events) (q : calq) : result (f64 * calq) :=
  let s := snoop q in
  let q := if adjust_new_width_interval_ s =? 0 then q
           else with_snoop (with_time_to_newwidth (adjust_new_width_interval_ s) s) q in
  if negb (adjust_new_width_interval_ s =? 0) && flt f0 (avg_gap_ s)
  then Ok (fmul (avg_gap_ s) (f64_of_Z 4), q)
  else
    let! b0 := aget (buckets_ q) 0 in
    let '(max_bucket, nsamples) := fullest (tail (buckets_ q)) 1 0 (count_ b0) in
    if nsamples <=? 4 then Ok (width_ (lay q), q)
    else
      let! b := aget (buckets_ q) max_bucket in
      let! hv := load st (list_ b) in
      let! tv := load st (ev_prev hv) in
      let nw := fsub (time_ tv) (time_ hv) in
      let! _ := assert_that (flt f0 nw) in
      Ok (fmul (fdiv nw (f64_of_Z (if newsize <? nsamples then newsize else nsamples))) (f64_of_Z 4), q).

(** The first half of [resize]: the new number and length of the days, if
    there is to be a change. *)
Definition new_days (newsize : Z) (st : events) (q : calq) : result (option (Z * f64) * calq) :=
  if newsize =? nbuckets_ (lay q) then
    let s := snoop q in
    let bw := if head_search_ s =? 0 then f1 else f64_of_Z (head_search_ s) in
    let bw := if insert_search_ s =? 0 then bw else fdiv bw (f64_of_Z (insert_search_ s)) in
    let bwidth := fmul (fsqrt bw) (width_ (lay q)) in
    if flt bwidth (min_bin_width_ s) then
      if 0 <? time_to_newwidth s then
        Ok (None, with_snoop (forget_searches (time_to_newwidth s - 1) s) q)
      else
        let! '(bwidth, q) := newwidth newsize st q in
        Ok (Some (newsize, bwidth), q)
    else Ok (Some (newsize, bwidth), q)
  else
    let! '(bwidth, q) := newwidth newsize st q in
    Ok (Some (if newsize <? 4 then 4 else newsize, bwidth), q).

(** The second half. *)
Definition rebuild (fuel : nat) (newsize : Z) (bwidth : f64) (st : events) (q : calq)
    : result (events * calq) :=
  let oldb := buckets_ q in
  let! q := reinit newsize bwidth (cal_clock_ q) q in
  let! '(st, q) := move_buckets fuel oldb st q in
  Ok (st, with_snoop (forget_searches (time_to_newwidth (snoop q)) (snoop q)) q).

(** [resize (newsize, cal_clock_)] *)
Definition resize (fuel : nat) (newsize : Z) (st : events) (q : calq) : result (events * calq) :=
  let! '(days, q) := new_days newsize st q in
  match days with
  | None => Ok (st, q)
  | Some (n, w) => rebuild fuel n w st q
  end.

Definition grow (fuel : nat) (st : events) (q : calq) : result (events * calq) :=
  if top_threshold_ (lay q) <? stat_qsize_ q
  then resize fuel (wrap_i32 (Z.shiftl (nbuckets_ (lay q)) 1)) st q
  else Ok (st, q).

(** [insert (e)] *)
Definition cal_insert (fuel : nat) (e : positive) (st : events) (q : calq) : result (events * calq) :=
  let! '(st, q) := cal_place fuel e st q in
  grow fuel st q.

(** ** The next event *)

(** Where the search stands: the event found and its bucket, or the bucket to
    look in next and the earliest event seen so far. *)
Inductive probe :=
  | Found (e : positive) (l : Z)
  | Looking (i : Z) (min : option (positive * Z)).

(** [CAL_DEQUEUE (x)], [limit] being [diffx_] *)
Definition CAL_DEQUEUE (limit : f64) (st : events) (q : calq) (i : Z) (min : option (positive * Z))
    : result probe :=
  let! b := aget (buckets_ q) i in
  let next := if wrap_i32 (i + 1) =? nbuckets_ (lay q) then 0 else wrap_i32 (i + 1) in
  match list_ b with
  | None => Ok (Looking next min)
  | Some e =>
      let! v := load st (Some e) in
      if flt (fsub (time_ v) (cal_clock_ q)) limit then Ok (Found e i)
      else
        match min with
        | None => Ok (Looking next (Some (e, i)))
        | Some (m, l) =>
            let! mv := load st (Some m) in
            Ok (Looking next (Some (if flt (time_ v) (time_ mv) then (e, i) else (m, l))))
        end
  end.

(** [for (; i != lastbucket_dec; ) CAL_DEQUEUE (2)], with the number of its
    rounds. *)
Fixpoint search_year (fuel : nat) (stop : Z) (st : events) (q : calq) (i : Z)
    (min : option (positive * Z)) (n : Z) : result (probe * Z) :=
  if i =? stop then Ok (Looking i min, n)
  else
    match fuel with
    | O => NoFuel
    | S fuel =>
        let! p := CAL_DEQUEUE (diff2_ (lay q)) st q i min in
        match p with
        | Found _ _ => Ok (p, n + 1)
        | Looking i min => search_year fuel stop st q i min (n + 1)
        end
    end.

(** The bucket left over: its head, unless one seen is earlier. *)
Definition last_bucket (st : events) (q : calq) (i : Z) (min : option (positive * Z))
    : result (option positive * Z) :=
  let! b := aget (buckets_ q) i in
  match min with
  | None => Ok (list_ b, i)
  | Some (m, l) =>
      match list_ b with
      | None => Ok (Some m, l)
      | Some e =>
          let! mv := load st (Some m) in
          let! v := load st (Some e) in
          Ok (if flt (time_ mv) (time_ v) then (Some m, l) else (Some e, i))
      end
  end.

(** The whole search: the event, its bucket, and the buckets looked in. *)
Definition cal_search (st : events) (q : calq) : result (option positive * Z * Z) :=
  let stop := if lastbucket_ q =? 0 then nbuckets_ (lay q) - 1 else lastbucket_ q - 1 in
  let! p := CAL_DEQUEUE (diff0_ (lay q)) st q (lastbucket_ q) None in
  match p with
  | Found e l => Ok (Some e, l, 1)
  | Looking i min =>
      let! p := CAL_DEQUEUE (diff1_ (lay q)) st q i min in
      match p with
      | Found e l => Ok (Some e, l, 2)
      | Looking i min =>
          let! '(p, n) := search_year (Z.to_nat (nbuckets_ (lay q))) stop st q i min 2 in
          match p with
          | Found e l => Ok (Some e, l, n)
          | Looking i min => let! '(e, l) := last_bucket st q i min in Ok (e, l, n)
          end
      end
  end.

Definition cal_head (st : events) (q : calq) : result (option positive * calq) :=
  if qsize_ q =? 0 then Ok (None, q)
  else
    let! '(e, l, n) := cal_search st q in
    let! v := load st e in
    Ok (e, with_place l (time_ v) (with_snoop (searched n 0 (snoop q)) q)).

(** The statistics at the removal of an event of time [t], and what they say
    is to be done: [true] for a new length of the days. *)
Definition sample (t : f64) (q : calq) : calq * bool :=
  let s := snoop q in
  if adjust_new_width_interval_ s =? 0 then (q, false)
  else if flt (last_time_ s) f0 then
    (with_snoop (with_gap (round_num_ s) (gap_num_ s) t (avg_gap_ s) s) q, false)
  else
    let gap := wrap_i64 (gap_num_ s + 1) in
    if qsize_ q <=? gap then
      let avg := fdiv (fsub t (last_time_ s)) (f64_of_Z gap) in
      let round := wrap_i32 (round_num_ s + 1) in
      let s := with_gap round 0 t avg s in
      if (20 <? round) &&
         ((wrap_u64 (Z.shiftl (insert_search_ s) 1) <? head_search_ s) ||
          (wrap_u64 (Z.shiftl (head_search_ s) 1) <? insert_search_ s))
      then (with_snoop s q, true)
      else if 100 <? round then (with_snoop (forget_searches (time_to_newwidth s) s) q, false)
      else (with_snoop s q, false)
    else (with_snoop (with_gap (round_num_ s) gap (last_time_ s) (avg_gap_ s) s) q, false).

(** [deque], between the search and the unlinking: a new length of the days
    if the searches have become long. *)
Definition adjust (fuel : nat) (t : f64) (st : events) (q : calq) : result (events * calq) :=
  let '(q, due) := sample t q in
  if due then
    let! '(st, q) := resize fuel (nbuckets_ (lay q)) st q in
    Ok (st, with_snoop (with_gap 0 (gap_num_ (snoop q)) (last_time_ (snoop q)) (avg_gap_ (snoop q)) (snoop q)) q)
  else Ok (st, q).

(** [deque], the unlinking of [e], the first of bucket [lastbucket_]. *)
Definition cal_unlink (e : positive) (st : events) (q : calq) : result (events * calq) :=
  let l := lastbucket_ q in
  let! ev := load st (Some e) in
  let! nv := load st (ev_next ev) in
  let alone := bool_decide (ev_next ev = Some e) in
  let drop := alone || negb (feq (time_ nv) (time_ ev)) in
  let! b := aget (buckets_ q) l in
  let stat := if drop then wrap_i32 (stat_qsize_ q - 1) else stat_qsize_ q in
  let count := if drop then wrap_i32 (count_ b - 1) else count_ b in
  let! st := if alone then Ok st else detach e st in
  let! bs := aset (buckets_ q) l (Bucket (if alone then None else ev_next ev) count) in
  let! st := store st (Some e) (fun v => set_next None (set_prev None v)) in
  Ok (st, with_buckets stat (wrap_i32 (qsize_ q - 1)) bs q).

Definition shrink (fuel : nat) (st : events) (q : calq) : result (events * calq) :=
  if stat_qsize_ q <? bot_threshold_ (lay q)
  then resize fuel (Z.shiftr (nbuckets_ (lay q)) 1) st q
  else Ok (st, q).

(** [deque ()] *)
Definition cal_deque (fuel : nat) (st : events) (q : calq) : result (option positive * events * calq) :=
  let! '(h, q) := cal_head st q in
  match h with
  | None => Ok (None, st, q)
  | Some e =>
      let! v := load st (Some e) in
      let! '(st, q) := adjust fuel (time_ v) st q in
      let! '(st, q) := cal_unlink e st q in
      let! '(st, q) := shrink fuel st q in
      Ok (Some e, st, q)
  end.

(** ** Cancellation and look-up *)

(** [cancel (e)] *)
Definition cal_cancel (e : positive) (st : events) (q : calq) : result (events * calq) :=
  let! ev := load st (Some e) in
  if uid_ ev <=? 0 then Ok (st, q)
  else
    let! i := cal_hash (time_ ev) (lay q) in
    let! pv := load st (ev_prev ev) in
    let! _ := assert_that (bool_decide (ev_next pv = Some e)) in
    let! nv := load st (ev_next ev) in
    let! _ := assert_that (bool_decide (ev_prev nv = Some e)) in
    let alone := bool_decide (ev_next ev = Some e) in
    let drop := alone || (negb (feq (time_ nv) (time_ ev)) && negb (feq (time_ pv) (time_ ev))) in
    let! b := aget (buckets_ q) i in
    let stat := if drop then wrap_i32 (stat_qsize_ q - 1) else stat_qsize_ q in
    let! _ := assert_that (negb drop || (0 <=? stat)) in
    let count := if drop then wrap_i32 (count_ b - 1) else count_ b in
    let! _ := assert_that (negb drop || (0 <=? count)) in
    let! _ := assert_that (negb alone || bool_decide (list_ b = Some e)) in
    let! st := if alone then Ok st else detach e st in
    let l := if alone then None else if bool_decide (list_ b = Some e) then ev_next ev else list_ b in
    let! bs := aset (buckets_ q) i (Bucket l count) in
    let! _ := assert_that (negb (count =? 0) || bool_decide (l = None)) in
    let! st := store st (Some e) (fun v => set_next None (set_prev None (set_uid (- uid_ v) v))) in
    Ok (st, with_buckets stat (wrap_i32 (qsize_ q - 1)) bs q).

(** The loop of [lookup] over one bucket. *)
Fixpoint lookup_bucket (fuel : nat) (u : Z) (head p : option positive) (st : events)
    : result (option positive) :=
  match fuel with
  | O => NoFuel
  | S fuel =>
      let! v := load st p in
      if uid_ v =? u then Ok p
      else if bool_decide (ev_next v = head) then Ok None
      else lookup_bucket fuel u head (ev_next v) st
  end.

Fixpoint lookup_buckets (fuel : nat) (u : Z) (bs : list bucket) (st : events) : result (option positive) :=
  match bs with
  | [] => Ok None
  | b :: bs =>
      match list_ b with
      | None => lookup_buckets fuel u bs st
      | Some _ =>
          let! r := lookup_bucket fuel u (list_ b) (list_ b) st in
          match r with
          | Some _ => Ok r
          | None => lookup_buckets fuel u bs st
          end
      end
  end.

Definition cal_lookup (fuel : nat) (u : Z) (st : events) (q : calq) : result (option positive * calq) :=
  let! r := lookup_buckets fuel u (buckets_ q) st in Ok (r, q).

(** The object before its first event, with the defaults of the Tcl library. *)
Definition default_snoopy : snoopy :=
  Snoopy (f64_ratio 1 (10 ^ 18)) 10 10 0 0 0 0 (f64_of_Z (-2)) (f64_of_Z (-2)).

Definition empty_calendar (s : snoopy) : calq :=
  CalQ (layout_of 4 f1) s 0 0 0 (replicate 4 (Bucket None 0)) f0.

#[export] Instance calendar_queue : EventQueue calq := {
  empty_queue := empty_calendar default_snoopy;
  eq_insert := cal_insert;
  eq_cancel _ := cal_cancel;
  eq_deque := cal_deque;
  eq_lookup := cal_lookup;
  eq_head := cal_head;
}.

Example new_calendar_is_empty s :
  new_calendar (f64_ratio 1 (10 ^ 18)) 10 s = Ok (empty_calendar default_snoopy).
Proof. vm_compute. reflexivity. Qed.

(** Two events of a year, one of a later year, and one at the time of the
    first. *)
Definition sample_calendar : result (list (option positive)) :=
  let ev t u := Event None None None t u in
  let st : events := <[1%positive := ev (f64_ratio 5 2) 1]> (<[2%positive := ev (f64_of_Z 1000) 2]>
    (<[3%positive := ev (f64_of_Z 1) 3]> (<[4%positive := ev (f64_ratio 5 2) 4]> ∅))) in
  let! '(st, q) := cal_insert 10 1 st (empty_calendar default_snoopy) in
  let! '(st, q) := cal_insert 10 2 st q in
  let! '(st, q) := cal_insert 10 3 st q in
  let! '(st, q) := cal_insert 10 4 st q in
  let! '(a, st, q) := cal_deque 10 st q in
  let! '(b, st, q) := cal_deque 10 st q in
  let! '(c, st, q) := cal_deque 10 st q in
  let! '(d, st, q) := cal_deque 10 st q in
  Ok [a; b; c; d].

Example sample_calendar_order : sample_calendar = Ok [Some 3; Some 1; Some 4; Some 2]%positive.
Proof. vm_compute. reflexivity. Qed.
