(* ===== verification/CalTime.v ===== *)
(** * The days of the calendar queue

    [day w t] is the number of the day that holds the time [t] when a day is
    [w] long.  As computed in doubles it grows with the time and is off by
    less than one day, which is why the search of the calendar queue may stop
    at an event within half a year of the clock in the first bucket, within
    half a year and a day in the second, and within a year in the others. *)

From stdpp Require Import base numbers list.
From Stdlib Require Import ZArith Lia ZifyBool SpecFloat QArith Lqa.
From S2P Require Import Prelude.
From S2P Require Import Float64.
From S2P Require Import FloatInt.
From S2P Require Import FloatBounds.
From S2P Require Import Calendar.

Local Open Scope Z_scope.

(** ** Sane widths and times *)

(** A finite number, zero or above, as a test. *)
Definition finite_posb (x : f64) : bool :=
  valid x && nonneg x && match x with S754_infinity _ => false | _ => true end.

(** A length of the days from 2^-900 to 2^800. *)
Definition good_width (w : f64) : bool :=
  finite_posb w && fle (S754_finite false 4503599627370496 (-952)) w &&
  flt w (S754_finite false 4503599627370496 748).

(** A time below 2^49 days. *)
Definition fits (w t : f64) : bool :=
  finite_posb t && flt t (fmul (S754_finite false 4503599627370496 (-3)) w).

Definition day (w t : f64) : Z := match truncate (fdiv t w) with Some k => k | None => 0 end.

Lemma finite_posb_ok x : finite_posb x = true -> finite_pos x.
Proof. unfold finite_posb, finite_pos. rewrite !andb_true_iff. intros [[? ?] ?]. split_and!; [done..|]. by intros ->. Qed.

Lemma finite_pos_two m e :
  fx (lead (Zpos m) e) = e -> e <= 971 -> finite_pos (S754_finite false m e).
Proof. intros H1 H2. split_and!; [|done|done]. by apply valid_finite. Qed.

Lemma good_width_val w :
  good_width w = true -> finite_pos w /\ (pow2 (-900) <= val w < pow2 800)%Q.
Proof.
  unfold good_width. rewrite !andb_true_iff. intros [[H%finite_posb_ok Hlo] Hhi].
  split; [done|]. rewrite fle_val in Hlo; [|by apply finite_pos_two|done].
  rewrite flt_val in Hhi; [|done|by apply finite_pos_two]. split.
  - eapply Qle_trans; [|exact Hlo]. vm_compute. done.
  - eapply Qlt_le_trans; [exact Hhi|]. vm_compute. done.
Qed.

Lemma pow2_900_pos : (0 < pow2 (-900))%Q.
Proof. apply pow2_pos. Qed.

Lemma fits_val w t :
  good_width w = true -> fits w t = true ->
  finite_pos t /\ (0 <= val t < 562949953421313 * val w)%Q.
Proof.
  intros (Hw & Hlo & Hhi)%good_width_val. unfold fits. rewrite andb_true_iff.
  intros [Ht%finite_posb_ok Hlt]. pose proof pow2_900_pos as P9.
  assert (E49 : (val (S754_finite false 4503599627370496 (-3)) == 562949953421312)%Q) by (vm_compute; done).
  destruct (fmul_near (S754_finite false 4503599627370496 (-3)) w) as [Hf Hn];
    [by apply finite_pos_two|done|rewrite E49|rewrite E49|].
  - pose proof (pow2_mono (-1000) (-900) ltac:(lia)). lra.
  - apply (Qlt_le_trans _ (562949953421312 * pow2 800)); [lra|].
    change 562949953421312%Q with (inject_Z (2 ^ 49)). rewrite <- pow2_Z, <- pow2_add by lia. by apply pow2_mono.
  - split; [done|]. split; [apply val_nonneg, Ht|].
    rewrite flt_val in Hlt by done. unfold near in Hn. rewrite E49 in Hn. lra.
Qed.

(** ** The error of a quotient *)

Lemma rounded_error r X :
  rounded r X -> (0 <= X)%Q ->
  (X - X * (1 # 4503599627370496) - (1 # 1000000) <= val r <=
   X + X * (1 # 4503599627370496) + (1 # 1000000))%Q.
Proof.
  intros (_ & q & m' & E & Hv & [C1 C2] & Hq & HE & Hq2 & Hm) HX. pose proof (pow2_pos E) as PE.
  assert (Hs : (pow2 E <= X * (1 # 4503599627370496) + (1 # 1000000))%Q).
  { destruct (decide (E = -1074)) as [->|Hne].
    - apply (Qle_trans _ (1 # 1000000)); [|lra]. apply (Qle_trans _ (pow2 (-30))); [by apply pow2_mono|].
      vm_compute. done.
    - specialize (Hq2 ltac:(lia)).
      assert (HqQ : (4503599627370496 <= inject_Z q)%Q).
      { change 4503599627370496%Q with (inject_Z (2 ^ 52)). by rewrite <- Zle_Qle. }
      assert (Hs : (4503599627370496 * pow2 E <= inject_Z q * pow2 E)%Q) by (by apply Qmult_le_r). lra. }
  rewrite Hv. destruct Hm as [[-> _]|[-> _]]; [lra|].
  rewrite inject_Z_plus. change (inject_Z 1) with 1%Q. lra.
Qed.

(** ** The hash *)

Lemma normalize_truncate r e :
  0 <= r < 2 ^ 53 -> -1074 <= e <= 0 ->
  truncate (binary_normalize prec64 emax64 r e false) = Some (r / 2 ^ (- e)).
Proof.
  intros Hr He. assert (Hp : 0 < 2 ^ (- e)) by (apply Z.pow_pos_nonneg; lia).
  destruct r as [|S|S]; [by rewrite Z.div_0_l by lia| |lia]. cbn [binary_normalize].
  assert (Hl : 0 <= Z.log2 (Zpos S) <= 52).
  { split; [apply Z.log2_nonneg|]. assert (Z.log2 (Zpos S) < 53); [apply Z.log2_lt_pow2; lia|lia]. }
  unfold binary_round. rewrite digits_log2.
  change (fexp prec64 emax64 (Z.log2 (Zpos S) + 1 + e)) with (fx (lead (Zpos S) e)).
  set (E := fx (lead (Zpos S) e)).
  assert (HE : -1074 <= E <= e) by (unfold E; rewrite fx_max; unfold lead; lia).
  destruct (shl_align S e E) as [m1 e1] eqn:Ea.
  apply shl_align_spec in Ea as [He1 Hm1];
    [|unfold shl_align in Ea; destruct (E - e) eqn:?; simplify_eq; lia].
  rewrite Z.min_r in He1 by lia. subst e1.
  assert (HD1 : lead (Zpos m1) E = lead (Zpos S) e).
  { rewrite Hm1. replace E with (e - (e - E)) at 2 by lia. apply lead_scale; lia. }
  destruct (round_aux_bounds false (Zpos m1) E loc_Exact) as (m2 & e2 & m' & -> & _ & _ & HeE & Hm' & Hup);
    rewrite ?HD1; fold E; try (unfold lead; lia).
  rewrite HD1 in HeE, Hm', Hup. fold E in HeE, Hm', Hup.
  rewrite Z.sub_diag, Z.pow_0_r, Z.div_1_r in Hup.
  assert (Em : m' = Zpos m1).
  { destruct Hup as [|[_ Hup]]; [done|]. rewrite decide_True in Hup by done. by destruct Hup. }
  rewrite (truncate_finite false m2 e2 E m') by (done || lia). cbn [cond_Zopp]. f_equal.
  rewrite Em, Hm1. replace (- E) with (e - E + - e) by lia.
  rewrite Z.pow_add_r, Z.mul_comm by lia.
  rewrite Z.div_mul_cancel_l; [done|lia|apply Z.pow_nonzero; lia].
Qed.

Lemma fmod_truncate x n k :
  finite_pos x -> 1 <= n < 2 ^ 53 -> truncate x = Some k ->
  truncate (fmod x (f64_of_Z n)) = Some (k mod n).
Proof.
  intros Hx Hn Hk. assert (Sn : small_int n) by done. rewrite f64_of_small by done.
  destruct (finite_pos_cases x Hx) as [[s ->]|(m & ex & -> & C & _)].
  { cbn in Hk |- *. injection Hk as <-. by rewrite Z.mod_0_l by lia. }
  cbn [fmod]. pose proof (small_log2 n Sn) as Hl. pose proof (int_mant_bounds n Sn) as Hb.
  destruct (canonical_bounds _ _ C) as (Hex & Hm & _).
  set (e := Z.min ex (int_exp n)). assert (He : -1074 <= e <= 0) by (unfold e, int_exp; lia).
  assert (Hp : 0 < 2 ^ (- e)) by (apply Z.pow_pos_nonneg; lia).
  assert (Eb : Zpos (int_mant n) * 2 ^ (int_exp n - e) = 2 ^ (- e) * n).
  { rewrite int_mant_Z, <- Z.mul_assoc, <- Z.pow_add_r by (done || unfold e, int_exp; lia).
    rewrite Z.mul_comm. f_equal. f_equal. unfold int_exp. lia. }
  rewrite (truncate_finite false m ex e (Zpos m * 2 ^ (ex - e))) in Hk by (done || unfold e; lia).
  cbn [cond_Zopp] in Hk. injection Hk as <-. cbn [cond_Zopp].
  set (a := Zpos m * 2 ^ (ex - e)). assert (Ha : 0 <= a) by (unfold a; pose proof (Z.pow_nonneg 2 (ex - e)); lia).
  rewrite normalize_truncate; [| |done].
  - f_equal. rewrite Eb, Z.rem_mul_r by lia.
    rewrite (Z.add_comm (a mod _)), Z.mul_comm, Z.div_add_l by lia.
    rewrite (Z.div_small (a mod _)) by (apply Z.mod_pos_bound; lia). lia.
  - rewrite Eb. pose proof (Z.mod_pos_bound a (2 ^ (- e) * n) ltac:(lia)) as Hr. split; [lia|].
    destruct (Z.le_ge_cases ex (int_exp n)).
    + pose proof (Z.mod_le a (2 ^ (- e) * n) Ha ltac:(lia)). unfold a in *.
      replace e with ex in * by (unfold e; lia). rewrite Z.sub_diag, Z.pow_0_r in *. lia.
    + rewrite <- Eb in Hr. replace e with (int_exp n) in Hr at 4 by (unfold e; lia).
      rewrite <- Eb. replace (int_exp n - e) with 0 in * by (unfold e; lia).
      rewrite Z.pow_0_r, Z.mul_1_r in *. pose proof (Z.mod_pos_bound a (Zpos (int_mant n)) ltac:(lia)). lia.
Qed.

Section day.
Context (w : f64) (Hw : good_width w = true).

Lemma width_pos : (0 < val w)%Q.
Proof. pose proof (good_width_val w Hw) as (_ & H & _). pose proof pow2_900_pos. lra. Qed.

Lemma quotient_rounded t : fits w t = true -> rounded (fdiv t w) (val t / val w).
Proof.
  intros Ht. pose proof (good_width_val w Hw) as (Fw & _). pose proof (fits_val w t Hw Ht) as (Ft & _ & Hlt).
  pose proof width_pos as P. apply fdiv_rounded; [done..|].
  eapply Qlt_trans; [exact Hlt|]. apply Qmult_lt_r; [done|]. apply (Qlt_le_trans _ (pow2 50)); [vm_compute; done|].
  by apply pow2_mono.
Qed.

(** The day is the time over the width, give or take [3/16]. *)
Lemma day_bounds t :
  fits w t = true -> 0 <= day w t < 2 ^ 50 /\
  (inject_Z (day w t) - (3 # 16) <= val t / val w < inject_Z (day w t) + (19 # 16))%Q.
Proof.
  intros Ht. pose proof (quotient_rounded t Ht) as Hr. pose proof width_pos as P.
  destruct (fits_val w t Hw Ht) as (_ & H0 & Hlt).
  set (X := (val t / val w)%Q) in *.
  assert (EX : (X * val w == val t)%Q) by (unfold X; field; intros E; lra).
  assert (HX : (0 <= X < 562949953421313)%Q).
  { split; [apply (Qmult_le_r _ _ (val w)); [done|lra]|apply (Qmult_lt_r _ _ (val w)); [done|lra]]. }
  pose proof (rounded_error _ _ Hr ltac:(lra)) as He. destruct Hr as [Hf _].
  destruct (truncate_val _ Hf) as (k & Hk & Hk0 & Hkv). unfold day. rewrite Hk.
  split; [split; [done|]|lra].
  assert (inject_Z k < inject_Z (2 ^ 50))%Q; [|by rewrite <- Zlt_Qlt in *].
  change (inject_Z (2 ^ 50)) with 1125899906842624%Q. lra.
Qed.

Lemma day_mono t t' :
  fits w t = true -> fits w t' = true -> (val t <= val t')%Q -> day w t <= day w t'.
Proof.
  intros Ht Ht' Hle. pose proof (quotient_rounded t Ht) as Hr. pose proof (quotient_rounded t' Ht') as Hr'.
  pose proof width_pos as P.
  destruct (truncate_val _ (proj1 Hr)) as (k & Ek & _ & Hk).
  destruct (truncate_val _ (proj1 Hr')) as (k' & Ek' & _ & Hk').
  unfold day. rewrite Ek, Ek'. destruct (Qlt_le_dec (val t) (val t')) as [Hlt|Hge].
  - eapply (truncate_mono (fdiv t w) (fdiv t' w)); [apply Hr|apply Hr'| |done|done].
    apply (rounded_mono _ _ _ _ Hr Hr'). unfold Qdiv. apply Qmult_lt_r; [by apply Qinv_lt_0_compat|done].
  - destruct (fits_val w t Hw Ht) as (Ft & _). destruct (fits_val w t' Hw Ht') as (Ft' & _).
    pose proof (good_width_val w Hw) as (Fw & _).
    destruct (val_inj t t' Ft Ft' ltac:(lra)) as [[[s ->] [s' ->]]| ->]; [|by simplify_eq; lia].
    destruct (finite_pos_cases w Fw) as [[s2 ->]|(m & e & -> & _)]; [cbn [val] in P; lra|].
    cbn in Ek, Ek'. simplify_eq. lia.
Qed.

Lemma cal_hash_day t n :
  fits w t = true -> 4 <= n <= 2 ^ 30 -> cal_hash t (layout_of n w) = Ok (day w t mod n).
Proof.
  intros Ht Hn. unfold cal_hash, to_int. cbn [width_ nbuckets_ layout_of].
  destruct (truncate_val _ (proj1 (quotient_rounded t Ht))) as (k & Ek & _).
  rewrite (fmod_truncate _ n k); [|by apply quotient_rounded|lia|done]. unfold day. rewrite Ek.
  pose proof (Z.mod_pos_bound k n ltac:(lia)).
  rewrite (proj2 (Z.leb_le (- 2 ^ 31) (k mod n))), (proj2 (Z.ltb_lt (k mod n) (2 ^ 31))) by lia. done.
Qed.

(** ** How far the search may look *)

Context (n : Z) (Hn : 4 <= n <= 2 ^ 30).

Lemma n_Q : (4 <= inject_Z n <= 1073741824)%Q.
Proof.
  change 4%Q with (inject_Z 4). change 1073741824%Q with (inject_Z (2 ^ 30)).
  rewrite <- !Zle_Qle. lia.
Qed.

Lemma f64_of_Z_val z : 0 <= z < 2 ^ 53 -> finite_pos (f64_of_Z z) /\ (val (f64_of_Z z) == inject_Z z)%Q.
Proof.
  intros Hz. destruct (f64_of_nonneg z Hz) as [Hnn Hv].
  destruct (nat_int_cases z Hz) as [->|Sz]; [done|].
  rewrite f64_of_small in * by done. split; [by split_and!|]. cbn [val cond_Zopp].
  pose proof (small_log2 z Sz). rewrite int_mant_Z, inject_Z_mult, <- pow2_Z by (done || lia).
  rewrite <- Qmult_assoc, <- pow2_add. unfold int_exp.
  replace (52 - Z.log2 z + (Z.log2 z - 52)) with 0 by lia. rewrite pow2_0. ring.
Qed.

(** The three limits are half a year, half a year and a day, and a year, to
    one part in 2^50. *)
Lemma limits :
  (finite_pos (diff0_ (layout_of n w)) /\ finite_pos (diff1_ (layout_of n w)) /\
   finite_pos (diff2_ (layout_of n w))) /\
  let y := (inject_Z n * val w)%Q in
  let err := (y * (1 # 1125899906842624))%Q in
  (y * (1 # 2) - err <= val (diff0_ (layout_of n w)) <= y * (1 # 2) + err /\
   y * (1 # 2) + val w - err <= val (diff1_ (layout_of n w)) <= y * (1 # 2) + val w + err /\
   y - err <= val (diff2_ (layout_of n w)) <= y + err)%Q.
Proof.
  pose proof (good_width_val w Hw) as (Fw & Hlo & Hhi). pose proof width_pos as P. pose proof n_Q as NQ.
  cbn [layout_of diff0_ diff1_ diff2_]. cbn zeta.
  destruct (f64_of_Z_val n ltac:(lia)) as [Fn Vn]. destruct (f64_of_Z_val 2 ltac:(lia)) as [F2 V2].
  set (y := (inject_Z n * val w)%Q). assert (Hy : (4 * val w <= y <= 1073741824 * val w)%Q) by (unfold y; nra).
  assert (Hlow : (pow2 (-1000) <= val w * (1 # 4))%Q).
  { apply (Qle_trans _ (pow2 (-900) * (1 # 4))); [vm_compute; done|]. lra. }
  assert (Hhigh : (8589934592 * val w < pow2 990)%Q).
  { apply (Qlt_le_trans _ (8589934592 * pow2 800)); [lra|]. vm_compute. done. }
  assert (H999 : (pow2 990 <= pow2 999)%Q) by (by apply pow2_mono).
  assert (Ey : (val w * val (f64_of_Z n) == y)%Q) by (rewrite Vn; unfold y; ring).
  destruct (fmul_near w (f64_of_Z n) Fw Fn) as [Fm Nm]; [rewrite Ey; lra..|].
  rewrite Ey in Nm. set (m := fmul w (f64_of_Z n)) in *. unfold near in Nm.
  assert (Rd : rounded (fdiv m (f64_of_Z 2)) (val m / val (f64_of_Z 2))).
  { assert (1 * 1 <= pow2 990)%Q by (vm_compute; done).
    apply fdiv_rounded; [done|done|rewrite V2; change (inject_Z 2) with 2%Q; lra|].
    rewrite V2. change (inject_Z 2) with 2%Q. lra. }
  assert (Ed : (val m / val (f64_of_Z 2) == val m * (1 # 2))%Q).
  { rewrite V2. change (inject_Z 2) with 2%Q. field. }
  pose proof (rounded_near _ _ Rd) as Nd. destruct Rd as [Fd _]. rewrite Ed in Nd.
  specialize (Nd ltac:(lra)). set (d := fdiv m (f64_of_Z 2)) in *. unfold near in Nd.
  destruct (fadd_near d w Fd Fw) as [Fa Na]; [lra|]. unfold near in Na.
  split; [by split_and!|]. split_and!; lra.
Qed.

Section gap.
Context (c t : f64) (Hc : fits w c = true) (Ht : fits w t = true) (Hle : (val c <= val t)%Q).

Lemma gap_near :
  finite_pos (fsub (t) c) /\ near (val (fsub t c)) (val t - val c) /\
  (inject_Z (day w t) - inject_Z (day w c) - (11 # 8) <= (val t - val c) / val w <=
   inject_Z (day w t) - inject_Z (day w c) + (11 # 8))%Q.
Proof.
  pose proof (good_width_val w Hw) as (_ & _ & Hhi). pose proof width_pos as P.
  destruct (fits_val w t Hw Ht) as (Ft & H0 & Hlt). destruct (fits_val w c Hw Hc) as (Fc & H0' & _).
  destruct (fsub_near t c Ft Fc Hle) as [Fs Ns].
  { apply (Qlt_trans _ (562949953421313 * pow2 800)); [lra|]. vm_compute. done. }
  split; [done|]. split; [done|].
  destruct (day_bounds t Ht) as [_ Bt]. destruct (day_bounds c Hc) as [_ Bc].
  assert (E : ((val t - val c) / val w == val t / val w - val c / val w)%Q) by (field; intros E; lra).
  rewrite E. lra.
Qed.

(** What the search accepts is near. *)
Lemma found_near D X :
  finite_pos D -> (val D <= X * val w)%Q -> flt (fsub t c) D = true ->
  (inject_Z (day w t - day w c) < X * (1 + (1 # 2251799813685248)) + (11 # 8))%Q.
Proof.
  intros FD HD Hf. destruct gap_near as (Fs & Ns & B1 & B2). pose proof width_pos as P.
  rewrite flt_val in Hf by done. unfold near in Ns.
  set (g := ((val t - val c) / val w)%Q) in *.
  assert (Eg : (val t - val c == g * val w)%Q) by (unfold g; field; intros E; lra).
  rewrite Eg in Ns.
  assert (Hg : (g < X * (1 + (1 # 2251799813685248)))%Q) by (apply (Qmult_lt_r _ _ (val w)); [done|]; lra).
  unfold Z.sub. rewrite inject_Z_plus, inject_Z_opp. lra.
Qed.

(** What is near is accepted. *)
Lemma reach_near D X j :
  finite_pos D -> (X * val w <= val D)%Q -> day w t <= day w c + j -> 0 <= j ->
  ((inject_Z j + (11 # 8)) * (1 + (1 # 2251799813685248)) <= X)%Q -> flt (fsub t c) D = true.
Proof.
  intros FD HD Hj Hj0 HX. destruct gap_near as (Fs & Ns & B1 & B2). pose proof width_pos as P.
  rewrite flt_val by done. unfold near in Ns.
  set (g := ((val t - val c) / val w)%Q) in *.
  assert (Eg : (val t - val c == g * val w)%Q) by (unfold g; field; intros E; lra).
  rewrite Eg in Ns. rewrite Zle_Qle, inject_Z_plus in Hj.
  assert (Hg : (g <= inject_Z j + (11 # 8))%Q) by lra.
  assert (H0 : (0 <= g)%Q) by (apply (Qmult_le_r _ _ (val w)); [done|]; lra).
  assert (Hgw : (g * val w <= (inject_Z j + (11 # 8)) * val w)%Q) by (by apply Qmult_le_r).
  assert (HXw : ((inject_Z j + (11 # 8)) * (1 + (1 # 2251799813685248)) * val w <= X * val w)%Q) by (by apply Qmult_le_r).
  assert (H0w : (0 < (inject_Z j + (11 # 8)) * val w)%Q).
  { apply Qmult_lt_0_compat; [|done]. rewrite Zle_Qle in Hj0. change (inject_Z 0) with 0%Q in Hj0. lra. }
  lra.
Qed.

Lemma Qlt_half a b : (inject_Z a < inject_Z b * (1 # 2))%Q -> 2 * a < b.
Proof.
  intros H. assert (H2 : (inject_Z (2 * a) < inject_Z b)%Q); [|by rewrite <- Zlt_Qlt in H2].
  rewrite inject_Z_mult. change (inject_Z 2) with 2%Q. lra.
Qed.

Lemma found0 : flt (fsub t c) (diff0_ (layout_of n w)) = true -> 2 * (day w t - day w c) < n + 3.
Proof.
  intros Hf. destruct limits as [(F0 & _) (L0 & _)]. pose proof n_Q. pose proof width_pos as P.
  apply (found_near _ (inject_Z n * ((1 # 2) + (1 # 1125899906842624)))%Q F0) in Hf; [|lra].
  apply Qlt_half. rewrite inject_Z_plus. change (inject_Z 3) with 3%Q. lra.
Qed.

Lemma found1 : flt (fsub t c) (diff1_ (layout_of n w)) = true -> 2 * (day w t - day w c) < n + 5.
Proof.
  intros Hf. destruct limits as [(_ & F1 & _) (_ & L1 & _)]. pose proof n_Q. pose proof width_pos as P.
  apply (found_near _ (inject_Z n * ((1 # 2) + (1 # 1125899906842624)) + 1)%Q F1) in Hf; [|lra].
  apply Qlt_half. rewrite inject_Z_plus. change (inject_Z 5) with 5%Q. lra.
Qed.

Lemma found2 : flt (fsub t c) (diff2_ (layout_of n w)) = true -> day w t - day w c < n + 2.
Proof.
  intros Hf. destruct limits as [(_ & _ & F2) (_ & _ & L2)]. pose proof n_Q. pose proof width_pos as P.
  apply (found_near _ (inject_Z n * (1 + (1 # 1125899906842624)))%Q F2) in Hf; [|lra].
  rewrite Zlt_Qlt, (inject_Z_plus n 2). change (inject_Z 2) with 2%Q. lra.
Qed.

Lemma reach0 : day w t <= day w c -> flt (fsub t c) (diff0_ (layout_of n w)) = true.
Proof.
  intros Hj. destruct limits as [(F0 & _) (L0 & _)]. pose proof n_Q. pose proof width_pos as P.
  apply (reach_near _ (inject_Z n * ((1 # 2) - (1 # 1125899906842624)))%Q 0 F0); [lra|lia|lia|].
  change (inject_Z 0) with 0%Q. lra.
Qed.

Lemma reach1 : day w t <= day w c + 1 -> flt (fsub t c) (diff1_ (layout_of n w)) = true.
Proof.
  intros Hj. destruct limits as [(_ & F1 & _) (_ & L1 & _)]. pose proof n_Q. pose proof width_pos as P.
  apply (reach_near _ (inject_Z n * ((1 # 2) - (1 # 1125899906842624)) + 1)%Q 1 F1); [lra|lia|lia|].
  change (inject_Z 1) with 1%Q. lra.
Qed.

Lemma reach2 : day w t <= day w c + (n - 2) -> flt (fsub t c) (diff2_ (layout_of n w)) = true.
Proof.
  intros Hj. destruct limits as [(_ & _ & F2) (_ & _ & L2)]. pose proof n_Q. pose proof width_pos as P.
  apply (reach_near _ (inject_Z n * (1 - (1 # 1125899906842624)))%Q (n - 2) F2); [lra|lia|lia|].
  unfold Z.sub. rewrite inject_Z_plus. change (inject_Z (- (2))) with (-2)%Q. lra.
Qed.
End gap.
End day.

(** Equal times are of one day. *)
Lemma day_feq w t t' :
  good_width w = true -> fits w t = true -> fits w t' = true -> feq t t' = true -> day w t = day w t'.
Proof.
  intros Hw Ht Ht' E. destruct (fits_val w t Hw Ht) as (F & _). destruct (fits_val w t' Hw Ht') as (F' & _).
  pose proof (feq_le _ _ E) as L1. pose proof (feq_le _ _ (feq_sym _ _ E)) as L2.
  rewrite fle_val in L1, L2 by done. pose proof (day_mono w Hw _ _ Ht Ht' L1).
  pose proof (day_mono w Hw _ _ Ht' Ht L2). lia.
Qed.
