(* ===== verification/CalProps.v ===== *)
(** * The calendar queue: what its buckets hold

    [cal_core] says what the buckets stand for: the pending events in the
    order of service, cut up by their day modulo the number of buckets.
    [core_update] is the one step all the operations make on it: a bucket is
    given another list. *)

From stdpp Require Import base numbers list gmap sorting.
From Stdlib Require Import ZArith Lia Bool QArith Lqa.
From S2P Require Import Prelude.
From S2P Require Import Store.
From S2P Require Import Float64.
From S2P Require Import Array.
From S2P Require Import Dlist.
From S2P Require Import EventQueue.
From S2P Require Import Ring.
From S2P Require Import FloatInt.
From S2P Require Import FloatBounds.
From S2P Require Import Calendar.
From S2P Require Import CalTime.

Local Open Scope Z_scope.

(** ** Links *)

Section links.
Implicit Types (st : events) (e k t : positive) (ks : list positive).

(** [e] hung between the last and the first of a ring. *)
Lemma splice st st1 e k ks t ev :
  ring st (k :: ks) -> last (k :: ks) = Some t -> e ∉ k :: ks -> st !! e = Some ev ->
  st1 = <[e := set_next (Some k) (set_prev (Some t) ev)]> st ->
  exists st',
    (let! s := store st1 (Some k) (set_prev (Some e)) in store s (Some t) (set_next (Some e))) = Ok st' /\
    (let! s := store st1 (Some t) (set_next (Some e)) in store s (Some k) (set_prev (Some e))) = Ok st' /\
    ring st' (k :: ks ++ [e]) /\ rehung (k :: ks ++ [e]) st st'.
Proof.
  intros [Hnd Hl] Ht He Hev ->. specialize (Hl ltac:(done)). cbn [head] in Hl. rewrite Ht in Hl.
  set (ev' := set_next _ _).
  assert (Hl1 : dseg (next_of (T := event)) prev_of (<[e := ev']> st) (Some t) (Some k) (k :: ks) (Some t) (Some k)).
  { by apply dseg_insert_notin. }
  destruct (links_rehang (T := event) _ _ _ _ _ _ _ _ (Some e) (Some e) Hnd Hl1 Ht)
    as (st' & E1 & E2 & Hl' & R).
  exists st'. split; [exact E1|]. split; [exact E2|]. split.
  - rewrite app_comm_cons. split.
    + apply NoDup_app. split_and!; [done| |apply NoDup_singleton]. set_solver.
    + intros _. rewrite last_snoc. cbn [app head]. rewrite app_comm_cons. apply dseg_app.
      exists (Some t), (Some e). split; [done|]. split; [done|]. exists ev'.
      split; [|done]. destruct R as [A _]. rewrite A by done. apply lookup_insert_eq.
  - eapply rehung_trans; [by eapply (rehung_set _ _ e ev ev'); [set_solver|done|]|].
    eapply rehung_mono; [|exact R]. set_solver.
Qed.

Lemma ring_head_prev st k ks t :
  ring st (k :: ks) -> last (k :: ks) = Some t -> exists kv, st !! k = Some kv /\ ev_prev kv = Some t.
Proof.
  intros [_ Hl] Ht. specialize (Hl ltac:(done)). destruct Hl as [_ (v & Hv & Hp & _)].
  exists v. split; [done|]. by rewrite Ht in Hp.
Qed.

Lemma ring_last_next st k ks t :
  ring st (k :: ks) -> last (k :: ks) = Some t -> exists tv, st !! t = Some tv /\ ev_next tv = Some k.
Proof.
  intros Hr Ht. apply last_Some in Ht as (l & El). rewrite El in Hr.
  apply ring_rotate_app in Hr. destruct Hr as [_ Hl]. specialize (Hl ltac:(done)).
  destruct Hl as [_ (v & Hv & _ & Hl)]. exists v. split; [done|].
  destruct l as [|k' l]; injection El as -> ->; exact (proj1 Hl).
Qed.

Section ring.
Context (st : events) (e k t : positive) (ks : list positive) (ev : event).
Context (Hr : ring st (k :: ks)) (Ht : last (k :: ks) = Some t) (He : e ∉ k :: ks) (Hev : st !! e = Some ev).

Lemma link_head_spec :
  exists st', link_head e k st = Ok st' /\ ring st' (k :: ks ++ [e]) /\ rehung (k :: ks ++ [e]) st st'.
Proof.
  destruct (ring_head_prev _ _ _ _ Hr Ht) as (kv & Hk & Ep).
  destruct (splice st _ e k ks t ev Hr Ht He Hev eq_refl) as (st' & _ & E & H1 & H2).
  exists st'. split; [|by split]. unfold link_head. mem_step.
  rewrite (load_Some _ k kv) by (rewrite lookup_insert_ne; [done|set_solver]). cbn [rbind].
  rewrite (store_Some _ e (set_next (Some k) ev)), insert_insert_eq by apply lookup_insert_eq. cbn [rbind].
  rewrite (load_Some _ e _ (lookup_insert_eq _ _ _)). cbn [rbind]. rewrite Ep. exact E.
Qed.

Lemma link_before_spec :
  exists st', link_before e (Some k) st = Ok st' /\ ring st' (k :: ks ++ [e]) /\ rehung (k :: ks ++ [e]) st st'.
Proof.
  destruct (ring_head_prev _ _ _ _ Hr Ht) as (kv & Hk & Ep).
  destruct (splice st _ e k ks t ev Hr Ht He Hev eq_refl) as (st' & E & _ & H1 & H2).
  exists st'. split; [|by split]. unfold link_before. mem_step.
  rewrite (load_Some _ k kv) by (rewrite lookup_insert_ne; [done|set_solver]). cbn [rbind].
  rewrite (store_Some _ e (set_next (Some k) ev)), insert_insert_eq by apply lookup_insert_eq. cbn [rbind].
  rewrite Ep. set (ev' := set_prev (Some t) (set_next (Some k) ev)).
  change (set_next (Some k) (set_prev (Some t) ev)) with ev' in E.
  assert (Hk' : <[e := ev']> st !! k = Some kv) by (rewrite lookup_insert_ne; [done|set_solver]).
  rewrite (store_Some _ k kv _ Hk') in E |- *. cbn [rbind] in E |- *.
  rewrite (load_Some _ e ev'); [exact E|].
  rewrite lookup_insert_ne by set_solver. apply lookup_insert_eq.
Qed.

Lemma link_after_spec :
  exists st', link_after e (Some t) st = Ok st' /\ ring st' (k :: ks ++ [e]) /\ rehung (k :: ks ++ [e]) st st'.
Proof.
  destruct (ring_last_next _ _ _ _ Hr Ht) as (tv & Htv & En).
  destruct (ring_head_prev _ _ _ _ Hr Ht) as (kv & Hk & Ep).
  destruct (splice st _ e k ks t ev Hr Ht He Hev eq_refl) as (st' & E & _ & H1 & H2).
  exists st'. split; [|by split]. unfold link_after. mem_step. rewrite En.
  rewrite (store_Some _ e (set_next (Some k) ev)), insert_insert_eq by apply lookup_insert_eq. cbn [rbind].
  rewrite (load_Some _ e _ (lookup_insert_eq _ _ _)). cbn [rbind]. exact E.
Qed.
End ring.

Lemma link_alone_spec st e ev :
  st !! e = Some ev -> exists st', link_alone e st = Ok st' /\ ring st' [e] /\ rehung [e] st st'.
Proof.
  intros Hv. destruct (activate_nil (T := event) e ev st Hv) as (st' & E & H). exists st'. split; [|done].
  cbn [activate] in E. unfold link_alone. unfold with_prev, with_next in E. cbn in E.
  mem_step. rewrite Hv in E. cbn in E. rewrite lookup_insert_eq in E. cbn in E. injection E as <-.
  cbn. by rewrite lookup_insert_eq.
Qed.
End links.

(** ** Distinct times *)

Section distinct.
Context (t : positive -> f64).
Implicit Types (e x : positive) (es : list positive).

(** The number of runs of equal times. *)
Fixpoint distinct es : Z :=
  match es with
  | [] => 0
  | x :: es' => (match es' with [] => 1 | y :: _ => if feq (t y) (t x) then 0 else 1 end) + distinct es'
  end.

Lemma distinct_bounds es : 0 <= distinct es <= Z.of_nat (length es).
Proof.
  induction es as [|x es IH]; cbn [distinct length]; [lia|].
  destruct es as [|y es]; [cbn; lia|]. destruct (feq _ _); lia.
Qed.

Lemma distinct_pos x es : 1 <= distinct (x :: es).
Proof.
  revert x. induction es as [|y es IH]; intros x; [done|]. specialize (IH y).
  cbn [distinct] in IH |- *. destruct (feq (t y) (t x)); lia.
Qed.

(** An event with a time of its own adds one. *)
Definition fresh_time e pre post : bool :=
  match last pre with Some x => negb (feq (t x) (t e)) | None => true end &&
  match post with x :: _ => negb (feq (t x) (t e)) | [] => true end.

Lemma feq_trans a b c : feq a b = true -> feq b c = true -> feq a c = true.
Proof. intros. forder. Qed.

Lemma distinct_insert e pre post :
  in_order t (pre ++ e :: post) ->
  distinct (pre ++ e :: post) = distinct (pre ++ post) + (if fresh_time e pre post then 1 else 0).
Proof.
  induction pre as [|x pre IH]; intros Ho; cbn [app].
  - unfold fresh_time. cbn [last andb]. cbn [distinct]. destruct post as [|y post]; [done|].
    destruct (feq (t y) (t e)); cbn [negb]; lia.
  - apply StronglySorted_inv in Ho as [Ho Hx]. specialize (IH Ho).
    destruct pre as [|z pre].
    + cbn [app] in *. unfold fresh_time in *. cbn [last andb] in *. cbn [distinct] in *.
      apply Forall_cons in Hx as [Hxe Hxp]. unfold not_later in Hxe.
      destruct post as [|y post].
      * destruct (feq (t e) (t x)) eqn:E1, (feq (t x) (t e)) eqn:E2; cbn; try lia; exfalso; forder.
      * apply Forall_cons in Hxp as [Hxy _]. unfold not_later in Hxy.
        apply StronglySorted_inv in Ho as [_ He]. apply Forall_cons in He as [Hey _]. unfold not_later in Hey.
        destruct (feq (t y) (t e)) eqn:E1, (feq (t e) (t x)) eqn:E2, (feq (t x) (t e)) eqn:E3,
          (feq (t y) (t x)) eqn:E4; cbn [andb negb]; try lia; exfalso; forder.
    + assert (EF : fresh_time e (x :: z :: pre) post = fresh_time e (z :: pre) post).
      { unfold fresh_time. by rewrite last_cons_cons. }
      rewrite EF. cbn [app distinct] in *. lia.
Qed.
End distinct.

(** ** The buckets *)

(** The bucket of the event [x], and the events of bucket [i]. *)
Definition bucket_of (q : calq) (st : events) (x : positive) : Z :=
  day (width_ (lay q)) (tm st x) mod nbuckets_ (lay q).

Definition content (q : calq) (st : events) (es : list positive) (i : Z) : list positive :=
  filter (fun x => bucket_of q st x = i) es.

Definition counts (bs : list bucket) : Z := foldr (fun b n => count_ b + n) 0 bs.

Definition max_events : nat := 2 ^ 20 * 2 ^ 7.

(** Bucket [b] holds the events [L]. *)
Definition holds (st : events) (b : bucket) (L : list positive) : Prop :=
  list_ b = head L /\ ring st L /\ count_ b = distinct (tm st) L.

Definition timed (q : calq) (st : events) (x : positive) : Prop :=
  is_Some (st !! x) /\ fits (width_ (lay q)) (tm st x) = true.

Record cal_core (st : events) (q : calq) (es : list positive) : Prop := {
  cc_lay : lay q = layout_of (nbuckets_ (lay q)) (width_ (lay q));
  cc_width : good_width (width_ (lay q)) = true;
  cc_n : 4 <= nbuckets_ (lay q) <= 2 ^ 29;
  cc_len : Z.of_nat (length (buckets_ q)) = nbuckets_ (lay q);
  cc_holds i b : buckets_ q !! i = Some b -> holds st b (content q st es (Z.of_nat i));
  cc_stat : stat_qsize_ q = counts (buckets_ q);
  cc_size : qsize_ q = Z.of_nat (length es);
  cc_nodup : NoDup es;
  cc_order : in_order (tm st) es;
  cc_timed : Forall (timed q st) es;
  cc_small : (length es <= max_events)%nat
}.

Lemma max_events_Z : Z.of_nat max_events = 2 ^ 27.
Proof. unfold max_events. rewrite Nat2Z.inj_mul, !Nat2Z.inj_pow. done. Qed.
#[global] Opaque max_events.

Lemma counts_insert bs i b b' :
  bs !! i = Some b -> counts (<[i := b']> bs) = counts bs - count_ b + count_ b'.
Proof.
  unfold counts. revert i. induction bs as [|c bs IH]; intros [|i] Hi; try done.
  - injection Hi as ->. cbn. lia.
  - change (<[S i := b']> (c :: bs)) with (c :: <[i := b']> bs). cbn [foldr]. rewrite (IH i Hi). lia.
Qed.

Lemma same_data_Some st st' x : same_data st st' -> is_Some (st !! x) -> is_Some (st' !! x).
Proof. intros H [v Hv]. specialize (H x). rewrite Hv in H. by destruct (st' !! x). Qed.

Lemma rehung_same_data ks st st' : rehung (T := event) ks st st' -> same_data st st'.
Proof. intros [_ H]. exact H. Qed.

Lemma distinct_ext t t' es : Forall (fun x => t x = t' x) es -> distinct t es = distinct t' es.
Proof.
  induction 1 as [|x es Hx Hes IH]; cbn [distinct]; [done|]. rewrite IH. f_equal.
  destruct Hes as [|y es Hy _]; [done|]. by rewrite Hx, Hy.
Qed.

Lemma holds_frame st st' b L :
  holds st b L -> (forall k, k ∈ L -> st' !! k = st !! k) -> holds st' b L.
Proof.
  intros (Hl & [Hnd Hr] & Hc) Hk. split; [done|]. split.
  - split; [done|]. intros Hne. eapply dseg_agree; [..|exact (Hr Hne)]; intros k Hin; by rewrite Hk.
  - rewrite Hc. apply distinct_ext, Forall_forall. intros x Hx. unfold tm. by rewrite Hk.
Qed.

Lemma filter_ext_in {A} (P Q : A -> Prop) `{!forall x, Decision (P x)} `{!forall x, Decision (Q x)} (l : list A) :
  (forall x, x ∈ l -> P x <-> Q x) -> filter P l = filter Q l.
Proof.
  induction l as [|x l IH]; intros HPQ; [done|]. rewrite !filter_cons.
  rewrite IH by (intros y Hy; apply HPQ; by right). specialize (HPQ x ltac:(by left)).
  destruct (decide (P x)), (decide (Q x)); tauto.
Qed.

Lemma content_ext q q' st st' es i :
  lay q' = lay q -> (forall x, x ∈ es -> tm st' x = tm st x) -> content q' st' es i = content q st es i.
Proof.
  intros Hl Ht. apply filter_ext_in. intros x Hx. unfold bucket_of. by rewrite Hl, Ht.
Qed.

Lemma elem_of_content q st es i x : x ∈ content q st es i <-> bucket_of q st x = i /\ x ∈ es.
Proof. unfold content. by rewrite list_elem_of_filter. Qed.

Lemma content_order q st es i t : in_order t es -> in_order t (content q st es i).
Proof.
  induction 1 as [|x es Hs IH Hx]; [constructor|]. unfold content in *. rewrite filter_cons.
  destruct (decide _); [|done]. constructor; [done|]. rewrite Forall_forall in Hx |- *.
  intros y [_ Hy]%list_elem_of_filter. by apply Hx.
Qed.

Lemma bucket_range q st x : 4 <= nbuckets_ (lay q) -> 0 <= bucket_of q st x < nbuckets_ (lay q).
Proof. intros Hn. unfold bucket_of. apply Z.mod_pos_bound. lia. Qed.

(** The bucket of the core at an index in range. *)
Lemma core_bucket st q es i :
  cal_core st q es -> 0 <= i < nbuckets_ (lay q) ->
  exists b, aget (buckets_ q) i = Ok b /\ buckets_ q !! Z.to_nat i = Some b /\
    holds st b (content q st es i).
Proof.
  intros H Hi. pose proof (cc_len _ _ _ H).
  destruct (lookup_lt_is_Some_2 (buckets_ q) (Z.to_nat i)) as [b Hb]; [lia|].
  exists b. split; [|split; [done|]].
  - unfold aget. by rewrite (proj2 (Z.ltb_ge i 0)), Hb by lia.
  - pose proof (cc_holds _ _ _ H _ _ Hb) as Hh. by rewrite Z2Nat.id in Hh by lia.
Qed.

Lemma core_aset st q es i b :
  cal_core st q es -> 0 <= i < nbuckets_ (lay q) ->
  aset (buckets_ q) i b = Ok (<[Z.to_nat i := b]> (buckets_ q)).
Proof.
  intros H Hi. pose proof (cc_len _ _ _ H). unfold aset.
  by rewrite (proj2 (Z.ltb_ge i 0)), (proj2 (Z.leb_gt _ i)) by lia.
Qed.

(** The counts are small enough for an [int]. *)
Lemma counts_content st q es : cal_core st q es -> 0 <= counts (buckets_ q) <= Z.of_nat (length es).
Proof.
  intros H.
  enough (Hgen : forall bs k, (forall i b, bs !! i = Some b -> holds st b (content q st es (Z.of_nat (k + i)))) ->
    0 <= counts bs <= Z.of_nat (length (filter (fun x => Z.of_nat k <= bucket_of q st x) es))).
  { pose proof (Hgen (buckets_ q) 0%nat ltac:(intros i b Hi; by apply (cc_holds _ _ _ H))) as [H1 H2].
    split; [done|]. etransitivity; [exact H2|]. pose proof (length_filter (fun x => Z.of_nat 0 <= bucket_of q st x) es). lia. }
  induction bs as [|b bs IH]; intros k Hb; cbn [counts foldr]; [lia|].
  destruct (IH (S k)) as [I1 I2].
  { intros i b' Hi. replace (S k + i)%nat with (k + S i)%nat by lia. by apply Hb. }
  destruct (Hb 0%nat b eq_refl) as (_ & _ & Hc). rewrite Nat.add_0_r in Hc.
  pose proof (distinct_bounds (tm st) (content q st es (Z.of_nat k))) as Hd. fold (counts bs). split; [lia|].
  assert (Hsum : (length (content q st es (Z.of_nat k)) +
    length (filter (fun x => (Z.of_nat (S k) <= bucket_of q st x)%Z) es) <=
    length (filter (fun x => (Z.of_nat k <= bucket_of q st x)%Z) es))%nat); [|lia].
  clear. unfold content. induction es as [|x es IH]; [done|]. rewrite !filter_cons.
  destruct (decide _), (decide _), (decide _); cbn [length]; lia.
Qed.

(** One bucket is given the list [L']. *)
Lemma core_update st q es st' q' es' i b b' L' :
  cal_core st q es -> buckets_ q !! i = Some b ->
  lay q' = lay q -> buckets_ q' = <[i := b']> (buckets_ q) -> holds st' b' L' ->
  (forall j, content q st' es' j = if decide (j = Z.of_nat i) then L' else content q st es j) ->
  (forall j k, j <> Z.of_nat i -> k ∈ content q st es j -> st' !! k = st !! k) ->
  stat_qsize_ q' = stat_qsize_ q - count_ b + count_ b' -> qsize_ q' = Z.of_nat (length es') ->
  NoDup es' -> in_order (tm st') es' -> Forall (timed q st') es' -> (length es' <= max_events)%nat ->
  cal_core st' q' es'.
Proof.
  intros H Hi Hl Hb Hh Hc Hk Hs Hz Hnd Ho Ht Hm.
  assert (Hext : forall j, content q' st' es' j = content q st' es' j) by (intros j; by apply content_ext).
  constructor; rewrite ?Hl; try (by apply H); try done.
  - rewrite Hb, length_insert. apply H.
  - intros j c Hj. rewrite Hb in Hj. rewrite Hext, Hc. destruct (decide (j = i)) as [->|Hne].
    + rewrite list_lookup_insert_eq in Hj by (by eapply lookup_lt_Some).
      rewrite decide_True by done. by simplify_eq.
    + rewrite list_lookup_insert_ne in Hj by done. rewrite decide_False by lia.
      eapply holds_frame; [by apply (cc_holds _ _ _ H)|]. intros k. apply Hk. lia.
  - rewrite Hb, (counts_insert _ _ _ _ Hi), Hs. by rewrite (cc_stat _ _ _ H).
  - eapply Forall_impl; [exact Ht|]. intros x Hx. unfold timed. by rewrite Hl.
Qed.

(** No bucket counts more than all. *)
Lemma counts_one st q es i b :
  cal_core st q es -> buckets_ q !! i = Some b -> count_ b <= counts (buckets_ q).
Proof.
  intros H Hi. assert (Hnn : Forall (fun c => 0 <= count_ c) (buckets_ q)).
  { apply Forall_lookup. intros j c Hj. destruct (cc_holds _ _ _ H j c Hj) as (_ & _ & ->). apply distinct_bounds. }
  clear H. revert i Hi. unfold counts. induction Hnn as [|c bs Hc Hnn IH]; intros [|i] Hi; try done.
  - injection Hi as ->. cbn [foldr]. enough (0 <= foldr (fun c n => count_ c + n) 0 bs) by lia.
    clear - Hnn. induction Hnn; cbn [foldr]; lia.
  - cbn [foldr]. specialize (IH i Hi). lia.
Qed.
