(* ===== verification/CalInsert.v ===== *)
(** * The calendar queue: insertion

    [cal_place] puts an event where a stable sorted list would, in its own
    bucket and so in the whole queue. *)

From stdpp Require Import base numbers list gmap sorting.
From Stdlib Require Import ZArith Lia Bool.
From S2P Require Import Prelude.
From S2P Require Import Store.
From S2P Require Import Float64.
From S2P Require Import Array.
From S2P Require Import Dlist.
From S2P Require Import EventQueue.
From S2P Require Import Ring.
From S2P Require Import FloatBounds.
From S2P Require Import Calendar.
From S2P Require Import CalTime.
From S2P Require Import CalProps.

Local Open Scope Z_scope.

(** ** Neighbours on a ring *)

Section neighbours.
Implicit Types (st : events) (x y : positive) (l : list positive).

Lemma ring_prev st l1 y x l2 :
  ring st (l1 ++ y :: x :: l2) -> exists v, st !! x = Some v /\ ev_prev v = Some y.
Proof.
  intros Hr. replace (l1 ++ y :: x :: l2) with ((l1 ++ [y]) ++ x :: l2) in Hr by (by rewrite <- app_assoc).
  apply ring_rotate_app in Hr. cbn [app] in Hr. eapply ring_head_prev; [exact Hr|].
  by rewrite app_comm_cons, app_assoc, last_snoc.
Qed.

Lemma ring_next st l1 x y l2 :
  ring st (l1 ++ x :: y :: l2) -> exists v, st !! x = Some v /\ ev_next v = Some y.
Proof.
  intros Hr. replace (l1 ++ x :: y :: l2) with ((l1 ++ [x]) ++ y :: l2) in Hr by (by rewrite <- app_assoc).
  apply ring_rotate_app in Hr. cbn [app] in Hr. eapply ring_last_next; [exact Hr|].
  by rewrite app_comm_cons, app_assoc, last_snoc.
Qed.

Lemma ring_lookup st l x : ring st l -> x ∈ l -> is_Some (st !! x).
Proof.
  intros Hr (l1 & l2 & ->)%list_elem_of_split. apply ring_rotate_app in Hr as [_ Hl].
  specialize (Hl ltac:(done)). destruct Hl as [_ (v & Hv & _)]. by exists v.
Qed.

Lemma tm_Some st x v : st !! x = Some v -> tm st x = time_ v.
Proof. intros H. unfold tm. by rewrite H. Qed.
End neighbours.

(** The walk back over the later events. *)
Lemma find_after_spec st t pre a post : forall fuel n,
  ring st (pre ++ a :: post) -> flt t (tm st a) = false ->
  Forall (fun x => flt t (tm st x) = true) post -> (length post <= fuel)%nat ->
  find_after fuel t st (last (pre ++ a :: post)) n = Ok (Some a, n + Z.of_nat (length post)).
Proof.
  intros fuel n Hr Ha Hp Hf.
  enough (Hgen : forall p1 p2, post = p1 ++ p2 -> forall fuel n, (length p1 <= fuel)%nat ->
    find_after fuel t st (last (pre ++ a :: p1)) n = Ok (Some a, n + Z.of_nat (length p1))).
  { apply (Hgen post []); [by rewrite app_nil_r|done]. }
  clear fuel n Hf. induction p1 as [|x p1 IH] using rev_ind; intros p2 Ep fuel n Hf.
  - destruct (ring_lookup st _ a Hr) as [v Hv]; [set_solver|]. rewrite last_snoc.
    destruct fuel; cbn [find_after]; rewrite (load_Some _ _ _ Hv); cbn [rbind];
      rewrite <- (tm_Some _ _ _ Hv), Ha, Z.add_0_r; done.
  - rewrite <- app_assoc in Ep. cbn [app] in Ep.
    assert (Hy : exists l1 y, pre ++ a :: p1 = l1 ++ [y]).
    { destruct (last (pre ++ a :: p1)) as [y|] eqn:E; [apply last_Some in E as [l1 E]; by exists l1, y|].
      apply last_None in E. by destruct pre. }
    destruct Hy as (l1 & y & Ey).
    assert (Ering : pre ++ a :: post = l1 ++ y :: x :: p2).
    { rewrite Ep, app_comm_cons, (app_assoc pre), Ey. by rewrite <- app_assoc. }
    rewrite Ering in Hr. destruct (ring_prev _ _ _ _ _ Hr) as (v & Hv & Epv).
    rewrite app_comm_cons, app_assoc, last_snoc, length_app in *. cbn [length] in *.
    assert (Hx : flt t (tm st x) = true).
    { rewrite Forall_forall in Hp. apply Hp. rewrite Ep. set_solver. }
    destruct fuel as [|fuel]; [lia|]. cbn [find_after]. rewrite (load_Some _ _ _ Hv). cbn [rbind].
    rewrite <- (tm_Some _ _ _ Hv), Hx, Epv.
    specialize (IH (x :: p2) Ep fuel (n + 1) ltac:(lia)). rewrite Ey, last_snoc in IH.
    rewrite IH. do 2 f_equal. lia.
Qed.

(** ** A sorted list cut at a time *)

Lemma sorted_cut t e es :
  in_order t es -> exists pre post, es = pre ++ post /\ ord_insert t e es = pre ++ e :: post /\
    Forall (fun x => flt (t e) (t x) = false) pre /\ Forall (fun x => flt (t e) (t x) = true) post.
Proof.
  intros Ho. destruct (ord_insert_split t e es) as (pre & post & -> & E & Hpre & Hpost).
  exists pre, post. split_and!; [done..|]. apply Forall_forall. intros x Hx.
  apply StronglySorted_app in Ho as (_ & _ & Ho). destruct post as [|y post]; [set_solver|].
  apply elem_of_cons in Hx as [->|Hx]; [done|]. apply StronglySorted_inv in Ho as [_ Ho].
  rewrite Forall_forall in Ho. specialize (Ho x Hx). unfold not_later in Ho. by apply flt_le_trans with (t y).
Qed.

Lemma content_app q st es1 es2 i : content q st (es1 ++ es2) i = content q st es1 i ++ content q st es2 i.
Proof. apply filter_app. Qed.

Lemma content_middle q st e pre post i :
  content q st (pre ++ e :: post) i =
  if decide (i = bucket_of q st e) then content q st pre i ++ e :: content q st post i
  else content q st (pre ++ post) i.
Proof.
  rewrite !content_app. unfold content at 2. rewrite filter_cons. fold (content q st post i).
  destruct (decide (bucket_of q st e = i)) as [E|E]; [by rewrite decide_True|by rewrite decide_False].
Qed.

(** ** The rest of the object does not matter *)

Definition same_core (q q' : calq) : Prop :=
  lay q' = lay q /\ buckets_ q' = buckets_ q /\ stat_qsize_ q' = stat_qsize_ q /\ qsize_ q' = qsize_ q.

Lemma core_same st q q' es : same_core q q' -> cal_core st q es -> cal_core st q' es.
Proof.
  intros (El & Eb & Es & Ez) H. constructor; rewrite ?El, ?Eb, ?Es, ?Ez; try (by apply H).
  - intros i b Hb. pose proof (cc_holds _ _ _ H i b Hb) as Hh. unfold content, bucket_of in *. by rewrite El.
  - eapply Forall_impl; [apply (cc_timed _ _ _ H)|]. intros x Hx. unfold timed in *. by rewrite El.
Qed.

Lemma core_num st q es x : cal_core st q es -> x ∈ es -> is_nan (tm st x) = false.
Proof.
  intros H Hx. pose proof (cc_timed _ _ _ H) as Ht. rewrite Forall_forall in Ht.
  destruct (Ht x Hx) as [_ Hf]. by apply finite_pos_num, (fits_val _ _ (cc_width _ _ _ H) Hf).
Qed.

(** The hash of an event that fits. *)
Lemma core_hash st q es e ev :
  cal_core st q es -> st !! e = Some ev -> fits (width_ (lay q)) (time_ ev) = true ->
  cal_hash (time_ ev) (lay q) = Ok (bucket_of q st e).
Proof.
  intros H He Hf. rewrite (cc_lay _ _ _ H). rewrite (cal_hash_day _ (cc_width _ _ _ H)); [|done|].
  - unfold bucket_of. by rewrite (tm_Some _ _ _ He).
  - pose proof (cc_n _ _ _ H). lia.
Qed.

(** An event is hung into its bucket, in a place in order. *)
Lemma core_add st q es e pre post st' q' i b :
  cal_core st q es -> e ∉ es -> es = pre ++ post -> is_Some (st !! e) ->
  fits (width_ (lay q)) (tm st e) = true -> in_order (tm st) (pre ++ e :: post) ->
  (S (length es) <= max_events)%nat ->
  let L1 := content q st pre (bucket_of q st e) in
  let L2 := content q st post (bucket_of q st e) in
  i = Z.to_nat (bucket_of q st e) -> buckets_ q !! i = Some b ->
  ring st' (L1 ++ e :: L2) -> rehung (e :: L1 ++ L2) st st' ->
  let d := if fresh_time (tm st) e L1 L2 then 1 else 0 in
  lay q' = lay q ->
  buckets_ q' = <[i := Bucket (head (L1 ++ e :: L2)) (wrap_i32 (count_ b + d))]> (buckets_ q) ->
  stat_qsize_ q' = wrap_i32 (stat_qsize_ q + d) -> qsize_ q' = wrap_i32 (qsize_ q + 1) ->
  cal_core st' q' (pre ++ e :: post).
Proof.
  intros H He Ees Hsome Hf Ho Hm L1 L2 Ei Hb Hr Rh d El Eb Es Ez.
  pose proof (cc_n _ _ _ H) as Hn. pose proof (bucket_range q st e ltac:(lia)) as Hbk.
  assert (Ei' : Z.of_nat i = bucket_of q st e) by lia.
  pose proof (cc_holds _ _ _ H i b Hb) as (_ & _ & Hc). rewrite Ei', Ees, content_app in Hc.
  fold L1 L2 in Hc. pose proof (rehung_same_data _ _ _ Rh) as Hsd.
  assert (Htm : forall x, tm st' x = tm st x) by (intros x; by apply same_data_tm).
  assert (Hsort : in_order (tm st) (L1 ++ e :: L2)).
  { pose proof (content_order q st _ (bucket_of q st e) _ Ho) as Hs. rewrite content_middle, decide_True in Hs by done.
    exact Hs. }
  assert (Hd : distinct (tm st) (L1 ++ e :: L2) = count_ b + d).
  { rewrite distinct_insert by done. by rewrite Hc. }
  pose proof (counts_content st q es H) as Hcs. pose proof (cc_stat _ _ _ H) as Hst.
  pose proof (cc_size _ _ _ H) as Hsz. pose proof max_events_Z as HM.
  assert (Hd01 : 0 <= d <= 1) by (unfold d; destruct (fresh_time _ _ _ _); lia).
  assert (Hcb : 0 <= count_ b <= Z.of_nat (length es)).
  { rewrite Hc. pose proof (distinct_bounds (tm st) (L1 ++ L2)) as Hdb. split; [lia|].
    etransitivity; [apply Hdb|]. unfold L1, L2. rewrite <- content_app, <- Ees.
    pose proof (length_filter (fun x => bucket_of q st x = bucket_of q st e) es). unfold content. lia. }
  assert (Hlen : length (pre ++ e :: post) = S (length es)) by (rewrite Ees, !length_app; cbn; lia).
  eapply (core_update st q es st' q' (pre ++ e :: post) i b _ (L1 ++ e :: L2) H Hb El Eb).
  - split; [done|]. split; [done|]. cbn [count_]. rewrite wrap_small by lia. rewrite <- Hd.
    symmetry. apply distinct_ext, Forall_forall. intros x _. by rewrite Htm.
  - intros j. rewrite (content_ext q q st st') by (done || intros; apply Htm).
    rewrite content_middle, Ei', Ees. destruct (decide (j = bucket_of q st e)) as [->|]; done.
  - intros j k Hj Hk. apply Rh. intros Hin. apply elem_of_content in Hk as [Hkj Hkes].
    apply Hj. rewrite Ei', <- Hkj. apply elem_of_cons in Hin as [->|Hin]; [reflexivity|].
    unfold L1, L2 in Hin. rewrite <- content_app, <- Ees in Hin. by apply elem_of_content in Hin as [Hkb _].
  - cbn [count_]. rewrite Es, !wrap_small by lia. lia.
  - rewrite Ez, wrap_small by lia. rewrite Hlen. lia.
  - rewrite <- Permutation_middle, <- Ees. constructor; [done|apply H].
  - eapply in_order_ext; [|exact Ho]. apply Forall_forall. intros x _. by rewrite Htm.
  - rewrite <- Permutation_middle, <- Ees. apply Forall_cons. split.
    + split; [by eapply same_data_Some|by rewrite Htm].
    + eapply Forall_impl; [apply (cc_timed _ _ _ H)|]. intros x [Hx1 Hx2].
      split; [by eapply same_data_Some|by rewrite Htm].
  - lia.
Qed.

(** A splice into the bucket [L1 ++ L2], seen from the ring that starts at the
    event after it. *)
Lemma rotate_spliced st st' e L1 L2 k ks :
  L2 ++ L1 = k :: ks -> ring st' (k :: ks ++ [e]) -> rehung (T := event) (k :: ks ++ [e]) st st' ->
  ring st' (L1 ++ e :: L2) /\ rehung (T := event) (e :: L1 ++ L2) st st'.
Proof.
  rewrite app_comm_cons. intros <- Hr Rh. split.
  - rewrite <- app_assoc in Hr. apply ring_rotate_app in Hr. by rewrite <- app_assoc in Hr.
  - eapply rehung_mono; [|exact Rh]. set_solver.
Qed.

(** ** The whole queue *)

Record cal_rep (st : events) (q : calq) (es : list positive) : Prop := {
  cr_core : cal_core st q es;
  cr_clock : fits (width_ (lay q)) (cal_clock_ q) = true;
  cr_early : Forall (fun x => fle (cal_clock_ q) (tm st x) = true) es;
  cr_last : lastbucket_ q = day (width_ (lay q)) (cal_clock_ q) mod nbuckets_ (lay q)
}.

Section place.
Context (st : events) (q : calq) (es : list positive) (e : positive) (ev : event) (fuel : nat).
Context (Hrep : cal_rep st q es) (He : e ∉ es) (Hev : st !! e = Some ev)
  (Hf : fits (width_ (lay q)) (time_ ev) = true) (Hm : (S (length es) <= max_events)%nat)
  (Hfuel : (length es <= fuel)%nat).

Let H : cal_core st q es := cr_core _ _ _ Hrep.

(** The clock set back to an event before it. *)
Let q1 : calq := if flt (time_ ev) (cal_clock_ q) then with_place (bucket_of q st e) (time_ ev) q else q.

Lemma q1_core : same_core q q1.
Proof. unfold q1. by destruct (flt _ _). Qed.

Lemma q1_clock :
  fits (width_ (lay q)) (cal_clock_ q1) = true /\ fle (cal_clock_ q1) (time_ ev) = true /\
  Forall (fun x => fle (cal_clock_ q1) (tm st x) = true) es /\
  lastbucket_ q1 = day (width_ (lay q)) (cal_clock_ q1) mod nbuckets_ (lay q).
Proof.
  pose proof (cr_clock _ _ _ Hrep) as Hc. pose proof (cr_early _ _ _ Hrep) as He1.
  pose proof (cc_width _ _ _ H) as Hw.
  pose proof (finite_pos_num _ (proj1 (fits_val _ _ Hw Hf))) as N1.
  pose proof (finite_pos_num _ (proj1 (fits_val _ _ Hw Hc))) as N2.
  unfold q1. destruct (flt (time_ ev) (cal_clock_ q)) eqn:E; cbn [cal_clock_ lastbucket_ with_place].
  - split_and!; [done|by apply fle_refl| |].
    + eapply Forall_impl; [exact He1|]. intros x Hx. apply flt_le. by eapply flt_le_trans.
    + unfold bucket_of. by rewrite (tm_Some _ _ _ Hev).
  - split_and!; [done|by apply flt_false_le|done|by apply Hrep].
Qed.

Definition place_ok : Prop :=
  exists st' q', cal_place fuel e st q = Ok (st', q') /\ cal_rep st' q' (ord_insert (tm st) e es) /\
    same_data st st' /\ lay q' = lay q.

Section cut.
Context (pre post : list positive) (b : bucket).
Context (Ees : es = pre ++ post) (Eoi : ord_insert (tm st) e es = pre ++ e :: post).
Context (Hpre : Forall (fun x => flt (tm st e) (tm st x) = false) pre)
  (Hpost : Forall (fun x => flt (tm st e) (tm st x) = true) post).

Let i : Z := bucket_of q st e.
Let L1 : list positive := content q st pre i.
Let L2 : list positive := content q st post i.

Context (Hb : buckets_ q !! Z.to_nat i = Some b).

Lemma bucket_content : content q st es i = L1 ++ L2.
Proof. by rewrite Ees, content_app. Qed.

Lemma bucket_index : 0 <= i < nbuckets_ (lay q).
Proof. pose proof (cc_n _ _ _ H). apply bucket_range. lia. Qed.

Lemma bucket_holds : holds st b (L1 ++ L2).
Proof.
  rewrite <- bucket_content. pose proof (cc_holds _ _ _ H _ _ Hb) as Hh.
  pose proof bucket_index. by rewrite Z2Nat.id in Hh by lia.
Qed.

Lemma event_time : tm st e = time_ ev.
Proof. by apply tm_Some. Qed.

Lemma event_num : is_nan (time_ ev) = false.
Proof. by apply finite_pos_num, (fits_val _ _ (cc_width _ _ _ H) Hf). Qed.

Lemma sorted_with_event : in_order (tm st) (pre ++ e :: post).
Proof.
  rewrite <- Eoi. apply ord_insert_in_order; [by rewrite event_time, event_num| |apply H].
  apply Forall_forall. intros x. by apply (core_num st q es).
Qed.

Lemma before_event x : x ∈ L1 -> flt (time_ ev) (tm st x) = false /\ is_nan (tm st x) = false.
Proof.
  intros [_ Hx]%elem_of_content. rewrite Forall_forall in Hpre. rewrite <- event_time.
  split; [by apply Hpre|]. apply (core_num st q es); [done|]. rewrite Ees. set_solver.
Qed.

Lemma after_event x : x ∈ L2 -> flt (time_ ev) (tm st x) = true.
Proof. intros [_ Hx]%elem_of_content. rewrite Forall_forall in Hpost. rewrite <- event_time. by apply Hpost. Qed.

Lemma event_not_in_bucket : e ∉ L1 ++ L2.
Proof. rewrite <- bucket_content, elem_of_content. by intros [_ ?]. Qed.

Lemma length_bucket : (length (L1 ++ L2) <= length es)%nat.
Proof. rewrite <- bucket_content. apply length_filter. Qed.

Lemma head_not_same : (match L2 with x :: _ => negb (feq (tm st x) (tm st e)) | [] => true end) = true.
Proof.
  pose proof after_event as Ha. destruct L2 as [|x L2']; [done|]. specialize (Ha x ltac:(by left)).
  rewrite event_time. destruct (feq (tm st x) (time_ ev)) eqn:Ef; [|done].
  apply feq_le, fle_not_lt in Ef. congruence.
Qed.

Lemma count_small : 0 <= count_ b < 2 ^ 31.
Proof.
  destruct bucket_holds as (_ & _ & ->). pose proof (distinct_bounds (tm st) (L1 ++ L2)).
  pose proof length_bucket. pose proof max_events_Z. lia.
Qed.

Lemma stat_small : 0 <= stat_qsize_ q < 2 ^ 31.
Proof. rewrite (cc_stat _ _ _ H). pose proof (counts_content st q es H). pose proof max_events_Z. lia. Qed.

(** What each of the three ways to hang the event comes to. *)
Lemma placed d st' q' :
  d = (if fresh_time (tm st) e L1 L2 then 1 else 0) ->
  ring st' (L1 ++ e :: L2) -> rehung (T := event) (e :: L1 ++ L2) st st' -> lay q' = lay q ->
  cal_clock_ q' = cal_clock_ q1 -> lastbucket_ q' = lastbucket_ q1 ->
  buckets_ q' = <[Z.to_nat i := Bucket (head (L1 ++ e :: L2)) (wrap_i32 (count_ b + d))]> (buckets_ q) ->
  stat_qsize_ q' = wrap_i32 (stat_qsize_ q + d) -> qsize_ q' = wrap_i32 (qsize_ q + 1) ->
  cal_rep st' q' (ord_insert (tm st) e es) /\ same_data st st' /\ lay q' = lay q.
Proof.
  intros -> R1 R2 El Ecl Ela Ebs Est Ez. destruct q1_clock as (C1 & C2 & C3 & C4).
  split; [|split; [by eapply rehung_same_data|done]].
  rewrite Eoi. constructor.
  - eapply (core_add st q es e pre post st' q' (Z.to_nat i) b); try done;
      [by rewrite event_time|apply sorted_with_event].
  - by rewrite El, Ecl.
  - rewrite <- Permutation_middle, <- Ees, Ecl.
    assert (Htm : forall x, tm st' x = tm st x) by (intros x; by eapply same_data_tm, rehung_same_data).
    apply Forall_cons. rewrite Htm, event_time. split; [done|].
    eapply Forall_impl; [exact C3|]. intros x Hx. by rewrite Htm.
  - by rewrite El, Ecl, Ela.
Qed.

(** The common beginning of [insert]. *)
Lemma place_begins :
  cal_place fuel e st q =
  let size := wrap_i32 (qsize_ q1 + 1) in
  match head (L1 ++ L2) with
  | None =>
      let! st := link_alone e st in
      Ok (st, with_buckets (wrap_i32 (stat_qsize_ q + 1)) size (<[Z.to_nat i := bump b (Some e) 1]> (buckets_ q)) q1)
  | Some h =>
      let q2 := with_snoop (searched 0 1 (snoop q1)) q1 in
      let! hv := load st (Some h) in
      if flt (time_ ev) (time_ hv) then
        let! st := link_head e h st in
        Ok (st, with_buckets (wrap_i32 (stat_qsize_ q + 1)) size (<[Z.to_nat i := bump b (Some e) 1]> (buckets_ q)) q2)
      else
        let! '(after, n) := find_after fuel (time_ ev) st (ev_prev hv) 0 in
        let q3 := with_snoop (searched 0 n (snoop q2)) q2 in
        let! st := link_after e after st in
        let! av := load st after in
        if flt (time_ av) (time_ ev) then
          Ok (st, with_buckets (wrap_i32 (stat_qsize_ q + 1)) size (<[Z.to_nat i := bump b (Some h) 1]> (buckets_ q)) q3)
        else Ok (st, with_buckets (stat_qsize_ q) size (buckets_ q) q3)
  end.
Proof.
  destruct q1_core as (Q1 & Q2 & Q3 & Q4). destruct bucket_holds as (Hl & _).
  assert (Haset : forall b', aset (buckets_ q) i b' = Ok (<[Z.to_nat i := b']> (buckets_ q)))
    by (intros b'; eapply core_aset; [exact H|apply bucket_index]).
  destruct (core_bucket st q es i H bucket_index) as (b0 & Eb0 & Hb0 & _). assert (b0 = b) as -> by congruence.
  unfold cal_place. rewrite (load_Some _ _ _ Hev). cbn [rbind].
  rewrite (core_hash st q es e ev H Hev Hf). cbn [rbind]. fold q1 i.
  rewrite Q2, Eb0. cbn [rbind]. rewrite Hl. cbn zeta.
  destruct (head (L1 ++ L2)) as [h|]; cbn [with_snoop buckets_ stat_qsize_ qsize_]; [|by rewrite Q3, Haset].
  by rewrite Q2, Q3, !Haset.
Qed.

Lemma place_alone : L1 ++ L2 = [] -> place_ok.
Proof.
  intros EL. destruct q1_core as (Q1 & Q2 & Q3 & Q4). unfold place_ok. rewrite place_begins, EL. cbn [head].
  apply app_eq_nil in EL as [EL1 EL2].
  destruct (link_alone_spec st e ev Hev) as (st' & -> & R1 & R2). cbn [rbind].
  eexists _, _. split; [reflexivity|]. apply (placed 1); rewrite ?EL1, ?EL2; try done.
  cbn. by rewrite Q4.
Qed.

Lemma place_front h rest : L1 = [] -> L2 = h :: rest -> place_ok.
Proof.
  intros EL1 EL2. destruct q1_core as (Q1 & Q2 & Q3 & Q4). unfold place_ok.
  rewrite place_begins, EL1, EL2. cbn [app head].
  pose proof bucket_holds as (_ & Hr & _). rewrite EL1, EL2 in Hr. cbn [app] in Hr.
  destruct (ring_lookup st (h :: rest) h Hr ltac:(by left)) as [hv Hhv].
  rewrite (load_Some _ _ _ Hhv). cbn [rbind]. rewrite <- (tm_Some _ _ _ Hhv).
  rewrite (after_event h) by (rewrite EL2; by left).
  destruct (last (h :: rest)) as [t|] eqn:Elast; [|by apply last_None in Elast].
  pose proof event_not_in_bucket as HeL. rewrite EL1, EL2 in HeL.
  destruct (link_head_spec st e h t rest ev Hr Elast HeL Hev) as (st' & -> & R1 & R2). cbn [rbind].
  destruct (rotate_spliced st st' e [] (h :: rest) h rest (app_nil_r _) R1 R2) as [R3 R4].
  eexists _, _. split; [reflexivity|]. apply (placed 1); rewrite ?EL1, ?EL2; try done.
  - pose proof head_not_same as Hh. rewrite EL2 in Hh. unfold fresh_time. cbn [last andb]. by rewrite Hh.
  - cbn. by rewrite Q4.
Qed.

(** The walk over the bucket, and the ring it leaves the event on. *)
Lemma back_search L0 a h rest hv :
  L1 = L0 ++ [a] -> L1 ++ L2 = h :: rest -> st !! h = Some hv ->
  exists n, find_after fuel (time_ ev) st (ev_prev hv) 0 = Ok (Some a, n).
Proof.
  intros EL1 EL Hhv. pose proof bucket_holds as (_ & Hr & _). rewrite EL in Hr.
  destruct (last (h :: rest)) as [t|] eqn:Elast; [|by apply last_None in Elast].
  destruct (ring_head_prev st h rest t Hr Elast) as (hv' & Hhv' & Epv).
  assert (hv' = hv) as -> by congruence.
  assert (Efull : h :: rest = L0 ++ a :: L2) by (by rewrite <- EL, EL1, <- app_assoc).
  eexists. rewrite Epv, <- Elast, Efull. apply find_after_spec; [by rewrite <- Efull| | |].
  - apply before_event. rewrite EL1. set_solver.
  - apply Forall_forall, after_event.
  - pose proof length_bucket as Hl. rewrite EL, Efull, length_app in Hl. cbn in Hl. lia.
Qed.

Lemma back_link L0 a :
  L1 = L0 ++ [a] ->
  exists st', link_after e (Some a) st = Ok st' /\ ring st' (L1 ++ e :: L2) /\
    rehung (T := event) (e :: L1 ++ L2) st st'.
Proof.
  intros EL1. pose proof bucket_holds as (_ & Hr & _). apply ring_rotate_app in Hr.
  destruct (L2 ++ L1) as [|k ks] eqn:Ek; [by rewrite EL1 in Ek; destruct L2, L0|].
  assert (Hlk : last (k :: ks) = Some a) by (by rewrite <- Ek, EL1, app_assoc, last_snoc).
  assert (Hek : e ∉ k :: ks).
  { rewrite <- Ek. pose proof event_not_in_bucket. set_solver. }
  destruct (link_after_spec st e k a ks ev Hr Hlk Hek Hev) as (st' & E & R1 & R2).
  exists st'. split; [exact E|]. by eapply rotate_spliced.
Qed.

Lemma back_fresh L0 a : L1 = L0 ++ [a] -> fresh_time (tm st) e L1 L2 = flt (tm st a) (time_ ev).
Proof.
  intros EL1. unfold fresh_time. rewrite head_not_same, andb_true_r, EL1, last_snoc, event_time.
  destruct (before_event a) as [Ha Na]; [rewrite EL1; set_solver|]. pose proof event_num.
  destruct (feq (tm st a) (time_ ev)) eqn:E3, (flt (tm st a) (time_ ev)) eqn:E4; try done; exfalso; forder.
Qed.

Lemma place_back L0 a : L1 = L0 ++ [a] -> place_ok.
Proof.
  intros EL1. destruct q1_core as (Q1 & Q2 & Q3 & Q4). unfold place_ok. rewrite place_begins.
  pose proof bucket_holds as (Hl & Hr & _).
  destruct (L1 ++ L2) as [|h rest] eqn:EL; [by rewrite EL1 in EL; destruct L0|].
  cbn [head] in *. destruct (ring_lookup st (h :: rest) h Hr ltac:(by left)) as [hv Hhv].
  rewrite (load_Some _ _ _ Hhv). cbn [rbind]. rewrite <- (tm_Some _ _ _ Hhv).
  rewrite (proj1 (before_event h ltac:(rewrite EL1; rewrite EL1 in EL; destruct L0; injection EL as ->; set_solver))).
  destruct (back_search L0 a h rest hv EL1 EL Hhv) as [n ->]. cbn [rbind].
  destruct (back_link L0 a EL1) as (st' & -> & R3 & R4). cbn [rbind].
  destruct (ring_lookup st' _ a R3) as [av Hav]; [rewrite EL1; set_solver|].
  rewrite (load_Some _ _ _ Hav). cbn [rbind].
  rewrite <- (tm_Some _ _ _ Hav), (same_data_tm st st' a (rehung_same_data _ _ _ R4)).
  pose proof (back_fresh L0 a EL1) as Hfresh.
  assert (Ehead : head (L1 ++ e :: L2) = Some h).
  { rewrite EL1 in EL |- *. destruct L0; injection EL as ->; done. }
  destruct (flt (tm st a) (time_ ev)) eqn:E5; (eexists _, _; split; [reflexivity|]).
  - apply (placed 1); rewrite ?Hfresh, ?Ehead; try done. cbn. by rewrite Q4.
  - apply (placed 0); rewrite ?Hfresh, ?Ehead; try done; cbn; [| |by rewrite Q4].
    + rewrite Z.add_0_r, wrap_small, <- Hl by (apply count_small). destruct b. by rewrite list_insert_id.
    + rewrite Z.add_0_r, wrap_small; [done|apply stat_small].
Qed.
End cut.

Lemma place_spec : place_ok.
Proof.
  destruct (sorted_cut (tm st) e es (cc_order _ _ _ H)) as (pre & post & Ees & Eoi & Hpre & Hpost).
  destruct (core_bucket st q es _ H (bucket_range q st e ltac:(apply (cc_n _ _ _ H)))) as (b & _ & Hb & _).
  destruct (last (content q st pre (bucket_of q st e))) as [a|] eqn:E1.
  - apply last_Some in E1 as [L0 E1]. by eapply place_back.
  - apply last_None in E1. destruct (content q st post (bucket_of q st e)) as [|h rest] eqn:E2.
    + eapply place_alone; try done. by rewrite E1, E2.
    + by eapply place_front.
Qed.
End place.
