(* ===== verification/CalResize.v ===== *)
(** * The calendar queue: resizing

    [resize] empties the buckets from their tails into new ones with
    [insert2], which puts an event before those of its own time: the events
    of one time come from one bucket, so they keep their order. *)

From stdpp Require Import base numbers list gmap sorting.
From Stdlib Require Import ZArith Lia Bool QArith Lqa.
From S2P Require Import Prelude.
From S2P Require Import Store.
From S2P Require Import Float64.
From S2P Require Import Array.
From S2P Require Import Dlist.
From S2P Require Import EventQueue.
From S2P Require Import Ring.
From S2P Require Import FloatBounds.
From S2P Require Import Calendar.
From S2P Require Import CalTime.
From S2P Require Import CalProps.
From S2P Require Import CalInsert.

Local Open Scope Z_scope.

(** The walk forward over the earlier events. *)
Lemma find_before_spec st t pre b post : forall fuel,
  ring st (pre ++ b :: post) -> flt (tm st b) t = false ->
  Forall (fun x => flt (tm st x) t = true) pre -> (length pre <= fuel)%nat ->
  find_before fuel t st (head (pre ++ b :: post)) = Ok (Some b).
Proof.
  intros fuel Hr Hb Hp Hf.
  enough (Hgen : forall p2 p1, pre = p1 ++ p2 -> forall fuel, (length p2 <= fuel)%nat ->
    find_before fuel t st (head (p2 ++ b :: post)) = Ok (Some b)) by (by apply (Hgen pre [])).
  clear fuel Hf. induction p2 as [|x p2 IH]; intros p1 Ep fuel Hf.
  - destruct (ring_lookup st _ b Hr) as [v Hv]; [set_solver|]. cbn [app head].
    destruct fuel; cbn [find_before]; rewrite (load_Some _ _ _ Hv); cbn [rbind];
      rewrite <- (tm_Some _ _ _ Hv), Hb; done.
  - assert (Hx : flt (tm st x) t = true) by (rewrite Forall_forall in Hp; apply Hp; set_solver).
    assert (Hy : exists y l2, p2 ++ b :: post = y :: l2 /\ head (p2 ++ b :: post) = Some y).
    { destruct p2 as [|y p2]; eexists _, _; done. }
    destruct Hy as (y & l2 & Ey & Eh). rewrite Ep, <- app_assoc in Hr. cbn [app] in Hr. rewrite Ey in Hr.
    destruct (ring_next _ _ _ _ _ Hr) as (v & Hv & En). cbn [app head].
    destruct fuel as [|fuel]; [cbn in Hf; lia|]. cbn [find_before]. rewrite (load_Some _ _ _ Hv). cbn [rbind].
    rewrite <- (tm_Some _ _ _ Hv), Hx, En, <- Eh. apply (IH (p1 ++ [x])); [by rewrite <- app_assoc|cbn in Hf; lia].
Qed.

(** Nothing else of the object moves. *)
Definition same_place (q q' : calq) : Prop :=
  lay q' = lay q /\ lastbucket_ q' = lastbucket_ q /\ cal_clock_ q' = cal_clock_ q /\ snoop q' = snoop q.

Lemma same_place_trans q1 q2 q3 : same_place q1 q2 -> same_place q2 q3 -> same_place q1 q3.
Proof. unfold same_place. intros (-> & -> & -> & ->) (-> & -> & -> & ->). done. Qed.

Section insert2.
Context (st : events) (q : calq) (pre post : list positive) (e : positive) (ev : event) (fuel : nat).
Let es : list positive := pre ++ post.
Context (H : cal_core st q es) (He : e ∉ es) (Hev : st !! e = Some ev)
  (Hf : fits (width_ (lay q)) (time_ ev) = true) (Hm : (S (length es) <= max_events)%nat)
  (Hfuel : (length es <= fuel)%nat).
Context (Hpre : Forall (fun x => flt (tm st x) (tm st e) = true) pre)
  (Hpost : Forall (fun x => flt (tm st x) (tm st e) = false) post)
  (Ho : in_order (tm st) (pre ++ e :: post)).

Let i : Z := bucket_of q st e.
Let L1 : list positive := content q st pre i.
Let L2 : list positive := content q st post i.

Context (b : bucket) (Hb : buckets_ q !! Z.to_nat i = Some b).

Lemma i2_index : 0 <= i < nbuckets_ (lay q).
Proof. pose proof (cc_n _ _ _ H). apply bucket_range. lia. Qed.

Lemma i2_content : content q st es i = L1 ++ L2.
Proof. apply content_app. Qed.

Lemma i2_holds : holds st b (L1 ++ L2).
Proof.
  rewrite <- i2_content. pose proof (cc_holds _ _ _ H _ _ Hb) as Hh.
  pose proof i2_index. by rewrite Z2Nat.id in Hh by lia.
Qed.

Lemma i2_not_in : e ∉ L1 ++ L2.
Proof. rewrite <- i2_content, elem_of_content. by intros [_ ?]. Qed.

Lemma i2_before x : x ∈ L1 -> flt (tm st x) (tm st e) = true.
Proof. intros [_ Hx]%elem_of_content. rewrite Forall_forall in Hpre. by apply Hpre. Qed.

Lemma i2_after x : x ∈ L2 -> flt (tm st x) (tm st e) = false.
Proof. intros [_ Hx]%elem_of_content. rewrite Forall_forall in Hpost. by apply Hpost. Qed.

Lemma i2_length : (length L1 <= fuel)%nat.
Proof.
  pose proof (length_filter (fun x => bucket_of q st x = i) es) as Hl. fold (content q st es i) in Hl.
  rewrite i2_content, length_app in Hl. lia.
Qed.

(** Only the event that follows may have the same time. *)
Lemma i2_fresh :
  fresh_time (tm st) e L1 L2 = match L2 with x :: _ => negb (feq (tm st x) (tm st e)) | [] => true end.
Proof.
  unfold fresh_time. destruct (last L1) as [a|] eqn:Ea; [|done].
  assert (Ha : a ∈ L1) by (by apply last_Some_elem_of). apply i2_before in Ha.
  by rewrite (flt_not_eq _ _ Ha).
Qed.

Definition insert2_ok : Prop :=
  exists st' q', insert2 fuel e st q = Ok (st', q') /\ cal_core st' q' (pre ++ e :: post) /\
    same_data st st' /\ same_place q q' /\ (forall k, k ∉ e :: es -> st' !! k = st !! k).

Lemma i2_placed d st' bs :
  d = (if fresh_time (tm st) e L1 L2 then 1 else 0) ->
  ring st' (L1 ++ e :: L2) -> rehung (T := event) (e :: L1 ++ L2) st st' ->
  bs = <[Z.to_nat i := Bucket (head (L1 ++ e :: L2)) (wrap_i32 (count_ b + d))]> (buckets_ q) ->
  insert2 fuel e st q = Ok (st', with_buckets (wrap_i32 (stat_qsize_ q + d)) (wrap_i32 (qsize_ q + 1)) bs q) ->
  insert2_ok.
Proof.
  intros Hd R1 R2 Hbs E. eexists st', _. split; [exact E|]. split; [|split_and!; [by eapply rehung_same_data|done|]].
  - rewrite Hd in *. eapply (core_add st q es e pre post st' _ (Z.to_nat i) b); try done.
    by rewrite (tm_Some _ _ _ Hev).
  - intros k Hk. apply R2. intros Hin. apply Hk. apply elem_of_cons in Hin as [->|Hin]; [by left|right].
    rewrite <- i2_content in Hin. by apply elem_of_content in Hin as [_ ?].
Qed.

Lemma i2_begins :
  insert2 fuel e st q =
  let size := wrap_i32 (qsize_ q + 1) in
  match head (L1 ++ L2) with
  | None =>
      let! st := link_alone e st in
      Ok (st, with_buckets (wrap_i32 (stat_qsize_ q + 1)) size (<[Z.to_nat i := bump b (Some e) 1]> (buckets_ q)) q)
  | Some h =>
      let! hv := load st (Some h) in
      let! pv := load st (ev_prev hv) in
      let! before :=
        if flt (time_ pv) (time_ ev) then Ok (Some h) else find_before fuel (time_ ev) st (Some h) in
      let newhead := negb (flt (time_ pv) (time_ ev)) && bool_decide (before = Some h) in
      let! st := link_before e before st in
      let b := if newhead then Bucket (Some e) (count_ b) else b in
      let! ev := load st (Some e) in
      let! nv := load st (ev_next ev) in
      if negb (bool_decide (ev_next ev = Some e)) && negb (feq (time_ nv) (time_ ev)) then
        Ok (st, with_buckets (wrap_i32 (stat_qsize_ q + 1)) size (<[Z.to_nat i := bump b (list_ b) 1]> (buckets_ q)) q)
      else Ok (st, with_buckets (stat_qsize_ q) size (<[Z.to_nat i := b]> (buckets_ q)) q)
  end.
Proof.
  destruct i2_holds as (Hl & _).
  assert (Haset : forall b', aset (buckets_ q) i b' = Ok (<[Z.to_nat i := b']> (buckets_ q)))
    by (intros b'; eapply core_aset; [exact H|apply i2_index]).
  destruct (core_bucket st q es i H i2_index) as (b0 & Eb0 & Hb0 & _). assert (b0 = b) as -> by congruence.
  unfold insert2. rewrite (load_Some _ _ _ Hev). cbn [rbind].
  rewrite (core_hash st q es e ev H Hev Hf). cbn [rbind]. fold i. rewrite Eb0. cbn [rbind]. rewrite Hl. cbn zeta.
  destruct (head (L1 ++ L2)) as [h|]; [|by rewrite Haset].
  destruct (load st (Some h)) as [hv| |]; [|done..]. cbn [rbind].
  destruct (load st (ev_prev hv)) as [pv| |]; [|done..]. cbn [rbind].
  destruct (if flt (time_ pv) (time_ ev) then _ else _) as [before| |]; [|done..]. cbn [rbind].
  destruct (link_before e before st) as [st'| |]; [|done..]. cbn [rbind].
  destruct (load st' (Some e)) as [ev'| |]; [|done..]. cbn [rbind].
  destruct (load st' (ev_next ev')) as [nv| |]; [|done..]. cbn [rbind].
  by rewrite !Haset.
Qed.

Lemma i2_alone : L1 ++ L2 = [] -> insert2_ok.
Proof.
  intros EL. pose proof i2_begins as E. rewrite EL in E. cbn [head] in E.
  apply app_eq_nil in EL as [EL1 EL2].
  destruct (link_alone_spec st e ev Hev) as (st' & E1 & R1 & R2). rewrite E1 in E. cbn [rbind] in E.
  eapply (i2_placed 1); [|..|exact E]; rewrite ?EL1, ?EL2; done.
Qed.

(** The event hung before [k], the first of the ring from there on. *)
Lemma i2_link k ks :
  L2 ++ L1 = k :: ks ->
  exists st' ev', link_before e (Some k) st = Ok st' /\ ring st' (L1 ++ e :: L2) /\
    rehung (T := event) (e :: L1 ++ L2) st st' /\ st' !! e = Some ev' /\ ev_next ev' = Some k.
Proof.
  intros Ek. pose proof i2_holds as (_ & Hr & _). apply ring_rotate_app in Hr. rewrite Ek in Hr.
  destruct (last (k :: ks)) as [t|] eqn:Elast; [|by apply last_None in Elast].
  assert (Hek : e ∉ k :: ks) by (rewrite <- Ek; pose proof i2_not_in; set_solver).
  destruct (link_before_spec st e k t ks ev Hr Elast Hek Hev) as (st' & E & R1 & R2).
  rewrite app_comm_cons in R1.
  destruct (ring_last_next st' k (ks ++ [e]) e R1) as (ev' & He' & En); [by rewrite app_comm_cons, last_snoc|].
  exists st', ev'. split; [exact E|]. destruct (rotate_spliced st st' e L1 L2 k ks Ek R1 R2) as [R3 R4].
  by split_and!.
Qed.

(** What follows once the place is known. *)
Lemma i2_finish k ks h rest hv pv :
  L2 ++ L1 = k :: ks -> L1 ++ L2 = h :: rest -> st !! h = Some hv -> load st (ev_prev hv) = Ok pv ->
  (if flt (time_ pv) (time_ ev) then Ok (Some h) else find_before fuel (time_ ev) st (Some h)) = Ok (Some k) ->
  flt (time_ pv) (time_ ev) = bool_decide (L2 = []) ->
  insert2_ok.
Proof.
  intros Ek EL Hhv Hpv Hbefore Hlast. pose proof i2_begins as E. pose proof i2_holds as (Hl & Hr & _).
  rewrite EL in E. cbn [head] in E. rewrite (load_Some _ _ _ Hhv) in E. cbn [rbind] in E.
  rewrite Hpv in E. cbn [rbind] in E. rewrite Hbefore in E. cbn [rbind] in E.
  destruct (i2_link k ks Ek) as (st' & ev' & E1 & R1 & R2 & Hev' & En). rewrite E1 in E. cbn [rbind] in E.
  rewrite (load_Some _ _ _ Hev') in E. cbn [rbind] in E. rewrite En in E.
  assert (Hkin : k ∈ L1 ++ L2) by (rewrite (comm app), Ek; by left).
  assert (Hke : k <> e) by (intros ->; by apply i2_not_in).
  destruct (ring_lookup st' _ k R1) as [nv Hnv]; [set_solver|].
  rewrite (load_Some _ _ _ Hnv) in E. cbn [rbind] in E.
  rewrite bool_decide_eq_false_2 in E by congruence. cbn [negb andb] in E.
  rewrite <- (tm_Some _ _ _ Hnv), <- (tm_Some _ _ _ Hev'), !(same_data_tm st st' _ (rehung_same_data _ _ _ R2)) in E.
  assert (Efr : fresh_time (tm st) e L1 L2 = negb (feq (tm st k) (tm st e))).
  { rewrite i2_fresh. destruct L2 as [|x L2'] eqn:EL2; [|by injection Ek as ->].
    cbn [app] in Ek. rewrite (flt_not_eq (tm st k)); [done|]. apply i2_before. rewrite Ek. by left. }
  set (b' := if negb _ && bool_decide _ then _ else b) in E.
  assert (Eb' : b' = Bucket (head (L1 ++ e :: L2)) (count_ b)).
  { unfold b'. rewrite Hlast. destruct L2 as [|x L2'] eqn:EL2; cbn [bool_decide].
    - rewrite bool_decide_eq_true_2 by done. cbn [negb andb]. rewrite app_nil_r in EL. rewrite EL. cbn [app head].
      rewrite app_nil_r, EL in Hl. cbn [head] in Hl. rewrite <- Hl. by destruct b.
    - rewrite bool_decide_eq_false_2 by done. cbn [negb andb]. injection Ek as -> Ek.
      destruct L1 as [|y L1'] eqn:EL1; cbn [app head] in *.
      + injection EL as ->. by rewrite bool_decide_eq_true_2.
      + injection EL as -> EL. rewrite bool_decide_eq_false_2.
        * rewrite <- Hl. by destruct b.
        * intros [= ->]. destruct Hr as [Hnd _]. apply NoDup_cons in Hnd as [Hnd _]. set_solver. }
  rewrite Eb' in E. destruct (feq (tm st k) (tm st e)) eqn:Ef; cbn [negb] in E.
  - eapply (i2_placed 0); rewrite ?Efr; [done|exact R1|exact R2|reflexivity|].
    rewrite !Z.add_0_r. rewrite (wrap_small (count_ b)), (wrap_small (stat_qsize_ q)); [exact E|..].
    + rewrite (cc_stat _ _ _ H). pose proof (counts_content st q es H). pose proof max_events_Z. lia.
    + destruct i2_holds as (_ & _ & ->). pose proof (distinct_bounds (tm st) (L1 ++ L2)).
      pose proof (length_filter (fun x => bucket_of q st x = i) es) as Hlen. fold (content q st es i) in Hlen.
      rewrite i2_content in Hlen. pose proof max_events_Z. lia.
  - eapply (i2_placed 1); rewrite ?Efr; [done|exact R1|exact R2|reflexivity|]. exact E.
Qed.

Lemma insert2_spec : insert2_ok.
Proof.
  pose proof i2_holds as (_ & Hr & _).
  destruct (L1 ++ L2) as [|h rest] eqn:EL; [by apply i2_alone|].
  destruct (L2 ++ L1) as [|k ks] eqn:Ek.
  { apply app_eq_nil in Ek as [E1 E2]. by rewrite E1, E2 in EL. }
  destruct (last (h :: rest)) as [t|] eqn:Elast; [|by apply last_None in Elast].
  destruct (ring_head_prev st h rest t Hr Elast) as (hv & Hhv & Epv).
  destruct (ring_lookup st _ t Hr) as [pv Hpv]; [by apply last_Some_elem_of|].
  destruct L2 as [|y L2'] eqn:EL2.
  - rewrite app_nil_r in EL. cbn [app] in Ek. rewrite EL in Ek. injection Ek as -> ->.
    assert (Hlt : flt (time_ pv) (time_ ev) = true).
    { rewrite <- (tm_Some _ _ _ Hpv), <- (tm_Some _ _ _ Hev). apply i2_before. fold L1. rewrite EL.
      by apply last_Some_elem_of. }
    eapply (i2_finish k ks k ks hv pv); fold L2 L1; rewrite ?EL2, ?app_nil_r; try done.
    + rewrite Epv. by apply load_Some.
    + by rewrite Hlt.
  - cbn [app] in Ek. injection Ek as -> Ek.
    assert (Ht : t ∈ L2).
    { rewrite <- EL, last_app in Elast. rewrite EL2. destruct (last (k :: L2')) eqn:E2; [|by apply last_None in E2].
      injection Elast as <-. by apply last_Some_elem_of. }
    assert (Hlt : flt (time_ pv) (time_ ev) = false).
    { rewrite <- (tm_Some _ _ _ Hpv), <- (tm_Some _ _ _ Hev). by apply i2_after. }
    eapply (i2_finish k ks h rest hv pv); fold L2 L1; rewrite ?EL2; try done.
    + cbn [app]. by rewrite Ek.
    + by rewrite Epv, (load_Some _ _ _ Hpv).
    + rewrite Hlt. pose proof (find_before_spec st (time_ ev) L1 k L2' fuel) as Hfb. rewrite EL in Hfb.
      apply Hfb; [done| | |apply i2_length].
      * rewrite <- (tm_Some _ _ _ Hev). apply i2_after. fold L2. rewrite EL2. by left.
      * apply Forall_forall. intros x Hx. rewrite <- (tm_Some _ _ _ Hev). by apply i2_before.
Qed.
End insert2.

(** ** Moving the events *)

Lemma NoDup_split {A} (x : A) l1 l2 m1 m2 :
  NoDup (l1 ++ x :: l2) -> l1 ++ x :: l2 = m1 ++ x :: m2 -> l1 = m1 /\ l2 = m2.
Proof.
  revert m1. induction l1 as [|y l1 IH]; intros m1 Hnd E; cbn [app] in *.
  - destruct m1 as [|z m1]; cbn [app] in E; [by injection E as ->|].
    injection E as <- E. apply NoDup_cons in Hnd as [Hx _]. rewrite E in Hx. set_solver.
  - apply NoDup_cons in Hnd as [Hy Hnd]. destruct m1 as [|z m1]; cbn [app] in E.
    + injection E as -> _. set_solver.
    + injection E as <- E. destruct (IH m1 Hnd E) as [-> ->]. done.
Qed.

Lemma core_frame st st' q es :
  cal_core st q es -> (forall k, k ∈ es -> st' !! k = st !! k) -> cal_core st' q es.
Proof.
  intros H Hk. assert (Htm : forall x, x ∈ es -> tm st' x = tm st x) by (intros x Hx; unfold tm; by rewrite Hk).
  constructor; try (by apply H).
  - intros i b Hb. rewrite (content_ext q q st st' es) by done. eapply holds_frame; [by apply (cc_holds _ _ _ H)|].
    intros k [_ Hin]%elem_of_content. by apply Hk.
  - eapply in_order_ext; [|apply (cc_order _ _ _ H)]. apply Forall_forall. intros x Hx. by rewrite Htm.
  - pose proof (cc_timed _ _ _ H) as Ht. rewrite Forall_forall in Ht |- *. intros x Hx.
    unfold timed. rewrite Htm, Hk by done. by apply Ht.
Qed.

Section move.
Context (st0 : events) (q0 : calq) (es0 : list positive) (H0 : cal_core st0 q0 es0).
Context (l : layout) (Hw : good_width (width_ l) = true)
  (Hfit : Forall (fun x => fits (width_ l) (tm st0 x) = true) es0).
Context (fuel : nat) (Hfuel : (length es0 <= fuel)%nat).

(** The events [P] are in the new buckets, the others as they were. *)
Definition moved (P : list positive) (st : events) (q : calq) : Prop :=
  cal_core st q (filter (fun x => x ∈ P) es0) /\ lay q = l /\ same_data st0 st /\
  (forall k, k ∉ P -> st !! k = st0 !! k).

Lemma moved_ext P P' st q : (forall x, x ∈ P <-> x ∈ P') -> moved P st q -> moved P' st q.
Proof.
  intros E (H1 & H2 & H3 & H4). split; [|split_and!; [done|done|]].
  - erewrite filter_ext_in; [exact H1|]. intros x _. by rewrite E.
  - intros k Hk. apply H4. by rewrite E.
Qed.

Lemma move_one P st q e E1 E2 ev :
  moved P st q -> es0 = E1 ++ e :: E2 -> e ∉ P -> st !! e = Some ev ->
  (forall x, x ∈ E1 -> x ∈ P -> feq (tm st0 x) (tm st0 e) = false) ->
  exists st' q', insert2 fuel e (<[e := set_next None (set_prev None ev)]> st) q = Ok (st', q') /\
    moved (e :: P) st' q' /\ same_place q q'.
Proof.
  intros (H & Hl & Hsd & Hfr) Ees HeP Hev Heq.
  set (st1 := <[e := _]> st).
  pose proof (cc_nodup _ _ _ H0) as Hnd. pose proof (cc_order _ _ _ H0) as Hor.
  assert (Hsd1 : same_data st0 st1).
  { intros k. unfold st1. destruct (decide (k = e)) as [->|]; [rewrite lookup_insert_eq|rewrite lookup_insert_ne by done; apply Hsd].
    rewrite <- Hsd, Hev. done. }
  assert (Htm : forall x, tm st1 x = tm st0 x) by (intros x; by apply same_data_tm).
  assert (Hin : e ∈ es0) by (rewrite Ees; set_solver).
  assert (HE : e ∉ E1 /\ e ∉ E2).
  { rewrite Ees in Hnd. apply NoDup_app in Hnd as (_ & Hd & Hnd). apply NoDup_cons in Hnd as [? _].
    split; [intros Hi; apply (Hd e Hi); by left|done]. }
  set (pre := filter (fun x => x ∈ P) E1). set (post := filter (fun x => x ∈ P) E2).
  assert (Efil : filter (fun x => x ∈ P) es0 = pre ++ post).
  { rewrite Ees, filter_app, filter_cons, decide_False by done. done. }
  assert (Efil' : filter (fun x => x ∈ e :: P) es0 = pre ++ e :: post).
  { rewrite Ees, filter_app, filter_cons, decide_True by (by left). f_equal; [|f_equal];
      (apply filter_ext_in; intros x Hx; rewrite elem_of_cons; split; [intros [->|?]; [by destruct HE|done]|by right]). }
  assert (Hord : in_order (tm st1) (pre ++ e :: post)).
  { rewrite <- Efil'. eapply in_order_ext; [apply Forall_forall; intros x _; symmetry; apply Htm|].
    clear - Hor. induction Hor as [|x es Hs IH Hx]; [constructor|]. rewrite filter_cons.
    destruct (decide _); [|done]. constructor; [done|]. rewrite Forall_forall in Hx |- *.
    intros y [_ Hy]%list_elem_of_filter. by apply Hx. }
  rewrite Efil in H.
  assert (H' : cal_core st1 q (pre ++ post)).
  { eapply core_frame; [exact H|]. intros k Hk. unfold st1. rewrite lookup_insert_ne; [done|]. intros <-.
    apply HeP. rewrite <- Efil in Hk. by apply list_elem_of_filter in Hk as [? _]. }
  assert (HeL : e ∉ pre ++ post).
  { rewrite <- Efil. intros [? _]%list_elem_of_filter. done. }
  pose proof (core_bucket st1 q (pre ++ post) (bucket_of q st1 e) H') as Hcb.
  destruct Hcb as (b & _ & Hb & _); [apply bucket_range, (cc_n _ _ _ H')|].
  rewrite Forall_forall in Hfit.
  destruct (insert2_spec st1 q pre post e (set_next None (set_prev None ev)) fuel H' HeL (lookup_insert_eq _ _ _))
    with (b := b) as (st' & q' & E & Hc & Hsd' & Hp & Hfr'); try done.
  - rewrite Hl. rewrite <- (tm_Some st1 e _ (lookup_insert_eq _ _ _)), Htm. by apply Hfit.
  - rewrite <- Efil. transitivity (length es0); [|apply H0].
    transitivity (length (filter (fun x => x ∈ e :: P) es0)); [|apply length_filter].
    rewrite Efil', Efil, !length_app. cbn. lia.
  - rewrite <- Efil. etransitivity; [apply length_filter|done].
  - apply Forall_forall. intros x [HxP HxE]%list_elem_of_filter. rewrite !Htm.
    pose proof (Heq x HxE HxP) as Hne. rewrite Ees in Hor. apply StronglySorted_app in Hor as (Hor & _ & _).
    assert (Hle : fle (tm st0 x) (tm st0 e) = true) by (apply Hor; [done|by left]).
    destruct (flt (tm st0 x) (tm st0 e)) eqn:Elt; [done|]. exfalso. forder.
  - apply Forall_forall. intros x [HxP HxE]%list_elem_of_filter. rewrite !Htm. apply fle_not_lt.
    rewrite Ees in Hor. apply StronglySorted_app in Hor as (_ & _ & Hor). apply StronglySorted_inv in Hor as [_ Hor].
    rewrite Forall_forall in Hor. by apply Hor.
  - exists st', q'. split; [exact E|]. split; [|done]. split; [by rewrite Efil'|].
    split; [by destruct Hp as (-> & _)|]. split; [by eapply same_data_trans|].
    intros k Hk. rewrite Hfr'.
    + unfold st1. rewrite lookup_insert_ne by set_solver. apply Hfr. set_solver.
    + rewrite <- Efil. intros [->|Hin']%elem_of_cons; [set_solver|]. apply list_elem_of_filter in Hin' as [? _]. set_solver.
Qed.

Lemma old_timed x : x ∈ es0 -> is_Some (st0 !! x).
Proof. intros Hx. pose proof (cc_timed _ _ _ H0) as Ht. rewrite Forall_forall in Ht. by apply Ht. Qed.

(** Events of one time come from one bucket. *)
Lemma same_bucket x y :
  x ∈ es0 -> y ∈ es0 -> feq (tm st0 x) (tm st0 y) = true -> bucket_of q0 st0 x = bucket_of q0 st0 y.
Proof.
  intros Hx Hy E. pose proof (cc_timed _ _ _ H0) as Ht. rewrite Forall_forall in Ht.
  unfold bucket_of. f_equal. apply day_feq; [apply H0|by apply Ht|by apply Ht|done].
Qed.

(** The events of a bucket, from its tail: [D] have gone, [A] are left. *)
Lemma move_bucket_spec j L t : forall A D P st q loop,
  L = content q0 st0 es0 j -> L = A ++ D -> A <> [] -> ring st0 L -> last L = Some t ->
  moved P st q -> (forall x, x ∈ A -> x ∉ P) -> (length A <= loop)%nat ->
  exists st' q' P', move_bucket loop fuel (Some t) (last A) st q = Ok (st', q') /\ moved P' st' q' /\
    (forall x, x ∈ P' <-> x ∈ A \/ x ∈ P) /\ same_place q q'.
Proof.
  intros A. induction A as [|e A IH] using rev_ind; intros D P st q loop EL EA Hne Hr Ht Hmv HP Hf; [done|].
  rewrite last_snoc, length_app in *. cbn [length] in Hf. destruct loop as [|loop]; [lia|].
  rewrite <- app_assoc in EA. cbn [app] in EA.
  assert (HeL : e ∈ L) by (rewrite EA; set_solver).
  assert (Hee : bucket_of q0 st0 e = j /\ e ∈ es0) by (rewrite EL in HeL; by apply elem_of_content).
  destruct Hee as [Hej Hes]. destruct (old_timed e Hes) as [ev Hev0].
  assert (HeP : e ∉ P) by (apply HP; set_solver).
  assert (Hev : st !! e = Some ev) by (destruct Hmv as (_ & _ & _ & Hfr); by rewrite Hfr).
  apply list_elem_of_split in Hes as (E1 & E2 & Ees).
  assert (Econt : content q0 st0 E1 j = A).
  { pose proof (cc_nodup _ _ _ H0) as Hnd. destruct Hr as [HndL _].
    assert (Ec : L = content q0 st0 E1 j ++ e :: content q0 st0 E2 j).
    { rewrite EL, Ees, content_middle. by rewrite decide_True. }
    rewrite EA in HndL, Ec. symmetry. by apply (NoDup_split e _ _ _ _ HndL Ec). }
  destruct (move_one P st q e E1 E2 ev Hmv Ees HeP Hev) as (st1 & q1 & E & Hmv1 & Hp1).
  { intros x Hx1 Hx2. destruct (feq (tm st0 x) (tm st0 e)) eqn:Ef; [|done]. exfalso.
    apply (HP x); [|done]. rewrite elem_of_app. left. rewrite <- Econt. apply elem_of_content. split; [|done].
    rewrite <- Hej. apply same_bucket; [|by apply elem_of_content in HeL as [? _] || rewrite Ees; set_solver|done].
    rewrite Ees. set_solver. }
  cbn [move_bucket]. rewrite (load_Some _ _ _ Hev). cbn [rbind]. rewrite (store_Some _ _ _ _ Hev). cbn [rbind].
  rewrite E. cbn [rbind].
  destruct A as [|a A' _] using rev_ind.
  - cbn [app] in EA. assert (Ep : ev_prev ev = Some t).
    { rewrite EA in Hr, Ht. destruct (ring_head_prev _ _ _ _ Hr Ht) as (v & Hv & Ev). congruence. }
    rewrite Ep, bool_decide_eq_true_2 by done. exists st1, q1, (e :: P).
    split_and!; [done|done| |done]. intros x. set_solver.
  - rewrite <- app_assoc in EA. cbn [app] in EA. rewrite EA in Hr.
    destruct (ring_prev _ _ _ _ _ Hr) as (v & Hv & Ep). assert (v = ev) as -> by congruence.
    rewrite Ep. rewrite bool_decide_eq_false_2.
    2: { intros [= <-]. destruct Hr as [Hnd _]. rewrite EA, last_app in Ht.
         apply NoDup_app in Hnd as (_ & _ & Hnd). apply NoDup_cons in Hnd as [Hnd _].
         change (last (a :: e :: D)) with (last (e :: D)) in Ht.
         destruct (last (e :: D)) as [y|] eqn:Ely; [|by apply last_None in Ely]. injection Ht as ->.
         apply Hnd. by apply last_Some_elem_of. }
    destruct (IH (e :: D) (e :: P) st1 q1 loop) as (st' & q' & P' & E' & Hmv' & HP' & Hp'); try done.
    + by rewrite EA, <- app_assoc.
    + by destruct A'.
    + by rewrite EA.
    + intros x Hx. rewrite not_elem_of_cons. split; [|apply HP; set_solver]. intros ->.
      destruct Hr as [Hnd _]. replace (A' ++ a :: e :: D) with ((A' ++ [a]) ++ e :: D) in Hnd by (by rewrite <- app_assoc).
      apply NoDup_app in Hnd as (_ & Hd & _). by apply (Hd e Hx); left.
    + lia.
    + rewrite last_snoc in E'. exists st', q', P'. split; [exact E'|]. split; [done|]. split.
      * intros x. rewrite HP'. set_solver.
      * by eapply same_place_trans.
Qed.

Lemma move_buckets_spec : forall bs j st q,
  (forall i b, bs !! i = Some b -> holds st0 b (content q0 st0 es0 (Z.of_nat (j + i)))) ->
  moved (filter (fun x => bucket_of q0 st0 x < Z.of_nat j) es0) st q ->
  exists st' q', move_buckets fuel bs st q = Ok (st', q') /\
    moved (filter (fun x => bucket_of q0 st0 x < Z.of_nat (j + length bs)) es0) st' q' /\ same_place q q'.
Proof.
  intros bs. induction bs as [|b bs IH]; intros j st q Hb Hmv; cbn [move_buckets].
  { exists st, q. cbn [length]. rewrite Nat.add_0_r. by split_and!. }
  pose proof (Hb 0%nat b eq_refl) as Hh. rewrite Nat.add_0_r in Hh. destruct Hh as (Hl & Hr & _).
  set (P := filter _ _) in Hmv.
  assert (Hstep : exists st' q', match list_ b with
      | None => Ok (st, q)
      | Some h => let! hv := load st (Some h) in move_bucket fuel fuel (ev_prev hv) (ev_prev hv) st q
      end = Ok (st', q') /\ moved (filter (fun x => bucket_of q0 st0 x < Z.of_nat (S j)) es0) st' q' /\ same_place q q').
  { rewrite Hl. destruct (content q0 st0 es0 (Z.of_nat j)) as [|h rest] eqn:EL; cbn [head].
    - exists st, q. split_and!; try done. eapply moved_ext; [|exact Hmv]. intros x.
      unfold P. rewrite !list_elem_of_filter. split; intros [? ?]; (split; [|done]); [lia|].
      destruct (decide (bucket_of q0 st0 x = Z.of_nat j)); [|lia]. exfalso.
      assert (Hx : x ∈ content q0 st0 es0 (Z.of_nat j)) by (by apply elem_of_content). rewrite EL in Hx. set_solver.
    - destruct (last (h :: rest)) as [t|] eqn:Elast; [|by apply last_None in Elast].
      destruct (ring_head_prev st0 h rest t Hr Elast) as (hv & Hhv & Ep).
      assert (HP : forall x, x ∈ h :: rest -> x ∉ P).
      { intros x Hx Hin. apply list_elem_of_filter in Hin as [Hlt _]. rewrite <- EL in Hx.
        apply elem_of_content in Hx as [Hx _]. lia. }
      rewrite (load_Some st h hv) by (destruct Hmv as (_ & _ & _ & Hfr); rewrite Hfr; [done|apply HP; by left]).
      cbn [rbind]. rewrite Ep, <- Elast.
      destruct (move_bucket_spec (Z.of_nat j) (h :: rest) t (h :: rest) [] P st q fuel)
        as (st' & q' & P' & E & Hmv' & HP' & Hp); try done; [by rewrite app_nil_r| |].
      { rewrite <- EL. etransitivity; [apply length_filter|done]. }
      rewrite Elast in *. exists st', q'. split; [exact E|]. split; [|done]. eapply moved_ext; [|exact Hmv'].
      intros x. rewrite HP', <- EL, elem_of_content. unfold P. rewrite !list_elem_of_filter.
      split; [intros [[? ?]|[? ?]]; (split; [lia|done])|]. intros [? ?].
      destruct (decide (bucket_of q0 st0 x = Z.of_nat j)); [by left|right]. split; [lia|done]. }
  destruct Hstep as (st1 & q1 & -> & Hmv1 & Hp1). cbn [rbind].
  destruct (IH (S j) st1 q1) as (st' & q' & -> & Hmv' & Hp').
  - intros i c Hi. replace (S j + i)%nat with (j + S i)%nat by lia. by apply Hb.
  - done.
  - exists st', q'. split; [done|]. cbn [length]. replace (j + S (length bs))%nat with (S j + length bs)%nat by lia.
    split; [done|]. by eapply same_place_trans.
Qed.
End move.

(** ** The new buckets *)

(** A length of the days at which all pending times and the clock can be
    told apart from infinity: none is 2^49 days away. *)
Definition sane (w : f64) (st : events) (q : calq) (es : list positive) : bool :=
  good_width w && fits w (cal_clock_ q) && forallb (fun x => fits w (tm st x)) es.

Lemma sane_ok w st q es :
  sane w st q es = true ->
  good_width w = true /\ fits w (cal_clock_ q) = true /\ Forall (fun x => fits w (tm st x) = true) es.
Proof.
  unfold sane. rewrite !andb_true_iff, forallb_forall, Forall_forall. intros [[H1 H2] H3].
  split_and!; [done..|]. intros x Hx. by apply H3, list_elem_of_In.
Qed.

Lemma core_nothing st q n w k :
  good_width w = true -> 4 <= n <= 2 ^ 29 ->
  cal_core st (CalQ (layout_of n w) (snoop q) 0 0 k (replicate (Z.to_nat n) (Bucket None 0)) (cal_clock_ q)) [].
Proof.
  intros Hw Hn. assert (Hc : forall m, counts (replicate m (Bucket None 0)) = 0).
  { unfold counts. induction m as [|m IH]; [done|]. cbn [replicate foldr count_]. lia. }
  constructor; cbn [lay buckets_ stat_qsize_ qsize_ nbuckets_ layout_of width_]; try done.
  - rewrite length_replicate. lia.
  - intros i b [-> _]%lookup_replicate. split; [done|]. split; [|done]. split; [apply NoDup_nil_2|done].
  - constructor.
  - constructor.
  - apply Nat.le_0_l.
Qed.

Lemma filter_none {A} (P : A -> Prop) `{!forall x, Decision (P x)} (l : list A) :
  (forall x, x ∈ l -> ~ P x) -> filter P l = [].
Proof.
  induction l as [|x l IH]; intros HP; [done|]. rewrite filter_cons, decide_False by (apply HP; by left).
  apply IH. intros y Hy. apply HP. by right.
Qed.

Lemma filter_all {A} (P : A -> Prop) `{!forall x, Decision (P x)} (l : list A) :
  (forall x, x ∈ l -> P x) -> filter P l = l.
Proof.
  induction l as [|x l IH]; intros HP; [done|]. rewrite filter_cons, decide_True by (apply HP; by left).
  f_equal. apply IH. intros y Hy. apply HP. by right.
Qed.

Lemma rebuild_spec fuel st q es n w :
  cal_rep st q es -> 4 <= n <= 2 ^ 29 -> sane w st q es = true -> (length es <= fuel)%nat ->
  exists st' q', rebuild fuel n w st q = Ok (st', q') /\ cal_rep st' q' es /\ same_data st st' /\
    lay q' = layout_of n w /\ cal_clock_ q' = cal_clock_ q.
Proof.
  intros Hrep Hn (Hw & Hc & Hfit)%sane_ok Hf. pose proof (cr_core _ _ _ Hrep) as H.
  unfold rebuild, reinit. rewrite (cal_hash_day w Hw _ n Hc) by lia. cbn [rbind].
  set (q1 := CalQ _ _ _ _ _ _ _).
  assert (Hnone : filter (fun x => x ∈ filter (fun y => bucket_of q st y < Z.of_nat 0) es) es = []).
  { apply filter_none. intros x _ [Hx _]%list_elem_of_filter.
    pose proof (bucket_range q st x ltac:(apply (cc_n _ _ _ H))). lia. }
  destruct (move_buckets_spec st q es H (layout_of n w) Hw Hfit fuel Hf (buckets_ q) 0 st q1)
    as (st' & q' & -> & (Hc' & Hl & Hsd & _) & (_ & Ela & Ecl & _)).
  - intros i b Hb. by apply (cc_holds _ _ _ H).
  - split; [|by split_and!]. rewrite Hnone. by apply core_nothing.
  - cbn [rbind]. eexists _, _. split; [reflexivity|].
    assert (Hall : filter (fun x => x ∈ filter (fun y => bucket_of q st y < Z.of_nat (0 + length (buckets_ q))) es) es = es).
    { apply filter_all. intros x Hx. apply list_elem_of_filter. split; [|done].
      rewrite Nat.add_0_l, (cc_len _ _ _ H). apply bucket_range, (cc_n _ _ _ H). }
    rewrite Hall in Hc'. split; [|split_and!; [done|cbn; exact Hl|cbn; by rewrite Ecl]].
    constructor; cbn [with_snoop lay cal_clock_ lastbucket_].
    + by eapply core_same; [|exact Hc'].
    + rewrite Hl, Ecl. done.
    + rewrite Ecl. eapply Forall_impl; [apply (cr_early _ _ _ Hrep)|]. intros x Hx. by rewrite (same_data_tm st st').
    + by rewrite Hl, Ecl, Ela.
Qed.

(** ** The new width *)

Lemma distinct_ends t x es y :
  in_order t (x :: es) -> last (x :: es) = Some y -> flt (t x) (t y) = false -> distinct t (x :: es) = 1.
Proof.
  revert x. induction es as [|z es IH]; intros x Ho Hl Hlt; [done|].
  rewrite last_cons_cons in Hl. pose proof Ho as Ho2. apply StronglySorted_inv in Ho as [Ho Hx].
  assert (Hy : y ∈ z :: es) by (by apply last_Some_elem_of).
  apply Forall_cons in Hx as [Hxz Hx]. unfold not_later in Hxz.
  assert (Hzy : fle (t z) (t y) = true).
  { apply StronglySorted_inv in Ho as [_ Hz]. apply elem_of_cons in Hy as [->|Hy]; [|rewrite Forall_forall in Hz; by apply Hz].
    forder. }
  assert (E1 : flt (t z) (t y) = false) by forder. assert (E2 : feq (t z) (t x) = true) by forder.
  change (distinct t (x :: z :: es)) with ((if feq (t z) (t x) then 0 else 1) + distinct t (z :: es)).
  rewrite E2. by rewrite IH.
Qed.

Lemma fullest_spec bs : forall i best n m c,
  fullest bs i best n = (m, c) ->
  (m, c) = (best, n) \/ exists j b, bs !! j = Some b /\ m = i + Z.of_nat j /\ c = count_ b.
Proof.
  induction bs as [|b bs IH]; intros i best n m c E; cbn [fullest] in E; [by left|].
  assert (Hlater : (exists j b', bs !! j = Some b' /\ m = i + 1 + Z.of_nat j /\ c = count_ b') ->
    exists j b', (b :: bs) !! j = Some b' /\ m = i + Z.of_nat j /\ c = count_ b').
  { intros (j & b' & Hj & -> & ->). exists (S j), b'. split_and!; [done|lia|done]. }
  destruct (n <? count_ b); destruct (IH _ _ _ _ _ E) as [[= -> ->]|Hr]; try (right; by apply Hlater).
  - right. exists 0%nat, b. split_and!; [done|lia|done].
  - by left.
Qed.

Definition only_snoop (q q' : calq) : Prop := exists s, q' = with_snoop s q.

Lemma only_snoop_rep st q q' es : only_snoop q q' -> cal_rep st q es -> cal_rep st q' es.
Proof.
  intros [s ->] H. constructor; cbn; try (by apply H). eapply core_same; [|by apply H]. done.
Qed.

Lemma only_snoop_trans q1 q2 q3 : only_snoop q1 q2 -> only_snoop q2 q3 -> only_snoop q1 q3.
Proof. intros [s ->] [s' ->]. by exists s'. Qed.

Lemma only_snoop_refl q : only_snoop q q.
Proof. exists (snoop q). by destruct q. Qed.

(** The interval of a bucket with several times is positive. *)
Lemma interval_pos st q es m b :
  cal_core st q es -> buckets_ q !! m = Some b -> 4 < count_ b ->
  exists h hv tv, list_ b = Some h /\ st !! h = Some hv /\ load st (ev_prev hv) = Ok tv /\
    flt f0 (fsub (time_ tv) (time_ hv)) = true.
Proof.
  intros H Hb Hc. destruct (cc_holds _ _ _ H m b Hb) as (Hl & Hr & Hd).
  pose proof (content_order q st es (Z.of_nat m) _ (cc_order _ _ _ H)) as Ho.
  assert (Hin : forall x, x ∈ content q st es (Z.of_nat m) -> x ∈ es) by (by intros x [_ ?]%elem_of_content).
  destruct (content q st es (Z.of_nat m)) as [|h rest] eqn:EL; [cbn in Hd; lia|].
  destruct (last (h :: rest)) as [t|] eqn:Elast; [|by apply last_None in Elast].
  destruct (ring_head_prev st h rest t Hr Elast) as (hv & Hhv & Ep).
  assert (Ht : t ∈ h :: rest) by (by apply last_Some_elem_of).
  destruct (ring_lookup st _ t Hr Ht) as [tv Htv].
  exists h, hv, tv. split_and!; [done|done|by rewrite Ep; apply load_Some|].
  rewrite <- (tm_Some _ _ _ Hhv), <- (tm_Some _ _ _ Htv).
  destruct (flt (tm st h) (tm st t)) eqn:Elt; [|rewrite (distinct_ends _ _ _ _ Ho Elast Elt) in Hd; lia].
  pose proof (cc_timed _ _ _ H) as Htm. rewrite Forall_forall in Htm.
  pose proof (cc_width _ _ _ H) as Hw. destruct (good_width_val _ Hw) as (_ & _ & Hhi).
  destruct (fits_val _ _ Hw (proj2 (Htm h (Hin h ltac:(by left))))) as (Fh & _).
  destruct (fits_val _ _ Hw (proj2 (Htm t (Hin t Ht)))) as (Ft & _ & Hlt).
  rewrite flt_val in Elt by done.
  destruct (fsub_near (tm st t) (tm st h) Ft Fh) as [Fs Ns]; [lra| |].
  { apply (Qlt_trans _ (562949953421313 * pow2 800)); [lra|]. vm_compute. done. }
  apply flt_val; [done|done|]. unfold near in Ns. change (val f0) with 0%Q. lra.
Qed.

Lemma newwidth_spec newsize st q es :
  cal_core st q es -> exists w q', newwidth newsize st q = Ok (w, q') /\ only_snoop q q'.
Proof.
  intros H. unfold newwidth. set (q1 := if _ =? 0 then q else _).
  assert (H1 : only_snoop q q1) by (unfold q1; destruct (_ =? 0); [apply only_snoop_refl|by eexists]).
  assert (Hc : cal_core st q1 es) by (destruct H1 as [s ->]; by eapply core_same; [|exact H]).
  destruct (negb _ && _); [by eexists _, _|].
  destruct (core_bucket st q1 es 0 Hc) as (b0 & -> & Hb0 & _); [pose proof (cc_n _ _ _ Hc); lia|]. cbn [rbind].
  destruct (fullest _ _ _ _) as [m c] eqn:Ef.
  destruct (Z.leb_spec c 4); [by eexists _, _|].
  assert (Hm : exists b, buckets_ q1 !! Z.to_nat m = Some b /\ aget (buckets_ q1) m = Ok b /\ c = count_ b).
  { apply fullest_spec in Ef as [[= -> ->]|(j & b & Hj & -> & ->)].
    - exists b0. split_and!; [done| |done]. unfold aget. cbn [Z.ltb Z.compare Z.to_nat] in *. by rewrite Hb0.
    - assert (E : buckets_ q1 !! Z.to_nat (1 + Z.of_nat j) = Some b).
      { replace (Z.to_nat (1 + Z.of_nat j)) with (S j) by lia. by destruct (buckets_ q1). }
      exists b. split_and!; [done| |done]. unfold aget. by rewrite (proj2 (Z.ltb_ge _ 0)), E by lia. }
  destruct Hm as (b & Hb & -> & ->). cbn [rbind].
  destruct (interval_pos st q1 es _ b Hc Hb) as (h & hv & tv & -> & Hhv & Htv & Hpos); [lia|].
  rewrite (load_Some _ _ _ Hhv). cbn [rbind]. rewrite Htv. cbn [rbind]. rewrite Hpos. cbn [assert_that rbind]. by eexists _, _.
Qed.

(** ** [resize] *)

(** The days [resize] chooses, if it chooses any, are sane. *)
Definition resize_sane (newsize : Z) (st : events) (q : calq) (es : list positive) : bool :=
  match new_days newsize st q with
  | Ok (Some (_, w), _) => sane w st q es
  | _ => true
  end.

Lemma new_days_spec newsize st q es :
  cal_core st q es -> newsize <= 2 ^ 29 ->
  exists d q', new_days newsize st q = Ok (d, q') /\ only_snoop q q' /\
    (forall n w, d = Some (n, w) -> 4 <= n <= 2 ^ 29).
Proof.
  intros H Hn. unfold new_days. pose proof (cc_n _ _ _ H).
  destruct (newwidth_spec newsize st q es H) as (w & q1 & Ew & Hq1).
  destruct (Z.eqb_spec newsize (nbuckets_ (lay q))) as [->|Hne].
  - cbn zeta. destruct (flt _ _).
    + destruct (0 <? _); [eexists _, _; split; [done|]; split; [by eexists|done]|].
      rewrite Ew. cbn [rbind]. eexists _, _. split; [done|]. split; [done|]. intros n w' [= <- _]. lia.
    + eexists _, _. split; [done|]. split; [apply only_snoop_refl|]. intros n w' [= <- _]. lia.
  - rewrite Ew. cbn [rbind]. eexists _, _. split; [done|]. split; [done|]. intros n w' [= <- _].
    destruct (Z.ltb_spec newsize 4); lia.
Qed.

Lemma resize_spec fuel newsize st q es :
  cal_rep st q es -> newsize <= 2 ^ 29 -> resize_sane newsize st q es = true -> (length es <= fuel)%nat ->
  exists st' q', resize fuel newsize st q = Ok (st', q') /\ cal_rep st' q' es /\ same_data st st' /\
    cal_clock_ q' = cal_clock_ q.
Proof.
  intros H Hn Hs Hf. unfold resize, resize_sane in *.
  destruct (new_days_spec newsize st q es (cr_core _ _ _ H) Hn) as (d & q1 & E & Hq1 & Hd).
  rewrite E in *. cbn [rbind]. pose proof (only_snoop_rep st q q1 es Hq1 H) as H1.
  assert (Ec : cal_clock_ q1 = cal_clock_ q) by (by destruct Hq1 as [s ->]).
  destruct d as [[n w]|]; [|exists st, q1; by split_and!].
  assert (Hs1 : sane w st q1 es = true) by (unfold sane in *; by rewrite Ec).
  destruct (rebuild_spec fuel st q1 es n w H1 (Hd n w eq_refl) Hs1 Hf) as (st' & q' & -> & H2 & H3 & _ & H4).
  exists st', q'. split_and!; [done|done|done|congruence].
Qed.
