(* ===== verification/CalHead.v ===== *)
(** * The calendar queue: the next event

    The search for the next event goes through the buckets from the day of
    the last one.  It stops at the first event near enough to be of the day
    it looks at, and takes the earliest event it has seen if a year has gone
    by without one: either way that is the head of the whole queue. *)

From stdpp Require Import base numbers list gmap sorting.
From Stdlib Require Import ZArith Lia Bool QArith.
From S2P Require Import Prelude.
From S2P Require Import Store.
From S2P Require Import Float64.
From S2P Require Import Array.
From S2P Require Import EventQueue.
From S2P Require Import Ring.
From S2P Require Import FloatBounds.
From S2P Require Import Calendar.
From S2P Require Import CalTime.
From S2P Require Import CalProps.
From S2P Require Import CalInsert.
From S2P Require Import CalResize.

Local Open Scope Z_scope.

(** Two numbers less than [n] apart with the same remainder. *)
Lemma same_residue x y n : x mod n = y mod n -> y - n < x < y + n -> x = y.
Proof.
  intros E Hr. assert (Hn : 0 < n) by lia.
  pose proof (Z.div_mod x n ltac:(lia)). pose proof (Z.div_mod y n ltac:(lia)).
  assert (x / n = y / n) by nia. lia.
Qed.

Section search.
Context (st : events) (q : calq) (e : positive) (es : list positive).
Context (Hrep : cal_rep st q (e :: es)).

Let H : cal_core st q (e :: es) := cr_core _ _ _ Hrep.
Let w : f64 := width_ (lay q).
Let n : Z := nbuckets_ (lay q).
Let k0 : Z := day w (cal_clock_ q).

(** The bucket [j] days after the clock. *)
Definition at_day (j : Z) : Z := (k0 + j) mod n.

Lemma search_n : 4 <= n <= 2 ^ 29.
Proof. apply H. Qed.

Lemma pending_time x :
  x ∈ e :: es -> fits w (tm st x) = true /\ (val (cal_clock_ q) <= val (tm st x))%Q /\
    k0 <= day w (tm st x).
Proof.
  intros Hx. pose proof (cc_width _ _ _ H) as Hw. pose proof (cr_clock _ _ _ Hrep) as Hc.
  pose proof (cc_timed _ _ _ H) as Ht. rewrite Forall_forall in Ht. destruct (Ht x Hx) as [_ Hf].
  pose proof (cr_early _ _ _ Hrep) as He. rewrite Forall_forall in He. specialize (He x Hx).
  rewrite fle_val in He; [|by apply (fits_val w); done|by apply (fits_val w); done].
  split; [done|]. split; [done|]. by apply day_mono.
Qed.

Lemma first_head : head (content q st (e :: es) (bucket_of q st e)) = Some e.
Proof. unfold content. by rewrite filter_cons, decide_True. Qed.

Lemma head_pending i x : head (content q st (e :: es) i) = Some x -> bucket_of q st x = i /\ x ∈ e :: es.
Proof.
  intros Hx. apply elem_of_content. destruct (content q st (e :: es) i); [done|]. injection Hx as ->. by left.
Qed.

Lemma not_before x : x ∈ e :: es -> flt (tm st x) (tm st e) = false.
Proof.
  intros [->|Hx]%elem_of_cons; [apply flt_irrefl|]. apply fle_not_lt.
  pose proof (cc_order _ _ _ H) as Ho. apply StronglySorted_inv in Ho as [_ Ho].
  rewrite Forall_forall in Ho. by apply Ho.
Qed.

(** The first of another bucket is later than the first of all. *)
Lemma first_alone i x :
  head (content q st (e :: es) i) = Some x -> x <> e -> flt (tm st e) (tm st x) = true.
Proof.
  intros Hx Hne. destruct (head_pending i x Hx) as [Hb Hin].
  pose proof (core_num st q _ _ H Hin) as Nx. pose proof (core_num st q _ e H ltac:(by left)) as Ne.
  pose proof (not_before x Hin) as Hnb. destruct (flt (tm st e) (tm st x)) eqn:E; [done|].
  assert (Ef : feq (tm st x) (tm st e) = true) by forder.
  pose proof (same_bucket st q _ H x e Hin ltac:(by left) Ef) as Eb.
  pose proof first_head as Hh. rewrite <- Eb, Hb, Hx in Hh. congruence.
Qed.

(** The bucket of the first event, counted from the clock. *)
Definition first_offset : Z := (day w (tm st e) - k0) mod n.

Lemma first_offset_range : 0 <= first_offset < n.
Proof. pose proof search_n. apply Z.mod_pos_bound. lia. Qed.

Lemma first_at_day j : 0 <= j < n -> at_day j = bucket_of q st e <-> j = first_offset.
Proof.
  intros Hj. pose proof search_n. unfold at_day, bucket_of, first_offset. fold w n.
  set (d := day w (tm st e)). split.
  - intros E. rewrite Zminus_mod, <- E, <- Zminus_mod.
    replace (k0 + j - k0) with j by lia. by rewrite Z.mod_small by lia.
  - intros ->. rewrite Zplus_mod_idemp_r. f_equal. lia.
Qed.

Lemma at_day_range j : 0 <= at_day j < n.
Proof. pose proof search_n. apply Z.mod_pos_bound. lia. Qed.

Lemma at_day_next j : (if wrap_i32 (at_day j + 1) =? n then 0 else wrap_i32 (at_day j + 1)) = at_day (j + 1).
Proof.
  pose proof search_n. pose proof (at_day_range j) as Hr. rewrite wrap_small by lia.
  unfold at_day in *. rewrite Z.add_assoc, <- (Zplus_mod_idemp_l (k0 + j)).
  set (a := (k0 + j) mod n) in *. destruct (Z.eqb_spec (a + 1) n) as [->|]; [by rewrite Z_mod_same_full|].
  by rewrite Z.mod_small by lia.
Qed.

(** Before day [j] the search has not met the first event in its day; the
    earliest event seen is the first one if its bucket has been seen. *)
Record looked (j : Z) (min : option (positive * Z)) : Prop := {
  lk_missed i : 0 <= i < j -> day w (tm st e) <> k0 + i;
  lk_head m l : min = Some (m, l) ->
    head (content q st (e :: es) l) = Some m /\ exists i, 0 <= i < j /\ l = at_day i;
  lk_first : first_offset < j -> min = Some (e, bucket_of q st e)
}.

Lemma looked_none : looked 0 None.
Proof. pose proof first_offset_range. split; [lia|done|lia]. Qed.

(** A day of the search with the limit [limit]: an event is accepted if it is
    of the day, and what is accepted is of no later year. *)
Definition good_limit (limit : f64) (j : Z) : Prop :=
  forall x, x ∈ e :: es ->
    (flt (fsub (tm st x) (cal_clock_ q)) limit = true -> day w (tm st x) < k0 + j + n) /\
    (day w (tm st x) <= k0 + j -> flt (fsub (tm st x) (cal_clock_ q)) limit = true).

Lemma first_day x : x ∈ e :: es -> day w (tm st e) <= day w (tm st x).
Proof.
  intros Hx. destruct (pending_time x Hx) as (Fx & _). destruct (pending_time e ltac:(by left)) as (Fe & _).
  pose proof (cc_width _ _ _ H) as Hw. apply day_mono; [done..|].
  destruct (Qlt_le_dec (val (tm st x)) (val (tm st e))) as [Hlt|]; [|done]. exfalso.
  apply flt_val in Hlt; [|by apply (fits_val w)..]. pose proof (not_before x Hx). congruence.
Qed.

(** What is accepted is the first event. *)
Lemma accepted_first limit j min x :
  0 <= j < n -> looked j min -> good_limit limit j ->
  head (content q st (e :: es) (at_day j)) = Some x ->
  flt (fsub (tm st x) (cal_clock_ q)) limit = true -> x = e /\ at_day j = bucket_of q st e.
Proof.
  intros Hj Hl Hg Hx Hacc. destruct (head_pending _ x Hx) as [Hb Hin]. pose proof search_n.
  destruct (pending_time x Hin) as (_ & _ & Hk). apply (Hg x Hin) in Hacc.
  unfold bucket_of, at_day in Hb. fold w n in Hb.
  assert (Hday : day w (tm st x) = k0 + j) by (eapply same_residue; [exact Hb|lia..]).
  pose proof (first_day x Hin) as Hle. destruct (pending_time e ltac:(by left)) as (_ & _ & Hk').
  assert (He : day w (tm st e) = k0 + j).
  { destruct (decide (day w (tm st e) = k0 + j)); [done|]. exfalso.
    apply (lk_missed _ _ Hl (day w (tm st e) - k0)); lia. }
  assert (Eb : at_day j = bucket_of q st e) by (unfold bucket_of, at_day; fold w n; by rewrite He).
  split; [|done]. pose proof first_head as Hh. rewrite <- Eb, Hx in Hh. by injection Hh.
Qed.

Lemma looked_next limit j min :
  0 <= j < n -> looked j min -> good_limit limit j ->
  (at_day j = bucket_of q st e -> flt (fsub (tm st e) (cal_clock_ q)) limit = false) ->
  forall min', (first_offset < j + 1 -> min' = Some (e, bucket_of q st e)) ->
  (forall m l, min' = Some (m, l) -> min = Some (m, l) \/
     l = at_day j /\ head (content q st (e :: es) l) = Some m) -> looked (j + 1) min'.
Proof.
  intros Hj Hl Hg Hrej min' H1 H2. constructor; [|intros m l Em|done].
  - intros i Hi Eday. destruct (decide (i = j)) as [->|]; [|by apply (lk_missed _ _ Hl i); [lia|]].
    assert (Eb : at_day j = bucket_of q st e) by (unfold bucket_of, at_day; fold w n; by rewrite Eday).
    specialize (Hrej Eb). assert (flt (fsub (tm st e) (cal_clock_ q)) limit = true); [|congruence].
    apply (Hg e); [by left|lia].
  - destruct (H2 m l Em) as [E|[-> E]].
    + destruct (lk_head _ _ Hl m l E) as (Hh & i & Hi & ->). split; [done|]. exists i. split; [lia|done].
    + split; [done|]. exists j. split; [lia|done].
Qed.

Lemma probe_spec limit j min :
  0 <= j < n -> looked j min -> good_limit limit j ->
  CAL_DEQUEUE limit st q (at_day j) min = Ok (Found e (bucket_of q st e)) \/
  exists min', CAL_DEQUEUE limit st q (at_day j) min = Ok (Looking (at_day (j + 1)) min') /\
    looked (j + 1) min'.
Proof.
  intros Hj Hl Hg. unfold CAL_DEQUEUE.
  destruct (core_bucket st q _ (at_day j) H (at_day_range j)) as (b & -> & _ & Hb). cbn [rbind].
  fold n. rewrite at_day_next. destruct Hb as (-> & Hr & _).
  pose proof (first_at_day j Hj) as Hfa. pose proof first_head as Hfh.
  destruct (head (content q st (e :: es) (at_day j))) as [x|] eqn:Eh.
  2: { assert (Hne : at_day j <> bucket_of q st e) by (intros E; rewrite <- E in Hfh; congruence).
       right. eexists. split; [done|]. apply (looked_next limit j min); try done.
       - intros Ho. apply (lk_first _ _ Hl). rewrite Hfa in Hne. lia.
       - by left. }
  destruct (ring_lookup st _ x Hr) as [v Hv].
  { destruct (content _ _ _ _); [done|]. injection Eh as ->. by left. }
  rewrite (load_Some _ _ _ Hv). cbn [rbind]. rewrite <- (tm_Some _ _ _ Hv).
  destruct (flt (fsub (tm st x) (cal_clock_ q)) limit) eqn:Eacc.
  { destruct (accepted_first limit j min x Hj Hl Hg Eh Eacc) as [-> ->]. by left. }
  assert (Hrej : at_day j = bucket_of q st e -> x = e) by (intros E; rewrite <- E in Hfh; congruence).
  assert (Hrej' : at_day j = bucket_of q st e -> flt (fsub (tm st e) (cal_clock_ q)) limit = false)
    by (intros E; by rewrite <- (Hrej E)).
  right. destruct min as [[m l]|].
  - destruct (lk_head _ _ Hl m l eq_refl) as (Hm & i & Hi & El).
    destruct (ring_lookup st (content q st (e :: es) l) m) as [mv Hmv].
    { destruct (core_bucket st q _ l H) as (c & _ & _ & (_ & Hrl & _)); [|done]. rewrite El. apply at_day_range. }
    { destruct (content q st (e :: es) l); [done|]. injection Hm as ->. by left. }
    rewrite (load_Some _ _ _ Hmv). cbn [rbind]. rewrite <- (tm_Some _ _ _ Hmv).
    eexists. split; [done|]. apply (looked_next limit j (Some (m, l))); try done.
    + intros Ho. destruct (decide (j = first_offset)) as [E|E].
      * pose proof (proj2 Hfa E) as Eb. rewrite (Hrej Eb), <- Eb.
        rewrite (first_alone l m Hm); [done|]. intros ->.
        destruct (head_pending l e Hm) as [Ebl _]. rewrite El in Ebl. symmetry in Ebl.
        apply first_at_day in Ebl; lia.
      * assert (Em : Some (m, l) = Some (e, bucket_of q st e)) by (apply (lk_first _ _ Hl); lia).
        injection Em as -> ->. rewrite not_before; [done|]. by eapply head_pending.
    + intros m' l'. destruct (flt (tm st x) (tm st m)); intros [= <- <-]; [by right|by left].
  - eexists. split; [done|]. apply (looked_next limit j None); try done.
    + intros Ho. destruct (decide (j = first_offset)) as [E|E].
      * pose proof (proj2 Hfa E) as Eb. by rewrite (Hrej Eb), <- Eb.
      * by pose proof (lk_first _ _ Hl ltac:(lia)).
    + intros m l [= <- <-]. by right.
Qed.

(** ** The three limits *)

Lemma search_layout : lay q = layout_of n w.
Proof. apply H. Qed.

Lemma good_limit_intro limit j :
  (forall t, fits w t = true -> (val (cal_clock_ q) <= val t)%Q ->
    (flt (fsub t (cal_clock_ q)) limit = true -> day w t < k0 + j + n) /\
    (day w t <= k0 + j -> flt (fsub t (cal_clock_ q)) limit = true)) ->
  good_limit limit j.
Proof. intros Hg x Hx. destruct (pending_time x Hx) as (F & V & _). by apply Hg. Qed.

Lemma limit0 : good_limit (diff0_ (lay q)) 0.
Proof.
  pose proof search_n. rewrite search_layout. apply good_limit_intro. intros t Ft Vt. split.
  - intros E. apply (found0 w (cc_width _ _ _ H) n ltac:(lia) _ _ (cr_clock _ _ _ Hrep) Ft Vt) in E. fold k0 in E. lia.
  - intros E. apply (reach0 w (cc_width _ _ _ H) n ltac:(lia) _ _ (cr_clock _ _ _ Hrep) Ft Vt). fold k0. lia.
Qed.

Lemma limit1 : good_limit (diff1_ (lay q)) 1.
Proof.
  pose proof search_n. rewrite search_layout. apply good_limit_intro. intros t Ft Vt. split.
  - intros E. apply (found1 w (cc_width _ _ _ H) n ltac:(lia) _ _ (cr_clock _ _ _ Hrep) Ft Vt) in E. fold k0 in E. lia.
  - intros E. apply (reach1 w (cc_width _ _ _ H) n ltac:(lia) _ _ (cr_clock _ _ _ Hrep) Ft Vt). fold k0. lia.
Qed.

Lemma limit2 j : 2 <= j < n - 1 -> good_limit (diff2_ (lay q)) j.
Proof.
  intros Hj. pose proof search_n. rewrite search_layout. apply good_limit_intro. intros t Ft Vt. split.
  - intros E. apply (found2 w (cc_width _ _ _ H) n ltac:(lia) _ _ (cr_clock _ _ _ Hrep) Ft Vt) in E. fold k0 in E. lia.
  - intros E. apply (reach2 w (cc_width _ _ _ H) n ltac:(lia) _ _ (cr_clock _ _ _ Hrep) Ft Vt). fold k0. lia.
Qed.

Lemma at_day_inj i j : 0 <= i < n -> 0 <= j < n -> at_day i = at_day j -> i = j.
Proof.
  intros Hi Hj E. unfold at_day in E. assert (k0 + i = k0 + j) by (eapply same_residue; [exact E|lia]). lia.
Qed.

Lemma search_year_spec fuel : forall j min c,
  2 <= j < n -> looked j min -> n - 1 - j <= Z.of_nat fuel ->
  exists c', c <= c' <= c + (n - 1 - j) /\
    (search_year fuel (at_day (n - 1)) st q (at_day j) min c = Ok (Found e (bucket_of q st e), c') \/
     exists min', search_year fuel (at_day (n - 1)) st q (at_day j) min c =
       Ok (Looking (at_day (n - 1)) min', c') /\ looked (n - 1) min').
Proof.
  induction fuel as [|fuel IH]; intros j min c Hj Hl Hf; cbn [search_year].
  - assert (j = n - 1) as -> by lia. rewrite Z.eqb_refl. exists c. split; [lia|]. right. by exists min.
  - destruct (Z.eqb_spec (at_day j) (at_day (n - 1))) as [E|E].
    + apply at_day_inj in E; [|lia..]. rewrite E in *. exists c. split; [lia|]. right. by exists min.
    + assert (Hj2 : 2 <= j < n - 1) by (destruct (decide (j = n - 1)) as [->|]; [done|lia]).
      destruct (probe_spec (diff2_ (lay q)) j min ltac:(lia) Hl (limit2 j Hj2)) as [->|(min' & -> & Hl')];
        cbn [rbind]; [exists (c + 1); split; [lia|by left]|].
      destruct (IH (j + 1) min' (c + 1) ltac:(lia) Hl' ltac:(lia)) as (c' & Hc & Hr). exists c'. split; [lia|done].
Qed.

Lemma last_bucket_spec min :
  looked (n - 1) min -> last_bucket st q (at_day (n - 1)) min = Ok (Some e, bucket_of q st e).
Proof.
  intros Hl. unfold last_bucket. pose proof search_n.
  destruct (core_bucket st q _ (at_day (n - 1)) H (at_day_range _)) as (b & -> & _ & Hb). cbn [rbind].
  destruct Hb as (-> & Hr & _). pose proof (first_at_day (n - 1) ltac:(lia)) as Hfa.
  pose proof first_head as Hfh. pose proof first_offset_range.
  assert (Hload : forall i x, head (content q st (e :: es) i) = Some x ->
    exists v, load st (Some x) = Ok v /\ time_ v = tm st x).
  { intros i x Hx. destruct (head_pending i x Hx) as [_ Hin]. pose proof (cc_timed _ _ _ H) as Ht.
    rewrite Forall_forall in Ht. destruct (Ht x Hin) as [[v Hv] _]. exists v. rewrite (load_Some _ _ _ Hv).
    by rewrite (tm_Some _ _ _ Hv). }
  destruct (decide (n - 1 = first_offset)) as [E|E].
  - pose proof (proj2 Hfa E) as Eb. rewrite Eb, Hfh. destruct min as [[m l]|]; [|done].
    destruct (lk_head _ _ Hl m l eq_refl) as [Hm _]. destruct (Hload _ _ Hm) as (mv & -> & Emv).
    destruct (Hload _ _ Hfh) as (v & -> & Ev). cbn [rbind]. rewrite Emv, Ev, not_before; [done|].
    by eapply head_pending.
  - rewrite (lk_first _ _ Hl) by lia.
    destruct (head (content q st (e :: es) (at_day (n - 1)))) as [x|] eqn:Eh; [|done].
    destruct (Hload _ _ Eh) as (v & Ev & Tv). destruct (Hload _ _ Hfh) as (ev & Eev & Tev).
    rewrite Eev, Ev. cbn [rbind]. rewrite Tv, Tev, (first_alone _ _ Eh); [done|]. intros ->.
    destruct (head_pending _ _ Eh) as [Eb _]. symmetry in Eb. by apply Hfa in Eb.
Qed.

Lemma search_stop : (if lastbucket_ q =? 0 then nbuckets_ (lay q) - 1 else lastbucket_ q - 1) = at_day (n - 1).
Proof.
  rewrite (cr_last _ _ _ Hrep). fold w n k0. pose proof search_n. unfold at_day.
  replace (k0 + (n - 1)) with (k0 - 1 + 1 * n) by lia. rewrite Z_mod_plus_full, <- (Zminus_mod_idemp_l k0).
  pose proof (Z.mod_pos_bound k0 n ltac:(lia)). destruct (Z.eqb_spec (k0 mod n) 0) as [->|].
  - replace (0 - 1) with (n - 1 + (-1) * n) by lia. rewrite Z_mod_plus_full, Z.mod_small; lia.
  - symmetry. apply Z.mod_small. lia.
Qed.

(** The first event is found, and in fewer looks than there are buckets. *)
Lemma search_spec : exists c, 1 <= c < n /\ cal_search st q = Ok (Some e, bucket_of q st e, c).
Proof.
  unfold cal_search. rewrite search_stop. pose proof search_n.
  assert (E0 : lastbucket_ q = at_day 0) by (unfold at_day; rewrite Z.add_0_r; apply Hrep). rewrite E0.
  destruct (probe_spec _ 0 None ltac:(lia) looked_none limit0) as [->|(m1 & -> & L1)]; cbn [rbind].
  { exists 1. split; [lia|done]. }
  change (0 + 1) with 1 in *.
  destruct (probe_spec _ 1 m1 ltac:(lia) L1 limit1) as [->|(m2 & -> & L2)]; cbn [rbind].
  { exists 2. split; [lia|done]. }
  change (1 + 1) with 2 in *. fold n.
  destruct (search_year_spec (Z.to_nat n) 2 m2 2 ltac:(lia) L2 ltac:(lia)) as (c & Hc & [->|(m3 & -> & L3)]);
    cbn [rbind]; exists c; (split; [lia|]); [done|]. by rewrite (last_bucket_spec m3 L3).
Qed.
End search.

(** ** [head] *)

Lemma head_spec st q es :
  cal_rep st q es ->
  exists q', cal_head st q = Ok (head es, q') /\ cal_rep st q' es /\ lay q' = lay q /\
    match es with
    | [] => q' = q
    | e :: _ => cal_clock_ q' = tm st e /\ lastbucket_ q' = bucket_of q' st e /\
        exists c, 1 <= c < nbuckets_ (lay q) /\ snoop q' = searched c 0 (snoop q)
    end.
Proof.
  intros Hrep. pose proof (cr_core _ _ _ Hrep) as H. unfold cal_head. rewrite (cc_size _ _ _ H).
  destruct es as [|e es]; [by exists q|]. cbn [length].
  destruct (Z.eqb_spec (Z.of_nat (S (length es))) 0); [lia|].
  destruct (search_spec st q e es Hrep) as (c & Hc & ->). cbn [rbind].
  pose proof (cc_timed _ _ _ H) as Ht. apply Forall_cons in Ht as [[[v Hv] Hf] _].
  rewrite (load_Some _ _ _ Hv). cbn [rbind]. rewrite <- (tm_Some _ _ _ Hv).
  eexists. split; [done|]. split; [|split; [done|]; split; [done|]; split; [done|]; by exists c].
  constructor; cbn [with_place with_snoop lay cal_clock_ lastbucket_ bucket_of]; try done.
  - by eapply core_same; [|exact H].
  - pose proof (cc_order _ _ _ H) as Ho. apply StronglySorted_inv in Ho as [_ Ho].
    constructor; [apply fle_refl; by eapply core_num; [exact H|left]|done].
Qed.


(** ** [lookup] *)

(** The first of [L] with the number [u]. *)
Definition numbered (st : events) (u : Z) (L : list positive) : option positive :=
  head (filter (fun x => unum st x = u) L).

Lemma unum_Some st x v : st !! x = Some v -> unum st x = uid_ v.
Proof. intros Hv. unfold unum. by rewrite Hv. Qed.

Lemma lookup_bucket_spec st u L : forall post pre x fuel,
  ring st L -> L = pre ++ x :: post -> (length post < fuel)%nat ->
  lookup_bucket fuel u (head L) (Some x) st = Ok (numbered st u (x :: post)).
Proof.
  induction post as [|y post IH]; intros pre x fuel Hr EL Hf; (destruct fuel as [|fuel]; [lia|]);
    cbn [lookup_bucket]; unfold numbered; rewrite filter_cons.
  - assert (Hv : exists v, st !! x = Some v /\ ev_next v = head L).
    { destruct L as [|h L]; [by destruct pre|]. apply (ring_last_next st h L); [done|]. by rewrite EL, last_snoc. }
    destruct Hv as (v & Hv & En). rewrite (load_Some _ _ _ Hv), (unum_Some _ _ _ Hv). cbn [rbind].
    destruct (Z.eqb_spec (uid_ v) u); [by rewrite decide_True|].
    by rewrite decide_False, bool_decide_eq_true_2.
  - pose proof Hr as Hr'. rewrite EL in Hr'. destruct (ring_next _ _ _ _ _ Hr') as (v & Hv & En).
    rewrite (load_Some _ _ _ Hv), (unum_Some _ _ _ Hv). cbn [rbind].
    destruct (Z.eqb_spec (uid_ v) u); [by rewrite decide_True|]. rewrite decide_False, En by done.
    rewrite bool_decide_eq_false_2.
    + apply (IH (pre ++ [x])); [done|by rewrite EL, <- app_assoc|cbn in Hf; lia].
    + destruct Hr as [Hnd _]. rewrite EL. destruct pre as [|z pre]; cbn [app head]; intros [= ->];
        rewrite EL in Hnd; apply NoDup_cons in Hnd as [Hnd _]; set_solver.
Qed.

Lemma lookup_buckets_spec st q es u fuel : cal_core st q es -> (length es < fuel)%nat -> forall bs j,
  (forall i b, bs !! i = Some b -> holds st b (content q st es (Z.of_nat (j + i)))) ->
  exists r, lookup_buckets fuel u bs st = Ok r /\
    match r with
    | Some e => e ∈ es /\ unum st e = u
    | None => forall i x, (i < length bs)%nat -> x ∈ content q st es (Z.of_nat (j + i)) -> unum st x <> u
    end.
Proof.
  intros H Hf bs. induction bs as [|b bs IH]; intros j Hbs; cbn [lookup_buckets].
  { exists None. split; [done|]. cbn [length]. lia. }
  destruct (Hbs 0%nat b eq_refl) as (Hl & Hr & _). rewrite Nat.add_0_r in Hl, Hr.
  set (L := content q st es (Z.of_nat j)) in *.
  assert (Hlater : numbered st u L = None -> exists r, lookup_buckets fuel u bs st = Ok r /\
    match r with
    | Some e => e ∈ es /\ unum st e = u
    | None => forall i x, (i < length (b :: bs))%nat -> x ∈ content q st es (Z.of_nat (j + i)) -> unum st x <> u
    end).
  { intros HN. destruct (IH (S j)) as (r & E & Hs).
    { intros i c Hi. replace (S j + i)%nat with (j + S i)%nat by lia. by apply Hbs. }
    exists r. split; [exact E|]. destruct r as [e|]; [done|]. intros [|i] x Hi Hx.
    - rewrite Nat.add_0_r in Hx. fold L in Hx. intros Hu.
      assert (Hin : x ∈ filter (fun y => unum st y = u) L) by (by apply list_elem_of_filter).
      unfold numbered in HN. destruct (filter _ L); [set_solver|done].
    - replace (j + S i)%nat with (S j + i)%nat in Hx by lia. apply (Hs i); [cbn in Hi; lia|done]. }
  rewrite Hl. assert (HL : (length L <= length es)%nat) by apply length_filter.
  destruct L as [|h L'] eqn:EL; [by apply Hlater|]. cbn [head].
  change (Some h) with (head (h :: L')) at 1.
  rewrite (lookup_bucket_spec st u (h :: L') L' []) by (done || cbn in HL; lia). cbn [rbind].
  destruct (numbered st u (h :: L')) as [e|] eqn:EN; [|by apply Hlater].
  exists (Some e). split; [done|]. unfold numbered in EN.
  assert (Hin : e ∈ filter (fun y => unum st y = u) (h :: L')).
  { destruct (filter _ _); [done|]. injection EN as ->. by left. }
  apply list_elem_of_filter in Hin as [Hu Hin]. split; [|done]. rewrite <- EL in Hin.
  by apply elem_of_content in Hin as [_ ?].
Qed.

(** [lookup] finds a pending event of the number if there is one. *)
Lemma lookup_spec st q es u fuel :
  cal_core st q es -> (length es < fuel)%nat ->
  exists r, cal_lookup fuel u st q = Ok (r, q) /\
    match r with
    | Some e => e ∈ es /\ unum st e = u
    | None => Forall (fun x => unum st x <> u) es
    end.
Proof.
  intros H Hf. unfold cal_lookup.
  destruct (lookup_buckets_spec st q es u fuel H Hf (buckets_ q) 0) as (r & -> & Hr).
  { intros i b Hi. by apply (cc_holds _ _ _ H). }
  cbn [rbind]. exists r. split; [done|]. destruct r as [e|]; [done|].
  apply Forall_forall. intros x Hx. pose proof (bucket_range q st x ltac:(apply (cc_n _ _ _ H))) as Hi.
  apply (Hr (Z.to_nat (bucket_of q st x))); [rewrite <- (cc_len _ _ _ H) in Hi; lia|].
  apply elem_of_content. split; [lia|done].
Qed.
