(* ===== verification/CalRemove.v ===== *)
(** * The calendar queue: removal

    [deque] takes the first event of its bucket off, [cancel] any event: both
    unlink it from the ring of its bucket, and both count a time less when no
    neighbour on the ring has the same. *)

From stdpp Require Import base numbers list gmap sorting.
From Stdlib Require Import ZArith Lia Bool.
From S2P Require Import Prelude.
From S2P Require Import Store.
From S2P Require Import Float64.
From S2P Require Import Array.
From S2P Require Import Dlist.
From S2P Require Import EventQueue.
From S2P Require Import Ring.
From S2P Require Import Calendar.
From S2P Require Import CalTime.
From S2P Require Import CalProps.
From S2P Require Import CalInsert.

Local Open Scope Z_scope.

(** ** Unlinking from a ring *)

Section ring.
Implicit Types (st : events) (e : positive) (L K : list positive).

Lemma ring_insert_notin st L e v : ring st L -> e ∉ L -> ring (<[e := v]> st) L.
Proof.
  intros [Hnd Hl] He. split; [done|]. intros Hne. apply dseg_insert_notin; [done|by apply Hl].
Qed.

(** The neighbours of [e]: itself if it is alone. *)
Lemma ring_around st e K :
  ring st (e :: K) -> exists ev nv pv, st !! e = Some ev /\
    ev_next ev = Some (default e (head K)) /\ ev_prev ev = Some (default e (last K)) /\
    st !! default e (head K) = Some nv /\ ev_prev nv = Some e /\
    st !! default e (last K) = Some pv /\ ev_next pv = Some e.
Proof.
  intros Hr. assert (Elast : last (e :: K) = Some (default e (last K))).
  { rewrite last_cons. by destruct (last K). }
  destruct (ring_head_prev st e K _ Hr Elast) as (ev & Hev & Ep).
  destruct (ring_last_next st e K _ Hr Elast) as (pv & Hpv & En).
  destruct K as [|k K]; cbn [head default last] in *.
  - assert (pv = ev) as -> by congruence. by exists ev, ev, ev.
  - destruct (ring_prev st [] e k K Hr) as (nv & Hnv & Ep').
    destruct (ring_next st [] e k K Hr) as (ev' & Hev' & En'). assert (ev' = ev) as -> by congruence.
    exists ev, nv, pv. by split_and!.
Qed.

Lemma ring_unlink st e L1 L2 ev :
  ring st (L1 ++ e :: L2) -> st !! e = Some ev ->
  bool_decide (ev_next ev = Some e) = bool_decide (L1 ++ L2 = []) /\
  exists st1, (if bool_decide (ev_next ev = Some e) then Ok st else detach e st) = Ok st1 /\
    ring st1 (L1 ++ L2) /\ rehung (T := event) (L1 ++ L2) st st1.
Proof.
  intros Hr Hev. pose proof Hr as Hr1. apply ring_rotate_app in Hr1. cbn [app] in Hr1.
  destruct (ring_around st e (L2 ++ L1) Hr1) as (ev' & _ & _ & Hev' & En & _).
  assert (ev' = ev) as -> by congruence. pose proof Hr1 as [Hnd _]. apply NoDup_cons in Hnd as [He _].
  destruct (L2 ++ L1) as [|k K] eqn:EK.
  - cbn [head default] in En. apply app_eq_nil in EK as [-> ->]. rewrite !bool_decide_eq_true_2 by done.
    split; [done|]. exists st. split; [done|]. split; [split; [apply NoDup_nil_2|done]|apply rehung_refl].
  - cbn [head default] in En. rewrite bool_decide_eq_false_2, bool_decide_eq_false_2.
    + split; [done|]. destruct (detach_spec (T := event) st e (k :: K) Hr1 ltac:(done)) as (st1 & E & R1 & R2).
      exists st1. split; [exact E|]. rewrite <- EK in R1, R2. split; [by apply ring_rotate_app|].
      eapply rehung_mono; [|exact R2]. set_solver.
    + intros EL. apply app_eq_nil in EL as [-> ->]. done.
    + rewrite En. intros [= ->]. set_solver.
Qed.
End ring.

(** ** The count of the times *)

Section times.
Context (t : positive -> f64).

(** Whether either neighbour on the ring has the time of [e]. *)
Lemma lone_time e L1 L2 :
  in_order t (L1 ++ e :: L2) ->
  bool_decide (L1 ++ L2 = []) ||
    (negb (feq (t (default e (head (L2 ++ L1)))) (t e)) && negb (feq (t (default e (last (L2 ++ L1)))) (t e))) =
  fresh_time t e L1 L2.
Proof.
  intros Ho. unfold fresh_time. pose proof Ho as Ho'. apply StronglySorted_app in Ho as (Hle & Ho1 & Ho2).
  apply StronglySorted_inv in Ho2 as [Ho2 He]. destruct L2 as [|x L2].
  - rewrite app_nil_r. cbn [app]. destruct L1 as [|a L0 _] using rev_ind; [done|].
    rewrite last_snoc, bool_decide_eq_false_2 by (by destruct L0). cbn [default id orb]. rewrite andb_true_r.
    assert (Hae : fle (t a) (t e) = true) by (apply Hle; [set_solver|by left]).
    destruct L0 as [|h L0]; cbn [app head default id]; [by rewrite andb_diag|].
    assert (Hha : fle (t h) (t a) = true).
    { apply StronglySorted_inv in Ho1 as [_ Hh]. rewrite Forall_forall in Hh. apply Hh. set_solver. }
    destruct (feq (t a) (t e)) eqn:E1, (feq (t h) (t e)) eqn:E2; try done. exfalso. forder.
  - cbn [app head default id]. rewrite bool_decide_eq_false_2 by (by destruct L1). cbn [orb].
    destruct L1 as [|a L0 _] using rev_ind.
    + rewrite app_nil_r. cbn [last andb].
      apply Forall_cons in He as [Hex He]. unfold not_later in Hex.
      destruct L2 as [|y L2 _] using rev_ind; [cbn [last default id]; by rewrite andb_diag|].
      rewrite app_comm_cons, last_snoc. cbn [default id].
      apply StronglySorted_inv in Ho2 as [_ Hx]. rewrite Forall_forall in Hx. specialize (Hx y ltac:(set_solver)).
      unfold not_later in Hx.
      destruct (feq (t x) (t e)) eqn:E1, (feq (t y) (t e)) eqn:E2; try done. exfalso. forder.
    + rewrite app_comm_cons, app_assoc, !last_snoc. cbn [default id]. apply andb_comm.
Qed.
End times.

(** ** What the buckets hold without an event *)

Section remove.
Context (st : events) (q : calq) (e : positive) (pre post : list positive) (b : bucket).
Context (H : cal_core st q (pre ++ e :: post)).

Let i : Z := bucket_of q st e.
Let L1 : list positive := content q st pre i.
Let L2 : list positive := content q st post i.

Context (Hb : buckets_ q !! Z.to_nat i = Some b).

Lemma rm_index : 0 <= i < nbuckets_ (lay q).
Proof. pose proof (cc_n _ _ _ H). apply bucket_range. lia. Qed.

Lemma rm_holds : holds st b (L1 ++ e :: L2).
Proof.
  pose proof (cc_holds _ _ _ H _ _ Hb) as Hh. pose proof rm_index. rewrite Z2Nat.id in Hh by lia.
  rewrite content_middle, decide_True in Hh by done. exact Hh.
Qed.

Lemma rm_not_in : e ∉ pre ++ post.
Proof.
  pose proof (cc_nodup _ _ _ H) as Hnd. rewrite <- Permutation_middle in Hnd.
  by apply NoDup_cons in Hnd as [? _].
Qed.

Lemma rm_in_bucket k : k ∈ L1 ++ L2 -> k ∈ pre ++ post /\ bucket_of q st k = i.
Proof. unfold L1, L2. rewrite <- content_app. by intros [? ?]%elem_of_content. Qed.

Lemma rm_order : in_order (tm st) (L1 ++ e :: L2).
Proof.
  pose proof (content_order q st _ i _ (cc_order _ _ _ H)) as Hs.
  by rewrite content_middle, decide_True in Hs.
Qed.

Let d : Z := if fresh_time (tm st) e L1 L2 then 1 else 0.

Lemma rm_counts :
  count_ b - d = distinct (tm st) (L1 ++ L2) /\ 0 <= count_ b - d < 2 ^ 31 /\
  0 <= stat_qsize_ q - d < 2 ^ 31 /\ qsize_ q - 1 = Z.of_nat (length (pre ++ post)) /\ qsize_ q < 2 ^ 31.
Proof.
  destruct rm_holds as (_ & _ & Hc). rewrite (distinct_insert _ _ _ _ rm_order) in Hc. fold d in Hc.
  pose proof (distinct_bounds (tm st) (L1 ++ L2)) as Hd.
  pose proof (cc_small _ _ _ H) as Hm. pose proof max_events_Z. pose proof (cc_size _ _ _ H) as Hz.
  assert (Hlen : (length (L1 ++ L2) <= length (pre ++ post))%nat).
  { unfold L1, L2. rewrite <- content_app. apply length_filter. }
  rewrite !length_app in *. cbn [length] in *.
  assert (Hs : count_ b <= stat_qsize_ q).
  { rewrite (cc_stat _ _ _ H). eapply counts_one; [exact H|exact Hb]. }
  pose proof (counts_content st q _ H) as Hcs. rewrite <- (cc_stat _ _ _ H) in Hcs.
  rewrite length_app in Hcs. cbn [length] in Hcs.
  assert (0 <= d <= 1) by (unfold d; destruct (fresh_time _ _ _ _); lia). split_and!; lia.
Qed.

Lemma core_remove st' q' :
  ring st' (L1 ++ L2) -> (forall k, k ∉ e :: L1 ++ L2 -> st' !! k = st !! k) ->
  (forall k, k <> e -> ev_data <$> st' !! k = ev_data <$> st !! k) -> lay q' = lay q ->
  buckets_ q' = <[Z.to_nat i := Bucket (head (L1 ++ L2)) (count_ b - d)]> (buckets_ q) ->
  stat_qsize_ q' = stat_qsize_ q - d -> qsize_ q' = qsize_ q - 1 ->
  cal_core st' q' (pre ++ post).
Proof.
  intros Hr Hfr Hdata El Eb Es Ez. destruct rm_counts as (C1 & _ & _ & C4 & _). pose proof rm_index as Hi.
  assert (Htm : forall x, x ∈ pre ++ post -> tm st' x = tm st x).
  { intros x Hx. apply data_tm, Hdata. intros ->. by apply rm_not_in. }
  assert (Ei : Z.of_nat (Z.to_nat i) = i) by lia.
  eapply (core_update st q _ st' q' (pre ++ post) (Z.to_nat i) b _ (L1 ++ L2) H Hb El Eb).
  - split; [done|]. split; [done|]. cbn [count_]. rewrite C1. apply distinct_ext, Forall_forall.
    intros x Hx. rewrite Htm; [done|]. by apply rm_in_bucket.
  - intros j. rewrite (content_ext q q st st') by done. rewrite content_middle, Ei, content_app. fold i.
    by destruct (decide (j = i)) as [->|].
  - intros j k Hj Hk. apply Hfr. rewrite Ei in Hj. intros Hin. apply Hj.
    apply elem_of_content in Hk as [<- _]. apply elem_of_cons in Hin as [->|Hin]; [done|]. by apply rm_in_bucket.
  - cbn [count_]. lia.
  - by rewrite Ez, C4.
  - pose proof (cc_nodup _ _ _ H) as Hnd. rewrite <- Permutation_middle in Hnd. by apply NoDup_cons in Hnd as [_ ?].
  - eapply in_order_ext; [apply Forall_forall; intros x Hx; symmetry; by apply Htm|].
    rewrite <- (remove_ev_middle e) by apply H. apply in_order_remove, H.
  - pose proof (cc_timed _ _ _ H) as Ht. rewrite Forall_forall in Ht |- *. intros x Hx.
    destruct (Ht x) as [Hs Hf]; [set_solver|]. split; [|by rewrite Htm].
    specialize (Hdata x ltac:(intros ->; by apply rm_not_in)). destruct Hs as [v Hv]. rewrite Hv in Hdata.
    by destruct (st' !! x).
  - pose proof (cc_small _ _ _ H). rewrite !length_app in *. cbn [length] in *. lia.
Qed.
End remove.

(** The removed event keeps its data and is on no ring. *)
Lemma put_aside st st1 e L v v' :
  rehung (T := event) L st st1 -> e ∉ L -> ring st1 L -> st !! e = Some v ->
  store st1 (Some e) (fun _ => v') = Ok (<[e := v']> st1) /\ st1 !! e = Some v /\ ring (<[e := v']> st1) L /\
  (forall k, k ∉ e :: L -> <[e := v']> st1 !! k = st !! k) /\
  (forall k, k <> e -> ev_data <$> <[e := v']> st1 !! k = ev_data <$> st !! k).
Proof.
  intros [R1 R2] He Hr Hv. assert (Hv1 : st1 !! e = Some v) by (by rewrite R1).
  split; [by rewrite (store_Some _ _ _ _ Hv1)|]. split; [done|]. split; [by apply ring_insert_notin|]. split.
  - intros k Hk. rewrite lookup_insert_ne by set_solver. apply R1. set_solver.
  - intros k Hk. rewrite lookup_insert_ne by done. apply R2.
Qed.

(** The statistics of [deque] and [cancel]. *)
Lemma less_one (z d : Z) (drop : bool) :
  d = (if drop then 1 else 0) -> 0 <= z - d < 2 ^ 31 -> (if drop then wrap_i32 (z - 1) else z) = z - d.
Proof. intros ->. destruct drop; intros Hz; [by rewrite wrap_small by lia|lia]. Qed.

(** ** [deque], unlinking the first event *)

Lemma cal_unlink_spec st q e es :
  cal_rep st q (e :: es) -> lastbucket_ q = bucket_of q st e ->
  exists st' q', cal_unlink e st q = Ok (st', q') /\ cal_rep st' q' es /\ same_data st st' /\
    lay q' = lay q /\ cal_clock_ q' = cal_clock_ q.
Proof.
  intros Hrep Hl. pose proof (cr_core _ _ _ Hrep) as H. set (i := bucket_of q st e) in *.
  assert (Hi : 0 <= i < nbuckets_ (lay q)) by (exact (rm_index st q e [] es H)).
  destruct (core_bucket st q _ i H Hi) as (b & Eb & Hb & _).
  pose proof (rm_holds st q e [] es b H Hb) as (_ & Hr & _). cbn [content] in Hr.
  change (content q st [] (bucket_of q st e)) with (@nil positive) in Hr. cbn [app] in Hr. fold i in Hr.
  set (L := content q st es i) in *. destruct (ring_around st e L Hr) as (ev & nv & _ & Hev & En & _ & Hnv & _).
  destruct (ring_unlink st e [] L ev Hr Hev) as (Ealone & st1 & E1 & R1 & R2). cbn [app] in *.
  assert (HeL : e ∉ L) by (destruct Hr as [Hnd _]; by apply NoDup_cons in Hnd as [? _]).
  destruct (put_aside st st1 e L ev (set_next None (set_prev None ev)) R2 HeL R1 Hev) as (S1 & Hv1 & P1 & P2 & P3).
  destruct (rm_counts st q e [] es b H Hb) as (_ & C2 & C3 & C4 & C5).
  change (content q st [] (bucket_of q st e)) with (@nil positive) in C2, C3. fold i in C2, C3. fold L in C2, C3.
  set (d := if fresh_time _ _ _ _ then 1 else 0) in C2, C3.
  unfold cal_unlink. rewrite Hl, (load_Some _ _ _ Hev). cbn [rbind]. rewrite En in *.
  rewrite (load_Some _ _ _ Hnv). cbn [rbind]. rewrite Eb. cbn [rbind].
  rewrite E1. cbn [rbind]. rewrite (core_aset st q _ i _ H Hi). cbn [rbind].
  rewrite (store_Some _ _ _ _ Hv1). cbn [rbind]. rewrite <- (tm_Some _ _ _ Hnv), <- (tm_Some _ _ _ Hev).
  set (drop := bool_decide _ || _).
  assert (Ed : d = if drop then 1 else 0).
  { unfold d, drop, fresh_time. rewrite Ealone. destruct L as [|x L']; [done|].
    rewrite bool_decide_eq_false_2 by done. done. }
  rewrite (less_one _ d drop Ed C2), (less_one _ d drop Ed C3).
  assert (Hsd : same_data st (<[e := set_next None (set_prev None ev)]> st1)).
  { intros k. destruct (decide (k = e)) as [->|Hk]; [by rewrite lookup_insert_eq, Hev|by apply P3]. }
  eexists _, _. split; [reflexivity|]. split; [|by split_and!].
  constructor; cbn [with_buckets lay cal_clock_ lastbucket_]; try (by apply Hrep).
  - eapply (core_remove st q e [] es b H Hb); try done.
    + cbn [with_buckets buckets_]. f_equal. rewrite Ealone. cbn [app]. fold i. fold L.
      destruct L as [|x L']; [by rewrite bool_decide_eq_true_2|by rewrite bool_decide_eq_false_2].
    + cbn [with_buckets qsize_]. rewrite wrap_small; lia.
  - pose proof (cr_early _ _ _ Hrep) as He. apply Forall_cons in He as [_ He].
    eapply Forall_impl; [exact He|]. intros x Hx. by rewrite (same_data_tm st _ x Hsd).
Qed.

(** ** [cancel] *)

Lemma assert_ok b : b = true -> assert_that b = Ok tt.
Proof. by intros ->. Qed.

Lemma assert_or a b : (a = true -> b = true) -> assert_that (negb a || b) = Ok tt.
Proof. destruct a; [|done]. intros Hb. by rewrite Hb. Qed.

(** The head of the bucket afterwards. *)
Lemma head_without st q e pre post b ev :
  let L1 := content q st pre (bucket_of q st e) in
  let L2 := content q st post (bucket_of q st e) in
  holds st b (L1 ++ e :: L2) -> ev_next ev = Some (default e (head (L2 ++ L1))) ->
  (if bool_decide (L1 ++ L2 = []) then None else if bool_decide (list_ b = Some e) then ev_next ev else list_ b) =
  head (L1 ++ L2).
Proof.
  intros L1 L2 (Hl & [Hnd _] & _) En. rewrite Hl, En. destruct L1 as [|h L1]; cbn [app head] in *.
  - rewrite app_nil_r. rewrite (bool_decide_eq_true_2 (Some e = Some e)) by done.
    destruct L2 as [|x L2]; [by rewrite bool_decide_eq_true_2|by rewrite bool_decide_eq_false_2].
  - rewrite bool_decide_eq_false_2, bool_decide_eq_false_2; [done| |done].
    intros [= ->]. apply NoDup_cons in Hnd as [Hnd _]. set_solver.
Qed.

Lemma alone_head st b e L1 L2 :
  holds st b (L1 ++ e :: L2) -> bool_decide (L1 ++ L2 = []) = true -> bool_decide (list_ b = Some e) = true.
Proof.
  intros (-> & _) [-> ->]%bool_decide_eq_true_1%app_eq_nil. by apply bool_decide_eq_true_2.
Qed.

Lemma distinct_none t L : distinct t L = 0 -> head L = None.
Proof. destruct L as [|x L]; [done|]. pose proof (distinct_pos t x L). lia. Qed.

Lemma cancel_spec st q es e ev :
  cal_rep st q es -> st !! e = Some ev -> e ∈ es -> 0 < uid_ ev ->
  exists st' q', cal_cancel e st q = Ok (st', q') /\ cal_rep st' q' (remove_ev e es) /\
    (forall k, k <> e -> ev_data <$> st' !! k = ev_data <$> st !! k) /\
    ev_data <$> st' !! e = Some (handler_ ev, time_ ev, - uid_ ev).
Proof.
  intros Hrep Hev Hin Hu. pose proof (cr_core _ _ _ Hrep) as H.
  apply list_elem_of_split in Hin as (pre & post & ->). rewrite remove_ev_middle by apply H.
  set (i := bucket_of q st e).
  assert (Hi : 0 <= i < nbuckets_ (lay q)) by (exact (rm_index st q e pre post H)).
  destruct (core_bucket st q _ i H Hi) as (b & Eb & Hb & _).
  pose proof (rm_holds st q e pre post b H Hb) as Hh. fold i in Hh.
  pose proof (rm_not_in st q e pre post H) as Hne.
  pose proof (rm_order st q e pre post H) as Ho. fold i in Ho.
  pose proof (rm_counts st q e pre post b H Hb) as (C1 & C2 & C3 & C4 & C5). fold i in C1, C2, C3.
  pose proof (head_without st q e pre post b ev Hh) as Ehead. fold i in Ehead.
  pose proof (core_remove st q e pre post b H Hb) as Hrm. fold i in Hrm.
  assert (HeL : e ∉ content q st pre i ++ content q st post i).
  { rewrite <- content_app. by intros [_ ?]%elem_of_content. }
  set (L1 := content q st pre i) in *. set (L2 := content q st post i) in *.
  pose proof Hh as (_ & Hr & _). destruct (ring_unlink st e L1 L2 ev Hr Hev) as (Ealone & st1 & E1 & R1 & R2).
  apply ring_rotate_app in Hr. cbn [app] in Hr.
  destruct (ring_around st e (L2 ++ L1) Hr) as (ev' & nv & pv & Hev' & En & Ep & Hnv & Epn & Hpv & Enp).
  assert (ev' = ev) as -> by congruence. specialize (Ehead En).
  pose proof (lone_time (tm st) e L1 L2 Ho) as Hlone.
  rewrite (tm_Some _ _ _ Hnv), (tm_Some _ _ _ Hpv), (tm_Some _ _ _ Hev), <- Ealone in Hlone.
  destruct (put_aside st st1 e _ ev (set_next None (set_prev None (set_uid (- uid_ ev) ev))) R2 HeL R1 Hev)
    as (_ & Hv1 & P1 & P2 & P3).
  set (d := if fresh_time _ _ _ _ then 1 else 0) in *.
  assert (Hf : fits (width_ (lay q)) (time_ ev) = true).
  { rewrite <- (tm_Some _ _ _ Hev). pose proof (cc_timed _ _ _ H) as Ht. rewrite Forall_forall in Ht.
    apply Ht. set_solver. }
  unfold cal_cancel. rewrite (load_Some _ _ _ Hev). cbn [rbind]. rewrite (proj2 (Z.leb_gt _ _) Hu).
  rewrite (core_hash st q _ e ev H Hev Hf). cbn [rbind]. fold i.
  rewrite Ep, (load_Some _ _ _ Hpv). cbn [rbind]. rewrite Enp, assert_ok by (by apply bool_decide_eq_true_2).
  cbn [rbind]. rewrite En in E1 |- *. rewrite (load_Some _ _ _ Hnv). cbn [rbind].
  rewrite Epn, assert_ok by (by apply bool_decide_eq_true_2). cbn [rbind].
  rewrite Eb. cbn [rbind]. rewrite <- En in E1 |- *. rewrite Hlone.
  rewrite (less_one _ d _ eq_refl C2), (less_one _ d _ eq_refl C3).
  rewrite !assert_or by (intros _; apply Z.leb_le; lia). cbn [rbind].
  rewrite assert_or by (rewrite Ealone; by eapply alone_head). cbn [rbind].
  rewrite E1. cbn [rbind]. rewrite Ealone, Ehead, (core_aset st q _ i _ H Hi). cbn [rbind].
  rewrite assert_or by (intros E0%Z.eqb_eq; apply bool_decide_eq_true_2, (distinct_none (tm st)); by rewrite <- C1).
  cbn [rbind].
  rewrite (store_Some _ _ _ _ Hv1). cbn [rbind].
  eexists _, _. split; [reflexivity|]. split; [|split; [done|by rewrite lookup_insert_eq]].
  constructor; cbn [with_buckets lay cal_clock_ lastbucket_]; try (by apply Hrep).
  - eapply Hrm; try done. cbn [with_buckets qsize_]. rewrite wrap_small; lia.
  - pose proof (cr_early _ _ _ Hrep) as He. rewrite Forall_forall in He |- *. intros x Hx.
    rewrite (data_tm st); [apply He; set_solver|]. apply P3. by intros ->.
Qed.
