(* ===== verification/CalTheorems.v ===== *)
(** * The properties of the calendar queue

    The operations of the calendar queue against the sorted list, one by one
    and on whole scripts.  They hold as long as the days are of a sane
    length: [fits] says that a time is less than 2^49 days away and so its
    day is computed exactly enough, and every resizing must choose days in
    which the pending times do fit. *)

From stdpp Require Import base numbers list gmap sorting.
From Stdlib Require Import ZArith Lia Bool.
From S2P Require Import Prelude.
From S2P Require Import Store.
From S2P Require Import Float64.
From S2P Require Import FloatInt.
From S2P Require Import EventQueue.
From S2P Require Import ListScheduler.
From S2P Require Import SchedulerTheorems.
From S2P Require Import Calendar.
From S2P Require Import CalTime.
From S2P Require Import CalProps.
From S2P Require Import CalInsert.
From S2P Require Import CalResize.
From S2P Require Import CalHead.
From S2P Require Import CalRemove.

Local Open Scope Z_scope.

(** ** Insertion *)

(** The event fits into the days there are, and if there are to be more, the
    new ones are sane. *)
Definition grow_sane (st : events) (q : calq) (es : list positive) : bool :=
  negb (top_threshold_ (lay q) <? stat_qsize_ q) ||
  resize_sane (wrap_i32 (Z.shiftl (nbuckets_ (lay q)) 1)) st q es.

Definition insert_sane (fuel : nat) (e : positive) (st : events) (q : calq) (es : list positive) : bool :=
  fits (width_ (lay q)) (tm st e) &&
  match cal_place fuel e st q with
  | Ok (st', q') => grow_sane st' q' (ord_insert (tm st) e es)
  | _ => true
  end.

Lemma small_events st q es : cal_core st q es -> Z.of_nat (length es) <= 2 ^ 27.
Proof. intros H%cc_small. rewrite <- max_events_Z. by apply inj_le. Qed.

Lemma thresholds st q es :
  cal_core st q es -> top_threshold_ (lay q) = 2 * nbuckets_ (lay q) /\
    bot_threshold_ (lay q) = nbuckets_ (lay q) / 2 - 2.
Proof.
  intros H. pose proof (cc_n _ _ _ H). pose proof (Z.div_lt (nbuckets_ (lay q)) 2).
  pose proof (Z.div_pos (nbuckets_ (lay q)) 2).
  rewrite (cc_lay _ _ _ H). cbn [layout_of top_threshold_ bot_threshold_ nbuckets_].
  rewrite Z.shiftl_mul_pow2, Z.shiftr_div_pow2 by lia. change (2 ^ 1) with 2.
  rewrite !wrap_small by lia. lia.
Qed.

Lemma cal_grow_spec fuel st q es :
  cal_rep st q es -> grow_sane st q es = true -> (length es <= fuel)%nat ->
  exists st' q', grow fuel st q = Ok (st', q') /\ cal_rep st' q' es /\ same_data st st'.
Proof.
  intros Hrep Hs Hf. unfold grow, grow_sane in *. pose proof (cr_core _ _ _ Hrep) as H.
  destruct (Z.ltb_spec (top_threshold_ (lay q)) (stat_qsize_ q)) as [Ht|]; [|by exists st, q].
  cbn [negb orb] in Hs. destruct (thresholds st q es H) as [E1 _].
  pose proof (counts_content st q es H) as Hc. rewrite <- (cc_stat _ _ _ H) in Hc.
  pose proof (small_events st q es H) as Hm. pose proof (cc_n _ _ _ H).
  destruct (resize_spec fuel (wrap_i32 (Z.shiftl (nbuckets_ (lay q)) 1)) st q es Hrep) as (st' & q' & E & R1 & R2 & _);
    [|exact Hs|exact Hf|exists st', q'; by split_and!].
  clear Hs. rewrite Z.shiftl_mul_pow2, Z.pow_1_r by lia. rewrite wrap_small; lia.
Qed.

Lemma cal_insert_spec fuel e st q es :
  cal_rep st q es -> e ∉ es -> is_Some (st !! e) -> insert_sane fuel e st q es = true ->
  (length es < fuel)%nat -> (S (length es) <= max_events)%nat ->
  exists st' q', cal_insert fuel e st q = Ok (st', q') /\ cal_rep st' q' (ord_insert (tm st) e es) /\
    same_data st st'.
Proof.
  intros Hrep He [ev Hev] Hs Hf Hm. unfold insert_sane in Hs. apply andb_true_iff in Hs as [Hfit Hs].
  rewrite (tm_Some _ _ _ Hev) in Hfit.
  destruct (place_spec st q es e ev fuel Hrep He Hev Hfit Hm) as (st1 & q1 & E & H1 & D1 & _); [lia|].
  rewrite E in Hs. unfold cal_insert. rewrite E. cbn [rbind].
  destruct (cal_grow_spec fuel st1 q1 _ H1 Hs) as (st2 & q2 & E2 & H2 & D2); [rewrite length_ord_insert; lia|].
  exists st2, q2. split_and!; [done|done|by eapply same_data_trans].
Qed.

(** ** Removal of the next event *)

Definition shrink_sane (st : events) (q : calq) (es : list positive) : bool :=
  negb (stat_qsize_ q <? bot_threshold_ (lay q)) ||
  resize_sane (Z.shiftr (nbuckets_ (lay q)) 1) st q es.

Definition adjust_sane (t : f64) (st : events) (q : calq) (es : list positive) : bool :=
  let '(q, due) := sample t q in negb due || resize_sane (nbuckets_ (lay q)) st q es.

Definition deque_sane (fuel : nat) (st : events) (q : calq) (es : list positive) : bool :=
  match cal_head st q with
  | Ok (Some e, q) =>
      adjust_sane (tm st e) st q es &&
      match (let! '(st, q) := adjust fuel (tm st e) st q in cal_unlink e st q) with
      | Ok (st, q) => shrink_sane st q (tail es)
      | _ => true
      end
  | _ => true
  end.

Lemma shrink_spec fuel st q es :
  cal_rep st q es -> shrink_sane st q es = true -> (length es <= fuel)%nat ->
  exists st' q', shrink fuel st q = Ok (st', q') /\ cal_rep st' q' es /\ same_data st st'.
Proof.
  intros Hrep Hs Hf. unfold shrink, shrink_sane in *. pose proof (cr_core _ _ _ Hrep) as H.
  destruct (Z.ltb_spec (stat_qsize_ q) (bot_threshold_ (lay q))) as [Ht|]; [|by exists st, q].
  cbn [negb orb] in Hs. pose proof (cc_n _ _ _ H).
  destruct (resize_spec fuel (Z.shiftr (nbuckets_ (lay q)) 1) st q es Hrep) as (st' & q' & E & R1 & R2 & _);
    [|exact Hs|exact Hf|exists st', q'; by split_and!].
  clear Hs. rewrite Z.shiftr_div_pow2, Z.pow_1_r by lia. pose proof (Z.div_lt (nbuckets_ (lay q)) 2). lia.
Qed.

Lemma sample_snoop t q q' due : sample t q = (q', due) -> only_snoop q q'.
Proof.
  unfold sample. repeat case_match; intros [= <- <-]; try (by eexists). apply only_snoop_refl.
Qed.

Lemma adjust_spec fuel t st q es :
  cal_rep st q es -> adjust_sane t st q es = true -> (length es <= fuel)%nat ->
  exists st' q', adjust fuel t st q = Ok (st', q') /\ cal_rep st' q' es /\ same_data st st' /\
    cal_clock_ q' = cal_clock_ q.
Proof.
  intros Hrep Hs Hf. unfold adjust, adjust_sane in *. destruct (sample t q) as [q1 due] eqn:E.
  apply sample_snoop in E. pose proof (only_snoop_rep st q q1 es E Hrep) as H1.
  assert (Ec : cal_clock_ q1 = cal_clock_ q) by (by destruct E as [s ->]).
  destruct due; [|by exists st, q1]. cbn [negb orb] in Hs.
  pose proof (cc_n _ _ _ (cr_core _ _ _ H1)).
  destruct (resize_spec fuel (nbuckets_ (lay q1)) st q1 es H1 ltac:(lia) Hs Hf) as (st2 & q2 & -> & H2 & D2 & Ec2).
  cbn [rbind]. eexists st2, _. split; [done|]. split; [|split; [done|]].
  - eapply only_snoop_rep; [|exact H2]. by eexists.
  - cbn. congruence.
Qed.

(** The bucket of the clock is the bucket of an event of its time. *)
Lemma clock_bucket st q es e :
  cal_rep st q es -> cal_clock_ q = tm st e -> lastbucket_ q = bucket_of q st e.
Proof. intros Hrep Ec. rewrite (cr_last _ _ _ Hrep), Ec. done. Qed.

Lemma cal_deque_spec fuel st q es :
  cal_rep st q es -> deque_sane fuel st q es = true -> (length es < fuel)%nat ->
  exists st' q', cal_deque fuel st q = Ok (head es, st', q') /\ cal_rep st' q' (tail es) /\ same_data st st'.
Proof.
  intros Hrep Hs Hf. unfold cal_deque, deque_sane in *.
  destruct (head_spec st q es Hrep) as (q1 & E & H1 & _ & Hq1). rewrite E in *. cbn [rbind].
  destruct es as [|e es]; [by exists st, q1|]. cbn [head tail] in *. destruct Hq1 as (Ec & _).
  apply andb_true_iff in Hs as [Ha Hs].
  pose proof (cc_timed _ _ _ (cr_core _ _ _ H1)) as Ht. apply Forall_cons in Ht as [[[v Hv] _] _].
  rewrite (load_Some _ _ _ Hv). cbn [rbind]. rewrite (tm_Some _ _ _ Hv) in Ha, Hs.
  destruct (adjust_spec fuel (time_ v) st q1 _ H1 Ha) as (st2 & q2 & E2 & H2 & D2 & Ec2); [lia|].
  rewrite E2 in Hs |- *. cbn [rbind] in Hs |- *.
  destruct (cal_unlink_spec st2 q2 e es H2) as (st3 & q3 & E3 & H3 & D3 & _).
  { eapply clock_bucket; [exact H2|]. by rewrite Ec2, Ec, (same_data_tm st st2 e D2). }
  rewrite E3 in Hs |- *. cbn [rbind].
  destruct (shrink_spec fuel st3 q3 es H3 Hs) as (st4 & q4 & -> & H4 & D4); [cbn in Hf; lia|]. cbn [rbind].
  exists st4, q4. split_and!; [done|done|]. by do 2 (eapply same_data_trans; [eassumption|]).
Qed.

Lemma empty_rep st : cal_rep st (empty_calendar default_snoopy) [].
Proof.
  constructor; [|vm_compute; done|constructor|vm_compute; done].
  apply (core_same st (CalQ (layout_of 4 f1) default_snoopy 0 0 0 (replicate (Z.to_nat 4) (Bucket None 0)) f0)).
  - done.
  - exact (core_nothing st (empty_calendar default_snoopy) 4 f1 0 ltac:(vm_compute; done) ltac:(lia)).
Qed.

(** ** Scripts *)

(** Along a run the days stay sane: [es] are the pending events. *)
Fixpoint script_sane (fuel : nat) (ops : list queue_op) (es : list positive) (st : events) (q : calq) : bool :=
  match ops with
  | [] => true
  | QInsert e :: ops' =>
      insert_sane fuel e st q es &&
      match cal_insert fuel e st q with
      | Ok (st', q') => script_sane fuel ops' (ord_insert (tm st) e es) st' q'
      | _ => true
      end
  | QDeque :: ops' =>
      deque_sane fuel st q es &&
      match cal_deque fuel st q with
      | Ok (_, st', q') => script_sane fuel ops' (tail es) st' q'
      | _ => true
      end
  | QCancel e :: ops' =>
      match cal_cancel e st q with
      | Ok (st', q') => script_sane fuel ops' (if unum st e <=? 0 then es else remove_ev e es) st' q'
      | _ => true
      end
  end.

Definition tracks (D : edata) (st : events) : Prop := forall k, ev_data <$> st !! k = D !! k.

Lemma tracks_same D st st' : tracks D st -> same_data st st' -> tracks D st'.
Proof. intros HD Hsd k. by rewrite Hsd. Qed.

Lemma tracks_Some D st e d : tracks D st -> D !! e = Some d -> exists ev, st !! e = Some ev /\ ev_data ev = d.
Proof.
  intros HD Hd. specialize (HD e). rewrite Hd in HD. destruct (st !! e) as [ev|]; [|done].
  exists ev. split; [done|]. by injection HD.
Qed.

Lemma tracks_cancelled D st st' e ev :
  tracks D st -> st !! e = Some ev ->
  (forall k, k <> e -> ev_data <$> st' !! k = ev_data <$> st !! k) ->
  ev_data <$> st' !! e = Some (handler_ ev, time_ ev, - uid_ ev) -> tracks (cancelled D e) st'.
Proof.
  intros HD Hev Ho He k. pose proof (HD e) as Hd. rewrite Hev in Hd. cbn in Hd. unfold cancelled. rewrite <- Hd.
  destruct (decide (k = e)) as [->|]; [by rewrite lookup_insert_eq|]. by rewrite lookup_insert_ne, Ho, HD.
Qed.

Lemma calendar_script fuel ops : forall D es st q,
  cal_rep st q es -> tracks D st -> (length es + length ops < fuel)%nat ->
  (length es + length ops <= max_events)%nat -> script_ok D es ops -> script_sane fuel ops es st q = true ->
  run_script fuel ops st q = Ok (script_result D es ops).
Proof.
  induction ops as [|o ops IH]; intros D es st q Hrep HD Hf Hm Hok Hs; [done|].
  cbn [length] in Hf, Hm. destruct o as [e| |e]; cbn [run_script script_result script_sane script_ok] in *.
  - destruct Hok as (He & (d & Hd & _) & Hok). apply andb_true_iff in Hs as [Hi Hs].
    destruct (tracks_Some D st e d HD Hd) as (ev & Hev & _).
    destruct (cal_insert_spec fuel e st q es Hrep He) as (st' & q' & E & H' & D'); [by exists ev|exact Hi|lia|lia|].
    rewrite E in Hs. cbn [eq_insert calendar_queue]. rewrite E. cbn [rbind].
    rewrite (ord_insert_ext (tm st) (dtime D)) in H', Hs
      by (try (apply Forall_forall; intros x _); by apply tm_dtime).
    apply IH; try done; [by eapply tracks_same| |]; rewrite length_ord_insert; lia.
  - apply andb_true_iff in Hs as [Hi Hs].
    destruct (cal_deque_spec fuel st q es Hrep Hi) as (st' & q' & E & H' & D'); [lia|].
    rewrite E in Hs. cbn [eq_deque calendar_queue]. rewrite E. cbn [rbind].
    assert (Hl : (length (tail es) <= length es)%nat) by (destruct es; cbn; lia).
    rewrite (IH D (tail es) st' q'); try done; [by eapply tracks_same|lia|lia].
  - destruct Hok as (d & Hd & Hok). rewrite Hd. destruct (tracks_Some D st e d HD Hd) as (ev & Hev & Ed).
    assert (Eu : d.2 = uid_ ev) by (by rewrite <- Ed). rewrite (unum_Some _ _ _ Hev) in Hs.
    cbn [eq_cancel calendar_queue]. rewrite Eu in *. destruct (Z.leb_spec (uid_ ev) 0) as [Hu|Hu].
    + assert (E : cal_cancel e st q = Ok (st, q)).
      { unfold cal_cancel. rewrite (load_Some _ _ _ Hev). cbn [rbind]. by rewrite (proj2 (Z.leb_le _ _) Hu). }
      rewrite E in Hs |- *. cbn [rbind]. apply IH; try done; lia.
    + destruct Hok as [Hin Hok].
      destruct (cancel_spec st q es e ev Hrep Hev Hin Hu) as (st' & q' & E & H' & D1 & D2).
      rewrite E in Hs |- *. cbn [rbind]. pose proof (length_remove_ev e es).
      apply IH; try done; [by eapply tracks_cancelled|lia|lia].
Qed.

(** C16: on every script of insertions, cancellations and removals along which
    the days of the calendar stay sane, the calendar queue, with its hashing
    of times in floating point, its searches and its changes of the number
    and the length of the days, gives out the same events in the same order
    as the sorted list, first come first served among equal times. *)
Theorem calendar_agrees_with_list (fuel : nat) (ops : list queue_op) (st : events)
    (Hlen : (length ops < fuel)%nat) (Hmax : (length ops <= max_events)%nat)
    (Hok : script_ok (ev_data <$> st) [] ops)
    (Hsane : script_sane fuel ops [] st (empty_calendar default_snoopy) = true) :
  run_script fuel ops st (empty_calendar default_snoopy) = run_script fuel ops st (ListQ None) /\
  run_script fuel ops st (empty_calendar default_snoopy) = Ok (script_result (ev_data <$> st) [] ops).
Proof.
  assert (HD : tracks (ev_data <$> st) st) by (intros k; by rewrite lookup_fmap).
  rewrite (calendar_script fuel ops (ev_data <$> st) [] st (empty_calendar default_snoopy));
    [|by apply empty_rep|done|done|done|done|exact Hsane].
  rewrite (script_spec (Q := listq) fuel ops (ev_data <$> st) [] st (ListQ None)); try done.
  - constructor.
Qed.

(** Ten events at multiples of a quarter, two of them at the same time: the
    tenth makes the queue double its days, and as they are served it halves
    them again. *)
Definition ten_events : events :=
  list_to_map (imap (fun i z => (Pos.of_succ_nat i, Event None None None (f64_ratio z 4) (Z.of_nat (S i))))
    [9; 2; 30; 2; 7; 41; 3; 18; 5; 1000]).

Definition ten_ops : list queue_op :=
  ((fun i => QInsert (Pos.of_succ_nat i)) <$> seq 0 10) ++
  [QDeque; QDeque; QCancel 8%positive; QDeque; QDeque; QDeque; QInsert 2%positive; QDeque; QDeque; QDeque; QDeque].

Lemma calendar_agrees_with_list_witness :
  run_script 30 ten_ops ten_events (empty_calendar default_snoopy) = run_script 30 ten_ops ten_events (ListQ None) /\
  run_script 30 ten_ops ten_events (empty_calendar default_snoopy) =
    Ok [Some 2; Some 4; Some 7; Some 9; Some 5; Some 2; Some 1; Some 3; Some 6]%positive.
Proof.
  apply (calendar_agrees_with_list 30 ten_ops ten_events).
  - cbn. lia.
  - apply Nat2Z.inj_le. rewrite max_events_Z. cbn. lia.
  - vm_compute. repeat (split || eexists); try done; set_solver.
  - vm_compute. reflexivity.
Defined.

(** ** The next event *)

(** C17: whatever the buckets, the clock and the days, as long as the pending
    times fit into them, [head] looks into fewer buckets than there are and
    returns the event that is first in the order of service, none of the
    others being earlier; it moves the clock to it and leaves the queue as
    it is. *)
Theorem calendar_head_is_next (st : events) (q : calq) (e : positive) (es : list positive)
    (Hrep : cal_rep st q (e :: es)) :
  exists q' c, cal_head st q = Ok (Some e, q') /\ cal_rep st q' (e :: es) /\
    Forall (fun x => fle (tm st e) (tm st x) = true) es /\
    cal_clock_ q' = tm st e /\ lay q' = lay q /\
    head_search_ (snoop q') = wrap_u64 (head_search_ (snoop q) + c) /\ 1 <= c < nbuckets_ (lay q).
Proof.
  destruct (head_spec st q (e :: es) Hrep) as (q' & E & Hrep' & El & Ec & _ & c & Hc & Es).
  assert (Hes : Forall (fun x => fle (tm st e) (tm st x) = true) es).
  { pose proof (cc_order _ _ _ (cr_core _ _ _ Hrep)) as Ho. by apply StronglySorted_inv in Ho as [_ Ho]. }
  exists q', c. rewrite Es. split; [exact E|]. split; [exact Hrep'|]. split; [exact Hes|]. split; [exact Ec|]. split; [exact El|]. split; [done|lia].
Qed.

(** An event of a later year, found by the search over the whole year. *)
Lemma calendar_head_is_next_witness :
  exists st q q' c, cal_insert 5 10 ten_events (empty_calendar default_snoopy) = Ok (st, q) /\
    cal_head st q = Ok (Some 10%positive, q') /\ cal_rep st q' [10%positive] /\ 1 <= c < 4.
Proof.
  destruct (cal_insert_spec 5 10 ten_events (empty_calendar default_snoopy) [] (empty_rep _))
    as (st & q & E & Hrep & _); [set_solver|by eexists|vm_compute; done|cbn; lia| |].
  { apply Nat2Z.inj_le. rewrite max_events_Z. cbn. lia. }
  destruct (calendar_head_is_next st q 10 [] Hrep) as (q' & c & E' & Hrep' & _ & _ & _ & _ & Hc).
  exists st, q, q', c. split; [exact E|]. split; [exact E'|]. split; [exact Hrep'|].
  vm_compute in E. injection E as _ <-. exact Hc.
Defined.
