(* ===== verification/SackBoard.v ===== *)
(** * What a SACK scoreboard promises to a TCP sender

    A sender tells its scoreboard of each acknowledgment, the number up to
    which all has come and the blocks of numbers above that have, and asks it
    which segment to send again.  [board] is what a scoreboard stands for;
    [SackBoard] is the interface of class ScoreBoard (tcp/scoreboard.h), whose
    methods are virtual, and [SackBoardLaws] what a sender relies on. *)

From stdpp Require Import base numbers list gmap sets.
From Stdlib Require Import ZArith Lia.
From S2P Require Import Prelude.

Local Open Scope Z_scope.

(** ** The meaning *)

(** The first number not acknowledged, the numbers above reported to have
    come, and those sent again and not reported since. *)
Record board := Board { una : Z; sacked : gset Z; marked : gset Z }.

Definition empty_board : board := Board 0 ∅ ∅.

Definition block_set (b : Z * Z) : gset Z := list_to_set (seqZ b.1 (b.2 - b.1)).

Definition blocks_set (bs : list (Z * Z)) : gset Z := ⋃ (block_set <$> bs).

Definition from (lo : Z) (X : gset Z) : gset Z := filter (fun x => lo <= x) X.

(** An acknowledgment of [last_ack] with the blocks [bs]. *)
Definition acked (last_ack : Z) (bs : list (Z * Z)) (s : board) : board :=
  let S := from (last_ack + 1) (sacked s) ∪ blocks_set bs in
  Board (last_ack + 1) S (from (last_ack + 1) (marked s) ∖ S).

(** One above the highest number reported. *)
Definition top (s : board) : Z := set_fold (fun x m => Z.max (x + 1) m) (una s) (sacked s).

(** The holes in order, and the first of them, -1 if there is none. *)
Definition holes (s : board) : list Z :=
  filter (fun x => x ∉ sacked s ∪ marked s) (seqZ (una s) (top s - una s)).

Definition next_hole (s : board) : Z := default (-1) (head (holes s)).

Definition mark (x : Z) (s : board) : board := Board (una s) (sacked s) ({[x]} ∪ marked s).

Definition cleared (s : board) : board := Board (una s) ∅ ∅.

(** ** Sessions *)

(** [SMark x]: the sender has sent [x] on its own account and says so, as it
    does when a fast retransmit sends the first number not acknowledged. *)
Inductive board_op := SAck (last_ack : Z) (bs : list (Z * Z)) | SRetransmit | SMark (x : Z) | SClear.

(** The sends of a session, one for each [SRetransmit]; a segment sent again
    is marked. *)
Definition retransmitted (s : board) : board :=
  if next_hole s <? 0 then s else mark (next_hole s) s.

Fixpoint board_run (ops : list board_op) (s : board) : list Z :=
  match ops with
  | [] => []
  | SAck a bs :: ops => board_run ops (acked a bs s)
  | SRetransmit :: ops => next_hole s :: board_run ops (retransmitted s)
  | SMark x :: ops => board_run ops (mark x s)
  | SClear :: ops => board_run ops (cleared s)
  end.

(** Acknowledgments do not go back (the number may be -1: nothing has come),
    and their blocks are above them; those of a receiver acknowledge all that
    has come up to a number that has not. *)
Definition ack_above (N : Z) (s : board) (a : Z) (bs : list (Z * Z)) : Prop :=
  una s <= a + 1 <= N /\ Forall (fun b => a + 1 <= b.1 < b.2 /\ b.2 <= N) bs.

Definition receiver_ack (N : Z) (s : board) (a : Z) (bs : list (Z * Z)) : Prop :=
  ack_above N s a bs /\ a + 1 ∉ sacked (acked a bs s).

(** The same once segment 0 has come. *)
Definition ack_ok (N : Z) (s : board) (a : Z) (bs : list (Z * Z)) : Prop :=
  0 <= a /\ ack_above N s a bs.

Definition exact_ack_ok (N : Z) (s : board) (a : Z) (bs : list (Z * Z)) : Prop :=
  ack_ok N s a bs /\ a + 1 ∉ sacked (acked a bs s).

(** A session all of whose acknowledgments are as [ok] says. *)
Fixpoint session_ok (ok : board -> Z -> list (Z * Z) -> Prop) (ops : list board_op) (s : board) : Prop :=
  match ops with
  | [] => True
  | SAck a bs :: ops => ok s a bs /\ session_ok ok ops (acked a bs s)
  | SRetransmit :: ops => session_ok ok ops (retransmitted s)
  | SMark x :: ops => (x = una s /\ una s < top s /\ una s ∉ sacked s) /\ session_ok ok ops (mark x s)
  | SClear :: ops => session_ok ok ops (cleared s)
  end.

#[export] Instance ack_ok_dec N s a bs : Decision (ack_ok N s a bs).
Proof. unfold ack_ok, ack_above. apply _. Defined.

#[export] Instance receiver_ack_dec N s a bs : Decision (receiver_ack N s a bs).
Proof. unfold receiver_ack, ack_above. apply _. Defined.

#[export] Instance exact_ack_ok_dec N s a bs : Decision (exact_ack_ok N s a bs).
Proof. unfold exact_ack_ok. apply _. Defined.

#[export] Instance session_ok_dec ok `{!forall s a bs, Decision (ok s a bs)} ops :
  forall s, Decision (session_ok ok ops s).
Proof. induction ops as [|[] ops IH]; intros s; cbn; apply _. Defined.

Lemma session_ok_mono (ok ok' : board -> Z -> list (Z * Z) -> Prop) ops : forall s,
  (forall s a bs, ok s a bs -> ok' s a bs) -> session_ok ok ops s -> session_ok ok' ops s.
Proof.
  induction ops as [|[] ops IH]; intros s Hi; cbn; [done|intros [? ?]; split; auto|by apply IH|intros [? ?]; split; auto|by apply IH].
Qed.

Fixpoint blocks_in (ops : list board_op) : nat :=
  match ops with
  | [] => 0
  | SAck _ bs :: ops => length bs + blocks_in ops
  | _ :: ops => blocks_in ops
  end.

(** ** Lemmas on the meaning *)

Lemma elem_of_block b x : x ∈ block_set b <-> b.1 <= x < b.2.
Proof. unfold block_set. rewrite elem_of_list_to_set, elem_of_seqZ. lia. Qed.

Lemma elem_of_blocks bs x : x ∈ blocks_set bs <-> exists b, b ∈ bs /\ b.1 <= x < b.2.
Proof.
  unfold blocks_set. rewrite elem_of_union_list. setoid_rewrite list_elem_of_fmap. split.
  - intros (X & (b & -> & Hb) & Hx). exists b. split; [done|]. by apply elem_of_block.
  - intros (b & Hb & Hx). exists (block_set b). split; [by exists b|by apply elem_of_block].
Qed.

Lemma elem_of_from lo X x : x ∈ from lo X <-> lo <= x /\ x ∈ X.
Proof. unfold from. by rewrite elem_of_filter. Qed.

Lemma top_spec s :
  una s <= top s /\ (forall x, x ∈ sacked s -> x < top s) /\ (una s < top s -> top s - 1 ∈ sacked s).
Proof.
  unfold top. set (f := fun x m : Z => Z.max (x + 1) m).
  apply (set_fold_ind_L (fun m X => una s <= m /\ (forall x, x ∈ X -> x < m) /\ (una s < m -> m - 1 ∈ X))
    f (una s)); [split; [lia|split; [set_solver|lia]]|].
  intros x X m _ (H1 & H2 & H3). unfold f. split; [lia|]. split.
  - intros y [->%elem_of_singleton|Hy]%elem_of_union; [lia|]. specialize (H2 y Hy). lia.
  - intros Hm. destruct (decide (m <= x + 1)).
    + replace (Z.max (x + 1) m - 1) with x by lia. set_solver.
    + replace (Z.max (x + 1) m) with m in * by lia. set_solver.
Qed.

(** The first number in a range with a property. *)
Lemma first_in_range (P : Z -> Prop) `{!forall x, Decision (P x)} lo n :
  match head (filter P (seqZ lo n)) with
  | Some z => lo <= z < lo + n /\ P z /\ forall x, lo <= x < z -> ~ P x
  | None => forall x, lo <= x < lo + n -> ~ P x
  end.
Proof.
  destruct (Z.leb_spec 0 n) as [Hn|Hn].
  2: { rewrite seqZ_nil by lia. cbn. lia. }
  rewrite <- (Z2Nat.id n Hn). generalize (Z.to_nat n) as m. clear n Hn. intros m. revert lo.
  induction m as [|m IH]; intros lo; [rewrite seqZ_nil by lia; cbn; lia|]. rewrite seqZ_cons by lia.
  replace (Z.pred (Z.of_nat (S m))) with (Z.of_nat m) by lia. rewrite filter_cons.
  destruct (decide (P lo)) as [Hlo|Hlo]; cbn [head].
  - split; [lia|]. split; [done|lia].
  - specialize (IH (Z.succ lo)). destruct (head _) as [z|].
    + destruct IH as (H1 & H2 & H3). split; [lia|]. split; [done|]. intros x Hx.
      destruct (decide (x = lo)) as [->|]; [done|]. apply H3. lia.
    + intros x Hx. destruct (decide (x = lo)) as [->|]; [done|]. apply IH. lia.
Qed.

(** A hole below the highest number reported. *)
Definition hole (s : board) (x : Z) : Prop := una s <= x < top s /\ x ∉ sacked s /\ x ∉ marked s.

Lemma next_hole_cases s :
  (hole s (next_hole s) /\ forall x, una s <= x < next_hole s -> ~ hole s x) \/
  (next_hole s = -1 /\ forall x, ~ hole s x).
Proof.
  unfold next_hole, holes, hole. set (P := fun x => x ∉ sacked s ∪ marked s).
  pose proof (first_in_range P (una s) (top s - una s)) as Hf.
  destruct (head _) as [z|]; cbn [default]; unfold id.
  - left. destruct Hf as (H1 & H2 & H3). split; [split; [lia|]; unfold P in H2; set_solver|].
    intros x Hx (_ & ? & ?). apply (H3 x Hx). unfold P. set_solver.
  - right. split; [done|]. intros x (Hx & ? & ?). apply (Hf x); [lia|]. unfold P. set_solver.
Qed.

Lemma next_hole_is s z :
  hole s z -> (forall x, una s <= x < z -> ~ hole s x) -> next_hole s = z.
Proof.
  intros Hz Hx. destruct (next_hole_cases s) as [[H1 H2]|[_ H2]]; [|by destruct (H2 z)].
  destruct (Z.lt_trichotomy (next_hole s) z) as [Hlt|[|Hlt]]; [|done|].
  - destruct (Hx (next_hole s)); [destruct H1; lia|done].
  - destruct (H2 z); [destruct Hz; lia|done].
Qed.

Lemma next_hole_none s : (forall x, ~ hole s x) -> next_hole s = -1.
Proof. intros Hx. destruct (next_hole_cases s) as [[H1 _]|[-> _]]; [by destruct (Hx (next_hole s))|done]. Qed.

Lemma next_hole_hole s : 0 <= next_hole s -> hole s (next_hole s).
Proof. destruct (next_hole_cases s) as [[? _]|[-> _]]; [done|lia]. Qed.

(** ** The interface *)

Class SackBoard (B : Type) := {
  UpdateScoreBoard : nat -> Z -> list (Z * Z) -> B -> result (Z * B);
  GetNextRetran : nat -> B -> result (Z * B);
  MarkRetran : Z -> B -> result B;
  ClearScoreBoard : nat -> B -> result B;
}.

(** [brep k b s]: [b] stands for [s], of at most [k] blocks.  [ok] says which
    acknowledgments it takes, [gives] which numbers it gives out. *)
Class SackBoardLaws (B : Type) (ok : board -> Z -> list (Z * Z) -> Prop) (gives : Z -> Prop)
    `{SackBoard B} := {
  brep : nat -> B -> board -> Prop;
  brep_mono k k' b s : brep k b s -> (k <= k')%nat -> brep k' b s;
  update_law fuel k b s a bs :
    brep k b s -> ok s a bs -> (k + length bs < fuel)%nat -> (32 < fuel)%nat ->
    exists d b', UpdateScoreBoard fuel a bs b = Ok (d, b') /\ brep (k + length bs) b' (acked a bs s);
  next_law fuel k b s :
    brep k b s -> gives (next_hole s) -> (k < fuel)%nat ->
    exists b', GetNextRetran fuel b = Ok (next_hole s, b') /\ brep k b' s;
  mark_law k b s z :
    brep k b s -> una s <= z < top s -> z ∉ sacked s -> (forall x, una s <= x < z -> ~ hole s x) ->
    exists b', MarkRetran z b = Ok b' /\ brep k b' (mark z s);
  clear_law fuel k b s :
    brep k b s -> (k < fuel)%nat -> exists b', ClearScoreBoard fuel b = Ok b' /\ brep k b' (cleared s);
}.

Section session.
Context {B : Type} `{SackBoard B}.

(** The session on a scoreboard. *)
Fixpoint session (fuel : nat) (ops : list board_op) (b : B) : result (list Z) :=
  match ops with
  | [] => Ok []
  | SAck a bs :: ops =>
      let! '(_, b) := UpdateScoreBoard fuel a bs b in session fuel ops b
  | SRetransmit :: ops =>
      let! '(z, b) := GetNextRetran fuel b in
      let! b := if z <? 0 then Ok b else MarkRetran z b in
      let! zs := session fuel ops b in
      Ok (z :: zs)
  | SMark x :: ops => let! b := MarkRetran x b in session fuel ops b
  | SClear :: ops => let! b := ClearScoreBoard fuel b in session fuel ops b
  end.
End session.

Lemma session_spec {B : Type} ok gives `{SackBoardLaws B ok gives} fuel ops : forall k (b : B) s,
  brep k b s -> session_ok ok ops s -> Forall gives (board_run ops s) -> (k + blocks_in ops < fuel)%nat -> (32 < fuel)%nat ->
  session fuel ops b = Ok (board_run ops s).
Proof.
  induction ops as [|o ops IH]; intros k b s Hb Hok Hg Hf Hf32; [done|].
  destruct o as [a bs| |x|]; cbn [session board_run session_ok blocks_in] in *.
  - destruct Hok as [Ha Hok]. destruct (update_law fuel k b s a bs Hb Ha) as (d & b' & -> & Hb'); [lia|lia|].
    cbn [rbind]. eapply IH; [exact Hb'|done|done|lia|lia].
  - apply Forall_cons in Hg as [Hg1 Hg]. destruct (next_law fuel k b s Hb Hg1) as (b' & -> & Hb'); [lia|]. cbn [rbind].
    unfold retransmitted in *. destruct (Z.ltb_spec (next_hole s) 0).
    + cbn [rbind]. by rewrite (IH k b' s) by (done || lia).
    + destruct (next_hole_cases s) as [[Hh Hlow]|[? _]]; [|lia]. pose proof Hh as (Hr & Hs & _).
      destruct (mark_law k b' s (next_hole s) Hb' Hr Hs Hlow) as (b2 & -> & Hb2). cbn [rbind].
      by rewrite (IH k b2 (mark (next_hole s) s)) by (done || lia).
  - destruct Hok as [(-> & Ht & Hs) Hok].
    destruct (mark_law k b s (una s) Hb) as (b' & -> & Hb'); [lia|done|lia|]. cbn [rbind]. by apply (IH k).
  - destruct (clear_law fuel k b s Hb) as (b' & -> & Hb'); [lia|]. cbn [rbind].
    by apply (IH k).
Qed.
