(* ===== verification/ScoreBoard.v ===== *)
(** * The scoreboard (tcp/scoreboard.{h,cc})

    One node for each segment from the first one not acknowledged to the
    highest one reported, in a circular array that doubles when it would
    overflow.  Memory from [new] holds [junk] until it is written: the
    theorems are about any [junk].  [Dump], which prints, is left out. *)

From stdpp Require Import base numbers list gmap.
From Stdlib Require Import ZArith Lia.
From S2P Require Import Prelude.
From S2P Require Import Array.
From S2P Require Import SackBoard.

Local Open Scope Z_scope.

Record ScoreBoardNode := Node {
  seq_no_ : Z;
  ack_flag_ : Z;
  sack_flag_ : Z;
  retran_ : Z;
  snd_nxt_ : Z
}.

Record ScoreBoard := SB {
  first_ : Z;
  length_ : Z;
  sbsize_ : Z;
  changed_ : Z;
  SBN : list ScoreBoardNode
}.

(** [ScoreBoard (sbn, sz)] *)
Definition new_ScoreBoard (sbn : list ScoreBoardNode) (sz : Z) : ScoreBoard := SB 0 0 sz 0 sbn.

Definition set_SBN a (b : ScoreBoard) : ScoreBoard := SB (first_ b) (length_ b) (sbsize_ b) (changed_ b) a.
Definition set_length n (b : ScoreBoard) : ScoreBoard := SB (first_ b) n (sbsize_ b) (changed_ b) (SBN b).
Definition set_first i (b : ScoreBoard) : ScoreBoard := SB i (length_ b) (sbsize_ b) (changed_ b) (SBN b).
Definition set_changed c (b : ScoreBoard) : ScoreBoard := SB (first_ b) (length_ b) (sbsize_ b) c (SBN b).
Definition changed (b : ScoreBoard) : ScoreBoard := set_changed (wrap_i32 (changed_ b + 1)) b.

(** [SBN[i % sbsize_]], read and assigned *)
Definition SBNI (b : ScoreBoard) (i : Z) : result ScoreBoardNode := aget (SBN b) (Z.rem i (sbsize_ b)).
Definition put_node (b : ScoreBoard) (i : Z) (v : ScoreBoardNode) : result ScoreBoard :=
  let! a := aset (SBN b) (Z.rem i (sbsize_ b)) v in Ok (set_SBN a b).

Definition set_flag (v : ScoreBoardNode) : bool := negb (retran_ v =? 0).
Definition new_node (i : Z) : ScoreBoardNode := Node i 0 0 0 0.
Definition unsent (v : ScoreBoardNode) : ScoreBoardNode :=
  Node (seq_no_ v) (ack_flag_ v) (sack_flag_ v) 0 (snd_nxt_ v).

(** The last node: [SBN[(first_+length_+sbsize_-1)%sbsize_]] *)
Definition last_node (b : ScoreBoard) : result ScoreBoardNode :=
  SBNI b (wrap_i32 (wrap_i32 (wrap_i32 (first_ b + length_ b) + sbsize_ b) - 1)).

(** "Advance the left edge of the block": [n] rounds of the loop from [i]. *)
Fixpoint advance_left (n : nat) (i last_ack decr : Z) (b : ScoreBoard) : result (Z * ScoreBoard) :=
  match n with
  | O => Ok (decr, b)
  | S n =>
      let! v := SBNI b i in
      if seq_no_ v <=? last_ack then
        let! _ := if first_ b =? i then Ok tt else Fault Exited in
        let b := set_length (wrap_i32 (length_ b - 1)) (set_first (wrap_i32 (first_ b + 1)) b) in
        let! _ := if 0 <=? length_ b then Ok tt else Fault Exited in
        let again := set_flag v in
        let! b := put_node b i (if again then Node (seq_no_ v) 1 1 0 0 else Node (seq_no_ v) 1 1 (retran_ v) (snd_nxt_ v)) in
        let b := changed b in
        let decr := if again then decr + 1 else decr in
        if length_ b =? 0 then Ok (decr, b) else advance_left n (i + 1) last_ack decr b
      else advance_left n (i + 1) last_ack decr b
  end.

Definition advance_ack (last_ack : Z) (b : ScoreBoard) : result (Z * ScoreBoard) :=
  if length_ b =? 0 then Ok (0, b)
  else
    let! v := SBNI b (first_ b) in
    if seq_no_ v <=? last_ack then advance_left (Z.to_nat (last_ack + 1 - seq_no_ v)) (seq_no_ v) last_ack 0 b
    else Ok (0, b).

(** "If there is no scoreboard, create one." *)
Definition create (last_ack : Z) (b : ScoreBoard) : result ScoreBoard :=
  let i := last_ack + 1 in
  let! b := put_node b i (new_node i) in
  let b := set_length (wrap_i32 (length_ b + 1)) (set_first i b) in
  let! _ := if sbsize_ b <=? length_ b then Fault Exited else Ok tt in
  Ok (changed b).

Section ops.
Context (junk : nat -> ScoreBoardNode).

(** [new ScoreBoardNode[n]] *)
Definition new_nodes (n : Z) : list ScoreBoardNode := junk <$> seq 0 (Z.to_nat n).

(** [resizeSB (sz)] *)
Definition resizeSB (sz : Z) (b : ScoreBoard) : result ScoreBoard :=
  let! f := SBNI b (first_ b) in
  let! a := for_loop (seq_no_ f) (wrap_i32 (seq_no_ f + length_ b) + 1)
    (fun i a => let! v := SBNI b i in aset a (Z.rem i sz) v) (new_nodes (wrap_i32 (sz + 1))) in
  Ok (SB (first_ b) (length_ b) sz (changed_ b) a).

(** [while ((sack_right - last_ack) >= sbsize_ - 1) resizeSB (sbsize_*2);] *)
Fixpoint enlarge (fuel : nat) (sack_right last_ack : Z) (b : ScoreBoard) : result ScoreBoard :=
  if sbsize_ b - 1 <=? sack_right - last_ack then
    match fuel with
    | O => NoFuel
    | S fuel => let! b := resizeSB (wrap_i32 (sbsize_ b * 2)) b in enlarge fuel sack_right last_ack b
    end
  else Ok b.

(** "Create new entries off the right side." *)
Definition new_entry (i : Z) (b : ScoreBoard) : result ScoreBoard :=
  let! b := put_node b i (new_node i) in
  let b := set_length (wrap_i32 (length_ b + 1)) b in
  let! _ := if sbsize_ b <=? length_ b then Fault Exited else Ok tt in
  Ok (changed b).

Definition extend_right (fuel : nat) (sack_right last_ack : Z) (b : ScoreBoard) : result ScoreBoard :=
  let! l := last_node b in
  if seq_no_ l <? sack_right then
    let! b := enlarge fuel sack_right last_ack b in
    let! l := last_node b in
    for_loop (seq_no_ l + 1) sack_right new_entry b
  else Ok b.

(** "Check to see if this segment is now covered by the sack block" *)
Definition cover (sack_left sack_right i : Z) (s : Z * ScoreBoard) : result (Z * ScoreBoard) :=
  let '(decr, b) := s in
  let! v := SBNI b i in
  if (sack_left <=? seq_no_ v) && (seq_no_ v <? sack_right) then
    let fresh := sack_flag_ v =? 0 in
    let again := set_flag v in
    let v := if fresh then Node (seq_no_ v) (ack_flag_ v) 1 (retran_ v) (snd_nxt_ v) else v in
    let! b := put_node b i (if again then unsent v else v) in
    Ok (if again then decr + 1 else decr, if fresh then changed b else b)
  else Ok (decr, b).

Definition sack_block (fuel : nat) (last_ack : Z) (blk : Z * Z) (s : Z * ScoreBoard) : result (Z * ScoreBoard) :=
  let '(decr, b) := s in
  let! b := extend_right fuel blk.2 last_ack b in
  let! f := SBNI b (first_ b) in
  for_loop (seq_no_ f) blk.2 (cover blk.1 blk.2) (decr, b).

Fixpoint sack_blocks (fuel : nat) (last_ack : Z) (bs : list (Z * Z)) (s : Z * ScoreBoard) : result (Z * ScoreBoard) :=
  match bs with
  | [] => Ok s
  | blk :: bs => let! s := sack_block fuel last_ack blk s in sack_blocks fuel last_ack bs s
  end.

(** [UpdateScoreBoard (last_ack, tcph)], the blocks of the header being [bs];
    the number of retransmitted segments that have come. *)
Definition sb_update (fuel : nat) (last_ack : Z) (bs : list (Z * Z)) (b : ScoreBoard) : result (Z * ScoreBoard) :=
  let! '(decr, b) := advance_ack last_ack (set_changed 0 b) in
  let! b := match bs with
            | [] => Ok b
            | _ => if length_ b =? 0 then create last_ack b else Ok b
            end in
  sack_blocks fuel last_ack bs (decr, b).
End ops.

(** The first of [n] nodes from [i] of which [p] holds. *)
Fixpoint find_node (p : ScoreBoardNode -> bool) (n : nat) (i : Z) (b : ScoreBoard) : result Z :=
  match n with
  | O => Ok (-1)
  | S n => let! v := SBNI b i in if p v then Ok i else find_node p n (i + 1) b
  end.

Definition lost (v : ScoreBoardNode) : bool := (ack_flag_ v =? 0) && (sack_flag_ v =? 0) && (retran_ v =? 0).
Definition unacked (v : ScoreBoardNode) : bool := (ack_flag_ v =? 0) && (sack_flag_ v =? 0).

(** [GetNextRetran ()] *)
Definition sb_next (b : ScoreBoard) : result Z :=
  if length_ b =? 0 then Ok (-1)
  else let! f := SBNI b (first_ b) in find_node lost (Z.to_nat (length_ b)) (seq_no_ f) b.

(** [GetNextUnacked (seqno)] *)
Definition GetNextUnacked (seqno : Z) (b : ScoreBoard) : result Z :=
  if length_ b =? 0 then Ok (-1)
  else
    let! f := SBNI b (first_ b) in
    if (seqno <? seq_no_ f) || (seq_no_ f + length_ b <=? seqno) then Ok (-1)
    else find_node unacked (Z.to_nat (seq_no_ f + length_ b - seqno)) seqno b.

(** [MarkRetran (retran_seqno)], [MarkRetran (retran_seqno, snd_nxt)] *)
Definition sb_mark (retran_seqno : Z) (b : ScoreBoard) : result ScoreBoard :=
  let! v := SBNI b retran_seqno in
  put_node b retran_seqno (Node (seq_no_ v) (ack_flag_ v) (sack_flag_ v) 1 (snd_nxt_ v)).
Definition sb_mark_nxt (retran_seqno snd_nxt : Z) (b : ScoreBoard) : result ScoreBoard :=
  let! v := SBNI b retran_seqno in
  put_node b retran_seqno (Node (seq_no_ v) (ack_flag_ v) (sack_flag_ v) 1 snd_nxt).

(** [ClearScoreBoard ()] *)
Definition sb_clear (b : ScoreBoard) : ScoreBoard := set_length 0 b.

(** [CheckSndNxt (tcph)] *)
Definition lost_again (sack_right i : Z) (s : bool * ScoreBoard) : result (bool * ScoreBoard) :=
  let '(force, b) := s in
  let! v := SBNI b i in
  if set_flag v && (snd_nxt_ v <? sack_right) then
    let! b := put_node b i (Node (seq_no_ v) (ack_flag_ v) (sack_flag_ v) 0 0) in Ok (true, b)
  else Ok (force, b).

Fixpoint CheckSndNxt_from (bs : list (Z * Z)) (s : bool * ScoreBoard) : result (bool * ScoreBoard) :=
  match bs with
  | [] => Ok s
  | blk :: bs =>
      let '(force, b) := s in
      let! f := SBNI b (first_ b) in
      let! s := for_loop (seq_no_ f) blk.2 (lost_again blk.2) (force, b) in
      CheckSndNxt_from bs s
  end.

Definition CheckSndNxt (bs : list (Z * Z)) (b : ScoreBoard) : result (bool * ScoreBoard) :=
  CheckSndNxt_from bs (false, b).

#[export] Instance array_board (junk : nat -> ScoreBoardNode) : SackBoard ScoreBoard := {
  UpdateScoreBoard := sb_update junk;
  GetNextRetran _ b := let! z := sb_next b in Ok (z, b);
  MarkRetran := sb_mark;
  ClearScoreBoard _ b := Ok (sb_clear b);
}.
