(* ===== verification/ScoreBoardProps.v ===== *)
(** * The scoreboard: what the circular array holds *)

From stdpp Require Import base numbers list gmap sets.
From Stdlib Require Import ZArith Lia.
From S2P Require Import Prelude.
From S2P Require Import Array.
From S2P Require Import SackBoard.
From S2P Require Import ScoreBoard.

Local Open Scope Z_scope.

Implicit Types (b : ScoreBoard) (S M : gset Z).

(** ** Nodes *)

Definition sized b : Prop := 2 <= sbsize_ b <= 2 ^ 30 /\ sbsize_ b <= Z.of_nat (length (SBN b)).

Lemma rem_range i n : 0 <= i -> 0 < n -> 0 <= Z.rem i n < n.
Proof. intros. apply Z.rem_bound_pos; lia. Qed.

Lemma rem_apart i j n : 0 <= i -> 0 <= j -> i - n < j < i + n -> Z.rem i n = Z.rem j n -> i = j.
Proof.
  intros Hi Hj Hn E. rewrite !Z.rem_mod_nonneg in E by lia.
  pose proof (Z.div_mod i n ltac:(lia)). pose proof (Z.div_mod j n ltac:(lia)).
  assert (i / n = j / n) by nia. lia.
Qed.

Lemma SBNI_some b i : sized b -> 0 <= i -> exists v, SBNI b i = Ok v.
Proof.
  intros [Hn Hl] Hi. unfold SBNI, aget. pose proof (rem_range i (sbsize_ b) Hi ltac:(lia)) as Hr.
  rewrite (proj2 (Z.ltb_ge _ 0)) by lia.
  destruct (SBN b !! Z.to_nat (Z.rem i (sbsize_ b))) as [v|] eqn:E; [by exists v|].
  apply lookup_ge_None in E. lia.
Qed.

Lemma SBNI_wrap b i : 0 <= i -> 0 <= sbsize_ b -> SBNI b (i + sbsize_ b) = SBNI b i.
Proof.
  intros Hi Hn. unfold SBNI. f_equal. destruct (decide (sbsize_ b = 0)) as [->|]; [by rewrite Z.add_0_r|].
  rewrite !Z.rem_mod_nonneg by lia. replace (i + sbsize_ b) with (i + 1 * sbsize_ b) by lia.
  apply Z_mod_plus_full.
Qed.

Lemma put_node_spec b i v :
  sized b -> 0 <= i ->
  exists a, put_node b i v = Ok (set_SBN a b) /\ length a = length (SBN b) /\
    forall j, 0 <= j -> i - sbsize_ b < j < i + sbsize_ b ->
      SBNI (set_SBN a b) j = if decide (j = i) then Ok v else SBNI b j.
Proof.
  intros [Hn Hl] Hi. pose proof (rem_range i (sbsize_ b) Hi ltac:(lia)) as Hr.
  unfold put_node, aset. rewrite (proj2 (Z.ltb_ge _ 0)), (proj2 (Z.leb_gt _ _)) by lia. cbn [orb rbind].
  eexists. split; [done|]. split; [by rewrite length_insert|]. intros j Hj Hij.
  unfold SBNI, aget. cbn [set_SBN SBN sbsize_]. pose proof (rem_range j (sbsize_ b) Hj ltac:(lia)) as Hr'.
  rewrite (proj2 (Z.ltb_ge _ 0)) by lia. destruct (decide (j = i)) as [->|Hne].
  - rewrite list_lookup_insert_eq by lia. done.
  - rewrite list_lookup_insert_ne; [done|]. intros E. apply Hne. symmetry.
    apply (rem_apart i j (sbsize_ b)); lia.
Qed.

(** ** The invariant *)

Definition node_ok S M (i : Z) (v : ScoreBoardNode) : Prop :=
  seq_no_ v = i /\ ack_flag_ v = 0 /\ (sack_flag_ v = 0 <-> i ∉ S) /\ (retran_ v = 0 <-> i ∉ M).

Section board.
Context (N : Z) (HN : N <= 2 ^ 28).

(** The nodes of [lo] to [hi]; [S] are flagged as reported, [M] as sent
    again. *)
Record core b (lo hi : Z) S M : Prop := {
  c_sized : sized b;
  c_range : 0 <= lo <= hi /\ hi <= N;
  c_len : length_ b = hi - lo;
  c_fits : length_ b < sbsize_ b;
  c_first : lo < hi -> first_ b = lo;
  c_nodes i : lo <= i < hi -> exists v, SBNI b i = Ok v /\ node_ok S M i v;
  c_S x : x ∈ S -> lo <= x < hi;
  c_M x : x ∈ M -> lo <= x < hi /\ x ∉ S
}.

Lemma core_changed b lo hi S M c : core b lo hi S M -> core (set_changed c b) lo hi S M.
Proof. intros H. constructor; try (by apply H). Qed.

(** No nodes, wherever the left edge is. *)
Lemma core_none b lo hi S M lo' : core b lo hi S M -> length_ b = 0 -> 0 <= lo' <= N -> core b lo' lo' ∅ ∅.
Proof.
  intros H Hz Hlo. pose proof (c_fits _ _ _ _ _ H). constructor; try set_solver; try lia; by apply H.
Qed.

Lemma first_node b lo hi S M :
  core b lo hi S M -> lo < hi -> exists v, SBNI b (first_ b) = Ok v /\ node_ok S M lo v.
Proof. intros H Hlt. rewrite (c_first _ _ _ _ _ H Hlt). apply (c_nodes _ _ _ _ _ H). lia. Qed.

Lemma core_len b lo hi S M : core b lo hi S M -> (length_ b =? 0) = (hi =? lo).
Proof. intros H. rewrite (c_len _ _ _ _ _ H). destruct (Z.eqb_spec (hi - lo) 0), (Z.eqb_spec hi lo); lia. Qed.

(** A node is written inside, with the sets it then stands for. *)
Lemma core_put b lo hi S M i v S' M' :
  core b lo hi S M -> lo <= i < hi -> node_ok S' M' i v ->
  (forall x, x <> i -> (x ∈ S' <-> x ∈ S) /\ (x ∈ M' <-> x ∈ M)) -> (i ∈ M' -> i ∉ S') ->
  exists b', put_node b i v = Ok b' /\ core b' lo hi S' M'.
Proof.
  intros H Hi Hv Hother Hdis. pose proof (c_range _ _ _ _ _ H). pose proof (c_sized _ _ _ _ _ H) as Hs.
  pose proof (c_fits _ _ _ _ _ H) as Hf. rewrite (c_len _ _ _ _ _ H) in Hf.
  destruct (put_node_spec b i v Hs ltac:(lia)) as (a & E & Hla & Ha).
  exists (set_SBN a b). split; [done|]. constructor; try (by apply H).
  - unfold sized in *. cbn. by rewrite Hla.
  - intros j Hj. rewrite Ha by (cbn; lia). destruct (decide (j = i)) as [->|Hne]; [by exists v|].
    destruct (c_nodes _ _ _ _ _ H j Hj) as (w & Ew & W1 & W2 & W3 & W4). exists w. split; [done|].
    destruct (Hother j Hne) as [HS HM]. unfold node_ok. rewrite HS, HM. done.
  - intros x Hx. destruct (decide (x = i)) as [->|Hne]; [done|]. apply (c_S _ _ _ _ _ H). by apply (Hother x Hne).
  - intros x Hx. destruct (decide (x = i)) as [->|Hne]; [by split; [|apply Hdis]|].
    destruct (Hother x Hne) as [HS HM]. rewrite HS. apply (c_M _ _ _ _ _ H). by apply HM.
Qed.

(** ** The left edge *)

Lemma from_all lo hi X : (forall x, x ∈ X -> lo <= x < hi) -> from lo X = X.
Proof. intros HX. apply set_eq. intros x. rewrite elem_of_from. specialize (HX x). naive_solver lia. Qed.

Lemma from_none lo hi X a : (forall x, x ∈ X -> lo <= x < hi) -> hi <= a -> from a X = ∅.
Proof. intros HX Ha. apply set_eq. intros x. rewrite elem_of_from. specialize (HX x). set_solver by lia. Qed.

Lemma from_from lo a X : lo <= a -> from a (from lo X) = from a X.
Proof. intros Hle. apply set_eq. intros x. rewrite !elem_of_from. naive_solver lia. Qed.

(** One number less. *)
Lemma size_from lo hi X :
  (forall x, x ∈ X -> lo <= x < hi) ->
  Z.of_nat (size X) = (if decide (lo ∈ X) then 1 else 0) + Z.of_nat (size (from (lo + 1) X)).
Proof.
  intros HX. destruct (decide (lo ∈ X)) as [Hin|Hni].
  - assert (E : X = {[lo]} ∪ from (lo + 1) X).
    { apply set_eq. intros x. rewrite elem_of_union, elem_of_singleton, elem_of_from.
      split; [|intros [->|[_ ?]]; done]. intros Hx. pose proof (HX x Hx). destruct (decide (x = lo)); [by left|right].
      split; [lia|done]. }
    rewrite E at 1. rewrite size_union, size_singleton; [lia|].
    intros x ->%elem_of_singleton. rewrite elem_of_from. lia.
  - replace (from (lo + 1) X) with X; [lia|]. apply set_eq. intros x. rewrite elem_of_from.
    split; [|by intros [_ ?]]. intros Hx. pose proof (HX x Hx). assert (x <> lo) by (by intros ->). split; [lia|done].
Qed.

Lemma core_drop b lo hi S M v :
  core b lo hi S M -> lo < hi ->
  exists b', put_node (set_length (wrap_i32 (length_ b - 1)) (set_first (wrap_i32 (first_ b + 1)) b)) lo v = Ok b' /\
    core b' (lo + 1) hi (from (lo + 1) S) (from (lo + 1) M) /\ length_ b' = length_ b - 1.
Proof.
  intros H Hlt. pose proof (c_range _ _ _ _ _ H). pose proof (c_len _ _ _ _ _ H) as Hlen.
  pose proof (c_fits _ _ _ _ _ H) as Hf. pose proof (c_first _ _ _ _ _ H Hlt) as Hfi.
  rewrite !wrap_small by lia. set (b1 := set_length _ _).
  assert (Hs : sized b1) by (exact (c_sized _ _ _ _ _ H)).
  destruct (put_node_spec b1 lo v Hs ltac:(lia)) as (a & E & Hla & Ha).
  exists (set_SBN a b1). split; [exact E|]. split; [|done]. constructor; cbn; try lia.
  - unfold sized in *. cbn. by rewrite Hla.
  - intros j Hj. rewrite Ha by (cbn; lia). rewrite decide_False by lia.
    destruct (c_nodes _ _ _ _ _ H j ltac:(lia)) as (w & Ew & W1 & W2 & W3 & W4). exists w. split; [done|].
    unfold node_ok. rewrite !elem_of_from. split; [done|]. split; [done|]. naive_solver lia.
  - intros x [Hx1 Hx2]%elem_of_from. pose proof (c_S _ _ _ _ _ H x Hx2). lia.
  - intros x [Hx1 Hx2]%elem_of_from. destruct (c_M _ _ _ _ _ H x Hx2). rewrite elem_of_from. split; [lia|tauto].
Qed.

Lemma advance_left_spec n : forall lo hi S M a d b,
  core b lo hi S M -> lo < hi -> Z.of_nat n = a + 1 - lo -> lo <= a < N ->
  exists d' b', advance_left n lo a d b = Ok (d', b') /\
    core b' (a + 1) (Z.max (a + 1) hi) (from (a + 1) S) (from (a + 1) M) /\
    d' + Z.of_nat (size (from (a + 1) M)) = d + Z.of_nat (size M).
Proof.
  induction n as [|n IH]; intros lo hi S M a d b H Hlt Hn Ha; [lia|]. cbn [advance_left].
  pose proof (c_range _ _ _ _ _ H) as Hr. pose proof (c_len _ _ _ _ _ H) as Hlen.
  pose proof (c_sized _ _ _ _ _ H) as [[_ Hsz] _]. pose proof (c_fits _ _ _ _ _ H) as Hfit.
  destruct (c_nodes _ _ _ _ _ H lo ltac:(lia)) as (v & -> & V1 & V2 & V3 & V4). cbn [rbind].
  rewrite V1, (proj2 (Z.leb_le lo a)) by lia. rewrite (c_first _ _ _ _ _ H Hlt), Z.eqb_refl. cbn [rbind].
  change (length_ (set_length ?x _)) with x. rewrite (proj2 (Z.leb_le 0 _)) by (rewrite wrap_small; lia). cbn [rbind].
  set (w := if set_flag v then _ else _). rewrite <- (c_first _ _ _ _ _ H Hlt).
  destruct (core_drop b lo hi S M w H Hlt) as (b1 & E & H1 & L1). rewrite (c_first _ _ _ _ _ H Hlt) in E |- *.
  rewrite E. cbn [rbind]. change (length_ (changed b1)) with (length_ b1).
  pose proof (size_from lo hi M (fun x Hx => proj1 (c_M _ _ _ _ _ H x Hx))) as Hsize.
  assert (Hd : (if set_flag v then d + 1 else d) = d + (if decide (lo ∈ M) then 1 else 0)).
  { unfold set_flag. destruct (Z.eqb_spec (retran_ v) 0), (decide (lo ∈ M)); cbn [negb]; try lia; exfalso; tauto. }
  rewrite Hd. destruct (Z.eqb_spec (length_ b1) 0) as [Hz|Hz].
  - assert (hi = lo + 1) as -> by lia. eexists _, _. split; [done|].
    rewrite (from_none lo (lo + 1) S (a + 1)), (from_none lo (lo + 1) M (a + 1)), size_empty
      by (done || lia || (intros x Hx; by apply (c_S _ _ _ _ _ H)) || (intros x Hx; by apply (c_M _ _ _ _ _ H))).
    split.
    + rewrite Z.max_l by lia. apply core_changed. eapply core_none; [exact H1|done|lia].
    + rewrite Hsize, (from_none lo (lo + 1) M (lo + 1)), size_empty; [lia| |lia].
      intros x Hx. by apply (c_M _ _ _ _ _ H).
  - destruct (decide (a = lo)) as [->|Hne].
    { assert (n = 0%nat) as -> by lia. cbn [advance_left]. eexists _, _. split; [done|].
      rewrite Z.max_r by lia. split; [by apply core_changed|lia]. }
    destruct (IH (lo + 1) hi (from (lo + 1) S) (from (lo + 1) M) a (d + (if decide (lo ∈ M) then 1 else 0)) (changed b1))
      as (d' & b' & -> & Hc & Hs'); [by apply core_changed|lia|lia|lia|].
    rewrite (from_from _ _ S), (from_from _ _ M) in Hc by lia. rewrite (from_from _ _ M) in Hs' by lia. exists d', b'. split; [done|]. split; [done|]. lia.
Qed.

Lemma advance_ack_spec a b lo hi S M :
  core b lo hi S M -> lo <= a + 1 <= N ->
  exists d b', advance_ack a b = Ok (d, b') /\
    core b' (a + 1) (Z.max (a + 1) hi) (from (a + 1) S) (from (a + 1) M) /\
    d + Z.of_nat (size (from (a + 1) M)) = Z.of_nat (size M).
Proof.
  intros H Ha. unfold advance_ack. rewrite (core_len _ _ _ _ _ H).
  assert (HS : forall x, x ∈ S -> lo <= x < hi) by apply H.
  assert (HM : forall x, x ∈ M -> lo <= x < hi) by (intros x Hx; by apply (c_M _ _ _ _ _ H)).
  pose proof (c_range _ _ _ _ _ H).
  destruct (Z.eqb_spec hi lo) as [->|Hne].
  - exists 0, b. split; [done|]. rewrite (from_none lo lo S), (from_none lo lo M), size_empty by (done || lia).
    rewrite Z.max_l by lia. split.
    + eapply core_none; [exact H| |lia]. rewrite (c_len _ _ _ _ _ H). lia.
    + assert (M = ∅) as -> by (apply set_eq; intros x; specialize (HM x); set_solver by lia). by rewrite size_empty.
  - destruct (first_node _ _ _ _ _ H ltac:(lia)) as (v & -> & V1 & _). cbn [rbind]. rewrite V1.
    destruct (Z.leb_spec lo a).
    + destruct (advance_left_spec (Z.to_nat (a + 1 - lo)) lo hi S M a 0 b H) as (d & b' & E & Hc & Hs); [lia..|].
      exists d, b'. split; [done|]. split; [done|lia].
    + assert (a + 1 = lo) as -> by lia. exists 0, b. split; [done|].
      rewrite (from_all lo hi S), (from_all lo hi M) by done. rewrite Z.max_r by lia. split; [done|lia].
Qed.

(** ** The right edge *)

(** A node at the right edge. *)
Lemma core_append b lo hi S M (fst' : bool) :
  core b lo hi S M -> hi < N -> length_ b + 1 < sbsize_ b -> (fst' = false -> lo < hi) -> (fst' = true -> lo = hi) ->
  exists b', put_node b hi (new_node hi) = Ok b' /\ sbsize_ b' = sbsize_ b /\
    length_ b' = length_ b /\
    core (set_length (wrap_i32 (length_ b' + 1)) (if fst' then set_first hi b' else b')) lo (hi + 1) S M.
Proof.
  intros H Hhi Hroom Hf Ht. pose proof (c_range _ _ _ _ _ H). pose proof (c_len _ _ _ _ _ H) as Hlen.
  pose proof (c_sized _ _ _ _ _ H) as Hs. destruct (put_node_spec b hi (new_node hi) Hs ltac:(lia)) as (a & E & Hla & Ha).
  exists (set_SBN a b). split; [done|]. split; [done|]. split; [done|].
  destruct Hs as [Hs1 Hs2]. assert (Hw : wrap_i32 (length_ b + 1) = length_ b + 1) by (rewrite wrap_small; lia).
  cbn [length_ set_SBN]. rewrite Hw.
  assert (Hni : hi ∉ S /\ hi ∉ M).
  { split; intros Hin; [apply (c_S _ _ _ _ _ H) in Hin|apply (c_M _ _ _ _ _ H) in Hin]; lia. }
  constructor; try lia.
  - unfold sized. destruct fst'; cbn; by rewrite Hla.
  - destruct fst'; cbn; lia.
  - destruct fst'; cbn; lia.
  - intros _. destruct fst'; cbn; [rewrite Ht by done; lia|apply H; by apply Hf].
  - intros j Hj. change (SBNI _ j) with (SBNI (set_SBN a b) j) at 1 || (destruct fst'; change (SBNI _ j) with (SBNI (set_SBN a b) j)).
    all: rewrite Ha by lia; destruct (decide (j = hi)) as [->|Hne];
      [exists (new_node hi); split; [done|]; unfold node_ok; cbn; naive_solver|apply H; lia].
  - intros x Hx. apply (c_S _ _ _ _ _ H) in Hx. lia.
  - intros x Hx. apply (c_M _ _ _ _ _ H) in Hx. split; [lia|tauto].
Qed.

Lemma create_spec a b S M :
  core b (a + 1) (a + 1) S M -> a + 1 < N ->
  exists b', create a b = Ok b' /\ core b' (a + 1) (a + 2) S M.
Proof.
  intros H Ha. pose proof (c_len _ _ _ _ _ H) as Hlen. pose proof (c_sized _ _ _ _ _ H) as [Hs _].
  destruct (core_append b (a + 1) (a + 1) S M true H Ha) as (b' & E & Es & El & H'); [lia|done|done|].
  unfold create. rewrite E. cbn [rbind]. cbn [sbsize_ set_length set_first length_].
  rewrite El, Es, Hlen in *. replace (a + 1 - (a + 1) + 1) with 1 in * by lia.
  change (wrap_i32 1) with 1 in *. rewrite (proj2 (Z.leb_gt _ _)) by lia. cbn [rbind].
  eexists. split; [done|]. replace (a + 2) with (a + 1 + 1) by lia. by apply core_changed.
Qed.

Context (junk : nat -> ScoreBoardNode).

(** The copy into an array of twice the size. *)
Lemma resizeSB_spec b lo hi S M :
  core b lo hi S M -> lo < hi -> sbsize_ b <= 2 ^ 29 ->
  exists b', resizeSB junk (wrap_i32 (sbsize_ b * 2)) b = Ok b' /\ core b' lo hi S M /\ sbsize_ b' = 2 * sbsize_ b.
Proof.
  intros H Hlt Hsz. pose proof (c_range _ _ _ _ _ H). pose proof (c_len _ _ _ _ _ H) as Hlen.
  pose proof (c_sized _ _ _ _ _ H) as Hs. pose proof Hs as [Hs1 Hs2]. pose proof (c_fits _ _ _ _ _ H) as Hfit.
  set (n := sbsize_ b) in *. unfold resizeSB.
  destruct (first_node _ _ _ _ _ H Hlt) as (f & -> & Ef & _). cbn [rbind]. rewrite Ef, Hlen.
  rewrite (wrap_small (n * 2)), (wrap_small (n * 2 + 1)), (wrap_small (lo + (hi - lo))) by lia.
  set (get := fun (a : list ScoreBoardNode) j => aget a (Z.rem j (n * 2))).
  destruct (for_loop_spec (fun i a => Z.of_nat (length a) = n * 2 + 1 /\ forall j, lo <= j < i -> get a j = SBNI b j)
    lo (lo + (hi - lo) + 1) (fun i a => let! v := SBNI b i in aset a (Z.rem i (n * 2)) v) (new_nodes junk (n * 2 + 1)))
    as (a & -> & Hla & Ha); [lia| | |].
  - unfold new_nodes. rewrite length_fmap, length_seq. split; [lia|]. intros j Hj. lia.
  - intros i a Hi (Hla & Ha). destruct (SBNI_some b i Hs ltac:(lia)) as [v Ev]. rewrite Ev. cbn [rbind].
    pose proof (rem_range i (n * 2) ltac:(lia) ltac:(lia)) as Hr. unfold aset.
    rewrite (proj2 (Z.ltb_ge _ 0)), (proj2 (Z.leb_gt _ _)) by lia. cbn [orb].
    eexists. split; [done|]. split; [by rewrite length_insert|]. intros j Hj. unfold get, aget.
    pose proof (rem_range j (n * 2) ltac:(lia) ltac:(lia)) as Hr'. rewrite (proj2 (Z.ltb_ge _ 0)) by lia.
    destruct (decide (j = i)) as [->|Hne].
    + by rewrite list_lookup_insert_eq by lia.
    + rewrite list_lookup_insert_ne.
      * rewrite <- (Ha j) by lia. unfold get, aget. by rewrite (proj2 (Z.ltb_ge _ 0)) by lia.
      * intros E. apply Hne. symmetry. apply (rem_apart i j (n * 2)); lia.
  - cbn [rbind]. eexists. split; [done|]. split; [|cbn; lia]. constructor; cbn; try (by apply H); try lia.
    + unfold sized. cbn. lia.
    + intros i Hi. change (SBNI _ i) with (get a i). rewrite Ha by lia. by apply H.
Qed.

Lemma enlarge_spec fuel r a : forall b lo hi S M,
  core b lo hi S M -> lo < hi -> r - a <= N + 1 -> N + 2 < sbsize_ b * 2 ^ Z.of_nat fuel ->
  exists b', enlarge junk fuel r a b = Ok b' /\ core b' lo hi S M /\ r - a < sbsize_ b' - 1 /\
    sbsize_ b <= sbsize_ b'.
Proof.
  induction fuel as [|fuel IH]; intros b lo hi S M H Hlt Hra Hf; cbn [enlarge];
    pose proof (c_sized _ _ _ _ _ H) as [Hs _]; destruct (Z.leb_spec (sbsize_ b - 1) (r - a)).
  - change (2 ^ Z.of_nat 0) with 1 in Hf. lia.
  - exists b. split_and!; [done|done|lia|lia].
  - destruct (resizeSB_spec b lo hi S M H Hlt) as (b1 & -> & R1 & E1); [lia|]. cbn [rbind].
    destruct (IH b1 lo hi S M R1 Hlt Hra) as (b' & -> & R2 & R3 & R4).
    + rewrite E1. rewrite Nat2Z.inj_succ, Z.pow_succ_r in Hf by lia. lia.
    + exists b'. split_and!; [done|done|done|lia].
  - exists b. split_and!; [done|done|lia|lia].
Qed.

Lemma last_node_spec b lo hi S M :
  core b lo hi S M -> lo < hi -> exists v, last_node b = Ok v /\ seq_no_ v = hi - 1.
Proof.
  intros H Hlt. pose proof (c_range _ _ _ _ _ H). pose proof (c_len _ _ _ _ _ H) as Hlen.
  pose proof (c_sized _ _ _ _ _ H) as [Hs _]. unfold last_node. rewrite (c_first _ _ _ _ _ H Hlt), Hlen.
  rewrite (wrap_small (lo + (hi - lo))), (wrap_small (lo + (hi - lo) + sbsize_ b)), wrap_small by lia.
  replace (lo + (hi - lo) + sbsize_ b - 1) with (hi - 1 + sbsize_ b) by lia. rewrite SBNI_wrap by lia.
  destruct (c_nodes _ _ _ _ _ H (hi - 1) ltac:(lia)) as (v & -> & Ev & _). by exists v.
Qed.

Lemma extend_right_spec fuel r a b hi S M :
  core b (a + 1) hi S M -> a + 1 < hi -> -1 <= a < r -> r <= N -> N + 2 < sbsize_ b * 2 ^ Z.of_nat fuel ->
  exists b', extend_right junk fuel r a b = Ok b' /\ core b' (a + 1) (Z.max hi r) S M /\ sbsize_ b <= sbsize_ b'.
Proof.
  intros H Hlt Hr HrN Hf. pose proof (c_range _ _ _ _ _ H). unfold extend_right.
  destruct (last_node_spec _ _ _ _ _ H Hlt) as (v & -> & Ev). cbn [rbind]. rewrite Ev.
  destruct (Z.ltb_spec (hi - 1) r).
  2: { exists b. rewrite Z.max_l by lia. split_and!; [done|done|lia]. }
  destruct (enlarge_spec fuel r a b (a + 1) hi S M H Hlt) as (b1 & -> & R1 & Hroom & Hs1); [lia|done|]. cbn [rbind].
  destruct (last_node_spec _ _ _ _ _ R1 Hlt) as (v1 & -> & Ev1). cbn [rbind]. rewrite Ev1, Z.max_r by lia.
  replace (hi - 1 + 1) with hi by lia.
  destruct (for_loop_spec (fun i b' => core b' (a + 1) i S M /\ sbsize_ b' = sbsize_ b1) hi r new_entry b1)
    as (b2 & -> & R2 & E2); [lia|done| |].
  - intros i b2 Hi (R2 & E2). unfold new_entry. pose proof (c_len _ _ _ _ _ R2) as Hlen.
    destruct (core_append b2 (a + 1) i S M false R2) as (b3 & -> & E3 & L3 & R3); [lia|lia|lia|done|]. cbn [rbind].
    cbn [sbsize_ length_ set_length]. rewrite L3, E3, wrap_small by lia. rewrite (proj2 (Z.leb_gt _ _)) by lia.
    cbn [rbind]. eexists. split; [done|]. split; [|cbn; congruence]. apply core_changed.
    rewrite L3, wrap_small in R3 by lia. exact R3.
  - exists b2. split; [done|]. split; [done|lia].
Qed.

(** ** A block *)

Definition part (l i : Z) : gset Z := block_set (l, i).

Lemma elem_of_part l i x : x ∈ part l i <-> l <= x < i.
Proof. apply elem_of_block. Qed.

Lemma part_next l i x : x ∈ part l (i + 1) <-> x ∈ part l i \/ l <= i /\ x = i.
Proof. rewrite !elem_of_part. lia. Qed.

Lemma size_remove (X : gset Z) i :
  Z.of_nat (size X) = (if decide (i ∈ X) then 1 else 0) + Z.of_nat (size (X ∖ {[i]})).
Proof.
  destruct (decide (i ∈ X)) as [Hi|Hi].
  - rewrite (union_difference_singleton_L i X Hi) at 1. rewrite size_union, size_singleton by set_solver. lia.
  - replace (X ∖ {[i]}) with X by set_solver. lia.
Qed.

Lemma cover_spec l r b lo hi S M i d :
  core b lo hi (S ∪ part l i) (M ∖ part l i) -> lo <= i < hi -> i < r ->
  exists d' b', cover l r i (d, b) = Ok (d', b') /\ core b' lo hi (S ∪ part l (i + 1)) (M ∖ part l (i + 1)) /\
    d' + Z.of_nat (size (M ∖ part l (i + 1))) = d + Z.of_nat (size (M ∖ part l i)).
Proof.
  intros H Hi Hr. unfold cover. destruct (c_nodes _ _ _ _ _ H i Hi) as (v & -> & V1 & V2 & V3 & V4). cbn [rbind].
  rewrite V1, (proj2 (Z.ltb_lt i r)), andb_true_r by lia. destruct (Z.leb_spec l i) as [Hl|Hl].
  2: { assert (E : part l (i + 1) = part l i) by (apply set_eq; intros x; rewrite part_next; naive_solver lia).
       rewrite E. by exists d, b. }
  assert (Hpi : i ∉ part l i) by (rewrite elem_of_part; lia).
  assert (HM' : M ∖ part l (i + 1) = M ∖ part l i ∖ {[i]}).
  { apply set_eq. intros x. rewrite !elem_of_difference, elem_of_singleton, part_next. naive_solver. }
  set (fresh := sack_flag_ v =? 0). set (again := set_flag v). set (w := if again then _ else _).
  destruct (core_put b lo hi _ _ i w (S ∪ part l (i + 1)) (M ∖ part l (i + 1)) H Hi) as (b1 & -> & R1).
  - unfold node_ok, w, again, fresh, set_flag, unsent.
    assert (i ∈ S ∪ part l (i + 1) /\ i ∉ M ∖ part l (i + 1)) as [H1 H2].
    { rewrite elem_of_union, elem_of_difference, part_next. naive_solver. }
    destruct (Z.eqb_spec (sack_flag_ v) 0), (Z.eqb_spec (retran_ v) 0); cbn; naive_solver.
  - intros x Hx. rewrite !elem_of_union, !elem_of_difference, part_next. naive_solver.
  - rewrite elem_of_difference, part_next. naive_solver.
  - cbn [rbind]. eexists _, _. split; [reflexivity|]. split; [destruct fresh; [by apply core_changed|done]|].
    rewrite HM'. pose proof (size_remove (M ∖ part l i) i) as Hs.
    assert (Ha : again = bool_decide (i ∈ M ∖ part l i)).
    { unfold again, set_flag. destruct (Z.eqb_spec (retran_ v) 0); symmetry;
        [apply bool_decide_eq_false_2|apply bool_decide_eq_true_2]; tauto || (destruct (decide (i ∈ M ∖ part l i)); tauto). }
    rewrite Ha. destruct (decide (i ∈ M ∖ part l i)); [rewrite bool_decide_eq_true_2|rewrite bool_decide_eq_false_2]; done || lia.
Qed.

Lemma sack_block_spec fuel a l r d b hi S M :
  core b (a + 1) hi S M -> a + 1 < hi -> -1 <= a -> a + 1 <= l < r -> r <= N ->
  N + 2 < 2 * 2 ^ Z.of_nat fuel ->
  exists d' b', sack_block junk fuel a (l, r) (d, b) = Ok (d', b') /\
    core b' (a + 1) (Z.max hi r) (S ∪ part l r) (M ∖ part l r) /\
    d' + Z.of_nat (size (M ∖ part l r)) = d + Z.of_nat (size M).
Proof.
  intros H Hlt Ha Hl Hr Hf. unfold sack_block. cbn [fst snd].
  destruct (extend_right_spec fuel r a b hi S M H Hlt ltac:(lia) Hr) as (b1 & -> & H1 & _).
  { pose proof (c_sized _ _ _ _ _ H) as [Hs _]. nia. }
  cbn [rbind].
  destruct (first_node _ _ _ _ _ H1 ltac:(lia)) as (v & -> & Ev & _). cbn [rbind]. rewrite Ev.
  assert (E0 : part l (a + 1) = ∅) by (apply set_eq; intros x; rewrite elem_of_part; set_solver by lia).
  destruct (for_loop_spec (fun i '(d', b') => core b' (a + 1) (Z.max hi r) (S ∪ part l i) (M ∖ part l i) /\
      d' + Z.of_nat (size (M ∖ part l i)) = d + Z.of_nat (size M)) (a + 1) r (cover l r) (d, b1))
    as ([d2 b2] & -> & H2 & D2); [lia| | |].
  - rewrite E0, union_empty_r_L, difference_empty_L. by split.
  - intros i [d2 b2] Hi (H2 & D2).
    destruct (cover_spec l r b2 (a + 1) (Z.max hi r) S M i d2 H2) as (d3 & b3 & E3 & H3 & D3); [lia|lia|].
    exists (d3, b3). split; [done|]. split; [done|]. lia.
  - by exists d2, b2.
Qed.

(** ** [UpdateScoreBoard] *)

Lemma sack_blocks_spec fuel a bs : forall d b hi S M,
  core b (a + 1) hi S M -> a + 1 < hi -> -1 <= a -> hi = a + 2 \/ hi - 1 ∈ S ->
  Forall (fun k => a + 1 <= k.1 < k.2 /\ k.2 <= N) bs -> N + 2 < 2 * 2 ^ Z.of_nat fuel ->
  exists d' b' hi', sack_blocks junk fuel a bs (d, b) = Ok (d', b') /\
    core b' (a + 1) hi' (S ∪ blocks_set bs) (M ∖ blocks_set bs) /\
    d' + Z.of_nat (size (M ∖ blocks_set bs)) = d + Z.of_nat (size M) /\
    (bs <> [] \/ hi - 1 ∈ S -> hi' - 1 ∈ S ∪ blocks_set bs).
Proof.
  induction bs as [|[l r] bs IH]; intros d b hi S M H Hlt Ha Hhi Hbs Hf; cbn [sack_blocks].
  - assert (E0 : blocks_set [] = ∅) by done. rewrite E0, union_empty_r_L, difference_empty_L.
    exists d, b, hi. split_and!; [done|done|done|]. by intros [?|?].
  - apply Forall_cons in Hbs as [[Hl Hr] Hbs]. cbn [fst snd] in *.
    destruct (sack_block_spec fuel a l r d b hi S M H Hlt Ha Hl Hr Hf) as (d1 & b1 & -> & H1 & D1). cbn [rbind].
    assert (Hhi' : Z.max hi r - 1 ∈ S ∪ part l r).
    { rewrite elem_of_union, elem_of_part. destruct (decide (hi <= r)); [right; lia|].
      left. rewrite Z.max_l by lia. destruct Hhi as [->|]; [lia|done]. }
    destruct (IH d1 b1 (Z.max hi r) (S ∪ part l r) (M ∖ part l r) H1) as (d' & b' & hi' & -> & H2 & D2 & T2);
      [lia|done|by right|done|done|].
    assert (E1 : S ∪ part l r ∪ blocks_set bs = S ∪ blocks_set ((l, r) :: bs)) by (unfold blocks_set, part; cbn; set_solver).
    assert (E2 : M ∖ part l r ∖ blocks_set bs = M ∖ blocks_set ((l, r) :: bs)) by (unfold blocks_set, part; cbn; set_solver).
    rewrite E1 in *. rewrite E2 in *. exists d', b', hi'. split_and!; [done|done|lia|]. intros _. apply T2. by right.
Qed.

(** What the scoreboard stands for. *)
Definition sb_rep b (s : board) : Prop := core b (una s) (top s) (sacked s) (marked s).

Lemma core_top b hi (s : board) :
  core b (una s) hi (sacked s) (marked s) -> hi = una s \/ hi - 1 ∈ sacked s -> sb_rep b s.
Proof.
  intros H Hhi. unfold sb_rep. destruct (top_spec s) as (T1 & T2 & T3).
  pose proof (c_range _ _ _ _ _ H). replace (top s) with hi; [done|].
  destruct Hhi as [->|Hin].
  - destruct (decide (una s < top s)) as [Ht|]; [|lia]. apply T3 in Ht. apply (c_S _ _ _ _ _ H) in Ht. lia.
  - pose proof (T2 _ Hin). destruct (decide (una s < top s)) as [Ht|]; [|pose proof (c_S _ _ _ _ _ H _ Hin); lia].
    apply T3 in Ht. apply (c_S _ _ _ _ _ H) in Ht. lia.
Qed.

Lemma sb_top b (s : board) : sb_rep b s -> top s = una s \/ top s - 1 ∈ sacked s.
Proof. intros H. destruct (top_spec s) as (T1 & _ & T3). destruct (decide (una s < top s)); [right; by apply T3|left; lia]. Qed.

Lemma sb_update_spec fuel a bs b s :
  sb_rep b s -> ack_above N s a bs -> N + 2 < 2 * 2 ^ Z.of_nat fuel ->
  exists d b', sb_update junk fuel a bs b = Ok (d, b') /\ sb_rep b' (acked a bs s) /\
    d = Z.of_nat (size (marked s)) - Z.of_nat (size (marked (acked a bs s))).
Proof.
  intros H (Hu & Hbs) Hf. unfold sb_update. pose proof (c_range _ _ _ _ _ H) as Hr0.
  assert (Ha : -1 <= a) by lia.
  destruct (advance_ack_spec a (set_changed 0 b) _ _ _ _ (core_changed _ _ _ _ _ 0 H) Hu) as (d1 & b1 & -> & H1 & D1).
  cbn [rbind]. set (S1 := from (a + 1) (sacked s)) in *. set (M1 := from (a + 1) (marked s)) in *.
  pose proof (sb_top b s H) as Ht. set (hi := Z.max (a + 1) (top s)) in *.
  assert (Hhi : hi = a + 1 \/ hi - 1 ∈ S1).
  { unfold hi, S1. rewrite elem_of_from. destruct (decide (top s <= a + 1)); [left; lia|right].
    rewrite Z.max_r by lia. split; [lia|]. destruct Ht; [lia|done]. }
  destruct bs as [|k bs].
  { cbn [rbind sack_blocks]. exists d1, b1. split; [done|]. unfold acked. fold S1 M1.
    assert (E0 : blocks_set [] = ∅) by done. rewrite E0, union_empty_r_L. cbn [marked sacked].
    assert (M1 ∖ S1 = M1) as ->.
    { apply set_eq. intros x. rewrite elem_of_difference. split; [by intros [? _]|]. intros Hx. split; [done|].
      by apply (c_M _ _ _ _ _ H1). }
    split; [|lia]. by apply (core_top b1 hi (Board (a + 1) S1 M1)). }
  rewrite (core_len _ _ _ _ _ H1).
  assert (Hmid : exists b2 hi2, (if hi =? a + 1 then create a b1 else Ok b1) = Ok b2 /\ core b2 (a + 1) hi2 S1 M1 /\
    a + 1 < hi2 /\ (hi2 = a + 2 \/ hi2 - 1 ∈ S1)).
  { destruct (Z.eqb_spec hi (a + 1)) as [E|E].
    - rewrite E in H1. apply Forall_cons in Hbs as [[? ?] _].
      destruct (create_spec a b1 S1 M1 H1) as (b2 & E2 & K2); [lia|]. exists b2, (a + 2). split_and!; [done|done|lia|by left].
    - exists b1, hi. split_and!; [done|done|unfold hi in *; lia|]. right. by destruct Hhi. }
  destruct Hmid as (b2 & hi2 & -> & H2 & Hlt & Hhi2). cbn [rbind].
  destruct (sack_blocks_spec fuel a (k :: bs) d1 b2 hi2 S1 M1 H2 Hlt Ha Hhi2 Hbs Hf) as (d & b' & hi' & -> & H3 & D3 & T3).
  exists d, b'. split; [done|].
  assert (EM : M1 ∖ blocks_set (k :: bs) = M1 ∖ (S1 ∪ blocks_set (k :: bs))).
  { apply set_eq. intros x. rewrite !elem_of_difference, elem_of_union. split; [|tauto]. intros [Hx ?].
    split; [done|]. pose proof (c_M _ _ _ _ _ H1 x Hx). tauto. }
  rewrite EM in H3, D3. unfold acked. fold S1 M1. cbn [marked]. split; [|lia].
  apply (core_top b' hi'); cbn [una sacked marked]; [done|]. right. apply T3. by left.
Qed.
(** ** The other methods *)

Lemma find_node_spec p b (P : Z -> Prop) n : forall i,
  (forall j, i <= j < i + Z.of_nat n -> exists v, SBNI b j = Ok v /\ (p v = true <-> P j)) ->
  exists z, find_node p n i b = Ok z /\
    ((i <= z < i + Z.of_nat n /\ P z /\ forall x, i <= x < z -> ~ P x) \/
     (z = -1 /\ forall x, i <= x < i + Z.of_nat n -> ~ P x)).
Proof.
  induction n as [|n IH]; intros i Hb; cbn [find_node].
  - exists (-1). split; [done|]. right. split; [done|lia].
  - destruct (Hb i ltac:(lia)) as (v & -> & Hp). cbn [rbind]. destruct (p v) eqn:Ep.
    + exists i. split; [done|]. left. split; [lia|]. split; [by apply Hp|lia].
    + assert (Hni : ~ P i) by (intros HP; apply Hp in HP; congruence).
      destruct (IH (i + 1)) as (z & -> & Hz); [intros j Hj; apply Hb; lia|]. exists z. split; [done|].
      destruct Hz as [(Z1 & Z2 & Z3)|[-> Z3]]; [left; split; [lia|split; [done|]]|right; split; [done|]];
        intros x Hx; (destruct (decide (x = i)) as [->|]; [done|apply Z3; lia]).
Qed.

Lemma lost_node S M i v : node_ok S M i v -> lost v = true <-> i ∉ S /\ i ∉ M.
Proof.
  intros (_ & Ea & Es & Em). unfold lost. rewrite Ea, Z.eqb_refl. cbn [andb].
  rewrite andb_true_iff, !Z.eqb_eq. tauto.
Qed.

Lemma sb_next_spec b s : sb_rep b s -> sb_next b = Ok (next_hole s).
Proof.
  intros H. unfold sb_next. rewrite (core_len _ _ _ _ _ H). destruct (Z.eqb_spec (top s) (una s)) as [E|E].
  - rewrite next_hole_none; [done|]. intros x (Hx & _). lia.
  - pose proof (c_range _ _ _ _ _ H). destruct (first_node _ _ _ _ _ H ltac:(lia)) as (v & -> & Ev & _). cbn [rbind].
    rewrite Ev, (c_len _ _ _ _ _ H).
    destruct (find_node_spec lost b (fun x => x ∉ sacked s /\ x ∉ marked s) (Z.to_nat (top s - una s)) (una s))
      as (z & -> & Hz).
    { intros j Hj. destruct (c_nodes _ _ _ _ _ H j ltac:(lia)) as (w & Ew & Hw). exists w. split; [done|]. by apply lost_node. }
    f_equal. symmetry. destruct Hz as [(Z1 & Z2 & Z3)|[-> Z3]].
    + apply next_hole_is; [split; [lia|done]|]. intros x Hx (_ & Hh). by apply (Z3 x).
    + apply next_hole_none. intros x (Hx & Hh). apply (Z3 x); [lia|done].
Qed.

Lemma unacked_node S M i v : node_ok S M i v -> unacked v = true <-> i ∉ S.
Proof. intros (_ & Ea & Es & _). unfold unacked. rewrite Ea, Z.eqb_refl. cbn [andb]. by rewrite Z.eqb_eq. Qed.

(** The first number from [seqno] on not reported. *)
Lemma sb_unacked_spec b s seqno :
  sb_rep b s -> exists z, GetNextUnacked seqno b = Ok z /\
    ((una s <= seqno <= z /\ z < top s /\ z ∉ sacked s /\ forall x, seqno <= x < z -> x ∈ sacked s) \/
     (z = -1 /\ (seqno < una s \/ forall x, seqno <= x < top s -> x ∈ sacked s))).
Proof.
  intros H. unfold GetNextUnacked. rewrite (core_len _ _ _ _ _ H). pose proof (c_range _ _ _ _ _ H).
  destruct (Z.eqb_spec (top s) (una s)) as [E|E].
  { exists (-1). split; [done|]. right. split; [done|]. destruct (decide (seqno < una s)); [by left|right]. lia. }
  destruct (first_node _ _ _ _ _ H ltac:(lia)) as (v & -> & Ev & _). cbn [rbind].
  rewrite Ev, (c_len _ _ _ _ _ H). replace (una s + (top s - una s)) with (top s) by lia.
  destruct (Z.ltb_spec seqno (una s)); cbn [orb]; [exists (-1); split; [done|right; split; [done|by left]]|].
  destruct (Z.leb_spec (top s) seqno); [exists (-1); split; [done|right; split; [done|right; lia]]|].
  destruct (find_node_spec unacked b (fun x => x ∉ sacked s) (Z.to_nat (top s - seqno)) seqno) as (z & -> & Hz).
  { intros j Hj. destruct (c_nodes _ _ _ _ _ H j ltac:(lia)) as (w & Ew & Hw). exists w. split; [done|]. by eapply unacked_node. }
  exists z. split; [done|]. destruct Hz as [(Z1 & Z2 & Z3)|[-> Z3]].
  - left. split; [lia|]. split; [lia|]. split; [done|]. intros x Hx. destruct (decide (x ∈ sacked s)); [done|].
    by destruct (Z3 x Hx).
  - right. split; [done|]. right. intros x Hx. destruct (decide (x ∈ sacked s)); [done|]. by destruct (Z3 x ltac:(lia)).
Qed.

(** A node inside is marked, whatever is known of it. *)
Lemma sb_mark_spec b s x v' :
  sb_rep b s -> una s <= x < top s -> x ∉ sacked s ->
  (forall v, SBNI b x = Ok v -> node_ok (sacked s) (marked s) x v -> node_ok (sacked s) ({[x]} ∪ marked s) x (v' v)) ->
  exists b', (let! v := SBNI b x in put_node b x (v' v)) = Ok b' /\ sb_rep b' (mark x s).
Proof.
  intros H Hx Hn Hv. destruct (c_nodes _ _ _ _ _ H x Hx) as (v & Ev & Ho). rewrite Ev. cbn [rbind].
  destruct (core_put b (una s) (top s) (sacked s) (marked s) x (v' v) (sacked s) ({[x]} ∪ marked s) H Hx)
    as (b' & -> & H'); [by apply Hv|set_solver|done|]. by exists b'.
Qed.

Lemma sb_clear_spec b s : sb_rep b s -> sb_rep (sb_clear b) (cleared s).
Proof.
  intros H. pose proof (c_sized _ _ _ _ _ H) as [Hs _]. pose proof (c_range _ _ _ _ _ H).
  apply (core_top (sb_clear b) (una s) (cleared s)); [|by left]. unfold cleared. cbn [una sacked marked].
  constructor; cbn; try set_solver; try lia; apply H.
Qed.

Lemma new_rep sbn sz :
  2 <= sz <= 2 ^ 30 -> sz <= Z.of_nat (length sbn) -> 0 <= N -> sb_rep (new_ScoreBoard sbn sz) empty_board.
Proof.
  intros Hs Hl HN0. apply (core_top _ 0 empty_board); [|by left]. constructor; cbn; try set_solver; try lia.
  unfold sized. cbn. lia.
Qed.

(** The array meets the contract. *)
Definition array_board_laws : SackBoardLaws ScoreBoard (ack_above N) (fun _ => True) (H := array_board junk).
Proof.
  refine (@Build_SackBoardLaws ScoreBoard (ack_above N) (fun _ => True) (array_board junk) (fun _ b s => sb_rep b s) _ _ _ _ _).
  - done.
  - intros fuel k b s a bs H Ha _ Hf.
    destruct (sb_update_spec fuel a bs b s H Ha) as (d & b' & E & H' & _); [|by exists d, b'].
    assert (2 ^ 32 <= 2 ^ Z.of_nat fuel) by (apply Z.pow_le_mono_r; lia). lia.
  - intros fuel k b s H _ _. cbn. rewrite (sb_next_spec b s H). cbn [rbind]. by exists b.
  - intros k b s z H Hx Hs _. cbn.
    apply (sb_mark_spec b s z (fun v => Node (seq_no_ v) (ack_flag_ v) (sack_flag_ v) 1 (snd_nxt_ v)) H Hx Hs).
    intros v _ (V1 & V2 & V3 & V4). unfold node_ok. cbn. set_solver.
  - intros fuel k b s H _. exists (sb_clear b). split; [done|]. by apply sb_clear_spec.
Defined.
End board.
