(* ===== verification/ScoreBoardRq.v ===== *)
(** * The scoreboard over a reassembly queue (tcp/scoreboard-rq.h, .cc)

    ScoreBoardRQ keeps the blocks reported in the queue of Rq.v, whose
    [rcv_nxt_] is a reference to the member [sack_min], and one number,
    [h_seqno_], above all it has retransmitted. *)

From stdpp Require Import base numbers list gmap sets sorting.
From Stdlib Require Import ZArith Lia Bool.
From S2P Require Import Prelude.
From S2P Require Import Store.
From S2P Require Import Rq.
From S2P Require Import RqProps.
From S2P Require Import RqAdd.
From S2P Require Import RqTheorems.
From S2P Require Import SackBoard.

Local Open Scope Z_scope.

Record ScoreBoardRQ := BoardRQ { h_seqno_ : Z; rq_ : rq; changed_ : bool }.

(** The queue's [rcv_nxt_] refers to this member. *)
Definition sack_min (b : ScoreBoardRQ) : Z := rcv_nxt_ (rq_ b).

(** The constructor. *)
Definition new_ScoreBoardRQ : ScoreBoardRQ := BoardRQ (-1) (empty_rq (-1)) false.

Definition empty (q : rq) : bool := bool_decide (head_ q = None).

Fixpoint rq_blocks (fuel : nat) (bs : list (Z * Z)) (q : rq) : result rq :=
  match bs with
  | [] => Ok q
  | b :: bs => let! '(_, q) := add fuel b.1 b.2 0 0 q in rq_blocks fuel bs q
  end.

(** [UpdateScoreBoard (last_ack, tcph)] *)
Definition rq_update (fuel : nat) (last_ack : Z) (bs : list (Z * Z)) (b : ScoreBoardRQ)
  : result (Z * ScoreBoardRQ) :=
  let old_total := total_ (rq_ b) in
  let! '(ch, q) :=
    if sack_min b <=? last_ack then
      let q := set_rcv_nxt (wrap_i32 (last_ack + 1)) (rq_ b) in
      if empty q then Ok (false, q) else let! '(_, q) := cleartonxt fuel q in Ok (true, q)
    else Ok (false, rq_ b) in
  let! q := rq_blocks fuel bs q in
  Ok (0, BoardRQ (h_seqno_ b) q (ch || negb (old_total =? total_ q))).

(** [GetNextRetran ()] *)
Definition rq_next (fuel : nat) (b : ScoreBoardRQ) : result (Z * ScoreBoardRQ) :=
  let h := if h_seqno_ b <? sack_min b then sack_min b else h_seqno_ b in
  let! '(seq, fcnt, _, q) := nexthole fuel h (rq_ b) in
  if 0 <? seq then
    if fcnt <=? 0 then Ok (-1, BoardRQ h q (changed_ b))
    else Ok (seq, BoardRQ (if h <? seq then seq else h) q (changed_ b))
  else Ok (-1, BoardRQ h q (changed_ b)).

(** [MarkRetran (retran_seqno)] *)
Definition rq_mark (retran_seqno : Z) (b : ScoreBoardRQ) : ScoreBoardRQ :=
  if h_seqno_ b <=? retran_seqno then BoardRQ (wrap_i32 (retran_seqno + 1)) (rq_ b) (changed_ b) else b.

(** [ClearScoreBoard ()] *)
Definition rq_clear (fuel : nat) (b : ScoreBoardRQ) : result ScoreBoardRQ :=
  let! q := clear fuel (rq_ b) in Ok (BoardRQ (-1) q (changed_ b)).

(** [GetNextUnacked (seqno)] *)
Definition rq_unacked (fuel : nat) (seqno : Z) (b : ScoreBoardRQ) : result (Z * ScoreBoardRQ) :=
  let! '(unacked, _, _, q) := nexthole fuel seqno (rq_ b) in
  Ok (unacked, BoardRQ (h_seqno_ b) q (changed_ b)).

(** [IsEmpty ()], [CheckSndNxt (tcph)]: the program ends. *)
Definition rq_IsEmpty (b : ScoreBoardRQ) : result bool := Fault Aborted.
Definition rq_CheckSndNxt (bs : list (Z * Z)) (b : ScoreBoardRQ) : result (Z * ScoreBoardRQ) := Fault Aborted.

#[export] Instance rq_board : SackBoard ScoreBoardRQ := {
  UpdateScoreBoard := rq_update;
  GetNextRetran := rq_next;
  MarkRetran z b := Ok (rq_mark z b);
  ClearScoreBoard := rq_clear;
}.

(** ** The next hole of the queue *)

Implicit Types (q : rq) (rs : list block).

(** What [cnts] adds, from the counts it starts with. *)
Lemma cnts_loop_spec fuel q pre post : forall blks bytes,
  shape q (pre ++ post) -> (length post < fuel)%nat ->
  exists bytes', cnts_loop fuel (head post.*1) blks bytes (segs q) =
    Ok (match post with [] => blks | _ => wrap_i32 (blks + Z.of_nat (length post)) end, bytes').
Proof.
  revert pre post. induction fuel as [|fuel IH]; intros pre post blks bytes Hs Hf; [lia|].
  destruct post as [|[l [x y]] post]; cbn [cnts_loop fmap list_fmap fst head]; [by exists bytes|].
  destruct (shape_links _ _ _ _ _ _ Hs) as (v & -> & _ & _ & _ & Hn). cbn [rbind length] in *. rewrite Hn.
  destruct (IH (pre ++ [(l, (x, y))]) post (wrap_i32 (blks + 1)) (wrap_i32 (bytes + (endseq_ v - startseq_ v))))
    as (bytes' & ->); [by rewrite <- app_assoc|lia|]. exists bytes'. repeat f_equal.
  destruct post as [|b post]; [by rewrite Nat2Z.inj_succ|].
  rewrite wrap_i32_add. f_equal. cbn [length]. lia.
Qed.

(** The hole at or above [seq] and the number of blocks after it, -1 where
    there is none. *)
Fixpoint hole_of (seq : Z) rs : Z * Z :=
  match rs with
  | [] => (-1, -1)
  | r :: rest =>
      if seq <? r.1 then (seq, Z.of_nat (length rs))
      else if seq <=? r.2 then (r.2, match rest with [] => -1 | _ => Z.of_nat (length rest) end)
      else hole_of seq rest
  end.

Lemma nexthole_loop_spec fuel seq q pre post :
  shape q (pre ++ post) -> (length post < fuel)%nat -> Z.of_nat (length post) < 2 ^ 31 ->
  exists bytes, nexthole_loop fuel seq (head post.*1) q =
    Ok ((hole_of seq post.*2).1, (hole_of seq post.*2).2, bytes).
Proof.
  revert pre post. induction fuel as [|fuel IH]; intros pre post Hs Hf Hb; [lia|].
  destruct post as [|[l [x y]] post]; cbn [nexthole_loop fmap list_fmap fst snd head hole_of]; [by eexists|].
  destruct (shape_links _ _ _ _ _ _ Hs) as (v & Ev & Hx & Hy & _ & Hn). rewrite Ev. cbn [rbind].
  rewrite Hx, Hy, Hn. destruct (Z.ltb_spec seq x) as [H1|H1].
  { unfold cnts. destruct (cnts_loop_spec (S fuel) q pre ((l, (x, y)) :: post) 0 0 Hs Hf) as (bytes & E).
    cbn [fmap list_fmap fst head] in E. rewrite E. cbn [rbind fst snd]. exists bytes.
    rewrite wrap_small by lia. cbn [length]. by rewrite length_fmap. }
  rewrite (proj2 (Z.leb_le _ _) H1). cbn [andb]. cbn [length] in Hf, Hb.
  assert (Hs' : shape q ((pre ++ [(l, (x, y))]) ++ post)) by (by rewrite <- app_assoc).
  destruct (Z.leb_spec seq y) as [H2|H2]; [|by apply (IH _ _ Hs'); lia].
  destruct post as [|[k w] post]; cbn [fmap list_fmap fst snd head]; [by eexists|].
  unfold cnts. destruct (cnts_loop_spec (S fuel) q _ _ 0 0 Hs') as (bytes & E); [cbn [length] in *; lia|].
  cbn [fmap list_fmap fst head] in E. rewrite E. cbn [rbind]. exists bytes.
  rewrite wrap_small by lia. cbn [length]. by rewrite length_fmap.
Qed.

(** The hole is not covered, what is between [seq] and it is, and the count
    tells whether something above is. *)
Lemma hole_of_cases seq rs :
  blocks_ok rs ->
  (hole_of seq rs = (-1, -1) /\ forall z, cov rs z -> z < seq) \/
  (exists h n, hole_of seq rs = (h, n) /\ seq <= h /\ ~ cov rs h /\ (forall z, seq <= z < h -> cov rs z) /\
    ((0 < n /\ exists z, cov rs z /\ h < z) \/ (n = -1 /\ forall z, cov rs z -> z < h))).
Proof.
  induction rs as [|[x y] rs IH]; intros Hok.
  { left. split; [done|]. intros z Hz%cov_nil. done. }
  pose proof Hok as Hok0. apply blocks_ok_cons in Hok as (Hxy & Hok & Hg). cbn [fst snd hole_of] in *.
  assert (Hgap : forall z, cov rs z -> y < z).
  { intros z (r & Hr & Hz). specialize (Hg r Hr). unfold gap in Hg. cbn [snd] in Hg. lia. }
  destruct (Z.ltb_spec seq x) as [H1|H1].
  { right. exists seq, (Z.of_nat (length ((x, y) :: rs))). split; [done|]. split; [lia|]. split.
    { rewrite cov_cons. cbn [fst snd]. intros [?|Hc]; [lia|]. specialize (Hgap _ Hc). lia. }
    split; [lia|]. left. split; [cbn; lia|]. exists x. rewrite cov_cons. cbn [fst snd]. lia. }
  destruct (Z.leb_spec seq y) as [H2|H2].
  - right. exists y. eexists. split; [done|]. split; [done|]. split.
    { rewrite cov_cons. cbn [fst snd]. intros [?|Hc]; [lia|]. specialize (Hgap _ Hc). lia. }
    split; [intros z Hz; apply cov_cons; cbn [fst snd]; lia|].
    destruct rs as [|r rs].
    + right. split; [done|]. intros z [Hz|Hz%cov_nil]%cov_cons; [cbn [fst snd] in Hz; lia|done].
    + left. split; [cbn [length]; lia|]. exists r.1. split; [apply cov_cons; right; apply cov_cons; left|].
      * apply blocks_ok_cons in Hok as (? & _). lia.
      * apply (Hg r). left.
  - destruct (IH Hok) as [(-> & Hz)|(h & n & -> & Hh & Hn & Hc & Hr)].
    + left. split; [done|]. intros z [Hz'|Hz']%cov_cons; [cbn [fst snd] in Hz'; lia|by apply Hz].
    + right. exists h, n. split; [done|]. split; [done|]. split; [rewrite cov_cons; cbn [fst snd]; intros [?|?]; [lia|done]|].
      split; [intros z Hz; apply cov_cons; right; by apply Hc|].
      destruct Hr as [(Hr & z & Hz & Hhz)|(-> & Hr)]; [left|right]; split; try done.
      * exists z. split; [by apply cov_cons; right|done].
      * intros z [Hz|Hz]%cov_cons; [cbn [fst snd] in Hz; lia|by apply Hr].
Qed.

(** ** What a state stands for *)

Lemma set_hint_shape x q fs : shape q fs -> shape (set_hint x q) fs.
Proof. intros (ls & F & Hr & Hp & Ht). exists ls, F. by split; [destruct Hr|]. Qed.

Lemma set_rcv_shape x q fs : shape q fs -> shape (set_rcv_nxt x q) fs.
Proof. intros (ls & F & Hr & Hp & Ht). exists ls, F. by split; [apply set_rcv_rep|]. Qed.

(** Separate blocks in a range are no more than its numbers. *)
Lemma blocks_few rs lo hi :
  blocks_ok rs -> (forall z, cov rs z -> lo <= z < hi) -> lo <= hi -> Z.of_nat (length rs) <= hi - lo.
Proof.
  revert lo. induction rs as [|[x y] rs IH]; intros lo Hok Hc Hle; [cbn; lia|].
  apply blocks_ok_cons in Hok as (Hxy & Hok & Hg). cbn [fst snd length] in *.
  assert (Hx : lo <= x < hi) by (apply Hc, cov_cons; cbn [fst snd]; lia).
  assert (Z.of_nat (length rs) <= hi - (x + 1)); [|lia]. apply IH; [done| |lia].
  intros z Hz. split; [|apply Hc, cov_cons; by right].
  destruct Hz as (r & Hr & Hz). specialize (Hg r Hr). unfold gap in Hg. cbn [snd] in Hg. lia.
Qed.

Section board.
Variable N : Z.
Hypothesis HN : N <= 2 ^ 28.

(** The blocks are those reported; all that is lost below [h_seqno_] has been
    sent again, and nothing else has. *)
Record rq_rep (k : nat) (b : ScoreBoardRQ) (s : board) : Prop := {
  r_blocks : exists rs, holds (rq_ b) rs /\ (length rs <= k)%nat /\ forall z, cov rs z <-> z ∈ sacked s;
  r_una : 0 <= una s;
  r_min : sack_min b = una s \/ (sack_min b = -1 /\ una s = 0);
  r_new : sack_min b = -1 -> sacked s = ∅;
  r_range z : z ∈ sacked s -> una s < z < N;
  r_h : -1 <= h_seqno_ b;
  r_marks z : una s <= z -> z ∉ sacked s -> (z ∈ marked s <-> z < h_seqno_ b);
}.

Lemma new_rq_rep : rq_rep 0 new_ScoreBoardRQ empty_board.
Proof.
  constructor; cbn; try set_solver; try lia; [|intros z; rewrite elem_of_empty; lia].
  exists []. split; [apply holds_empty|]. split; [done|]. intros z. rewrite cov_nil. set_solver.
Qed.

(** The blocks of one acknowledgment, all above [rcv_nxt_]. *)
Lemma rq_blocks_spec fuel bs : forall q rs,
  holds q rs -> (length rs + length bs < fuel)%nat ->
  (forall z, cov rs z -> rcv_nxt_ q < z) -> Forall (fun b => rcv_nxt_ q < b.1 < b.2) bs ->
  exists q' rs', rq_blocks fuel bs q = Ok q' /\ holds q' rs' /\ (length rs' <= length rs + length bs)%nat /\
    (forall z, cov rs' z <-> cov rs z \/ z ∈ blocks_set bs) /\ rcv_nxt_ q' = rcv_nxt_ q.
Proof.
  induction bs as [|[x y] bs IH]; intros q rs Hh Hf Hlow Hbs; cbn [rq_blocks length fst snd] in *.
  - exists q, rs. split; [done|]. split; [done|]. split; [lia|]. split; [|done]. intros z.
    unfold blocks_set. cbn. set_solver.
  - apply Forall_cons in Hbs as [Hb Hbs]. cbn [fst snd] in Hb.
    destruct (add_spec fuel x y 0 0 q rs Hh) as (fl & q1 & rs1 & -> & Hh1 & [Hc1 (r & Hr & Hw & Hn)] & Hl); [lia|lia|].
    cbn [rbind].
    assert (Hlow1 : forall z, cov rs1 z -> rcv_nxt_ q < z) by (intros z [Hz|Hz]%Hc1; [by apply Hlow|lia]).
    assert (Hr1 : rcv_nxt_ q < r.1).
    { apply Hlow1. exists r. split; [done|]. pose proof (blocks_ok_elem _ _ (h_ok _ _ Hh1) Hr). lia. }
    rewrite (proj2 (Z.leb_gt _ _) Hr1) in Hn. rewrite <- Hn in Hlow1, Hbs.
    destruct (IH q1 rs1 Hh1 ltac:(lia) Hlow1 Hbs) as (q' & rs' & -> & Hh' & Hl' & Hc' & Hn').
    exists q', rs'. split; [done|]. split; [done|]. split; [lia|]. split; [|congruence].
    intros z. rewrite Hc', Hc1. rewrite !elem_of_blocks. setoid_rewrite elem_of_cons. split.
    + intros [[?|?]|(b & ? & ?)]; [by left|right; exists (x, y); cbn; auto|right; eauto].
    + intros [?|(b & [->|?] & Hz)]; [auto|cbn in Hz; auto|right; eauto].
Qed.

(** The cumulative part. *)
Lemma rq_cut_spec fuel k b s a :
  rq_rep k b s -> (k < fuel)%nat -> una s <= a + 1 <= N -> a + 1 ∉ sacked s ->
  exists ch q rs, (if sack_min b <=? a then
      let q := set_rcv_nxt (wrap_i32 (a + 1)) (rq_ b) in
      if empty q then Ok (false, q) else let! '(_, q) := cleartonxt fuel q in Ok (true, q)
    else Ok (false, rq_ b)) = Ok (ch, q) /\
    holds q rs /\ (length rs <= k)%nat /\ rcv_nxt_ q = a + 1 /\
    forall z, cov rs z <-> a + 1 <= z /\ z ∈ sacked s.
Proof.
  intros [(rs & Hh & Hl & Hc) H2 H4 Hn0 H5 H6 H7] Hf Hu Hn. destruct (Z.leb_spec (sack_min b) a) as [Hm|Hm].
  - cbn zeta. rewrite wrap_small by lia. destruct Hh as [(fs & Hs & Hfs) Hok _].
    assert (Hs' := set_rcv_shape (a + 1) _ _ Hs). unfold empty.
    destruct (bool_decide_reflect (head_ (set_rcv_nxt (a + 1) (rq_ b)) = None)) as [He|He].
    + rewrite (shape_head _ _ Hs') in He. destruct fs; [|done]. cbn in Hfs. subst rs.
      eexists false, _, []. split; [done|]. split; [|split; [cbn; lia|split; [done|]]].
      * split; [by exists []|done|]. by intros r Hr%not_elem_of_nil.
      * intros z. rewrite <- Hc, !cov_nil. tauto.
    + unfold cleartonxt. cbn [rcv_nxt_ set_rcv_nxt]. rewrite <- Hfs in *. rewrite length_fmap in Hl.
      destruct (clearto_blocks fuel (a + 1) _ fs Hs' Hok) as (fl & q & fs' & -> & Hsq & Hokq & _ & Hab & Hlq & Hrn); [lia|].
      cbn [rbind]. assert (Hcov : forall z, cov fs'.*2 z <-> a + 1 <= z /\ z ∈ sacked s).
      { intros z. rewrite (Hab z), Hc. tauto. }
      exists true, q, fs'.*2. split; [done|]. rewrite length_fmap. split; [|split; [lia|by split]].
      split; [by exists fs'|done|]. intros r Hr Hle. exfalso. rewrite Hrn in Hle. cbn in Hle.
      assert (Hr1 : cov fs'.*2 r.1) by (exists r; pose proof (blocks_ok_elem _ _ Hokq Hr); split; [done|lia]).
      apply Hcov in Hr1 as [Hr1 Hin]. replace (a + 1) with r.1 in Hn by lia. done.
  - assert (Hmu : sack_min b = una s) by (destruct H4 as [?|[? ?]]; lia).
    exists false, (rq_ b), rs. split; [done|]. split; [done|]. split; [done|].
    change (rcv_nxt_ (rq_ b)) with (sack_min b). split; [lia|]. intros z. rewrite Hc. split; [|tauto].
    intros Hz. split; [specialize (H5 z Hz); lia|done].
Qed.

Lemma rq_update_spec fuel k b s a bs :
  rq_rep k b s -> receiver_ack N s a bs -> (k + length bs < fuel)%nat ->
  exists b', rq_update fuel a bs b = Ok (0, b') /\ rq_rep (k + length bs) b' (acked a bs s).
Proof.
  intros H [(Hu & Hbs) Hex] Hf. cbn [sacked acked] in Hex. rewrite elem_of_union, elem_of_from in Hex.
  destruct (rq_cut_spec fuel k b s a H ltac:(lia) Hu) as (ch & q & rs & E & Hh & Hl & Hn & Hc).
  { intros ?. apply Hex. left. split; [lia|done]. }
  unfold rq_update. cbn zeta in E |- *. rewrite E. cbn [rbind].
  assert (Hbs' : Forall (fun b => rcv_nxt_ q < b.1 < b.2) bs).
  { rewrite Forall_forall in Hbs |- *. intros [x y] Hb. specialize (Hbs _ Hb). cbn [fst snd] in *. rewrite Hn.
    assert (x <> a + 1); [|lia]. intros ->. apply Hex. right. apply elem_of_blocks.
    exists (a + 1, y). cbn. split; [done|lia]. }
  destruct (rq_blocks_spec fuel bs q rs Hh ltac:(lia)) as (q' & rs' & -> & Hh' & Hl' & Hc' & Hn'); [|done|].
  { intros z [Hz1 Hz2]%Hc. rewrite Hn. assert (z <> a + 1); [|lia]. intros ->. apply Hex. left. split; [lia|done]. }
  cbn [rbind]. eexists. split; [done|].
  assert (Hcov : forall z, cov rs' z <-> z ∈ sacked (acked a bs s)).
  { intros z. rewrite Hc', Hc. cbn [sacked acked]. by rewrite elem_of_union, elem_of_from. }
  destruct H as [_ R2 R4 Rn R5 R6 R7]. constructor; cbn [una rq_ h_seqno_ acked] in *; try lia.
  - exists rs'. split; [done|]. split; [lia|done].
  - left. unfold sack_min. cbn. lia.
  - unfold sack_min. cbn. lia.
  - intros z [Hz|Hz]%Hcov%Hc'.
    + apply Hc in Hz as [Hz1 Hz2]. specialize (R5 z Hz2). assert (z <> a + 1); [|lia]. intros ->. apply Hex. left.
      split; [lia|done].
    + apply elem_of_blocks in Hz as (blk & Hb & Hz). rewrite Forall_forall in Hbs, Hbs'.
      specialize (Hbs blk Hb). specialize (Hbs' blk Hb). cbn in *. lia.
  - intros z Hz Hs. cbn [sacked marked acked] in *. rewrite elem_of_difference, elem_of_from.
    rewrite elem_of_union, elem_of_from in Hs. rewrite <- (R7 z) by (lia || tauto).
    rewrite elem_of_union, elem_of_from. tauto.
Qed.

(** The bounds of what is reported. *)
Lemma rq_few k b s rs :
  rq_rep k b s -> blocks_ok rs -> (forall z, cov rs z <-> z ∈ sacked s) -> Z.of_nat (length rs) < 2 ^ 31.
Proof.
  intros H Hok Hc. destruct rs as [|r rs]; [cbn; lia|]. assert (Hz : forall z, cov (r :: rs) z -> 0 <= z < N).
  { intros z Hz%Hc. pose proof (r_una _ _ _ H). pose proof (r_range _ _ _ H z Hz). lia. }
  assert (Hr : cov (r :: rs) r.1).
  { exists r. split; [left|]. pose proof (blocks_ok_elem _ r Hok ltac:(left)). lia. }
  pose proof (blocks_few _ 0 N Hok Hz). specialize (Hz _ Hr). lia.
Qed.

(** The number [GetNextRetran] starts from. *)
Definition start_at (b : ScoreBoardRQ) : Z := if h_seqno_ b <? sack_min b then sack_min b else h_seqno_ b.

Lemma start_marks k b s z :
  rq_rep k b s -> una s <= z -> z ∉ sacked s -> (z ∈ marked s <-> z < start_at b).
Proof.
  intros H Hz Hn. rewrite (r_marks _ _ _ H z Hz Hn). unfold start_at.
  destruct (Z.ltb_spec (h_seqno_ b) (sack_min b)); destruct (r_min _ _ _ H) as [?|[? ?]]; lia.
Qed.

(** The queue's hole is the board's, if it has one above it. *)
Lemma start_hole k b s rs :
  rq_rep k b s -> blocks_ok rs -> (forall z, cov rs z <-> z ∈ sacked s) ->
  let '(x, n) := hole_of (start_at b) rs in
  (0 <= x /\ 0 < n /\ next_hole s = x /\ start_at b <= x /\ forall z, start_at b <= z < x -> z ∈ sacked s) \/
  (n <= 0 /\ next_hole s = -1).
Proof.
  intros H Hok Hc. destruct (top_spec s) as (T1 & T2 & T3).
  assert (Hge : forall y, hole s y -> start_at b <= y).
  { intros y ((Y1 & Y2) & Y3 & Y4). rewrite (start_marks _ _ _ y H Y1 Y3) in Y4. lia. }
  assert (Ht : forall y, hole s y -> cov rs (top s - 1)) by (intros y ((Y1 & Y2) & _); apply Hc, T3; lia).
  destruct (hole_of_cases (start_at b) rs Hok) as [(-> & Hz)|(x & n & -> & Hx & Hnx & Hb & [(Hpos & w & Hw & Hxw)|(-> & Hend)])].
  - right. split; [lia|]. apply next_hole_none. intros y Hy. pose proof (Hge y Hy).
    pose proof (Hz _ (Ht y Hy)). destruct Hy. lia.
  - left. apply Hc in Hw. rewrite Hc in Hnx.
    pose proof (r_una _ _ _ H). assert (una s <= start_at b).
    { unfold start_at. destruct (r_min _ _ _ H) as [?|[Hm _]]; [|rewrite (r_new _ _ _ H Hm) in Hw; set_solver].
      destruct (Z.ltb_spec (h_seqno_ b) (sack_min b)); lia. }
    split; [lia|]. split; [done|]. split; [|split; [done|intros z Hz; by apply Hc, Hb]].
    apply next_hole_is.
    + specialize (T2 w Hw). split; [lia|]. split; [done|]. intros Hm. apply (start_marks _ _ _ x H) in Hm; [lia|lia|done].
    + intros y Hy Hh. pose proof (Hge y Hh). destruct Hh as (_ & Hn & _). apply Hn, Hc, Hb. lia.
  - right. split; [lia|]. apply next_hole_none. intros y Hy. pose proof (Hge y Hy). pose proof (Hend _ (Ht y Hy)).
    destruct Hy as (? & Hn & _). apply Hn, Hc, Hb. lia.
Qed.

Lemma rq_next_spec fuel k b s :
  rq_rep k b s -> next_hole s <> 0 -> (k < fuel)%nat -> exists b', rq_next fuel b = Ok (next_hole s, b') /\ rq_rep k b' s.
Proof.
  intros H H0 Hf. destruct (r_blocks _ _ _ H) as (rs & Hh & Hl & Hc). pose proof Hh as [(fs & Hs & <-) Hok Hst].
  pose proof (rq_few _ _ _ _ H Hok Hc) as Hcnt. rewrite length_fmap in Hl, Hcnt.
  unfold rq_next, nexthole. fold (start_at b).
  destruct (nexthole_loop_spec fuel (start_at b) (set_hint (head_ (rq_ b)) (rq_ b)) [] fs) as (bytes & E);
    [by apply set_hint_shape|lia|done|].
  rewrite <- (shape_head _ _ (set_hint_shape (head_ (rq_ b)) _ _ Hs)) in E. cbv zeta. rewrite E. cbn [rbind].
  assert (Hrep : forall h', start_at b <= h' -> (forall z, start_at b <= z < h' -> z ∈ sacked s) ->
    rq_rep k (BoardRQ h' (set_hint (head_ (rq_ b)) (rq_ b)) (changed_ b)) s).
  { intros h' Hh' Hin. destruct H as [R1 R2 R4 Rn R5 R6 R7] eqn:EH. clear EH. constructor; try done.
    - exists fs.*2. split; [|by rewrite length_fmap]. split; [|done|exact Hst].
      exists fs. split; [by apply set_hint_shape|done].
    - cbn. unfold start_at in Hh'. destruct (Z.ltb_spec (h_seqno_ b) (sack_min b)); lia.
    - intros z Hz Hn. rewrite (start_marks _ _ _ z H Hz Hn). cbn. split; [lia|]. intros Hlt.
      destruct (Z.lt_ge_cases z (start_at b)); [done|]. destruct Hn. apply Hin. lia. }
  pose proof (start_hole _ _ _ _ H Hok Hc) as Hho. destruct (hole_of (start_at b) fs.*2) as [x n]. cbn [fst snd].
  destruct Hho as [(Hx & Hn & Ex & Hle & Hin)|(Hn & ->)].
  - rewrite Ex in *. rewrite (proj2 (Z.ltb_lt 0 x) ltac:(lia)), (proj2 (Z.leb_gt n 0) Hn). eexists. split; [done|].
    destruct (Z.ltb_spec (start_at b) x); apply Hrep; try done; lia.
  - rewrite (proj2 (Z.leb_le n 0) Hn). destruct (0 <? x); (eexists; split; [done|]; apply Hrep; lia).
Qed.

(** What is sent again is the first that is lost, or has been sent already. *)
Lemma rq_mark_spec k b s z :
  rq_rep k b s -> una s <= z < top s -> z ∉ sacked s -> (forall x, una s <= x < z -> ~ hole s x) ->
  rq_rep k (rq_mark z b) (mark z s).
Proof.
  intros H [Z1 Z2] Z3 Hlow. destruct (top_spec s) as (_ & _ & T3).
  pose proof (r_range _ _ _ H (top s - 1) ltac:(apply T3; lia)).
  assert (Hm : forall y, una s <= y < z -> y ∉ sacked s -> y < h_seqno_ b).
  { intros y Hy Hn. apply (r_marks _ _ _ H y); [lia|done|].
    destruct (decide (y ∈ marked s)); [done|]. destruct (Hlow y Hy). split; [lia|done]. }
  unfold rq_mark. destruct H as [R1 R2 R4 Rn R5 R6 R7]. destruct (Z.leb_spec (h_seqno_ b) z) as [Hge|Hlt].
  - rewrite wrap_small by lia. constructor; try done; cbn [h_seqno_ una sacked marked mark]; [lia|].
    intros y Hy Hn. rewrite elem_of_union, elem_of_singleton, (R7 y Hy Hn). split; [lia|].
    intros ?. destruct (decide (y = z)); [by left|]. right. apply Hm; [lia|done].
  - constructor; try done; cbn [una sacked marked mark].
    intros y Hy Hn. rewrite elem_of_union, elem_of_singleton, (R7 y Hy Hn). split; [lia|]. by right.
Qed.

Lemma rq_clear_spec fuel k b s :
  rq_rep k b s -> (k < fuel)%nat -> exists b', rq_clear fuel b = Ok b' /\ rq_rep k b' (cleared s).
Proof.
  intros [(rs & Hh & Hl & Hc) R2 R4 Rn R5 R6 R7] Hf. destruct Hh as [(fs & Hs & <-) _ _]. rewrite length_fmap in Hl.
  unfold rq_clear. destruct (clear_spec fuel (rq_ b) fs Hs) as (q & -> & Hq & Hn); [lia|]. cbn [rbind].
  eexists. split; [done|]. constructor; cbn [rq_ h_seqno_ una sacked marked cleared]; try done; try lia.
  - exists []. split; [done|]. split; [cbn; lia|]. intros z. rewrite cov_nil. set_solver.
  - unfold sack_min. cbn. by rewrite Hn.
  - intros z. rewrite elem_of_empty. lia.
Qed.

(** The queue meets the contract, for acknowledgments of a receiver; number 0
    it does not give out. *)
Definition rq_board_laws : SackBoardLaws ScoreBoardRQ (receiver_ack N) (fun z => z <> 0).
Proof.
  refine (@Build_SackBoardLaws ScoreBoardRQ (receiver_ack N) (fun z => z <> 0) _ rq_rep _ _ _ _ _).
  - intros k k' b s [(rs & Hh & Hl & Hc) R2 R4 Rn R5 R6 R7] Hk. constructor; try done.
    exists rs. split; [done|]. split; [lia|done].
  - intros fuel k b s a bs H Ha Hf _. destruct (rq_update_spec fuel k b s a bs H Ha Hf) as (b' & E & H').
    by exists 0, b'.
  - exact rq_next_spec.
  - intros k b s z H Hz Hs Hl. eexists. split; [done|]. by apply rq_mark_spec.
  - exact rq_clear_spec.
Defined.
End board.
