(* ===== verification/SackBoardTheorems.v ===== *)
(** * The SACK scoreboards: what they promise

    The array of tcp/scoreboard.cc and the queue of tcp/scoreboard-rq.cc that
    Agent/TCP/Sack1 uses in its place ask for the same segments. *)

From stdpp Require Import base numbers list gmap sets.
From Stdlib Require Import ZArith Lia.
From S2P Require Import Prelude.
From S2P Require Import Array.
From S2P Require Import Rq.
From S2P Require Import RqTheorems.
From S2P Require Import SackBoard.
From S2P Require Import ScoreBoard.
From S2P Require Import ScoreBoardProps.
From S2P Require Import ScoreBoardRq.

Local Open Scope Z_scope.

(** Whatever [new] leaves in the nodes. *)
Definition array_session (junk : nat -> ScoreBoardNode) (fuel : nat) (ops : list board_op) (b : ScoreBoard)
  : result (list Z) := session (H := array_board junk) fuel ops b.

Definition rq_session (fuel : nat) (ops : list board_op) : result (list Z) :=
  session (H := rq_board) fuel ops new_ScoreBoardRQ.

Lemma array_session_spec N junk fuel ops sbn sz :
  0 <= N <= 2 ^ 28 -> 2 <= sz <= 2 ^ 30 -> sz <= Z.of_nat (length sbn) ->
  session_ok (ack_above N) ops empty_board -> (blocks_in ops < fuel)%nat -> (32 < fuel)%nat ->
  array_session junk fuel ops (new_ScoreBoard sbn sz) = Ok (board_run ops empty_board).
Proof.
  intros HN Hsz Hl Hok Hf Hf'. destruct HN as [HN0 HN].
  apply (session_spec (ack_above N) (fun _ => True) (H := array_board junk) (H0 := array_board_laws N HN junk)
    fuel ops 0); try done; [cbn; by apply new_rep|by apply Forall_true].
Qed.

Lemma rq_session_spec N fuel ops :
  N <= 2 ^ 28 -> session_ok (receiver_ack N) ops empty_board -> 0 ∉ board_run ops empty_board ->
  (blocks_in ops < fuel)%nat -> (32 < fuel)%nat ->
  rq_session fuel ops = Ok (board_run ops empty_board).
Proof.
  intros HN Hok H0 Hf Hf'.
  apply (session_spec (receiver_ack N) (fun z => z <> 0) (H := rq_board) (H0 := rq_board_laws N HN) fuel ops 0);
    try done; [cbn; by apply new_rq_rep|].
  apply Forall_forall. by intros z Hz ->.
Qed.

(** A session: three segments lost, one of them again behind a fast
    retransmit, and a timeout. *)
Definition sack_sample : list board_op :=
  [SAck 9 [(12, 14)]; SMark 10; SRetransmit; SRetransmit; SAck 9 [(12, 14); (17, 20)]; SRetransmit; SRetransmit;
   SAck 13 [(17, 20)]; SRetransmit; SClear; SAck 13 [(17, 20)]; SRetransmit].




(** ** What is sent again *)

Definition is_clear (o : board_op) : bool := match o with SClear => true | _ => false end.

Definition sends (zs : list Z) : list Z := filter (fun z => 0 <= z) zs.

(** Without a clear, only what is lost and not sent again yet is sent. *)
Lemma sends_fresh ok ops : (forall s a bs, ok s a bs -> una s <= a + 1) -> forall s,
  session_ok ok ops s -> forallb (negb ∘ is_clear) ops = true ->
  NoDup (sends (board_run ops s)) /\
  forall z, z ∈ sends (board_run ops s) -> una s <= z /\ z ∉ sacked s /\ z ∉ marked s.
Proof.
  intros Hu. induction ops as [|o ops IH]; intros s Hok Hc; [split; [constructor|by intros z Hz%not_elem_of_nil]|].
  cbn [forallb] in Hc. apply andb_true_iff in Hc as [Ho Hc].
  destruct o as [a bs| |x|]; cbn [session_ok board_run] in *; [| | |done].
  - destruct Hok as [Ha Hok]. destruct (IH _ Hok Hc) as [Hn Hz]. split; [done|]. intros z Hin.
    destruct (Hz z Hin) as (H1 & H2 & H3). cbn [una sacked marked acked] in *. specialize (Hu _ _ _ Ha).
    rewrite elem_of_union, elem_of_from in H2. rewrite elem_of_difference, elem_of_union, !elem_of_from in H3.
    split; [lia|]. split; intros ?; [apply H2; left; by split|]. apply H3. split; [by split|tauto].
  - destruct (IH _ Hok Hc) as [Hn Hz]. unfold retransmitted, sends in *. rewrite filter_cons.
    destruct (Z.ltb_spec (next_hole s) 0); [rewrite decide_False by lia; by split|]. rewrite decide_True by lia.
    apply next_hole_hole in H as (H1 & H2 & H3). cbn [una sacked marked mark] in *. split.
    + constructor; [|done]. intros Hin. destruct (Hz _ Hin) as (_ & _ & Hm). apply Hm. set_solver.
    + intros z [->|Hin]%elem_of_cons; [split; [lia|done]|]. destruct (Hz z Hin) as (? & ? & ?). set_solver.
  - destruct Hok as [_ Hok]. destruct (IH _ Hok Hc) as [Hn Hz]. split; [done|]. intros z Hin.
    destruct (Hz z Hin) as (? & ? & ?). cbn [una sacked marked mark] in *. set_solver.
Qed.

(** Once segment 0 is acknowledged with every block, it is not asked for. *)
Lemma never_zero N ops : forall s,
  session_ok (exact_ack_ok N) ops s -> 0 <= una s -> (una s = 0 -> sacked s = ∅) -> 0 ∉ board_run ops s.
Proof.
  induction ops as [|o ops IH]; intros s Hok Hu H0; [by apply not_elem_of_nil|].
  destruct o as [a bs| |x|]; cbn [session_ok board_run] in *.
  - destruct Hok as [[(Ha & Hu' & _) _] Hok]. apply IH; [done|cbn; lia|cbn; lia].
  - assert (next_hole s <> 0).
    { intros E. destruct (next_hole_hole s ltac:(lia)) as ((H1 & H2) & _). destruct (top_spec s) as (_ & _ & H3).
      rewrite E in *. assert (una s = 0) as Eu by lia. rewrite (H0 Eu) in H3. set_solver by lia. }
    intros [E|Hin]%elem_of_cons; [by symmetry in E|]. revert Hin.
    unfold retransmitted in *. destruct (next_hole s <? 0); by apply IH.
  - destruct Hok as [_ Hok]. by apply IH.
  - by apply IH.
Qed.

Lemma exact_session N ops :
  session_ok (exact_ack_ok N) ops empty_board ->
  session_ok (receiver_ack N) ops empty_board /\ session_ok (ack_above N) ops empty_board /\
  0 ∉ board_run ops empty_board.
Proof.
  intros Hok. split_and!; [| |by apply (never_zero N)].
  - eapply session_ok_mono; [|exact Hok]. by intros s a bs [[_ ?] ?].
  - eapply session_ok_mono; [|exact Hok]. by intros s a bs [[_ ?] _].
Qed.

(** C19: (safety) Until the scoreboard is cleared, neither scoreboard has a
    segment sent twice: whatever acknowledgments come, both return, and of
    the numbers they give out to send again no two are the same. *)
Theorem never_sent_twice junk fuel N ops sbn sz
  (HN : 0 <= N <= 2 ^ 28) (Hsz : 2 <= sz <= 2 ^ 30) (Hl : sz <= Z.of_nat (length sbn))
  (Hok : session_ok (exact_ack_ok N) ops empty_board) (Hc : forallb (negb ∘ is_clear) ops = true)
  (Hf : (blocks_in ops < fuel)%nat) (Hf' : (32 < fuel)%nat) :
  exists zs, array_session junk fuel ops (new_ScoreBoard sbn sz) = Ok zs /\ rq_session fuel ops = Ok zs /\
    NoDup (sends zs).
Proof.
  destruct (exact_session N ops Hok) as (H1 & H2 & H3). exists (board_run ops empty_board). split; [|split].
  - by apply (array_session_spec N).
  - apply (rq_session_spec N); [lia|done..].
  - apply (sends_fresh (exact_ack_ok N) ops); [|done|done]. intros s a bs [(_ & ? & _) _]. lia.
Qed.

Lemma never_sent_twice_witness :
  let ops := take 9 sack_sample in
  exists zs, array_session (fun _ => new_node 7) 40 ops (new_ScoreBoard (replicate 4 (new_node 7)) 4) = Ok zs /\
    rq_session 40 ops = Ok zs /\ NoDup (sends zs).
Proof.
  apply (never_sent_twice _ 40 (2 ^ 28)); [lia|lia|cbn; lia| |reflexivity|cbn; lia|lia].
  apply (bool_decide_eq_true_1 _). vm_compute. reflexivity.
Defined.

(** A block below the acknowledgment, as a duplicate report is, moves
    [sack_min] back: numbers that were acknowledged are sent again.  The array
    lets it pass. *)
Lemma duplicate_report_resends :
  let ops := [SAck 9 [(12, 14)]; SAck 9 [(5, 6); (12, 14)]; SRetransmit; SRetransmit; SRetransmit] in
  rq_session 40 ops = Ok [6; 7; 8] /\
  array_session (fun _ => new_node 7) 40 ops (new_ScoreBoard (replicate 4 (new_node 7)) 4) = Ok [10; 11; -1].
Proof. vm_compute. split; reflexivity. Qed.

(** A mark made before any block is reported, as by the fast retransmit of a
    sender without reports, holds for the queue and is lost on the array. *)
Lemma early_mark_differs :
  let ops := [SAck 9 []; SMark 10; SAck 9 [(12, 14)]; SRetransmit] in
  rq_session 40 ops = Ok [11] /\
  array_session (fun _ => new_node 7) 40 ops (new_ScoreBoard (replicate 4 (new_node 7)) 4) = Ok [10].
Proof. vm_compute. split; reflexivity. Qed.

(** Where nothing is unacknowledged below the end of what is reported,
    [GetNextUnacked] of the array gives -1; that of the queue gives the end. *)
Lemma next_unacked_differs :
  (let! '(_, b) := rq_update 40 9 [(12, 14)] new_ScoreBoardRQ in
   let! '(z, _) := rq_unacked 40 12 b in Ok z) = Ok 14 /\
  (let! '(_, b) := sb_update (fun _ => new_node 7) 40 9 [(12, 14)] (new_ScoreBoard (replicate 4 (new_node 7)) 4) in
   GetNextUnacked 12 b) = Ok (-1).
Proof. vm_compute. split; reflexivity. Qed.

(** Number 0 is no hole for the queue: a first segment that is lost has to be
    sent again by other means. *)
Lemma first_segment_not_resent :
  let ops := [SAck (-1) [(2, 4)]; SRetransmit] in
  rq_session 40 ops = Ok [-1] /\
  array_session (fun _ => new_node 7) 40 ops (new_ScoreBoard (replicate 4 (new_node 7)) 4) = Ok [0].
Proof. vm_compute. split; reflexivity. Qed.
